(* ===== verification/_CoqProject ===== *)
-Q . S2P
Prelude.v
CLib.v
ParsingHelpers.v
RewriteHelpers.v
BpfMaps.v
XdpStats.v
XdpProgram.v
XdpDispatch.v
XdpPin.v
XdpMultiprog.v
XdpAttach.v
XdpPacket.v
RingBuf.v
RingBufMgr.v
UserRingBuf.v
CommonParams.v
CommonUserXdp.v
CommonLibbpf.v
XdpPacketLoad.v
XdpFilter.v
XdpFilterCmd.v
XdpFilterLoad.v
XdpFilterPin.v
TcpEvent.v
TcpAnalyseBpf.v
TcpAnalyse.v
TcpAnalyseService.v
Shm.v
ServiceApp.v
Proxy.v
Hashmap.v
Strset.v
Zip.v
Nlattr.v
Netlink.v
NetlinkTc.v
XdpNetlink.v
Btf.v
BtfParse.v
BtfQuery.v
BtfAdd.v
BtfBuild.v
BtfDecl.v
BtfOps.v
BtfCalls.v
BtfRun.v
BtfCopy.v
BtfCopied.v
BtfCopyDecl.v
BtfCopyRun.v
XskRing.v
XskProg.v
XskRefcnt.v
XskSocket.v
