(* ===== verification/Prelude.v ===== *)
(** * Verification of network_analyse

    The repository measures TCP traffic with BPF.  Its parts, and how they
    interact:

    - an XDP program reports the TCP packets of an interface to a ring buffer
      (src/xdp/xdp_packet_kern.c); a loader attaches it, reads the ring
      buffer and prints (src/xdp/xdp_packet_load.c).  The loader uses the
      command line and loading functions of src/common, those call libxdp
      (src/lib/xdp-tools/lib/libxdp) and libbpf (src/lib/libbpf), and libxdp
      calls libbpf's netlink client;
    - two tracers hook the kernel's TCP functions on the client's and the
      service's side (src/ebpf_for_client, src/ebpf_for_service), each with BPF
      programs and a user program that prints the events;
    - a demo service to be measured: client and server (src/service), a proxy
      between them (src/proxy), a shared memory channel (src/shm.c) and
      helpers (src/utils.cpp, src/common/common.cpp).

    ** Files

    Every file names the sources it models; definitions have the names of the
    functions and types they model.

    - Prelude: C integers at their width, memory as a list of bytes with loads
      and stores, strings, shared lemmas and tactics.
    - CLib: error numbers, printf conversions, strncpy, snprintf, strtol and
      inet_ntop.
    - ParsingHelpers, RewriteHelpers, XdpStats: the header files of src/common
      for BPF programs (parsing_helpers.h, rewrite_helpers.h,
      xdp_stats_kern.h).
    - BpfMaps: classes for the kernel's maps and ring buffer, with their
      laws and instances; the BPF programs are proved against them.
    - XdpPacket: [xdp_prog] of xdp_packet_kern.c on packet memory.
    - RingBuf, RingBufMgr, UserRingBuf: libbpf's ringbuf.c.  RingBuf is the
      loop over a ring while the kernel produces, RingBufMgr the set of rings with
      mappings, descriptors and polling, UserRingBuf the direction from user
      to kernel.
    - CommonParams, CommonUserXdp, CommonLibbpf: common_params.c,
      common_user_bpf_xdp.c and common_libbpf.c.
    - XdpPacketLoad: the loader's [main], composed of the three above, of the
      ring buffer manager and of the records of XdpPacket.
    - XdpProgram, XdpDispatch, XdpPin, XdpMultiprog, XdpAttach: libxdp.c.
      XdpProgram is the program object, its configuration in BTF and the
      order of programs; XdpDispatch generates the dispatcher that
      runs several programs, and is the dispatcher (xdp-dispatcher.c.in); XdpPin
      keeps its programs in the BPF file system; XdpMultiprog finds it again
      from what the kernel reports; XdpAttach attaches and
      detaches while other processes do.
    - Hashmap, Strset, Zip: libbpf's hashmap.c, strset.c and zip.c.
    - Nlattr, Netlink, NetlinkTc: libbpf's nlattr.c and netlink.c.  Nlattr is
      the attributes in memory, Netlink the exchange with the kernel and the XDP
      requests, NetlinkTc the traffic control requests.
    - XdpNetlink: libxdp on the netlink client.
    - Btf, BtfParse, BtfQuery: the part of libbpf's btf.c that reads type
      information.  Btf is the code: parsing, checks, queries and writing;
      BtfParse and BtfQuery are what it guarantees.
    - BtfAdd, BtfBuild, BtfDecl, BtfOps, BtfCalls, BtfRun: the part of btf.c
      that adds strings and types.  BtfAdd is the code; BtfBuild is the
      state of an object and of its strings, BtfDecl the steps the functions
      are made of, BtfOps the declarations that specify them, BtfCalls each
      function, and BtfRun sequences of calls.
    - BtfCopy, BtfCopied, BtfCopyDecl, BtfCopyRun: the part of btf.c that
      copies types from one object to another.  BtfCopy is the code; BtfCopied
      is the visits of copied words, BtfCopyDecl what they make of a
      declaration, and BtfCopyRun the calls.
    - XskRing, XskProg, XskRefcnt, XskSocket: libxdp's AF_XDP sockets (xsk.h,
      xsk.c, xsk_def_xdp_prog.c).  XskRing is the rings shared with the kernel,
      XskProg the default program and finding it, XskRefcnt the processes that
      share it, XskSocket umems, contexts and sockets over a heap.
    - XdpFilter, XdpFilterCmd, XdpFilterLoad, XdpFilterPin: xdp-filter, a packet filter that
      comes with libxdp (src/lib/xdp-tools/xdp-filter).  XdpFilter is its XDP
      program with the parsing helpers of src/lib/xdp-tools/headers,
      XdpFilterCmd the commands that change the rules while packets arrive,
      XdpFilterLoad the choice of a program, loading, the removal of maps and
      the lock, XdpFilterPin unloading with the pinned programs.
    - TcpEvent, TcpAnalyseBpf, TcpAnalyse, TcpAnalyseService: the tracers.
      TcpEvent is what their BPF programs share.
    - Shm, ServiceApp, Proxy: the demo service.

    ** How the code is modelled

    - Integers are [Z]; wrap-around is written as [u8] ... [u64], [s32], [s64]
      where the code has that type.
    - Memory is a list of bytes and a pointer an offset.  A load or
      store outside gives [None], and so does every other undefined behaviour; a
      function that can fail in the C sense returns its error number. A
      theorem that says a function returns [Some] thus says that it is defined.
    - System calls, the kernel, libbpf's object loader and the C library's
      qsort are not part of the sources: their answers are arguments
      (records of answers, lists of answers in the order of the calls, or
      functions of the call's arguments), and calls may fail; where a theorem
      leaves out a failure, its comment says so.  What is
      relied on is a named law ([BpfHashOk], [KRingbuf], [XdpAdjust],
      [kern_ok], [react_ok], ...), and every theorem with such a law
      has a witness with a concrete instance.
    - Where processes run at the same time, the others' steps are explicit:
      RingBuf runs a call against a history of the shared memory, Shm
      is a step relation of two processes and XskRefcnt of any number, XdpAttach
      lets others change the interface between any two calls, and Proxy and
      ServiceApp are state machines over events.

    ** What is shown

    - Memory safety: any chain of parsing helpers, the XDP program on any
      stream of packets, the attribute parser on any message, the parser
      of type information and the reader of archives on any data stay inside
      the memory they are given ([parse_chain_safe], [xdp_run_sound],
      [nla_parse_safe], [btf_new_sound], [zip_safe]).
    - What is reported is right: the record of a TCP packet, the lines the
      loader prints, the latency of a connection (which never wraps), the rows
      of the tracers ([xdp_prog_reports_tcp], [poll_prints_ready],
      [connect_latency], [connect_time_never_wraps], [connect_row],
      [service_reports_call]).
    - The packet filter: with commands and packets in any order, also packets in
      the middle of commands, the filter enforces exactly the rules, and counts
      ([filter_enforces_rules]); the verdict of a frame depends on its fields as
      documented ([filter_verdict]); loading ends, closes what it opened and
      chooses the right program ([do_load_spec]); maps in use are never removed
      ([remove_unused_maps_spec], [unload_safe]); the lock excludes
      ([lock_excludes]).
    - Concurrency: reading a ring is one atomic drain of the log whatever
      producers do meanwhile ([ringbuf_process_ring_linearizable],
      [ring_buffer__poll_refines]); a user ring is a log of records
      ([user_ring_refines]); the shared memory channel always ends, and when it starts
      without old objects and no call fails neither deadlocks nor loses
      the message ([shm_terminates_clean], [shm_reader_gets_message]); attaching
      programs overwrites what another process has attached only on a kernel that
      refuses to compare, and detaching
      takes off only what was named ([attach_multi_no_lost_update],
      [detach_multi_takes_off]), also on top of the netlink messages
      ([attach_over_netlink]); the rings of an AF_XDP socket are bounded queues
      ([xsk_prod_refines], [xsk_cons_refines]), and sockets that are counted share the
      default program safely ([xsk_refcnt_safe]); the server hands each connection
      to one worker ([server_one_worker]).
    - Resources: mappings, descriptors and sockets are released
      ([ring_buffer_lifecycle], [main_tap_cleanup], [xsk_umem_create_delete]);
      pinning is undone when it fails, if the undoing does not fail as well
      ([pin_transaction]); creating an AF_XDP socket does all or nothing, up to
      the leftovers that are listed ([xsk_create_all_or_nothing]).
    - Round trips: VLAN tags pushed and parsed; a dispatcher generated,
      pinned, and found again from the kernel's answers
      ([generate_spec], [dispatcher_found_again]), which runs the programs as
      configured ([dispatcher_runs_chain]); netlink requests decoded as the kernel
      reads them and its answers read back ([xdp_attach_request],
      [xdp_query_id_spec], [tc_filter_lifecycle]).
    - Type information: a file is read and written back in either byte order
      ([btf_image_roundtrip]), sizes are right ([resolve_size_spec]), any
      calls of the functions that add types build exactly what they declare, well-formed
      ([btf_add_refines]), it can be written
      and read back ([btf_built_roundtrip]), and copies have the same
      names and refer to each other as in the source ([btf_add_type_copies],
      [btf_add_btf_copies]).
    - Data structures: the hash map is a finite map, the string set gives equal
      strings equal offsets ([hashmap_refines], [strset_interns]), every file of
      an archive is found ([zip_roundtrip]); the comparison of
      programs is an order ([cmp_xdp_programs_order]).
    - Command lines: every command line made of known options is read as
      what it says, and keeps the configuration well formed
      ([parse_cmdline_args_items], [parse_cmdline_args_ok]).

    Where the code does not do what its comments say, a lemma shows it
    (for instance [append_find_first_after_growing],
    [detach_duplicate_detaches_all], [get_from_ifindex_stale],
    [xsk_attacher_failure_detaches], [xsk_hidden_count_detaches],
    [socket_failure_keeps_count], [comp_failure_leaks_fill],
    [other_structs_unmap_own], [old_kernel_loses_update],
    [failed_undo_leaves_pins], [leftover_read], [failed_wait_reads_nothing],
    [proto_return_unchecked], [crowded_counts_none],
    [generate_duplicate_null], [xdp_prog_options_hide_ports],
    [load_again_closes_twice], [lock_lost_by_removal], [remove_absent_adds],
    [unload_removes_maps_in_use], [unload_all_stops], [failed_copy_undefined],
    [empty_copy_fails]).

    ** Bounds and fuel

    - Attribute and message loops get the number of bytes left as fuel: each round
      takes at least four.  The loop over datagrams gets the number of answers: each
      round takes one, and running out of answers is the result [Blocked], a call
      that does not return.
    - getopt's loop gets the size of what is left of the command line; that more
      changes nothing is [parse_loop_fuel].
    - Decimal conversion has 20 digits, enough for 64 bits.
    - The retries of libxdp are bounded in the code (MAX_RETRY), as are
      the programs of a dispatcher (10) and the VLAN tags stripped.
    - The end record of an archive is searched at 2^16 places, as in the code.
    - [do_load] of the filter has 66 rounds of fuel: the limit it doubles in each
      round has 64 bits.  Counters of hits have 58 bits: histories with fewer
      than 2^58 packets are considered.
    - Polling loops run over the script of the environment.
    - The loop over the types of a file gets the number of bytes as fuel: a
      type has at least twelve.  [btf__align_of] has no bound in the code:
      that no fuel is enough for some input is [align_of_unbounded].

    ** Not modelled

    - The object loader, linker and system call wrappers of libbpf
      (libbpf.c, linker.c, bpf.c and others): ELF files and kernel
      interfaces, which the modelled code only calls.
    - Of btf.c: deduplication, the
      information about functions and lines ([btf_ext]), loading into the kernel
      and reading from files.  An object, its base and the source of a copy are
      separate values: the sharing of a base by several objects, or an object
      that is copied to itself, is not modelled.
    - libxdp's opening of object files and its probes of the kernel's abilities.
    - Of xdp-filter: printing the status of all interfaces.  The other
      programs that come with xdp-tools, bpftool, blazesym, the generated
      kernel headers and skeletons, build scripts, and the drivers under src/test.
    - Log and debug output, except where it is the purpose of a function.
    - Weak memory: shared accesses of the ring buffers are
      sequentially consistent. *)
From Stdlib Require Export ZArith Lia Strings.Byte Strings.String.
From coqutil Require Export Byte Word.LittleEndianList.
From stdpp Require Export base gmap list strings.
#[global] Open Scope Z_scope.

Declare Scope cint_scope.
Delimit Scope cint_scope with cint.

(** * Machine integers

    A w-bit C integer is a [Z]; the conversions below are the C conversions
    to the fixed-width types (modulo 2^w, two's complement for the signed
    ones). *)

Definition u8 (z : Z) : Z := z mod 2 ^ 8.
Definition u16 (z : Z) : Z := z mod 2 ^ 16.
Definition u32 (z : Z) : Z := z mod 2 ^ 32.
Definition u64 (z : Z) : Z := z mod 2 ^ 64.
Definition s32 (z : Z) : Z := (z + 2 ^ 31) mod 2 ^ 32 - 2 ^ 31.
Definition s64 (z : Z) : Z := (z + 2 ^ 63) mod 2 ^ 64 - 2 ^ 63.

Notation "x '+u64' y" := (u64 (x + y)) (at level 50, left associativity) : cint_scope.
Notation "x '-u64' y" := (u64 (x - y)) (at level 50, left associativity) : cint_scope.
Notation "x '+u32' y" := (u32 (x + y)) (at level 50, left associativity) : cint_scope.

(** C truth values: a scalar is true when it is not zero. *)
Definition c_true (z : Z) : bool := negb (z =? 0).
Definition c_bool (b : bool) : Z := if b then 1 else 0.

Create HintDb cint.
Create HintDb cmem.

Lemma u8_range z : 0 <= u8 z < 2 ^ 8.
Proof. apply Z.mod_pos_bound; lia. Qed.
Lemma u16_range z : 0 <= u16 z < 2 ^ 16.
Proof. apply Z.mod_pos_bound; lia. Qed.
Lemma u32_range z : 0 <= u32 z < 2 ^ 32.
Proof. apply Z.mod_pos_bound; lia. Qed.
Lemma u64_range z : 0 <= u64 z < 2 ^ 64.
Proof. apply Z.mod_pos_bound; lia. Qed.
Lemma s32_range z : - 2 ^ 31 <= s32 z < 2 ^ 31.
Proof. unfold s32. pose proof (Z.mod_pos_bound (z + 2 ^ 31) (2 ^ 32)). lia. Qed.

Lemma u8_id z : 0 <= z < 2 ^ 8 -> u8 z = z.
Proof. apply Z.mod_small. Qed.
Lemma u16_id z : 0 <= z < 2 ^ 16 -> u16 z = z.
Proof. apply Z.mod_small. Qed.
Lemma u32_id z : 0 <= z < 2 ^ 32 -> u32 z = z.
Proof. apply Z.mod_small. Qed.
Lemma u64_id z : 0 <= z < 2 ^ 64 -> u64 z = z.
Proof. apply Z.mod_small. Qed.
Lemma s32_id z : - 2 ^ 31 <= z < 2 ^ 31 -> s32 z = z.
Proof. intros H. unfold s32. rewrite Z.mod_small; lia. Qed.
Lemma s64_id z : - 2 ^ 63 <= z < 2 ^ 63 -> s64 z = z.
Proof. intros H. unfold s64. rewrite Z.mod_small; lia. Qed.

#[export] Hint Resolve u8_range u16_range u32_range u64_range s32_range : cint.

(** The subtraction of two [u64] time stamps taken in order does not wrap. *)
Lemma u64_sub_ordered a b : 0 <= a -> a <= b -> b < 2 ^ 64 -> u64 (b - a) = b - a.
Proof. intros. apply u64_id. lia. Qed.

(** Testing one bit. *)
Lemma land_pow2_testbit w n : 0 <= n -> Z.land w (2 ^ n) = if Z.testbit w n then 2 ^ n else 0.
Proof.
  intros Hn. apply Z.bits_inj'. intros i Hi. rewrite Z.land_spec, Z.pow2_bits_eqb by lia.
  destruct (Z.eqb_spec n i) as [<- |].
  - rewrite andb_true_r. destruct (Z.testbit w n); [by rewrite Z.pow2_bits_true | by rewrite Z.bits_0].
  - rewrite andb_false_r. destruct (Z.testbit w n); [by rewrite Z.pow2_bits_false | by rewrite Z.bits_0].
Qed.

(** The high bits and the low bits of a word. *)
Lemma lor_shift a n b : 0 <= n -> 0 <= b < 2 ^ n -> Z.lor (Z.shiftl a n) b = a * 2 ^ n + b.
Proof.
  intros Hn Hb. rewrite Z.shiftl_mul_pow2 by done. assert (Z.land (a * 2 ^ n) b = 0) as H0.
  { apply Z.bits_inj_0. intros i. rewrite Z.land_spec. destruct (decide (i < 0)); [by rewrite !Z.testbit_neg_r by lia |].
    destruct (decide (i < n)); [by rewrite Z.mul_pow2_bits_low by lia |]. rewrite <- (Z.mod_small b (2 ^ n)), Z.mod_pow2_bits_high by lia. apply andb_false_r. }
  by rewrite Z.add_nocarry_lxor, Z.lxor_lor by done.
Qed.

(** * Byte order

    [bpf_htons]/[bpf_ntohs] and [htons]/[ntohs] of a little-endian target:
    the two bytes of a 16-bit value are exchanged. *)

Definition bswap16 (x : Z) : Z :=
  Z.lor (Z.land (Z.shiftr x 8) 255) (Z.shiftl (Z.land x 255) 8).

Lemma bswap16_arith x : 0 <= x < 2 ^ 16 -> bswap16 x = (x mod 256) * 256 + x / 256.
Proof.
  intros Hx. unfold bswap16.
  change 255 with (Z.ones 8). rewrite !Z.land_ones, Z.shiftr_div_pow2, Z.shiftl_mul_pow2 by lia.
  change (2 ^ 8) with 256. rewrite (Z.mod_small (x / 256)) by
    (split; [apply Z.div_pos; lia | apply Z.div_lt_upper_bound; lia]).
  assert (0 <= x / 256 < 2 ^ 8) as Hd.
  { split; [apply Z.div_pos; lia | apply Z.div_lt_upper_bound; lia]. }
  enough (Z.land (x / 256) (x mod 256 * 256) = 0) as H0
    by (pose proof (Z.add_lor_land (x / 256) (x mod 256 * 256)); lia).
  apply Z.bits_inj'. intros n Hn. rewrite Z.land_spec, Z.bits_0.
  destruct (Z.ltb_spec n 8).
  - change 256 with (2 ^ 8) at 3. rewrite (Z.mul_pow2_bits_low _ 8) by lia. apply andb_false_r.
  - rewrite <- (Z.mod_small (x / 256) (2 ^ 8)) by lia.
    rewrite Z.mod_pow2_bits_high by lia. reflexivity.
Qed.

Lemma bswap16_range x : 0 <= x < 2 ^ 16 -> 0 <= bswap16 x < 2 ^ 16.
Proof.
  intros Hx. rewrite bswap16_arith by lia.
  pose proof (Z.mod_pos_bound x 256). pose proof (Z.div_mod x 256).
  assert (x / 256 < 256) by (apply Z.div_lt_upper_bound; lia).
  assert (0 <= x / 256) by (apply Z.div_pos; lia). lia.
Qed.

Lemma bswap16_involutive x : 0 <= x < 2 ^ 16 -> bswap16 (bswap16 x) = x.
Proof.
  intros Hx. rewrite (bswap16_arith (bswap16 x)) by (apply bswap16_range; lia).
  rewrite bswap16_arith by lia.
  Z.to_euclidean_division_equations; lia.
Qed.

Lemma bswap16_inj x y :
  0 <= x < 2 ^ 16 -> 0 <= y < 2 ^ 16 -> bswap16 x = bswap16 y -> x = y.
Proof.
  intros Hx Hy H. rewrite <- (bswap16_involutive x Hx), <- (bswap16_involutive y Hy). congruence.
Qed.

#[export] Hint Resolve bswap16_range : cint.

#[global] Arguments le_split : simpl never.
#[global] Arguments le_combine : simpl never.
#[global] Arguments bswap16 : simpl never.

(** * Memory

    A region of memory (a packet, a struct, a ring buffer) is a [list byte];
    a pointer into it is an offset.  A read or a write outside the region is
    undefined behaviour and has no result ([None]), so that a theorem which
    says that a function returns [Some] also says that it stays in bounds. *)

Definition zlen {A} (l : list A) : Z := Z.of_nat (length l).

Definition bytes_at (m : list byte) (off : Z) (n : nat) : option (list byte) :=
  if (0 <=? off) && (off + Z.of_nat n <=? zlen m)
  then Some (take n (drop (Z.to_nat off) m)) else None.

Definition load (n : nat) (m : list byte) (off : Z) : option Z :=
  le_combine <$> bytes_at m off n.

Notation load8 := (load 1).
Notation load16 := (load 2).
Notation load32 := (load 4).
Notation load64 := (load 8).

Definition store (m : list byte) (off : Z) (bs : list byte) : option (list byte) :=
  if (0 <=? off) && (off + zlen bs <=? zlen m)
  then Some (take (Z.to_nat off) m ++ bs ++ drop (Z.to_nat off + length bs) m) else None.

Lemma zlen_nonneg {A} (l : list A) : 0 <= zlen l.
Proof. unfold zlen. lia. Qed.

Lemma zlen_app {A} (l k : list A) : zlen (l ++ k) = zlen l + zlen k.
Proof. unfold zlen. rewrite length_app. lia. Qed.

Lemma zlen_cons {A} (x : A) l : zlen (x :: l) = 1 + zlen l.
Proof. unfold zlen. simpl length. lia. Qed.

Lemma zlen_nil {A} : zlen (@nil A) = 0.
Proof. reflexivity. Qed.

Lemma zlen_le_split n z : zlen (le_split n z) = Z.of_nat n.
Proof. unfold zlen. by rewrite length_le_split. Qed.

Lemma zlen_replicate {A} n (x : A) : zlen (replicate n x) = Z.of_nat n.
Proof. unfold zlen. by rewrite length_replicate. Qed.

#[export] Hint Rewrite @zlen_app @zlen_cons @zlen_nil zlen_le_split @zlen_replicate : cmem.
#[export] Hint Resolve zlen_nonneg : cmem.

Lemma bytes_at_inv m off n bs :
  bytes_at m off n = Some bs ->
  0 <= off /\ off + Z.of_nat n <= zlen m /\ bs = take n (drop (Z.to_nat off) m).
Proof. unfold bytes_at. intros H. case_match eqn:E; simplify_eq. split_and!; lia || done. Qed.

Lemma bytes_at_Some m off n :
  0 <= off -> off + Z.of_nat n <= zlen m ->
  bytes_at m off n = Some (take n (drop (Z.to_nat off) m)).
Proof.
  intros H1 H2. unfold bytes_at.
  rewrite (proj2 (Z.leb_le _ _) H1), (proj2 (Z.leb_le _ _) H2). done.
Qed.

Lemma bytes_at_None m off n :
  bytes_at m off n = None <-> off < 0 \/ zlen m < off + Z.of_nat n.
Proof. unfold bytes_at. case_match eqn:E; split; intros; simplify_eq; first [done | lia]. Qed.

Lemma bytes_at_length m off n bs : bytes_at m off n = Some bs -> length bs = n.
Proof.
  intros (? & Hle & ->)%bytes_at_inv. unfold zlen in Hle.
  rewrite length_take, length_drop. lia.
Qed.

Lemma bytes_at_app (pre bs post : list byte) off n :
  off = zlen pre -> n = length bs -> bytes_at (pre ++ bs ++ post) off n = Some bs.
Proof.
  intros -> ->. rewrite bytes_at_Some; [| apply zlen_nonneg |].
  - unfold zlen. rewrite Nat2Z.id, drop_app_length, take_app_length. done.
  - rewrite !zlen_app. pose proof (zlen_nonneg post). unfold zlen in *. lia.
Qed.

Lemma load_Some n m off :
  0 <= off -> off + Z.of_nat n <= zlen m ->
  exists v, load n m off = Some v /\ 0 <= v < 2 ^ (8 * Z.of_nat n).
Proof.
  intros H1 H2. unfold load. rewrite bytes_at_Some by done. eexists. split; [done |].
  pose proof (le_combine_bound (take n (drop (Z.to_nat off) m))) as Hb.
  rewrite length_take, length_drop in Hb. unfold zlen in H2.
  replace (min n (length m - Z.to_nat off)) with n in Hb by lia. done.
Qed.

Lemma load_inv n m off v :
  load n m off = Some v ->
  0 <= off /\ off + Z.of_nat n <= zlen m /\ 0 <= v < 2 ^ (8 * Z.of_nat n).
Proof.
  intros H. unfold load in H. apply fmap_Some in H as (bs & Hbs & ->).
  pose proof (bytes_at_inv _ _ _ _ Hbs) as (? & ? & _).
  pose proof (le_combine_bound bs). rewrite (bytes_at_length _ _ _ _ Hbs) in *. auto.
Qed.

Lemma load_None n m off :
  load n m off = None <-> off < 0 \/ zlen m < off + Z.of_nat n.
Proof. unfold load. rewrite fmap_None. apply bytes_at_None. Qed.

(** A field written with [le_split] between two other parts is read back. *)
Lemma load_app_le (pre post : list byte) off n v :
  off = zlen pre -> 0 <= v < 2 ^ (8 * Z.of_nat n) ->
  load n (pre ++ le_split n v ++ post) off = Some v.
Proof.
  intros Hoff Hv. unfold load. rewrite (bytes_at_app pre (le_split n v)); [| done |].
  - simpl. rewrite le_combine_split, Z.mod_small; [done |].
    by rewrite Z.mul_comm.
  - by rewrite length_le_split.
Qed.

Lemma store_inv m off bs m' :
  store m off bs = Some m' ->
  0 <= off /\ off + zlen bs <= zlen m /\
  m' = take (Z.to_nat off) m ++ bs ++ drop (Z.to_nat off + length bs) m.
Proof. unfold store. intros H. case_match eqn:E; simplify_eq. split_and!; lia || done. Qed.

Lemma store_Some m off bs :
  0 <= off -> off + zlen bs <= zlen m -> is_Some (store m off bs).
Proof.
  intros H1 H2. unfold store.
  rewrite (proj2 (Z.leb_le _ _) H1), (proj2 (Z.leb_le _ _) H2). eauto.
Qed.

Lemma store_None m off bs :
  store m off bs = None <-> off < 0 \/ zlen m < off + zlen bs.
Proof. unfold store. case_match eqn:E; split; intros; simplify_eq; first [done | lia]. Qed.

Lemma zlen_store m off bs m' : store m off bs = Some m' -> zlen m' = zlen m.
Proof.
  intros (? & H & ->)%store_inv. unfold zlen in *.
  rewrite !length_app, length_take, length_drop. lia.
Qed.

Lemma lookup_store m off bs m' (i : nat) :
  store m off bs = Some m' ->
  m' !! i = if decide (Z.to_nat off <= i < Z.to_nat off + length bs)%nat
            then bs !! (i - Z.to_nat off)%nat else m !! i.
Proof.
  intros (H0 & H & ->)%store_inv. unfold zlen in H.
  assert (length (take (Z.to_nat off) m) = Z.to_nat off) as Hl by (rewrite length_take; lia).
  case_decide as Hd.
  - rewrite lookup_app_r by lia. rewrite Hl. rewrite lookup_app_l by lia. done.
  - destruct (decide (i < Z.to_nat off)%nat).
    + rewrite lookup_app_l by lia. rewrite lookup_take. case_decide; [done | lia].
    + rewrite lookup_app_r by lia. rewrite Hl, lookup_app_r by lia.
      rewrite lookup_drop. f_equal. lia.
Qed.

Lemma bytes_at_ext m m' off n :
  zlen m = zlen m' ->
  (forall i : nat, (Z.to_nat off <= i < Z.to_nat off + n)%nat -> m !! i = m' !! i) ->
  bytes_at m off n = bytes_at m' off n.
Proof.
  intros Hl Hi. unfold bytes_at. rewrite <- Hl. case_match; [| done].
  f_equal. apply list_eq. intros i. rewrite !lookup_take.
  case_decide; [| done]. rewrite !lookup_drop. apply Hi. lia.
Qed.

(** Reading back what was stored, and reading elsewhere. *)
Lemma bytes_at_store_same m off bs m' :
  store m off bs = Some m' -> bytes_at m' off (length bs) = Some bs.
Proof.
  intros H. pose proof (store_inv _ _ _ _ H) as (H0 & Hle & ->).
  apply bytes_at_app; [| done]. unfold zlen in *. rewrite length_take. lia.
Qed.

Lemma bytes_at_store_other m off bs m' off' n :
  store m off bs = Some m' ->
  0 <= off' -> off' + Z.of_nat n <= off \/ off + zlen bs <= off' ->
  bytes_at m' off' n = bytes_at m off' n.
Proof.
  intros H H0 Hd. pose proof (store_inv _ _ _ _ H) as (Hoff & _ & _).
  apply bytes_at_ext; [by eapply zlen_store |].
  intros i Hi. rewrite (lookup_store _ _ _ _ _ H). case_decide; [| done].
  unfold zlen in *. lia.
Qed.

Lemma load_store_other n m off bs m' off' :
  store m off bs = Some m' ->
  0 <= off' -> off' + Z.of_nat n <= off \/ off + zlen bs <= off' ->
  load n m' off' = load n m off'.
Proof. intros. unfold load. by erewrite bytes_at_store_other. Qed.

Lemma load_store_same n m off v m' :
  store m off (le_split n v) = Some m' ->
  0 <= v < 2 ^ (8 * Z.of_nat n) -> load n m' off = Some v.
Proof.
  intros H Hv. unfold load.
  apply bytes_at_store_same in H. rewrite length_le_split in H. rewrite H. simpl.
  rewrite le_combine_split, Z.mod_small; [done |]. by rewrite Z.mul_comm.
Qed.

(** Storing the bytes that are already there changes nothing. *)
Lemma store_bytes_at_id m off n bs :
  bytes_at m off n = Some bs -> store m off bs = Some m.
Proof.
  intros H. pose proof (bytes_at_length _ _ _ _ H) as Hn.
  apply bytes_at_inv in H as (H0 & Hle & Hbs).
  destruct (store_Some m off bs) as [m' Hm']; [lia | unfold zlen in *; lia |].
  rewrite Hm'. f_equal. apply list_eq. intros i. rewrite (lookup_store _ _ _ _ _ Hm').
  case_decide; [| done]. rewrite Hbs, lookup_take. case_decide; [| lia].
  rewrite lookup_drop. f_equal. lia.
Qed.

(** A successful access splits the region around it. *)
Lemma bytes_at_split m off n bs :
  bytes_at m off n = Some bs ->
  exists pre post, m = pre ++ bs ++ post /\ zlen pre = off /\ length bs = n.
Proof.
  intros H. pose proof (bytes_at_length _ _ _ _ H) as Hn.
  apply bytes_at_inv in H as (H0 & Hle & ->).
  exists (take (Z.to_nat off) m), (drop n (drop (Z.to_nat off) m)).
  rewrite (take_drop n), take_drop. unfold zlen in *. rewrite length_take.
  split_and!; [done | lia | done].
Qed.

Lemma store_app (pre bs post bs' : list byte) off :
  off = zlen pre -> length bs' = length bs ->
  store (pre ++ bs ++ post) off bs' = Some (pre ++ bs' ++ post).
Proof.
  intros -> Hl. destruct (store_Some (pre ++ bs ++ post) (zlen pre) bs') as [m' Hm'].
  { apply zlen_nonneg. }
  { rewrite !zlen_app. pose proof (zlen_nonneg post). unfold zlen in *. lia. }
  rewrite Hm'. f_equal. apply store_inv in Hm' as (_ & _ & ->).
  unfold zlen. rewrite Nat2Z.id, take_app_length, Hl. do 2 f_equal.
  rewrite <- drop_drop, drop_app_length, drop_app_length. done.
Qed.

Lemma bytes_at_start (bs post : list byte) n : n = length bs -> bytes_at (bs ++ post) 0 n = Some bs.
Proof. by apply (bytes_at_app []). Qed.
Lemma bytes_at_end (pre bs : list byte) off n : off = zlen pre -> n = length bs -> bytes_at (pre ++ bs) off n = Some bs.
Proof. rewrite <- (app_nil_r bs) at 2. apply bytes_at_app. Qed.
Lemma bytes_at_all (bs : list byte) n : n = length bs -> bytes_at bs 0 n = Some bs.
Proof. rewrite <- (app_nil_r bs) at 2. apply bytes_at_start. Qed.

Lemma bytes_at_shift (pre m : list byte) off n : 0 <= off -> bytes_at (pre ++ m) (zlen pre + off) n = bytes_at m off n.
Proof.
  intros Ho. unfold bytes_at. rewrite zlen_app. pose proof (zlen_nonneg pre).
  destruct (Z.leb_spec 0 off), (Z.leb_spec 0 (zlen pre + off)), (Z.leb_spec (off + Z.of_nat n) (zlen m)), (Z.leb_spec (zlen pre + off + Z.of_nat n) (zlen pre + zlen m)); try lia; try done.
  cbn [andb]. f_equal. f_equal. rewrite drop_app_ge by (unfold zlen; lia). f_equal. unfold zlen. lia.
Qed.

(** * C strings *)

Definition str (s : string) : list byte := list_byte_of_string s.

#[global] Instance byte_eq_decision : EqDecision byte := Byte.byte_eq_dec.

#[global] Instance byte_countable : Countable byte.
Proof. refine (inj_countable Byte.to_N Byte.of_N _). exact Byte.of_to_N. Defined.

Definition NUL : byte := x00.

(** The bytes of a C string up to its terminator. *)
Fixpoint cstr (m : list byte) : list byte :=
  match m with
  | [] => []
  | b :: m' => if decide (b = NUL) then [] else b :: cstr m'
  end.

(** [strlen] of a buffer: undefined when no terminator is in the buffer. *)
Fixpoint strlen (m : list byte) : option Z :=
  match m with
  | [] => None
  | b :: m' => if decide (b = NUL) then Some 0 else Z.succ <$> strlen m'
  end.

Lemma cstr_app_nul s t : NUL ∉ s -> cstr (s ++ NUL :: t) = s.
Proof.
  induction s as [| b s IH]; intros Hs; [done |]. simpl.
  apply not_elem_of_cons in Hs as [? ?]. rewrite decide_False by done. by rewrite IH.
Qed.

Lemma strlen_app_nul s t : NUL ∉ s -> strlen (s ++ NUL :: t) = Some (zlen s).
Proof.
  induction s as [| b s IH]; intros Hs; [done |]. simpl.
  apply not_elem_of_cons in Hs as [? ?]. rewrite decide_False by done.
  rewrite IH by done. simpl. f_equal. rewrite zlen_cons. lia.
Qed.

Lemma cstr_no_nul m : NUL ∉ cstr m.
Proof.
  induction m as [| b m IH]; simpl; [apply not_elem_of_nil |].
  case_decide; [apply not_elem_of_nil |]. apply not_elem_of_cons. done.
Qed.

(** * Proof automation *)

(** Case analysis on every boolean test of the goal, with the tests turned
    into propositions by [lia]'s [zify]. *)
Ltac case_tests :=
  repeat match goal with
  | |- context [if ?b then _ else _] => destruct b eqn:?
  end.

(** Close a goal about an in-range access. *)
Ltac in_bounds := unfold zlen in *; simpl length in *; lia.

(** Rewrite with the lengths of the memory operations and finish with [lia]. *)
Ltac zlen_lia := autorewrite with cmem in *; unfold zlen in *; simpl length in *; lia.

(** Invert a successful load or store. *)
Ltac inv_mem :=
  repeat match goal with
  | H : load _ _ _ = Some _ |- _ =>
      let Hr := fresh "Hrange" in
      pose proof (load_inv _ _ _ _ H) as (? & ? & Hr); revert H
  end; intros.
