(* ===== verification/CLib.v ===== *)
(** The parts of the C library the programs use: decimal conversion and the
    [printf] directives of the format strings, [strncpy], [snprintf], [strcmp],
    [strtol]/[atoi] and the IPv4 side of [inet_ntop]. *)
From S2P Require Import Prelude.

(** ** Error numbers *)

Definition EPERM : Z := 1.
Definition ENOENT : Z := 2.
Definition EINTR : Z := 4.
Definition E2BIG : Z := 7.
Definition EAGAIN : Z := 11.
Definition ENOMEM : Z := 12.
Definition EBUSY : Z := 16.
Definition EEXIST : Z := 17.
Definition EINVAL : Z := 22.
Definition ENOSPC : Z := 28.
Definition ERANGE : Z := 34.
Definition ENAMETOOLONG : Z := 36.
Definition ENOTEMPTY : Z := 39.
Definition EMSGSIZE : Z := 90.
Definition ENOTSUP : Z := 95.
Definition EOPNOTSUPP : Z := 95.

(** ** Decimal numbers *)

Definition digit (d : Z) : byte := byte.of_Z (48 + d).
Definition digit_value (b : byte) : Z := byte.unsigned b - 48.
Definition is_digit (b : byte) : bool := (48 <=? byte.unsigned b) && (byte.unsigned b <=? 57).

(** The digits of [n], most significant first, in front of [acc].  Twenty
    digits are enough for every 64-bit number. *)
Fixpoint dec_digits (fuel : nat) (n : Z) (acc : list byte) : list byte :=
  match fuel with
  | O => acc
  | S f =>
      let acc' := digit (n mod 10) :: acc in
      if n <? 10 then acc' else dec_digits f (n / 10) acc'
  end.

Definition DEC_FUEL : nat := 20.

(** [%u], [%llu] *)
Definition fmt_u (n : Z) : list byte := dec_digits DEC_FUEL n [].
(** [%d], [%lld] *)
Definition fmt_d (n : Z) : list byte := if n <? 0 then digit (-3) :: fmt_u (- n) else fmt_u n.

#[global] Arguments fmt_u : simpl never.

Definition dec_value_from (acc : Z) (l : list byte) : Z :=
  fold_left (fun a b => 10 * a + digit_value b) l acc.
Definition dec_value (l : list byte) : Z := dec_value_from 0 l.

(** Left-justified fields: [%-6d], [%-16s], [%-12.12s]. *)
Definition pad_right (w : nat) (s : list byte) : list byte := s ++ replicate (w - length s) x20.
Definition fmt_s_prec (w p : nat) (s : list byte) : list byte := pad_right w (take p s).

(** [printf] of a null pointer with [%s] in the GNU library. *)
Definition fmt_s_opt (s : option (list byte)) : list byte :=
  match s with Some s => s | None => str "(null)" end.

Lemma digit_unsigned d : 0 <= d <= 9 -> byte.unsigned (digit d) = 48 + d.
Proof.
  intros Hd. unfold digit. rewrite byte.unsigned_of_Z. apply Z.mod_small. lia.
Qed.

Lemma digit_value_digit d : 0 <= d <= 9 -> digit_value (digit d) = d.
Proof. intros. unfold digit_value. rewrite digit_unsigned by done. lia. Qed.

Lemma is_digit_digit d : 0 <= d <= 9 -> is_digit (digit d) = true.
Proof. intros. unfold is_digit. rewrite digit_unsigned by done. lia. Qed.

Lemma dec_digits_digits fuel : forall n acc, 0 <= n -> Forall (fun b => is_digit b = true) acc ->
  Forall (fun b => is_digit b = true) (dec_digits fuel n acc).
Proof.
  induction fuel as [| f IH]; intros n acc Hn Hacc; simpl; [done |].
  pose proof (Z.mod_pos_bound n 10).
  destruct (n <? 10); [| apply IH; [apply Z.div_pos; lia |]];
    (constructor; [apply is_digit_digit; lia | done]).
Qed.

Lemma dec_value_from_app a l k : dec_value_from a (l ++ k) = dec_value_from (dec_value_from a l) k.
Proof. apply fold_left_app. Qed.

Lemma dec_digits_value fuel : forall n acc, 0 <= n < 10 ^ Z.of_nat fuel ->
  dec_value (dec_digits fuel n acc) = dec_value_from n acc.
Proof.
  induction fuel as [| f IH]; intros n acc Hn.
  { simpl in *. unfold dec_value. f_equal. lia. }
  rewrite Nat2Z.inj_succ, Z.pow_succ_r in Hn by lia. cbn [dec_digits].
  pose proof (Z.mod_pos_bound n 10). pose proof (Z.div_mod n 10).
  destruct (Z.ltb_spec n 10).
  - unfold dec_value, dec_value_from. cbn [fold_left].
    rewrite digit_value_digit by lia. f_equal. rewrite Z.mod_small; lia.
  - rewrite IH by (split; [apply Z.div_pos; lia | apply Z.div_lt_upper_bound; lia]).
    unfold dec_value_from. cbn [fold_left]. rewrite digit_value_digit by lia. f_equal. lia.
Qed.

Lemma fmt_u_digits n : 0 <= n -> Forall (fun b => is_digit b = true) (fmt_u n).
Proof. intros. by apply dec_digits_digits. Qed.

Lemma fmt_u_value n : 0 <= n < 10 ^ 20 -> dec_value (fmt_u n) = n.
Proof. intros. unfold fmt_u. rewrite dec_digits_value by done. done. Qed.

Lemma fmt_u_inj n m : 0 <= n < 10 ^ 20 -> 0 <= m < 10 ^ 20 -> fmt_u n = fmt_u m -> n = m.
Proof. intros Hn Hm E. rewrite <- (fmt_u_value n Hn), <- (fmt_u_value m Hm). congruence. Qed.

Lemma length_pad_right w s : length (pad_right w s) = max w (length s).
Proof. unfold pad_right. rewrite length_app, length_replicate. lia. Qed.

(** ** [inet_ntop(AF_INET, ...)]

    The address is the 32-bit word as it is in memory, in network byte order:
    its first byte is the least significant one on a little-endian machine. *)

Definition dot : byte := x2e.

Definition addr_byte (x : Z) (i : Z) : Z := Z.land (Z.shiftr x (8 * i)) 255.

Definition inet_ntop4 (x : Z) : list byte :=
  fmt_u (addr_byte x 0) ++ dot :: fmt_u (addr_byte x 1) ++ dot ::
  fmt_u (addr_byte x 2) ++ dot :: fmt_u (addr_byte x 3).

(** 127.0.0.1 as an [__u32] in network byte order. *)
Definition INADDR_LOOPBACK_BE : Z := 0x0100007f.

Lemma addr_byte_range x i : 0 <= addr_byte x i < 256.
Proof.
  unfold addr_byte. change 255 with (Z.ones 8). rewrite Z.land_ones by lia.
  apply Z.mod_pos_bound. lia.
Qed.

Lemma addr_byte_arith x i : 0 <= i -> addr_byte x i = x / 2 ^ (8 * i) mod 256.
Proof.
  intros. unfold addr_byte. change 255 with (Z.ones 8).
  rewrite Z.land_ones, Z.shiftr_div_pow2 by lia. done.
Qed.

Lemma addr_bytes_inj x y : 0 <= x < 2 ^ 32 -> 0 <= y < 2 ^ 32 ->
  (forall i, i = 0 \/ i = 1 \/ i = 2 \/ i = 3 -> addr_byte x i = addr_byte y i) -> x = y.
Proof.
  intros Hx Hy H.
  pose proof (H 0) as H0. pose proof (H 1) as H1. pose proof (H 2) as H2. pose proof (H 3) as H3.
  rewrite !addr_byte_arith in H0, H1, H2, H3 by lia.
  specialize (H0 ltac:(auto)). specialize (H1 ltac:(auto)). specialize (H2 ltac:(auto)).
  specialize (H3 ltac:(auto)).
  change (2 ^ (8 * 0)) with 1 in *. change (2 ^ (8 * 1)) with 256 in *.
  change (2 ^ (8 * 2)) with 65536 in *. change (2 ^ (8 * 3)) with 16777216 in *.
  Z.to_euclidean_division_equations. lia.
Qed.

Lemma split_at_dot a a' r r' :
  Forall (fun b => is_digit b = true) a -> Forall (fun b => is_digit b = true) a' ->
  a ++ dot :: r = a' ++ dot :: r' -> a = a' /\ r = r'.
Proof.
  revert a'. induction a as [| b a IH]; intros [| b' a'] Ha Ha' E; simplify_eq/=; [done | | |].
  - apply Forall_cons in Ha' as [Hd _]. discriminate Hd.
  - apply Forall_cons in Ha as [Hd _]. discriminate Hd.
  - apply Forall_cons in Ha as [_ Ha]. apply Forall_cons in Ha' as [_ Ha'].
    destruct (IH a' Ha Ha') as [-> ->]; done.
Qed.

Lemma inet_ntop4_inj x y :
  0 <= x < 2 ^ 32 -> 0 <= y < 2 ^ 32 -> inet_ntop4 x = inet_ntop4 y -> x = y.
Proof.
  intros Hx Hy E. unfold inet_ntop4 in E.
  assert (forall z i, Forall (fun b => is_digit b = true) (fmt_u (addr_byte z i))) as Hd.
  { intros z i. apply fmt_u_digits. apply addr_byte_range. }
  apply split_at_dot in E as [E0 E]; [| done..]. apply split_at_dot in E as [E1 E]; [| done..].
  apply split_at_dot in E as [E2 E3]; [| done..].
  apply addr_bytes_inj; [done.. |]. intros i Hi.
  pose proof (addr_byte_range x i). pose proof (addr_byte_range y i).
  apply fmt_u_inj; [lia.. |]. destruct Hi as [-> | [-> | [-> | ->]]]; done.
Qed.

(** ** Buffers *)

(** [strncpy(dest, src, n)]: exactly [n] bytes are written; they are
    terminated only when the source is shorter than [n]. *)
Definition strncpy (n : nat) (src : list byte) : list byte :=
  take n src ++ replicate (n - length src) NUL.

(** [snprintf(buf, size, ...)] for the output [out]: the bytes written to
    [buf] (none for size 0) and the return value, the length of [out]. *)
Definition snprintf (size : nat) (out : list byte) : list byte * Z :=
  (match size with O => [] | S k => take k out ++ [NUL] end, zlen out).

Lemma length_strncpy n src : length (strncpy n src) = n.
Proof. unfold strncpy. rewrite length_app, length_take, length_replicate. lia. Qed.

Lemma strncpy_fits n src :
  NUL ∉ src -> (length src < n)%nat ->
  cstr (strncpy n src) = src /\ strlen (strncpy n src) = Some (zlen src).
Proof.
  intros Hs Hl. unfold strncpy. rewrite take_ge by lia.
  destruct (n - length src)%nat as [| k] eqn:E; [lia |]. simpl.
  split; [by apply cstr_app_nul | by apply strlen_app_nul].
Qed.

Lemma strlen_None m : strlen m = None <-> NUL ∉ m.
Proof.
  induction m as [| b m IH]; simpl.
  { split; [intros _; apply not_elem_of_nil | done]. }
  case_decide; subst.
  - split; [done |]. intros H. exfalso. apply H. apply elem_of_cons. auto.
  - rewrite fmap_None, IH, not_elem_of_cons. naive_solver.
Qed.

Lemma strncpy_unterminated n src :
  NUL ∉ src -> (n <= length src)%nat -> strlen (strncpy n src) = None.
Proof.
  intros Hs Hl. unfold strncpy. replace (n - length src)%nat with 0%nat by lia.
  simpl. rewrite app_nil_r. apply strlen_None. intros H. apply Hs.
  rewrite <- (take_drop n src). apply elem_of_app. auto.
Qed.

(** ** [strtol(s, NULL, 10)] and [atoi] *)

Definition LONG_MAX : Z := 2 ^ 63 - 1.
Definition LONG_MIN : Z := - 2 ^ 63.

Definition isspace (b : byte) : bool :=
  let c := byte.unsigned b in (c =? 32) || ((9 <=? c) && (c <=? 13)).

Fixpoint skip_space (s : list byte) : list byte :=
  match s with b :: s' => if isspace b then skip_space s' else s | [] => [] end.

Fixpoint take_digits (s : list byte) : list byte :=
  match s with b :: s' => if is_digit b then b :: take_digits s' else [] | [] => [] end.

(** Value and [errno] (0 when it is left alone). *)
Definition strtol (s : list byte) : Z * Z :=
  let s1 := skip_space s in
  let '(neg, s2) := match s1 with
                    | b :: s' => if decide (b = x2d) then (true, s')
                                 else if decide (b = x2b) then (false, s') else (false, s1)
                    | [] => (false, []) end in
  let v := dec_value (take_digits s2) in
  if neg then (if - v <? LONG_MIN then (LONG_MIN, ERANGE) else (- v, 0))
  else (if LONG_MAX <? v then (LONG_MAX, ERANGE) else (v, 0)).

Definition atoi (s : list byte) : Z := s32 (fst (strtol s)).

Lemma take_digits_all l : Forall (fun b => is_digit b = true) l -> take_digits l = l.
Proof. induction 1 as [| b l Hb _ IH]; simpl; [done |]. by rewrite Hb, IH. Qed.

Lemma digit_not_sign b : is_digit b = true -> isspace b = false /\ b <> x2d /\ b <> x2b.
Proof.
  intros H. unfold is_digit in H. split_and!.
  - unfold isspace. lia.
  - intros ->. discriminate H.
  - intros ->. discriminate H.
Qed.

Lemma dec_digits_acc f : forall n acc, acc <> [] -> dec_digits f n acc <> [].
Proof.
  induction f as [| f IH]; intros n acc Ha; simpl; [done |].
  destruct (n <? 10); [done | by apply IH].
Qed.

Lemma fmt_u_nonempty n : fmt_u n <> [].
Proof.
  change (fmt_u n) with (if n <? 10 then [digit (n mod 10)]
    else dec_digits 19 (n / 10) [digit (n mod 10)]).
  destruct (n <? 10); [done | by apply dec_digits_acc].
Qed.

(** Reading a printed number back. *)
Lemma strtol_fmt_u n : 0 <= n <= LONG_MAX -> strtol (fmt_u n) = (n, 0).
Proof.
  unfold LONG_MAX. intros Hn. pose proof (fmt_u_digits n) as Hd.
  pose proof (fmt_u_value n) as Hv. pose proof (fmt_u_nonempty n) as Hne. unfold strtol.
  destruct (fmt_u n) as [| b l] eqn:E; [done |].
  specialize (Hd ltac:(lia)). pose proof Hd as Hd'.
  apply Forall_cons in Hd' as [Hb _]. apply digit_not_sign in Hb as (Hs & H1 & H2).
  simpl. rewrite Hs, decide_False, decide_False, (take_digits_all _ Hd), Hv by (done || lia).
  unfold LONG_MAX. rewrite (proj2 (Z.ltb_ge _ _)) by lia. done.
Qed.
