(* ===== verification/ParsingHelpers.v ===== *)
(** Packet header parsing: src/common/parsing_helpers.h.

    A packet is a region of memory [m]; [data_end] is the offset of its end.
    A header pointer is the offset of the header.  Every helper gets the
    cursor [nh], and returns its C return value, the cursor afterwards and
    the value written through its header out-parameter ([None] when the
    function returns without writing it).  The outer [option] is memory
    safety: [None] would be a load outside [m]. *)
From S2P Require Import Prelude.
From Stdlib Require Import Sorting.Sorted.

(** ** Constants and structure layouts used by the helpers *)

Definition ETH_P_IP : Z := 0x0800.
Definition ETH_P_8021Q : Z := 0x8100.
Definition ETH_P_8021AD : Z := 0x88A8.

Definition sizeof_ethhdr : Z := 14.
Definition sizeof_vlan_hdr : Z := 4.
Definition sizeof_iphdr : Z := 20.
Definition sizeof_ipv6hdr : Z := 40.
Definition sizeof_icmp6hdr : Z := 8.
Definition sizeof_icmphdr : Z := 8.
Definition sizeof_icmphdr_common : Z := 4.
Definition sizeof_udphdr : Z := 8.
Definition sizeof_tcphdr : Z := 20.

Definition VLAN_MAX_DEPTH : nat := 2.
Definition VLAN_VID_MASK : Z := 0x0fff.

(** Header cursor to keep track of current parsing position *)
Record hdr_cursor := { pos : Z }.

(** VLAN ids collected by [parse_ethhdr_vlan] *)
Record collect_vlans := { id : list Z }.

(** What a parsing helper leaves behind. *)
Record parsed := Parsed { p_ret : Z; p_nh : hdr_cursor; p_hdr : option Z }.

Definition parser := list byte -> hdr_cursor -> Z -> option parsed.

Definition eth_h_proto (m : list byte) (eth : Z) : option Z := load16 m (eth + 12).
Definition h_vlan_TCI (m : list byte) (vlh : Z) : option Z := load16 m vlh.
Definition h_vlan_encapsulated_proto (m : list byte) (vlh : Z) : option Z := load16 m (vlh + 2).
Definition iph_ihl (m : list byte) (iph : Z) : option Z := (fun b => Z.land b 15) <$> load8 m iph.
Definition iph_protocol (m : list byte) (iph : Z) : option Z := load8 m (iph + 9).
Definition ip6h_nexthdr (m : list byte) (ip6h : Z) : option Z := load8 m (ip6h + 6).
Definition icmp_type (m : list byte) (h : Z) : option Z := load8 m h.
Definition udp_len (m : list byte) (h : Z) : option Z := load16 m (h + 4).
Definition tcp_doff (m : list byte) (h : Z) : option Z := (fun b => Z.shiftr b 4) <$> load8 m (h + 12).

(** ** The helpers *)

Definition proto_is_vlan (h_proto : Z) : bool :=
  (h_proto =? bswap16 ETH_P_8021Q) || (h_proto =? bswap16 ETH_P_8021AD).

(** The VLAN loop of [parse_ethhdr_vlan]: [n] iterations are left, [i] is the
    loop counter; the result is [vlh], [h_proto] and the collected ids. *)
Fixpoint vlan_loop (m : list byte) (data_end : Z) (n : nat) (i : nat)
    (vlh h_proto : Z) (vlans : option collect_vlans)
    : option (Z * Z * option collect_vlans) :=
  match n with
  | O => Some (vlh, h_proto, vlans)
  | S n' =>
      if negb (proto_is_vlan h_proto) then Some (vlh, h_proto, vlans)
      else if data_end <? vlh + sizeof_vlan_hdr then Some (vlh, h_proto, vlans)
      else
        h_proto' ← h_vlan_encapsulated_proto m vlh;
        vlans' ← match vlans with
                 | None => Some None
                 | Some v =>
                     tci ← h_vlan_TCI m vlh;
                     if (i <? length (id v))%nat
                     then Some (Some {| id := <[i := Z.land (bswap16 tci) VLAN_VID_MASK]> (id v) |})
                     else None
                 end;
        vlan_loop m data_end n' (S i) (vlh + sizeof_vlan_hdr) h_proto' vlans'
  end.

Definition parse_ethhdr_vlan (m : list byte) (nh : hdr_cursor) (data_end : Z)
    (vlans : option collect_vlans) : option (parsed * option collect_vlans) :=
  let eth := pos nh in
  let hdrsize := sizeof_ethhdr in
  if data_end <? pos nh + hdrsize then Some (Parsed (-1) nh None, vlans)
  else
    h_proto ← eth_h_proto m eth;
    '(vlh, h_proto', vlans') ←
      vlan_loop m data_end VLAN_MAX_DEPTH 0 (pos nh + hdrsize) h_proto vlans;
    Some (Parsed h_proto' {| pos := vlh |} (Some eth), vlans').

Definition parse_ethhdr : parser := fun m nh data_end =>
  fst <$> parse_ethhdr_vlan m nh data_end None.

Definition parse_ip6hdr : parser := fun m nh data_end =>
  let ip6h := pos nh in
  if data_end <? ip6h + sizeof_ipv6hdr then Some (Parsed (-1) nh None)
  else
    nexthdr ← ip6h_nexthdr m ip6h;
    Some (Parsed nexthdr {| pos := ip6h + sizeof_ipv6hdr |} (Some ip6h)).

Definition parse_iphdr : parser := fun m nh data_end =>
  let iph := pos nh in
  if data_end <? iph + sizeof_iphdr then Some (Parsed (-1) nh None)
  else
    ihl ← iph_ihl m iph;
    let hdrsize := ihl * 4 in
    if u64 hdrsize <? sizeof_iphdr then Some (Parsed (-1) nh None)
    else if data_end <? pos nh + hdrsize then Some (Parsed (-1) nh None)
    else
      protocol ← iph_protocol m iph;
      Some (Parsed protocol {| pos := pos nh + hdrsize |} (Some iph)).

Definition parse_icmp6hdr : parser := fun m nh data_end =>
  let icmp6h := pos nh in
  if data_end <? icmp6h + sizeof_icmp6hdr then Some (Parsed (-1) nh None)
  else
    icmp6_type ← icmp_type m icmp6h;
    Some (Parsed icmp6_type {| pos := icmp6h + sizeof_icmp6hdr |} (Some icmp6h)).

Definition parse_icmphdr : parser := fun m nh data_end =>
  let icmph := pos nh in
  if data_end <? icmph + sizeof_icmphdr then Some (Parsed (-1) nh None)
  else
    type ← icmp_type m icmph;
    Some (Parsed type {| pos := icmph + sizeof_icmphdr |} (Some icmph)).

Definition parse_icmphdr_common : parser := fun m nh data_end =>
  let h := pos nh in
  if data_end <? h + sizeof_icmphdr_common then Some (Parsed (-1) nh None)
  else
    type ← icmp_type m h;
    Some (Parsed type {| pos := h + sizeof_icmphdr_common |} (Some h)).

(** [bpf_ntohs(h->len) - sizeof(struct udphdr)] is computed at [size_t] width
    and converted back to [int]. *)
Definition parse_udphdr : parser := fun m nh data_end =>
  let h := pos nh in
  if data_end <? h + sizeof_udphdr then Some (Parsed (-1) nh None)
  else
    let nh' := {| pos := h + sizeof_udphdr |} in
    ulen ← udp_len m h;
    let len := s32 (u64 (bswap16 ulen - sizeof_udphdr)) in
    if len <? 0 then Some (Parsed (-1) nh' (Some h))
    else Some (Parsed len nh' (Some h)).

Definition parse_tcphdr : parser := fun m nh data_end =>
  let h := pos nh in
  if data_end <? h + sizeof_tcphdr then Some (Parsed (-1) nh None)
  else
    doff ← tcp_doff m h;
    let len := doff * 4 in
    if u64 len <? sizeof_tcphdr then Some (Parsed (-1) nh None)
    else if data_end <? pos nh + len then Some (Parsed (-1) nh None)
    else Some (Parsed len {| pos := pos nh + len |} (Some h)).

(** ** The contract of a parsing helper

    A parser whose smallest header has [min] bytes never reads outside the
    packet; it rejects without touching cursor and out-parameter, or it hands
    out the header at the cursor and moves the cursor forward by at least
    [min] bytes, within the packet. *)

Definition advances (nh : hdr_cursor) (data_end min : Z) (r : parsed) : Prop :=
  r = Parsed (-1) nh None \/
  p_hdr r = Some (pos nh) /\ pos nh + min <= pos (p_nh r) <= data_end.

Class HdrParser (p : parser) (min : Z) : Prop := {
  hdr_min_pos : 0 < min;
  hdr_safe m nh data_end :
    0 <= pos nh -> data_end <= zlen m ->
    exists r, p m nh data_end = Some r /\ advances nh data_end min r;
  hdr_short m nh data_end :
    data_end < pos nh + min -> p m nh data_end = Some (Parsed (-1) nh None)
}.

Lemma eth_h_proto_Some m eth :
  0 <= eth -> eth + sizeof_ethhdr <= zlen m ->
  exists v, eth_h_proto m eth = Some v /\ 0 <= v < 2 ^ 16.
Proof. unfold eth_h_proto, sizeof_ethhdr. intros. apply (load_Some 2); lia. Qed.

(** The nibbles of a byte. *)
Lemma land15_range b : 0 <= b -> 0 <= Z.land b 15 <= 15.
Proof.
  intros Hb. change 15 with (Z.ones 4). rewrite Z.land_ones by lia.
  pose proof (Z.mod_pos_bound b (2 ^ 4)). change (Z.ones 4) with 15. lia.
Qed.

Lemma shiftr4_range b : 0 <= b < 2 ^ 8 -> 0 <= Z.shiftr b 4 <= 15.
Proof.
  intros Hb. rewrite Z.shiftr_div_pow2 by lia.
  Z.to_euclidean_division_equations; lia.
Qed.

Lemma iph_ihl_Some m iph :
  0 <= iph -> iph + sizeof_iphdr <= zlen m ->
  exists v, iph_ihl m iph = Some v /\ 0 <= v <= 15.
Proof.
  unfold iph_ihl, sizeof_iphdr. intros.
  destruct (load_Some 1 m iph) as (v & -> & Hv); [lia.. |].
  eexists. split; [done |]. apply land15_range. lia.
Qed.

Lemma tcp_doff_Some m h :
  0 <= h -> h + sizeof_tcphdr <= zlen m ->
  exists v, tcp_doff m h = Some v /\ 0 <= v <= 15.
Proof.
  unfold tcp_doff, sizeof_tcphdr. intros.
  destruct (load_Some 1 m (h + 12)) as (v & -> & Hv); [lia.. |].
  eexists. split; [done |]. apply shiftr4_range. done.
Qed.

(** Everything that is fixed about the VLAN loop: it does not leave the
    packet, it moves [vlh] by whole tags, and ids do not change its control. *)
Lemma vlan_loop_safe m data_end n :
  data_end <= zlen m ->
  forall i vlh h_proto vlans,
  0 <= vlh <= data_end ->
  (forall v, vlans = Some v -> (i + n <= length (id v))%nat) ->
  exists vlh' h_proto' vlans',
    vlan_loop m data_end n i vlh h_proto vlans = Some (vlh', h_proto', vlans') /\
    vlh <= vlh' <= data_end /\ vlh' <= vlh + 4 * Z.of_nat n.
Proof.
  intros Hde. induction n as [| n IH]; intros i vlh h_proto vlans Hv Hid; simpl.
  { do 3 eexists. split; [done | lia]. }
  destruct (negb _). { do 3 eexists. split; [done | lia]. }
  destruct (Z.ltb_spec data_end (vlh + sizeof_vlan_hdr)) as [|Hfit].
  { do 3 eexists. split; [done | lia]. }
  unfold sizeof_vlan_hdr in *. unfold h_vlan_encapsulated_proto, h_vlan_TCI.
  destruct (load_Some 2 m (vlh + 2)) as (p' & -> & _); [lia.. |].
  destruct (load_Some 2 m vlh) as (tci & -> & _); [lia.. |]. simpl.
  destruct vlans as [v |]; simpl.
  - specialize (Hid v eq_refl). destruct (Nat.ltb_spec i (length (id v))); [| lia]. simpl.
    edestruct (IH (S i) (vlh + 4) p') as (a & b & c & -> & ?);
      [lia | intros ? [= <-]; simpl; rewrite length_insert; lia |].
    do 3 eexists. split; [done | lia].
  - edestruct (IH (S i) (vlh + 4) p' None) as (a & b & c & -> & ?); [lia | done |].
    do 3 eexists. split; [done | lia].
Qed.

Lemma vlan_loop_ids_irrelevant m data_end n :
  forall i vlh h_proto v vlh' h_proto' vlans',
  vlan_loop m data_end n i vlh h_proto (Some v) = Some (vlh', h_proto', vlans') ->
  vlan_loop m data_end n i vlh h_proto None = Some (vlh', h_proto', None).
Proof.
  induction n as [| n IH]; intros i vlh h_proto v vlh' h_proto' vlans'; simpl.
  { intros [=]; simplify_eq. done. }
  destruct (negb _). { intros [=]; simplify_eq. done. }
  destruct (data_end <? _). { intros [=]; simplify_eq. done. }
  destruct (h_vlan_encapsulated_proto m vlh) as [p' |]; simpl; [| done].
  destruct (h_vlan_TCI m vlh) as [tci |]; simpl; [| done].
  destruct (i <? length (id v))%nat; simpl; [| done]. apply IH.
Qed.

Lemma parse_ethhdr_vlan_safe m nh data_end vlans :
  0 <= pos nh -> data_end <= zlen m ->
  (forall v, vlans = Some v -> (VLAN_MAX_DEPTH <= length (id v))%nat) ->
  exists r vlans', parse_ethhdr_vlan m nh data_end vlans = Some (r, vlans') /\
    advances nh data_end sizeof_ethhdr r.
Proof.
  intros Hpos Hde Hid. unfold parse_ethhdr_vlan.
  destruct (Z.ltb_spec data_end (pos nh + sizeof_ethhdr)).
  { do 2 eexists. split; [done |]. by left. }
  destruct (eth_h_proto_Some m (pos nh)) as (p & -> & _); [lia.. |]. cbn [mbind option_bind].
  edestruct (vlan_loop_safe m data_end VLAN_MAX_DEPTH Hde 0 (pos nh + sizeof_ethhdr) p vlans)
    as (vlh' & p' & vs' & -> & ?); [unfold sizeof_ethhdr in *; lia | done |].
  simpl. do 2 eexists. split; [done |]. right. simpl. split; [done | lia].
Qed.

(** Solves the instances below: reject or read the header and advance. *)
Ltac solve_short := intros; unfold advances; simpl; rewrite (proj2 (Z.ltb_lt _ _)) by lia; done.

#[export] Instance HdrParser_ethhdr : HdrParser parse_ethhdr sizeof_ethhdr.
Proof.
  split; [done | |].
  - intros m nh data_end Hpos Hde. unfold parse_ethhdr.
    destruct (parse_ethhdr_vlan_safe m nh data_end None) as (r & vs & -> & Hr); [done.. |].
    eexists. split; [done |]. done.
  - intros. unfold parse_ethhdr, parse_ethhdr_vlan.
    rewrite (proj2 (Z.ltb_lt _ _)) by lia. done.
Qed.

Ltac solve_fixed_parser :=
  split; [done | | solve_short];
  intros m nh data_end Hpos Hde; simpl;
  match goal with |- context [if ?de <? ?x then _ else _] =>
    destruct (Z.ltb_spec de x) as [|] end;
  [ eexists; split; [done |]; by left |];
  match goal with H : pos _ + ?s <= _ |- _ => unfold s in * end;
  unfold ip6h_nexthdr, icmp_type;
  match goal with |- context [load ?n ?mem ?o] =>
    destruct (load_Some n mem o) as (v & -> & _); [lia.. |] end;
  simpl; eexists; split; [done |]; right; simpl; split; [done | lia].

#[export] Instance HdrParser_ip6hdr : HdrParser parse_ip6hdr sizeof_ipv6hdr.
Proof. unfold parse_ip6hdr. solve_fixed_parser. Qed.
#[export] Instance HdrParser_icmp6hdr : HdrParser parse_icmp6hdr sizeof_icmp6hdr.
Proof. unfold parse_icmp6hdr. solve_fixed_parser. Qed.
#[export] Instance HdrParser_icmphdr : HdrParser parse_icmphdr sizeof_icmphdr.
Proof. unfold parse_icmphdr. solve_fixed_parser. Qed.
#[export] Instance HdrParser_icmphdr_common :
  HdrParser parse_icmphdr_common sizeof_icmphdr_common.
Proof. unfold parse_icmphdr_common. solve_fixed_parser. Qed.

#[export] Instance HdrParser_udphdr : HdrParser parse_udphdr sizeof_udphdr.
Proof.
  unfold parse_udphdr. split; [done | | solve_short]. intros m nh data_end Hpos Hde.
  destruct (Z.ltb_spec data_end (pos nh + sizeof_udphdr)) as [| Hfit].
  { eexists. split; [done |]. by left. }
  unfold sizeof_udphdr, udp_len in *.
  destruct (load_Some 2 m (pos nh + 4)) as (v & -> & _); [lia.. |]. simpl.
  destruct (_ <? 0); (eexists; split; [done |]; right; simpl; split; [done | lia]).
Qed.

#[export] Instance HdrParser_iphdr : HdrParser parse_iphdr sizeof_iphdr.
Proof.
  unfold parse_iphdr. split; [done | | solve_short]. intros m nh data_end Hpos Hde.
  destruct (Z.ltb_spec data_end (pos nh + sizeof_iphdr)) as [| Hfit].
  { eexists. split; [done |]. by left. }
  destruct (iph_ihl_Some m (pos nh)) as (ihl & -> & Hihl); [lia.. |]. simpl.
  rewrite u64_id by lia. unfold sizeof_iphdr in *.
  destruct (Z.ltb_spec (ihl * 4) 20). { eexists. split; [done |]. by left. }
  destruct (Z.ltb_spec data_end (pos nh + ihl * 4)). { eexists. split; [done |]. by left. }
  unfold iph_protocol.
  destruct (load_Some 1 m (pos nh + 9)) as (v & -> & _); [lia.. |]. simpl.
  eexists. split; [done |]. right. simpl. split; [done | lia].
Qed.

#[export] Instance HdrParser_tcphdr : HdrParser parse_tcphdr sizeof_tcphdr.
Proof.
  unfold parse_tcphdr. split; [done | | solve_short]. intros m nh data_end Hpos Hde.
  destruct (Z.ltb_spec data_end (pos nh + sizeof_tcphdr)) as [| Hfit].
  { eexists. split; [done |]. by left. }
  destruct (tcp_doff_Some m (pos nh)) as (doff & -> & Hdoff); [lia.. |]. simpl.
  rewrite u64_id by lia. unfold sizeof_tcphdr in *.
  destruct (Z.ltb_spec (doff * 4) 20). { eexists. split; [done |]. by left. }
  destruct (Z.ltb_spec data_end (pos nh + doff * 4)). { eexists. split; [done |]. by left. }
  eexists. split; [done |]. right. simpl. split; [done | lia].
Qed.

(** ** Chains of helpers *)

Definition helper_parsers : list parser :=
  [ parse_ethhdr; parse_ip6hdr; parse_iphdr; parse_icmp6hdr; parse_icmphdr;
    parse_icmphdr_common; parse_udphdr; parse_tcphdr ].

(** Run the helpers one after the other on one cursor, until one of them
    rejects the packet: the way the packet programs use them. *)
Fixpoint parse_chain (ps : list parser) (m : list byte) (nh : hdr_cursor) (data_end : Z)
    : option (list parsed) :=
  match ps with
  | [] => Some []
  | p :: ps' =>
      r ← p m nh data_end;
      if p_ret r =? -1 then Some [r]
      else rs ← parse_chain ps' m (p_nh r) data_end; Some (r :: rs)
  end.

Lemma helper_parsers_ok p :
  p ∈ helper_parsers -> exists min, 4 <= min /\ HdrParser p min.
Proof.
  unfold helper_parsers. rewrite !elem_of_cons, elem_of_nil.
  intros [-> | [-> | [-> | [-> | [-> | [-> | [-> | [-> | []]]]]]]]];
    (eexists; split; [| apply _]); done.
Qed.

Definition cursors (rs : list parsed) : list Z := map (fun r => pos (p_nh r)) rs.

(** C16: any sequence of the header parsing helpers, run on one cursor over a
    packet of any content and length, never reads outside the packet; the
    cursor only moves forward and never passes [data_end], and a packet of n
    bytes is exhausted after at most n/4 accepted headers. *)
Theorem parse_chain_safe ps m nh data_end :
  Forall (fun p => p ∈ helper_parsers) ps ->
  0 <= pos nh <= data_end -> data_end <= zlen m ->
  exists rs, parse_chain ps m nh data_end = Some rs /\
    Forall (fun c => pos nh <= c <= data_end) (cursors rs) /\
    StronglySorted Z.le (cursors rs) /\
    4 * (zlen rs - 1) <= data_end - pos nh.
Proof.
  intros Hps Hnh Hde. revert nh Hnh. induction Hps as [| p ps Hp _ IH]; intros nh Hnh; simpl.
  { exists []. split_and!; [done | constructor | constructor | unfold zlen; simpl; lia]. }
  destruct (helper_parsers_ok p Hp) as (min & Hmin & HP).
  destruct (hdr_safe m nh data_end) as (r & -> & Hr); [lia.. |]. simpl.
  assert (pos nh <= pos (p_nh r) <= data_end) as Hc by (destruct Hr as [-> | ?]; simpl; lia).
  destruct (p_ret r =? -1) eqn:Eret.
  { exists [r]. split_and!; [done | constructor; [lia | constructor] | repeat constructor |].
    unfold zlen; simpl; lia. }
  destruct Hr as [-> | [_ Hadv]]; [done |].
  destruct (IH (p_nh r)) as (rs & -> & Hall & Hsort & Hlen); [lia |].
  exists (r :: rs). simpl. split_and!; [done | | |].
  - constructor; [lia |]. eapply Forall_impl; [exact Hall |]. simpl. lia.
  - constructor; [done |]. eapply Forall_impl; [exact Hall |]. simpl. lia.
  - rewrite zlen_cons. lia.
Qed.

(** ** VLAN frames

    The reference encoding of an Ethernet frame with a stack of VLAN tags
    (TPID, TCI), outermost first: all fields in network byte order. *)

Definition be16 (v : Z) : list byte := le_split 2 (bswap16 v).

Fixpoint vlan_stack (tags : list (Z * Z)) (proto : Z) (payload : list byte) : list byte :=
  match tags with
  | [] => be16 proto ++ payload
  | (tpid, tci) :: tags' => be16 tpid ++ be16 tci ++ vlan_stack tags' proto payload
  end.

Definition eth_frame (macs : list byte) (tags : list (Z * Z)) (proto : Z) (payload : list byte)
    : list byte := macs ++ vlan_stack tags proto payload.

Definition first_proto (tags : list (Z * Z)) (proto : Z) : Z :=
  match tags with [] => proto | (tpid, _) :: _ => tpid end.

Definition tag_ok (t : Z * Z) : Prop :=
  (t.1 = ETH_P_8021Q \/ t.1 = ETH_P_8021AD) /\ 0 <= t.2 < 2 ^ 16.

Definition vid (t : Z * Z) : Z := Z.land t.2 VLAN_VID_MASK.

Definition host_is_vlan (proto : Z) : Prop := proto = ETH_P_8021Q \/ proto = ETH_P_8021AD.

Lemma proto_is_vlan_host p :
  0 <= p < 2 ^ 16 -> proto_is_vlan (bswap16 p) = true <-> host_is_vlan p.
Proof.
  intros Hp. unfold proto_is_vlan, host_is_vlan.
  rewrite orb_true_iff, !Z.eqb_eq. split.
  - intros [H | H]; apply bswap16_inj in H; auto; done.
  - intros [-> | ->]; auto.
Qed.

Lemma load_be16 (pre post : list byte) off v :
  off = zlen pre -> 0 <= v < 2 ^ 16 -> load16 (pre ++ be16 v ++ post) off = Some (bswap16 v).
Proof. intros. change (be16 v) with (le_split 2 (bswap16 v)). apply load_app_le; [done |]. apply bswap16_range. done. Qed.

Lemma zlen_be16 v : zlen (be16 v) = 2.
Proof. apply zlen_le_split. Qed.

#[local] Opaque be16.

Lemma tag_proto_range t : tag_ok t -> 0 <= t.1 < 2 ^ 16.
Proof. intros [[-> | ->] _]; done. Qed.

Lemma vlan_stack_first tags proto payload :
  exists rest, vlan_stack tags proto payload = be16 (first_proto tags proto) ++ rest /\
    zlen rest = 4 * zlen tags + zlen payload.
Proof.
  revert proto. induction tags as [| [tpid tci] tags IH]; intros proto; simpl.
  { exists payload. split; [done | unfold zlen; simpl; lia]. }
  destruct (IH proto) as (rest & Hr & Hlen).
  exists (be16 tci ++ vlan_stack tags proto payload). split; [done |].
  rewrite Hr, !zlen_app, !zlen_be16, zlen_cons. lia.
Qed.

(** On an encoded tag stack the loop strips [n] tags and collects their ids. *)
Lemma vlan_loop_stack proto payload n : 0 <= proto < 2 ^ 16 -> ~ host_is_vlan proto ->
  forall tags pre i ids, Forall tag_ok tags -> (i + n <= length ids)%nat ->
  let m := pre ++ vlan_stack tags proto payload in
  vlan_loop m (zlen m) n i (zlen pre + 2) (bswap16 (first_proto tags proto)) (Some {| id := ids |}) =
  Some (zlen pre + 2 + 4 * Z.of_nat (min n (length tags)),
        bswap16 (first_proto (drop n tags) proto),
        Some {| id := take i ids ++ map vid (take n tags) ++ drop (i + min n (length tags)) ids |}).
Proof.
  intros Hproto Hnv. induction n as [| n IH]; intros tags pre i ids Htags Hlen m; subst m.
  { simpl. rewrite Nat.add_0_r, take_drop, Z.add_0_r. done. }
  destruct tags as [| [tpid tci] tags].
  { simpl. replace (negb (proto_is_vlan (bswap16 proto))) with true.
    - rewrite Nat.add_0_r, take_drop, Z.add_0_r. done.
    - symmetry. apply negb_true_iff, not_true_iff_false. by rewrite proto_is_vlan_host. }
  apply Forall_cons in Htags as [Ht Htags].
  pose proof (tag_proto_range _ Ht) as Htp. destruct Ht as [Htpid Htci]. simpl in *.
  replace (proto_is_vlan (bswap16 tpid)) with true
    by (symmetry; apply proto_is_vlan_host; done). simpl.
  set (m := pre ++ be16 tpid ++ be16 tci ++ vlan_stack tags proto payload).
  assert (m = (pre ++ be16 tpid) ++ be16 tci ++ vlan_stack tags proto payload) as Em1
    by (unfold m; by rewrite <- app_assoc).
  destruct (vlan_stack_first tags proto payload) as (rest & Hrest & Hrlen).
  assert (m = (pre ++ be16 tpid ++ be16 tci) ++ vlan_stack tags proto payload) as Em2
    by (unfold m; by rewrite <- !app_assoc).
  assert (zlen m = zlen pre + 6 + zlen rest) as Hm.
  { rewrite Em2, Hrest, !zlen_app, !zlen_be16. lia. }
  assert (0 <= first_proto tags proto < 2 ^ 16) as Hfp.
  { destruct tags as [| t tags']; [done |]. destruct t as [t1 t2].
    apply Forall_cons in Htags as [Ht _]. apply (tag_proto_range _ Ht). }
  pose proof (zlen_nonneg rest).
  rewrite (proj2 (Z.ltb_ge _ _)) by (unfold sizeof_vlan_hdr; lia).
  unfold h_vlan_encapsulated_proto, h_vlan_TCI.
  rewrite Em2 at 1. rewrite Hrest at 1. rewrite load_be16; [| rewrite !zlen_app, !zlen_be16; lia | done].
  simpl. rewrite Em1 at 1. rewrite load_be16; [| rewrite zlen_app, zlen_be16; lia | done].
  simpl. rewrite (proj2 (Nat.ltb_lt _ _)) by lia. simpl.
  rewrite bswap16_involutive by done.
  replace (zlen pre + 2 + sizeof_vlan_hdr) with (zlen (pre ++ be16 tpid ++ be16 tci) + 2)
    by (rewrite !zlen_app, !zlen_be16; unfold sizeof_vlan_hdr; lia).
  rewrite Em2. rewrite IH; [| done | rewrite length_insert; lia].
  rewrite !zlen_app, !zlen_be16. do 2 f_equal; [f_equal; lia |]. do 2 f_equal.
  rewrite (take_S_r _ i (vid (tpid, tci))) by (apply list_lookup_insert_eq; lia).
  rewrite take_insert_ge, <- app_assoc by lia. f_equal. simpl. f_equal. f_equal.
  rewrite drop_insert_lt by lia. f_equal. lia.
Qed.

(** A frame of 12 address bytes, two tags (priority 5, VLAN 100; VLAN 7) and
    an IPv4 payload, used by the witnesses. *)
Definition sample_frame : list byte :=
  eth_frame (replicate 12 x00) [(ETH_P_8021AD, 0xA064); (ETH_P_8021Q, 7)] ETH_P_IP
    (replicate 40 x45).

Lemma parse_chain_safe_witness :
  Forall (fun p => p ∈ helper_parsers) [parse_ethhdr; parse_iphdr; parse_tcphdr] /\
  exists rs, parse_chain [parse_ethhdr; parse_iphdr; parse_tcphdr] sample_frame {| pos := 0 |} 62
    = Some rs /\
    Forall (fun c => 0 <= c <= 62) (cursors rs) /\ StronglySorted Z.le (cursors rs) /\
    4 * (zlen rs - 1) <= 62 - 0.
Proof.
  assert (Forall (fun p => p ∈ helper_parsers) [parse_ethhdr; parse_iphdr; parse_tcphdr]) as H.
  { unfold helper_parsers. repeat constructor. }
  split; [exact H |].
  apply (parse_chain_safe _ sample_frame {| pos := 0 |} 62 H); [simpl; lia | by vm_compute].
Defined.

(** C28: [parse_ethhdr_vlan] decodes every well-formed Ethernet frame with a
    stack of VLAN tags: it strips at most [VLAN_MAX_DEPTH] tags, leaves the
    cursor behind them, collects the 12-bit VLAN ids of the tags it stripped
    (and keeps the other entries of the caller's array), and returns the
    EtherType that follows in network byte order. *)
Theorem parse_ethhdr_vlan_frame macs tags proto payload ids :
  length macs = 12%nat -> Forall tag_ok tags ->
  0 <= proto < 2 ^ 16 -> ~ host_is_vlan proto -> length ids = VLAN_MAX_DEPTH ->
  let m := eth_frame macs tags proto payload in
  let n := min VLAN_MAX_DEPTH (length tags) in
  parse_ethhdr_vlan m {| pos := 0 |} (zlen m) (Some {| id := ids |}) =
  Some (Parsed (bswap16 (first_proto (drop VLAN_MAX_DEPTH tags) proto))
               {| pos := 14 + 4 * Z.of_nat n |} (Some 0),
        Some {| id := map vid (take VLAN_MAX_DEPTH tags) ++ drop n ids |}).
Proof.
  intros Hmacs Htags Hproto Hnv Hids m n.
  destruct (vlan_stack_first tags proto payload) as (rest & Hrest & Hlen).
  assert (zlen macs = 12) as Hz by (unfold zlen; lia).
  assert (0 <= first_proto tags proto < 2 ^ 16) as Hfp.
  { destruct tags as [| [t1 t2] tags']; [done |].
    apply Forall_cons in Htags as [Ht _]. apply (tag_proto_range _ Ht). }
  unfold parse_ethhdr_vlan. cbn [pos]. rewrite (proj2 (Z.ltb_ge _ _)); cycle 1.
  { unfold m, eth_frame. rewrite Hrest, !zlen_app, zlen_be16, Hlen.
    pose proof (zlen_nonneg tags). pose proof (zlen_nonneg payload). unfold sizeof_ethhdr. lia. }
  assert (eth_h_proto m 0 = Some (bswap16 (first_proto tags proto))) as ->.
  { unfold eth_h_proto, m, eth_frame. rewrite Hrest. apply load_be16; [lia | done]. }
  cbn [mbind option_bind]. change (0 + sizeof_ethhdr) with (12 + 2). rewrite <- Hz.
  pose proof (vlan_loop_stack proto payload VLAN_MAX_DEPTH Hproto Hnv tags macs 0 ids Htags) as Hl.
  cbv zeta in Hl. unfold m, eth_frame. rewrite Hl by (rewrite Hids; done).
  cbn [mbind option_bind]. rewrite Hz. done.
Qed.

Lemma parse_ethhdr_vlan_frame_witness :
  parse_ethhdr_vlan sample_frame {| pos := 0 |} (zlen sample_frame) (Some {| id := [0; 0] |}) =
  Some (Parsed (bswap16 ETH_P_IP) {| pos := 22 |} (Some 0), Some {| id := [100; 7] |}).
Proof.
  apply (parse_ethhdr_vlan_frame (replicate 12 x00)
    [(ETH_P_8021AD, 0xA064); (ETH_P_8021Q, 7)] ETH_P_IP (replicate 40 x45) [0; 0]).
  - reflexivity.
  - repeat (apply Forall_cons; split); [split; [by right | simpl; lia] | split; [by left | simpl; lia] | constructor].
  - unfold ETH_P_IP. lia.
  - unfold host_is_vlan, ETH_P_IP, ETH_P_8021Q, ETH_P_8021AD. lia.
  - reflexivity.
Defined.

(** Collecting VLAN ids never changes how a frame is parsed:
    [parse_ethhdr], which passes no array, returns what
    [parse_ethhdr_vlan] returns for any array of [VLAN_MAX_DEPTH] entries. *)
Theorem parse_ethhdr_ignores_ids m nh data_end v :
  0 <= pos nh -> data_end <= zlen m -> (VLAN_MAX_DEPTH <= length (id v))%nat ->
  exists r v', parse_ethhdr_vlan m nh data_end (Some v) = Some (r, v') /\
    parse_ethhdr m nh data_end = Some r.
Proof.
  intros Hpos Hde Hid.
  destruct (parse_ethhdr_vlan_safe m nh data_end (Some v)) as (r & v' & E & _);
    [done.. | by intros ? [= <-] |].
  exists r, v'. split; [done |]. revert E. unfold parse_ethhdr, parse_ethhdr_vlan.
  destruct (data_end <? _). { intros [=]; simplify_eq. done. }
  destruct (eth_h_proto m (pos nh)) as [p |]; cbn [mbind option_bind]; [| done].
  destruct (vlan_loop _ _ _ _ _ _ (Some v)) as [[[a b] c] |] eqn:El;
    cbn [mbind option_bind]; [| done].
  apply vlan_loop_ids_irrelevant in El. rewrite El. intros [=]; simplify_eq. done.
Qed.

Lemma parse_ethhdr_ignores_ids_witness :
  exists r v', parse_ethhdr_vlan sample_frame {| pos := 0 |} 62 (Some {| id := [9; 9] |})
    = Some (r, v') /\ parse_ethhdr sample_frame {| pos := 0 |} 62 = Some r.
Proof.
  apply (parse_ethhdr_ignores_ids sample_frame {| pos := 0 |} 62 {| id := [9; 9] |});
    [simpl; lia | by vm_compute | by vm_compute].
Defined.

(** The variable-length headers.  When [parse_iphdr] or [parse_tcphdr]
    accepts a header, the cursor has moved by exactly four times the header's
    length field, which is between the size of the fixed part and 60 bytes,
    and [parse_tcphdr] returns that number; [parse_udphdr] returns the payload
    length announced by the header, or -1 when the header announces less than
    its own size: the [size_t] subtraction does not wrap into a length. *)
Theorem header_lengths m nh data_end :
  0 <= pos nh -> data_end <= zlen m ->
  (forall r, parse_iphdr m nh data_end = Some r -> p_hdr r <> None ->
     exists ihl, iph_ihl m (pos nh) = Some ihl /\
       pos (p_nh r) = pos nh + 4 * ihl /\ 20 <= 4 * ihl <= 60) /\
  (forall r, parse_tcphdr m nh data_end = Some r -> p_ret r <> -1 ->
     exists doff, tcp_doff m (pos nh) = Some doff /\ p_ret r = 4 * doff /\
       pos (p_nh r) = pos nh + p_ret r /\ 20 <= p_ret r <= 60) /\
  (forall r, parse_udphdr m nh data_end = Some r -> p_hdr r <> None ->
     exists len, udp_len m (pos nh) = Some len /\
       p_ret r = (if bswap16 len <? 8 then -1 else bswap16 len - 8)).
Proof.
  intros Hpos Hde. split_and!; intros r.
  - unfold parse_iphdr. destruct (Z.ltb_spec data_end (pos nh + sizeof_iphdr)).
    { intros [= <-]. done. }
    destruct (iph_ihl_Some m (pos nh)) as (ihl & -> & Hihl); [lia.. |]. simpl.
    rewrite u64_id by lia. unfold sizeof_iphdr.
    destruct (Z.ltb_spec (ihl * 4) 20). { intros [= <-]. done. }
    destruct (data_end <? _). { intros [= <-]. done. }
    destruct (iph_protocol m (pos nh)); intros [= <-]; intros _.
    exists ihl. simpl. split_and!; [done | lia..].
  - unfold parse_tcphdr. destruct (Z.ltb_spec data_end (pos nh + sizeof_tcphdr)).
    { intros [= <-]. done. }
    destruct (tcp_doff_Some m (pos nh)) as (doff & -> & Hdoff); [lia.. |]. simpl.
    rewrite u64_id by lia. unfold sizeof_tcphdr.
    destruct (Z.ltb_spec (doff * 4) 20). { intros [= <-]. done. }
    destruct (data_end <? _). { intros [= <-]. done. }
    intros [= <-] _. exists doff. simpl. split_and!; [done | lia..].
  - unfold parse_udphdr. destruct (data_end <? _). { intros [= <-]. done. }
    destruct (udp_len m (pos nh)) as [len |] eqn:El; simpl; [| done].
    unfold udp_len in El. apply load_inv in El as (_ & _ & Hlen).
    pose proof (bswap16_range len Hlen) as Hb. unfold sizeof_udphdr.
    intros Hr _. exists len. split; [done |].
    assert (s32 (u64 (bswap16 len - 8)) = bswap16 len - 8) as E.
    { unfold s32, u64. change (2 ^ 64) with (2 ^ 32 * 2 ^ 32).
      rewrite <- Z.add_mod_idemp_l, Z.rem_mul_r by lia. rewrite Z.add_comm.
      Z.to_euclidean_division_equations. lia. }
    rewrite E in Hr. destruct (Z.ltb_spec (bswap16 len - 8) 0); simplify_eq; simpl;
      destruct (Z.ltb_spec (bswap16 len) 8); lia.
Qed.

Lemma header_lengths_witness :
  let m := replicate 64 x45 in
  parse_iphdr m {| pos := 0 |} 64 = Some (Parsed 69 {| pos := 20 |} (Some 0)) /\
  exists ihl, iph_ihl m 0 = Some ihl /\ 20 = 0 + 4 * ihl /\ 20 <= 4 * ihl <= 60.
Proof.
  intros m. assert (parse_iphdr m {| pos := 0 |} 64 = Some (Parsed 69 {| pos := 20 |} (Some 0))) as E
    by (vm_compute; reflexivity).
  split; [exact E |].
  destruct (header_lengths m {| pos := 0 |} 64) as [Hip _]; [simpl; lia | by vm_compute |].
  apply (Hip _ E). discriminate.
Defined.
