(* ===== verification/RewriteHelpers.v ===== *)
(** Packet rewriting: src/common/rewrite_helpers.h.

    The frame lives in a buffer [m] with head room; [xdp_md] holds the
    offsets of the first byte and of the end of the packet.  The kernel helper
    [bpf_xdp_adjust_head] is not part of the repository: it is an operation
    of the class [XdpAdjust], with its documented behaviour as laws. *)
From S2P Require Import Prelude.
From S2P Require Import ParsingHelpers.

Record xdp_md := { data : Z; data_end : Z }.

(** The kernel helper: return code, buffer and context afterwards. *)
Class XdpAdjust := bpf_xdp_adjust_head : list byte -> xdp_md -> Z -> Z * list byte * xdp_md.

(** What the documentation of the helper promises: on success ([0]) the start
    of the packet has moved by [delta] and the bytes that stay in the packet
    are unchanged; on an error nothing changed. *)
Class XdpAdjustOk (adj : XdpAdjust) : Prop := {
  adjust_ok m ctx delta m' ctx' :
    adj m ctx delta = (0, m', ctx') ->
    data ctx' = data ctx + delta /\ data_end ctx' = data_end ctx /\
    0 <= data ctx' /\ zlen m' = zlen m /\
    (forall off n, data ctx <= off -> data ctx' <= off -> bytes_at m' off n = bytes_at m off n);
  adjust_err m ctx delta r m' ctx' :
    adj m ctx delta = (r, m', ctx') -> r <> 0 -> m' = m /\ ctx' = ctx
}.

(** Result of a rewriting helper: return value, buffer, context. *)
Definition rewritten : Type := Z * list byte * xdp_md.

Section Vlan.
Context {adj : XdpAdjust}.

Definition vlan_tag_pop (m : list byte) (ctx : xdp_md) (eth : Z) : option rewritten :=
  h_proto0 ← eth_h_proto m eth;
  if negb (proto_is_vlan h_proto0) then Some (-1, m, ctx)
  else
    let vlh := eth + sizeof_ethhdr in
    if data_end ctx <? vlh + sizeof_vlan_hdr then Some (-1, m, ctx)
    else
      tci ← h_vlan_TCI m vlh;
      let vlid := bswap16 tci in
      h_proto ← h_vlan_encapsulated_proto m vlh;
      eth_cpy ← bytes_at m eth 14;
      let '(r, m1, ctx1) := bpf_xdp_adjust_head m ctx sizeof_vlan_hdr in
      if c_true r then Some (-1, m1, ctx1)
      else
        let eth1 := data ctx1 in
        if data_end ctx1 <? eth1 + sizeof_ethhdr then Some (-1, m1, ctx1)
        else
          m2 ← store m1 eth1 eth_cpy;
          m3 ← store m2 (eth1 + 12) (le_split 2 h_proto);
          Some (vlid, m3, ctx1).

Definition vlan_tag_push (m : list byte) (ctx : xdp_md) (eth : Z) (vlid : Z) : option rewritten :=
  eth_cpy ← bytes_at m eth 14;
  let '(r, m1, ctx1) := bpf_xdp_adjust_head m ctx (0 - sizeof_vlan_hdr) in
  if c_true r then Some (-1, m1, ctx1)
  else
    let eth1 := data ctx1 in
    if data_end ctx1 <? eth1 + sizeof_ethhdr then Some (-1, m1, ctx1)
    else
      m2 ← store m1 eth1 eth_cpy;
      let vlh := eth1 + sizeof_ethhdr in
      if data_end ctx1 <? vlh + sizeof_vlan_hdr then Some (-1, m2, ctx1)
      else
        m3 ← store m2 vlh (le_split 2 (bswap16 (u16 vlid)));
        h_proto ← eth_h_proto m3 eth1;
        m4 ← store m3 (vlh + 2) (le_split 2 h_proto);
        m5 ← store m4 (eth1 + 12) (le_split 2 (bswap16 ETH_P_8021Q));
        Some (0, m5, ctx1).

End Vlan.

(** Exchange the two fields of [n] bytes at [a] and [b], through a temporary
    copy of the field at [a]. *)
Definition swap_fields (m : list byte) (a b : Z) (n : nat) : option (list byte) :=
  tmp ← bytes_at m a n;
  fb ← bytes_at m b n;
  m1 ← store m a fb;
  store m1 b tmp.

Definition ETH_ALEN : nat := 6.

Definition swap_src_dst_mac (m : list byte) (eth : Z) : option (list byte) :=
  swap_fields m (eth + 6) eth ETH_ALEN.

Definition swap_src_dst_ipv6 (m : list byte) (ipv6 : Z) : option (list byte) :=
  swap_fields m (ipv6 + 8) (ipv6 + 24) 16.

Definition swap_src_dst_ipv4 (m : list byte) (iphdr : Z) : option (list byte) :=
  swap_fields m (iphdr + 12) (iphdr + 16) 4.

(** ** The frame in the buffer *)

Definition frame (m : list byte) (ctx : xdp_md) : option (list byte) :=
  bytes_at m (data ctx) (Z.to_nat (data_end ctx - data ctx)).

Lemma frame_split m ctx F :
  frame m ctx = Some F ->
  exists pre post, m = pre ++ F ++ post /\ zlen pre = data ctx /\
    zlen F = Z.max 0 (data_end ctx - data ctx).
Proof.
  intros (pre & post & -> & Hp & HF)%bytes_at_split.
  exists pre, post. split_and!; [done.. |]. unfold zlen. lia.
Qed.

Lemma frame_of_split pre F post ctx :
  zlen pre = data ctx -> zlen F = data_end ctx - data ctx ->
  frame (pre ++ F ++ post) ctx = Some F.
Proof. intros Hp HF. unfold frame. apply bytes_at_app; [done |]. unfold zlen in HF. lia. Qed.

(** Lists of a known length that are a multiple of two fields. *)
Lemma split_at {A} (l : list A) (n : nat) :
  (n <= length l)%nat -> exists a b, l = a ++ b /\ length a = n.
Proof.
  intros H. exists (take n l), (drop n l). rewrite take_drop, length_take. split; [done | lia].
Qed.

Lemma frame_bytes m ctx F a b c off n :
  frame m ctx = Some F -> F = a ++ b ++ c -> off = data ctx + zlen a -> n = length b ->
  bytes_at m off n = Some b.
Proof.
  intros HF -> -> ->. destruct (frame_split _ _ _ HF) as (pre & post & -> & Hp & _).
  rewrite <- !app_assoc, (app_assoc pre). apply bytes_at_app; [| done]. rewrite zlen_app. lia.
Qed.

Lemma frame_load m ctx F a b c off n :
  frame m ctx = Some F -> F = a ++ b ++ c -> off = data ctx + zlen a -> n = length b ->
  load n m off = Some (le_combine b).
Proof. intros. unfold load. by erewrite frame_bytes. Qed.

Lemma frame_store m ctx F a b c off b' :
  frame m ctx = Some F -> F = a ++ b ++ c -> off = data ctx + zlen a -> length b' = length b ->
  exists m', store m off b' = Some m' /\ frame m' ctx = Some (a ++ b' ++ c).
Proof.
  intros HF -> -> Hb. destruct (frame_split _ _ _ HF) as (pre & post & -> & Hp & Hl).
  destruct (decide (data ctx <= data_end ctx)) as [Hle | Hgt].
  - exists (pre ++ (a ++ b' ++ c) ++ post). split.
    + rewrite <- !app_assoc, !(app_assoc pre). apply store_app; [rewrite zlen_app; lia | done].
    + apply frame_of_split; [done |]. rewrite !zlen_app in *. unfold zlen in *. lia.
  - rewrite !zlen_app in Hl. pose proof (zlen_nonneg a). pose proof (zlen_nonneg b).
    pose proof (zlen_nonneg c).
    assert (a = []) as -> by (apply nil_length_inv; unfold zlen in *; lia).
    assert (b = []) as -> by (apply nil_length_inv; unfold zlen in *; lia).
    apply nil_length_inv in Hb as ->. exists (pre ++ ([] ++ [] ++ c) ++ post).
    split; [| done]. apply store_bytes_at_id with 0%nat. apply (bytes_at_app pre []); [| done].
    rewrite Hp. unfold zlen. simpl. lia.
Qed.

Section VlanSpec.
Context {adj : XdpAdjust} {adj_ok : XdpAdjustOk adj}.

(** The packet after a successful [bpf_xdp_adjust_head]: four unspecified
    bytes in front of it, or its first four bytes cut off. *)
Lemma adjust_grow m ctx m1 ctx1 F :
  adj m ctx (- 4) = (0, m1, ctx1) -> frame m ctx = Some F -> data ctx <= data_end ctx ->
  exists g, length g = 4%nat /\ frame m1 ctx1 = Some (g ++ F).
Proof.
  intros Hadj HF Hle. destruct (adjust_ok _ _ _ _ _ Hadj) as (Hdata & Hend & Hpos & _ & Hkeep).
  destruct (frame_split _ _ _ HF) as (_ & _ & _ & _ & HFl).
  unfold frame in HF. rewrite <- Hkeep in HF by lia.
  apply bytes_at_split in HF as (pre & post & -> & Hp & _).
  destruct (split_at pre (length pre - 4)) as (pre0 & g & -> & Hg); [lia |].
  rewrite length_app in Hg. rewrite zlen_app in Hp. unfold zlen in Hp.
  exists g. split; [lia |].
  replace ((pre0 ++ g) ++ F ++ post) with (pre0 ++ (g ++ F) ++ post) by (by rewrite <- !app_assoc).
  apply frame_of_split; [unfold zlen; lia |]. rewrite zlen_app. unfold zlen in *. lia.
Qed.

Lemma adjust_cut m ctx m1 ctx1 F a b :
  adj m ctx 4 = (0, m1, ctx1) -> frame m ctx = Some F -> F = a ++ b -> length a = 4%nat ->
  frame m1 ctx1 = Some b.
Proof.
  intros Hadj HF -> Ha. destruct (adjust_ok _ _ _ _ _ Hadj) as (Hdata & Hend & Hpos & _ & Hkeep).
  destruct (frame_split _ _ _ HF) as (_ & _ & _ & _ & HFl). rewrite zlen_app in HFl.
  unfold frame. rewrite Hkeep by lia. pose proof (zlen_nonneg b).
  apply (frame_bytes m ctx _ a b [] _ _ HF); [by rewrite app_nil_r | |];
    unfold zlen in *; lia.
Qed.

Lemma push_frame m ctx macs rest vlid m1 ctx1 :
  frame m ctx = Some (macs ++ rest) -> length macs = 12%nat -> 2 <= zlen rest ->
  0 <= vlid < 2 ^ 16 -> adj m ctx (- 4) = (0, m1, ctx1) ->
  exists m', vlan_tag_push m ctx (data ctx) vlid = Some (0, m', ctx1) /\
    frame m' ctx1 = Some (macs ++ be16 ETH_P_8021Q ++ be16 vlid ++ rest).
Proof.
  intros HF Hmacs Hrest Hvlid Hadj.
  destruct (frame_split _ _ _ HF) as (_ & _ & _ & _ & HFl). rewrite zlen_app in HFl.
  destruct (split_at rest 2) as (p & rest' & -> & Hp); [unfold zlen in *; lia |].
  pose proof (zlen_nonneg macs) as Hm0. rewrite zlen_app in HFl.
  destruct (adjust_ok _ _ _ _ _ Hadj) as (Hdata & Hend & _).
  destruct (adjust_grow _ _ _ _ _ Hadj HF) as (g & Hg & HF1); [zlen_lia |].
  destruct (split_at (g ++ macs ++ p) 14) as (h & x & Hhx & Hh); [rewrite !length_app; lia |].
  pose proof (f_equal length Hhx) as Hlx. rewrite !length_app in Hlx.
  destruct (split_at x 2) as (x1 & x2 & -> & Hx1); [lia |]. rewrite length_app in Hlx.
  unfold vlan_tag_push, sizeof_ethhdr, sizeof_vlan_hdr, bpf_xdp_adjust_head.
  rewrite (frame_bytes _ _ _ [] (macs ++ p) rest' _ _ HF) by
    (rewrite <- ?app_assoc, ?length_app; done || zlen_lia). cbn [mbind option_bind].
  change (0 - 4) with (-4). rewrite Hadj. change (c_true 0) with false. cbn iota.
  rewrite !(proj2 (Z.ltb_ge _ _)) by zlen_lia.
  destruct (frame_store _ _ _ [] h ((x1 ++ x2) ++ rest') (data ctx1) (macs ++ p) HF1)
    as (m2 & -> & HF2); [by simpl; rewrite (app_assoc h), <- Hhx, <- !app_assoc | zlen_lia
    | rewrite length_app; lia |]. cbn [mbind option_bind]. simpl in HF2.
  rewrite u16_id by lia. change (le_split 2 (bswap16 vlid)) with (be16 vlid).
  destruct (frame_store _ _ _ (macs ++ p) x1 (x2 ++ rest') (data ctx1 + 14) (be16 vlid) HF2)
    as (m3 & -> & HF3); [by rewrite <- !app_assoc | zlen_lia | by rewrite Hx1 |].
  cbn [mbind option_bind]. unfold eth_h_proto.
  rewrite (frame_load _ _ _ macs p (be16 vlid ++ x2 ++ rest') _ _ HF3)
    by (rewrite <- ?app_assoc; done || zlen_lia). cbn [mbind option_bind].
  rewrite split_le_combine' by done.
  destruct (frame_store _ _ _ (macs ++ p ++ be16 vlid) x2 rest' (data ctx1 + 14 + 2) p HF3)
    as (m4 & -> & HF4); [by rewrite <- !app_assoc
    | rewrite !zlen_app, zlen_be16; zlen_lia | lia |]. cbn [mbind option_bind].
  destruct (frame_store _ _ _ macs p (be16 vlid ++ p ++ rest') (data ctx1 + 12)
    (be16 ETH_P_8021Q) HF4) as (m5 & Hst & HF5); [by rewrite <- !app_assoc | zlen_lia
    | by rewrite Hp |].
  change (le_split 2 (bswap16 ETH_P_8021Q)) with (be16 ETH_P_8021Q). rewrite Hst.
  cbn [mbind option_bind]. eauto.
Qed.

Lemma pop_frame m ctx macs tpid tci rest m1 ctx1 :
  frame m ctx = Some (macs ++ be16 tpid ++ be16 tci ++ rest) -> length macs = 12%nat ->
  2 <= zlen rest -> host_is_vlan tpid -> 0 <= tci < 2 ^ 16 ->
  adj m ctx 4 = (0, m1, ctx1) ->
  exists m', vlan_tag_pop m ctx (data ctx) = Some (tci, m', ctx1) /\
    frame m' ctx1 = Some (macs ++ rest).
Proof.
  intros HF Hmacs Hrest Htp Htci Hadj.
  assert (0 <= tpid < 2 ^ 16) as Htpr by (destruct Htp as [-> | ->]; done).
  destruct (frame_split _ _ _ HF) as (_ & _ & _ & _ & HFl). rewrite !zlen_app, !zlen_be16 in HFl.
  destruct (split_at rest 2) as (p & rest' & -> & Hp); [unfold zlen in *; lia |].
  destruct (adjust_ok _ _ _ _ _ Hadj) as (Hdata & Hend & _).
  assert (length (be16 tpid) = 2%nat) as Hb1 by done.
  assert (length (be16 tci) = 2%nat) as Hb2 by done.
  destruct (split_at macs 4) as (c4 & macs' & Hc & Hc4); [lia |].
  pose proof (f_equal length Hc) as Hlc. rewrite length_app in Hlc.
  unfold vlan_tag_pop, eth_h_proto, h_vlan_TCI, h_vlan_encapsulated_proto,
    sizeof_ethhdr, sizeof_vlan_hdr, bpf_xdp_adjust_head.
  rewrite (frame_load _ _ _ macs (be16 tpid) (be16 tci ++ p ++ rest') (data ctx + 12) 2%nat HF) by (done || zlen_lia).
  cbn [mbind option_bind]. change (le_combine (be16 tpid)) with (le_combine (le_split 2 (bswap16 tpid))).
  pose proof (bswap16_range _ Htpr). pose proof (bswap16_range _ Htci).
  rewrite le_combine_split, Z.mod_small by lia.
  rewrite (proj2 (proto_is_vlan_host tpid Htpr) Htp). cbn [negb].
  rewrite (proj2 (Z.ltb_ge _ _)) by zlen_lia.
  rewrite (frame_load _ _ _ (macs ++ be16 tpid) (be16 tci) (p ++ rest') (data ctx + 14) 2%nat HF) by
    (rewrite <- ?app_assoc; done || (rewrite zlen_app, zlen_be16; zlen_lia)).
  cbn [mbind option_bind].
  rewrite (frame_load _ _ _ (macs ++ be16 tpid ++ be16 tci) p rest' (data ctx + 14 + 2) 2%nat HF) by
    (rewrite <- ?app_assoc; done || (rewrite !zlen_app, !zlen_be16; zlen_lia)).
  cbn [mbind option_bind].
  rewrite (frame_bytes _ _ _ [] (macs ++ be16 tpid) (be16 tci ++ p ++ rest') _ 14%nat HF) by
    (rewrite <- ?app_assoc, ?length_app; done || zlen_lia). cbn [mbind option_bind].
  rewrite Hadj. change (c_true 0) with false. cbn iota.
  rewrite (proj2 (Z.ltb_ge _ _)) by zlen_lia.
  pose proof (adjust_cut _ _ _ _ _ c4 (macs' ++ be16 tpid ++ be16 tci ++ p ++ rest') Hadj HF) as HF1.
  rewrite Hc, <- app_assoc in HF1. specialize (HF1 eq_refl Hc4).
  destruct (frame_store _ _ _ [] (macs' ++ be16 tpid ++ be16 tci ++ p) rest' (data ctx1)
    (macs ++ be16 tpid) HF1) as (m2 & -> & HF2);
    [by rewrite <- !app_assoc | zlen_lia | rewrite !length_app; lia |].
  cbn [mbind option_bind]. simpl in HF2. rewrite split_le_combine' by done.
  destruct (frame_store _ _ _ macs (be16 tpid) rest' (data ctx1 + 12) p HF2)
    as (m3 & -> & HF3); [by rewrite <- !app_assoc | zlen_lia | lia |].
  cbn [mbind option_bind]. change (be16 tci) with (le_split 2 (bswap16 tci)).
  rewrite le_combine_split, Z.mod_small, bswap16_involutive by lia. eauto.
Qed.

(** A push that reports success has moved the head by four bytes. *)
Lemma push_success_adjust m ctx eth vlid m1 ctx1 :
  vlan_tag_push m ctx eth vlid = Some (0, m1, ctx1) ->
  exists m0, adj m ctx (- 4) = (0, m0, ctx1).
Proof.
  unfold vlan_tag_push, bpf_xdp_adjust_head. change (0 - sizeof_vlan_hdr) with (-4).
  destruct (bytes_at m eth 14); simpl; [| done].
  destruct (adj m ctx (-4)) as [[r m0] ctx0] eqn:E.
  destruct (Z.eqb_spec r 0) as [-> | Hr].
  - change (c_true 0) with false. cbn iota. intros H.
    repeat (case_match || apply bind_Some in H as (? & ? & H)); simplify_eq; eauto.
  - replace (c_true r) with true by (unfold c_true; lia). intros; simplify_eq.
Qed.

(** C36: [vlan_tag_push] puts one 802.1Q tag with the given id on top of the
    frame's tag stack and changes nothing else: whatever the frame (its
    addresses, the tags it already has, its EtherType and payload), after a
    successful head adjustment the packet in the buffer is the encoding of the
    same frame with the new tag outermost. *)
Theorem vlan_tag_push_refines m ctx macs tags proto payload vlid m1 ctx1 :
  frame m ctx = Some (eth_frame macs tags proto payload) -> length macs = 12%nat ->
  0 <= vlid < 2 ^ 16 -> adj m ctx (- 4) = (0, m1, ctx1) ->
  exists m', vlan_tag_push m ctx (data ctx) vlid = Some (0, m', ctx1) /\
    frame m' ctx1 = Some (eth_frame macs ((ETH_P_8021Q, vlid) :: tags) proto payload).
Proof.
  intros HF Hmacs Hvlid Hadj.
  destruct (vlan_stack_first tags proto payload) as (rest & Hr & Hlen).
  apply (push_frame m ctx macs _ vlid m1 ctx1 HF Hmacs); [| done..].
  rewrite Hr, zlen_app, zlen_be16. pose proof (zlen_nonneg rest). lia.
Qed.

(** [vlan_tag_pop] removes the outermost tag of a tagged frame and
    returns its whole 16-bit tag control information: priority and drop
    eligibility bits included, not only the 12-bit VLAN id. *)
Theorem vlan_tag_pop_refines m ctx macs tpid tci tags proto payload m1 ctx1 :
  frame m ctx = Some (eth_frame macs ((tpid, tci) :: tags) proto payload) ->
  length macs = 12%nat -> tag_ok (tpid, tci) -> adj m ctx 4 = (0, m1, ctx1) ->
  exists m', vlan_tag_pop m ctx (data ctx) = Some (tci, m', ctx1) /\
    frame m' ctx1 = Some (eth_frame macs tags proto payload).
Proof.
  intros HF Hmacs [Htp Htci] Hadj.
  destruct (vlan_stack_first tags proto payload) as (rest & Hr & Hlen).
  apply (pop_frame m ctx macs tpid tci (vlan_stack tags proto payload) m1 ctx1 HF Hmacs); [| done..].
  rewrite Hr, zlen_app, zlen_be16. pose proof (zlen_nonneg rest). lia.
Qed.

(** Popping undoes pushing.  When [vlan_tag_push] reported success on a
    packet that holds an Ethernet header and the head can be moved back,
    [vlan_tag_pop] returns the pushed id and the packet, with its offsets, is
    what it was before. *)
Theorem vlan_tag_push_pop m ctx F vlid m1 ctx1 m2 ctx2 :
  frame m ctx = Some F -> sizeof_ethhdr <= zlen F -> 0 <= vlid < 2 ^ 16 ->
  vlan_tag_push m ctx (data ctx) vlid = Some (0, m1, ctx1) ->
  adj m1 ctx1 4 = (0, m2, ctx2) ->
  exists m3, vlan_tag_pop m1 ctx1 (data ctx1) = Some (vlid, m3, ctx2) /\
    frame m3 ctx2 = Some F /\ data ctx2 = data ctx /\ data_end ctx2 = data_end ctx.
Proof.
  intros HF Hlen Hvlid Hpush Hadj2. unfold sizeof_ethhdr in Hlen.
  destruct (split_at F 12) as (macs & rest & -> & Hmacs); [unfold zlen in *; lia |].
  assert (2 <= zlen rest) as Hrest by (rewrite zlen_app in Hlen; unfold zlen in *; lia).
  destruct (push_success_adjust _ _ _ _ _ _ Hpush) as (m0 & Hadj1).
  destruct (push_frame m ctx macs rest vlid m0 ctx1 HF Hmacs Hrest Hvlid Hadj1) as (m' & Hp & HF1).
  rewrite Hpush in Hp. simplify_eq.
  destruct (pop_frame m' ctx1 macs ETH_P_8021Q vlid rest m2 ctx2 HF1) as (m3 & Hpop & HF3);
    [done.. | by left | done | done |].
  destruct (adjust_ok _ _ _ _ _ Hadj1) as (? & ? & _).
  destruct (adjust_ok _ _ _ _ _ Hadj2) as (? & ? & _).
  exists m3. split_and!; [done | done | lia | congruence].
Qed.

End VlanSpec.

(** An implementation of the head adjustment with the documented behaviour:
    it refuses to leave the buffer or to cut into the Ethernet header. *)
Definition adjust_in_buffer : XdpAdjust := fun m ctx delta =>
  if (0 <=? data ctx + delta) && (data ctx + delta + 14 <=? data_end ctx)
  then (0, m, {| data := data ctx + delta; data_end := data_end ctx |}) else (-22, m, ctx).

#[export] Instance adjust_in_buffer_ok : XdpAdjustOk adjust_in_buffer.
Proof.
  split; unfold adjust_in_buffer.
  - intros m ctx delta m' ctx' H. case_match eqn:E; simplify_eq. simpl. split_and!; lia || done.
  - intros m ctx delta r m' ctx' H Hr. case_match; simplify_eq. done.
Qed.

(** A buffer with 8 bytes of head room and a tagged frame behind it. *)
Definition sample_ctx : xdp_md := {| data := 8; data_end := 70 |}.
Definition sample_buffer : list byte := replicate 8 x00 ++ sample_frame.

Lemma vlan_tag_push_refines_witness :
  exists m', vlan_tag_push (adj := adjust_in_buffer) sample_buffer sample_ctx 8 42
      = Some (0, m', {| data := 4; data_end := 70 |}) /\
    frame m' {| data := 4; data_end := 70 |} =
      Some (eth_frame (replicate 12 x00) [(ETH_P_8021Q, 42); (ETH_P_8021AD, 0xA064); (ETH_P_8021Q, 7)]
              ETH_P_IP (replicate 40 x45)).
Proof.
  apply (vlan_tag_push_refines (adj := adjust_in_buffer) sample_buffer sample_ctx
    (replicate 12 x00) [(ETH_P_8021AD, 0xA064); (ETH_P_8021Q, 7)] ETH_P_IP (replicate 40 x45)
    42 sample_buffer); [vm_compute; reflexivity | reflexivity | lia | vm_compute; reflexivity].
Defined.

Lemma vlan_tag_pop_refines_witness :
  exists m', vlan_tag_pop (adj := adjust_in_buffer) sample_buffer sample_ctx 8
      = Some (0xA064, m', {| data := 12; data_end := 70 |}) /\
    frame m' {| data := 12; data_end := 70 |} =
      Some (eth_frame (replicate 12 x00) [(ETH_P_8021Q, 7)] ETH_P_IP (replicate 40 x45)).
Proof.
  apply (vlan_tag_pop_refines (adj := adjust_in_buffer) sample_buffer sample_ctx
    (replicate 12 x00) ETH_P_8021AD 0xA064 [(ETH_P_8021Q, 7)] ETH_P_IP (replicate 40 x45)
    sample_buffer); [vm_compute; reflexivity | reflexivity | | vm_compute; reflexivity].
  split; [by right | simpl; lia].
Defined.

Lemma vlan_tag_push_pop_witness :
  exists m1 m3, vlan_tag_push (adj := adjust_in_buffer) sample_buffer sample_ctx 8 42
      = Some (0, m1, {| data := 4; data_end := 70 |}) /\
    vlan_tag_pop (adj := adjust_in_buffer) m1 {| data := 4; data_end := 70 |} 4
      = Some (42, m3, sample_ctx) /\
    frame m3 sample_ctx = Some sample_frame /\ data sample_ctx = 8 /\ data_end sample_ctx = 70.
Proof.
  eexists.
  epose proof (vlan_tag_push_pop (adj := adjust_in_buffer) sample_buffer sample_ctx sample_frame 42
    _ {| data := 4; data_end := 70 |} _ sample_ctx) as H.
  destruct H as (m3 & H); [vm_compute; reflexivity | by vm_compute | lia
    | vm_compute; reflexivity | vm_compute; reflexivity |].
  exists m3. split; [vm_compute; reflexivity | exact H].
Defined.

(** ** Swapping addresses *)

Definition exchanged (m m' : list byte) (a b : Z) (n : nat) : Prop :=
  zlen m' = zlen m /\
  bytes_at m' a n = bytes_at m b n /\ bytes_at m' b n = bytes_at m a n /\
  forall i, (i < Z.to_nat a \/ Z.to_nat a + n <= i)%nat ->
            (i < Z.to_nat b \/ Z.to_nat b + n <= i)%nat -> m' !! i = m !! i.

Lemma swap_fields_exchanged m a b n :
  0 <= a -> 0 <= b -> a + Z.of_nat n <= zlen m -> b + Z.of_nat n <= zlen m ->
  a + Z.of_nat n <= b \/ b + Z.of_nat n <= a ->
  exists m', swap_fields m a b n = Some m' /\ exchanged m m' a b n.
Proof.
  intros Ha Hb Hla Hlb Hd. unfold swap_fields, exchanged.
  destruct (bytes_at m a n) as [fa |] eqn:Ea; [| apply bytes_at_None in Ea; lia].
  destruct (bytes_at m b n) as [fb |] eqn:Eb; [| apply bytes_at_None in Eb; lia].
  pose proof (bytes_at_length _ _ _ _ Ea) as La. pose proof (bytes_at_length _ _ _ _ Eb) as Lb.
  cbn [mbind option_bind].
  destruct (store_Some m a fb) as [m1 E1]; [done | unfold zlen in *; lia |]. rewrite E1.
  pose proof (zlen_store _ _ _ _ E1) as L1. cbn [mbind option_bind].
  destruct (store_Some m1 b fa) as [m2 E2]; [done | unfold zlen in *; lia |]. rewrite E2.
  pose proof (zlen_store _ _ _ _ E2) as L2.
  exists m2. split_and!; [done | congruence | | | ].
  - rewrite (bytes_at_store_other _ _ _ _ a n E2) by (unfold zlen in *; lia).
    rewrite <- Lb. exact (bytes_at_store_same _ _ _ _ E1).
  - rewrite <- La. exact (bytes_at_store_same _ _ _ _ E2).
  - intros i Hia Hib. rewrite (lookup_store _ _ _ _ _ E2), (lookup_store _ _ _ _ _ E1).
    rewrite !decide_False by lia. done.
Qed.

Lemma bytes_at_lookup m off n bs (i : nat) :
  bytes_at m off n = Some bs -> (Z.to_nat off <= i < Z.to_nat off + n)%nat ->
  m !! i = bs !! (i - Z.to_nat off)%nat.
Proof.
  intros (_ & _ & ->)%bytes_at_inv Hi. rewrite lookup_take_lt, lookup_drop by lia. f_equal. lia.
Qed.

Lemma exchanged_twice m m' m'' a b n :
  0 <= a -> 0 <= b -> a + Z.of_nat n <= zlen m -> b + Z.of_nat n <= zlen m ->
  exchanged m m' a b n -> exchanged m' m'' a b n -> m'' = m.
Proof.
  intros Ha Hb Hla Hlb (L1 & A1 & B1 & O1) (L2 & A2 & B2 & O2).
  rewrite B1 in A2. rewrite A1 in B2. apply list_eq. intros i.
  assert (forall off, bytes_at m'' off n = bytes_at m off n -> 0 <= off ->
    off + Z.of_nat n <= zlen m -> (Z.to_nat off <= i < Z.to_nat off + n)%nat ->
    m'' !! i = m !! i) as Hin.
  { intros off E H0 Hl Hi. destruct (bytes_at m off n) as [bs |] eqn:Eb;
      [| apply bytes_at_None in Eb; lia].
    by rewrite (bytes_at_lookup _ _ _ _ _ E Hi), (bytes_at_lookup _ _ _ _ _ Eb Hi). }
  destruct (decide (Z.to_nat a <= i < Z.to_nat a + n)%nat); [by apply (Hin a) |].
  destruct (decide (Z.to_nat b <= i < Z.to_nat b + n)%nat); [by apply (Hin b) |].
  rewrite O2, O1 by lia. done.
Qed.

Lemma swap_fields_involutive m a b n :
  0 <= a -> 0 <= b -> a + Z.of_nat n <= zlen m -> b + Z.of_nat n <= zlen m ->
  a + Z.of_nat n <= b \/ b + Z.of_nat n <= a ->
  exists m', swap_fields m a b n = Some m' /\ exchanged m m' a b n /\
    swap_fields m' a b n = Some m.
Proof.
  intros Ha Hb Hla Hlb Hd.
  destruct (swap_fields_exchanged m a b n) as (m' & E & X); [done.. |].
  destruct X as (L & X). destruct (swap_fields_exchanged m' a b n) as (m'' & E' & X'); [lia.. |].
  exists m'. split_and!; [done | by split |]. rewrite E'. f_equal.
  eapply exchanged_twice; [exact Ha | exact Hb | exact Hla | exact Hlb | by split | exact X'].
Qed.

(** The address swaps.  On a header inside the buffer each of
    [swap_src_dst_mac], [swap_src_dst_ipv6] and [swap_src_dst_ipv4] exchanges
    exactly the source and the destination field, touches no other byte, and
    is undone by a second call. *)
Theorem swap_src_dst_exchange m h :
  0 <= h ->
  (h + sizeof_ethhdr <= zlen m -> exists m', swap_src_dst_mac m h = Some m' /\
     exchanged m m' (h + 6) h 6 /\ swap_src_dst_mac m' h = Some m) /\
  (h + sizeof_ipv6hdr <= zlen m -> exists m', swap_src_dst_ipv6 m h = Some m' /\
     exchanged m m' (h + 8) (h + 24) 16 /\ swap_src_dst_ipv6 m' h = Some m) /\
  (h + sizeof_iphdr <= zlen m -> exists m', swap_src_dst_ipv4 m h = Some m' /\
     exchanged m m' (h + 12) (h + 16) 4 /\ swap_src_dst_ipv4 m' h = Some m).
Proof.
  intros Hh. unfold sizeof_ethhdr, sizeof_ipv6hdr, sizeof_iphdr.
  split_and!; intros; apply swap_fields_involutive; lia.
Qed.

Lemma swap_src_dst_exchange_witness :
  exists m', swap_src_dst_mac (str "dddddssssssdpp....") 0 = Some m' /\
    exchanged (str "dddddssssssdpp....") m' 6 0 6 /\
    swap_src_dst_mac m' 0 = Some (str "dddddssssssdpp....").
Proof.
  apply (swap_src_dst_exchange (str "dddddssssssdpp....") 0); [lia | by vm_compute].
Defined.
