(* ===== verification/BpfMaps.v ===== *)
(** Interfaces of the kernel objects the BPF programs use.

    The kernel is not part of the repository.  Its maps and ring buffer are
    operations of type classes; the laws are what the documentation of the
    helpers promises.  The programs are proved against the classes, and each
    class has an instance that shows that the laws can hold together. *)
From S2P Require Import Prelude.
From S2P Require Import CLib.

(** ** BPF_MAP_TYPE_PERCPU_ARRAY, the slots of one CPU

    [arr_lookup] is [bpf_map_lookup_elem], which returns a pointer to the slot
    or NULL; [arr_write] is a store through that pointer. *)

Class BpfArray (M V : Type) := {
  arr_lookup : M -> Z -> option V;
  arr_write : M -> Z -> V -> M
}.

Class BpfArrayOk (M V : Type) {A : BpfArray M V} : Prop := {
  arr_write_same m k v :
    is_Some (arr_lookup m k) -> arr_lookup (arr_write m k v) k = Some v;
  arr_write_other m k k' v :
    is_Some (arr_lookup m k) -> k <> k' -> arr_lookup (arr_write m k v) k' = arr_lookup m k'
}.

#[export] Instance list_array V : BpfArray (list V) V := {
  arr_lookup m k := if 0 <=? k then m !! Z.to_nat k else None;
  arr_write m k v := <[Z.to_nat k := v]> m
}.

#[export] Instance list_array_ok V : BpfArrayOk (list V) V.
Proof.
  split; simpl.
  - intros m k v [x Hx]. case_match; [| done]. apply list_lookup_insert_eq.
    by eapply lookup_lt_Some.
  - intros m k k' v [x Hx] Hne. repeat case_match; [| done..].
    apply list_lookup_insert_ne. lia.
Qed.

(** ** BPF_MAP_TYPE_HASH

    Updates and deletions return an error code; a failed update leaves the
    map alone. *)

Class BpfHash (M K V : Type) := {
  hash_lookup : M -> K -> option V;
  hash_update : M -> K -> V -> Z -> Z * M;
  hash_delete : M -> K -> Z * M
}.

Class BpfHashOk (M K V : Type) {H : BpfHash M K V} : Prop := {
  hash_update_same m k v f m' :
    hash_update m k v f = (0, m') -> hash_lookup m' k = Some v;
  hash_update_other m k k' v f r m' :
    hash_update m k v f = (r, m') -> k <> k' -> hash_lookup m' k' = hash_lookup m k';
  hash_update_fail m k v f r m' :
    hash_update m k v f = (r, m') -> r <> 0 -> hash_lookup m' k = hash_lookup m k;
  hash_delete_same m k r m' :
    hash_delete m k = (r, m') -> hash_lookup m' k = None;
  hash_delete_other m k k' r m' :
    hash_delete m k = (r, m') -> k <> k' -> hash_lookup m' k' = hash_lookup m k'
}.

(** A bounded finite map: a new key is refused ([-E2BIG]) when it is full. *)

Section GmapHash.
Context (max_entries : nat) (K V : Type) `{Countable K}.

Definition gmap_hash : BpfHash (gmap K V) K V := {|
  hash_lookup m k := m !! k;
  hash_update m k v _ :=
    match m !! k with
    | Some _ => (0, <[k := v]> m)
    | None => if (size m <? max_entries)%nat then (0, <[k := v]> m) else (- E2BIG, m)
    end;
  hash_delete m k := (match m !! k with Some _ => 0 | None => - ENOENT end, delete k m)
|}.

Lemma gmap_hash_ok : BpfHashOk (gmap K V) K V (H := gmap_hash).
Proof.
  split; simpl.
  - intros m k v _ m' E. repeat case_match; simplify_eq; apply lookup_insert_eq.
  - intros m k k' v _ r m' E Hne. repeat case_match; simplify_eq; [| |done];
      by apply lookup_insert_ne.
  - intros m k v _ r m' E Hr. repeat case_match; simplify_eq; done.
  - intros m k r m' E. simplify_eq. apply lookup_delete_eq.
  - intros m k k' r m' E Hne. simplify_eq. by apply lookup_delete_ne.
Qed.
End GmapHash.

(** ** BPF_MAP_TYPE_RINGBUF, producer side

    [rb_reserve] is [bpf_ringbuf_reserve]: NULL when there is no room, else
    the reserved record with whatever bytes it holds; [rb_submit] is
    [bpf_ringbuf_submit] of the record as the program left it.  [rb_records]
    are the submitted records, oldest first. *)

Class KRingbuf (R : Type) := {
  rb_reserve : R -> Z -> Z -> option (list byte * R);
  rb_submit : R -> list byte -> Z -> R;
  rb_records : R -> list (list byte)
}.

Class KRingbufOk (R : Type) {K : KRingbuf R} : Prop := {
  rb_reserve_spec r n f e r' :
    rb_reserve r n f = Some (e, r') -> zlen e = n /\ rb_records r' = rb_records r;
  rb_submit_spec r e f : rb_records (rb_submit r e f) = rb_records r ++ [e]
}.

(** A queue of at most [cap] records whose reserved bytes are all [fill]. *)
Definition queue_ringbuf (cap : nat) (fill : byte) : KRingbuf (list (list byte)) := {|
  rb_reserve r n _ := if (length r <? cap)%nat && (0 <=? n)
                      then Some (replicate (Z.to_nat n) fill, r) else None;
  rb_submit r e _ := r ++ [e];
  rb_records r := r
|}.

Lemma queue_ringbuf_ok cap fill : KRingbufOk (list (list byte)) (K := queue_ringbuf cap fill).
Proof.
  split; simpl; [| done].
  intros r n _ e r' E. case_match eqn:C; simplify_eq. rewrite zlen_replicate. split; [lia | done].
Qed.
