(* ===== verification/XdpStats.v ===== *)
(** XDP action statistics: src/common/xdp_stats_kern.h and
    src/common/xdp_stats_kern_user.h.

    One counter record per action in a per-CPU array map.  [data] and
    [data_end] of the context are 32-bit, the counters 64-bit. *)
From S2P Require Import Prelude.
From S2P Require Import RewriteHelpers.
From S2P Require Import BpfMaps.

(** enum xdp_action *)
Definition XDP_ABORTED : Z := 0.
Definition XDP_DROP : Z := 1.
Definition XDP_PASS : Z := 2.
Definition XDP_TX : Z := 3.
Definition XDP_REDIRECT : Z := 4.

(** The bound the kernel-side statistics use. *)
Definition XDP_ACTION_MAX : Z := XDP_REDIRECT + 1.

Record datarec := { rx_packets : Z; rx_bytes : Z }.

Section Stats.
Context {M : Type} {A : BpfArray M datarec}.

Definition xdp_stats_record_action (xdp_stats_map : M) (ctx : xdp_md) (action : Z) : Z * M :=
  if XDP_ACTION_MAX <=? action then (XDP_ABORTED, xdp_stats_map)
  else
    match arr_lookup xdp_stats_map action with
    | None => (XDP_ABORTED, xdp_stats_map)
    | Some rec =>
        let rec' := {| rx_packets := u64 (rx_packets rec + 1);
                       rx_bytes := u64 (rx_bytes rec + u32 (data_end ctx - data ctx)) |} in
        (action, arr_write xdp_stats_map action rec')
    end.

(** The program run on a sequence of packets. *)
Fixpoint record_all (m : M) (ps : list (xdp_md * Z)) : M :=
  match ps with
  | [] => m
  | (ctx, action) :: ps' => record_all (snd (xdp_stats_record_action m ctx action)) ps'
  end.

Definition count_action (a : Z) (ps : list (xdp_md * Z)) : Z :=
  zlen (filter (fun p => snd p = a) ps).

Definition bytes_action (a : Z) (ps : list (xdp_md * Z)) : Z :=
  foldr (fun p s => u32 (data_end (fst p) - data (fst p)) + s) 0 (filter (fun p => snd p = a) ps).

Context {A_ok : BpfArrayOk M datarec}.

Lemma record_lookup m ctx action k r :
  arr_lookup m k = Some r -> k < XDP_ACTION_MAX ->
  arr_lookup (snd (xdp_stats_record_action m ctx action)) k =
  Some (if decide (action = k)
        then {| rx_packets := u64 (rx_packets r + 1);
                rx_bytes := u64 (rx_bytes r + u32 (data_end ctx - data ctx)) |}
        else r).
Proof.
  intros Hk Hmax. unfold xdp_stats_record_action.
  destruct (Z.leb_spec XDP_ACTION_MAX action); simpl.
  { rewrite decide_False by lia. done. }
  destruct (arr_lookup m action) as [ra |] eqn:Ea; simpl.
  - case_decide; subst.
    + simplify_eq. apply arr_write_same. eauto.
    + rewrite arr_write_other by (eauto || lia). done.
  - case_decide; subst; [simplify_eq | done].
Qed.

(** The statistics count.  After any sequence of packets the record of
    every action that has a slot holds the number of packets that got this
    action and the sum of their lengths, each modulo 2^64; packets with other
    actions, unknown action codes included, do not change it. *)
Theorem record_all_counts m ps a r :
  arr_lookup m a = Some r -> a < XDP_ACTION_MAX ->
  0 <= rx_packets r < 2 ^ 64 -> 0 <= rx_bytes r < 2 ^ 64 ->
  arr_lookup (record_all m ps) a =
  Some {| rx_packets := u64 (rx_packets r + count_action a ps);
          rx_bytes := u64 (rx_bytes r + bytes_action a ps) |}.
Proof.
  intros Ha Hmax. revert m r Ha. induction ps as [| [ctx action] ps IH]; intros m r Ha Hp Hb; simpl.
  { unfold count_action, bytes_action. simpl. rewrite !Z.add_0_r, !u64_id by done.
    rewrite Ha. by destruct r. }
  pose proof (record_lookup m ctx action a r Ha Hmax) as Hl.
  unfold count_action, bytes_action in *. rewrite filter_cons. simpl.
  case_decide as Hd.
  - rewrite (IH _ _ Hl) by apply u64_range. simpl. do 2 f_equal.
    + rewrite zlen_cons. unfold u64. rewrite Zplus_mod_idemp_l. f_equal. lia.
    + unfold u64. rewrite Zplus_mod_idemp_l. f_equal. lia.
  - rewrite (IH _ _ Hl) by done. done.
Qed.

(** The return value.  [xdp_stats_record_action] hands the action back
    exactly when it was counted; an action code outside the table (or one
    without a slot) becomes [XDP_ABORTED] and leaves every counter alone. *)
Theorem record_action_verdict m ctx action :
  (action < XDP_ACTION_MAX -> is_Some (arr_lookup m action) ->
     fst (xdp_stats_record_action m ctx action) = action) /\
  (XDP_ACTION_MAX <= action \/ arr_lookup m action = None ->
     xdp_stats_record_action m ctx action = (XDP_ABORTED, m)).
Proof.
  unfold xdp_stats_record_action. split.
  - intros Hlt [r Hr]. rewrite (proj2 (Z.leb_gt _ _)) by lia. by rewrite Hr.
  - intros H. case_match eqn:E; [done |]. destruct H as [| ->]; [lia | done].
Qed.

End Stats.

Definition zero_stats : list datarec := replicate 5 {| rx_packets := 0; rx_bytes := 0 |}.

Definition sample_packets : list (xdp_md * Z) :=
  [ ({| data := 0; data_end := 60 |}, XDP_PASS); ({| data := 0; data_end := 40 |}, XDP_DROP);
    ({| data := 0; data_end := 90 |}, 77); ({| data := 0; data_end := 70 |}, XDP_PASS) ].

Lemma record_all_counts_witness :
  arr_lookup (record_all zero_stats sample_packets) XDP_PASS
  = Some {| rx_packets := 2; rx_bytes := 130 |}.
Proof.
  rewrite (record_all_counts zero_stats sample_packets XDP_PASS {| rx_packets := 0; rx_bytes := 0 |});
    [vm_compute; reflexivity | reflexivity
    | unfold XDP_ACTION_MAX, XDP_REDIRECT, XDP_PASS; lia | simpl; lia | simpl; lia].
Defined.
