(* ===== verification/XdpProgram.v ===== *)
(** libxdp's program objects: src/lib/xdp-tools/lib/libxdp/libxdp.c, the
    library behind [load_bpf_and_xdp_attach] and [do_unload].

    [struct xdp_program] with the functions that change it (chain call actions,
    priority, fragments), the text form of the actions, the run configuration
    read from a program's type information (BTF), and the order in which programs
    run behind one dispatcher.

    A pointer to a program is an option; [None] is NULL or an error pointer.
    BTF is the list of its types, the identifier of the first being 1; libbpf's
    accessors are lookups in that list. *)
From S2P Require Import Prelude.
From S2P Require Import CLib.
From S2P Require Import XdpStats.
From coqutil Require Export Datatypes.RecordSetters.
Export DoubleBraceUpdate.


Definition XDP_DISPATCHER_RETVAL : Z := 31.
Definition XDP_DEFAULT_RUN_PRIO : Z := 50.
Definition XDP_DEFAULT_CHAIN_CALL_ACTIONS : Z := Z.shiftl 1 XDP_PASS.
Definition BPF_F_XDP_HAS_FRAGS : Z := 32.
Definition BPF_OBJ_NAME_LEN : nat := 16.

(** ** Type information *)

Definition BTF_KIND_PTR : Z := 2.
Definition BTF_KIND_STRUCT : Z := 4.
Definition BTF_KIND_VAR : Z := 14.
Definition BTF_VAR_STATIC : Z := 0.
Definition BTF_VAR_GLOBAL_ALLOCATED : Z := 1.

(** The kinds the code tells apart; members are a name, which may be
    missing, and a type. *)
Inductive btf_type :=
| BtfPtr (type : Z)
| BtfArray (nelems : Z)
| BtfStruct (name : list byte) (members : list (option (list byte) * Z))
| BtfMod (name : list byte) (type : Z)       (** a typedef or a qualifier *)
| BtfFunc (name : list byte)
| BtfVar (name : list byte) (type linkage : Z)
| BtfDatasec (name : list byte) (vars : list Z)
| BtfOther (kind : Z) (name : list byte).

Definition btf := list btf_type.

Definition btf_kind (t : btf_type) : Z :=
  match t with
  | BtfPtr _ => BTF_KIND_PTR | BtfArray _ => 3 | BtfStruct _ _ => BTF_KIND_STRUCT
  | BtfMod _ _ => 8 | BtfFunc _ => 12 | BtfVar _ _ _ => BTF_KIND_VAR | BtfDatasec _ _ => 15
  | BtfOther k _ => k
  end.

Definition btf_name (t : btf_type) : list byte :=
  match t with
  | BtfStruct n _ | BtfMod n _ | BtfFunc n | BtfVar n _ _ | BtfDatasec n _ | BtfOther _ n => n
  | BtfPtr _ | BtfArray _ => []
  end.

Definition btf__type_by_id (b : btf) (id : Z) : option btf_type :=
  if 0 <? id then b !! Z.to_nat (id - 1) else None.

(** [None]: a type that is not there is dereferenced, or the chain of
    typedefs does not end. *)
Fixpoint skip_mods_and_typedefs (fuel : nat) (b : btf) (id : Z) : option btf_type :=
  match fuel with
  | O => None
  | S fuel' =>
    t ← btf__type_by_id b id;
    match t with BtfMod _ type => skip_mods_and_typedefs fuel' b type | _ => Some t end
  end.

(** The value written into a field, when the function returns true. *)
Definition get_field_int (b : btf) (t : btf_type) : option Z :=
  match t with
  | BtfPtr type =>
    match btf__type_by_id b type with
    | Some (BtfArray nelems) => Some nelems
    | _ => None
    end
  | _ => None
  end.

(** The loop of [btf_get_function]: the number of prefix matches so far and
    the last of them. *)
Fixpoint get_function_loop (b : btf) (func_name : list byte) (matches : nat) (found : option btf_type) :
    option btf_type :=
  match b with
  | [] => if (matches =? 1)%nat then found else None
  | BtfFunc name as t :: b' =>
    if decide (take (length func_name) name = func_name) then
      if (length name =? length func_name)%nat then Some t
      else get_function_loop b' func_name (S matches) (Some t)
    else get_function_loop b' func_name matches found
  | _ :: b' => get_function_loop b' func_name matches found
  end.

Definition btf_get_function (b : option btf) (func_name : list byte) : option btf_type :=
  b ← b; get_function_loop b func_name 0 None.

Fixpoint get_datasec_loop (b : btf) (sec_name : list byte) : option (list Z) :=
  match b with
  | [] => None
  | BtfDatasec name vars :: b' => if decide (name = sec_name) then Some vars else get_datasec_loop b' sec_name
  | _ :: b' => get_datasec_loop b' sec_name
  end.

Definition btf_get_datasec (b : option btf) (sec_name : list byte) : option (list Z) :=
  b ← b; get_datasec_loop b sec_name.

(** [inl] is an error pointer. *)
Fixpoint btf_get_section_var (b : btf) (vars : list Z) (var_name : list byte) (kind : Z) :
    option (Z + btf_type) :=
  match vars with
  | [] => Some (inl (- ENOENT))
  | id :: vars' =>
    var ← btf__type_by_id b id;
    if negb (bool_decide (btf_name var = var_name)) then btf_get_section_var b vars' var_name kind else
    match var with
    | BtfVar _ type linkage =>
      if negb (linkage =? BTF_VAR_GLOBAL_ALLOCATED) && negb (linkage =? BTF_VAR_STATIC)
      then Some (inl (- ENOTSUP)) else
      def ← skip_mods_and_typedefs (S (length b)) b type;
      if negb (btf_kind def =? kind) then Some (inl (- EINVAL)) else Some (inr def)
    | _ => Some (inl (- EINVAL))
    end
  end.

(** ** Programs *)

(** What is used of a [struct bpf_program]. *)
Record bpf_program := { bp_insn_cnt : Z; bp_flags : Z }.

Record xdp_program := {
  bpf_prog : option bpf_program;
  prog_btf : option btf;
  prog_fd : Z;
  link_fd : Z;
  prog_name : list byte;
  attach_name : option (list byte);
  prog_tag : list byte;
  prog_id : Z;
  load_time : Z;
  is_frags : bool;
  run_prio : Z;
  chain_call_actions : Z
}.

Definition xdp_program__new : xdp_program :=
  {| bpf_prog := None; prog_btf := None; prog_fd := -1; link_fd := -1; prog_name := []; attach_name := None;
     prog_tag := replicate 8 x00; prog_id := 0; load_time := 0; is_frags := false;
     run_prio := XDP_DEFAULT_RUN_PRIO; chain_call_actions := XDP_DEFAULT_CHAIN_CALL_ACTIONS |}.

Definition xdp_program__set_chain_call_enabled (prog : option xdp_program) (action : Z) (enabled : bool) :
    Z * option xdp_program :=
  match prog with
  | None => (- EINVAL, None)
  | Some p =>
    if (0 <=? prog_fd p) || (XDP_DISPATCHER_RETVAL <=? action) then (- EINVAL, Some p) else
    (0, Some (p {{ chain_call_actions :=
      if enabled then Z.lor (chain_call_actions p) (Z.shiftl 1 action)
      else Z.land (chain_call_actions p) (u32 (Z.lnot (Z.shiftl 1 action))) }}))
  end.

Definition xdp_program__chain_call_enabled (prog : option xdp_program) (action : Z) : bool :=
  match prog with
  | None => false
  | Some p =>
    if XDP_DISPATCHER_RETVAL <=? action then false
    else c_true (Z.land (chain_call_actions p) (Z.shiftl 1 action))
  end.

Definition xdp_program__run_prio (prog : option xdp_program) : Z :=
  match prog with None => XDP_DEFAULT_RUN_PRIO | Some p => run_prio p end.

Definition xdp_program__set_run_prio (prog : option xdp_program) (prio : Z) : Z * option xdp_program :=
  match prog with
  | None => (- EINVAL, None)
  | Some p => if 0 <=? prog_fd p then (- EINVAL, Some p) else (0, Some (p {{ run_prio := prio }}))
  end.

Definition xdp_program__xdp_frags_support (prog : option xdp_program) : bool :=
  match prog with
  | None => false
  | Some p =>
    match bpf_prog p with
    | Some bp => if 0 <=? prog_fd p then is_frags p else c_true (Z.land (bp_flags bp) BPF_F_XDP_HAS_FRAGS)
    | None => is_frags p
    end
  end.

(** [set_flags] is libbpf's answer to [bpf_program__set_flags]. *)
Definition xdp_program__set_xdp_frags_support (set_flags : Z) (prog : option xdp_program) (frags : bool) :
    Z * option xdp_program :=
  match prog with
  | None => (- EINVAL, None)
  | Some p =>
    match bpf_prog p with
    | None => (- EINVAL, Some p)
    | Some bp =>
      if 0 <=? prog_fd p then (- EINVAL, Some p) else
      let prog_flags := if frags then Z.lor (bp_flags bp) BPF_F_XDP_HAS_FRAGS
                        else Z.land (bp_flags bp) (u32 (Z.lnot BPF_F_XDP_HAS_FRAGS)) in
      if set_flags =? 0
      then (set_flags, Some (p {{ bpf_prog := Some {| bp_insn_cnt := bp_insn_cnt bp; bp_flags := prog_flags |};
                                  is_frags := frags }}))
      else (set_flags, Some p)
    end
  end.

(** ** The actions as text *)

Definition xdp_action_names : list (list byte) :=
  [str "XDP_ABORTED"; str "XDP_DROP"; str "XDP_PASS"; str "XDP_TX"; str "XDP_REDIRECT"].

(** The loop over the names from action [i] on; [buf] is the caller's whole
    buffer.  A write outside of it is [None]. *)
Fixpoint print_loop (p : option xdp_program) (names : list (list byte)) (i : Z) (first : bool)
    (buf : list byte) (pos buf_len : Z) : option (Z * list byte) :=
  let err_len buf pos := buf ← store buf pos [NUL]; Some (- ENOSPC, buf) in
  match names with
  | [] => Some (0, buf)
  | name :: names' =>
    if negb (xdp_program__chain_call_enabled p i) then print_loop p names' (i + 1) first buf pos buf_len else
    let put buf pos buf_len :=
      let '(out, len) := snprintf (Z.to_nat buf_len) name in
      buf ← store buf pos out;
      if (len <? 0) || (buf_len <=? len) then err_len buf pos
      else print_loop p names' (i + 1) false buf (pos + len) (buf_len - len) in
    if first then put buf pos buf_len else
    if buf_len =? 0 then err_len buf pos else
    buf ← store buf pos [x2c];
    put buf (pos + 1) (buf_len - 1)
  end.

Definition xdp_program__print_chain_call_actions (p : option xdp_program) (buf : option (list byte)) :
    option (Z * option (list byte)) :=
  match p, buf with
  | Some _, Some buf =>
    if zlen buf =? 0 then Some (- EINVAL, Some buf) else
    '(r, buf) ← print_loop p xdp_action_names 0 true buf 0 (zlen buf);
    Some (r, Some buf)
  | _, _ => Some (- EINVAL, buf)
  end.

Fixpoint get_action_loop (names : list (list byte)) (i : Z) (act_name : list byte) : option Z :=
  match names with
  | [] => None
  | name :: names' => if decide (act_name = name) then Some i else get_action_loop names' (i + 1) act_name
  end.

Definition get_xdp_action (act_name : list byte) : option Z := get_action_loop xdp_action_names 0 act_name.

(** ** The run configuration *)

Definition XDP_RUN_CONFIG_SEC : list byte := str ".xdp_run_config".

(** The loop over the members of the configuration's struct. *)
Fixpoint parse_members (b : btf) (ms : list (option (list byte) * Z)) (p : xdp_program) :
    option (Z * xdp_program) :=
  match ms with
  | [] => Some (0, p)
  | (None, _) :: _ => Some (- EINVAL, p)
  | (Some mname, type) :: ms' =>
    m_t ← skip_mods_and_typedefs (S (length b)) b type;
    if decide (mname = str "priority") then
      match get_field_int b m_t with
      | None => Some (- EINVAL, p)
      | Some v => parse_members b ms' (p {{ run_prio := v }})
      end
    else match get_xdp_action mname with
    | Some act =>
      match get_field_int b m_t with
      | None => Some (- EINVAL, p)
      | Some val =>
        let p := default p (snd (xdp_program__set_chain_call_enabled (Some p) act (c_true val))) in
        parse_members b ms' p
      end
    | None => Some (- ENOTSUP, p)
    end
  end.

(** [b] is the argument, or NULL for the program's own.  The names of functions
    are expanded when they may have been cut by the kernel. *)
Definition xdp_program__parse_btf (p : xdp_program) (b : option btf) : option (Z * xdp_program) :=
  let b := match b with Some b => Some b | None => prog_btf p end in
  let p := if (BPF_OBJ_NAME_LEN - 1 <=? length (prog_name p))%nat
           then match btf_get_function b (prog_name p) with
                | Some func => p {{ prog_name := btf_name func }}
                | None => p
                end
           else p in
  let struct_name := str "_" ++ prog_name p in
  if 100 <=? zlen struct_name then Some (- ENAMETOOLONG, p) else
  match btf_get_datasec b XDP_RUN_CONFIG_SEC, b with
  | Some sec, Some b =>
    def ← btf_get_section_var b sec struct_name BTF_KIND_STRUCT;
    match def with
    | inl err => Some (err, p)
    | inr (BtfStruct _ members) => parse_members b members p
    | inr _ => None
    end
  | _, _ => Some (- ENOENT, p)
  end.

(** ** The order of programs *)

(** [strcmp] of two strings without their terminators; [memcmp] of two
    arrays of one length. *)
Fixpoint strcmp (s t : list byte) : Z :=
  match s, t with
  | [], [] => 0
  | [], b :: _ => - byte.unsigned b
  | a :: _, [] => byte.unsigned a
  | a :: s', b :: t' => if byte.unsigned a =? byte.unsigned b then strcmp s' t' else byte.unsigned a - byte.unsigned b
  end.

Definition memcmp (s t : list byte) : Z := strcmp s t.

Definition cmp_xdp_programs (a b : xdp_program) : Z :=
  if negb (run_prio a =? run_prio b) then (if run_prio a <? run_prio b then -1 else 1) else
  let cmp := strcmp (prog_name a) (prog_name b) in
  if c_true cmp then cmp else
  if (0 <=? prog_fd a) && (prog_fd b <? 0) then -1 else
  if (prog_fd a <? 0) && (0 <=? prog_fd b) then 1 else
  let rest :=
    let cmp := memcmp (prog_tag a) (prog_tag b) in
    if c_true cmp then cmp else
    if negb (load_time a =? load_time b) then (if load_time a <? load_time b then -1 else 1) else 0 in
  match bpf_prog a, bpf_prog b with
  | Some pa, Some pb =>
    if negb (bp_insn_cnt pa =? bp_insn_cnt pb) then (if bp_insn_cnt pa <? bp_insn_cnt pb then -1 else 1) else rest
  | _, _ => rest
  end.

(** ** Comparison functions *)

(** [c] is a total preorder on the values of [P]. *)
Definition order_on {A} (P : A -> Prop) (c : A -> A -> Z) : Prop :=
  (forall a b, P a -> P b -> Z.sgn (c b a) = - Z.sgn (c a b)) /\
  (forall a b d, P a -> P b -> P d -> c a b <= 0 -> c b d <= 0 -> c a d <= 0).

(** Compare by [c1], and by [c2] where it does not decide. *)
Definition lexc {A} (c1 c2 : A -> A -> Z) (a b : A) : Z := if c1 a b =? 0 then c2 a b else c1 a b.

Definition by_key {A} (f : A -> Z) (a b : A) : Z :=
  if f a =? f b then 0 else if f a <? f b then -1 else 1.

Lemma order_lex {A} (P : A -> Prop) c1 c2 : order_on P c1 -> order_on P c2 -> order_on P (lexc c1 c2).
Proof.
  intros [S1 T1] [S2 T2]. split.
  - intros a b Ha Hb. unfold lexc. specialize (S1 a b Ha Hb). specialize (S2 a b Ha Hb).
    destruct (Z.eqb_spec (c1 a b) 0), (Z.eqb_spec (c1 b a) 0); lia.
  - intros a b d Ha Hb Hd. unfold lexc. intros H1 H2.
    pose proof (T1 a b d Ha Hb Hd). pose proof (T2 a b d Ha Hb Hd). pose proof (T1 b d a Hb Hd Ha).
    pose proof (T1 d a b Hd Ha Hb). pose proof (S1 a b Ha Hb). pose proof (S1 b d Hb Hd). pose proof (S1 a d Ha Hd).
    destruct (Z.eqb_spec (c1 a b) 0), (Z.eqb_spec (c1 b d) 0), (Z.eqb_spec (c1 a d) 0); lia.
Qed.

Lemma order_key {A} (P : A -> Prop) f : order_on P (by_key f).
Proof.
  split; unfold by_key.
  - intros a b _ _. destruct (Z.eqb_spec (f a) (f b)), (Z.eqb_spec (f b) (f a)), (Z.ltb_spec (f a) (f b)),
      (Z.ltb_spec (f b) (f a)); lia.
  - intros a b d _ _ _. destruct (Z.eqb_spec (f a) (f b)), (Z.eqb_spec (f b) (f d)), (Z.eqb_spec (f a) (f d)),
      (Z.ltb_spec (f a) (f b)), (Z.ltb_spec (f b) (f d)), (Z.ltb_spec (f a) (f d)); lia.
Qed.

Lemma order_map {A B} (P : A -> Prop) (Q : B -> Prop) (f : A -> B) c :
  (forall a, P a -> Q (f a)) -> order_on Q c -> order_on P (fun a b => c (f a) (f b)).
Proof. intros HPQ [HS HT]. split; intros; [apply HS | eapply (HT (f a) (f b))]; eauto. Qed.

Lemma strcmp_sym s t : strcmp t s = - strcmp s t.
Proof.
  revert t. induction s as [| a s IH]; intros [| b t]; simpl; try lia.
  rewrite (Z.eqb_sym (byte.unsigned b)). destruct (_ =? _); [apply IH | lia].
Qed.

Lemma byte_pos b : b <> NUL -> 0 < byte.unsigned b.
Proof.
  intros Hb. pose proof (byte.unsigned_range b). destruct (Z.eq_dec (byte.unsigned b) 0) as [E |]; [| lia].
  exfalso. apply Hb. rewrite <- (byte.of_Z_unsigned b), E. done.
Qed.

(** Strings without a NUL, and arrays of one length, are ordered. *)
Lemma strcmp_trans s : forall t u,
  (NUL ∉ s /\ NUL ∉ t /\ NUL ∉ u) \/ (length s = length t /\ length t = length u) ->
  strcmp s t <= 0 -> strcmp t u <= 0 -> strcmp s u <= 0.
Proof.
  induction s as [| a s IH]; intros [| b t] [| d u] HP; simpl; try lia.
  - pose proof (byte.unsigned_range d). lia.
  - destruct HP as [(H1 & H2 & H3) | [? ?]]; [| done]. apply not_elem_of_cons in H1 as [H1 _].
    pose proof (byte_pos a ltac:(done)). lia.
  - destruct HP as [(H1 & H2 & H3) | [? ?]]; [| done]. apply not_elem_of_cons in H2 as [H2 _].
    pose proof (byte_pos b ltac:(done)). lia.
  - assert ((NUL ∉ s /\ NUL ∉ t /\ NUL ∉ u) \/ (length s = length t /\ length t = length u)) as HP'.
    { destruct HP as [(H1 & H2 & H3) | [H1 H2]]; [left | right; simpl in *; lia].
      apply not_elem_of_cons in H1 as [_ ?]. apply not_elem_of_cons in H2 as [_ ?]. by apply not_elem_of_cons in H3 as [_ ?]. }
    specialize (IH t u HP').
    destruct (Z.eqb_spec (byte.unsigned a) (byte.unsigned b)), (Z.eqb_spec (byte.unsigned b) (byte.unsigned d)),
      (Z.eqb_spec (byte.unsigned a) (byte.unsigned d)); lia.
Qed.

Lemma order_names : order_on (fun s => NUL ∉ s) strcmp.
Proof.
  split; [intros a b _ _; rewrite strcmp_sym; apply Z.sgn_opp |].
  intros a b d Ha Hb Hd. apply strcmp_trans. by left.
Qed.

Lemma order_tags n : order_on (fun s : list byte => length s = n) memcmp.
Proof.
  split; [intros a b _ _; unfold memcmp; rewrite strcmp_sym; apply Z.sgn_opp |].
  intros a b d Ha Hb Hd. apply strcmp_trans. right. lia.
Qed.

(** A program as [qsort] meets it: a C string as name, a tag of eight bytes,
    and an object file program or none, which depends ([kind]) on nothing but
    whether it is loaded. *)
Definition cmp_ok (kind : bool -> bool) (p : xdp_program) : Prop :=
  NUL ∉ prog_name p /\ length (prog_tag p) = 8%nat /\
  bool_decide (is_Some (bpf_prog p)) = kind (0 <=? prog_fd p).

Lemma cmp_lex a b kind : cmp_ok kind a -> cmp_ok kind b ->
  cmp_xdp_programs a b =
  lexc (by_key run_prio) (lexc (fun a b => strcmp (prog_name a) (prog_name b))
    (lexc (by_key (fun p => if 0 <=? prog_fd p then 0 else 1))
      (lexc (by_key (fun p => match bpf_prog p with Some bp => bp_insn_cnt bp | None => 0 end))
        (lexc (fun a b => memcmp (prog_tag a) (prog_tag b)) (by_key load_time))))) a b.
Proof.
  intros (_ & _ & Ha) (_ & _ & Hb). unfold cmp_xdp_programs, lexc, by_key, c_true.
  destruct (run_prio a =? run_prio b); cbn [negb Z.eqb]; [| by destruct (run_prio a <? run_prio b)].
  destruct (strcmp (prog_name a) (prog_name b) =? 0); cbn [negb]; [| done].
  destruct (Z.leb_spec 0 (prog_fd a)), (Z.leb_spec 0 (prog_fd b)), (Z.ltb_spec (prog_fd a) 0),
    (Z.ltb_spec (prog_fd b) 0); try lia; cbn [andb Z.eqb Z.ltb Z.compare negb]; try done.
  all: destruct (bpf_prog a) as [pa |], (bpf_prog b) as [pb |]; try (by rewrite <- Ha in Hb); cbn [negb].
  all: try (destruct (bp_insn_cnt pa =? bp_insn_cnt pb); cbn [negb Z.eqb]; [| by destruct (bp_insn_cnt pa <? bp_insn_cnt pb)]).
  all: rewrite ?Z.eqb_refl; destruct (memcmp (prog_tag a) (prog_tag b) =? 0); cbn [negb]; [| done].
  all: by destruct (load_time a =? load_time b).
Qed.

(** Three loaded programs of one name and priority: two with their object
    files, one without. *)
Definition cycle_prog (size : option Z) (tag : byte) : xdp_program :=
  xdp_program__new {{ bpf_prog := (fun n => {| bp_insn_cnt := n; bp_flags := 0 |}) <$> size;
    prog_fd := 5; prog_name := str "xdp_prog"; prog_tag := tag :: replicate 7 x00 }}.

Lemma cmp_order kind : order_on (cmp_ok kind) cmp_xdp_programs.
Proof.
  pose proof (order_lex (cmp_ok kind) _ _ (order_key _ run_prio) (order_lex _ _ _
    (order_map _ _ prog_name _ (fun a H => proj1 H) order_names) (order_lex _ _ _
    (order_key _ (fun p => if 0 <=? prog_fd p then 0 else 1)) (order_lex _ _ _
    (order_key _ (fun p => match bpf_prog p with Some bp => bp_insn_cnt bp | None => 0 end)) (order_lex _ _ _
    (order_map _ _ prog_tag _ (fun a H => proj1 (proj2 H)) (order_tags 8)) (order_key _ load_time)))))) as [HS HT].
  split.
  - intros a b Ha Hb. rewrite (cmp_lex b a kind), (cmp_lex a b kind) by done. by apply HS.
  - intros a b d Ha Hb Hd. rewrite (cmp_lex a b kind), (cmp_lex b d kind), (cmp_lex a d kind) by done. by apply HT.
Qed.

(** The order of programs.  Among programs that come with their object
    file exactly when they are not loaded (or exactly when they are, or all, or
    none), [cmp_xdp_programs] is a total preorder, as [qsort] requires: by
    priority, then by name, then loaded ones first, then by size, tag and
    load time.  In general it is not: sizes are compared only where both sides
    have one, so three loaded programs of one name and priority, two of them
    with their object file, can form a cycle. *)
Theorem cmp_xdp_programs_order :
  (forall kind, order_on (cmp_ok kind) cmp_xdp_programs) /\
  exists a b c, run_prio a = run_prio b /\ run_prio b = run_prio c /\
    cmp_xdp_programs a b < 0 /\ cmp_xdp_programs b c < 0 /\ cmp_xdp_programs c a < 0.
Proof.
  split; [exact cmp_order |].
  exists (cycle_prog (Some 1) x03), (cycle_prog (Some 2) x01), (cycle_prog None x02). by vm_compute.
Qed.

(** ** Printing the actions *)

(** The names of the enabled actions, from action [i] on. *)
Fixpoint enabled_from (p : option xdp_program) (names : list (list byte)) (i : Z) : list (list byte) :=
  match names with
  | [] => []
  | n :: names' =>
    if xdp_program__chain_call_enabled p i then n :: enabled_from p names' (i + 1) else enabled_from p names' (i + 1)
  end.

Definition enabled_names (p : option xdp_program) : list (list byte) := enabled_from p xdp_action_names 0.

(** Each name behind a comma; and the comma-separated list. *)
Definition comma_each (ns : list (list byte)) : list byte := concat (map (cons x2c) ns).
Definition commas (ns : list (list byte)) : list byte :=
  match ns with [] => [] | n :: ns' => n ++ comma_each ns' end.

(** The rest of the buffer once [text] and its terminator are in front. *)
Definition terminated (text rest : list byte) : list byte := text ++ NUL :: drop (S (length text)) rest.

Lemma zlen_terminated text rest : zlen text < zlen rest -> zlen (terminated text rest) = zlen rest.
Proof. intros H. unfold terminated, zlen in *. rewrite length_app. cbn [length]. rewrite length_drop. lia. Qed.

Lemma store_at (pre rest out : list byte) : zlen out <= zlen rest ->
  store (pre ++ rest) (zlen pre) out = Some (pre ++ out ++ drop (length out) rest).
Proof.
  intros H. rewrite <- (take_drop (length out) rest) at 1. apply store_app; [done |].
  rewrite length_take. unfold zlen in H. lia.
Qed.

(** One name put behind [pre], with its terminator. *)
Lemma store_name (pre rest name : list byte) : zlen name < zlen rest ->
  store (pre ++ rest) (zlen pre) (take (Z.to_nat (zlen rest) - 1) name ++ [NUL]) =
    Some (pre ++ terminated name rest).
Proof.
  intros H. rewrite take_ge by (unfold zlen in *; lia). rewrite store_at by (unfold zlen in *; rewrite length_app; simpl; lia).
  unfold terminated. rewrite length_app, <- app_assoc. simpl. by rewrite Nat.add_1_r.
Qed.

Lemma terminated_more c n x c' (rest : list byte) :
  terminated ((c :: n) ++ x) (c' :: rest) = c :: n ++ terminated x (NUL :: drop (S (length n)) rest).
Proof.
  unfold terminated. rewrite <- app_assoc. cbn [app length drop]. do 3 f_equal. f_equal.
  rewrite drop_drop, length_app. f_equal; lia.
Qed.

(** One turn of the loop behind the first name, when there is room: [pre] and
    a terminator have been written so far. *)
Lemma print_turn p n names i pre t : xdp_program__chain_call_enabled p i = true -> zlen n < zlen t ->
  print_loop p (n :: names) i false (pre ++ NUL :: t) (zlen pre) (zlen (NUL :: t)) =
  print_loop p names (i + 1) false ((pre ++ x2c :: n) ++ NUL :: drop (S (length n)) t) (zlen (pre ++ x2c :: n))
    (zlen (NUL :: drop (S (length n)) t)).
Proof.
  intros He Hlen. pose proof (zlen_nonneg n). cbn [print_loop]. rewrite He. cbn [negb].
  rewrite (proj2 (Z.eqb_neq (zlen (NUL :: t)) 0)) by (rewrite zlen_cons; lia).
  rewrite store_at by (rewrite !zlen_cons, zlen_nil; lia).
  cbn [mbind option_bind length drop]. rewrite drop_0. replace (zlen (NUL :: t) - 1) with (zlen t) by (rewrite zlen_cons; lia).
  unfold snprintf. destruct (Z.to_nat (zlen t)) as [| k] eqn:Ek; [lia |].
  replace (zlen pre + 1) with (zlen (pre ++ [x2c])) by (rewrite zlen_app; done). rewrite (app_assoc pre).
  pose proof (store_name (pre ++ [x2c]) t n) as Hs. rewrite Ek in Hs. simpl Nat.sub in Hs. rewrite Nat.sub_0_r in Hs.
  rewrite Hs by lia. cbn [mbind option_bind].
  rewrite (proj2 (Z.ltb_ge (zlen n) 0)), (proj2 (Z.leb_gt (zlen t) (zlen n))) by lia. cbn [orb].
  replace (pre ++ x2c :: n) with ((pre ++ [x2c]) ++ n) by (by rewrite <- app_assoc).
  f_equal; [unfold terminated; by rewrite <- !app_assoc | by rewrite <- zlen_app |].
  unfold zlen in *. cbn [length]. rewrite length_drop. lia.
Qed.

Lemma print_more p names : forall i pre t,
  zlen (comma_each (enabled_from p names i)) <= zlen t ->
  print_loop p names i false (pre ++ NUL :: t) (zlen pre) (zlen (NUL :: t)) =
    Some (0, pre ++ terminated (comma_each (enabled_from p names i)) (NUL :: t)).
Proof.
  induction names as [| n names IH]; intros i pre t; cbn [enabled_from]; [done |].
  destruct (xdp_program__chain_call_enabled p i) eqn:He; [| cbn [print_loop]; rewrite He; apply IH].
  set (es := enabled_from p names (i + 1)) in *. unfold comma_each. cbn [map concat]. fold (comma_each es).
  intros Hlen. autorewrite with cmem in Hlen. pose proof (zlen_nonneg (comma_each es)). pose proof (zlen_nonneg n).
  rewrite print_turn by (done || lia). rewrite IH; fold es.
  - f_equal. f_equal. rewrite <- app_assoc. f_equal. by rewrite terminated_more.
  - unfold zlen in *. rewrite length_drop. lia.
Qed.

(** The comma that fills the last byte. *)
Lemma print_overflow p names : forall i pre t es x more,
  enabled_from p names i = es ++ x :: more -> zlen (comma_each es) = zlen t ->
  print_loop p names i false (pre ++ NUL :: t) (zlen pre) (zlen (NUL :: t)) = None.
Proof.
  induction names as [| n names IH]; intros i pre t es x more; cbn [enabled_from]; [by destruct es |].
  destruct (xdp_program__chain_call_enabled p i) eqn:He; [| cbn [print_loop]; rewrite He; apply IH].
  destruct es as [| e es]; intros [= <- E] Ht.
  - destruct t as [| ? t]; 
      [| change (zlen (comma_each [])) with 0 in Ht; rewrite zlen_cons in Ht; pose proof (zlen_nonneg t); lia].
    cbn [print_loop]. rewrite He. cbn [negb]. change (zlen [NUL] =? 0) with false.
    rewrite (store_at pre [NUL] [x2c]) by done. cbn [mbind option_bind length drop app].
    change (zlen [NUL] - 1) with 0. change (Z.to_nat 0) with O. cbn [snprintf]. pose proof (zlen_nonneg pre). pose proof (zlen_nonneg n).
    assert (zlen (pre ++ [x2c]) = zlen pre + 1) as Hz by (by rewrite zlen_app).
    destruct (store (pre ++ [x2c]) (zlen pre + 1) []) as [buf |] eqn:E1; [| done]. cbn [mbind option_bind].
    replace ((zlen n <? 0) || (0 <=? zlen n)) with true by lia. apply zlen_store in E1.
    by rewrite (proj2 (store_None buf (zlen pre + 1) [NUL]) ltac:(right; rewrite zlen_cons, zlen_nil; lia)).
  - unfold comma_each in Ht. cbn [map concat] in Ht. fold (comma_each es) in Ht. autorewrite with cmem in Ht.
    pose proof (zlen_nonneg (comma_each es)). pose proof (zlen_nonneg n).
    rewrite print_turn by (done || lia). apply (IH _ _ _ _ _ _ E). unfold zlen in *. rewrite length_drop. lia.
Qed.

(** The loop up to the first enabled action. *)
Lemma print_first p names : forall i buf, 0 < zlen buf ->
  match enabled_from p names i with
  | [] => print_loop p names i true buf 0 (zlen buf) = Some (0, buf)
  | n :: es => zlen n < zlen buf -> exists names' i', enabled_from p names' i' = es /\
      print_loop p names i true buf 0 (zlen buf) =
      print_loop p names' i' false (n ++ NUL :: drop (S (length n)) buf) (zlen n) (zlen (NUL :: drop (S (length n)) buf))
  end.
Proof.
  induction names as [| n names IH]; intros i buf Hb; cbn [enabled_from print_loop]; [done |].
  destruct (xdp_program__chain_call_enabled p i); cbn [negb]; [| by apply IH].
  intros Hn. exists names, (i + 1). split; [done |]. unfold snprintf. pose proof (zlen_nonneg n).
  destruct (Z.to_nat (zlen buf)) as [| k] eqn:Ek; [lia |].
  pose proof (store_name [] buf n) as Hs. rewrite Ek in Hs. simpl Nat.sub in Hs. rewrite Nat.sub_0_r in Hs.
  change ([] ++ buf) with buf in Hs. change (zlen (@nil byte)) with 0 in Hs. rewrite Hs by lia. cbn [mbind option_bind].
  rewrite (proj2 (Z.ltb_ge (zlen n) 0)), (proj2 (Z.leb_gt (zlen buf) (zlen n))) by lia. cbn [orb].
  f_equal. unfold zlen in *. cbn [length]. rewrite length_drop. lia.
Qed.

(** The actions as text.  For a buffer that is long enough,
    [xdp_program__print_chain_call_actions] writes the names of the enabled
    actions, separated by commas, and a terminator, and nothing behind it.  Two
    cases go wrong: without an enabled action the buffer is not written at all,
    though the call succeeds; and when a comma fills the buffer's last byte the
    terminator is written one byte past the end. *)
Theorem print_chain_call_actions_text p buf : 0 < zlen buf ->
  let es := enabled_names (Some p) in
  (es = [] -> xdp_program__print_chain_call_actions (Some p) (Some buf) = Some (0, Some buf)) /\
  (es <> [] -> zlen (commas es) < zlen buf ->
   xdp_program__print_chain_call_actions (Some p) (Some buf) =
     Some (0, Some (commas es ++ NUL :: drop (S (length (commas es))) buf))) /\
  (forall pre x more, es = pre ++ x :: more -> pre <> [] -> zlen (commas pre) + 1 = zlen buf ->
   xdp_program__print_chain_call_actions (Some p) (Some buf) = None).
Proof.
  intros Hb es. unfold xdp_program__print_chain_call_actions.
  rewrite (proj2 (Z.eqb_neq (zlen buf) 0)) by lia.
  pose proof (print_first (Some p) xdp_action_names 0 buf Hb) as HF. fold (enabled_names (Some p)) in HF. fold es in HF.
  destruct es as [| n es]; [split_and!; [by rewrite HF | done | by intros [] ?] |].
  split_and!; [done | |].
  - intros _ Hlen. unfold commas in Hlen. rewrite zlen_app in Hlen. pose proof (zlen_nonneg (comma_each es)).
    destruct HF as (names & i & E & ->); [lia |]. rewrite print_more by (rewrite E; unfold zlen in *; rewrite length_drop; lia).
    cbn [mbind option_bind]. rewrite E. unfold commas, terminated. do 3 f_equal. rewrite <- app_assoc. do 3 f_equal.
    cbn [drop]. rewrite drop_drop, length_app. f_equal; lia.
  - intros [| n' pre] x more [= <- E'] Hne Hlen; [done |]. unfold commas in Hlen. rewrite zlen_app in Hlen.
    pose proof (zlen_nonneg (comma_each pre)). destruct HF as (names & i & E & ->); [lia |].
    rewrite E' in E. rewrite (print_overflow _ _ _ _ _ _ _ _ E); [done |]. unfold zlen in *. rewrite length_drop. lia.
Qed.

(** ** Chain calls *)

Lemma chain_call_testbit p a : 0 <= a < 31 ->
  xdp_program__chain_call_enabled (Some p) a = Z.testbit (chain_call_actions p) a.
Proof.
  intros Ha. cbn [xdp_program__chain_call_enabled]. rewrite (proj2 (Z.leb_gt XDP_DISPATCHER_RETVAL a)) by (unfold XDP_DISPATCHER_RETVAL; lia).
  rewrite Z.shiftl_1_l, land_pow2_testbit by lia. unfold c_true. pose proof (Z.pow_pos_nonneg 2 a).
  destruct (Z.testbit _ a); [by rewrite (proj2 (Z.eqb_neq (2 ^ a) 0)) by lia | done].
Qed.

(** Setting an action of a program that is not loaded changes that action
    and no other. *)
Lemma set_chain_call_spec p a e : prog_fd p < 0 -> 0 <= a < 31 ->
  exists p', xdp_program__set_chain_call_enabled (Some p) a e = (0, Some p') /\
    prog_fd p' = prog_fd p /\ run_prio p' = run_prio p /\
    forall a', 0 <= a' < 31 -> xdp_program__chain_call_enabled (Some p') a' =
      if a' =? a then e else xdp_program__chain_call_enabled (Some p) a'.
Proof.
  intros Hfd Ha. cbn [xdp_program__set_chain_call_enabled].
  rewrite (proj2 (Z.leb_gt 0 (prog_fd p))), (proj2 (Z.leb_gt XDP_DISPATCHER_RETVAL a)) by (unfold XDP_DISPATCHER_RETVAL; lia). cbn [orb].
  eexists. split; [done |]. split_and!; [by destruct p | by destruct p |]. intros a' Ha'.
  rewrite !chain_call_testbit by done. destruct p. cbn -[Z.testbit Z.lor Z.land u32 Z.lnot Z.shiftl Z.eqb].
  unfold constant. rewrite Z.shiftl_1_l.
  destruct e.
  - rewrite Z.lor_spec, Z.pow2_bits_eqb, (Z.eqb_sym a) by lia. destruct (a' =? a); [apply orb_true_r | apply orb_false_r].
  - rewrite Z.land_spec. unfold u32. rewrite Z.mod_pow2_bits_low, Z.lnot_spec, Z.pow2_bits_eqb, (Z.eqb_sym a) by lia.
    destruct (a' =? a); [apply andb_false_r | apply andb_true_r].
Qed.

(** A program that is loaded keeps its actions. *)
Lemma set_chain_call_loaded p a e : 0 <= prog_fd p ->
  xdp_program__set_chain_call_enabled (Some p) a e = (- EINVAL, Some p).
Proof. intros Hfd. cbn. by rewrite (proj2 (Z.leb_le 0 (prog_fd p)) Hfd). Qed.

(** ** Reading the run configuration *)

(** What one member says. *)
Inductive setting := Priority (v : Z) | Action (act : Z) (v : Z).

Definition decode_member (b : btf) (m : option (list byte) * Z) : option setting :=
  mname ← fst m;
  m_t ← skip_mods_and_typedefs (S (length b)) b (snd m);
  v ← get_field_int b m_t;
  if decide (mname = str "priority") then Some (Priority v)
  else act ← get_xdp_action mname; Some (Action act v).

(** The last word on the priority, and on one action. *)
Fixpoint final_prio (ss : list setting) (d : Z) : Z :=
  match ss with
  | [] => d
  | Priority v :: ss' => final_prio ss' v
  | _ :: ss' => final_prio ss' d
  end.

Fixpoint final_action (ss : list setting) (a : Z) (d : bool) : bool :=
  match ss with
  | [] => d
  | Action act v :: ss' => final_action ss' a (if a =? act then c_true v else d)
  | _ :: ss' => final_action ss' a d
  end.

Lemma get_action_range names : forall i n act, get_action_loop names i n = Some act ->
  i <= act < i + Z.of_nat (length names).
Proof.
  induction names as [| x names IH]; intros i n act; simpl; [done |].
  case_decide; [intros [= <-]; lia |]. intros E. apply IH in E. lia.
Qed.

Lemma parse_members_settings b ms : forall p ss, mapM (decode_member b) ms = Some ss ->
  exists p', parse_members b ms p = Some (0, p') /\ prog_fd p' = prog_fd p /\
    run_prio p' = final_prio ss (run_prio p) /\
    (0 <= prog_fd p -> chain_call_actions p' = chain_call_actions p) /\
    (prog_fd p < 0 -> forall a, 0 <= a < 31 ->
       xdp_program__chain_call_enabled (Some p') a = final_action ss a (xdp_program__chain_call_enabled (Some p) a)).
Proof.
  induction ms as [| [mname type] ms IH]; intros p ss; [intros [= <-]; by exists p |].
  cbn [mapM]. destruct (decode_member b _) as [s |] eqn:E; [| done]. cbn [mbind option_bind].
  destruct (mapM (decode_member b) ms) as [ss' |] eqn:Ess; [| done]. intros [= <-]. unfold decode_member in E. cbn [fst snd] in E.
  destruct mname as [mname |]; [| done]. cbn [mbind option_bind parse_members] in E |- *.
  destruct (skip_mods_and_typedefs _ _ _) as [m_t |]; [| done]. cbn [mbind option_bind] in E |- *.
  destruct (get_field_int b m_t) as [v |]; [| done]. cbn [mbind option_bind] in E.
  destruct (decide (mname = str "priority")).
  - injection E as <-. destruct (IH (p {{ run_prio := v }}) ss' eq_refl) as (p' & Ep & Hrest).
    exists p'. split; [done |]. by destruct p.
  - destruct (get_xdp_action mname) as [act |] eqn:Ea; [| done]. injection E as <-.
    apply get_action_range in Ea. simpl in Ea. destruct (decide (0 <= prog_fd p)) as [Hl | Hu].
    + rewrite (set_chain_call_loaded p _ _ Hl). cbn [snd default]. destruct (IH p ss' eq_refl) as (p' & Ep & Hfd & Hp & Hc & _).
      exists p'. split_and!; try done. lia.
    + destruct (set_chain_call_spec p act (c_true v)) as (q & -> & Hq & Hqp & Hqa); [lia.. |]. cbn [snd default].
      destruct (IH q ss' eq_refl) as (p' & Ep & Hfd & Hp & Hc & Ha). exists p'.
      split_and!; [done | congruence | cbn [final_prio]; congruence | lia |].
      intros _ a Ha31. rewrite Ha by lia. cbn [final_action]. by rewrite Hqa.
Qed.

(** The run configuration.  When a program's type information has a
    configuration for it, whose members are the priority or actions,
    [xdp_program__parse_btf] sets the priority to the last value given, and the
    chain call of each action to whether its last value is not zero, leaving
    the actions that are not mentioned.  For a program that is already
    loaded, however, only the priority is read: the actions keep their
    defaults, since they can be set before loading only. *)
Theorem parse_btf_config p b sec sname members ss :
  (length (prog_name p) < BPF_OBJ_NAME_LEN - 1)%nat ->
  btf_get_datasec (Some b) XDP_RUN_CONFIG_SEC = Some sec ->
  btf_get_section_var b sec (str "_" ++ prog_name p) BTF_KIND_STRUCT = Some (inr (BtfStruct sname members)) ->
  mapM (decode_member b) members = Some ss ->
  exists p', xdp_program__parse_btf p (Some b) = Some (0, p') /\
    run_prio p' = final_prio ss (run_prio p) /\
    (prog_fd p < 0 -> forall a, 0 <= a < 31 ->
       xdp_program__chain_call_enabled (Some p') a = final_action ss a (xdp_program__chain_call_enabled (Some p) a)) /\
    (0 <= prog_fd p -> chain_call_actions p' = chain_call_actions p).
Proof.
  intros Hn Hsec Hvar Hms. unfold xdp_program__parse_btf.
  rewrite (proj2 (Nat.leb_gt _ _)) by done. rewrite (proj2 (Z.leb_gt 100 (zlen (str "_" ++ prog_name p)))).
  2: { rewrite zlen_app. change (zlen (str "_")) with 1. unfold zlen, BPF_OBJ_NAME_LEN in *. lia. }
  rewrite Hsec, Hvar. cbn [mbind option_bind].
  destruct (parse_members_settings b members p ss Hms) as (p' & Ep & _ & Hp & Hl & Hu). exists p'. by split_and!.
Qed.

(** A configuration as a compiler writes it: priority 10, continue on
    XDP_DROP, do not continue on XDP_PASS. *)
Definition sample_btf : btf :=
  [BtfArray 10; BtfPtr 1; BtfArray 1; BtfPtr 3; BtfArray 0; BtfPtr 5;
   BtfStruct [] [(Some (str "priority"), 2); (Some (str "XDP_DROP"), 4); (Some (str "XDP_PASS"), 6)];
   BtfVar (str "_xdp_prog") 7 BTF_VAR_GLOBAL_ALLOCATED; BtfDatasec (str ".xdp_run_config") [8]].

Lemma parse_btf_config_witness :
  exists p', xdp_program__parse_btf (xdp_program__new {{ prog_name := str "xdp_prog" }}) (Some sample_btf) = Some (0, p') /\
    run_prio p' = 10 /\ (forall a, 0 <= a < 31 -> xdp_program__chain_call_enabled (Some p') a = (a =? XDP_DROP)).
Proof.
  edestruct (parse_btf_config (xdp_program__new {{ prog_name := str "xdp_prog" }}) sample_btf) as (p' & E & Hp & Ha & _);
    [simpl; lia | vm_compute; reflexivity | vm_compute; reflexivity | vm_compute; reflexivity |].
  exists p'. split; [exact E |]. split; [exact Hp |]. intros a Ha31. rewrite Ha by (done || lia). cbn [final_action].
  destruct (Z.eqb_spec a XDP_DROP) as [-> |]; [reflexivity |].
  destruct (Z.eqb_spec a XDP_PASS) as [-> |]; [reflexivity |].
  unfold XDP_DROP, XDP_PASS in *.
  rewrite chain_call_testbit by lia. cbn -[Z.testbit]. unfold XDP_DEFAULT_CHAIN_CALL_ACTIONS, XDP_PASS.
  rewrite Z.shiftl_1_l, Z.pow2_bits_eqb by lia.
  rewrite !(proj2 (Z.eqb_neq _ _)) by lia. reflexivity.
Defined.

Lemma print_chain_call_actions_text_witness :
  xdp_program__print_chain_call_actions (Some (xdp_program__new {{ chain_call_actions := 12 }}))
    (Some (replicate 9 x2e)) = None /\
  xdp_program__print_chain_call_actions (Some xdp_program__new) (Some (replicate 9 x2e)) =
    Some (0, Some (str "XDP_PASS" ++ [NUL])).
Proof.
  split.
  - apply (print_chain_call_actions_text (xdp_program__new {{ chain_call_actions := 12 }}) (replicate 9 x2e) ltac:(done))
      with (pre := [str "XDP_PASS"]) (x := str "XDP_TX") (more := []); done.
  - apply (print_chain_call_actions_text xdp_program__new (replicate 9 x2e) ltac:(done)); done.
Defined.
