(* ===== verification/XdpDispatch.v ===== *)
(** Several XDP programs behind one dispatcher:
    src/lib/xdp-tools/lib/libxdp/libxdp.c ([struct xdp_multiprog],
    [xdp_multiprog__generate], [xdp_multiprog__load], [xdp_multiprog__link_prog]),
    headers/xdp/prog_dispatcher.h (the configuration) and xdp-dispatcher.c.in
    (the program the kernel runs).

    What libbpf and the kernel answer is an argument ([gen_env], [link_env]).
    [None] is undefined behaviour: a null pointer in the array of programs, or
    an access outside of it.  The C library's [qsort] is a parameter. *)
From stdpp Require Import sorting.
From S2P Require Import Prelude.
From S2P Require Import CLib.
From S2P Require Import XdpStats.
From S2P Require Import XdpProgram.


Definition XDP_DISPATCHER_VERSION : Z := 2.
Definition XDP_DISPATCHER_MAGIC : Z := 236.
Definition MAX_DISPATCHER_ACTIONS : nat := 10.

(** ** Data *)

Record xdp_dispatcher_config := {
  magic : Z;
  dispatcher_version : Z;
  num_progs_enabled : Z;
  is_xdp_frags : bool;
  call_actions : list Z;         (** the array [chain_call_actions] *)
  run_prios : list Z;
  program_flags : list Z
}.

Definition config_zeroed : xdp_dispatcher_config :=
  {| magic := 0; dispatcher_version := 0; num_progs_enabled := 0; is_xdp_frags := false;
     call_actions := replicate MAX_DISPATCHER_ACTIONS 0; run_prios := replicate MAX_DISPATCHER_ACTIONS 0;
     program_flags := replicate MAX_DISPATCHER_ACTIONS 0 |}.

(** [first_prog] is the list built with the programs' [next] pointers. *)
Record xdp_multiprog := {
  mp_config : xdp_dispatcher_config;
  main_prog : option xdp_program;
  first_prog : list xdp_program;
  hw_prog : option xdp_program;
  version : Z;
  num_links : Z;
  is_loaded : bool;
  is_legacy : bool;
  kernel_frags_support : bool;
  mp_attach_mode : Z;
  mp_ifindex : Z
}.

Definition xdp_multiprog__new (alloc : bool) (ifindex : Z) : option xdp_multiprog :=
  if alloc then
    Some {| mp_config := config_zeroed; main_prog := None; first_prog := []; hw_prog := None;
            version := XDP_DISPATCHER_VERSION; num_links := 0; is_loaded := false; is_legacy := false;
            kernel_frags_support := false; mp_attach_mode := 0; mp_ifindex := ifindex |}
  else None.

(** ** Linking one program *)

Record link_env := {
  le_compat : Z;                 (** libxdp_check_kern_compat *)
  le_btf_id : list byte -> Z;    (** find_prog_btf_id of a function *)
  le_set_target : list byte -> Z; (** bpf_program__set_attach_target to it *)
  le_load : Z + (Z * Z);         (** xdp_program__load: an error, or descriptor and id *)
  le_clone : Z + xdp_program;    (** xdp_program__clone: an error, or the new object *)
  le_link_create : Z + Z;        (** bpf_link_create: errno or descriptor *)
  le_raw_tp : Z + Z;             (** bpf_raw_tracepoint_open *)
  le_strdup : bool
}.

(** The name of the slot a program takes. *)
Definition slot_name (i : nat) : list byte := str "prog" ++ fmt_u (Z.of_nat i).

(** The function of the dispatcher that the next program replaces. *)
Definition attach_func (conf : xdp_dispatcher_config) (i : nat) : list byte :=
  if num_progs_enabled conf =? 1 then str "xdp_dispatcher" else slot_name i.

(** The attach, once the program is loaded: [inl] an error. *)
Definition link_attach (e : link_env) (was_loaded : bool) : Z + Z :=
  match le_link_create e with
  | inr lfd => inr lfd
  | inl errno =>
    let fail err := inl (if err =? - EPERM then - EOPNOTSUPP else err) in
    if - errno =? - EINVAL then
      if negb was_loaded then fail (- EOPNOTSUPP) else
      match le_raw_tp e with
      | inr lfd => inr lfd
      | inl errno => fail (- errno)
      end
    else fail (- errno)
  end.

(** From the clone on: result, multi-program, and the program. *)
Definition link_clone (e : link_env) (mp : xdp_multiprog) (was_loaded : bool) (prog : xdp_program) :
    Z * xdp_multiprog * xdp_program :=
  match le_clone e with
  | inl err => (err, mp, prog)
  | inr new_prog =>
    match link_attach e was_loaded with
    | inl err => (err, mp, prog)
    | inr lfd =>
      if negb (le_strdup e) then (- ENOMEM, mp, prog) else
      let buf := str "prog" ++ fmt_u (num_links mp) in
      let new_prog := new_prog {{ attach_name := Some buf; link_fd := lfd }} in
      (0, mp {{ first_prog := first_prog mp ++ [new_prog]; num_links := num_links mp + 1 }}, prog)
    end
  end.

(** The program is loaded on the way. *)
Definition xdp_multiprog__link_prog (e : link_env) (mp : xdp_multiprog) (prog : xdp_program) :
    Z * xdp_multiprog * xdp_program :=
  if negb (is_loaded mp) || (num_progs_enabled (mp_config mp) <=? num_links mp) then (- EINVAL, mp, prog) else
  if negb (le_compat e =? 0) then (le_compat e, mp, prog) else
  if negb (bool_decide (is_Some (prog_btf prog))) then (- EOPNOTSUPP, mp, prog) else
  let func := attach_func (mp_config mp) (Z.to_nat (num_links mp)) in
  if le_btf_id e func <=? 0 then (le_btf_id e func, mp, prog) else
  if prog_fd prog <? 0 then
    if negb (le_set_target e func =? 0) then (le_set_target e func, mp, prog) else
    match le_load e with
    | inl err => (if err =? - E2BIG then - EOPNOTSUPP else err, mp, prog)
    | inr (fd, id) => link_clone e mp true (prog {{ prog_fd := fd; prog_id := id }})
    end
  else link_clone e mp false prog.

(** ** Generating a dispatcher *)

(** The loop that drops the programs to remove; [i] entries are filled. *)
Fixpoint keep_progs (old progs : list xdp_program) (num_new_progs i : Z) : Z + list xdp_program :=
  match old with
  | [] => inr []
  | prog :: old' =>
    if existsb (fun p => prog_id p =? prog_id prog) progs then keep_progs old' progs num_new_progs i else
    if num_new_progs <=? i then inl (- EINVAL) else
    match keep_progs old' progs num_new_progs (i + 1) with
    | inl err => inl err
    | inr l => inr (prog :: l)
    end
  end.

(** The array of programs, [None] an entry that is still zero.  The old
    programs are written to the front, then the new ones up to the end. *)
Definition fill_progs (old progs : list xdp_program) (num_new_progs : nat) : option (list (option xdp_program)) :=
  if (num_new_progs <? length old)%nat || (length old + length progs <? num_new_progs)%nat then None
  else Some (Some <$> old ++ take (num_new_progs - length old) progs).

Definition removed_progs (old progs : list xdp_program) (num_new_progs : nat) : Z + list (option xdp_program) :=
  match keep_progs old progs (Z.of_nat num_new_progs) 0 with
  | inl err => inl err
  | inr l => inr ((Some <$> l) ++ replicate (num_new_progs - length l) None)
  end.

(** The configuration for the sorted programs. *)
Definition slots (l : list Z) : list Z := l ++ replicate (MAX_DISPATCHER_ACTIONS - length l) 0.

Definition dispatcher_config (frags : bool) (ps : list xdp_program) : xdp_dispatcher_config :=
  let has p := xdp_program__xdp_frags_support (Some p) in
  {| magic := XDP_DISPATCHER_MAGIC; dispatcher_version := XDP_DISPATCHER_VERSION;
     num_progs_enabled := u8 (zlen ps); is_xdp_frags := frags && forallb has ps;
     call_actions := slots (map (fun p => Z.lor (chain_call_actions p) (Z.shiftl 1 XDP_DISPATCHER_RETVAL)) ps);
     run_prios := slots (map run_prio ps);
     program_flags := slots (map (fun p => if has p then BPF_F_XDP_HAS_FRAGS else 0) ps) |}.

Record gen_env := {
  ge_alloc : bool;
  ge_frags : bool;                    (** kernel_has_frags_support *)
  ge_calloc : bool;
  ge_dispatcher : Z + xdp_program;    (** the object file xdp-dispatcher.o *)
  ge_map : bool;                      (** it has a read-only data map *)
  ge_set_value : Z;                   (** bpf_map__set_initial_value *)
  ge_set_flags : Z;                   (** bpf_program__set_flags of the dispatcher *)
  ge_load : Z + (Z * Z);              (** xdp_program__load of the dispatcher *)
  ge_link : nat -> link_env
}.

Definition xdp_multiprog__load (e : gen_env) (mp : xdp_multiprog) : Z * xdp_multiprog :=
  match main_prog mp with
  | None => (- EINVAL, mp)
  | Some p =>
    if is_loaded mp || is_legacy mp then (- EINVAL, mp) else
    let p := if is_xdp_frags (mp_config mp)
             then default p (snd (xdp_program__set_xdp_frags_support (ge_set_flags e) (Some p) true)) else p in
    let mp := mp {{ main_prog := Some p }} in
    match ge_load e with
    | inl _ => (- EOPNOTSUPP, mp)
    | inr (fd, id) => (0, mp {{ main_prog := Some (p {{ prog_fd := fd; prog_id := id }}); is_loaded := true }})
    end
  end.

(** The last loop: each program is linked, in order. *)
Fixpoint link_progs (link : nat -> link_env) (i : nat) (ps : list xdp_program) (mp : xdp_multiprog) :
    Z * xdp_multiprog :=
  match ps with
  | [] => (0, mp)
  | p :: ps' =>
    let '(err, mp, _) := xdp_multiprog__link_prog (link i) mp p in
    if negb (err =? 0) then (err, mp) else link_progs link (S i) ps' mp
  end.

Section Generate.
Context (qsort : (xdp_program -> xdp_program -> Z) -> list xdp_program -> list xdp_program).

(** The part behind the array: sort, configure, load, link. *)
Definition generate_from (e : gen_env) (mp : xdp_multiprog) (new_progs : list (option xdp_program)) :
    option (Z + xdp_multiprog) :=
  new_progs ← (if (1 <? length new_progs)%nat then ps ← mapM id new_progs; Some (Some <$> qsort cmp_xdp_programs ps)
               else Some new_progs);
  match ge_dispatcher e with
  | inl err => Some (inl err)
  | inr dispatcher =>
    if negb (ge_map e) then Some (inl (- ENOENT)) else
    ps ← mapM id new_progs;
    let mp := mp {{ main_prog := Some dispatcher; mp_config := dispatcher_config (ge_frags e) ps;
                    kernel_frags_support := ge_frags e }} in
    if negb (ge_set_value e =? 0) then Some (inl (ge_set_value e)) else
    let '(err, mp) := xdp_multiprog__load e mp in
    if negb (err =? 0) then Some (inl err) else
    let '(err, mp) := link_progs (ge_link e) 0 ps mp in
    Some (if negb (err =? 0) then inl err else inr mp)
  end.

(** [inl] is an error pointer. *)
Definition xdp_multiprog__generate (e : gen_env) (progs : list xdp_program) (ifindex : Z)
    (old_mp : option xdp_multiprog) (remove_progs : bool) : option (Z + xdp_multiprog) :=
  if (length progs =? 0)%nat || (negb (bool_decide (is_Some old_mp)) && remove_progs) then Some (inl (- EINVAL)) else
  let old_links := match old_mp with Some old => num_links old | None => 0 end in
  let num_new_progs := u64 (old_links + if remove_progs then - zlen progs else zlen progs) in
  if Z.of_nat MAX_DISPATCHER_ACTIONS <? num_new_progs then Some (inl (- E2BIG)) else
  match xdp_multiprog__new (ge_alloc e) ifindex with
  | None => Some (inl (- ENOMEM))
  | Some mp =>
    match old_mp with
    | None => generate_from e mp (Some <$> progs)
    | Some old =>
      if is_legacy old then Some (inl (- EBUSY)) else
      if version old <? version mp then Some (inl (- EBUSY)) else
      if negb (ge_calloc e) then Some (inl (- ENOMEM)) else
      if remove_progs then
        match removed_progs (first_prog old) progs (Z.to_nat num_new_progs) with
        | inl err => Some (inl err)
        | inr new_progs => generate_from e mp new_progs
        end
      else
        new_progs ← fill_progs (first_prog old) progs (Z.to_nat num_new_progs);
        generate_from e mp new_progs
    end
  end.

End Generate.

(** ** The dispatcher *)

(** The slots of the dispatcher: the program that replaces [prog<i>], if any,
    as a function of the packet.  A shift by more than 31 is not defined. *)
Section Dispatcher.
Context {ctx : Type}.

Definition prog_slot (f : option (ctx -> Z)) (c : ctx) : Z :=
  match f with Some f => f c | None => XDP_DISPATCHER_RETVAL end.

Fixpoint dispatch_from (conf : xdp_dispatcher_config) (fs : list (option (ctx -> Z))) (c : ctx) (k i : nat) :
    option Z :=
  match k with
  | O => Some XDP_PASS
  | S k' =>
    if num_progs_enabled conf <? Z.of_nat i + 1 then Some XDP_PASS else
    let ret := prog_slot (mjoin (fs !! i)) c in
    if negb ((0 <=? ret) && (ret <? 32)) then None else
    actions ← call_actions conf !! i;
    if c_true (Z.land (Z.shiftl 1 ret) actions) then dispatch_from conf fs c k' (S i) else Some ret
  end.

Definition xdp_dispatcher (conf : xdp_dispatcher_config) (fs : list (option (ctx -> Z))) (c : ctx) : option Z :=
  dispatch_from conf fs c MAX_DISPATCHER_ACTIONS 0.

(** The loaded program, with functions of it replaced by name. *)
Definition replaced (fs : list (list byte * (ctx -> Z))) (name : list byte) : option (ctx -> Z) :=
  snd <$> List.find (fun x => bool_decide (fst x = name)) fs.

Definition run_replaced (conf : xdp_dispatcher_config) (fs : list (list byte * (ctx -> Z))) (c : ctx) : option Z :=
  match replaced fs (str "xdp_dispatcher") with
  | Some f => Some (f c)
  | None => xdp_dispatcher conf (map (fun i => replaced fs (slot_name i)) (seq 0 MAX_DISPATCHER_ACTIONS)) c
  end.

End Dispatcher.

(** ** What a dispatcher does *)

Section Chain.
Context {ctx : Type} (f : xdp_program -> ctx -> Z).

(** The programs in order, up to the first whose verdict is not one of its chain
    call actions; when all have been called, the packet passes. *)
Fixpoint run_chain (ps : list xdp_program) (c : ctx) : Z :=
  match ps with
  | [] => XDP_PASS
  | p :: ps' => if xdp_program__chain_call_enabled (Some p) (f p c) then run_chain ps' c else f p c
  end.

Lemma lookup_slots l (i : nat) x : l !! i = Some x -> slots l !! i = Some x.
Proof. intros H. unfold slots. by apply lookup_app_l_Some. Qed.

Lemma dispatch_from_chain frags all c ps : forall pre, all = pre ++ ps ->
  (length all <= MAX_DISPATCHER_ACTIONS)%nat -> Forall (fun p => 0 <= f p c < 31) ps ->
  dispatch_from (dispatcher_config frags all) (map (fun p => Some (f p)) all) c
    (MAX_DISPATCHER_ACTIONS - length pre) (length pre) = Some (run_chain ps c).
Proof.
  assert (forall n, (n <= MAX_DISPATCHER_ACTIONS)%nat -> u8 (Z.of_nat n) = Z.of_nat n) as Hu.
  { intros n Hn. unfold MAX_DISPATCHER_ACTIONS in Hn. apply u8_id. lia. }
  induction ps as [| p ps IH]; intros pre -> Hlen Hf.
  - destruct (MAX_DISPATCHER_ACTIONS - _)%nat; [done |]. cbn [dispatch_from num_progs_enabled dispatcher_config].
    rewrite app_nil_r in *. unfold zlen. rewrite Hu by done. by rewrite (proj2 (Z.ltb_lt _ _)) by lia.
  - rewrite length_app in Hlen. simpl in Hlen. apply Forall_cons in Hf as [Hp Hf].
    destruct (MAX_DISPATCHER_ACTIONS - length pre)%nat as [| k] eqn:Ek; [lia |].
    cbn [dispatch_from num_progs_enabled dispatcher_config call_actions]. unfold zlen. rewrite length_app.
    cbn [length]. rewrite Hu by lia. rewrite (proj2 (Z.ltb_ge _ _)) by lia.
    rewrite (lookup_slots _ _ (Z.lor (chain_call_actions p) (Z.shiftl 1 XDP_DISPATCHER_RETVAL)))
      by (rewrite list_lookup_fmap, list_lookup_middle by done; done).
    rewrite list_lookup_fmap, list_lookup_middle by done. cbn [fmap option_fmap option_map mjoin option_join prog_slot mbind option_bind].
    replace ((0 <=? f p c) && (f p c <? 32)) with true by lia. cbn [negb run_chain].
    rewrite Z.land_comm, (Z.shiftl_1_l (f p c)), land_pow2_testbit, Z.lor_spec, Z.shiftl_1_l, Z.pow2_bits_eqb by (done || lia).
    rewrite (proj2 (Z.eqb_neq XDP_DISPATCHER_RETVAL (f p c))), orb_false_r by (unfold XDP_DISPATCHER_RETVAL; lia).
    rewrite chain_call_testbit by done. destruct (Z.testbit _ _) eqn:Et; [| done].
    pose proof (Z.pow_pos_nonneg 2 (f p c)). unfold c_true. rewrite (proj2 (Z.eqb_neq (2 ^ f p c) 0)) by lia. cbn [negb].
    specialize (IH (pre ++ [p])). rewrite !length_app in IH. cbn [length] in IH.
    replace (MAX_DISPATCHER_ACTIONS - (length pre + 1))%nat with k in IH by lia.
    replace (length pre + 1)%nat with (S (length pre)) in IH by lia.
    apply IH; [by rewrite <- app_assoc | done | done].
Qed.

Lemma dispatch_from_ext conf (fs fs' : list (option (ctx -> Z))) c : (forall i, mjoin (fs !! i) = mjoin (fs' !! i)) ->
  forall k i, dispatch_from conf fs c k i = dispatch_from conf fs' c k i.
Proof. intros E. induction k as [| k IH]; intros i; cbn [dispatch_from]; [done |]. rewrite E. destruct (call_actions conf !! i); cbn; by rewrite ?IH. Qed.

Lemma slot_name_inj i j : (i < 100)%nat -> (j < 100)%nat -> slot_name i = slot_name j -> i = j.
Proof. intros Hi Hj [= E]. apply fmt_u_inj in E; lia. Qed.

Lemma replaced_slot ps k i : (k + length ps < 100)%nat -> (i < 100)%nat ->
  replaced (imap (fun j p => (slot_name (k + j), f p)) ps) (slot_name i) =
    if (k <=? i)%nat then f <$> ps !! (i - k)%nat else None.
Proof.
  revert k. induction ps as [| p ps IH]; intros k Hk Hi.
  { unfold replaced. cbn. by destruct (k <=? i)%nat. }
  cbn [length] in Hk. unfold replaced. cbn [imap List.find fst]. rewrite Nat.add_0_r. case_bool_decide as E.
  - apply slot_name_inj in E as ->; [| lia..]. rewrite Nat.leb_refl, Nat.sub_diag. done.
  - assert (k <> i) by (by intros ->). specialize (IH (S k) ltac:(lia) Hi). unfold replaced in IH.
    etrans; [| etrans; [exact IH |]].
    + do 2 f_equal. apply imap_ext. intros j x _. unfold compose. by rewrite Nat.add_succ_r.
    + destruct (Nat.leb_spec (S k) i), (Nat.leb_spec k i); try lia; [| done].
      by replace (i - k)%nat with (S (i - S k)) by lia.
Qed.

Lemma replaced_None (fs : list (list byte * (ctx -> Z))) name : (forall x, x ∈ fs -> fst x <> name) -> replaced fs name = None.
Proof.
  unfold replaced. induction fs as [| x fs IH]; intros H; cbn [List.find]; [done |].
  rewrite bool_decide_eq_false_2 by (apply H; set_solver). apply IH. set_solver.
Qed.

(** C30: what happens to a packet on an interface with a dispatcher.  For the
    configuration made for a list of at most ten programs, whose verdicts are
    XDP actions, and with each program in place of the function it is linked
    to: the programs run in the order of the list as long as each returns one
    of its chain call actions; the first other verdict is the packet's, and a
    packet no program decides on passes.  The slots that are not used play no
    role.  A program that is alone replaces the whole dispatcher: its verdict
    is the packet's, whatever its chain call actions are. *)
Theorem dispatcher_runs_chain frags ps c :
  (length ps <= MAX_DISPATCHER_ACTIONS)%nat -> Forall (fun p => 0 <= f p c < 31) ps ->
  let conf := dispatcher_config frags ps in
  run_replaced conf (imap (fun i p => (attach_func conf i, f p)) ps) c =
    Some (match ps with [p] => f p c | _ => run_chain ps c end).
Proof.
  intros Hlen Hf conf. unfold MAX_DISPATCHER_ACTIONS in Hlen.
  assert (num_progs_enabled conf = zlen ps) as Hn by (apply u8_id; unfold zlen; lia).
  destruct (decide (length ps = 1%nat)) as [E | E].
  { destruct ps as [| p [| q ps]]; done. }
  assert (imap (fun i p => (attach_func conf i, f p)) ps = imap (fun i p => (slot_name (0 + i), f p)) ps) as ->.
  { apply imap_ext. intros i p _. unfold attach_func. rewrite Hn, (proj2 (Z.eqb_neq _ _)) by (unfold zlen; lia). done. }
  unfold run_replaced. assert (replaced (imap (fun i p => (slot_name (0 + i), f p)) ps) (str "xdp_dispatcher") = None) as ->.
  { apply replaced_None. intros x (i & p & -> & _)%elem_of_lookup_imap. done. }
  unfold xdp_dispatcher. rewrite (dispatch_from_ext _ _ (map (fun p => Some (f p)) ps)).
  - etrans; [exact (dispatch_from_chain frags ps c ps [] eq_refl Hlen Hf) |]. by destruct ps as [| p [| q ps]].
  - intros i. rewrite !list_lookup_fmap. destruct (decide (i < 10)%nat) as [Hi | Hi].
    + rewrite lookup_seq_lt by done. cbn [fmap option_fmap option_map mjoin option_join].
      rewrite replaced_slot by lia. cbn [Nat.leb]. rewrite Nat.sub_0_r, Nat.add_0_l. by destruct (ps !! i).
    + rewrite lookup_seq_ge, (lookup_ge_None_2 ps) by (unfold MAX_DISPATCHER_ACTIONS; lia). done.
Qed.

End Chain.

Lemma dispatcher_runs_chain_witness :
  let p1 := xdp_program__new {{ prog_id := 1 }} in
  let p2 := xdp_program__new {{ prog_id := 2; chain_call_actions := Z.shiftl 1 XDP_DROP }} in
  let f p (c : Z) := if prog_id p =? 1 then XDP_PASS else c in
  let run ps := let conf := dispatcher_config true ps in run_replaced conf (imap (fun i p => (attach_func conf i, f p)) ps) in
  run [p1; p2] XDP_DROP = Some XDP_PASS /\ run [p2] XDP_DROP = Some XDP_DROP.
Proof.
  intros p1 p2 f run. unfold run.
  split; rewrite (dispatcher_runs_chain f); [reflexivity | simpl; unfold MAX_DISPATCHER_ACTIONS; lia | by repeat constructor
    | reflexivity | simpl; unfold MAX_DISPATCHER_ACTIONS; lia | by repeat constructor].
Defined.

(** ** What is generated *)

(** What libbpf and the kernel document: an error is not 0, and type
    identifiers are not either. *)
Record link_env_ok (e : link_env) : Prop := {
  lo_btf_id f : le_btf_id e f <> 0;
  lo_load err : le_load e = inl err -> err <> 0;
  lo_clone err : le_clone e = inl err -> err <> 0;
  lo_link errno : le_link_create e = inl errno -> 0 < errno;
  lo_raw errno : le_raw_tp e = inl errno -> 0 < errno
}.

(** The C library's [qsort], given a comparison that is a total preorder on
    the elements. *)
Definition qsort_ok (qsort : (xdp_program -> xdp_program -> Z) -> list xdp_program -> list xdp_program) : Prop :=
  forall P cmp l, order_on P cmp -> Forall P l ->
    qsort cmp l ≡ₚ l /\ StronglySorted (fun a b => cmp a b <= 0) (qsort cmp l).

(** Two dispatchers that differ at most in the programs linked so far. *)
Definition same_dispatcher (mp mp' : xdp_multiprog) : Prop :=
  mp_config mp' = mp_config mp /\ main_prog mp' = main_prog mp /\ mp_ifindex mp' = mp_ifindex mp /\
  is_loaded mp' = is_loaded mp.

Definition linked (e : link_env) (mp mp' : xdp_multiprog) : Prop :=
  same_dispatcher mp mp' /\ num_links mp' = num_links mp + 1 /\
  exists q lfd, le_clone e = inr q /\ first_prog mp' = first_prog mp ++
    [q {{ attach_name := Some (str "prog" ++ fmt_u (num_links mp)); link_fd := lfd }}].

Lemma link_clone_spec e mp wl prog err mp' prog' : link_env_ok e ->
  link_clone e mp wl prog = (err, mp', prog') -> (err = 0 /\ linked e mp mp') \/ (err <> 0 /\ mp' = mp).
Proof.
  intros [_ _ Hclone Hlink Hraw]. unfold link_clone.
  destruct (le_clone e) as [ec | q] eqn:Ec; [intros [= <- <- <-]; right; by eauto |].
  assert (forall x, link_attach e wl = inl x -> x <> 0) as Ha.
  { intros x. unfold link_attach. destruct (le_link_create e) as [n |]; [| done]. specialize (Hlink n eq_refl).
    assert (forall y, y <> 0 -> (if y =? - EPERM then - EOPNOTSUPP else y) <> 0) as Hf
      by (intros y Hy; by destruct (y =? _)).
    destruct (- n =? - EINVAL); [| intros [= <-]; apply Hf; lia].
    destruct wl; cbn [negb]; [| intros [= <-]; done].
    destruct (le_raw_tp e) as [k |]; [| done]. specialize (Hraw k eq_refl). intros [= <-]. apply Hf. lia. }
  destruct (link_attach e wl) as [x | lfd]; [intros [= <- <- <-]; right; by eauto |].
  destruct (le_strdup e); cbn [negb]; [| intros [= <- <- <-]; by right].
  intros [= <- <- <-]. left. split; [done |]. destruct mp. unfold linked, same_dispatcher. cbn.
  split_and!; [done.. | by exists q, lfd].
Qed.

(** Linking either adds the program's clone, in the next slot, or fails and
    changes nothing. *)
Lemma link_prog_spec e mp prog err mp' prog' : link_env_ok e ->
  xdp_multiprog__link_prog e mp prog = (err, mp', prog') ->
  (err = 0 /\ linked e mp mp') \/ (err <> 0 /\ mp' = mp).
Proof.
  intros He. unfold xdp_multiprog__link_prog.
  destruct (negb (is_loaded mp) || _); [intros [= <- <- <-]; by right |].
  destruct (Z.eqb_spec (le_compat e) 0); cbn [negb]; [| intros [= <- <- <-]; by right].
  destruct (bool_decide _); cbn [negb]; [| intros [= <- <- <-]; by right].
  destruct (le_btf_id e _ <=? 0); [intros [= <- <- <-]; right; split; [apply (lo_btf_id e He) | done] |].
  destruct (prog_fd prog <? 0); [| by apply link_clone_spec].
  set (func := attach_func _ _). destruct (Z.eqb_spec (le_set_target e func) 0); cbn [negb]; [| intros [= <- <- <-]; by right].
  destruct (le_load e) as [x | [fd id]] eqn:El; [| by apply link_clone_spec].
  intros [= <- <- <-]. right. split; [| done]. apply (lo_load e He) in El. by destruct (x =? _).
Qed.

Lemma link_progs_spec link ps : (forall i, link_env_ok (link i)) -> forall i mp mp',
  num_links mp = Z.of_nat i -> link_progs link i ps mp = (0, mp') ->
  same_dispatcher mp mp' /\ num_links mp' = num_links mp + zlen ps /\
  exists qs, first_prog mp' = first_prog mp ++ qs /\
    attach_name <$> qs = Some <$> (slot_name <$> seq i (length ps)) /\
    prog_id <$> qs = (fun j => match le_clone (link j) with inr q => prog_id q | inl _ => 0 end) <$> seq i (length ps).
Proof.
  intros Hl. induction ps as [| p ps IH]; intros i mp mp' Hi; cbn [link_progs].
  { intros [= <-]. split; [done |]. split; [by rewrite zlen_nil, Z.add_0_r |]. exists []. by rewrite app_nil_r. }
  destruct (xdp_multiprog__link_prog _ _ _) as [[err mp1] p1] eqn:E.
  apply link_prog_spec in E as [[-> (HS & HN & q & lfd & Eq & HF)] | [Herr ->]]; [| | done].
  2: { rewrite (proj2 (Z.eqb_neq err 0)) by done. by intros [= ? _]. }
  cbn [Z.eqb negb]. intros E'. destruct (IH (S i) mp1 mp') as (HS' & HN' & qs & HF' & HA & HI); [lia | done |].
  destruct HS as (? & ? & ? & ?), HS' as (? & ? & ? & ?). split; [split_and!; congruence |].
  split; [rewrite zlen_cons; lia |]. eexists (_ :: qs). split; [by rewrite HF', HF, <- app_assoc |].
  cbn [length seq fmap list_fmap]. rewrite HA, HI, Eq. unfold slot_name at 1. rewrite Hi. by destruct q.
Qed.

(** The programs that are to run: those of the old dispatcher and the new
    ones, or the old ones without those removed. *)
Definition wanted (old : option xdp_multiprog) (progs : list xdp_program) (remove : bool) : list xdp_program :=
  let l := match old with Some old => first_prog old | None => [] end in
  if remove then filter (fun p => existsb (fun r => prog_id r =? prog_id p) progs = false) l else l ++ progs.

(** The number of links is the length of the list of programs. *)
Definition multiprog_ok (old : option xdp_multiprog) : Prop :=
  match old with Some old => num_links old = zlen (first_prog old) | None => True end.

Definition links (old : option xdp_multiprog) : Z := match old with Some old => num_links old | None => 0 end.

Lemma keep_progs_spec progs n old : forall i,
  let kept := filter (fun p => existsb (fun r => prog_id r =? prog_id p) progs = false) old in
  keep_progs old progs n i = if decide (i + zlen kept <= n \/ kept = []) then inr kept else inl (- EINVAL).
Proof.
  induction old as [| p old IH]; intros i kept; cbn [keep_progs]; [by rewrite decide_True by (by right) |].
  unfold kept. rewrite filter_cons. destruct (existsb _ progs) eqn:E.
  - rewrite !(decide_False (P := true = false)) by done. apply IH.
  - rewrite !(decide_True (P := false = false)) by done. specialize (IH (i + 1)). cbv zeta in IH. rewrite IH. clear IH kept.
    set (kept := filter _ old). rewrite zlen_cons. pose proof (zlen_nonneg kept).
    destruct (Z.leb_spec n i); [by rewrite decide_False by (intros [? | ?]; [lia | done]) |].
    destruct (decide (i + 1 + zlen kept <= n \/ kept = [])) as [Hd | Hd].
    + rewrite decide_True; [done |]. left. destruct Hd as [? | ->]; [lia | rewrite zlen_nil; lia].
    + rewrite decide_False; [done |]. intros [? | ?]; [| done]. apply Hd. left. lia.
Qed.

(** The array the programs are collected in, when it is filled exactly. *)
Lemma array_wanted old progs remove (n : nat) :
  multiprog_ok (Some old) -> zlen (wanted (Some old) progs remove) = Z.of_nat n ->
  (if remove then match removed_progs (first_prog old) progs n with inl _ => None | inr l => Some l end
   else fill_progs (first_prog old) progs n) = Some (Some <$> wanted (Some old) progs remove).
Proof.
  intros Hok Hn. destruct remove; unfold wanted in *.
  - unfold removed_progs. rewrite keep_progs_spec. set (kept := filter _ _) in *.
    rewrite decide_True by (left; lia). f_equal. replace (n - length kept)%nat with 0%nat by (unfold zlen in Hn; lia).
    by rewrite app_nil_r.
  - unfold fill_progs. unfold zlen in Hn. rewrite length_app in Hn.
    rewrite (proj2 (Nat.ltb_ge _ _)), (proj2 (Nat.ltb_ge _ _)) by lia. cbn [orb].
    rewrite take_ge by lia. done.
Qed.

Lemma mapM_id_Some (l : list xdp_program) : mapM id (Some <$> l) = Some l.
Proof. induction l as [| x l IH]; [done |]. cbn [fmap list_fmap mapM id mbind option_bind]. by rewrite IH. Qed.

Section GenerateSpec.
Context (qsort : (xdp_program -> xdp_program -> Z) -> list xdp_program -> list xdp_program).
Context (Hq : qsort_ok qsort).

(** What a dispatcher for the programs [want] is: its configuration is that of
    a sorted permutation of them, with one linked program per slot. *)
Definition dispatches (e : gen_env) (want : list xdp_program) (ifindex : Z) (mp : xdp_multiprog) : Prop :=
  exists ps, ps ≡ₚ want /\ StronglySorted (fun a b => cmp_xdp_programs a b <= 0) ps /\
    mp_config mp = dispatcher_config (ge_frags e) ps /\ mp_ifindex mp = ifindex /\ is_loaded mp = true /\
    num_links mp = zlen (first_prog mp) /\
    attach_name <$> first_prog mp = Some <$> (slot_name <$> seq 0 (length ps)) /\
    prog_id <$> first_prog mp =
      (fun j => match le_clone (ge_link e j) with inr q => prog_id q | inl _ => 0 end) <$> seq 0 (length ps).

Lemma sorted_want kind want : Forall (cmp_ok kind) want ->
  exists ps, ps ≡ₚ want /\ StronglySorted (fun a b => cmp_xdp_programs a b <= 0) ps /\
    (if (1 <? length (Some <$> want))%nat
     then ps ← mapM id (Some <$> want); Some (Some <$> qsort cmp_xdp_programs ps)
     else Some (Some <$> want)) = Some (Some <$> ps).
Proof.
  intros Hw. rewrite length_fmap, mapM_id_Some. cbn [mbind option_bind].
  destruct (Hq (cmp_ok kind) cmp_xdp_programs want (cmp_order kind) Hw) as [HP HS].
  destruct (Nat.ltb_spec 1 (length want)); [by exists (qsort cmp_xdp_programs want) |].
  exists want. split; [done |]. split; [| done]. destruct want as [| x [| y l]]; [constructor | | simpl in *; lia].
  repeat constructor.
Qed.

Lemma load_spec e mp mp' : xdp_multiprog__load e mp = (0, mp') ->
  mp_config mp' = mp_config mp /\ mp_ifindex mp' = mp_ifindex mp /\ first_prog mp' = first_prog mp /\
  num_links mp' = num_links mp /\ is_loaded mp' = true.
Proof.
  unfold xdp_multiprog__load. destruct (main_prog mp); [| done]. destruct (is_loaded mp || is_legacy mp); [done |].
  destruct (ge_load e) as [| []]; [done |]. intros [= <-]. by destruct mp.
Qed.

Lemma generate_from_spec e alloc ifindex mp want kind : (forall i, link_env_ok (ge_link e i)) ->
  xdp_multiprog__new alloc ifindex = Some mp -> Forall (cmp_ok kind) want ->
  exists r, generate_from qsort e mp (Some <$> want) = Some r /\
    forall mp', r = inr mp' -> dispatches e want ifindex mp'.
Proof.
  intros He Hnew Hw. destruct (sorted_want kind want Hw) as (ps & HP & HS & E). unfold generate_from. rewrite E.
  cbn [mbind option_bind]. rewrite mapM_id_Some. cbn [mbind option_bind].
  destruct (ge_dispatcher e) as [err | dispatcher]; [by eexists |].
  destruct (ge_map e); cbn [negb]; [| by eexists].
  destruct (ge_set_value e =? 0); cbn [negb]; [| by eexists].
  unfold xdp_multiprog__new in Hnew. destruct alloc; [| done]. injection Hnew as <-.
  match goal with |- context [xdp_multiprog__load e ?m] => set (mp0 := m) end.
  destruct (xdp_multiprog__load e mp0) as [err mp1] eqn:Eload.
  destruct (Z.eqb_spec err 0) as [-> |]; cbn [negb]; [| by eexists].
  apply load_spec in Eload as (Lc & Li & Lf & Ln & Ll).
  destruct (link_progs (ge_link e) 0 ps mp1) as [err mp2] eqn:El. eexists. split; [done |]. intros mp'.
  destruct (Z.eqb_spec err 0) as [-> |]; cbn [negb]; [| done]. intros [= <-].
  destruct (link_progs_spec _ ps He 0 mp1 mp2 Ln El) as (HSame & HN & qs & HF & HA & HI).
  rewrite Lf in HF. simpl in HF.
  destruct HSame as (Hc & _ & Hi & Hl). exists ps. rewrite HF, Hc, Hi, Hl. split_and!; try done.
  rewrite HN, Ln. assert (length qs = length ps) as Hlen.
  { apply (f_equal length) in HA. by rewrite !length_fmap, length_seq in HA. }
  unfold zlen. rewrite Hlen. done.
Qed.
(** Generating a dispatcher.  Asked to add programs to what a dispatcher
    runs, or to remove some that it runs, with as many entries going as are asked
    for, [xdp_multiprog__generate] returns, and a dispatcher it returns has at
    most ten programs, which are exactly the wanted ones, sorted by
    [cmp_xdp_programs]; its configuration is theirs, and each of them is linked
    in the slot of its position. *)
Theorem generate_spec e progs ifindex old remove kind :
  let want := wanted old progs remove in
  (forall i, link_env_ok (ge_link e i)) -> progs <> [] -> (remove = true -> is_Some old) -> multiprog_ok old ->
  (remove = true -> zlen want = links old - zlen progs) -> links old + zlen progs < 2 ^ 64 ->
  Forall (cmp_ok kind) want ->
  exists r, xdp_multiprog__generate qsort e progs ifindex old remove = Some r /\
    forall mp, r = inr mp -> zlen want <= Z.of_nat MAX_DISPATCHER_ACTIONS /\ dispatches e want ifindex mp.
Proof.
  intros want He Hne Hrem Hok Hlen Hb Hw. unfold xdp_multiprog__generate.
  rewrite (proj2 (Nat.eqb_neq (length progs) 0)) by (by destruct progs). cbn [orb].
  replace (negb (bool_decide (is_Some old)) && remove) with false
    by (destruct remove; [rewrite bool_decide_true by (by apply Hrem) |]; by rewrite ?andb_false_r).
  assert (zlen want = links old + (if remove then - zlen progs else zlen progs)) as Hz.
  { destruct remove; [by apply Hlen |]. unfold want, wanted, links. destruct old as [old |]; simpl in Hok.
    - rewrite zlen_app. lia.
    - done. }
  fold (links old). rewrite <- Hz. pose proof (zlen_nonneg want). pose proof (zlen_nonneg progs).
  assert (zlen want < 2 ^ 64) as Hwb by (destruct remove; lia). rewrite u64_id by lia.
  destruct (Z.ltb_spec (Z.of_nat MAX_DISPATCHER_ACTIONS) (zlen want)); [by eexists |].
  destruct (xdp_multiprog__new (ge_alloc e) ifindex) as [mp |] eqn:Enew; [| by eexists].
  assert (exists r, generate_from qsort e mp (Some <$> want) = Some r /\
    forall mp, r = inr mp -> zlen want <= Z.of_nat MAX_DISPATCHER_ACTIONS /\ dispatches e want ifindex mp) as HG.
  { destruct (generate_from_spec e _ ifindex mp want kind He Enew Hw) as (r & E & Hr). exists r. split; [done |].
    intros mp' ->. split; [done | by apply Hr]. }
  destruct old as [old |].
  - destruct (is_legacy old); [by eexists |]. destruct (version old <? version mp); [by eexists |].
    destruct (ge_calloc e); cbn [negb]; [| by eexists].
    pose proof (array_wanted old progs remove (Z.to_nat (zlen want)) Hok) as HA. fold want in HA.
    specialize (HA ltac:(lia)). destruct remove.
    + destruct (removed_progs _ _ _); [done |]. injection HA as ->. exact HG.
    + rewrite HA. exact HG.
  - destruct remove; [destruct (Hrem eq_refl); done |]. exact HG.
Qed.

(** A dispatcher that runs one program twice: removing it leaves fewer
    programs than the array has entries, and the entries that stay null are
    dereferenced. *)
Lemma generate_duplicate_null e progs ifindex old :
  progs <> [] -> ge_alloc e = true -> ge_calloc e = true -> is_legacy old = false -> version old = XDP_DISPATCHER_VERSION ->
  1 < links (Some old) - zlen progs <= Z.of_nat MAX_DISPATCHER_ACTIONS ->
  zlen (wanted (Some old) progs true) < links (Some old) - zlen progs ->
  xdp_multiprog__generate qsort e progs ifindex (Some old) true = None.
Proof.
  intros Hne Ha Hc Hl Hv Hn Hlt. unfold xdp_multiprog__generate.
  rewrite (proj2 (Nat.eqb_neq (length progs) 0)) by (by destruct progs). cbn [orb].
  rewrite bool_decide_true by done. cbn [negb andb]. change (num_links old) with (links (Some old)).
  replace (links (Some old) + - zlen progs) with (links (Some old) - zlen progs) by lia.
  set (n := links (Some old) - zlen progs) in *. unfold MAX_DISPATCHER_ACTIONS in *. rewrite u64_id by lia.
  rewrite (proj2 (Z.ltb_ge _ n)) by lia. unfold xdp_multiprog__new. rewrite Ha, Hl, Hv, Hc. cbn [version negb].
  rewrite Z.ltb_irrefl. unfold removed_progs. rewrite keep_progs_spec. unfold wanted in Hlt. cbn in Hlt.
  set (kept := filter _ _) in *. rewrite decide_True by (left; lia). unfold generate_from.
  rewrite length_app, length_fmap, length_replicate. rewrite (proj2 (Nat.ltb_lt 1 _)) by (unfold zlen in *; lia).
  assert (mapM id ((Some <$> kept) ++ replicate (Z.to_nat n - length kept) None) = None) as ->; [| done].
  assert (0 < Z.to_nat n - length kept)%nat as Hpos by (unfold zlen in *; lia).
  apply mapM_None, Exists_app. right. destruct (Z.to_nat n - length kept)%nat; [lia |]. by left.
Qed.
End GenerateSpec.

(** ** A concrete sort and a concrete kernel *)

Fixpoint insert_sorted (cmp : xdp_program -> xdp_program -> Z) (x : xdp_program) (l : list xdp_program) : list xdp_program :=
  match l with
  | [] => [x]
  | y :: l' => if cmp x y <=? 0 then x :: l else y :: insert_sorted cmp x l'
  end.
Definition isort (cmp : xdp_program -> xdp_program -> Z) (l : list xdp_program) : list xdp_program :=
  foldr (insert_sorted cmp) [] l.

Lemma insert_sorted_perm cmp x l : insert_sorted cmp x l ≡ₚ x :: l.
Proof.
  induction l as [| y l IH]; simpl; [done |]. destruct (cmp x y <=? 0); [done |]. rewrite IH. apply Permutation_swap.
Qed.

Lemma isort_ok : qsort_ok isort.
Proof.
  intros P cmp l [HS HT] HP. induction HP as [| x l Hx HPl IH]; [split; [done | constructor] |].
  destruct IH as [IHp IHs]. cbn [isort foldr]. fold (isort cmp l). split; [by rewrite insert_sorted_perm, IHp |].
  assert (Forall P (isort cmp l)) as HPi by (by rewrite IHp). clear IHp HPl.
  induction IHs as [| y l' Hsl IH Hy]; cbn [insert_sorted]; [by repeat constructor |].
  apply Forall_cons in HPi as [Py HPi]. specialize (HS x y Hx Py). destruct (Z.leb_spec (cmp x y) 0) as [Hle | Hgt].
  - constructor; [by constructor |]. constructor; [done |]. rewrite Forall_forall in Hy |- *. intros z Hz.
    rewrite Forall_forall in HPi. apply (HT x y z); auto.
  - constructor; [by apply IH |]. rewrite insert_sorted_perm. constructor; [lia | done].
Qed.

Definition sample_link (i : nat) : link_env :=
  {| le_compat := 0; le_btf_id := fun _ => 1; le_set_target := fun _ => 0; le_load := inr (20 + Z.of_nat i, 7);
     le_clone := inr (xdp_program__new {{ prog_id := 5 + Z.of_nat i; prog_fd := 30 + Z.of_nat i }});
     le_link_create := inr (40 + Z.of_nat i); le_raw_tp := inl 22; le_strdup := true |}.

Definition sample_gen : gen_env :=
  {| ge_alloc := true; ge_frags := false; ge_calloc := true; ge_dispatcher := inr xdp_program__new;
     ge_map := true; ge_set_value := 0; ge_set_flags := 0; ge_load := inr (9, 3); ge_link := sample_link |}.

Definition sample_prog (prio id : Z) : xdp_program :=
  xdp_program__new {{ prog_btf := Some []; prog_name := str "xdp_prog"; run_prio := prio; prog_id := id; prog_fd := 10 }}.

Definition sample_old : xdp_multiprog :=
  {| mp_config := dispatcher_config false [sample_prog 50 5]; main_prog := Some xdp_program__new;
     first_prog := [sample_prog 50 5]; hw_prog := None; version := 2; num_links := 1; is_loaded := true;
     is_legacy := false; kernel_frags_support := false; mp_attach_mode := 2; mp_ifindex := 2 |}.

(** A program of priority 10 goes in front of the one of priority 50. *)
Lemma generate_spec_witness :
  exists mp, xdp_multiprog__generate isort sample_gen [sample_prog 10 6] 2 (Some sample_old) false = Some (inr mp) /\
    dispatches sample_gen [sample_prog 50 5; sample_prog 10 6] 2 mp /\
    take 2 (run_prios (mp_config mp)) = [10; 50].
Proof.
  destruct (generate_spec isort isort_ok sample_gen [sample_prog 10 6] 2 (Some sample_old) false (fun _ => false))
    as (r & E & Hr); try done.
  - intros i. split; simpl; try done. intros n [= <-]. lia.
  - repeat constructor; simpl; try done; apply (bool_decide_unpack _); vm_compute; done.
  - destruct r as [err | mp]; [apply (f_equal (fun o => match o with Some (inl _) => 0 | _ => 1 end)) in E; vm_compute in E; discriminate |].
    exists mp. split; [exact E |]. split; [exact (proj2 (Hr mp eq_refl)) |].
    apply (f_equal (fun o => match o with Some (inr m) => take 2 (run_prios (mp_config m)) | _ => [] end)) in E.
    cbv beta iota in E. rewrite <- E. vm_compute. reflexivity.
Defined.
