(* ===== verification/XdpPin.v ===== *)
(** The dispatchers' state in the BPF file system:
    src/lib/xdp-tools/lib/libxdp/libxdp.c, [xdp_multiprog__pin],
    [xdp_multiprog__unpin] and [xdp_multiprog__link_pinned_progs].

    A file is named by its directory and its name in it; it refers to a kernel
    object.  Every call may fail ([fault]), besides failing the way the file
    system makes it fail.  The lock around the functions, and the directory of
    libxdp, are answers of their callees. *)
From S2P Require Import Prelude.
From S2P Require Import CLib.
From S2P Require Import XdpStats.
From S2P Require Import XdpProgram.
From S2P Require Import XdpDispatch.

Definition PATH_MAX : Z := 4096.

(** ** The file system *)

Record bpffs := { dirs : gset (list byte); files : gmap (list byte * list byte) Z }.

Inductive fs_op := Mkdir | Rmdir | Pin | Unlink | Stat | Get.

Section Calls.
Context (fault : fs_op -> list byte -> option Z).

(** Each call returns an error number, 0 for success. *)
Definition mkdir (d : list byte) (fs : bpffs) : Z * bpffs :=
  match fault Mkdir d with
  | Some errno => (errno, fs)
  | None => if decide (d ∈ dirs fs) then (EEXIST, fs) else (0, {| dirs := {[ d ]} ∪ dirs fs; files := files fs |})
  end.

Definition rmdir (d : list byte) (fs : bpffs) : Z * bpffs :=
  match fault Rmdir d with
  | Some errno => (errno, fs)
  | None =>
    if decide (d ∉ dirs fs) then (ENOENT, fs) else
    if decide (map_Exists (fun k _ => fst k = d) (files fs)) then (ENOTEMPTY, fs)
    else (0, {| dirs := dirs fs ∖ {[ d ]}; files := files fs |})
  end.

Definition bpf_obj_pin (obj : Z) (d f : list byte) (fs : bpffs) : Z * bpffs :=
  match fault Pin f with
  | Some errno => (errno, fs)
  | None =>
    if decide (d ∉ dirs fs) then (ENOENT, fs) else
    if decide (is_Some (files fs !! (d, f))) then (EEXIST, fs)
    else (0, {| dirs := dirs fs; files := <[(d, f) := obj]> (files fs) |})
  end.

Definition unlink (d f : list byte) (fs : bpffs) : Z * bpffs :=
  match fault Unlink f with
  | Some errno => (errno, fs)
  | None =>
    if decide (is_Some (files fs !! (d, f)))
    then (0, {| dirs := dirs fs; files := delete (d, f) (files fs) |}) else (ENOENT, fs)
  end.

Definition stat (d : list byte) (fs : bpffs) : Z :=
  match fault Stat d with
  | Some errno => errno
  | None => if decide (d ∈ dirs fs) then 0 else ENOENT
  end.

(** An error number, or the object. *)
Definition bpf_obj_get (d f : list byte) (fs : bpffs) : Z + Z :=
  match fault Get f with
  | Some errno => inl errno
  | None => match files fs !! (d, f) with Some obj => inr obj | None => inl ENOENT end
  end.

(** ** Paths *)

(** [try_snprintf] of a directory, into [PATH_MAX] bytes. *)
Definition try_snprintf (s : list byte) : Z := if PATH_MAX <=? zlen s then - ENAMETOOLONG else 0.

Definition dispatch_dir (bpffs_dir : list byte) (ifindex id : Z) : list byte :=
  bpffs_dir ++ str "/dispatch-" ++ fmt_d ifindex ++ str "-" ++ fmt_d (s32 id).

Definition link_file (p : xdp_program) : list byte := fmt_s_opt (attach_name p) ++ str "-link".
Definition prog_file (p : xdp_program) : list byte := fmt_s_opt (attach_name p) ++ str "-prog".
Definition in_dir (d f : list byte) : list byte := d ++ str "/" ++ f.

(** ** Pinning *)

(** The object behind a descriptor. *)
Context (obj_of : Z -> Z).

(** One turn of the loop: a negative error, or 0. *)
Definition pin_prog (d : list byte) (p : xdp_program) (fs : bpffs) : Z * bpffs :=
  if link_fd p <? 0 then (- EINVAL, fs) else
  let err := try_snprintf (in_dir d (link_file p)) in
  if negb (err =? 0) then (err, fs) else
  let '(errno, fs) := bpf_obj_pin (obj_of (link_fd p)) d (link_file p) fs in
  if negb (errno =? 0) then (- errno, fs) else
  let err := try_snprintf (in_dir d (prog_file p)) in
  if negb (err =? 0) then (err, fs) else
  let '(errno, fs) := bpf_obj_pin (obj_of (prog_fd p)) d (prog_file p) fs in
  if negb (errno =? 0) then (- errno, fs) else (0, fs).

(** The loop; [err] is the value the variable has before. *)
Fixpoint pin_progs (d : list byte) (ps : list xdp_program) (err : Z) (fs : bpffs) : Z * bpffs :=
  match ps with
  | [] => (err, fs)
  | p :: ps' =>
    let '(err, fs) := pin_prog d p fs in
    if negb (err =? 0) then (err, fs) else pin_progs d ps' err fs
  end.

(** Behind [err_unpin]: files that cannot be removed are left. *)
Fixpoint unlink_all (d : list byte) (ps : list xdp_program) (fs : bpffs) : bpffs :=
  match ps with
  | [] => fs
  | p :: ps' =>
    let fs := if try_snprintf (in_dir d (link_file p)) =? 0 then snd (unlink d (link_file p) fs) else fs in
    let fs := if try_snprintf (in_dir d (prog_file p)) =? 0 then snd (unlink d (prog_file p) fs) else fs in
    unlink_all d ps' fs
  end.

(** The beginning the three functions share: [inl] an error, or the directory
    of the dispatcher.  [dir] and [lock] are the answers of [get_bpffs_dir] and
    [xdp_lock_acquire]; [None] is a null main program. *)
Definition pin_dir (dir : Z + list byte) (lock : Z) (mp : xdp_multiprog) : option (Z + list byte) :=
  match dir with
  | inl err => Some (inl err)
  | inr bpffs_dir =>
    main ← main_prog mp;
    let d := dispatch_dir bpffs_dir (mp_ifindex mp) (prog_id main) in
    let err := try_snprintf d in
    Some (if negb (err =? 0) then inl err else if lock <? 0 then inl lock else inr d)
  end.

Definition xdp_multiprog__pin (dir : Z + list byte) (lock : Z) (mp : option xdp_multiprog) (fs : bpffs) :
    option (Z * bpffs) :=
  match mp with
  | None => Some (- EINVAL, fs)
  | Some mp =>
    if is_legacy mp then Some (- EINVAL, fs) else
    d ← pin_dir dir lock mp;
    match d with
    | inl err => Some (err, fs)
    | inr d =>
      let '(errno, fs) := mkdir d fs in
      if negb (errno =? 0) && negb (errno =? EEXIST) then Some (- errno, fs) else
      let err := if errno =? 0 then 0 else -1 in
      let '(err, fs) := pin_progs d (first_prog mp) err fs in
      match first_prog mp with
      | [] => Some (err, fs)
      | _ => if negb (err =? 0) then Some (err, snd (rmdir d (unlink_all d (first_prog mp) fs))) else Some (0, fs)
      end
    end
  end.

(** ** Unpinning *)

Fixpoint unpin_progs (d : list byte) (ps : list xdp_program) (fs : bpffs) : Z * bpffs :=
  match ps with
  | [] => (0, fs)
  | p :: ps' =>
    let err := try_snprintf (in_dir d (link_file p)) in
    if negb (err =? 0) then (err, fs) else
    let '(errno, fs) := unlink d (link_file p) fs in
    if negb (errno =? 0) then (- errno, fs) else
    let err := try_snprintf (in_dir d (prog_file p)) in
    if negb (err =? 0) then (err, fs) else
    let '(errno, fs) := unlink d (prog_file p) fs in
    if negb (errno =? 0) then (- errno, fs) else unpin_progs d ps' fs
  end.

Definition xdp_multiprog__unpin (dir : Z + list byte) (lock : Z) (mp : option xdp_multiprog) (fs : bpffs) :
    option (Z * bpffs) :=
  match mp with
  | None => Some (- EINVAL, fs)
  | Some mp =>
    if is_legacy mp then Some (- EINVAL, fs) else
    d ← pin_dir dir lock mp;
    match d with
    | inl err => Some (err, fs)
    | inr d =>
      let '(err, fs) := unpin_progs d (first_prog mp) fs in
      if negb (err =? 0) then Some (err, fs) else
      let '(errno, fs) := rmdir d fs in Some (- errno, fs)
    end
  end.

(** ** Reading a dispatcher back *)

(** [xdp_program__from_fd] of the object found: an error, or the program. *)
Context (from_obj : Z -> Z + xdp_program).

(** The [i]-th program, with what the configuration says of it. *)
Definition read_prog (d : list byte) (conf : xdp_dispatcher_config) (i : nat) (fs : bpffs) (strdup : bool) :
    option (Z + xdp_program) :=
  let file := slot_name i ++ str "-prog" in
  let err := try_snprintf (in_dir d file) in
  if negb (err =? 0) then Some (inl err) else
  match bpf_obj_get d file fs with
  | inl errno => Some (inl (- errno))
  | inr obj =>
    match from_obj obj with
    | inl err => Some (inl err)
    | inr prog =>
      if negb strdup then Some (inl (- ENOMEM)) else
      actions ← call_actions conf !! i;
      prio ← run_prios conf !! i;
      flags ← program_flags conf !! i;
      Some (inr (prog {{ attach_name := Some (slot_name i);
                         chain_call_actions := Z.land actions (u32 (Z.lnot (Z.shiftl 1 XDP_DISPATCHER_RETVAL)));
                         run_prio := prio; is_frags := c_true (Z.land flags BPF_F_XDP_HAS_FRAGS) }}))
    end
  end.

(** The loop over the slots from [i] on: an error with the number of programs
    read until then, or the programs. *)
Fixpoint read_progs (d : list byte) (conf : xdp_dispatcher_config) (fs : bpffs) (strdup : nat -> bool) (n i : nat) :
    option (Z * nat + list xdp_program) :=
  match n with
  | O => Some (inr [])
  | S n' =>
    r ← read_prog d conf i fs (strdup i);
    match r with
    | inl err => Some (inl (err, i))
    | inr prog =>
      rest ← read_progs d conf fs strdup n' (S i);
      Some (match rest with inl e => inl e | inr ps => inr (prog :: ps) end)
    end
  end.

Definition xdp_multiprog__link_pinned_progs (dir : Z + list byte) (lock : Z) (strdup : nat -> bool)
    (mp : option xdp_multiprog) (fs : bpffs) : option (Z * option xdp_multiprog) :=
  match mp with
  | None => Some (- EINVAL, None)
  | Some m =>
    match first_prog m with
    | _ :: _ => Some (- EINVAL, mp)
    | [] =>
      d ← pin_dir dir lock m;
      match d with
      | inl err => Some (err, mp)
      | inr d =>
        let errno := stat d fs in
        if negb (errno =? 0) then Some (- errno, mp) else
        r ← read_progs d (mp_config m) fs strdup (Z.to_nat (num_progs_enabled (mp_config m))) 0;
        match r with
        | inl (err, k) => Some (err, Some (m {{ first_prog := []; num_links := num_links m + Z.of_nat k }}))
        | inr ps => Some (0, Some (m {{ first_prog := ps; num_links := num_links m + zlen ps }}))
        end
      end
    end
  end.

End Calls.

(** ** All or nothing *)

Section Specs.
Context (fault : fs_op -> list byte -> option Z) (obj_of : Z -> Z).
(** Error numbers are positive. *)
Context (fault_pos : forall op f errno, fault op f = Some errno -> 0 < errno).

Definition short (d f : list byte) : bool := try_snprintf (in_dir d f) =? 0.

(** [k] is one of the files the programs [ps] are pinned to in [d]. *)
Definition pin_key (d : list byte) (ps : list xdp_program) (k : list byte * list byte) : bool :=
  existsb (fun p => (bool_decide (k = (d, link_file p)) && short d (link_file p)) ||
                    (bool_decide (k = (d, prog_file p)) && short d (prog_file p))) ps.

Lemma bpf_obj_pin_frame obj d f fs errno fs' : bpf_obj_pin fault obj d f fs = (errno, fs') ->
  dirs fs' = dirs fs /\ 0 <= errno /\ (forall k, k <> (d, f) -> files fs' !! k = files fs !! k) /\
  (errno = 0 -> files fs' = <[(d, f) := obj]> (files fs)).
Proof.
  unfold bpf_obj_pin. destruct (fault Pin f) as [n |] eqn:E.
  { intros [= <- <-]. apply fault_pos in E. split_and!; try done; lia. }
  case_decide; [by intros [= <- <-] |]. case_decide; [by intros [= <- <-] |].
  intros [= <- <-]. split_and!; try done. intros k Hk. cbn. by rewrite lookup_insert_ne.
Qed.

(** What the files are when all programs are pinned. *)
Fixpoint add_pins (d : list byte) (ps : list xdp_program) (m : gmap (list byte * list byte) Z) :
    gmap (list byte * list byte) Z :=
  match ps with
  | [] => m
  | p :: ps' =>
    add_pins d ps' (<[(d, prog_file p) := obj_of (prog_fd p)]> (<[(d, link_file p) := obj_of (link_fd p)]> m))
  end.

Lemma try_snprintf_cases s : try_snprintf s = 0 \/ try_snprintf s < 0.
Proof. unfold try_snprintf. destruct (_ <=? _); [by right | by left]. Qed.

Definition shorts (d : list byte) (ps : list xdp_program) : Prop :=
  Forall (fun p => short d (link_file p) = true /\ short d (prog_file p) = true) ps.

Lemma pin_prog_frame d p fs err fs' : pin_prog fault obj_of d p fs = (err, fs') ->
  dirs fs' = dirs fs /\ err <= 0 /\ (forall k, pin_key d [p] k = false -> files fs' !! k = files fs !! k) /\
  (err = 0 -> shorts d [p] /\ files fs' = add_pins d [p] (files fs)).
Proof.
  unfold pin_prog. destruct (link_fd p <? 0); [by intros [= <- <-] |].
  destruct (Z.eqb_spec (try_snprintf (in_dir d (link_file p))) 0) as [E1 | E1]; cbn [negb];
    [| intros [= <- <-]; destruct (try_snprintf_cases (in_dir d (link_file p))); by (split_and!; try done; lia)].
  destruct (bpf_obj_pin _ _ _ _ fs) as [errno fs1] eqn:P1. apply bpf_obj_pin_frame in P1 as (D1 & N1 & F1 & S1).
  assert (forall k, pin_key d [p] k = false -> files fs1 !! k = files fs !! k) as HF1.
  { intros k Hk. apply F1. intros ->. unfold pin_key, short in Hk. cbn in Hk.
    rewrite bool_decide_true, E1 in Hk by done. done. }
  destruct (Z.eqb_spec errno 0) as [-> | Hn]; cbn [negb]; [| intros [= <- <-]; split_and!; try done; lia].
  destruct (Z.eqb_spec (try_snprintf (in_dir d (prog_file p))) 0) as [E2 | E2]; cbn [negb];
    [| intros [= <- <-]; destruct (try_snprintf_cases (in_dir d (prog_file p))); by (split_and!; try done; lia)].
  destruct (bpf_obj_pin _ _ _ _ fs1) as [errno fs2] eqn:P2. apply bpf_obj_pin_frame in P2 as (D2 & N2 & F2 & S2).
  assert (forall k, pin_key d [p] k = false -> files fs2 !! k = files fs !! k) as HF2.
  { intros k Hk. rewrite F2; [by apply HF1 |]. intros ->. unfold pin_key, short in Hk. cbn in Hk.
    rewrite (bool_decide_true ((d, prog_file p) = (d, prog_file p))), E2, orb_true_r in Hk by done. done. }
  destruct (Z.eqb_spec errno 0) as [-> | Hn]; cbn [negb]; intros [= <- <-].
  - split_and!; [congruence | done | done |]. intros _. split.
    + repeat constructor; unfold short; by rewrite ?E1, ?E2.
    + cbn [add_pins]. by rewrite S2, S1.
  - split_and!; [congruence | lia | done | lia].
Qed.

Lemma pin_prog_dir d p fs : d ∉ dirs fs -> fst (pin_prog fault obj_of d p fs) <> 0.
Proof.
  intros Hd. unfold pin_prog. destruct (link_fd p <? 0); [done |].
  destruct (Z.eqb_spec (try_snprintf (in_dir d (link_file p))) 0); cbn [negb]; [| done].
  unfold bpf_obj_pin at 1. destruct (fault Pin _) eqn:E; [apply fault_pos in E | by rewrite decide_True].
  rewrite (proj2 (Z.eqb_neq _ _)) by lia. cbn. lia.
Qed.

Lemma pin_key_cons d p ps k : pin_key d (p :: ps) k = pin_key d [p] k || pin_key d ps k.
Proof. unfold pin_key. cbn. by rewrite orb_false_r. Qed.

Lemma pin_progs_frame d ps : forall e0 fs err fs', pin_progs fault obj_of d ps e0 fs = (err, fs') ->
  dirs fs' = dirs fs /\ (e0 <= 0 -> err <= 0) /\
  (forall k, pin_key d ps k = false -> files fs' !! k = files fs !! k) /\
  (err = 0 -> shorts d ps /\ files fs' = add_pins d ps (files fs)).
Proof.
  induction ps as [| p ps IH]; intros e0 fs err fs'; cbn [pin_progs].
  { intros [= <- <-]. split_and!; try done. intros _. split; [constructor | done]. }
  destruct (pin_prog _ _ d p fs) as [err1 fs1] eqn:E1. apply pin_prog_frame in E1 as (D1 & N1 & F1 & S1).
  destruct (Z.eqb_spec err1 0) as [-> | Hn]; cbn [negb].
  - intros E. apply IH in E as (D2 & N2 & F2 & S2). specialize (S1 eq_refl) as [Hs1 S1]. split_and!.
    + congruence.
    + intros _. by apply N2.
    + intros k. rewrite pin_key_cons. intros [Hk1 Hk2]%orb_false_iff. rewrite F2, F1 by done. done.
    + intros ->. destruct (S2 eq_refl) as [Hs2 ->]. split; [by apply Forall_cons; split; [apply (Forall_inv Hs1) |] |]. by rewrite S1.
  - intros [= <- <-]. split_and!; [done | done | | done].
    intros k. rewrite pin_key_cons. intros [Hk1 Hk2]%orb_false_iff. by apply F1.
Qed.
Lemma pin_key_dir d ps k : pin_key d ps k = true -> fst k = d.
Proof. intros (p & _ & H)%existsb_exists. repeat case_bool_decide; by subst. Qed.

Definition names (ps : list xdp_program) : list (list byte) := ps ≫= (fun p => [link_file p; prog_file p]).

Lemma elem_of_names ps f : f ∈ names ps <-> exists p, p ∈ ps /\ (f = link_file p \/ f = prog_file p).
Proof. unfold names. rewrite list_elem_of_bind. set_solver. Qed.

(** *** What is left when pinning fails *)

Lemma unlink_frame d f fs : let fs' := snd (unlink fault d f fs) in
  dirs fs' = dirs fs /\ (forall k, files fs' !! k = files fs !! k \/ (files fs' !! k = None /\ k = (d, f))) /\
  (fault Unlink f = None -> files fs' !! (d, f) = None).
Proof.
  unfold unlink. destruct (fault Unlink f); cbn; [by split_and!; [| left |] |]. case_decide as H; cbn.
  - split_and!; [done | | intros _; apply lookup_delete_eq]. intros k. destruct (decide ((d, f) = k)) as [<- | Hk];
      [right; split; [apply lookup_delete_eq | done] | left; by apply lookup_delete_ne].
  - split_and!; [done | by left | intros _]. by destruct (files fs !! (d, f)); [destruct H |].
Qed.

Lemma unlink_short_frame d f fs : let fs' := if try_snprintf (in_dir d f) =? 0 then snd (unlink fault d f fs) else fs in
  dirs fs' = dirs fs /\ (forall k, files fs' !! k = files fs !! k \/ (files fs' !! k = None /\ k = (d, f) /\ short d f = true)) /\
  (short d f = true -> fault Unlink f = None -> files fs' !! (d, f) = None).
Proof.
  unfold short. destruct (_ =? 0); [| by split_and!; [| left |]]. destruct (unlink_frame d f fs) as (H1 & H2 & H3). split_and!; [done | | by intros _].
  intros k. destruct (H2 k) as [| []]; [by left | by right].
Qed.

Lemma unlink_all_frame d ps : forall fs, let fs' := unlink_all fault d ps fs in
  dirs fs' = dirs fs /\ (forall k, files fs' !! k = files fs !! k \/ (files fs' !! k = None /\ pin_key d ps k = true)) /\
  forall k, pin_key d ps k = true -> fault Unlink (snd k) = None -> files fs' !! k = None.
Proof.
  induction ps as [| p ps IH]; intros fs; cbn [unlink_all]; [by split_and!; [| left |] |].
  destruct (unlink_short_frame d (link_file p) fs) as (D1 & K1 & N1). set (fs1 := if _ =? 0 then _ else fs) in *.
  destruct (unlink_short_frame d (prog_file p) fs1) as (D2 & K2 & N2). set (fs2 := if _ =? 0 then _ else fs1) in *.
  destruct (IH fs2) as (D3 & K3 & N3). cbv zeta. set (fs3 := unlink_all fault d ps fs2) in *.
  assert (forall k, files fs1 !! k = None -> files fs2 !! k = None) as M2 by (intros k H; destruct (K2 k) as [-> | [-> _]]; done).
  assert (forall k, files fs2 !! k = None -> files fs3 !! k = None) as M3 by (intros k H; destruct (K3 k) as [-> | [-> _]]; done).
  assert (forall k, pin_key d (p :: ps) k =
    (bool_decide (k = (d, link_file p)) && short d (link_file p)) || (bool_decide (k = (d, prog_file p)) && short d (prog_file p)) || pin_key d ps k) as Hkey by done.
  split_and!; [congruence | |].
  - intros k. rewrite Hkey. destruct (K3 k) as [-> | [-> ->]]; [| right; by rewrite orb_true_r].
    destruct (K2 k) as [-> | (-> & -> & ->)]; [| right; rewrite (bool_decide_true ((d, prog_file p) = (d, prog_file p))) by done; by rewrite orb_true_r].
    destruct (K1 k) as [-> | (-> & -> & ->)]; [by left | right; by rewrite bool_decide_true].
  - intros k Hk Hu. rewrite Hkey in Hk.
    apply orb_prop in Hk as [[[Hk%bool_decide_eq_true Hs]%andb_prop | [Hk%bool_decide_eq_true Hs]%andb_prop]%orb_prop | Hk]; [subst k.. | by apply N3].
    + by apply M3, M2, N1.
    + by apply M3, N2.
Qed.

Lemma rmdir_frame d fs : let fs' := snd (rmdir fault d fs) in
  files fs' = files fs /\ dirs fs' ⊆ dirs fs /\ dirs fs ∖ {[ d ]} ⊆ dirs fs'.
Proof. unfold rmdir. destruct (fault Rmdir d); [set_solver |]. case_decide; [set_solver |]. case_decide; set_solver. Qed.

(** Nothing but, perhaps, the directory and pins of the programs in it, that could
    not be removed, are there in [fs'] and not in [fs]. *)
Definition left_over (d : list byte) (ps : list xdp_program) (fs fs' : bpffs) : Prop :=
  dirs fs ⊆ dirs fs' /\ dirs fs' ⊆ {[ d ]} ∪ dirs fs /\
  forall k, files fs' !! k = files fs !! k \/ (fst k = d /\ snd k ∈ names ps /\ is_Some (fault Unlink (snd k))).

Lemma pin_key_name d ps k : pin_key d ps k = true -> fst k = d /\ snd k ∈ names ps.
Proof.
  intros (p & Hp%list_elem_of_In & H)%existsb_exists. rewrite elem_of_names.
  apply orb_prop in H as [[->%bool_decide_eq_true _]%andb_prop | [->%bool_decide_eq_true _]%andb_prop]; cbn; eauto.
Qed.

(** Pinning in a directory that was not there and that had no files. *)
Lemma pin_effect dir lock mp d fs : is_legacy mp = false -> first_prog mp <> [] ->
  pin_dir dir lock mp = Some (inr d) -> d ∉ dirs fs -> (forall f, files fs !! (d, f) = None) ->
  exists err fs', xdp_multiprog__pin fault obj_of dir lock (Some mp) fs = Some (err, fs') /\
    (err = 0 -> dirs fs' = {[ d ]} ∪ dirs fs /\ shorts d (first_prog mp) /\
      files fs' = add_pins d (first_prog mp) (files fs)) /\
    (err <> 0 -> err < 0 /\ left_over d (first_prog mp) fs fs' /\
      (fs' = fs \/ exists fs2, dirs fs2 ∖ {[ d ]} = dirs fs /\ (forall k, pin_key d (first_prog mp) k = false -> files fs2 !! k = files fs !! k) /\
        fs' = snd (rmdir fault d (unlink_all fault d (first_prog mp) fs2)))).
Proof.
  intros Hl Hne Hdir Hd He. unfold xdp_multiprog__pin. rewrite Hl, Hdir. cbn [mbind option_bind].
  destruct (mkdir fault d fs) as [errno fs1] eqn:Em.
  assert (0 <= errno /\ files fs1 = files fs /\ dirs fs1 ∖ {[ d ]} = dirs fs /\
    (errno = 0 -> dirs fs1 = {[ d ]} ∪ dirs fs) /\ (errno <> 0 -> fs1 = fs)) as (Hn & Hf1 & Hd1 & H0 & H1).
  { unfold mkdir in Em. destruct (fault Mkdir d) eqn:Ef; [apply fault_pos in Ef |];
      [| rewrite decide_False in Em by done]; injection Em as <- <-; cbn;
      split_and!; try done; try lia; set_solver. }
  destruct (negb (errno =? 0) && negb (errno =? EEXIST)) eqn:E0.
  { eexists _, _. split; [done |]. split; intros ?; [lia |]. rewrite H1 by lia. split_and!; [lia | | by left].
    split_and!; [done | set_solver | by left]. }
  destruct (pin_progs _ _ _ _ _ fs1) as [err fs2] eqn:Ep. pose proof Ep as Ep'.
  apply pin_progs_frame in Ep as (D2 & N2 & F2 & S2).
  destruct (first_prog mp) as [| p ps] eqn:Eps; [done |].
  assert (err <= 0) as Herr by (apply N2; destruct (errno =? 0); lia).
  destruct (Z.eqb_spec err 0) as [-> | Hz]; cbn [negb].
  - eexists _, _. split; [done |]. split; [intros _ | done]. destruct (S2 eq_refl) as [HS ->].
    rewrite D2, Hf1. split_and!; [| done | done]. destruct (Z.eqb_spec errno 0) as [-> | Hnz]; [by apply H0 |].
    exfalso. rewrite (H1 Hnz) in Ep'. cbn [pin_progs] in Ep'. pose proof (pin_prog_dir d p fs Hd) as Hp.
    destruct (pin_prog _ _ d p fs) as [err1 fs3]. cbn in Hp. rewrite (proj2 (Z.eqb_neq _ _)) in Ep' by done.
    by injection Ep'.
  - eexists _, _. split; [done |]. split; [done | intros _]. split; [lia |]. split.
    + destruct (unlink_all_frame d (p :: ps) fs2) as (Du & Ku & Nu). destruct (rmdir_frame d (unlink_all fault d (p :: ps) fs2)) as (Fr & Dr & Dr').
      rewrite Du, D2 in Dr, Dr'. split_and!; [| |].
      * by rewrite <- Hd1.
      * destruct (Z.eq_dec errno 0) as [Hz0 | Hz0]; [by rewrite <- (H0 Hz0) | rewrite (H1 Hz0) in Dr; set_solver].
      * intros k. rewrite Fr. destruct (pin_key d (p :: ps) k) eqn:Ek; cycle 1.
        { destruct (Ku k) as [-> | [_ Hk]]; [left; by rewrite F2, Hf1 | by rewrite Hk in Ek]. }
        destruct (pin_key_name _ _ _ Ek) as [Hk1 Hk2]. destruct (fault Unlink (snd k)) eqn:Eu; [right; by eauto |]. left.
        rewrite Nu by done. destruct k as [d' f]. cbn in Hk1. subst d'. by rewrite He.
    + right. exists fs2. split_and!; [by rewrite D2 | intros k Hk; by rewrite F2, Hf1 | done].
Qed.

(** *** Undoing that does not fail *)

Section Undo.
(** Removing does not fail for other reasons than that there is nothing to
    remove. *)
Context (fault_unlink : forall f, fault Unlink f = None) (fault_rmdir : forall f, fault Rmdir f = None).

Lemma unlink_deletes d f fs : snd (unlink fault d f fs) = {| dirs := dirs fs; files := delete (d, f) (files fs) |}.
Proof.
  unfold unlink. rewrite fault_unlink. case_decide as H; [done |]. cbn. destruct fs as [ds m]. f_equal. cbn in *.
  rewrite delete_id; [done |]. by destruct (m !! (d, f)); [destruct H; eauto |].
Qed.

Lemma unlink_all_lookup d ps : forall fs, dirs (unlink_all fault d ps fs) = dirs fs /\
  forall k, files (unlink_all fault d ps fs) !! k = if pin_key d ps k then None else files fs !! k.
Proof.
  induction ps as [| p ps IH]; intros fs; cbn [unlink_all pin_key existsb]; [done |].
  assert (forall f, (if try_snprintf (in_dir d f) =? 0 then snd (unlink fault d f fs) else fs) = 
    {| dirs := dirs fs; files := if short d f then delete (d, f) (files fs) else files fs |}) as Hun.
  { intros f. unfold short. rewrite unlink_deletes. destruct fs. by destruct (_ =? 0). }
  rewrite !Hun. clear Hun. set (fs1 := {| dirs := dirs fs; files := _ |}).
  assert ((if try_snprintf (in_dir d (prog_file p)) =? 0 then snd (unlink fault d (prog_file p) fs1) else fs1) =
    {| dirs := dirs fs; files := if short d (prog_file p) then delete (d, prog_file p) (files fs1) else files fs1 |}) as ->.
  { unfold short. rewrite unlink_deletes. by destruct (_ =? 0). }
  destruct (IH {| dirs := dirs fs; files := if short d (prog_file p) then delete (d, prog_file p) (files fs1) else files fs1 |})
    as [Hd Hk]. split; [done |]. intros k. rewrite Hk. cbn [files]. fold (pin_key d ps k).
  destruct (pin_key d ps k); [by rewrite orb_true_r |]. rewrite orb_false_r. unfold fs1. cbn [files].
  destruct (short d (link_file p)), (short d (prog_file p)); rewrite ?andb_true_r, ?andb_false_r, ?orb_false_r; cbn [orb].
  all: rewrite ?lookup_delete; repeat case_decide; repeat case_bool_decide; cbn [orb]; congruence.
Qed.

Lemma rmdir_empty d fs : (forall f, files fs !! (d, f) = None) ->
  snd (rmdir fault d fs) = {| dirs := dirs fs ∖ {[ d ]}; files := files fs |}.
Proof.
  intros He. unfold rmdir. rewrite fault_rmdir. destruct fs as [ds m]; cbn in *. case_decide as Hd.
  { cbn. f_equal. set_solver. }
  rewrite decide_False; [done |]. intros ([d' f] & x & E & Hk). cbn in Hk. subst d'. by rewrite He in E.
Qed.

Lemma pin_spec dir lock mp d fs : is_legacy mp = false -> first_prog mp <> [] ->
  pin_dir dir lock mp = Some (inr d) -> d ∉ dirs fs -> (forall f, files fs !! (d, f) = None) ->
  exists err fs', xdp_multiprog__pin fault obj_of dir lock (Some mp) fs = Some (err, fs') /\
    (err = 0 -> dirs fs' = {[ d ]} ∪ dirs fs /\ shorts d (first_prog mp) /\
      files fs' = add_pins d (first_prog mp) (files fs)) /\
    (err <> 0 -> err < 0 /\ left_over d (first_prog mp) fs fs' /\ fs' = fs).
Proof.
  intros Hl Hne Hdir Hd He. destruct (pin_effect dir lock mp d fs Hl Hne Hdir Hd He) as (err & fs' & E & H0 & H1).
  exists err, fs'. split_and!; [done | done |]. intros Hz. destruct (H1 Hz) as (Hlt & Hleft & Hfs). split_and!; [done | done |].
  destruct Hfs as [-> | (fs2 & D2 & F2 & ->)]; [done |].
  destruct (unlink_all_lookup d (first_prog mp) fs2) as [Du Lu].
  assert (files (unlink_all fault d (first_prog mp) fs2) = files fs) as Hfs.
  { apply map_eq. intros k. rewrite Lu. destruct (pin_key d (first_prog mp) k) eqn:Ek.
    - apply pin_key_dir in Ek. destruct k as [d' f]. cbn in Ek. subst d'. by rewrite He.
    - by apply F2. }
  rewrite rmdir_empty by (by rewrite Hfs). rewrite Hfs, Du, D2. by destruct fs.
Qed.
End Undo.

(** ** Pinned programs are found and removed *)

Lemma add_pins_other d ps : forall m k, (forall f, f ∈ names ps -> k <> (d, f)) -> add_pins d ps m !! k = m !! k.
Proof.
  induction ps as [| p ps IH]; intros m k Hk; cbn [add_pins]; [done |].
  rewrite IH, !lookup_insert_ne; [done | ..]; try (intros E; symmetry in E; revert E); try intros f Hf; apply Hk; set_solver.
Qed.

Lemma add_pins_lookup d ps : forall m p, NoDup (names ps) -> p ∈ ps ->
  add_pins d ps m !! (d, link_file p) = Some (obj_of (link_fd p)) /\
  add_pins d ps m !! (d, prog_file p) = Some (obj_of (prog_fd p)).
Proof.
  induction ps as [| q ps IH]; intros m p Hn Hp; [by apply not_elem_of_nil in Hp |]. cbn [add_pins].
  change (names (q :: ps)) with (link_file q :: prog_file q :: names ps) in Hn.
  apply NoDup_cons in Hn as [Hl Hn]. apply NoDup_cons in Hn as [Hq Hn].
  apply elem_of_cons in Hp as [-> | Hp]; [| by apply IH].
  rewrite !add_pins_other by (intros f Hf [= E]; subst; set_solver).
  rewrite lookup_insert_eq, lookup_insert_ne, lookup_insert_eq by (intros [= E]; set_solver). done.
Qed.

Lemma pin_key_names d ps k : shorts d ps -> pin_key d ps k = true <-> exists f, f ∈ names ps /\ k = (d, f).
Proof.
  intros Hs. unfold pin_key. rewrite existsb_exists. setoid_rewrite elem_of_names. split.
  - intros (p & Hp%list_elem_of_In & H). rewrite orb_true_iff, !andb_true_iff, !bool_decide_eq_true in H.
    destruct H as [[-> _] | [-> _]]; eauto 10.
  - intros (f & (p & Hp & Hf) & ->). exists p. split; [by apply list_elem_of_In |].
    eapply Forall_forall in Hs as [S1 S2]; [| exact Hp]. rewrite S1, S2, !andb_true_r, orb_true_iff, !bool_decide_eq_true.
    destruct Hf as [-> | ->]; auto.
Qed.

Section Unpin.
Context (fault_unlink : forall f, fault Unlink f = None) (fault_rmdir : forall f, fault Rmdir f = None).

Lemma unlink_found d f fs x : files fs !! (d, f) = Some x ->
  unlink fault d f fs = (0, {| dirs := dirs fs; files := delete (d, f) (files fs) |}).
Proof. intros E. unfold unlink. rewrite fault_unlink, decide_True by (by eexists). done. Qed.

Lemma unpin_progs_spec d ps : forall fs, NoDup (names ps) -> shorts d ps ->
  (forall f, f ∈ names ps -> is_Some (files fs !! (d, f))) ->
  exists fs', unpin_progs fault d ps fs = (0, fs') /\ dirs fs' = dirs fs /\
    forall k, files fs' !! k = if pin_key d ps k then None else files fs !! k.
Proof.
  induction ps as [| p ps IH]; intros fs Hn Hs Hf; cbn [unpin_progs]; [by eexists |].
  change (names (p :: ps)) with (link_file p :: prog_file p :: names ps) in *.
  apply NoDup_cons in Hn as [Hl Hn]. apply NoDup_cons in Hn as [Hq Hn]. apply Forall_cons in Hs as [[Sl Sp] Hs].
  destruct (Hf (link_file p)) as [x1 E1]; [set_solver |]. destruct (Hf (prog_file p)) as [x2 E2]; [set_solver |].
  pose proof Sl as Sl'. pose proof Sp as Sp'. unfold short in Sl', Sp'. rewrite Sl', Sp'. cbn [negb].
  rewrite (unlink_found _ _ _ x1) by done. cbn [Z.eqb negb].
  rewrite (unlink_found _ _ _ x2); [| cbn [files]; rewrite lookup_delete_ne by (intros [= E]; set_solver); done].
  cbn [Z.eqb negb dirs files].
  destruct (IH {| dirs := dirs fs; files := delete (d, prog_file p) (delete (d, link_file p) (files fs)) |})
    as (fs' & Eu & Ed & Ek); [done | done | |].
  { intros f Hin. cbn [files]. rewrite !lookup_delete_ne by (intros [= E]; set_solver). apply Hf. set_solver. }
  exists fs'. split_and!; [done | done |]. intros k. rewrite Ek, pin_key_cons. cbn [files].
  destruct (pin_key d ps k); [by rewrite orb_true_r |]. rewrite orb_false_r. unfold pin_key. cbn [existsb].
  rewrite Sl, Sp, !andb_true_r, orb_false_r, !lookup_delete.
  repeat case_decide; repeat case_bool_decide; cbn [orb]; congruence.
Qed.

Lemma unpin_spec dir lock mp d fs fs1 : is_legacy mp = false -> pin_dir dir lock mp = Some (inr d) ->
  NoDup (names (first_prog mp)) -> shorts d (first_prog mp) -> d ∉ dirs fs -> (forall f, files fs !! (d, f) = None) ->
  dirs fs1 = {[ d ]} ∪ dirs fs -> files fs1 = add_pins d (first_prog mp) (files fs) ->
  xdp_multiprog__unpin fault dir lock (Some mp) fs1 = Some (0, fs).
Proof.
  intros Hl Hdir Hn Hs Hd He Hd1 Hf1. unfold xdp_multiprog__unpin. rewrite Hl, Hdir. cbn [mbind option_bind].
  destruct (unpin_progs_spec d (first_prog mp) fs1 Hn Hs) as (fs2 & -> & D2 & F2).
  { intros f (p & Hp & Hf)%elem_of_names. rewrite Hf1. destruct (add_pins_lookup d _ (files fs) p Hn Hp) as [L1 L2].
    destruct Hf as [-> | ->]; eauto. }
  assert (files fs2 = files fs) as Hfs.
  { apply map_eq. intros k. rewrite F2, Hf1. destruct (pin_key d (first_prog mp) k) eqn:Ek.
    - apply pin_key_dir in Ek. destruct k as [d' f]. cbn in Ek. subst d'. by rewrite He.
    - apply add_pins_other. intros f Hf ->. apply not_true_iff_false in Ek. destruct Ek. apply pin_key_names; eauto. }
  cbn [Z.eqb negb]. pose proof (rmdir_empty fault_unlink fault_rmdir d fs2) as Hr. rewrite Hfs in Hr. specialize (Hr He). revert Hr.
  unfold rmdir. rewrite fault_rmdir, decide_False by (rewrite D2, Hd1; set_solver).
  rewrite decide_False by (rewrite Hfs; intros ([d' f] & x & E & Hk); cbn in Hk; subst d'; by rewrite He in E).
  cbn [snd]. intros ->. do 2 f_equal. destruct fs as [ds m]. cbn in *. f_equal. rewrite D2, Hd1. set_solver.
Qed.

End Unpin.

(** The names of the slots differ. *)
Lemma names_attach ps :
  names ps = (attach_name <$> ps) ≫= (fun a => [fmt_s_opt a ++ str "-link"; fmt_s_opt a ++ str "-prog"]).
Proof. induction ps as [| p ps IH]; [done |]. cbn. do 2 f_equal. exact IH. Qed.

Lemma slot_names_nodup ps (n : nat) : (n <= MAX_DISPATCHER_ACTIONS)%nat ->
  attach_name <$> ps = Some <$> (slot_name <$> seq 0 n) -> NoDup (names ps).
Proof.
  unfold MAX_DISPATCHER_ACTIONS. intros Hn E. rewrite names_attach, E. clear E.
  do 11 (destruct n as [| n]; [apply (bool_decide_unpack _); vm_compute; exact I |]). lia.
Qed.

(** ** Reading back *)

Context (from_obj : Z -> Z + xdp_program).

(** [r] is read for the program [q] that is pinned and that was configured as
    [p]. *)
Definition read_as (q p r : xdp_program) : Prop :=
  prog_id r = prog_id q /\ attach_name r = attach_name q /\ chain_call_actions r = chain_call_actions p /\
  run_prio r = run_prio p /\ is_frags r = xdp_program__xdp_frags_support (Some p).

Lemma actions_read a : 0 <= a < 2 ^ 31 ->
  Z.land (Z.lor a (Z.shiftl 1 XDP_DISPATCHER_RETVAL)) (u32 (Z.lnot (Z.shiftl 1 XDP_DISPATCHER_RETVAL))) = a.
Proof.
  intros Ha. change (u32 _) with (Z.ones 31). rewrite Z.land_lor_distr_l.
  change (Z.land (Z.shiftl 1 XDP_DISPATCHER_RETVAL) (Z.ones 31)) with 0.
  rewrite Z.lor_0_r, Z.land_ones, Z.mod_small; lia.
Qed.

Lemma read_prog_spec d frags ps fs (i : nat) q p : fault Get (prog_file q) = None ->
  ps !! i = Some p -> attach_name q = Some (slot_name i) -> short d (prog_file q) = true ->
  files fs !! (d, prog_file q) = Some (obj_of (prog_fd q)) -> 0 <= chain_call_actions p < 2 ^ 31 ->
  (exists r, from_obj (obj_of (prog_fd q)) = inr r /\ prog_id r = prog_id q) ->
  exists r, read_prog fault from_obj d (dispatcher_config frags ps) i fs true = Some (inr r) /\ read_as q p r.
Proof.
  intros Hg Hp Ha Hs Hf Hc (r & Er & Hid).
  assert (prog_file q = slot_name i ++ str "-prog") as Efile by (unfold prog_file; by rewrite Ha).
  unfold read_prog. rewrite <- Efile. unfold short in Hs. rewrite Hs. cbn [negb].
  unfold bpf_obj_get. rewrite Hg, Hf, Er. cbn [negb call_actions run_prios program_flags dispatcher_config].
  assert (forall g : xdp_program -> Z, slots (map g ps) !! i = Some (g p)) as Hslot
    by (intros g; apply lookup_slots; by rewrite list_lookup_fmap, Hp).
  rewrite !Hslot. cbn [mbind option_bind].
  eexists. split; [done |]. unfold read_as. generalize dependent r. intros []; intros.
  cbn. unfold constant.
  split_and!; [done | done | by apply actions_read | done | by match goal with |- _ = ?b => destruct b end].
Qed.
Context (fault_get : forall f, fault Get f = None) (fault_stat : forall f, fault Stat f = None).

(** [qs'] and [ps'] are what is left of [qs] and [ps] from slot [i] on. *)
Lemma read_progs_spec d frags ps qs fs : shorts d qs ->
  (forall q, q ∈ qs -> files fs !! (d, prog_file q) = Some (obj_of (prog_fd q)) /\
    exists r, from_obj (obj_of (prog_fd q)) = inr r /\ prog_id r = prog_id q) ->
  Forall (fun p => 0 <= chain_call_actions p < 2 ^ 31) ps ->
  forall qs' ps' i, (forall q, q ∈ qs' -> q ∈ qs) -> (forall j, ps !! (i + j)%nat = ps' !! j) -> length qs' = length ps' ->
    attach_name <$> qs' = Some <$> (slot_name <$> seq i (length ps')) ->
    exists rs, read_progs fault from_obj d (dispatcher_config frags ps) fs (fun _ => true) (length ps') i = Some (inr rs) /\
      Forall3 read_as qs' ps' rs.
Proof.
  intros Hs Hq Hc. induction qs' as [| q qs' IH]; intros [| p ps'] i Hin Hp [=] Ha.
  { exists []. split; [done | constructor]. }
  cbn [length seq fmap list_fmap] in Ha. injection Ha as Ha Has. cbn [length read_progs].
  pose proof (Hp O) as Hp0. rewrite Nat.add_0_r in Hp0. cbn in Hp0.
  assert (q ∈ qs) as Hqq by (apply Hin; set_solver). destruct (Hq q Hqq) as [Hf Hr].
  destruct (read_prog_spec d frags ps fs i q p) as (r & -> & Hra); [done | done | done | | done | | done |].
  { by eapply Forall_forall in Hs as [_ ?]. }
  { eapply Forall_lookup_1 in Hc; [exact Hc | done]. }
  cbn [mbind option_bind].
  destruct (IH ps' (S i)) as (rs & -> & Hrs); [set_solver | | done | done |].
  { intros j. etrans; [| exact (Hp (S j))]. f_equal. lia. }
  exists (r :: rs). split; [done | by constructor].
Qed.

Lemma link_pinned_spec dir lock mp d frags ps fs1 : 
  pin_dir dir lock mp = Some (inr d) -> d ∈ dirs fs1 -> shorts d (first_prog mp) ->
  (length ps <= MAX_DISPATCHER_ACTIONS)%nat -> Forall (fun p => 0 <= chain_call_actions p < 2 ^ 31) ps ->
  mp_config mp = dispatcher_config frags ps ->
  attach_name <$> first_prog mp = Some <$> (slot_name <$> seq 0 (length ps)) ->
  (forall q, q ∈ first_prog mp -> files fs1 !! (d, prog_file q) = Some (obj_of (prog_fd q)) /\
    exists r, from_obj (obj_of (prog_fd q)) = inr r /\ prog_id r = prog_id q) ->
  exists rs, xdp_multiprog__link_pinned_progs fault from_obj dir lock (fun _ => true)
      (Some (mp {{ first_prog := []; num_links := 0 }})) fs1 =
    Some (0, Some (mp {{ first_prog := rs; num_links := zlen rs }})) /\ Forall3 read_as (first_prog mp) ps rs.
Proof.
  intros Hdir Hd Hs Hlen Hc Hconf Ha Hq.
  assert (length (first_prog mp) = length ps) as Hl
    by (apply (f_equal length) in Ha; by rewrite !length_fmap, length_seq in Ha).
  destruct (read_progs_spec d frags ps (first_prog mp) fs1 Hs Hq Hc (first_prog mp) ps 0) as (rs & Hr & Hrs); [done.. |].
  exists rs. split; [| done]. set (m := mp {{ first_prog := []; num_links := 0 }}).
  assert (first_prog m = [] /\ pin_dir dir lock m = Some (inr d) /\ mp_config m = dispatcher_config frags ps)
    as (Hm1 & Hm2 & Hm3) by (unfold m; rewrite <- Hdir, <- Hconf; by destruct mp).
  unfold xdp_multiprog__link_pinned_progs. rewrite Hm1, Hm2. cbn [mbind option_bind].
  unfold stat. rewrite fault_stat, decide_True by done. cbn [Z.eqb negb]. rewrite Hm3.
  replace (Z.to_nat (num_progs_enabled (dispatcher_config frags ps))) with (length ps)
    by (cbn [num_progs_enabled dispatcher_config]; unfold MAX_DISPATCHER_ACTIONS, zlen in *; rewrite u8_id; lia).
  rewrite Hr. cbn [mbind option_bind]. unfold m. by destruct mp.
Qed.

End Specs.

(** C29: a dispatcher's pins are a transaction, as far as what undoes them does
    not fail.  In a directory that is not there yet, and for a dispatcher as it is generated
    (at least one program, slots named in order, its configuration made from the programs [ps]), pinning
    succeeds or fails with a negative error, whichever calls fail.  When it
    fails, nothing is added to the file system but, perhaps, the directory and pins of
    the programs whose [unlink] failed too; if no [unlink] and no [rmdir]
    fails, the file system is as it was before.  After success, unpinning the
    dispatcher succeeds and restores the file system, if no [unlink] and no
    [rmdir] fails; and reading the directory finds every program again, if the
    calls that read do not fail, with its slot name and the actions, priority and
    fragment support of the program it was configured for. *)
Theorem pin_transaction fault obj_of from_obj dir lock mp d frags ps fs : (forall op f errno, fault op f = Some errno -> 0 < errno) ->
  is_legacy mp = false -> ps <> [] ->
  pin_dir dir lock mp = Some (inr d) -> d ∉ dirs fs -> (forall f, files fs !! (d, f) = None) ->
  (length ps <= MAX_DISPATCHER_ACTIONS)%nat -> Forall (fun p => 0 <= chain_call_actions p < 2 ^ 31) ps ->
  mp_config mp = dispatcher_config frags ps ->
  attach_name <$> first_prog mp = Some <$> (slot_name <$> seq 0 (length ps)) ->
  (forall q, q ∈ first_prog mp -> exists r, from_obj (obj_of (prog_fd q)) = inr r /\ prog_id r = prog_id q) ->
  let undo_ok := (forall f, fault Unlink f = None) /\ (forall f, fault Rmdir f = None) in
  let read_ok := (forall f, fault Get f = None) /\ (forall f, fault Stat f = None) in
  exists err fs1, xdp_multiprog__pin fault obj_of dir lock (Some mp) fs = Some (err, fs1) /\
    (err <> 0 -> err < 0 /\ left_over fault d (first_prog mp) fs fs1 /\ (undo_ok -> fs1 = fs)) /\
    (err = 0 -> (undo_ok -> xdp_multiprog__unpin fault dir lock (Some mp) fs1 = Some (0, fs)) /\
      (read_ok -> exists rs, xdp_multiprog__link_pinned_progs fault from_obj dir lock (fun _ => true)
          (Some (mp {{ first_prog := []; num_links := 0 }})) fs1 =
        Some (0, Some (mp {{ first_prog := rs; num_links := zlen rs }})) /\ Forall3 read_as (first_prog mp) ps rs)).
Proof.
  intros Hpos Hl Hps Hdir Hd He Hlen Hc Hconf Ha Hq undo_ok read_ok. pose proof (slot_names_nodup _ _ Hlen Ha) as Hnd.
  assert (first_prog mp <> []) as Hne by (intros E; rewrite E in Ha; by destruct ps).
  destruct (pin_effect fault obj_of Hpos dir lock mp d fs Hl Hne Hdir Hd He) as (err & fs1 & E & H0 & H1).
  exists err, fs1. split_and!; [done | |].
  - intros Hz. destruct (H1 Hz) as (Hlt & Hleft & _). split_and!; [done | done |]. intros [Hu Hr].
    destruct (pin_spec fault obj_of Hpos Hu Hr dir lock mp d fs Hl Hne Hdir Hd He) as (err' & fs' & E' & _ & H').
    rewrite E in E'. injection E' as <- <-. by apply H'.
  - intros ->. destruct (H0 eq_refl) as (D1 & Hs & F1). split.
    + intros [Hu Hr]. by eapply unpin_spec.
    + intros [Hg Hst]. eapply (link_pinned_spec fault obj_of); [done | done | done | done | rewrite D1; set_solver | done.. |].
      intros q Hin. rewrite F1. split; [by eapply (add_pins_lookup fault obj_of) | by apply Hq].
Qed.

(** Two programs; the second pin fails, and none. *)
Definition sample_q (i id : Z) : xdp_program :=
  xdp_program__new {{ prog_fd := i; link_fd := i + 100; prog_id := id; attach_name := Some (str "prog" ++ fmt_u (i - 3)) }}.
Definition sample_mp : xdp_multiprog :=
  {| mp_config := dispatcher_config true [sample_prog 10 6; sample_prog 50 5];
     main_prog := Some (xdp_program__new {{ prog_id := 7 }}); first_prog := [sample_q 3 6; sample_q 4 5]; hw_prog := None;
     version := 2; num_links := 2; is_loaded := true; is_legacy := false; kernel_frags_support := true;
     mp_attach_mode := 0; mp_ifindex := 2 |}.
Definition sample_fault (b : bool) (op : fs_op) (f : list byte) : option Z :=
  match op with Pin => if b && bool_decide (f = str "prog1-prog") then Some ENOSPC else None | _ => None end.
Definition sample_from (obj : Z) : Z + xdp_program :=
  inr (xdp_program__new {{ prog_id := if obj =? 3 then 6 else 5 }}).
Definition sample_fs : bpffs := {| dirs := {[ str "/b" ]}; files := {[ (str "/b", str "x") := 1 ]} |}.

(** Calls that undo and read do not fail in [sample_fault]. *)
Lemma pin_transaction_witness :
  xdp_multiprog__pin (sample_fault true) id (inr (str "/b")) 1 (Some sample_mp) sample_fs = Some (- ENOSPC, sample_fs) /\
  exists fs1 rs,
    xdp_multiprog__pin (sample_fault false) id (inr (str "/b")) 1 (Some sample_mp) sample_fs = Some (0, fs1) /\
    xdp_multiprog__unpin (sample_fault false) (inr (str "/b")) 1 (Some sample_mp) fs1 = Some (0, sample_fs) /\
    Forall3 read_as (first_prog sample_mp) [sample_prog 10 6; sample_prog 50 5] rs.
Proof.
  assert (forall b, exists err fs1,
    xdp_multiprog__pin (sample_fault b) id (inr (str "/b")) 1 (Some sample_mp) sample_fs = Some (err, fs1) /\
    (err <> 0 -> fs1 = sample_fs) /\
    (err = 0 -> xdp_multiprog__unpin (sample_fault b) (inr (str "/b")) 1 (Some sample_mp) fs1 = Some (0, sample_fs) /\
      exists rs, Forall3 read_as (first_prog sample_mp) [sample_prog 10 6; sample_prog 50 5] rs)) as H.
  { intros b. destruct (pin_transaction (sample_fault b) id sample_from (inr (str "/b")) 1 sample_mp (str "/b/dispatch-2-7") true
      [sample_prog 10 6; sample_prog 50 5] sample_fs) as (err & fs1 & E & H1 & H0);
      [intros [] f errno; cbn; [done | done | | done | done | done]; destruct (b && _); [by intros [= <-] | done]
      | done | done | vm_compute; reflexivity | by apply (bool_decide_unpack _); vm_compute |
      | simpl; unfold MAX_DISPATCHER_ACTIONS; lia | repeat (constructor; [split; vm_compute; done |]); constructor
      | reflexivity | vm_compute; reflexivity | |].
    - intros f. unfold sample_fs. cbn [files]. apply lookup_singleton_None. intros [=].
    - intros q [-> | [-> | Hq%not_elem_of_nil]%elem_of_cons]%elem_of_cons; [by eexists.. | done].
    - exists err, fs1. split; [exact E |]. split; [intros Hz; by apply (H1 Hz) |]. intros Hz. destruct (H0 Hz) as [Hu Hr].
      split; [by apply Hu |]. destruct Hr as (rs & _ & Hr); [done |]. by exists rs. }
  destruct (H true) as (err & fs1 & E & Hf & _). destruct (H false) as (err' & fs1' & E' & _ & Ht).
  assert (err = - ENOSPC) as -> by (apply (f_equal (fmap fst)) in E; vm_compute in E; by injection E as <-).
  assert (err' = 0) as -> by (apply (f_equal (fmap fst)) in E'; vm_compute in E'; by injection E' as <-).
  rewrite (Hf ltac:(discriminate)) in E. destruct (Ht eq_refl) as (Hu & rs & Hr).
  split; [exact E |]. exists fs1', rs. split; [exact E' |]. split; [exact Hu | exact Hr].
Defined.

(** The second program cannot be pinned, and the pins of the first cannot be
    removed: pinning fails and leaves them. *)
Lemma failed_undo_leaves_pins :
  match xdp_multiprog__pin (fun op f => match op with Unlink => Some EBUSY | _ => sample_fault true op f end) id (inr (str "/b")) 1 (Some sample_mp) sample_fs with
  | Some (err, fs) => err = - ENOSPC /\ files fs !! (str "/b/dispatch-2-7", str "prog0-prog") = Some 3
  | None => False
  end.
Proof. vm_compute. done. Qed.
