(* ===== verification/XdpMultiprog.v ===== *)
(** Finding the programs of an interface again:
    src/lib/xdp-tools/lib/libxdp/libxdp.c, from [xdp_program__fill_from_fd] and
    [xdp_program__from_fd] over [check_dispatcher_version] and
    [xdp_multiprog__fill_from_fd] to [xdp_multiprog__get_from_ifindex].

    What the kernel answers about a descriptor, an identifier or a map is an
    argument.  [None] is undefined behaviour: a read outside of a buffer, or a
    null pointer. *)
From S2P Require Import Prelude.
From S2P Require Import CLib.
From S2P Require Import XdpStats.
From S2P Require Import XdpProgram.
From S2P Require Import XdpDispatch.
From S2P Require Import XdpPin.

Definition MAX_RETRY : Z := 10.
Definition XDP_DISPATCHER_VERSION_V1 : Z := 1.
Definition XDP_METADATA_SECTION : list byte := str "xdp_metadata".
Definition BPF_F_RDONLY_PROG : Z := Z.shiftl 1 7.

(** [enum xdp_attach_mode]. *)
Definition XDP_MODE_UNSPEC : Z := 0.
Definition XDP_MODE_NATIVE : Z := 1.
Definition XDP_MODE_SKB : Z := 2.
Definition XDP_MODE_HW : Z := 3.

(** [attach_mode] of the kernel. *)
Definition XDP_ATTACHED_NONE : Z := 0.
Definition XDP_ATTACHED_DRV : Z := 1.
Definition XDP_ATTACHED_SKB : Z := 2.
Definition XDP_ATTACHED_HW : Z := 3.
Definition XDP_ATTACHED_MULTI : Z := 4.

(** ** Programs from descriptors *)

(** What is used of [struct bpf_prog_info]; [pi_map_id] is the first of the
    program's maps. *)
Record prog_info := {
  pi_id : Z; pi_name : list byte; pi_tag : list byte; pi_load_time : Z; pi_btf_id : Z; pi_nr_maps : Z; pi_map_id : Z }.

(** The answers about a descriptor; [inl] an errno. *)
Record fd_env := {
  fe_alloc : bool;
  fe_dup : Z + Z;              (** fcntl(F_DUPFD_CLOEXEC) *)
  fe_info : Z + prog_info;     (** bpf_obj_get_info_by_fd *)
  fe_strdup : bool;
  fe_btf : option btf          (** btf__load_from_kernel_by_id *)
}.

(** An empty name is the null pointer. *)
Definition xdp_program__fill_from_fd (e : fd_env) (p : option xdp_program) : Z * option xdp_program :=
  match p with
  | None => (- EINVAL, None)
  | Some p =>
    match fe_dup e with
    | inl errno => (- errno, Some p)
    | inr fd =>
      match fe_info e with
      | inl errno => (- errno, Some p)
      | inr info =>
        let null := match prog_name p with [] => true | _ => false end in
        if null && negb (fe_strdup e) then (- ENOMEM, Some p) else
        let p := if null then p {{ prog_name := pi_name info }} else p in
        let load_btf := c_true (pi_btf_id info) && negb (bool_decide (is_Some (prog_btf p))) in
        if load_btf && negb (bool_decide (is_Some (fe_btf e))) then (0, Some p) else
        let p := if load_btf then p {{ prog_btf := fe_btf e }} else p in
        (0, Some (p {{ prog_tag := pi_tag info; load_time := pi_load_time info; prog_fd := fd; prog_id := pi_id info }}))
      end
    end
  end.

(** [inl] is an error pointer. *)
Definition xdp_program__from_fd (e : fd_env) : option (Z + xdp_program) :=
  if negb (fe_alloc e) then Some (inl (- ENOMEM)) else
  let '(err, p) := xdp_program__fill_from_fd e (Some xdp_program__new) in
  if negb (err =? 0) then Some (inl err) else
  p ← p;
  '(err, p) ← xdp_program__parse_btf p None;
  Some (if negb (err =? 0) && negb (err =? - ENOENT) then inl err else inr p).

(** [get] is the answer of bpf_prog_get_fd_by_id. *)
Definition xdp_program__from_id (get : Z + Z) (about : Z -> fd_env) : option (Z + xdp_program) :=
  match get with inl errno => Some (inl (- errno)) | inr fd => xdp_program__from_fd (about fd) end.

(** The same for [bpf_obj_get] of a path. *)
Definition xdp_program__from_pin (get : Z + Z) (about : Z -> fd_env) : option (Z + xdp_program) :=
  match get with inl errno => Some (inl (- errno)) | inr fd => xdp_program__from_fd (about fd) end.

(** ** Dispatchers *)

(** The version in the metadata section: an error, or 0 and the version. *)
Definition check_xdp_prog_version (b : btf) (name : list byte) : option (Z * Z) :=
  match btf_get_datasec (Some b) XDP_METADATA_SECTION with
  | None => Some (- ENOENT, 0)
  | Some sec =>
    def ← btf_get_section_var b sec name BTF_KIND_PTR;
    Some (match def with
          | inl err => (err, 0)
          | inr def => match get_field_int b def with None => (- ENOENT, 0) | Some v => (0, v) end
          end)
  end.

(** [struct xdp_dispatcher_config] in memory, 124 bytes. *)
Definition sizeof_config : Z := 124.

(** An array of [n] words. *)
Fixpoint load_words (m : list byte) (off : Z) (n : nat) : option (list Z) :=
  match n with
  | O => Some []
  | S n => v ← load32 m off; l ← load_words m (off + 4) n; Some (v :: l)
  end.

Definition load_config (m : list byte) : option xdp_dispatcher_config :=
  mg ← load8 m 0; v ← load8 m 1; n ← load8 m 2; fr ← load8 m 3;
  ca ← load_words m 4 MAX_DISPATCHER_ACTIONS; rp ← load_words m 44 MAX_DISPATCHER_ACTIONS;
  pf ← load_words m 84 MAX_DISPATCHER_ACTIONS;
  Some {| magic := mg; dispatcher_version := v; num_progs_enabled := n; is_xdp_frags := c_true fr;
          call_actions := ca; run_prios := rp; program_flags := pf |}.

Record map_info := { mi_key_size : Z; mi_value_size : Z; mi_max_entries : Z; mi_map_flags : Z }.

(** The answers about the dispatcher's map. *)
Record map_env := {
  me_fd : Z + Z;               (** bpf_map_get_fd_by_id *)
  me_info : Z + map_info;
  me_alloc : bool;
  me_value : Z + list byte     (** bpf_map_lookup_elem: the buffer *)
}.

(** From the version number on. *)
Definition take_config (mp : xdp_multiprog) (value_size ver : Z) (buf : list byte) : option (Z * xdp_multiprog) :=
  if ver =? XDP_DISPATCHER_VERSION_V1 then
    n ← load8 buf 0;
    ca ← load_words buf 4 MAX_DISPATCHER_ACTIONS;
    rp ← load_words buf 44 MAX_DISPATCHER_ACTIONS;
    let c := mp_config mp in
    let c := {| magic := magic c; dispatcher_version := dispatcher_version c; num_progs_enabled := n;
                is_xdp_frags := is_xdp_frags c; call_actions := ca; run_prios := rp; program_flags := program_flags c |} in
    Some (0, mp {{ mp_config := c; version := ver }})
  else if ver =? XDP_DISPATCHER_VERSION then
    if negb (value_size =? sizeof_config) then Some (- EINVAL, mp) else
    c ← load_config buf;
    Some (0, mp {{ mp_config := c; version := ver }})
  else Some (- EOPNOTSUPP, mp).

Definition check_dispatcher_version (e : map_env) (mp : xdp_multiprog) (name : list byte) (b : btf) (nr_maps : Z) :
    option (Z * xdp_multiprog) :=
  if negb (bool_decide (name = str "xdp_dispatcher")) then Some (- ENOENT, mp) else
  if negb (nr_maps =? 1) then Some (- ENOENT, mp) else
  match me_fd e with
  | inl errno => Some (- errno, mp)
  | inr _ =>
    match me_info e with
    | inl errno => Some (- errno, mp)
    | inr i =>
      if negb (mi_key_size i =? 4) || (mi_value_size i <? 2) || negb (mi_max_entries i =? 1) ||
         negb (c_true (Z.land (mi_map_flags i) BPF_F_RDONLY_PROG)) then Some (- EINVAL, mp) else
      if negb (me_alloc e) then Some (- ENOMEM, mp) else
      match me_value e with
      | inl errno => Some (- errno, mp)
      | inr buf =>
        b0 ← load8 buf 0;
        '(err, ver) ← (if b0 =? XDP_DISPATCHER_MAGIC then v ← load8 buf 1; Some (0, v)
                           else check_xdp_prog_version b (str "dispatcher_version"));
        if negb (err =? 0) then Some (err, mp) else take_config mp (mi_value_size i) ver buf
      end
    end
  end.

(** The answers [xdp_multiprog__fill_from_fd] gets. *)
Record fill_env := {
  fl_info : Z + prog_info;          (** about the main program *)
  fl_btf : option btf;
  fl_map : Z -> map_env;
  fl_main : fd_env;                 (** to xdp_program__from_fd of it *)
  fl_hw : fd_env;
  fl_pinned : xdp_multiprog -> option (Z * option xdp_multiprog)  (** link_pinned_progs *)
}.

(** From [legacy] on: the main program and, behind a dispatcher, its programs. *)
Definition fill_main (e : fill_env) (mp : xdp_multiprog) : option (Z * xdp_multiprog) :=
  r ← xdp_program__from_fd (fl_main e);
  match r with
  | inl err => Some (err, mp)
  | inr prog =>
    let mp := mp {{ main_prog := Some prog }} in
    if is_legacy mp then Some (0, mp) else
    '(err, mp') ← fl_pinned e mp;
    let mp := default mp mp' in
    Some (0, if negb (err =? 0) then mp {{ is_legacy := true }} else mp)
  end.

(** Behind the main program: the hardware one. *)
Definition fill_hw (e : fill_env) (hw_fd : Z) (mp : xdp_multiprog) : option (Z * xdp_multiprog) :=
  if 0 <? hw_fd then
    r ← xdp_program__from_fd (fl_hw e);
    match r with
    | inl err => Some (err, mp)
    | inr prog =>
      let mp := match first_prog mp with [] => mp {{ is_legacy := true }} | _ => mp end in
      Some (0, mp {{ hw_prog := Some prog; is_loaded := true }})
    end
  else Some (0, mp {{ is_loaded := true }}).

Definition xdp_multiprog__fill_from_fd (e : fill_env) (mp : option xdp_multiprog) (prog_fd hw_fd : Z) :
    option (Z * option xdp_multiprog) :=
  match mp with
  | None => Some (- EINVAL, None)
  | Some mp =>
    let with_main (mp : xdp_multiprog) :=
      '(err, mp) ← fill_main e mp;
      if negb (err =? 0) then Some (err, Some mp) else
      '(err, mp) ← fill_hw e hw_fd mp; Some (err, Some mp) in
    if 0 <? prog_fd then
      match fl_info e with
      | inl _ => Some (- EINVAL, Some mp)
      | inr info =>
        if negb (c_true (pi_btf_id info)) then with_main (mp {{ is_legacy := true }}) else
        match fl_btf e with
        | None => Some (0, Some mp)
        | Some b =>
          '(err, mp) ← check_dispatcher_version (fl_map e (pi_map_id info)) mp (pi_name info) b (pi_nr_maps info);
          if negb (err =? 0) then
            if negb (err =? - ENOENT) then Some (err, Some mp) else with_main (mp {{ is_legacy := true }})
          else with_main mp
        end
      end
    else '(err, mp) ← fill_hw e hw_fd mp; Some (err, Some mp)
  end.

Definition xdp_multiprog__from_fd (alloc : bool) (e : fill_env) (fd hw_fd ifindex : Z) : option (Z + xdp_multiprog) :=
  match xdp_multiprog__new alloc ifindex with
  | None => Some (inl (- ENOMEM))
  | Some mp =>
    '(err, mp) ← xdp_multiprog__fill_from_fd e (Some mp) fd hw_fd;
    if negb (err =? 0) then Some (inl err) else mp ← mp; Some (inr mp)
  end.

(** [get] is bpf_prog_get_fd_by_id. *)
Definition xdp_multiprog__from_id (alloc : bool) (get : Z -> Z + Z) (e : Z -> Z -> fill_env) (id hw_id ifindex : Z) :
    option (Z + xdp_multiprog) :=
  match (if c_true id then get id else inr 0) with
  | inl errno => Some (inl (- errno))
  | inr fd =>
    match (if c_true hw_id then get hw_id else inr 0) with
    | inl errno => Some (inl (- errno))
    | inr hw_fd => xdp_multiprog__from_fd alloc (e fd hw_fd) fd hw_fd ifindex
    end
  end.

(** What bpf_xdp_query reports. *)
Record query_answer := { qa_drv : Z; qa_skb : Z; qa_hw : Z; qa_mode : Z }.

(** The three results, given what they are before. *)
Definition xdp_get_ifindex_prog_id (q : Z + query_answer) (ids : Z * Z * Z) : Z * (Z * Z * Z) :=
  let '(prog_id, hw_prog_id, mode) := ids in
  match q with
  | inl err => (err, ids)
  | inr q =>
    if qa_mode q =? XDP_ATTACHED_SKB then (0, (qa_skb q, hw_prog_id, XDP_MODE_SKB)) else
    if qa_mode q =? XDP_ATTACHED_DRV then (0, (qa_drv q, hw_prog_id, XDP_MODE_NATIVE)) else
    if qa_mode q =? XDP_ATTACHED_MULTI then
      if c_true (qa_drv q) then (0, (qa_drv q, qa_hw q, XDP_MODE_NATIVE)) else
      if c_true (qa_skb q) then (0, (qa_skb q, qa_hw q, XDP_MODE_SKB)) else (0, (prog_id, qa_hw q, mode))
    else if qa_mode q =? XDP_ATTACHED_HW then (0, (prog_id, qa_hw q, XDP_MODE_UNSPEC))
    else (0, (prog_id, hw_prog_id, XDP_MODE_UNSPEC))
  end.

(** One attempt at [retry]: the answers to the query and to the rest. *)
Record attempt := {
  at_query : Z + query_answer;
  at_alloc : bool;
  at_get : Z -> Z + Z;
  at_fill : Z -> Z -> fill_env
}.

(** [tries] are the attempts that [MAX_RETRY] leaves; [n] counts them. *)
Fixpoint get_retry (world : nat -> attempt) (ifindex : Z) (tries n : nat) (ids : Z * Z * Z) : option (Z + xdp_multiprog) :=
  let a := world n in
  let '(err, ids) := xdp_get_ifindex_prog_id (at_query a) ids in
  if negb (err =? 0) then Some (inl err) else
  let '(prog_id, hw_prog_id, mode) := ids in
  if negb (c_true prog_id) && negb (c_true hw_prog_id) then Some (inl (- ENOENT)) else
  mp ← xdp_multiprog__from_id (at_alloc a) (at_get a) (at_fill a) prog_id hw_prog_id ifindex;
  match mp with
  | inr mp => Some (inr (mp {{ mp_attach_mode := mode }}))
  | inl err =>
    if err =? - ENOENT then
      match tries with
      | O => Some (inl (- EBUSY))
      | S tries => get_retry world ifindex tries (S n) ids
      end
    else Some (inl err)
  end.

Definition xdp_multiprog__get_from_ifindex (world : nat -> attempt) (ifindex : Z) : option (Z + xdp_multiprog) :=
  get_retry world ifindex (Z.to_nat MAX_RETRY) 0 (0, 0, XDP_MODE_UNSPEC).

(** ** Accessors *)

Definition xdp_multiprog__main_fd (mp : option xdp_multiprog) : Z :=
  match mp with
  | None => - EINVAL
  | Some mp => match main_prog mp with None => - ENOENT | Some p => prog_fd p end
  end.

Definition xdp_multiprog__main_id (mp : option xdp_multiprog) : Z :=
  match mp with
  | None => 0
  | Some mp => match main_prog mp with None => 0 | Some p => prog_id p end
  end.

Definition xdp_multiprog__hw_fd (mp : option xdp_multiprog) : Z :=
  match mp with
  | None => - EINVAL
  | Some mp => match hw_prog mp with None => - ENOENT | Some p => prog_fd p end
  end.

Definition xdp_multiprog__hw_id (mp : option xdp_multiprog) : Z :=
  match mp with
  | None => 0
  | Some mp => match hw_prog mp with None => 0 | Some p => prog_id p end
  end.

Definition xdp_multiprog__is_legacy (mp : option xdp_multiprog) : bool :=
  match mp with None => false | Some mp => is_legacy mp end.

(** The programs [xdp_multiprog__next_prog] visits. *)
Definition xdp_multiprog__progs (mp : option xdp_multiprog) : list xdp_program :=
  match mp with None => [] | Some mp => if is_legacy mp then [] else first_prog mp end.

Definition xdp_program__id (p : option xdp_program) : Z := match p with None => 0 | Some p => prog_id p end.

(** [found] is the answer of [xdp_multiprog__get_from_ifindex]. *)
Definition xdp_program__is_attached (found : option (Z + xdp_multiprog)) (p : option xdp_program) : option Z :=
  match p with
  | None => Some XDP_MODE_UNSPEC
  | Some p =>
    if negb (c_true (prog_id p)) then Some XDP_MODE_UNSPEC else
    r ← found;
    Some (match r with
          | inl _ => XDP_MODE_UNSPEC
          | inr mp =>
            if xdp_program__id (hw_prog mp) =? prog_id p then XDP_MODE_HW else
            if is_legacy mp then if xdp_program__id (main_prog mp) =? prog_id p then mp_attach_mode mp else XDP_MODE_UNSPEC
            else if existsb (fun q => prog_id q =? prog_id p) (xdp_multiprog__progs (Some mp)) then mp_attach_mode mp
            else XDP_MODE_UNSPEC
          end)
  end.

(** ** The configuration in the dispatcher's map *)

Definition words (l : list Z) : list byte := l ≫= le_split 4.

(** The bytes the map is given as its initial value. *)
Definition store_config (c : xdp_dispatcher_config) : list byte :=
  le_split 1 (magic c) ++ le_split 1 (dispatcher_version c) ++ le_split 1 (num_progs_enabled c) ++
  le_split 1 (c_bool (is_xdp_frags c)) ++ words (call_actions c) ++ words (run_prios c) ++ words (program_flags c).

Definition is_u32 (v : Z) : Prop := 0 <= v < 2 ^ 32.

Definition config_ok (c : xdp_dispatcher_config) : Prop :=
  0 <= magic c < 2 ^ 8 /\ 0 <= dispatcher_version c < 2 ^ 8 /\ 0 <= num_progs_enabled c < 2 ^ 8 /\
  (length (call_actions c) = MAX_DISPATCHER_ACTIONS /\ Forall is_u32 (call_actions c)) /\
  (length (run_prios c) = MAX_DISPATCHER_ACTIONS /\ Forall is_u32 (run_prios c)) /\
  (length (program_flags c) = MAX_DISPATCHER_ACTIONS /\ Forall is_u32 (program_flags c)).

Lemma zlen_words l : zlen (words l) = 4 * zlen l.
Proof.
  induction l as [| v l IH]; [done |]. change (words (v :: l)) with (le_split 4 v ++ words l).
  rewrite zlen_app, zlen_le_split, IH, zlen_cons. lia.
Qed.

Lemma load_words_spec l : Forall is_u32 l -> forall pre post off n, off = zlen pre -> n = length l ->
  load_words (pre ++ words l ++ post) off n = Some l.
Proof.
  induction 1 as [| v l Hv _ IH]; intros pre post off n -> ->; [done |]. cbn [length load_words].
  change (words (v :: l)) with (le_split 4 v ++ words l). rewrite <- app_assoc. rewrite load_app_le by (done || exact Hv).
  cbn [mbind option_bind]. rewrite (app_assoc pre). rewrite (IH (pre ++ le_split 4 v)) by (done || by rewrite zlen_app, zlen_le_split). done.
Qed.

Lemma load_store_config c : config_ok c -> load_config (store_config c) = Some c /\ zlen (store_config c) = sizeof_config.
Proof.
  intros (Hm & Hv & Hn & [La Fa] & [Lr Fr] & [Lf Ff]). split.
  2: { unfold store_config. rewrite !zlen_app, !zlen_le_split, !zlen_words. unfold zlen, MAX_DISPATCHER_ACTIONS, sizeof_config in *. lia. }
  unfold load_config, store_config.
  set (a := le_split 1 (magic c)). set (b := le_split 1 (dispatcher_version c)). set (d := le_split 1 (num_progs_enabled c)).
  set (f := le_split 1 (c_bool (is_xdp_frags c))). set (wa := words (call_actions c)). set (wr := words (run_prios c)).
  set (wf := words (program_flags c)).
  assert (load8 (a ++ b ++ d ++ f ++ wa ++ wr ++ wf) 0 = Some (magic c)) as -> by (by apply (load_app_le [])).
  assert (load8 (a ++ b ++ d ++ f ++ wa ++ wr ++ wf) 1 = Some (dispatcher_version c)) as -> by (by apply (load_app_le a)).
  rewrite (app_assoc a b). assert (load8 ((a ++ b) ++ d ++ f ++ wa ++ wr ++ wf) 2 = Some (num_progs_enabled c)) as -> by (by apply load_app_le).
  rewrite (app_assoc (a ++ b) d). assert (load8 (((a ++ b) ++ d) ++ f ++ wa ++ wr ++ wf) 3 = Some (c_bool (is_xdp_frags c))) as ->
    by (apply load_app_le; [done | by destruct (is_xdp_frags c)]).
  assert (zlen wa = 40 /\ zlen wr = 40) as [Za Zr]
    by (unfold wa, wr; rewrite !zlen_words; unfold zlen; rewrite La, Lr; done).
  cbn [mbind option_bind]. rewrite (app_assoc ((a ++ b) ++ d) f). set (h := ((a ++ b) ++ d) ++ f).
  assert (load_words (h ++ wa ++ wr ++ wf) 4 MAX_DISPATCHER_ACTIONS = Some (call_actions c)) as ->
    by (by apply load_words_spec).
  assert (load_words (h ++ wa ++ wr ++ wf) 44 MAX_DISPATCHER_ACTIONS = Some (run_prios c)) as ->.
  { rewrite app_assoc. apply load_words_spec; [done | rewrite zlen_app, Za; done | done]. }
  assert (load_words (h ++ wa ++ wr ++ wf) 84 MAX_DISPATCHER_ACTIONS = Some (program_flags c)) as ->.
  { rewrite <- (app_nil_r wf), (app_assoc h), (app_assoc (h ++ wa)).
    apply load_words_spec; [done | rewrite !zlen_app, Za, Zr; done | done]. }
  cbn [mbind option_bind]. destruct c as [? ? ? [] ? ? ?]; done.
Qed.

Lemma slots_ok l : (length l <= MAX_DISPATCHER_ACTIONS)%nat -> Forall is_u32 l -> length (slots l) = MAX_DISPATCHER_ACTIONS /\ Forall is_u32 (slots l).
Proof.
  intros Hl HF. unfold slots. split; [rewrite length_app, length_replicate; lia |]. apply Forall_app. split; [done |].
  apply Forall_replicate. done.
Qed.

(** Programs whose settings are what the struct can hold. *)
Definition settings_ok (p : xdp_program) : Prop := 0 <= chain_call_actions p < 2 ^ 31 /\ is_u32 (run_prio p).

Lemma dispatcher_config_ok frags ps : (length ps <= MAX_DISPATCHER_ACTIONS)%nat -> Forall settings_ok ps ->
  config_ok (dispatcher_config frags ps).
Proof.
  intros Hl HF. unfold config_ok, dispatcher_config. cbn [magic dispatcher_version num_progs_enabled call_actions run_prios program_flags].
  pose proof (u8_range (zlen ps)). do 3 (split; [done |]). split; [| split]; (apply slots_ok; [by rewrite length_map |]);
    apply List.Forall_map; (eapply Forall_impl; [exact HF |]); intros p [Ha Hp]; cbv beta.
  - assert (Z.testbit (chain_call_actions p) 31 = false) as Ht by (apply Z.testbit_false; [done | by rewrite Z.div_small]).
    assert (Z.land (chain_call_actions p) (2 ^ 31) = 0) as H0 by (rewrite land_pow2_testbit, Ht by done; done).
    change (Z.shiftl 1 XDP_DISPATCHER_RETVAL) with (2 ^ 31). rewrite <- Z.lxor_lor, <- Z.add_nocarry_lxor by done. unfold is_u32. lia.
  - exact Hp.
  - by destruct (xdp_program__xdp_frags_support (Some p)).
Qed.

(** ** A dispatcher is found again *)

(** The kernel reports the program [id], in driver or generic mode. *)
Definition shows (id mode : Z) (q : Z + query_answer) : Prop :=
  exists a, q = inr a /\ ((qa_mode a = XDP_ATTACHED_DRV /\ qa_drv a = id /\ mode = XDP_MODE_NATIVE) \/
                          (qa_mode a = XDP_ATTACHED_SKB /\ qa_skb a = id /\ mode = XDP_MODE_SKB)).

(** The map has the [value] the dispatcher was loaded with. *)
Definition config_map (m : map_env) (value : list byte) : Prop :=
  (exists fd, me_fd m = inr fd) /\ me_alloc m = true /\ me_value m = inr value /\
  exists i, me_info m = inr i /\ mi_key_size i = 4 /\ mi_value_size i = zlen value /\ mi_max_entries i = 1 /\
    c_true (Z.land (mi_map_flags i) BPF_F_RDONLY_PROG) = true.

(** What the kernel answers about a dispatcher with the identifier [id]. *)
Definition dispatcher_fd (e : fill_env) (id : Z) (value : list byte) : Prop :=
  (exists info b, fl_info e = inr info /\ pi_btf_id info <> 0 /\ pi_name info = str "xdp_dispatcher" /\ pi_nr_maps info = 1 /\
    fl_btf e = Some b /\ config_map (fl_map e (pi_map_id info)) value) /\
  exists p, xdp_program__from_fd (fl_main e) = Some (inr p) /\ prog_id p = id.

Lemma get_prog_id_shows q id mode : shows id mode q ->
  xdp_get_ifindex_prog_id q (0, 0, XDP_MODE_UNSPEC) = (0, (id, 0, mode)).
Proof.
  intros (a & -> & [(Hm & <- & ->) | (Hm & <- & ->)]); unfold xdp_get_ifindex_prog_id; rewrite Hm; done.
Qed.

Lemma check_version_spec m mp b frags ps : config_map m (store_config (dispatcher_config frags ps)) ->
  (length ps <= MAX_DISPATCHER_ACTIONS)%nat -> Forall settings_ok ps ->
  check_dispatcher_version m mp (str "xdp_dispatcher") b 1 =
    Some (0, mp {{ mp_config := dispatcher_config frags ps; version := XDP_DISPATCHER_VERSION }}).
Proof.
  intros ((fd & Hfd) & Hal & Hval & i & Hi & Hk & Hv & Hm & Hf) Hl Hs.
  destruct (load_store_config _ (dispatcher_config_ok frags ps Hl Hs)) as [Hload Hz].
  unfold check_dispatcher_version. rewrite bool_decide_true by done. cbn [negb Z.eqb Pos.eqb]. rewrite Hfd, Hi, Hk, Hm, Hf, Hv, Hz, Hal, Hval.
  change (sizeof_config <? 2) with false. cbn [negb Z.eqb Pos.eqb orb].
  assert (load8 (store_config (dispatcher_config frags ps)) 0 = Some XDP_DISPATCHER_MAGIC /\
    load8 (store_config (dispatcher_config frags ps)) 1 = Some XDP_DISPATCHER_VERSION) as [-> ->].
  { split; [by apply (load_app_le []) |]. unfold store_config. by apply (load_app_le (le_split 1 _)). }
  cbn [mbind option_bind]. rewrite Z.eqb_refl. cbn [mbind option_bind]. change (0 =? 0) with true. cbn [negb].
  unfold take_config. change (XDP_DISPATCHER_VERSION =? XDP_DISPATCHER_VERSION_V1) with false. rewrite !Z.eqb_refl. cbn [negb].
  rewrite Hload. done.
Qed.

Section Found.
Context (fault : fs_op -> list byte -> option Z) (obj_of : Z -> Z) (about : Z -> fd_env).
Context (fault_pos : forall op f errno, fault op f = Some errno -> 0 < errno).
Context (fault_get : forall f, fault Get f = None) (fault_stat : forall f, fault Stat f = None).

(** The program behind a pinned object. *)
Definition from_obj (obj : Z) : Z + xdp_program := default (inl (- EINVAL)) (xdp_program__from_fd (about obj)).

(** A dispatcher as [xdp_multiprog__generate] makes them: not loaded from a
    legacy program, slots named in order, configured from [ps]. *)
Definition generated (mp : xdp_multiprog) (main : xdp_program) (frags : bool) (ps : list xdp_program) : Prop :=
  is_legacy mp = false /\ main_prog mp = Some main /\ prog_id main <> 0 /\ ps <> [] /\
  (length ps <= MAX_DISPATCHER_ACTIONS)%nat /\ Forall settings_ok ps /\ mp_config mp = dispatcher_config frags ps /\
  attach_name <$> first_prog mp = Some <$> (slot_name <$> seq 0 (length ps)).

(** The pins of a dispatcher in the directory [d] of a file system. *)
Definition pinned (fs : bpffs) (d : list byte) (mp : xdp_multiprog) : Prop :=
  d ∈ dirs fs /\ shorts d (first_prog mp) /\
  forall q, q ∈ first_prog mp -> files fs !! (d, prog_file q) = Some (obj_of (prog_fd q)).

Lemma pin_pinned dir lock mp main frags ps d fs fs1 : generated mp main frags ps ->
  pin_dir dir lock mp = Some (inr d) -> d ∉ dirs fs -> (forall f, files fs !! (d, f) = None) ->
  xdp_multiprog__pin fault obj_of dir lock (Some mp) fs = Some (0, fs1) -> pinned fs1 d mp.
Proof.
  intros (Hl & _ & _ & Hps & Hlen & _ & _ & Ha) Hdir Hd He Hpin.
  assert (first_prog mp <> []) as Hne by (intros E; rewrite E in Ha; by destruct ps).
  destruct (pin_effect fault obj_of fault_pos dir lock mp d fs Hl Hne Hdir Hd He) as (err & fs1' & E & H0 & _).
  rewrite Hpin in E. injection E as <- <-. destruct (H0 eq_refl) as (D1 & Hs & F1).
  split_and!; [rewrite D1; set_solver | done |]. intros q Hq. rewrite F1.
  apply (add_pins_lookup fault obj_of fault_pos); [by eapply slot_names_nodup | done].
Qed.

Lemma fill_spec e fd mp0 mp main frags ps dir lock d fs : generated mp main frags ps -> 0 < fd ->
  xdp_multiprog__new true (mp_ifindex mp) = Some mp0 ->
  dispatcher_fd e (prog_id main) (store_config (mp_config mp)) ->
  (forall m, fl_pinned e m = xdp_multiprog__link_pinned_progs fault from_obj dir lock (fun _ => true) (Some m) fs) ->
  pin_dir dir lock mp = Some (inr d) -> pinned fs d mp ->
  (forall q, q ∈ first_prog mp -> exists r, from_obj (obj_of (prog_fd q)) = inr r /\ prog_id r = prog_id q) ->
  exists mp', xdp_multiprog__fill_from_fd e (Some mp0) fd 0 = Some (0, Some mp') /\
    xdp_program__id (main_prog mp') = prog_id main /\ mp_config mp' = mp_config mp /\ mp_ifindex mp' = mp_ifindex mp /\
    version mp' = XDP_DISPATCHER_VERSION /\ is_legacy mp' = false /\ is_loaded mp' = true /\ hw_prog mp' = None /\
    num_links mp' = zlen (first_prog mp') /\ Forall3 read_as (first_prog mp) ps (first_prog mp').
Proof.
  intros (Hl & Hmain & Hid & Hps & Hlen & Hset & Hconf & Ha) Hfd Hnew ((info & b & Hi & Hb & Hname & Hmaps & Hbtf & Hmap) & p & Hp & Hpid)
    Hpinned Hdir (Hd & Hs & Hf) Hq.
  unfold xdp_multiprog__fill_from_fd. rewrite (proj2 (Z.ltb_lt 0 fd)) by done. rewrite Hi. unfold c_true at 1.
  rewrite (proj2 (Z.eqb_neq (pi_btf_id info) 0)) by done. cbn [negb]. rewrite Hbtf, Hname, Hmaps.
  rewrite Hconf in Hmap. rewrite (check_version_spec _ mp0 b frags ps Hmap Hlen Hset). cbn [mbind option_bind]. change (0 =? 0) with true. cbn [negb].
  unfold xdp_multiprog__new in Hnew. injection Hnew as <-. set (m1 := _ {{ version := _ }}).
  unfold fill_main. rewrite Hp. cbn [mbind option_bind]. set (m2 := m1 {{ main_prog := Some p }}).
  change (is_legacy m2) with false. cbv iota. rewrite Hpinned.
  destruct (link_pinned_spec fault obj_of fault_pos from_obj fault_get fault_stat dir lock
    (m2 {{ first_prog := first_prog mp }}) d frags ps fs) as (rs & E & Hrs); try done.
  - rewrite <- Hdir. unfold pin_dir. rewrite Hmain. cbn [main_prog mbind option_bind]. destruct dir; [done |]. unfold m2, m1. cbn. unfold constant.
    by rewrite Hpid.
  - eapply Forall_impl; [exact Hset | by intros ? []].
  - intros q Hqq. split; [by apply Hf | by apply Hq].
  - change (m2 {{ first_prog := first_prog mp }} {{ first_prog := []; num_links := 0 }}) with m2 in E. rewrite E.
    cbn [mbind option_bind]. change (0 =? 0) with true. cbn [negb default from_option]. unfold fill_hw. cbn [Z.ltb Z.compare mbind option_bind].
    change (0 =? 0) with true. cbn [negb]. eexists. split; [done |]. unfold m2, m1. cbn. unfold constant. split_and!; done || by rewrite ?Hconf.
Qed.

(** C23: a dispatcher that was loaded and pinned is found again.  For a
    dispatcher as it is generated from the programs [ps], pinned in a directory
    that was not there, on an interface of which the kernel reports that
    dispatcher, when the calls that read the pins do not fail, [xdp_multiprog__get_from_ifindex] returns it: not as a legacy
    program, with its identifier, configuration and attach mode, and with every
    program in its slot, with the actions, the priority and the fragment support
    it was configured with; and [xdp_program__is_attached] gives that mode for
    each of its programs. *)
Theorem dispatcher_found_again world fd mp main frags ps dir lock lock' d fs fs1 mode : generated mp main frags ps ->
  pin_dir dir lock mp = Some (inr d) -> pin_dir dir lock' mp = Some (inr d) -> d ∉ dirs fs -> (forall f, files fs !! (d, f) = None) ->
  xdp_multiprog__pin fault obj_of dir lock (Some mp) fs = Some (0, fs1) ->
  (forall q, q ∈ first_prog mp -> prog_id q <> 0 /\ exists r, from_obj (obj_of (prog_fd q)) = inr r /\ prog_id r = prog_id q) ->
  let a := world 0%nat in
  shows (prog_id main) mode (at_query a) -> at_alloc a = true -> at_get a (prog_id main) = inr fd -> 0 < fd ->
  dispatcher_fd (at_fill a fd 0) (prog_id main) (store_config (mp_config mp)) ->
  (forall m, fl_pinned (at_fill a fd 0) m = xdp_multiprog__link_pinned_progs fault from_obj dir lock' (fun _ => true) (Some m) fs1) ->
  exists mp', xdp_multiprog__get_from_ifindex world (mp_ifindex mp) = Some (inr mp') /\
    xdp_program__id (main_prog mp') = prog_id main /\ mp_config mp' = mp_config mp /\ is_legacy mp' = false /\
    mp_attach_mode mp' = mode /\ num_links mp' = zlen (first_prog mp') /\ Forall3 read_as (first_prog mp) ps (first_prog mp') /\
    forall q, q ∈ first_prog mp ->
      xdp_program__is_attached (xdp_multiprog__get_from_ifindex world (mp_ifindex mp)) (Some q) = Some mode.
Proof.
  intros Hgen Hdir Hdir' Hd He Hpin Hq a Hshow Hal Hget Hfd Hdisp Hfp.
  pose proof (pin_pinned dir lock mp main frags ps d fs fs1 Hgen Hdir Hd He Hpin) as Hpinned.
  destruct (fill_spec (at_fill a fd 0) fd _ mp main frags ps dir lock' d fs1 Hgen Hfd eq_refl Hdisp Hfp Hdir' Hpinned)
    as (m & Em & H1 & H2 & H3 & H4 & H5 & H6 & H7 & H8 & H9); [intros q Hin; by apply Hq |].
  set (mp' := m {{ mp_attach_mode := mode }}).
  assert (xdp_multiprog__get_from_ifindex world (mp_ifindex mp) = Some (inr mp')) as E.
  { unfold xdp_multiprog__get_from_ifindex. change (Z.to_nat MAX_RETRY) with (S 9). generalize 9%nat as k. intros k. cbn [get_retry]. fold a.
    rewrite (get_prog_id_shows _ _ mode Hshow). change (0 =? 0) with true. cbn [negb].
    assert (c_true (prog_id main) = true) as Hc by (destruct Hgen as (_ & _ & Hid & _); unfold c_true; by rewrite (proj2 (Z.eqb_neq _ _))).
    unfold xdp_multiprog__from_id. rewrite Hc. cbn [negb andb]. rewrite Hget. change (c_true 0) with false. cbv iota. unfold xdp_multiprog__from_fd. rewrite Hal.
    unfold xdp_multiprog__new in *. rewrite Em. done. }
  exists mp'. rewrite E. unfold mp'. destruct m as [cf mn fp hw vs nl ld lg kf am ix]. cbn in *. unfold constant.
  split_and!; [done.. |]. intros q Hin. destruct (Hq q Hin) as [Hq0 _].
  unfold c_true. rewrite (proj2 (Z.eqb_neq (prog_id q) 0)) by done. cbn [negb mbind option_bind hw_prog]. subst.
  cbn [xdp_program__id is_legacy first_prog mp_attach_mode]. rewrite (proj2 (Z.eqb_neq 0 (prog_id q))) by done.
  assert (existsb (fun r => prog_id r =? prog_id q) fp = true) as ->; [| done].
  apply list_elem_of_lookup in Hin as [i Hi]. destruct (Forall3_lookup_l _ _ _ _ _ _ H9 Hi) as (p & r & _ & Hr & Hra & _).
  apply existsb_exists. exists r. split; [apply list_elem_of_In; by eapply list_elem_of_lookup_2 |]. by apply Z.eqb_eq.
Qed.
End Found.

Definition sample_about (obj : Z) : fd_env :=
  {| fe_alloc := true; fe_dup := inr (obj + 50);
     fe_info := inr {| pi_id := if obj =? 3 then 6 else if obj =? 4 then 5 else 7; pi_name := str "p"; pi_tag := replicate 8 x00; pi_load_time := 0;
                       pi_btf_id := 0; pi_nr_maps := 0; pi_map_id := 0 |};
     fe_strdup := true; fe_btf := None |}.

Definition sample_fill (fs : bpffs) : fill_env :=
  {| fl_info := inr {| pi_id := 7; pi_name := str "xdp_dispatcher"; pi_tag := replicate 8 x00; pi_load_time := 0;
                       pi_btf_id := 1; pi_nr_maps := 1; pi_map_id := 2 |};
     fl_btf := Some [];
     fl_map := fun _ => {| me_fd := inr 12; me_info := inr {| mi_key_size := 4; mi_value_size := 124; mi_max_entries := 1; mi_map_flags := 128 |};
                           me_alloc := true; me_value := inr (store_config (mp_config sample_mp)) |};
     fl_main := sample_about 11; fl_hw := sample_about 0;
     fl_pinned := fun m => xdp_multiprog__link_pinned_progs (sample_fault false) (from_obj sample_about) (inr (str "/b")) 1 (fun _ => true) (Some m) fs |}.

Definition sample_world (fs : bpffs) (n : nat) : attempt :=
  {| at_query := inr {| qa_drv := 7; qa_skb := 0; qa_hw := 0; qa_mode := XDP_ATTACHED_DRV |}; at_alloc := true;
     at_get := fun id => if id =? 7 then inr 11 else inl ENOENT; at_fill := fun _ _ => sample_fill fs |}.

Lemma dispatcher_found_again_witness :
  exists fs1 mp', xdp_multiprog__pin (sample_fault false) id (inr (str "/b")) 1 (Some sample_mp) sample_fs = Some (0, fs1) /\
    xdp_multiprog__get_from_ifindex (sample_world fs1) 2 = Some (inr mp') /\ mp_attach_mode mp' = XDP_MODE_NATIVE /\
    Forall3 read_as (first_prog sample_mp) [sample_prog 10 6; sample_prog 50 5] (first_prog mp').
Proof.
  destruct (xdp_multiprog__pin (sample_fault false) id (inr (str "/b")) 1 (Some sample_mp) sample_fs) as [[err fs1] |] eqn:E.
  2: { apply (f_equal (fmap fst)) in E. vm_compute in E. discriminate E. }
  assert (err = 0) as -> by (apply (f_equal (fmap fst)) in E; vm_compute in E; by injection E as <-).
  destruct (dispatcher_found_again (sample_fault false) id sample_about) with (world := sample_world fs1) (fd := 11) (mp := sample_mp)
    (main := xdp_program__new {{ prog_id := 7 }}) (frags := true) (ps := [sample_prog 10 6; sample_prog 50 5]) (dir := inr (str "/b") : Z + list byte)
    (lock := 1) (lock' := 1) (d := str "/b/dispatch-2-7") (fs := sample_fs) (fs1 := fs1) (mode := XDP_MODE_NATIVE)
    as (mp' & E' & _ & _ & _ & Hm & _ & Hr & _).
  - by intros [] f errno.
  - done.
  - done.
  - split; [reflexivity |]. split; [reflexivity |]. split; [done |]. split; [done |].
    split; [simpl; unfold MAX_DISPATCHER_ACTIONS; lia |]. split; [| split; reflexivity].
    repeat (constructor; [split; split; vm_compute; done |]). constructor.
  - vm_compute. reflexivity.
  - vm_compute. reflexivity.
  - by apply (bool_decide_unpack _); vm_compute.
  - intros f. unfold sample_fs. cbn [files]. apply lookup_singleton_None. intros [=].
  - exact E.
  - intros q [-> | [-> | Hq%not_elem_of_nil]%elem_of_cons]%elem_of_cons; [split; [done | eexists; split; vm_compute; reflexivity].. | done].
  - eexists. split; [reflexivity |]. left. split; [reflexivity | split; reflexivity].
  - reflexivity.
  - reflexivity.
  - lia.
  - split; [| eexists; split; vm_compute; reflexivity]. eexists _, _. split; [reflexivity |]. split; [done |].
    do 3 (split; [reflexivity |]). split; [eexists; reflexivity |]. split; [reflexivity |]. split; [reflexivity |].
    eexists. split; [reflexivity |]. split; [reflexivity |]. split; [vm_compute; reflexivity |]. split; reflexivity.
  - intros m. reflexivity.
  - exists fs1, mp'. split; [reflexivity |]. split; [exact E' |]. split; [exact Hm | exact Hr].
Defined.

(** ** What is lost *)

(** A program that is looked up is loaded, so that
    [xdp_program__set_chain_call_enabled] refuses to change its actions. *)
Lemma parse_members_loaded b ms : forall p p' err, 0 <= prog_fd p -> parse_members b ms p = Some (err, p') ->
  chain_call_actions p' = chain_call_actions p.
Proof.
  induction ms as [| [[mname |] type] ms IH]; intros p p' err Hfd; cbn [parse_members]; [by intros [= <- <-] | | by intros [= <- <-]].
  destruct (skip_mods_and_typedefs _ b type) as [m_t |]; [| done]. cbn [mbind option_bind].
  destruct (decide _).
  - destruct (get_field_int b m_t) as [v |]; [| by intros [= <- <-]]. intros E. apply IH in E; [| by destruct p]. rewrite E. by destruct p.
  - destruct (get_xdp_action mname) as [act |]; [| by intros [= <- <-]]. destruct (get_field_int b m_t) as [v |]; [| by intros [= <- <-]].
    unfold xdp_program__set_chain_call_enabled. rewrite (proj2 (Z.leb_le 0 (prog_fd p))) by done. cbn [orb snd default from_option id].
    intros E. by apply IH in E.
Qed.

Lemma parse_btf_loaded p p' err : 0 <= prog_fd p -> xdp_program__parse_btf p None = Some (err, p') ->
  chain_call_actions p' = chain_call_actions p.
Proof.
  intros Hfd. unfold xdp_program__parse_btf. 
  set (p1 := if (BPF_OBJ_NAME_LEN - 1 <=? length (prog_name p))%nat
    then match btf_get_function (prog_btf p) (prog_name p) with Some func => p {{ prog_name := btf_name func }} | None => p end else p).
  cbv zeta. change (if (BPF_OBJ_NAME_LEN - 1 <=? length (prog_name p))%nat then _ else p) with p1.
  assert (0 <= prog_fd p1 /\ chain_call_actions p1 = chain_call_actions p) as [Hfd1 <-].
  { unfold p1. destruct (_ <=? _)%nat; [| done]. destruct (btf_get_function _ _); [by destruct p | done]. }
  clearbody p1. destruct (100 <=? _); [by intros [= <- <-] |].
  destruct (btf_get_datasec _ _) as [sec |]; [| by intros [= <- <-]]. destruct (prog_btf p) as [b |]; [| by intros [= <- <-]].
  destruct (btf_get_section_var _ _ _ _) as [[e | def] |]; [by intros [= <- <-] | | done]. cbn [mbind option_bind].
  destruct def; try done. by apply parse_members_loaded.
Qed.

(** The actions of a program that is looked up are never those of its BTF.
    Whatever the metadata in the program's type information says, a program
    object made from a descriptor (by [xdp_program__from_fd], and so by identifier,
    from a pin, or by cloning) has the default chain call actions: the
    descriptor is stored before the metadata is parsed, and the parser sets
    actions with a function that refuses loaded programs.  The run priority,
    which it stores directly, is taken over. *)
Theorem from_fd_default_actions e p : (forall fd, fe_dup e = inr fd -> 0 <= fd) -> xdp_program__from_fd e = Some (inr p) ->
  chain_call_actions p = XDP_DEFAULT_CHAIN_CALL_ACTIONS.
Proof.
  intros Hfd. unfold xdp_program__from_fd. destruct (fe_alloc e); [| done]. cbn [negb]. unfold xdp_program__fill_from_fd.
  destruct (fe_dup e) as [n | fd]; [destruct (negb _); [done | by intros [= <-]] |]. specialize (Hfd fd eq_refl).
  destruct (fe_info e) as [n | info]; [destruct (negb _); [done | by intros [= <-]] |].
  cbn [prog_name xdp_program__new]. destruct (fe_strdup e); cbn [andb negb]; [| done].
  set (p1 := xdp_program__new {{ prog_name := pi_name info }}). change (prog_btf p1) with (@None btf). rewrite bool_decide_false by (by intros []).
  cbn [negb]. rewrite andb_true_r. destruct (c_true (pi_btf_id info) && negb (bool_decide (is_Some (fe_btf e)))) eqn:Eb; cbn [Z.eqb negb mbind option_bind].
  - destruct (xdp_program__parse_btf p1 None) as [[err p'] |] eqn:Ep; [| done]. cbn [mbind option_bind].
    assert (p' = p1 {{ prog_name := prog_name p' }}) as Hp'.
    { revert Ep. unfold xdp_program__parse_btf. cbn [prog_btf p1 xdp_program__new]. change (prog_btf p1) with (@None btf). cbn [btf_get_function mbind option_bind btf_get_datasec].
      destruct (_ <=? _)%nat, (100 <=? _); by intros [= <- <-]. }
    destruct (negb (err =? 0) && _); [done |]. intros [= <-]. by rewrite Hp'.
  - set (p2 := _ {{ prog_id := _ }}). destruct (xdp_program__parse_btf p2 None) as [[err p'] |] eqn:Ep; [| done]. cbn [mbind option_bind].
    apply parse_btf_loaded in Ep; [| unfold p2; by destruct (c_true (pi_btf_id info))].
    destruct (negb (err =? 0) && _); [done |]. intros [= <-]. rewrite Ep. unfold p2. by destruct (c_true (pi_btf_id info)).
Qed.

(** Metadata that asks for XDP_DROP instead of XDP_PASS, and for priority 10. *)
Definition btf_fd : fd_env :=
  {| fe_alloc := true; fe_dup := inr 5;
     fe_info := inr {| pi_id := 9; pi_name := str "xdp_prog"; pi_tag := replicate 8 x00; pi_load_time := 0; pi_btf_id := 3; pi_nr_maps := 0; pi_map_id := 0 |};
     fe_strdup := true; fe_btf := Some sample_btf |}.

Lemma from_fd_default_actions_witness : exists p, xdp_program__from_fd btf_fd = Some (inr p) /\ run_prio p = 10 /\
  chain_call_actions p = XDP_DEFAULT_CHAIN_CALL_ACTIONS.
Proof.
  destruct (xdp_program__from_fd btf_fd) as [[err | p] |] eqn:E; [vm_compute in E; discriminate E | | vm_compute in E; discriminate E].
  exists p. split; [reflexivity |]. split.
  - vm_compute in E. injection E as <-. reflexivity.
  - apply (from_fd_default_actions btf_fd); [| exact E]. intros fd [= <-]. lia.
Defined.

(** A program whose type information cannot be loaded is reported as filled
    in, but has no descriptor. *)
Lemma fill_without_btf e p fd info : fe_dup e = inr fd -> fe_info e = inr info -> pi_btf_id info <> 0 -> fe_btf e = None -> prog_btf p = None ->
  prog_name p <> [] -> xdp_program__fill_from_fd e (Some p) = (0, Some p).
Proof.
  intros Hd Hi Hb Hn Hp Hname. unfold xdp_program__fill_from_fd. rewrite Hd, Hi. destruct (prog_name p); [done |]. cbn [andb].
  unfold c_true. rewrite (proj2 (Z.eqb_neq _ 0)), Hp, Hn by done. done.
Qed.

(** A dispatcher of the first version whose map has too few bytes: the
    configuration is read behind the end of the buffer. *)
Lemma version_1_overread mp value_size buf : zlen buf = value_size -> value_size < 84 ->
  take_config mp value_size XDP_DISPATCHER_VERSION_V1 buf = None.
Proof.
  intros Hz Hlt. unfold take_config. rewrite Z.eqb_refl. destruct (load8 buf 0); [| done]. cbn [mbind option_bind].
  destruct (load_words buf 4 _) as [ca |]; [| done]. cbn [mbind option_bind].
  assert (load32 buf (44 + 36) = None) as E by (apply load_None; lia).
  assert (forall (n : nat) off, (0 < n)%nat -> load32 buf (off + 4 * Z.of_nat (n - 1)) = None -> load_words buf off n = None) as Hlw.
  { clear. induction n as [| n IH]; intros off Hn E; [lia |]. cbn [load_words]. destruct (load32 buf off) eqn:E0; [| done]. cbn [mbind option_bind].
    destruct n as [| n]; [rewrite Z.add_0_r in E; congruence |]. rewrite IH; [done | lia |]. rewrite <- E. f_equal. lia. }
  rewrite (Hlw MAX_DISPATCHER_ACTIONS 44); [done | unfold MAX_DISPATCHER_ACTIONS; lia | exact E].
Qed.

(** ** Retrying *)

(** An attempt at which the kernel reports nothing attached. *)
Definition nothing_attached (a : attempt) : Prop := exists q, at_query a = inr q /\ qa_mode q = XDP_ATTACHED_NONE.

(** The program was seen at the first attempt and is gone at the later ones:
    its identifier is looked up at every attempt, and the interface is reported
    busy, although nothing is attached to it. *)
Lemma get_from_ifindex_stale world ifindex id mode : shows id mode (at_query (world 0%nat)) -> id <> 0 ->
  (forall n, at_get (world n) id = inl ENOENT) -> (forall n, nothing_attached (world (S n))) ->
  xdp_multiprog__get_from_ifindex world ifindex = Some (inl (- EBUSY)).
Proof.
  intros Hs Hid Hget Hnone. unfold xdp_multiprog__get_from_ifindex. assert (c_true id = true) as Hc by (unfold c_true; by rewrite (proj2 (Z.eqb_neq _ _))).
  assert (forall tries n mode, get_retry world ifindex tries (S n) (id, 0, mode) = Some (inl (- EBUSY))) as Hr.
  { induction tries as [| tries IH]; intros n m; cbn [get_retry]; destruct (Hnone n) as (q & -> & Hq); unfold xdp_get_ifindex_prog_id; rewrite Hq;
      change (0 =? 0) with true; cbn [negb]; change (XDP_ATTACHED_NONE =? _) with false; cbv iota;
      unfold xdp_multiprog__from_id; rewrite Hc; cbn [negb andb]; rewrite Hget; cbn [mbind option_bind]; [done |]. apply IH. }
  change (Z.to_nat MAX_RETRY) with (S 9). generalize 9%nat as k. intros k. cbn [get_retry]. rewrite (get_prog_id_shows _ _ mode Hs).
  change (0 =? 0) with true. cbn [negb]. unfold xdp_multiprog__from_id. rewrite Hc. cbn [negb andb]. rewrite Hget. cbn [mbind option_bind].
  rewrite Z.eqb_refl. apply Hr.
Qed.

(** ** What is found *)

(** The program of a descriptor has a copy of it, or none when its type
    information is missing. *)
Lemma parse_members_fd b ms : forall p p' err, parse_members b ms p = Some (err, p') -> prog_fd p' = prog_fd p.
Proof.
  induction ms as [| [[mname |] type] ms IH]; intros p p' err; cbn [parse_members]; [by intros [= <- <-] | | by intros [= <- <-]].
  destruct (skip_mods_and_typedefs _ b type) as [m_t |]; [| done]. cbn [mbind option_bind].
  destruct (decide _).
  - destruct (get_field_int b m_t) as [v |]; [| by intros [= <- <-]]. intros E. apply IH in E. rewrite E. by destruct p.
  - destruct (get_xdp_action mname) as [act |]; [| by intros [= <- <-]]. destruct (get_field_int b m_t) as [v |]; [| by intros [= <- <-]].
    intros E. apply IH in E. rewrite E. unfold xdp_program__set_chain_call_enabled. by destruct (_ || _), (c_true v), p.
Qed.

Lemma parse_btf_fd p p' err : xdp_program__parse_btf p None = Some (err, p') -> prog_fd p' = prog_fd p.
Proof.
  unfold xdp_program__parse_btf.
  set (p1 := if (BPF_OBJ_NAME_LEN - 1 <=? length (prog_name p))%nat
    then match btf_get_function (prog_btf p) (prog_name p) with Some func => p {{ prog_name := btf_name func }} | None => p end else p).
  cbv zeta. change (if (BPF_OBJ_NAME_LEN - 1 <=? length (prog_name p))%nat then _ else p) with p1.
  assert (prog_fd p1 = prog_fd p) as <-.
  { unfold p1. destruct (_ <=? _)%nat; [| done]. destruct (btf_get_function _ _); [by destruct p | done]. }
  clearbody p1. destruct (100 <=? _); [by intros [= <- <-] |].
  destruct (btf_get_datasec _ _) as [sec |]; [| by intros [= <- <-]]. destruct (prog_btf p) as [b |]; [| by intros [= <- <-]].
  destruct (btf_get_section_var _ _ _ _) as [[e | def] |]; [by intros [= <- <-] | | done]. cbn [mbind option_bind].
  destruct def; try done. by apply parse_members_fd.
Qed.

Lemma from_fd_fd e p : xdp_program__from_fd e = Some (inr p) -> prog_fd p = -1 \/ fe_dup e = inr (prog_fd p).
Proof.
  unfold xdp_program__from_fd. destruct (fe_alloc e); [| done]. cbn [negb].
  destruct (xdp_program__fill_from_fd e (Some xdp_program__new)) as [err q] eqn:Ef. destruct (negb (err =? 0)); [done |].
  destruct q as [q |]; [| done]. cbn [mbind option_bind]. destruct (xdp_program__parse_btf q None) as [[err' p'] |] eqn:Ep; [| done].
  cbn [mbind option_bind]. destruct (negb (err' =? 0) && _); [done |]. intros [= <-]. apply parse_btf_fd in Ep as ->.
  revert Ef. unfold xdp_program__fill_from_fd. destruct (fe_dup e) as [n | fd]; [intros [= <- <-]; by left |].
  destruct (fe_info e) as [n | info]; [intros [= <- <-]; by left |]. cbn [prog_name xdp_program__new].
  destruct (fe_strdup e); cbn [andb negb]; [| intros [= <- <-]; by left]. destruct (_ && negb (bool_decide (is_Some (fe_btf e)))); [intros [= <- <-]; by left |].
  intros [= <- <-]. right. by destruct (c_true (pi_btf_id info) && _).
Qed.

(** A multi-program that is found: unless it is a legacy one, the number of
    links is that of its programs; the descriptor of its main program is valid,
    if it has one. *)
Definition found_ok (mp : xdp_multiprog) : Prop :=
  (is_legacy mp = false -> num_links mp = zlen (first_prog mp) /\ (length (first_prog mp) < 256)%nat) /\
  forall p, main_prog mp = Some p -> prog_fd p = -1 \/ 0 < prog_fd p.

Lemma load8_range m off v : load8 m off = Some v -> 0 <= v < 256.
Proof. intros H. apply load_inv in H as (_ & _ & H). lia. Qed.

Lemma check_version_inv e mp name b n err mp' : check_dispatcher_version e mp name b n = Some (err, mp') ->
  mp' = mp \/ exists c v, mp' = mp {{ mp_config := c; version := v }} /\ 0 <= num_progs_enabled c < 256.
Proof.
  unfold check_dispatcher_version. repeat (destruct (negb _); [intros [= <- <-]; by left |]).
  destruct (me_fd e); [intros [= <- <-]; by left |]. destruct (me_info e) as [| i]; [intros [= <- <-]; by left |].
  destruct (_ || _); [intros [= <- <-]; by left |]. destruct (negb _); [intros [= <- <-]; by left |].
  destruct (me_value e) as [| buf]; [intros [= <- <-]; by left |]. destruct (load8 buf 0) as [b0 |]; [| done]. cbn [mbind option_bind].
  destruct (if b0 =? _ then _ else _) as [[er ver] |]; [| done]. cbn [mbind option_bind]. destruct (negb _); [intros [= <- <-]; by left |].
  unfold take_config. destruct (ver =? XDP_DISPATCHER_VERSION_V1).
  - destruct (load8 buf 0) as [k |] eqn:Ek; [| done]. cbn [mbind option_bind]. destruct (load_words buf 4 _); [| done]. cbn [mbind option_bind].
    destruct (load_words buf 44 _); [| done]. cbn [mbind option_bind]. intros [= <- <-]. right. eexists _, _. split; [done |].
    by eapply load8_range.
  - destruct (ver =? XDP_DISPATCHER_VERSION); [| intros [= <- <-]; by left]. destruct (negb _); [intros [= <- <-]; by left |].
    destruct (load_config buf) as [c |] eqn:Ec; [| done]. cbn [mbind option_bind]. intros [= <- <-]. right. eexists _, _. split; [done |].
    revert Ec. unfold load_config. destruct (load8 buf 0); [| done]. cbn [mbind option_bind]. destruct (load8 buf 1); [| done]. cbn [mbind option_bind].
    destruct (load8 buf 2) eqn:E2; [| done]. cbn [mbind option_bind]. destruct (load8 buf 3); [| done]. cbn [mbind option_bind].
    destruct (load_words buf 4 _); [| done]. cbn [mbind option_bind]. destruct (load_words buf 44 _); [| done]. cbn [mbind option_bind].
    destruct (load_words buf 84 _); [| done]. cbn [mbind option_bind]. intros [= <-]. cbn [num_progs_enabled]. by eapply load8_range.
Qed.

Lemma read_progs_length fault from d conf fs strdup n : forall i ps,
  read_progs fault from d conf fs strdup n i = Some (inr ps) -> length ps = n.
Proof.
  induction n as [| n IH]; intros i ps; cbn [read_progs]; [by intros [= <-] |].
  destruct (read_prog _ _ _ _ _ _ _) as [[err | p] |]; [done | | done]. cbn [mbind option_bind].
  destruct (read_progs _ _ _ _ _ _ n (S i)) as [[e | ps'] |] eqn:E; [done | | done]. cbn [mbind option_bind]. intros [= <-].
  simpl. f_equal. by eapply IH.
Qed.

Lemma from_fd_err e err : xdp_program__from_fd e = Some (inl err) -> err <> 0.
Proof.
  unfold xdp_program__from_fd. destruct (negb (fe_alloc e)); [by intros [= <-] |].
  destruct (xdp_program__fill_from_fd e _) as [er q]. destruct (Z.eqb_spec er 0); cbn [negb]; [| by intros [= <-]].
  destruct q as [q |]; [| done]. cbn [mbind option_bind]. destruct (xdp_program__parse_btf q None) as [[er' p'] |]; [| done].
  cbn [mbind option_bind]. destruct (Z.eqb_spec er' 0); cbn [negb andb]; [done |]. destruct (negb _); by intros [= <-].
Qed.

Lemma from_obj_err about obj err : from_obj about obj = inl err -> err <> 0.
Proof.
  unfold from_obj. destruct (xdp_program__from_fd (about obj)) as [r |] eqn:E; cbn; [intros ->; by eapply from_fd_err | by intros [= <-]].
Qed.

Lemma read_progs_err fault about d conf fs strdup n err k : (forall op f errno, fault op f = Some errno -> 0 < errno) -> forall i,
  read_progs fault (from_obj about) d conf fs strdup n i = Some (inl (err, k)) -> err <> 0.
Proof.
  intros Hfault. induction n as [| n IH]; intros i; cbn [read_progs]; [done |].
  destruct (read_prog _ _ _ _ _ _ _) as [[er | p] |] eqn:Er; [| | done]; cbn [mbind option_bind].
  - intros [= <- <-]. revert Er. unfold read_prog. destruct (Z.eqb_spec (try_snprintf (in_dir d (slot_name i ++ str "-prog"))) 0); cbn [negb];
      [| by intros [= <-]]. unfold bpf_obj_get. destruct (fault Get _) as [no |] eqn:Ef; [apply Hfault in Ef; intros [= <-]; lia |].
    destruct (files fs !! _) as [obj |]; [| by intros [= <-]]. destruct (from_obj about obj) as [er' | p] eqn:Eo.
    + intros [= <-]. by eapply from_obj_err.
    + destruct (negb _); [by intros [= <-] |]. destruct (call_actions conf !! i); [| done]. cbn [mbind option_bind].
      destruct (run_prios conf !! i); [| done]. cbn [mbind option_bind]. by destruct (program_flags conf !! i).
  - destruct (read_progs _ _ _ _ _ _ n (S i)) as [[[er k'] | ps'] |] eqn:E; [| done | done]. cbn [mbind option_bind]. intros [= <- <-]. by eapply IH.
Qed.

Lemma link_pinned_inv fault about dir lock strdup m fs err m' : (forall op f errno, fault op f = Some errno -> 0 < errno) ->
  first_prog m = [] -> num_links m = 0 -> 0 <= num_progs_enabled (mp_config m) < 256 ->
  xdp_multiprog__link_pinned_progs fault (from_obj about) dir lock strdup (Some m) fs = Some (err, m') ->
  exists m1, m' = Some m1 /\ main_prog m1 = main_prog m /\ is_legacy m1 = is_legacy m /\
  (err = 0 -> num_links m1 = zlen (first_prog m1) /\ (length (first_prog m1) < 256)%nat).
Proof.
  intros Hfault Hf Hn Hc. unfold xdp_multiprog__link_pinned_progs. rewrite Hf.
  assert (num_links m = zlen (first_prog m) /\ (length (first_prog m) < 256)%nat) as H0 by (rewrite Hf, Hn; split; [done | simpl; lia]).
  destruct (pin_dir dir lock m) as [[e | d] |]; [| | done]; cbn [mbind option_bind]; [intros [= <- <-]; by exists m |].
  destruct (negb _); [intros [= <- <-]; by exists m |].
  destruct (read_progs _ _ _ _ _ _ _ _) as [[[e k] | ps] |] eqn:E; [| | done]; cbn [mbind option_bind]; intros [= <- <-]; eexists; (split; [done |]).
  - apply read_progs_err in E; [| done]. by destruct m.
  - apply read_progs_length in E. destruct m. cbn in *. unfold constant. split_and!; [done | done |]. intros _. subst. split; [done | lia].
Qed.

(** What is asked of the kernel's answers to one attempt. *)
Definition attempt_ok (a : attempt) : Prop := forall fd hw_fd,
  (forall k, fe_dup (fl_main (at_fill a fd hw_fd)) = inr k -> 0 < k) /\
  exists fault about dir lock strdup fs, (forall op f errno, fault op f = Some errno -> 0 < errno) /\
    forall m, fl_pinned (at_fill a fd hw_fd) m = xdp_multiprog__link_pinned_progs fault (from_obj about) dir lock strdup (Some m) fs.

Lemma fill_found_ok a fd hw_fd ifindex m mp : attempt_ok a -> xdp_multiprog__new (at_alloc a) ifindex = Some m ->
  xdp_multiprog__fill_from_fd (at_fill a fd hw_fd) (Some m) fd hw_fd = Some (0, Some mp) -> found_ok mp.
Proof.
  intros Ha Hnew. destruct (Ha fd hw_fd) as (Hdup & fault & about & dir & lock & strdup & fs & Hfault & Hpin). set (e := at_fill a fd hw_fd) in *.
  unfold xdp_multiprog__new in Hnew. destruct (at_alloc a); [| done]. injection Hnew as <-. set (m := Build_xdp_multiprog _ _ _ _ _ _ _ _ _ _ _).
  assert (found_ok m) as Hm by (split; [intros _; split; [done | simpl; lia] | done]).
  assert (forall mp err mp', found_ok mp -> fill_hw e hw_fd mp = Some (err, mp') -> found_ok mp') as Hhw.
  { clear. intros mp err mp' [H1 H2]. unfold fill_hw. destruct (0 <? hw_fd); [| intros [= <- <-]; by destruct mp].
    destruct (xdp_program__from_fd _) as [[er | p] |]; [| | done]; cbn [mbind option_bind]; intros [= <- <-]; [done |].
    destruct mp as [c mn fp hw v nl ld lg kf am ix]. destruct fp; cbn; [split; [done | exact H2] | split; [exact H1 | exact H2]]. }
  assert (forall m1 mp, first_prog m1 = [] -> num_links m1 = 0 -> 0 <= num_progs_enabled (mp_config m1) < 256 ->
    ('(err, mp) ← fill_main e m1; if negb (err =? 0) then Some (err, Some mp) else '(err, mp) ← fill_hw e hw_fd mp; Some (err, Some mp)) = Some (0, Some mp) ->
    found_ok mp) as Hmain.
  { intros m1 mp1 Hf Hn Hc. destruct (fill_main e m1) as [[err m2] |] eqn:Em; [| done]. cbn [mbind option_bind].
    destruct (Z.eqb_spec err 0) as [-> |]; cbn [negb]; [| intros [=]; done].
    assert (found_ok m2) as H2; [| destruct (fill_hw e hw_fd m2) as [[er m3] |] eqn:Eh; [| done]; cbn [mbind option_bind]; intros [= -> <-]; by eapply Hhw].
    revert Em. unfold fill_main. destruct (xdp_program__from_fd (fl_main e)) as [[er | p] |] eqn:Ep; [| | done]; cbn [mbind option_bind].
    { intros [= -> <-]. by apply from_fd_err in Ep. }
    assert (prog_fd p = -1 \/ 0 < prog_fd p) as Hp by (apply from_fd_fd in Ep as [? | Hd]; [by left | right; by apply Hdup]).
    set (m1p := m1 {{ main_prog := Some p }}). destruct (is_legacy m1p) eqn:El.
    - intros [= <-]. split; [by rewrite El |]. unfold m1p. destruct m1. cbn. by intros ? [= <-].
    - rewrite Hpin. destruct (xdp_multiprog__link_pinned_progs _ _ _ _ _ _ _) as [[er m3] |] eqn:E3; [| done]. cbn [mbind option_bind].
      apply link_pinned_inv in E3 as (m4 & -> & H41 & H42 & H43); [| done | by destruct m1.. ]. cbn [default from_option id]. intros [= <-].
      assert (main_prog m4 = Some p) as Hm4 by (rewrite H41; by destruct m1).
      destruct (Z.eqb_spec er 0) as [-> |]; cbn [negb].
      + split; [by intros _; apply H43 |]. rewrite Hm4. by intros ? [= <-].
      + destruct m4. cbn in *. split; [done |]. subst. by intros ? [= <-]. }
  unfold xdp_multiprog__fill_from_fd. destruct (0 <? fd).
  2: { destruct (fill_hw e hw_fd m) as [[er m3] |] eqn:Eh; [| done]. cbn [mbind option_bind]. intros [= -> <-]. by eapply Hhw. }
  destruct (fl_info e) as [| info]; [intros [=] |]. destruct (negb _); [by apply Hmain |].
  destruct (fl_btf e) as [b |]; [| by intros [= <-]].
  destruct (check_dispatcher_version _ _ _ _ _) as [[err m1] |] eqn:Ec; [| done]. cbn [mbind option_bind].
  assert (first_prog m1 = [] /\ num_links m1 = 0 /\ 0 <= num_progs_enabled (mp_config m1) < 256) as (F1 & F2 & F3).
  { apply check_version_inv in Ec as [-> | (c & v & -> & Hc)]; split_and!; done || exact (proj1 Hc) || exact (proj2 Hc). }
  destruct (Z.eqb_spec err 0); cbn [negb]; [by apply Hmain |]. destruct (negb _); [intros [=]; done |]. apply Hmain; by destruct m1.
Qed.

Lemma get_found_ok world ifindex mp : (forall n, attempt_ok (world n)) ->
  xdp_multiprog__get_from_ifindex world ifindex = Some (inr mp) -> found_ok mp.
Proof.
  intros Hw. unfold xdp_multiprog__get_from_ifindex. generalize (Z.to_nat MAX_RETRY), 0%nat, (0, 0, XDP_MODE_UNSPEC).
  induction n as [| tries IH]; intros n ids; cbn [get_retry]; destruct (xdp_get_ifindex_prog_id _ ids) as [err [[id hw] mode]];
    (destruct (negb (err =? 0)); [done |]); (destruct (negb (c_true id) && _); [done |]);
    (destruct (xdp_multiprog__from_id _ _ _ _ _ _) as [[er | m] |] eqn:Em; [| | done]); cbn [mbind option_bind].
  1, 3: destruct (er =? - ENOENT); [done || apply IH | done].
  all: intros [= <-]; revert Em; unfold xdp_multiprog__from_id; destruct (if c_true id then _ else _) as [| fd]; try done;
    destruct (if c_true hw then _ else _) as [| hw_fd]; try done; unfold xdp_multiprog__from_fd;
    (destruct (xdp_multiprog__new _ _) as [m0 |] eqn:Enew; [| done]);
    (destruct (xdp_multiprog__fill_from_fd _ _ _ _) as [[er m1] |] eqn:Ef; [| done]); cbn [mbind option_bind];
    (destruct (Z.eqb_spec er 0) as [-> |]; cbn [negb]; [| done]); (destruct m1 as [m1 |]; [| done]); cbn [mbind option_bind]; intros [= <-];
    (eapply fill_found_ok in Ef; [| apply Hw | exact Enew]); by destruct m1.
Qed.
