(* ===== verification/XdpAttach.v ===== *)
(** Attaching and detaching programs and dispatchers:
    src/lib/xdp-tools/lib/libxdp/libxdp.c, [xdp_attach_fd], [xdp_program__load],
    [xdp_program__attach_single], [xdp_program__attach_multi],
    [xdp_program__detach_multi], [xdp_detach_link], [xdp_multiprog__attach] and
    [xdp_multiprog__detach].

    Several processes do this at the same time.  What they share is the state
    of an interface and the BPF file system ([shared]); other processes may
    change it in any way between two calls of this one ([k_rely]).  The functions
    on the file system run under libxdp's lock and are one call each.  What the
    kernel answers is an argument, indexed by a clock that every call advances.
    [log] is a ghost variable: the state of the interface before and after
    every call of this process that may change what is attached.  [live] counts the
    multi-program objects that were allocated and not closed.  One interface is
    considered, the one the multi-programs of the calls are for. *)
From S2P Require Import Prelude.
From S2P Require Import CLib.
From S2P Require Import XdpStats.
From S2P Require Import XdpProgram.
From S2P Require Import XdpDispatch.
From S2P Require Import XdpPin.
From S2P Require Import XdpMultiprog.

Definition XDP_FLAGS_UPDATE_IF_NOEXIST : Z := 1.
Definition XDP_FLAGS_SKB_MODE : Z := 2.
Definition XDP_FLAGS_DRV_MODE : Z := 4.
Definition XDP_FLAGS_HW_MODE : Z := 8.
Definition BPF_LINK_TYPE_XDP : Z := 6.

(** The programs attached in driver or generic mode and in the hardware, by
    identifier. *)
Record shared := { sh_slot : option Z; sh_hw : option Z; sh_fs : bpffs }.

Record state := { sh : shared; now : nat; live : Z; log : list (shared * shared) }.

(** ** Loading a program *)

Record load_env := {
  ld_obj : bool;               (** there is an object and a program in it *)
  ld_autoload : bool;
  ld_loaded : bool;            (** bpf_program__set_autoload fails *)
  ld_ext : bool;               (** the program has type BPF_PROG_TYPE_EXT *)
  ld_load : Z;                 (** bpf_object__load *)
  ld_fd : fd_env               (** to xdp_program__fill_from_fd *)
}.

Definition xdp_program__load (e : load_env) (p : option xdp_program) : Z * option xdp_program :=
  match p with
  | None => (- EINVAL, None)
  | Some p =>
    if 0 <=? prog_fd p then (- EEXIST, Some p) else
    match bpf_prog p with
    | None => (- EINVAL, Some p)
    | Some bp =>
      if negb (ld_obj e) then (- EINVAL, Some p) else
      if ld_loaded e then
        xdp_program__fill_from_fd (ld_fd e) (Some (p {{ is_frags := c_true (Z.land (bp_flags bp) BPF_F_XDP_HAS_FRAGS) }}))
      else
        let p := p {{ is_frags := xdp_program__xdp_frags_support (Some p) }} in
        let bp := if ld_ext e then bp {{ bp_flags := Z.land (bp_flags bp) (u32 (Z.lnot BPF_F_XDP_HAS_FRAGS)) }} else bp in
        let p := p {{ bpf_prog := Some bp }} in
        if negb (ld_load e =? 0) then (ld_load e, Some p) else xdp_program__fill_from_fd (ld_fd e) (Some p)
    end
  end.

(** ** The kernel *)

(** A link the kernel enumerates: the descriptor it is opened with, and its
    type, interface and program. *)
Record link_answer := { la_fd : Z + Z; la_info : Z + Z * Z * Z }.

Record kern := {
  k_rely : nat -> shared -> shared;
  (** bpf_xdp_attach of a descriptor, with flags and the descriptor expected,
      0 for none: the result and the effect. *)
  k_set : nat -> shared -> Z -> Z -> Z -> Z * shared;
  k_attempt : nat -> shared -> attempt;  (** the pinned programs apart *)
  k_about : nat -> Z -> fd_env;          (** about a pinned program *)
  k_strdup : nat -> nat -> bool;
  k_links : nat -> list link_answer;
  k_links_end : nat -> Z;                (** errno of bpf_link_get_next_id at the end *)
  k_link_detach : nat -> shared -> Z -> Z * shared;  (** errno and effect *)
  k_load : nat -> load_env;
  k_frags : nat -> bool;
  k_set_flags : nat -> Z;
  k_gen : nat -> gen_env;
  k_fault : nat -> fs_op -> list byte -> option Z;
  k_obj : Z -> Z;                        (** the object behind a descriptor *)
  k_dir : nat -> Z + list byte;
  k_lock : nat -> Z;
  k_skip : bool                          (** the environment says to skip the dispatcher *)
}.

Section Attach.
Context (qsort : (xdp_program -> xdp_program -> Z) -> list xdp_program -> list xdp_program).
Context (K : kern).
Context (ifindex : Z).

(** The others run; the clock advances. *)
Definition tick (s : state) : state :=
  {| sh := k_rely K (now s) (sh s); now := S (now s); live := live s; log := log s |}.

Definition closed (k : Z) (s : state) : state := {| sh := sh s; now := now s; live := live s - k; log := log s |}.

(** ** System calls *)

Definition do_xdp_attach (prog_fd old_fd flags : Z) (s : state) : Z * state :=
  let s := tick s in
  let '(err, sh') := k_set K (now s) (sh s) prog_fd flags old_fd in
  (err, {| sh := sh'; now := now s; live := live s; log := log s ++ [(sh s, sh')] |}).

(** The state the [n]-th of several calls finds. *)
Fixpoint drift (n : nat) (t : nat) (x : shared) : shared :=
  match n with O => x | S n => drift n (S t) (k_rely K t x) end.

(** An attempt to find the programs: the pinned ones are read from the file
    system. *)
Definition attempt_at (n : nat) (x : shared) : attempt :=
  let a := k_attempt K n x in
  {| at_query := at_query a; at_alloc := at_alloc a; at_get := at_get a;
     at_fill := fun fd hw_fd =>
       let e := at_fill a fd hw_fd in
       {| fl_info := fl_info e; fl_btf := fl_btf e; fl_map := fl_map e; fl_main := fl_main e; fl_hw := fl_hw e;
          fl_pinned := fun m => xdp_multiprog__link_pinned_progs (k_fault K n) (from_obj (k_about K n)) (k_dir K n) (k_lock K n)
                                  (k_strdup K n) (Some m) (sh_fs x) |} |}.

(** The attempts of [xdp_multiprog__get_from_ifindex], one call each. *)
Definition get_from_ifindex (s : state) : option (Z + xdp_multiprog) * state :=
  let r := xdp_multiprog__get_from_ifindex (fun n => attempt_at (now s + n) (drift (S n) (now s) (sh s))) ifindex in
  (r, {| sh := drift (S (Z.to_nat MAX_RETRY)) (now s) (sh s); now := now s + S (Z.to_nat MAX_RETRY);
         live := live s + match r with Some (inr _) => 1 | _ => 0 end; log := log s |}).

Definition pin (mp : xdp_multiprog) (s : state) : option (Z * state) :=
  let s := tick s in
  '(err, fs) ← xdp_multiprog__pin (k_fault K (now s)) (k_obj K) (k_dir K (now s)) (k_lock K (now s)) (Some mp) (sh_fs (sh s));
  Some (err, {| sh := {| sh_slot := sh_slot (sh s); sh_hw := sh_hw (sh s); sh_fs := fs |}; now := now s; live := live s; log := log s |}).

Definition unpin (mp : xdp_multiprog) (s : state) : option (Z * state) :=
  let s := tick s in
  '(err, fs) ← xdp_multiprog__unpin (k_fault K (now s)) (k_dir K (now s)) (k_lock K (now s)) (Some mp) (sh_fs (sh s));
  Some (err, {| sh := {| sh_slot := sh_slot (sh s); sh_hw := sh_hw (sh s); sh_fs := fs |}; now := now s; live := live s; log := log s |}).

(** ** Attaching a descriptor *)

Definition mode_flags (mode : Z) : Z :=
  if mode =? XDP_MODE_SKB then XDP_FLAGS_SKB_MODE else
  if mode =? XDP_MODE_NATIVE then XDP_FLAGS_DRV_MODE else
  if mode =? XDP_MODE_HW then XDP_FLAGS_HW_MODE else 0.

(** The result, and the error number the last call left. *)
Definition attach_result (err errno old_fd : Z) : Z * Z :=
  if (err <? 0) && (err =? - EEXIST) && c_true old_fd then (- EAGAIN, errno) else (err, errno).

Definition set_errno (err errno : Z) : Z := if err <? 0 then - err else errno.

Definition xdp_attach_fd (prog_fd old_fd mode : Z) (s : state) : Z * Z * state :=
  let xdp_flags := if old_fd =? -1 then XDP_FLAGS_UPDATE_IF_NOEXIST else 0 in
  let old_fd := if old_fd =? -1 then 0 else old_fd in
  let xdp_flags := Z.lor xdp_flags (mode_flags mode) in
  let '(err, s) := do_xdp_attach prog_fd old_fd xdp_flags s in
  let errno := set_errno err 0 in
  if (err =? - EINVAL) && c_true old_fd then
    let '(err, s) := do_xdp_attach prog_fd 0 xdp_flags s in
    (attach_result err (set_errno err errno) 0, s)
  else (attach_result err errno old_fd, s).

(** ** Single programs *)

Definition xdp_program__attach_single (prog : xdp_program) (mode : Z) (s : state) : Z * xdp_program * state :=
  let attach (prog : xdp_program) s :=
    if prog_fd prog <? 0 then (- EINVAL, prog, s) else
    let '(err, _, s) := xdp_attach_fd (prog_fd prog) (-1) mode s in (err, prog, s) in
  if prog_fd prog <? 0 then
    let s := tick s in
    let prog := if k_frags K (now s) then prog
                else default prog (snd (xdp_program__set_xdp_frags_support (k_set_flags K (now s)) (Some prog) false)) in
    let '(err, prog') := xdp_program__load (k_load K (now s)) (Some prog) in
    let prog := default prog prog' in
    if negb (err =? 0) then (err, prog, s) else attach prog s
  else attach prog s.

(** Setting the interface of the program and its maps is not in the model of
    the object. *)
Definition xdp_program__attach_hw (prog : xdp_program) (s : state) : Z * xdp_program * state :=
  xdp_program__attach_single prog XDP_MODE_HW s.

Definition xdp_multiprog__detach_hw (old_mp : option xdp_multiprog) (s : state) : Z * state :=
  match old_mp with
  | None => (- EINVAL, s)
  | Some _ =>
    let hw_fd := xdp_multiprog__hw_fd old_mp in
    if hw_fd <? 0 then (- EINVAL, s) else
    let '(err, _, s) := xdp_attach_fd (-1) hw_fd XDP_MODE_HW s in
    (if err <? 0 then err else 0, s)
  end.

(** ** Dispatchers *)

Fixpoint detach_link_loop (links : list link_answer) (end_ : Z) (id : Z) (s : state) : Z * state :=
  match links with
  | [] => (- end_, s)
  | l :: links =>
    match la_fd l with
    | inl errno => (- errno, s)
    | inr fd =>
      match la_info l with
      | inl errno => (- errno, s)
      | inr (type, ifi, prog) =>
        if (type =? BPF_LINK_TYPE_XDP) && (ifi =? u32 ifindex) && (prog =? id) then
          let s := tick s in
          let '(errno, sh') := k_link_detach K (now s) (sh s) fd in
          (- errno, {| sh := sh'; now := now s; live := live s; log := log s ++ [(sh s, sh')] |})
        else detach_link_loop links end_ id s
      end
    end
  end.

Definition xdp_detach_link (prog_id : Z) (s : state) : Z * state :=
  let s := tick s in detach_link_loop (k_links K (now s)) (k_links_end K (now s)) prog_id s.

Definition xdp_multiprog__attach (old_mp mp : option xdp_multiprog) (mode : Z) (s : state) : Z * state :=
  if negb (bool_decide (is_Some mp)) && negb (bool_decide (is_Some old_mp)) then (- EINVAL, s) else
  if mode =? XDP_MODE_HW then (- EINVAL, s) else
  let prog_fd := match mp with Some _ => xdp_multiprog__main_fd mp | None => -1 end in
  let ifi := match mp with Some mp => mp_ifindex mp | None => -1 end in
  if bool_decide (is_Some mp) && (prog_fd <? 0) then (- EINVAL, s) else
  let old_fd := match old_mp with Some _ => xdp_multiprog__main_fd old_mp | None => -1 end in
  if bool_decide (is_Some old_mp) && (old_fd <? 0) then (- EINVAL, s) else
  if match old_mp with Some old => (-1 <? ifi) && negb (ifi =? mp_ifindex old) | None => false end then (- EINVAL, s) else
  let '(err, errno, s) := xdp_attach_fd prog_fd old_fd mode s in
  if err <? 0 then
    if (errno =? EBUSY) && negb (bool_decide (is_Some mp)) then xdp_detach_link (xdp_multiprog__main_id old_mp) s
    else (err, s)
  else (0, s).

(** The programs after they were linked: those that were not loaded are now. *)
Fixpoint position (p : xdp_program -> bool) (l : list xdp_program) : nat :=
  match l with [] => O | x :: l => if p x then O else S (position p l) end.

Definition after_generate (e : gen_env) (old : option xdp_multiprog) (progs : list xdp_program) : list xdp_program :=
  let want := wanted old progs false in
  let sorted := if (1 <? length want)%nat then qsort cmp_xdp_programs want else want in
  map (fun p =>
    if prog_fd p <? 0 then
      match le_load (ge_link e (position (fun q => cmp_xdp_programs p q =? 0) sorted)) with
      | inr (fd, id) => p {{ prog_fd := fd; prog_id := id }}
      | inl _ => p
      end
    else p) progs.

(** From [retry] on: the result, or the programs to try again with. *)
Definition attach_once (progs : list xdp_program) (mode : Z) (s : state) : option (Z * state + list xdp_program * state) :=
  let '(found, s) := get_from_ifindex s in
  found ← found;
  let old_mp := match found with inr mp => Some mp | inl _ => None end in
  let close_old (s : state) := match old_mp with Some _ => closed 1 s | None => s end in
  let single s := p ← head progs; let '(err, _, s) := xdp_program__attach_single p mode s in Some (inl (err, s)) in
  if mode =? XDP_MODE_HW then
    let s := close_old s in
    if bool_decide (is_Some (old ← old_mp; hw_prog old)) then Some (inl (- EEXIST, s)) else
    if (1 <? length progs)%nat then Some (inl (- EINVAL, s)) else
    p ← head progs; let '(err, _, s) := xdp_program__attach_hw p s in Some (inl (err, s))
  else if (length progs =? 1)%nat && k_skip K then single s else
  let s := tick s in
  let e := k_gen K (now s) in
  r ← xdp_multiprog__generate qsort e progs ifindex old_mp false;
  match r with
  | inl err =>
    if (err =? - EOPNOTSUPP) && (length progs =? 1)%nat then single s else Some (inl (err, close_old s))
  | inr mp =>
    let s := closed (-1) s in
    let close s := close_old (closed 1 s) in
    '(err, s) ← pin mp s;
    if negb (err =? 0) then Some (inl (err, close s)) else
    let '(err, s) := xdp_multiprog__attach old_mp (Some mp) mode s in
    if negb (err =? 0) then
      '(_, s) ← unpin mp s;
      Some (if err =? - EAGAIN then inr (after_generate e old_mp progs, close s) else inl (err, close s))
    else
      s ← (match old_mp with Some old => '(_, s) ← unpin old s; Some s | None => Some s end);
      Some (inl (0, close s))
  end.

(** [tries] are the attempts left. *)
Fixpoint attach_retry (tries : nat) (progs : list xdp_program) (mode : Z) (s : state) : option (Z * state) :=
  r ← attach_once progs mode s;
  match r with
  | inl res => Some res
  | inr (progs, s) => match tries with O => Some (- EBUSY, s) | S tries => attach_retry tries progs mode s end
  end.

Definition xdp_program__attach_multi (progs : list xdp_program) (mode flags : Z) (s : state) : option (Z * state) :=
  if (length progs =? 0)%nat || c_true flags then Some (- EINVAL, s)
  else attach_retry (Z.to_nat MAX_RETRY) progs mode s.

Definition xdp_program__attach (prog : option xdp_program) (mode flags : Z) (s : state) : option (Z * state) :=
  match prog with None => Some (- EINVAL, s) | Some p => xdp_program__attach_multi [p] mode flags s end.

(** ** Detaching *)

(** The first pass: 0, or the error of the first program that is not loaded or
    not found. *)
Fixpoint check_progs (progs : list xdp_program) (mp : xdp_multiprog) : Z :=
  match progs with
  | [] => 0
  | p :: progs =>
    if negb (c_true (prog_id p)) then - EINVAL else
    if negb (existsb (fun q => prog_id p =? prog_id q) (xdp_multiprog__progs (Some mp))) then - ENOENT
    else check_progs progs mp
  end.

(** What is done between [retry] and [out]: the error, and whether there is a
    new multi-program to close. *)
Definition detach_once (progs : list xdp_program) (mode : Z) (mp : xdp_multiprog) (s : state) : option (Z * Z * state) :=
  let some r := let '(err, s) := r : Z * state in Some (err, 0, s) in
  if ((mode =? XDP_MODE_HW) || is_legacy mp) && (1 <? length progs)%nat then Some (- EINVAL, 0, s) else
  p ← head progs;
  if ((mode =? XDP_MODE_HW) || is_legacy mp) && negb (c_true (prog_id p)) then Some (- EINVAL, 0, s) else
  let id := if mode =? XDP_MODE_HW then xdp_multiprog__hw_id (Some mp) else xdp_multiprog__main_id (Some mp) in
  if ((mode =? XDP_MODE_HW) || is_legacy mp) && negb (id =? prog_id p) then Some (- ENOENT, 0, s) else
  if mode =? XDP_MODE_HW then some (xdp_multiprog__detach_hw (Some mp) s) else
  if negb (mode =? XDP_MODE_UNSPEC) && negb (mp_attach_mode mp =? mode) then Some (- ENOENT, 0, s) else
  if is_legacy mp then some (xdp_multiprog__attach (Some mp) None mode s) else
  let err := check_progs progs mp in
  if negb (err =? 0) then Some (err, 0, s) else
  if zlen progs =? num_links mp then
    let '(err, s) := xdp_multiprog__attach (Some mp) None (mp_attach_mode mp) s in
    if negb (err =? 0) then Some (err, 0, s) else
    '(err, s) ← unpin mp s; Some (err, 0, s)
  else
    let s := tick s in
    r ← xdp_multiprog__generate qsort (k_gen K (now s)) progs ifindex (Some mp) true;
    match r with
    | inl err => Some (err, 0, s)
    | inr new_mp =>
      let s := closed (-1) s in
      '(err, s) ← pin new_mp s;
      if negb (err =? 0) then Some (err, 1, s) else
      let '(err, s) := xdp_multiprog__attach (Some mp) (Some new_mp) mode s in
      if negb (err =? 0) then '(_, s) ← unpin new_mp s; Some (err, 1, s) else
      '(_, s) ← unpin mp s; Some (0, 1, s)
    end.

Fixpoint detach_retry (tries : nat) (progs : list xdp_program) (mode : Z) (s : state) : option (Z * state) :=
  let '(found, s) := get_from_ifindex s in
  found ← found;
  match found with
  | inl _ => Some (- ENOENT, s)
  | inr mp =>
    '(err, new, s) ← detach_once progs mode mp s;
    let s := closed (1 + new) s in
    if err =? - EAGAIN then
      match tries with O => Some (- EBUSY, s) | S tries => detach_retry tries progs mode s end
    else Some (err, s)
  end.

Definition xdp_program__detach_multi (progs : list xdp_program) (mode flags : Z) (s : state) : option (Z * state) :=
  if c_true flags || (length progs =? 0)%nat then Some (- EINVAL, s)
  else detach_retry (Z.to_nat MAX_RETRY) progs mode s.

Definition xdp_program__detach (prog : option xdp_program) (mode flags : Z) (s : state) : option (Z * state) :=
  match prog with None => Some (- EINVAL, s) | Some p => xdp_program__detach_multi [p] mode flags s end.

Definition xdp_multiprog__detach (mp : option xdp_multiprog) (s : state) : option (Z * state) :=
  match mp with
  | None => Some (- EINVAL, s)
  | Some m =>
    if negb (is_loaded m) then Some (- EINVAL, s) else
    let '(err, s) := if bool_decide (is_Some (hw_prog m)) then xdp_multiprog__detach_hw mp s else (0, s) in
    if negb (err =? 0) then Some (err, s) else
    if bool_decide (is_Some (main_prog m)) then
      let '(err, s) := xdp_multiprog__attach mp None (mp_attach_mode m) s in
      if negb (err =? 0) then Some (err, s) else
      if is_legacy m then Some (err, s) else unpin m s
    else Some (err, s)
  end.
End Attach.

(** ** What is relied on *)

(** What the kernel documents: a call that fails changes nothing; a call that
    succeeds attaches the program (none, for -1), and then the program that
    was expected was attached, or, with the flag for that, none.  Copies of
    descriptors are not 0, errors are not either. *)
Record kern_ok (K : kern) (id_of : Z -> Z) : Prop := {
  set_fails n x fd flags old err x' : k_set K n x fd flags old = (err, x') -> err <> 0 -> err < 0 /\ x' = x;
  set_attaches n x fd flags old x' : k_set K n x fd flags old = (0, x') -> Z.land flags XDP_FLAGS_HW_MODE = 0 ->
    sh_slot x' = (if fd =? -1 then None else Some (id_of fd)) /\ sh_fs x' = sh_fs x /\ sh_hw x' = sh_hw x /\
    (old <> 0 -> sh_slot x = Some (id_of old)) /\ (Z.land flags XDP_FLAGS_UPDATE_IF_NOEXIST <> 0 -> sh_slot x = None);
  dup_positive n x fd hw_fd k : fe_dup (fl_main (at_fill (k_attempt K n x) fd hw_fd)) = inr k -> 0 < k;
  fault_positive n op f errno : k_fault K n op f = Some errno -> 0 < errno;
  gen_error n err : ge_dispatcher (k_gen K n) = inl err -> err <> 0
}.

Lemma u64_add_small a b : 0 <= a < 256 -> 0 <= b < 2 ^ 32 -> u64 (a + b) = a + b.
Proof. intros Ha Hb. apply u64_id. lia. Qed.

Lemma link_progs_main link ps : forall i mp err mp', link_progs link i ps mp = (err, mp') -> main_prog mp' = main_prog mp.
Proof.
  induction ps as [| p ps IH]; intros i mp err mp'; cbn [link_progs]; [by intros [= <- <-] |].
  destruct (xdp_multiprog__link_prog (link i) mp p) as [[er m1] p1] eqn:E.
  assert (main_prog m1 = main_prog mp) as Hm.
  { assert (forall wl q r, link_clone (link i) mp wl q = (er, m1, r) -> main_prog m1 = main_prog mp) as Hc.
    { intros wl q r. unfold link_clone. destruct (le_clone _); [by intros [= <- <- <-] |]. destruct (link_attach _ _); [by intros [= <- <- <-] |].
      destruct (negb _); [by intros [= <- <- <-] |]. intros [= <- <- <-]. by destruct mp. }
    revert E. unfold xdp_multiprog__link_prog. repeat (destruct (negb _); [by intros [= <- <- <-] |]); try (destruct (_ || _); [by intros [= <- <- <-] |]).
    repeat (destruct (negb _); [by intros [= <- <- <-] |]). destruct (le_btf_id _ _ <=? 0); [by intros [= <- <- <-] |].
    destruct (prog_fd p <? 0); [| apply Hc]. destruct (negb _); [by intros [= <- <- <-] |]. destruct (le_load _) as [| []]; [by intros [= <- <- <-] | apply Hc]. }
  destruct (negb (er =? 0)); [by intros [= <- <-] |]. intros H. apply IH in H. congruence.
Qed.

Lemma load_main e mp mp' : xdp_multiprog__load e mp = (0, mp') -> is_Some (main_prog mp').
Proof.
  unfold xdp_multiprog__load. destruct (main_prog mp); [| done]. destruct (_ || _); [done |]. destruct (ge_load e) as [| []]; [done |].
  intros [= <-]. by eexists.
Qed.

(** [xdp_multiprog__generate] adding programs to one that was found: it
    returns, its errors are not 0, and a dispatcher it returns has a program. *)
Lemma generate_adds qsort e progs ifindex old : progs <> [] -> zlen progs < 2 ^ 32 -> (forall err, ge_dispatcher e = inl err -> err <> 0) ->
  match old with Some old => found_ok old | None => True end ->
  exists r, xdp_multiprog__generate qsort e progs ifindex old false = Some r /\
    match r with inl err => err <> 0 | inr mp => is_Some (main_prog mp) end.
Proof.
  intros Hp Hz He Ho. unfold xdp_multiprog__generate. rewrite (proj2 (Nat.eqb_neq _ _)) by (by destruct progs). rewrite andb_false_r. cbn [orb].
  destruct (Z.ltb_spec (Z.of_nat MAX_DISPATCHER_ACTIONS) (u64 (match old with Some old => num_links old | None => 0 end + zlen progs))); [by eexists |].
  destruct (xdp_multiprog__new _ _) as [mp |]; [| by eexists].
  assert (forall want, exists r, generate_from qsort e mp (Some <$> want) = Some r /\
    match r with inl err => err <> 0 | inr mp => is_Some (main_prog mp) end) as Hg.
  { intros want. unfold generate_from. rewrite length_fmap, mapM_id_Some. cbn [mbind option_bind].
    assert (exists ps, (if (1 <? length want)%nat then Some (Some <$> qsort cmp_xdp_programs want) else Some (Some <$> want)) = Some (Some <$> ps)) as [ps ->]
      by (destruct (1 <? length want)%nat; by eexists).
    cbn [mbind option_bind]. rewrite mapM_id_Some. cbn [mbind option_bind]. destruct (ge_dispatcher e) as [err | d] eqn:Ed; [eexists; split; [done | by apply He] |].
    destruct (negb _); [by eexists |]. destruct (Z.eqb_spec (ge_set_value e) 0); cbn [negb]; [| by eexists].
    destruct (xdp_multiprog__load e _) as [err m1] eqn:El. destruct (Z.eqb_spec err 0) as [-> |]; cbn [negb]; [| by eexists].
    destruct (link_progs _ 0 ps m1) as [err m2] eqn:Ek. eexists. split; [done |]. destruct (Z.eqb_spec err 0) as [-> | Hne]; cbn [negb]; [| done].
    apply link_progs_main in Ek. rewrite Ek. by apply load_main in El. }
  destruct old as [old |]; [| apply Hg]. destruct (is_legacy old) eqn:El; [by eexists |]. destruct (_ <? _); [by eexists |].
  destruct (negb _); [by eexists |]. destruct Ho as [Ho _]. destruct (Ho El) as [Hn Hl]. pose proof (zlen_nonneg progs).
  rewrite Hn, u64_add_small by (unfold zlen in *; lia). unfold fill_progs.
  rewrite (proj2 (Nat.ltb_ge _ _)), (proj2 (Nat.ltb_ge _ _)) by (unfold zlen; lia). cbn [orb mbind option_bind]. apply Hg.
Qed.

Lemma keep_progs_error old progs n err : forall i, keep_progs old progs n i = inl err -> err <> 0.
Proof.
  induction old as [| p old IH]; intros i; cbn [keep_progs]; [done |]. destruct (existsb _ _); [apply IH |].
  destruct (_ <=? _); [by intros [= <-] |]. destruct (keep_progs old progs n (i + 1)) as [e |] eqn:E; [| done]. intros [= ->]. by eapply IH.
Qed.

(** The errors of [xdp_multiprog__generate] are not 0. *)
Lemma generate_error qsort e progs ifindex old remove err : xdp_multiprog__generate qsort e progs ifindex old remove = Some (inl err) ->
  (forall err, ge_dispatcher e = inl err -> err <> 0) -> err <> 0.
Proof.
  unfold xdp_multiprog__generate. intros E He. destruct (_ || _); [by injection E as <- |]. destruct (_ <? _); [by injection E as <- |].
  destruct (xdp_multiprog__new _ _) as [mp |]; [| by injection E as <-].
  assert (forall new, generate_from qsort e mp new = Some (inl err) -> err <> 0) as Hg.
  { clear E. intros new. unfold generate_from. destruct (if (1 <? length new)%nat then _ else _) as [ps |]; [| done]. cbn [mbind option_bind].
    destruct (ge_dispatcher e) as [er | d] eqn:Ed; [intros [= <-]; by apply He |]. destruct (negb _); [by intros [= <-] |].
    destruct (mapM id ps) as [qs |]; [| done]. cbn [mbind option_bind]. destruct (Z.eqb_spec (ge_set_value e) 0); cbn [negb]; [| by intros [= <-]].
    destruct (xdp_multiprog__load e _) as [er m1]. destruct (Z.eqb_spec er 0); cbn [negb]; [| by intros [= <-]].
    destruct (link_progs _ _ _ _) as [er2 m2]. destruct (Z.eqb_spec er2 0); cbn [negb]; [done | by intros [= <-]]. }
  destruct old as [old |]; [| by eapply Hg]. destruct (is_legacy old); [by injection E as <- |]. destruct (_ <? _); [by injection E as <- |].
  destruct (negb _); [by injection E as <- |]. destruct remove.
  - unfold removed_progs in E. destruct (keep_progs _ _ _ _) as [er | l] eqn:Er; [| by eapply Hg]. injection E as ->. by eapply keep_progs_error.
  - destruct (fill_progs _ _ _) as [new |]; [| done]. by eapply Hg.
Qed.

(** ** No update is lost *)

Section NoLostUpdate.
Context (qsort : (xdp_program -> xdp_program -> Z) -> list xdp_program -> list xdp_program).
Context (K : kern) (id_of : Z -> Z) (HK : kern_ok K id_of).
Context (ifindex : Z).

(** Calls that changed nothing. *)
Definition quiet (l : list (shared * shared)) : Prop := Forall (fun p => fst p = snd p) l.

(** The identifier of the program a multi-program stands for. *)
Definition main_of (mp : option xdp_multiprog) : option Z :=
  match mp with Some _ => Some (id_of (xdp_multiprog__main_fd mp)) | None => None end.

(** One call from [s] to [s'], that attached [b] in place of [a] if [err] is 0. *)
Definition one_call (s s' : state) (err : Z) (a b : option Z) : Prop :=
  live s' = live s /\ exists x y, log s' = log s ++ [(x, y)] /\ (err <> 0 -> err < 0 /\ x = y) /\
    (err = 0 -> sh_slot x = a /\ sh_slot y = b).

(** The kernel refused, as invalid, to attach [fd] in place of [old]. *)
Definition refused (fd old : Z) : Prop := exists n x flags, fst (k_set K n x fd flags old) = - EINVAL.

(** The calls from [s] to [s'] of one attempt to attach [fd] in place of [old]
    (-1 for none), that returned [err]: one, that attached it there if [err] is
    0; or two, the first refused and the second without saying what is
    expected. *)
Definition set_calls (s s' : state) (err fd old : Z) : Prop :=
  live s' = live s /\ exists l x y, log s' = log s ++ l ++ [(x, y)] /\ quiet l /\ (l = [] \/ length l = 1%nat /\ 0 < old /\ refused fd old) /\
    (err <> 0 -> err < 0 /\ x = y) /\
    (err = 0 -> sh_slot y = (if fd =? -1 then None else Some (id_of fd)) /\ (l = [] -> sh_slot x = if old =? -1 then None else Some (id_of old))).

Lemma do_attach_spec fd old flags s err s' : do_xdp_attach K fd old flags s = (err, s') -> Z.land flags XDP_FLAGS_HW_MODE = 0 ->
  live s' = live s /\ exists x y, log s' = log s ++ [(x, y)] /\ (err <> 0 -> err < 0 /\ x = y) /\ (err = - EINVAL -> refused fd old) /\
    (err = 0 -> sh_slot y = (if fd =? -1 then None else Some (id_of fd)) /\ (old <> 0 -> sh_slot x = Some (id_of old)) /\
      (Z.land flags XDP_FLAGS_UPDATE_IF_NOEXIST <> 0 -> sh_slot x = None)).
Proof.
  unfold do_xdp_attach. intros E Hf. set (s1 := tick K s) in *. destruct (k_set K (now s1) (sh s1) fd flags old) as [er x'] eqn:Es.
  injection E as <- <-. split; [done |]. exists (sh s1), x'. split_and!; [done | | |].
  - intros Hne. destruct (set_fails K id_of HK _ _ _ _ _ _ _ Es Hne) as [? ->]. done.
  - intros ->. eexists _, _, _. by rewrite Es.
  - intros ->. destruct (set_attaches K id_of HK _ _ _ _ _ _ Es Hf) as (? & _ & _ & ? & ?). done.
Qed.

Lemma attach_result_spec er no old err errno : attach_result er no old = (err, errno) -> (er = 0 <-> err = 0) /\ (er < 0 -> err < 0).
Proof.
  unfold attach_result. destruct (Z.ltb_spec er 0); cbn [andb].
  - destruct (_ && _); intros [= <- <-]; unfold EAGAIN; split; lia.
  - intros [= <- <-]. split; [done | lia].
Qed.

Lemma attach_fd_spec fd old mode s err errno s' : xdp_attach_fd K fd old mode s = (err, errno, s') -> old = -1 \/ 0 < old -> mode <> XDP_MODE_HW ->
  set_calls s s' err fd old.
Proof.
  intros E Ho Hm. unfold xdp_attach_fd in E. set (old' := if old =? -1 then 0 else old) in E.
  set (flags := Z.lor _ (mode_flags mode)) in E. destruct (do_xdp_attach K fd old' flags s) as [er s1] eqn:Ed.
  assert (Z.land flags XDP_FLAGS_HW_MODE = 0 /\ (old = -1 -> Z.land flags XDP_FLAGS_UPDATE_IF_NOEXIST <> 0)) as [Hf1 Hf2].
  { unfold flags, mode_flags. rewrite (proj2 (Z.eqb_neq mode XDP_MODE_HW)) by done.
    destruct (Z.eqb_spec old (-1)), (mode =? XDP_MODE_SKB), (mode =? XDP_MODE_NATIVE); done. }
  destruct (do_attach_spec fd old' flags s er s1 Ed Hf1) as (Hl & x & y & Hlog & Hfail & Href & Hok).
  destruct ((er =? - EINVAL) && c_true old') eqn:Eagain.
  - apply andb_true_iff in Eagain as [Her%Z.eqb_eq Hc]. assert (old' <> 0) as Hn by (intros H; by rewrite H in Hc).
    assert (old' = old) as Heq by (unfold old' in *; by destruct (old =? -1)).
    destruct (do_xdp_attach K fd 0 flags s1) as [er2 s2] eqn:Ed2. injection E as E <-.
    destruct (do_attach_spec fd 0 flags s1 er2 s2 Ed2 Hf1) as (Hl2 & x2 & y2 & Hlog2 & Hfail2 & _ & Hok2).
    apply attach_result_spec in E as [Hz Hlt]. split; [congruence |]. exists [(x, y)], x2, y2. split_and!.
    + by rewrite Hlog2, Hlog, <- app_assoc.
    + constructor; [| constructor]. apply Hfail. by rewrite Her.
    + right. rewrite <- Heq. split_and!; [done | | by apply Href]. destruct Ho as [-> | ?]; [done | lia].
    + intros Hne. destruct Hfail2; [by rewrite Hz |]. by auto.
    + intros He. split; [| done]. by apply Hok2, Hz.
  - injection E as E <-. apply attach_result_spec in E as [Hz Hlt]. split; [done |]. exists [], x, y. split_and!; [done | constructor | by left | |].
    + intros Hne. destruct Hfail; [by rewrite Hz |]. by auto.
    + intros He. destruct (Hok (proj2 Hz He)) as (Hy & H1 & H2). split; [done |]. intros _. unfold old' in H1. destruct (Z.eqb_spec old (-1)); [by auto |].
      destruct Ho as [? | ?]; [done |]. apply H1. lia.
Qed.

(** Attaching a dispatcher: refused before any call, or one attempt. *)
Lemma mp_attach_spec old mp mode s err s' : xdp_multiprog__attach K ifindex old (Some mp) mode s = (err, s') -> mode <> XDP_MODE_HW ->
  match old with Some old => found_ok old | None => True end ->
  (err = - EINVAL /\ s' = s) \/
  (set_calls s s' err (xdp_multiprog__main_fd (Some mp)) (match old with Some _ => xdp_multiprog__main_fd old | None => -1 end) /\
   0 <= xdp_multiprog__main_fd (Some mp) /\ match old with Some o => 0 < xdp_multiprog__main_fd old /\ is_Some (main_prog o) | None => True end).
Proof.
  unfold xdp_multiprog__attach. rewrite bool_decide_true by done. cbn [negb andb]. intros E Hm Ho.
  rewrite (proj2 (Z.eqb_neq mode _)) in E by done. destruct (Z.ltb_spec (xdp_multiprog__main_fd (Some mp)) 0); [injection E as <- <-; by left |].
  set (old_fd := match old with Some _ => xdp_multiprog__main_fd old | None => -1 end) in *.
  destruct (bool_decide (is_Some old) && (old_fd <? 0)) eqn:Eo; [injection E as <- <-; by left |].
  destruct (match old with Some _ => _ | None => false end); [injection E as <- <-; by left |]. right.
  destruct (xdp_attach_fd K (xdp_multiprog__main_fd (Some mp)) old_fd mode s) as [[er errno] s1] eqn:Ea.
  assert (match old with Some o => 0 < old_fd /\ is_Some (main_prog o) | None => old_fd = -1 end) as Hfd.
  { destruct old as [o |]; [| done]. rewrite bool_decide_true in Eo by done. apply Z.ltb_ge in Eo. unfold old_fd in *. cbn [xdp_multiprog__main_fd] in *.
    destruct Ho as [_ Ho]. destruct (main_prog o) as [p |]; [| done]. destruct (Ho p eq_refl) as [? | ?]; [lia |]. by split. }
  apply attach_fd_spec in Ea; [| destruct old; [right; apply Hfd | by left] | done].
  assert ((err, s') = (er, s1)) as [= -> ->].
  { destruct Ea as (_ & l & x & y & _ & _ & _ & Hfail & _).
    destruct (Z.ltb_spec er 0); [by rewrite andb_false_r in E |]. destruct (Z.eq_dec er 0) as [-> | Hne]; [done |]. destruct (Hfail Hne). lia. }
  split_and!; [done | done |]. by destruct old.
Qed.

Lemma attempt_at_ok n x : attempt_ok (attempt_at K n x).
Proof.
  intros fd hw_fd. split; [intros k; apply (dup_positive K id_of HK) |]. cbn [attempt_at at_fill fl_pinned].
  eexists _, _, _, _, _, _. split; [apply (fault_positive K id_of HK n) | done].
Qed.

Lemma get_from_spec s r s' : get_from_ifindex K ifindex s = (Some r, s') ->
  log s' = log s /\ match r with inr mp => found_ok mp | inl _ => True end.
Proof.
  unfold get_from_ifindex. set (w := fun n => attempt_at K _ _). intros [= E <-]. split; [done |]. destruct r as [| mp]; [done |].
  eapply get_found_ok; [| exact E]. intros n. apply attempt_at_ok.
Qed.

Lemma pin_dir_some dir lock mp : is_Some (main_prog mp) -> is_Some (pin_dir dir lock mp).
Proof. intros [p Hp]. unfold pin_dir. destruct dir; [by eexists |]. rewrite Hp. by eexists. Qed.

Lemma pin_log mp s : is_Some (main_prog mp) -> exists err s', pin K mp s = Some (err, s') /\ log s' = log s.
Proof.
  intros Hm. unfold pin, xdp_multiprog__pin. destruct (is_legacy mp); [by eexists _, _ |].
  destruct (pin_dir_some (k_dir K (now (tick K s))) (k_lock K (now (tick K s))) mp Hm) as [[e | d] ->]; cbn [mbind option_bind]; [by eexists _, _ |].
  destruct (mkdir _ d _) as [no fs1]. destruct (negb _ && _); [by eexists _, _ |]. destruct (pin_progs _ _ _ _ _ _) as [er fs2].
  destruct (first_prog mp); [by eexists _, _ |]. destruct (negb _); by eexists _, _.
Qed.

Lemma unpin_log mp s : is_Some (main_prog mp) -> exists err s', unpin K mp s = Some (err, s') /\ log s' = log s.
Proof.
  intros Hm. unfold unpin, xdp_multiprog__unpin. destruct (is_legacy mp); [by eexists _, _ |].
  destruct (pin_dir_some (k_dir K (now (tick K s))) (k_lock K (now (tick K s))) mp Hm) as [[e | d] ->]; cbn [mbind option_bind]; [by eexists _, _ |].
  destruct (unpin_progs _ _ _ _) as [er fs1]. destruct (negb _); [by eexists _, _ |]. destruct (rmdir _ _ _) as [no fs2]. by eexists _, _.
Qed.

(** The same program, perhaps loaded meanwhile. *)
Definition same_prog (p q : xdp_program) : Prop := exists fd id, q = p {{ prog_fd := fd; prog_id := id }}.

(** [y] replaced [x]: a dispatcher generated from the one that was attached
    (or from none) and the programs; or, in place of none, a single program. *)
Definition replaces (progs : list xdp_program) (x y : shared) : Prop :=
  (exists n old progs' mp, Forall2 same_prog progs progs' /\
    xdp_multiprog__generate qsort (k_gen K n) progs' ifindex old false = Some (inr mp) /\
    sh_slot x = main_of old /\ sh_slot y = Some (id_of (xdp_multiprog__main_fd (Some mp)))) \/
  (length progs = 1%nat /\ sh_slot x = None /\ exists fd, 0 <= fd /\ sh_slot y = Some (id_of fd)).

(** [y] is a dispatcher generated from a multi-program that was found, and took
    the place of whatever was attached: the kernel had refused, as invalid, the
    call that names the program expected. *)
Definition overwrites (progs : list xdp_program) (y : shared) : Prop :=
  exists n old progs' mp, Forall2 same_prog progs progs' /\
    xdp_multiprog__generate qsort (k_gen K n) progs' ifindex (Some old) false = Some (inr mp) /\
    0 < xdp_multiprog__main_fd (Some old) /\ refused (xdp_multiprog__main_fd (Some mp)) (xdp_multiprog__main_fd (Some old)) /\
    sh_slot y = Some (id_of (xdp_multiprog__main_fd (Some mp))).

(** What the calls [l] of an operation did, that returned [err]. *)
Definition outcome (progs : list xdp_program) (err : Z) (l : list (shared * shared)) : Prop :=
  if err =? 0 then exists l' x y, l = l' ++ [(x, y)] /\ quiet l' /\ (replaces progs x y \/ overwrites progs y) else quiet l.

Lemma outcome_nil progs err : err <> 0 -> outcome progs err [].
Proof. intros H. unfold outcome. rewrite (proj2 (Z.eqb_neq _ _)) by done. constructor. Qed.

Lemma outcome_last progs err l x y : quiet l -> (err <> 0 -> x = y) -> (err = 0 -> replaces progs x y \/ overwrites progs y) -> outcome progs err (l ++ [(x, y)]).
Proof.
  intros Hq H1 H2. unfold outcome. destruct (Z.eqb_spec err 0).
  - exists l, x, y. split_and!; [done | done | by apply H2].
  - apply Forall_app. split; [done |]. repeat constructor. by apply H1.
Qed.

Lemma single_spec p mode s : mode <> XDP_MODE_HW ->
  exists err p' s' l, xdp_program__attach_single K p mode s = (err, p', s') /\ log s' = log s ++ l /\ (length l <= 2)%nat /\ outcome [p] err l.
Proof.
  intros Hm. unfold xdp_program__attach_single.
  assert (forall q s, exists err p' s' l,
    (if prog_fd q <? 0 then (- EINVAL, q, s) else let '(err, _, s) := xdp_attach_fd K (prog_fd q) (-1) mode s in (err, q, s)) = (err, p', s') /\
    log s' = log s ++ l /\ (length l <= 2)%nat /\ outcome [p] err l) as Hat.
  { intros q s1. destruct (Z.ltb_spec (prog_fd q) 0).
    - eexists _, _, _, []. split_and!; [done | by rewrite app_nil_r | simpl; lia | by apply outcome_nil].
    - destruct (xdp_attach_fd K (prog_fd q) (-1) mode s1) as [[er errno] s2] eqn:Ea.
      apply attach_fd_spec in Ea as (_ & l & x & y & Hlog & Hq & Hl & Hfail & Hok); [| by left | done]. rewrite (proj2 (Z.eqb_neq (prog_fd q) (-1))) in Hok by lia.
      eexists _, _, _, (l ++ [(x, y)]). split_and!; [done | done | rewrite length_app; destruct Hl as [-> | [-> _]]; simpl; lia |].
      apply outcome_last; [done | intros Hne; by apply Hfail |]. intros He. destruct (Hok He) as [Hy Hx].
      destruct Hl as [-> | (_ & Hlt & _)]; [| done]. left. right. split_and!; [done | by apply Hx |]. by exists (prog_fd q). }
  destruct (prog_fd p <? 0) eqn:Ep; [| specialize (Hat p s); by rewrite Ep in Hat]. destruct (xdp_program__load _ _) as [er p1].
  destruct (Z.eqb_spec er 0); cbn [negb].
  - match goal with |- context [prog_fd ?q <? 0] => destruct (Hat q (tick K s)) as (err & p' & s' & l & E & Hl & H) end.
    rewrite E. by eexists _, _, _, l.
  - eexists _, _, _, []. split_and!; [done | by rewrite app_nil_r | simpl; lia | by apply outcome_nil].
Qed.

Lemma after_generate_same e old progs : Forall2 same_prog progs (after_generate qsort e old progs).
Proof.
  unfold after_generate. generalize (if (1 <? length (wanted old progs false))%nat then qsort cmp_xdp_programs (wanted old progs false) else wanted old progs false).
  intros sorted. induction progs as [| p progs IH]; cbn [map]; constructor; [| exact IH].
  assert (same_prog p p) as Hrefl by (exists (prog_fd p), (prog_id p); by destruct p).
  destruct (prog_fd p <? 0); [| done]. destruct (le_load _) as [| [fd id]]; [done | by exists fd, id].
Qed.

Lemma same_prog_trans progs progs1 progs2 : Forall2 same_prog progs progs1 -> Forall2 same_prog progs1 progs2 -> Forall2 same_prog progs progs2.
Proof.
  intros H. revert progs2. induction H as [| p q progs progs1 (fd & id & ->) _ IH]; intros progs2 H2; inversion H2 as [| ? r ? progs3 (fd' & id' & ->) H3]; subst;
    constructor; [by exists fd', id'; destruct p | by apply IH].
Qed.

Lemma replaces_same progs progs1 x y : Forall2 same_prog progs progs1 -> replaces progs1 x y -> replaces progs x y.
Proof.
  intros H [(n & old & progs2 & mp & H2 & Hg & Hx & Hy) | (Hl & Hx & Hy)].
  - left. exists n, old, progs2, mp. split_and!; [by eapply same_prog_trans | done..].
  - right. apply Forall2_length in H. split_and!; [lia | done..].
Qed.

(** A dispatcher generated from [old] was attached. *)
Lemma attached_outcome n old progs mp l x y : xdp_multiprog__generate qsort (k_gen K n) progs ifindex old false = Some (inr mp) ->
  0 <= xdp_multiprog__main_fd (Some mp) -> match old with Some _ => 0 < xdp_multiprog__main_fd old | None => True end ->
  let fd := xdp_multiprog__main_fd (Some mp) in
  let old_fd := match old with Some _ => xdp_multiprog__main_fd old | None => -1 end in
  (l = [] \/ length l = 1%nat /\ 0 < old_fd /\ refused fd old_fd) ->
  sh_slot y = (if fd =? -1 then None else Some (id_of fd)) /\ (l = @nil (shared * shared) -> sh_slot x = if old_fd =? -1 then None else Some (id_of old_fd)) ->
  replaces progs x y \/ overwrites progs y.
Proof.
  intros Hg Hfd Hold fd old_fd Hl [Hy Hx]. rewrite (proj2 (Z.eqb_neq fd (-1))) in Hy by (unfold fd; lia).
  assert (Forall2 same_prog progs progs) as Hs.
  { apply Forall_Forall2_diag, Forall_true. intros p. exists (prog_fd p), (prog_id p). by destruct p. }
  destruct Hl as [-> | (_ & Hlt & Href)].
  - left. left. exists n, old, progs, mp. split_and!; [done | done | | done]. rewrite (Hx eq_refl). unfold old_fd, main_of. destruct old; [| done].
    by rewrite (proj2 (Z.eqb_neq _ (-1))) by lia.
  - right. unfold old_fd in *. destruct old as [o |]; [| done]. by exists n, o, progs, mp.
Qed.

(** One attempt, unless looking up what is attached is undefined: it ends the
    operation, or is tried again after calls that changed nothing. *)
Lemma attach_once_spec mode progs s : mode <> XDP_MODE_HW -> progs <> [] -> zlen progs < 2 ^ 32 ->
  is_Some (fst (get_from_ifindex K ifindex s)) ->
  exists r, attach_once qsort K ifindex progs mode s = Some r /\
    match r with
    | inl (err, s') => exists l, log s' = log s ++ l /\ (length l <= 2)%nat /\ outcome progs err l
    | inr (progs', s') => Forall2 same_prog progs progs' /\ exists l, log s' = log s ++ l /\ (length l <= 2)%nat /\ quiet l
    end.
Proof.
  intros Hm Hp Hz [f Ef]. unfold attach_once. destruct (get_from_ifindex K ifindex s) as [found s1] eqn:Eg. cbn in Ef. subst found.
  apply get_from_spec in Eg as [Hl1 Hf]. cbn [mbind option_bind]. set (old := match f with inl _ => None | inr mp => Some mp end).
  assert (match old with Some old => found_ok old | None => True end) as Ho by (by destruct f). clearbody old. clear Hf f.
  rewrite (proj2 (Z.eqb_neq mode _)) by done.
  assert (forall s2 : state, log s2 = log s -> length progs = 1%nat -> exists r,
    (p ← head progs; let '(err, _, s) := xdp_program__attach_single K p mode s2 in Some (inl (err, s))) = Some r /\
    match r with
    | inl (err, s') => exists l, log s' = log s ++ l /\ (length l <= 2)%nat /\ outcome progs err l
    | inr (progs', s') => Forall2 same_prog progs progs' /\ exists l, log s' = log s ++ l /\ (length l <= 2)%nat /\ quiet l
    end) as Hsingle.
  { intros s2 H2 Hlen. destruct progs as [| p [|]]; [done | | done]. destruct (single_spec p mode s2 Hm) as (err & p' & s' & l & E & Hl & Hn & Hout).
    cbn [head mbind option_bind]. rewrite E. eexists. split; [done |]. exists l. split_and!; [by rewrite Hl, H2 | done | done]. }
  destruct ((length progs =? 1)%nat && k_skip K) eqn:Esk; [apply andb_true_iff in Esk as [Esk%Nat.eqb_eq _]; by apply Hsingle |].
  destruct (generate_adds qsort (k_gen K (now (tick K s1))) progs ifindex old Hp Hz (gen_error K id_of HK _) Ho) as (r & Er & Hr). rewrite Er. cbn [mbind option_bind].
  destruct r as [err | mp].
  { destruct ((err =? - EOPNOTSUPP) && _) eqn:Eop; [apply andb_true_iff in Eop as [_ Eop%Nat.eqb_eq]; by apply Hsingle |].
    eexists. split; [done |]. exists []. split_and!; [by destruct old; rewrite app_nil_r | simpl; lia | by apply outcome_nil]. }
  destruct (pin_log mp (closed (-1) (tick K s1)) Hr) as (perr & s2 & -> & Hl2). cbn [mbind option_bind].
  assert (log s2 = log s) as Hls by (by rewrite Hl2). destruct (Z.eqb_spec perr 0); cbn [negb].
  2: { eexists. split; [done |]. exists []. split_and!; [destruct old; cbn [log closed]; by rewrite Hls, app_nil_r | simpl; lia | by apply outcome_nil]. }
  destruct (xdp_multiprog__attach K ifindex old (Some mp) mode s2) as [aerr s3] eqn:Ea.
  apply mp_attach_spec in Ea as [[-> ->] | (Hcalls & Hfd & Hold)]; [| | done | done].
  { cbn [Z.eqb negb]. destruct (unpin_log mp s2 Hr) as (uerr & s4 & -> & Hl4). cbn [mbind option_bind]. eexists. split; [done |].
    exists []. split_and!; [destruct old; cbn [log closed]; by rewrite Hl4, Hls, app_nil_r | simpl; lia | by apply outcome_nil]. }
  destruct Hcalls as (_ & l & x & y & Hl3 & Hq & Hl & Hfail & Hok).
  assert (length (l ++ [(x, y)]) <= 2)%nat as Hlen by (rewrite length_app; destruct Hl as [-> | [-> _]]; simpl; lia).
  destruct (Z.eqb_spec aerr 0) as [-> | Hne]; cbn [negb].
  - assert (exists s4, (match old with Some old => '(_, s) ← unpin K old s3; Some s | None => Some s3 end) = Some s4 /\
      log s4 = log s3) as (s4 & -> & Hl4).
    { destruct old as [o |]; [| by eexists]. destruct (unpin_log o s3 (proj2 Hold)) as (uerr & s4 & -> & Hl4). by eexists. }
    cbn [mbind option_bind]. eexists. split; [done |]. exists (l ++ [(x, y)]). split_and!; [destruct old; cbn [log closed]; by rewrite Hl4, Hl3, Hls | done |].
    apply outcome_last; [done | done |]. intros _. eapply attached_outcome; [exact Er | exact Hfd | | exact Hl | by apply Hok]. destruct old; [apply Hold | done].
  - destruct (unpin_log mp s3 Hr) as (uerr & s4 & -> & Hl4). cbn [mbind option_bind]. eexists. split; [done |].
    destruct (aerr =? - EAGAIN).
    + split; [apply after_generate_same |]. exists (l ++ [(x, y)]). split_and!; [destruct old; cbn [log closed]; by rewrite Hl4, Hl3, Hls | done |].
      apply Forall_app. split; [done |]. repeat constructor. by apply Hfail.
    + exists (l ++ [(x, y)]). split_and!; [destruct old; cbn [log closed]; by rewrite Hl4, Hl3, Hls | done |]. apply outcome_last; [done | | done].
      intros _. by apply Hfail.
Qed.

Lemma overwrites_same progs progs1 y : Forall2 same_prog progs progs1 -> overwrites progs1 y -> overwrites progs y.
Proof. intros H (n & old & progs2 & mp & H2 & Hg). exists n, old, progs2, mp. split; [by eapply same_prog_trans | done]. Qed.

Lemma outcome_app progs progs' err l0 l : Forall2 same_prog progs progs' -> quiet l0 -> outcome progs' err l -> outcome progs err (l0 ++ l).
Proof.
  intros Hs H0. unfold outcome. destruct (err =? 0).
  - intros (l' & a & b & -> & Hq & Hr). exists (l0 ++ l'), a, b. split_and!; [by rewrite app_assoc | by apply Forall_app |].
    destruct Hr as [Hr | Hr]; [left; by eapply replaces_same | right; by eapply overwrites_same].
  - intros Hq. by apply Forall_app.
Qed.

(** Looking up what is attached is undefined, in some state. *)
Definition lookup_undefined : Prop := exists s, fst (get_from_ifindex K ifindex s) = None.

Lemma attach_retry_spec mode : mode <> XDP_MODE_HW -> forall tries progs s, progs <> [] -> zlen progs < 2 ^ 32 ->
  (attach_retry qsort K ifindex tries progs mode s = None /\ lookup_undefined) \/
  exists err s' l, attach_retry qsort K ifindex tries progs mode s = Some (err, s') /\ log s' = log s ++ l /\
    (length l <= 2 * S tries)%nat /\ outcome progs err l.
Proof.
  intros Hm tries. induction tries as [| tries IH]; intros progs s Hp Hz; cbn [attach_retry];
    (destruct (fst (get_from_ifindex K ifindex s)) as [f |] eqn:Eg;
      [| left; split; [unfold attach_once; destruct (get_from_ifindex K ifindex s); cbn in Eg; by subst | by exists s]]);
    (destruct (attach_once_spec mode progs s Hm Hp Hz) as (r & -> & Hr); [by eexists |]); cbn [mbind option_bind]; destruct r as [[err s'] | [progs' s']].
  1, 3: right; destruct Hr as (l & Hl & Hn & Hout); exists err, s', l; split_and!; done || lia.
  - right. destruct Hr as (_ & l & Hl & Hn & Hq). eexists _, _, l. split_and!; [done | done | lia | exact Hq].
  - destruct Hr as (Hs & l0 & Hl & Hn0 & Hq). pose proof (Forall2_length _ _ _ Hs) as Hlen.
    destruct (IH progs' s') as [H | (err & s2 & l & E & Hl2 & Hn & Hout)]; [by destruct progs, progs' | unfold zlen in *; lia | by left |].
    right. exists err, s2, (l0 ++ l). split_and!; [done | by rewrite Hl2, Hl, <- app_assoc | rewrite length_app; lia | by eapply outcome_app].
Qed.

Lemma attach_multi_outcome progs mode s : mode <> XDP_MODE_HW -> progs <> [] -> zlen progs < 2 ^ 32 ->
  (xdp_program__attach_multi qsort K ifindex progs mode 0 s = None /\ lookup_undefined) \/
  exists err s' l, xdp_program__attach_multi qsort K ifindex progs mode 0 s = Some (err, s') /\ log s' = log s ++ l /\
    (length l <= 22)%nat /\ outcome progs err l.
Proof.
  intros Hm Hp Hz. unfold xdp_program__attach_multi. rewrite (proj2 (Nat.eqb_neq _ _)) by (by destruct progs). cbn [orb c_true Z.eqb negb].
  apply (attach_retry_spec mode Hm (Z.to_nat MAX_RETRY) progs s Hp Hz).
Qed.

Lemma outcome_error progs err l : outcome progs err l -> err <> 0 -> quiet l.
Proof. unfold outcome. intros H He. by rewrite (proj2 (Z.eqb_neq _ _)) in H. Qed.


(** *** Detaching *)

(** The programs are not attached with a link: detaching is not refused. *)
Context (Hbusy : forall n x fd flags old, fst (k_set K n x fd flags old) <> - EBUSY).
(** The kernel knows expected descriptors. *)
Context (Hexpected : forall n x fd flags old, 0 < old -> fst (k_set K n x fd flags old) <> - EINVAL).

Lemma set_calls_one s s' err fd old : set_calls s s' err fd old ->
  one_call s s' err (if old =? -1 then None else Some (id_of old)) (if fd =? -1 then None else Some (id_of fd)).
Proof.
  intros (Hlive & l & x & y & Hlog & _ & [-> | (_ & Hlt & n & x0 & fl & H)] & Hfail & Hok); [| by destruct (Hexpected n x0 fd fl old Hlt)].
  split; [done |]. exists x, y. split_and!; [done | done |]. intros He. destruct (Hok He) as [Hy Hx]. by auto.
Qed.

(** [y] replaced [x]: what was attached is a multi-program that was found, and
    [progs] are of it.  It was the single program [progs] names, or exactly as many
    programs as [progs] has, and nothing is attached any more; or a dispatcher
    generated from it without [progs] is. *)
Definition removes (progs : list xdp_program) (x y : shared) : Prop :=
  exists mp, found_ok mp /\ sh_slot x = main_of (Some mp) /\
    if is_legacy mp then (prog_id <$> progs) = [xdp_multiprog__main_id (Some mp)] /\ sh_slot y = None
    else Forall (fun p => prog_id p ∈ (prog_id <$> first_prog mp)) progs /\
      if zlen progs =? num_links mp then sh_slot y = None
      else exists n new, xdp_multiprog__generate qsort (k_gen K n) progs ifindex (Some mp) true = Some (inr new) /\
        sh_slot y = Some (id_of (xdp_multiprog__main_fd (Some new))).

Lemma attach_fd_not_busy fd old mode s err errno s' : xdp_attach_fd K fd old mode s = (err, errno, s') -> errno <> EBUSY.
Proof.
  unfold xdp_attach_fd. set (flags := Z.lor _ _). set (old' := if old =? -1 then 0 else old).
  assert (forall fd old fl s er s1 no, do_xdp_attach K fd old fl s = (er, s1) -> no <> EBUSY -> set_errno er no <> EBUSY) as Hset.
  { intros f o fl s0 er s1 no. unfold do_xdp_attach. pose proof (Hbusy (now (tick K s0)) (sh (tick K s0)) f fl o) as Hb.
    destruct (k_set K _ _ _ _ _) as [e x']. cbn in Hb. intros [= <- <-] Hno. unfold set_errno. destruct (e <? 0); [| done]. unfold EBUSY in *. lia. }
  destruct (do_xdp_attach K fd old' flags s) as [er s1] eqn:Ed. apply Hset with (no := 0) in Ed; [| done].
  assert (forall e no o, snd (attach_result e no o) = no) as Hres by (intros; unfold attach_result; by destruct (_ && _)).
  destruct (_ && c_true old').
  - destruct (do_xdp_attach K fd 0 flags s1) as [er2 s2] eqn:Ed2. apply Hset with (no := set_errno er 0) in Ed2; [| done].
    intros [= E <-]. apply (f_equal snd) in E. rewrite Hres in E. cbn in E. by subst errno.
  - intros [= E <-]. apply (f_equal snd) in E. rewrite Hres in E. cbn in E. by subst errno.
Qed.

(** Detaching a multi-program that was found. *)
Lemma mp_detach_spec mp mode s err s' : xdp_multiprog__attach K ifindex (Some mp) None mode s = (err, s') -> found_ok mp ->
  (err = - EINVAL /\ s' = s) \/ one_call s s' err (main_of (Some mp)) None.
Proof.
  unfold xdp_multiprog__attach. rewrite bool_decide_false by (by intros []). rewrite bool_decide_true by done. cbn [negb andb]. intros E Ho.
  destruct (Z.eqb_spec mode XDP_MODE_HW); [injection E as <- <-; by left |].
  destruct (Z.ltb_spec (xdp_multiprog__main_fd (Some mp)) 0); [injection E as <- <-; by left |]. cbn [Z.ltb Z.compare andb] in E. right.
  destruct (xdp_attach_fd K (-1) (xdp_multiprog__main_fd (Some mp)) mode s) as [[er errno] s1] eqn:Ea.
  assert (0 < xdp_multiprog__main_fd (Some mp)) as Hfd.
  { cbn [xdp_multiprog__main_fd] in *. destruct Ho as [_ Ho]. destruct (main_prog mp) as [p |]; [| done]. destruct (Ho p eq_refl); lia. }
  pose proof (attach_fd_not_busy _ _ _ _ _ _ _ Ea) as Hnb. apply attach_fd_spec, set_calls_one in Ea as (Hl & x & y & Hlog & Hfail & Hok); [| by right | done].
  rewrite (proj2 (Z.eqb_neq errno EBUSY)) in E by done. cbn [andb] in E.
  assert ((err, s') = (er, s1)) as [= -> ->].
  { destruct (Z.ltb_spec er 0); [done |]. destruct (Z.eq_dec er 0) as [-> | Hne]; [done |]. destruct (Hfail Hne). lia. }
  split; [done |]. exists x, y. split_and!; [done | done |]. intros He. destruct (Hok He) as [Hx Hy]. split; [| done].
  rewrite Hx. by rewrite (proj2 (Z.eqb_neq _ (-1))) by lia.
Qed.

Lemma pin_log_inv mp s err s' : pin K mp s = Some (err, s') -> log s' = log s.
Proof. unfold pin. destruct (xdp_multiprog__pin _ _ _ _ _ _) as [[]|]; [| done]. by intros [= <- <-]. Qed.

Lemma unpin_log_inv mp s err s' : unpin K mp s = Some (err, s') -> log s' = log s.
Proof. unfold unpin. destruct (xdp_multiprog__unpin _ _ _ _ _) as [[]|]; [| done]. by intros [= <- <-]. Qed.

(** What the calls from [s] to [s'] of an operation did, that returned [err]. *)
Definition taken (progs : list xdp_program) (err : Z) (s s' : state) : Prop :=
  exists l, log s' = log s ++ l /\ Forall (fun p => fst p = snd p \/ removes progs (fst p) (snd p)) l /\
    (err = 0 -> exists l' x y, l = l' ++ [(x, y)] /\ removes progs x y).

Lemma taken_none progs err s s' : log s' = log s -> err <> 0 -> taken progs err s s'.
Proof. intros E He. exists []. split_and!; [by rewrite app_nil_r | constructor | done]. Qed.

Lemma taken_trans progs e1 e2 s1 s2 s3 : taken progs e1 s1 s2 -> taken progs e2 s2 s3 -> taken progs e2 s1 s3.
Proof.
  intros (l & E & H & _) (l' & E' & H' & H0). exists (l ++ l'). split_and!; [by rewrite E', E, app_assoc | by apply Forall_app |].
  intros He. destruct (H0 He) as (l0 & x & y & -> & Hr). exists (l ++ l0), x, y. by rewrite app_assoc.
Qed.

Lemma taken_log progs e1 e2 s1 s2 s3 s4 : taken progs e1 s2 s3 -> log s2 = log s1 -> log s4 = log s3 -> (e2 = 0 -> e1 = 0) -> taken progs e2 s1 s4.
Proof. intros (l & E & H & H0) E1 E2 He. exists l. split_and!; [congruence | done | auto]. Qed.

Lemma one_call_taken progs mp s s' err b : one_call s s' err (main_of (Some mp)) b ->
  (forall x y, sh_slot x = main_of (Some mp) -> sh_slot y = b -> removes progs x y) -> taken progs err s s'.
Proof.
  intros (_ & x & y & Hlog & Hfail & Hok) Hr. exists [(x, y)]. split_and!; [done | |].
  - constructor; [| constructor]. destruct (Z.eq_dec err 0) as [He | Hne]; [right | left; by apply Hfail]. by apply Hr; apply Hok.
  - intros He. exists [], x, y. split; [done |]. by apply Hr; apply Hok.
Qed.

Lemma detach_taken progs mp mode s err s' : xdp_multiprog__attach K ifindex (Some mp) None mode s = (err, s') -> found_ok mp ->
  (forall x y, sh_slot x = main_of (Some mp) -> sh_slot y = None -> removes progs x y) -> taken progs err s s'.
Proof.
  intros E Ho Hr. apply mp_detach_spec in E as [[-> ->] | E]; [by apply taken_none | | done]. by eapply one_call_taken.
Qed.

Lemma check_progs_ok progs mp : check_progs progs mp = 0 -> is_legacy mp = false ->
  Forall (fun p => prog_id p ∈ (prog_id <$> first_prog mp)) progs.
Proof.
  intros E Hl. induction progs as [| p progs IH]; [constructor |]. cbn [check_progs xdp_multiprog__progs] in E. rewrite Hl in E.
  destruct (negb (c_true _)); [done |]. destruct (existsb _ (first_prog mp)) eqn:Ex; cbn [negb] in E; [| done].
  constructor; [| by apply IH]. apply existsb_exists in Ex as (q & Hq & Hid). apply Z.eqb_eq in Hid. rewrite Hid.
  apply list_elem_of_fmap_2. by apply list_elem_of_In.
Qed.

Lemma detach_once_spec progs mode mp s err new s' : mode <> XDP_MODE_HW -> found_ok mp ->
  detach_once qsort K ifindex progs mode mp s = Some (err, new, s') -> taken progs err s s'.
Proof.
  intros Hm Ho. unfold detach_once. rewrite (proj2 (Z.eqb_neq mode XDP_MODE_HW)) by done. cbn [orb].
  destruct (is_legacy mp && _) eqn:Elen; [intros [= <- <- <-]; by apply taken_none |]. destruct (head progs) as [p |] eqn:Eps; [| done]. cbn [mbind option_bind].
  destruct (is_legacy mp && negb (c_true _)); [intros [= <- <- <-]; by apply taken_none |].
  destruct (is_legacy mp && negb (xdp_multiprog__main_id (Some mp) =? prog_id p)) eqn:Eid; [intros [= <- <- <-]; by apply taken_none |].
  destruct (negb (mode =? _) && _); [intros [= <- <- <-]; by apply taken_none |]. destruct (is_legacy mp) eqn:Hl.
  { destruct (xdp_multiprog__attach K ifindex (Some mp) None mode s) as [er s1] eqn:Ea. intros [= <- <- <-]. eapply detach_taken; [exact Ea | done |].
    intros x y Hx Hy. exists mp. rewrite Hl. split_and!; [done | done | | done]. cbn [andb] in *. apply Nat.ltb_ge in Elen.
    destruct progs as [| p' [| p2 ps]]; [done | | cbn in Elen; lia]. injection Eps as ->. apply negb_false_iff, Z.eqb_eq in Eid. cbn [fmap list_fmap]. by rewrite Eid. }
  clear Elen Eid. destruct (Z.eqb_spec (check_progs progs mp) 0) as [Hck |]; cbn [negb]; [| intros [= <- <- <-]; by apply taken_none].
  apply check_progs_ok in Hck; [| done]. destruct (zlen progs =? num_links mp) eqn:Hn.
  { destruct (xdp_multiprog__attach K ifindex (Some mp) None (mp_attach_mode mp) s) as [er s1] eqn:Ea. apply (detach_taken progs) in Ea; [| done |].
    2: { intros x y Hx Hy. exists mp. rewrite Hl, Hn. done. }
    destruct (Z.eqb_spec er 0) as [-> |]; cbn [negb]; [| by intros [= <- <- <-]].
    destruct (unpin K mp s1) as [[ue s2] |] eqn:Eu; [| done]. cbn [mbind option_bind]. intros [= <- <- <-].
    eapply taken_log; [exact Ea | done | by eapply unpin_log_inv | done]. }
  destruct (xdp_multiprog__generate _ _ _ _ _ _) as [[er | nm] |] eqn:Eg; [| | done]; cbn [mbind option_bind].
  { intros [= <- <- <-]. apply taken_none; [done |]. eapply generate_error; [exact Eg |]. intros e. apply (gen_error K id_of HK). }
  destruct (pin K nm _) as [[pe s1] |] eqn:Ep; [| done]. cbn [mbind option_bind]. apply pin_log_inv in Ep. cbn [log closed tick] in Ep.
  destruct (Z.eqb_spec pe 0); cbn [negb]; [| intros [= <- <- <-]; by apply taken_none].
  destruct (xdp_multiprog__attach K ifindex (Some mp) (Some nm) mode s1) as [ae s2] eqn:Ea.
  assert (taken progs ae s1 s2) as Ht.
  { apply mp_attach_spec in Ea as [[-> ->] | (E & Hfd & Hlt & _)]; [by apply taken_none | | done | done]. apply set_calls_one in E.
    rewrite !(proj2 (Z.eqb_neq _ (-1))) in E by lia. eapply one_call_taken; [exact E |].
    intros x y Hx Hy. exists mp. rewrite Hl, Hn. split_and!; [done | done | done |]. by eauto. }
  destruct (Z.eqb_spec ae 0); cbn [negb].
  - destruct (unpin K mp s2) as [[ue s3] |] eqn:Eu; [| done]. cbn [mbind option_bind]. intros [= <- <- <-].
    eapply taken_log; [exact Ht | done | by eapply unpin_log_inv | done].
  - destruct (unpin K nm s2) as [[ue s3] |] eqn:Eu; [| done]. cbn [mbind option_bind]. intros [= <- <- <-].
    eapply taken_log; [exact Ht | done | by eapply unpin_log_inv | done].
Qed.

(** Detaching programs takes off exactly these.  Whatever other processes
    do between the calls of this one, every call of [xdp_program__detach_multi]
    that changes what is attached to the interface replaces a multi-program that was
    found there and has these programs: by nothing, if it was a program without
    dispatcher or there are as many programs to detach as it has, and else by a
    dispatcher generated from it without them.  If it returns 0, the
    last call did that. *)
Theorem detach_multi_takes_off progs mode flags s err s' : mode <> XDP_MODE_HW ->
  xdp_program__detach_multi qsort K ifindex progs mode flags s = Some (err, s') ->
  exists l, log s' = log s ++ l /\ Forall (fun p => fst p = snd p \/ removes progs (fst p) (snd p)) l /\
    (err = 0 -> exists l' x y, l = l' ++ [(x, y)] /\ removes progs x y).
Proof.
  intros Hm. change (xdp_program__detach_multi qsort K ifindex progs mode flags s = Some (err, s') -> taken progs err s s').
  unfold xdp_program__detach_multi. destruct (_ || _); [intros [= <- <-]; by apply taken_none |].
  generalize (Z.to_nat MAX_RETRY). intros tries. revert s. induction tries as [| tries IH]; intros s; cbn [detach_retry];
    (destruct (get_from_ifindex K ifindex s) as [[f |] s1] eqn:Eg; [| done]); (apply get_from_spec in Eg as [Hl1 Hf]); cbn [mbind option_bind];
    (destruct f as [e | mp]; [intros [= <- <-]; by apply taken_none |]);
    (destruct (detach_once qsort K ifindex progs mode mp s1) as [[[er nw] s2] |] eqn:Ed; [| done]); cbn [mbind option_bind];
    apply detach_once_spec in Ed; try done; destruct (Z.eqb_spec er (- EAGAIN)) as [-> |]; intros H.
  1, 2, 4: injection H as <- <-; by eapply taken_log.
  apply IH in H. eapply taken_trans; [| exact H]. by apply (taken_log progs (- EAGAIN) (- EAGAIN) s s1 s2).
Qed.
End NoLostUpdate.

(** ** What is leaked, and what is taken off too much *)

Section Flaws.
Context (qsort : (xdp_program -> xdp_program -> Z) -> list xdp_program -> list xdp_program).
Context (K : kern) (ifindex : Z).

Lemma attach_fd_live fd old mode s r s' : xdp_attach_fd K fd old mode s = (r, s') -> live s' = live s.
Proof.
  assert (forall fd old fl s er s1, do_xdp_attach K fd old fl s = (er, s1) -> live s1 = live s) as Hd.
  { intros f o fl s0 er s1. unfold do_xdp_attach. destruct (k_set K _ _ _ _ _). by intros [= <- <-]. }
  unfold xdp_attach_fd. destruct (do_xdp_attach K fd _ _ s) as [er s1] eqn:E1. apply Hd in E1.
  destruct (_ && _); [| by intros [= <- <-]]. destruct (do_xdp_attach K fd 0 _ s1) as [er2 s2] eqn:E2. apply Hd in E2. intros [= <- <-]. congruence.
Qed.

Lemma attach_single_live p mode s err p' s' : xdp_program__attach_single K p mode s = (err, p', s') -> live s' = live s.
Proof.
  unfold xdp_program__attach_single. assert (forall q s1, (if prog_fd q <? 0 then (- EINVAL, q, s1) else let '(err, _, s) := xdp_attach_fd K (prog_fd q) (-1) mode s1 in (err, q, s)) = (err, p', s') ->
    live s' = live s1) as Ha.
  { intros q s1. destruct (prog_fd q <? 0); [by intros [= <- <- <-] |]. destruct (xdp_attach_fd _ _ _ _ _) as [[e no] s2] eqn:E. apply attach_fd_live in E. by intros [= <- <- <-]. }
  destruct (prog_fd p <? 0) eqn:Ep; [| specialize (Ha p s); by rewrite Ep in Ha]. destruct (xdp_program__load _ _) as [er p1].
  destruct (negb _); [by intros [= <- <- <-] |]. intros H. by apply Ha in H.
Qed.

(** A program attached without the dispatcher, because of the environment:
    the multi-program that was found is not closed. *)
Lemma skip_dispatcher_leaks p mode s mp s1 err s' : mode <> XDP_MODE_HW -> k_skip K = true ->
  get_from_ifindex K ifindex s = (Some (inr mp), s1) ->
  attach_once qsort K ifindex [p] mode s = Some (inl (err, s')) -> live s' = live s + 1.
Proof.
  intros Hm Hk Hg. unfold attach_once. rewrite Hg. cbn [mbind option_bind]. rewrite (proj2 (Z.eqb_neq mode _)), Hk by done. cbn [length Nat.eqb andb head mbind option_bind].
  destruct (xdp_program__attach_single K p mode s1) as [[e q] s2] eqn:Es. apply attach_single_live in Es. intros [= <- <-]. rewrite Es.
  revert Hg. unfold get_from_ifindex. intros [= E <-]. cbn [live]. by rewrite E.
Qed.

(** A program given twice counts twice: of a dispatcher with two programs
    both are detached. *)
Lemma detach_duplicate_detaches_all p mp s : is_legacy mp = false -> num_links mp = 2 -> prog_id p <> 0 -> p ∈ first_prog mp ->
  detach_once qsort K ifindex [p; p] XDP_MODE_UNSPEC mp s =
    let '(err, s) := xdp_multiprog__attach K ifindex (Some mp) None (mp_attach_mode mp) s in
    if negb (err =? 0) then Some (err, 0, s) else '(err, s) ← unpin K mp s; Some (err, 0, s).
Proof.
  intros Hl Hn Hp Hin. unfold detach_once. rewrite Hl. cbn [orb andb Z.eqb XDP_MODE_UNSPEC XDP_MODE_HW head mbind option_bind negb].
  assert (existsb (fun q => prog_id p =? prog_id q) (xdp_multiprog__progs (Some mp)) = true) as Hx.
  { cbn [xdp_multiprog__progs]. rewrite Hl. apply existsb_exists. exists p. split; [by apply list_elem_of_In | apply Z.eqb_refl]. }
  unfold check_progs, c_true. rewrite (proj2 (Z.eqb_neq (prog_id p) 0)), Hx, Hn by done. done.
Qed.
End Flaws.

(** ** A kernel *)

(** The identifier of a program is its descriptor. *)
Definition ex_set (x : shared) (fd flags old : Z) : Z * shared :=
  if c_true old && negb (bool_decide (sh_slot x = Some old)) then (- EEXIST, x) else
  if c_true (Z.land flags XDP_FLAGS_UPDATE_IF_NOEXIST) && bool_decide (is_Some (sh_slot x)) then (- EEXIST, x) else
  (0, {| sh_slot := if fd =? -1 then None else Some fd; sh_hw := sh_hw x; sh_fs := sh_fs x |}).

Definition ex_about (obj : Z) : fd_env :=
  {| fe_alloc := true; fe_dup := inr (obj + 50);
     fe_info := inr {| pi_id := if obj =? 3 then 6 else 5; pi_name := str "p"; pi_tag := replicate 8 x00; pi_load_time := 0;
                       pi_btf_id := 1; pi_nr_maps := 0; pi_map_id := 0 |};
     fe_strdup := true; fe_btf := Some [] |}.

(** [rival] is what others attach before the [n]-th call, [seen] what is
    reported. *)
Definition ex_kern (rival : nat -> option (option Z)) (seen : option Z) : kern :=
  {| k_rely := fun n x => match rival n with Some r => {| sh_slot := r; sh_hw := sh_hw x; sh_fs := sh_fs x |} | None => x end;
     k_set := fun _ => ex_set;
     k_attempt := fun _ x =>
       {| at_query := match seen with
                      | None => inr {| qa_drv := 0; qa_skb := 0; qa_hw := 0; qa_mode := XDP_ATTACHED_NONE |}
                      | Some id => inr {| qa_drv := id; qa_skb := 0; qa_hw := 0; qa_mode := XDP_ATTACHED_DRV |}
                      end;
          at_alloc := true; at_get := fun id => inr id; at_fill := fun _ _ => sample_fill sample_fs |};
     k_about := fun _ => ex_about; k_strdup := fun _ _ => true; k_links := fun _ => []; k_links_end := fun _ => ENOENT;
     k_link_detach := fun _ x _ => (EOPNOTSUPP, x);
     k_load := fun _ => {| ld_obj := true; ld_autoload := true; ld_loaded := false; ld_ext := false; ld_load := 0; ld_fd := sample_about 3 |};
     k_frags := fun _ => true; k_set_flags := fun _ => 0; k_gen := fun _ => sample_gen; k_fault := fun _ _ _ => None; k_obj := id;
     k_dir := fun _ => inr (str "/b"); k_lock := fun _ => 1; k_skip := false |}.

Lemma ex_kern_ok rival seen : kern_ok (ex_kern rival seen) id.
Proof.
  split; cbn -[sample_fill].
  - intros _ x fd flags old err x'. unfold ex_set. destruct (_ && _); [by intros [= <- <-] |]. destruct (_ && _); by intros [= <- <-].
  - intros _ x fd flags old x'. unfold ex_set. destruct (c_true old && _) eqn:E1; [intros E; by apply (f_equal fst) in E |].
    destruct (c_true (Z.land flags XDP_FLAGS_UPDATE_IF_NOEXIST) && bool_decide (is_Some (sh_slot x))) eqn:E2; [done |].
    intros E _. apply (f_equal snd) in E. cbn in E. subst x'.
    cbn. split_and!; [done | done | done | |].
    + intros Ho. unfold c_true in E1. rewrite (proj2 (Z.eqb_neq _ 0)) in E1 by done. destruct (decide (sh_slot x = Some old)) as [| Hx]; [done |].
      by rewrite bool_decide_false in E1.
    + intros Hf. unfold c_true in E2. rewrite (proj2 (Z.eqb_neq _ 0)) in E2 by done. destruct (sh_slot x) as [i |] eqn:Hx; [| done].
      by rewrite bool_decide_true in E2.
  - intros _ _ _ _ k [= <-]. done.
  - done.
  - done.
Qed.

Definition ex_state : state := {| sh := {| sh_slot := None; sh_hw := None; sh_fs := sample_fs |}; now := 0; live := 0; log := [] |}.


(** The dispatcher with the programs 6 and 5 is attached and pinned; 6 is
    detached. *)
Definition ex_pinned : bpffs :=
  match xdp_multiprog__pin (fun _ _ => None) id (inr (str "/b")) 1 (Some sample_mp) sample_fs with Some (_, fs) => fs | None => sample_fs end.
Definition ex_attached : state := {| sh := {| sh_slot := Some 61; sh_hw := None; sh_fs := ex_pinned |}; now := 0; live := 0; log := [] |}.

(** A kernel that does not know expected descriptors. *)
Definition old_kern (rival : nat -> option (option Z)) (seen : option Z) : kern :=
  let K := ex_kern rival seen in
  {| k_rely := k_rely K; k_set := fun n x fd flags old => if c_true old then (- EINVAL, x) else k_set K n x fd flags old;
     k_attempt := k_attempt K; k_about := k_about K; k_strdup := k_strdup K; k_links := k_links K; k_links_end := k_links_end K;
     k_link_detach := k_link_detach K; k_load := k_load K; k_frags := k_frags K; k_set_flags := k_set_flags K; k_gen := k_gen K;
     k_fault := k_fault K; k_obj := k_obj K; k_dir := k_dir K; k_lock := k_lock K; k_skip := k_skip K |}.

(** On it, an update is lost: the dispatcher 61 was found, another process attached
    the program 80 meanwhile, and the new dispatcher, generated from 61, takes
    its place. *)
Lemma old_kernel_loses_update :
  match xdp_program__attach_multi isort (old_kern (fun n => if (n =? 12)%nat then Some (Some 80) else None) (Some 7)) 2
          [sample_prog 10 8] XDP_MODE_NATIVE 0 ex_attached with
  | Some (err, s') => (err, (fun p => (sh_slot (fst p), sh_slot (snd p))) <$> log s') = (0, [(Some 80, Some 80); (Some 80, Some 9)])
  | None => False
  end.
Proof. vm_compute. reflexivity. Qed.

Lemma detach_multi_takes_off_witness : exists s' l x y,
  xdp_program__detach_multi isort (ex_kern (fun _ => None) (Some 7)) 2 [sample_prog 10 6] XDP_MODE_UNSPEC 0 ex_attached = Some (0, s') /\
  sh_slot (sh s') = Some 9 /\ log s' = l ++ [(x, y)] /\ removes isort (ex_kern (fun _ => None) (Some 7)) id 2 [sample_prog 10 6] x y.
Proof.
  destruct (xdp_program__detach_multi isort (ex_kern (fun _ => None) (Some 7)) 2 [sample_prog 10 6] XDP_MODE_UNSPEC 0 ex_attached) as [[err s'] |] eqn:E.
  2: { apply (f_equal (fmap fst)) in E. vm_compute in E. discriminate E. }
  assert (option_map (fun r => (fst r, sh_slot (sh (snd r)))) (Some (err, s')) = Some (0, Some 9)) as E1
    by (rewrite <- E; vm_compute; reflexivity).
  injection E1 as -> Hslot.
  destruct (detach_multi_takes_off isort (ex_kern (fun _ => None) (Some 7)) id (ex_kern_ok _ _) 2) with (progs := [sample_prog 10 6])
    (mode := XDP_MODE_UNSPEC) (flags := 0) (s := ex_attached) (err := 0) (s' := s') as (l & Hl & _ & Hf).
  - intros n x fd flags old. cbn [k_set ex_kern]. unfold ex_set. destruct (_ && _); [done |]. by destruct (_ && _).
  - intros n x fd flags old _. cbn [k_set ex_kern]. unfold ex_set. destruct (_ && _); [done |]. by destruct (_ && _).
  - done.
  - exact E.
  - destruct (Hf eq_refl) as (l' & x & y & -> & Hr). exists s', l', x, y. split; [reflexivity |]. split; [exact Hslot |]. split; [exact Hl | exact Hr].
Defined.
