(* ===== verification/XdpPacket.v ===== *)
(** The XDP packet tap: src/xdp/xdp_packet_kern.c and src/xdp/xdp_packet.h.

    [xdp_prog] runs on every packet of an interface.  The packet is a region
    of memory with the context's offsets; the ring buffer [packet_ringbuf] is
    the kernel object of [BpfMaps]; [now] is the value of
    [bpf_ktime_get_ns()]; [printk] collects what [bpf_printk] writes. *)
From S2P Require Import Prelude.
From S2P Require Import CLib.
From S2P Require Import ParsingHelpers.
From S2P Require Import RewriteHelpers.
From S2P Require Import BpfMaps.
From S2P Require Import XdpStats.

(** ** struct packet_info

    Offsets 0, 4, 8, 10 and, after four bytes of padding, 16. *)

Record packet_info := {
  src_ip : Z;
  dst_ip : Z;
  src_port : Z;
  dst_port : Z;
  timestamp : Z
}.

Definition sizeof_packet_info : Z := 24.

Definition packet_info_ok (p : packet_info) : Prop :=
  0 <= src_ip p < 2 ^ 32 /\ 0 <= dst_ip p < 2 ^ 32 /\
  0 <= src_port p < 2 ^ 16 /\ 0 <= dst_port p < 2 ^ 16 /\ 0 <= timestamp p < 2 ^ 64.

(** The five assignments through the pointer to the reserved record. *)
Definition packet_info_store (e : list byte) (p : packet_info) : option (list byte) :=
  e1 ← store e 0 (le_split 4 (src_ip p));
  e2 ← store e1 4 (le_split 4 (dst_ip p));
  e3 ← store e2 8 (le_split 2 (src_port p));
  e4 ← store e3 10 (le_split 2 (dst_port p));
  store e4 16 (le_split 8 (timestamp p)).

(** Reading a record through a [struct packet_info *]. *)
Definition packet_info_load (e : list byte) : option packet_info :=
  si ← load32 e 0;
  di ← load32 e 4;
  sp ← load16 e 8;
  dp ← load16 e 10;
  ts ← load64 e 16;
  Some {| src_ip := si; dst_ip := di; src_port := sp; dst_port := dp; timestamp := ts |}.

Definition hash_packet_info (pi : packet_info) : Z :=
  let hash := 0 in
  let hash := u32 (Z.lxor hash (src_ip pi)) in
  let hash := u32 (Z.lxor hash (dst_ip pi)) in
  let hash := u32 (Z.lxor hash (Z.shiftl (src_port pi) 16)) in
  let hash := u32 (Z.lxor hash (dst_port pi)) in
  let hash := u32 (Z.lxor hash (u32 (Z.land (timestamp pi) 0xFFFFFFFF))) in
  let hash := u32 (Z.lxor hash (u32 (Z.land (Z.shiftr (timestamp pi) 32) 0xFFFFFFFF))) in
  hash.

(** ** The program *)

Definition IPPROTO_TCP : Z := 6.
Definition BPF_ANY : Z := 0.

Definition iph_saddr (m : list byte) (ip : Z) : option Z := load32 m (ip + 12).
Definition iph_daddr (m : list byte) (ip : Z) : option Z := load32 m (ip + 16).
Definition tcp_source (m : list byte) (tcp : Z) : option Z := load16 m tcp.
Definition tcp_dest (m : list byte) (tcp : Z) : option Z := load16 m (tcp + 2).

Record xdp_state (R : Type) := { packet_ringbuf : R; printk : list (list byte) }.
Arguments packet_ringbuf {R}.
Arguments printk {R}.
Arguments Build_xdp_state {R}.

Definition printk_src (p : packet_info) : list byte :=
  str "Packet Data - src_ip: " ++ fmt_u (src_ip p) ++ str ",  src_port: " ++ fmt_u (src_port p) ++
  str ", timestamp(us): " ++ fmt_u (timestamp p).

Definition printk_dst (p : packet_info) : list byte :=
  str "Packet Data -  dst_ip: " ++ fmt_u (dst_ip p) ++ str ", dst_port: " ++ fmt_u (dst_port p) ++
  str ", timestamp(us): " ++ fmt_u (timestamp p) ++ [x0a].

Section XdpProg.
Context {R : Type} {K : KRingbuf R}.

Definition xdp_prog (m : list byte) (ctx : xdp_md) (now : Z) (st : xdp_state R)
    : option (Z * xdp_state R) :=
  let eth := data ctx in
  if data_end ctx <? eth + sizeof_ethhdr then Some (XDP_ABORTED, st)
  else
    h_proto ← eth_h_proto m eth;
    if negb (h_proto =? bswap16 ETH_P_IP) then Some (XDP_PASS, st)
    else
      let ip := eth + sizeof_ethhdr in
      if data_end ctx <? ip + sizeof_iphdr then Some (XDP_ABORTED, st)
      else
        protocol ← iph_protocol m ip;
        if negb (protocol =? IPPROTO_TCP) then Some (XDP_PASS, st)
        else
          let tcp := ip + sizeof_iphdr in
          if data_end ctx <? tcp + sizeof_tcphdr then Some (XDP_ABORTED, st)
          else
            saddr ← iph_saddr m ip;
            daddr ← iph_daddr m ip;
            source ← tcp_source m tcp;
            dest ← tcp_dest m tcp;
            let p := {| src_ip := saddr; dst_ip := daddr;
                        src_port := bswap16 source; dst_port := bswap16 dest;
                        timestamp := now / 1000 |} in
            let log := printk st ++ [printk_src p; printk_dst p] in
            match rb_reserve (packet_ringbuf st) sizeof_packet_info BPF_ANY with
            | None => Some (XDP_ABORTED, Build_xdp_state (packet_ringbuf st) log)
            | Some (e, rb) =>
                e' ← packet_info_store e p;
                Some (XDP_PASS, Build_xdp_state (rb_submit rb e' BPF_ANY) log)
            end.

(** The program on a sequence of packets (buffer, context, time), with the
    verdicts it gave. *)
Fixpoint xdp_run (ps : list (list byte * xdp_md * Z)) (st : xdp_state R)
    : option (list Z * xdp_state R) :=
  match ps with
  | [] => Some ([], st)
  | (m, ctx, now) :: ps' =>
      '(v, st1) ← xdp_prog m ctx now st;
      '(vs, st2) ← xdp_run ps' st1;
      Some (v :: vs, st2)
  end.

End XdpProg.

(** ** Records *)

(** Storing into a record keeps the other fields. *)
Ltac store_fields :=
  repeat match goal with
  | |- context [store ?e ?o ?b] =>
      let e' := fresh "e" in let E := fresh "E" in
      destruct (store_Some e o b) as [e' E];
      [lia | rewrite zlen_le_split;
             repeat match goal with H : store _ _ _ = Some ?x |- context [zlen ?x] =>
               rewrite (zlen_store _ _ _ _ H) end; lia |];
      rewrite E; cbn [mbind option_bind]
  end.

Ltac load_fields :=
  repeat match goal with
  | E : store ?e ?o (le_split ?n ?v) = Some ?e' |- context [load ?n ?e' ?o] =>
      rewrite (load_store_same n e o v e' E) by lia
  | E : store ?e ?o ?b = Some ?e' |- context [load ?n ?e' ?o'] =>
      rewrite (load_store_other n e o b e' o' E) by (rewrite ?zlen_le_split; lia)
  end.

Lemma packet_info_roundtrip e p :
  zlen e = sizeof_packet_info -> packet_info_ok p ->
  exists e', packet_info_store e p = Some e' /\ zlen e' = sizeof_packet_info /\
    packet_info_load e' = Some p /\ bytes_at e' 12 4 = bytes_at e 12 4.
Proof.
  unfold sizeof_packet_info. intros He (H1 & H2 & H3 & H4 & H5).
  unfold packet_info_store, packet_info_load. store_fields.
  eexists. split_and!; [done | | |].
  - repeat match goal with H : store _ _ _ = Some ?x |- context [zlen ?x] =>
      rewrite (zlen_store _ _ _ _ H) end. done.
  - load_fields. cbn [mbind option_bind]. by destruct p.
  - repeat match goal with H : store _ _ _ = Some ?x |- context [bytes_at ?x _ _] =>
      rewrite (bytes_at_store_other _ _ _ _ _ _ H) by (rewrite ?zlen_le_split; lia) end. done.
Qed.

(** ** The hash of a record *)

Lemma u32_lxor a b : 0 <= a < 2 ^ 32 -> 0 <= b < 2 ^ 32 ->
  u32 (Z.lxor a b) = Z.lxor a b /\ 0 <= Z.lxor a b < 2 ^ 32.
Proof.
  intros Ha Hb. assert (0 <= Z.lxor a b) as H0 by (apply Z.lxor_nonneg; lia).
  assert (Z.lxor a b < 2 ^ 32) as H1.
  { destruct (Z.eq_dec (Z.lxor a b) 0) as [-> | Hne]; [lia |].
    apply Z.log2_lt_pow2; [lia |]. eapply Z.le_lt_trans; [apply Z.log2_lxor; lia |].
    apply Z.max_lub_lt;
      [destruct (Z.eq_dec a 0) as [-> |] | destruct (Z.eq_dec b 0) as [-> |]];
      try (simpl; lia); apply Z.log2_lt_pow2; lia. }
  split; [apply u32_id |]; lia.
Qed.

Lemma land_u32_range z : 0 <= Z.land z 0xFFFFFFFF < 2 ^ 32.
Proof. change 0xFFFFFFFF with (Z.ones 32). rewrite Z.land_ones by lia. apply Z.mod_pos_bound. lia. Qed.

Lemma shiftl16_range z : 0 <= z < 2 ^ 16 -> 0 <= Z.shiftl z 16 < 2 ^ 32.
Proof. intros. rewrite Z.shiftl_mul_pow2 by lia. lia. Qed.

(** Without the width conversions: the exclusive or of all fields. *)
Lemma hash_packet_info_xor p : packet_info_ok p ->
  hash_packet_info p =
  Z.lxor (src_ip p) (Z.lxor (dst_ip p) (Z.lxor (Z.shiftl (src_port p) 16)
    (Z.lxor (dst_port p) (Z.lxor (Z.land (timestamp p) 0xFFFFFFFF)
       (Z.land (Z.shiftr (timestamp p) 32) 0xFFFFFFFF))))).
Proof.
  intros (H1 & H2 & H3 & H4 & H5). unfold hash_packet_info. cbv zeta.
  pose proof (land_u32_range (timestamp p)) as H6.
  pose proof (land_u32_range (Z.shiftr (timestamp p) 32)) as H7.
  pose proof (shiftl16_range _ H3) as H8. rewrite Z.lxor_0_l.
  rewrite (u32_id (src_ip p)), (u32_id (Z.land _ _)), (u32_id (Z.land _ _)) by lia.
  repeat match goal with |- context [u32 (Z.lxor ?a ?b)] =>
    let E := fresh in let R := fresh in
    assert (0 <= a < 2 ^ 32) as R by (assumption || lia);
    destruct (u32_lxor a b) as [E ?]; [exact R | lia |]; rewrite E; clear E R end.
  rewrite !Z.lxor_assoc. done.
Qed.

(** The record hash is a 32-bit value that separates records: two records
    that agree in all fields but one of the addresses or one of the ports have
    equal hashes only when this field is equal too; exchanging source and
    destination address does not change it. *)
Theorem hash_packet_info_separates p q :
  packet_info_ok p -> packet_info_ok q ->
  timestamp p = timestamp q ->
  0 <= hash_packet_info p < 2 ^ 32 /\
  (hash_packet_info p = hash_packet_info q ->
     (dst_ip p = dst_ip q -> src_port p = src_port q -> dst_port p = dst_port q ->
        src_ip p = src_ip q) /\
     (src_ip p = src_ip q -> dst_ip p = dst_ip q -> dst_port p = dst_port q ->
        src_port p = src_port q) /\
     (src_ip p = src_ip q -> dst_ip p = dst_ip q -> src_port p = src_port q ->
        dst_port p = dst_port q)) /\
  (src_ip p = dst_ip q -> dst_ip p = src_ip q -> src_port p = src_port q ->
     dst_port p = dst_port q -> hash_packet_info p = hash_packet_info q).
Proof.
  intros Hp Hq Hts.
  assert (forall a x y, Z.lxor a x = Z.lxor a y -> x = y) as Hl.
  { intros a x y E. apply (f_equal (Z.lxor a)) in E.
    by rewrite <- !Z.lxor_assoc, Z.lxor_nilpotent, !Z.lxor_0_l in E. }
  split; [apply u32_range | split].
  - rewrite (hash_packet_info_xor p), (hash_packet_info_xor q), Hts by done. intros E.
    split_and!; intros E1 E2 E3; rewrite E1, E2, E3 in E.
    + rewrite !(Z.lxor_comm (src_ip _)) in E. by apply Hl in E.
    + do 2 apply Hl in E. rewrite !(Z.lxor_comm (Z.shiftl _ _)) in E. apply Hl in E.
      destruct Hp as (_ & _ & H1 & _). destruct Hq as (_ & _ & H2 & _).
      rewrite !Z.shiftl_mul_pow2 in E by lia. lia.
    + do 3 apply Hl in E. rewrite !(Z.lxor_comm (dst_port _)) in E. by apply Hl in E.
  - intros E1 E2 E3 E4. rewrite (hash_packet_info_xor p), (hash_packet_info_xor q) by done.
    rewrite E1, E2, E3, E4, Hts, <- !(Z.lxor_assoc _ (_ q) (Z.lxor _ _)).
    f_equal. apply Z.lxor_comm.
Qed.

(** ** What the program does with a packet

    The reference encoding of an IPv4 packet in an Ethernet frame: the first
    nine bytes of the IP header, the protocol, checksum and addresses, then
    everything behind the fixed part of the IP header (options, if the header
    has any, and the transport segment). *)

Definition ip4_frame (macs ip9 : list byte) (proto : byte) (csum : list byte) (sa da : Z)
    (rest : list byte) : list byte :=
  macs ++ be16 ETH_P_IP ++ ip9 ++ [proto] ++ csum ++ le_split 4 sa ++ le_split 4 da ++ rest.

Definition ip4_frame_ok (macs ip9 csum : list byte) (sa da : Z) : Prop :=
  length macs = 12%nat /\ length ip9 = 9%nat /\ length csum = 2%nat /\
  0 <= sa < 2 ^ 32 /\ 0 <= da < 2 ^ 32.

(** The record the program builds: the ports are the first two 16-bit fields
    behind the fixed part of the IP header. *)
Definition tap_record (sa da : Z) (rest : list byte) (now : Z) : packet_info :=
  {| src_ip := sa; dst_ip := da;
     src_port := bswap16 (le_combine (take 2 rest));
     dst_port := bswap16 (le_combine (take 2 (drop 2 rest)));
     timestamp := now / 1000 |}.

Section XdpProgSpec.
Context {R : Type} {K : KRingbuf R}.

Lemma le_combine2_range (l : list byte) : length l = 2%nat -> 0 <= le_combine l < 2 ^ 16.
Proof. intros Hl. pose proof (le_combine_bound l) as H. by rewrite Hl in H. Qed.

Lemma xdp_prog_tcp m ctx now st macs ip9 csum sa da rest :
  ip4_frame_ok macs ip9 csum sa da ->
  frame m ctx = Some (ip4_frame macs ip9 x06 csum sa da rest) -> sizeof_tcphdr <= zlen rest ->
  xdp_prog m ctx now st =
    (let p := tap_record sa da rest now in
     let log := printk st ++ [printk_src p; printk_dst p] in
     match rb_reserve (packet_ringbuf st) sizeof_packet_info BPF_ANY with
     | None => Some (XDP_ABORTED, Build_xdp_state (packet_ringbuf st) log)
     | Some (e, rb) => e' ← packet_info_store e p;
                       Some (XDP_PASS, Build_xdp_state (rb_submit rb e' BPF_ANY) log)
     end).
Proof.
  intros (Hm & H9 & Hc & Hsa & Hda) HF Hr. unfold sizeof_tcphdr in Hr.
  destruct (split_at rest 2) as (a & rest1 & -> & Ha); [unfold zlen in *; lia |].
  destruct (split_at rest1 2) as (b & rest2 & -> & Hb); [rewrite !zlen_app in *; unfold zlen in *; lia |].
  unfold tap_record. rewrite (take_app_length' a), (drop_app_length' a), (take_app_length' b) by done.
  destruct (frame_split _ _ _ HF) as (_ & _ & _ & _ & HFl).
  unfold ip4_frame in HF, HFl. autorewrite with cmem in HFl, Hr. rewrite zlen_be16 in HFl.
  unfold xdp_prog, eth_h_proto, iph_protocol, iph_saddr, iph_daddr, tcp_source, tcp_dest,
    sizeof_ethhdr, sizeof_iphdr, sizeof_tcphdr.
  rewrite (frame_load _ _ _ macs (be16 ETH_P_IP) _ (data ctx + 12) 2 HF) by (done || zlen_lia).
  rewrite (frame_load _ _ _ (macs ++ be16 ETH_P_IP ++ ip9) [x06] _ (data ctx + 14 + 9) 1 HF) by
    (rewrite <- ?app_assoc; done || (rewrite !zlen_app, zlen_be16; zlen_lia)).
  rewrite (frame_load _ _ _ (macs ++ be16 ETH_P_IP ++ ip9 ++ [x06] ++ csum) (le_split 4 sa) _
    (data ctx + 14 + 12) 4 HF) by (rewrite <- ?app_assoc; done || (rewrite !zlen_app, zlen_be16; zlen_lia)).
  rewrite (frame_load _ _ _ (macs ++ be16 ETH_P_IP ++ ip9 ++ [x06] ++ csum ++ le_split 4 sa)
    (le_split 4 da) _ (data ctx + 14 + 16) 4 HF) by
    (rewrite <- ?app_assoc; done || (rewrite !zlen_app, zlen_be16, zlen_le_split; zlen_lia)).
  rewrite (frame_load _ _ _ (macs ++ be16 ETH_P_IP ++ ip9 ++ [x06] ++ csum ++ le_split 4 sa
    ++ le_split 4 da) a (b ++ rest2) (data ctx + 14 + 20) 2 HF) by
    (rewrite <- ?app_assoc; done || (rewrite !zlen_app, zlen_be16, !zlen_le_split; zlen_lia)).
  rewrite (frame_load _ _ _ (macs ++ be16 ETH_P_IP ++ ip9 ++ [x06] ++ csum ++ le_split 4 sa
    ++ le_split 4 da ++ a) b rest2 (data ctx + 14 + 20 + 2) 2 HF) by
    (rewrite <- ?app_assoc; done || (rewrite !zlen_app, zlen_be16, !zlen_le_split; zlen_lia)).
  rewrite !(proj2 (Z.ltb_ge _ _)) by (zlen_lia). cbn [mbind option_bind].
  change (le_combine (be16 ETH_P_IP)) with (bswap16 ETH_P_IP).
  change (le_combine [x06]) with IPPROTO_TCP. rewrite !Z.eqb_refl. cbn [negb].
  rewrite !le_combine_split, !Z.mod_small by done. done.
Qed.

Lemma tap_record_ok sa da rest now :
  0 <= sa < 2 ^ 32 -> 0 <= da < 2 ^ 32 -> 4 <= zlen rest -> 0 <= now < 2 ^ 64 ->
  packet_info_ok (tap_record sa da rest now).
Proof.
  intros Hsa Hda Hr Hnow. unfold tap_record, packet_info_ok; simpl.
  assert (length (take 2 rest) = 2%nat) by (rewrite length_take; unfold zlen in *; lia).
  assert (length (take 2 (drop 2 rest)) = 2%nat)
    by (rewrite length_take, length_drop; unfold zlen in *; lia).
  split_and!; try lia; try (apply bswap16_range, le_combine2_range; done).
  - apply Z.div_pos; lia.
  - apply Z.div_lt_upper_bound; lia.
Qed.

Context {K_ok : KRingbufOk R}.

(** C33: on a complete IPv4/TCP packet without IP options, when the ring buffer has
    room for a record [xdp_prog] passes the packet on and submits exactly one record, which decodes to the packet's
    addresses, its TCP ports in host byte order and the time in microseconds,
    whatever the reserved memory held before; records already in the ring
    stay.  When the ring buffer has no room, it returns XDP_ABORTED, and the
    ring buffer is as it was.  The kernel's ring buffer is relied on to hand out
    as much memory as is asked for and to append what is submitted. *)
Theorem xdp_prog_reports_tcp m ctx now st macs ip9 csum sa da sport dport tcp_rest :
  ip4_frame_ok macs ip9 csum sa da ->
  0 <= sport < 2 ^ 16 -> 0 <= dport < 2 ^ 16 -> 16 <= zlen tcp_rest -> 0 <= now < 2 ^ 64 ->
  frame m ctx = Some (ip4_frame macs ip9 x06 csum sa da (be16 sport ++ be16 dport ++ tcp_rest)) ->
  match rb_reserve (packet_ringbuf st) sizeof_packet_info BPF_ANY with
  | Some _ =>
    exists st' e', xdp_prog m ctx now st = Some (XDP_PASS, st') /\
      rb_records (packet_ringbuf st') = rb_records (packet_ringbuf st) ++ [e'] /\
      packet_info_load e' = Some {| src_ip := sa; dst_ip := da; src_port := sport;
                                    dst_port := dport; timestamp := now / 1000 |}
  | None => exists st', xdp_prog m ctx now st = Some (XDP_ABORTED, st') /\ packet_ringbuf st' = packet_ringbuf st
  end.
Proof.
  intros Hok Hsp Hdp Hrest Hnow HF.
  assert (20 <= zlen (be16 sport ++ be16 dport ++ tcp_rest)) as Hlen
    by (rewrite !zlen_app, !zlen_be16; lia).
  destruct (rb_reserve (packet_ringbuf st) sizeof_packet_info BPF_ANY) as [[e rb] |] eqn:Hres;
    rewrite (xdp_prog_tcp m ctx now st macs ip9 csum sa da _ Hok HF Hlen); cbv zeta; rewrite Hres; [| by eexists].
  destruct (rb_reserve_spec _ _ _ _ _ Hres) as [He Hrec].
  destruct (packet_info_roundtrip e (tap_record sa da (be16 sport ++ be16 dport ++ tcp_rest) now))
    as (e' & -> & _ & Hload & _); [done | apply tap_record_ok; lia || apply Hok |].
  cbn [mbind option_bind]. do 2 eexists. split_and!; [done | |].
  - simpl. by rewrite rb_submit_spec, Hrec.
  - rewrite Hload. unfold tap_record. change (take 2 _) with (be16 sport) at 1.
    change (take 2 (drop 2 _)) with (be16 dport).
    unfold be16. rewrite !le_combine_split. pose proof (bswap16_range _ Hsp).
    pose proof (bswap16_range _ Hdp). rewrite !Z.mod_small, !bswap16_involutive by lia. done.
Qed.

(** The program takes the IP header to be 20 bytes long.  For a packet
    whose IP header has options (at least one 32-bit word), the verdict and
    the record are the same whatever the TCP ports of the packet are: the
    ports are read from the option bytes. *)
Theorem xdp_prog_options_hide_ports m m' ctx now st macs ip9 csum sa da opts
    sport dport sport' dport' tcp_rest :
  ip4_frame_ok macs ip9 csum sa da -> 4 <= zlen opts -> 16 <= zlen tcp_rest ->
  frame m ctx = Some (ip4_frame macs ip9 x06 csum sa da (opts ++ be16 sport ++ be16 dport ++ tcp_rest)) ->
  frame m' ctx = Some (ip4_frame macs ip9 x06 csum sa da (opts ++ be16 sport' ++ be16 dport' ++ tcp_rest)) ->
  xdp_prog m ctx now st = xdp_prog m' ctx now st /\
  forall e rb e', rb_reserve (packet_ringbuf st) sizeof_packet_info BPF_ANY = Some (e, rb) ->
    packet_info_store e (tap_record sa da opts now) = Some e' ->
    rb_records (packet_ringbuf st) ++ [e'] =
    rb_records (packet_ringbuf (default st (snd <$> xdp_prog m ctx now st))).
Proof.
  intros Hok Hopts Hrest HF HF'.
  assert (forall sp dp, tap_record sa da (opts ++ be16 sp ++ be16 dp ++ tcp_rest) now
            = tap_record sa da opts now) as Htap.
  { intros sp dp. destruct (split_at opts 2) as (a & o1 & -> & Ha); [unfold zlen in *; lia |].
    destruct (split_at o1 2) as (b & o2 & -> & Hb); [rewrite zlen_app in *; unfold zlen in *; lia |].
    unfold tap_record. rewrite <- !app_assoc.
    rewrite !(take_app_length' a), !(drop_app_length' a), !(take_app_length' b) by done. done. }
  rewrite (xdp_prog_tcp m ctx now st _ _ _ _ _ _ Hok HF) by
    (rewrite !zlen_app, !zlen_be16; unfold sizeof_tcphdr; lia).
  rewrite (xdp_prog_tcp m' ctx now st _ _ _ _ _ _ Hok HF') by
    (rewrite !zlen_app, !zlen_be16; unfold sizeof_tcphdr; lia).
  cbv zeta. rewrite !Htap. split; [done |].
  intros e rb e' Hres Hst. rewrite Hres, Hst. simpl.
  rewrite rb_submit_spec. by destruct (rb_reserve_spec _ _ _ _ _ Hres) as [_ ->].
Qed.

(** A full ring buffer stops traffic.  When no record can be reserved,
    every complete IPv4/TCP packet gets the verdict [XDP_ABORTED], which the
    kernel treats as a drop, and no record is added; IPv4 packets of other
    protocols still pass. *)
Theorem xdp_prog_full_ring m ctx now st macs ip9 proto csum sa da rest :
  ip4_frame_ok macs ip9 csum sa da -> sizeof_tcphdr <= zlen rest ->
  frame m ctx = Some (ip4_frame macs ip9 proto csum sa da rest) ->
  rb_reserve (packet_ringbuf st) sizeof_packet_info BPF_ANY = None ->
  exists st', packet_ringbuf st' = packet_ringbuf st /\
    xdp_prog m ctx now st =
      Some (if byte.unsigned proto =? IPPROTO_TCP then XDP_ABORTED else XDP_PASS, st').
Proof.
  intros Hok Hrest HF Hres. destruct (Z.eqb_spec (byte.unsigned proto) IPPROTO_TCP) as [E | Hne].
  - assert (proto = x06) as -> by (apply byte.unsigned_inj; exact E).
    rewrite (xdp_prog_tcp m ctx now st _ _ _ _ _ _ Hok HF Hrest). cbv zeta. rewrite Hres.
    eexists. split; [| done]. done.
  - exists st. split; [done |]. destruct Hok as (Hm & H9 & Hc & _).
    destruct (frame_split _ _ _ HF) as (_ & _ & _ & _ & HFl). unfold ip4_frame in HF, HFl.
    autorewrite with cmem in HFl. rewrite zlen_be16 in HFl. unfold sizeof_tcphdr in Hrest.
    unfold xdp_prog, eth_h_proto, iph_protocol, sizeof_ethhdr, sizeof_iphdr.
    rewrite (frame_load _ _ _ macs (be16 ETH_P_IP) _ (data ctx + 12) 2 HF) by (done || zlen_lia).
    rewrite (frame_load _ _ _ (macs ++ be16 ETH_P_IP ++ ip9) [proto] _ (data ctx + 14 + 9) 1 HF) by
      (rewrite <- ?app_assoc; done || (rewrite !zlen_app, zlen_be16; zlen_lia)).
    rewrite !(proj2 (Z.ltb_ge _ _)) by zlen_lia. cbn [mbind option_bind].
    change (le_combine (be16 ETH_P_IP)) with (bswap16 ETH_P_IP). rewrite Z.eqb_refl. cbn [negb].
    rewrite le_combine_1, (proj2 (Z.eqb_neq _ _) Hne). done.
Qed.

(** The program in two phases: the pure classification of the packet (a
    verdict, or the record to report), and the ring buffer part. *)
Definition xdp_classify (m : list byte) (ctx : xdp_md) (now : Z) : option (Z + packet_info) :=
  let eth := data ctx in
  let ip := eth + sizeof_ethhdr in
  let tcp := ip + sizeof_iphdr in
  if data_end ctx <? ip then Some (inl XDP_ABORTED)
  else
    h_proto ← eth_h_proto m eth;
    if negb (h_proto =? bswap16 ETH_P_IP) then Some (inl XDP_PASS)
    else if data_end ctx <? tcp then Some (inl XDP_ABORTED)
    else
      protocol ← iph_protocol m ip;
      if negb (protocol =? IPPROTO_TCP) then Some (inl XDP_PASS)
      else if data_end ctx <? tcp + sizeof_tcphdr then Some (inl XDP_ABORTED)
      else
        saddr ← iph_saddr m ip; daddr ← iph_daddr m ip;
        source ← tcp_source m tcp; dest ← tcp_dest m tcp;
        Some (inr {| src_ip := saddr; dst_ip := daddr; src_port := bswap16 source;
                     dst_port := bswap16 dest; timestamp := now / 1000 |}).

Definition tap_submit (p : packet_info) (st : xdp_state R) : option (Z * xdp_state R) :=
  let log := printk st ++ [printk_src p; printk_dst p] in
  match rb_reserve (packet_ringbuf st) sizeof_packet_info BPF_ANY with
  | None => Some (XDP_ABORTED, Build_xdp_state (packet_ringbuf st) log)
  | Some (e, rb) => e' ← packet_info_store e p;
                    Some (XDP_PASS, Build_xdp_state (rb_submit rb e' BPF_ANY) log)
  end.

Lemma xdp_prog_phases m ctx now st :
  xdp_prog m ctx now st =
  (c ← xdp_classify m ctx now;
   match c with inl v => Some (v, st) | inr p => tap_submit p st end).
Proof.
  unfold xdp_prog, xdp_classify, tap_submit.
  destruct (data_end ctx <? _); [done |].
  destruct (eth_h_proto _ _); [| done]; cbn [mbind option_bind]. destruct (negb _); [done |].
  destruct (data_end ctx <? _); [done |].
  destruct (iph_protocol _ _); [| done]; cbn [mbind option_bind]. destruct (negb _); [done |].
  destruct (data_end ctx <? _); [done |].
  destruct (iph_saddr _ _); [| done]. destruct (iph_daddr _ _); [| done].
  destruct (tcp_source _ _); [| done]. destruct (tcp_dest _ _); done.
Qed.

Lemma xdp_classify_safe m ctx now :
  0 <= data ctx -> data_end ctx <= zlen m -> 0 <= now < 2 ^ 64 ->
  exists c, xdp_classify m ctx now = Some c /\
    match c with inl v => v = XDP_PASS \/ v = XDP_ABORTED | inr p => packet_info_ok p end.
Proof.
  intros Hd Hde Hnow.
  unfold xdp_classify, eth_h_proto, iph_protocol, iph_saddr, iph_daddr, tcp_source, tcp_dest,
    sizeof_ethhdr, sizeof_iphdr, sizeof_tcphdr.
  destruct (Z.ltb_spec (data_end ctx) (data ctx + 14)); [eexists; split; [done |]; simpl; auto |].
  destruct (load_Some 2 m (data ctx + 12)) as (hp & -> & _); [lia.. |]. cbn [mbind option_bind].
  destruct (negb _); [eexists; split; [done |]; simpl; auto |].
  destruct (Z.ltb_spec (data_end ctx) (data ctx + 14 + 20)); [eexists; split; [done |]; simpl; auto |].
  destruct (load_Some 1 m (data ctx + 14 + 9)) as (pr & -> & _); [lia.. |]. cbn [mbind option_bind].
  destruct (negb _); [eexists; split; [done |]; simpl; auto |].
  destruct (Z.ltb_spec (data_end ctx) (data ctx + 14 + 20 + 20)); [eexists; split; [done |]; simpl; auto |].
  destruct (load_Some 4 m (data ctx + 14 + 12)) as (sa & -> & Hsa); [lia.. |].
  destruct (load_Some 4 m (data ctx + 14 + 16)) as (da & -> & Hda); [lia.. |].
  destruct (load_Some 2 m (data ctx + 14 + 20)) as (sp & -> & Hsp); [lia.. |].
  destruct (load_Some 2 m (data ctx + 14 + 20 + 2)) as (dp & -> & Hdp); [lia.. |].
  cbn [mbind option_bind]. eexists. split; [done |]. unfold packet_info_ok; simpl.
  pose proof (bswap16_range sp Hsp). pose proof (bswap16_range dp Hdp).
  assert (0 <= now / 1000) by (apply Z.div_pos; lia).
  assert (now / 1000 < 2 ^ 64) by (apply Z.div_lt_upper_bound; lia). split_and!; lia.
Qed.

(** Records that decode to a well-formed [struct packet_info]. *)
Definition good_record (e : list byte) : Prop :=
  exists p, packet_info_load e = Some p /\ packet_info_ok p.

Definition tap_input_ok (i : list byte * xdp_md * Z) : Prop :=
  let '(m, ctx, now) := i in 0 <= data ctx /\ data_end ctx <= zlen m /\ 0 <= now < 2 ^ 64.

Lemma xdp_prog_step m ctx now st :
  tap_input_ok (m, ctx, now) ->
  exists v st' new, xdp_prog m ctx now st = Some (v, st') /\ (v = XDP_PASS \/ v = XDP_ABORTED) /\
    rb_records (packet_ringbuf st') = rb_records (packet_ringbuf st) ++ new /\
    (length new <= 1)%nat /\ Forall good_record new.
Proof.
  intros (Hd & Hde & Hnow). rewrite xdp_prog_phases.
  destruct (xdp_classify_safe m ctx now) as ([v | p] & -> & Hc); [done.. | |]; cbn [mbind option_bind].
  { exists v, st, []. rewrite app_nil_r. split_and!; [done.. | simpl; lia | constructor]. }
  unfold tap_submit. destruct (rb_reserve _ _ _) as [[e rb] |] eqn:Hres.
  - destruct (rb_reserve_spec _ _ _ _ _ Hres) as [He Hrec].
    destruct (packet_info_roundtrip e p He Hc) as (e' & -> & _ & Hload & _).
    cbn [mbind option_bind]. do 2 eexists. exists [e']. split_and!; [done | auto | | simpl; lia |].
    + simpl. by rewrite rb_submit_spec, Hrec.
    + constructor; [by exists p | constructor].
  - do 2 eexists. exists []. rewrite app_nil_r. split_and!; [done | auto | done | simpl; lia | constructor].
Qed.

(** C34: the tap on a whole stream of packets.  For packets of any content and
    length [xdp_prog] never reads outside the packet or writes outside the
    reserved record; its verdicts are [XDP_PASS] and [XDP_ABORTED] only; the
    ring buffer gets at most one record per packet, in packet order, behind
    the records that were there, and every record decodes to a well-formed
    [struct packet_info]. *)
Theorem xdp_run_sound ps st :
  Forall tap_input_ok ps ->
  exists vs st' new, xdp_run ps st = Some (vs, st') /\
    length vs = length ps /\ Forall (fun v => v = XDP_PASS \/ v = XDP_ABORTED) vs /\
    rb_records (packet_ringbuf st') = rb_records (packet_ringbuf st) ++ new /\
    (length new <= length ps)%nat /\ Forall good_record new.
Proof.
  intros Hps. revert st. induction Hps as [| [[m ctx] now] ps Hp _ IH]; intros st; simpl.
  { exists [], st, []. rewrite app_nil_r. split_and!; [done.. | constructor | done | simpl; lia | constructor]. }
  destruct (xdp_prog_step m ctx now st Hp) as (v & st1 & new1 & -> & Hv & Hr1 & Hl1 & Hg1).
  cbn [mbind option_bind].
  destruct (IH st1) as (vs & st2 & new2 & -> & Hlv & Hvs & Hr2 & Hl2 & Hg2). cbn [mbind option_bind].
  exists (v :: vs), st2, (new1 ++ new2). split_and!; [done | simpl; lia | by constructor | | |].
  - by rewrite Hr2, Hr1, app_assoc.
  - rewrite length_app. lia.
  - by apply Forall_app.
Qed.

End XdpProgSpec.

(** ** Concrete packets: the loopback connection of the readme's example. *)

Definition sample_ip9 (vhl : byte) : list byte := vhl :: replicate 8 x00.
Definition sample_tcp (vhl : byte) (opts : list byte) (sport dport : Z) : list byte :=
  ip4_frame (replicate 12 x00) (sample_ip9 vhl) x06 [x00; x00] INADDR_LOOPBACK_BE INADDR_LOOPBACK_BE
    (opts ++ be16 sport ++ be16 dport ++ replicate 16 x00).
Definition sample_md (m : list byte) : xdp_md := {| data := 0; data_end := zlen m |}.
Definition empty_tap : xdp_state (list (list byte)) := Build_xdp_state [] [].
Definition sample_rb : KRingbuf (list (list byte)) := queue_ringbuf 4 xff.
Definition sample_rb_ok : KRingbufOk (list (list byte)) (K := sample_rb) := queue_ringbuf_ok 4 xff.
Definition full_rb : KRingbuf (list (list byte)) := queue_ringbuf 0 xff.
Definition full_rb_ok : KRingbufOk (list (list byte)) (K := full_rb) := queue_ringbuf_ok 0 xff.

Lemma sample_ok vhl : ip4_frame_ok (replicate 12 x00) (sample_ip9 vhl) [x00; x00]
  INADDR_LOOPBACK_BE INADDR_LOOPBACK_BE.
Proof. unfold ip4_frame_ok, INADDR_LOOPBACK_BE. split_and!; done || lia. Qed.

Lemma xdp_prog_reports_tcp_witness :
  let m := sample_tcp x45 [] 53710 9999 in
  exists st' e', xdp_prog (K := sample_rb) m (sample_md m) 673422472000 empty_tap = Some (XDP_PASS, st') /\
    rb_records (KRingbuf := sample_rb) (packet_ringbuf st') = [] ++ [e'] /\
    packet_info_load e' = Some {| src_ip := INADDR_LOOPBACK_BE; dst_ip := INADDR_LOOPBACK_BE;
      src_port := 53710; dst_port := 9999; timestamp := 673422472 |}.
Proof.
  intros m.
  apply (xdp_prog_reports_tcp (K := sample_rb) (K_ok := sample_rb_ok) m (sample_md m) 673422472000
    empty_tap (replicate 12 x00) (sample_ip9 x45) [x00; x00] INADDR_LOOPBACK_BE INADDR_LOOPBACK_BE
    53710 9999 (replicate 16 x00)); first [exact (sample_ok _) | lia | done].
Defined.

Lemma xdp_prog_options_hide_ports_witness :
  let m := sample_tcp x46 [x01; x01; x01; x00] 53710 9999 in
  let m' := sample_tcp x46 [x01; x01; x01; x00] 1 2 in
  xdp_prog (K := sample_rb) m (sample_md m) 0 empty_tap =
  xdp_prog (K := sample_rb) m' (sample_md m) 0 empty_tap.
Proof.
  intros m m'.
  apply (xdp_prog_options_hide_ports (K := sample_rb) (K_ok := sample_rb_ok) m m' (sample_md m) 0
    empty_tap (replicate 12 x00) (sample_ip9 x46) [x00; x00] INADDR_LOOPBACK_BE INADDR_LOOPBACK_BE
    [x01; x01; x01; x00] 53710 9999 1 2 (replicate 16 x00)); first [exact (sample_ok _) | done].
Defined.

Lemma xdp_prog_full_ring_witness :
  let m := sample_tcp x45 [] 53710 9999 in
  exists st', packet_ringbuf st' = [] /\
    xdp_prog (K := full_rb) m (sample_md m) 5 empty_tap = Some (XDP_ABORTED, st').
Proof.
  intros m.
  apply (xdp_prog_full_ring (K := full_rb) m (sample_md m) 5
    empty_tap (replicate 12 x00) (sample_ip9 x45) x06 [x00; x00] INADDR_LOOPBACK_BE INADDR_LOOPBACK_BE
    (be16 53710 ++ be16 9999 ++ replicate 16 x00)); first [exact (sample_ok _) | done].
Defined.

Lemma xdp_run_sound_witness :
  let m := sample_tcp x45 [] 53710 9999 in
  let ps := [(m, sample_md m, 7); (take 20 m, sample_md (take 20 m), 8)] in
  exists vs st' new, xdp_run (K := sample_rb) ps empty_tap = Some (vs, st') /\
    length vs = 2%nat /\ Forall (fun v => v = XDP_PASS \/ v = XDP_ABORTED) vs /\
    rb_records (KRingbuf := sample_rb) (packet_ringbuf st') = [] ++ new /\
    (length new <= 2)%nat /\ Forall good_record new.
Proof.
  intros m ps.
  apply (xdp_run_sound (K := sample_rb) (K_ok := sample_rb_ok) ps empty_tap).
  repeat constructor; simpl; lia.
Defined.

Lemma hash_packet_info_separates_witness :
  let p := {| src_ip := 1; dst_ip := 2; src_port := 3; dst_port := 4; timestamp := 5 |} in
  let q := {| src_ip := 2; dst_ip := 1; src_port := 3; dst_port := 4; timestamp := 5 |} in
  packet_info_ok p /\ packet_info_ok q /\ hash_packet_info p = hash_packet_info q.
Proof.
  intros p q.
  assert (packet_info_ok p) as Hp by (unfold packet_info_ok; simpl; lia).
  assert (packet_info_ok q) as Hq by (unfold packet_info_ok; simpl; lia).
  split; [exact Hp | split; [exact Hq |]].
  destruct (hash_packet_info_separates p q Hp Hq eq_refl) as (_ & _ & H). by apply H.
Defined.
