(* ===== verification/RingBuf.v ===== *)
(** The consumer side of the BPF ring buffer: src/lib/libbpf/src/ringbuf.c,
    the library code behind the [ring_buffer__*] calls of the XDP loader.

    The data area is mapped twice in a row, so a sample is contiguous even
    when it wraps; [rv_data] is that double mapping.  The kernel produces
    concurrently: the k-th shared access of a call sees the memory [W k c],
    where [c] is the consumer position released so far. *)
From S2P Require Import Prelude.

Definition BPF_RINGBUF_BUSY_BIT : Z := 2 ^ 31.
Definition BPF_RINGBUF_DISCARD_BIT : Z := 2 ^ 30.
Definition BPF_RINGBUF_HDR_SZ : Z := 8.
Definition INT_MAX : Z := 2 ^ 31 - 1.

Definition roundup_len (len : Z) : Z :=
  let len := u32 (Z.shiftl (u32 len) 2) in
  let len := Z.shiftr len 2 in
  let len := u32 (len + BPF_RINGBUF_HDR_SZ) in
  s32 (u32 (len + 7) / 8 * 8).

(** What an acquire load of the shared memory sees. *)
Record ring_view := { rv_data : list byte; rv_prod : Z }.

Record ring_result (S : Type) := { rr_ret : Z; rr_cons : Z; rr_state : S }.
Arguments rr_ret {S}.
Arguments rr_cons {S}.
Arguments rr_state {S}.
Arguments Build_ring_result {S}.

Section Process.
Context {S : Type}.
(** [r->sample_cb] with its context [s]: return code and new context. *)
Context (sample_cb : S -> list byte -> Z * S).
Context (mask : Z).
Context (W : nat -> Z -> ring_view).

(** Both loops of [ringbuf_process_ring] at one point of control: the test of
    the inner [while].  [cons_pos], [prod_pos] are the local variables,
    [consumer_pos] is the shared word, [k] counts the shared accesses. *)
Fixpoint ring_loop (fuel k : nat) (cons_pos prod_pos consumer_pos : Z) (got_new_data : bool)
    (cnt : Z) (s : S) : option (ring_result S) :=
  match fuel with
  | O => None
  | Datatypes.S fuel' =>
      if cons_pos <? prod_pos then
        let len_ptr := Z.land cons_pos mask in
        w ← load32 (rv_data (W k consumer_pos)) len_ptr;
        let len := s32 w in
        if c_true (Z.land (u32 len) BPF_RINGBUF_BUSY_BIT)
        then Some (Build_ring_result cnt consumer_pos s)
        else
          let cons_pos' := u64 (cons_pos + roundup_len len) in
          if Z.land (u32 len) BPF_RINGBUF_DISCARD_BIT =? 0 then
            sample ← bytes_at (rv_data (W k consumer_pos)) (len_ptr + BPF_RINGBUF_HDR_SZ)
                       (Z.to_nat len);
            let '(err, s') := sample_cb s sample in
            if err <? 0 then Some (Build_ring_result err cons_pos' s')
            else ring_loop fuel' (Datatypes.S k) cons_pos' prod_pos cons_pos' true (s64 (cnt + 1)) s'
          else ring_loop fuel' (Datatypes.S k) cons_pos' prod_pos cons_pos' true cnt s
      else if got_new_data
      then ring_loop fuel' (Datatypes.S k) cons_pos (rv_prod (W k consumer_pos)) consumer_pos false cnt s
      else Some (Build_ring_result cnt consumer_pos s)
  end.

Definition ringbuf_process_ring (fuel : nat) (consumer_pos : Z) (s : S) : option (ring_result S) :=
  ring_loop fuel 1 consumer_pos (rv_prod (W 0%nat consumer_pos)) consumer_pos false 0 s.

End Process.

(** ** The log of records behind the shared memory *)

Record record := { r_len : Z; r_busy : bool; r_discard : bool; r_payload : list byte }.

Definition record_ok (r : record) : Prop :=
  0 <= r_len r < 2 ^ 30 /\ zlen (r_payload r) = r_len r.

(** The header word of a record, and the space it takes. *)
Definition rec_word (r : record) : Z :=
  r_len r + (if r_busy r then BPF_RINGBUF_BUSY_BIT else 0)
          + (if r_discard r then BPF_RINGBUF_DISCARD_BIT else 0).
Definition rec_size (r : record) : Z := (r_len r + 8 + 7) / 8 * 8.
Definition log_size (rs : list record) : Z := foldr (fun r z => rec_size r + z) 0 rs.

(** The records [rs] are in the memory [v] from position [pos] on, up to the
    producer position. *)
Fixpoint laid (mask : Z) (v : ring_view) (pos : Z) (rs : list record) : Prop :=
  match rs with
  | [] => rv_prod v = pos
  | r :: rs' =>
      load32 (rv_data v) (Z.land pos mask) = Some (rec_word r) /\
      (r_busy r = false -> r_discard r = false ->
       bytes_at (rv_data v) (Z.land pos mask + 8) (Z.to_nat (r_len r)) = Some (r_payload r)) /\
      laid mask v (pos + rec_size r) rs'
  end.

(** The reference consumer: the committed records in front, up to the first
    one that is still busy, each sample handed to the callback once. *)
Section Drain.
Context {S : Type} (sample_cb : S -> list byte -> Z * S).

Fixpoint drain (rs : list record) (pos cnt : Z) (s : S) : ring_result S :=
  match rs with
  | [] => Build_ring_result cnt pos s
  | r :: rs' =>
      if r_busy r then Build_ring_result cnt pos s
      else if r_discard r then drain rs' (pos + rec_size r) cnt s
      else let '(err, s') := sample_cb s (r_payload r) in
           if err <? 0 then Build_ring_result err (pos + rec_size r) s'
           else drain rs' (pos + rec_size r) (cnt + 1) s'
  end.
End Drain.

(** What producers may do between two accesses: append records, and commit or
    discard records that are busy. *)
Definition rec_le (r r' : record) : Prop :=
  r_len r = r_len r' /\ (r_busy r = false -> r' = r).

Definition grows (l l' : list record) : Prop :=
  forall (i : nat) r, l !! i = Some r -> exists r', l' !! i = Some r' /\ rec_le r r'.

Lemma rec_word_range r : record_ok r -> 0 <= rec_word r < 2 ^ 32.
Proof.
  intros [Hl _]. unfold rec_word, BPF_RINGBUF_BUSY_BIT, BPF_RINGBUF_DISCARD_BIT.
  destruct (r_busy r), (r_discard r); lia.
Qed.

Lemma u32_s32 w : 0 <= w < 2 ^ 32 -> u32 (s32 w) = w.
Proof. intros. unfold u32, s32. Z.to_euclidean_division_equations. lia. Qed.

Lemma rec_word_busy r : record_ok r ->
  Z.land (rec_word r) BPF_RINGBUF_BUSY_BIT = if r_busy r then 2 ^ 31 else 0.
Proof.
  intros [Hl _]. unfold BPF_RINGBUF_BUSY_BIT. rewrite land_pow2_testbit by lia.
  replace (Z.testbit (rec_word r) 31) with (r_busy r); [done |].
  apply Z.b2z_inj. rewrite Z.testbit_spec' by lia.
  unfold rec_word, BPF_RINGBUF_BUSY_BIT, BPF_RINGBUF_DISCARD_BIT.
  destruct (r_busy r), (r_discard r); simpl Z.b2z; Z.to_euclidean_division_equations; lia.
Qed.

Lemma rec_word_discard r : record_ok r ->
  Z.land (rec_word r) BPF_RINGBUF_DISCARD_BIT = if r_discard r then 2 ^ 30 else 0.
Proof.
  intros [Hl _]. unfold BPF_RINGBUF_DISCARD_BIT. rewrite land_pow2_testbit by lia.
  replace (Z.testbit (rec_word r) 30) with (r_discard r); [done |].
  apply Z.b2z_inj. rewrite Z.testbit_spec' by lia.
  unfold rec_word, BPF_RINGBUF_BUSY_BIT, BPF_RINGBUF_DISCARD_BIT.
  destruct (r_busy r), (r_discard r); simpl Z.b2z; Z.to_euclidean_division_equations; lia.
Qed.

(** The length arithmetic of [roundup_len]: the flag bits are ignored, the
    header is added and the sum rounded up to a multiple of eight. *)
Lemma roundup_len_rec r : record_ok r -> roundup_len (s32 (rec_word r)) = rec_size r.
Proof.
  intros Hr. pose proof (rec_word_range r Hr) as Hw. destruct Hr as [Hl _].
  unfold roundup_len. rewrite u32_s32 by done.
  assert (Z.shiftr (u32 (Z.shiftl (rec_word r) 2)) 2 = r_len r) as ->.
  { rewrite Z.shiftl_mul_pow2, Z.shiftr_div_pow2 by lia. unfold u32, rec_word,
      BPF_RINGBUF_BUSY_BIT, BPF_RINGBUF_DISCARD_BIT.
    destruct (r_busy r), (r_discard r); Z.to_euclidean_division_equations; lia. }
  unfold BPF_RINGBUF_HDR_SZ. rewrite (u32_id (r_len r + 8)), (u32_id (r_len r + 8 + 7)) by lia.
  unfold rec_size. apply s32_id. Z.to_euclidean_division_equations; lia.
Qed.

Lemma rec_size_pos r : record_ok r -> 8 <= rec_size r.
Proof. intros [Hl _]. unfold rec_size. Z.to_euclidean_division_equations; lia. Qed.

(** ** Facts on logs *)

Lemma log_size_app l k : log_size (l ++ k) = log_size l + log_size k.
Proof. induction l as [| r l IH]; simpl; lia. Qed.

Lemma log_size_nonneg l : Forall record_ok l -> 0 <= log_size l.
Proof. induction 1 as [| r l Hr _ IH]; simpl; [lia |]. pose proof (rec_size_pos r Hr). lia. Qed.

Lemma grows_length l l' : grows l l' -> (length l <= length l')%nat.
Proof.
  intros Hg. destruct (decide (length l <= length l')%nat) as [| Hn]; [done |].
  destruct (l !! length l') as [r |] eqn:E; [| apply lookup_ge_None in E; lia].
  destruct (Hg _ _ E) as (r' & E' & _). apply lookup_lt_Some in E'. lia.
Qed.

Lemma grows_trans l1 l2 l3 : grows l1 l2 -> grows l2 l3 -> grows l1 l3.
Proof.
  intros H1 H2 i r Hi. destruct (H1 i r Hi) as (r' & Hi' & Hl & Hb).
  destruct (H2 i r' Hi') as (r'' & Hi'' & Hl' & Hb'). exists r''. split; [done |].
  split; [congruence |]. intros Hr. specialize (Hb Hr) as ->. auto.
Qed.

Lemma grows_tail r l l' : grows (r :: l) l' -> exists r' l1, l' = r' :: l1 /\ rec_le r r' /\ grows l l1.
Proof.
  intros Hg. destruct l' as [| r' l1]; [apply grows_length in Hg; simpl in Hg; lia |].
  exists r', l1. destruct (Hg 0%nat r eq_refl) as (? & ? & ?). simplify_eq/=. split_and!; [done.. |].
  intros i r0 Hi. exact (Hg (Datatypes.S i) r0 Hi).
Qed.

(** Growing keeps the sizes, so an older producer position is not behind. *)
Lemma grows_size l l' (i : nat) : grows l l' -> Forall record_ok l' -> (length l <= i)%nat ->
  log_size l <= log_size (take i l').
Proof.
  revert l' i. induction l as [| r l IH]; intros l' i Hg Hok Hi; simpl.
  { apply log_size_nonneg. by apply Forall_take. }
  destruct (grows_tail _ _ _ Hg) as (r' & l1 & -> & [Hlen _] & Hg').
  destruct i as [| i]; [simpl in Hi; lia |]. simpl. apply Forall_cons in Hok as [_ Hok].
  specialize (IH l1 i Hg' Hok). simpl in Hi. unfold rec_size in *. rewrite Hlen. lia.
Qed.

Lemma grows_committed_prefix l l' (i : nat) : grows l l' -> (i <= length l)%nat ->
  Forall (fun r => r_busy r = false) (take i l) -> take i l' = take i l.
Proof.
  revert l' i. induction l as [| r l IH]; intros l' i Hg Hi Hc.
  { simpl in Hi. replace i with 0%nat by lia. by destruct l'. }
  destruct (grows_tail _ _ _ Hg) as (r' & l1 & -> & [_ Hb] & Hg').
  destruct i as [| i]; [done |]. simpl in *. apply Forall_cons in Hc as [Hr Hc].
  rewrite (Hb Hr). f_equal. apply IH; [done | lia | done].
Qed.

Lemma laid_prod mask v pos rs : laid mask v pos rs -> rv_prod v = pos + log_size rs.
Proof.
  revert pos. induction rs as [| r rs IH]; intros pos; simpl; [lia |].
  intros (_ & _ & H). apply IH in H. lia.
Qed.

(** ** A call is one atomic drain *)

Section Linear.
Context {S : Type} (sample_cb : S -> list byte -> Z * S) (mask : Z).
Context (W : nat -> Z -> ring_view).

(** The producers as a strategy: [L k c] are all records from [p0] on that
    exist at the k-th access of the call, when the consumer has released [c]. *)
Record producers (L : nat -> Z -> list record) (p0 : Z) (N : nat) : Prop := {
  pr_ok k c : Forall record_ok (L k c);
  pr_grow k k' c c' : (k <= k')%nat -> c <= c' -> grows (L k c) (L k' c');
  pr_fin k c : (length (L k c) <= N)%nat;
  pr_bound k c : p0 + log_size (L k c) < 2 ^ 64;
  pr_start : 0 <= p0 /\ Z.of_nat N < 2 ^ 63;
  pr_laid k c i : (i <= length (L k c))%nat -> c = p0 + log_size (take i (L k c)) ->
    laid mask (W k c) c (drop i (L k c))
}.

Context (L : nat -> Z -> list record) (p0 : Z) (N : nat) (HP : producers L p0 N) (s0 : S).

(** The loop invariant: [pre] are the records consumed so far. *)
Record consumed (k : nat) (cons cnt : Z) (s : S) (pre : list record) : Prop := {
  co_pos : cons = p0 + log_size pre;
  co_cnt : 0 <= cnt <= zlen pre;
  co_committed : Forall (fun r => r_busy r = false) pre;
  co_log k' c : (k <= k')%nat -> cons <= c -> take (length pre) (L k' c) = pre;
  co_drain rest : drain sample_cb (pre ++ rest) p0 0 s0 = drain sample_cb rest cons cnt s
}.

Lemma consumed_later k k' cons cnt s pre :
  consumed k cons cnt s pre -> (k <= k')%nat -> consumed k' cons cnt s pre.
Proof. intros [] Hk. split; [done.. | | done]. intros k'' c Hk' Hc. apply co_log0; [lia | done]. Qed.

Lemma consumed_length k cons cnt s pre k' c :
  consumed k cons cnt s pre -> (k <= k')%nat -> cons <= c -> (length pre <= length (L k' c))%nat.
Proof.
  intros HC Hk Hc. pose proof (co_log _ _ _ _ _ HC k' c Hk Hc) as E.
  apply (f_equal length) in E. rewrite length_take in E. lia.
Qed.

Lemma consumed_split k cons cnt s pre k' c :
  consumed k cons cnt s pre -> (k <= k')%nat -> cons <= c ->
  L k' c = pre ++ drop (length pre) (L k' c).
Proof. intros HC Hk Hc. rewrite <- (co_log _ _ _ _ _ HC k' c Hk Hc) at 1. by rewrite take_drop. Qed.

(** The next record, when the producer position is ahead. *)
Lemma next_record k cons cnt s pre lp :
  consumed k cons cnt s pre -> cons < p0 + log_size lp -> grows lp (L k cons) ->
  exists r rest, L k cons = pre ++ r :: rest.
Proof.
  intros HC Hlt Hg. pose proof (consumed_split _ _ _ _ _ k cons HC ltac:(lia) ltac:(lia)) as E.
  destruct (drop (length pre) (L k cons)) as [| r rest] eqn:Ed; [| eauto].
  exfalso. rewrite app_nil_r in E.
  pose proof (grows_size lp (L k cons) (length pre) Hg (pr_ok _ _ _ HP k cons)) as Hs.
  rewrite (co_log _ _ _ _ _ HC k cons) in Hs by lia.
  pose proof (grows_length _ _ Hg) as Hl. rewrite E in Hl.
  pose proof (co_pos _ _ _ _ _ HC). specialize (Hs Hl). lia.
Qed.

(** Consuming a committed record keeps the invariant. *)
Lemma consumed_next k cons cnt s pre r rest s' cnt' :
  consumed k cons cnt s pre -> L k cons = pre ++ r :: rest -> r_busy r = false ->
  0 <= cnt' <= zlen pre + 1 ->
  (forall rest', drain sample_cb (r :: rest') cons cnt s =
                 drain sample_cb rest' (cons + rec_size r) cnt' s') ->
  consumed (Datatypes.S k) (cons + rec_size r) cnt' s' (pre ++ [r]).
Proof.
  intros HC E Hb Hcnt Hd. pose proof (pr_ok _ _ _ HP k cons) as Hok. rewrite E in Hok.
  apply Forall_app in Hok as [_ [Hr _]%Forall_cons]. pose proof (rec_size_pos r Hr).
  split.
  - rewrite log_size_app. pose proof (co_pos _ _ _ _ _ HC). simpl. lia.
  - unfold zlen in *. rewrite length_app. simpl. lia.
  - apply Forall_app. split; [apply HC | by constructor].
  - intros k' c Hk Hc. rewrite (grows_committed_prefix (L k cons) (L k' c) (length (pre ++ [r]))).
    + rewrite E, (cons_middle r pre rest), (app_assoc pre [r] rest). apply take_app_length.
    + apply (pr_grow _ _ _ HP); lia.
    + rewrite E, !length_app. simpl. lia.
    + rewrite E, (cons_middle r pre rest), (app_assoc pre [r] rest), take_app_length.
      apply Forall_app. split; [apply HC | by constructor].
  - intros rest'. rewrite <- app_assoc. simpl. rewrite (co_drain _ _ _ _ _ HC). apply Hd.
Qed.

(** What the loop reads at the next record. *)
Lemma next_record_memory k cons cnt s pre r rest :
  consumed k cons cnt s pre -> L k cons = pre ++ r :: rest ->
  load32 (rv_data (W k cons)) (Z.land cons mask) = Some (rec_word r) /\
  (r_busy r = false -> r_discard r = false ->
   bytes_at (rv_data (W k cons)) (Z.land cons mask + 8) (Z.to_nat (r_len r)) = Some (r_payload r)) /\
  record_ok r /\ cons + rec_size r < 2 ^ 64 /\ 0 <= cons /\ (length pre < N)%nat.
Proof.
  intros HC E. pose proof (pr_laid _ _ _ HP k cons (length pre)) as Hlaid.
  rewrite (co_log _ _ _ _ _ HC k cons) in Hlaid by lia.
  specialize (Hlaid (consumed_length _ _ _ _ _ k cons HC ltac:(lia) ltac:(lia)) (co_pos _ _ _ _ _ HC)).
  pose proof (pr_ok _ _ _ HP k cons) as Hok. pose proof (pr_bound _ _ _ HP k cons) as Hb.
  pose proof (pr_fin _ _ _ HP k cons) as Hf. pose proof (pr_start _ _ _ HP) as [H0 _].
  pose proof (co_pos _ _ _ _ _ HC) as Hpos.
  rewrite E in Hlaid, Hok, Hb, Hf. rewrite drop_app_length in Hlaid. destruct Hlaid as (Hl & Hs & _).
  apply Forall_app in Hok as [Hpre [Hr Hrest]%Forall_cons].
  rewrite log_size_app in Hb. simpl in Hb. rewrite length_app in Hf. simpl in Hf.
  pose proof (log_size_nonneg _ Hrest). pose proof (log_size_nonneg _ Hpre).
  split_and!; [done | done | done | lia | lia | lia].
Qed.

(** A fresh read of the producer position covers the whole log. *)
Lemma producer_position k cons cnt s pre :
  consumed k cons cnt s pre -> rv_prod (W k cons) = p0 + log_size (L k cons).
Proof.
  intros HC. pose proof (pr_laid _ _ _ HP k cons (length pre)) as Hlaid.
  rewrite (co_log _ _ _ _ _ HC k cons) in Hlaid by lia.
  specialize (Hlaid (consumed_length _ _ _ _ _ k cons HC ltac:(lia) ltac:(lia)) (co_pos _ _ _ _ _ HC)).
  apply laid_prod in Hlaid.
  rewrite Hlaid, (consumed_split _ _ _ _ _ k cons HC), log_size_app, drop_app_length by lia.
  pose proof (co_pos _ _ _ _ _ HC). lia.
Qed.

(** A log whose end is not ahead of the consumer is consumed completely. *)
Lemma no_new_data k cons cnt s pre k0 :
  consumed k cons cnt s pre -> take (length pre) (L k0 cons) = pre ->
  p0 + log_size (L k0 cons) <= cons -> L k0 cons = pre.
Proof.
  intros HC Ht Hle. pose proof (pr_ok _ _ _ HP k0 cons) as Hok.
  apply (Forall_drop _ (length pre)) in Hok. pose proof (co_pos _ _ _ _ _ HC).
  rewrite <- (take_drop (length pre) (L k0 cons)), Ht in Hle |- *.
  destruct (drop (length pre) (L k0 cons)) as [| r rest]; [by rewrite app_nil_r |].
  apply Forall_cons in Hok as [Hr Hrest]. rewrite log_size_app in Hle. simpl in Hle.
  pose proof (rec_size_pos r Hr). pose proof (log_size_nonneg _ Hrest). lia.
Qed.

Lemma ring_loop_linear fuel : forall k cons prod got cnt s pre lp,
  consumed k cons cnt s pre ->
  prod = p0 + log_size lp -> (forall k' c, (k <= k')%nat -> cons <= c -> grows lp (L k' c)) ->
  (got = false -> exists k0, lp = L k0 cons /\ take (length pre) lp = pre) ->
  (2 * (N - length pre) + (if got then 1 else 0) < fuel)%nat ->
  exists k' c, ring_loop sample_cb mask W fuel k cons prod cons got cnt s =
    Some (drain sample_cb (L k' c) p0 0 s0).
Proof.
  induction fuel as [| fuel IH]; intros k cons prod got cnt s pre lp HC Hprod Hlp Hgot Hfuel; [lia |].
  cbn [ring_loop]. destruct (Z.ltb_spec cons prod) as [Hlt | Hge].
  - destruct (next_record k cons cnt s pre lp HC) as (r & rest & E); [lia | by apply Hlp |].
    destruct (next_record_memory _ _ _ _ _ _ _ HC E) as (Hw & Hs & Hr & Hb64 & H0 & HN).
    rewrite Hw. cbn [mbind option_bind]. pose proof (rec_word_range r Hr) as Hwr.
    rewrite u32_s32, rec_word_busy, rec_word_discard, roundup_len_rec by done.
    pose proof (rec_size_pos r Hr) as Hsz. pose proof (co_cnt _ _ _ _ _ HC) as Hcnt.
    destruct (r_busy r) eqn:Eb.
    { exists k, cons. rewrite E, (co_drain _ _ _ _ _ HC). simpl. by rewrite Eb. }
    cbn [c_true Z.eqb negb]. rewrite u64_id by lia. change (c_true 0) with false. cbn iota.
    pose proof (pr_start _ _ _ HP) as [_ HN63].
    destruct (r_discard r) eqn:Ed; cbn [Z.eqb].
    { change (2 ^ 30 =? 0) with false. cbn iota.
      apply (IH _ _ prod true cnt s (pre ++ [r]) lp); [| done | intros; apply Hlp; lia | done
        | rewrite length_app; simpl; lia].
      eapply consumed_next; [done | done | done | lia |]. intros. simpl. by rewrite Eb, Ed. }
    assert (s32 (rec_word r) = r_len r) as Hlen.
    { destruct Hr as [Hl _]. unfold rec_word. rewrite Eb, Ed, !Z.add_0_r. apply s32_id. lia. }
    rewrite Hlen. change BPF_RINGBUF_HDR_SZ with 8. rewrite (Hs eq_refl eq_refl).
    cbn [mbind option_bind]. destruct (sample_cb s (r_payload r)) as [err s'] eqn:Ecb.
    destruct (err <? 0) eqn:Eerr.
    { exists k, cons. rewrite E, (co_drain _ _ _ _ _ HC). simpl. by rewrite Eb, Ed, Ecb, Eerr. }
    rewrite s64_id by (unfold zlen in *; lia).
    apply (IH _ _ prod true (cnt + 1) s' (pre ++ [r]) lp); [| done | intros; apply Hlp; lia | done
      | rewrite length_app; simpl; lia].
    eapply consumed_next; [done | done | done | lia |].
    intros. simpl. by rewrite Eb, Ed, Ecb, Eerr.
  - destruct got.
    + apply (IH _ _ _ false cnt s pre (L k cons)).
      * eapply consumed_later; [exact HC | lia].
      * by eapply producer_position.
      * intros. apply (pr_grow _ _ _ HP); lia.
      * intros _. exists k. split; [done |]. apply (co_log _ _ _ _ _ HC); lia.
      * lia.
    + destruct (Hgot eq_refl) as (k0 & -> & Ht). exists k0, cons.
      rewrite (no_new_data k cons cnt s pre k0 HC Ht) by lia.
      pose proof (co_drain _ _ _ _ _ HC []) as Hd. rewrite app_nil_r in Hd. rewrite Hd. done.
Qed.

End Linear.

(** The call from its start. *)
Lemma ring_process_linear {S : Type} (sample_cb : S -> list byte -> Z * S) mask W L p0 N s0 fuel :
  producers mask W L p0 N -> (2 * N < fuel)%nat ->
  exists k c, ringbuf_process_ring sample_cb mask W fuel p0 s0 =
    Some (drain sample_cb (L k c) p0 0 s0).
Proof.
  intros HP Hfuel. unfold ringbuf_process_ring.
  assert (consumed sample_cb L p0 s0 0 p0 0 s0 []) as HC.
  { split; [simpl; lia | unfold zlen; simpl; lia | constructor | by intros | done]. }
  apply (ring_loop_linear sample_cb mask W L p0 N HP s0 fuel 1 p0 _ false 0 s0 [] (L 0%nat p0)).
  - eapply consumed_later; [exact HC | lia].
  - exact (producer_position sample_cb mask W L p0 N HP s0 0 p0 0 s0 [] HC).
  - intros. apply (pr_grow _ _ _ _ _ HP); lia.
  - intros _. by exists 0%nat.
  - simpl. lia.
Qed.

(** C1: a call of [ringbuf_process_ring] is one atomic drain.  Whatever the
    producers do during the call (append, commit and discard records, reuse
    the space the consumer released), as long as they append only finitely
    many records: the call returns, stays inside the mapping, and its result,
    the consumer position it leaves and the samples it handed to the callback
    are those of the reference consumer on the log as it was at one instant of
    the call.  No committed sample is lost, delivered twice or out of order. *)
Theorem ringbuf_process_ring_linearizable {S : Type} (sample_cb : S -> list byte -> Z * S)
    mask W L p0 N s0 fuel :
  producers mask W L p0 N -> (2 * N < fuel)%nat ->
  exists k c, ringbuf_process_ring sample_cb mask W fuel p0 s0 =
    Some (drain sample_cb (L k c) p0 0 s0).
Proof. apply ring_process_linear. Qed.

(** The samples of the committed records at the front of a log. *)
Fixpoint ready (rs : list record) : list (list byte) :=
  match rs with
  | [] => []
  | r :: rs' => if r_busy r then [] else if r_discard r then ready rs' else r_payload r :: ready rs'
  end.

(** A callback that stores what it gets, and never fails. *)
Definition collect (s : list (list byte)) (sample : list byte) : Z * list (list byte) :=
  (0, s ++ [sample]).

Lemma drain_collect rs : forall pos cnt s,
  rr_state (drain collect rs pos cnt s) = s ++ ready rs /\
  rr_ret (drain collect rs pos cnt s) = cnt + zlen (ready rs).
Proof.
  induction rs as [| r rs IH]; intros pos cnt s; simpl.
  { rewrite app_nil_r. split; [done | unfold zlen; simpl; lia]. }
  destruct (r_busy r). { simpl. rewrite app_nil_r. split; [done | unfold zlen; simpl; lia]. }
  destruct (r_discard r); [apply IH |]. simpl.
  destruct (IH (pos + rec_size r) (cnt + 1) (s ++ [r_payload r])) as [-> ->].
  rewrite <- app_assoc, zlen_cons. split; [done | lia].
Qed.

(** What the callback sees.  With a callback that accepts every sample,
    the call hands over exactly the payloads of the records at the front of
    the log that are committed and not discarded, in log order, and returns
    their number. *)
Theorem ringbuf_process_ring_delivers mask W L p0 N fuel :
  producers mask W L p0 N -> (2 * N < fuel)%nat ->
  exists k c res, ringbuf_process_ring collect mask W fuel p0 [] = Some res /\
    rr_state res = ready (L k c) /\ rr_ret res = zlen (ready (L k c)).
Proof.
  intros HP Hfuel. destruct (ring_process_linear collect _ _ _ _ _ [] fuel HP Hfuel) as (k & c & E).
  exists k, c. eexists. split; [exact E |]. apply (drain_collect (L k c) p0 0 []).
Qed.

(** A ring of 64 bytes that holds a committed record of 5 bytes, a discarded
    one and a busy one. *)
Definition sample_log : list record :=
  [ {| r_len := 5; r_busy := false; r_discard := false; r_payload := str "hello" |};
    {| r_len := 3; r_busy := false; r_discard := true; r_payload := str "xyz" |};
    {| r_len := 2; r_busy := true; r_discard := false; r_payload := str "ok" |} ].

Definition sample_ring : ring_view :=
  let half := le_split 8 5 ++ str "hello" ++ replicate 3 x00 ++
              le_split 8 (3 + 2 ^ 30) ++ replicate 8 x00 ++
              le_split 8 (2 + 2 ^ 31) ++ replicate 24 x00 in
  {| rv_data := half ++ half; rv_prod := 48 |}.

Lemma sample_producers : producers 63 (fun _ _ => sample_ring) (fun _ _ => sample_log) 0 3.
Proof.
  split.
  - intros _ _. unfold sample_log. repeat (apply Forall_cons; split; [split; [simpl; lia | done] |]). constructor.
  - intros _ _ _ _ _ _ i r Hi. exists r. split; [done | split; [done | auto]].
  - intros. simpl. lia.
  - intros. vm_compute. done.
  - lia.
  - intros _ c i Hi ->. destruct i as [| [| [| [| i]]]]; [| | | | simpl in Hi; lia];
      vm_compute; repeat split; done.
Qed.

Lemma ringbuf_process_ring_linearizable_witness :
  exists k c : nat, ringbuf_process_ring collect 63 (fun _ _ => sample_ring) 7 0 [] =
    Some (drain collect sample_log 0 0 []).
Proof.
  destruct (ringbuf_process_ring_linearizable collect 63 (fun _ _ => sample_ring)
    (fun _ _ => sample_log) 0 3 [] 7 sample_producers) as (k & c & E); [lia |].
  exists k, k. exact E.
Defined.

Lemma ringbuf_process_ring_delivers_witness :
  exists res, ringbuf_process_ring collect 63 (fun _ _ => sample_ring) 7 0 [] = Some res /\
    rr_state res = [str "hello"] /\ rr_ret res = 1.
Proof.
  destruct (ringbuf_process_ring_delivers 63 (fun _ _ => sample_ring)
    (fun _ _ => sample_log) 0 3 7 sample_producers) as (k & c & res & E & Hs & Hr); [lia |].
  exists res. split; [exact E | split; [exact Hs | exact Hr]].
Defined.
