(* ===== verification/RingBufMgr.v ===== *)
(** The ring buffer manager of src/lib/libbpf/src/ringbuf.c: [struct ring] and
    [struct ring_buffer], [ring_buffer__new], [ring_buffer__add],
    [ring_buffer__free], [ring_buffer__consume] and [ring_buffer__poll].

    The process's memory mappings and open descriptors are an explicit state
    ([world]); unmapping what is not mapped, or closing what is not open, is
    [None].  Results of system calls are arguments ([inl errno] or [inr]
    value), so every failure of every call is covered.  Sizes are those of a
    64-bit target ([size_t] is [u64]). *)
From S2P Require Import Prelude.
From S2P Require Import CLib.
From S2P Require Import RingBuf.

Definition E2BIG_errno : Z := 7.
Definition BPF_MAP_TYPE_RINGBUF : Z := 27.
Definition INT_MAX : Z := 2 ^ 31 - 1.

(** ** The process *)

(** Live mappings (address to length) and open descriptors. *)
Record world := { w_maps : gmap Z Z; w_fds : gset Z }.

Definition mmap_at (w : world) (addr len : Z) : world :=
  {| w_maps := <[addr := len]> (w_maps w); w_fds := w_fds w |}.

Definition munmap (w : world) (addr len : Z) : option world :=
  if decide (w_maps w !! addr = Some len)
  then Some {| w_maps := delete addr (w_maps w); w_fds := w_fds w |} else None.

Definition open_fd (w : world) (fd : Z) : world :=
  {| w_maps := w_maps w; w_fds := {[ fd ]} ∪ w_fds w |}.

Definition close (w : world) (fd : Z) : option world :=
  if decide (fd ∈ w_fds w)
  then Some {| w_maps := w_maps w; w_fds := w_fds w ∖ {[ fd ]} |} else None.

(** ** Data *)

Section Manager.
Context {S : Type}.

(** [struct ring]; the pointers are addresses, 0 is NULL. *)
Record ring := {
  r_sample_cb : S -> list byte -> Z * S;
  r_data : Z;
  r_consumer_pos : Z;
  r_producer_pos : Z;
  r_mask : Z;
  r_map_fd : Z
}.

(** [struct ring_buffer]; of [events] the part that is read, [data.fd]. *)
Record ring_buffer := {
  rb_events : list Z;
  rb_rings : list ring;
  rb_page_size : Z;
  rb_epoll_fd : Z;
  rb_ring_cnt : nat
}.

(** ** Mapping and unmapping *)

Definition ringbuf_unmap_ring (page_size : Z) (r : ring) (w : world) : option world :=
  w1 ← (if r_consumer_pos r =? 0 then Some w else munmap w (r_consumer_pos r) page_size);
  if r_producer_pos r =? 0 then Some w1
  else munmap w1 (r_producer_pos r) (u64 (page_size + 2 * (r_mask r + 1))).

(** What the calls made by [ring_buffer__add] answer. *)
Record add_env := {
  e_info : Z + (Z * Z);        (** bpf_map_get_info_by_fd: errno, or type and max_entries *)
  e_rings_alloc : bool;        (** the two reallocations succeed *)
  e_events_alloc : bool;
  e_mmap_consumer : Z + Z;     (** errno or address *)
  e_mmap_producer : Z + Z;
  e_epoll_ctl : option Z       (** errno, when it fails *)
}.

Definition ring_buffer__add (rb : ring_buffer) (map_fd : Z) (sample_cb : S -> list byte -> Z * S)
    (e : add_env) (w : world) : option (Z * ring_buffer * world) :=
  match e_info e with
  | inl errno => Some (- errno, rb, w)
  | inr (type, max_entries) =>
    if negb (type =? BPF_MAP_TYPE_RINGBUF) then Some (- EINVAL, rb, w) else
    if negb (e_rings_alloc e) then Some (- ENOMEM, rb, w) else
    if negb (e_events_alloc e) then Some (- ENOMEM, rb, w) else
    let set r :=
      {| rb_events := rb_events rb; rb_rings := take (rb_ring_cnt rb) (rb_rings rb) ++ [r];
         rb_page_size := rb_page_size rb; rb_epoll_fd := rb_epoll_fd rb;
         rb_ring_cnt := rb_ring_cnt rb |} in
    let r0 := {| r_sample_cb := sample_cb; r_data := 0; r_consumer_pos := 0; r_producer_pos := 0;
                 r_mask := u32 (max_entries - 1); r_map_fd := map_fd |} in
    match e_mmap_consumer e with
    | inl errno => Some (- errno, set r0, w)
    | inr tmp =>
      let w := mmap_at w tmp (rb_page_size rb) in
      let r1 := {| r_sample_cb := sample_cb; r_data := 0; r_consumer_pos := tmp;
                   r_producer_pos := 0; r_mask := r_mask r0; r_map_fd := map_fd |} in
      let mmap_sz := u64 (rb_page_size rb + 2 * max_entries) in
      if negb (mmap_sz =? u64 mmap_sz) then Some (- E2BIG_errno, set r1, w) else
      match e_mmap_producer e with
      | inl errno =>
        w ← ringbuf_unmap_ring (rb_page_size rb) r1 w;
        Some (- errno, set r1, w)
      | inr tmp =>
        let w := mmap_at w tmp mmap_sz in
        let r2 := {| r_sample_cb := sample_cb; r_data := tmp + rb_page_size rb;
                     r_consumer_pos := r_consumer_pos r1; r_producer_pos := tmp;
                     r_mask := r_mask r1; r_map_fd := map_fd |} in
        match e_epoll_ctl e with
        | Some errno =>
          w ← ringbuf_unmap_ring (rb_page_size rb) r2 w;
          Some (- errno, set r2, w)
        | None =>
          Some (0, {| rb_events := take (rb_ring_cnt rb) (rb_events rb) ++ [Z.of_nat (rb_ring_cnt rb)];
                      rb_rings := rb_rings (set r2); rb_page_size := rb_page_size rb;
                      rb_epoll_fd := rb_epoll_fd rb; rb_ring_cnt := (rb_ring_cnt rb + 1)%nat |}, w)
        end
      end
    end
  end.

(** The loop of [ring_buffer__free]. *)
Fixpoint unmap_rings (page_size : Z) (rs : list ring) (w : world) : option world :=
  match rs with
  | [] => Some w
  | r :: rs' => w ← ringbuf_unmap_ring page_size r w; unmap_rings page_size rs' w
  end.

Definition ring_buffer__free (rb : option ring_buffer) (w : world) : option world :=
  match rb with
  | None => Some w
  | Some rb =>
    w ← unmap_rings (rb_page_size rb) (take (rb_ring_cnt rb) (rb_rings rb)) w;
    if 0 <=? rb_epoll_fd rb then close w (rb_epoll_fd rb) else Some w
  end.

(** [ring_buffer__new]: the result is the manager, or the [errno] the caller
    finds next to NULL. *)
Definition ring_buffer__new (opts_valid alloc : bool) (page_size : Z) (epoll_create1 : Z + Z)
    (map_fd : Z) (sample_cb : S -> list byte -> Z * S) (e : add_env) (w : world) :
    option ((Z + ring_buffer) * world) :=
  if negb opts_valid then Some (inl EINVAL, w) else
  if negb alloc then Some (inl ENOMEM, w) else
  let rb fd := {| rb_events := []; rb_rings := []; rb_page_size := page_size;
                  rb_epoll_fd := fd; rb_ring_cnt := 0 |} in
  match epoll_create1 with
  | inl errno =>
    w ← ring_buffer__free (Some (rb (-1))) w;
    Some (inl errno, w)
  | inr fd =>
    '(err, rb, w) ← ring_buffer__add (rb fd) map_fd sample_cb e (open_fd w fd);
    if err =? 0 then Some (inr rb, w) else
    w ← ring_buffer__free (Some rb) w;
    Some (inl (- err), w)
  end.

(** ** Consuming *)

(** The shared memory the managed rings read: the consumer position of each
    map, and what the [i]-th ring processed by the call observes. *)
Definition libbpf_err (ret : Z) : Z := s32 ret.

Definition clamp (res : Z) : Z := if INT_MAX <? res then INT_MAX else res.

(** The loop over the ready rings, for any way [run] of processing one ring:
    [run i r pos s] is the result of the [i]-th call. *)
Fixpoint process_rings (run : nat -> ring -> Z -> S -> option (ring_result S)) (i : nat) (rs : list ring)
    (res : Z) (pos : gmap Z Z) (s : S) : option (Z * gmap Z Z * S) :=
  match rs with
  | [] => Some (clamp res, pos, s)
  | r :: rs' =>
    p ← pos !! r_map_fd r;
    x ← run i r p s;
    let pos := <[r_map_fd r := rr_cons x]> pos in
    if rr_ret x <? 0 then Some (libbpf_err (rr_ret x), pos, rr_state x)
    else process_rings run (i + 1) rs' (res + rr_ret x) pos (rr_state x)
  end.

Definition run_ring (views : nat -> nat -> Z -> ring_view) (fuel : nat)
    (i : nat) (r : ring) (p : Z) (s : S) : option (ring_result S) :=
  ringbuf_process_ring (r_sample_cb r) (r_mask r) (views i) fuel p s.

Definition ring_buffer__consume (rb : ring_buffer) (views : nat -> nat -> Z -> ring_view) (fuel : nat)
    (pos : gmap Z Z) (s : S) : option (Z * gmap Z Z * S) :=
  process_rings (run_ring views fuel) 0 (take (rb_ring_cnt rb) (rb_rings rb)) 0 pos s.

(** [epoll_wait] answers with [errno], or with the [data.fd] fields it wrote
    to the front of [events]; an index past the rings is [None]. *)
Definition ring_buffer__poll (rb : ring_buffer) (epoll_wait : Z + list Z)
    (views : nat -> nat -> Z -> ring_view) (fuel : nat) (pos : gmap Z Z) (s : S) :
    option (Z * gmap Z Z * S) :=
  match epoll_wait with
  | inl errno => Some (libbpf_err (- errno), pos, s)
  | inr ids =>
    rs ← mapM (fun id => take (rb_ring_cnt rb) (rb_rings rb) !! Z.to_nat (u32 id)) ids;
    process_rings (run_ring views fuel) 0 rs 0 pos s
  end.

Definition ring_buffer__epoll_fd (rb : ring_buffer) : Z := rb_epoll_fd rb.

End Manager.
Arguments ring S : clear implicits.
Arguments ring_buffer S : clear implicits.

(** ** Resources *)

(** Under [rs], the mappings [m] are those of the rings on top of [m0]. *)
Fixpoint owns_rings {S} (page_size : Z) (m0 : gmap Z Z) (rs : list (ring S)) (m : gmap Z Z) : Prop :=
  match rs with
  | [] => m = m0
  | r :: rs' =>
    r_consumer_pos r <> 0 /\ r_producer_pos r <> 0 /\ r_consumer_pos r <> r_producer_pos r /\
    m !! r_consumer_pos r = Some page_size /\
    m !! r_producer_pos r = Some (u64 (page_size + 2 * (r_mask r + 1))) /\
    owns_rings page_size m0 rs' (delete (r_producer_pos r) (delete (r_consumer_pos r) m))
  end.

(** The manager [rb] holds what [w] has on top of [w0]: two mappings per
    ring and the epoll descriptor; and the indices of its events are those
    of its rings. *)
Record owns {S} (w0 : world) (rb : ring_buffer S) (w : world) : Prop := {
  ow_rings : owns_rings (rb_page_size rb) (w_maps w0) (take (rb_ring_cnt rb) (rb_rings rb)) (w_maps w);
  ow_cnt : (rb_ring_cnt rb <= length (rb_rings rb))%nat;
  ow_events : take (rb_ring_cnt rb) (rb_events rb) = Z.of_nat <$> seq 0 (rb_ring_cnt rb);
  ow_fd : 0 <= rb_epoll_fd rb;
  ow_fresh : rb_epoll_fd rb ∉ w_fds w0;
  ow_fds : w_fds w = {[ rb_epoll_fd rb ]} ∪ w_fds w0
}.

(** What the manual pages promise of the calls: an error number is positive, a
    mapping is placed at an address that is not NULL and not in use; and a
    BPF ring buffer has a size that is not 0 and fits in 32 bits. *)
Record add_env_ok (w : world) (e : add_env) : Prop := {
  ok_info_errno n : e_info e = inl n -> 0 < n;
  ok_info_size t m : e_info e = inr (t, m) -> 0 < m < 2 ^ 32;
  ok_consumer_errno n : e_mmap_consumer e = inl n -> 0 < n;
  ok_consumer a : e_mmap_consumer e = inr a -> a <> 0 /\ w_maps w !! a = None;
  ok_producer_errno n : e_mmap_producer e = inl n -> 0 < n;
  ok_producer a : e_mmap_producer e = inr a ->
    a <> 0 /\ w_maps w !! a = None /\ e_mmap_consumer e <> inr a;
  ok_ctl n : e_epoll_ctl e = Some n -> 0 < n
}.

Lemma munmap_owned w a n : w_maps w !! a = Some n ->
  munmap w a n = Some {| w_maps := delete a (w_maps w); w_fds := w_fds w |}.
Proof. intros E. unfold munmap. by rewrite decide_True. Qed.

Lemma unmap_owned {S} page (r : ring S) w :
  r_consumer_pos r <> 0 -> r_producer_pos r <> 0 -> r_consumer_pos r <> r_producer_pos r ->
  w_maps w !! r_consumer_pos r = Some page ->
  w_maps w !! r_producer_pos r = Some (u64 (page + 2 * (r_mask r + 1))) ->
  ringbuf_unmap_ring page r w =
    Some {| w_maps := delete (r_producer_pos r) (delete (r_consumer_pos r) (w_maps w)); w_fds := w_fds w |}.
Proof.
  intros Hc Hp Hne E1 E2. unfold ringbuf_unmap_ring.
  rewrite (proj2 (Z.eqb_neq _ _) Hc), (proj2 (Z.eqb_neq _ _) Hp), (munmap_owned _ _ _ E1).
  cbn [mbind option_bind]. rewrite munmap_owned; [done |]. simpl. by rewrite lookup_delete_ne.
Qed.

Lemma unmap_rings_owned {S} page m0 (rs : list (ring S)) : forall w,
  owns_rings page m0 rs (w_maps w) ->
  unmap_rings page rs w = Some {| w_maps := m0; w_fds := w_fds w |}.
Proof.
  induction rs as [| r rs IH]; intros w; simpl.
  { intros <-. by destruct w. }
  intros (Hc & Hp & Hne & E1 & E2 & HO). rewrite unmap_owned by done. cbn [mbind option_bind].
  by rewrite IH.
Qed.

Lemma free_owned {S} w0 (rb : ring_buffer S) w :
  owns w0 rb w -> ring_buffer__free (Some rb) w = Some w0.
Proof.
  intros [HR _ _ Hfd Hfresh Hfds]. unfold ring_buffer__free.
  rewrite (unmap_rings_owned _ _ _ _ HR). cbn [mbind option_bind].
  rewrite (proj2 (Z.leb_le _ _) Hfd). unfold close. cbn [w_fds w_maps].
  rewrite decide_True by (rewrite Hfds; set_solver). f_equal. destruct w0; simpl in *. f_equal.
  rewrite Hfds. set_solver.
Qed.

(** A fresh ring on top of the owned ones. *)
Lemma owns_rings_snoc {S} page m0 (rs : list (ring S)) (r : ring S) : forall m,
  r_consumer_pos r <> 0 -> r_producer_pos r <> 0 -> r_consumer_pos r <> r_producer_pos r ->
  m !! r_consumer_pos r = None -> m !! r_producer_pos r = None ->
  owns_rings page m0 rs m ->
  owns_rings page m0 (rs ++ [r])
    (<[r_producer_pos r := u64 (page + 2 * (r_mask r + 1))]> (<[r_consumer_pos r := page]> m)).
Proof.
  induction rs as [| x rs IH]; intros m Hc Hp Hne E1 E2; simpl.
  - intros ->. split_and!; try done.
    + rewrite lookup_insert_ne by done. by rewrite lookup_insert_eq.
    + by rewrite lookup_insert_eq.
    + rewrite (delete_insert_ne _ (r_consumer_pos r)) by done.
      rewrite (delete_insert_id m0) by done. by apply delete_insert_id.
  - intros (Xc & Xp & Xne & F1 & F2 & HO).
    assert (forall a, m !! a <> None -> a <> r_consumer_pos r /\ a <> r_producer_pos r) as Hother
      by (intros a Ha; split; intros ->; done).
    destruct (Hother (r_consumer_pos x)) as [? ?]; [by rewrite F1 |].
    destruct (Hother (r_producer_pos x)) as [? ?]; [by rewrite F2 |].
    split_and!; try done; [by rewrite !lookup_insert_ne by congruence.. |].
    rewrite !(delete_insert_ne _ (r_consumer_pos x)) by congruence.
    rewrite !(delete_insert_ne _ (r_producer_pos x)) by congruence.
    apply IH; try done; by rewrite !lookup_delete_ne by congruence.
Qed.

(** Storing a ring in the array past [ring_cnt] changes nothing that is owned. *)
Lemma owns_scratch {S} w0 (rb : ring_buffer S) w r :
  owns w0 rb w ->
  owns w0 {| rb_events := rb_events rb; rb_rings := take (rb_ring_cnt rb) (rb_rings rb) ++ [r];
             rb_page_size := rb_page_size rb; rb_epoll_fd := rb_epoll_fd rb;
             rb_ring_cnt := rb_ring_cnt rb |} w.
Proof.
  intros []. split; simpl; try done.
  - rewrite take_app_le by (rewrite length_take; lia). by rewrite take_take, Nat.min_id.
  - rewrite length_app, length_take. simpl. lia.
Qed.

Lemma ring_size m : 0 < m < 2 ^ 32 -> u32 (m - 1) + 1 = m.
Proof. intros H. rewrite u32_id by lia. lia. Qed.

Lemma u64_u64 x : u64 (u64 x) = u64 x.
Proof. apply u64_id. apply u64_range. Qed.

(** The ring [ring_buffer__add] registers is on top of the owned ones. *)
Lemma owns_added {S} w0 (rb : ring_buffer S) w r :
  owns w0 rb w ->
  r_consumer_pos r <> 0 -> r_producer_pos r <> 0 -> r_consumer_pos r <> r_producer_pos r ->
  w_maps w !! r_consumer_pos r = None -> w_maps w !! r_producer_pos r = None ->
  owns w0 {| rb_events := take (rb_ring_cnt rb) (rb_events rb) ++ [Z.of_nat (rb_ring_cnt rb)];
             rb_rings := take (rb_ring_cnt rb) (rb_rings rb) ++ [r];
             rb_page_size := rb_page_size rb; rb_epoll_fd := rb_epoll_fd rb;
             rb_ring_cnt := (rb_ring_cnt rb + 1)%nat |}
    (mmap_at (mmap_at w (r_consumer_pos r) (rb_page_size rb)) (r_producer_pos r)
       (u64 (rb_page_size rb + 2 * (r_mask r + 1)))).
Proof.
  intros [HR Hn HE Hfd Hfresh Hfds] Hc Hp Hne E1 E2.
  assert (length (take (rb_ring_cnt rb) (rb_rings rb)) = rb_ring_cnt rb) as Hlen
    by (rewrite length_take; lia).
  assert (length (take (rb_ring_cnt rb) (rb_events rb)) = rb_ring_cnt rb) as Hlen'
    by (rewrite HE, length_fmap, length_seq; done).
  split; simpl; try done.
  - rewrite take_ge by (rewrite length_app, Hlen; simpl; lia). by apply owns_rings_snoc.
  - rewrite length_app, Hlen. simpl. lia.
  - rewrite take_ge by (rewrite length_app, Hlen'; simpl; lia).
    rewrite HE, seq_app, fmap_app. by rewrite Nat.add_0_l.
Qed.

(** Closes a path of [ring_buffer__add] that reports an error. *)
Ltac add_returns :=
  do 3 eexists; split; [reflexivity |];
  split; [first [done | by apply owns_scratch] | left; split_and!; [try done; lia | done..]].

(** [ring_buffer__add] keeps the ownership invariant, on every path: it never
    unmaps memory that is not mapped, a failing call gives back all it took
    and reports a negative error, and a successful one adds one ring. *)
Lemma add_owns {S} w0 (rb : ring_buffer S) w map_fd cb e :
  owns w0 rb w -> add_env_ok w e ->
  exists err rb' w', ring_buffer__add rb map_fd cb e w = Some (err, rb', w') /\
    owns w0 rb' w' /\
    ((err < 0 /\ w' = w /\ rb_ring_cnt rb' = rb_ring_cnt rb) \/
     (err = 0 /\ rb_ring_cnt rb' = (rb_ring_cnt rb + 1)%nat)).
Proof.
  intros HO [Hinfo Hsize HcE Hc HpE Hp Hctl]. unfold ring_buffer__add.
  destruct (e_info e) as [n | [t m]].
  { specialize (Hinfo n eq_refl). add_returns. }
  specialize (Hsize t m eq_refl).
  destruct (t =? _); cbn [negb]; [| add_returns].
  destruct (e_rings_alloc e); cbn [negb]; [| add_returns].
  destruct (e_events_alloc e); cbn [negb]; [| add_returns].
  destruct (e_mmap_consumer e) as [n | a].
  { specialize (HcE n eq_refl). add_returns. }
  destruct (Hc a eq_refl) as [Ha Ea]. rewrite u64_u64, Z.eqb_refl. cbn [negb].
  destruct (e_mmap_producer e) as [n | b].
  { specialize (HpE n eq_refl). unfold ringbuf_unmap_ring. cbn [r_consumer_pos r_producer_pos].
    rewrite (proj2 (Z.eqb_neq _ _) Ha), (munmap_owned _ a (rb_page_size rb)) by (apply lookup_insert_eq).
    cbn [mbind option_bind Z.eqb].
    assert ({| w_maps := delete a (w_maps (mmap_at w a (rb_page_size rb)));
               w_fds := w_fds (mmap_at w a (rb_page_size rb)) |} = w) as ->
      by (destruct w; unfold mmap_at; simpl in *; by rewrite delete_insert_id).
    add_returns. }
  destruct (Hp b eq_refl) as (Hb & Eb & Hab). assert (a <> b) as Hne by congruence.
  destruct (e_epoll_ctl e) as [n |].
  - specialize (Hctl n eq_refl). rewrite unmap_owned; try done; cbn [r_consumer_pos r_producer_pos r_mask].
    + cbn [mbind option_bind].
      match goal with |- context [Some (- n, _, ?w')] => assert (w' = w) as -> end.
      { destruct w as [ms fds]; unfold mmap_at; simpl in *. f_equal. rewrite (delete_insert_ne _ a) by done.
        rewrite (delete_insert_id ms) by done. by apply delete_insert_id. }
      add_returns.
    + simpl. rewrite lookup_insert_ne by done. apply lookup_insert_eq.
    + simpl. rewrite lookup_insert_eq. by rewrite ring_size.
  - do 3 eexists. split; [done |]. split; [| by right].
    pose proof (owns_added w0 rb w {| r_sample_cb := cb; r_data := b + rb_page_size rb;
      r_consumer_pos := a; r_producer_pos := b; r_mask := u32 (m - 1); r_map_fd := map_fd |} HO) as HA.
    cbn [r_consumer_pos r_producer_pos r_mask] in HA. rewrite ring_size in HA by done. by apply HA.
Qed.

(** A sequence of registrations, and that each sees answers the manual pages
    allow in the state it runs in. *)
Fixpoint add_all {S} (rb : ring_buffer S) (adds : list (Z * (S -> list byte -> Z * S) * add_env))
    (w : world) : option (ring_buffer S * world) :=
  match adds with
  | [] => Some (rb, w)
  | (fd, cb, e) :: t => '(_, rb, w) ← ring_buffer__add rb fd cb e w; add_all rb t w
  end.

Fixpoint adds_ok {S} (rb : ring_buffer S) (adds : list (Z * (S -> list byte -> Z * S) * add_env))
    (w : world) : Prop :=
  match adds with
  | [] => True
  | (fd, cb, e) :: t =>
    add_env_ok w e /\
    match ring_buffer__add rb fd cb e w with Some (_, rb, w) => adds_ok rb t w | None => True end
  end.

Lemma add_all_owns {S} w0 adds : forall (rb : ring_buffer S) w,
  owns w0 rb w -> adds_ok rb adds w ->
  exists rb' w', add_all rb adds w = Some (rb', w') /\ owns w0 rb' w'.
Proof.
  induction adds as [| [[fd cb] e] t IH]; intros rb w HO; simpl; [by eauto |].
  intros [He Ht]. destruct (add_owns w0 rb w fd cb e HO He) as (err & rb' & w' & E & HO' & _).
  rewrite E in *. cbn [mbind option_bind]. by apply IH.
Qed.

Lemma owns_empty {S} w0 fd page : 0 <= fd -> fd ∉ w_fds w0 ->
  owns w0 {| rb_events := []; rb_rings := @nil (ring S); rb_page_size := page;
             rb_epoll_fd := fd; rb_ring_cnt := 0 |} (open_fd w0 fd).
Proof. by split. Qed.

Lemma new_owns {S} w0 ov al page ec fd (cb : S -> list byte -> Z * S) e :
  (forall n, ec = inl n -> 0 < n) -> (forall epfd, ec = inr epfd -> 0 <= epfd /\ epfd ∉ w_fds w0) ->
  add_env_ok w0 e ->
  exists r w, ring_buffer__new ov al page ec fd cb e w0 = Some (r, w) /\
    match r with
    | inl errno => 0 < errno /\ w = w0
    | inr rb => owns w0 rb w /\ rb_ring_cnt rb = 1%nat
    end.
Proof.
  intros HE Hfd Henv. unfold ring_buffer__new.
  destruct ov; cbn [negb]; [| by do 2 eexists].
  destruct al; cbn [negb]; [| by do 2 eexists].
  destruct ec as [n | epfd]; [exists (inl n), w0; split; [done | by eauto] |].
  destruct (Hfd epfd eq_refl) as [H0 Hfresh].
  destruct (add_owns w0 _ (open_fd w0 epfd) fd cb e (owns_empty w0 epfd page H0 Hfresh))
    as (err & rb' & w' & -> & HO & Hres); [by destruct Henv |].
  cbn [mbind option_bind]. destruct Hres as [(Herr & -> & _) | [-> Hcnt]].
  - rewrite (proj2 (Z.eqb_neq _ _)) by lia. rewrite (free_owned _ _ _ HO). cbn [mbind option_bind].
    do 2 eexists. split; [done |]. split; [lia | done].
  - rewrite Z.eqb_refl. do 2 eexists. split; [done |]. by split.
Qed.

(** C3: the manager's resources.  Whatever the system calls answer,
    [ring_buffer__new] either fails with a positive [errno] and leaves the
    mappings and descriptors of the process as they were, or returns a manager
    to which rings can be added any number of times, each attempt succeeding or
    failing; and [ring_buffer__free] then gives back exactly what was taken,
    never unmapping or closing anything twice. *)
Theorem ring_buffer_lifecycle {S} w0 ov al page ec fd (cb : S -> list byte -> Z * S) e :
  (forall n, ec = inl n -> 0 < n) -> (forall epfd, ec = inr epfd -> 0 <= epfd /\ epfd ∉ w_fds w0) ->
  add_env_ok w0 e ->
  match ring_buffer__new ov al page ec fd cb e w0 with
  | None => False
  | Some (inl errno, w) => 0 < errno /\ w = w0
  | Some (inr rb, w) =>
    forall adds, adds_ok rb adds w ->
    exists rb' w', add_all rb adds w = Some (rb', w') /\ ring_buffer__free (Some rb') w' = Some w0
  end.
Proof.
  intros HE Hfd Henv.
  destruct (new_owns w0 ov al page ec fd cb e HE Hfd Henv) as ([errno | rb] & w & -> & Hr); [done |].
  intros adds Hadds. destruct (add_all_owns w0 adds rb w (proj1 Hr) Hadds) as (rb' & w' & E & HO).
  exists rb', w'. split; [done | by apply free_owned].
Qed.

(** ** Polling *)

(** The specification of a poll: each ready ring, in the order [epoll_wait]
    reports, is drained atomically from the log next to it. *)
Fixpoint drain_rings {S} (rs : list (ring S * list record)) (res : Z) (pos : gmap Z Z) (s : S) :
    option (Z * gmap Z Z * S) :=
  match rs with
  | [] => Some (clamp res, pos, s)
  | (r, l) :: rs' =>
    p ← pos !! r_map_fd r;
    let x := drain (r_sample_cb r) l p 0 s in
    let pos := <[r_map_fd r := rr_cons x]> pos in
    if rr_ret x <? 0 then Some (libbpf_err (rr_ret x), pos, rr_state x)
    else drain_rings rs' (res + rr_ret x) pos (rr_state x)
  end.

(** The producers of the rings processed from the [i]-th on. *)
Definition busy_rings {S} (views : nat -> nat -> Z -> ring_view) (Ls : nat -> nat -> Z -> list record)
    (N i : nat) (rs : list (ring S)) (pos : gmap Z Z) : Prop :=
  NoDup (r_map_fd <$> rs) /\
  forall j r, rs !! j = Some r ->
    exists p, pos !! r_map_fd r = Some p /\ producers (r_mask r) (views (i + j)%nat) (Ls (i + j)%nat) p N.

Lemma busy_rings_tail {S} views Ls N i (r : ring S) rs pos p' :
  busy_rings views Ls N i (r :: rs) pos ->
  busy_rings views Ls N (i + 1) rs (<[r_map_fd r := p']> pos).
Proof.
  intros [Hnd HB]. rewrite fmap_cons, NoDup_cons in Hnd. destruct Hnd as [Hin Hnd].
  split; [done |]. intros j x Hx. destruct (HB (Datatypes.S j) x Hx) as (p & Hp & HP). exists p.
  replace (i + 1 + j)%nat with (i + Datatypes.S j)%nat by lia. split; [| done].
  rewrite lookup_insert_ne; [done |]. intros E. apply Hin. rewrite E.
  apply list_elem_of_fmap_2. by eapply list_elem_of_lookup_2.
Qed.

Lemma process_rings_refines {S} views Ls N fuel : (2 * N < fuel)%nat ->
  forall (rs : list (ring S)) i res pos s, busy_rings views Ls N i rs pos ->
  exists snaps out, length snaps = length rs /\
    (forall j l, snaps !! j = Some l -> exists k c, l = Ls (i + j)%nat k c) /\
    process_rings (run_ring views fuel) i rs res pos s = Some out /\
    drain_rings (zip rs snaps) res pos s = Some out.
Proof.
  intros Hfuel. induction rs as [| r rs IH]; intros i res pos s HB.
  { exists []. eexists. split_and!; [done | by intros | done | done]. }
  destruct (proj2 HB 0%nat r eq_refl) as (p & Hp & HP). rewrite Nat.add_0_r in HP.
  destruct (ring_process_linear (r_sample_cb r) _ _ _ _ _ s fuel HP Hfuel) as (k & c & E).
  pose (x := drain (r_sample_cb r) (Ls i k c) p 0 s).
  destruct (IH (i + 1)%nat (res + rr_ret x) (<[r_map_fd r := rr_cons x]> pos) (rr_state x)
    (busy_rings_tail _ _ _ _ _ _ _ _ HB)) as (snaps & out & Hlen & Hsn & E1 & E2).
  exists (Ls i k c :: snaps). cbn [process_rings zip zip_with drain_rings length].
  assert (run_ring views fuel i r p s = Some x) as Hx by exact E.
  rewrite Hp. cbn [mbind option_bind]. rewrite Hx. cbn [mbind option_bind]. fold x.
  exists (if rr_ret x <? 0 then (libbpf_err (rr_ret x), <[r_map_fd r := rr_cons x]> pos, rr_state x) else out).
  split_and!; [by rewrite Hlen | | by destruct (rr_ret x <? 0) | by destruct (rr_ret x <? 0)].
  intros [| j] l Hl; simpl in Hl.
  - injection Hl as <-. rewrite Nat.add_0_r. by eauto.
  - destruct (Hsn j l Hl) as (k' & c' & ->). exists k', c'. f_equal. lia.
Qed.

(** The rings [epoll_wait] reports. *)
Definition reported {S} (rb : ring_buffer S) (ids : list Z) : option (list (ring S)) :=
  mapM (fun id => take (rb_ring_cnt rb) (rb_rings rb) !! Z.to_nat (u32 id)) ids.

(** C35: a poll is a sequence of atomic drains.  When [epoll_wait] reports
    distinct registered rings, [ring_buffer__poll] returns, and its return
    value (the number of samples delivered, at most INT_MAX, or the first
    error of a callback), the consumer positions and the state left by the
    callbacks are those of draining, ring by ring in the reported order, a log
    each ring had at one instant; and [ring_buffer__consume] does the same
    for all rings in registration order. *)
Theorem ring_buffer__poll_refines {S} (rb : ring_buffer S) ids views Ls N fuel rs pos s :
  (2 * N < fuel)%nat ->
  (reported rb ids = Some rs -> busy_rings views Ls N 0 rs pos ->
   exists snaps out, length snaps = length rs /\
     (forall j l, snaps !! j = Some l -> exists k c, l = Ls j k c) /\
     ring_buffer__poll rb (inr ids) views fuel pos s = Some out /\
     drain_rings (zip rs snaps) 0 pos s = Some out) /\
  (take (rb_ring_cnt rb) (rb_rings rb) = rs -> busy_rings views Ls N 0 rs pos ->
   exists snaps out, length snaps = length rs /\
     (forall j l, snaps !! j = Some l -> exists k c, l = Ls j k c) /\
     ring_buffer__consume rb views fuel pos s = Some out /\
     drain_rings (zip rs snaps) 0 pos s = Some out).
Proof.
  intros Hfuel. split.
  - intros Hids HB. unfold ring_buffer__poll. unfold reported in Hids. rewrite Hids.
    cbn [mbind option_bind]. exact (process_rings_refines views Ls N fuel Hfuel rs 0 0 pos s HB).
  - intros <- HB. exact (process_rings_refines views Ls N fuel Hfuel _ 0 0 pos s HB).
Qed.

(** ** A concrete manager *)

Definition sample_env : add_env :=
  {| e_info := inr (BPF_MAP_TYPE_RINGBUF, 64); e_rings_alloc := true; e_events_alloc := true;
     e_mmap_consumer := inr 0x1000; e_mmap_producer := inr 0x2000; e_epoll_ctl := None |}.

Definition sample_world : world := {| w_maps := ∅; w_fds := {[ 0; 1; 2; 3 ]} |}.

Definition sample_rb : ring_buffer (list (list byte)) :=
  {| rb_events := [0];
     rb_rings := [ {| r_sample_cb := collect; r_data := 0x3000; r_consumer_pos := 0x1000;
                      r_producer_pos := 0x2000; r_mask := 63; r_map_fd := 3 |} ];
     rb_page_size := 4096; rb_epoll_fd := 4; rb_ring_cnt := 1 |}.

Lemma sample_env_ok : add_env_ok sample_world sample_env.
Proof.
  split; simpl; try done.
  - intros t m [= <- <-]. lia.
  - intros a [= <-]. done.
  - intros a [= <-]. done.
Qed.

Lemma ring_buffer_lifecycle_witness :
  exists w rb' w', ring_buffer__new true true 4096 (inr 4) 3 collect sample_env sample_world = Some (inr sample_rb, w) /\
    add_all sample_rb [(3, collect, {| e_info := inr (BPF_MAP_TYPE_RINGBUF, 64);
      e_rings_alloc := true; e_events_alloc := true; e_mmap_consumer := inr 0x5000;
      e_mmap_producer := inl 12; e_epoll_ctl := None |})] w = Some (rb', w') /\
    ring_buffer__free (Some rb') w' = Some sample_world.
Proof.
  pose proof (ring_buffer_lifecycle sample_world true true 4096 (inr 4) 3 collect sample_env
    ltac:(intros n [= ]) ltac:(intros n [= <-]; split; [lia | vm_compute; set_solver]) sample_env_ok) as H.
  set (w := {| w_maps := <[0x2000 := 4224]> (<[0x1000 := 4096]> ∅); w_fds := {[ 4 ]} ∪ {[ 0; 1; 2; 3 ]} |}).
  exists w. assert (ring_buffer__new true true 4096 (inr 4) 3 collect sample_env sample_world
    = Some (inr sample_rb, w)) as E by reflexivity.
  rewrite E in H. edestruct H as (rb' & w' & Hadd & Hfree); [| exists rb', w'; split; [exact E | split; [exact Hadd | exact Hfree]]].
  split; [| simpl; done]. split; simpl; try done.
  - intros t m [= <- <-]. lia.
  - intros a [= <-]. done.
  - intros n [= <-]. lia.
Defined.

Lemma ring_buffer__poll_refines_witness :
  exists out, ring_buffer__poll sample_rb (inr [0]) (fun _ _ _ => sample_ring) 7 {[ 3 := 0 ]} [] = Some out.
Proof.
  destruct (ring_buffer__poll_refines sample_rb [0] (fun _ _ _ => sample_ring) (fun _ _ _ => sample_log)
    3 7 (rb_rings sample_rb) {[ 3 := 0 ]} [] ltac:(lia)) as [H _].
  destruct (H eq_refl) as (snaps & out & _ & _ & E & _).
  - split; [apply NoDup_singleton |]. intros [| j] r Hr; [| done]. injection Hr as <-.
    exists 0. split; [done | exact sample_producers].
  - exists out. exact E.
Defined.
