(* ===== verification/UserRingBuf.v ===== *)
(** The user ring buffer of src/lib/libbpf/src/ringbuf.c, the producer side of
    libbpf's ring buffers: [user_ring_buffer__new] and [user_ring_buffer__free],
    [user_ring_buffer__reserve], [user_ring_buffer__submit],
    [user_ring_buffer__discard] and [user_ring_buffer__reserve_blocking].

    The process's mappings and descriptors are the [world] of RingBufMgr.v.
    The data area is one region of memory mapped twice in a row: reads see
    [d ++ d], and a write to either copy changes both.  The consumer position is
    the kernel's: every operation runs with the position it has loaded.
    Pointers into the data area are offsets from its start. *)
From S2P Require Import Prelude.
From S2P Require Import CLib.
From S2P Require Import RingBuf.
From S2P Require Import RingBufMgr.

Definition BPF_MAP_TYPE_USER_RINGBUF : Z := 31.

(** ** Data *)

(** [struct user_ring_buffer]; pointers are addresses, 0 is NULL. *)
Record user_ring_buffer := {
  ub_consumer_pos : Z;
  ub_producer_pos : Z;
  ub_data : Z;
  ub_mask : Z;
  ub_page_size : Z;
  ub_map_fd : Z;
  ub_epoll_fd : Z
}.

(** ** Creation and release *)

Definition user_ringbuf_unmap_ring (rb : user_ring_buffer) (w : world) : option world :=
  w1 ← (if ub_consumer_pos rb =? 0 then Some w else munmap w (ub_consumer_pos rb) (ub_page_size rb));
  if ub_producer_pos rb =? 0 then Some w1
  else munmap w1 (ub_producer_pos rb) (u64 (ub_page_size rb + 2 * (ub_mask rb + 1))).

Definition user_ring_buffer__free (rb : option user_ring_buffer) (w : world) : option world :=
  match rb with
  | None => Some w
  | Some rb =>
    w ← user_ringbuf_unmap_ring rb w;
    if 0 <=? ub_epoll_fd rb then close w (ub_epoll_fd rb) else Some w
  end.

(** The answers of the calls are those of [add_env], of which the two
    allocations are not used. *)
Definition user_ringbuf_map (rb : user_ring_buffer) (map_fd : Z) (e : add_env) (w : world) :
    Z * user_ring_buffer * world :=
  match e_info e with
  | inl errno => (- errno, rb, w)
  | inr (type, max_entries) =>
    if negb (type =? BPF_MAP_TYPE_USER_RINGBUF) then (- EINVAL, rb, w) else
    let set c p d := {| ub_consumer_pos := c; ub_producer_pos := p; ub_data := d;
                        ub_mask := u32 (max_entries - 1); ub_page_size := ub_page_size rb;
                        ub_map_fd := map_fd; ub_epoll_fd := ub_epoll_fd rb |} in
    match e_mmap_consumer e with
    | inl errno => (- errno, set (ub_consumer_pos rb) (ub_producer_pos rb) (ub_data rb), w)
    | inr tmp =>
      let w := mmap_at w tmp (ub_page_size rb) in
      let mmap_sz := u64 (ub_page_size rb + 2 * max_entries) in
      if negb (mmap_sz =? u64 mmap_sz)
      then (- E2BIG_errno, set tmp (ub_producer_pos rb) (ub_data rb), w) else
      match e_mmap_producer e with
      | inl errno => (- errno, set tmp (ub_producer_pos rb) (ub_data rb), w)
      | inr tmp' =>
        let w := mmap_at w tmp' mmap_sz in
        let rb := set tmp tmp' (tmp' + ub_page_size rb) in
        match e_epoll_ctl e with
        | Some errno => (- errno, rb, w)
        | None => (0, rb, w)
        end
      end
    end
  end.

(** The result is the buffer, or the [errno] the caller finds next to NULL. *)
Definition user_ring_buffer__new (opts_valid alloc : bool) (page_size : Z) (epoll_create1 : Z + Z)
    (map_fd : Z) (e : add_env) (w : world) : option ((Z + user_ring_buffer) * world) :=
  if negb opts_valid then Some (inl EINVAL, w) else
  if negb alloc then Some (inl ENOMEM, w) else
  let rb fd := {| ub_consumer_pos := 0; ub_producer_pos := 0; ub_data := 0; ub_mask := 0;
                  ub_page_size := page_size; ub_map_fd := 0; ub_epoll_fd := fd |} in
  match epoll_create1 with
  | inl errno =>
    w ← user_ring_buffer__free (Some (rb (-1))) w;
    Some (inl errno, w)
  | inr fd =>
    let '(err, rb, w) := user_ringbuf_map (rb fd) map_fd e (open_fd w fd) in
    if err =? 0 then Some (inr rb, w) else
    w ← user_ring_buffer__free (Some rb) w;
    Some (inl (- err), w)
  end.

(** ** Samples *)

(** The shared memory: the data area, and the two positions. *)
Record user_ring := { ur_data : list byte; ur_prod : Z; ur_cons : Z }.

(** Writing bytes through the double mapping. *)
Fixpoint ring_write (d : list byte) (off : Z) (bs : list byte) : option (list byte) :=
  match bs with
  | [] => Some d
  | b :: bs' =>
    if (0 <=? off) && (off <? 2 * zlen d)
    then ring_write (<[Z.to_nat (off mod zlen d) := b]> d) (off + 1) bs' else None
  end.

Definition user_ringbuf_commit (rb : user_ring_buffer) (sample : Z) (discard : bool) (u : user_ring) :
    option user_ring :=
  let hdr_offset := u64 (ub_mask rb + 1 + sample - BPF_RINGBUF_HDR_SZ) in
  let hdr := Z.land hdr_offset (ub_mask rb) in
  len ← load32 (ur_data u ++ ur_data u) hdr;
  let new_len := Z.land len (u32 (Z.lnot BPF_RINGBUF_BUSY_BIT)) in
  let new_len := if discard then Z.lor new_len BPF_RINGBUF_DISCARD_BIT else new_len in
  d ← ring_write (ur_data u) hdr (le_split 4 new_len);
  Some {| ur_data := d; ur_prod := ur_prod u; ur_cons := ur_cons u |}.

Definition user_ring_buffer__discard (rb : user_ring_buffer) (sample : Z) (u : user_ring) : option user_ring :=
  user_ringbuf_commit rb sample true u.

Definition user_ring_buffer__submit (rb : user_ring_buffer) (sample : Z) (u : user_ring) : option user_ring :=
  user_ringbuf_commit rb sample false u.

(** [inl] is NULL with the [errno] that was set. *)
Definition user_ring_buffer__reserve (rb : user_ring_buffer) (size : Z) (u : user_ring) :
    option ((Z + Z) * user_ring) :=
  if c_true (Z.land size (Z.lor BPF_RINGBUF_BUSY_BIT BPF_RINGBUF_DISCARD_BIT)) then Some (inl E2BIG_errno, u) else
  let cons_pos := ur_cons u in
  let prod_pos := ur_prod u in
  let max_size := u32 (ub_mask rb + 1) in
  let avail_size := u32 (max_size - u64 (prod_pos - cons_pos)) in
  let total_size := u32 (u32 (size + BPF_RINGBUF_HDR_SZ + 7) / 8 * 8) in
  if max_size <? total_size then Some (inl E2BIG_errno, u) else
  if avail_size <? total_size then Some (inl ENOSPC, u) else
  let hdr := Z.land prod_pos (ub_mask rb) in
  d ← ring_write (ur_data u) hdr (le_split 4 (Z.lor size BPF_RINGBUF_BUSY_BIT));
  d ← ring_write d (hdr + 4) (le_split 4 0);
  Some (inr (Z.land (u64 (prod_pos + BPF_RINGBUF_HDR_SZ)) (ub_mask rb)),
        {| ur_data := d; ur_prod := u64 (prod_pos + total_size); ur_cons := ur_cons u |}).

(** ** Blocking *)

Record timespec := { ts_sec : Z; ts_nsec : Z }.

Definition ns_elapsed_timespec (start stop : timespec) : Z :=
  let ns_per_s := 1000000000 in
  let start_ns := u64 (u64 (u64 (ts_sec start) * ns_per_s) + ts_nsec start) in
  let end_ns := u64 (u64 (u64 (ts_sec stop) * ns_per_s) + ts_nsec stop) in
  u64 (end_ns - start_ns).

(** One turn of the loop as the environment answers it: the consumer position
    that is loaded, what [epoll_wait] returns for the time left ([Some errno]
    when it fails), and the clock afterwards. *)
Record attempt := {
  at_cons : Z;
  at_epoll : Z -> option Z;
  at_clock : Z + timespec
}.

Definition see (u : user_ring) (a : attempt) : user_ring :=
  {| ur_data := ur_data u; ur_prod := ur_prod u; ur_cons := at_cons a |}.

(** The [do] loop and the last attempt behind it; [continue] goes to the test
    of the loop.  [None] also stands for a call that is still waiting when the
    answers end. *)
Fixpoint reserve_loop (rb : user_ring_buffer) (size timeout_ms : Z) (start : timespec) (ms_remaining : Z)
    (answers : list attempt) (u : user_ring) : option ((Z + Z) * user_ring) :=
  match answers with
  | [] => None
  | a :: answers' =>
    '(r, u) ← user_ring_buffer__reserve rb size (see u a);
    match r with
    | inr sample => Some (inr sample, u)
    | inl errno =>
      if negb (errno =? ENOSPC) then Some (inl errno, u) else
      match at_epoll a ms_remaining with
      | Some errno => Some (inl errno, u)
      | None =>
        let next ms_remaining :=
          if 0 <? ms_remaining then reserve_loop rb size timeout_ms start ms_remaining answers' u
          else match answers' with
               | [] => None
               | b :: _ => user_ring_buffer__reserve rb size (see u b)
               end in
        if timeout_ms =? -1 then next ms_remaining else
        match at_clock a with
        | inl errno => Some (inl errno, u)
        | inr curr =>
          let ms_elapsed := s32 (ns_elapsed_timespec start curr / 1000000) in
          next (s32 (timeout_ms - ms_elapsed))
        end
      end
    end
  end.

Definition user_ring_buffer__reserve_blocking (rb : user_ring_buffer) (size timeout_ms : Z)
    (start : Z + timespec) (answers : list attempt) (u : user_ring) : option ((Z + Z) * user_ring) :=
  if (timeout_ms <? 0) && negb (timeout_ms =? -1) then Some (inl EINVAL, u) else
  if timeout_ms =? -1
  then reserve_loop rb size timeout_ms {| ts_sec := 0; ts_nsec := 0 |} timeout_ms answers u
  else match start with
       | inl errno => Some (inl errno, u)
       | inr start => reserve_loop rb size timeout_ms start timeout_ms answers u
       end.

(** ** Resources *)

(** Releasing a buffer that owns its descriptor, and one or both or none of
    its mappings. *)
Lemma user_free_owned w0 fd rb (c p : bool) :
  0 <= fd -> fd ∉ w_fds w0 -> ub_epoll_fd rb = fd ->
  (if c then ub_consumer_pos rb <> 0 /\ w_maps w0 !! ub_consumer_pos rb = None else ub_consumer_pos rb = 0) ->
  (if p then ub_producer_pos rb <> 0 /\ w_maps w0 !! ub_producer_pos rb = None else ub_producer_pos rb = 0) ->
  ub_consumer_pos rb <> ub_producer_pos rb \/ c = false ->
  let w := open_fd w0 fd in
  let w := if c then mmap_at w (ub_consumer_pos rb) (ub_page_size rb) else w in
  let w := if p then mmap_at w (ub_producer_pos rb) (u64 (ub_page_size rb + 2 * (ub_mask rb + 1))) else w in
  user_ring_buffer__free (Some rb) w = Some w0.
Proof.
  intros Hfd Hfresh Efd Hc Hp Hne. cbv zeta. unfold user_ring_buffer__free, user_ringbuf_unmap_ring.
  set (a := ub_consumer_pos rb) in *. set (b := ub_producer_pos rb) in *.
  assert (forall ms, ms = w_maps w0 -> close {| w_maps := ms; w_fds := {[ fd ]} ∪ w_fds w0 |} fd = Some w0) as Hclose.
  { intros ms ->. unfold close. cbn [w_fds w_maps]. rewrite decide_True by set_solver.
    f_equal. destruct w0; simpl in *. f_equal. set_solver. }
  rewrite Efd, (proj2 (Z.leb_le 0 fd) Hfd).
  destruct c; [destruct Hc as [Ha Ea]; rewrite (proj2 (Z.eqb_neq a 0) Ha) | rewrite Hc; cbn [Z.eqb]];
    (destruct p; [destruct Hp as [Hb Eb]; rewrite (proj2 (Z.eqb_neq b 0) Hb) | rewrite Hp; cbn [Z.eqb]]).
  - assert (a <> b) as Hab by (destruct Hne; done).
    rewrite munmap_owned by (simpl; rewrite lookup_insert_ne by done; apply lookup_insert_eq).
    cbn [mbind option_bind mmap_at w_maps w_fds open_fd].
    rewrite munmap_owned by (simpl; rewrite lookup_delete_ne by done; apply lookup_insert_eq).
    cbn [mbind option_bind w_maps w_fds]. apply Hclose.
    rewrite (delete_insert_ne _ a) by done. rewrite (delete_insert_id (w_maps w0)) by done. by apply delete_insert_id.
  - rewrite munmap_owned by (apply lookup_insert_eq). cbn [mbind option_bind mmap_at w_maps w_fds open_fd].
    apply Hclose. by apply delete_insert_id.
  - cbn [mbind option_bind]. rewrite munmap_owned by (apply lookup_insert_eq).
    cbn [mbind option_bind mmap_at w_maps w_fds open_fd]. apply Hclose. by apply delete_insert_id.
  - cbn [mbind option_bind open_fd]. by apply Hclose.
Qed.

(** What [user_ringbuf_map] leaves, on every path: the mappings it made are
    the ones the buffer records, and an error is negative. *)
Lemma user_map_paths w0 fd page map_fd e :
  add_env_ok w0 e ->
  let '(err, rb, w) := user_ringbuf_map {| ub_consumer_pos := 0; ub_producer_pos := 0; ub_data := 0; ub_mask := 0;
      ub_page_size := page; ub_map_fd := 0; ub_epoll_fd := fd |} map_fd e (open_fd w0 fd) in
  exists c p : bool,
    ub_epoll_fd rb = fd /\
    (if c then ub_consumer_pos rb <> 0 /\ w_maps w0 !! ub_consumer_pos rb = None else ub_consumer_pos rb = 0) /\
    (if p then ub_producer_pos rb <> 0 /\ w_maps w0 !! ub_producer_pos rb = None else ub_producer_pos rb = 0) /\
    (ub_consumer_pos rb <> ub_producer_pos rb \/ c = false) /\
    w = (let w := open_fd w0 fd in
         let w := if c then mmap_at w (ub_consumer_pos rb) (ub_page_size rb) else w in
         if p then mmap_at w (ub_producer_pos rb) (u64 (ub_page_size rb + 2 * (ub_mask rb + 1))) else w) /\
    (err < 0 \/ err = 0 /\ c = true /\ p = true).
Proof.
  intros [Hinfo Hsize HcE Hc HpE Hp Hctl]. unfold user_ringbuf_map.
  destruct (e_info e) as [n | [t m]].
  { specialize (Hinfo n eq_refl). exists false, false. split_and!; try done; [by right | lia]. }
  specialize (Hsize t m eq_refl).
  destruct (t =? _); cbn [negb]; [| exists false, false; split_and!; try done; [by right | by left]].
  destruct (e_mmap_consumer e) as [n | a].
  { specialize (HcE n eq_refl). exists false, false. split_and!; try done; [by right | lia]. }
  destruct (Hc a eq_refl) as [Ha Ea]. rewrite u64_u64, Z.eqb_refl. cbn [negb].
  destruct (e_mmap_producer e) as [n | b].
  { specialize (HpE n eq_refl). exists true, false. split_and!; try done; [by left | lia]. }
  destruct (Hp b eq_refl) as (Hb & Eb & Hab). assert (a <> b) as Hne by congruence.
  assert (u64 (page + 2 * m) = u64 (page + 2 * (u32 (m - 1) + 1))) as Em by (by rewrite ring_size).
  destruct (e_epoll_ctl e) as [n |]; cbn [ub_page_size]; rewrite Em; exists true, true; split_and!; try done;
    [by left | specialize (Hctl n eq_refl); lia | by left | by right].
Qed.

(** The resources of a user ring buffer.  Whatever the system calls answer,
    [user_ring_buffer__new] either fails with a positive [errno] and leaves the
    mappings and descriptors of the process as they were, or returns a buffer
    that [user_ring_buffer__free] releases without leaving anything behind. *)
Theorem user_ring_buffer_lifecycle w0 ov al page ec map_fd e :
  (forall n, ec = inl n -> 0 < n) -> (forall epfd, ec = inr epfd -> 0 <= epfd /\ epfd ∉ w_fds w0) ->
  add_env_ok w0 e ->
  match user_ring_buffer__new ov al page ec map_fd e w0 with
  | None => False
  | Some (inl errno, w) => 0 < errno /\ w = w0
  | Some (inr rb, w) => user_ring_buffer__free (Some rb) w = Some w0
  end.
Proof.
  intros HE Hfd Henv. unfold user_ring_buffer__new.
  destruct ov; cbn [negb]; [| done]. destruct al; cbn [negb]; [| done].
  destruct ec as [n | fd]; [split; [by apply HE | done] |].
  destruct (Hfd fd eq_refl) as [H0 Hfresh]. pose proof (user_map_paths w0 fd page map_fd e Henv) as HM.
  destruct (user_ringbuf_map _ _ _ _) as [[err rb] w]. destruct HM as (c & p & E1 & E2 & E3 & E4 & Ew & Herr).
  pose proof (user_free_owned w0 fd rb c p H0 Hfresh E1 E2 E3 E4) as HF. cbv zeta in HF, Ew. rewrite <- Ew in HF.
  destruct Herr as [Herr | (-> & _)]; [| done].
  rewrite (proj2 (Z.eqb_neq err 0)) by lia. rewrite HF. cbn [mbind option_bind]. split; [lia | done].
Qed.

(** ** The doubly mapped area *)

(** The byte behind the position [a], which counts all bytes ever produced. *)
Definition rget (d : list byte) (a : Z) : option byte := d !! Z.to_nat (a mod zlen d).

(** The bytes [bs] are at the positions from [a] on. *)
Definition chunk (d : list byte) (a : Z) (bs : list byte) : Prop :=
  forall (j : nat) b, bs !! j = Some b -> rget d (a + Z.of_nat j) = Some b.

Lemma rget_mod d a b : a mod zlen d = b mod zlen d -> rget d a = rget d b.
Proof. unfold rget. by intros ->. Qed.

Lemma lookup_double (d : list byte) o :
  0 <= o < 2 * zlen d -> (d ++ d) !! Z.to_nat o = rget d o.
Proof.
  intros Ho. unfold rget. unfold zlen in *.
  destruct (decide (o < Z.of_nat (length d))) as [Hlt | Hge].
  - rewrite lookup_app_l by lia. by rewrite Z.mod_small by lia.
  - rewrite lookup_app_r by lia. replace (o mod Z.of_nat (length d)) with (o - Z.of_nat (length d)).
    + f_equal. lia.
    + apply (Z.mod_unique_pos _ _ 1); lia.
Qed.

(** Reading through the double mapping, at an offset that stands for the
    position [a]. *)
Lemma chunk_read d a o bs : 0 <= o -> o + zlen bs <= 2 * zlen d -> o mod zlen d = a mod zlen d ->
  chunk d a bs -> bytes_at (d ++ d) o (length bs) = Some bs.
Proof.
  intros Ho Hn Hmod HC. rewrite bytes_at_Some by (rewrite ?zlen_app; unfold zlen in *; lia).
  f_equal. apply list_eq. intros j. destruct (decide (j < length bs)%nat) as [Hj |].
  - rewrite lookup_take_lt, lookup_drop by done.
    replace (Z.to_nat o + j)%nat with (Z.to_nat (o + Z.of_nat j)) by lia.
    rewrite lookup_double by (unfold zlen in *; lia). destruct (lookup_lt_is_Some_2 bs j Hj) as [b E].
    rewrite E, <- (HC j b E). apply rget_mod. rewrite <- Zplus_mod_idemp_l, Hmod. by rewrite Zplus_mod_idemp_l.
  - rewrite lookup_take_ge by lia. symmetry. apply lookup_ge_None. lia.
Qed.

Lemma chunk_exists d a n : 0 < zlen d -> exists bs, zlen bs = Z.of_nat n /\ chunk d a bs.
Proof.
  intros Hd. assert (forall x, is_Some (rget d x)) as Hget.
  { intros x. apply lookup_lt_is_Some. pose proof (Z.mod_pos_bound x (zlen d) Hd). unfold zlen in *. lia. }
  induction n as [| n IH]; [by exists [] |]. destruct IH as (bs & Hl & HC).
  destruct (Hget (a + Z.of_nat n)) as [b Hb]. exists (bs ++ [b]). split; [rewrite zlen_app, zlen_cons, zlen_nil; lia |].
  intros j x [Hj | [? Hj]]%lookup_app_Some; [by apply HC |].
  apply list_lookup_singleton_Some in Hj as [Hj <-]. replace j with n by (unfold zlen in *; lia). done.
Qed.

(** Two positions less than the size apart are different bytes. *)
Lemma window_inj N c x y : 0 < N -> c <= x < c + N -> c <= y < c + N -> x mod N = y mod N -> x = y.
Proof.
  intros HN Hx Hy E. pose proof (Z.div_mod x N ltac:(lia)). pose proof (Z.div_mod y N ltac:(lia)).
  assert (x / N = y / N) by nia. nia.
Qed.

Lemma rget_insert d o x b : 0 < zlen d ->
  rget (<[Z.to_nat (o mod zlen d) := b]> d) x = if decide (x mod zlen d = o mod zlen d) then Some b else rget d x.
Proof.
  intros Hd. unfold rget. unfold zlen at 1. rewrite length_insert. fold (zlen d).
  pose proof (Z.mod_pos_bound x (zlen d) Hd). pose proof (Z.mod_pos_bound o (zlen d) Hd).
  case_decide as E.
  - rewrite E. apply list_lookup_insert_eq. unfold zlen in *. lia.
  - apply list_lookup_insert_ne. lia.
Qed.

(** Writing [bs] through the double mapping at an offset that stands for the
    position [a]: the positions from [a] on hold [bs], and every other
    position of a window of the size of the ring keeps its byte. *)
Lemma ring_write_at bs : forall d o a c,
  0 < zlen d -> 0 <= o -> o + zlen bs <= 2 * zlen d -> o mod zlen d = a mod zlen d ->
  c <= a -> a + zlen bs <= c + zlen d ->
  exists d', ring_write d o bs = Some d' /\ zlen d' = zlen d /\ chunk d' a bs /\
    forall x, c <= x < c + zlen d -> ~ (a <= x < a + zlen bs) -> rget d' x = rget d x.
Proof.
  induction bs as [| b bs IH]; intros d o a c Hd Ho Hob Hmod Hca Hac; cbn [ring_write].
  { exists d. split_and!; try done. }
  rewrite zlen_cons in *. pose proof (zlen_nonneg bs).
  rewrite (proj2 (Z.leb_le 0 o)), (proj2 (Z.ltb_lt o (2 * zlen d))) by lia. cbn [andb].
  set (d1 := <[Z.to_nat (o mod zlen d) := b]> d).
  assert (zlen d1 = zlen d) as Hl by (unfold d1, zlen; by rewrite length_insert).
  destruct (IH d1 (o + 1) (a + 1) c) as (d' & E & Hl' & HC & HF); rewrite ?Hl; try lia.
  { by rewrite <- (Zplus_mod_idemp_l o), Hmod, Zplus_mod_idemp_l. }
  rewrite Hl in HF. exists d'. split_and!; [done | lia | |].
  - intros [| j] x Hj; simpl in Hj.
    + injection Hj as ->. rewrite Z.add_0_r, HF by lia. unfold d1. rewrite rget_insert by done.
      by rewrite decide_True by done.
    + rewrite <- (HC j x Hj). f_equal. lia.
  - intros x Hx Hn. rewrite HF by lia. unfold d1. rewrite rget_insert by done.
    rewrite decide_False; [done |]. intros E'. apply Hn. rewrite Hmod in E'.
    rewrite (window_inj (zlen d) c x a) by lia. lia.
Qed.

(** ** The log of records behind the area *)

Definition sample_ok (r : record) : Prop := record_ok r /\ (r_busy r = true -> r_discard r = false).

Fixpoint held (d : list byte) (pos : Z) (rs : list record) : Prop :=
  match rs with
  | [] => True
  | r :: rs' =>
    sample_ok r /\ chunk d pos (le_split 4 (rec_word r)) /\ chunk d (pos + 8) (r_payload r) /\
    held d (pos + rec_size r) rs'
  end.

(** The ring [u] of [rb] holds the records [l], the oldest of them at the
    kernel's position. *)
Record holds (rb : user_ring_buffer) (u : user_ring) (l : list record) : Prop := {
  ho_size : zlen (ur_data u) = ub_mask rb + 1;
  ho_recs : held (ur_data u) (ur_cons u) l;
  ho_prod : ur_prod u = ur_cons u + log_size l;
  ho_fits : log_size l <= ub_mask rb + 1;
  ho_pos : 0 <= ur_cons u /\ ur_prod u < 2 ^ 64;
  ho_align : ur_cons u mod 8 = 0
}.

(** A map's size is a power of two, at least eight, that fits in 32 bits. *)
Definition power_of_two_size (rb : user_ring_buffer) : Prop :=
  exists k, 3 <= k < 32 /\ ub_mask rb = 2 ^ k - 1.

(** What a client and the kernel do with the ring.  [Fill] is the client's
    write to its sample, [Consume] the kernel's release of bytes. *)
Inductive user_op :=
| Reserve (size : Z)
| Fill (sample off : Z) (bs : list byte)
| Commit (sample : Z) (discard : bool)
| Consume (n : Z).

Definition user_step (rb : user_ring_buffer) (o : user_op) (u : user_ring) : option ((Z + Z) * user_ring) :=
  match o with
  | Reserve size => user_ring_buffer__reserve rb size u
  | Fill sample off bs =>
    d ← ring_write (ur_data u) (sample + off) bs;
    Some (inr 0, {| ur_data := d; ur_prod := ur_prod u; ur_cons := ur_cons u |})
  | Commit sample discard =>
    u ← (if discard then user_ring_buffer__discard rb sample u else user_ring_buffer__submit rb sample u);
    Some (inr 0, u)
  | Consume n => Some (inr 0, {| ur_data := ur_data u; ur_prod := ur_prod u; ur_cons := u64 (ur_cons u + n) |})
  end.

(** The pointer to the sample of the record at [pos]. *)
Definition sample_at (rb : user_ring_buffer) (pos : Z) : Z := Z.land (pos + 8) (ub_mask rb).

Definition reserved (size : Z) (bs : list byte) : record :=
  {| r_len := size; r_busy := true; r_discard := false; r_payload := bs |}.
Definition filled (r : record) (off : Z) (bs : list byte) : record :=
  {| r_len := r_len r; r_busy := r_busy r; r_discard := r_discard r;
     r_payload := take (Z.to_nat off) (r_payload r) ++ bs ++ drop (Z.to_nat off + length bs) (r_payload r) |}.
Definition committed (r : record) (discard : bool) : record :=
  {| r_len := r_len r; r_busy := false; r_discard := discard; r_payload := r_payload r |}.

(** What the operations promise, on the log: the kernel's position and the
    records from there on. *)
Inductive spec_step (rb : user_ring_buffer) : Z * list record -> user_op -> Z + Z -> Z * list record -> Prop :=
| sp_reserve c l size bs :
    size < 2 ^ 30 -> zlen bs = size -> log_size (l ++ [reserved size bs]) <= ub_mask rb + 1 ->
    spec_step rb (c, l) (Reserve size) (inr (sample_at rb (c + log_size l))) (c, l ++ [reserved size bs])
| sp_big c l size :
    2 ^ 30 <= size \/ ub_mask rb + 1 < rec_size (reserved size []) ->
    spec_step rb (c, l) (Reserve size) (inl E2BIG_errno) (c, l)
| sp_full c l size :
    size < 2 ^ 30 -> rec_size (reserved size []) <= ub_mask rb + 1 ->
    ub_mask rb + 1 < log_size (l ++ [reserved size []]) ->
    spec_step rb (c, l) (Reserve size) (inl ENOSPC) (c, l)
| sp_fill c pre r post off bs :
    r_busy r = true -> 0 <= off -> off + zlen bs <= r_len r ->
    spec_step rb (c, pre ++ r :: post) (Fill (sample_at rb (c + log_size pre)) off bs) (inr 0)
      (c, pre ++ filled r off bs :: post)
| sp_commit c pre r post discard :
    r_busy r = true ->
    spec_step rb (c, pre ++ r :: post) (Commit (sample_at rb (c + log_size pre)) discard) (inr 0)
      (c, pre ++ committed r discard :: post)
| sp_consume c pre post :
    Forall (fun r => r_busy r = false) pre ->
    spec_step rb (c, pre ++ post) (Consume (log_size pre)) (inr 0) (c + log_size pre, post).

(** The steps a correct client and the kernel make: they touch only samples
    that are reserved and not yet committed, inside their bounds, and release
    only committed records.  The positions stay below [2 ^ 64]. *)
Inductive legal (rb : user_ring_buffer) : Z * list record -> user_op -> Prop :=
| le_reserve c l size : 0 <= size < 2 ^ 32 -> c + log_size l < 2 ^ 64 - 2 ^ 31 -> legal rb (c, l) (Reserve size)
| le_fill c pre r post off bs :
    r_busy r = true -> 0 <= off -> off + zlen bs <= r_len r ->
    legal rb (c, pre ++ r :: post) (Fill (sample_at rb (c + log_size pre)) off bs)
| le_commit c pre r post discard :
    r_busy r = true -> legal rb (c, pre ++ r :: post) (Commit (sample_at rb (c + log_size pre)) discard)
| le_consume c pre post :
    Forall (fun r => r_busy r = false) pre -> legal rb (c, pre ++ post) (Consume (log_size pre)).

Lemma chunk_frame d d' a bs : chunk d a bs ->
  (forall x, a <= x < a + zlen bs -> rget d' x = rget d x) -> chunk d' a bs.
Proof.
  intros HC HF j b Hj. rewrite HF; [by apply HC |]. apply lookup_lt_Some in Hj. unfold zlen. lia.
Qed.

Lemma rec_size_bounds r : record_ok r ->
  r_len r + 8 <= rec_size r < r_len r + 16 /\ rec_size r mod 8 = 0 /\ zlen (r_payload r) = r_len r.
Proof.
  intros [Hl Hp]. unfold rec_size. split; [| split; [apply Z.mod_mul; lia | done]].
  Z.to_euclidean_division_equations; lia.
Qed.

Lemma held_log_size d rs : forall pos, held d pos rs -> 0 <= log_size rs /\ log_size rs mod 8 = 0.
Proof.
  induction rs as [| r rs IH]; intros pos; simpl; [done |]. intros ([Hr _] & _ & _ & H).
  apply IH in H as [H0 H8]. destruct (rec_size_bounds r Hr) as (? & Hm & _). destruct Hr.
  split; [lia |]. rewrite Z.add_mod, Hm, H8 by lia. done.
Qed.

Lemma held_app d rs1 rs2 : forall pos,
  held d pos (rs1 ++ rs2) <-> held d pos rs1 /\ held d (pos + log_size rs1) rs2.
Proof.
  induction rs1 as [| r rs1 IH]; intros pos; simpl; [rewrite Z.add_0_r; tauto |].
  rewrite IH, Z.add_assoc. tauto.
Qed.

Lemma held_frame d d' rs : forall pos, held d pos rs ->
  (forall x, pos <= x < pos + log_size rs -> rget d' x = rget d x) -> held d' pos rs.
Proof.
  induction rs as [| r rs IH]; intros pos; simpl; [done |]. intros (Hr & Hh & Hp & Hrs) HF.
  destruct (rec_size_bounds r (proj1 Hr)) as ([H1 _] & _ & H2). pose proof (held_log_size _ _ _ Hrs) as [H3 _].
  destruct Hr as [[? ?] ?]. split_and!; [by split | | |].
  - apply (chunk_frame d); [done |]. intros x Hx. rewrite zlen_le_split in Hx. apply HF. lia.
  - apply (chunk_frame d); [done |]. intros x Hx. apply HF. lia.
  - apply IH; [done |]. intros x Hx. apply HF. lia.
Qed.

Lemma chunk_app d a x y : chunk d a (x ++ y) <-> chunk d a x /\ chunk d (a + zlen x) y.
Proof.
  split.
  - intros H. split; intros j b Hj; [apply H; by apply lookup_app_l_Some |].
    rewrite <- Z.add_assoc. replace (zlen x + Z.of_nat j) with (Z.of_nat (length x + j)) by (unfold zlen; lia).
    apply H. rewrite lookup_app_r by lia. by replace (length x + j - length x)%nat with j by lia.
  - intros [Hx Hy] j b [Hj | [Hl Hj]]%lookup_app_Some; [by apply Hx |].
    apply Hy in Hj. rewrite <- Hj. f_equal. unfold zlen. lia.
Qed.

(** Changing one record in place. *)
Lemma holds_replace rb u pre r post d' r' :
  let p := ur_cons u + log_size pre in
  holds rb u (pre ++ r :: post) -> zlen d' = zlen (ur_data u) -> r_len r' = r_len r -> sample_ok r' ->
  chunk d' p (le_split 4 (rec_word r')) -> chunk d' (p + 8) (r_payload r') ->
  (forall x, ur_cons u <= x < ur_cons u + zlen (ur_data u) -> ~ (p <= x < p + rec_size r) ->
     rget d' x = rget (ur_data u) x) ->
  holds rb {| ur_data := d'; ur_prod := ur_prod u; ur_cons := ur_cons u |} (pre ++ r' :: post).
Proof.
  intros p [Hs Hr Hp Hf Hpos Ha] Hd Hlen Hok Hh Hpl HF.
  assert (rec_size r' = rec_size r) as Hsz by (unfold rec_size; by rewrite Hlen).
  rewrite log_size_app in Hp, Hf. simpl in Hp, Hf. apply held_app in Hr as [Hpre Hr]. simpl in Hr.
  destruct Hr as ([Hrok _] & _ & _ & Hpost). pose proof (rec_size_pos r Hrok).
  pose proof (held_log_size _ _ _ Hpre) as [? _]. pose proof (held_log_size _ _ _ Hpost) as [? _].
  split; cbn [ur_data ur_prod ur_cons]; rewrite ?log_size_app; simpl; try lia.
  apply held_app. fold p. split; [| simpl; rewrite Hsz; split_and!; try done].
  - apply (held_frame (ur_data u)); [done |]. intros x Hx. apply HF; unfold p; lia.
  - apply (held_frame (ur_data u)); [done |]. fold p in Hpost. intros x Hx. apply HF; unfold p in *; lia.
Qed.

Section Ring.
Context (rb : user_ring_buffer) (Hrb : power_of_two_size rb).

Lemma ring_land x : Z.land x (ub_mask rb) = x mod (ub_mask rb + 1).
Proof.
  destruct Hrb as (k & Hk & ->). replace (2 ^ k - 1) with (Z.ones k) by (rewrite Z.ones_equiv; lia).
  rewrite Z.land_ones by lia. f_equal. rewrite Z.ones_equiv. lia.
Qed.

Lemma ring_bounds : 8 <= ub_mask rb + 1 < 2 ^ 32 /\ (ub_mask rb + 1) mod 8 = 0.
Proof.
  destruct Hrb as (k & Hk & ->). pose proof (Z.pow_le_mono_r 2 3 k). pose proof (Z.pow_lt_mono_r 2 k 32).
  split; [lia |]. replace (2 ^ k - 1 + 1) with (2 ^ (k - 3) * 2 ^ 3); [apply Z.mod_mul; lia |].
  rewrite <- Z.pow_add_r by lia. replace (k - 3 + 3) with k by lia. lia.
Qed.

Lemma held_header d pos r : 4 <= zlen d -> record_ok r ->
  chunk d pos (le_split 4 (rec_word r)) -> load32 (d ++ d) (pos mod zlen d) = Some (rec_word r).
Proof.
  intros Hd Hr HC. pose proof (Z.mod_pos_bound pos (zlen d)).
  apply (chunk_read _ _ (pos mod zlen d)) in HC; [| lia | rewrite zlen_le_split; lia | apply Z.mod_mod; lia].
  rewrite length_le_split in HC. unfold load. rewrite HC. simpl fmap. f_equal.
  rewrite le_combine_split. apply Z.mod_small. exact (rec_word_range r Hr).
Qed.

(** What the records of the ring look like to a consumer. *)
Lemma holds_laid u l : holds rb u l ->
  laid (ub_mask rb) {| rv_data := ur_data u ++ ur_data u; rv_prod := ur_prod u |} (ur_cons u) l.
Proof.
  intros [Hs Hr Hp Hf _ _]. pose proof ring_bounds as [HN _]. revert Hr Hp.
  generalize (ur_cons u) as pos. induction l as [| r l IH]; intros pos Hr Hp; simpl in *; [lia |].
  destruct Hr as (Hr & Hh & Hpl & Hrs). destruct (rec_size_bounds r (proj1 Hr)) as ([H1 _] & _ & H2).
  pose proof (held_log_size _ _ _ Hrs) as [H3 _]. pose proof (proj1 (proj1 Hr)). rewrite ring_land, <- Hs. split_and!.
  - apply held_header; [lia | exact (proj1 Hr) | done].
  - intros _ _. replace (Z.to_nat (r_len r)) with (length (r_payload r)) by (unfold zlen in H2; lia).
    pose proof (Z.mod_pos_bound pos (zlen (ur_data u))).
    apply (chunk_read _ (pos + 8)); [lia | lia | by rewrite Zplus_mod_idemp_l | done].
  - apply IH; [lia | done | lia].
Qed.
(** The offset of a record's sample, and of its header computed back from it. *)
Lemma sample_at_mod pos : sample_at rb pos = (pos + 8) mod (ub_mask rb + 1).
Proof. apply ring_land. Qed.

Lemma commit_header pos :
  Z.land (u64 (ub_mask rb + 1 + sample_at rb pos - BPF_RINGBUF_HDR_SZ)) (ub_mask rb) = pos mod (ub_mask rb + 1).
Proof.
  pose proof ring_bounds as [HN _]. rewrite sample_at_mod, ring_land. set (N := ub_mask rb + 1) in *.
  pose proof (Z.mod_pos_bound (pos + 8) N ltac:(lia)). unfold BPF_RINGBUF_HDR_SZ. rewrite u64_id by lia.
  replace (N + (pos + 8) mod N - 8) with ((pos + 8) mod N + (N - 8)) by lia.
  rewrite Zplus_mod_idemp_l. replace (pos + 8 + (N - 8)) with (pos + 1 * N) by lia. apply Z.mod_add. lia.
Qed.

Lemma lor_pow2 a n : 0 <= n -> 0 <= a < 2 ^ n -> Z.lor a (2 ^ n) = a + 2 ^ n.
Proof.
  intros Hn Ha. rewrite <- Z.add_lor_land, land_pow2_testbit by done.
  replace (Z.testbit a n) with false; [lia |]. symmetry.
  apply Z.b2z_inj. rewrite Z.testbit_spec' by lia. by rewrite Z.div_small.
Qed.

Lemma commit_word r discard : sample_ok r -> r_busy r = true ->
  (let w := Z.land (rec_word r) (u32 (Z.lnot BPF_RINGBUF_BUSY_BIT)) in
   if discard : bool then Z.lor w BPF_RINGBUF_DISCARD_BIT else w) = rec_word (committed r discard).
Proof.
  intros [[Hl _] Hd] Hb. specialize (Hd Hb). cbv zeta.
  replace (u32 (Z.lnot BPF_RINGBUF_BUSY_BIT)) with (Z.ones 31) by reflexivity.
  rewrite Z.land_ones by lia. unfold rec_word. rewrite Hb, Hd. cbn [committed r_len r_busy r_discard].
  unfold BPF_RINGBUF_BUSY_BIT, BPF_RINGBUF_DISCARD_BIT.
  replace ((r_len r + 2 ^ 31 + 0) mod 2 ^ 31) with (r_len r) by (apply (Z.mod_unique_pos _ _ 1); lia).
  destruct discard; [rewrite lor_pow2 by lia |]; lia.
Qed.

Lemma held_middle d pos pre r post : held d pos (pre ++ r :: post) ->
  sample_ok r /\ chunk d (pos + log_size pre) (le_split 4 (rec_word r)) /\
  chunk d (pos + log_size pre + 8) (r_payload r) /\ 0 <= log_size pre /\ 0 <= log_size post /\
  log_size (pre ++ r :: post) = log_size pre + rec_size r + log_size post.
Proof.
  intros [Hpre (Hok & Hh & Hp & Hpost)]%held_app. rewrite log_size_app. simpl.
  pose proof (held_log_size _ _ _ Hpre) as [? _]. pose proof (held_log_size _ _ _ Hpost) as [? _].
  split_and!; try done. lia.
Qed.

Lemma commit_refines u pre r post discard :
  holds rb u (pre ++ r :: post) -> r_busy r = true ->
  exists u', user_ringbuf_commit rb (sample_at rb (ur_cons u + log_size pre)) discard u = Some u' /\
    ur_cons u' = ur_cons u /\ holds rb u' (pre ++ committed r discard :: post).
Proof.
  intros HH Hb. destruct (held_middle _ _ _ _ _ (ho_recs _ _ _ HH)) as (Hok & Hh & Hp & H1 & H2 & Hsz).
  pose proof ring_bounds as [HN _]. destruct (ho_pos _ _ _ HH) as [Hc Hlt]. pose proof (ho_size _ _ _ HH) as Hs.
  pose proof (ho_fits _ _ _ HH) as Hf. destruct (rec_size_bounds r (proj1 Hok)) as (Hrs & _ & Hpl).
  pose proof (proj1 (proj1 Hok)) as Hlen. set (pos := ur_cons u + log_size pre) in *.
  unfold user_ringbuf_commit. rewrite commit_header, <- Hs. rewrite (held_header _ _ r) by (lia || done || exact (proj1 Hok)).
  cbn [mbind option_bind]. pose proof (commit_word r discard Hok Hb) as Hw. cbv zeta in Hw. rewrite Hw.
  pose proof (Z.mod_pos_bound pos (zlen (ur_data u)) ltac:(lia)).
  destruct (ring_write_at (le_split 4 (rec_word (committed r discard))) (ur_data u) (pos mod zlen (ur_data u))
    pos (ur_cons u)) as (d' & E & Hd' & HC & HF); rewrite ?zlen_le_split; try lia.
  { apply Z.mod_mod. lia. }
  rewrite zlen_le_split in HF. rewrite E. cbn [mbind option_bind]. eexists. split; [done |]. split; [done |].
  eapply holds_replace; [exact HH | done | done | by repeat split; try apply (proj1 Hok) | done | |].
  - apply (chunk_frame (ur_data u)); [done |]. cbn [committed r_payload]. intros x Hx. apply HF; lia.
  - intros x Hx Hn. apply HF; [done |]. fold pos in Hn. lia.
Qed.
(** The client's write to a sample it has reserved. *)
Lemma fill_refines u pre r post off bs :
  holds rb u (pre ++ r :: post) -> r_busy r = true -> 0 <= off -> off + zlen bs <= r_len r ->
  exists d', ring_write (ur_data u) (sample_at rb (ur_cons u + log_size pre) + off) bs = Some d' /\
    holds rb {| ur_data := d'; ur_prod := ur_prod u; ur_cons := ur_cons u |} (pre ++ filled r off bs :: post).
Proof.
  intros HH Hb Hoff Hbs. destruct (held_middle _ _ _ _ _ (ho_recs _ _ _ HH)) as (Hok & Hh & Hp & H1 & H2 & Hsz).
  pose proof ring_bounds as [HN _]. pose proof (ho_size _ _ _ HH) as Hs. pose proof (ho_fits _ _ _ HH) as Hf.
  destruct (rec_size_bounds r (proj1 Hok)) as (Hrs & _ & Hpl). pose proof (zlen_nonneg bs) as Hn.
  set (pos := ur_cons u + log_size pre) in *. rewrite sample_at_mod, <- Hs.
  pose proof (Z.mod_pos_bound (pos + 8) (zlen (ur_data u)) ltac:(lia)).
  destruct (ring_write_at bs (ur_data u) ((pos + 8) mod zlen (ur_data u) + off) (pos + 8 + off) (ur_cons u))
    as (d' & E & Hd' & HC & HF); try lia.
  { apply Zplus_mod_idemp_l. }
  exists d'. split; [done |].
  set (i := Z.to_nat off). assert (i + length bs <= length (r_payload r))%nat as Hi by (unfold i, zlen in *; lia).
  eapply holds_replace; [exact HH | done | done | | | |].
  - split; [split; [exact (proj1 (proj1 Hok)) |] | exact (proj2 Hok)].
    cbn [filled r_payload r_len]. fold i. unfold zlen in *. rewrite !length_app, length_take, length_drop. lia.
  - apply (chunk_frame (ur_data u)); [done |]. fold pos. rewrite zlen_le_split. intros x Hx. apply HF; lia.
  - cbn [filled r_payload]. fold i pos. rewrite <- (take_drop i (r_payload r)) in Hp.
    rewrite <- (take_drop (length bs) (drop i (r_payload r))), drop_drop in Hp. rewrite !chunk_app in Hp |- *.
    assert (zlen (take i (r_payload r)) = off) as E1 by (unfold zlen; rewrite length_take; lia).
    assert (zlen (take (length bs) (drop i (r_payload r))) = zlen bs) as E2
      by (unfold zlen; rewrite length_take, length_drop; lia).
    assert (zlen (drop (i + length bs) (r_payload r)) = r_len r - off - zlen bs) as E3
      by (unfold zlen in *; rewrite length_drop; lia).
    rewrite E1, E2 in *. destruct Hp as (Hp1 & _ & Hp2). split_and!; [| done |].
    + apply (chunk_frame (ur_data u)); [done |]. rewrite E1. intros x Hx. apply HF; lia.
    + apply (chunk_frame (ur_data u)); [done |]. rewrite E3. intros x Hx. apply HF; lia.
  - intros x Hx Hn'. apply HF; [done |]. fold pos in Hn'. lia.
Qed.

Lemma consume_refines u pre post : holds rb u (pre ++ post) ->
  u64 (ur_cons u + log_size pre) = ur_cons u + log_size pre /\
  holds rb {| ur_data := ur_data u; ur_prod := ur_prod u; ur_cons := ur_cons u + log_size pre |} post.
Proof.
  intros [Hs Hr Hp Hf [Hc Hlt] Ha]. apply held_app in Hr as [Hpre Hpost]. rewrite log_size_app in *.
  destruct (held_log_size _ _ _ Hpre) as [? H8]. destruct (held_log_size _ _ _ Hpost) as [? _].
  split; [apply u64_id; lia |]. split; cbn [ur_data ur_cons ur_prod]; try lia; [done |].
  rewrite Z.add_mod, Ha, H8 by lia. done.
Qed.

Lemma size_flags size : 0 <= size < 2 ^ 32 ->
  c_true (Z.land size (Z.lor BPF_RINGBUF_BUSY_BIT BPF_RINGBUF_DISCARD_BIT)) = (2 ^ 30 <=? size).
Proof.
  intros Hs. unfold c_true, BPF_RINGBUF_BUSY_BIT, BPF_RINGBUF_DISCARD_BIT.
  rewrite Z.land_lor_distr_r, !land_pow2_testbit by lia.
  assert (Z.testbit size 31 = (2 ^ 31 <=? size)) as ->.
  { apply Z.b2z_inj. rewrite Z.testbit_spec' by lia.
    destruct (Z.leb_spec (2 ^ 31) size); simpl Z.b2z; Z.to_euclidean_division_equations; lia. }
  destruct (Z.leb_spec (2 ^ 31) size) as [H31 |].
  { rewrite (proj2 (Z.leb_le (2 ^ 30) size)) by lia.
    assert (Z.lor (2 ^ 31) (if Z.testbit size 30 then 2 ^ 30 else 0) <> 0); [by destruct (Z.testbit size 30) |].
    by rewrite (proj2 (Z.eqb_neq _ _)). }
  assert (Z.testbit size 30 = (2 ^ 30 <=? size)) as ->.
  { apply Z.b2z_inj. rewrite Z.testbit_spec' by lia.
    destruct (Z.leb_spec (2 ^ 30) size); simpl Z.b2z; Z.to_euclidean_division_equations; lia. }
  by destruct (2 ^ 30 <=? size).
Qed.

(** The size computed by [user_ring_buffer__reserve]. *)
Lemma total_size size bs : 0 <= size < 2 ^ 30 ->
  u32 (u32 (size + BPF_RINGBUF_HDR_SZ + 7) / 8 * 8) = rec_size (reserved size bs).
Proof.
  intros Hs. unfold BPF_RINGBUF_HDR_SZ. rewrite (u32_id (size + 8 + 7)) by lia.
  unfold rec_size, reserved. cbn [r_len]. apply u32_id. Z.to_euclidean_division_equations; lia.
Qed.
(** A header written behind the last record is a new, busy record. *)
Lemma reserve_writes u l size : holds rb u l -> 0 <= size < 2 ^ 30 ->
  log_size l + rec_size (reserved size []) <= ub_mask rb + 1 ->
  exists d1 d2 bs, ring_write (ur_data u) (ur_prod u mod (ub_mask rb + 1))
      (le_split 4 (Z.lor size BPF_RINGBUF_BUSY_BIT)) = Some d1 /\
    ring_write d1 (ur_prod u mod (ub_mask rb + 1) + 4) (le_split 4 0) = Some d2 /\
    zlen d2 = ub_mask rb + 1 /\ zlen bs = size /\ held d2 (ur_cons u) (l ++ [reserved size bs]).
Proof.
  intros [Hs Hr Hp Hf [Hc Hlt] Ha] Hsize Hroom. pose proof ring_bounds as [HN _]. rewrite <- Hs in *.
  destruct (held_log_size _ _ _ Hr) as [Hl _]. set (N := zlen (ur_data u)) in *.
  pose proof (Z.mod_pos_bound (ur_prod u) N ltac:(lia)).
  assert (8 <= rec_size (reserved size [])) as Hr8
    by (unfold rec_size, reserved; cbn [r_len]; Z.to_euclidean_division_equations; lia).
  destruct (ring_write_at (le_split 4 (Z.lor size BPF_RINGBUF_BUSY_BIT)) (ur_data u) (ur_prod u mod N)
    (ur_prod u) (ur_cons u)) as (d1 & E1 & Hd1 & HC1 & HF1); fold N; rewrite ?zlen_le_split; try lia.
  { apply Z.mod_mod. lia. }
  destruct (ring_write_at (le_split 4 0) d1 (ur_prod u mod N + 4) (ur_prod u + 4) (ur_cons u))
    as (d2 & E2 & Hd2 & HC2 & HF2); rewrite ?Hd1, ?zlen_le_split; fold N; try lia.
  { apply Zplus_mod_idemp_l. }
  rewrite Hd1, !zlen_le_split in *. fold N in HF1, HF2.
  destruct (chunk_exists d2 (ur_prod u + 8) (Z.to_nat size)) as (bs & Hbs & HCb); [lia |].
  exists d1, d2, bs. split_and!; [done | done | lia | lia |]. apply held_app. split.
  { apply (held_frame (ur_data u)); [done |]. intros x Hx. rewrite HF2, HF1; [done | lia..]. }
  rewrite <- Hp. assert (record_ok (reserved size bs)) as Hok by (split; simpl; lia).
  assert (Z.lor size BPF_RINGBUF_BUSY_BIT = rec_word (reserved size bs)) as Hw.
  { unfold rec_word, BPF_RINGBUF_BUSY_BIT. simpl. rewrite lor_pow2 by lia. lia. }
  simpl. split_and!; [by split | | done | done].
  rewrite <- Hw. apply (chunk_frame d1); [done |]. rewrite zlen_le_split. intros x Hx. apply HF2; lia.
Qed.

Lemma reserve_refines u l size : holds rb u l -> 0 <= size < 2 ^ 32 -> ur_prod u < 2 ^ 64 - 2 ^ 31 ->
  exists r u' l', user_ring_buffer__reserve rb size u = Some (r, u') /\
    spec_step rb (ur_cons u, l) (Reserve size) r (ur_cons u', l') /\ holds rb u' l'.
Proof.
  intros HH Hsize Hpos. unfold user_ring_buffer__reserve. rewrite size_flags by done.
  destruct (Z.leb_spec (2 ^ 30) size) as [Hbig | Hsmall].
  { exists (inl E2BIG_errno), u, l. split_and!; [done | apply sp_big; by left | done]. }
  rewrite (total_size size []) by lia. destruct (ho_pos _ _ _ HH) as [Hc _]. pose proof ring_bounds as [HN _].
  pose proof (ho_prod _ _ _ HH) as Hp. pose proof (ho_fits _ _ _ HH) as Hf.
  destruct (held_log_size _ _ _ (ho_recs _ _ _ HH)) as [Hl _].
  rewrite (u32_id (ub_mask rb + 1)) by lia. rewrite (u64_id (ur_prod u - ur_cons u)) by lia.
  rewrite (u32_id (ub_mask rb + 1 - _)) by lia. set (T := rec_size (reserved size [])) in *.
  destruct (Z.ltb_spec (ub_mask rb + 1) T) as [Hbig | HT].
  { exists (inl E2BIG_errno), u, l. split_and!; [done | apply sp_big; by right | done]. }
  destruct (Z.ltb_spec (ub_mask rb + 1 - (ur_prod u - ur_cons u)) T) as [Hfull | Hroom].
  { exists (inl ENOSPC), u, l. split_and!; [done | | done]. apply sp_full; [lia | done |].
    rewrite log_size_app. cbn [log_size foldr]. fold T. lia. }
  destruct (reserve_writes u l size HH ltac:(lia) ltac:(fold T; lia)) as (d1 & d2 & bs & E1 & E2 & Hd & Hbs & Hrec).
  rewrite (ring_land (ur_prod u)), E1. cbn [mbind option_bind]. rewrite E2. cbn [mbind option_bind].
  assert (rec_size (reserved size bs) = T) as HT' by done.
  assert (0 <= T < 2 ^ 31) as HTb.
  { unfold T, rec_size, reserved. cbn [r_len]. Z.to_euclidean_division_equations; lia. }
  rewrite (u64_id (ur_prod u + BPF_RINGBUF_HDR_SZ)), (u64_id (ur_prod u + T)) by (unfold BPF_RINGBUF_HDR_SZ; lia).
  do 2 eexists. exists (l ++ [reserved size bs]). split_and!; [done | |].
  - cbn [ur_cons]. rewrite Hp. apply sp_reserve; [lia | done |]. rewrite log_size_app. simpl. lia.
  - split; cbn [ur_data ur_cons ur_prod]; rewrite ?log_size_app; simpl; rewrite ?HT'; try lia; [done |].
    exact (ho_align _ _ _ HH).
Qed.
End Ring.

(** C20: a user ring buffer is a log of records.  An area of zeros is the empty
    log.  As long as the client writes only to samples it has reserved and not
    yet committed, and the kernel releases only committed records, every
    operation returns what it promises of the log: a reservation appends a busy
    record of the size asked for and returns the pointer to its bytes, eight-byte
    aligned, or reports that the size can never fit or that there is no room now, in
    which case nothing changes; writing, submitting and discarding change the
    record of that pointer and no other, also when it wraps around the end of
    the area; and what a consumer then finds in the area is the log. *)
Theorem user_ring_refines rb : power_of_two_size rb ->
  (forall pos, 0 <= pos < 2 ^ 64 -> pos mod 8 = 0 ->
     holds rb {| ur_data := replicate (Z.to_nat (ub_mask rb + 1)) x00; ur_prod := pos; ur_cons := pos |} []) /\
  (forall u l o, holds rb u l -> legal rb (ur_cons u, l) o ->
     exists r u' l', user_step rb o u = Some (r, u') /\
       spec_step rb (ur_cons u, l) o r (ur_cons u', l') /\ holds rb u' l') /\
  (forall u l, holds rb u l ->
     laid (ub_mask rb) {| rv_data := ur_data u ++ ur_data u; rv_prod := ur_prod u |} (ur_cons u) l /\
     forall pre post, l = pre ++ post -> sample_at rb (ur_cons u + log_size pre) mod 8 = 0).
Proof.
  intros Hrb. pose proof (ring_bounds rb Hrb) as [HN H8]. split_and!.
  - intros pos Hpos Ha. split; cbn; try lia; try done. rewrite zlen_replicate. lia.
  - intros u l o HH HL. remember (ur_cons u, l) as a eqn:Ea.
    destruct HL; injection Ea as -> <-; simpl user_step.
    + apply reserve_refines; [done.. |]. by rewrite (ho_prod _ _ _ HH).
    + destruct (fill_refines rb Hrb u pre r post off bs) as (d' & -> & HH'); [done.. |].
      cbn [mbind option_bind]. do 3 eexists. split; [done |]. split; [by apply sp_fill | done].
    + destruct (commit_refines rb Hrb u pre r post discard) as (u' & E & Ec & HH'); [done.. |].
      unfold user_ring_buffer__discard, user_ring_buffer__submit.
      exists (inr 0), u', (pre ++ committed r discard :: post).
      split; [by destruct discard; rewrite E |]. rewrite Ec. split; [by apply sp_commit | done].
    + destruct (consume_refines rb u pre post HH) as [-> HH'].
      do 3 eexists. split; [done |]. split; [by apply sp_consume | done].
  - intros u l HH. split; [by apply holds_laid |]. intros pre post ->.
    destruct (held_log_size _ _ _ (proj1 (proj1 (held_app _ _ _ _) (ho_recs _ _ _ HH)))) as [_ Hm].
    rewrite (sample_at_mod rb Hrb). pose proof (ho_align _ _ _ HH) as Ha.
    rewrite Z.mod_mod_divide by (by apply Z.mod_divide).
    clear - Ha Hm. Z.to_euclidean_division_equations. lia.
Qed.

(** ** Blocking *)

(** An attempt that finds the ring too full, is woken up, and reads a clock on
    which less than the time allowed has passed. *)
Definition waits (rb : user_ring_buffer) (size timeout_ms : Z) (start : timespec) (u : user_ring) (a : attempt) : Prop :=
  user_ring_buffer__reserve rb size (see u a) = Some (inl ENOSPC, see u a) /\
  (forall ms, at_epoll a ms = None) /\
  exists curr, at_clock a = inr curr /\ 0 <= ns_elapsed_timespec start curr / 1000000 < timeout_ms.

Lemma see_see u a b : see (see u a) b = see u b.
Proof. done. Qed.

Lemma reserve_loop_waits rb size timeout_ms start pre : 0 <= timeout_ms < 2 ^ 31 ->
  forall u ms post, Forall (waits rb size timeout_ms start u) pre ->
  exists ms' u', reserve_loop rb size timeout_ms start ms (pre ++ post) u =
    reserve_loop rb size timeout_ms start ms' post u' /\ forall b, see u' b = see u b.
Proof.
  intros Ht. induction pre as [| a pre IH]; intros u ms post HW; [by exists ms, u |].
  apply Forall_cons in HW as [(E & He & curr & Ec & Hcurr) HW]. cbn [app reserve_loop].
  rewrite E. cbn [mbind option_bind]. rewrite Z.eqb_refl, He, Ec. cbn [negb].
  rewrite (proj2 (Z.eqb_neq timeout_ms (-1))) by lia.
  rewrite (s32_id (ns_elapsed_timespec start curr / 1000000)) by lia.
  rewrite (s32_id (timeout_ms - _)) by lia.
  rewrite (proj2 (Z.ltb_lt 0 _)) by lia.
  destruct (IH (see u a) (timeout_ms - ns_elapsed_timespec start curr / 1000000) post) as (ms' & u' & E' & Hs).
  { eapply Forall_impl; [exact HW |]. intros b (H1 & H2 & H3). by split_and!. }
  exists ms', u'. split; [exact E' |]. intros b. by rewrite Hs, see_see.
Qed.

(** Waiting for room.  With a time limit, [user_ring_buffer__reserve_blocking]
    keeps trying for as long as the ring is too full and the time is not over:
    when room appears before that, however many wake-ups later, it returns
    exactly the sample [user_ring_buffer__reserve] gives at that moment.  With no
    limit (-1) it does not: the wait is over after the first wake-up, since the
    loop's condition tests the -1; if there is still no room, or the wake-up
    was a spurious one, the call returns NULL with ENOSPC. *)
Theorem reserve_blocking_waits rb size start u :
  (forall timeout_ms pre a post sample u', 0 <= timeout_ms < 2 ^ 31 ->
     Forall (waits rb size timeout_ms start u) pre ->
     user_ring_buffer__reserve rb size (see u a) = Some (inr sample, u') ->
     user_ring_buffer__reserve_blocking rb size timeout_ms (inr start) (pre ++ a :: post) u =
       Some (inr sample, u')) /\
  (forall a b rest, user_ring_buffer__reserve rb size (see u a) = Some (inl ENOSPC, see u a) ->
     at_epoll a (-1) = None ->
     user_ring_buffer__reserve rb size (see u b) = Some (inl ENOSPC, see u b) ->
     user_ring_buffer__reserve_blocking rb size (-1) (inr start) (a :: b :: rest) u =
       Some (inl ENOSPC, see u b)).
Proof.
  split.
  - intros timeout_ms pre a post sample u' Ht HW E. unfold user_ring_buffer__reserve_blocking.
    rewrite (proj2 (Z.ltb_ge timeout_ms 0)), (proj2 (Z.eqb_neq timeout_ms (-1))) by lia. cbn [andb].
    destruct (reserve_loop_waits rb size timeout_ms start pre Ht u timeout_ms (a :: post) HW) as (ms' & v & -> & Hs).
    cbn [reserve_loop]. by rewrite Hs, E.
  - intros a b rest Ea He Eb. unfold user_ring_buffer__reserve_blocking. cbn [Z.ltb Z.eqb Z.compare andb negb reserve_loop].
    rewrite Ea. cbn [mbind option_bind]. rewrite Z.eqb_refl, He. cbn [negb]. by rewrite see_see, Eb.
Qed.

(** ** A concrete ring *)

Definition sample_user_env : add_env :=
  {| e_info := inr (BPF_MAP_TYPE_USER_RINGBUF, 64); e_rings_alloc := true; e_events_alloc := true;
     e_mmap_consumer := inr 0x1000; e_mmap_producer := inl 12; e_epoll_ctl := None |}.

Lemma user_ring_buffer_lifecycle_witness :
  user_ring_buffer__new true true 4096 (inr 4) 3 sample_user_env sample_world = Some (inl 12, sample_world).
Proof.
  pose proof (user_ring_buffer_lifecycle sample_world true true 4096 (inr 4) 3 sample_user_env
    ltac:(intros n [= ]) ltac:(intros n [= <-]; split; [lia | vm_compute; set_solver])) as H.
  destruct (user_ring_buffer__new _ _ _ _ _ _ _) as [[[errno | rb] w] |] eqn:E.
  - rewrite (proj2 (H ltac:(split; simpl; try done; [intros t m [= <- <-]; lia | intros a [= <-]; done | intros n [= <-]; lia]))) in E |- *.
    vm_compute in E. apply (f_equal (fun o => match o with Some (inl n, _) => n | _ => 0 end)) in E. by rewrite <- E.
  - apply (f_equal (fun o => match o with Some (inl _, _) => 0 | _ => 1 end)) in E. vm_compute in E. discriminate.
  - apply (f_equal (fun o => match o with Some (inl _, _) => 0 | _ => 1 end)) in E. vm_compute in E. discriminate.
Defined.

(** Sixty-four bytes, positions about to wrap. *)
Definition sample_user_rb : user_ring_buffer :=
  {| ub_consumer_pos := 0x1000; ub_producer_pos := 0x2000; ub_data := 0x3000; ub_mask := 63;
     ub_page_size := 4096; ub_map_fd := 3; ub_epoll_fd := 4 |}.
Definition sample_user_ring : user_ring :=
  {| ur_data := replicate 64 x00; ur_prod := 56; ur_cons := 56 |}.

(** A record whose header is in the last eight bytes and whose sample starts at
    the front of the area again: reserved, filled, submitted, and found by the
    consumer of RingBuf.v. *)
Lemma user_ring_refines_witness :
  power_of_two_size sample_user_rb /\
  (exists r u' l', user_step sample_user_rb (Reserve 5) sample_user_ring = Some (r, u') /\
    spec_step sample_user_rb (56, []) (Reserve 5) r (ur_cons u', l') /\ holds sample_user_rb u' l') /\
  (exists u1 u2 u3, user_step sample_user_rb (Reserve 5) sample_user_ring = Some (inr 0, u1) /\
    user_step sample_user_rb (Fill 0 0 (str "hello")) u1 = Some (inr 0, u2) /\
    user_step sample_user_rb (Commit 0 false) u2 = Some (inr 0, u3) /\
    ringbuf_process_ring (fun s e => (0, e :: s)) 63
      (fun _ _ => {| rv_data := ur_data u3 ++ ur_data u3; rv_prod := ur_prod u3 |}) 5 56 [] =
      Some (Build_ring_result 1 72 [str "hello"])).
Proof.
  assert (power_of_two_size sample_user_rb) as Hp by (exists 6; split; [lia | done]).
  split; [exact Hp |]. destruct (user_ring_refines sample_user_rb Hp) as (H1 & H2 & _). split.
  - apply (H2 sample_user_ring [] (Reserve 5)); [| by apply le_reserve].
    apply (H1 56); [lia | done].
  - do 3 eexists. split; [vm_compute; reflexivity |]. split; [vm_compute; reflexivity |].
    split; [vm_compute; reflexivity | vm_compute; reflexivity].
Defined.

Lemma reserve_blocking_waits_witness :
  user_ring_buffer__reserve_blocking sample_user_rb 48 (-1) (inr {| ts_sec := 1; ts_nsec := 0 |})
    (replicate 3 {| at_cons := 0; at_epoll := fun _ => None; at_clock := inr {| ts_sec := 2; ts_nsec := 0 |} |})
    sample_user_ring = Some (inl ENOSPC, {| ur_data := replicate 64 x00; ur_prod := 56; ur_cons := 0 |}).
Proof.
  apply (proj2 (reserve_blocking_waits sample_user_rb 48 {| ts_sec := 1; ts_nsec := 0 |} sample_user_ring));
    vm_compute; reflexivity.
Defined.
