(* ===== verification/CommonParams.v ===== *)
(** Command line handling: src/common/common_params.c, common_params.h and
    common_defines.h ([struct config], exit codes), with the GNU [getopt_long]
    it drives.

    Strings are byte lists without terminator; a fixed buffer of the
    configuration is the list of all its bytes.  [None] stands for undefined
    behaviour (reading past the array of long options, a null option
    argument, writing past the help buffer). *)
From S2P Require Import Prelude.
From S2P Require Import CLib.
From coqutil Require Export Datatypes.RecordSetters.
Export DoubleBraceUpdate.

(** ** common_defines.h *)

Definition EXIT_OK : Z := 0.
Definition EXIT_FAIL : Z := 1.
Definition EXIT_FAIL_OPTION : Z := 2.
Definition EXIT_FAIL_XDP : Z := 30.
Definition EXIT_FAIL_BPF : Z := 40.

Definition IF_NAMESIZE : nat := 16.

(** [enum xdp_attach_mode] *)
Definition XDP_MODE_UNSPEC : Z := 0.
Definition XDP_MODE_NATIVE : Z := 1.
Definition XDP_MODE_SKB : Z := 2.
Definition XDP_MODE_HW : Z := 3.

(** [linux/if_xdp.h] *)
Definition XDP_COPY : Z := 2.
Definition XDP_ZEROCOPY : Z := 4.

(** [struct config]; the pointers [ifname] and [redirect_ifname] are either
    null or the buffer next to them. *)
Record config := {
  attach_mode : Z;
  xdp_flags : Z;
  ifindex : Z;
  ifname : bool;
  ifname_buf : list byte;
  redirect_ifindex : Z;
  redirect_ifname : bool;
  redirect_ifname_buf : list byte;
  cfg_do_unload : bool;
  prog_id : Z;
  cfg_reuse_maps : bool;
  pin_dir : list byte;
  filename : list byte;
  progname : list byte;
  src_mac : list byte;
  dest_mac : list byte;
  xsk_bind_flags : Z;
  xsk_if_queue : Z;
  xsk_poll_mode : bool;
  unload_all : bool
}.

(** A zero-initialised [struct config]. *)
Definition config_zero : config :=
  {| attach_mode := 0; xdp_flags := 0; ifindex := 0; ifname := false;
     ifname_buf := replicate 16 NUL; redirect_ifindex := 0; redirect_ifname := false;
     redirect_ifname_buf := replicate 16 NUL; cfg_do_unload := false; prog_id := 0;
     cfg_reuse_maps := false; pin_dir := replicate 512 NUL; filename := replicate 512 NUL;
     progname := replicate 32 NUL; src_mac := replicate 18 NUL; dest_mac := replicate 18 NUL;
     xsk_bind_flags := 0; xsk_if_queue := 0; xsk_poll_mode := false; unload_all := false |}.

(** ** [struct option] and [struct option_wrapper] *)

Record opt_entry := { o_name : option (list byte); o_has_arg : Z; o_flag : bool; o_val : Z }.

Record option_wrapper := {
  w_option : opt_entry; w_help : option (list byte); w_metavar : option (list byte); w_required : bool
}.

Definition no_argument : Z := 0.
Definition required_argument : Z := 1.

(** The array up to the entry with a null name. *)
Fixpoint named (w : list option_wrapper) : option (list option_wrapper) :=
  match w with
  | [] => None
  | x :: w' => match o_name (w_option x) with None => Some [] | Some _ => cons x <$> named w' end
  end.

(** The entries before the terminator are copied, the terminator is not. *)
Definition option_wrappers_to_options (malloc_ok : bool) (wrapper : list option_wrapper) :
    option (option (list opt_entry)) :=
  ws ← named wrapper;
  Some (if malloc_ok then Some (map w_option ws) else None).

(** ** Help text *)

Definition BUFSIZE : nat := 30.

(** [%c] *)
Definition fmt_c (v : Z) : list byte := [byte.of_Z (u8 v)].

Definition print_option (w : option_wrapper) (name : list byte) : option (list byte) :=
  let head := if 64 <? o_val (w_option w) then str " -" ++ fmt_c (o_val (w_option w)) ++ str ","
              else str "    " in
  let '(b, pos) := snprintf BUFSIZE (str " --" ++ name) in
  buf ← match w_metavar w with
        | None => Some b
        | Some m =>
          if Z.of_nat BUFSIZE <? pos then None
          else Some (take (Z.to_nat pos) b ++
                     match (BUFSIZE - Z.to_nat pos)%nat with
                     | O => drop (Z.to_nat pos) b
                     | n => fst (snprintf n (str " " ++ m))
                     end)
        end;
  Some (head ++ pad_right 22 (cstr buf) ++ str "  " ++ fmt_s_opt (w_help w) ++ [x0a]).

Fixpoint _print_options (long_options : list option_wrapper) (required : bool) : option (list byte) :=
  match long_options with
  | [] => None
  | w :: ws =>
    match o_name (w_option w) with
    | None => Some []
    | Some name =>
      if negb (Bool.eqb (w_required w) required) then _print_options ws required
      else line ← print_option w name; rest ← _print_options ws required; Some (line ++ rest)
    end
  end.

Definition usage (prog_name doc : list byte) (long_options : list option_wrapper) (full : bool) :
    option (list byte) :=
  let head := str "Usage: " ++ prog_name ++ str " [options]" ++ [x0a] in
  if negb full then Some (head ++ str "Use --help (or -h) to see full option list." ++ [x0a]) else
  req ← _print_options long_options true;
  other ← _print_options long_options false;
  Some (head ++ [x0a] ++ str "DOCUMENTATION:" ++ [x0a] ++ str " " ++ doc ++ [x0a] ++
        str "Required options:" ++ [x0a] ++ req ++ [x0a] ++
        str "Other options:" ++ [x0a] ++ other ++ [x0a]).

(** ** [getopt_long]

    The scanner's state: the rest of a cluster of short options, and the
    arguments not looked at yet.  Arguments that are not options are skipped
    (the library moves them to the end). *)

Record scan := { nextchar : list byte; args : list (list byte) }.

Definition dash : byte := x2d.
Definition QMARK : Z := 63.

(** What a call returns: the option and [optarg]. *)
Inductive getopt_result :=
| Opt (opt : Z) (optarg : option (list byte)) (s : scan)
| NoMore.

(** The entry of a short option: whether it takes an argument. *)
Fixpoint short_lookup (shortopts : list byte) (c : byte) : option bool :=
  match shortopts with
  | [] => None
  | x :: rest =>
    if decide (x = c /\ c <> x3a)
    then Some (match rest with y :: _ => bool_decide (y = x3a) | [] => false end)
    else short_lookup rest c
  end.

Definition short_option (shortopts : list byte) (c : byte) (more : list byte) (rest : list (list byte)) :
    getopt_result :=
  match short_lookup shortopts c with
  | None => Opt QMARK None {| nextchar := more; args := rest |}
  | Some false => Opt (byte.unsigned c) None {| nextchar := more; args := rest |}
  | Some true =>
    match more, rest with
    | _ :: _, _ => Opt (byte.unsigned c) (Some more) {| nextchar := []; args := rest |}
    | [], a :: rest' => Opt (byte.unsigned c) (Some a) {| nextchar := []; args := rest' |}
    | [], [] => Opt QMARK None {| nextchar := []; args := [] |}
    end
  end.

(** The search for an exact name: [None] when it runs off the array. *)
Fixpoint find_exact (longopts : list opt_entry) (name : list byte) : option opt_entry :=
  match longopts with
  | [] => None
  | o :: rest => if decide (o_name o = Some name) then Some o else find_exact rest name
  end.

(** [name], or [name=value]. *)
Fixpoint split_eq (s : list byte) : list byte * option (list byte) :=
  match s with
  | [] => ([], None)
  | b :: s' => if decide (b = x3d) then ([], Some s')
               else let '(n, v) := split_eq s' in (b :: n, v)
  end.

Definition long_option (longopts : list opt_entry) (s : list byte) (rest : list (list byte)) :
    option getopt_result :=
  let '(name, value) := split_eq s in
  o ← find_exact longopts name;
  let ret := if o_flag o then 0 else o_val o in
  Some match value with
       | Some v =>
         if o_has_arg o =? no_argument then Opt QMARK None {| nextchar := []; args := rest |}
         else Opt ret (Some v) {| nextchar := []; args := rest |}
       | None =>
         if o_has_arg o =? required_argument then
           match rest with
           | a :: rest' => Opt ret (Some a) {| nextchar := []; args := rest' |}
           | [] => Opt QMARK None {| nextchar := []; args := [] |}
           end
         else Opt ret None {| nextchar := []; args := rest |}
       end.

Fixpoint next_arg (shortopts : list byte) (longopts : list opt_entry) (l : list (list byte)) :
    option getopt_result :=
  match l with
  | [] => Some NoMore
  | a :: rest =>
    match a with
    | x :: c :: more =>
      if decide (x = dash) then
        if decide (c = dash) then
          match more with [] => Some NoMore | _ => long_option longopts more rest end
        else Some (short_option shortopts c more rest)
      else next_arg shortopts longopts rest
    | _ => next_arg shortopts longopts rest
    end
  end.

Definition getopt_long (shortopts : list byte) (longopts : list opt_entry) (s : scan) : option getopt_result :=
  match nextchar s with
  | c :: more => Some (short_option shortopts c more (args s))
  | [] => next_arg shortopts longopts (args s)
  end.

(** Every option returned uses up input. *)
Definition scan_size (s : scan) : nat := length (nextchar s) + sum_list_with (fun a => S (length a)) (args s).

(** ** parse_cmdline_args *)

Definition shortopts : list byte := str "hd:r:L:R:ASNFU:MQ:czpq".

(** What the switch does with one option. *)
Inductive switch_result :=
| Break (cfg : config) (verbose : bool)
| Usage (full_help : bool).

Definition chr (c : byte) : Z := byte.unsigned c.

(** [~ m] on the 16 bits of [xsk_bind_flags]. *)
Definition clear16 (x m : Z) : Z := u16 (Z.land x (Z.lnot m)).
Definition set16 (x m : Z) : Z := u16 (Z.lor x m).

Definition parse_switch (if_nametoindex : list byte -> Z) (opt : Z) (optarg : option (list byte))
    (cfg : config) (verbose : bool) : option switch_result :=
  if opt =? chr "d" then
    arg ← optarg;
    if Z.of_nat IF_NAMESIZE <=? zlen arg then Some (Usage false) else
    let buf := strncpy IF_NAMESIZE arg in
    let ix := if_nametoindex (cstr buf) in
    if ix =? 0 then Some (Usage false)
    else Some (Break cfg {{ ifname := true; ifname_buf := buf; ifindex := ix }} verbose)
  else if opt =? chr "r" then
    arg ← optarg;
    if Z.of_nat IF_NAMESIZE <=? zlen arg then Some (Usage false) else
    let buf := strncpy IF_NAMESIZE arg in
    let ix := if_nametoindex (cstr buf) in
    if ix =? 0 then Some (Usage false)
    else Some (Break cfg {{ redirect_ifname := true; redirect_ifname_buf := buf;
                            redirect_ifindex := ix }} verbose)
  else if opt =? chr "A" then Some (Break cfg {{ attach_mode := XDP_MODE_UNSPEC }} verbose)
  else if opt =? chr "S" then
    Some (Break cfg {{ attach_mode := XDP_MODE_SKB;
                       xsk_bind_flags := set16 (clear16 (xsk_bind_flags cfg) XDP_ZEROCOPY) XDP_COPY }} verbose)
  else if opt =? chr "N" then Some (Break cfg {{ attach_mode := XDP_MODE_NATIVE }} verbose)
  else if opt =? 3 then Some (Break cfg {{ attach_mode := XDP_MODE_HW }} verbose)
  else if opt =? chr "M" then Some (Break cfg {{ cfg_reuse_maps := true }} verbose)
  else if opt =? chr "U" then
    arg ← optarg; Some (Break cfg {{ cfg_do_unload := true; prog_id := u32 (atoi arg) }} verbose)
  else if opt =? chr "p" then Some (Break cfg {{ xsk_poll_mode := true }} verbose)
  else if opt =? chr "q" then Some (Break cfg false)
  else if opt =? chr "Q" then arg ← optarg; Some (Break cfg {{ xsk_if_queue := atoi arg }} verbose)
  else if opt =? 1 then arg ← optarg; Some (Break cfg {{ filename := strncpy 512 arg }} verbose)
  else if opt =? 2 then arg ← optarg; Some (Break cfg {{ progname := strncpy 32 arg }} verbose)
  else if opt =? chr "L" then arg ← optarg; Some (Break cfg {{ src_mac := strncpy 18 arg }} verbose)
  else if opt =? chr "R" then arg ← optarg; Some (Break cfg {{ dest_mac := strncpy 18 arg }} verbose)
  else if opt =? chr "c" then
    Some (Break cfg {{ xsk_bind_flags := set16 (clear16 (xsk_bind_flags cfg) XDP_ZEROCOPY) XDP_COPY }} verbose)
  else if opt =? chr "z" then
    Some (Break cfg {{ xsk_bind_flags := set16 (clear16 (xsk_bind_flags cfg) XDP_COPY) XDP_ZEROCOPY }} verbose)
  else if opt =? 4 then Some (Break cfg {{ unload_all := true }} verbose)
  else Some (Usage (opt =? chr "h")).

(** The call either returns with the configuration and [verbose], or exits
    after printing to standard output. *)
Inductive parse_result :=
| Parsed (cfg : config) (verbose : bool)
| Exited (code : Z) (out : list byte).

Section Parse.
Context (if_nametoindex : list byte -> Z) (wrappers : list option_wrapper) (prog doc : list byte).

Fixpoint parse_loop (fuel : nat) (longopts : list opt_entry) (s : scan) (cfg : config) (verbose : bool) :
    option parse_result :=
  match fuel with
  | O => None
  | S fuel' =>
    r ← getopt_long shortopts longopts s;
    match r with
    | NoMore => Some (Parsed cfg verbose)
    | Opt opt optarg s' =>
      x ← parse_switch if_nametoindex opt optarg cfg verbose;
      match x with
      | Break cfg' verbose' => parse_loop fuel' longopts s' cfg' verbose'
      | Usage full => out ← usage prog doc wrappers full; Some (Exited EXIT_FAIL_OPTION out)
      end
    end
  end.

(** [parse_cmdline_args] on the arguments after the program's name. *)
Definition parse_cmdline_args (malloc_ok : bool) (argv : list (list byte)) (cfg : config) (verbose : bool) :
    option parse_result :=
  o ← option_wrappers_to_options malloc_ok wrappers;
  match o with
  | None => Some (Exited EXIT_FAIL_OPTION [])
  | Some longopts =>
    let s := {| nextchar := []; args := argv |} in
    parse_loop (scan_size s + 1) longopts s cfg verbose
  end.

End Parse.

(** ** Command lines as they are written *)

(** An option with an argument either attached ([-dlo], [--dev=lo]) or as the
    next word; and words that are not options. *)
Inductive item :=
| IShort (c : byte) (arg : option (bool * list byte))
| ILong (name : list byte) (arg : option (bool * list byte))
| IWord (w : list byte).

Definition render (i : item) : list (list byte) :=
  match i with
  | IShort c None => [[dash; c]]
  | IShort c (Some (true, v)) => [dash :: c :: v]
  | IShort c (Some (false, v)) => [[dash; c]; v]
  | ILong n None => [dash :: dash :: n]
  | ILong n (Some (true, v)) => [dash :: dash :: n ++ x3d :: v]
  | ILong n (Some (false, v)) => [dash :: dash :: n; v]
  | IWord w => [w]
  end.

(** The item is spelled the way the option tables say. *)
Definition item_ok (longopts : list opt_entry) (i : item) : Prop :=
  match i with
  | IShort c a =>
    c <> dash /\ short_lookup shortopts c = Some (match a with Some _ => true | None => false end) /\
    match a with Some (true, v) => v <> [] | _ => True end
  | ILong n a =>
    n <> [] /\ x3d ∉ n /\
    exists o, find_exact longopts n = Some o /\
      o_has_arg o = match a with Some _ => required_argument | None => no_argument end
  | IWord w => match w with x :: _ :: _ => x <> dash | _ => True end
  end.

(** The option value and argument the item stands for. *)
Definition meaning (longopts : list opt_entry) (i : item) : option (Z * option (list byte)) :=
  match i with
  | IShort c a => Some (byte.unsigned c, snd <$> a)
  | ILong n a => o ← find_exact longopts n; Some (if o_flag o then 0 else o_val o, snd <$> a)
  | IWord _ => None
  end.

Section Spec.
Context (if_nametoindex : list byte -> Z) (wrappers : list option_wrapper) (prog doc : list byte).
Context (longopts : list opt_entry).

(** The options take effect one after the other, in the order given. *)
Fixpoint apply_items (items : list item) (cfg : config) (verbose : bool) : option parse_result :=
  match items with
  | [] => Some (Parsed cfg verbose)
  | i :: items' =>
    match meaning longopts i with
    | None => apply_items items' cfg verbose
    | Some (opt, optarg) =>
      x ← parse_switch if_nametoindex opt optarg cfg verbose;
      match x with
      | Break cfg' verbose' => apply_items items' cfg' verbose'
      | Usage full => out ← usage prog doc wrappers full; Some (Exited EXIT_FAIL_OPTION out)
      end
    end
  end.

Lemma split_eq_plain n : x3d ∉ n -> split_eq n = (n, None).
Proof.
  induction n as [| b n IH]; simpl; [done |]. rewrite not_elem_of_cons. intros [Hb Hn].
  rewrite decide_False by congruence. by rewrite IH.
Qed.

Lemma split_eq_value n v : x3d ∉ n -> split_eq (n ++ x3d :: v) = (n, Some v).
Proof.
  induction n as [| b n IH]; simpl; [done |]. rewrite not_elem_of_cons. intros [Hb Hn].
  rewrite decide_False by congruence. by rewrite IH.
Qed.

(** One call of [getopt_long] in front of an item returns it. *)
Lemma getopt_long_item i rest o a :
  item_ok longopts i -> meaning longopts i = Some (o, a) ->
  getopt_long shortopts longopts {| nextchar := []; args := render i ++ rest |} =
    Some (Opt o a {| nextchar := []; args := rest |}).
Proof.
  unfold getopt_long. destruct i as [c [[[] v] |] | n [[[] v] |] | w]; cbn [item_ok meaning];
    try (by intros; simplify_eq).
  1-3: intros (Hc & Hl & Hv) [= <- <-]; cbn [nextchar args render app next_arg];
       rewrite decide_True, decide_False by done; unfold short_option; rewrite Hl; first [done | by destruct v].
  all: intros (Hn & Heq & oe & Hf & Ha); rewrite Hf; cbn [mbind option_bind]; intros [= <- <-];
       cbn [nextchar args render app next_arg]; rewrite !decide_True by done.
  1: destruct (n ++ x3d :: v) eqn:E; [by destruct n |]; rewrite <- E.
  2-3: destruct n as [| b n'] eqn:E; [done |]; rewrite <- E in *.
  all: unfold long_option; rewrite ?split_eq_value, ?split_eq_plain, Hf by done;
       cbn [mbind option_bind]; by rewrite Ha.
Qed.

Lemma getopt_long_word w rest : item_ok longopts (IWord w) ->
  getopt_long shortopts longopts {| nextchar := []; args := w :: rest |} =
  getopt_long shortopts longopts {| nextchar := []; args := rest |}.
Proof.
  unfold getopt_long. cbn [nextchar args next_arg item_ok].
  destruct w as [| x [| c more]]; [done.. |]. intros H. by rewrite decide_False.
Qed.

Lemma parse_loop_word fuel w rest cfg verbose : item_ok longopts (IWord w) ->
  parse_loop if_nametoindex wrappers prog doc (S fuel) longopts {| nextchar := []; args := w :: rest |} cfg verbose =
  parse_loop if_nametoindex wrappers prog doc (S fuel) longopts {| nextchar := []; args := rest |} cfg verbose.
Proof. intros H. cbn [parse_loop]. by rewrite getopt_long_word. Qed.

(** Everything after [--] is left alone. *)
Definition ends (tail : list (list byte)) : Prop :=
  tail = [] \/ exists l, tail = [dash; dash] :: l.

Lemma parse_loop_items tail items : ends tail -> Forall (item_ok longopts) items ->
  forall fuel cfg verbose, (length items < fuel)%nat ->
  parse_loop if_nametoindex wrappers prog doc fuel longopts
    {| nextchar := []; args := concat (map render items) ++ tail |} cfg verbose =
  apply_items items cfg verbose.
Proof.
  intros Ht. induction 1 as [| i items Hi _ IH]; intros fuel cfg verbose Hf;
    (destruct fuel as [| fuel]; [simpl in Hf; lia |]).
  { by destruct Ht as [-> | [l ->]]. }
  simpl in Hf. cbn [map concat apply_items]. destruct (meaning longopts i) as [[o a] |] eqn:E.
  - rewrite <- app_assoc. cbn [parse_loop]. rewrite (getopt_long_item i _ o a Hi E).
    cbn [mbind option_bind]. destruct (parse_switch _ _ _ _ _) as [[cfg' verbose' | full] |]; [| done..].
    cbn [mbind option_bind]. apply IH. lia.
  - destruct i as [| n a | w]; [done | |].
    { destruct Hi as (_ & _ & oe & Hoe & _). simpl in E. by rewrite Hoe in E. }
    cbn [render app]. rewrite parse_loop_word by done. apply IH. lia.
Qed.

End Spec.

(** ** Totality *)

Lemma short_option_progress c more rest o a s' :
  short_option shortopts c more rest = Opt o a s' ->
  (scan_size s' < scan_size {| nextchar := c :: more; args := rest |})%nat.
Proof.
  unfold short_option, scan_size. destruct (short_lookup shortopts c) as [[] |].
  - destruct more as [| m more]; [destruct rest as [| x rest] |]; intros [= <- <- <-]; simpl; lia.
  - intros [= <- <- <-]; simpl; lia.
  - intros [= <- <- <-]; simpl; lia.
Qed.

Lemma long_option_progress longopts n rest o a s' :
  long_option longopts n rest = Some (Opt o a s') ->
  (scan_size s' <= scan_size {| nextchar := []; args := rest |})%nat.
Proof.
  unfold long_option, scan_size. destruct (split_eq n) as [name value].
  destruct (find_exact longopts name) as [oe |]; [| done]. cbn [mbind option_bind].
  destruct value; [destruct (_ =? no_argument) | destruct (_ =? required_argument); [destruct rest |]];
    intros [= <- <- <-]; simpl; lia.
Qed.

Lemma next_arg_progress longopts l o a s' :
  next_arg shortopts longopts l = Some (Opt o a s') ->
  (scan_size s' < scan_size {| nextchar := []; args := l |})%nat.
Proof.
  induction l as [| [| x [| c more]] l IH]; cbn [next_arg]; [done | | |].
  1-2: intros H; apply IH in H; unfold scan_size in *; simpl in *; lia.
  destruct (decide (x = dash)); [destruct (decide (c = dash)) |].
  - destruct more as [| m more]; [done |]. intros H. apply long_option_progress in H.
    unfold scan_size in *; simpl in *; lia.
  - intros [= H]. apply short_option_progress in H. unfold scan_size in *; simpl in *; lia.
  - intros H; apply IH in H; unfold scan_size in *; simpl in *; lia.
Qed.

Lemma getopt_long_progress longopts s o a s' :
  getopt_long shortopts longopts s = Some (Opt o a s') -> (scan_size s' < scan_size s)%nat.
Proof.
  destruct s as [[| c more] l]; unfold getopt_long; simpl.
  - apply next_arg_progress.
  - intros [= H]. by apply short_option_progress in H.
Qed.

(** The fuel of [parse_cmdline_args] is enough: more changes nothing. *)
Lemma parse_loop_fuel ifn ws prog doc longopts fuel : forall fuel' s cfg verbose,
  (scan_size s < fuel)%nat -> (fuel <= fuel')%nat ->
  parse_loop ifn ws prog doc fuel longopts s cfg verbose = parse_loop ifn ws prog doc fuel' longopts s cfg verbose.
Proof.
  induction fuel as [| fuel IH]; intros [| fuel'] s cfg verbose Hs Hle; [lia.. |].
  cbn [parse_loop]. destruct (getopt_long shortopts longopts s) as [[o a s' |] |] eqn:E; [| done..].
  apply getopt_long_progress in E. cbn [mbind option_bind].
  destruct (parse_switch _ _ _ _ _) as [[cfg' verbose' | full] |]; [| done..].
  cbn [mbind option_bind]. apply IH; lia.
Qed.

Lemma parse_items ifn wrappers ws prog doc items tail cfg verbose :
  named wrappers = Some ws -> Forall (item_ok (map w_option ws)) items -> ends tail ->
  parse_cmdline_args ifn wrappers prog doc true (concat (map render items) ++ tail) cfg verbose =
  apply_items ifn wrappers prog doc (map w_option ws) items cfg verbose.
Proof.
  intros Hw Hi Ht. unfold parse_cmdline_args, option_wrappers_to_options. rewrite Hw. cbn [mbind option_bind].
  set (s := {| nextchar := []; args := _ |}).
  rewrite (parse_loop_fuel _ _ _ _ _ _ (scan_size s + 1 + length items)) by lia.
  apply parse_loop_items; [done | done | lia].
Qed.

(** ** What a command line says

    The options by what they are for, apart from how the code handles
    them. *)

Inductive setting :=
| Dev (name : list byte) | RedirectDev (name : list byte)
| AutoMode | SkbMode | NativeMode | OffloadMode
| ReuseMaps | Unload (id : list byte) | UnloadAll
| PollMode | Quiet | Queue (number : list byte)
| Filename (name : list byte) | Progname (name : list byte) | SrcMac (mac : list byte) | DestMac (mac : list byte)
| Copy | ZeroCopy
| Force | Help.

(** The letter of an option, and the number long options without a letter have. *)
Definition letter (s : setting) : option byte :=
  match s with
  | Dev _ => Some "d"%byte | RedirectDev _ => Some "r"%byte
  | AutoMode => Some "A"%byte | SkbMode => Some "S"%byte | NativeMode => Some "N"%byte | OffloadMode => None
  | ReuseMaps => Some "M"%byte | Unload _ => Some "U"%byte | UnloadAll => None
  | PollMode => Some "p"%byte | Quiet => Some "q"%byte | Queue _ => Some "Q"%byte
  | Filename _ => None | Progname _ => None | SrcMac _ => Some "L"%byte | DestMac _ => Some "R"%byte
  | Copy => Some "c"%byte | ZeroCopy => Some "z"%byte
  | Force => Some "F"%byte | Help => Some "h"%byte
  end.

Definition number (s : setting) : Z :=
  match letter s with
  | Some c => byte.unsigned c
  | None => match s with Filename _ => 1 | Progname _ => 2 | OffloadMode => 3 | _ => 4 end
  end.

Definition argument (s : setting) : option (list byte) :=
  match s with
  | Dev a | RedirectDev a | Unload a | Queue a | Filename a | Progname a | SrcMac a | DestMac a => Some a
  | _ => None
  end.

(** The first entry with the name [n] is [o], and stands for the option. *)
Definition entry (longopts : list opt_entry) (s : setting) (n : list byte) (o : opt_entry) : Prop :=
  n <> [] /\ x3d ∉ n /\ o_name o = Some n /\ o_flag o = false /\ o_val o = number s /\
  exists pre post, longopts = pre ++ o :: post /\ Forall (fun p => o_name p <> Some n) pre.

(** The words that give an option: by its letter, with the argument attached or
    as the next word; or by a name of the table, whose entry has the option's
    number. *)
Inductive spelled (longopts : list opt_entry) (s : setting) : list (list byte) -> Prop :=
| Sp_letter c : letter s = Some c -> argument s = None -> spelled longopts s [[dash; c]]
| Sp_letter_attached c a : letter s = Some c -> argument s = Some a -> a <> [] -> spelled longopts s [dash :: c :: a]
| Sp_letter_next c a : letter s = Some c -> argument s = Some a -> spelled longopts s [[dash; c]; a]
| Sp_name n o : entry longopts s n o -> argument s = None -> o_has_arg o = no_argument -> spelled longopts s [dash :: dash :: n]
| Sp_name_attached n o a : entry longopts s n o -> argument s = Some a -> o_has_arg o = required_argument ->
    spelled longopts s [dash :: dash :: n ++ x3d :: a]
| Sp_name_next n o a : entry longopts s n o -> argument s = Some a -> o_has_arg o = required_argument ->
    spelled longopts s [dash :: dash :: n; a].

(** Options, with other words between them, and perhaps [--] and anything behind it. *)
Inductive cmdline (longopts : list opt_entry) : list setting -> list (list byte) -> Prop :=
| Cl_end : cmdline longopts [] []
| Cl_dashes l : cmdline longopts [] ([dash; dash] :: l)
| Cl_option s ws ss l : spelled longopts s ws -> cmdline longopts ss l -> cmdline longopts (s :: ss) (ws ++ l)
| Cl_word w ss l : match w with x :: _ :: _ => x <> dash | _ => True end -> cmdline longopts ss l -> cmdline longopts ss (w :: l).

Section Says.
Context (if_nametoindex : list byte -> Z).

(** The option is refused, with the usage text. *)
Definition refused (s : setting) : bool :=
  match s with
  | Dev n | RedirectDev n => (16 <=? length n)%nat || (if_nametoindex n =? 0)
  | Force | Help => true
  | _ => false
  end.

(** The last of the options that say something about a field. *)
Definition latest {A} (f : setting -> option A) (ss : list setting) (old : A) : A := default old (last (omap f ss)).

Definition padded (n : nat) (s : list byte) : list byte := take n s ++ replicate (n - length s) NUL.

Definition dev_of (s : setting) := match s with Dev n => Some n | _ => None end.
Definition redirect_of (s : setting) := match s with RedirectDev n => Some n | _ => None end.
Definition mode_of (s : setting) :=
  match s with AutoMode => Some XDP_MODE_UNSPEC | SkbMode => Some XDP_MODE_SKB | NativeMode => Some XDP_MODE_NATIVE | OffloadMode => Some XDP_MODE_HW | _ => None end.
(** Copying, or not; generic mode copies. *)
Definition copy_of (s : setting) := match s with SkbMode | Copy => Some true | ZeroCopy => Some false | _ => None end.
Definition unload_of (s : setting) := match s with Unload a => Some a | _ => None end.
Definition queue_of (s : setting) := match s with Queue a => Some (atoi a) | _ => None end.
Definition given (p : setting -> bool) (s : setting) := if p s then Some true else None.

(** One of the two bits is set, the other is not, the rest is as before. *)
Definition bind_flags (copy : bool) (flags : Z) : Z :=
  if copy then Z.setbit (Z.clearbit (u16 flags) 2) 1 else Z.setbit (Z.clearbit (u16 flags) 1) 2.

Definition says (ss : list setting) (cfg : config) : config :=
  {| attach_mode := latest mode_of ss (attach_mode cfg);
     xdp_flags := xdp_flags cfg;
     ifindex := latest (fun s => if_nametoindex <$> dev_of s) ss (ifindex cfg);
     ifname := latest (fun s => (fun _ => true) <$> dev_of s) ss (ifname cfg);
     ifname_buf := latest (fun s => padded 16 <$> dev_of s) ss (ifname_buf cfg);
     redirect_ifindex := latest (fun s => if_nametoindex <$> redirect_of s) ss (redirect_ifindex cfg);
     redirect_ifname := latest (fun s => (fun _ => true) <$> redirect_of s) ss (redirect_ifname cfg);
     redirect_ifname_buf := latest (fun s => padded 16 <$> redirect_of s) ss (redirect_ifname_buf cfg);
     cfg_do_unload := latest (fun s => (fun _ => true) <$> unload_of s) ss (cfg_do_unload cfg);
     prog_id := latest (fun s => (fun a => atoi a mod 2 ^ 32) <$> unload_of s) ss (prog_id cfg);
     cfg_reuse_maps := latest (given (fun s => match s with ReuseMaps => true | _ => false end)) ss (cfg_reuse_maps cfg);
     pin_dir := pin_dir cfg;
     filename := latest (fun s => match s with Filename a => Some (padded 512 a) | _ => None end) ss (filename cfg);
     progname := latest (fun s => match s with Progname a => Some (padded 32 a) | _ => None end) ss (progname cfg);
     src_mac := latest (fun s => match s with SrcMac a => Some (padded 18 a) | _ => None end) ss (src_mac cfg);
     dest_mac := latest (fun s => match s with DestMac a => Some (padded 18 a) | _ => None end) ss (dest_mac cfg);
     xsk_bind_flags := match last (omap copy_of ss) with Some copy => bind_flags copy (xsk_bind_flags cfg) | None => xsk_bind_flags cfg end;
     xsk_if_queue := latest queue_of ss (xsk_if_queue cfg);
     xsk_poll_mode := latest (given (fun s => match s with PollMode => true | _ => false end)) ss (xsk_poll_mode cfg);
     unload_all := latest (given (fun s => match s with UnloadAll => true | _ => false end)) ss (unload_all cfg) |}.

Definition says_verbose (ss : list setting) (verbose : bool) : bool :=
  latest (fun s => match s with Quiet => Some false | _ => None end) ss verbose.

End Says.

(** *** Proofs *)

Lemma latest_cons {A} (f : setting -> option A) s ss old : latest f (s :: ss) old = latest f ss (default old (f s)).
Proof. unfold latest. cbn [omap list_omap]. destruct (f s) as [v |]; [| done]. rewrite last_cons. by destruct (last _). Qed.

Lemma u16_bit x i : 0 <= i -> Z.testbit (u16 x) i = (i <? 16) && Z.testbit x i.
Proof.
  intros Hi. unfold u16. destruct (Z.ltb_spec i 16); [apply Z.mod_pow2_bits_low; lia | apply Z.mod_pow2_bits_high; lia].
Qed.

Lemma bind_flags_bit copy x i : 0 <= i ->
  Z.testbit (bind_flags copy x) i = if i =? 1 then copy else if i =? 2 then negb copy else (i <? 16) && Z.testbit x i.
Proof.
  intros Hi. unfold bind_flags. destruct copy; rewrite Z.setbit_eqb, Z.clearbit_eqb, u16_bit by lia;
    rewrite (Z.eqb_sym 1 i), (Z.eqb_sym 2 i); (destruct (Z.eqb_spec i 1) as [-> |]; [by rewrite ?andb_false_r |]); (destruct (Z.eqb_spec i 2) as [-> |]; [by rewrite ?andb_false_r |]);
    by rewrite andb_true_r.
Qed.

Lemma bind_flags_spec x : set16 (clear16 x XDP_ZEROCOPY) XDP_COPY = bind_flags true x /\ set16 (clear16 x XDP_COPY) XDP_ZEROCOPY = bind_flags false x.
Proof.
  assert (forall i, 0 <= i -> Z.testbit XDP_COPY i = (i =? 1)) as H1 by (intros i Hi; rewrite Z.eqb_sym; by apply (Z.pow2_bits_eqb 1)).
  assert (forall i, 0 <= i -> Z.testbit XDP_ZEROCOPY i = (i =? 2)) as H2 by (intros i Hi; rewrite Z.eqb_sym; by apply (Z.pow2_bits_eqb 2)).
  split; apply Z.bits_inj'; intros i Hi; rewrite bind_flags_bit by done; unfold set16, clear16;
    rewrite u16_bit, Z.lor_spec, u16_bit, Z.land_spec, Z.lnot_spec, H1, H2 by done;
    (destruct (Z.eqb_spec i 1) as [-> |]; [by rewrite ?andb_false_r, ?orb_true_r |]); (destruct (Z.eqb_spec i 2) as [-> |]; [by rewrite ?andb_false_r, ?orb_true_r |]);
    destruct (i <? 16); cbn; by rewrite ?andb_true_r, ?orb_false_r.
Qed.

(** What was said before does not matter. *)
Lemma bind_flags_again c c' x : bind_flags c (bind_flags c' x) = bind_flags c x.
Proof.
  apply Z.bits_inj'. intros i Hi. rewrite !bind_flags_bit by done. destruct (Z.eqb_spec i 1), (Z.eqb_spec i 2); try done. by destruct (i <? 16).
Qed.

(** What one option changes. *)
Lemma says_cons ifn s ss cfg : says ifn (s :: ss) cfg = says ifn ss (says ifn [s] cfg).
Proof.
  unfold says. cbn [attach_mode xdp_flags ifindex ifname ifname_buf redirect_ifindex redirect_ifname redirect_ifname_buf cfg_do_unload prog_id cfg_reuse_maps
    pin_dir filename progname src_mac dest_mac xsk_bind_flags xsk_if_queue xsk_poll_mode unload_all]. rewrite !latest_cons. f_equal.
  cbn [omap list_omap]. destruct (copy_of s) as [c |]; [| done]. rewrite last_cons. cbn [last]. destruct (last (omap copy_of ss)); [| done].
  by rewrite bind_flags_again.
Qed.

Lemma says_nil ifn cfg : says ifn [] cfg = cfg.
Proof. by destruct cfg. Qed.

(** The switch on an option. *)
Lemma switch_says ifn s cfg verbose : (forall a, argument s = Some a -> NUL ∉ a) ->
  parse_switch ifn (number s) (argument s) cfg verbose =
    Some (if refused ifn s then Usage (match s with Help => true | _ => false end) else Break (says ifn [s] cfg) (says_verbose [s] verbose)).
Proof.
  intros Ha. assert (forall n, NUL ∉ n -> (16 <=? length n)%nat = false -> cstr (strncpy IF_NAMESIZE n) = n) as Hname.
  { intros n Hn Hl. apply Nat.leb_gt in Hl. unfold strncpy. rewrite take_ge by (unfold IF_NAMESIZE; lia).
    destruct (IF_NAMESIZE - length n)%nat as [| k] eqn:Ek; [unfold IF_NAMESIZE in Ek; lia |]. by apply cstr_app_nul. }
  assert (forall n : list byte, (Z.of_nat IF_NAMESIZE <=? zlen n) = (16 <=? length n)%nat) as Hlen.
  { intros n. unfold IF_NAMESIZE, zlen. destruct (Nat.leb_spec 16 (length n)); [apply Z.leb_le; lia | apply Z.leb_gt; lia]. }
  destruct (bind_flags_spec (xsk_bind_flags cfg)) as [Hb1 Hb2].
  destruct s as [n | n | | | | | | n | | | | n | n | n | n | n | | | |]; unfold parse_switch; cbn [argument refused mbind option_bind] in *.
  1, 2: change (number _) with (chr "d") || change (number _) with (chr "r"); cbn [chr Z.eqb Pos.eqb]; rewrite Hlen;
    destruct (16 <=? length n)%nat eqn:El; [done |]; rewrite Hname by (done || by apply Ha); destruct (ifn n =? 0); [done |]; by destruct cfg.
  all: match goal with |- context [number ?s] => let v := eval vm_compute in (number s) in change (number s) with v end.
  all: try change (chr "d") with 100; cbn.
  all: rewrite ?Hb1, ?Hb2; by destruct cfg.
Qed.
Lemma find_exact_entry longopts s n o : entry longopts s n o -> find_exact longopts n = Some o.
Proof.
  intros (_ & _ & Hn & _ & _ & pre & post & -> & Hpre). induction Hpre as [| p pre Hp _ IH]; cbn [app find_exact]; [by rewrite decide_True |].
  by rewrite decide_False.
Qed.

(** The scanner's table agrees with the letters and arguments of the options. *)
Lemma letter_short s c : letter s = Some c ->
  c <> dash /\ short_lookup shortopts c = Some (match argument s with Some _ => true | None => false end) /\ number s = byte.unsigned c.
Proof. unfold number. intros H. rewrite H. destruct s; cbn in H; try done; injection H as <-; by split_and!. Qed.

Lemma spelled_item longopts s ws : spelled longopts s ws ->
  exists i, render i = ws /\ item_ok longopts i /\ meaning longopts i = Some (number s, argument s).
Proof.
  assert (forall n o, entry longopts s n o -> n <> [] /\ x3d ∉ n /\ (if o_flag o then 0 else o_val o) = number s) as He.
  { intros n o (H1 & H2 & _ & Hf & Hv & _). by rewrite Hf, Hv. }
  intros H. destruct H as [c Hc Ha | c a Hc Ha Hne | c a Hc Ha | n o Ho Ha Hr | n o a Ho Ha Hr | n o a Ho Ha Hr]; rewrite Ha.
  1-3: destruct (letter_short s c Hc) as (H1 & H2 & ->); rewrite Ha in H2.
  4-6: pose proof (find_exact_entry _ _ _ _ Ho) as Hf; destruct (He n o Ho) as (H1 & H2 & H3).
  - by exists (IShort c None).
  - by exists (IShort c (Some (true, a))).
  - by exists (IShort c (Some (false, a))).
  - exists (ILong n None). cbn [item_ok meaning]. rewrite Hf. cbn [mbind option_bind]. rewrite H3. split_and!; eauto.
  - exists (ILong n (Some (true, a))). cbn [item_ok meaning]. rewrite Hf. cbn [mbind option_bind]. rewrite H3. split_and!; eauto.
  - exists (ILong n (Some (false, a))). cbn [item_ok meaning]. rewrite Hf. cbn [mbind option_bind]. rewrite H3. split_and!; eauto.
Qed.

Lemma cmdline_items longopts ss l : cmdline longopts ss l ->
  exists items tail, l = concat (map render items) ++ tail /\ Forall (item_ok longopts) items /\ ends tail /\
    omap (meaning longopts) items = (fun s => (number s, argument s)) <$> ss.
Proof.
  induction 1 as [| l | s ws ss l Hs _ (items & tail & -> & Hi & Ht & Hm) | w ss l Hw _ (items & tail & -> & Hi & Ht & Hm)].
  - exists [], []. split_and!; [done | constructor | by left | done].
  - exists [], ([dash; dash] :: l). split_and!; [done | constructor | right; by eexists | done].
  - destruct (spelled_item _ _ _ Hs) as (i & <- & Hok & Hmi). exists (i :: items), tail. cbn [map concat omap list_omap fmap list_fmap].
    rewrite Hmi, <- app_assoc. split_and!; [done | by constructor | done | by f_equal].
  - exists (IWord w :: items), tail. split_and!; [done | by constructor | done | done].
Qed.

Lemma apply_items_says ifn wrappers prog doc longopts items : forall ss cfg verbose,
  omap (meaning longopts) items = (fun s => (number s, argument s)) <$> ss -> Forall (fun s => forall a, argument s = Some a -> NUL ∉ a) ss ->
  apply_items ifn wrappers prog doc longopts items cfg verbose =
    match List.find (refused ifn) ss with
    | None => Some (Parsed (says ifn ss cfg) (says_verbose ss verbose))
    | Some s => out ← usage prog doc wrappers (match s with Help => true | _ => false end); Some (Exited EXIT_FAIL_OPTION out)
    end.
Proof.
  induction items as [| i items IH]; intros ss cfg verbose Hm Ha; cbn [omap list_omap apply_items] in *.
  { destruct ss; [| done]. cbn [List.find]. by rewrite says_nil. }
  destruct (meaning longopts i) as [[o a] |]; [| by apply IH].
  destruct ss as [| s ss]; [done |]. injection Hm as -> -> Hm. apply Forall_cons in Ha as [Hs Ha]. rewrite switch_says by done. cbn [mbind option_bind List.find].
  destruct (refused ifn s); [done |]. rewrite (IH ss) by done. rewrite (says_cons ifn s ss cfg). unfold says_verbose. by rewrite !latest_cons.
Qed.

(** The help text is printed without writing past its line buffer when no
    name with a metavariable is longer than 27 characters. *)
Lemma print_options_defined wrappers ws req : named wrappers = Some ws ->
  (forall w n, w ∈ ws -> o_name (w_option w) = Some n -> w_metavar w <> None -> (length n <= 27)%nat) ->
  is_Some (_print_options wrappers req).
Proof.
  revert ws. induction wrappers as [| w wrappers IH]; intros ws; cbn [named _print_options]; [done |].
  destruct (o_name (w_option w)) as [n |] eqn:En; [| by eauto].
  destruct (named wrappers) as [ws' |]; [| done]. intros [= <-] Hlen.
  destruct (IH ws' eq_refl) as [rest Hrest]; [intros w' n' Hin; apply Hlen; set_solver |].
  rewrite Hrest. destruct (negb _); [by eauto |]. unfold print_option, snprintf.
  destruct (w_metavar w) as [m |] eqn:Em; [| by eauto].
  assert (length n <= 27)%nat as Hn by (apply (Hlen w); [set_solver | done | by rewrite Em]).
  rewrite (proj2 (Z.ltb_ge (Z.of_nat BUFSIZE) _)); [by eexists |].
  rewrite zlen_app. unfold zlen, BUFSIZE. change (length (str " --")) with 3%nat. lia.
Qed.

Lemma usage_defined prog doc wrappers ws full : named wrappers = Some ws ->
  (forall w n, w ∈ ws -> o_name (w_option w) = Some n -> w_metavar w <> None -> (length n <= 27)%nat) ->
  is_Some (usage prog doc wrappers full).
Proof.
  intros Hw Hlen. unfold usage. destruct full; cbn [negb]; [| by eauto].
  destruct (print_options_defined wrappers ws true Hw Hlen) as [a ->].
  destruct (print_options_defined wrappers ws false Hw Hlen) as [b ->]. by eauto.
Qed.

(** C38: a command line means what its options say.  For any table of long options
    whose entries have the numbers the code gives the options, an array of options
    that could be allocated, and a command line made of options, by letter or by a name of
    the table, with arguments attached or as the next word (arguments have no NUL byte), mixed with
    other words and optionally ended by [--]: if no option is refused, every
    field of the configuration is as the last option about it says, and
    unchanged if there is none.  [-d] and [-r] give the interface, its index and its name, [-A], [-S],
    [-N] and option 3 the attach mode, [-S], [-c] and [-z] which one of the bits for copying
    and for not copying is set, [-U] the program to unload, [-M], [-p], 4 and
    [-q] switch something on or off, [-Q], 1, 2, [-L] and [-R] give the queue, the file,
    the program and the addresses.  Otherwise the usage text is printed, the
    full one if the first refused option is [-h], and the process exits with
    EXIT_FAIL_OPTION; refused are [-h], [-F], and the name of an interface that has 16 characters or more
    or no index.  Names of options with a metavariable must have at most 27
    characters, for the help text. *)
Theorem parse_cmdline_args_items ifn wrappers ws prog doc ss l cfg verbose :
  named wrappers = Some ws -> cmdline (map w_option ws) ss l -> Forall (fun s => forall a, argument s = Some a -> NUL ∉ a) ss ->
  (forall w n, w ∈ ws -> o_name (w_option w) = Some n -> w_metavar w <> None -> (length n <= 27)%nat) ->
  let result := parse_cmdline_args ifn wrappers prog doc true l cfg verbose in
  match List.find (refused ifn) ss with
  | None => result = Some (Parsed (says ifn ss cfg) (says_verbose ss verbose))
  | Some s => exists out, result = Some (Exited EXIT_FAIL_OPTION out) /\
      match s with
      | Help => exists options, out = str "Usage: " ++ prog ++ str " [options]" ++ [x0a] ++ [x0a] ++ str "DOCUMENTATION:" ++ [x0a] ++ str " " ++ doc ++ [x0a] ++ options
      | _ => out = str "Usage: " ++ prog ++ str " [options]" ++ [x0a] ++ str "Use --help (or -h) to see full option list." ++ [x0a]
      end
  end.
Proof.
  intros Hw Hc Ha Hn result. destruct (cmdline_items _ _ _ Hc) as (items & tail & -> & Hi & Ht & Hm).
  unfold result. rewrite (parse_items _ _ ws) by done. rewrite (apply_items_says _ _ _ _ _ _ ss) by done.
  destruct (List.find (refused ifn) ss) as [s |]; [| done].
  destruct (usage_defined prog doc wrappers ws (match s with Help => true | _ => false end) Hw Hn) as [out Hout]. rewrite Hout.
  exists out. split; [done |]. unfold usage in Hout. destruct s; cbn [negb] in Hout; try (by injection Hout as <-; rewrite <- !app_assoc).
  destruct (_print_options wrappers true) as [req |]; [| done]. destruct (_print_options wrappers false) as [other |]; [| done].
  cbn [mbind option_bind] in Hout. injection Hout as <-. eexists. rewrite <- !app_assoc. reflexivity.
Qed.

(** ** The configuration stays well formed *)

Record config_ok (cfg : config) : Prop := {
  ok_ifname : length (ifname_buf cfg) = IF_NAMESIZE /\ NUL ∈ ifname_buf cfg;
  ok_redirect : length (redirect_ifname_buf cfg) = IF_NAMESIZE /\ NUL ∈ redirect_ifname_buf cfg;
  ok_ifindex : ifname cfg = true -> ifindex cfg <> 0;
  ok_filename : length (filename cfg) = 512%nat;
  ok_progname : length (progname cfg) = 32%nat;
  ok_macs : length (src_mac cfg) = 18%nat /\ length (dest_mac cfg) = 18%nat;
  ok_prog_id : 0 <= prog_id cfg < 2 ^ 32;
  ok_bind : Z.testbit (xsk_bind_flags cfg) 1 && Z.testbit (xsk_bind_flags cfg) 2 = false
}.

Lemma u16_testbit x i : 0 <= i < 16 -> Z.testbit (u16 x) i = Z.testbit x i.
Proof. intros. unfold u16. apply Z.mod_pow2_bits_low. lia. Qed.

(** Copy mode and zero-copy mode exclude each other. *)
Lemma bind_exclusive x :
  (let f := set16 (clear16 x XDP_ZEROCOPY) XDP_COPY in Z.testbit f 1 && Z.testbit f 2) = false /\
  (let f := set16 (clear16 x XDP_COPY) XDP_ZEROCOPY in Z.testbit f 1 && Z.testbit f 2) = false.
Proof.
  unfold set16, clear16. split; cbv zeta;
    rewrite !u16_testbit, !Z.lor_spec, !u16_testbit, !Z.land_spec, !Z.lnot_spec by lia;
    unfold XDP_COPY, XDP_ZEROCOPY; simpl; rewrite ?andb_false_r; done.
Qed.

Lemma strncpy_terminated n src : (length src < n)%nat -> NUL ∈ strncpy n src.
Proof.
  intros H. unfold strncpy. apply elem_of_app. right. apply elem_of_replicate. split; [done | lia].
Qed.

Lemma parse_switch_ok ifn opt optarg cfg verbose cfg' verbose' :
  config_ok cfg -> parse_switch ifn opt optarg cfg verbose = Some (Break cfg' verbose') -> config_ok cfg'.
Proof.
  intros HC. unfold parse_switch.
  repeat lazymatch goal with
  | |- (if ?b then _ else _) = _ -> _ => destruct b eqn:?
  | |- (optarg ≫= _) = _ -> _ => destruct optarg as [arg |]; cbn [mbind option_bind]; [| discriminate]
  end.
  all: intros [= <- <-] || intros [=].
  all: destruct cfg, HC; split; cbn -[strncpy u32 set16 clear16 IF_NAMESIZE] in *;
    unfold constant; try done.
  all: try (split; [apply length_strncpy | apply strncpy_terminated;
    match goal with H : (_ <=? zlen _) = false |- _ => apply Z.leb_gt in H; unfold zlen in H; lia end]).
  all: try (by apply bind_exclusive).
  all: try (intros _; lia).
  all: try (by apply length_strncpy).
  all: try apply u32_range.
  all: split; try (by apply length_strncpy); tauto.
Qed.

Lemma parse_loop_ok ifn ws prog doc longopts fuel : forall s cfg verbose cfg' verbose',
  config_ok cfg ->
  parse_loop ifn ws prog doc fuel longopts s cfg verbose = Some (Parsed cfg' verbose') -> config_ok cfg'.
Proof.
  induction fuel as [| fuel IH]; intros s cfg verbose cfg' verbose' HC; cbn [parse_loop]; [done |].
  destruct (getopt_long shortopts longopts s) as [[o a s' |] |]; cbn [mbind option_bind]; [| congruence | done].
  destruct (parse_switch _ _ _ _ _) as [[cfg1 verbose1 | full] |] eqn:E; cbn [mbind option_bind]; [| | done].
  - intros H. eapply IH; [| exact H]. by eapply parse_switch_ok.
  - destruct (usage _ _ _ _); discriminate.
Qed.

(** Whatever the arguments, a configuration that [parse_cmdline_args]
    returns is well formed if the one it was given is: every buffer keeps its
    size, the device names are terminated, a device name that was stored
    belongs to an interface that exists, and copy and zero-copy mode are never
    both requested. *)
Theorem parse_cmdline_args_ok ifn wrappers prog doc malloc_ok argv cfg verbose cfg' verbose' :
  config_ok cfg ->
  parse_cmdline_args ifn wrappers prog doc malloc_ok argv cfg verbose = Some (Parsed cfg' verbose') ->
  config_ok cfg'.
Proof.
  intros HC. unfold parse_cmdline_args.
  destruct (option_wrappers_to_options _ _) as [[lo |] |]; cbn [mbind option_bind]; [| done | done].
  by apply parse_loop_ok.
Qed.

(** The copied option table has no terminating entry.  A long option that
    is not spelled exactly like an entry (an abbreviation, a typing error) makes
    [getopt_long] read past the table, where a terminated table would have led
    to the usage text. *)
Theorem unknown_long_option_overread ifn wrappers ws prog doc n rest cfg verbose :
  named wrappers = Some ws -> n <> [] ->
  (forall w, w ∈ ws -> o_name (w_option w) <> Some (fst (split_eq n))) ->
  parse_cmdline_args ifn wrappers prog doc true ((dash :: dash :: n) :: rest) cfg verbose = None.
Proof.
  intros Hw Hn Hno. unfold parse_cmdline_args, option_wrappers_to_options. rewrite Hw.
  cbn [mbind option_bind]. rewrite Nat.add_comm. cbn [parse_loop Nat.add]. unfold getopt_long.
  cbn [nextchar args next_arg]. rewrite !decide_True by done. destruct n as [| b n]; [done |].
  unfold long_option. destruct (split_eq (b :: n)) as [name value]. simpl in Hno.
  assert (find_exact (map w_option ws) name = None) as ->; [| done].
  clear Hw. induction ws as [| w ws IH]; simpl; [done |].
  rewrite decide_False by (apply Hno; set_solver). apply IH. set_solver.
Qed.

(** ** A concrete table *)

Definition sample_wrappers : list option_wrapper :=
  [ {| w_option := {| o_name := Some (str "dev"); o_has_arg := required_argument; o_flag := false; o_val := chr "d" |};
       w_help := Some (str "Operate on device"); w_metavar := Some (str "<ifname>"); w_required := true |};
    {| w_option := {| o_name := Some (str "unload"); o_has_arg := required_argument; o_flag := false; o_val := chr "U" |};
       w_help := Some (str "Unload XDP program"); w_metavar := Some (str "<id>"); w_required := false |};
    {| w_option := {| o_name := None; o_has_arg := 0; o_flag := false; o_val := 0 |};
       w_help := None; w_metavar := None; w_required := false |} ].

Definition sample_settings : list setting := [Dev (str "lo"); Unload (str "7"); NativeMode; SkbMode].

Lemma sample_cmdline : cmdline (map w_option (take 2 sample_wrappers)) sample_settings
  ([str "-d"; str "lo"] ++ str "x" :: [str "--unload=7"] ++ [str "-N"] ++ [str "-S"] ++ [str "--"; str "-z"]).
Proof.
  apply Cl_option; [by apply (Sp_letter_next _ _ "d"%byte) |]. apply Cl_word; [done |]. apply Cl_option.
  { eapply (Sp_name_attached _ _ (str "unload") {| o_name := Some (str "unload"); o_has_arg := required_argument; o_flag := false; o_val := chr "U" |} (str "7")); [| done | done].
    split; [done |]. split; [apply (bool_decide_unpack _); vm_compute; done |]. split_and!; [done | done | done |].
    eexists [_], []. split; [reflexivity |]. by repeat constructor. }
  apply Cl_option; [by apply (Sp_letter _ _ "N"%byte) |]. apply Cl_option; [by apply (Sp_letter _ _ "S"%byte) |]. apply Cl_dashes.
Qed.

(** [-d lo x --unload=7 -N -S -- -z]: the last mode counts. *)
Lemma parse_cmdline_args_items_witness :
  exists cfg, parse_cmdline_args (fun _ => 1) sample_wrappers (str "p") (str "doc") true
      [str "-d"; str "lo"; str "x"; str "--unload=7"; str "-N"; str "-S"; str "--"; str "-z"] config_zero true = Some (Parsed cfg true) /\
    ifindex cfg = 1 /\ prog_id cfg = 7 /\ attach_mode cfg = XDP_MODE_SKB /\ xsk_bind_flags cfg = XDP_COPY.
Proof.
  pose proof (parse_cmdline_args_items (fun _ => 1) sample_wrappers (take 2 sample_wrappers) (str "p") (str "doc") sample_settings _ config_zero true
    eq_refl sample_cmdline) as H.
  eexists. split; [apply H |].
  - repeat constructor; intros a [= <-]; apply (bool_decide_unpack _); vm_compute; done.
  - intros w n Hw. apply list_elem_of_In in Hw. destruct Hw as [<- | [<- | []]]; intros [= <-] _; cbn; lia.
  - by vm_compute.
Defined.

Lemma parse_cmdline_args_ok_witness :
  exists cfg, parse_cmdline_args (fun _ => 1) sample_wrappers (str "p") (str "doc") true
      [str "-Sz"; str "-dlo"] config_zero true = Some (Parsed cfg true) /\
    (Z.testbit (xsk_bind_flags cfg) 1 && Z.testbit (xsk_bind_flags cfg) 2 = false).
Proof.
  eexists. split; [vm_compute; reflexivity |].
  eapply ok_bind, (parse_cmdline_args_ok (fun _ => 1) sample_wrappers (str "p") (str "doc") true
    [str "-Sz"; str "-dlo"] config_zero true); [| vm_compute; reflexivity].
  split; simpl; try done; lia || (split; [done | apply (bool_decide_unpack _); vm_compute; done]).
Defined.

Lemma unknown_long_option_overread_witness :
  parse_cmdline_args (fun _ => 1) sample_wrappers (str "p") (str "doc") true [str "--devv"] config_zero true = None.
Proof.
  apply (unknown_long_option_overread (fun _ => 1) sample_wrappers (take 2 sample_wrappers)); [done | done |].
  intros w Hw. apply list_elem_of_In in Hw. destruct Hw as [<- | [<- | []]]; done.
Defined.
