(* ===== verification/CommonUserXdp.v ===== *)
(** Loading and unloading XDP programs: src/common/common_user_bpf_xdp.c and
    common_user_bpf_xdp.h.

    libxdp and the BPF system calls are an interface ([Libxdp]) over a state
    [Net] of the host: the multi-programs it hands out, attaching, detaching;
    nothing is assumed of them here (the files on libxdp model what they do).
    Functions that end the process return it as a value. *)
From S2P Require Import Prelude.
From S2P Require Import CLib.
From S2P Require Import CommonParams.
From S2P Require Import BpfMaps.

Definition ENOENT_errno : Z := 2.
Definition EINVAL_errno : Z := 22.
Definition PATH_MAX : nat := 4096.

(** ** Pointers of libxdp: an error code, null, or an object *)

Inductive ptr (A : Type) := PErr (err : Z) | PNull | PObj (a : A).
Arguments PErr {A} err.
Arguments PNull {A}.
Arguments PObj {A} a.

(** [libxdp_get_error]: 0 unless the pointer is an error. *)
Definition libxdp_get_error {A} (p : ptr A) : Z := match p with PErr e => e | _ => 0 end.

(** The object of a pointer that is not an error. *)
Definition deref {A} (p : ptr A) : option A := match p with PObj a => Some a | _ => None end.

Record xdp_program := { xp_id : Z; xp_fd : Z }.

Record xdp_multiprog := {
  mp_progs : list xdp_program;      (** what [xdp_multiprog__next_prog] walks over *)
  mp_is_legacy : bool;
  mp_main_prog : option xdp_program;
  mp_hw_prog : option xdp_program;
  mp_attach_mode : Z
}.

(** [xdp_program__id] and [xdp_program__fd] of a pointer that may be null. *)
Definition xdp_program__id (p : option xdp_program) : Z := match p with Some p => xp_id p | None => 0 end.
Definition xdp_program__fd (p : option xdp_program) : Z := match p with Some p => xp_fd p | None => -1 end.

Class Libxdp (Net : Type) := {
  xdp_program__create : Net -> list byte -> list byte -> ptr xdp_program * Net;
  (** the program object is updated: loading it sets its descriptor and id *)
  xdp_program__attach : Net -> option xdp_program -> Z -> Z -> Z * option xdp_program * Net;
  xdp_multiprog__get_from_ifindex : Net -> Z -> ptr xdp_multiprog;
  xdp_multiprog__detach : Net -> Z -> xdp_multiprog -> Z * Net;
  xdp_program__detach : Net -> option xdp_program -> Z -> Z -> Z * Net
}.

(** ** action2str *)

Definition xdp_action_names : list (list byte) :=
  [str "XDP_ABORTED"; str "XDP_DROP"; str "XDP_PASS"; str "XDP_TX"; str "XDP_REDIRECT"; str "XDP_UNKNOWN"].

Definition XDP_ACTION_MAX : Z := 6.

(** [Some None] is the null pointer. *)
Definition action2str (action : Z) : option (option (list byte)) :=
  if action <? XDP_ACTION_MAX then Some <$> xdp_action_names !! Z.to_nat action else Some None.

(** ** Maps *)

(** The fields of [struct bpf_map_info] the code compares. *)
Record bpf_map_info := { i_type : Z; i_key_size : Z; i_value_size : Z; i_max_entries : Z }.

Definition check_map_fd_info (info exp : bpf_map_info) : Z :=
  if negb (i_key_size exp =? 0) && negb (i_key_size exp =? i_key_size info) then EXIT_FAIL else
  if negb (i_value_size exp =? 0) && negb (i_value_size exp =? i_value_size info) then EXIT_FAIL else
  if negb (i_max_entries exp =? 0) && negb (i_max_entries exp =? i_max_entries info) then EXIT_FAIL else
  if negb (i_type exp =? 0) && negb (i_type exp =? i_type info) then EXIT_FAIL else 0.

(** [reuse_maps]: the names of the object's maps in order; [bpf_obj_get] of a
    path, and [bpf_map__reuse_fd] of a map and a descriptor.  The trace lists
    the maps that were redirected. *)
Section Maps.
Context (bpf_obj_get : list byte -> Z) (bpf_map__reuse_fd : list byte -> Z -> Z).

Fixpoint reuse_each (maps : list (list byte)) (path : list byte) : Z * list (list byte * Z) :=
  match maps with
  | [] => (0, [])
  | m :: maps' =>
    let '(buf, len) := snprintf PATH_MAX (path ++ str "/" ++ m) in
    if len <? 0 then (- EINVAL_errno, []) else
    if Z.of_nat PATH_MAX <=? len then (- ENAMETOOLONG, []) else
    let pinned_map_fd := bpf_obj_get (cstr buf) in
    if pinned_map_fd <? 0 then (pinned_map_fd, []) else
    let err := bpf_map__reuse_fd m pinned_map_fd in
    if negb (err =? 0) then (err, []) else
    let '(r, t) := reuse_each maps' path in (r, (m, pinned_map_fd) :: t)
  end.

Definition reuse_maps (obj : option (list (list byte))) (path : option (list byte)) :
    Z * list (list byte * Z) :=
  match obj, path with
  | None, _ => (- ENOENT_errno, [])
  | Some _, None => (- EINVAL_errno, [])
  | Some maps, Some path => reuse_each maps path
  end.

(** [open_bpf_map_file]: the return value, and the descriptor the call
    opened, if any. *)
Definition open_bpf_map_file (bpf_obj_get_info_by_fd : Z -> Z) (pin_dir mapname : list byte) (want_info : bool) :
    Z * option Z :=
  let '(buf, len) := snprintf PATH_MAX (pin_dir ++ str "/" ++ mapname) in
  if len <? 0 then (-1, None) else
  let fd := bpf_obj_get (cstr buf) in
  if fd <? 0 then (fd, None) else
  if want_info then
    if negb (bpf_obj_get_info_by_fd fd =? 0) then (EXIT_FAIL_BPF, Some fd) else (fd, Some fd)
  else (fd, Some fd).

End Maps.

(** ** Loading and unloading *)

(** A call that returns, or ends the process with a code. *)
Inductive ctrl (A : Type) := Return (a : A) | Exit (code : Z).
Arguments Return {A} a.
Arguments Exit {A} code.

Section Load.
Context {Net : Type} `{Libxdp Net}.

(** The file and program names are read as strings: [None] when one of the
    buffers has no terminator. *)
Definition load_bpf_and_xdp_attach (cfg : config) (n : Net) : option (ctrl (option xdp_program) * Net) :=
  _ ← strlen (filename cfg);
  _ ← strlen (progname cfg);
  let '(prog, n) := xdp_program__create n (cstr (filename cfg)) (cstr (progname cfg)) in
  if negb (libxdp_get_error prog =? 0) then Some (Exit EXIT_FAIL_BPF, n) else
  let '(err, prog, n) := xdp_program__attach n (deref prog) (ifindex cfg) (attach_mode cfg) in
  if negb (err =? 0) then Some (Exit err, n) else
  if xdp_program__fd prog <? 0 then Some (Exit EXIT_FAIL_BPF, n) else Some (Return prog, n).

(** The search of [do_unload] for the program with id [id]: the program and
    the mode to detach it from. *)
Definition find_prog (mp : xdp_multiprog) (id : Z) : option (option xdp_program * Z) :=
  match find (fun p => xp_id p =? id) (mp_progs mp) with
  | Some p => Some (Some p, mp_attach_mode mp)
  | None =>
    if mp_is_legacy mp && (xdp_program__id (mp_main_prog mp) =? id)
    then Some (mp_main_prog mp, mp_attach_mode mp)
    else if xdp_program__id (mp_hw_prog mp) =? id then Some (mp_hw_prog mp, XDP_MODE_HW) else None
  end.

Definition EXIT_FAILURE : Z := 1.
Definition EXIT_SUCCESS : Z := 0.

Definition do_unload (cfg : config) (n : Net) : Z * Net :=
  let mp := xdp_multiprog__get_from_ifindex n (ifindex cfg) in
  let '(err, n) :=
    if negb (libxdp_get_error mp =? 0) then (EXIT_FAILURE, n) else
    match deref mp with
    | None => (EXIT_FAILURE, n)
    | Some mp =>
      if unload_all cfg then xdp_multiprog__detach n (ifindex cfg) mp
      else match find_prog mp (prog_id cfg) with
           | Some (prog, mode) => xdp_program__detach n prog (ifindex cfg) mode
           | None => (- ENOENT_errno, n)
           end
    end in
  (if negb (err =? 0) then EXIT_FAILURE else EXIT_SUCCESS, n).

End Load.

(** ** Properties *)

Lemma find_xp id l p : find (fun p => xp_id p =? id) l = Some p -> p ∈ l /\ xp_id p = id.
Proof.
  intros E. apply find_some in E as [Hin E]. split; [by apply list_elem_of_In | lia].
Qed.

(** The programs a multi-program stands for, with the mode each is attached in. *)
Definition shown (mp : xdp_multiprog) : list (xdp_program * Z) :=
  map (fun p => (p, mp_attach_mode mp))
    (if mp_is_legacy mp then match mp_main_prog mp with Some p => [p] | None => [] end else mp_progs mp) ++
  match mp_hw_prog mp with Some p => [(p, XDP_MODE_HW)] | None => [] end.

(** The search finds a program with the identifier, in its mode, when there is
    one; a legacy multi-program has no programs to walk over. *)
Lemma find_prog_spec mp id : id <> 0 -> (mp_is_legacy mp = true -> mp_progs mp = []) ->
  match find_prog mp id with
  | Some (p, mode) => exists q, p = Some q /\ (q, mode) ∈ shown mp /\ xp_id q = id
  | None => forall q mode, (q, mode) ∈ shown mp -> xp_id q <> id
  end.
Proof.
  intros Hid Hleg. unfold find_prog, shown. destruct (find _ _) as [q |] eqn:Ef.
  { apply find_xp in Ef as [Hin Hq]. exists q. split_and!; [done | | done].
    destruct (mp_is_legacy mp); [rewrite Hleg in Hin by done; set_solver |].
    apply elem_of_app. left. apply list_elem_of_fmap. by exists q. }
  destruct (mp_is_legacy mp && _) eqn:El.
  { apply andb_true_iff in El as [El Eid]. apply Z.eqb_eq in Eid. rewrite El.
    destruct (mp_main_prog mp) as [q |]; simpl in *; [| lia]. exists q. split_and!; [done | set_solver | done]. }
  destruct (xdp_program__id (mp_hw_prog mp) =? id) eqn:Eh.
  { apply Z.eqb_eq in Eh. destruct (mp_hw_prog mp) as [q |]; simpl in *; [| lia]. exists q. split_and!; [done | set_solver | done]. }
  apply Z.eqb_neq in Eh. intros q mode [Hin | Hin]%elem_of_app.
  - apply list_elem_of_fmap in Hin as (q' & [= -> ->] & Hin). destruct (mp_is_legacy mp).
    + destruct (mp_main_prog mp) as [q2 |]; [| set_solver]. apply list_elem_of_singleton in Hin as ->. simpl in El. lia.
    + apply list_elem_of_In in Hin. pose proof (find_none _ _ Ef _ Hin) as Hn. simpl in Hn. lia.
  - destruct (mp_hw_prog mp) as [q' |]; [| set_solver]. apply list_elem_of_singleton in Hin as [= -> ->]. done.
Qed.

Section Unload.
Context {Net : Type} `{Libxdp Net}.

Lemma do_unload_range cfg n : fst (do_unload cfg n) = 0 \/ fst (do_unload cfg n) = 1.
Proof.
  unfold do_unload. destruct (negb (libxdp_get_error _ =? 0)); [by right |].
  destruct (deref _) as [mp |]; [| by right]. destruct (if unload_all cfg then _ else _) as [err n1].
  destruct (negb (err =? 0)); [by right | by left].
Qed.

(** Unloading by identifier: success is success of detaching a program with
    that identifier from the interface, in the mode it is attached in; when none
    is shown, nothing is done. *)
Lemma do_unload_one cfg (n : Net) mp : unload_all cfg = false -> prog_id cfg <> 0 -> (mp_is_legacy mp = true -> mp_progs mp = []) ->
  xdp_multiprog__get_from_ifindex n (ifindex cfg) = PObj mp ->
  (exists q mode, (q, mode) ∈ shown mp /\ xp_id q = prog_id cfg /\
     let '(err, n') := xdp_program__detach n (Some q) (ifindex cfg) mode in do_unload cfg n = (if err =? 0 then 0 else 1, n')) \/
  ((forall q mode, (q, mode) ∈ shown mp -> xp_id q <> prog_id cfg) /\ do_unload cfg n = (1, n)).
Proof.
  intros Hall Hid Hleg Hget. unfold do_unload. rewrite Hget. cbn [libxdp_get_error deref Z.eqb negb]. rewrite Hall.
  pose proof (find_prog_spec mp (prog_id cfg) Hid Hleg) as Hf. destruct (find_prog mp (prog_id cfg)) as [[p mode] |]; [left | by right].
  destruct Hf as (q & -> & Hin & Hq). exists q, mode. split_and!; [done | done |].
  destruct (xdp_program__detach n (Some q) (ifindex cfg) mode) as [err n']. by destruct (err =? 0).
Qed.
End Unload.

(** ** A concrete host

    Programs are numbered as they are attached; loading fails for an empty
    file name. *)

Record host := { h_progs : gmap Z (list positive); h_next : positive }.

Definition host_progs (h : host) (ifx : Z) : list positive := default [] (h_progs h !! ifx).

Definition host_mp (l : list positive) : xdp_multiprog :=
  {| mp_progs := map (fun p => {| xp_id := Z.pos p; xp_fd := Z.pos p |}) l; mp_is_legacy := false;
     mp_main_prog := None; mp_hw_prog := None; mp_attach_mode := XDP_MODE_SKB |}.

Fixpoint remove_one (id : Z) (l : list positive) : option (list positive) :=
  match l with
  | [] => None
  | p :: l' => if Z.pos p =? id then Some l' else cons p <$> remove_one id l'
  end.

#[global] Instance host_libxdp : Libxdp host := {
  xdp_program__create h f _ :=
    (match f with [] => PErr (- ENOENT_errno) | _ => PObj {| xp_id := 0; xp_fd := -1 |} end, h);
  xdp_program__attach h p ifx _ :=
    match p with
    | None => (- EINVAL_errno, None, h)
    | Some _ => (0, Some {| xp_id := Z.pos (h_next h); xp_fd := Z.pos (h_next h) |},
                 {| h_progs := <[ifx := h_next h :: host_progs h ifx]> (h_progs h); h_next := h_next h + 1 |})
    end;
  xdp_multiprog__get_from_ifindex h ifx :=
    match host_progs h ifx with [] => PErr (- ENOENT_errno) | l => PObj (host_mp l) end;
  xdp_multiprog__detach h ifx _ := (0, {| h_progs := delete ifx (h_progs h); h_next := h_next h |});
  xdp_program__detach h p ifx _ :=
    match p with
    | None => (- EINVAL_errno, h)
    | Some p =>
      match remove_one (xp_id p) (host_progs h ifx) with
      | Some l => (0, {| h_progs := <[ifx := l]> (h_progs h); h_next := h_next h |})
      | None => (- ENOENT_errno, h)
      end
    end
}.

Definition sample_cfg : config :=
  config_zero {{ ifindex := 2; filename := strncpy 512 (str "prog.o"); progname := strncpy 32 (str "xdp_prog") }}.

(** Attaching, and unloading what was attached. *)
Lemma sample_load_unload :
  let n := {| h_progs := {[ 2 := [5%positive] ]}; h_next := 7 |} in
  match load_bpf_and_xdp_attach sample_cfg n with
  | Some (Return (Some p), n1) => xp_id p = 7 /\ host_progs n1 2 = [7%positive; 5%positive] /\
      host_progs (snd (do_unload sample_cfg {{ prog_id := 7 }} n1)) 2 = [5%positive]
  | _ => False
  end.
Proof. by vm_compute. Qed.

(** ** Maps *)

(** The expectation holds: every field that is asked for agrees. *)
Definition meets (exp info : Z) : Prop := exp = 0 \/ exp = info.

Lemma meets_test exp info : negb (exp =? 0) && negb (exp =? info) = false <-> meets exp info.
Proof. unfold meets. destruct (exp =? 0) eqn:E1, (exp =? info) eqn:E2; simpl; lia. Qed.

(** [check_map_fd_info] accepts a map exactly when each of its key size,
    value size, number of entries and type is what is expected of it, a zero
    expectation standing for any value. *)
Theorem check_map_fd_info_iff info exp :
  check_map_fd_info info exp = 0 <->
  meets (i_key_size exp) (i_key_size info) /\ meets (i_value_size exp) (i_value_size info) /\
  meets (i_max_entries exp) (i_max_entries info) /\ meets (i_type exp) (i_type info).
Proof.
  rewrite <- !meets_test. unfold check_map_fd_info.
  destruct (negb (i_key_size exp =? 0) && _); [naive_solver |].
  destruct (negb (i_value_size exp =? 0) && _); [naive_solver |].
  destruct (negb (i_max_entries exp =? 0) && _); [naive_solver |].
  destruct (negb (i_type exp =? 0) && _); naive_solver.
Qed.

(** The path of a pinned map. *)
Definition pin_path (dir m : list byte) : list byte := dir ++ str "/" ++ m.

Lemma snprintf_fits n out : NUL ∉ out -> (length out < n)%nat -> cstr (fst (snprintf n out)) = out.
Proof.
  intros H Hl. destruct n as [| n]; [lia |]. simpl. rewrite take_ge by lia. by apply cstr_app_nul.
Qed.

Lemma pin_path_nul dir m : NUL ∉ dir -> NUL ∉ m -> NUL ∉ pin_path dir m.
Proof.
  intros Hd Hm. unfold pin_path. rewrite !not_elem_of_app. split_and!; [done | | done].
  apply (bool_decide_unpack _). done.
Qed.

(** [reuse_maps] redirects every map of the object, in order, each to the
    object pinned under its own name in the given directory, and returns 0; or
    stops at the first map whose path is too long, whose pin cannot be opened or
    that cannot be redirected, with that error, having redirected the ones before
    it. *)
Theorem reuse_maps_spec get reuse maps path :
  NUL ∉ path -> Forall (fun m => NUL ∉ m) maps -> (forall m fd, reuse m fd <= 0) ->
  let '(r, t) := reuse_maps get reuse (Some maps) (Some path) in
  t = map (fun m => (m, get (pin_path path m))) (take (length t) maps) /\
  Forall (fun '(m, fd) => 0 <= fd /\ (length (pin_path path m) < PATH_MAX)%nat /\ reuse m fd = 0) t /\
  (r = 0 <-> length t = length maps) /\ r <= 0.
Proof.
  intros Hp. cbn [reuse_maps]. induction maps as [| m maps IH]; intros Hm Hreuse; cbn [reuse_each]; [done |].
  apply Forall_cons in Hm as [Hm Hms]. specialize (IH Hms Hreuse).
  change (path ++ str "/" ++ m) with (pin_path path m).
  pose proof (pin_path_nul path m Hp Hm) as Hn. pose proof (snprintf_fits PATH_MAX _ Hn) as Hs.
  destruct (snprintf PATH_MAX (pin_path path m)) as [buf len] eqn:E.
  apply (f_equal snd) in E. cbn [snd snprintf] in E. subst len.
  rewrite (proj2 (Z.ltb_ge (zlen _) 0)) by (unfold zlen; lia).
  destruct (Z.of_nat PATH_MAX <=? _) eqn:El; [by split_and! |]. apply Z.leb_gt in El. unfold zlen in El.
  assert (length (pin_path path m) < PATH_MAX)%nat as Hl by lia. specialize (Hs Hl). simpl fst in Hs. rewrite Hs.
  destruct (get (pin_path path m) <? 0) eqn:Eg; [split_and!; [done | done | split; [lia | done] | lia] |].
  apply Z.ltb_ge in Eg. destruct (reuse m _ =? 0) eqn:Er; cbn [negb].
  - apply Z.eqb_eq in Er. destruct (reuse_each get reuse maps path) as [r t].
    destruct IH as (Ht & Hf & Hr & Hle). cbn [length take map]. split_and!; [by f_equal | | lia | lia].
    apply Forall_cons. done.
  - apply Z.eqb_neq in Er. split_and!; [done | done | split; [lia | done] | apply Hreuse].
Qed.

Lemma reuse_maps_spec_witness :
  let get := fun p => zlen p in let reuse := fun m (_ : Z) => if decide (m = str "b") then -1 else 0 in
  let '(r, t) := reuse_maps get reuse (Some [str "a"; str "b"; str "c"]) (Some (str "/sys")) in
  (r, t) = (-1, [(str "a", 6)]) /\ r <= 0.
Proof.
  intros get reuse. pose proof (reuse_maps_spec get reuse [str "a"; str "b"; str "c"] (str "/sys")) as H.
  destruct (reuse_maps get reuse _ _) as [r t] eqn:E. split; [rewrite <- E; vm_compute; reflexivity |].
  apply H.
  - apply (bool_decide_unpack _). vm_compute. done.
  - apply (bool_decide_unpack _). vm_compute. done.
  - intros m fd. unfold reuse. destruct (decide _); lia.
Defined.

(** The error path of [open_bpf_map_file] after the map was opened.  When
    the map's information cannot be read, the function returns EXIT_FAIL_BPF,
    the non-negative number 40 that its callers take for a descriptor, and the
    descriptor it opened is lost; a path that does not fit is cut and looked
    up all the same. *)
Theorem open_bpf_map_file_info_error get info dir name :
  let path := take (PATH_MAX - 1) (pin_path dir name) in
  NUL ∉ pin_path dir name -> 0 <= get path -> info (get path) <> 0 ->
  open_bpf_map_file get info dir name true = (40, Some (get path)).
Proof.
  intros path Hn Hg Hi. unfold open_bpf_map_file. change (dir ++ str "/" ++ name) with (pin_path dir name).
  assert (cstr (fst (snprintf PATH_MAX (pin_path dir name))) = path) as Hs.
  { unfold snprintf, path. cbn [PATH_MAX]. simpl fst. apply cstr_app_nul. intros Hin. apply Hn.
    rewrite <- (take_drop (PATH_MAX - 1)). apply elem_of_app. by left. }
  destruct (snprintf PATH_MAX (pin_path dir name)) as [buf len] eqn:E.
  apply (f_equal snd) in E. cbn [snd snprintf] in E. subst len. simpl fst in Hs. rewrite Hs.
  rewrite (proj2 (Z.ltb_ge (zlen _) 0)) by (unfold zlen; lia).
  rewrite (proj2 (Z.ltb_ge (get path) 0)) by lia. by rewrite (proj2 (Z.eqb_neq _ _) Hi).
Qed.

Lemma open_bpf_map_file_info_error_witness :
  open_bpf_map_file (fun _ => 7) (fun _ => -1) (str "/sys/fs/bpf") (str "stats") true = (40, Some 7).
Proof.
  apply (open_bpf_map_file_info_error (fun _ => 7) (fun _ => -1)); [| lia | lia].
  apply (bool_decide_unpack _). vm_compute. done.
Defined.
