(* ===== verification/CommonLibbpf.v ===== *)
(** Loading an object with pinned maps: src/common/common_libbpf.c and
    common_libbpf.h.

    libbpf is an interface ([libbpf_ops]) over the object's programs and maps.
    The function writes through the pointer to its argument (the descriptors of
    the pinned maps), so the entries are threaded through and returned. *)
From S2P Require Import Prelude.
From S2P Require Import CommonUserXdp.

(** ** IS_ERR_OR_NULL, on a 64-bit pointer *)

Definition MAX_ERRNO : Z := 4095.
Definition IS_ERR_VALUE (x : Z) : bool := u64 (- MAX_ERRNO) <=? x.
Definition IS_ERR_OR_NULL (ptr : Z) : bool := (ptr =? 0) || IS_ERR_VALUE (u64 ptr).

(** ** common_libbpf.h *)

Record bpf_pinned_map := { pm_name : list byte; pm_filename : list byte; pm_map_fd : Z }.

Record bpf_prog_load_attr_maps := {
  at_file : option (list byte);
  at_prog_type : Z;
  at_expected_attach_type : Z;
  at_ifindex : Z;
  at_pinned_maps : list bpf_pinned_map
}.

(** ** Objects *)

Record bpf_program := { bp_ifindex : Z; bp_type : Z; bp_expected_attach_type : Z; bp_fd : Z }.
Record bpf_map := { bm_name : list byte; bm_offload_neutral : bool; bm_ifindex : Z; bm_fd : Z }.
Record bpf_object := { bo_programs : list bpf_program; bo_maps : list bpf_map }.

(** The calls of libbpf: opening gives the pointer value and, when it is one,
    the object; [lo_reuse_fd] is the map as the call leaves it (its return value
    is not used); [lo_pin] returns 0 or an error. *)
Record libbpf_ops := {
  lo_open : list byte -> Z -> Z * bpf_object;
  lo_obj_get : list byte -> Z;
  lo_reuse_fd : bpf_map -> Z -> bpf_map;
  lo_load : bpf_object -> Z * bpf_object;
  lo_pin : bpf_map -> list byte -> Z
}.

Section Load.
Context (ops : libbpf_ops).

Definition set_program (a : bpf_prog_load_attr_maps) (p : bpf_program) : bpf_program :=
  {| bp_ifindex := at_ifindex a; bp_type := at_prog_type a;
     bp_expected_attach_type := at_expected_attach_type a; bp_fd := bp_fd p |}.

Definition set_map_fd (e : bpf_pinned_map) (fd : Z) : bpf_pinned_map :=
  {| pm_name := pm_name e; pm_filename := pm_filename e; pm_map_fd := fd |}.

(** The inner loop over the entries, for one map of the object: entries of
    that name are looked up in the file system. *)
Fixpoint open_entries (m : bpf_map) (es : list bpf_pinned_map) : bpf_map * list bpf_pinned_map :=
  match es with
  | [] => (m, [])
  | e :: es' =>
    let '(m, e) :=
      if decide (bm_name m = pm_name e) then
        let fd := lo_obj_get ops (pm_filename e) in
        if 0 <? fd then (lo_reuse_fd ops m fd, set_map_fd e fd) else (m, e)
      else (m, e) in
    let '(m, es') := open_entries m es' in (m, e :: es')
  end.

Definition set_map_ifindex (a : bpf_prog_load_attr_maps) (m : bpf_map) : bpf_map :=
  if bm_offload_neutral m then m
  else {| bm_name := bm_name m; bm_offload_neutral := bm_offload_neutral m;
          bm_ifindex := at_ifindex a; bm_fd := bm_fd m |}.

Fixpoint open_maps (a : bpf_prog_load_attr_maps) (ms : list bpf_map) (es : list bpf_pinned_map) :
    list bpf_map * list bpf_pinned_map :=
  match ms with
  | [] => ([], es)
  | m :: ms' =>
    let '(m, es) := open_entries (set_map_ifindex a m) es in
    let '(ms', es) := open_maps a ms' es in (m :: ms', es)
  end.

(** The second pair of loops: what was not found is pinned.  [pins] lists the
    successful calls. *)
Fixpoint pin_entries (m : bpf_map) (es : list bpf_pinned_map) :
    list bpf_pinned_map * list (list byte * list byte) :=
  match es with
  | [] => ([], [])
  | e :: es' =>
    let '(e, pins) :=
      if decide (bm_name m = pm_name e) then
        if negb (pm_map_fd e =? -1) then (e, [])
        else if negb (lo_pin ops m (pm_filename e) =? 0) then (e, [])
        else (set_map_fd e (bm_fd m), [(pm_name e, pm_filename e)])
      else (e, []) in
    let '(es', pins') := pin_entries m es' in (e :: es', pins ++ pins')
  end.

Fixpoint pin_maps (ms : list bpf_map) (es : list bpf_pinned_map) :
    list bpf_pinned_map * list (list byte * list byte) :=
  match ms with
  | [] => (es, [])
  | m :: ms' =>
    let '(es, pins) := pin_entries m es in
    let '(es, pins') := pin_maps ms' es in (es, pins ++ pins')
  end.

(** What a call leaves: its return value, the object and program descriptor
    it stored (when it did), the entries, and the pins it made. *)
Record load_result := {
  lr_ret : Z;
  lr_stored : option (bpf_object * Z);
  lr_pinned_maps : list bpf_pinned_map;
  lr_pins : list (list byte * list byte)
}.

Definition failed (err : Z) (es : list bpf_pinned_map) : option load_result :=
  Some {| lr_ret := err; lr_stored := None; lr_pinned_maps := es; lr_pins := [] |}.

(** A null [attr] is dereferenced by the initialiser of [open_attr]. *)
Definition bpf_prog_load_xattr_maps (attr : option bpf_prog_load_attr_maps) : option load_result :=
  a ← attr;
  match at_file a with
  | None => failed (- EINVAL_errno) (at_pinned_maps a)
  | Some file =>
    let '(obj, o) := lo_open ops file (at_prog_type a) in
    if IS_ERR_OR_NULL obj then failed (- ENOENT_errno) (at_pinned_maps a) else
    let progs := map (set_program a) (bo_programs o) in
    let es := map (fun e => set_map_fd e (-1)) (at_pinned_maps a) in
    let '(ms, es) := open_maps a (bo_maps o) es in
    match progs with
    | [] => failed (- ENOENT_errno) es
    | _ :: _ =>
      let '(err, o) := lo_load ops {| bo_programs := progs; bo_maps := ms |} in
      if negb (err =? 0) then failed (- EINVAL_errno) es else
      let '(es, pins) := pin_maps (bo_maps o) es in
      match bo_programs o with
      | first_prog :: _ =>
        Some {| lr_ret := 0; lr_stored := Some (o, bp_fd first_prog); lr_pinned_maps := es; lr_pins := pins |}
      | [] => None
      end
    end
  end.

End Load.

(** ** What a load does to the entries *)

Section Spec.
Context (ops : libbpf_ops).

(** Reusing a descriptor does not rename a map, and a load that succeeds
    keeps the object's programs and the names of its maps. *)
Record libbpf_ok : Prop := {
  ok_reuse_name m fd : bm_name (lo_reuse_fd ops m fd) = bm_name m;
  ok_load_names o o' : lo_load ops o = (0, o') -> map bm_name (bo_maps o') = map bm_name (bo_maps o);
  ok_load_programs o o' : lo_load ops o = (0, o') -> length (bo_programs o') = length (bo_programs o)
}.

(** An entry after the look-up, when the object's maps are called [names]. *)
Definition looked_up (names : list (list byte)) (e : bpf_pinned_map) : bpf_pinned_map :=
  if decide (pm_name e ∈ names /\ 0 < lo_obj_get ops (pm_filename e))
  then set_map_fd e (lo_obj_get ops (pm_filename e)) else e.

(** An entry after pinning to the maps [ms]. *)
Definition pinned (ms : list bpf_map) (e : bpf_pinned_map) : bpf_pinned_map :=
  match find (fun m => bool_decide (bm_name m = pm_name e)) ms with
  | Some m =>
    if (pm_map_fd e =? -1) && (lo_pin ops m (pm_filename e) =? 0) then set_map_fd e (bm_fd m) else e
  | None => e
  end.

Context (Hok : libbpf_ok).

Lemma looked_up_fold n names e : looked_up names (looked_up [n] e) = looked_up (n :: names) e.
Proof.
  unfold looked_up at 2. destruct (decide _) as [[H1 H2] | H1].
  - apply list_elem_of_singleton in H1. unfold looked_up. cbn [set_map_fd pm_name pm_filename].
    rewrite (decide_True (P := pm_name e ∈ n :: names /\ _)) by (split; [set_solver | done]).
    by destruct (decide _).
  - unfold looked_up. destruct (decide (pm_name e ∈ names /\ _)) as [H2 | H2].
    + rewrite decide_True; [done |]. set_solver.
    + rewrite decide_False; [done |]. set_solver.
Qed.

Lemma open_entries_spec es : forall m,
  snd (open_entries ops m es) = map (looked_up [bm_name m]) es /\
  bm_name (fst (open_entries ops m es)) = bm_name m.
Proof.
  induction es as [| e es IH]; intros m; [done |]. cbn [open_entries map].
  assert (looked_up [bm_name m] e =
    if decide (bm_name m = pm_name e)
    then if 0 <? lo_obj_get ops (pm_filename e) then set_map_fd e (lo_obj_get ops (pm_filename e)) else e
    else e) as ->.
  { unfold looked_up. destruct (decide (bm_name m = pm_name e)) as [Hn | Hn].
    - destruct (0 <? _) eqn:E; [rewrite decide_True | rewrite decide_False]; try done; [set_solver by lia | lia].
    - rewrite decide_False; [done |]. set_solver. }
  destruct (decide (bm_name m = pm_name e)); [destruct (0 <? _) |].
  - destruct (IH (lo_reuse_fd ops m (lo_obj_get ops (pm_filename e)))) as [E1 E2].
    destruct (open_entries _ _ _) as [m' es']. simpl in *. rewrite E2, E1, !(ok_reuse_name Hok). done.
  - destruct (IH m) as [E1 E2]. destruct (open_entries _ _ _). simpl in *. by rewrite E1, E2.
  - destruct (IH m) as [E1 E2]. destruct (open_entries _ _ _). simpl in *. by rewrite E1, E2.
Qed.

Lemma set_map_ifindex_name a m : bm_name (set_map_ifindex a m) = bm_name m.
Proof. unfold set_map_ifindex. by destruct (bm_offload_neutral m). Qed.

Lemma open_maps_spec a ms : forall es,
  snd (open_maps ops a ms es) = map (looked_up (map bm_name ms)) es /\
  map bm_name (fst (open_maps ops a ms es)) = map bm_name ms.
Proof.
  induction ms as [| m ms IH]; intros es; cbn [open_maps map].
  { split; [| done]. rewrite <- (map_id es) at 1. apply map_ext. intros e. unfold looked_up.
    rewrite decide_False; [done |]. set_solver. }
  destruct (open_entries_spec es (set_map_ifindex a m)) as [E1 E2].
  destruct (open_entries _ _ _) as [m' es']. simpl in E1, E2. rewrite set_map_ifindex_name in *.
  destruct (IH es') as [E3 E4]. destruct (open_maps _ _ _ _) as [ms' es'']. simpl in *.
  rewrite E2, E3, E4, E1, map_map. split; [| done]. apply map_ext. intros e. apply looked_up_fold.
Qed.

Lemma exists_cons {A} (P : A -> Prop) x l :
  (exists y, y ∈ x :: l /\ P y) <-> P x \/ exists y, y ∈ l /\ P y.
Proof. setoid_rewrite elem_of_cons. naive_solver. Qed.

Lemma or_same (A B X : Prop) : (A <-> B) -> (A \/ X <-> B \/ X).
Proof. tauto. Qed.

Lemma or_none (B X : Prop) : ~ B -> (X <-> B \/ X).
Proof. tauto. Qed.

(** One map's turn in the second pair of loops. *)
Lemma pin_entries_spec m es :
  fst (pin_entries ops m es) = map (pinned [m]) es /\
  forall n f, (n, f) ∈ snd (pin_entries ops m es) <->
    exists e, e ∈ es /\ (n, f) = (pm_name e, pm_filename e) /\ bm_name m = n /\
      pm_map_fd e = -1 /\ lo_pin ops m f = 0.
Proof.
  induction es as [| e es [IH1 IH2]]; [split; [done |]; intros n f; set_solver |].
  cbn [pin_entries map]. unfold pinned at 1. cbn [find].
  destruct (pin_entries ops m es) as [es' pins']. simpl in IH1, IH2.
  destruct (decide (bm_name m = pm_name e)) as [Hn | Hn].
  - rewrite bool_decide_eq_true_2 by done.
    destruct (pm_map_fd e =? -1) eqn:E1; cbn [negb andb].
    + apply Z.eqb_eq in E1.
      destruct (lo_pin ops m (pm_filename e) =? 0) eqn:E2; cbn [negb]; simpl; rewrite IH1;
        (split; [done |]); intros n f; rewrite ?elem_of_cons, IH2, exists_cons.
      * apply Z.eqb_eq in E2. apply or_same. split; [by intros [= -> ->] | tauto].
      * apply Z.eqb_neq in E2. apply or_none. intros ([= -> ->] & _ & _ & H). done.
    + apply Z.eqb_neq in E1. simpl. rewrite IH1. split; [done |]. intros n f.
      rewrite IH2, exists_cons. apply or_none. intros (_ & _ & H & _). done.
  - rewrite bool_decide_eq_false_2 by done. simpl. rewrite IH1. split; [done |].
    intros n f. rewrite IH2, exists_cons. apply or_none. intros ([= -> ->] & H & _). done.
Qed.

Lemma find_name_None e ms : pm_name e ∉ map bm_name ms ->
  find (fun m => bool_decide (bm_name m = pm_name e)) ms = None.
Proof.
  induction ms as [| m ms IH]; simpl; [done |]. rewrite not_elem_of_cons. intros [H1 H2].
  rewrite bool_decide_eq_false_2 by congruence. by apply IH.
Qed.

Lemma pinned_fold m ms e : bm_name m ∉ map bm_name ms ->
  pinned ms (pinned [m] e) = pinned (m :: ms) e.
Proof.
  intros Hn. unfold pinned at 2 3. cbn [find].
  destruct (bool_decide (bm_name m = pm_name e)) eqn:E; [| done]. apply bool_decide_eq_true in E.
  destruct (_ && _); unfold pinned; cbn [set_map_fd pm_name]; rewrite find_name_None; done || by rewrite <- E.
Qed.

Lemma pinned_unnamed m e : pm_name (pinned m e) = pm_name e /\ pm_filename (pinned m e) = pm_filename e.
Proof. unfold pinned. destruct (find _ _); [destruct (_ && _) |]; done. Qed.

Lemma pin_maps_spec ms : NoDup (map bm_name ms) -> forall es,
  fst (pin_maps ops ms es) = map (pinned ms) es /\
  forall n f, (n, f) ∈ snd (pin_maps ops ms es) <->
    exists e m, e ∈ es /\ m ∈ ms /\ (n, f) = (pm_name e, pm_filename e) /\ bm_name m = n /\
      pm_map_fd e = -1 /\ lo_pin ops m f = 0.
Proof.
  induction ms as [| m ms IH]; cbn [map pin_maps].
  { intros _ es. split; [simpl; by rewrite map_id | intros n f; split; [intros H; by apply elem_of_nil in H | intros (e & m & _ & H & _); by apply elem_of_nil in H]]. }
  rewrite NoDup_cons. intros [Hn Hnd] es. destruct (pin_entries_spec m es) as [E1 E2].
  destruct (pin_entries ops m es) as [es' pins]. simpl in E1, E2.
  destruct (IH Hnd es') as [E3 E4]. destruct (pin_maps ops ms es') as [es'' pins']. simpl in *.
  rewrite E3, E1, map_map. split; [apply map_ext; intros e; by apply pinned_fold |].
  intros n f. rewrite elem_of_app, E2, E4. split.
  - intros [(e & He & Hr) | (e & m' & He & Hm & H1 & H2 & H3 & H4)].
    + exists e, m. split; [done |]. split; [apply elem_of_cons; by left | done].
    + rewrite E1 in He. apply list_elem_of_fmap in He as (e0 & -> & He0).
      destruct (pinned_unnamed [m] e0) as [Hpn Hpf]. rewrite Hpn, Hpf in H1.
      exists e0, m'. split_and!; try done; [apply elem_of_cons; by right |].
      assert (bm_name m <> pm_name e0) as Hne.
      { intros Heq. apply Hn. rewrite Heq. injection H1 as -> _. rewrite <- H2.
        apply list_elem_of_fmap. by exists m'. }
      revert H3. unfold pinned. cbn [find]. by rewrite bool_decide_eq_false_2 by done.
  - intros (e & m' & He & Hm & H1 & H2 & H3 & H4). apply list_elem_of_In in Hm as [<- | Hm].
    + left. exists e. done.
    + right. exists (pinned [m] e), m'. apply list_elem_of_In in Hm.
      destruct (pinned_unnamed [m] e) as [-> ->].
      split_and!; try done; [rewrite E1; apply list_elem_of_fmap; by exists e |].
      unfold pinned. cbn [find]. rewrite bool_decide_eq_false_2; [done |].
      intros Heq. apply Hn. rewrite Heq. injection H1 as -> _. rewrite <- H2. apply list_elem_of_fmap. by exists m'.
Qed.

End Spec.

(** The descriptor an entry ends up with: that of the object pinned under its
    file name, else that of the map of its name in the loaded object, which
    has been pinned there; -1 when there is no such map or pinning failed. *)
Definition final_fd (ops : libbpf_ops) (ms : list bpf_map) (e : bpf_pinned_map) : Z :=
  match find (fun m => bool_decide (bm_name m = pm_name e)) ms with
  | None => -1
  | Some m =>
    if 0 <? lo_obj_get ops (pm_filename e) then lo_obj_get ops (pm_filename e)
    else if lo_pin ops m (pm_filename e) =? 0 then bm_fd m else -1
  end.

Lemma find_name_Some e ms m : find (fun m => bool_decide (bm_name m = pm_name e)) ms = Some m ->
  pm_name e ∈ map bm_name ms.
Proof.
  intros H. apply find_some in H as [Hin Hn]. apply bool_decide_eq_true in Hn. rewrite <- Hn.
  apply list_elem_of_fmap. exists m. by rewrite list_elem_of_In.
Qed.

Lemma final_entry ops ms e :
  pinned ops ms (looked_up ops (map bm_name ms) (set_map_fd e (-1))) = set_map_fd e (final_fd ops ms e).
Proof.
  unfold final_fd. destruct (find _ ms) as [m |] eqn:Ef.
  - pose proof (find_name_Some e ms m Ef) as Hin. unfold looked_up. cbn [set_map_fd pm_name pm_filename].
    destruct (0 <? _) eqn:E.
    + rewrite decide_True by (split; [done | lia]). unfold pinned. cbn [set_map_fd pm_name pm_filename pm_map_fd].
      rewrite Ef, (proj2 (Z.eqb_neq _ _)) by lia. done.
    + rewrite decide_False by (intros [_ H]; lia). unfold pinned. cbn [set_map_fd pm_name pm_filename pm_map_fd].
      rewrite Ef. cbn [Z.eqb andb Pos.eqb]. by destruct (_ =? 0).
  - unfold looked_up. cbn [set_map_fd pm_name pm_filename]. rewrite decide_False.
    + unfold pinned. cbn [set_map_fd pm_name]. by rewrite Ef.
    + intros [Hin _]. apply list_elem_of_fmap in Hin as (m & Hm & Hin). apply list_elem_of_In in Hin.
      pose proof (find_none _ _ Ef m Hin) as Hn. simpl in Hn. apply bool_decide_eq_false in Hn. congruence.
Qed.

(** Loading with pinned maps.  On an object whose maps have distinct names,
    the call returns; when it fails it has stored and pinned nothing; when it
    returns 0, every entry's descriptor is the one [final_fd] says, in the
    order of the entries, and the maps pinned by the call are exactly those
    asked for by an entry whose file did not exist yet and whose pinning
    succeeded. *)
Theorem bpf_prog_load_xattr_maps_spec ops a file obj o :
  libbpf_ok ops -> at_file a = Some file -> lo_open ops file (at_prog_type a) = (obj, o) ->
  NoDup (map bm_name (bo_maps o)) ->
  exists r, bpf_prog_load_xattr_maps ops (Some a) = Some r /\
    (lr_ret r <> 0 -> lr_ret r < 0 /\ lr_stored r = None /\ lr_pins r = []) /\
    (lr_ret r = 0 -> exists o' fd, lr_stored r = Some (o', fd) /\
       lr_pinned_maps r = map (fun e => set_map_fd e (final_fd ops (bo_maps o') e)) (at_pinned_maps a) /\
       forall n f, (n, f) ∈ lr_pins r <->
         exists e m, e ∈ at_pinned_maps a /\ m ∈ bo_maps o' /\ (n, f) = (pm_name e, pm_filename e) /\
           bm_name m = n /\ ~ 0 < lo_obj_get ops f /\ lo_pin ops m f = 0).
Proof.
  intros Hok Hfile Hopen Hnd. unfold bpf_prog_load_xattr_maps. cbn [mbind option_bind].
  rewrite Hfile, Hopen. destruct (IS_ERR_OR_NULL obj); [by eexists |].
  set (es := map _ (at_pinned_maps a)).
  destruct (open_maps_spec ops Hok a (bo_maps o) es) as [E1 E2].
  destruct (open_maps ops a (bo_maps o) es) as [ms es1]. simpl in E1, E2.
  destruct (map (set_program a) (bo_programs o)) as [| p ps]; [by eexists |].
  destruct (lo_load ops _) as [err o'] eqn:El. destruct (err =? 0) eqn:Ee; cbn [negb]; [| by eexists].
  apply Z.eqb_eq in Ee. subst err. pose proof (ok_load_names ops Hok _ _ El) as Hn. simpl in Hn. rewrite E2 in Hn.
  pose proof (ok_load_programs ops Hok _ _ El) as Hp. simpl in Hp.
  rewrite <- Hn in E1, Hnd. destruct (pin_maps_spec ops Hok (bo_maps o') Hnd es1) as [E3 E4].
  destruct (pin_maps ops (bo_maps o') es1) as [es2 pins]. simpl in E3, E4.
  destruct (bo_programs o') as [| fp fps]; [done |]. eexists. split; [done |]. split; [done |]. intros _.
  do 2 eexists. split; [done |]. cbn [lr_pinned_maps lr_pins].
  rewrite E3, E1. unfold es. rewrite !map_map. split; [apply map_ext; intros e; apply final_entry |].
  intros n f. rewrite E4, E1. unfold es. split.
  - intros (e & m & He & Hm & H1 & H2 & H3 & H4). rewrite map_map in He.
    apply list_elem_of_fmap in He as (e0 & -> & He0). exists e0, m. unfold looked_up in *.
    cbn [set_map_fd pm_name pm_filename] in *. destruct (decide _) as [Hd | Hd]; cbn in *; [lia |].
    injection H1 as -> ->. split_and!; try done. intros Hg. apply Hd. split; [| done].
    rewrite <- H2. apply list_elem_of_fmap. by exists m.
  - intros (e & m & He & Hm & H1 & H2 & H3 & H4). exists (set_map_fd e (-1)), m. injection H1 as -> ->.
    split_and!; try done. rewrite map_map. apply list_elem_of_fmap. exists e. split; [| done].
    unfold looked_up. cbn [set_map_fd pm_name pm_filename]. rewrite decide_False; [done | naive_solver].
Qed.

(** The null check comes too late.  A null [attr], which the code means to
    answer with -EINVAL, has been dereferenced before it is tested. *)
Lemma bpf_prog_load_xattr_maps_null ops : bpf_prog_load_xattr_maps ops None = None.
Proof. reflexivity. Qed.

Definition sample_ops : libbpf_ops := {|
  lo_open _ _ := (0x5000, {| bo_programs := [Build_bpf_program 0 0 0 9];
    bo_maps := [Build_bpf_map (str "stats") true 0 11; Build_bpf_map (str "ring") false 0 12] |});
  lo_obj_get f := if decide (f = str "/p/stats") then 5 else -2;
  lo_reuse_fd m fd := Build_bpf_map (bm_name m) (bm_offload_neutral m) (bm_ifindex m) fd;
  lo_load o := (0, o);
  lo_pin _ _ := 0
|}.

Definition sample_attr : bpf_prog_load_attr_maps :=
  {| at_file := Some (str "k.o"); at_prog_type := 6; at_expected_attach_type := 37; at_ifindex := 2;
     at_pinned_maps := [Build_bpf_pinned_map (str "stats") (str "/p/stats") 0;
                        Build_bpf_pinned_map (str "ring") (str "/p/ring") 0;
                        Build_bpf_pinned_map (str "none") (str "/p/none") 0] |}.

Lemma bpf_prog_load_xattr_maps_spec_witness :
  exists r, bpf_prog_load_xattr_maps sample_ops (Some sample_attr) = Some r /\ lr_ret r = 0 /\
    map pm_map_fd (lr_pinned_maps r) = [5; 12; -1].
Proof.
  destruct (bpf_prog_load_xattr_maps_spec sample_ops sample_attr (str "k.o") 0x5000
    (snd (lo_open sample_ops [] 0))) as (r & E & _ & H).
  - split; [done | by intros o o' [= ->] | by intros o o' [= ->]].
  - done.
  - done.
  - apply (bool_decide_unpack _). vm_compute. done.
  - exists r. split; [exact E |]. vm_compute in E. injection E as <-. split; [done |]. vm_compute. reflexivity.
Defined.
