(* ===== verification/XdpPacketLoad.v ===== *)
(** The XDP loader, src/xdp/xdp_packet_load.c: its option table, the filter
    and output format of [stats_print], the ring buffer callback and [main],
    composed from the models of the command line, of loading and unloading, and
    of the ring buffer manager.

    Of the output of [main] the packet lines are kept; progress and error
    messages are not.  [main] runs against a script: the answers of the system
    calls and, per round of the polling loop, what the poll observes and whether
    SIGINT arrives. *)
From S2P Require Import Prelude.
From S2P Require Import CLib.
From S2P Require Import CommonParams.
From S2P Require Import CommonUserXdp.
From S2P Require Import XdpPacket.
From S2P Require Import RingBuf.
From S2P Require Import RingBufMgr.

Definition default_filename : list byte := str "xdp_packet_kern.o".
Definition default_progname : list byte := str "xdp_prog".

(** ** The option table *)

Definition wrap (name : string) (has_arg val : Z) (help : string) (metavar : option string) (req : bool) :
    option_wrapper :=
  {| w_option := {| o_name := Some (str name); o_has_arg := has_arg; o_flag := false; o_val := val |};
     w_help := Some (str help); w_metavar := str <$> metavar; w_required := req |}.

Definition long_options : list option_wrapper :=
  [ wrap "help" no_argument (chr "h") "Show help" None false;
    wrap "dev" required_argument (chr "d") "Operate on device <ifname>" (Some "<ifname>"%string) true;
    wrap "skb-mode" no_argument (chr "S") "Install XDP program in SKB (AKA generic) mode" None false;
    wrap "native-mode" no_argument (chr "N") "Install XDP program in native mode" None false;
    wrap "auto-mode" no_argument (chr "A") "Auto-detect SKB or native mode" None false;
    wrap "unload" required_argument (chr "U") "Unload XDP program <id> instead of loading" (Some "<id>"%string) false;
    wrap "unload-all" no_argument 4 "Unload all XDP programs on device" None false;
    wrap "quiet" no_argument (chr "q") "Quiet mode (no output)" None false;
    wrap "filename" required_argument 1 "Load program from <file>" (Some "<file>"%string) false;
    wrap "progname" required_argument 2 "Load program from function <name> in the ELF file" (Some "<name>"%string) false;
    {| w_option := {| o_name := None; o_has_arg := 0; o_flag := false; o_val := 0 |};
       w_help := None; w_metavar := None; w_required := false |} ].

Definition __doc__ : list byte :=
  str "XDP loader and stats program" ++ [x0a] ++
  str " - Allows selecting BPF --progname name to XDP-attach to --dev" ++ [x0a].

(** ** Packets *)

(** The map is looked up by name; -1 when the object has none. *)
Definition find_map_fd (find_map_by_name : list byte -> option Z) (mapname : list byte) : Z :=
  match find_map_by_name mapname with Some fd => fd | None => -1 end.

Definition print_line (p : packet_info) : list byte :=
  str "Packet Data - src_ip: " ++ inet_ntop4 (src_ip p) ++ str ",  src_port: " ++ fmt_u (src_port p) ++
  str ", dst_ip: " ++ inet_ntop4 (dst_ip p) ++ str ",  dst_port: " ++ fmt_u (dst_port p) ++
  str ", timestamp(us): " ++ fmt_u (timestamp p) ++ [x0a].

Definition stats_print (p : packet_info) : list byte :=
  if decide (inet_ntop4 (src_ip p) = str "127.0.0.1") then
    if decide (inet_ntop4 (src_ip p) = str "127.0.0.1") then
      if (src_port p =? 9999) || (dst_port p =? 9999) then print_line p else []
    else []
  else [].

(** The callback: the state is the output so far, [None] once a sample too
    small for a [struct packet_info] has been read. *)
Definition handle_event (out : option (list byte)) (sample : list byte) : Z * option (list byte) :=
  (0, o ← out; p ← packet_info_load sample; Some (o ++ stats_print p)).

(** ** main *)


(** One round of the polling loop. *)
Record round := {
  rd_wait : Z + list Z;
  rd_views : nat -> nat -> Z -> ring_view;
  rd_fuel : nat;
  rd_sigint : bool          (** SIGINT arrives before the next test of [exiting] *)
}.

(** How the loop was left, or that it is still running when the script ends. *)
Inductive loop_state := Left | Running.

Section Loop.
Context (rb : option (ring_buffer (option (list byte)))).

Fixpoint poll_loop (rounds : list round) (exiting : bool) (pos : gmap Z Z) (out : option (list byte)) :
    option (loop_state * gmap Z Z * option (list byte)) :=
  if exiting then Some (Left, pos, out) else
  match rounds with
  | [] => Some (Running, pos, out)
  | r :: rounds' =>
    rb' ← rb;
    '(err, pos, out) ← ring_buffer__poll rb' (rd_wait r) (rd_views r) (rd_fuel r) pos out;
    if err =? - EINTR then Some (Left, pos, out) else
    if err <? 0 then Some (Left, pos, out) else
    poll_loop rounds' (rd_sigint r) pos out
  end.

End Loop.

(** The answers of the environment to a run of [main]. *)
Record script := {
  sc_signal_ok : bool;
  sc_malloc_ok : bool;
  sc_if_nametoindex : list byte -> Z;
  sc_find_map : list byte -> option Z;
  sc_page_size : Z;
  sc_alloc_ok : bool;
  sc_epoll_create : Z + Z;
  sc_add : add_env;
  sc_pos : gmap Z Z;
  sc_exiting : bool;            (** SIGINT arrived before the loop *)
  sc_rounds : list round
}.

Record result (Net : Type) := {
  rs_code : option Z;           (** the exit status, when the process has ended *)
  rs_out : option (list byte);
  rs_net : Net;
  rs_world : world
}.
Arguments rs_code {Net} _.
Arguments rs_out {Net} _.
Arguments rs_net {Net} _.
Arguments rs_world {Net} _.

Section Main.
Context {Net : Type} `{Libxdp Net}.

Definition main_config : config :=
  config_zero {{ ifindex := -1; filename := strncpy 512 default_filename;
                 progname := strncpy 32 default_progname }}.

Definition finish (code : Z) (n : Net) (w : world) : option (result Net) :=
  Some {| rs_code := Some code; rs_out := Some []; rs_net := n; rs_world := w |}.

(** [main] from the creation of the ring buffer on. *)
Definition main_tap (sc : script) (cfg : config) (stats_map_fd : Z) (n : Net) (w : world) :
    option (result Net) :=
  '(rb, w) ← ring_buffer__new true (sc_alloc_ok sc) (sc_page_size sc) (sc_epoll_create sc)
               stats_map_fd handle_event (sc_add sc) w;
  let rb := match rb with inr rb => Some rb | inl _ => None end in
  '(st, _, out) ← poll_loop rb (sc_rounds sc) (sc_exiting sc) (sc_pos sc) (Some []);
  match st with
  | Running => Some {| rs_code := None; rs_out := out; rs_net := n; rs_world := w |}
  | Left =>
    w ← ring_buffer__free rb w;
    let '(err, n) := do_unload cfg {{ unload_all := true }} n in
    Some {| rs_code := Some (if err <? 0 then - err else EXIT_OK); rs_out := out;
            rs_net := n; rs_world := w |}
  end.

Definition main (sc : script) (prog : list byte) (argv : list (list byte)) (n : Net) (w : world) :
    option (result Net) :=
  if negb (sc_signal_ok sc) then finish 1 n w else
  p ← parse_cmdline_args (sc_if_nametoindex sc) long_options prog __doc__ (sc_malloc_ok sc) argv main_config true;
  match p with
  | Exited code _ => finish code n w
  | Parsed cfg verbose =>
    if ifindex cfg =? -1 then
      _ ← usage prog __doc__ long_options (bool_decide (argv = []));
      finish EXIT_FAIL_OPTION n w
    else if cfg_do_unload cfg || unload_all cfg then
      let '(err, n) := do_unload cfg n in
      finish (if negb (err =? 0) then err else EXIT_OK) n w
    else
      '(c, n) ← load_bpf_and_xdp_attach cfg n;
      match c with
      | Exit code => finish code n w
      | Return None => finish EXIT_FAIL_BPF n w
      | Return (Some program) =>
        let stats_map_fd := find_map_fd (sc_find_map sc) (str "packet_ringbuf") in
        if stats_map_fd <? 0 then finish EXIT_FAIL_BPF n w
        else main_tap sc cfg stats_map_fd n w
      end
  end.

End Main.

(** ** The filter *)

Lemma loopback_text : str "127.0.0.1" = inet_ntop4 INADDR_LOOPBACK_BE.
Proof. reflexivity. Qed.

(** [stats_print] prints a packet exactly when its source address is
    127.0.0.1 and one of its ports is 9999, and then prints one line with both
    addresses, both ports and the time stamp.  The destination address plays no
    role: the test that should look at it looks at the source again. *)
Theorem stats_print_filter p :
  packet_info_ok p ->
  stats_print p =
    if (src_ip p =? INADDR_LOOPBACK_BE) && ((src_port p =? 9999) || (dst_port p =? 9999))
    then print_line p else [].
Proof.
  intros (Hs & _). unfold stats_print. rewrite loopback_text.
  assert (0 <= INADDR_LOOPBACK_BE < 2 ^ 32) as Hl by (unfold INADDR_LOOPBACK_BE; lia).
  destruct (src_ip p =? INADDR_LOOPBACK_BE) eqn:E.
  - apply Z.eqb_eq in E. rewrite E. by rewrite !decide_True.
  - apply Z.eqb_neq in E. rewrite decide_False; [done |]. intros H. apply E. by apply inet_ntop4_inj.
Qed.

Lemma stats_print_filter_witness :
  stats_print {| src_ip := INADDR_LOOPBACK_BE; dst_ip := 0x08080808; src_port := 53710; dst_port := 9999;
                 timestamp := 673422472 |} =
  str "Packet Data - src_ip: 127.0.0.1,  src_port: 53710, dst_ip: 8.8.8.8,  dst_port: 9999, timestamp(us): 673422472" ++ [x0a].
Proof.
  rewrite stats_print_filter; [vm_compute; reflexivity |].
  unfold packet_info_ok, INADDR_LOOPBACK_BE. simpl. lia.
Defined.

(** ** From the ring to the terminal *)

Lemma drain_handle_event rs : forall ps pos cnt o,
  Forall2 (fun e p => packet_info_load e = Some p) (ready rs) ps ->
  rr_state (drain handle_event rs pos cnt (Some o)) = Some (o ++ concat (map stats_print ps)) /\
  rr_ret (drain handle_event rs pos cnt (Some o)) = cnt + zlen ps.
Proof.
  induction rs as [| r rs IH]; intros ps pos cnt o HF; simpl in HF.
  { apply Forall2_nil_inv_l in HF as ->. simpl. rewrite app_nil_r. split; [done | unfold zlen; simpl; lia]. }
  simpl. destruct (r_busy r).
  { apply Forall2_nil_inv_l in HF as ->. simpl. rewrite app_nil_r. split; [done | unfold zlen; simpl; lia]. }
  destruct (r_discard r); [by apply IH |].
  apply Forall2_cons_inv_l in HF as (p & ps' & Hp & HF & ->). simpl. rewrite Hp. cbn [mbind option_bind].
  destruct (IH ps' (pos + rec_size r) (cnt + 1) (o ++ stats_print p) HF) as [E1 E2].
  rewrite <- app_assoc in E1. rewrite zlen_cons. split; [exact E1 | rewrite E2; lia].
Qed.

Lemma decode_all l : Forall (fun e => is_Some (packet_info_load e)) l ->
  exists ps, Forall2 (fun e p => packet_info_load e = Some p) l ps.
Proof.
  induction 1 as [| e l [p Hp] _ [ps IH]]; [by exists [] |]. exists (p :: ps). by constructor.
Qed.

(** What the loader shows.  When the records in the ring are those of the
    XDP program, one poll prints, in the order the packets were seen, the lines
    [stats_print] makes of the records that were ready at one instant of the
    call, each of them once, and returns their number (at most INT_MAX). *)
Theorem poll_prints_ready rb r fd W L p0 N fuel pos o :
  reported rb [0] = Some [r] -> r_sample_cb r = handle_event -> r_map_fd r = fd ->
  pos !! fd = Some p0 -> producers (r_mask r) W L p0 N -> (2 * N < fuel)%nat ->
  (forall k c, Forall (fun e => is_Some (packet_info_load e)) (ready (L k c))) ->
  exists k c ps pos', Forall2 (fun e p => packet_info_load e = Some p) (ready (L k c)) ps /\
    ring_buffer__poll rb (inr [0]) (fun _ => W) fuel pos (Some o) =
      Some (Z.min (zlen ps) INT_MAX, pos', Some (o ++ concat (map stats_print ps))).
Proof.
  intros Hr Hcb Hfd Hpos HP Hfuel Hload. unfold ring_buffer__poll. unfold reported in Hr. rewrite Hr.
  cbn [mbind option_bind process_rings]. rewrite Hfd, Hpos. cbn [mbind option_bind]. unfold run_ring.
  destruct (ring_process_linear (r_sample_cb r) _ _ _ _ _ (Some o) fuel HP Hfuel) as (k & c & ->).
  destruct (decode_all _ (Hload k c)) as [ps HF]. rewrite Hcb. cbn [mbind option_bind].
  destruct (drain_handle_event _ ps p0 0 o HF) as [-> Hret]. rewrite Hret.
  rewrite (proj2 (Z.ltb_ge _ _)) by (unfold zlen; lia).
  exists k, c, ps. eexists. split; [exact HF |]. do 3 f_equal. unfold clamp.
  destruct (INT_MAX <? 0 + (0 + zlen ps)) eqn:E; lia.
Qed.

(** ** The life of the process *)

(** The answers about mappings and descriptors are possible ones. *)
Record script_ok (w : world) (sc : script) : Prop := {
  sk_errno e : sc_epoll_create sc = inl e -> 0 < e;
  sk_epoll fd : sc_epoll_create sc = inr fd -> 0 <= fd /\ fd ∉ w_fds w;
  sk_add : add_env_ok w (sc_add sc)
}.

Section Cleanup.
Context {Net : Type} `{Libxdp Net}.

Lemma main_tap_left sc cfg fd (n : Net) w res c :
  script_ok w sc -> main_tap sc cfg fd n w = Some res -> rs_code res = Some c ->
  c = EXIT_OK /\ rs_world res = w /\ rs_net res = snd (do_unload cfg {{ unload_all := true }} n).
Proof.
  intros [Herr Hfd Hadd]. unfold main_tap.
  destruct (new_owns w true (sc_alloc_ok sc) (sc_page_size sc) (sc_epoll_create sc) fd handle_event
    (sc_add sc) Herr Hfd Hadd) as (r & w1 & -> & Hr). cbn [mbind option_bind].
  destruct (poll_loop _ _ _ _ _) as [[[st pos] out] |]; cbn [mbind option_bind]; [| done].
  destruct st; [| intros [= <-]; discriminate].
  assert (ring_buffer__free match r with inr rb => Some rb | inl _ => None end w1 = Some w) as ->.
  { destruct r as [errno | rb]; [destruct Hr as [_ ->]; done | apply free_owned, Hr]. }
  cbn [mbind option_bind]. pose proof (do_unload_range cfg {{ unload_all := true }} n) as Hrange.
  destruct (do_unload _ _) as [err n'] eqn:E. simpl in Hrange. intros [= <-] [= <-]. simpl.
  split_and!; [| done | done]. by destruct Hrange as [-> | ->].
Qed.

(** How the loader ends.  Once the program is attached and its map found,
    a run that leaves the polling loop has unmapped the rings and closed the
    epoll descriptor, has asked for all programs of the interface to be unloaded
    and done nothing else to the host, and exits with status 0, whether or not
    the unloading worked. *)
Theorem main_tap_cleanup sc cfg fd (n : Net) w res c :
  script_ok w sc -> main_tap sc cfg fd n w = Some res -> rs_code res = Some c ->
  c = EXIT_OK /\ rs_world res = w /\ rs_net res = snd (do_unload cfg {{ unload_all := true }} n).
Proof.
  apply main_tap_left.
Qed.

(** Once parsing, loading and the look-up have succeeded, [main] is [main_tap]. *)
Lemma main_reaches_tap sc prog argv (n : Net) w cfg verbose p n1 :
  sc_signal_ok sc = true ->
  parse_cmdline_args (sc_if_nametoindex sc) long_options prog __doc__ (sc_malloc_ok sc) argv main_config true =
    Some (Parsed cfg verbose) ->
  ifindex cfg <> -1 -> cfg_do_unload cfg || unload_all cfg = false ->
  load_bpf_and_xdp_attach cfg n = Some (Return (Some p), n1) ->
  main sc prog argv n w =
    (let fd := find_map_fd (sc_find_map sc) (str "packet_ringbuf") in
     if fd <? 0 then finish EXIT_FAIL_BPF n1 w else main_tap sc cfg fd n1 w).
Proof.
  intros Hs Hp Hi Hu HL. unfold main. rewrite Hs, Hp. cbn [mbind option_bind negb].
  rewrite (proj2 (Z.eqb_neq _ _) Hi), Hu, HL. done.
Qed.

(** Two failures the loader does not handle.  When the object has no map
    "packet_ringbuf", [main] exits with EXIT_FAIL_BPF and leaves the program it
    just attached on the interface.  When the ring buffer cannot be created, the
    message is printed but the loop is entered with a null manager, which
    [ring_buffer__poll] dereferences. *)
Theorem main_unhandled_failures sc prog argv (n : Net) w cfg verbose p n1 :
  sc_signal_ok sc = true ->
  parse_cmdline_args (sc_if_nametoindex sc) long_options prog __doc__ (sc_malloc_ok sc) argv main_config true =
    Some (Parsed cfg verbose) ->
  ifindex cfg <> -1 -> cfg_do_unload cfg || unload_all cfg = false ->
  load_bpf_and_xdp_attach cfg n = Some (Return (Some p), n1) ->
  (sc_find_map sc (str "packet_ringbuf") = None ->
   exists res, main sc prog argv n w = Some res /\ rs_code res = Some EXIT_FAIL_BPF /\ rs_net res = n1) /\
  (forall fd e, sc_find_map sc (str "packet_ringbuf") = Some fd -> 0 <= fd ->
     sc_epoll_create sc = inl e -> sc_exiting sc = false -> sc_rounds sc <> [] ->
     main sc prog argv n w = None).
Proof.
  intros Hs Hp Hi Hu HL. pose proof (main_reaches_tap sc prog argv n w cfg verbose p n1 Hs Hp Hi Hu HL) as E.
  split.
  - intros Hm. unfold find_map_fd in E. rewrite Hm in E. eexists. split; [exact E |]. done.
  - intros fd e Hm Hfd He Hx Hr. rewrite E. unfold find_map_fd. rewrite Hm. cbv zeta.
    rewrite (proj2 (Z.ltb_ge fd 0)) by lia. unfold main_tap, ring_buffer__new. rewrite He, Hx.
    destruct (sc_alloc_ok sc); cbn; destruct (sc_rounds sc) as [| r rs]; done.
Qed.

End Cleanup.

(** Names that are too long.  A file name of 512 bytes or more fills the
    buffer of the configuration without a terminator: loading then reads a
    string that does not end inside it.  Nothing checks the length, as is done
    for device names. *)
Theorem main_long_filename {Net} `{Libxdp Net} sc prog name (n : Net) w :
  sc_signal_ok sc = true -> sc_malloc_ok sc = true -> NUL ∉ name -> (512 <= length name)%nat ->
  0 < sc_if_nametoindex sc (str "lo") ->
  main sc prog [str "-dlo"; str "--filename"; name] n w = None.
Proof.
  intros Hs Hm Hn Hl Hi. unfold main. rewrite Hs, Hm. cbn [negb].
  pose proof (parse_items (sc_if_nametoindex sc) long_options (take 10 long_options) prog __doc__
    [IShort "d" (Some (true, str "lo")); ILong (str "filename") (Some (false, name))] [] main_config true) as E.
  cbn [map render concat app] in E.
  change (dash :: "d"%byte :: str "lo") with (str "-dlo") in E.
  change (dash :: dash :: str "filename") with (str "--filename") in E.
  rewrite E; [| reflexivity | | by left].
  - set (ix := sc_if_nametoindex sc (str "lo")) in *.
    assert (apply_items (sc_if_nametoindex sc) long_options prog __doc__ (map w_option (take 10 long_options))
      [IShort "d" (Some (true, str "lo")); ILong (str "filename") (Some (false, name))] main_config true =
      Some (Parsed main_config {{ ifname := true; ifname_buf := strncpy IF_NAMESIZE (str "lo"); ifindex := ix;
                                  filename := strncpy 512 name }} true)) as ->.
    { transitivity (x ← (if ix =? 0 then Some (Usage false) else
          Some (Break main_config {{ ifname := true; ifname_buf := strncpy IF_NAMESIZE (str "lo"); ifindex := ix }} true));
        match x with
        | Break cfg v => Some (Parsed cfg {{ filename := strncpy 512 name }} v)
        | Usage full => out ← usage prog __doc__ long_options full; Some (Exited EXIT_FAIL_OPTION out)
        end); [reflexivity |].
      by rewrite (proj2 (Z.eqb_neq ix 0)) by lia. }
    cbn [mbind option_bind]. unfold load_bpf_and_xdp_attach.
    change (ifindex _) with ix. rewrite (proj2 (Z.eqb_neq ix (-1))) by lia.
    change (filename _) with (strncpy 512 name). by rewrite strncpy_unterminated.
  - apply Forall_cons; split; [by split_and! |]. apply Forall_cons; split; [| done].
    split; [done |]. split; [apply (bool_decide_unpack _); vm_compute; done |].
    eexists. split; [vm_compute; reflexivity | reflexivity].
Qed.

(** ** A concrete run *)

Definition sample_packet : packet_info :=
  {| src_ip := INADDR_LOOPBACK_BE; dst_ip := INADDR_LOOPBACK_BE; src_port := 9999; dst_port := 53710;
     timestamp := 42 |}.

Definition sample_record : list byte :=
  default [] (packet_info_store (replicate 24 x00) sample_packet).

Definition tap_log : list record :=
  [ {| r_len := 24; r_busy := false; r_discard := false; r_payload := sample_record |} ].

Definition tap_ring : ring_view :=
  let half := le_split 8 24 ++ sample_record ++ replicate 32 x00 in
  {| rv_data := half ++ half; rv_prod := 32 |}.

Lemma tap_producers : producers 63 (fun _ _ => tap_ring) (fun _ _ => tap_log) 0 1.
Proof.
  split.
  - intros _ _. apply Forall_cons; split; [| done]. split; [simpl; lia | done].
  - intros _ _ _ _ _ _ i r Hi. exists r. split; [done | split; [done | auto]].
  - intros. simpl. lia.
  - intros. vm_compute. done.
  - lia.
  - intros _ c i Hi ->. destruct i as [| [| i]]; [| | simpl in Hi; lia]; vm_compute; repeat split; done.
Qed.

Definition tap_rb : ring_buffer (option (list byte)) :=
  {| rb_events := [0];
     rb_rings := [ {| r_sample_cb := handle_event; r_data := 0x3000; r_consumer_pos := 0x1000;
                      r_producer_pos := 0x2000; r_mask := 63; r_map_fd := 3 |} ];
     rb_page_size := 4096; rb_epoll_fd := 4; rb_ring_cnt := 1 |}.

Lemma poll_prints_ready_witness :
  exists ps pos', ring_buffer__poll tap_rb (inr [0]) (fun _ _ _ => tap_ring) 3 {[ 3 := 0 ]} (Some []) =
    Some (Z.min (zlen ps) INT_MAX, pos', Some (concat (map stats_print ps))).
Proof.
  destruct (poll_prints_ready tap_rb {| r_sample_cb := handle_event; r_data := 0x3000; r_consumer_pos := 0x1000;
    r_producer_pos := 0x2000; r_mask := 63; r_map_fd := 3 |} 3 (fun _ _ => tap_ring) (fun _ _ => tap_log) 0 1 3 {[ 3 := 0 ]} [])
    as (k & c & ps & pos' & _ & E); [reflexivity | reflexivity | reflexivity | reflexivity |
      exact tap_producers | lia | | exists ps, pos'; exact E].
  intros _ _. apply Forall_cons; split; [| done]. vm_compute. by eexists.
Defined.

(** SIGINT arrives during the first poll. *)
Definition sample_script (find_map : list byte -> option Z) (ec : Z + Z) : script :=
  {| sc_signal_ok := true; sc_malloc_ok := true; sc_if_nametoindex := fun _ => 2; sc_find_map := find_map;
     sc_page_size := 4096; sc_alloc_ok := true; sc_epoll_create := ec; sc_add := RingBufMgr.sample_env;
     sc_pos := {[ 3 := 0 ]}; sc_exiting := false;
     sc_rounds := [ {| rd_wait := inr [0]; rd_views := fun _ _ _ => tap_ring; rd_fuel := 3; rd_sigint := true |} ] |}.

Definition sample_net : host := {| h_progs := {[ 3 := [5%positive] ]}; h_next := 7 |}.

Lemma main_tap_cleanup_witness :
  exists res, main_tap (sample_script (fun _ => Some 3) (inr 4)) sample_cfg 3
      {| h_progs := {[ 2 := [5%positive] ]}; h_next := 7 |} sample_world = Some res /\
    rs_out res = Some (print_line sample_packet) /\ rs_world res = sample_world /\ host_progs (rs_net res) 2 = [].
Proof.
  eexists. split; [vm_compute; reflexivity |]. split; [vm_compute; reflexivity |].
  edestruct (main_tap_cleanup (sample_script (fun _ => Some 3) (inr 4)) sample_cfg 3
    {| h_progs := {[ 2 := [5%positive] ]}; h_next := 7 |} sample_world) as (_ & Hw & Ha);
    [| vm_compute; reflexivity | vm_compute; reflexivity |].
  - split; simpl; [done | intros fd [= <-]; split; [lia | vm_compute; set_solver] | exact sample_env_ok].
  - split; [exact Hw |]. rewrite Ha. vm_compute. reflexivity.
Defined.

Lemma main_unhandled_failures_witness :
  (exists res, main (sample_script (fun _ => None) (inr 4)) (str "load") [str "-dlo"] sample_net sample_world = Some res /\
     rs_code res = Some EXIT_FAIL_BPF /\ host_progs (rs_net res) 2 = [7%positive]) /\
  main (sample_script (fun _ => Some 3) (inl 24)) (str "load") [str "-dlo"] sample_net sample_world = None.
Proof.
  split.
  - edestruct (main_unhandled_failures (sample_script (fun _ => None) (inr 4)) (str "load") [str "-dlo"]
      sample_net sample_world) as [H _];
      [reflexivity | vm_compute; reflexivity | done | reflexivity | vm_compute; reflexivity |].
    destruct (H eq_refl) as (res & E & Hc & Hn). exists res. split; [exact E |]. split; [exact Hc |]. rewrite Hn. vm_compute. reflexivity.
  - edestruct (main_unhandled_failures (sample_script (fun _ => Some 3) (inl 24)) (str "load") [str "-dlo"]
      sample_net sample_world) as [_ H];
      [reflexivity | vm_compute; reflexivity | done | reflexivity | vm_compute; reflexivity |].
    by apply (H 3 24).
Defined.

Lemma main_long_filename_witness :
  main (sample_script (fun _ => Some 3) (inr 4)) (str "load")
    [str "-dlo"; str "--filename"; replicate 600 x61] sample_net sample_world = None.
Proof.
  apply main_long_filename; [done | done | | rewrite length_replicate; lia | simpl; lia].
  rewrite elem_of_replicate. by intros [? _].
Defined.
