(* ===== verification/XdpFilter.v ===== *)
(** The packet filter of xdp-tools, the side of the kernel:
    src/lib/xdp-tools/xdp-filter/xdpfilt_prog.h, with the parsing helpers it
    includes (src/lib/xdp-tools/headers/xdp/parsing_helpers.h).

    The filter looks fields of a packet up in tables of rules.  A rule's value
    is one 64-bit word for every CPU: flags in the low bits, a counter of hits
    above.  The ten programs xdpfilt_*.c are the same text with different
    features. *)
From S2P Require Import Prelude.
From S2P Require Import CLib.
From S2P Require Import ParsingHelpers.
From S2P Require Import RewriteHelpers.
From S2P Require Import BpfMaps.
From S2P Require Import XdpStats.

(** ** Parsing

    These helpers differ from those of src/common.  The loop over VLAN tags
    has the same text, as has [parse_udphdr]: the definitions of ParsingHelpers
    are used. *)

Definition ETH_P_IPV6 : Z := 0x86DD.
Definition IPPROTO_HOPOPTS : Z := 0.
Definition IPPROTO_TCP : Z := 6.
Definition IPPROTO_UDP : Z := 17.
Definition IPPROTO_ROUTING : Z := 43.
Definition IPPROTO_FRAGMENT : Z := 44.
Definition IPPROTO_AH : Z := 51.
Definition IPPROTO_DSTOPTS : Z := 60.
Definition IPPROTO_MH : Z := 135.

Definition VLAN_MAX_DEPTH : nat := 4.
Definition IPV6_EXT_MAX_CHAIN : nat := 6.
Definition sizeof_ipv6_opt_hdr : Z := 2.

Definition parse_ethhdr : parser := fun m nh data_end =>
  let eth := pos nh in
  if data_end <? eth + sizeof_ethhdr then Some (Parsed (-1) nh None) else
  h_proto ← eth_h_proto m eth;
  '(vlh, h_proto, _) ← vlan_loop m data_end VLAN_MAX_DEPTH 0 (eth + sizeof_ethhdr) h_proto None;
  Some (Parsed h_proto {| pos := vlh |} (Some eth)).

(** The loop of [skip_ip6hdrext]; [n] rounds are left. *)
Fixpoint skip_loop (n : nat) (m : list byte) (nh : hdr_cursor) (data_end next_hdr_type : Z) : option (Z * hdr_cursor) :=
  match n with
  | O => Some (-1, nh)
  | S n =>
    let hdr := pos nh in
    if data_end <? hdr + sizeof_ipv6_opt_hdr then Some (-1, nh) else
    if (next_hdr_type =? IPPROTO_HOPOPTS) || (next_hdr_type =? IPPROTO_DSTOPTS) || (next_hdr_type =? IPPROTO_ROUTING) || (next_hdr_type =? IPPROTO_MH) then
      hdrlen ← load8 m (hdr + 1);
      nexthdr ← load8 m hdr;
      skip_loop n m {| pos := hdr + (hdrlen + 1) * 8 |} data_end nexthdr
    else if next_hdr_type =? IPPROTO_AH then
      hdrlen ← load8 m (hdr + 1);
      nexthdr ← load8 m hdr;
      skip_loop n m {| pos := hdr + (hdrlen + 2) * 4 |} data_end nexthdr
    else if next_hdr_type =? IPPROTO_FRAGMENT then
      nexthdr ← load8 m hdr;
      skip_loop n m {| pos := hdr + 8 |} data_end nexthdr
    else Some (next_hdr_type, nh)
  end.

Definition skip_ip6hdrext (m : list byte) (nh : hdr_cursor) (data_end next_hdr_type : Z) : option (Z * hdr_cursor) :=
  skip_loop IPV6_EXT_MAX_CHAIN m nh data_end next_hdr_type.

Definition parse_ip6hdr : parser := fun m nh data_end =>
  let ip6h := pos nh in
  if data_end <? ip6h + sizeof_ipv6hdr then Some (Parsed (-1) nh None) else
  nexthdr ← ip6h_nexthdr m ip6h;
  '(ret, nh) ← skip_ip6hdrext m {| pos := ip6h + sizeof_ipv6hdr |} data_end nexthdr;
  Some (Parsed ret nh (Some ip6h)).

Definition parse_iphdr : parser := fun m nh data_end =>
  let iph := pos nh in
  if data_end <? iph + sizeof_iphdr then Some (Parsed (-1) nh None) else
  ihl ← iph_ihl m iph;
  let hdrsize := ihl * 4 in
  if data_end <? pos nh + hdrsize then Some (Parsed (-1) nh None) else
  protocol ← iph_protocol m iph;
  Some (Parsed protocol {| pos := pos nh + hdrsize |} (Some iph)).

Definition parse_tcphdr : parser := fun m nh data_end =>
  let h := pos nh in
  if data_end <? h + sizeof_tcphdr then Some (Parsed (-1) nh None) else
  doff ← tcp_doff m h;
  let len := doff * 4 in
  if data_end <? h + len then Some (Parsed (-1) nh None) else
  Some (Parsed len {| pos := h + sizeof_tcphdr |} (Some h)).

(** ** Tables

    A key names its table: the ports (an array), the addresses of IPv4 and
    IPv6 and of Ethernet (hash tables).  Ports and IPv4 addresses are in network
    byte order. *)

Inductive key :=
| KPort (port : Z)
| KIpv4 (addr : Z)
| KIpv6 (addr : list byte)
| KEthernet (addr : list byte).

#[export] Instance key_eq_decision : EqDecision key.
Proof. solve_decision. Defined.

(** The kernel's side of the tables.  [pc_lookup] has the words of all CPUs;
    [pc_store] is a store to the word of one CPU, through the pointer that a
    program gets; the others are the system calls of a process, which
    return 0 or minus an error number. *)
Class FilterMaps (M : Type) := {
  pc_lookup : M -> key -> option (list Z);
  pc_store : M -> key -> nat -> Z -> M;
  pc_update : M -> key -> list Z -> Z * M;
  pc_delete : M -> key -> Z * M
}.

Class FilterMapsOk (M : Type) (cpus : nat) {F : FilterMaps M} : Prop := {
  pc_store_same m k cpu v vs : pc_lookup m k = Some vs -> pc_lookup (pc_store m k cpu v) k = Some (<[cpu := v]> vs);
  pc_store_other m k k' cpu v : k <> k' -> pc_lookup (pc_store m k cpu v) k' = pc_lookup m k';
  pc_update_result m k vs : fst (pc_update m k vs) <= 0;
  pc_delete_result m k : fst (pc_delete m k) <= 0;
  pc_update_same m k vs m' : length vs = cpus -> pc_update m k vs = (0, m') -> pc_lookup m' k = Some vs;
  pc_update_other m k k' vs r m' : pc_update m k vs = (r, m') -> k <> k' -> pc_lookup m' k' = pc_lookup m k';
  pc_update_fail m k vs r m' : pc_update m k vs = (r, m') -> r <> 0 -> pc_lookup m' k = pc_lookup m k;
  pc_delete_same m k m' : pc_delete m k = (0, m') -> pc_lookup m' k = None;
  pc_delete_other m k k' r m' : pc_delete m k = (r, m') -> k <> k' -> pc_lookup m' k' = pc_lookup m k';
  pc_delete_fail m k r m' : pc_delete m k = (r, m') -> r <> 0 -> pc_lookup m' k = pc_lookup m k
}.

(** ** The program *)

Definition MAP_FLAG_SRC : Z := 1.
Definition MAP_FLAG_DST : Z := 2.
Definition MAP_FLAG_TCP : Z := 4.
Definition MAP_FLAG_UDP : Z := 8.
Definition MAP_FLAGS : Z := 15.
Definition COUNTER_SHIFT : Z := 6.

(** What is defined when the program is compiled. *)
Record filt_mode := {
  FILT_MODE_DENY : bool;
  FILT_MODE_ETHERNET : bool;
  FILT_MODE_IPV4 : bool;
  FILT_MODE_IPV6 : bool;
  FILT_MODE_UDP : bool;
  FILT_MODE_TCP : bool
}.

Definition VERDICT_HIT (f : filt_mode) : Z := if FILT_MODE_DENY f then XDP_PASS else XDP_DROP.
Definition VERDICT_MISS (f : filt_mode) : Z := if FILT_MODE_DENY f then XDP_DROP else XDP_PASS.

Section Program.
Context {M : Type} {F : FilterMaps M} (f : filt_mode) (cpu : nat).

(** The macros return early; [next] is what follows. *)
Definition CHECK_MAP (k : key) (mask : Z) (maps : M) (next : option (Z * M)) : option (Z * M) :=
  match pc_lookup maps k ≫= (.!! cpu) with
  | None => next
  | Some value =>
    if Z.land value mask =? mask then Some (VERDICT_HIT f, pc_store maps k cpu (u64 (value + Z.shiftl 1 COUNTER_SHIFT))) else next
  end.

Definition CHECK_RET (ret : Z) (maps : M) (next : option (Z * M)) : option (Z * M) :=
  if ret <? 0 then Some (XDP_ABORTED, maps) else next.

Definition CHECK_VERDICT (verdict : option (Z * M)) (next : M -> option (Z * M)) : option (Z * M) :=
  '(action, maps) ← verdict;
  if negb (action =? VERDICT_MISS f) then Some (action, maps) else next maps.

Definition lookup_verdict_tcp (m : list byte) (tcphdr : Z) (maps : M) : option (Z * M) :=
  dest ← load16 m (tcphdr + 2);
  CHECK_MAP (KPort dest) (Z.lor MAP_FLAG_DST MAP_FLAG_TCP) maps (
  source ← load16 m tcphdr;
  CHECK_MAP (KPort source) (Z.lor MAP_FLAG_SRC MAP_FLAG_TCP) maps (
  Some (VERDICT_MISS f, maps))).

Definition lookup_verdict_udp (m : list byte) (udphdr : Z) (maps : M) : option (Z * M) :=
  dest ← load16 m (udphdr + 2);
  CHECK_MAP (KPort dest) (Z.lor MAP_FLAG_DST MAP_FLAG_UDP) maps (
  source ← load16 m udphdr;
  CHECK_MAP (KPort source) (Z.lor MAP_FLAG_SRC MAP_FLAG_UDP) maps (
  Some (VERDICT_MISS f, maps))).

Definition lookup_verdict_ipv4 (m : list byte) (iphdr : Z) (maps : M) : option (Z * M) :=
  daddr ← load32 m (iphdr + 16);
  CHECK_MAP (KIpv4 daddr) MAP_FLAG_DST maps (
  saddr ← load32 m (iphdr + 12);
  CHECK_MAP (KIpv4 saddr) MAP_FLAG_SRC maps (
  Some (VERDICT_MISS f, maps))).

Definition lookup_verdict_ipv6 (m : list byte) (ipv6hdr : Z) (maps : M) : option (Z * M) :=
  daddr ← bytes_at m (ipv6hdr + 24) 16;
  CHECK_MAP (KIpv6 daddr) MAP_FLAG_DST maps (
  saddr ← bytes_at m (ipv6hdr + 8) 16;
  CHECK_MAP (KIpv6 saddr) MAP_FLAG_SRC maps (
  Some (VERDICT_MISS f, maps))).

Definition lookup_verdict_ethernet (m : list byte) (eth : Z) (maps : M) : option (Z * M) :=
  h_dest ← bytes_at m eth 6;
  CHECK_MAP (KEthernet h_dest) MAP_FLAG_DST maps (
  h_source ← bytes_at m (eth + 6) 6;
  CHECK_MAP (KEthernet h_source) MAP_FLAG_SRC maps (
  Some (VERDICT_MISS f, maps))).

(** A part of the program that is there when [feature] is defined. *)
Definition ifdef (feature : bool) (part : (M -> option (Z * M)) -> M -> option (Z * M)) (next : M -> option (Z * M)) (maps : M) : option (Z * M) :=
  if feature then part next maps else next maps.

(** From the transport header on. *)
Definition filter_transport (m : list byte) (nh : hdr_cursor) (data_end ip_type : Z) (maps : M) : option (Z * M) :=
  let tcp maps :=
    ifdef (FILT_MODE_TCP f) (fun next maps =>
      if ip_type =? IPPROTO_TCP then
        h ← parse_tcphdr m nh data_end;
        CHECK_RET (p_ret h) maps (
        tcphdr ← p_hdr h;
        CHECK_VERDICT (lookup_verdict_tcp m tcphdr maps) next)
      else next maps) (fun maps => Some (VERDICT_MISS f, maps)) maps in
  ifdef (FILT_MODE_UDP f) (fun next maps =>
    if ip_type =? IPPROTO_UDP then
      h ← parse_udphdr m nh data_end;
      CHECK_RET (p_ret h) maps (
      udphdr ← p_hdr h;
      CHECK_VERDICT (lookup_verdict_udp m udphdr maps) next)
    else next maps) tcp maps.

(** From the network header on. *)
Definition filter_network (m : list byte) (nh : hdr_cursor) (data_end eth_type : Z) (maps : M) : option (Z * M) :=
  if eth_type =? bswap16 ETH_P_IP then
    h ← parse_iphdr m nh data_end;
    CHECK_RET (p_ret h) maps (
    iphdr ← p_hdr h;
    ifdef (FILT_MODE_IPV4 f) (fun next maps => CHECK_VERDICT (lookup_verdict_ipv4 m iphdr maps) next)
      (filter_transport m (p_nh h) data_end (p_ret h)) maps)
  else if eth_type =? bswap16 ETH_P_IPV6 then
    h ← parse_ip6hdr m nh data_end;
    CHECK_RET (p_ret h) maps (
    ipv6hdr ← p_hdr h;
    ifdef (FILT_MODE_IPV6 f) (fun next maps => CHECK_VERDICT (lookup_verdict_ipv6 m ipv6hdr maps) next)
      (filter_transport m (p_nh h) data_end (p_ret h)) maps)
  else Some (VERDICT_MISS f, maps).

(** The program up to the label [out]. *)
Definition filter_action (m : list byte) (ctx : xdp_md) (maps : M) : option (Z * M) :=
  h ← parse_ethhdr m {| pos := data ctx |} (data_end ctx);
  CHECK_RET (p_ret h) maps (
  eth ← p_hdr h;
  ifdef (FILT_MODE_ETHERNET f) (fun next maps => CHECK_VERDICT (lookup_verdict_ethernet m eth maps) next)
    (ifdef (FILT_MODE_IPV4 f || FILT_MODE_IPV6 f || FILT_MODE_TCP f || FILT_MODE_UDP f)
      (fun _ => filter_network m (p_nh h) (data_end ctx) (p_ret h))
      (fun maps => Some (VERDICT_MISS f, maps))) maps).

Definition xdpfilt {S : Type} `{BpfArray S datarec} (m : list byte) (ctx : xdp_md) (maps : M) (xdp_stats_map : S) : option (Z * M * S) :=
  '(action, maps) ← filter_action m ctx maps;
  let '(ret, xdp_stats_map) := xdp_stats_record_action xdp_stats_map ctx action in
  Some (ret, maps, xdp_stats_map).

End Program.

(** The programs. *)
Definition with_features (deny eth ip4 ip6 udp tcp : bool) : filt_mode :=
  {| FILT_MODE_DENY := deny; FILT_MODE_ETHERNET := eth; FILT_MODE_IPV4 := ip4; FILT_MODE_IPV6 := ip6; FILT_MODE_UDP := udp; FILT_MODE_TCP := tcp |}.
Definition xdpfilt_alw_all : filt_mode := with_features false true true true true true.
Definition xdpfilt_alw_eth : filt_mode := with_features false true false false false false.
Definition xdpfilt_alw_ip : filt_mode := with_features false false true true false false.
Definition xdpfilt_alw_tcp : filt_mode := with_features false false false false false true.
Definition xdpfilt_alw_udp : filt_mode := with_features false false false false true false.
Definition xdpfilt_dny_all : filt_mode := with_features true true true true true true.
Definition xdpfilt_dny_eth : filt_mode := with_features true true false false false false.
Definition xdpfilt_dny_ip : filt_mode := with_features true false true true false false.
Definition xdpfilt_dny_tcp : filt_mode := with_features true false false false false true.
Definition xdpfilt_dny_udp : filt_mode := with_features true false false false true false.

(** ** What a packet is checked for

    Independently of the tables, a packet determines a list of checks and
    what happens when none of them hits.  The program is the first hit. *)

Inductive side := Src | Dst.
Inductive proto := Tcp | Udp.
Record check := Check { ck_key : key; ck_side : side; ck_proto : option proto }.

Definition side_flag (s : side) : Z := match s with Src => MAP_FLAG_SRC | Dst => MAP_FLAG_DST end.
Definition proto_flag (p : option proto) : Z := match p with None => 0 | Some Tcp => MAP_FLAG_TCP | Some Udp => MAP_FLAG_UDP end.
Definition mask (c : check) : Z := Z.lor (side_flag (ck_side c)) (proto_flag (ck_proto c)).

Section Scan.
Context (f : filt_mode).

Definition scan_ports (p : proto) (parse : parser) (m : list byte) (nh : hdr_cursor) (data_end : Z) : option (list check * Z) :=
  h ← parse m nh data_end;
  if p_ret h <? 0 then Some ([], XDP_ABORTED) else
  hdr ← p_hdr h;
  d ← load16 m (hdr + 2);
  s ← load16 m hdr;
  Some ([Check (KPort d) Dst (Some p); Check (KPort s) Src (Some p)], VERDICT_MISS f).

Definition scan_transport (m : list byte) (nh : hdr_cursor) (data_end ip_type : Z) : option (list check * Z) :=
  if FILT_MODE_UDP f && (ip_type =? IPPROTO_UDP) then scan_ports Udp parse_udphdr m nh data_end
  else if FILT_MODE_TCP f && (ip_type =? IPPROTO_TCP) then scan_ports Tcp parse_tcphdr m nh data_end
  else Some ([], VERDICT_MISS f).

Definition then_scan (cs : list check) (r : option (list check * Z)) : option (list check * Z) :=
  '(cs', final) ← r; Some (cs ++ cs', final).

Definition scan_network (m : list byte) (nh : hdr_cursor) (data_end eth_type : Z) : option (list check * Z) :=
  if eth_type =? bswap16 ETH_P_IP then
    h ← parse_iphdr m nh data_end;
    if p_ret h <? 0 then Some ([], XDP_ABORTED) else
    iph ← p_hdr h;
    d ← load32 m (iph + 16);
    s ← load32 m (iph + 12);
    then_scan (if FILT_MODE_IPV4 f then [Check (KIpv4 d) Dst None; Check (KIpv4 s) Src None] else [])
      (scan_transport m (p_nh h) data_end (p_ret h))
  else if eth_type =? bswap16 ETH_P_IPV6 then
    h ← parse_ip6hdr m nh data_end;
    if p_ret h <? 0 then Some ([], XDP_ABORTED) else
    ip6h ← p_hdr h;
    d ← bytes_at m (ip6h + 24) 16;
    s ← bytes_at m (ip6h + 8) 16;
    then_scan (if FILT_MODE_IPV6 f then [Check (KIpv6 d) Dst None; Check (KIpv6 s) Src None] else [])
      (scan_transport m (p_nh h) data_end (p_ret h))
  else Some ([], VERDICT_MISS f).

Definition looks_at_ip : bool := FILT_MODE_IPV4 f || FILT_MODE_IPV6 f || FILT_MODE_TCP f || FILT_MODE_UDP f.

Definition scan (m : list byte) (ctx : xdp_md) : option (list check * Z) :=
  h ← parse_ethhdr m {| pos := data ctx |} (data_end ctx);
  if p_ret h <? 0 then Some ([], XDP_ABORTED) else
  eth ← p_hdr h;
  d ← bytes_at m eth 6;
  s ← bytes_at m (eth + 6) 6;
  then_scan (if FILT_MODE_ETHERNET f then [Check (KEthernet d) Dst None; Check (KEthernet s) Src None] else [])
    (if looks_at_ip then scan_network m (p_nh h) (data_end ctx) (p_ret h) else Some ([], VERDICT_MISS f)).

End Scan.

Section RunChecks.
Context {M : Type} {F : FilterMaps M} (f : filt_mode) (cpu : nat).

Fixpoint run_checks (cs : list check) (final : Z) (maps : M) : Z * M :=
  match cs with
  | [] => (final, maps)
  | c :: cs =>
    match pc_lookup maps (ck_key c) ≫= (.!! cpu) with
    | None => run_checks cs final maps
    | Some v =>
      if Z.land v (mask c) =? mask c then (VERDICT_HIT f, pc_store maps (ck_key c) cpu (u64 (v + 64)))
      else run_checks cs final maps
    end
  end.

Lemma check_map_cons c cs final maps :
  CHECK_MAP f cpu (ck_key c) (mask c) maps (Some (run_checks cs final maps)) = Some (run_checks (c :: cs) final maps).
Proof. unfold CHECK_MAP. cbn [run_checks]. destruct (_ ≫= _); [| done]. by destruct (_ =? _). Qed.

Lemma hit_not_miss : VERDICT_HIT f =? VERDICT_MISS f = false.
Proof. unfold VERDICT_HIT, VERDICT_MISS. by destruct (FILT_MODE_DENY f). Qed.

(** A lookup that hits ends the program, one that misses changes nothing. *)
Lemma verdict_then cs cs' final maps next :
  next maps = Some (run_checks cs' final maps) ->
  CHECK_VERDICT f (Some (run_checks cs (VERDICT_MISS f) maps)) next = Some (run_checks (cs ++ cs') final maps).
Proof.
  intros Hn. unfold CHECK_VERDICT. cbn [mbind option_bind]. induction cs as [| c cs IH]; cbn [run_checks app].
  - by rewrite Z.eqb_refl.
  - destruct (_ ≫= _); [| done]. destruct (_ =? mask c); [| done]. by rewrite hit_not_miss.
Qed.

Ltac two_checks := intros Hd Hs; unfold lookup_verdict_tcp, lookup_verdict_udp, lookup_verdict_ipv4, lookup_verdict_ipv6, lookup_verdict_ethernet;
  rewrite Hd; cbn [mbind option_bind]; rewrite Hs; cbn [mbind option_bind]; by rewrite <- !check_map_cons.

Lemma lookup_tcp m h d s maps : load16 m (h + 2) = Some d -> load16 m h = Some s ->
  lookup_verdict_tcp f cpu m h maps = Some (run_checks [Check (KPort d) Dst (Some Tcp); Check (KPort s) Src (Some Tcp)] (VERDICT_MISS f) maps).
Proof. two_checks. Qed.
Lemma lookup_udp m h d s maps : load16 m (h + 2) = Some d -> load16 m h = Some s ->
  lookup_verdict_udp f cpu m h maps = Some (run_checks [Check (KPort d) Dst (Some Udp); Check (KPort s) Src (Some Udp)] (VERDICT_MISS f) maps).
Proof. two_checks. Qed.
Lemma lookup_ipv4 m h d s maps : load32 m (h + 16) = Some d -> load32 m (h + 12) = Some s ->
  lookup_verdict_ipv4 f cpu m h maps = Some (run_checks [Check (KIpv4 d) Dst None; Check (KIpv4 s) Src None] (VERDICT_MISS f) maps).
Proof. two_checks. Qed.
Lemma lookup_ipv6 m h d s maps : bytes_at m (h + 24) 16 = Some d -> bytes_at m (h + 8) 16 = Some s ->
  lookup_verdict_ipv6 f cpu m h maps = Some (run_checks [Check (KIpv6 d) Dst None; Check (KIpv6 s) Src None] (VERDICT_MISS f) maps).
Proof. two_checks. Qed.
Lemma lookup_ethernet m h d s maps : bytes_at m h 6 = Some d -> bytes_at m (h + 6) 6 = Some s ->
  lookup_verdict_ethernet f cpu m h maps = Some (run_checks [Check (KEthernet d) Dst None; Check (KEthernet s) Src None] (VERDICT_MISS f) maps).
Proof. two_checks. Qed.

(** Step through a successful scan. *)
Ltac scanned := repeat match goal with
  | H : (_ ≫= _) = Some _ |- _ => apply bind_Some in H as (? & ? & H)
  | H : Some _ = Some _ |- _ => injection H as H; subst
  | H : (_, _) = (_, _) |- _ => injection H as H; subst
  | x : (list check * Z)%type |- _ => destruct x
  end.

Lemma ports_scan p parse lookup m nh de cs final maps next :
  (forall h d s, load16 m (h + 2) = Some d -> load16 m h = Some s ->
    lookup h = Some (run_checks [Check (KPort d) Dst (Some p); Check (KPort s) Src (Some p)] (VERDICT_MISS f) maps)) ->
  next maps = Some (VERDICT_MISS f, maps) -> scan_ports f p parse m nh de = Some (cs, final) ->
  (h ← parse m nh de; CHECK_RET (p_ret h) maps (hdr ← p_hdr h; CHECK_VERDICT f (lookup hdr) next)) = Some (run_checks cs final maps).
Proof.
  unfold scan_ports, CHECK_RET. intros Hl Hn H. apply bind_Some in H as (h & -> & H). cbn [mbind option_bind].
  destruct (p_ret h <? 0); [by scanned |]. scanned.
  match goal with H : p_hdr h = Some _ |- _ => rewrite H end. cbn [mbind option_bind]. erewrite Hl by done.
  rewrite (verdict_then _ [] (VERDICT_MISS f)) by done. done.
Qed.

Lemma filter_transport_scan m nh de t cs final maps : scan_transport f m nh de t = Some (cs, final) ->
  filter_transport f cpu m nh de t maps = Some (run_checks cs final maps).
Proof.
  unfold scan_transport, filter_transport, ifdef. intros H.
  destruct (FILT_MODE_UDP f); cbn [andb] in H; [destruct (Z.eqb_spec t IPPROTO_UDP) as [-> | Hu] |].
  1: { eapply ports_scan; [intros; by apply lookup_udp | by destruct (FILT_MODE_TCP f) | done]. }
  all: destruct (FILT_MODE_TCP f); cbn [andb] in H; [destruct (Z.eqb_spec t IPPROTO_TCP) as [-> | Ht] |]; try by scanned.
  all: eapply ports_scan; [intros; by apply lookup_tcp | done | done].
Qed.

Lemma ifdef_then (feature : bool) (part : (M -> option (Z * M)) -> M -> option (Z * M)) next maps cs cs' final r :
  then_scan (if feature then cs else []) r = Some (cs', final) ->
  (forall cs1 final, r = Some (cs1, final) -> next maps = Some (run_checks cs1 final maps)) ->
  (forall cs1 final, next maps = Some (run_checks cs1 final maps) -> part next maps = Some (run_checks (cs ++ cs1) final maps)) ->
  ifdef feature part next maps = Some (run_checks cs' final maps).
Proof.
  unfold then_scan, ifdef. intros H Hn Hp. apply bind_Some in H as ([cs1 fin] & Hr & [= <- <-]).
  destruct feature; [by apply Hp, Hn | by apply Hn].
Qed.

Lemma filter_network_scan m nh de t cs final maps : scan_network f m nh de t = Some (cs, final) ->
  filter_network f cpu m nh de t maps = Some (run_checks cs final maps).
Proof.
  unfold scan_network, filter_network, CHECK_RET. intros H. destruct (t =? _); [| destruct (t =? _); [| by scanned]].
  all: apply bind_Some in H as (h & -> & H); cbn [mbind option_bind]; destruct (p_ret h <? 0); [by scanned |].
  all: apply bind_Some in H as (hdr & -> & H); cbn [mbind option_bind].
  all: apply bind_Some in H as (d & Hd & H); apply bind_Some in H as (s & Hs & H).
  all: eapply ifdef_then; [exact H | intros; by apply filter_transport_scan |]; intros cs1 fin Hn.
  - rewrite (lookup_ipv4 _ _ _ _ _ Hd Hs). by apply verdict_then.
  - rewrite (lookup_ipv6 _ _ _ _ _ Hd Hs). by apply verdict_then.
Qed.

(** The program is the first hit among the checks of the packet. *)
Lemma filter_action_scan m ctx cs final maps : scan f m ctx = Some (cs, final) ->
  filter_action f cpu m ctx maps = Some (run_checks cs final maps).
Proof.
  unfold scan, filter_action, CHECK_RET. intros H.
  apply bind_Some in H as (h & -> & H); cbn [mbind option_bind]; destruct (p_ret h <? 0); [by scanned |].
  apply bind_Some in H as (hdr & -> & H); cbn [mbind option_bind].
  apply bind_Some in H as (d & Hd & H); apply bind_Some in H as (s & Hs & H).
  eapply ifdef_then; [exact H | |]; intros cs1 fin Hn.
  - unfold ifdef. unfold looks_at_ip in Hn. destruct (_ || _); [by apply filter_network_scan | by scanned].
  - rewrite (lookup_ethernet _ _ _ _ _ Hd Hs). by apply verdict_then.
Qed.

End RunChecks.

(** ** Every packet can be scanned *)

(** A parser that stays inside the packet; the cursor may leave it. *)
Definition careful (p : parser) (min : Z) : Prop := forall m nh data_end, 0 <= pos nh -> data_end <= zlen m ->
  exists r, p m nh data_end = Some r /\ 0 <= pos (p_nh r) /\
    (p_ret r < 0 \/ p_hdr r = Some (pos nh) /\ pos nh + min <= zlen m).

Lemma careful_reject (m : list byte) nh min : 0 <= pos nh -> exists r, Some (Parsed (-1) nh None) = Some r /\ 0 <= pos (p_nh r) /\
  (p_ret r < 0 \/ p_hdr r = Some (pos nh) /\ pos nh + min <= zlen m).
Proof. intros Hp. eexists. split; [done |]. split; [done | left; cbn; lia]. Qed.

Lemma parse_ethhdr_careful : careful parse_ethhdr sizeof_ethhdr.
Proof.
  intros m nh de Hp Hde. unfold parse_ethhdr. destruct (Z.ltb_spec de (pos nh + sizeof_ethhdr)); [by apply careful_reject |].
  destruct (eth_h_proto_Some m (pos nh)) as (p & -> & _); [lia.. |]. cbn [mbind option_bind].
  destruct (vlan_loop_safe m de VLAN_MAX_DEPTH Hde 0 (pos nh + sizeof_ethhdr) p None) as (vlh & p' & vs & -> & Hv); [unfold sizeof_ethhdr in *; lia | done |].
  eexists. split; [done |]. cbn. unfold sizeof_ethhdr in *. split; [lia |]. right. split; [done | lia].
Qed.

Lemma skip_loop_careful n m de : de <= zlen m -> forall nh t, 0 <= pos nh ->
  exists r nh', skip_loop n m nh de t = Some (r, nh') /\ 0 <= pos nh'.
Proof.
  intros Hde. induction n as [| n IH]; intros nh t Hp; cbn [skip_loop]; [eauto |].
  destruct (Z.ltb_spec de (pos nh + sizeof_ipv6_opt_hdr)) as [| Hle]; [eauto |]. unfold sizeof_ipv6_opt_hdr in Hle.
  destruct (load_Some 1 m (pos nh)) as (nx & -> & _); [lia.. |]. destruct (load_Some 1 m (pos nh + 1)) as (hl & -> & Hhl); [lia.. |]. cbn [mbind option_bind].
  destruct (_ || _); [apply IH; cbn; lia |]. destruct (_ =? _); [apply IH; cbn; lia |]. destruct (_ =? _); [apply IH; cbn; lia | eauto].
Qed.

Lemma parse_ip6hdr_careful : careful parse_ip6hdr sizeof_ipv6hdr.
Proof.
  intros m nh de Hp Hde. unfold parse_ip6hdr. destruct (Z.ltb_spec de (pos nh + sizeof_ipv6hdr)); [by apply careful_reject |].
  unfold sizeof_ipv6hdr, ip6h_nexthdr in *. destruct (load_Some 1 m (pos nh + 6)) as (nx & -> & _); [lia.. |]. cbn [mbind option_bind].
  destruct (skip_loop_careful IPV6_EXT_MAX_CHAIN m de Hde {| pos := pos nh + 40 |} nx) as (r & nh' & E & Hn); [cbn; lia |].
  unfold skip_ip6hdrext. rewrite E. eexists. split; [done |]. cbn. split; [done |]. right. split; [done | lia].
Qed.

Lemma parse_iphdr_careful : careful parse_iphdr sizeof_iphdr.
Proof.
  intros m nh de Hp Hde. unfold parse_iphdr. destruct (Z.ltb_spec de (pos nh + sizeof_iphdr)); [by apply careful_reject |].
  destruct (iph_ihl_Some m (pos nh)) as (ihl & -> & Hi); [lia.. |]. cbn [mbind option_bind]. destruct (de <? _); [by apply careful_reject |].
  unfold sizeof_iphdr, iph_protocol in *. destruct (load_Some 1 m (pos nh + 9)) as (v & -> & _); [lia.. |]. cbn [mbind option_bind].
  eexists. split; [done |]. cbn. split; [lia |]. right. split; [done | lia].
Qed.

Lemma parse_udphdr_careful : careful parse_udphdr sizeof_udphdr.
Proof.
  intros m nh de Hp Hde. destruct (@hdr_safe _ _ HdrParser_udphdr m nh de Hp Hde) as (r & -> & [-> | [Hh Hn]]); [by apply careful_reject |].
  eexists. split; [done |]. unfold sizeof_udphdr in *. split; [lia |]. right. split; [done | lia].
Qed.

Lemma parse_tcphdr_careful : careful parse_tcphdr sizeof_tcphdr.
Proof.
  intros m nh de Hp Hde. unfold parse_tcphdr. destruct (Z.ltb_spec de (pos nh + sizeof_tcphdr)); [by apply careful_reject |].
  destruct (tcp_doff_Some m (pos nh)) as (doff & -> & Hd); [lia.. |]. cbn [mbind option_bind]. destruct (de <? _); [by apply careful_reject |].
  unfold sizeof_tcphdr in *. eexists. split; [done |]. cbn. split; [lia |]. right. split; [done | lia].
Qed.

Definition in_memory (m : list byte) (ctx : xdp_md) : Prop := 0 <= data ctx /\ data_end ctx <= zlen m.

(** What may follow when no check hits. *)
Definition final_ok (f : filt_mode) (final : Z) : Prop := final = XDP_ABORTED \/ final = VERDICT_MISS f.

Definition scanned (f : filt_mode) (r : option (list check * Z)) : Prop := exists cs final, r = Some (cs, final) /\ final_ok f final.

Section Total.
Context (f : filt_mode).

Lemma scanned_abort : scanned f (Some ([], XDP_ABORTED)).
Proof. exists [], XDP_ABORTED. split; [done | by left]. Qed.
Lemma scanned_miss cs : scanned f (Some (cs, VERDICT_MISS f)).
Proof. exists cs, (VERDICT_MISS f). split; [done | by right]. Qed.
Lemma scanned_then cs r : scanned f r -> scanned f (then_scan cs r).
Proof. intros (cs' & fin & -> & H). by exists (cs ++ cs'), fin. Qed.

Lemma scan_ports_total p parse min m nh de : careful parse min -> 4 <= min -> 0 <= pos nh -> de <= zlen m -> scanned f (scan_ports f p parse m nh de).
Proof.
  intros Hc Hm Hp Hde. unfold scan_ports. destruct (Hc m nh de Hp Hde) as (r & -> & _ & Hr). cbn [mbind option_bind].
  destruct (Z.ltb_spec (p_ret r) 0); [apply scanned_abort |]. destruct Hr as [| [-> Hle]]; [lia |]. cbn [mbind option_bind].
  destruct (load_Some 2 m (pos nh + 2)) as (d & -> & _); [lia.. |]. destruct (load_Some 2 m (pos nh)) as (s & -> & _); [lia.. |]. apply scanned_miss.
Qed.

Lemma scan_transport_total m nh de t : 0 <= pos nh -> de <= zlen m -> scanned f (scan_transport f m nh de t).
Proof.
  intros Hp Hde. unfold scan_transport. destruct (_ && _); [by apply (scan_ports_total _ _ _ _ _ _ parse_udphdr_careful) |].
  destruct (_ && _); [by apply (scan_ports_total _ _ _ _ _ _ parse_tcphdr_careful) | apply scanned_miss].
Qed.

Lemma scan_network_total m nh de t : 0 <= pos nh -> de <= zlen m -> scanned f (scan_network f m nh de t).
Proof.
  intros Hp Hde. unfold scan_network. destruct (t =? _); [| destruct (t =? _); [| apply scanned_miss]].
  - destruct (parse_iphdr_careful m nh de Hp Hde) as (r & -> & Hn & Hr). cbn [mbind option_bind].
    destruct (Z.ltb_spec (p_ret r) 0); [apply scanned_abort |]. destruct Hr as [| [-> Hle]]; [lia |]. unfold sizeof_iphdr in Hle. cbn [mbind option_bind].
    destruct (load_Some 4 m (pos nh + 16)) as (d & -> & _); [lia.. |]. destruct (load_Some 4 m (pos nh + 12)) as (s & -> & _); [lia.. |].
    by apply scanned_then, scan_transport_total.
  - destruct (parse_ip6hdr_careful m nh de Hp Hde) as (r & -> & Hn & Hr). cbn [mbind option_bind].
    destruct (Z.ltb_spec (p_ret r) 0); [apply scanned_abort |]. destruct Hr as [| [-> Hle]]; [lia |]. unfold sizeof_ipv6hdr in Hle. cbn [mbind option_bind].
    rewrite !bytes_at_Some by lia. by apply scanned_then, scan_transport_total.
Qed.

(** No packet makes the program read outside of it. *)
Lemma scan_total m ctx : in_memory m ctx -> scanned f (scan f m ctx).
Proof.
  intros [Hp Hde]. unfold scan. destruct (parse_ethhdr_careful m {| pos := data ctx |} (data_end ctx) Hp Hde) as (r & -> & Hn & Hr). cbn [mbind option_bind pos] in *.
  destruct (Z.ltb_spec (p_ret r) 0); [apply scanned_abort |]. destruct Hr as [| [-> Hle]]; [lia |]. unfold sizeof_ethhdr in Hle. cbn [mbind option_bind].
  rewrite !bytes_at_Some by lia. apply scanned_then. destruct (looks_at_ip f); [by apply scan_network_total | apply scanned_miss].
Qed.

End Total.

(** ** Frames

    The frames a network has, built from their fields. *)

(** A segment: the ports, eight bytes, the byte with the length of the header
    and the rest; a datagram: the ports, the length, two bytes and the rest. *)
Inductive segment :=
| TcpSegment (sport dport : Z) (seqs : list byte) (doff : Z) (rest : list byte)
| UdpDatagram (sport dport len : Z) (csum payload : list byte)
| OtherPayload (ptype : Z) (payload : list byte).

Definition segment_proto (s : segment) : Z :=
  match s with TcpSegment _ _ _ _ _ => IPPROTO_TCP | UdpDatagram _ _ _ _ _ => IPPROTO_UDP | OtherPayload p _ => p end.

Definition segment_bytes (s : segment) : list byte :=
  match s with
  | TcpSegment sp dp seqs doff rest => be16 sp ++ be16 dp ++ seqs ++ le_split 1 doff ++ rest
  | UdpDatagram sp dp len csum payload => be16 sp ++ be16 dp ++ be16 len ++ csum ++ payload
  | OtherPayload _ payload => payload
  end.

(** The protocols the loop over extension headers goes on with. *)
Definition is_ext (p : Z) : bool :=
  (p =? IPPROTO_HOPOPTS) || (p =? IPPROTO_DSTOPTS) || (p =? IPPROTO_ROUTING) || (p =? IPPROTO_MH) || (p =? IPPROTO_AH) || (p =? IPPROTO_FRAGMENT).

Definition port_ok (p : Z) : Prop := 0 <= p < 2 ^ 16.

Definition segment_ok (s : segment) : Prop :=
  match s with
  | TcpSegment sp dp seqs doff rest =>
      port_ok sp /\ port_ok dp /\ length seqs = 8%nat /\ 0 <= doff < 2 ^ 8 /\ 7 <= zlen rest /\ Z.shiftr doff 4 * 4 <= 13 + zlen rest
  | UdpDatagram sp dp len csum payload => port_ok sp /\ port_ok dp /\ 8 <= len < 2 ^ 16 /\ length csum = 2%nat
  | OtherPayload p payload => 0 <= p < 2 ^ 8 /\ p <> IPPROTO_TCP /\ p <> IPPROTO_UDP /\ is_ext p = false
  end.

(** An extension header: its protocol number, its length field and what
    follows. *)
Record ext := { x_proto : Z; x_len : Z; x_data : list byte }.

Definition first_ext (xs : list ext) (final : Z) : Z := match xs with [] => final | x :: _ => x_proto x end.

Fixpoint ext_bytes (xs : list ext) (final : Z) : list byte :=
  match xs with
  | [] => []
  | x :: xs => le_split 1 (first_ext xs final) ++ le_split 1 (x_len x) ++ x_data x ++ ext_bytes xs final
  end.

Definition ext_size (x : ext) : Z :=
  if x_proto x =? IPPROTO_AH then (x_len x + 2) * 4 else if x_proto x =? IPPROTO_FRAGMENT then 8 else (x_len x + 1) * 8.

Definition ext_ok (x : ext) : Prop := is_ext (x_proto x) = true /\ 0 <= x_len x < 2 ^ 8 /\ 2 + zlen (x_data x) = ext_size x.

Inductive network :=
| Ipv4 (ver_ihl : Z) (a : list byte) (csum : list byte) (saddr daddr : Z) (opts : list byte) (seg : segment)
| Ipv6 (a : list byte) (hop : list byte) (saddr daddr : list byte) (xs : list ext) (seg : segment)
| OtherNet (eth_type : Z) (payload : list byte).

Definition network_type (n : network) : Z :=
  match n with Ipv4 _ _ _ _ _ _ _ => ETH_P_IP | Ipv6 _ _ _ _ _ _ => ETH_P_IPV6 | OtherNet t _ => t end.

Definition network_bytes (n : network) : list byte :=
  match n with
  | Ipv4 v a csum sa da opts seg =>
      le_split 1 v ++ a ++ le_split 1 (segment_proto seg) ++ csum ++ le_split 4 sa ++ le_split 4 da ++ opts ++ segment_bytes seg
  | Ipv6 a hop sa da xs seg =>
      a ++ le_split 1 (first_ext xs (segment_proto seg)) ++ hop ++ sa ++ da ++ ext_bytes xs (segment_proto seg) ++ segment_bytes seg
  | OtherNet _ payload => payload
  end.

Definition network_ok (n : network) : Prop :=
  match n with
  | Ipv4 v a csum sa da opts seg =>
      0 <= v < 2 ^ 8 /\ Z.land v 15 * 4 = 20 + zlen opts /\ length a = 8%nat /\ length csum = 2%nat /\
      0 <= sa < 2 ^ 32 /\ 0 <= da < 2 ^ 32 /\ segment_ok seg
  | Ipv6 a hop sa da xs seg =>
      length a = 6%nat /\ length hop = 1%nat /\ length sa = 16%nat /\ length da = 16%nat /\
      Forall ext_ok xs /\ (length xs < IPV6_EXT_MAX_CHAIN)%nat /\ segment_ok seg /\ 2 <= zlen (segment_bytes seg)
  | OtherNet t _ => 0 <= t < 2 ^ 16 /\ t <> ETH_P_IP /\ t <> ETH_P_IPV6 /\ ~ host_is_vlan t
  end.

Record eth_packet := { h_dest : list byte; h_source : list byte; vlan_tags : list (Z * Z); net : network }.

Definition packet_bytes (p : eth_packet) : list byte :=
  eth_frame (h_dest p ++ h_source p) (vlan_tags p) (network_type (net p)) (network_bytes (net p)).

Definition packet_ok (p : eth_packet) : Prop :=
  length (h_dest p) = 6%nat /\ length (h_source p) = 6%nat /\ Forall tag_ok (vlan_tags p) /\ (length (vlan_tags p) <= VLAN_MAX_DEPTH)%nat /\ network_ok (net p).

(** The fields of a packet that a program looks at. *)
Definition segment_checks (f : filt_mode) (s : segment) : list check :=
  match s with
  | TcpSegment sp dp _ _ _ => if FILT_MODE_TCP f then [Check (KPort (bswap16 dp)) Dst (Some Tcp); Check (KPort (bswap16 sp)) Src (Some Tcp)] else []
  | UdpDatagram sp dp _ _ _ => if FILT_MODE_UDP f then [Check (KPort (bswap16 dp)) Dst (Some Udp); Check (KPort (bswap16 sp)) Src (Some Udp)] else []
  | OtherPayload _ _ => []
  end.

Definition network_checks (f : filt_mode) (n : network) : list check :=
  match n with
  | Ipv4 _ _ _ sa da _ seg => (if FILT_MODE_IPV4 f then [Check (KIpv4 da) Dst None; Check (KIpv4 sa) Src None] else []) ++ segment_checks f seg
  | Ipv6 _ _ sa da _ seg => (if FILT_MODE_IPV6 f then [Check (KIpv6 da) Dst None; Check (KIpv6 sa) Src None] else []) ++ segment_checks f seg
  | OtherNet _ _ => []
  end.

Definition packet_checks (f : filt_mode) (p : eth_packet) : list check :=
  (if FILT_MODE_ETHERNET f then [Check (KEthernet (h_dest p)) Dst None; Check (KEthernet (h_source p)) Src None] else []) ++
  network_checks f (net p).

Lemma load_at (m pre post : list byte) n v off : m = pre ++ le_split n v ++ post -> off = zlen pre -> 0 <= v < 2 ^ (8 * Z.of_nat n) -> load n m off = Some v.
Proof. intros ->. apply load_app_le. Qed.

Lemma bytes_in (m pre bs post : list byte) n off : m = pre ++ bs ++ post -> off = zlen pre -> length bs = n -> bytes_at m off n = Some bs.
Proof. intros -> -> <-. by apply bytes_at_app. Qed.

(** Close the goals of [load_at] and [bytes_in] for a field behind [pre]. *)
Ltac place := first [by rewrite <- ?app_assoc | by rewrite ?zlen_app, ?zlen_le_split, ?zlen_be16; unfold zlen; lia | done | lia].
Ltac load_at_pre pre := match goal with
  | |- context [load ?n ?m ?off] => erewrite (load_at m pre _ n _ off); [| place | place | place]
  end; cbn [mbind option_bind].
Ltac bytes_at_pre pre bs := match goal with
  | |- context [bytes_at ?m ?off ?n] => erewrite (bytes_in m pre bs _ n off); [| place | place | place]
  end; cbn [mbind option_bind].

Lemma vlan_stack_app tags p payload : vlan_stack tags p payload = vlan_stack tags p [] ++ payload.
Proof. induction tags as [| [t c] tags IH]; cbn [vlan_stack]; [by rewrite <- app_assoc | by rewrite IH, <- !app_assoc]. Qed.

Lemma zlen_vlan_stack tags p : zlen (vlan_stack tags p []) = 2 + 4 * zlen tags.
Proof. destruct (vlan_stack_first tags p []) as (rest & -> & Hl). rewrite zlen_app, zlen_be16, Hl. change (zlen (@nil byte)) with 0. lia. Qed.

Lemma parse_ethhdr_frame (front macs : list byte) tags p payload :
  length macs = 12%nat -> Forall tag_ok tags -> (length tags <= VLAN_MAX_DEPTH)%nat -> 0 <= p < 2 ^ 16 -> ~ host_is_vlan p ->
  let m := front ++ eth_frame macs tags p payload in
  parse_ethhdr m {| pos := zlen front |} (zlen m) =
  Some (Parsed (bswap16 p) {| pos := zlen (front ++ macs ++ vlan_stack tags p []) |} (Some (zlen front))).
Proof.
  intros Hm Ht Hn Hp Hv m. assert (zlen macs = 12) as Hz by (unfold zlen; lia).
  destruct (vlan_stack_first tags p payload) as (rest & Hrest & Hlen).
  assert (0 <= first_proto tags p < 2 ^ 16) as Hfp.
  { destruct tags as [| t tags']; [done |]. apply Forall_cons in Ht as [Ht _]. destruct t. apply (tag_proto_range _ Ht). }
  unfold parse_ethhdr. cbn [pos]. rewrite (proj2 (Z.ltb_ge _ _)); cycle 1.
  { unfold m, eth_frame. rewrite Hrest, !zlen_app, zlen_be16, Hz. pose proof (zlen_nonneg rest). unfold sizeof_ethhdr. lia. }
  assert (eth_h_proto m (zlen front) = Some (bswap16 (first_proto tags p))) as ->.
  { unfold eth_h_proto, m, eth_frame. rewrite Hrest, app_assoc. apply load_be16; [rewrite zlen_app; lia | done]. }
  cbn [mbind option_bind].
  pose proof (vlan_loop_stack p payload VLAN_MAX_DEPTH Hp Hv tags (front ++ macs) 0 [0; 0; 0; 0] Ht ltac:(done)) as Hl. cbv zeta in Hl.
  apply vlan_loop_ids_irrelevant in Hl. unfold m, eth_frame.
  replace (zlen front + sizeof_ethhdr) with (zlen (front ++ macs) + 2) by (rewrite zlen_app, Hz; unfold sizeof_ethhdr; lia).
  rewrite app_assoc, Hl. cbn [mbind option_bind]. rewrite drop_ge by done. cbn [first_proto].
  rewrite Nat.min_r by done. rewrite !zlen_app, zlen_vlan_stack. unfold zlen. do 3 f_equal. lia.
Qed.

Lemma parse_tcphdr_frame (pre : list byte) sp dp seqs doff rest :
  segment_ok (TcpSegment sp dp seqs doff rest) ->
  let m := pre ++ segment_bytes (TcpSegment sp dp seqs doff rest) in
  parse_tcphdr m {| pos := zlen pre |} (zlen m) = Some (Parsed (Z.shiftr doff 4 * 4) {| pos := zlen pre + sizeof_tcphdr |} (Some (zlen pre))).
Proof.
  intros (Hsp & Hdp & Hs & Hd & Hr & Hle) m. unfold parse_tcphdr, tcp_doff. cbn [pos].
  assert (zlen m = zlen pre + 13 + zlen rest) as Hm by (unfold m; cbn [segment_bytes]; rewrite !zlen_app, !zlen_be16, zlen_le_split; unfold zlen in *; lia).
  rewrite Hm. unfold sizeof_tcphdr. rewrite (proj2 (Z.ltb_ge _ _)) by lia. unfold m; cbn [segment_bytes].
  load_at_pre (pre ++ be16 sp ++ be16 dp ++ seqs). cbn [fmap option_fmap option_map mbind option_bind]. rewrite (proj2 (Z.ltb_ge _ _)) by lia. done.
Qed.

Lemma parse_udphdr_frame (pre : list byte) sp dp len csum payload :
  segment_ok (UdpDatagram sp dp len csum payload) ->
  let m := pre ++ segment_bytes (UdpDatagram sp dp len csum payload) in
  parse_udphdr m {| pos := zlen pre |} (zlen m) = Some (Parsed (len - 8) {| pos := zlen pre + sizeof_udphdr |} (Some (zlen pre))).
Proof.
  intros (Hsp & Hdp & Hl & Hc) m. unfold parse_udphdr, udp_len. cbn [pos].
  assert (zlen m = zlen pre + 8 + zlen payload) as Hm by (unfold m; cbn [segment_bytes]; rewrite !zlen_app, !zlen_be16; unfold zlen in *; lia).
  pose proof (zlen_nonneg payload). rewrite Hm. unfold sizeof_udphdr. rewrite (proj2 (Z.ltb_ge _ _)) by lia. unfold m; cbn [segment_bytes].
  rewrite (app_assoc pre), (app_assoc _ (be16 dp)), load_be16; [| place | lia]. cbn [mbind option_bind].
  rewrite bswap16_involutive, u64_id, s32_id by lia. by rewrite (proj2 (Z.ltb_ge _ _)) by lia.
Qed.

Lemma scan_ports_frame f (pre : list byte) p parse sp dp rest h : port_ok sp -> port_ok dp ->
  let m := pre ++ be16 sp ++ be16 dp ++ rest in
  parse m {| pos := zlen pre |} (zlen m) = Some h -> 0 <= p_ret h -> p_hdr h = Some (zlen pre) ->
  scan_ports f p parse m {| pos := zlen pre |} (zlen m) = Some ([Check (KPort (bswap16 dp)) Dst (Some p); Check (KPort (bswap16 sp)) Src (Some p)], VERDICT_MISS f).
Proof.
  intros Hsp Hdp m E Hr Hh. unfold scan_ports. rewrite E. cbn [mbind option_bind]. rewrite (proj2 (Z.ltb_ge _ _)), Hh by lia. cbn [mbind option_bind].
  unfold m. rewrite load_be16 by done. cbn [mbind option_bind]. by rewrite (app_assoc pre), load_be16 by (done || place).
Qed.

Lemma scan_segment f (pre : list byte) seg : segment_ok seg ->
  let m := pre ++ segment_bytes seg in
  scan_transport f m {| pos := zlen pre |} (zlen m) (segment_proto seg) = Some (segment_checks f seg, VERDICT_MISS f).
Proof.
  intros Hs m. unfold scan_transport. destruct seg as [sp dp seqs doff rest | sp dp len csum payload | p payload]; cbn [segment_proto segment_checks].
  - rewrite andb_false_r. destruct (FILT_MODE_TCP f); [| done]. cbn [andb]. eapply scan_ports_frame; [by apply Hs | by apply Hs | by apply parse_tcphdr_frame | | done].
    destruct Hs as (_ & _ & _ & Hd & _). cbn. pose proof (shiftr4_range doff Hd). lia.
  - destruct (FILT_MODE_UDP f); [| by rewrite andb_false_r]. cbn [andb]. eapply scan_ports_frame; [by apply Hs | by apply Hs | by apply parse_udphdr_frame | | done].
    destruct Hs as (_ & _ & Hl & _). cbn. lia.
  - destruct Hs as (_ & Ht & Hu & _). rewrite (proj2 (Z.eqb_neq _ _) Hu), (proj2 (Z.eqb_neq _ _) Ht), !andb_false_r. done.
Qed.

Lemma segment_proto_range seg : segment_ok seg -> 0 <= segment_proto seg < 2 ^ 8 /\ is_ext (segment_proto seg) = false.
Proof. destruct seg; [done | done |]. intros (H & _ & _ & He). done. Qed.

Lemma parse_iphdr_frame (pre : list byte) v a csum sa da opts seg : network_ok (Ipv4 v a csum sa da opts seg) ->
  let m := pre ++ network_bytes (Ipv4 v a csum sa da opts seg) in
  parse_iphdr m {| pos := zlen pre |} (zlen m) = Some (Parsed (segment_proto seg) {| pos := zlen m - zlen (segment_bytes seg) |} (Some (zlen pre))).
Proof.
  intros (Hv & Hihl & Ha & Hc & Hsa & Hda & Hs) m. unfold parse_iphdr, iph_ihl, iph_protocol. cbn [pos].
  assert (zlen m = zlen pre + 20 + zlen opts + zlen (segment_bytes seg)) as Hm by (unfold m; cbn [network_bytes]; rewrite !zlen_app, !zlen_le_split; unfold zlen in *; lia).
  pose proof (zlen_nonneg opts). pose proof (zlen_nonneg (segment_bytes seg)). destruct (segment_proto_range seg Hs) as [Hp _].
  rewrite Hm. unfold sizeof_iphdr. rewrite (proj2 (Z.ltb_ge _ _)) by lia. unfold m; cbn [network_bytes].
  load_at_pre pre. cbn [fmap option_fmap option_map mbind option_bind]. rewrite Hihl, (proj2 (Z.ltb_ge _ _)) by lia.
  load_at_pre (pre ++ le_split 1 v ++ a). do 3 f_equal. lia.
Qed.

Lemma first_ext_range xs final : Forall ext_ok xs -> 0 <= final < 2 ^ 8 -> 0 <= first_ext xs final < 2 ^ 8.
Proof.
  intros Hx Hf. destruct xs as [| x xs]; [done |]. apply Forall_cons in Hx as [(Hx & _) _]. cbn [first_ext].
  unfold is_ext in Hx. repeat (apply orb_prop in Hx as [Hx | Hx]); apply Z.eqb_eq in Hx; rewrite Hx; done.
Qed.

(** One extension header is skipped as a whole. *)
Lemma skip_loop_step n m pre x nx rest :
  ext_ok x -> 0 <= nx < 2 ^ 8 -> m = pre ++ le_split 1 nx ++ le_split 1 (x_len x) ++ x_data x ++ rest ->
  skip_loop (S n) m {| pos := zlen pre |} (zlen m) (x_proto x) =
  skip_loop n m {| pos := zlen (pre ++ le_split 1 nx ++ le_split 1 (x_len x) ++ x_data x) |} (zlen m) nx.
Proof.
  intros (Hx & Hl & Hs) Hn ->. cbn [skip_loop pos]. pose proof (zlen_nonneg rest). pose proof (zlen_nonneg (x_data x)).
  rewrite (proj2 (Z.ltb_ge _ _)) by (rewrite !zlen_app, !zlen_le_split; unfold sizeof_ipv6_opt_hdr; lia).
  load_at_pre (pre ++ le_split 1 nx). load_at_pre pre.
  assert (zlen (pre ++ le_split 1 nx ++ le_split 1 (x_len x) ++ x_data x) = zlen pre + ext_size x) as -> by (rewrite !zlen_app, !zlen_le_split; lia).
  unfold ext_size, is_ext in *. destruct (Z.eqb_spec (x_proto x) IPPROTO_AH) as [-> |]; [done |].
  destruct (Z.eqb_spec (x_proto x) IPPROTO_FRAGMENT) as [-> |]; [done |]. rewrite !orb_false_r in Hx. by rewrite Hx.
Qed.

Lemma skip_loop_frame final seg : 0 <= final < 2 ^ 8 -> is_ext final = false -> 2 <= zlen seg ->
  forall n xs pre m, Forall ext_ok xs -> (length xs < n)%nat -> m = pre ++ ext_bytes xs final ++ seg ->
  skip_loop n m {| pos := zlen pre |} (zlen m) (first_ext xs final) = Some (final, {| pos := zlen m - zlen seg |}).
Proof.
  intros Hf He Hseg. induction n as [| n IH]; intros xs pre m Hx Hn Hm; [lia |]. destruct xs as [| x xs].
  - subst m. cbn [skip_loop pos first_ext ext_bytes app]. rewrite (proj2 (Z.ltb_ge _ _)) by (rewrite zlen_app; unfold sizeof_ipv6_opt_hdr; lia).
    unfold is_ext in He. apply orb_false_elim in He as [[He1 He2]%orb_false_elim He3]. rewrite He1, He2, He3.
    rewrite zlen_app. do 3 f_equal. lia.
  - apply Forall_cons in Hx as [Hx Hxs]. cbn [first_ext ext_bytes] in *. rewrite <- !app_assoc in Hm.
    rewrite (skip_loop_step n m pre x (first_ext xs final) (ext_bytes xs final ++ seg)); [| done | by apply first_ext_range | done].
    apply IH; [done | cbn in Hn; lia | by rewrite Hm, <- !app_assoc].
Qed.

Lemma parse_ip6hdr_frame (pre : list byte) a hop sa da xs seg : network_ok (Ipv6 a hop sa da xs seg) ->
  let m := pre ++ network_bytes (Ipv6 a hop sa da xs seg) in
  parse_ip6hdr m {| pos := zlen pre |} (zlen m) = Some (Parsed (segment_proto seg) {| pos := zlen m - zlen (segment_bytes seg) |} (Some (zlen pre))).
Proof.
  intros (Ha & Hh & Hsa & Hda & Hx & Hn & Hs & H2) m. unfold parse_ip6hdr, ip6h_nexthdr, skip_ip6hdrext. cbn [pos].
  destruct (segment_proto_range seg Hs) as [Hp He]. pose proof (first_ext_range xs _ Hx Hp). set (nx := first_ext xs (segment_proto seg)) in *.
  assert (m = (pre ++ a ++ le_split 1 nx ++ hop ++ sa ++ da) ++ ext_bytes xs (segment_proto seg) ++ segment_bytes seg) as Em by (unfold m; cbn [network_bytes]; by rewrite <- !app_assoc).
  assert (zlen (pre ++ a ++ le_split 1 nx ++ hop ++ sa ++ da) = zlen pre + sizeof_ipv6hdr) as Ez by (rewrite !zlen_app, zlen_le_split; unfold zlen, sizeof_ipv6hdr in *; lia).
  assert (zlen pre + sizeof_ipv6hdr <= zlen m) as Hle.
  { rewrite Em, zlen_app, Ez. pose proof (zlen_nonneg (ext_bytes xs (segment_proto seg) ++ segment_bytes seg)). lia. }
  rewrite (proj2 (Z.ltb_ge _ _)) by lia.
  assert (load8 m (zlen pre + 6) = Some nx) as -> by (apply (load_at m (pre ++ a) (hop ++ sa ++ da ++ ext_bytes xs (segment_proto seg) ++ segment_bytes seg)); place).
  cbn [mbind option_bind]. rewrite <- Ez. unfold nx in *. rewrite (skip_loop_frame _ (segment_bytes seg) Hp He H2 _ xs _ _ Hx Hn Em). done.
Qed.

Lemma scan_segment_at f pre m seg cs : segment_ok seg -> m = pre ++ segment_bytes seg ->
  then_scan cs (scan_transport f m {| pos := zlen m - zlen (segment_bytes seg) |} (zlen m) (segment_proto seg)) = Some (cs ++ segment_checks f seg, VERDICT_MISS f).
Proof.
  intros Hs ->. replace (zlen (pre ++ segment_bytes seg) - zlen (segment_bytes seg)) with (zlen pre) by (rewrite zlen_app; lia).
  by rewrite scan_segment.
Qed.

Lemma scan_network_frame f (pre : list byte) n : network_ok n ->
  let m := pre ++ network_bytes n in
  scan_network f m {| pos := zlen pre |} (zlen m) (bswap16 (network_type n)) = Some (network_checks f n, VERDICT_MISS f).
Proof.
  intros Hn m. unfold scan_network. destruct n as [v a csum sa da opts seg | a hop sa da xs seg | t payload]; cbn [network_type network_checks].
  - rewrite Z.eqb_refl. unfold m. rewrite parse_iphdr_frame by done. cbn [mbind option_bind p_ret p_hdr p_nh]. destruct Hn as (Hv & Hihl & Ha & Hc & Hsa & Hda & Hs).
    destruct (segment_proto_range seg Hs) as [Hp _]. rewrite (proj2 (Z.ltb_ge _ _)) by lia.
    cbn [network_bytes]. load_at_pre (pre ++ le_split 1 v ++ a ++ le_split 1 (segment_proto seg) ++ csum ++ le_split 4 sa).
    load_at_pre (pre ++ le_split 1 v ++ a ++ le_split 1 (segment_proto seg) ++ csum).
    apply (scan_segment_at f (pre ++ le_split 1 v ++ a ++ le_split 1 (segment_proto seg) ++ csum ++ le_split 4 sa ++ le_split 4 da ++ opts)); [done |].
    by rewrite <- !app_assoc.
  - change (bswap16 ETH_P_IPV6 =? bswap16 ETH_P_IP) with false. rewrite Z.eqb_refl. unfold m. rewrite parse_ip6hdr_frame by done.
    cbn [mbind option_bind p_ret p_hdr p_nh]. destruct Hn as (Ha & Hh & Hsa & Hda & Hx & Hn & Hs & H2).
    destruct (segment_proto_range seg Hs) as [Hp _]. rewrite (proj2 (Z.ltb_ge _ _)) by lia. cbn [network_bytes]. set (nx := first_ext _ _).
    bytes_at_pre (pre ++ a ++ le_split 1 nx ++ hop ++ sa) da. bytes_at_pre (pre ++ a ++ le_split 1 nx ++ hop) sa.
    apply (scan_segment_at f (pre ++ a ++ le_split 1 nx ++ hop ++ sa ++ da ++ ext_bytes xs (segment_proto seg))); [done |].
    by rewrite <- !app_assoc.
  - destruct Hn as (Ht & H4 & H6 & _). destruct (Z.eqb_spec (bswap16 t) (bswap16 ETH_P_IP)) as [E%bswap16_inj |]; [done | lia | done |].
    destruct (Z.eqb_spec (bswap16 t) (bswap16 ETH_P_IPV6)) as [E%bswap16_inj |]; [done | lia | done | done].
Qed.

Lemma network_checks_ip f n : looks_at_ip f = false -> network_checks f n = [].
Proof.
  unfold looks_at_ip. intros H. repeat (apply orb_false_elim in H as [H ?]). destruct n as [? ? ? ? ? ? seg | ? ? ? ? ? seg |]; cbn [network_checks]; [| | done].
  all: destruct seg; cbn [segment_checks]; by repeat match goal with H : _ = false |- _ => rewrite H; clear H end.
Qed.

(** A well-formed frame is checked for its fields. *)
Lemma scan_frame f front p : packet_ok p ->
  let m := front ++ packet_bytes p in
  scan f m {| data := zlen front; data_end := zlen m |} = Some (packet_checks f p, VERDICT_MISS f).
Proof.
  intros (Hd & Hs & Ht & Htn & Hn) m. unfold scan. cbn [data data_end]. unfold m, packet_bytes.
  assert (0 <= network_type (net p) < 2 ^ 16 /\ ~ host_is_vlan (network_type (net p))) as [Hr Hv].
  { destruct (net p); cbn [network_type]; [split; [done | by intros []] | split; [done | by intros []] | by destruct Hn as (? & _ & _ & ?)]. }
  rewrite parse_ethhdr_frame; [| rewrite length_app; lia | done..]. cbn [mbind option_bind p_ret p_hdr p_nh].
  rewrite (proj2 (Z.ltb_ge _ _)) by (apply bswap16_range; lia). unfold eth_frame.
  bytes_at_pre front (h_dest p). bytes_at_pre (front ++ h_dest p) (h_source p). unfold packet_checks.
  destruct (looks_at_ip f) eqn:El; [| unfold then_scan; cbn [mbind option_bind]; by rewrite network_checks_ip].
  rewrite (vlan_stack_app _ _ (network_bytes _)), !app_assoc, <- (app_assoc front), <- (app_assoc front (_ ++ _)), <- (app_assoc _ (h_source p)).
  rewrite scan_network_frame by done. done.
Qed.

(** ** Packets that the filter does not see as they are *)

Definition hop_by_hop : ext := {| x_proto := IPPROTO_HOPOPTS; x_len := 0; x_data := replicate 6 x00 |}.

Definition ipv6_packet (xs : list ext) (seg : segment) : list byte :=
  packet_bytes {| h_dest := replicate 6 x01; h_source := replicate 6 x02; vlan_tags := [];
                  net := Ipv6 (replicate 6 x00) [x40] (replicate 16 x0a) (replicate 16 x0b) xs seg |}.

Definition scan_all (m : list byte) : option (list check * Z) := scan xdpfilt_alw_all m {| data := 0; data_end := zlen m |}.

(** Six extension headers are one too many, although IPV6_EXT_MAX_CHAIN is
    called the longest chain that is resolved. *)
Lemma six_extensions_aborted :
  snd <$> scan_all (ipv6_packet (replicate 5 hop_by_hop) (UdpDatagram 1 2 8 [x00; x00] [])) = Some XDP_PASS /\
  snd <$> scan_all (ipv6_packet (replicate 6 hop_by_hop) (UdpDatagram 1 2 8 [x00; x00] [])) = Some XDP_ABORTED.
Proof. split; vm_compute; reflexivity. Qed.

(** A packet that ends with its IPv6 header is aborted. *)
Lemma empty_ipv6_aborted : snd <$> scan_all (ipv6_packet [] (OtherPayload 59 [])) = Some XDP_ABORTED.
Proof. vm_compute. reflexivity. Qed.

(** An IPv4 header whose length field is 0: the ports are taken from the IP
    header itself. *)
Lemma short_ihl_ports :
  fst <$> scan_all (packet_bytes {| h_dest := replicate 6 x01; h_source := replicate 6 x02; vlan_tags := [];
    net := Ipv4 0x40 [x00; xca; xfe; x00; x00; x00; x00; x40] [x00; x00] 0x0100000a 0x0200000a [] (TcpSegment 1 2 (replicate 8 x00) 0x50 (replicate 7 x00)) |}) =
  Some [Check (KEthernet (replicate 6 x01)) Dst None; Check (KEthernet (replicate 6 x02)) Src None; Check (KIpv4 0x0200000a) Dst None; Check (KIpv4 0x0100000a) Src None;
        Check (KPort (bswap16 0xcafe)) Dst (Some Tcp); Check (KPort (bswap16 0x4000)) Src (Some Tcp)].
Proof. vm_compute. reflexivity. Qed.
