(* ===== verification/XdpFilterCmd.v ===== *)
(** The packet filter of xdp-tools, the side of the user:
    src/lib/xdp-tools/xdp-filter/xdp-filter.c, the commands that add, remove
    and print rules.

    Packets arrive while a command runs: between its lookups, and between a
    lookup and the update that follows from it. *)
From stdpp Require Import functions.
From S2P Require Import Prelude.
From S2P Require Import CLib.
From S2P Require Import ParsingHelpers.
From S2P Require Import RewriteHelpers.
From S2P Require Import BpfMaps.
From S2P Require Import XdpStats.
From S2P Require Import XdpFilter.

Definition EXIT_FAILURE : Z := 1.
Definition AF_INET6 : Z := 10.

(** ** Data *)

(** A packet that arrives: the program of its interface, the CPU, the memory
    and the context. *)
Record packet := { pk_mode : filt_mode; pk_cpu : nat; pk_mem : list byte; pk_ctx : xdp_md }.

(** The answers of the system to a command: the lock; the descriptor of the
    map; the number of CPUs and the memory for each use of a map; the packets
    that arrive between the lookups and before the update.  For printing:
    the descriptors of the maps of addresses, and the keys that
    bpf_map_get_next_key goes through, with the answers at each key. *)
Record cmd_env := {
  ce_lock : Z;
  ce_map_fd : Z;
  ce_cpus1 : Z; ce_mem1 : bool;
  ce_window1 : list packet;
  ce_cpus2 : Z; ce_mem2 : bool;
  ce_window2 : list packet;
  ce_root : Z; ce_fd6 : Z; ce_fd4 : Z;
  ce_keys : list (key * Z * bool);
  ce_keys4 : list (key * Z * bool)
}.

Record portopt := { po_mode : Z; po_proto : Z; po_port : Z; po_print_status : bool; po_remove : bool }.

(** The address of a [struct ip_addr] is a union. *)
Record ip_addr := { af : Z; addr4 : Z; addr6 : list byte }.
Record ipopt := { io_mode : Z; io_addr : ip_addr; io_print_status : bool; io_remove : bool }.
Record etheropt := { eo_mode : Z; eo_addr : list byte; eo_print_status : bool; eo_remove : bool }.

(** A line of a list: the key, its flags and its counter. *)
Definition rule_row : Type := key * Z * Z.

Section Commands.
Context {M : Type} {F : FilterMaps M} {T : Type} {A : BpfArray T datarec}.

(** The tables, the statistics of every CPU, and the verdicts so far. *)
Record world := { tabs : M; stats : nat -> T; verdicts : list Z }.

Definition set_tabs (t : M) (w : world) : world := {| tabs := t; stats := stats w; verdicts := verdicts w |}.

Definition receive (p : packet) (w : world) : option world :=
  '(v, t, s) ← xdpfilt (pk_mode p) (pk_cpu p) (pk_mem p) (pk_ctx p) (tabs w) (stats w (pk_cpu p));
  Some {| tabs := t; stats := <[pk_cpu p := s]> (stats w); verdicts := verdicts w ++ [v] |}.

Fixpoint arrive (ps : list packet) (w : world) : option world :=
  match ps with
  | [] => Some w
  | p :: ps => w ← receive p w; arrive ps w
  end.

(** The loop over the words of a rule: error, [*flags] and the sum. *)
Fixpoint sum_values (values : list Z) (flags sum_ctr : Z) : Z * Z * Z :=
  match values with
  | [] => (0, flags, sum_ctr)
  | v :: values =>
    let flg := u8 (Z.land v MAP_FLAGS) in
    if negb (c_true flg) then (- ENOENT, flags, sum_ctr)
    else sum_values values flg (u64 (sum_ctr + Z.shiftr v COUNTER_SHIFT))
  end.

(** Error, [*flags] (which is 0 before) and [*counter]. *)
Definition map_get_counter_flags (nr_cpus : Z) (mem : bool) (maps : M) (k : key) : Z * Z * Z :=
  if nr_cpus <? 0 then (nr_cpus, 0, 0) else
  if negb mem then (- ENOMEM, 0, 0) else
  match pc_lookup maps k with
  | None => (- ENOENT, 0, 0)
  | Some values => sum_values values 0 0
  end.

(** [~MAP_FLAGS] is negative, that is, all higher bits are set. *)
Definition new_value (flags v : Z) : Z :=
  if c_true flags then Z.lor (Z.land v (Z.lnot MAP_FLAGS)) (Z.land flags MAP_FLAGS) else 0.

Definition map_set_flags (nr_cpus : Z) (mem : bool) (window : list packet) (w : world) (k : key) (flags : Z) (delete_empty : bool) : option (Z * world) :=
  if nr_cpus <? 0 then Some (nr_cpus, w) else
  if negb mem then Some (- ENOMEM, w) else
  let found := pc_lookup (tabs w) k in
  w ← arrive window w;
  if bool_decide (is_Some found) && negb (c_true flags) && delete_empty then
    let '(err, t) := pc_delete (tabs w) k in Some (err, set_tabs t w)
  else
    let values := map (new_value flags) (default (replicate (Z.to_nat nr_cpus) 0) found) in
    let '(err, t) := pc_update (tabs w) k values in Some (err, set_tabs t w).

(** The loops of [print_ports], [__print_ips] and [print_ethers]: error and
    lines. *)
Fixpoint print_rows (ks : list (key * Z * bool)) (maps : M) : Z * list rule_row :=
  match ks with
  | [] => (0, [])
  | (k, nr_cpus, mem) :: ks =>
    let '(err, flags, counter) := map_get_counter_flags nr_cpus mem maps k in
    if err =? - ENOENT then print_rows ks maps else
    if c_true err then (err, []) else
    let '(err, rows) := print_rows ks maps in (err, (k, flags, counter) :: rows)
  end.

Definition print_ips (e : cmd_env) (maps : M) : Z * list rule_row :=
  if c_true (ce_root e) then (ce_root e, []) else
  if (ce_fd4 e <? 0) && (ce_fd6 e <? 0) then (- ENOENT, []) else
  let '(err, rows6) := if 0 <=? ce_fd6 e then print_rows (ce_keys e) maps else (0, []) in
  if c_true err then (err, rows6) else
  let '(err, rows4) := if 0 <=? ce_fd4 e then print_rows (ce_keys4 e) maps else (0, []) in
  (err, rows6 ++ rows4).

(** The new flags of a port. *)
Definition port_flags (opt : portopt) (flags : Z) : Z :=
  let flags :=
    if po_remove opt then
      let '(mode, proto) :=
        if (po_mode opt =? 0) && (po_proto opt =? 0) then (Z.lor MAP_FLAG_SRC MAP_FLAG_DST, Z.lor MAP_FLAG_TCP MAP_FLAG_UDP)
        else (po_mode opt, po_proto opt) in
      u8 (Z.land flags (Z.lnot (Z.lor mode proto)))
    else
      let mode := if po_mode opt =? 0 then MAP_FLAG_DST else po_mode opt in
      let proto := if po_proto opt =? 0 then Z.lor MAP_FLAG_TCP MAP_FLAG_UDP else po_proto opt in
      u8 (Z.lor flags (Z.lor mode proto)) in
  if negb (c_true (Z.land flags (Z.lor MAP_FLAG_DST MAP_FLAG_SRC))) || negb (c_true (Z.land flags (Z.lor MAP_FLAG_TCP MAP_FLAG_UDP)))
  then 0 else flags.

Definition do_port (opt : portopt) (e : cmd_env) (w : world) : option (Z * list rule_row * world) :=
  if ce_lock e <? 0 then Some (ce_lock e, [], w) else
  if ce_map_fd e <? 0 then Some (EXIT_FAILURE, [], w) else
  let map_key := KPort (bswap16 (po_port opt)) in
  let '(err, flags, _) := map_get_counter_flags (ce_cpus1 e) (ce_mem1 e) (tabs w) map_key in
  if c_true err && negb (err =? - ENOENT) then Some (err, [], w) else
  w ← arrive (ce_window1 e) w;
  '(err, w) ← map_set_flags (ce_cpus2 e) (ce_mem2 e) (ce_window2 e) w map_key (port_flags opt flags) false;
  if c_true err then Some (err, [], w) else
  if negb (po_print_status opt) then Some (0, [], w) else
  let '(err, rows) := print_rows (ce_keys e) (tabs w) in Some (err, rows, w).

(** The error, or the descriptor. *)
Definition __do_address (e : cmd_env) (w : world) (map_key : key) (remove : bool) (mode : Z) : option (Z * world) :=
  if ce_map_fd e <? 0 then Some (- ENOENT, w) else
  let '(err, flags, _) := map_get_counter_flags (ce_cpus1 e) (ce_mem1 e) (tabs w) map_key in
  if c_true err && negb (err =? - ENOENT) then Some (err, w) else
  w ← arrive (ce_window1 e) w;
  let flags := if remove then u8 (Z.land flags (Z.lnot mode)) else u8 (Z.lor flags mode) in
  '(err, w) ← map_set_flags (ce_cpus2 e) (ce_mem2 e) (ce_window2 e) w map_key flags true;
  Some (if c_true err then err else ce_map_fd e, w).

Definition do_ip (opt : ipopt) (e : cmd_env) (w : world) : option (Z * list rule_row * world) :=
  if ce_lock e <? 0 then Some (ce_lock e, [], w) else
  let v6 := af (io_addr opt) =? AF_INET6 in
  '(map_fd, w) ← __do_address e w (if v6 then KIpv6 (addr6 (io_addr opt)) else KIpv4 (addr4 (io_addr opt))) (io_remove opt) (io_mode opt);
  if map_fd <? 0 then Some (map_fd, [], w) else
  if negb (io_print_status opt) then Some (0, [], w) else
  let '(err, rows) := print_ips e (tabs w) in Some (err, rows, w).

Definition do_ether (opt : etheropt) (e : cmd_env) (w : world) : option (Z * list rule_row * world) :=
  if ce_lock e <? 0 then Some (ce_lock e, [], w) else
  '(map_fd, w) ← __do_address e w (KEthernet (eo_addr opt)) (eo_remove opt) (eo_mode opt);
  if map_fd <? 0 then Some (map_fd, [], w) else
  if negb (eo_print_status opt) then Some (0, [], w) else
  let '(err, rows) := print_rows (ce_keys e) (tabs w) in Some (err, rows, w).

(** ** Histories *)

Inductive command := CPort (o : portopt) | CIp (o : ipopt) | CEther (o : etheropt).
Inductive event := Receive (p : packet) | Command (c : command) (e : cmd_env).

Definition run_command (c : command) : cmd_env -> world -> option (Z * list rule_row * world) :=
  match c with CPort o => do_port o | CIp o => do_ip o | CEther o => do_ether o end.

(** What the commands return and print. *)
Fixpoint run (es : list event) (w : world) : option (list (Z * list rule_row) * world) :=
  match es with
  | [] => Some ([], w)
  | Receive p :: es => w ← receive p w; run es w
  | Command c e :: es => '(err, rows, w) ← run_command c e w; '(outs, w) ← run es w; Some ((err, rows) :: outs, w)
  end.

End Commands.
#[global] Arguments world : clear implicits.

(** ** The contract

    A rule says which side of a packet it is about, and for ports which
    protocols.  The filter has a rule for every key, and counts its hits. *)

Record rule := { r_src : bool; r_dst : bool; r_tcp : bool; r_udp : bool }.

Definition no_rule : rule := {| r_src := false; r_dst := false; r_tcp := false; r_udp := false |}.

#[export] Instance rule_eq_decision : EqDecision rule.
Proof. solve_decision. Defined.

Definition merge (r s : rule) : rule :=
  {| r_src := r_src r || r_src s; r_dst := r_dst r || r_dst s; r_tcp := r_tcp r || r_tcp s; r_udp := r_udp r || r_udp s |}.
Definition without (r s : rule) : rule :=
  {| r_src := r_src r && negb (r_src s); r_dst := r_dst r && negb (r_dst s); r_tcp := r_tcp r && negb (r_tcp s); r_udp := r_udp r && negb (r_udp s) |}.

(** The rule that an option names. *)
Definition rule_of (z : Z) : rule := {| r_src := Z.testbit z 0; r_dst := Z.testbit z 1; r_tcp := Z.testbit z 2; r_udp := Z.testbit z 3 |}.
Definition flags_of (r : rule) : Z := c_bool (r_src r) + 2 * c_bool (r_dst r) + 4 * c_bool (r_tcp r) + 8 * c_bool (r_udp r).

(** Adding a port adds what is named: by default, the destination, and both protocols.
    Removing removes what is named, by default everything.  A rule without a
    side or without a protocol is none. *)
Definition spec_port (o : portopt) (r : rule) : rule :=
  let r' :=
    if po_remove o then
      if (po_mode o =? 0) && (po_proto o =? 0) then no_rule else without (without r (rule_of (po_mode o))) (rule_of (po_proto o))
    else merge (merge r (if po_mode o =? 0 then rule_of MAP_FLAG_DST else rule_of (po_mode o)))
           (if po_proto o =? 0 then merge (rule_of MAP_FLAG_TCP) (rule_of MAP_FLAG_UDP) else rule_of (po_proto o)) in
  if (r_src r' || r_dst r') && (r_tcp r' || r_udp r') then r' else no_rule.

Definition spec_address (remove : bool) (mode : Z) (r : rule) : rule := if remove then without r (rule_of mode) else merge r (rule_of mode).

Definition matches (r : rule) (c : check) : bool :=
  (match ck_side c with Src => r_src r | Dst => r_dst r end) &&
  (match ck_proto c with None => true | Some Tcp => r_tcp r | Some Udp => r_udp r end).

Record policy := { rules : key -> rule; hits : key -> Z; seen : list Z }.

(** A packet gets the verdict of a hit when the rule of one of its fields
    matches; the first such rule counts it. *)
Definition spec_receive (p : packet) (a : policy) : policy :=
  let '(cs, final) := default ([], XDP_ABORTED) (scan (pk_mode p) (pk_mem p) (pk_ctx p)) in
  match find (fun c => matches (rules a (ck_key c)) c) cs with
  | Some c => {| rules := rules a; hits := <[ck_key c := hits a (ck_key c) + 1]> (hits a); seen := seen a ++ [VERDICT_HIT (pk_mode p)] |}
  | None => {| rules := rules a; hits := hits a; seen := seen a ++ [final] |}
  end.

Definition spec_arrive (ps : list packet) (a : policy) : policy := fold_left (fun a p => spec_receive p a) ps a.

(** A command changes one rule.  The counter continues from the value at
    the time of the lookup, or is dropped with the rule. *)
Definition spec_change (k : key) (change : rule -> rule) (w1 w2 : list packet) (a : policy) : policy :=
  let a1 := spec_arrive w1 a in
  let a2 := spec_arrive w2 a1 in
  let r := change (rules a k) in
  {| rules := <[k := r]> (rules a2); hits := <[k := if decide (r = no_rule) then 0 else hits a1 k]> (hits a2); seen := seen a2 |}.

(** The lines for a list of keys: those that have a rule. *)
Definition spec_rows (ks : list (key * Z * bool)) (a : policy) : list rule_row :=
  omap (fun '(k, _, _) => if decide (rules a k = no_rule) then None else Some (k, flags_of (rules a k), hits a k)) ks.

Definition command_key (c : command) : key :=
  match c with
  | CPort o => KPort (bswap16 (po_port o))
  | CIp o => if af (io_addr o) =? AF_INET6 then KIpv6 (addr6 (io_addr o)) else KIpv4 (addr4 (io_addr o))
  | CEther o => KEthernet (eo_addr o)
  end.

Definition command_change (c : command) : rule -> rule :=
  match c with CPort o => spec_port o | CIp o => spec_address (io_remove o) (io_mode o) | CEther o => spec_address (eo_remove o) (eo_mode o) end.

Definition command_prints (c : command) : bool :=
  match c with CPort o => po_print_status o | CIp o => io_print_status o | CEther o => eo_print_status o end.

Definition printed_keys (c : command) (e : cmd_env) : list (key * Z * bool) :=
  match c with
  | CIp _ => (if 0 <=? ce_fd6 e then ce_keys e else []) ++ (if 0 <=? ce_fd4 e then ce_keys4 e else [])
  | _ => ce_keys e
  end.

(** ** Arithmetic of the words *)

Definition value (r : rule) (c : Z) : Z := 64 * c + flags_of r.

Lemma flags_range r : 0 <= flags_of r < 16.
Proof. by destruct r as [[] [] [] []]. Qed.

Lemma flags_zero r : flags_of r = 0 <-> r = no_rule.
Proof. destruct r as [[] [] [] []]; cbn; split; (done || congruence). Qed.

Lemma value_low r c : Z.land (value r c) 15 = flags_of r.
Proof.
  change 15 with (Z.ones 4). rewrite Z.land_ones by lia. unfold value. replace (64 * c) with (4 * c * 2 ^ 4) by lia.
  rewrite Z.add_comm, Z_mod_plus_full. apply Z.mod_small, flags_range.
Qed.

Lemma value_counter r c : Z.shiftr (value r c) COUNTER_SHIFT = c.
Proof.
  unfold COUNTER_SHIFT, value. rewrite Z.shiftr_div_pow2 by lia. pose proof (flags_range r). change (2 ^ 6) with 64.
  rewrite Z.mul_comm, Z.div_add_l, Z.div_small by lia. lia.
Qed.

Lemma value_matches r c ck : (Z.land (value r c) (mask ck) =? mask ck) = matches r ck.
Proof.
  assert (Z.land (value r c) (mask ck) = Z.land (flags_of r) (mask ck)) as ->.
  { rewrite <- value_low with (c := c), <- Z.land_assoc. f_equal. destruct ck as [k [] [[] |]]; done. }
  destruct r as [[] [] [] []], ck as [k [] [[] |]]; done.
Qed.

Lemma value_hit r c : 0 <= c -> c + 1 < 2 ^ 58 -> u64 (value r c + 64) = value r (c + 1).
Proof. intros H0 H. pose proof (flags_range r). unfold value. rewrite u64_id by lia. lia. Qed.

(** The counter stays, the flags are replaced. *)
Lemma new_value_spec r r' c : 0 <= c -> new_value (flags_of r') (value r c) = if decide (r' = no_rule) then 0 else value r' c.
Proof.
  intros Hc. unfold new_value. destruct (decide (r' = no_rule)) as [-> | Hne]; [done |].
  replace (c_true (flags_of r')) with true by (symmetry; unfold c_true; apply negb_true_iff, Z.eqb_neq; by rewrite flags_zero).
  pose proof (flags_range r'). assert (Z.land (flags_of r') MAP_FLAGS = flags_of r') as -> by (by destruct r' as [[] [] [] []]).
  change MAP_FLAGS with (Z.ones 4). rewrite <- Z.ldiff_land, Z.ldiff_ones_r by lia.
  rewrite (Z.shiftr_div_pow2 (value r c)), lor_shift by lia. pose proof (flags_range r). unfold value. change (2 ^ 4) with 16.
  replace (64 * c) with (4 * c * 16) by lia. rewrite Z.div_add_l, Z.div_small by lia. lia.
Qed.

Lemma port_flags_spec o r : 0 <= po_mode o < 4 -> po_proto o ∈ [0; 4; 8; 12] -> port_flags o (flags_of r) = flags_of (spec_port o r).
Proof.
  intros Hm Hp. assert (po_mode o = 0 \/ po_mode o = 1 \/ po_mode o = 2 \/ po_mode o = 3) as Hm' by lia.
  unfold port_flags, spec_port. rewrite !elem_of_cons, elem_of_nil in Hp.
  destruct Hm' as [-> | [-> | [-> | ->]]], Hp as [-> | [-> | [-> | [-> | []]]]], (po_remove o), r as [[] [] [] []]; reflexivity.
Qed.

Lemma address_flags_spec (remove : bool) mode r : 0 <= mode < 4 ->
  (if remove then u8 (Z.land (flags_of r) (Z.lnot mode)) else u8 (Z.lor (flags_of r) mode)) = flags_of (spec_address remove mode r).
Proof.
  intros Hm. assert (mode = 0 \/ mode = 1 \/ mode = 2 \/ mode = 3) as Hm' by lia.
  destruct Hm' as [-> | [-> | [-> | ->]]], remove, r as [[] [] [] []]; reflexivity.
Qed.

Definition sum (cs : list Z) : Z := foldr Z.add 0 cs.

Lemma sum_insert cs i c : cs !! i = Some c -> sum (<[i := c + 1]> cs) = sum cs + 1.
Proof. revert i. induction cs as [| d cs IH]; intros [| i] H; simplify_eq/=; [lia |]. rewrite (IH i H). lia. Qed.

Lemma sum_nonneg cs : Forall (Z.le 0) cs -> 0 <= sum cs.
Proof. induction 1; cbn; [done |]. unfold sum in *. lia. Qed.

Lemma sum_elem cs i c : Forall (Z.le 0) cs -> cs !! i = Some c -> 0 <= c <= sum cs.
Proof.
  intros H. revert i. induction H as [| d cs Hd H IH]; intros [| i] E; simplify_eq/=; pose proof (sum_nonneg cs H) as Hs; unfold sum in *; [lia |].
  specialize (IH i E). lia.
Qed.

(** Reading a rule gives its flags and the sum of its counters. *)
Lemma sum_values_spec r cs : r <> no_rule -> Forall (Z.le 0) cs -> forall fl s, 0 <= s -> s + sum cs < 2 ^ 64 ->
  sum_values (map (value r) cs) fl s = (0, match cs with [] => fl | _ => flags_of r end, s + sum cs).
Proof.
  intros Hr. induction 1 as [| c cs Hc Hcs IH]; intros fl s Hs Hlt; cbn [sum_values map sum foldr]; [by rewrite Z.add_0_r |].
  pose proof (flags_range r). pose proof (sum_nonneg cs Hcs). cbn [sum foldr] in Hlt. fold (sum cs) in *.
  rewrite value_counter. change MAP_FLAGS with 15. rewrite value_low, u8_id by lia.
  replace (c_true (flags_of r)) with true by (symmetry; unfold c_true; apply negb_true_iff, Z.eqb_neq; by rewrite flags_zero).
  cbn [negb]. rewrite u64_id by lia. rewrite IH by lia. f_equal; [| lia]. by destruct cs.
Qed.

Lemma sum_values_none c cs : sum_values (map (value no_rule) (c :: cs)) 0 0 = (- ENOENT, 0, 0).
Proof. cbn [map sum_values]. change MAP_FLAGS with 15. by rewrite value_low. Qed.

(** ** The tables implement the rules *)

Section Refinement.
Context {M : Type} {F : FilterMaps M} {T : Type} {A : BpfArray T datarec}.
Context (cpus : nat) {F_ok : FilterMapsOk M cpus} {A_ok : BpfArrayOk T datarec}.

(** The words of a rule with its hits, of which there are at most [n]. *)
Definition slot (n : Z) (words : option (list Z)) (r : rule) (h : Z) : Prop :=
  h <= n /\ (r = no_rule -> h = 0) /\
  match words with
  | None => r = no_rule
  | Some vs => exists cs, vs = map (value r) cs /\ length cs = cpus /\ Forall (Z.le 0) cs /\ sum cs = h
  end.

Definition tables_ok (n : Z) (t : M) (a : policy) : Prop := forall k, slot n (pc_lookup t k) (rules a k) (hits a k).

Record refines (n : Z) (w : world M T) (a : policy) : Prop := {
  rf_tables : tables_ok n (tabs w) a;
  rf_stats : forall cpu action, 0 <= action < XDP_ACTION_MAX -> is_Some (arr_lookup (stats w cpu) action);
  rf_seen : verdicts w = seen a
}.

Definition packet_fine (p : packet) : Prop := in_memory (pk_mem p) (pk_ctx p) /\ (pk_cpu p < cpus)%nat.

Lemma slot_nonneg n o r h : slot n o r h -> 0 <= h.
Proof. intros (_ & Hz & H). destruct o as [vs |]; [| by rewrite (Hz H)]. destruct H as (cs & _ & _ & Hc & <-). by apply sum_nonneg. Qed.

Lemma slot_mono n n' o r h : slot n o r h -> n <= n' -> slot n' o r h.
Proof. intros (H1 & H2) Hn. split; [lia | done]. Qed.

(** The word of one CPU. *)
Lemma slot_word n t k r h cpu : slot n (pc_lookup t k) r h -> (cpu < cpus)%nat ->
  match pc_lookup t k ≫= (.!! cpu) with
  | None => r = no_rule
  | Some v => exists vs cs c, pc_lookup t k = Some vs /\ vs = map (value r) cs /\ length cs = cpus /\ Forall (Z.le 0) cs /\ sum cs = h /\ cs !! cpu = Some c /\ v = value r c
  end.
Proof.
  intros (_ & _ & H) Hc. destruct (pc_lookup t k) as [vs |]; cbn [mbind option_bind]; [| done].
  destruct H as (cs & -> & Hl & Hcs & Hs). destruct (lookup_lt_is_Some_2 cs cpu) as [c Ec]; [lia |].
  rewrite list_lookup_fmap, Ec. cbn. by exists (map (value r) cs), cs, c.
Qed.

Lemma matches_none c : matches no_rule c = false.
Proof. by destruct c as [k [] [[] |]]. Qed.

(** The program of a packet with the checks [cs], and the rules. *)
Lemma run_checks_refines f cpu n t a cs final : tables_ok n t a -> (cpu < cpus)%nat -> n + 1 < 2 ^ 58 ->
  exists v t', run_checks f cpu cs final t = (v, t') /\
    match find (fun c => matches (rules a (ck_key c)) c) cs with
    | Some c => v = VERDICT_HIT f /\ tables_ok (n + 1) t' {| rules := rules a; hits := <[ck_key c := hits a (ck_key c) + 1]> (hits a); seen := seen a |}
    | None => v = final /\ t' = t
    end.
Proof.
  intros Ht Hc Hn. induction cs as [| c cs IH]; cbn [run_checks find]; [eauto |].
  pose proof (slot_word n t (ck_key c) _ _ cpu (Ht (ck_key c)) Hc) as Hw. destruct (pc_lookup t (ck_key c) ≫= (.!! cpu)) as [v |] eqn:Ev.
  - destruct Hw as (vs & cs0 & c0 & El & -> & Hl & Hcs & Hs & Ec & ->). rewrite value_matches. destruct (matches _ c) eqn:Em; [| exact IH].
    eexists _, _. split; [done |]. split; [done |]. intros k. cbn [rules hits].
    pose proof (sum_elem cs0 cpu c0 Hcs Ec). destruct (Ht (ck_key c)) as (Hh & Hz & _).
    destruct (decide (ck_key c = k)) as [<- | Hne].
    + rewrite (pc_store_same _ _ _ _ _ El), fn_lookup_insert. split; [lia |]. split; [intros E; by rewrite E, matches_none in Em |].
      exists (<[cpu := c0 + 1]> cs0). rewrite list_fmap_insert, value_hit by lia. split_and!; [done | by rewrite length_insert | | by rewrite (sum_insert _ _ _ Ec); lia].
      apply Forall_insert; [done | lia].
    + rewrite pc_store_other, fn_lookup_insert_ne by done. apply (slot_mono n); [apply Ht | lia].
  - rewrite Hw, matches_none. exact IH.
Qed.

Lemma receive_refines n w a p : refines n w a -> packet_fine p -> n + 1 < 2 ^ 58 ->
  exists w', receive p w = Some w' /\ refines (n + 1) w' (spec_receive p a).
Proof.
  intros [Ht Hs Hv] [Hm Hc] Hn. unfold receive, spec_receive, xdpfilt. destruct (scan_total (pk_mode p) _ _ Hm) as (cs & final & E & Hf). rewrite E. cbn [default from_option Datatypes.id].
  rewrite (filter_action_scan _ _ _ _ _ _ _ E). cbn [mbind option_bind].
  destruct (run_checks_refines (pk_mode p) (pk_cpu p) n (tabs w) a cs final Ht Hc Hn) as (v & t' & -> & Hr).
  assert (0 <= v < XDP_ACTION_MAX) as Hact.
  { destruct (find _ cs); destruct Hr as [-> _]; [unfold VERDICT_HIT; by destruct (FILT_MODE_DENY _) |].
    destruct Hf as [-> | ->]; [done | unfold VERDICT_MISS; by destruct (FILT_MODE_DENY _)]. }
  destruct (record_action_verdict (stats w (pk_cpu p)) (pk_ctx p) v) as [Hret _].
  specialize (Hret (proj2 Hact) (Hs (pk_cpu p) v Hact)).
  pose proof (fun act r Hl Hr => record_lookup (stats w (pk_cpu p)) (pk_ctx p) v act r Hl Hr) as Hrec.
  destruct (xdp_stats_record_action (stats w (pk_cpu p)) (pk_ctx p) v) as [ret s]. cbn [fst snd] in *. subst ret. eexists. split; [done |].
  split; cbn [tabs stats verdicts].
  - destruct (find _ cs); destruct Hr as [-> Hr]; cbn [rules hits]; [exact Hr |]. subst t'. intros k. apply (slot_mono n); [apply Ht | lia].
  - intros cpu act Ha. destruct (decide (pk_cpu p = cpu)) as [<- | Hne]; [| rewrite fn_lookup_insert_ne by done; by apply Hs].
    rewrite fn_lookup_insert. destruct (Hs (pk_cpu p) act Ha) as [r0 Hr0]. rewrite (Hrec act r0 Hr0) by lia. eauto.
  - rewrite Hv. destruct (find _ cs); by destruct Hr as [-> _].
Qed.

Lemma arrive_refines ps : forall n w a, refines n w a -> Forall packet_fine ps -> n + zlen ps < 2 ^ 58 ->
  exists w', arrive ps w = Some w' /\ refines (n + zlen ps) w' (spec_arrive ps a).
Proof.
  induction ps as [| p ps IH]; intros n w a Hw Hps Hn; cbn [arrive spec_arrive fold_left].
  - exists w. change (zlen (@nil packet)) with 0. by rewrite Z.add_0_r.
  - apply Forall_cons in Hps as [Hp Hps]. rewrite zlen_cons in *. pose proof (zlen_nonneg ps).
    destruct (receive_refines n w a p Hw Hp) as (w1 & -> & Hw1); [lia |]. cbn [mbind option_bind].
    rewrite Z.add_assoc. apply IH; [done | done | lia].
Qed.

Lemma spec_receive_rules p a : rules (spec_receive p a) = rules a.
Proof. unfold spec_receive. destruct (default _ _) as [cs final]. by destruct (find _ cs). Qed.

Lemma spec_arrive_rules ps : forall a, rules (spec_arrive ps a) = rules a.
Proof. induction ps as [| p ps IH]; intros a; [done |]. cbn. unfold spec_arrive in IH. by rewrite IH, spec_receive_rules. Qed.

Definition cpus_answer (nr : Z) : Prop := nr < 0 \/ nr = Z.of_nat cpus.

Lemma get_spec n t a k nr mem : (0 < cpus)%nat -> tables_ok n t a -> n < 2 ^ 58 ->
  map_get_counter_flags nr mem t k =
  if nr <? 0 then (nr, 0, 0) else if negb mem then (- ENOMEM, 0, 0) else
  if decide (rules a k = no_rule) then (- ENOENT, 0, 0) else (0, flags_of (rules a k), hits a k).
Proof.
  intros Hc Ht Hn. unfold map_get_counter_flags. destruct (nr <? 0); [done |]. destruct mem; cbn [negb]; [| done].
  destruct (Ht k) as (Hh & Hz & H). destruct (pc_lookup t k) as [vs |]; [| by destruct (decide _)].
  destruct H as (cs & -> & Hl & Hcs & Hs). destruct cs as [| c cs]; [cbn in Hl; lia |]. destruct (decide _) as [-> | Hne]; [apply sum_values_none |].
  rewrite sum_values_spec by (done || lia). by rewrite Hs.
Qed.

Definition answer_fine (x : key * Z * bool) : Prop := 0 <= x.1.2 /\ x.2 = true.

Lemma print_rows_spec n t a ks : (0 < cpus)%nat -> tables_ok n t a -> n < 2 ^ 58 ->
  exists err rows, print_rows ks t = (err, rows) /\ rows `sublist_of` spec_rows ks a /\ (Forall answer_fine ks -> err = 0 /\ rows = spec_rows ks a).
Proof.
  intros Hc Ht Hn. induction ks as [| [[k nr] mem] ks (err & rows & E & Hsub & H0)]; cbn [print_rows]; [by exists 0, [] |].
  rewrite (get_spec n t a k nr mem Hc Ht Hn).
  assert (rows `sublist_of` spec_rows ((k, nr, mem) :: ks) a) as Hcons by (unfold spec_rows; cbn; destruct (decide _); [done | by apply sublist_cons]).
  assert (forall er, exists err' rows', (if er =? - ENOENT then print_rows ks t else if c_true er then (er, []) else (0, [])) = (err', rows') /\ rows' `sublist_of` spec_rows ((k, nr, mem) :: ks) a) as Herr.
  { intros er. destruct (er =? - ENOENT); [by exists err, rows |]. destruct (c_true er); eexists _, _; (split; [done | apply sublist_nil_l]). }
  destruct (Z.ltb_spec nr 0) as [Hnr |].
  { destruct (Herr nr) as (er & rs & Er & Hs). replace (c_true nr) with true in * by (symmetry; unfold c_true; apply negb_true_iff, Z.eqb_neq; lia).
    rewrite Er. exists er, rs. split_and!; [done | done | intros [[Hx _] _]%Forall_cons; cbn in Hx; lia]. }
  destruct mem; cbn [negb]; [| by exists (- ENOMEM), []; split_and!; [done | apply sublist_nil_l | intros [[_ Hx] _]%Forall_cons]].
  destruct (decide (rules a k = no_rule)) as [Er | Er]; cbn.
  - exists err, rows. split_and!; [done | done | intros [_ Hf]%Forall_cons]. unfold spec_rows. cbn. rewrite decide_True by done. by apply H0.
  - rewrite E. eexists _, _. split; [done |]. unfold spec_rows in *. cbn in *. rewrite decide_False by done. split; [by apply sublist_skip | intros [_ Hf]%Forall_cons].
    by destruct (H0 Hf) as [-> ->].
Qed.

(** The kernel refuses a change of the table. *)
Definition refused (k : key) : Prop :=
  exists (t t' : M) r, r <> 0 /\ (pc_delete t k = (r, t') \/ exists vs, length vs = cpus /\ pc_update t k vs = (r, t')).

Definition set_policy (k : key) (r : rule) (h : Z) (a : policy) : policy :=
  {| rules := <[k := r]> (rules a); hits := <[k := if decide (r = no_rule) then 0 else h]> (hits a); seen := seen a |}.

Lemma refines_mono n n' w a : refines n w a -> n <= n' -> refines n' w a.
Proof. intros [H1 H2 H3] Hn. split; [| done..]. intros k. apply (slot_mono n); [apply H1 | done]. Qed.

Lemma sum_zeros m : sum (replicate m 0) = 0.
Proof. by induction m. Qed.

Lemma slot_words n o r h : slot n o r h -> exists cs, default (replicate cpus 0) o = map (value r) cs /\ length cs = cpus /\ Forall (Z.le 0) cs /\ sum cs = h.
Proof.
  intros (_ & Hz & H). destruct o as [vs |]; cbn; [done |]. exists (replicate cpus 0). rewrite (Hz H), sum_zeros, length_replicate. subst r. split_and!; [| done | by apply Forall_replicate | done].
  change (replicate cpus 0 = value no_rule <$> replicate cpus 0). by rewrite fmap_replicate.
Qed.

(** What a successful change of a key leaves. *)
Lemma set_tables n t t' a k r0 cs r : tables_ok n t a -> length cs = cpus -> Forall (Z.le 0) cs -> sum cs <= n ->
  (forall k', k <> k' -> pc_lookup t' k' = pc_lookup t k') ->
  pc_lookup t' k = None /\ r = no_rule \/ pc_lookup t' k = Some (map (new_value (flags_of r)) (map (value r0) cs)) ->
  tables_ok n t' (set_policy k r (sum cs) a).
Proof.
  intros Ht Hl Hcs Hle Ho Hk k'. pose proof (sum_nonneg cs Hcs). cbn [set_policy rules hits]. destruct (decide (k = k')) as [<- | Hne].
  - rewrite !fn_lookup_insert. destruct Hk as [[-> ->] | ->]; [rewrite decide_True by done; split_and!; [lia | done | done] |].
    rewrite map_map. split; [case_decide; lia |]. split; [by intros ->; rewrite decide_True |]. case_decide as Hr.
    + exists (replicate cpus 0). split_and!; [| by rewrite length_replicate | by apply Forall_replicate | apply sum_zeros]. subst r. rewrite <- Hl. clear. by induction cs as [| c cs IH]; cbn; [| rewrite IH].
    + exists cs. split_and!; [| done | done | done]. clear -Hcs Hr. induction Hcs as [| c cs Hc Hcs IH]; cbn; [done |]. by rewrite new_value_spec, decide_False, IH.
  - rewrite !fn_lookup_insert_ne, Ho by done. apply Ht.
Qed.

Lemma set_spec n w a k r nr mem win del : refines n w a -> Forall packet_fine win -> n + zlen win < 2 ^ 58 -> cpus_answer nr ->
  exists err w', map_set_flags nr mem win w k (flags_of r) del = Some (err, w') /\
    (err = 0 /\ refines (n + zlen win) w' (set_policy k r (hits a k) (spec_arrive win a)) \/
     err < 0 /\ (nr < 0 \/ mem = false \/ refused k) /\ exists ps, (ps = [] \/ ps = win) /\ refines (n + zlen win) w' (spec_arrive ps a)).
Proof.
  intros Hw Hwin Hn Hnr. pose proof (zlen_nonneg win). unfold map_set_flags. destruct (Z.ltb_spec nr 0) as [| Hpos].
  { exists nr, w. split; [done |]. right. split_and!; [done | by left | exists []; split; [by left | by apply (refines_mono n); [| lia]]]. }
  destruct mem; cbn [negb]; [| exists (- ENOMEM), w; split; [done |]; right; split_and!; [done | by auto | exists []; split; [by left | by apply (refines_mono n); [| lia]]]].
  destruct Hnr as [| ->]; [lia |]. rewrite Nat2Z.id. destruct (slot_words _ _ _ _ (rf_tables _ _ _ Hw k)) as (cs & Ecs & Hl & Hcs & Hs). rewrite Ecs.
  destruct (arrive_refines win n w a Hw Hwin Hn) as (w1 & -> & [Ht1 Hst1 Hv1]). cbn [mbind option_bind].
  assert (sum cs <= n + zlen win) as Hsum by (destruct (rf_tables _ _ _ Hw k); lia). rewrite <- Hs.
  assert (forall t', tables_ok (n + zlen win) t' (set_policy k r (sum cs) (spec_arrive win a)) -> refines (n + zlen win) (set_tabs t' w1) (set_policy k r (sum cs) (spec_arrive win a))) as Hok by (intros t' Ht'; by split).
  assert (forall t' er, er <> 0 -> pc_lookup t' k = pc_lookup (tabs w1) k -> (forall k', k <> k' -> pc_lookup t' k' = pc_lookup (tabs w1) k') -> refines (n + zlen win) (set_tabs t' w1) (spec_arrive win a)) as Hbad.
  { intros t' er _ E1 E2. split; [| done..]. intros k'. cbn [set_tabs tabs]. destruct (decide (k = k')) as [<- |]; [rewrite E1 | rewrite E2 by done]; apply Ht1. }
  destruct (bool_decide (is_Some (pc_lookup (tabs w) k)) && negb (c_true (flags_of r)) && del) eqn:Eb.
  - apply andb_prop in Eb as [[_ Er]%andb_prop _]. unfold c_true in Er. rewrite negb_involutive, Z.eqb_eq, flags_zero in Er.
    destruct (pc_delete (tabs w1) k) as [er t'] eqn:Ed. pose proof (pc_delete_result (tabs w1) k) as Hr. rewrite Ed in Hr. cbn in Hr. eexists _, _. split; [done |].
    destruct (decide (er = 0)) as [-> | Her]; [left; split; [done |] | right; split; [lia |]].
    + apply Hok. eapply (set_tables _ _ _ _ _ (rules a k)); [done | done | done | done | intros; by eapply pc_delete_other |]. left. split; [by eapply pc_delete_same | done].
    + split; [right; right; exists (tabs w1), t', er; auto |]. exists win. split; [by right |]. eapply Hbad; [done | by eapply pc_delete_fail | intros; by eapply pc_delete_other].
  - set (vs := map _ _). assert (length vs = cpus) as Hvs by (unfold vs; by rewrite !length_map).
    destruct (pc_update (tabs w1) k vs) as [er t'] eqn:Eu. pose proof (pc_update_result (tabs w1) k vs) as Hr. rewrite Eu in Hr. cbn in Hr. eexists _, _. split; [done |].
    destruct (decide (er = 0)) as [-> | Her]; [left; split; [done |] | right; split; [lia |]].
    + apply Hok. eapply (set_tables _ _ _ _ _ (rules a k)); [done | done | done | done | intros; by eapply pc_update_other |]. right. by eapply pc_update_same.
    + split; [right; right; exists (tabs w1), t', er; eauto |]. exists win. split; [by right |]. eapply Hbad; [done | by eapply pc_update_fail | intros; by eapply pc_update_other].
Qed.

Definition env_ok (e : cmd_env) : Prop :=
  cpus_answer (ce_cpus1 e) /\ ce_cpus2 e = ce_cpus1 e /\ Forall packet_fine (ce_window1 e) /\ Forall packet_fine (ce_window2 e).

Definition env_failed (e : cmd_env) : Prop :=
  ce_lock e < 0 \/ ce_map_fd e < 0 \/ ce_cpus1 e < 0 \/ ce_mem1 e = false \/ ce_mem2 e = false.

Definition windows (e : cmd_env) : list packet := ce_window1 e ++ ce_window2 e.

(** Nothing prevents the command from printing the list. *)
Definition listable (c : command) (e : cmd_env) : Prop :=
  Forall answer_fine (printed_keys c e) /\
  match c with CIp _ => ce_root e = 0 /\ (0 <= ce_fd4 e \/ 0 <= ce_fd6 e) | _ => True end.

(** What a command does to the rules: its change, or nothing, with an error,
    when the system or the kernel refuses.  Packets that arrive meanwhile are
    filtered by the rules before. *)
Inductive spec_command (c : command) (e : cmd_env) (a : policy) : Z -> list rule_row -> policy -> Prop :=
| spec_unchanged err ps : err <> 0 -> env_failed e \/ refused (command_key c) -> ps `prefix_of` windows e ->
    spec_command c e a err [] (spec_arrive ps a)
| spec_changed err rows a' :
    a' = spec_change (command_key c) (command_change c) (ce_window1 e) (ce_window2 e) a ->
    rows `sublist_of` (if command_prints c then spec_rows (printed_keys c e) a' else []) ->
    (command_prints c = false \/ listable c e ->
      err = 0 /\ rows = if command_prints c then spec_rows (printed_keys c e) a' else []) ->
    spec_command c e a err rows a'.

Definition command_ok (c : command) : Prop :=
  match c with
  | CPort o => 0 <= po_mode o < 4 /\ po_proto o ∈ [0; 4; 8; 12]
  | CIp o => 0 <= io_mode o < 4
  | CEther o => 0 <= eo_mode o < 4
  end.

(** The part that the commands share. *)
Definition changing (e : cmd_env) (w : world M T) (k : key) (new_flags : Z -> Z) (del : bool) : option (Z * world M T) :=
  let '(err, flags, _) := map_get_counter_flags (ce_cpus1 e) (ce_mem1 e) (tabs w) k in
  if c_true err && negb (err =? - ENOENT) then Some (err, w) else
  w ← arrive (ce_window1 e) w;
  map_set_flags (ce_cpus2 e) (ce_mem2 e) (ce_window2 e) w k (new_flags flags) del.

(** The state afterwards: changed, or only the packets have arrived. *)
Definition changed_or_not (n : Z) (e : cmd_env) (k : key) (change : rule -> rule) (a : policy) (err : Z) (w : world M T) : Prop :=
  err = 0 /\ refines n w (spec_change k change (ce_window1 e) (ce_window2 e) a) \/
  err < 0 /\ (env_failed e \/ refused k) /\ exists ps, ps `prefix_of` windows e /\ refines n w (spec_arrive ps a).

Lemma zlen_windows e : zlen (windows e) = zlen (ce_window1 e) + zlen (ce_window2 e).
Proof. apply zlen_app. Qed.

Lemma spec_arrive_app ps qs a : spec_arrive (ps ++ qs) a = spec_arrive qs (spec_arrive ps a).
Proof. apply fold_left_app. Qed.

Lemma setting_spec n w a e k fl change del : refines n w a -> env_ok e -> n + zlen (windows e) < 2 ^ 58 ->
  (0 <= ce_cpus1 e -> fl = flags_of (change (rules a k))) ->
  exists err w', (w ← arrive (ce_window1 e) w; map_set_flags (ce_cpus2 e) (ce_mem2 e) (ce_window2 e) w k fl del) = Some (err, w') /\
    changed_or_not (n + zlen (windows e)) e k change a err w'.
Proof.
  intros Hw (Hcpu & Hcpu2 & Hw1 & Hw2) Hn Hfl. rewrite zlen_windows in *. pose proof (zlen_nonneg (ce_window1 e)). pose proof (zlen_nonneg (ce_window2 e)).
  destruct (arrive_refines _ n w a Hw Hw1) as (w1 & -> & Hr1); [lia |]. cbn [mbind option_bind]. rewrite Hcpu2. destruct (Z.ltb_spec (ce_cpus1 e) 0) as [Hneg | Hpos].
  { unfold map_set_flags. rewrite (proj2 (Z.ltb_lt _ _) Hneg). eexists _, _. split; [done |]. right. split_and!; [done | left; unfold env_failed; auto |].
    exists (ce_window1 e). split; [by apply prefix_app_r | apply (refines_mono _ _ _ _ Hr1); lia]. }
  rewrite (Hfl Hpos). destruct (set_spec _ w1 _ k (change (rules a k)) (ce_cpus1 e) (ce_mem2 e) (ce_window2 e) del Hr1 Hw2) as (err & w' & -> & Ho); [lia | done |].
  exists err, w'. split; [done |]. rewrite Z.add_assoc. destruct Ho as [[-> Hr] | (Herr & Hwhy & ps & Hps & Hr)]; [by left |]. right. split; [done |]. split.
  - destruct Hwhy as [| [|]]; [lia | left; unfold env_failed; auto | by right].
  - destruct Hps as [-> | ->]; [exists (ce_window1 e); split; [by apply prefix_app_r | done] |]. exists (windows e). split; [done |]. unfold windows. by rewrite spec_arrive_app.
Qed.

Lemma changing_spec n w a e k g change del : (0 < cpus)%nat -> refines n w a -> env_ok e -> n + zlen (windows e) < 2 ^ 58 ->
  (forall r, g (flags_of r) = flags_of (change r)) ->
  exists err w', changing e w k g del = Some (err, w') /\ changed_or_not (n + zlen (windows e)) e k change a err w'.
Proof.
  intros Hc Hw He Hn Hg. pose proof (zlen_nonneg (windows e)).
  unfold changing. rewrite (get_spec n (tabs w) a k) by (done || apply Hw || lia).
  assert (forall er, er < 0 -> env_failed e -> exists err w', Some (er, w) = Some (err, w') /\ changed_or_not (n + zlen (windows e)) e k change a err w') as Hfail.
  { intros er Her Hf. exists er, w. split; [done |]. right. split_and!; [done | by left |]. exists []. split; [apply prefix_nil | apply (refines_mono n); [done | lia]]. }
  destruct (Z.ltb_spec (ce_cpus1 e) 0) as [Hneg | Hpos].
  { destruct (_ && _); [apply Hfail; [done | unfold env_failed; auto] | apply setting_spec; [done.. | lia]]. }
  destruct (ce_mem1 e) eqn:Em; cbn [negb]; [| apply Hfail; [done | unfold env_failed; auto]].
  destruct (decide (rules a k = no_rule)) as [Er | Er]; cbn; (apply setting_spec; [done.. |]); intros _; rewrite <- Hg; by rewrite ?Er.
Qed.

Lemma do_port_changing o e w : do_port o e w =
  if ce_lock e <? 0 then Some (ce_lock e, [], w) else if ce_map_fd e <? 0 then Some (EXIT_FAILURE, [], w) else
  '(err, w) ← changing e w (KPort (bswap16 (po_port o))) (port_flags o) false;
  if c_true err then Some (err, [], w) else if negb (po_print_status o) then Some (0, [], w) else
  let '(err, rows) := print_rows (ce_keys e) (tabs w) in Some (err, rows, w).
Proof.
  unfold do_port, changing. destruct (_ <? 0); [done |]. destruct (_ <? 0); [done |]. destruct (map_get_counter_flags _ _ _ _) as [[er fl] ct].
  destruct (c_true er && _) eqn:E; [apply andb_prop in E as [E _]; cbn; by rewrite E |]. by destruct (arrive _ w).
Qed.

Lemma do_address_changing e w k remove mode : __do_address e w k remove mode =
  if ce_map_fd e <? 0 then Some (- ENOENT, w) else
  '(err, w) ← changing e w k (fun flags => if remove then u8 (Z.land flags (Z.lnot mode)) else u8 (Z.lor flags mode)) true;
  Some (if c_true err then err else ce_map_fd e, w).
Proof.
  unfold __do_address, changing. destruct (_ <? 0); [done |]. destruct (map_get_counter_flags _ _ _ _) as [[er fl] ct].
  destruct (c_true er && _) eqn:E; [apply andb_prop in E as [E _]; cbn; by rewrite E |]. by destruct (arrive _ w).
Qed.

Lemma spec_rows_app ks ks' a : spec_rows (ks ++ ks') a = spec_rows ks a ++ spec_rows ks' a.
Proof. apply omap_app. Qed.

Lemma print_ips_spec n t a e o : (0 < cpus)%nat -> tables_ok n t a -> n < 2 ^ 58 ->
  exists err rows, print_ips e t = (err, rows) /\ rows `sublist_of` spec_rows (printed_keys (CIp o) e) a /\
    (listable (CIp o) e -> err = 0 /\ rows = spec_rows (printed_keys (CIp o) e) a).
Proof.
  intros Hc Ht Hn. unfold print_ips, listable. cbn [printed_keys]. destruct (c_true (ce_root e)) eqn:Er.
  { eexists _, _. split; [done |]. split; [apply sublist_nil_l | intros (_ & E & _); by rewrite E in Er]. }
  destruct ((ce_fd4 e <? 0) && (ce_fd6 e <? 0)) eqn:Ef.
  { apply andb_prop in Ef as [E4 E6]. eexists _, _. split; [done |]. split; [apply sublist_nil_l | intros (_ & _ & [|]); lia]. }
  set (ks6 := if 0 <=? ce_fd6 e then ce_keys e else []). set (ks4 := if 0 <=? ce_fd4 e then ce_keys4 e else []).
  assert ((if 0 <=? ce_fd6 e then print_rows (ce_keys e) t else (0, [])) = print_rows ks6 t) as -> by (unfold ks6; by destruct (0 <=? ce_fd6 e)).
  assert ((if 0 <=? ce_fd4 e then print_rows (ce_keys4 e) t else (0, [])) = print_rows ks4 t) as -> by (unfold ks4; by destruct (0 <=? ce_fd4 e)).
  rewrite spec_rows_app.
  destruct (print_rows_spec n t a ks6 Hc Ht Hn) as (e6 & r6 & -> & S6 & F6), (print_rows_spec n t a ks4 Hc Ht Hn) as (e4 & r4 & -> & S4 & F4).
  destruct (c_true e6) eqn:E6.
  - eexists _, _. split; [done |]. split; [by apply sublist_inserts_r |]. intros ([H6 _]%Forall_app & _). destruct (F6 H6) as [-> _]. done.
  - eexists _, _. split; [done |]. split; [by apply sublist_app |]. intros ([H6 H4]%Forall_app & _). destruct (F6 H6) as [_ ->], (F4 H4) as [-> ->]. done.
Qed.

(** From the change to the end of a command: [print] is how it prints. *)
Lemma spec_finish n c e a w' err (print : M -> Z * list rule_row) : (0 < cpus)%nat -> n + zlen (windows e) < 2 ^ 58 ->
  (forall t a', tables_ok (n + zlen (windows e)) t a' -> exists err rows, print t = (err, rows) /\ rows `sublist_of` spec_rows (printed_keys c e) a' /\
     (listable c e -> err = 0 /\ rows = spec_rows (printed_keys c e) a')) ->
  changed_or_not (n + zlen (windows e)) e (command_key c) (command_change c) a err w' ->
  exists err' rows a', (if c_true err then Some (err, [], w') else if negb (command_prints c) then Some (0, [], w') else let '(err, rows) := print (tabs w') in Some (err, rows, w')) = Some (err', rows, w') /\
    spec_command c e a err' rows a' /\ refines (n + zlen (windows e)) w' a'.
Proof.
  intros Hc Hn Hp [[-> Hr] | (Herr & Hwhy & ps & Hps & Hr)]; cycle 1.
  { replace (c_true err) with true by (symmetry; unfold c_true; apply negb_true_iff, Z.eqb_neq; lia).
    eexists _, _, _. split; [done |]. split; [apply spec_unchanged; [lia | done | done] | done]. }
  cbn. destruct (command_prints c) eqn:Ep; cbn.
  - destruct (Hp (tabs w') _ (rf_tables _ _ _ Hr)) as (er & rows & -> & Hs & Hf). eexists _, _, _. split; [done |]. split; [| done].
    eapply spec_changed; [done | by rewrite Ep |]. rewrite Ep. intros [| Hl]; [done | by apply Hf].
  - eexists _, _, _. split; [done |]. split; [| done]. eapply spec_changed; [done | by rewrite Ep | by rewrite Ep].
Qed.

Lemma spec_failed n c e a w err : refines n w a -> err <> 0 -> env_failed e ->
  exists err' rows w' a', Some (err, [], w) = Some (err', rows, w') /\ spec_command c e a err' rows a' /\ refines (n + zlen (windows e)) w' a'.
Proof.
  intros Hw Herr Hf. eexists _, _, _, _. split; [done |]. split; [apply (spec_unchanged _ _ _ _ []); [done | by left | apply prefix_nil] |].
  apply (refines_mono _ _ _ _ Hw). pose proof (zlen_nonneg (windows e)). lia.
Qed.

(** The commands for addresses, with their way to print. *)
Lemma address_spec n w a c e remove mode (print : M -> Z * list rule_row) : (0 < cpus)%nat -> refines n w a -> 0 <= mode < 4 -> env_ok e -> n + zlen (windows e) < 2 ^ 58 ->
  command_change c = spec_address remove mode ->
  (forall t a', tables_ok (n + zlen (windows e)) t a' -> exists err rows, print t = (err, rows) /\ rows `sublist_of` spec_rows (printed_keys c e) a' /\
     (listable c e -> err = 0 /\ rows = spec_rows (printed_keys c e) a')) ->
  exists err rows w' a', (if ce_lock e <? 0 then Some (ce_lock e, [], w) else
    '(map_fd, w) ← __do_address e w (command_key c) remove mode;
    if map_fd <? 0 then Some (map_fd, [], w) else if negb (command_prints c) then Some (0, [], w) else let '(err, rows) := print (tabs w) in Some (err, rows, w)) = Some (err, rows, w') /\
    spec_command c e a err rows a' /\ refines (n + zlen (windows e)) w' a'.
Proof.
  intros Hc Hw Hm He Hn Hch Hp. rewrite do_address_changing. destruct (Z.ltb_spec (ce_lock e) 0); [apply spec_failed; [done | lia | by left] |].
  destruct (Z.ltb_spec (ce_map_fd e) 0); [by apply spec_failed; [done | done | right; left] |].
  edestruct (changing_spec n w a e (command_key c) (fun flags => if remove then u8 (Z.land flags (Z.lnot mode)) else u8 (Z.lor flags mode)) (command_change c) true) as (err & w' & -> & Ho); [done.. | |].
  { intros r. rewrite Hch. by apply address_flags_spec. }
  cbn [mbind option_bind]. destruct (spec_finish n c e a w' err print Hc Hn Hp Ho) as (err' & rows & a' & E & Hs). exists err', rows, w', a'. split; [| done]. rewrite <- E.
  destruct Ho as [[-> _] | (Herr & _)]; [cbn; by rewrite (proj2 (Z.ltb_ge _ _)) |].
  replace (c_true err) with true by (symmetry; unfold c_true; apply negb_true_iff, Z.eqb_neq; lia). by rewrite (proj2 (Z.ltb_lt _ _)).
Qed.

Lemma command_spec n w a c e : (0 < cpus)%nat -> refines n w a -> command_ok c -> env_ok e -> n + zlen (windows e) < 2 ^ 58 ->
  exists err rows w' a', run_command c e w = Some (err, rows, w') /\ spec_command c e a err rows a' /\ refines (n + zlen (windows e)) w' a'.
Proof.
  intros Hc Hw Hok He Hn. destruct c as [o | o | o]; cbn [run_command].
  - rewrite do_port_changing. destruct (Z.ltb_spec (ce_lock e) 0); [apply spec_failed; [done | lia | by left] |].
    destruct (Z.ltb_spec (ce_map_fd e) 0); [apply spec_failed; [done | done | by right; left] |]. destruct Hok as [Hm Hp].
    destruct (changing_spec n w a e (KPort (bswap16 (po_port o))) (port_flags o) (spec_port o) false) as (err & w' & -> & Ho); [done.. | intros; by apply port_flags_spec |].
    cbn [mbind option_bind]. edestruct (spec_finish n (CPort o) e a w' err (print_rows (ce_keys e))) as (err' & rows & a' & E & Hs); [done | done | | done | by exists err', rows, w', a'].
    intros t a' Ht. destruct (print_rows_spec _ t a' (ce_keys e) Hc Ht) as (er & rows & H1 & H2 & H3); [lia |]. exists er, rows. split_and!; [done | done | intros [Hf _]; by apply H3].
  - apply (address_spec n w a (CIp o) e (io_remove o) (io_mode o) (print_ips e)); try done. intros t a' Ht. by eapply print_ips_spec.
  - apply (address_spec n w a (CEther o) e (eo_remove o) (eo_mode o) (print_rows (ce_keys e))); try done. intros t a' Ht.
    destruct (print_rows_spec _ t a' (ce_keys e) Hc Ht) as (er & rows & H1 & H2 & H3); [lia |]. exists er, rows. split_and!; [done | done | intros [Hf _]; by apply H3].
Qed.

(** ** Histories *)

Inductive spec_run : policy -> list event -> list (Z * list rule_row) -> policy -> Prop :=
| spec_nil a : spec_run a [] [] a
| spec_packet a p es outs a' : spec_run (spec_receive p a) es outs a' -> spec_run a (Receive p :: es) outs a'
| spec_cmd a c e es err rows a1 outs a' : spec_command c e a err rows a1 -> spec_run a1 es outs a' -> spec_run a (Command c e :: es) ((err, rows) :: outs) a'.

Definition event_ok (ev : event) : Prop := match ev with Receive p => packet_fine p | Command c e => command_ok c /\ env_ok e end.

Definition event_packets (ev : event) : Z := match ev with Receive _ => 1 | Command _ e => zlen (windows e) end.

Definition packets (es : list event) : Z := foldr (fun ev n => event_packets ev + n) 0 es.

Lemma packets_nonneg es : 0 <= packets es.
Proof. induction es as [| [p | c e] es IH]; cbn; [done | unfold packets in IH; lia |]. pose proof (zlen_nonneg (windows e)). unfold packets in IH. lia. Qed.

(** C5: The filter enforces its rules.  For any sequence of packets, whatever
    their content and whatever program, CPU and interface they are
    for, and of commands that add, remove and list rules, with packets
    arriving also in the middle of the commands: everything is defined; each
    command makes exactly its change, or none, with an error, when the
    system refuses; each packet gets the verdict of the
    rules at that time; and the rules, the counters of hits and the lists printed are
    those of the specification. *)
Theorem filter_enforces_rules n w a es : (0 < cpus)%nat -> refines n w a -> Forall event_ok es -> n + packets es < 2 ^ 58 ->
  exists outs w' a', run es w = Some (outs, w') /\ spec_run a es outs a' /\ refines (n + packets es) w' a'.
Proof.
  intros Hc. revert n w a. induction es as [| [p | c e] es IH]; intros n w a Hw Hes Hn; cbn [run packets foldr] in *; try fold (packets es) in *.
  - exists [], w, a. rewrite Z.add_0_r. split_and!; [done | constructor | done].
  - apply Forall_cons in Hes as [Hp Hes]. pose proof (packets_nonneg es). cbn [event_packets] in *.
    destruct (receive_refines n w a p Hw Hp) as (w1 & -> & Hw1); [lia |]. cbn [mbind option_bind].
    destruct (IH _ _ _ Hw1 Hes) as (outs & w' & a' & E & Hs & Hr); [lia |]. exists outs, w', a'. rewrite Z.add_assoc. split_and!; [done | by constructor | done].
  - apply Forall_cons in Hes as [[Hok He] Hes]. pose proof (packets_nonneg es). cbn [event_packets] in *.
    destruct (command_spec n w a c e Hc Hw Hok He) as (err & rows & w1 & a1 & -> & Hs1 & Hw1); [lia |]. cbn [mbind option_bind].
    destruct (IH _ _ _ Hw1 Hes) as (outs & w' & a' & -> & Hs & Hr); [lia |]. eexists _, w', a'. rewrite Z.add_assoc. split_and!; [done | by econstructor | done].
Qed.

Lemma find_existsb (P : check -> bool) cs : (exists c, find P cs = Some c /\ existsb P cs = true) \/ find P cs = None /\ existsb P cs = false.
Proof. induction cs as [| c cs IH]; cbn; [by right |]. destruct (P c); [left; eauto | exact IH]. Qed.

(** C13: The verdict of a frame.  On every frame with at most four VLAN tags, an
    IPv4 header with any options or an IPv6 header with at most five extension
    headers, and a TCP segment, a UDP datagram or something else in it, or with
    another EtherType, any of the programs
    returns the verdict of a hit exactly when a rule matches one of the fields that the
    program looks at, and the verdict of its policy otherwise. *)
Theorem filter_verdict n w a f cpu front p : (cpu < cpus)%nat -> refines n w a -> n + 1 < 2 ^ 58 -> packet_ok p ->
  let m := front ++ packet_bytes p in
  exists t s, xdpfilt f cpu m {| data := zlen front; data_end := zlen m |} (tabs w) (stats w cpu) =
    Some (if existsb (fun c => matches (rules a (ck_key c)) c) (packet_checks f p) then VERDICT_HIT f else VERDICT_MISS f, t, s).
Proof.
  intros Hc Hw Hn Hp m. set (pk := {| pk_mode := f; pk_cpu := cpu; pk_mem := m; pk_ctx := {| data := zlen front; data_end := zlen m |} |}).
  assert (packet_fine pk) as Hf by (split; [split; cbn; [apply zlen_nonneg | done] | done]).
  destruct (receive_refines n w a pk Hw Hf Hn) as (w' & E & [_ _ Hv]). unfold receive, pk in E. cbn [pk_mode pk_cpu pk_mem pk_ctx] in E.
  apply bind_Some in E as ([[v t] s] & E & [= <-]). exists t, s. rewrite E. cbn [verdicts] in Hv.
  unfold spec_receive, pk in Hv. cbn [pk_mode pk_cpu pk_mem pk_ctx] in Hv. unfold m in Hv. rewrite scan_frame in Hv by done. cbn [default from_option Datatypes.id] in Hv.
  rewrite (rf_seen _ _ _ Hw) in Hv. destruct (find_existsb (fun c => matches (rules a (ck_key c)) c) (packet_checks f p)) as [(c & Ec & Ee) | [Ec Ee]];
    rewrite Ec in Hv; rewrite Ee; cbn [seen] in Hv; by apply app_inj_tail in Hv as [_ ->].
Qed.

End Refinement.

(** ** Tables *)

#[export] Instance byte_countable : Countable byte := inj_countable Byte.to_N Byte.of_N Byte.of_to_N.

Definition key_code (k : key) : (Z + Z) + (list byte + list byte) :=
  match k with KPort p => inl (inl p) | KIpv4 a => inl (inr a) | KIpv6 a => inr (inl a) | KEthernet a => inr (inr a) end.
Definition key_decode (c : (Z + Z) + (list byte + list byte)) : key :=
  match c with inl (inl p) => KPort p | inl (inr a) => KIpv4 a | inr (inl a) => KIpv6 a | inr (inr a) => KEthernet a end.
#[export] Instance key_countable : Countable key.
Proof. apply (inj_countable' key_code key_decode). by intros []. Defined.

Definition same_table (k k' : key) : bool :=
  match k, k' with KPort _, KPort _ | KIpv4 _, KIpv4 _ | KIpv6 _, KIpv6 _ | KEthernet _, KEthernet _ => true | _, _ => false end.

Definition max_entries : Z := 10000.

Section Tables.
Context (cpus : nat).

(** All tables in one map.  Those with addresses take a number of entries;
    the array of ports always has all its slots. *)
#[local] Instance map_tables : FilterMaps (gmap key (list Z)) := {|
  pc_lookup t k :=
    match k with
    | KPort p => if (0 <=? p) && (p <? 65536) then Some (default (replicate cpus 0) (t !! k)) else None
    | _ => t !! k
    end;
  pc_store t k cpu v := <[k := <[cpu := v]> (default (replicate cpus 0) (t !! k))]> t;
  pc_update t k vs :=
    match k with
    | KPort p => if (0 <=? p) && (p <? 65536) then (0, <[k := vs]> t) else (- E2BIG, t)
    | _ => match t !! k with
           | Some _ => (0, <[k := vs]> t)
           | None => if Z.of_nat (size (filter (fun x => same_table k x.1 = true) t)) <? max_entries then (0, <[k := vs]> t) else (- E2BIG, t)
           end
    end;
  pc_delete t k :=
    match k with
    | KPort p => (- EINVAL, t)
    | _ => match t !! k with Some _ => (0, delete k t) | None => (- ENOENT, t) end
    end
|}.

Lemma map_tables_ok : FilterMapsOk (gmap key (list Z)) cpus.
Proof.
  split; cbn.
  - intros m k cpu v vs E. destruct k; [case_match; [| done] | ..]; simplify_eq; rewrite lookup_insert_eq; cbn; [done | by rewrite E..].
  - intros m k k' cpu v Hne. destruct k'; [case_match; [| done] | ..]; by rewrite lookup_insert_ne by done.
  - intros m k vs. destruct k; repeat case_match; cbn; unfold E2BIG; lia.
  - intros m k. destruct k; repeat case_match; cbn; unfold EINVAL, ENOENT; lia.
  - intros m k vs m' _ E. destruct k; repeat case_match; simplify_eq; cbn; by rewrite lookup_insert_eq.
  - intros m k k' vs r m' E Hne. destruct k; repeat case_match; simplify_eq; try done; by rewrite lookup_insert_ne by done.
  - intros m k vs r m' E Hr. destruct k; repeat case_match; by simplify_eq.
  - intros m k m' E. destruct k; repeat case_match; simplify_eq; try done; apply lookup_delete_eq.
  - intros m k k' r m' E Hne. destruct k; repeat case_match; simplify_eq; try done; by rewrite lookup_delete_ne by done.
  - intros m k r m' E Hr. destruct k; repeat case_match; by simplify_eq.
Qed.
End Tables.

(** ** A session *)

#[local] Existing Instance map_tables.

Definition empty_world : world (gmap key (list Z)) (list datarec) := {| tabs := ∅; stats := fun _ => zero_stats; verdicts := [] |}.
Definition empty_policy : policy := {| rules := fun _ => no_rule; hits := fun _ => 0; seen := [] |}.

(** With no rules, the tables implement no rules. *)
Lemma empty_refines cpus : refines (F := map_tables cpus) cpus 0 empty_world empty_policy.
Proof.
  split; [| | done].
  - intros k. cbn. split; [done |]. split; [done |]. destruct k as [p | | |]; cbn; rewrite lookup_empty; try done. destruct (_ && _); [| done]. cbn.
    exists (replicate cpus 0). split_and!; [| by rewrite length_replicate | by apply Forall_replicate | apply sum_zeros].
    change (replicate cpus 0 = value no_rule <$> replicate cpus 0). by rewrite fmap_replicate.
  - intros cpu action Ha. cbn [stats empty_world]. unfold zero_stats. cbn [arr_lookup list_array]. rewrite (proj2 (Z.leb_le _ _)) by lia.
    apply lookup_lt_is_Some_2. rewrite length_replicate. unfold XDP_ACTION_MAX, XDP_REDIRECT in Ha. lia.
Qed.

Definition tcp_packet (sport dport saddr daddr : Z) : eth_packet :=
  {| h_dest := replicate 6 x01; h_source := replicate 6 x02; vlan_tags := [(ETH_P_8021Q, 7)];
     net := Ipv4 0x45 (replicate 8 x00) (replicate 2 x00) saddr daddr [] (TcpSegment sport dport (replicate 8 x00) 0x50 (replicate 7 x00)) |}.

Definition sample_packet (f : filt_mode) (cpu : nat) (p : eth_packet) : packet :=
  {| pk_mode := f; pk_cpu := cpu; pk_mem := packet_bytes p; pk_ctx := {| data := 0; data_end := zlen (packet_bytes p) |} |}.

Definition sample_env (win : list packet) (ks : list (key * Z * bool)) : cmd_env :=
  {| ce_lock := 3; ce_map_fd := 4; ce_cpus1 := 2; ce_mem1 := true; ce_window1 := []; ce_cpus2 := 2; ce_mem2 := true; ce_window2 := win;
     ce_root := 0; ce_fd6 := -1; ce_fd4 := 5; ce_keys := ks; ce_keys4 := [] |}.

Definition port_80 (remove : bool) : portopt := {| po_mode := 0; po_proto := 4; po_port := 80; po_print_status := true; po_remove := remove |}.
Definition web : eth_packet := tcp_packet 40000 80 0x0100000a 0x0200000a.
Definition port_80_key : list (key * Z * bool) := [(KPort (bswap16 80), 2, true)].

Definition filter_session : list event :=
  [Receive (sample_packet xdpfilt_alw_all 0 web);
   Command (CPort (port_80 false)) (sample_env [] port_80_key);
   Receive (sample_packet xdpfilt_alw_all 0 web);
   Receive (sample_packet xdpfilt_alw_all 1 web);
   Receive (sample_packet xdpfilt_alw_udp 1 web);
   Receive (sample_packet xdpfilt_dny_tcp 1 web);
   Command (CPort (port_80 false)) (sample_env [sample_packet xdpfilt_alw_all 0 web] port_80_key);
   Command (CPort (port_80 true)) (sample_env [] port_80_key);
   Receive (sample_packet xdpfilt_alw_all 0 web)].

(** The session: the hit that arrives during a command gets its verdict, but
    is not counted. *)
Lemma session_runs : (fun '(outs, w) => (outs, verdicts w)) <$> run (F := map_tables 2) filter_session empty_world =
  Some ([(0, [(KPort (bswap16 80), 6, 0)]); (0, [(KPort (bswap16 80), 6, 3)]); (0, [])],
        [XDP_PASS; XDP_DROP; XDP_DROP; XDP_PASS; XDP_PASS; XDP_DROP; XDP_PASS]).
Proof. vm_compute. reflexivity. Qed.

Lemma sample_fine f cpu : (cpu < 2)%nat -> packet_fine 2 (sample_packet f cpu web).
Proof. intros Hc. split; [split; cbn; lia | done]. Qed.

Lemma session_ok : Forall (event_ok 2) filter_session.
Proof.
  unfold filter_session. repeat (apply Forall_cons; split); try apply Forall_nil_2; try (apply sample_fine; lia).
  all: split; [split; [cbn; lia | cbn; set_solver] |]; split_and!; [by right | done | by apply Forall_nil_2 | cbn].
  all: repeat (apply Forall_cons; split); try apply Forall_nil_2; apply sample_fine; lia.
Qed.

Lemma filter_enforces_rules_witness : exists outs w' a', run (F := map_tables 2) filter_session empty_world = Some (outs, w') /\
  spec_run (F := map_tables 2) 2 empty_policy filter_session outs a' /\ refines (F := map_tables 2) 2 (0 + packets filter_session) w' a'.
Proof.
  apply (filter_enforces_rules (F := map_tables 2) (F_ok := map_tables_ok 2) 2 0 empty_world empty_policy filter_session);
    [lia | apply empty_refines | apply session_ok | by vm_compute].
Defined.

Lemma web_ok : packet_ok web.
Proof.
  split_and!; [done | done | apply Forall_singleton; split; [by left | done] | by apply Nat.leb_le |]. cbn. unfold port_ok, zlen. cbn. split_and!; done || lia.
Qed.

Lemma filter_verdict_witness : exists t s, xdpfilt (F := map_tables 2) xdpfilt_dny_all 1 ([] ++ packet_bytes web) {| data := 0; data_end := zlen ([] ++ packet_bytes web) |} (tabs empty_world) (stats empty_world 1) =
  Some (XDP_DROP, t, s).
Proof.
  exact (filter_verdict (F := map_tables 2) (F_ok := map_tables_ok 2) 2 0 empty_world empty_policy xdpfilt_dny_all 1 [] web ltac:(lia) (empty_refines 2) ltac:(lia) web_ok).
Defined.

(** Removing an address that has no rule adds an entry to the table. *)
Lemma remove_absent_adds :
  (fun '(err, _, w) => (err, map_to_list (tabs w))) <$>
    do_ip (F := map_tables 2) {| io_mode := 2; io_addr := {| af := 2; addr4 := 7; addr6 := [] |}; io_print_status := false; io_remove := true |} (sample_env [] []) empty_world =
  Some (0, [(KIpv4 7, [0; 0])]).
Proof. vm_compute. reflexivity. Qed.
