(* ===== verification/XdpFilterLoad.v ===== *)
(** The packet filter of xdp-tools, loading: the choice of the program, [do_load] and the
    removal of maps of src/lib/xdp-tools/xdp-filter/xdp-filter.c, and what they use
    of src/lib/xdp-tools/lib/util/util.c and params.c, the lock of the
    processes included. *)
From stdpp Require Import functions.
From S2P Require Import Prelude.
From S2P Require Import CLib.
From S2P Require Import XdpFilter.

Definition EXIT_FAILURE : Z := 1.
Definition XDP_MODE_HW : Z := 3.

Definition FEAT_TCP : Z := 1.
Definition FEAT_UDP : Z := 2.
Definition FEAT_IPV6 : Z := 4.
Definition FEAT_IPV4 : Z := 8.
Definition FEAT_ETHERNET : Z := 16.
Definition FEAT_ALL : Z := 31.
Definition FEAT_ALLOW : Z := 32.
Definition FEAT_DENY : Z := 64.

(** ** The programs and their features *)

(** The word in the section "features" of a program. *)
Definition _features (f : filt_mode) : Z :=
  Z.lor (Z.lor (Z.lor (Z.lor (Z.lor
    (if FILT_MODE_ETHERNET f then FEAT_ETHERNET else 0) (if FILT_MODE_IPV4 f then FEAT_IPV4 else 0))
    (if FILT_MODE_IPV6 f then FEAT_IPV6 else 0)) (if FILT_MODE_UDP f then FEAT_UDP else 0))
    (if FILT_MODE_TCP f then FEAT_TCP else 0)) (if FILT_MODE_DENY f then FEAT_DENY else FEAT_ALLOW).

Definition ntohl (x : Z) : Z := le_combine (rev (le_split 4 x)).

Record prog_feature := { prog_name : list byte; features : Z }.

(** The objects in the order of the Makefile. *)
Definition XDP_TARGETS : list (string * filt_mode) :=
  [("xdpfilt_dny_udp", xdpfilt_dny_udp); ("xdpfilt_dny_tcp", xdpfilt_dny_tcp); ("xdpfilt_dny_ip", xdpfilt_dny_ip);
   ("xdpfilt_dny_eth", xdpfilt_dny_eth); ("xdpfilt_dny_all", xdpfilt_dny_all);
   ("xdpfilt_alw_udp", xdpfilt_alw_udp); ("xdpfilt_alw_tcp", xdpfilt_alw_tcp); ("xdpfilt_alw_ip", xdpfilt_alw_ip);
   ("xdpfilt_alw_eth", xdpfilt_alw_eth); ("xdpfilt_alw_all", xdpfilt_alw_all)]%string.

(** extract_features.sh writes the word's bytes in the order of the memory as
    one number. *)
Definition extract_features (objects : list (string * filt_mode)) : list prog_feature :=
  map (fun '(name, f) => {| prog_name := str name ++ str ".o"; features := ntohl (_features f) |}) objects.

Definition prog_features : list prog_feature := extract_features XDP_TARGETS.

(** NULL is [None]. *)
Definition find_prog_file (table : list prog_feature) (feats : Z) : option (list byte) :=
  if negb (c_true feats) then None else
  prog_name <$> find (fun feat => Z.land (ntohl (features feat)) feats =? feats) table.

Definition is_prefix (pfx s : list byte) : bool :=
  if (length s <? length pfx)%nat then false else bool_decide (take (length pfx) s = pfx).

Definition find_features (table : list prog_feature) (progname : list byte) : Z :=
  match find (fun feat => is_prefix progname (prog_name feat)) table with Some feat => ntohl (features feat) | None => 0 end.

(** ** The limit on locked memory *)

Definition RLIM_INFINITY : Z := 2 ^ 64 - 1.

(** The result and the new limit; [get] and [set] are the answers of
    getrlimit and setrlimit (0 or minus the error number). *)
Definition set_rlimit (min_limit : Z) (get set : Z) (rlim_cur : Z) : Z * Z :=
  if c_true get then (get, rlim_cur) else
  if (rlim_cur =? RLIM_INFINITY) || (rlim_cur =? 0) then (- ENOMEM, rlim_cur) else
  if c_true min_limit && (min_limit <=? rlim_cur) then (0, rlim_cur) else
  let new := if c_true min_limit then min_limit else u64 (Z.shiftl rlim_cur 1) in
  if c_true set then (set, rlim_cur) else (0, new).

Definition double_rlimit : Z -> Z -> Z -> Z * Z := set_rlimit 0.

(** ** Loading *)

(** Programs that are open (addresses of [struct xdp_program]), the lock,
    the limit, the files of the programs attached to the interface, and how often
    a program was created. *)
Record load_state := { open_progs : list Z; lock_held : bool; rlim : Z; attached : list (list byte); tries : nat }.

Definition set_progs (ps : list Z) (s : load_state) : load_state := {| open_progs := ps; lock_held := lock_held s; rlim := rlim s; attached := attached s; tries := tries s |}.
Definition set_lock (l : bool) (s : load_state) : load_state := {| open_progs := open_progs s; lock_held := l; rlim := rlim s; attached := attached s; tries := tries s |}.
Definition set_rlim (r : Z) (s : load_state) : load_state := {| open_progs := open_progs s; lock_held := lock_held s; rlim := r; attached := attached s; tries := tries s |}.
Definition set_attached (l : list (list byte)) (s : load_state) : load_state := {| open_progs := open_progs s; lock_held := lock_held s; rlim := rlim s; attached := l; tries := tries s |}.

Definition set_tries (n : nat) (s : load_state) : load_state := {| open_progs := open_progs s; lock_held := lock_held s; rlim := rlim s; attached := attached s; tries := n |}.

Definition forget (p : Z) (l : list Z) : list Z := filter (fun q => q <> p) l.

(** Closing frees the program: closing it again is undefined. *)
Definition xdp_program__close (p : Z) (s : load_state) : option load_state :=
  if p =? 0 then Some s else
  if bool_decide (p ∈ open_progs s) then Some (set_progs (forget p (open_progs s)) s) else None.

(** The answers while attaching: of both mkdirs, of snprintf for the paths, of
    libxdp when attaching, pinning and detaching. *)
Record attach_env := { at_mkdir1 : Z; at_mkdir2 : Z; at_path1 : Z; at_path2 : Z; at_attach : Z; at_pin : Z; at_detach : Z }.

Definition make_dir_subdir (a : attach_env) : Z :=
  if c_true (at_path1 a) then at_path1 a else
  if c_true (at_mkdir1 a) && negb (at_mkdir1 a =? - EEXIST) then at_mkdir1 a else
  if c_true (at_mkdir2 a) && negb (at_mkdir2 a =? - EEXIST) then at_mkdir2 a else 0.

Definition attach_xdp_program (a : attach_env) (prog : Z) (file : list byte) (s : load_state) : Z * load_state :=
  if prog =? 0 then (- EINVAL, s) else
  let err := make_dir_subdir a in
  if c_true err then (err, s) else
  if c_true (at_path2 a) then (at_path2 a, s) else
  if c_true (at_attach a) then (at_attach a, s) else
  let s := set_attached (file :: attached s) s in
  if c_true (at_pin a) then (at_pin a, if at_detach a =? 0 then set_attached (tail (attached s)) s else s) else
  (0, s).

Record loadopt := { lo_features : Z; lo_mode : Z; lo_policy : Z }.

(** The answers while loading: of the lock, of the list of programs, of
    the search for a pinned program (error and program), of strdup, and in
    each round those of creating a program, of attaching, and of the limit. *)
Record load_env := {
  le_lock : Z;
  le_used : Z * Z;
  le_pinned : Z * Z;
  le_strdup : bool;
  le_create : nat -> Z + Z;
  le_attach : nat -> attach_env;
  le_getrlimit : nat -> Z;
  le_setrlimit : nat -> Z
}.

(** The rounds from the label [retry] on; the result is [err] and [p] at the
    label [out]. *)
Fixpoint retry (fuel : nat) (i : nat) (e : load_env) (file : list byte) (s : load_state) : option (Z * Z * load_state) :=
  match fuel with
  | O => None
  | S fuel =>
    let s := set_tries (S (tries s)) s in
    match le_create e i with
    | inl err =>
      if err =? - EPERM then
        let '(r, l) := double_rlimit (le_getrlimit e i) (le_setrlimit e i) (rlim s) in
        let s := set_rlim l s in
        if negb (c_true r) then retry fuel (S i) e file s else Some (err, 0, s)
      else Some (err, 0, s)
    | inr p =>
      let s := set_progs (p :: open_progs s) s in
      let '(err, s) := attach_xdp_program (le_attach e i) p file s in
      if negb (c_true err) then Some (0, p, s) else
      if err =? - EPERM then
        let '(r, l) := double_rlimit (le_getrlimit e i) (le_setrlimit e i) (rlim s) in
        let s := set_rlim l s in
        if negb (c_true r) then s ← xdp_program__close p s; retry fuel (S i) e file s else Some (err, p, s)
      else Some (err, p, s)
    end
  end.

(** A limit can be doubled 64 times. *)
Definition MAX_ROUNDS : nat := 66.

(** The label [out]. *)
Definition load_out (p err : Z) (s : load_state) : option (Z * load_state) :=
  s ← xdp_program__close p s; Some (err, set_lock false s).

Definition do_load (table : list prog_feature) (opt : loadopt) (e : load_env) (s : load_state) : option (Z * load_state) :=
  if lo_mode opt =? XDP_MODE_HW then Some (EXIT_FAILURE, s) else
  if le_lock e <? 0 then Some (le_lock e, s) else
  let s := set_lock true s in
  let '(err, used_feats) := le_used e in
  if c_true err then load_out 0 err s else
  if (lo_policy opt =? FEAT_DENY) && c_true (Z.land used_feats FEAT_ALLOW) then load_out 0 EXIT_FAILURE s else
  if (lo_policy opt =? FEAT_ALLOW) && c_true (Z.land used_feats FEAT_DENY) then load_out 0 EXIT_FAILURE s else
  let feats := Z.lor (lo_features opt) (lo_policy opt) in
  let '(err, p) := le_pinned e in
  if negb (c_true err) then
    let s := set_progs (p :: open_progs s) s in
    s ← xdp_program__close p s;
    load_out p err s
  else
  match (if le_strdup e then find_prog_file table feats else None) with
  | None => load_out 0 err s
  | Some filename =>
    '(err, p, s) ← retry MAX_ROUNDS 0 e filename s;
    load_out p err s
  end.

(** ** What loading does *)

Record load_env_ok (e : load_env) (s : load_state) : Prop := {
  leo_create i p : le_create e i = inr p -> p <> 0 /\ p ∉ open_progs s;
  leo_create_err i err : le_create e i = inl err -> err <> 0;
  leo_pinned p : le_pinned e = (0, p) -> p <> 0 /\ p ∉ open_progs s
}.

Lemma forget_new p l : p ∉ l -> forget p (p :: l) = l.
Proof.
  intros Hp. unfold forget. rewrite filter_cons_False by (intros H; by apply H). induction l as [| q l IH]; [done |].
  apply not_elem_of_cons in Hp as [Hq Hp]. rewrite filter_cons_True by congruence. by rewrite IH.
Qed.

(** A program that was just opened can be closed. *)
Lemma close_opened p s l : p <> 0 -> p ∉ l -> open_progs s = p :: l -> xdp_program__close p s = Some (set_progs l s).
Proof.
  intros Hp Hl E. unfold xdp_program__close. rewrite (proj2 (Z.eqb_neq _ _) Hp), E, bool_decide_true by (apply elem_of_cons; by left). by rewrite forget_new.
Qed.

Lemma double_step L i get set : 0 <= L ->
  match double_rlimit get set (u64 (L * 2 ^ Z.of_nat i)) with
  | (0, l) => (i < 64)%nat /\ l = u64 (L * 2 ^ Z.of_nat (S i))
  | _ => True
  end.
Proof.
  intros HL. unfold double_rlimit, set_rlimit. destruct (c_true get) eqn:Eg; [by destruct get |].
  destruct ((_ =? RLIM_INFINITY) || (_ =? 0)) eqn:E0; [done |]. cbn. destruct (c_true set) eqn:Es; [by destruct set |]. split.
  - apply orb_false_elim in E0 as [_ E0]. destruct (decide (i < 64)%nat) as [| Hi]; [done |]. exfalso. apply Z.eqb_neq in E0. apply E0.
    unfold u64. replace (Z.of_nat i) with (Z.of_nat (i - 64) + 64) by lia. rewrite Z.pow_add_r, Z.mul_assoc by lia. apply Z_mod_mult.
  - rewrite Z.shiftl_mul_pow2 by lia. unfold u64. rewrite Zmult_mod_idemp_l. f_equal. rewrite Nat2Z.inj_succ, Z.pow_succ_r by lia. change (2 ^ 1) with 2. lia.
Qed.

Lemma attach_keeps a p file s err s' : attach_xdp_program a p file s = (err, s') ->
  open_progs s' = open_progs s /\ lock_held s' = lock_held s /\ rlim s' = rlim s /\ tries s' = tries s /\ (err = 0 -> p <> 0 -> attached s' = file :: attached s).
Proof.
  unfold attach_xdp_program. intros E. destruct (Z.eqb_spec p 0) as [-> |]; [by injection E as <- <- |].
  destruct (c_true (make_dir_subdir a)) eqn:E1; [injection E as <- <-; split_and!; try done; intros H; by rewrite H in E1 |].
  destruct (c_true (at_path2 a)) eqn:E2; [injection E as <- <-; split_and!; try done; intros H; by rewrite H in E2 |].
  destruct (c_true (at_attach a)) eqn:E3; [injection E as <- <-; split_and!; try done; intros H; by rewrite H in E3 |].
  destruct (c_true (at_pin a)) eqn:E4; injection E as <- <-; [| done].
  destruct (at_detach a =? 0); (split_and!; try done; intros H; by rewrite H in E4).
Qed.

(** The rounds end, with the program open or none. *)
Lemma retry_total e file s0 L : load_env_ok e s0 -> 0 <= L -> forall fuel i s, open_progs s = open_progs s0 -> rlim s = u64 (L * 2 ^ Z.of_nat i) -> (i <= 64)%nat -> (65 - i <= fuel)%nat ->
  exists err p s', retry fuel i e file s = Some (err, p, s') /\ lock_held s' = lock_held s /\ (tries s' <= tries s + (65 - i))%nat /\
    (p = 0 /\ open_progs s' = open_progs s0 /\ err <> 0 \/ p <> 0 /\ p ∉ open_progs s0 /\ open_progs s' = p :: open_progs s0) /\
    (err = 0 -> exists l, attached s' = file :: l).
Proof.
  intros He HL. induction fuel as [| fuel IH]; intros i s Ho Hr Hi Hf; [lia |]. cbn [retry].
  pose proof (double_step L i (le_getrlimit e i) (le_setrlimit e i) HL) as Hd. rewrite <- Hr in Hd.
  destruct (le_create e i) as [err | p] eqn:Ec.
  - pose proof (leo_create_err _ _ He i err Ec) as Hne.
    destruct (err =? - EPERM); [| eexists err, 0, _; split_and!; [done | done | cbn; lia | by left | done]]. cbn [set_tries rlim].
    destruct (double_rlimit _ _ _) as [r l]. destruct (c_true r) eqn:Er; cbn [negb]; [eexists err, 0, _; split_and!; [done | done | cbn; lia | by left | done] |].
    destruct r; [| done..]. destruct Hd as [Hlt ->].
    destruct (IH (S i) (set_rlim (u64 (L * 2 ^ Z.of_nat (S i))) (set_tries (S (tries s)) s))) as (er & q & s' & E & H1 & H2 & H3); [done | done | lia | lia |].
    exists er, q, s'. cbn in H2. split_and!; [exact E | exact H1 | lia | apply H3..].
  - destruct (leo_create _ _ He i p Ec) as [Hp0 Hp]. destruct (attach_xdp_program _ _ _ _) as [err s1] eqn:Ea.
    apply attach_keeps in Ea as (E1 & E2 & E3 & Et & E4). cbn [set_progs set_tries open_progs lock_held rlim attached tries] in *. rewrite Ho in *.
    destruct (c_true err) eqn:Ee; cbn [negb]; cycle 1.
    { destruct err; [| done..]. exists 0, p, s1. split_and!; [done | done | lia | by right | intros _; eauto]. }
    destruct (err =? - EPERM); [| exists err, p, s1; split_and!; [done | done | lia | by right | intros ->; done]].
    rewrite E3. destruct (double_rlimit _ _ _) as [r l].
    destruct (c_true r) eqn:Er; cbn [negb]; [eexists err, p, _; split_and!; [done | done | cbn; lia | by right | intros ->; done] |].
    destruct r; [| done..]. destruct Hd as [Hlt ->]. rewrite (close_opened p (set_rlim _ s1) (open_progs s0) Hp0 Hp) by done. cbn [mbind option_bind].
    destruct (IH (S i) (set_progs (open_progs s0) (set_rlim (u64 (L * 2 ^ Z.of_nat (S i))) s1))) as (er & q & s' & -> & H1 & H2 & H3); [done | done | lia | lia |].
    exists er, q, s'. cbn in H1, H2. split_and!; [done | by rewrite H1, E2 | lia | apply H3..].
Qed.

(** The program that is chosen for features and a policy. *)
Definition suits (feats policy : Z) (f : filt_mode) : bool :=
  (Z.land (_features f) feats =? feats) && bool_decide (FILT_MODE_DENY f = (policy =? FEAT_DENY)).

Definition count_features (f : filt_mode) : nat :=
  length (filter (fun b => b = true) [FILT_MODE_ETHERNET f; FILT_MODE_IPV4 f; FILT_MODE_IPV6 f; FILT_MODE_UDP f; FILT_MODE_TCP f]).

Definition best_for (feats policy : Z) (file : list byte) : bool :=
  existsb (fun '(name, f) => bool_decide (file = str name ++ str ".o") && suits feats policy f &&
    forallb (fun '(_, g) => implb (suits feats policy g) (count_features f <=? count_features g)%nat) XDP_TARGETS) XDP_TARGETS.

Definition chosen_ok (feats policy : Z) : bool :=
  match find_prog_file prog_features (Z.lor feats policy) with Some file => best_for feats policy file | None => false end.

Lemma chosen_all : forallb (fun feats => chosen_ok (Z.of_nat feats) FEAT_DENY && chosen_ok (Z.of_nat feats) FEAT_ALLOW) (seq 0 32) = true.
Proof. vm_compute. reflexivity. Qed.

Lemma chosen_best feats policy : 0 <= feats <= FEAT_ALL -> policy = FEAT_DENY \/ policy = FEAT_ALLOW ->
  exists file, find_prog_file prog_features (Z.lor feats policy) = Some file /\ best_for feats policy file = true.
Proof.
  intros Hf Hp. pose proof chosen_all as H. rewrite forallb_forall in H. specialize (H (Z.to_nat feats)).
  rewrite Z2Nat.id in H by lia. assert (List.In (Z.to_nat feats) (seq 0 32)) as Hin by (apply in_seq; unfold FEAT_ALL in Hf; lia).
  apply H, andb_prop in Hin as [Hd Ha]. clear H. unfold chosen_ok in *. destruct Hp as [-> | ->]; [clear Ha; rename Hd into H | clear Hd; rename Ha into H].
  all: match type of H with match ?x with _ => _ end = _ => destruct x as [file |] end; [by exists file | done].
Qed.

(** The request is refused before the search for a pinned program. *)
Definition refused_early (opt : loadopt) (e : load_env) : Prop :=
  lo_mode opt = XDP_MODE_HW \/ le_lock e < 0 \/ fst (le_used e) <> 0 \/
  lo_policy opt = FEAT_DENY /\ c_true (Z.land (snd (le_used e)) FEAT_ALLOW) = true \/
  lo_policy opt = FEAT_ALLOW /\ c_true (Z.land (snd (le_used e)) FEAT_DENY) = true.

Lemma refused_load opt e s : refused_early opt e -> lock_held s = false -> exists err, err <> 0 /\ do_load prog_features opt e s = Some (err, s).
Proof.
  intros Hr Hl. unfold do_load. assert (set_lock false (set_lock true s) = s) as Es by (destruct s; cbn in *; by subst).
  destruct (Z.eqb_spec (lo_mode opt) XDP_MODE_HW); [by exists EXIT_FAILURE |]. destruct (Z.ltb_spec (le_lock e) 0); [exists (le_lock e); split; [lia | done] |].
  unfold refused_early in Hr. destruct (le_used e) as [err used]. cbn [fst snd] in Hr. unfold load_out. cbn [xdp_program__close Z.eqb mbind option_bind]. rewrite Es.
  destruct (c_true err) eqn:Ee; [exists err; split; [by intros -> | done] |]. assert (err = 0) as -> by (destruct err; done).
  destruct Hr as [| [| [| [[-> ->] | [-> ->]]]]]; [done | lia | done | by exists EXIT_FAILURE |]. cbn [Z.eqb FEAT_ALLOW FEAT_DENY andb]. by exists EXIT_FAILURE.
Qed.

Lemma refused_dec opt e : lo_policy opt = FEAT_DENY \/ lo_policy opt = FEAT_ALLOW -> refused_early opt e \/
  lo_mode opt <> XDP_MODE_HW /\ 0 <= le_lock e /\ exists used, le_used e = (0, used) /\
    (lo_policy opt =? FEAT_DENY) && c_true (Z.land used FEAT_ALLOW) = false /\ (lo_policy opt =? FEAT_ALLOW) && c_true (Z.land used FEAT_DENY) = false.
Proof.
  intros Hp. unfold refused_early. destruct (le_used e) as [er u]. cbn [fst snd].
  destruct (decide (lo_mode opt = XDP_MODE_HW)); [tauto |]. destruct (decide (le_lock e < 0)); [tauto |]. destruct (decide (er = 0)) as [-> |]; [| tauto].
  destruct Hp as [-> | ->]; [destruct (c_true (Z.land u FEAT_ALLOW)) eqn:E | destruct (c_true (Z.land u FEAT_DENY)) eqn:E]; try tauto.
  all: right; split_and!; [done | lia | exists u; split_and!; by rewrite ?E].
Qed.

(** From the choice of the program on. *)
Lemma load_chosen opt e s err : load_env_ok e s -> 0 <= rlim s < 2 ^ 64 -> err <> 0 ->
  0 <= lo_features opt <= FEAT_ALL -> lo_policy opt = FEAT_DENY \/ lo_policy opt = FEAT_ALLOW ->
  exists err' s', match (if le_strdup e then find_prog_file prog_features (Z.lor (lo_features opt) (lo_policy opt)) else None) with
    | None => load_out 0 err (set_lock true s)
    | Some filename => '(err, p, s) ← retry MAX_ROUNDS 0 e filename (set_lock true s); load_out p err s
    end = Some (err', s') /\ (tries s' <= tries s + 65)%nat /\ open_progs s' = open_progs s /\ lock_held s' = false /\
    (err' = 0 -> exists file l, attached s' = file :: l /\ best_for (lo_features opt) (lo_policy opt) file = true).
Proof.
  intros He Hr Herr Hf Hp. destruct (chosen_best _ _ Hf Hp) as (file & -> & Hb). destruct (le_strdup e); [| eexists _, _; split_and!; [done | cbn; lia | done..]].
  destruct (retry_total e file s (rlim s) He ltac:(lia) MAX_ROUNDS 0 (set_lock true s)) as (er & p & s1 & -> & Hl & Ht & Ho & Ha);
    [done | cbn [set_lock rlim]; change (Z.of_nat 0) with 0; rewrite u64_id by lia; lia | lia | unfold MAX_ROUNDS; lia |].
  cbn [mbind option_bind]. unfold load_out. destruct Ho as [(-> & Ho & Hne) | (Hp0 & Hpn & Ho)].
  - eexists _, _. split_and!; [done | cbn in *; lia | done..].
  - rewrite (close_opened p s1 (open_progs s) Hp0 Hpn Ho). cbn [mbind option_bind]. eexists _, _. split_and!; [done | cbn in *; lia | done | done |].
    intros ->. destruct (Ha eq_refl) as [l El]. by exists file, l.
Qed.

(** C18: loading the filter.  For features among the known ones, the policy
    deny or allow, and the lock not held, unless the search for a pinned program
    finds that the filter is loaded already, [do_load] returns, for any answers of the
    system: it creates a program at most 65 times, although it retries as long
    as it can raise the limit on locked memory.  It has then closed every
    program it opened exactly once and released the lock; and when it
    reports success it has attached the smallest of the programs with the
    features and the policy that were asked for.  A program that is created is
    relied on to be a new one, and an error not to be 0. *)
Theorem do_load_spec opt e s : load_env_ok e s -> 0 <= rlim s < 2 ^ 64 -> lock_held s = false ->
  0 <= lo_features opt <= FEAT_ALL -> lo_policy opt = FEAT_DENY \/ lo_policy opt = FEAT_ALLOW -> fst (le_pinned e) <> 0 \/ refused_early opt e ->
  exists err s', do_load prog_features opt e s = Some (err, s') /\ (tries s' <= tries s + 65)%nat /\ open_progs s' = open_progs s /\ lock_held s' = false /\
    (err = 0 -> exists file l, attached s' = file :: l /\ best_for (lo_features opt) (lo_policy opt) file = true).
Proof.
  intros He Hr Hl Hf Hp Hnew. destruct (refused_dec opt e Hp) as [Href | (Hm & Hk & used & Eu & E1 & E2)].
  { destruct (refused_load opt e s Href Hl) as (err & Herr & ->). exists err, s. split_and!; [done | lia | done..]. }
  assert (fst (le_pinned e) <> 0) as Hpin.
  { destruct Hnew as [| [| [| [Hu | [[E H] | [E H]]]]]]; try done; [lia | by rewrite Eu in Hu | |]; rewrite Eu in H; cbn in H; [rewrite E, H in E1 | rewrite E, H in E2]; done. }
  unfold do_load. rewrite (proj2 (Z.eqb_neq _ _) Hm), (proj2 (Z.ltb_ge _ _) Hk), Eu. cbn [c_true Z.eqb negb]. rewrite E1, E2.
  destruct (le_pinned e) as [err p]. cbn [fst] in Hpin. replace (c_true err) with true by (symmetry; unfold c_true; apply negb_true_iff, Z.eqb_neq; lia). cbn [negb].
  by apply load_chosen.
Qed.

(** A filter that is loaded already: the program is closed twice. *)
Lemma load_again_closes_twice opt e s p used : load_env_ok e s -> lo_mode opt <> XDP_MODE_HW -> 0 <= le_lock e -> le_used e = (0, used) -> le_pinned e = (0, p) ->
  (lo_policy opt =? FEAT_DENY) && c_true (Z.land used FEAT_ALLOW) = false -> (lo_policy opt =? FEAT_ALLOW) && c_true (Z.land used FEAT_DENY) = false ->
  do_load prog_features opt e s = None.
Proof.
  intros He Hm Hk Eu Ep E1 E2. unfold do_load. rewrite (proj2 (Z.eqb_neq _ _) Hm), (proj2 (Z.ltb_ge _ _) Hk), Eu. cbn [c_true Z.eqb negb]. rewrite E1, E2, Ep. cbn [c_true Z.eqb negb].
  destruct (leo_pinned _ _ He p Ep) as [Hp0 Hp]. cbn [set_lock open_progs]. rewrite (close_opened p _ (open_progs s) Hp0 Hp) by done. cbn [mbind option_bind].
  unfold load_out, xdp_program__close. cbn [set_progs open_progs]. by rewrite (proj2 (Z.eqb_neq _ _) Hp0), bool_decide_false.
Qed.

Definition sample_attach (err : Z) : attach_env :=
  {| at_mkdir1 := - EEXIST; at_mkdir2 := 0; at_path1 := 0; at_path2 := 0; at_attach := err; at_pin := 0; at_detach := 0 |}.

(** The first program cannot be created, the second not attached, until the limit
    is high enough. *)
Definition sample_load : load_env :=
  {| le_lock := 3; le_used := (0, 0); le_pinned := (- ENOENT, 0); le_strdup := true;
     le_create i := match i with O => inl (- EPERM) | _ => inr (100 + Z.of_nat i) end;
     le_attach i := sample_attach (match i with 1%nat => - EPERM | _ => 0 end);
     le_getrlimit _ := 0; le_setrlimit _ := 0 |}.

Definition fresh_load : load_state := {| open_progs := []; lock_held := false; rlim := 65536; attached := []; tries := 0 |}.
Definition load_tcp : loadopt := {| lo_features := FEAT_TCP; lo_mode := 1; lo_policy := FEAT_DENY |}.

Lemma sample_load_runs : do_load prog_features load_tcp sample_load fresh_load =
  Some (0, {| open_progs := []; lock_held := false; rlim := 262144; attached := [str "xdpfilt_dny_tcp.o"]; tries := 3 |}).
Proof. vm_compute. reflexivity. Qed.

Lemma sample_load_ok : load_env_ok sample_load fresh_load.
Proof. split; [intros [| i] p [=]; cbn; split; [lia | set_solver] | intros [| i] err [=]; subst; done | done]. Qed.

Lemma do_load_spec_witness : exists err s', do_load prog_features load_tcp sample_load fresh_load = Some (err, s') /\ (tries s' <= 65)%nat /\ open_progs s' = open_progs fresh_load /\ lock_held s' = false /\
  (err = 0 -> exists file l, attached s' = file :: l /\ best_for FEAT_TCP FEAT_DENY file = true).
Proof.
  apply (do_load_spec load_tcp sample_load fresh_load sample_load_ok); [cbn; lia | done | unfold FEAT_ALL; cbn; unfold FEAT_TCP; lia | by left | by left].
Defined.

(** The name of a program, as the kernel reports it, tells its features. *)
Lemma find_features_names : Forall (fun '(name, f) => find_features prog_features (str name) = _features f) XDP_TARGETS.
Proof. unfold XDP_TARGETS. repeat (apply Forall_cons; split); try apply Forall_nil_2; vm_compute; reflexivity. Qed.

(** ** Removing maps that no program uses *)

Definition MAP_NAME_PORTS : list byte := str "filter_ports".
Definition MAP_NAME_IPV4 : list byte := str "filter_ipv4".
Definition MAP_NAME_IPV6 : list byte := str "filter_ipv6".
Definition MAP_NAME_ETHERNET : list byte := str "filter_ethernet".
Definition XDP_STATS_MAP_NAME : list byte := str "xdp_stats_map".

(** The pin directory: its maps, whether the directory of the programs and
    it itself are there; and the open descriptors. *)
Record pin_dir := { pd_maps : list (list byte); pd_programs : bool; pd_root : bool; pd_fds : Z }.

Definition set_maps (l : list (list byte)) (d : pin_dir) : pin_dir := {| pd_maps := l; pd_programs := pd_programs d; pd_root := pd_root d; pd_fds := pd_fds d |}.
Definition set_fds (n : Z) (d : pin_dir) : pin_dir := {| pd_maps := pd_maps d; pd_programs := pd_programs d; pd_root := pd_root d; pd_fds := n |}.

(** The answers of open, fstatat (when it is not the answer that there is no
    such file) and unlinkat for each map, snprintf, and rmdir. *)
Record remove_env := { re_open : Z; re_stat : list byte -> Z; re_unlink : list byte -> Z; re_path : Z; re_rmdir1 : Z; re_rmdir2 : Z }.

Definition unlink_pinned_map (e : remove_env) (map_name : list byte) (d : pin_dir) : Z * pin_dir :=
  if c_true (re_stat e map_name) then (re_stat e map_name, d) else
  if bool_decide (map_name ∉ pd_maps d) then (0, d) else
  if c_true (re_unlink e map_name) then (re_unlink e map_name, d) else
  (0, set_maps (filter (fun n => n <> map_name) (pd_maps d)) d).

Definition close_dir (d : pin_dir) : pin_dir := set_fds (pd_fds d - 1) d.

(** [next] follows when the map is kept or removed. *)
Definition unlink_unless (keep : bool) (e : remove_env) (map_name : list byte) (d : pin_dir) (next : pin_dir -> Z * pin_dir) : Z * pin_dir :=
  if keep then next d else
  let '(err, d) := unlink_pinned_map e map_name d in
  if c_true err then (err, close_dir d) else next d.

Definition remove_unused_maps (e : remove_env) (feats : Z) (d : pin_dir) : Z * pin_dir :=
  if re_open e <? 0 then (if re_open e =? - ENOENT then (0, d) else (re_open e, d)) else
  let d := set_fds (pd_fds d + 1) d in
  unlink_unless (c_true (Z.land feats (Z.lor FEAT_TCP FEAT_UDP))) e MAP_NAME_PORTS d (fun d =>
  unlink_unless (c_true (Z.land feats FEAT_IPV4)) e MAP_NAME_IPV4 d (fun d =>
  unlink_unless (c_true (Z.land feats FEAT_IPV6)) e MAP_NAME_IPV6 d (fun d =>
  unlink_unless (c_true (Z.land feats FEAT_ETHERNET)) e MAP_NAME_ETHERNET d (fun d =>
  if c_true feats then (0, close_dir d) else
  let '(err, d) := unlink_pinned_map e XDP_STATS_MAP_NAME d in
  if c_true err then (err, close_dir d) else
  let d := close_dir d in
  if c_true (re_path e) then (re_path e, d) else
  if c_true (re_rmdir1 e) then (re_rmdir1 e, d) else
  let d := {| pd_maps := pd_maps d; pd_programs := false; pd_root := pd_root d; pd_fds := pd_fds d |} in
  if c_true (re_rmdir2 e) then (re_rmdir2 e, d) else
  (0, {| pd_maps := pd_maps d; pd_programs := false; pd_root := false; pd_fds := pd_fds d |}))))).

(** The maps that programs with these features use. *)
Definition used_by (feats : Z) (name : list byte) : bool :=
  if bool_decide (name = MAP_NAME_PORTS) then c_true (Z.land feats (Z.lor FEAT_TCP FEAT_UDP))
  else if bool_decide (name = MAP_NAME_IPV4) then c_true (Z.land feats FEAT_IPV4)
  else if bool_decide (name = MAP_NAME_IPV6) then c_true (Z.land feats FEAT_IPV6)
  else if bool_decide (name = MAP_NAME_ETHERNET) then c_true (Z.land feats FEAT_ETHERNET)
  else if bool_decide (name = XDP_STATS_MAP_NAME) then c_true feats
  else true.

(** The names in [removed] are gone, nothing else has changed. *)
Record purged (d0 : pin_dir) (feats : Z) (removed : list (list byte)) (d : pin_dir) : Prop := {
  pg_fds : pd_fds d = pd_fds d0 + 1;
  pg_unused : Forall (fun n => used_by feats n = false) removed;
  pg_maps n : n ∈ pd_maps d <-> n ∈ pd_maps d0 /\ n ∉ removed
}.

Lemma unlink_purged e d0 feats removed d name : purged d0 feats removed d -> used_by feats name = false ->
  exists err d', unlink_pinned_map e name d = (err, d') /\ (err <> 0 -> purged d0 feats removed d') /\ (err = 0 -> purged d0 feats (name :: removed) d').
Proof.
  intros [H1 H2 H3] Hu. unfold unlink_pinned_map. destruct (c_true (re_stat e name)) eqn:Es; [exists (re_stat e name), d; split_and!; [done | done | intros E; by rewrite E in Es] |].
  destruct (bool_decide (name ∉ pd_maps d)) eqn:Eb.
  { apply bool_decide_eq_true in Eb. exists 0, d. split_and!; [done | done | intros _]. split; [done | by constructor |]. intros n. rewrite not_elem_of_cons, H3.
    rewrite H3 in Eb. split; [| tauto]. intros [Hn Hr]. split_and!; [done | intros -> | done]. by apply Eb. }
  destruct (c_true (re_unlink e name)) eqn:Ee; [exists (re_unlink e name), d; split_and!; [done | done | intros E; by rewrite E in Ee] |].
  eexists 0, _. split_and!; [done | done | intros _]. split; [done | by constructor |]. intros n. cbn [set_maps pd_maps]. rewrite list_elem_of_filter, H3, not_elem_of_cons. tauto.
Qed.

Lemma unlink_unless_purged e d0 feats removed d name keep next (Q : Z * pin_dir -> Prop) : purged d0 feats removed d -> used_by feats name = keep ->
  (forall err d', err <> 0 -> purged d0 feats removed d' -> Q (err, close_dir d')) ->
  (forall d', purged d0 feats (if keep then removed else name :: removed) d' -> Q (next d')) ->
  Q (unlink_unless keep e name d next).
Proof.
  intros Hp Hk Hbad Hok. unfold unlink_unless. destruct keep; [by apply Hok |].
  destruct (unlink_purged e d0 feats removed d name Hp Hk) as (err & d' & -> & H1 & H2). destruct (c_true err) eqn:E.
  - apply Hbad; [intros ->; done | apply H1; intros ->; done].
  - apply Hok, H2. by destruct err.
Qed.

(** The result of removing the maps that are not used. *)
Record removal (feats : Z) (d : pin_dir) (err : Z) (d' : pin_dir) : Prop := {
  rv_fds : pd_fds d' = pd_fds d;
  rv_kept n : n ∈ pd_maps d -> used_by feats n = true -> n ∈ pd_maps d';
  rv_only n : n ∈ pd_maps d' -> n ∈ pd_maps d;
  rv_all n : err = 0 -> n ∈ pd_maps d' -> used_by feats n = true;
  rv_dir : err = 0 -> feats = 0 -> pd_root d' = false
}.

Lemma purged_removal feats d removed d1 d' err : purged d feats removed d1 -> pd_maps d' = pd_maps d1 -> pd_fds d' = pd_fds d1 - 1 ->
  (err = 0 -> forall n, n ∉ removed -> used_by feats n = true) -> (err = 0 -> feats = 0 -> pd_root d' = false) -> removal feats d err d'.
Proof.
  intros [H1 H2 H3] Hm Hf Hall Hdir. split; [lia | | | | done]; intros n; rewrite Hm, H3; [| tauto |].
  - intros Hn Hu. split; [done |]. intros Hr. rewrite Forall_forall in H2. rewrite (H2 n Hr) in Hu. done.
  - intros E [_ Hn]. by apply Hall.
Qed.

Definition removed_for (feats : Z) : list (list byte) :=
  let unless (keep : bool) name l := if keep then l else name :: l in
  unless (c_true (Z.land feats FEAT_ETHERNET)) MAP_NAME_ETHERNET (unless (c_true (Z.land feats FEAT_IPV6)) MAP_NAME_IPV6
    (unless (c_true (Z.land feats FEAT_IPV4)) MAP_NAME_IPV4 (unless (c_true (Z.land feats (Z.lor FEAT_TCP FEAT_UDP))) MAP_NAME_PORTS []))).

Lemma removed_for_spec feats n : n ∉ removed_for feats -> n <> XDP_STATS_MAP_NAME \/ c_true feats = true -> used_by feats n = true.
Proof.
  unfold removed_for, used_by. intros Hn Hs.
  destruct (c_true (Z.land feats (Z.lor FEAT_TCP FEAT_UDP))), (c_true (Z.land feats FEAT_IPV4)), (c_true (Z.land feats FEAT_IPV6)), (c_true (Z.land feats FEAT_ETHERNET));
    rewrite ?not_elem_of_cons in Hn; repeat (case_bool_decide; try tauto); destruct Hs; done.
Qed.

(** Removing the maps of features that no program has any more.  Whatever
    fails on the way, no map that a program uses is removed and no descriptor
    is left open; and on success exactly the maps in use remain, and
    without any program the directory is gone. *)
Theorem remove_unused_maps_spec e feats d err d' : 0 <= re_open e -> remove_unused_maps e feats d = (err, d') -> removal feats d err d'.
Proof.
  intros Ho. unfold remove_unused_maps. rewrite (proj2 (Z.ltb_ge _ _) Ho). intros E.
  enough ((fun r => removal feats d (fst r) (snd r)) (err, d')) as H by exact H. rewrite <- E. clear E err d'.
  assert (forall removed err d', err <> 0 -> purged d feats removed d' -> removal feats d err (close_dir d')) as Hbad
    by (intros removed err d' He Hp; by apply (purged_removal _ _ _ _ _ _ Hp)).
  assert (purged d feats [] (set_fds (pd_fds d + 1) d)) as H0 by (split; [done | done |]; intros n; cbn; split; [intros; split; [done | apply not_elem_of_nil] | tauto]).
  eapply unlink_unless_purged; [exact H0 | done | intros; by eapply Hbad |]. clear H0; intros d1 H1.
  eapply unlink_unless_purged; [exact H1 | done | intros; by eapply Hbad |]. clear H1; intros d2 H2.
  eapply unlink_unless_purged; [exact H2 | done | intros; by eapply Hbad |]. clear H2; intros d3 H3.
  eapply unlink_unless_purged; [exact H3 | done | intros; by eapply Hbad |]. clear H3; intros d4 H4.
  change (purged d feats (removed_for feats) d4) in H4. destruct (c_true feats) eqn:Ef.
  - apply (purged_removal _ _ _ _ _ _ H4); [done | done | intros _ n Hn; apply removed_for_spec; [done | by right] | by intros _ ->].
  - assert (used_by feats XDP_STATS_MAP_NAME = false) as Hu by exact Ef.
    destruct (unlink_purged e d feats _ d4 _ H4 Hu) as (err & d5 & -> & H5 & H6). destruct (c_true err) eqn:Ee; [apply (Hbad (removed_for feats) err d5); [intros ->; done | apply H5; intros ->; done] |].
    assert (err = 0) as -> by (by destruct err). specialize (H6 eq_refl).
    assert (forall n, n ∉ XDP_STATS_MAP_NAME :: removed_for feats -> used_by feats n = true) as Hall
      by (intros n Hn; apply not_elem_of_cons in Hn as [Hn Hr]; apply removed_for_spec; [done | by left]).
    destruct (c_true (re_path e)) eqn:E1; [apply (Hbad _ (re_path e) d5 ltac:(intros H; by rewrite H in E1) H6) |].
    destruct (c_true (re_rmdir1 e)) eqn:E2; [apply (Hbad _ (re_rmdir1 e) d5 ltac:(intros H; by rewrite H in E2) H6) |].
    destruct (c_true (re_rmdir2 e)) eqn:E3; apply (purged_removal _ _ _ _ _ _ H6); try done; cbn [fst]; intros H; by rewrite H in E3.
Qed.

Definition sample_remove : remove_env := {| re_open := 5; re_stat _ := 0; re_unlink _ := 0; re_path := 0; re_rmdir1 := 0; re_rmdir2 := 0 |}.
Definition full_dir : pin_dir := {| pd_maps := [MAP_NAME_PORTS; MAP_NAME_IPV4; XDP_STATS_MAP_NAME]; pd_programs := true; pd_root := true; pd_fds := 0 |}.

Lemma remove_unused_maps_spec_witness : removal FEAT_IPV4 full_dir 0 (set_maps [MAP_NAME_IPV4; XDP_STATS_MAP_NAME] full_dir).
Proof. apply (remove_unused_maps_spec sample_remove FEAT_IPV4 full_dir); [cbn; lia | vm_compute; reflexivity]. Defined.

(** ** The lock

    The commands of all processes exclude each other by a lock on the pin
    directory.  A step is one system call of one process. *)

(** Where a process is in [prog_lock_acquire] and [prog_lock_release]: it has
    no descriptor, one of the directory with the number [i], or the lock on it. *)
Inductive lock_pc := Unlocked | Opened (i : nat) | Locked (i : nat).

(** The directory at the path, the next number, who has the lock on a
    directory, and the processes. *)
Record lock_state := { ls_dir : option nat; ls_next : nat; ls_owner : nat -> option nat; ls_pc : nat -> lock_pc }.

Inductive lock_call := COpen | CMkdir | CFlock | CFlockFails | CUnlock | CRmdir.

Definition move (p : nat) (pc : lock_pc) (s : lock_state) : lock_state :=
  {| ls_dir := ls_dir s; ls_next := ls_next s; ls_owner := ls_owner s; ls_pc := <[p := pc]> (ls_pc s) |}.
Definition own (i : nat) (o : option nat) (s : lock_state) : lock_state :=
  {| ls_dir := ls_dir s; ls_next := ls_next s; ls_owner := <[i := o]> (ls_owner s); ls_pc := ls_pc s |}.
Definition put_dir (d : option nat) (next : nat) (s : lock_state) : lock_state :=
  {| ls_dir := d; ls_next := next; ls_owner := ls_owner s; ls_pc := ls_pc s |}.

(** flock waits while another has the lock: the call is not possible then.
    [CRmdir] is the removal of the directory by [remove_unused_maps], which
    runs with the lock held. *)
Definition lock_step (p : nat) (c : lock_call) (s : lock_state) : option lock_state :=
  match c, ls_pc s p with
  | COpen, Unlocked => match ls_dir s with Some i => Some (move p (Opened i) s) | None => None end
  | CMkdir, Unlocked => match ls_dir s with Some _ => None | None => Some (put_dir (Some (ls_next s)) (S (ls_next s)) s) end
  | CFlock, Opened i => match ls_owner s i with Some _ => None | None => Some (own i (Some p) (move p (Locked i) s)) end
  | CFlockFails, Opened i => Some (move p Unlocked s)
  | CUnlock, Locked i => Some (own i None (move p Unlocked s))
  | CRmdir, Locked _ => match ls_dir s with Some _ => Some (put_dir None (ls_next s) s) | None => None end
  | _, _ => None
  end.

Fixpoint lock_run (tr : list (nat * lock_call)) (s : lock_state) : option lock_state :=
  match tr with [] => Some s | (p, c) :: tr => s ← lock_step p c s; lock_run tr s end.

Definition lock_start : lock_state := {| ls_dir := None; ls_next := 0; ls_owner := fun _ => None; ls_pc := fun _ => Unlocked |}.

Definition holds (p : nat) (s : lock_state) : Prop := exists i, ls_pc s p = Locked i.

(** A lock belongs to the process that has it; without removals all
    processes have the same directory. *)
Record lock_inv (s : lock_state) : Prop := {
  li_owner p i : ls_pc s p = Locked i -> ls_owner s i = Some p;
  li_same p i : ls_pc s p = Opened i \/ ls_pc s p = Locked i -> ls_dir s = Some i
}.

Lemma lock_step_inv p c s s' : lock_inv s -> c <> CRmdir -> lock_step p c s = Some s' -> lock_inv s'.
Proof.
  intros [H1 H2] Hc E. unfold lock_step in E. destruct c, (ls_pc s p) as [| i | i] eqn:Ep; try done.
  - destruct (ls_dir s) as [i |] eqn:Ed; [| done]. injection E as <-. split; cbn; intros q j.
    + destruct (decide (p = q)) as [<- | Hne]; [by rewrite fn_lookup_insert | rewrite fn_lookup_insert_ne by done; apply H1].
    + destruct (decide (p = q)) as [<- | Hne]; [rewrite fn_lookup_insert; intros [[= <-] | ?]; done | rewrite fn_lookup_insert_ne by done; rewrite Ed; by apply H2].
  - destruct (ls_dir s) as [i |] eqn:Ed; [done |]. injection E as <-. split; cbn; intros q j; [apply H1 |]. intros Hq. specialize (H2 q j Hq). congruence.
  - destruct (ls_owner s i) eqn:Eo; [done |]. injection E as <-. split; cbn; intros q j.
    + destruct (decide (p = q)) as [<- | Hne]; [rewrite fn_lookup_insert; intros [= <-]; by rewrite fn_lookup_insert |]. rewrite fn_lookup_insert_ne by done. intros Hq.
      pose proof (H1 q j Hq). rewrite fn_lookup_insert_ne; [done |]. intros <-. congruence.
    + destruct (decide (p = q)) as [<- | Hne]; [rewrite fn_lookup_insert; intros [? | [= <-]]; [done |]; apply (H2 p); auto |]. rewrite fn_lookup_insert_ne by done. by apply H2.
  - injection E as <-. split; cbn; intros q j; (destruct (decide (p = q)) as [<- | Hne]; [rewrite fn_lookup_insert; naive_solver | rewrite fn_lookup_insert_ne by done; by apply H1 || apply H2]).
  - injection E as <-. split; cbn; intros q j; (destruct (decide (p = q)) as [<- | Hne]; [rewrite fn_lookup_insert; naive_solver | rewrite fn_lookup_insert_ne by done]); [| by apply H2].
    intros Hq. pose proof (H1 q j Hq). pose proof (H1 p i Ep). rewrite fn_lookup_insert_ne; [done |]. intros <-. congruence.
Qed.

(** The lock excludes: as long as nobody removes the directory, at most one
    process has the lock, whatever the order of the calls. *)
Theorem lock_excludes tr s p q : lock_run tr lock_start = Some s -> Forall (fun x => snd x <> CRmdir) tr -> holds p s -> holds q s -> p = q.
Proof.
  intros Hrun Htr [i Hi] [j Hj]. assert (lock_inv s) as [H1 H2].
  { assert (lock_inv lock_start) as H0 by (split; cbn; [done | naive_solver]). revert Hrun H0. generalize lock_start. clear -Htr.
    induction Htr as [| [r c] tr Hc Htr IH]; cbn; intros s0 Hrun H0; [by injection Hrun as <- |]. apply bind_Some in Hrun as (s1 & E & Hrun).
    eapply IH; [exact Hrun | by eapply lock_step_inv]. }
  pose proof (H2 p i (or_intror Hi)). pose proof (H2 q j (or_intror Hj)). pose proof (H1 p i Hi). pose proof (H1 q j Hj). congruence.
Qed.

(** But unloading the last program removes the directory: a process that waits
    for the lock then gets it on the removed directory, while a third one
    creates the directory again and locks that. *)
Lemma lock_lost_by_removal : exists tr s, lock_run tr lock_start = Some s /\ holds 1 s /\ holds 2 s.
Proof.
  exists [(0, CMkdir); (0, COpen); (0, CFlock); (1, COpen); (0, CRmdir); (0, CUnlock); (1, CFlock); (2, CMkdir); (2, COpen); (2, CFlock)]%nat.
  eexists. split; [reflexivity |]. split; [by exists 0%nat | by exists 1%nat].
Qed.
