(* ===== verification/XdpFilterPin.v ===== *)
(** The packet filter of xdp-tools, unloading: [do_unload] of
    src/lib/xdp-tools/xdp-filter/xdp-filter.c with the functions of
    src/lib/xdp-tools/lib/util/util.c that go through the pinned programs.

    Every interface has a directory with the pins of its programs.  Programs
    disappear when others detach them, and interfaces when they are removed: what is
    pinned may be stale, and is cleaned up on the way. *)
From stdpp Require Import functions.
From S2P Require Import Prelude.
From S2P Require Import CLib.
From S2P Require Import XdpFilter.
From S2P Require Import XdpFilterLoad.

Definition EFAULT : Z := 14.
Definition ENODEV : Z := 19.

(** ** State *)

(** A pin: the name of its file and the program. *)
Record pin := { pin_name : list byte; pin_prog : Z }.

(** The directories of the interfaces in the order of readdir, the program
    and the mode on each interface (by index), and the maps. *)
Record system := { sy_dirs : list (list byte * list pin); sy_on : Z -> option (Z * Z); sy_maps : pin_dir }.

Definition set_dirs (l : list (list byte * list pin)) (s : system) : system := {| sy_dirs := l; sy_on := sy_on s; sy_maps := sy_maps s |}.
Definition set_on (f : Z -> option (Z * Z)) (s : system) : system := {| sy_dirs := sy_dirs s; sy_on := f; sy_maps := sy_maps s |}.
Definition set_sys_maps (d : pin_dir) (s : system) : system := {| sy_dirs := sy_dirs s; sy_on := sy_on s; sy_maps := d |}.

Definition dir_of (n : list byte) (s : system) : option (list pin) := snd <$> find (fun d => bool_decide (fst d = n)) (sy_dirs s).
Definition put_dir_of (n : list byte) (l : list pin) (s : system) : system :=
  set_dirs (map (fun d => if bool_decide (fst d = n) then (n, l) else d) (sy_dirs s)) s.
Definition del_dir_of (n : list byte) (s : system) : system := set_dirs (filter (fun d => fst d <> n) (sy_dirs s)) s.

(** The answers of the system.  [pe_unlink] and [pe_rmdir] are 0 or an error
    number (a directory that is not empty is never removed), the others 0 or minus
    an error number; [pe_opendir] tells whether the directory of all programs can be opened,
    [pe_name] is the name of a program in the kernel. *)
Record pin_env := {
  pe_lock : Z;
  pe_index : list byte -> Z;
  pe_name : Z -> list byte;
  pe_path : list byte -> Z;
  pe_opendir : bool;
  pe_opendir_if : list byte -> Z;
  pe_create : pin -> Z;
  pe_unlink : pin -> Z;
  pe_rmdir : list byte -> Z;
  pe_detach : Z -> Z;
  pe_remove : remove_env
}.

Section Pins.
Context (e : pin_env).

(** ** Pinned programs *)

(** The loop over the pins of an interface: [ret], the program with its mode,
    and the pins that are left. *)
Fixpoint pinned_loop (ifname : list byte) (ifindex : Z) (on : option (Z * Z)) (remove_all : bool) (ret : Z) (pins : list pin) : Z * option (Z * Z) * list pin :=
  match pins with
  | [] => (ret, None, [])
  | p :: rest =>
    if c_true (pe_path e ifname) then (ret, None, p :: rest) else
    let unlink_then ret :=
      if c_true (pe_unlink e p) then let '(r, found, l) := pinned_loop ifname ifindex on remove_all (-1) rest in (r, found, p :: l)
      else pinned_loop ifname ifindex on remove_all ret rest in
    if remove_all then unlink_then ret else
    let err := pe_create e p in
    match (if c_true err then None else '(id, m) ← on; if id =? pin_prog p then Some m else None) with
    | None => unlink_then (if c_true err then err else - ENOENT)
    | Some m =>
      if negb (bool_decide (pe_name e (pin_prog p) = pin_name p)) then (- EFAULT, None, p :: rest)
      else (0, Some (pin_prog p, m), p :: rest)
    end
  end.

Definition get_pinned_program (ifname : list byte) (ifindex : Z) (s : system) : Z * option (Z * Z) * system :=
  if c_true (pe_path e ifname) then (pe_path e ifname, None, s) else
  if c_true (pe_opendir_if e ifname) then (pe_opendir_if e ifname, None, s) else
  match dir_of ifname s with
  | None => (- ENOENT, None, s)
  | Some pins =>
    let index := if ifindex =? 0 then pe_index e ifname else ifindex in
    let remove_all := index =? 0 in
    let '(ret, found, l) := pinned_loop ifname ifindex (sy_on s ifindex) remove_all (if remove_all then - ENODEV else - ENOENT) pins in
    (ret, found, put_dir_of ifname l s)
  end.

(** rmdir of the directory of an interface: 0 or an error number. *)
Definition rmdir_if (ifname : list byte) (s : system) : Z * system :=
  if c_true (pe_rmdir e ifname) then (pe_rmdir e ifname, s) else
  match dir_of ifname s with
  | None => (ENOENT, s)
  | Some [] => (0, del_dir_of ifname s)
  | Some _ => (ENOTEMPTY, s)
  end.

(** A callback gets the interface and the program, and passes [arg] on. *)
Definition program_callback (A : Type) : Type := list byte -> Z -> Z * Z -> A -> system -> Z * A * system.

Fixpoint iterate_loop {A} (cb : program_callback A) (names : list (list byte)) (arg : A) (s : system) : Z * A * system :=
  match names with
  | [] => (0, arg, s)
  | n :: names =>
    if c_true (pe_path e n) then (pe_path e n, arg, s) else
    let ifindex := pe_index e n in
    let '(err, found, s) := get_pinned_program n ifindex s in
    if (err =? - ENOENT) || (err =? - ENODEV) then
      let '(r, s) := rmdir_if n s in
      if c_true r then (-1, arg, s) else iterate_loop cb names arg s
    else
    match found with
    | None => (err, arg, s)
    | Some prog =>
      let '(err, arg, s) := cb n ifindex prog arg s in
      if c_true err then (err, arg, s) else iterate_loop cb names arg s
    end
  end.

Definition iterate_pinned_programs {A} (cb : program_callback A) (arg : A) (s : system) : Z * A * system :=
  if negb (pe_opendir e && pd_programs (sy_maps s)) then (- ENOENT, arg, s) else
  iterate_loop cb (map fst (sy_dirs s)) arg s.

(** ** Features in use *)

Definition get_iface_features : program_callback Z := fun _ _ prog all_feats s =>
  (0, Z.lor all_feats (find_features prog_features (pe_name e (fst prog))), s).

(** Error and features. *)
Definition get_used_features (s : system) : Z * Z * system :=
  let '(err, all_feats, s) := iterate_pinned_programs get_iface_features 0 s in
  if c_true err && negb (err =? - ENOENT) then (err, 0, s) else (0, all_feats, s).

(** ** Unloading *)

Definition detach_xdp_program (prog : Z) (ifname : list byte) (ifindex : Z) (s : system) : Z * system :=
  if c_true (pe_detach e prog) then (pe_detach e prog, s) else
  let s := set_on (<[ifindex := None]> (sy_on s)) s in
  if c_true (pe_path e ifname) then (pe_path e ifname, s) else
  let pins := default [] (dir_of ifname s) in
  let '(errno, s) :=
    match find (fun p => bool_decide (pin_name p = pe_name e prog)) pins with
    | None => (ENOENT, s)
    | Some p => if c_true (pe_unlink e p) then (pe_unlink e p, s)
                else (0, put_dir_of ifname (filter (fun q => pin_name q <> pe_name e prog) pins) s)
    end in
  if c_true errno && negb (errno =? ENOENT) then (-1, s) else
  let '(errno, s) := rmdir_if ifname s in
  (if errno =? ENOENT then 0 else - errno, s).

Definition remove_iface_program (ifname : list byte) (ifindex : Z) (prog : Z * Z) (s : system) : Z * system :=
  let feats := find_features prog_features (pe_name e (fst prog)) in
  if negb (c_true feats) then (- ENOENT, s) else
  detach_xdp_program (fst prog) ifname ifindex s.

Record unloadopt := { uo_all : bool; uo_keep : bool; uo_ifname : list byte; uo_ifindex : Z }.

(** From the label [clean_maps] on. *)
Definition clean_maps (keep : bool) (err : Z) (s : system) : Z * system :=
  if keep then (err, s) else
  let '(err, feats, s) := get_used_features s in
  if c_true err then (err, s) else
  let '(err, d) := remove_unused_maps (pe_remove e) feats (sy_maps s) in
  (err, set_sys_maps d s).

(** A program is found exactly when the search returns 0. *)
Definition do_unload (opt : unloadopt) (s : system) : Z * system :=
  if pe_lock e <? 0 then (pe_lock e, s) else
  if uo_all opt then
    let '(err, _, s) := iterate_pinned_programs (fun n i prog (_ : unit) s => let '(err, s) := remove_iface_program n i prog s in (err, tt, s)) tt s in
    if c_true err && negb (err =? - ENOENT) then (err, s) else clean_maps (uo_keep opt) err s
  else
  if uo_ifindex opt =? 0 then (EXIT_FAILURE, s) else
  let '(err, found, s) := get_pinned_program (uo_ifname opt) (uo_ifindex opt) s in
  match found with
  | None => (EXIT_FAILURE, s)
  | Some prog =>
    let '(err, s) := remove_iface_program (uo_ifname opt) (uo_ifindex opt) prog s in
    if c_true err then (err, s) else clean_maps (uo_keep opt) err s
  end.

End Pins.

(** ** Directories *)

Lemma dir_of_put n l s n' : dir_of n' (put_dir_of n l s) = if decide (n = n') then (fun _ => l) <$> dir_of n s else dir_of n' s.
Proof.
  unfold dir_of, put_dir_of. cbn. induction (sy_dirs s) as [| [k v] ds IH]; cbn; [by destruct (decide _) |].
  destruct (decide (k = n)) as [-> | Hk].
  - rewrite (bool_decide_true (n = n)) by done. cbn. destruct (decide (n = n')) as [<- | Hne]; [by rewrite bool_decide_true |]. by rewrite bool_decide_false.
  - rewrite (bool_decide_false (k = n)) by done. cbn. destruct (decide (n = n')) as [<- | Hne]; [by rewrite bool_decide_false |].
    by destruct (bool_decide (k = n')).
Qed.

Lemma dir_of_del n s n' : n <> n' -> dir_of n' (del_dir_of n s) = dir_of n' s.
Proof.
  intros Hne. unfold dir_of, del_dir_of, set_dirs. cbn [sy_dirs]. induction (sy_dirs s) as [| [k v] ds IH]; [done |].
  destruct (decide (k = n)) as [-> | Hk].
  - rewrite filter_cons_False by (intros H; by apply H). cbn [find fst]. by rewrite (bool_decide_false (n = n')).
  - rewrite filter_cons_True by done. cbn [find fst]. by destruct (bool_decide (k = n')).
Qed.

Lemma dir_of_name n s : is_Some (dir_of n s) -> n ∈ map fst (sy_dirs s).
Proof.
  unfold dir_of. induction (sy_dirs s) as [| [k v] ds IH]; cbn; [by intros [] |]. destruct (bool_decide (k = n)) eqn:E; cbn.
  - intros _. apply bool_decide_eq_true in E as ->. apply elem_of_cons. by left.
  - intros H. apply elem_of_cons. right. by apply IH.
Qed.

(** Only the directory of [n] changes. *)
Record only_dir (n : list byte) (s s' : system) : Prop := {
  od_on : sy_on s' = sy_on s;
  od_maps : sy_maps s' = sy_maps s;
  od_dirs n' : n <> n' -> dir_of n' s' = dir_of n' s
}.

Lemma only_put n l s : only_dir n s (put_dir_of n l s).
Proof. split; [done | done |]. intros n' Hne. by rewrite dir_of_put, decide_False. Qed.

Section Tracking.
Context (e : pin_env).

Lemma get_pinned_only n i s r f s' : get_pinned_program e n i s = (r, f, s') -> only_dir n s s'.
Proof.
  unfold get_pinned_program. intros E. destruct (c_true _); [by injection E as <- <- <- |]. destruct (c_true _); [by injection E as <- <- <- |].
  destruct (dir_of n s); [| by injection E as <- <- <-]. destruct (pinned_loop _ _ _ _ _ _ _) as [[r0 f0] l0]. injection E as <- <- <-. apply only_put.
Qed.

Lemma rmdir_only n s r s' : rmdir_if e n s = (r, s') -> only_dir n s s'.
Proof.
  unfold rmdir_if. intros E. destruct (c_true _); [by injection E as <- <- |]. destruct (dir_of n s) as [[| p l] |]; injection E as <- <-; try done.
  split; [done | done |]. intros. by apply dir_of_del.
Qed.

(** Everything can be opened. *)
Record opens : Prop := {
  op_path n : pe_path e n = 0;
  op_dir : pe_opendir e = true;
  op_dir_if n : pe_opendir_if e n = 0;
  op_create p : pe_create e p = 0;
  op_index n n' : pe_index e n = pe_index e n' -> pe_index e n <> 0 -> n = n'
}.

(** The program [id] runs on the interface and is pinned under its name. *)
Definition tracked (s : system) (n : list byte) (id m : Z) : Prop :=
  pe_index e n <> 0 /\ sy_on s (pe_index e n) = Some (id, m) /\
  exists pins, dir_of n s = Some pins /\ (exists p, p ∈ pins /\ pin_prog p = id) /\ Forall (fun p => pin_prog p = id -> pe_name e id = pin_name p) pins.

Lemma tracked_only n n' s s' id m : only_dir n s s' -> n <> n' -> tracked s n' id m -> tracked s' n' id m.
Proof. intros [H1 H2 H3] Hne (Hi & Ho & pins & Hd & Hp). split; [done |]. split; [by rewrite H1 |]. exists pins. by rewrite H3. Qed.

Lemma pinned_loop_finds n i id m ret : opens -> forall pins, (exists p, p ∈ pins /\ pin_prog p = id) -> Forall (fun p => pin_prog p = id -> pe_name e id = pin_name p) pins ->
  exists l, pinned_loop e n i (Some (id, m)) false ret pins = (0, Some (id, m), l) /\ (exists p, p ∈ l /\ pin_prog p = id) /\ Forall (fun p => pin_prog p = id -> pe_name e id = pin_name p) l.
Proof.
  intros Ho pins. revert ret. induction pins as [| q pins IH]; intros ret Hp Hn; [destruct Hp as (p & Hp & _); by apply elem_of_nil in Hp |].
  apply Forall_cons in Hn as [Hq Hn]. cbn [pinned_loop]. rewrite (op_path Ho), (op_create Ho). cbn [c_true Z.eqb negb mbind option_bind]. destruct (Z.eqb_spec id (pin_prog q)) as [-> | Hne].
  - rewrite bool_decide_true by (by apply Hq). cbn. exists (q :: pins). split_and!; [done | exists q; split; [apply elem_of_cons; by left | done] | by constructor].
  - assert (exists p, p ∈ pins /\ pin_prog p = id) as Hp' by (destruct Hp as (p & [-> | Hp]%elem_of_cons & E); [by rewrite E in Hne | eauto]).
    destruct (c_true (pe_unlink e q)).
    + destruct (IH (-1) Hp' Hn) as (l & -> & (p & Hl & E) & Hf). exists (q :: l). split_and!; [done | exists p; split; [apply elem_of_cons; by right | done] | by constructor].
    + by apply IH.
Qed.

Lemma get_pinned_tracked s n id m : opens -> tracked s n id m ->
  exists s', get_pinned_program e n (pe_index e n) s = (0, Some (id, m), s') /\ tracked s' n id m.
Proof.
  intros Ho (Hi & Hon & pins & Hd & Hp & Hn). unfold get_pinned_program. rewrite (op_path Ho), (op_dir_if Ho), Hd, Hon. cbn [c_true Z.eqb negb].
  rewrite (proj2 (Z.eqb_neq _ _) Hi), (proj2 (Z.eqb_neq _ _) Hi). destruct (pinned_loop_finds n (pe_index e n) id m (- ENOENT) Ho pins Hp Hn) as (l & -> & Hl & Hf).
  eexists. split; [done |]. split; [done |]. split; [done |]. exists l. by rewrite dir_of_put, decide_True, Hd.
Qed.

Lemma pinned_loop_ret n i on all pins : opens -> forall ret r l, ret <> 0 -> pinned_loop e n i on all ret pins = (r, None, l) -> r <> 0.
Proof.
  intros Ho. induction pins as [| p pins IH]; intros ret r l Hr E; cbn [pinned_loop] in E; [by injection E as <- _ |].
  rewrite (op_path Ho), (op_create Ho) in E. cbn [c_true Z.eqb negb] in E.
  assert (forall ret', ret' <> 0 -> (if c_true (pe_unlink e p) then let '(r, found, l) := pinned_loop e n i on all (-1) pins in (r, found, p :: l) else pinned_loop e n i on all ret' pins) = (r, None, l) -> r <> 0) as Hun.
  { intros ret' Hr' E'. destruct (c_true (pe_unlink e p)); [| by eapply IH]. destruct (pinned_loop e n i on all (-1) pins) as [[r0 f0] l0] eqn:E0. injection E' as <- -> <-. by eapply (IH (-1)). }
  destruct all; [by eapply Hun |]. destruct (_ ≫= _); [| eapply Hun; [| exact E]; done]. destruct (negb _); [by injection E as <- _ | done].
Qed.

Lemma get_pinned_ret n i s r s' : opens -> get_pinned_program e n i s = (r, None, s') -> r <> 0.
Proof.
  intros Ho E. unfold get_pinned_program in E. rewrite (op_path Ho), (op_dir_if Ho) in E. cbn [c_true Z.eqb negb] in E. destruct (dir_of n s); [| by injection E as <- _].
  destruct (pinned_loop _ _ _ _ _ _ _) as [[r0 f0] l0] eqn:E0. injection E as <- -> _. eapply pinned_loop_ret; [done | | exact E0]. by destruct (_ =? 0).
Qed.

(** ** Features in use *)

Definition feats_of (id : Z) : Z := find_features prog_features (pe_name e id).

Lemma land_lor_inv f a b : Z.land f (Z.lor a b) = Z.lor a b -> Z.land f a = a /\ Z.land f b = b.
Proof.
  intros H. split; apply Z.bits_inj'; intros k _; assert (Z.testbit (Z.land f (Z.lor a b)) k = Z.testbit (Z.lor a b) k) as E by (by rewrite H);
    rewrite Z.land_spec, Z.lor_spec in E; rewrite Z.land_spec; by destruct (Z.testbit f k), (Z.testbit a k), (Z.testbit b k).
Qed.

(** Collecting the features keeps what is tracked; when it succeeds, the
    features of every tracked program are there. *)
Lemma iterate_features_spec : opens -> forall names acc s err feats s', iterate_loop e (get_iface_features e) names acc s = (err, feats, s') ->
  err <> - ENOENT /\ sy_on s' = sy_on s /\ sy_maps s' = sy_maps s /\ (err = 0 -> Z.land feats acc = acc) /\
  (forall n id m, tracked s n id m -> tracked s' n id m /\ (err = 0 -> n ∈ names -> Z.land feats (feats_of id) = feats_of id)).
Proof.
  intros Ho. induction names as [| n names IH]; intros acc s err feats s' E; cbn [iterate_loop] in E.
  { injection E as <- <- <-. split_and!; [done | done | done | intros _; apply Z.land_diag |]. intros n id m Ht. split; [done |]. intros _ Hn. by apply elem_of_nil in Hn. }
  rewrite (op_path Ho) in E. cbn [c_true Z.eqb negb] in E. destruct (get_pinned_program e n (pe_index e n) s) as [[er found] s1] eqn:Eg.
  pose proof (get_pinned_only _ _ _ _ _ _ Eg) as H1.
  assert (forall n' id m, tracked s n' id m -> tracked s1 n' id m /\ (n = n' -> found = Some (id, m) /\ er = 0)) as Hs1.
  { intros n' id m Ht. destruct (decide (n = n')) as [<- | Hne]; [| split; [by apply (tracked_only n _ s) | done]].
    destruct (get_pinned_tracked s n id m Ho Ht) as (s1' & Eg' & Ht1). rewrite Eg in Eg'. by injection Eg' as -> -> ->. }
  destruct ((er =? - ENOENT) || (er =? - ENODEV)) eqn:Ee.
  - destruct (rmdir_if e n s1) as [r s2] eqn:Er. pose proof (rmdir_only _ _ _ _ Er) as H2.
    assert (forall n' id m, tracked s n' id m -> tracked s2 n' id m /\ n <> n') as Hs2.
    { intros n' id m Ht. destruct (Hs1 _ _ _ Ht) as [Ht1 Hf]. assert (n <> n') as Hne by (intros H; destruct (Hf H) as [_ ->]; done). split; [by apply (tracked_only n _ s1) | done]. }
    destruct (c_true r).
    + injection E as <- <- <-. split_and!; [done | by rewrite (od_on _ _ _ H2), (od_on _ _ _ H1) | by rewrite (od_maps _ _ _ H2), (od_maps _ _ _ H1) | done |].
      intros n' id m Ht. split; [by apply Hs2 | done].
    + destruct (IH _ _ _ _ _ E) as (Hne & Ho' & Hm' & Ha & Ht'). split_and!; [done | by rewrite Ho', (od_on _ _ _ H2), (od_on _ _ _ H1) | by rewrite Hm', (od_maps _ _ _ H2), (od_maps _ _ _ H1) | done |].
      intros n' id m Ht. destruct (Hs2 _ _ _ Ht) as [Ht2 Hn']. destruct (Ht' _ _ _ Ht2) as [Ht3 Hf]. split; [done |]. intros H0 [-> | Hn]%elem_of_cons; [done | by apply Hf].
  - apply orb_false_elim in Ee as [Ee _]. apply Z.eqb_neq in Ee. destruct found as [[id0 m0] |].
    + unfold get_iface_features in E at 1. cbn [c_true Z.eqb negb fst] in E. destruct (IH _ _ _ _ _ E) as (Hne & Ho' & Hm' & Ha & Ht').
      split_and!; [done | by rewrite Ho', (od_on _ _ _ H1) | by rewrite Hm', (od_maps _ _ _ H1) | intros H0; by apply (land_lor_inv _ _ (feats_of id0)), Ha |].
      intros n' id m Ht. destruct (Hs1 _ _ _ Ht) as [Ht1 Hf]. destruct (Ht' _ _ _ Ht1) as [Ht2 Hf2]. split; [done |]. intros H0 [<- | Hn]%elem_of_cons; [| by apply Hf2].
      destruct (Hf eq_refl) as [[= -> ->] _]. by apply (land_lor_inv feats acc), Ha.
    + injection E as <- <- <-. pose proof (get_pinned_ret _ _ _ _ _ Ho Eg). split_and!; [done | apply H1 | apply H1 | done |]. intros n' id m Ht. split; [by apply Hs1 | done].
Qed.

Lemma used_by_covers feats x name : Z.land feats x = x -> used_by x name = true -> used_by feats name = true.
Proof.
  intros H. assert (forall k, c_true (Z.land x k) = true -> c_true (Z.land feats k) = true) as Hk.
  { intros k. unfold c_true. rewrite !negb_true_iff, !Z.eqb_neq. intros Hne E. apply Hne. rewrite <- H, <- Z.land_assoc, (Z.land_comm x k), Z.land_assoc, E. apply Z.land_0_l. }
  unfold used_by. repeat (case_bool_decide; [by apply Hk |]). case_bool_decide; [| done]. intros Hx. specialize (Hk x). rewrite Z.land_diag, H in Hk.
  unfold c_true in *. rewrite negb_true_iff, Z.eqb_neq in *. intros ->. by rewrite Z.land_0_l in H.
Qed.

(** The directories are inside the directory of the programs. *)
Definition dirs_ok (s : system) : Prop := pd_programs (sy_maps s) = false -> sy_dirs s = [].

(** The maps that the program [id] uses are still there. *)
Definition maps_kept (s s' : system) (id : Z) : Prop := forall name, name ∈ pd_maps (sy_maps s) -> used_by (feats_of id) name = true -> name ∈ pd_maps (sy_maps s').

Lemma tracked_no_dirs s n id m : sy_dirs s = [] -> ~ tracked s n id m.
Proof. intros E (_ & _ & pins & Hd & _). unfold dir_of in Hd. by rewrite E in Hd. Qed.

Lemma clean_maps_safe keep err0 s err s' : opens -> 0 <= re_open (pe_remove e) -> dirs_ok s -> clean_maps e keep err0 s = (err, s') ->
  sy_on s' = sy_on s /\ (forall n id m, tracked s n id m -> tracked s' n id m /\ maps_kept s s' id).
Proof.
  intros Ho Hop Hd E. unfold clean_maps in E. destruct keep; [injection E as <- <-; split; [done | intros n id m Ht; split; [done | by intros name]] |].
  unfold get_used_features, iterate_pinned_programs in E. rewrite (op_dir Ho) in E. cbn [andb] in E.
  destruct (pd_programs (sy_maps s)) eqn:Ep; cbn [negb] in E; cycle 1.
  { change (c_true (- ENOENT) && negb (- ENOENT =? - ENOENT)) with false in E. cbn [c_true Z.eqb negb] in E. destruct (remove_unused_maps _ _ _) as [er d] eqn:Er. injection E as <- <-. pose proof (remove_unused_maps_spec _ _ _ _ _ Hop Er) as Hr.
    split; [done | intros n id m Ht; by apply tracked_no_dirs in Ht; [| apply Hd]]. }
  destruct (iterate_loop e (get_iface_features e) (map fst (sy_dirs s)) 0 s) as [[er feats] s1] eqn:Ei.
  destruct (iterate_features_spec Ho _ _ _ _ _ _ Ei) as (Hne & Ho1 & Hm1 & _ & Ht1). rewrite (proj2 (Z.eqb_neq _ _) Hne) in E. cbn [negb] in E. rewrite andb_true_r in E.
  destruct (c_true er) eqn:Eer.
  { rewrite Eer in E. injection E as <- <-. split; [done | intros n id m Ht; split; [by apply Ht1 | intros name; by rewrite Hm1]]. }
  cbn [c_true Z.eqb negb] in E. destruct (remove_unused_maps _ _ _) as [er' d] eqn:Er. injection E as <- <-. pose proof (remove_unused_maps_spec _ _ _ _ _ Hop Er) as Hr. cbn [set_sys_maps sy_on sy_maps].
  split; [done |]. intros n id m Ht. destruct (Ht1 _ _ _ Ht) as [Ht2 Hf].
  split; [exact Ht2 |]. intros name Hn Hu. cbn [set_sys_maps sy_maps]. apply Hr; [by rewrite Hm1 |]. apply (used_by_covers _ (feats_of id)); [| done].
  apply Hf; [by destruct er |]. destruct Ht as (_ & _ & pins & Hdir & _). apply dir_of_name. eauto.
Qed.

(** ** Unloading one interface *)

(** Only the interface [n], with the index [i], changes. *)
Record only_if (n : list byte) (i : Z) (s s' : system) : Prop := {
  oi_on k : k <> i -> sy_on s' k = sy_on s k;
  oi_maps : sy_maps s' = sy_maps s;
  oi_dirs n' : n <> n' -> dir_of n' s' = dir_of n' s;
  oi_none : sy_dirs s = [] -> sy_dirs s' = []
}.

Lemma only_if_trans n i s1 s2 s3 : only_if n i s1 s2 -> only_if n i s2 s3 -> only_if n i s1 s3.
Proof. intros [H1 H2 H3 H4] [G1 G2 G3 G4]. split; [| congruence | | auto]; intros x Hx; [rewrite G1 by done; auto | rewrite G3 by done; auto]. Qed.

Lemma only_if_refl n i s : only_if n i s s.
Proof. done. Qed.

Lemma only_if_put n i l s : only_if n i s (put_dir_of n l s).
Proof. split; [done | done | intros n' Hne; by rewrite dir_of_put, decide_False | cbn; by intros ->]. Qed.

Lemma get_pinned_only_if n i s r f s' : get_pinned_program e n i s = (r, f, s') -> only_if n i s s'.
Proof.
  unfold get_pinned_program. intros E. destruct (c_true _); [by injection E as <- <- <- |]. destruct (c_true _); [by injection E as <- <- <- |].
  destruct (dir_of n s); [| by injection E as <- <- <-]. destruct (pinned_loop _ _ _ _ _ _ _) as [[r0 f0] l0]. injection E as <- <- <-. apply only_if_put.
Qed.

Lemma rmdir_only_if n i s r s' : rmdir_if e n s = (r, s') -> only_if n i s s' /\ sy_on s' = sy_on s.
Proof.
  unfold rmdir_if. intros E. destruct (c_true _); [by injection E as <- <- |]. destruct (dir_of n s) as [[| p l] |]; injection E as <- <-; try done.
  split; [| done]. split; [done | done | intros; by apply dir_of_del | cbn; by intros ->].
Qed.

Lemma remove_only_if n i prog s err s' : remove_iface_program e n i prog s = (err, s') -> only_if n i s s' /\ (err = 0 -> sy_on s' i = None).
Proof.
  unfold remove_iface_program, detach_xdp_program. intros E. destruct (negb _); [by injection E as <- <- |].
  destruct (c_true (pe_detach e _)) eqn:Ed; [injection E as <- <-; split; [done | intros H; by rewrite H in Ed] |].
  set (s1 := set_on _ s) in E. assert (only_if n i s s1 /\ sy_on s1 i = None) as [H1 Hi].
  { split; [split; [| done | done | done] |]; cbn; [intros k Hk; by rewrite fn_lookup_insert_ne | by rewrite fn_lookup_insert]. }
  destruct (c_true (pe_path e n)) eqn:Ep; [injection E as <- <-; split; [done | intros H; by rewrite H in Ep] |].
  set (un := match find _ _ with Some _ => _ | None => _ end) in E. assert (only_if n i s1 un.2 /\ sy_on un.2 = sy_on s1) as [H2 Hi2].
  { unfold un. destruct (find _ _) as [p |]; [destruct (c_true (pe_unlink e p)) |]; try done. split; [apply only_if_put | done]. }
  destruct un as [er s2]. cbn [snd] in *. destruct (c_true er && _) eqn:Ee.
  - injection E as <- <-. split; [by eapply only_if_trans | done].
  - destruct (rmdir_if e n s2) as [er' s3] eqn:Er. apply (rmdir_only_if n i) in Er as [H3 Hi3]. injection E as <- <-.
    split; [eapply only_if_trans; [done |]; by eapply only_if_trans | intros _; by rewrite Hi3, Hi2].
Qed.

Lemma tracked_only_if n i n' s s' id m : only_if n i s s' -> n <> n' -> pe_index e n' <> i -> tracked s n' id m -> tracked s' n' id m.
Proof. intros [H1 H2 H3 H4] Hne Hi (Hx & Ho & pins & Hd & Hp). split; [done |]. split; [by rewrite H1 |]. exists pins. by rewrite H3. Qed.

Lemma dirs_ok_only_if n i s s' : only_if n i s s' -> dirs_ok s -> dirs_ok s'.
Proof. intros [H1 H2 H3 H4] Hd Hp. apply H4, Hd. by rewrite <- H2. Qed.

(** Unloading one interface.  Whatever unlinking, removing and
    detaching answer: all other interfaces keep their program and its pin, and every map their programs use
    is kept; and on success the interface has no program. *)
Theorem unload_safe opt s err s' : opens -> 0 <= re_open (pe_remove e) -> dirs_ok s -> uo_all opt = false -> uo_ifindex opt = pe_index e (uo_ifname opt) ->
  do_unload e opt s = (err, s') ->
  (forall n id m, n <> uo_ifname opt -> tracked s n id m -> tracked s' n id m /\ maps_kept s s' id) /\
  (err = 0 -> sy_on s' (uo_ifindex opt) = None).
Proof.
  intros Ho Hop Hd Hall Hidx E. unfold do_unload in E. rewrite Hall in E.
  assert (forall s1 n id m, only_if (uo_ifname opt) (uo_ifindex opt) s s1 -> n <> uo_ifname opt -> tracked s n id m -> tracked s1 n id m /\ maps_kept s s1 id) as Hother.
  { intros s1 n id m H1 Hne Ht. split; [| intros name; by rewrite (oi_maps _ _ _ _ H1)]. eapply tracked_only_if; [done | done | | done].
    rewrite Hidx. intros Hi. apply Hne. by apply (op_index Ho); [| apply Ht]. }
  destruct (Z.ltb_spec (pe_lock e) 0); [injection E as <- <-; split; [intros; by apply Hother | lia] |].
  destruct (Z.eqb_spec (uo_ifindex opt) 0) as [| Hi0]; [injection E as <- <-; split; [intros; by apply Hother | done] |].
  destruct (get_pinned_program _ _ _ _) as [[er found] s1] eqn:Eg. apply get_pinned_only_if in Eg.
  destruct found as [prog |]; [| injection E as <- <-; split; [intros; by apply Hother | done]].
  destruct (remove_iface_program _ _ _ _ _) as [er2 s2] eqn:Er. apply remove_only_if in Er as [H2 Hn2].
  pose proof (only_if_trans _ _ _ _ _ Eg H2) as H12. destruct (c_true er2) eqn:E2; [injection E as <- <-; split; [intros; by apply Hother | intros H0; by rewrite H0 in E2] |].
  apply clean_maps_safe in E as [Hon Hc]; [| done | done | by eapply dirs_ok_only_if]. split.
  - intros n id m Hne Ht. destruct (Hother s2 n id m H12 Hne Ht) as [Ht2 Hk2]. destruct (Hc n id m Ht2) as [Ht3 Hk3]. split; [done |]. intros name Hm Hu. apply Hk3; [by apply Hk2 | done].
  - intros _. rewrite Hon. apply Hn2. by destruct er2.
Qed.

End Tracking.

(** ** Examples *)

Definition sample_pins (opens_dir : bool) : pin_env :=
  {| pe_lock := 3; pe_index n := if bool_decide (n = str "eth0") then 2 else if bool_decide (n = str "eth1") then 3 else 0;
     pe_name id := if id =? 10 then str "xdpfilt_alw_all" else if id =? 11 then str "xdpfilt_alw_tcp" else str "other";
     pe_path _ := 0; pe_opendir := opens_dir; pe_opendir_if _ := 0; pe_create _ := 0; pe_unlink _ := 0; pe_rmdir _ := 0; pe_detach _ := 0;
     pe_remove := sample_remove |}.

Definition two_interfaces (id0 : Z) (name0 : list byte) : system :=
  {| sy_dirs := [(str "eth0", [{| pin_name := name0; pin_prog := id0 |}]); (str "eth1", [{| pin_name := str "xdpfilt_alw_tcp"; pin_prog := 11 |}])];
     sy_on i := if i =? 2 then Some (id0, 1) else if i =? 3 then Some (11, 1) else None; sy_maps := full_dir |}.

Definition unload_eth0 : unloadopt := {| uo_all := false; uo_keep := false; uo_ifname := str "eth0"; uo_ifindex := 2 |}.
Definition unload_all : unloadopt := {| uo_all := true; uo_keep := false; uo_ifname := []; uo_ifindex := 0 |}.

Definition outcome_of (r : Z * system) : Z * list (list byte) * option (Z * Z) * option (Z * Z) :=
  (fst r, pd_maps (sy_maps (snd r)), sy_on (snd r) 2, sy_on (snd r) 3).

(** Unloading one of two interfaces leaves the maps of the other. *)
Lemma unload_one_of_two : outcome_of (do_unload (sample_pins true) unload_eth0 (two_interfaces 10 (str "xdpfilt_alw_all"))) =
  (0, [MAP_NAME_PORTS; XDP_STATS_MAP_NAME], None, Some (11, 1)).
Proof. vm_compute. reflexivity. Qed.

(** When the directory of the programs cannot be opened, whatever the
    reason, no program is seen, and all maps are removed although a program uses them. *)
Lemma unload_removes_maps_in_use : outcome_of (do_unload (sample_pins false) unload_eth0 (two_interfaces 10 (str "xdpfilt_alw_all"))) =
  (0, [], None, Some (11, 1)).
Proof. vm_compute. reflexivity. Qed.

(** Unloading all interfaces stops at a program that is not known, and
    reports success: the other interface keeps its program. *)
Lemma unload_all_stops : outcome_of (do_unload (sample_pins true) unload_all (two_interfaces 12 (str "other"))) =
  (0, [MAP_NAME_PORTS; XDP_STATS_MAP_NAME], Some (12, 1), Some (11, 1)).
Proof. vm_compute. reflexivity. Qed.
