(* ===== verification/TcpEvent.v ===== *)
(** What the two TCP tracers share: the [struct event] of
    src/ebpf_for_client/tcp_analyse.h and
    src/ebpf_for_service/tcp_analyse_service.h, the state names of
    [get_tcp_state], and the part of every handler that fills an event from
    the socket and the current task.

    The handlers copy string literals with the size of the destination, so the
    bytes that follow a literal in the program's read-only data end up behind
    its terminator.  What they are is a parameter ([rodata]); nothing is assumed
    about it. *)
From S2P Require Import Prelude.
From S2P Require Import CLib.

Definition AF_INET : Z := 2.
Definition AF_INET6 : Z := 10.

Definition TASK_COMM_LEN : nat := 16.
Definition TASK_FUNC_LEN : nat := 32.
Definition TCP_STATE_LEN : nat := 32.
Definition TCP_DESCRIPTION_LEN : nat := 128.

Definition TCP_SYN_SENT : Z := 2.

(** [struct event]; the two unions are their 16 bytes. *)
Record event := {
  saddr : list byte;
  daddr : list byte;
  comm : list byte;
  func : list byte;
  tcp_state : list byte;
  tcp_description : list byte;
  delta_us : Z;
  ts_us : Z;
  tgid : Z;
  af : Z;
  lport : Z;
  dport : Z;
  tcp_connect_time : Z
}.

(** The fields of [struct sock] the programs read. *)
Record sock := {
  skc_state : Z;
  skc_num : Z;
  skc_dport : Z;
  skc_family : Z;
  skc_rcv_saddr : Z;
  skc_daddr : Z;
  skc_v6_rcv_saddr : list byte;
  skc_v6_daddr : list byte
}.

(** What a program sees when it runs: the task, the clock, and the socket at
    address [h_sk]. *)
Record hook := {
  h_pid_tgid : Z;
  h_ktime : Z;
  h_comm : list byte;
  h_sk : Z;
  h_sock : sock
}.

Definition get_tcp_state (state : Z) : list byte :=
  if state =? 1 then str "TCP_ESTABLISHED" else
  if state =? 2 then str "TCP_SYN_SENT" else
  if state =? 3 then str "TCP_SYN_RECV" else
  if state =? 4 then str "TCP_FIN_WAIT1" else
  if state =? 5 then str "TCP_FIN_WAIT2" else
  if state =? 6 then str "TCP_TIME_WAIT" else
  if state =? 7 then str "TCP_CLOSE" else
  if state =? 8 then str "TCP_CLOSE_WAIT" else
  if state =? 9 then str "TCP_LAST_ACK" else
  if state =? 10 then str "TCP_LISTEN" else
  if state =? 11 then str "TCP_CLOSING" else
  if state =? 12 then str "TCP_NEW_SYN_RECV" else
  str "UNKNOWN_STATE".

Section Fill.
Context (rodata : list byte -> list byte).

(** [memcpy(dst, "s", n)] *)
Definition memcpy_lit (n : nat) (s : list byte) : list byte := take n (s ++ NUL :: rodata s).

(** [ts / 1000] *)
Definition hook_us (h : hook) : Z := u64 (h_ktime h) / 1000.

(** [bpf_get_current_pid_tgid() >> 32] *)
Definition hook_tgid (h : hook) : Z := u32 (Z.shiftr (h_pid_tgid h) 32).

(** A [union { __u32 v4; __u8 v6[16]; }] of a zeroed event. *)
Definition addr_union (family v4 : Z) (v6 : list byte) : list byte :=
  if family =? AF_INET then le_split 4 v4 ++ replicate 12 NUL else v6.

(** The event of a hook: [f] and [d] are the bytes copied to [func] and
    [tcp_description]. *)
Definition fill_event (h : hook) (f d : list byte) (connect_time : Z) : event :=
  let sk := h_sock h in
  {| saddr := addr_union (skc_family sk) (skc_rcv_saddr sk) (skc_v6_rcv_saddr sk);
     daddr := addr_union (skc_family sk) (skc_daddr sk) (skc_v6_daddr sk);
     comm := h_comm h;
     func := f;
     tcp_state := memcpy_lit TCP_STATE_LEN (get_tcp_state (skc_state sk));
     tcp_description := d;
     delta_us := hook_us h;
     ts_us := hook_us h;
     tgid := hook_tgid h;
     af := skc_family sk;
     lport := skc_num sk;
     dport := skc_dport sk;
     tcp_connect_time := connect_time |}.

(** [targ_min_us && event.delta_us < targ_min_us] *)
Definition too_early (targ_min_us : Z) (h : hook) : bool :=
  negb (targ_min_us =? 0) && (hook_us h <? targ_min_us).

End Fill.

(** ** Lemmas *)

(** The text of a copied literal does not depend on what follows it. *)
Lemma memcpy_lit_text rodata n s : NUL ∉ s -> (length s < n)%nat ->
  cstr (memcpy_lit rodata n s) = s /\ strlen (memcpy_lit rodata n s) = Some (zlen s).
Proof.
  intros Hs Hl. unfold memcpy_lit. rewrite take_app_ge by lia.
  destruct (n - length s)%nat as [| k] eqn:E; [lia |]. simpl.
  split; [by apply cstr_app_nul | by apply strlen_app_nul].
Qed.

Lemma get_tcp_state_text st : NUL ∉ get_tcp_state st /\ (length (get_tcp_state st) <= 16)%nat.
Proof.
  unfold get_tcp_state. repeat (destruct (_ =? _); [split; [apply (bool_decide_unpack _); by vm_compute | simpl; lia] |]).
  split; [apply (bool_decide_unpack _); by vm_compute | simpl; lia].
Qed.

Lemma hook_us_range h : 0 <= hook_us h < 2 ^ 64.
Proof. unfold hook_us. pose proof (u64_range (h_ktime h)). Z.to_euclidean_division_equations; lia. Qed.

Lemma hook_us_mono h h' : 0 <= h_ktime h <= h_ktime h' -> h_ktime h' < 2 ^ 64 -> hook_us h <= hook_us h'.
Proof. intros. unfold hook_us. rewrite !u64_id by lia. apply Z.div_le_mono; lia. Qed.
