(* ===== verification/TcpAnalyseBpf.v ===== *)
(** The client tracer's BPF programs, src/ebpf_for_client/tcp_analyse.bpf.c.

    The map [connect] from socket addresses to the time of the SYN is the
    interface [BpfHash]; the two perf event arrays are the lists of the events
    handed to [bpf_perf_event_output].  Programs run one after the other on
    the shared state, in any order. *)
From S2P Require Import Prelude.
From S2P Require Import CLib.
From S2P Require Import BpfMaps.
From S2P Require Import TcpEvent.

(** [struct piddata] *)
Record piddata := { pd_comm : list byte; pd_ts : Z; pd_tgid : Z }.

Record tracer (M : Type) := {
  connect : M;
  tcp_sendmsg_events : list event;
  events : list event
}.
Arguments connect {M} _.
Arguments tcp_sendmsg_events {M} _.
Arguments events {M} _.

Section Programs.
Context (rodata : list byte -> list byte) (targ_min_us : Z).
Context {M : Type} `{BpfHash M Z piddata}.

Definition handle_tcp_sendmsg (h : hook) (st : tracer M) : tracer M :=
  if too_early targ_min_us h then st else
  let e := fill_event rodata h (memcpy_lit rodata TASK_FUNC_LEN (str "tcp_sendmsg"))
             (memcpy_lit rodata TCP_DESCRIPTION_LEN (str "client send message")) 0 in
  {| connect := connect st; tcp_sendmsg_events := tcp_sendmsg_events st ++ [e]; events := events st |}.

(** The state is read again at the end ([state2]).  The description is the
    result of appending to a string literal, which C leaves undefined: its bytes
    are an argument. *)
Definition handle_tcp_rcv_state_process (h : hook) (state2 : Z) (description : list byte) (st : tracer M) :
    tracer M :=
  if too_early targ_min_us h then st else
  let '(connect_time, m) :=
    if state2 =? TCP_SYN_SENT then
      match hash_lookup (connect st) (h_sk h) with
      | None => (0, snd (hash_delete (connect st) (h_sk h)))
      | Some pd => (u64 (hook_us h - pd_ts pd), snd (hash_delete (connect st) (h_sk h)))
      end
    else (0, connect st) in
  let e := fill_event rodata h (memcpy_lit rodata TASK_FUNC_LEN (str "tcp_rcv_state_process"))
             (take TCP_DESCRIPTION_LEN description) connect_time in
  {| connect := m; tcp_sendmsg_events := tcp_sendmsg_events st; events := events st ++ [e] |}.

Definition handle_tcp_v4_connect (h : hook) (st : tracer M) : tracer M :=
  if too_early targ_min_us h then st else
  let e := fill_event rodata h (memcpy_lit rodata TASK_FUNC_LEN (str "tcp_v4_connect"))
             (memcpy_lit rodata TCP_DESCRIPTION_LEN (str "client send SYN packet")) 0 in
  let pd := {| pd_comm := h_comm h; pd_ts := hook_us h; pd_tgid := hook_tgid h |} in
  {| connect := snd (hash_update (connect st) (h_sk h) pd 0);
     tcp_sendmsg_events := tcp_sendmsg_events st; events := events st ++ [e] |}.

(** The three attached programs. *)
Inductive call :=
| fentry_tcp_sendmsg (h : hook)
| fentry_tcp_rcv_state_process (h : hook) (state2 : Z) (description : list byte)
| fentry_tcp_v4_connect (h : hook).

Definition run_call (c : call) (st : tracer M) : tracer M :=
  match c with
  | fentry_tcp_sendmsg h => handle_tcp_sendmsg h st
  | fentry_tcp_rcv_state_process h s2 d => handle_tcp_rcv_state_process h s2 d st
  | fentry_tcp_v4_connect h => handle_tcp_v4_connect h st
  end.

Definition run_calls (cs : list call) (st : tracer M) : tracer M := fold_left (fun st c => run_call c st) cs st.

Definition call_hook (c : call) : hook :=
  match c with fentry_tcp_sendmsg h | fentry_tcp_rcv_state_process h _ _ | fentry_tcp_v4_connect h => h end.

(** The programs that use the map. *)
Definition uses_map (c : call) : bool := match c with fentry_tcp_sendmsg _ => false | _ => true end.

Context {Hok : BpfHashOk M Z piddata}.

(** ** The entry of a socket *)

Lemma update_lookup_other m k k' v : k <> k' ->
  hash_lookup (snd (hash_update m k v 0)) k' = hash_lookup m k'.
Proof.
  intros Hne. destruct (hash_update m k v 0) as [r m'] eqn:E. by eapply hash_update_other.
Qed.

Lemma delete_lookup_other m k k' : k <> k' ->
  hash_lookup (snd (hash_delete (V := piddata) m k)) k' = hash_lookup m k'.
Proof. intros Hne. destruct (hash_delete m k) as [r m'] eqn:E. by eapply hash_delete_other. Qed.

Lemma run_call_other c st k :
  (uses_map c = true -> h_sk (call_hook c) <> k) ->
  hash_lookup (connect (run_call c st)) k = hash_lookup (connect st) k.
Proof.
  destruct c as [h | h s2 d | h]; simpl; intros Hk.
  - unfold handle_tcp_sendmsg. by destruct (too_early _ _).
  - unfold handle_tcp_rcv_state_process. destruct (too_early _ _); [done |].
    destruct (s2 =? TCP_SYN_SENT); [| done].
    destruct (hash_lookup (connect st) (h_sk h)); apply delete_lookup_other, Hk; done.
  - unfold handle_tcp_v4_connect. destruct (too_early _ _); [done |].
    apply update_lookup_other, Hk. done.
Qed.

Lemma run_calls_other cs : forall st k,
  Forall (fun c => uses_map c = true -> h_sk (call_hook c) <> k) cs ->
  hash_lookup (connect (run_calls cs st)) k = hash_lookup (connect st) k.
Proof.
  induction cs as [| c cs IH]; intros st k Hcs; [done |]. apply Forall_cons in Hcs as [Hc Hcs].
  unfold run_calls in *. simpl. rewrite IH by done. by apply run_call_other.
Qed.

(** C17: the latency the client tracer reports.  When [tcp_v4_connect] is
    entered for a socket at one time and [tcp_rcv_state_process] for the same
    socket, still in SYN_SENT, at a later one, then, whatever programs ran in
    between for other sockets and whatever was sent, the event of the second call
    carries the time between the two in microseconds (each rounded down
    first), and the socket's entry is gone from the map.  Needed: the map had
    room for the entry, and the time filter lets both events pass. *)
Theorem connect_latency st h0 cs h1 d :
  let st0 := handle_tcp_v4_connect h0 st in
  let st1 := run_calls cs st0 in
  let st2 := handle_tcp_rcv_state_process h1 TCP_SYN_SENT d st1 in
  too_early targ_min_us h0 = false -> too_early targ_min_us h1 = false ->
  fst (hash_update (connect st) (h_sk h0) {| pd_comm := h_comm h0; pd_ts := hook_us h0; pd_tgid := hook_tgid h0 |} 0) = 0 ->
  Forall (fun c => uses_map c = true -> h_sk (call_hook c) <> h_sk h0) cs ->
  h_sk h1 = h_sk h0 -> 0 <= h_ktime h0 <= h_ktime h1 -> h_ktime h1 < 2 ^ 64 ->
  exists e, events st2 = events st1 ++ [e] /\
    tcp_connect_time e = h_ktime h1 / 1000 - h_ktime h0 / 1000 /\
    ts_us e = h_ktime h1 / 1000 /\
    hash_lookup (connect st2) (h_sk h0) = None.
Proof.
  intros st0 st1 st2 He0 He1 Hup Hcs Hsk Ht Hlt.
  set (pd := {| pd_comm := h_comm h0; pd_ts := hook_us h0; pd_tgid := hook_tgid h0 |}) in *.
  assert (hash_lookup (connect st1) (h_sk h0) = Some pd) as Hl.
  { unfold st1. rewrite run_calls_other by done. unfold st0, handle_tcp_v4_connect. rewrite He0. fold pd.
    simpl. destruct (hash_update (connect st) (h_sk h0) pd 0) as [r m] eqn:E. simpl in *. subst r.
    by eapply hash_update_same. }
  unfold st2, handle_tcp_rcv_state_process. rewrite He1, Z.eqb_refl, Hsk, Hl. eexists. split; [done |].
  cbn [fill_event tcp_connect_time ts_us connect pd_ts pd]. unfold hook_us.
  rewrite (u64_id (h_ktime h0)), (u64_id (h_ktime h1)) by lia.
  assert (h_ktime h0 / 1000 <= h_ktime h1 / 1000) as Hle by (apply Z.div_le_mono; lia).
  split; [| split; [done |]].
  - apply u64_id. Z.to_euclidean_division_equations; lia.
  - destruct (hash_delete (connect st1) (h_sk h0)) as [r m] eqn:E. by eapply hash_delete_same.
Qed.

(** ** The reported times never wrap around *)

(** The clock does not run backwards along the calls. *)
Fixpoint clock_ok (now : Z) (cs : list call) : Prop :=
  match cs with
  | [] => True
  | c :: cs' => now <= h_ktime (call_hook c) < 2 ^ 64 /\ clock_ok (h_ktime (call_hook c)) cs'
  end.

(** Every stored time is at most [us], and every event's latency is at most
    its time stamp. *)
Definition times_ok (us : Z) (st : tracer M) : Prop :=
  (forall k pd, hash_lookup (connect st) k = Some pd -> 0 <= pd_ts pd <= us) /\
  Forall (fun e => 0 <= tcp_connect_time e <= ts_us e) (events st).

Lemma times_ok_event us st m e :
  times_ok us st -> (forall k pd, hash_lookup m k = Some pd -> 0 <= pd_ts pd <= us) ->
  0 <= tcp_connect_time e <= ts_us e ->
  times_ok us {| connect := m; tcp_sendmsg_events := tcp_sendmsg_events st; events := events st ++ [e] |}.
Proof.
  intros [_ HE] Hm He. split; [done |]. simpl. apply Forall_app. by split; [| apply Forall_singleton].
Qed.

Lemma delete_lookup_sub m k k' pd :
  hash_lookup (snd (hash_delete (V := piddata) m k)) k' = Some pd -> hash_lookup m k' = Some pd.
Proof.
  destruct (decide (k = k')) as [-> |]; [| by rewrite delete_lookup_other].
  destruct (hash_delete m k') as [r m'] eqn:E. simpl. by rewrite (hash_delete_same _ _ _ _ E).
Qed.

Lemma update_lookup_sub m k v k' pd :
  hash_lookup (snd (hash_update m k v 0)) k' = Some pd -> pd = v \/ hash_lookup m k' = Some pd.
Proof.
  destruct (decide (k = k')) as [-> |]; [| rewrite update_lookup_other by done; by right].
  destruct (hash_update m k' v 0) as [r m'] eqn:E. simpl. destruct (decide (r = 0)) as [-> | Hr].
  - rewrite (hash_update_same _ _ _ _ _ E). intros [= ->]. by left.
  - rewrite (hash_update_fail _ _ _ _ _ _ E Hr). by right.
Qed.

Lemma run_call_times now c st :
  0 <= now <= h_ktime (call_hook c) -> h_ktime (call_hook c) < 2 ^ 64 ->
  times_ok (now / 1000) st -> times_ok (h_ktime (call_hook c) / 1000) (run_call c st).
Proof.
  intros Hn Hlt [Hm HE]. set (t := h_ktime (call_hook c)) in *.
  assert (now / 1000 <= t / 1000) as Hle by (apply Z.div_le_mono; lia).
  assert (hook_us (call_hook c) = t / 1000) as Hus by (unfold hook_us; fold t; by rewrite u64_id by lia).
  assert (0 <= t / 1000 < 2 ^ 64) as Hr by (Z.to_euclidean_division_equations; lia).
  assert (times_ok (t / 1000) st) as Hst.
  { split; [| done]. intros k pd Hk. specialize (Hm k pd Hk). lia. }
  destruct c as [h | h s2 d | h]; cbn [run_call call_hook] in *.
  - unfold handle_tcp_sendmsg. destruct (too_early _ _); [done |]. done.
  - unfold handle_tcp_rcv_state_process. destruct (too_early _ _); [done |].
    destruct (s2 =? TCP_SYN_SENT); [destruct (hash_lookup (connect st) (h_sk h)) as [pd |] eqn:El |];
      (apply times_ok_event; [done | | cbn [fill_event tcp_connect_time ts_us]; rewrite Hus; try lia]).
    + intros k pd' Hk. apply delete_lookup_sub in Hk. by apply Hst in Hk.
    + specialize (Hm _ _ El). rewrite u64_id by lia. lia.
    + intros k pd' Hk. apply delete_lookup_sub in Hk. by apply Hst in Hk.
    + apply Hst.
  - unfold handle_tcp_v4_connect. destruct (too_early _ _); [done |].
    apply times_ok_event; [done | | cbn [fill_event tcp_connect_time ts_us]; rewrite Hus; lia].
    intros k pd Hk. apply update_lookup_sub in Hk as [-> | Hk]; [simpl; lia | by apply Hst in Hk].
Qed.

Lemma run_calls_times cs : forall now st,
  0 <= now -> clock_ok now cs -> times_ok (now / 1000) st ->
  Forall (fun e => 0 <= tcp_connect_time e <= ts_us e) (events (run_calls cs st)).
Proof.
  induction cs as [| c cs IH]; intros now st Hn Hc Hst; [apply Hst |]. destruct Hc as [Ht Hc].
  unfold run_calls. simpl. apply (IH (h_ktime (call_hook c))); [lia | done |].
  by apply (run_call_times now); [lia | lia |].
Qed.

(** C39: on any sequence of calls, for any sockets, with a clock of 64 bits that does not
    run backwards, starting from an empty map and no events, and whether or not the
    map is full, the unsigned difference that gives the connect time never wraps: each
    event's connect time is between 0 and the event's own time stamp. *)
Theorem connect_time_never_wraps cs st :
  (forall k, hash_lookup (connect st) k = None) -> events st = [] -> clock_ok 0 cs ->
  Forall (fun e => 0 <= tcp_connect_time e <= ts_us e) (events (run_calls cs st)).
Proof.
  intros Hm He Hc. apply (run_calls_times cs 0); [lia | done |]. split.
  - intros k pd Hk. by rewrite Hm in Hk.
  - by rewrite He.
Qed.

(** What the minimum argument does.  It is compared with the time since
    boot, not with a duration: a program reports nothing until the machine has
    been up for that long, and from then on reports every call; how
    long a connection took plays no role. *)
Theorem min_us_filters_uptime c st :
  0 <= h_ktime (call_hook c) < 2 ^ 64 -> 0 <= targ_min_us ->
  let n st := (length (events st) + length (tcp_sendmsg_events st))%nat in
  n (run_call c st) = if h_ktime (call_hook c) / 1000 <? targ_min_us then n st else (n st + 1)%nat.
Proof.
  intros Ht Hm n.
  assert (too_early targ_min_us (call_hook c) = (h_ktime (call_hook c) / 1000 <? targ_min_us)) as HE.
  { unfold too_early, hook_us. rewrite u64_id by lia. destruct (targ_min_us =? 0) eqn:E0; [| done].
    simpl. symmetry. apply Z.ltb_ge. apply Z.eqb_eq in E0. rewrite E0. apply Z.div_pos; lia. }
  rewrite <- HE. destruct c as [h | h s2 d | h]; simpl in *.
  - unfold handle_tcp_sendmsg. destruct (too_early _ _); [done |]. unfold n; simpl. rewrite length_app. simpl. lia.
  - unfold handle_tcp_rcv_state_process. destruct (too_early _ _); [done |].
    destruct (if s2 =? TCP_SYN_SENT then _ else _) as [ct m]. unfold n; simpl. rewrite length_app. simpl. lia.
  - unfold handle_tcp_v4_connect. destruct (too_early _ _); [done |]. unfold n; simpl. rewrite length_app. simpl. lia.
Qed.

End Programs.

(** ** A concrete run *)

Definition sample_sock : sock :=
  {| skc_state := 2; skc_num := 53710; skc_dport := 3879; skc_family := AF_INET; skc_rcv_saddr := INADDR_LOOPBACK_BE;
     skc_daddr := INADDR_LOOPBACK_BE; skc_v6_rcv_saddr := replicate 16 NUL; skc_v6_daddr := replicate 16 NUL |}.

Definition sample_hook (sk now : Z) : hook :=
  {| h_pid_tgid := 42 * 2 ^ 32 + 42; h_ktime := now; h_comm := strncpy 16 (str "client");
     h_sk := sk; h_sock := sample_sock |}.

Definition connect_map : BpfHash (gmap Z piddata) Z piddata := gmap_hash 4096 Z piddata.
Definition connect_map_ok : BpfHashOk (gmap Z piddata) Z piddata (H := connect_map) := gmap_hash_ok 4096 Z piddata.
Definition empty_tracer : tracer (gmap Z piddata) := {| connect := ∅; tcp_sendmsg_events := []; events := [] |}.
Definition sample_calls : list call :=
  [fentry_tcp_v4_connect (sample_hook 8 2000); fentry_tcp_sendmsg (sample_hook 7 3000)].

Lemma connect_latency_witness :
  let st0 := handle_tcp_v4_connect (H := connect_map) (fun _ => []) 0 (sample_hook 7 1999) empty_tracer in
  let st1 := run_calls (H := connect_map) (fun _ => []) 0 sample_calls st0 in
  let st2 := handle_tcp_rcv_state_process (H := connect_map) (fun _ => []) 0 (sample_hook 7 5000) TCP_SYN_SENT [] st1 in
  exists e, events st2 = events st1 ++ [e] /\ tcp_connect_time e = 4.
Proof.
  intros st0 st1 st2.
  destruct (connect_latency (H := connect_map) (Hok := connect_map_ok) (fun _ => []) 0 empty_tracer
    (sample_hook 7 1999) sample_calls (sample_hook 7 5000) []) as (e & E & Ht & _);
    [done | done | vm_compute; reflexivity | | done | simpl; lia | simpl; lia |].
  - repeat (apply Forall_cons; split); try apply Forall_nil; by simpl.
  - exists e. split; [exact E | exact Ht].
Defined.

Lemma connect_time_never_wraps_witness :
  Forall (fun e => 0 <= tcp_connect_time e <= ts_us e)
    (events (run_calls (H := connect_map) (fun _ => []) 0 sample_calls empty_tracer)).
Proof.
  apply (connect_time_never_wraps (H := connect_map) (Hok := connect_map_ok) (fun _ => []) 0); [done | done |].
  simpl. lia.
Defined.

Lemma min_us_filters_uptime_witness :
  let st := run_call (H := connect_map) (fun _ => []) 3 (fentry_tcp_v4_connect (sample_hook 7 1999)) empty_tracer in
  (length (events st) + length (tcp_sendmsg_events st))%nat = 0%nat.
Proof.
  intros st.
  pose proof (min_us_filters_uptime (H := connect_map) (fun _ => []) 3
    (fentry_tcp_v4_connect (sample_hook 7 1999)) empty_tracer) as E.
  simpl in E. apply E; lia.
Defined.
