(* ===== verification/TcpAnalyse.v ===== *)
(** The client tracer's user side, src/ebpf_for_client/tcp_analyse.c: options,
    the two event printers, the attach probe and [main].

    [argp] is a fold of [parse_arg] over the options it finds; converting a
    decimal fraction ([strtod]) and formatting an IPv6 address are arguments.
    A printer returns what it writes, [None] when it reads a field that has no
    terminator. *)
From S2P Require Import Prelude.
From S2P Require Import CLib.
From S2P Require Import CommonParams.
From S2P Require Import RingBufMgr.
From S2P Require Import TcpEvent.
From S2P Require Import TcpAnalyseBpf.

(** ** Options *)

Record env := { min_us : Z; pid : Z; timestamp : bool; lport_col : bool; verbose : bool }.

Definition env_zero : env := {| min_us := 0; pid := 0; timestamp := false; lport_col := false; verbose := false |}.

(** What a call of the parser leads to: the environment and the number of
    positional arguments so far, or the end of the process. *)
Inductive parsed :=
| Accept (e : env) (pos_args : Z)
| Help                      (** [argp_state_help], status 0 *)
| UsageExit                 (** [argp_usage], status 64 *)
| Unknown.                  (** ARGP_ERR_UNKNOWN *)

Definition ARGP_KEY_ARG : Z := 0.

Section Options.
(** [strtod(arg, NULL) * 1000] as an [__u64], and [errno] *)
Context (strtod_us : list byte -> Z * Z).

Definition parse_arg (key : Z) (arg : list byte) (e : env) (pos_args : Z) : parsed :=
  if key =? chr "h" then Help
  else if key =? chr "v" then Accept e {{ verbose := true }} pos_args
  else if key =? chr "p" then
    let '(v, errno) := strtol arg in
    if negb (errno =? 0) then UsageExit else Accept e {{ pid := s32 v }} pos_args
  else if key =? chr "L" then Accept e {{ lport_col := true }} pos_args
  else if key =? ARGP_KEY_ARG then
    if negb (pos_args =? 0) then UsageExit else
    let '(v, errno) := strtod_us arg in
    if negb (errno =? 0) || (v <=? 0) then UsageExit else Accept e {{ min_us := v }} (pos_args + 1)
  else Unknown.

Fixpoint argp_parse (opts : list (Z * list byte)) (e : env) (pos_args : Z) : parsed :=
  match opts with
  | [] => Accept e pos_args
  | (key, arg) :: opts' =>
    match parse_arg key arg e pos_args with
    | Accept e pos_args => argp_parse opts' e pos_args
    | r => r
    end
  end.

End Options.

Definition LIBBPF_DEBUG : Z := 2.

(** Whether a message of the library is written. *)
Definition libbpf_print_fn (e : env) (level : Z) : bool := negb ((level =? LIBBPF_DEBUG) && negb (verbose e)).

(** ** Printing *)

(** [%s] of a field of an event *)
Definition text (field : list byte) : option (list byte) := _ ← strlen field; Some (cstr field).

(** [inet_ntop(af, ...)] of 16 bytes; null for another family *)
Definition inet_ntop (ntop6 : list byte -> list byte) (fam : Z) (a : list byte) : option (list byte) :=
  if fam =? AF_INET then Some (inet_ntop4 (le_combine (take 4 a)))
  else if fam =? AF_INET6 then Some (ntop6 a) else None.

Definition sp : list byte := [x20].

(** The columns every row has, for the texts of the string fields; [conn] is
    the last column with its separator. *)
Definition row_text (e : env) (ev : event) (src dst : option (list byte)) (f s d conn : list byte) : list byte :=
  pad_right 6 (fmt_d (s32 (tgid ev))) ++ sp ++ fmt_s_prec 12 12 (cstr (comm ev)) ++ sp ++
  pad_right 2 (fmt_d (if af ev =? AF_INET then 4 else 6)) ++ sp ++
  pad_right 16 (fmt_s_opt src) ++ sp ++
  (if lport_col e then pad_right 6 (fmt_d (lport ev)) ++ sp else []) ++
  pad_right 16 (fmt_s_opt dst) ++ sp ++ pad_right 5 (fmt_d (bswap16 (dport ev))) ++ sp ++
  fmt_d (s64 (delta_us ev)) ++ sp ++ f ++ sp ++ s ++ sp ++ d ++ conn ++ [x0a].

Definition row (e : env) (ev : event) (src dst : option (list byte)) (conn : list byte) : option (list byte) :=
  f ← text (func ev);
  s ← text (tcp_state ev);
  d ← text (tcp_description ev);
  Some (row_text e ev src dst f s d conn).

(** [env.pid != 0 && e_pid != env.pid] *)
Definition other_pid (e : env) (ev : event) : bool := negb (pid e =? 0) && negb (s32 (tgid ev) =? pid e).

Section Print.
Context (ntop6 : list byte -> list byte).

(** Only the four bytes of the IPv4 member of the unions [s] and [d] are set;
    [js] and [jd] are the twelve bytes the stack holds behind them. *)
Definition handle_event (e : env) (js jd : list byte) (ev : event) : option (list byte) :=
  if other_pid e ev then Some [] else
  let s := take 4 (saddr ev) ++ js in
  let d := take 4 (daddr ev) ++ jd in
  row e ev (inet_ntop ntop6 (af ev) s) (inet_ntop ntop6 (af ev) d)
    (sp ++ fmt_d (s64 (tcp_connect_time ev))).

Definition handle_tcp_sendmsg_event (e : env) (js jd : list byte) (ev : event) : option (list byte) :=
  if other_pid e ev then Some [] else
  let s := take 4 (saddr ev) ++ js in
  let d := take 4 (daddr ev) ++ jd in
  row e ev (inet_ntop ntop6 (af ev) s) (inet_ntop ntop6 (af ev) d) [].

End Print.

Definition handle_lost_events (cpu lost_cnt : Z) : list byte :=
  str "lost " ++ fmt_u lost_cnt ++ str " events on CPU #" ++ fmt_d cpu ++ [x0a].

(** ** The attach probe *)

(** [prog_load] and [raw_open] are the results of loading the probe program
    and of attaching it. *)
Definition fentry_try_attach (prog_load raw_open : Z) (w : world) : option (bool * world) :=
  if prog_load <? 0 then Some (false, w) else
  let w := open_fd w prog_load in
  w ← (if 0 <=? raw_open then close (open_fd w raw_open) raw_open else Some w);
  w ← close w prog_load;
  Some (0 <=? raw_open, w).

(** The kernel's type information: the id of a function in the kernel or in a
    module; and what probing an id answers. *)
Record kernel := {
  k_vmlinux_ok : bool;
  k_module_ok : list byte -> bool;
  k_find : option (list byte) -> list byte -> Z;
  k_prog_load : Z -> Z;
  k_raw_open : Z -> Z
}.

Definition fentry_can_attach (k : kernel) (name : list byte) (modname : option (list byte)) (w : world) :
    option (bool * world) :=
  if negb (k_vmlinux_ok k) then Some (false, w) else
  let btf := match modname with Some m => if k_module_ok k m then Some m else None | None => None end in
  let id := k_find k btf name in
  if 0 <? id then fentry_try_attach (k_prog_load k id) (k_raw_open k id) w else Some (false, w).

(** ** main *)

(** One round of the loop: the two polls, and whether SIGINT has arrived
    before the next test. *)
Record poll_round := { pr_first : Z; pr_second : Z; pr_sigint : bool }.


(** [Some err] when the loop is left, [None] while it runs. *)
Fixpoint poll_loop (rounds : list poll_round) (exiting : bool) (err : Z) : option Z :=
  if exiting then Some err else
  match rounds with
  | [] => None
  | r :: rounds' =>
    if (pr_first r <? 0) && negb (pr_first r =? - EINTR) then Some (pr_first r) else
    if (pr_second r <? 0) && negb (pr_second r =? - EINTR) then Some (pr_second r) else
    poll_loop rounds' (pr_sigint r) 0
  end.

(** The programs of the skeleton, by the kernel function they attach to,
    and whether they are loaded. *)
Definition autoload := list (list byte * bool).

Record script := {
  sc_open_ok : bool;
  sc_kernel : kernel;
  sc_load : autoload -> Z;
  sc_attach : autoload -> Z;
  sc_pb_ok : bool;
  sc_second_pb_ok : bool;
  sc_signal_ok : bool;
  sc_exiting : bool;
  sc_rounds : list poll_round
}.

(** The status after the programs have been selected, the same in both
    tracers: [err] of the load and the attach, the buffers, the loop, and
    [return err != 0] behind [cleanup]. *)
Definition run_tracer (sc : script) (progs : autoload) : option Z :=
  let status err := if err =? 0 then 0 else 1 in
  let err := sc_load sc progs in
  if negb (err =? 0) then Some (status err) else
  let err := sc_attach sc progs in
  if negb (err =? 0) then Some (status err) else
  if negb (sc_pb_ok sc && sc_second_pb_ok sc) then Some (status err) else
  if negb (sc_signal_ok sc) then Some (status 1) else
  err ← poll_loop (sc_rounds sc) (sc_exiting sc) err;
  Some (status err).

Definition select (k : kernel) (name : list byte) (w : world) : option ((list byte * bool) * world) :=
  '(b, w) ← fentry_can_attach k name None w;
  Some ((name, b), w).

(** The programs the client loads. *)
Definition select_programs (k : kernel) (w : world) : option (autoload * world) :=
  '(c, w) ← select k (str "tcp_v4_connect") w;
  '(r, w) ← select k (str "tcp_rcv_state_process") w;
  '(s, w) ← select k (str "tcp_sendmsg") w;
  Some ([c; r; s], w).

(** The exit status, [Some None] while the process runs. *)
Definition main (strtod_us : list byte -> Z * Z) (sc : script) (opts : list (Z * list byte)) (w : world) :
    option (option Z) :=
  match argp_parse strtod_us opts env_zero 0 with
  | Unknown => Some (Some 7)
  | Help => Some (Some 0)
  | UsageExit => Some (Some 64)
  | Accept e _ =>
    if negb (sc_open_ok sc) then Some (Some 1) else
    '(progs, _) ← select_programs (sc_kernel sc) w;
    Some (run_tracer sc progs)
  end.

(** ** The probe leaves no descriptor behind *)

(** A system call hands out a descriptor that is not in use. *)
Definition fresh_fd (w : world) (fd : Z) : Prop := 0 <= fd -> fd ∉ w_fds w.

Lemma close_open w fd : fd ∉ w_fds w -> close (open_fd w fd) fd = Some w.
Proof.
  intros H. unfold close, open_fd. cbn [w_fds w_maps]. rewrite decide_True by set_solver.
  destruct w as [m fds]. simpl in *. do 2 f_equal. set_solver.
Qed.

Lemma try_attach_spec prog_load raw_open w :
  fresh_fd w prog_load -> fresh_fd w raw_open -> (0 <= prog_load -> prog_load <> raw_open) ->
  fentry_try_attach prog_load raw_open w = Some ((0 <=? prog_load) && (0 <=? raw_open), w).
Proof.
  intros Hp Hr Hne. unfold fentry_try_attach. destruct (prog_load <? 0) eqn:E.
  { rewrite (proj2 (Z.leb_gt _ _)) by lia. done. }
  assert (prog_load ∉ w_fds w) as Hp' by (apply Hp; lia).
  rewrite (proj2 (Z.leb_le 0 prog_load)) by lia. destruct (0 <=? raw_open) eqn:E2.
  - rewrite close_open. { cbn [mbind option_bind]. by rewrite close_open. }
    assert (raw_open ∉ w_fds w) by (apply Hr; lia). assert (prog_load <> raw_open) by (apply Hne; lia).
    simpl. set_solver.
  - cbn [mbind option_bind]. by rewrite close_open.
Qed.

(** Probing the functions of the kernel, with descriptors not in use. *)
Definition kernel_ok (k : kernel) (w : world) : Prop :=
  forall id, fresh_fd w (k_prog_load k id) /\ fresh_fd w (k_raw_open k id) /\
             (0 <= k_prog_load k id -> k_prog_load k id <> k_raw_open k id).

(** The function can be traced: it has an id, and the probe loads and attaches. *)
Definition traceable (k : kernel) (name : list byte) : bool :=
  k_vmlinux_ok k && (0 <? k_find k None name) &&
  (0 <=? k_prog_load k (k_find k None name)) && (0 <=? k_raw_open k (k_find k None name)).

Lemma can_attach_spec k name w : kernel_ok k w ->
  fentry_can_attach k name None w = Some (traceable k name, w).
Proof.
  intros Hk. unfold fentry_can_attach, traceable. destruct (k_vmlinux_ok k); cbn [negb andb]; [| done].
  destruct (0 <? k_find k None name); cbn [andb]; [| done]. destruct (Hk (k_find k None name)) as (H1 & H2 & H3).
  by apply try_attach_spec.
Qed.

(** The client loads a program exactly when its function can be traced:
    the kernel has it, and a probe program for it loads and attaches; and the
    probing leaves no descriptor open. *)
Theorem select_programs_traceable k w : kernel_ok k w ->
  select_programs k w =
    Some (map (fun f => (f, traceable k f))
            [str "tcp_v4_connect"; str "tcp_rcv_state_process"; str "tcp_sendmsg"], w).
Proof.
  intros Hk. unfold select_programs, select. repeat (rewrite can_attach_spec by done; cbn [mbind option_bind]). done.
Qed.

(** Rounds in which nothing happens, or only signals other than SIGINT. *)
Definition quiet (x : poll_round) : Prop :=
  (0 <= pr_first x \/ pr_first x = - EINTR) /\ (0 <= pr_second x \/ pr_second x = - EINTR) /\
  pr_sigint x = false.

Lemma poll_loop_quiet pre rest : Forall quiet pre -> poll_loop (pre ++ rest) false 0 = poll_loop rest false 0.
Proof.
  induction 1 as [| x pre (H1 & H2 & H3) _ IH]; [done |]. cbn [app poll_loop].
  assert ((pr_first x <? 0) && negb (pr_first x =? - EINTR) = false) as -> by lia.
  assert ((pr_second x <? 0) && negb (pr_second x =? - EINTR) = false) as -> by lia.
  by rewrite H3.
Qed.

(** The exit status.  It is 1 when the objects cannot be loaded or attached,
    when the signal handler cannot be set, or when a poll fails for another
    reason than a signal; but 0 when a perf buffer could not be created and
    nothing was ever traced. *)
Theorem run_tracer_status sc progs :
  (sc_load sc progs <> 0 -> run_tracer sc progs = Some 1) /\
  (sc_load sc progs = 0 -> sc_attach sc progs <> 0 -> run_tracer sc progs = Some 1) /\
  (sc_load sc progs = 0 -> sc_attach sc progs = 0 -> sc_pb_ok sc && sc_second_pb_ok sc = false ->
   run_tracer sc progs = Some 0) /\
  (sc_load sc progs = 0 -> sc_attach sc progs = 0 -> sc_pb_ok sc && sc_second_pb_ok sc = true ->
   sc_signal_ok sc = true -> sc_exiting sc = false ->
   forall pre r post, sc_rounds sc = pre ++ r :: post ->
     Forall quiet pre ->
     (pr_first r < 0 /\ pr_first r <> - EINTR -> run_tracer sc progs = Some 1) /\
     (0 <= pr_first r -> 0 <= pr_second r -> pr_sigint r = true -> run_tracer sc progs = Some 0)).
Proof.
  unfold run_tracer. split_and!.
  - intros H. by rewrite (proj2 (Z.eqb_neq _ _) H).
  - intros -> H. by rewrite (proj2 (Z.eqb_neq _ _) H).
  - intros -> -> ->. done.
  - intros -> -> -> -> -> pre r post -> Hpre. cbn [negb Z.eqb]. rewrite poll_loop_quiet by done. cbn [poll_loop].
    split; intros H.
    + rewrite (proj2 (Z.ltb_lt (pr_first r) 0)), (proj2 (Z.eqb_neq (pr_first r) _)) by lia. simpl.
      by rewrite (proj2 (Z.eqb_neq (pr_first r) 0)) by lia.
    + intros H' Hs. rewrite (proj2 (Z.ltb_ge (pr_first r) 0)), (proj2 (Z.ltb_ge (pr_second r) 0)) by lia.
      simpl. rewrite Hs. by destruct post.
Qed.

(** ** What is printed *)

Lemma text_lit rodata n s : NUL ∉ s -> (length s < n)%nat -> text (memcpy_lit rodata n s) = Some s.
Proof.
  intros Hs Hl. destruct (memcpy_lit_text rodata n s Hs Hl) as [E1 E2]. unfold text. by rewrite E1, E2.
Qed.

Lemma text_state rodata st : text (memcpy_lit rodata TCP_STATE_LEN (get_tcp_state st)) = Some (get_tcp_state st).
Proof. destruct (get_tcp_state_text st) as [H1 H2]. apply text_lit; [done | unfold TCP_STATE_LEN; lia]. Qed.

Lemma inet_ntop_v4 ntop6 x rest : 0 <= x < 2 ^ 32 ->
  inet_ntop ntop6 AF_INET (take 4 (addr_union AF_INET x []) ++ rest) = Some (inet_ntop4 x).
Proof.
  intros Hx. unfold inet_ntop, addr_union. rewrite !Z.eqb_refl.
  assert (take 4 (le_split 4 x ++ replicate 12 NUL) = le_split 4 x) as -> by reflexivity.
  assert (take 4 (le_split 4 x ++ rest) = le_split 4 x) as -> by reflexivity.
  rewrite le_combine_split, Z.mod_small by lia. done.
Qed.

(** The row of an IPv4 event whose function and description are literals. *)
Lemma row_of_hook rodata ntop6 e h f d ct js jd conn :
  skc_family (h_sock h) = AF_INET ->
  0 <= skc_rcv_saddr (h_sock h) < 2 ^ 32 -> 0 <= skc_daddr (h_sock h) < 2 ^ 32 ->
  NUL ∉ f -> (length f < TASK_FUNC_LEN)%nat -> NUL ∉ d -> (length d < TCP_DESCRIPTION_LEN)%nat ->
  let ev := fill_event rodata h (memcpy_lit rodata TASK_FUNC_LEN f) (memcpy_lit rodata TCP_DESCRIPTION_LEN d) ct in
  row e ev (inet_ntop ntop6 (af ev) (take 4 (saddr ev) ++ js)) (inet_ntop ntop6 (af ev) (take 4 (daddr ev) ++ jd)) conn =
  Some (row_text e ev (Some (inet_ntop4 (skc_rcv_saddr (h_sock h)))) (Some (inet_ntop4 (skc_daddr (h_sock h))))
          f (get_tcp_state (skc_state (h_sock h))) d conn).
Proof.
  intros Hf Hs Hd Nf Lf Nd Ld ev. unfold row. unfold ev. cbn [fill_event func tcp_state tcp_description].
  rewrite (text_lit _ _ f), text_state, (text_lit _ _ d) by done. cbn [mbind option_bind]. f_equal.
  cbn [fill_event af saddr daddr]. rewrite Hf.
  assert (forall v4 v6, addr_union AF_INET v4 v6 = addr_union AF_INET v4 []) as HU by done.
  rewrite !(HU _ (skc_v6_rcv_saddr _)), !(HU _ (skc_v6_daddr _)), !inet_ntop_v4 by done. done.
Qed.

(** The row of a connection attempt.  For an IPv4 socket, the event of
    [tcp_v4_connect] is printed, unless it belongs to another process than the
    one asked for, as one row with the process, its name, both addresses in dotted
    form, the destination port in host order, the time, the name of the state
    and the texts of the program, whatever bytes the literals were followed by
    when they were copied and whatever the stack of the printer holds. *)
Theorem connect_row rodata ntop6 e h js jd :
  skc_family (h_sock h) = AF_INET ->
  0 <= skc_rcv_saddr (h_sock h) < 2 ^ 32 -> 0 <= skc_daddr (h_sock h) < 2 ^ 32 ->
  let ev := fill_event rodata h (memcpy_lit rodata TASK_FUNC_LEN (str "tcp_v4_connect"))
              (memcpy_lit rodata TCP_DESCRIPTION_LEN (str "client send SYN packet")) 0 in
  handle_event ntop6 e js jd ev =
    Some (if other_pid e ev then [] else
      row_text e ev (Some (inet_ntop4 (skc_rcv_saddr (h_sock h)))) (Some (inet_ntop4 (skc_daddr (h_sock h))))
        (str "tcp_v4_connect") (get_tcp_state (skc_state (h_sock h))) (str "client send SYN packet") (str " 0")).
Proof.
  intros Hf Hs Hd ev. unfold handle_event. destruct (other_pid e ev); [done |].
  apply (row_of_hook rodata ntop6 e h _ _ 0 js jd); try done; try (apply (bool_decide_unpack _); by vm_compute);
    simpl; lia.
Qed.

(** The option [-p].  [-p] with the number of a process, as it is printed,
    makes the tracer print the rows of that process only. *)
Theorem pid_option_filters strtod_us ntop6 n js jd ev :
  0 < n < 2 ^ 31 -> 0 <= tgid ev < 2 ^ 31 ->
  exists e, argp_parse strtod_us [(chr "p", fmt_u n)] env_zero 0 = Accept e 0 /\
    handle_event ntop6 e js jd ev =
      (if tgid ev =? n then handle_event ntop6 env_zero js jd ev else Some []).
Proof.
  intros Hn Ht. exists (env_zero {{ pid := n }}). split.
  - cbn [argp_parse]. unfold parse_arg. cbn [Z.eqb chr byte.unsigned].
    rewrite strtol_fmt_u by (unfold LONG_MAX; lia). cbn. unfold constant. by rewrite s32_id by lia.
  - unfold handle_event, other_pid. rewrite s32_id by lia. cbn [pid]. change (pid (env_zero {{ pid := n }})) with n.
    rewrite (proj2 (Z.eqb_neq n 0)) by lia. cbn [negb andb].
    destruct (tgid ev =? n); done.
Qed.

(** For an IPv6 event the printer formats the first four bytes of the address
    followed by what its stack holds. *)
Lemma handle_event_ipv6 ntop6 e js jd ev : af ev = AF_INET6 -> other_pid e ev = false ->
  handle_event ntop6 e js jd ev =
    row e ev (Some (ntop6 (take 4 (saddr ev) ++ js))) (Some (ntop6 (take 4 (daddr ev) ++ jd)))
      (sp ++ fmt_d (s64 (tcp_connect_time ev))).
Proof. intros Ha Ho. unfold handle_event. by rewrite Ho, Ha. Qed.

(** ** Concrete instances *)

Definition sample_kernel : kernel :=
  {| k_vmlinux_ok := true; k_module_ok := fun _ => false;
     k_find _ n := if decide (n = str "tcp_sendmsg") then -2 else 17;
     k_prog_load _ := 8; k_raw_open _ := 9 |}.

Lemma select_programs_traceable_witness :
  select_programs sample_kernel sample_world =
    Some ([(str "tcp_v4_connect", true); (str "tcp_rcv_state_process", true); (str "tcp_sendmsg", false)], sample_world).
Proof.
  rewrite select_programs_traceable; [vm_compute; reflexivity |].
  intros id. split; [| split]; [intros _; vm_compute; set_solver | intros _; vm_compute; set_solver | done].
Defined.

Lemma connect_row_witness :
  handle_event (fun _ => []) env_zero [] [] (fill_event (fun _ => [xff]) (sample_hook 7 1999)
      (memcpy_lit (fun _ => [xff]) TASK_FUNC_LEN (str "tcp_v4_connect"))
      (memcpy_lit (fun _ => [xff]) TCP_DESCRIPTION_LEN (str "client send SYN packet")) 0) =
  Some (str "42     client       4  127.0.0.1        127.0.0.1        9999  1 tcp_v4_connect TCP_SYN_SENT client send SYN packet 0" ++ [x0a]).
Proof.
  rewrite connect_row; [vm_compute; reflexivity | done | vm_compute; done | vm_compute; done].
Defined.

Lemma pid_option_filters_witness :
  exists e, argp_parse (fun _ => (0, 0)) [(chr "p", str "185")] env_zero 0 = Accept e 0 /\
    handle_event (fun _ => []) e [] [] (fill_event (fun _ => []) (sample_hook 7 1999) [NUL] [NUL] 0) = Some [].
Proof.
  destruct (pid_option_filters (fun _ => (0, 0)) (fun _ => []) 185 [] []
    (fill_event (fun _ => []) (sample_hook 7 1999) [NUL] [NUL] 0)) as (e & E1 & E2);
    [lia | vm_compute; done | exists e; split; [exact E1 | exact E2]].
Defined.
