(* ===== verification/TcpAnalyseService.v ===== *)
(** The service tracer: its BPF programs,
    src/ebpf_for_service/tcp_analyse_service.bpf.c, and its user side,
    src/ebpf_for_service/tcp_analyse_service.c.

    The service's [struct event] has no connect time; the field of the shared
    record is 0 and never printed. *)
From S2P Require Import Prelude.
From S2P Require Import CLib.
From S2P Require Import RingBufMgr.
From S2P Require Import TcpEvent.
From S2P Require Import TcpAnalyseBpf.
From S2P Require Import TcpAnalyse.

(** ** The BPF programs *)

Record service := { sv_events : list event; tcp_recvmsg_events : list event }.

Section Programs.
Context (rodata : list byte -> list byte) (targ_min_us : Z).

Definition lit_event (h : hook) (f d : list byte) : event :=
  fill_event rodata h (memcpy_lit rodata TASK_FUNC_LEN f) (memcpy_lit rodata TCP_DESCRIPTION_LEN d) 0.

Definition handle_tcp_v4_do_rcv (h : hook) (st : service) : service :=
  if too_early targ_min_us h then st else
  {| sv_events := sv_events st ++ [lit_event h (str "tcp_v4_do_rcv") (str "rcv ack")];
     tcp_recvmsg_events := tcp_recvmsg_events st |}.

(** [h_sock] is what is read at the first argument taken as a [struct sock]. *)
Definition handle_tcp_v4_rcv (h : hook) (st : service) : service :=
  if too_early targ_min_us h then st else
  {| sv_events := sv_events st ++ [lit_event h (str "tcp_v4_rcv") (str "server receive SYN packet")];
     tcp_recvmsg_events := tcp_recvmsg_events st |}.

Definition handle_tcp_recvmsg (h : hook) (st : service) : service :=
  if too_early targ_min_us h then st else
  {| sv_events := sv_events st;
     tcp_recvmsg_events := tcp_recvmsg_events st ++ [lit_event h (str "tcp_recvmsg") (str "server receive message")] |}.

Definition service_tcp_rcv_state_process (h : hook) (st : service) : service :=
  if too_early targ_min_us h then st else
  {| sv_events := sv_events st ++ [lit_event h (str "tcp_rcv_state_process") (str "server state change")];
     tcp_recvmsg_events := tcp_recvmsg_events st |}.

(** The attached programs, by the function they trace. *)
Inductive service_call :=
| fentry_service_rcv_state_process (h : hook)
| fentry_tcp_v4_do_rcv (h : hook)
| fentry_tcp_recvmsg (h : hook)
| fentry_tcp_v4_rcv (h : hook).

Definition run_service (c : service_call) (st : service) : service :=
  match c with
  | fentry_service_rcv_state_process h => service_tcp_rcv_state_process h st
  | fentry_tcp_v4_do_rcv h => handle_tcp_v4_do_rcv h st
  | fentry_tcp_recvmsg h => handle_tcp_recvmsg h st
  | fentry_tcp_v4_rcv h => handle_tcp_v4_rcv h st
  end.

End Programs.

(** ** The printers *)

Section Print.
Context (ntop6 : list byte -> list byte).

Definition handle_tcp_recvmsg_event (e : env) (js jd : list byte) (ev : event) : option (list byte) :=
  if other_pid e ev then Some [] else
  let s := take 4 (saddr ev) ++ js in
  let d := take 4 (daddr ev) ++ jd in
  row e ev (inet_ntop ntop6 (af ev) s) (inet_ntop ntop6 (af ev) d) [].

(** The unions are set by family; [js] and [jd] are the 16 bytes they hold
    before. *)
Definition service_handle_event (e : env) (js jd : list byte) (ev : event) : option (list byte) :=
  if other_pid e ev then Some [] else
  let '(s, d) :=
    if af ev =? AF_INET then (take 4 (saddr ev) ++ drop 4 js, take 4 (daddr ev) ++ drop 4 jd)
    else if af ev =? AF_INET6 then (saddr ev, daddr ev)
    else (js, jd) in
  row e ev (inet_ntop ntop6 (af ev) s) (inet_ntop ntop6 (af ev) d) [].

End Print.

(** ** main

    The braces of the source put the test of "tcp_rcv_state_process" inside the
    branch for a kernel without "tcp_v4_do_rcv". *)

Definition service_select (k : kernel) (w : world) : option (autoload * world) :=
  '(v, w) ← select k (str "tcp_v4_rcv") w;
  '(d, w) ← fentry_can_attach k (str "tcp_v4_do_rcv") None w;
  '(r, w) ← (if d : bool then Some ((str "tcp_rcv_state_process", true), w)
             else select k (str "tcp_rcv_state_process") w);
  '(m, w) ← select k (str "tcp_recvmsg") w;
  Some ([v; (str "tcp_v4_do_rcv", d); r; m], w).

Definition service_main (strtod_us : list byte -> Z * Z) (sc : script) (opts : list (Z * list byte)) (w : world) :
    option (option Z) :=
  match argp_parse strtod_us opts env_zero 0 with
  | Unknown => Some (Some 7)
  | Help => Some (Some 0)
  | UsageExit => Some (Some 64)
  | Accept e _ =>
    if negb (sc_open_ok sc) then Some (Some 1) else
    '(progs, _) ← service_select (sc_kernel sc) w;
    Some (run_tracer sc progs)
  end.

(** ** Properties *)

Definition service_hook (c : service_call) : hook :=
  match c with
  | fentry_service_rcv_state_process h | fentry_tcp_v4_do_rcv h | fentry_tcp_recvmsg h | fentry_tcp_v4_rcv h => h
  end.

(** The texts of a program's events: function and description. *)
Definition service_texts (c : service_call) : list byte * list byte :=
  match c with
  | fentry_service_rcv_state_process _ => (str "tcp_rcv_state_process", str "server state change")
  | fentry_tcp_v4_do_rcv _ => (str "tcp_v4_do_rcv", str "rcv ack")
  | fentry_tcp_recvmsg _ => (str "tcp_recvmsg", str "server receive message")
  | fentry_tcp_v4_rcv _ => (str "tcp_v4_rcv", str "server receive SYN packet")
  end.

(** The rows printed for what a state holds, first those of [events]. *)
Definition service_rows (ntop6 : list byte -> list byte) (e : env) (js jd : list byte) (st : service) :
    list (option (list byte)) :=
  map (service_handle_event ntop6 e js jd) (sv_events st) ++
  map (handle_tcp_recvmsg_event ntop6 e js jd) (tcp_recvmsg_events st).

(** A literal that fits its field. *)
Definition short (n : nat) (s : list byte) : bool := bool_decide (NUL ∉ s) && (length s <? n)%nat.

Lemma short_spec n s : short n s = true -> NUL ∉ s /\ (length s < n)%nat.
Proof. unfold short. rewrite andb_true_iff, bool_decide_eq_true, Nat.ltb_lt. done. Qed.

Lemma service_print_v4 rodata ntop6 e js jd h f d :
  skc_family (h_sock h) = AF_INET ->
  0 <= skc_rcv_saddr (h_sock h) < 2 ^ 32 -> 0 <= skc_daddr (h_sock h) < 2 ^ 32 ->
  short TASK_FUNC_LEN f = true -> short TCP_DESCRIPTION_LEN d = true ->
  let ev := lit_event rodata h f d in
  let line := Some (if other_pid e ev then [] else
    row_text e ev (Some (inet_ntop4 (skc_rcv_saddr (h_sock h)))) (Some (inet_ntop4 (skc_daddr (h_sock h))))
      f (get_tcp_state (skc_state (h_sock h))) d []) in
  service_handle_event ntop6 e js jd ev = line /\ handle_tcp_recvmsg_event ntop6 e js jd ev = line.
Proof.
  intros Hf Hs Hd Lf Ld ev line. apply short_spec in Lf as [Nf Lf]. apply short_spec in Ld as [Nd Ld].
  unfold service_handle_event, handle_tcp_recvmsg_event, line.
  destruct (other_pid e ev); [done |].
  assert (af ev = AF_INET) as Ha by exact Hf. rewrite Ha. cbn [Z.eqb AF_INET Pos.eqb].
  split; rewrite <- Ha; by apply row_of_hook.
Qed.

(** Each program of the service tracer reports each call once.  When the
    time filter lets it pass, a call for an IPv4 socket adds one event to the
    buffer of its program, and the row printed for it has the process, the
    addresses, the port, the time, the state's name and that program's texts,
    whatever the read-only data and the stack hold; the events already there
    stay. *)
Theorem service_reports_call rodata m ntop6 e js jd c st :
  too_early m (service_hook c) = false ->
  skc_family (h_sock (service_hook c)) = AF_INET ->
  0 <= skc_rcv_saddr (h_sock (service_hook c)) < 2 ^ 32 -> 0 <= skc_daddr (h_sock (service_hook c)) < 2 ^ 32 ->
  let h := service_hook c in
  let '(f, d) := service_texts c in
  let ev := lit_event rodata h f d in
  Permutation (service_rows ntop6 e js jd (run_service rodata m c st))
    (service_rows ntop6 e js jd st ++
     [Some (if other_pid e ev then [] else
        row_text e ev (Some (inet_ntop4 (skc_rcv_saddr (h_sock h)))) (Some (inet_ntop4 (skc_daddr (h_sock h))))
          f (get_tcp_state (skc_state (h_sock h))) d [])]).
Proof.
  intros Ht Hf Hs Hd h.
  assert (forall x A B, Permutation ((A ++ [x]) ++ B) ((A ++ B) ++ [x] : list (option (list byte)))) as Hmid.
  { intros x A B. rewrite <- !app_assoc. apply Permutation_app_head, Permutation_app_comm. }
  destruct c as [h' | h' | h' | h']; cbn [service_texts run_service service_hook] in *;
    unfold service_tcp_rcv_state_process, handle_tcp_v4_do_rcv, handle_tcp_recvmsg, handle_tcp_v4_rcv;
    rewrite Ht; unfold service_rows; cbn [sv_events tcp_recvmsg_events]; rewrite map_app; cbn [map];
    lazymatch goal with
    | |- context [handle_tcp_recvmsg_event ntop6 e js jd (lit_event rodata ?x ?f ?d)] =>
      by rewrite app_assoc, (proj2 (service_print_v4 rodata ntop6 e js jd x f d Hf Hs Hd eq_refl eq_refl))
    | |- context [service_handle_event ntop6 e js jd (lit_event rodata ?x ?f ?d)] =>
      rewrite (proj1 (service_print_v4 rodata ntop6 e js jd x f d Hf Hs Hd eq_refl eq_refl)); apply Hmid
    end.
Qed.

Lemma service_select_spec k w : kernel_ok k w ->
  service_select k w =
    Some ([(str "tcp_v4_rcv", traceable k (str "tcp_v4_rcv")); (str "tcp_v4_do_rcv", traceable k (str "tcp_v4_do_rcv"));
           (str "tcp_rcv_state_process",
            traceable k (str "tcp_v4_do_rcv") || traceable k (str "tcp_rcv_state_process"));
           (str "tcp_recvmsg", traceable k (str "tcp_recvmsg"))], w).
Proof.
  intros Hk. unfold service_select, select.
  rewrite (can_attach_spec k (str "tcp_v4_rcv") w Hk). cbn [mbind option_bind].
  rewrite (can_attach_spec k (str "tcp_v4_do_rcv") w Hk). cbn [mbind option_bind].
  destruct (traceable k (str "tcp_v4_do_rcv")); cbn [mbind option_bind orb];
    rewrite ?(can_attach_spec k (str "tcp_rcv_state_process") w Hk); cbn [mbind option_bind];
    rewrite (can_attach_spec k (str "tcp_recvmsg") w Hk); done.
Qed.

(** A misplaced brace.  On a kernel that can trace "tcp_v4_do_rcv" but not
    "tcp_rcv_state_process", the service tracer does not switch the program for
    the latter off, as it would if the two tests were independent; loading an
    object with a program that cannot be attached fails, and the tracer exits
    with status 1 instead of running with the other programs. *)
Theorem service_rcv_state_not_switched_off strtod_us sc opts w e n :
  argp_parse strtod_us opts env_zero 0 = Accept e n -> sc_open_ok sc = true -> kernel_ok (sc_kernel sc) w ->
  (forall progs f, (f, true) ∈ progs -> traceable (sc_kernel sc) f = false -> sc_load sc progs <> 0) ->
  traceable (sc_kernel sc) (str "tcp_v4_do_rcv") = true ->
  traceable (sc_kernel sc) (str "tcp_rcv_state_process") = false ->
  service_main strtod_us sc opts w = Some (Some 1).
Proof.
  intros Hp Ho Hk Hload Hd Hr. unfold service_main. rewrite Hp, Ho, (service_select_spec _ _ Hk).
  cbn [negb mbind option_bind]. rewrite Hd, Hr. cbn [orb]. unfold run_tracer.
  rewrite (proj2 (Z.eqb_neq _ _)); [done |].
  eapply Hload; [| exact Hr]. apply list_elem_of_In. right. right. by left.
Qed.

(** ** Concrete instances *)

Lemma service_reports_call_witness :
  service_rows (fun _ => []) env_zero [] [] (run_service (fun _ => [xff]) 0 (fentry_tcp_v4_do_rcv (sample_hook 7 1999))
      {| sv_events := []; tcp_recvmsg_events := [] |}) =
  [Some (str "42     client       4  127.0.0.1        127.0.0.1        9999  1 tcp_v4_do_rcv TCP_SYN_SENT rcv ack" ++ [x0a])].
Proof.
  pose proof (service_reports_call (fun _ => [xff]) 0 (fun _ => []) env_zero [] []
    (fentry_tcp_v4_do_rcv (sample_hook 7 1999)) {| sv_events := []; tcp_recvmsg_events := [] |}) as H.
  apply Permutation_singleton_r. etransitivity; [apply H; vm_compute; done |]. vm_compute. reflexivity.
Defined.

Definition partial_kernel : kernel :=
  {| k_vmlinux_ok := true; k_module_ok := fun _ => false;
     k_find _ n := if decide (n = str "tcp_rcv_state_process") then -2 else 17;
     k_prog_load _ := 8; k_raw_open _ := 9 |}.

Definition partial_script : script :=
  {| sc_open_ok := true; sc_kernel := partial_kernel;
     sc_load progs := if forallb (fun '(f, b) => negb b || traceable partial_kernel f) progs then 0 else -22;
     sc_attach _ := 0; sc_pb_ok := true; sc_second_pb_ok := true; sc_signal_ok := true; sc_exiting := false;
     sc_rounds := [] |}.

Lemma service_rcv_state_not_switched_off_witness :
  service_main (fun _ => (0, 0)) partial_script [] sample_world = Some (Some 1).
Proof.
  apply (service_rcv_state_not_switched_off (fun _ => (0, 0)) partial_script [] sample_world env_zero 0);
    [done | done | | | vm_compute; done | vm_compute; done].
  - intros id. split; [| split]; [intros _; vm_compute; set_solver | intros _; vm_compute; set_solver | done].
  - intros progs f Hin Hf. cbn [sc_load partial_script sc_kernel] in *.
    destruct (forallb _ progs) eqn:E; [| done]. rewrite forallb_forall in E.
    apply list_elem_of_In in Hin. specialize (E _ Hin). simpl in E. by rewrite Hf in E.
Defined.
