(* ===== verification/Shm.v ===== *)
(** The shared memory channel of src/shm.c: a process that runs
    [tcp_connect_shm_write] and one that runs [tcp_connect_shm_read], in any
    interleaving of their system calls and memory accesses.

    A step relation: each process has a program counter with its local
    variables; the kernel's System V objects are the shared state.  [ftok] gives both
    functions the same key, so there is one name for the segment and one
    for the semaphore.  Copying into the segment is one step per byte.  The
    code looks at no result: where a call fails, the process goes on with -1, and
    is killed when that is an address. *)
From S2P Require Import Prelude.
From S2P Require Import CLib.

Definition SHM_SIZE : nat := 1024.
Definition message : list byte := str "Hello from writer".

(** ** System V objects *)

(** Segments by id; the id the key stands for (until IPC_RMID); the same for
    semaphores; ids are not used again. *)
Record ipc := {
  segs : gmap Z (list byte);
  shm_key : option Z;
  sems : gmap Z Z;
  sem_key : option Z;
  next_id : Z
}.

Definition ipc_empty : ipc := {| segs := ∅; shm_key := None; sems := ∅; sem_key := None; next_id := 0 |}.

(** [shmget] and [semget] with IPC_CREAT. *)
Definition shmget (k : ipc) : Z * ipc :=
  match shm_key k with
  | Some id => (id, k)
  | None => (next_id k, {| segs := <[next_id k := replicate SHM_SIZE NUL]> (segs k); shm_key := Some (next_id k);
                           sems := sems k; sem_key := sem_key k; next_id := next_id k + 1 |})
  end.

Definition semget (k : ipc) : Z * ipc :=
  match sem_key k with
  | Some id => (id, k)
  | None => (next_id k, {| segs := segs k; shm_key := shm_key k; sems := <[next_id k := 0]> (sems k);
                           sem_key := Some (next_id k); next_id := next_id k + 1 |})
  end.

Definition set_sem (k : ipc) (id : Z) (v : Z) : ipc :=
  {| segs := segs k; shm_key := shm_key k; sems := <[id := v]> (sems k); sem_key := sem_key k; next_id := next_id k |}.

Definition set_seg (k : ipc) (id : Z) (d : list byte) : ipc :=
  {| segs := <[id := d]> (segs k); shm_key := shm_key k; sems := sems k; sem_key := sem_key k; next_id := next_id k |}.

Definition shm_rmid (k : ipc) : ipc :=
  {| segs := segs k; shm_key := None; sems := sems k; sem_key := sem_key k; next_id := next_id k |}.

Definition sem_rmid (k : ipc) (id : Z) : ipc :=
  {| segs := segs k; shm_key := shm_key k; sems := delete id (sems k); sem_key := None; next_id := next_id k |}.

(** ** The two processes *)

(** Where the writer is: about to make the call in the name; [WCopy i] about to
    store byte [i] of the message and its terminator. *)
Inductive writer :=
| WShmget
| WSemget (shmid : Z)
| WSetval (shmid semid : Z)
| WShmat (shmid semid : Z)
| WCopy (shmid semid : Z) (i : nat)
| WPost (shmid semid : Z)
| WShmdt (shmid semid : Z)
| WDone (shmid semid : Z)
| WKilled.

(** The reader; [RStrcpy n] has a buffer for [n] characters and a terminator. *)
Inductive reader :=
| RShmget
| RSemget (shmid : Z)
| RWait (shmid semid : Z)
| RShmat (shmid semid : Z)
| RStrlen (shmid semid : Z)
| RStrcpy (shmid semid : Z) (n : Z)
| RShmdt (shmid semid : Z) (ret : list byte)
| RRmidShm (shmid semid : Z) (ret : list byte)
| RRmidSem (shmid semid : Z) (ret : list byte)
| RDone (shmid semid : Z) (ret : list byte)
| RKilled.

(** Calls that do not fail.  The reader is taken to be killed where it reads past
    the segment, or writes past its buffer. *)
Inductive wstep : writer -> ipc -> writer -> ipc -> Prop :=
| ws_shmget k id k' : shmget k = (id, k') -> wstep WShmget k (WSemget id) k'
| ws_semget k m id k' : semget k = (id, k') -> wstep (WSemget m) k (WSetval m id) k'
| ws_setval k m s v : sems k !! s = Some v -> wstep (WSetval m s) k (WShmat m s) (set_sem k s 0)
| ws_shmat k m s : is_Some (segs k !! m) -> shm_key k = Some m -> wstep (WShmat m s) k (WCopy m s 0) k
| ws_copy k m s i d d' b : segs k !! m = Some d -> (message ++ [NUL]) !! i = Some b ->
    store d (Z.of_nat i) [b] = Some d' -> wstep (WCopy m s i) k (WCopy m s (S i)) (set_seg k m d')
| ws_copied k m s : wstep (WCopy m s (length message + 1)) k (WPost m s) k
| ws_post k m s v : sems k !! s = Some v -> wstep (WPost m s) k (WShmdt m s) (set_sem k s (v + 1))
| ws_shmdt k m s : wstep (WShmdt m s) k (WDone m s) k.

Inductive rstep : reader -> ipc -> reader -> ipc -> Prop :=
| rs_shmget k id k' : shmget k = (id, k') -> rstep RShmget k (RSemget id) k'
| rs_semget k m id k' : semget k = (id, k') -> rstep (RSemget m) k (RWait m id) k'
| rs_wait k m s v : sems k !! s = Some v -> 0 < v -> rstep (RWait m s) k (RShmat m s) (set_sem k s (v - 1))
| rs_shmat k m s : is_Some (segs k !! m) -> shm_key k = Some m -> rstep (RShmat m s) k (RStrlen m s) k
| rs_strlen k m s d n : segs k !! m = Some d -> strlen d = Some n -> rstep (RStrlen m s) k (RStrcpy m s n) k
| rs_strlen_past k m s d : segs k !! m = Some d -> strlen d = None -> rstep (RStrlen m s) k RKilled k
| rs_strcpy k m s n d n' : segs k !! m = Some d -> strlen d = Some n' -> n' <= n ->
    rstep (RStrcpy m s n) k (RShmdt m s (cstr d)) k
| rs_strcpy_past k m s n d : segs k !! m = Some d -> (forall n', strlen d = Some n' -> n < n') -> rstep (RStrcpy m s n) k RKilled k
| rs_shmdt k m s ret : rstep (RShmdt m s ret) k (RRmidShm m s ret) k
| rs_rmid_shm k m s ret : rstep (RRmidShm m s ret) k (RRmidSem m s ret) (shm_rmid k)
| rs_rmid_sem k m s ret : rstep (RRmidSem m s ret) k (RDone m s ret) (sem_rmid k s).

(** Calls that fail change nothing: the kernel's objects stay.  [shmget] and
    [semget] return -1, which is no object; [shmat] returns the address -1, which the
    next line writes or reads; [malloc] returns null, which [strcpy] writes; the
    results of the others are not used. *)
Inductive wfail : writer -> writer -> Prop :=
| wf_shmget : wfail WShmget (WSemget (-1))
| wf_semget m : wfail (WSemget m) (WSetval m (-1))
| wf_setval m s : wfail (WSetval m s) (WShmat m s)
| wf_shmat m s : wfail (WShmat m s) WKilled
| wf_post m s : wfail (WPost m s) (WShmdt m s)
| wf_shmdt m s : wfail (WShmdt m s) (WDone m s).

Inductive rfail : reader -> reader -> Prop :=
| rf_shmget : rfail RShmget (RSemget (-1))
| rf_semget m : rfail (RSemget m) (RWait m (-1))
| rf_wait m s : rfail (RWait m s) (RShmat m s)
| rf_shmat m s : rfail (RShmat m s) RKilled
| rf_malloc m s : rfail (RStrlen m s) RKilled
| rf_shmdt m s ret : rfail (RShmdt m s ret) (RRmidShm m s ret)
| rf_rmid_shm m s ret : rfail (RRmidShm m s ret) (RRmidSem m s ret)
| rf_rmid_sem m s ret : rfail (RRmidSem m s ret) (RDone m s ret).

(** The system: either process makes a step. *)
Record system := { sy_w : writer; sy_r : reader; sy_k : ipc }.

Inductive step : system -> system -> Prop :=
| step_w w k w' k' r : wstep w k w' k' ->
    step {| sy_w := w; sy_r := r; sy_k := k |} {| sy_w := w'; sy_r := r; sy_k := k' |}
| step_r w k r r' k' : rstep r k r' k' ->
    step {| sy_w := w; sy_r := r; sy_k := k |} {| sy_w := w; sy_r := r'; sy_k := k' |}.

(** The same, with calls that may fail. *)
Inductive faulty_step : system -> system -> Prop :=
| step_ok s s' : step s s' -> faulty_step s s'
| step_wf w k w' r : wfail w w' ->
    faulty_step {| sy_w := w; sy_r := r; sy_k := k |} {| sy_w := w'; sy_r := r; sy_k := k |}
| step_rf w k r r' : rfail r r' ->
    faulty_step {| sy_w := w; sy_r := r; sy_k := k |} {| sy_w := w; sy_r := r'; sy_k := k |}.

(** No objects are there, and no call fails. *)
Definition start : system := {| sy_w := WShmget; sy_r := RShmget; sy_k := ipc_empty |}.

Definition reachable : system -> Prop := rtc step start.

(** ** The invariant *)

Definition w_shm (w : writer) : option Z :=
  match w with
  | WShmget | WKilled => None
  | WSemget m | WSetval m _ | WShmat m _ | WCopy m _ _ | WPost m _ | WShmdt m _ | WDone m _ => Some m
  end.

Definition w_sem (w : writer) : option Z :=
  match w with
  | WShmget | WSemget _ | WKilled => None
  | WSetval _ s | WShmat _ s | WCopy _ s _ | WPost _ s | WShmdt _ s | WDone _ s => Some s
  end.

Definition r_shm (r : reader) : option Z :=
  match r with
  | RShmget | RKilled => None
  | RSemget m | RWait m _ | RShmat m _ | RStrlen m _ | RStrcpy m _ _ | RShmdt m _ _ | RRmidShm m _ _
  | RRmidSem m _ _ | RDone m _ _ => Some m
  end.

Definition r_sem (r : reader) : option Z :=
  match r with
  | RShmget | RSemget _ | RKilled => None
  | RWait _ s | RShmat _ s | RStrlen _ s | RStrcpy _ s _ | RShmdt _ s _ | RRmidShm _ s _
  | RRmidSem _ s _ | RDone _ s _ => Some s
  end.

Definition posted (w : writer) : bool := match w with WShmdt _ _ | WDone _ _ => true | _ => false end.

Definition waited (r : reader) : bool :=
  match r with RShmget | RSemget _ | RWait _ _ => false | _ => true end.

Definition shm_removed (r : reader) : bool := match r with RRmidSem _ _ _ | RDone _ _ _ => true | _ => false end.
Definition sem_removed (r : reader) : bool := match r with RDone _ _ _ => true | _ => false end.

(** How many bytes of the message are in place. *)
Definition copied (w : writer) : nat :=
  match w with
  | WCopy _ _ i => i
  | WPost _ _ | WShmdt _ _ | WDone _ _ => length message + 1
  | _ => 0
  end.

(** What the reader holds is the message. *)
Definition read_ok (r : reader) : Prop :=
  match r with
  | RStrcpy _ _ n => n = zlen message
  | RKilled => False
  | RShmdt _ _ ret | RRmidShm _ _ ret | RRmidSem _ _ ret | RDone _ _ ret => ret = message
  | _ => True
  end.

(** The object a process knows is the one the key stands for. *)
Definition agrees (key known : option Z) : Prop := forall id, known = Some id -> key = Some id.

Record inv (s : system) : Prop := {
  inv_order : waited (sy_r s) = true -> posted (sy_w s) = true;
  inv_shm : if shm_removed (sy_r s) then shm_key (sy_k s) = None
            else agrees (shm_key (sy_k s)) (w_shm (sy_w s)) /\ agrees (shm_key (sy_k s)) (r_shm (sy_r s));
  inv_seg m : shm_key (sy_k s) = Some m ->
    exists d, segs (sy_k s) !! m = Some d /\ length d = SHM_SIZE /\
      take (copied (sy_w s)) d = take (copied (sy_w s)) (message ++ [NUL]);
  inv_sem : if sem_removed (sy_r s) then sem_key (sy_k s) = None
            else agrees (sem_key (sy_k s)) (w_sem (sy_w s)) /\ agrees (sem_key (sy_k s)) (r_sem (sy_r s));
  inv_val i : sem_key (sy_k s) = Some i ->
    sems (sy_k s) !! i = Some (if posted (sy_w s) && negb (waited (sy_r s)) then 1 else 0);
  inv_alive : sy_w s <> WKilled;
  inv_copied : (copied (sy_w s) <= length message + 1)%nat;
  inv_read : read_ok (sy_r s)
}.

Lemma inv_start : inv start.
Proof. split; simpl; try done; try lia. Qed.

(** [shmget] and [semget] keep what the processes know, and return what the
    key stands for. *)
Lemma shmget_spec k id k' : shmget k = (id, k') ->
  shm_key k' = Some id /\ sem_key k' = sem_key k /\ sems k' = sems k /\
  (forall known, agrees (shm_key k) known -> agrees (shm_key k') known) /\
  ((shm_key k = Some id /\ k' = k) \/ (shm_key k = None /\ segs k' !! id = Some (replicate SHM_SIZE NUL))).
Proof.
  unfold shmget. destruct (shm_key k) as [i |] eqn:E; intros [= <- <-]; simpl.
  - rewrite E. split_and!; try done. by left.
  - split_and!; try done.
    + intros known Ha i Hi. by specialize (Ha i Hi).
    + right. by rewrite lookup_insert_eq.
Qed.

Lemma semget_spec k id k' : semget k = (id, k') ->
  sem_key k' = Some id /\ shm_key k' = shm_key k /\ segs k' = segs k /\
  (forall known, agrees (sem_key k) known -> agrees (sem_key k') known) /\
  ((sem_key k = Some id /\ k' = k) \/ (sem_key k = None /\ sems k' !! id = Some 0)).
Proof.
  unfold semget. destruct (sem_key k) as [i |] eqn:E; intros [= <- <-]; simpl.
  - rewrite E. split_and!; try done. by left.
  - split_and!; try done.
    + intros known Ha i Hi. by specialize (Ha i Hi).
    + right. by rewrite lookup_insert_eq.
Qed.

Lemma agrees_Some id : agrees (Some id) (Some id).
Proof. by intros i [= ->]. Qed.

(** Before the post the reader has not got past the semaphore. *)
Lemma not_posted w r k : inv {| sy_w := w; sy_r := r; sy_k := k |} -> posted w = false ->
  waited r = false /\ shm_removed r = false /\ sem_removed r = false.
Proof.
  intros HI Hp. pose proof (inv_order _ HI) as Ho. simpl in Ho. rewrite Hp in Ho.
  destruct r; simpl in *; try done; by specialize (Ho eq_refl).
Qed.

(** Storing the next byte of the message extends the part in place. *)
Lemma copy_next d i b d' : length d = SHM_SIZE -> take i d = take i (message ++ [NUL]) ->
  (message ++ [NUL]) !! i = Some b -> store d (Z.of_nat i) [b] = Some d' ->
  length d' = SHM_SIZE /\ take (S i) d' = take (S i) (message ++ [NUL]).
Proof.
  intros Hl Ht Hb Hs. pose proof (zlen_store _ _ _ _ Hs) as Hz. split; [unfold zlen in Hz; lia |].
  assert (i < length (message ++ [NUL]))%nat as Hi by (by eapply lookup_lt_Some).
  apply list_eq. intros j. destruct (decide (j < S i)%nat) as [Hj | Hj].
  2: { rewrite !lookup_take_ge by lia. done. }
  rewrite !lookup_take_lt by lia. rewrite (lookup_store _ _ _ _ j Hs), Nat2Z.id. simpl length.
  destruct (decide (j = i)) as [-> | Hne].
  - rewrite decide_True by lia. by rewrite Nat.sub_diag, Hb.
  - rewrite decide_False by lia. apply (f_equal (fun l => l !! j)) in Ht.
    by rewrite !lookup_take_lt in Ht by lia.
Qed.

Lemma inv_wstep w k w' k' r :
  wstep w k w' k' -> inv {| sy_w := w; sy_r := r; sy_k := k |} -> inv {| sy_w := w'; sy_r := r; sy_k := k' |}.
Proof.
  intros HS HI. destruct (posted w) eqn:Hp.
  { destruct HS; try done. by destruct HI. }
  destruct (not_posted _ _ _ HI Hp) as (Hw & Hrm & Hsm).
  destruct HI as [Ho Hshm Hseg Hsem Hval Hlive Hc Hr]. cbn [sy_w sy_r sy_k] in *. rewrite Hrm in Hshm. rewrite Hsm in Hsem.
  destruct Hshm as [A1 A2], Hsem as [B1 B2].
  destruct HS as [k id k' E | k m id k' E | k m s v E | k m s E1 E2 | k m s i d d' b E1 E2 E3 | k m s | k m s v E | k m s];
    cbn [posted w_shm w_sem copied] in *.
  - destruct (shmget_spec _ _ _ E) as (F1 & F2 & F3 & F4 & F5).
    split; cbn [sy_w sy_r sy_k posted w_shm w_sem copied]; rewrite ?Hrm, ?Hsm, ?Hw, ?F2, ?F3; try done.
    + split; [rewrite F1; apply agrees_Some | by apply F4].
    + intros m Hm. rewrite F1 in Hm. injection Hm as <-. destruct F5 as [[G1 ->] | [G1 G2]]; [by apply Hseg |].
      exists (replicate SHM_SIZE NUL). by rewrite length_replicate.
  - destruct (semget_spec _ _ _ E) as (F1 & F2 & F3 & F4 & F5).
    split; cbn [sy_w sy_r sy_k posted w_shm w_sem copied]; rewrite ?Hrm, ?Hsm, ?Hw, ?F2, ?F3; try done.
    + split; [rewrite F1; apply agrees_Some | by apply F4].
    + intros i Hi. rewrite F1 in Hi. injection Hi as <-. destruct F5 as [[G1 ->] | [G1 G2]]; [| done].
      by apply Hval.
  - split; cbn [sy_w sy_r sy_k posted w_shm w_sem copied set_sem shm_key sem_key segs sems];
      rewrite ?Hrm, ?Hsm, ?Hw; try done.
    intros i Hi. rewrite (B1 s eq_refl) in Hi. injection Hi as <-. by rewrite lookup_insert_eq.
  - split; cbn [sy_w sy_r sy_k posted w_shm w_sem copied]; rewrite ?Hrm, ?Hsm, ?Hw; try done; lia.
  - split; cbn [sy_w sy_r sy_k posted w_shm w_sem copied set_seg shm_key sem_key segs sems];
      rewrite ?Hrm, ?Hsm, ?Hw; try done.
    + intros m' Hm. rewrite (A1 m eq_refl) in Hm. injection Hm as <-.
      destruct (Hseg m (A1 m eq_refl)) as (d0 & G1 & G2 & G3). rewrite E1 in G1. injection G1 as <-.
      exists d'. rewrite lookup_insert_eq. split; [done |]. by eapply copy_next.
    + apply lookup_lt_Some in E2. rewrite length_app in E2. simpl in *. lia.
  - split; cbn [sy_w sy_r sy_k posted w_shm w_sem copied]; rewrite ?Hrm, ?Hsm, ?Hw; done.
  - split; cbn [sy_w sy_r sy_k posted w_shm w_sem copied set_sem shm_key sem_key segs sems];
      rewrite ?Hrm, ?Hsm, ?Hw; try done.
    intros i Hi. pose proof (Hval i Hi) as Hv. rewrite (B1 s eq_refl) in Hi. injection Hi as <-.
    rewrite E in Hv. injection Hv as ->. by rewrite lookup_insert_eq.
  - done.
Qed.

(** Once the writer has posted, the segment holds the message. *)
Lemma segment_text d : length d = SHM_SIZE ->
  take (length message + 1) d = take (length message + 1) (message ++ [NUL]) ->
  strlen d = Some (zlen message) /\ cstr d = message.
Proof.
  intros _ Ht. rewrite <- (take_drop (length message + 1) d), Ht.
  rewrite take_ge by (rewrite length_app; simpl; lia). rewrite <- app_assoc.
  split; [apply strlen_app_nul | apply cstr_app_nul]; apply (bool_decide_unpack _); by vm_compute.
Qed.

Lemma posted_copied w : posted w = true -> copied w = (length message + 1)%nat.
Proof. by destruct w. Qed.

Lemma inv_rstep r k r' k' w :
  rstep r k r' k' -> inv {| sy_w := w; sy_r := r; sy_k := k |} -> inv {| sy_w := w; sy_r := r'; sy_k := k' |}.
Proof.
  intros HS HI.
  destruct HI as [Ho Hshm Hseg Hsem Hval Hlive Hc Hr]. cbn [sy_w sy_r sy_k] in *.
  destruct HS as [k id k' E | k m id k' E | k m s v E Hv | k m s E1 E2 | k m s d n E1 E2 | k m s d E1 E2 | k m s n d n' E1 E2 E3 | k m s n d E1 E2 | | |];
    cbn [waited shm_removed sem_removed r_shm r_sem read_ok] in *.
  - destruct (shmget_spec _ _ _ E) as (F1 & F2 & F3 & F4 & F5). destruct Hshm as [A1 A2].
    split; cbn [sy_w sy_r sy_k waited shm_removed sem_removed r_shm r_sem]; rewrite ?F2, ?F3; try done.
    + split; [by apply F4 | rewrite F1; apply agrees_Some].
    + intros m Hm. rewrite F1 in Hm. injection Hm as <-. destruct F5 as [[G1 ->] | [G1 G2]]; [by apply Hseg |].
      exists (replicate SHM_SIZE NUL). split; [done |]. split; [by rewrite length_replicate |].
      destruct w; try done; by specialize (A1 _ eq_refl); rewrite G1 in A1.
  - destruct (semget_spec _ _ _ E) as (F1 & F2 & F3 & F4 & F5). destruct Hsem as [B1 B2].
    split; cbn [sy_w sy_r sy_k waited shm_removed sem_removed r_shm r_sem]; rewrite ?F2, ?F3; try done.
    + split; [by apply F4 | rewrite F1; apply agrees_Some].
    + intros i Hi. rewrite F1 in Hi. injection Hi as <-. destruct F5 as [[G1 ->] | [G1 G2]]; [by apply Hval |].
      destruct w; try done; by specialize (B1 _ eq_refl); rewrite G1 in B1.
  - destruct Hsem as [B1 B2]. pose proof (Hval s (B2 s eq_refl)) as Hv'. rewrite E in Hv'. injection Hv' as ->.
    destruct (posted w) eqn:Hp; [| cbn in Hv; lia].
    split; cbn [sy_w sy_r sy_k waited shm_removed sem_removed r_shm r_sem set_sem shm_key sem_key segs sems];
      try done.
    intros i Hi. rewrite (B2 s eq_refl) in Hi. injection Hi as <-. by rewrite lookup_insert_eq, Hp.
  - split; done.
  - split; try done. cbn [sy_r read_ok]. destruct Hshm as [A1 A2].
    destruct (Hseg m (A2 m eq_refl)) as (d0 & G1 & G2 & G3). rewrite E1 in G1. injection G1 as <-.
    rewrite (posted_copied w (Ho eq_refl)) in G3. destruct (segment_text d G2 G3) as [H1 _]. congruence.
  - exfalso. destruct Hshm as [A1 A2]. destruct (Hseg m (A2 m eq_refl)) as (d0 & G1 & G2 & G3). rewrite E1 in G1. injection G1 as <-.
    rewrite (posted_copied w (Ho eq_refl)) in G3. destruct (segment_text d G2 G3) as [H1 _]. congruence.
  - split; try done. cbn [sy_r read_ok]. destruct Hshm as [A1 A2].
    destruct (Hseg m (A2 m eq_refl)) as (d0 & G1 & G2 & G3). rewrite E1 in G1. injection G1 as <-.
    rewrite (posted_copied w (Ho eq_refl)) in G3. by destruct (segment_text d G2 G3) as [_ ->].
  - exfalso. destruct Hshm as [A1 A2]. destruct (Hseg m (A2 m eq_refl)) as (d0 & G1 & G2 & G3). rewrite E1 in G1. injection G1 as <-.
    rewrite (posted_copied w (Ho eq_refl)) in G3. destruct (segment_text d G2 G3) as [H1 _]. specialize (E2 _ H1). lia.
  - split; done.
  - split; done.
  - split; cbn [sy_w sy_r sy_k waited shm_removed sem_removed r_shm r_sem sem_rmid shm_key sem_key segs sems]; try done.
Qed.

Lemma reachable_inv s : reachable s -> inv s.
Proof.
  revert s. apply (rtc_ind_r (R := step) inv start); [exact inv_start |].
  intros a b _ HS IH. destruct HS; [by eapply inv_wstep | by eapply inv_rstep].
Qed.

(** Every step brings its process closer to its end. *)
Definition w_left (w : writer) : nat :=
  match w with
  | WShmget => 50 | WSemget _ => 49 | WSetval _ _ => 48 | WShmat _ _ => 47
  | WCopy _ _ i => 3 + (length message + 1 - i) | WPost _ _ => 2 | WShmdt _ _ => 1 | WDone _ _ | WKilled => 0
  end.

Definition r_left (r : reader) : nat :=
  match r with
  | RShmget => 9 | RSemget _ => 8 | RWait _ _ => 7 | RShmat _ _ => 6 | RStrlen _ _ => 5 | RStrcpy _ _ _ => 4
  | RShmdt _ _ _ => 3 | RRmidShm _ _ _ => 2 | RRmidSem _ _ _ => 1 | RDone _ _ _ | RKilled => 0
  end.

Definition steps_left (s : system) : nat := w_left (sy_w s) + r_left (sy_r s).

Lemma step_decreases s s' : step s s' -> (steps_left s' < steps_left s)%nat.
Proof.
  intros [w k w' k' r HS | w k r r' k' HS]; unfold steps_left; simpl; destruct HS; simpl; try lia.
  match goal with H : _ !! i = Some _ |- _ => apply lookup_lt_Some in H; simpl in H end. simpl in *. lia.
Qed.

Lemma faulty_step_decreases s s' : faulty_step s s' -> (steps_left s' < steps_left s)%nat.
Proof. intros [s0 s0' HS | w k w' r HS | w k r r' HS]; [by apply step_decreases | |]; unfold steps_left; simpl; destruct HS; simpl; lia. Qed.

Definition finished (s : system) : Prop :=
  match sy_w s, sy_r s with WDone _ _, RDone _ _ _ => True | _, _ => False end.

Lemma writer_moves w r k : inv {| sy_w := w; sy_r := r; sy_k := k |} ->
  (exists m s, w = WDone m s) \/ exists w' k', wstep w k w' k'.
Proof.
  intros HI. destruct (posted w) eqn:Hp.
  { destruct w; try done; [right; do 2 eexists; constructor | left; by eauto]. }
  right. destruct (not_posted _ _ _ HI Hp) as (_ & Hrm & Hsm).
  destruct HI as [_ Hshm Hseg Hsem Hval Hlive Hc _]. cbn [sy_w sy_r sy_k] in *. rewrite Hrm in Hshm. rewrite Hsm in Hsem.
  destruct Hshm as [A1 _], Hsem as [B1 _]. destruct w as [| m | m s | m s | m s i | m s | | |]; try done.
  - destruct (shmget k) eqn:E. do 2 eexists. by constructor.
  - destruct (semget k) eqn:E. do 2 eexists. by constructor.
  - do 2 eexists. econstructor. exact (Hval s (B1 s eq_refl)).
  - destruct (Hseg m (A1 m eq_refl)) as (d & Hd & _). do 2 eexists. constructor; [by eexists | by apply A1].
  - destruct (Hseg m (A1 m eq_refl)) as (d & Hd & Hl & _). simpl in Hc.
    destruct (decide (i = length message + 1)%nat) as [-> | Hi]; [do 2 eexists; constructor |].
    destruct (lookup_lt_is_Some_2 (message ++ [NUL]) i) as [b Hb]; [rewrite length_app; simpl in *; lia |].
    destruct (store_Some d (Z.of_nat i) [b]) as [d' Hd'];
      [lia | unfold zlen; rewrite Hl; simpl in *; unfold SHM_SIZE; lia |].
    do 2 eexists. by eapply ws_copy.
  - do 2 eexists. econstructor. exact (Hval s (B1 s eq_refl)).
Qed.

Lemma reader_moves w r k : inv {| sy_w := w; sy_r := r; sy_k := k |} -> posted w = true ->
  (exists m s ret, r = RDone m s ret) \/ exists r' k', rstep r k r' k'.
Proof.
  intros [Ho Hshm Hseg Hsem Hval Hlive Hc Hr] Hp. cbn [sy_w sy_r sy_k] in *.
  rewrite (posted_copied w Hp) in Hseg.
  assert (forall m, shm_key k = Some m -> exists d, segs k !! m = Some d /\ strlen d = Some (zlen message)) as Htext.
  { intros m Hm. destruct (Hseg m Hm) as (d & Hd & Hl & Ht). exists d. split; [done |].
    by apply (segment_text d Hl Ht). }
  destruct r as [| m | m s | m s | m s | m s n | | | | m s ret |]; cbn [shm_removed sem_removed waited] in *;
    [right.. | left; by eauto | done].
  - destruct (shmget k) eqn:E. do 2 eexists. by constructor.
  - destruct (semget k) eqn:E. do 2 eexists. by constructor.
  - do 2 eexists. econstructor; [exact (Hval s (proj2 Hsem s eq_refl)) | by rewrite Hp].
  - destruct (Htext m (proj2 Hshm m eq_refl)) as (d & Hd & _). do 2 eexists.
    constructor; [by eexists | by apply (proj2 Hshm)].
  - destruct (Htext m (proj2 Hshm m eq_refl)) as (d & Hd & Hn). do 2 eexists. by econstructor.
  - destruct (Htext m (proj2 Hshm m eq_refl)) as (d & Hd & Hn). do 2 eexists.
    eapply rs_strcpy; [done | done |]. simpl in Hr. lia.
  - do 2 eexists. constructor.
  - do 2 eexists. constructor.
  - do 2 eexists. constructor.
Qed.

(** What the reader gets.  In every interleaving of one writer and one
    reader that start without the objects, whatever the reader has copied, and
    returns, is the writer's whole message, never an empty or partly
    written one; its copy fits the buffer it allocated. *)
Theorem shm_reader_gets_message s m i ret :
  reachable s -> sy_r s = RDone m i ret -> ret = message.
Proof. intros H E. pose proof (inv_read _ (reachable_inv s H)) as Hr. by rewrite E in Hr. Qed.

(** C19: the two processes finish.  Whatever objects there are, whichever
    calls fail, and in any interleaving, each step of one writer and one reader brings them closer to the
    end: neither loops.  When there are no objects at the start, left by
    an earlier run, and no call fails, then in any interleaving, as long as they have not both
    returned, one of them can make its next step (no deadlock, no access to a
    segment or semaphore that is gone, nothing read or written past the
    segment or the buffer); and when both have returned, neither the segment
    nor the semaphore is left under the key. *)
Theorem shm_terminates_clean :
  (forall s s', faulty_step s s' -> (steps_left s' < steps_left s)%nat) /\
  forall s, reachable s ->
    (finished s -> shm_key (sy_k s) = None /\ sem_key (sy_k s) = None) /\
    (~ finished s -> exists s', step s s') /\
    sy_w s <> WKilled /\ sy_r s <> RKilled.
Proof.
  split; [apply faulty_step_decreases |]. intros s H. pose proof (reachable_inv s H) as HI. split_and!.
  - intros Hf. destruct s as [w r k]. unfold finished in Hf. simpl in Hf.
    destruct w, r; try done. by destruct HI.
  - intros Hf. destruct s as [w r k]. destruct (writer_moves w r k HI) as [(m & i & ->) | (w' & k' & HW)].
    + destruct (reader_moves _ r k HI eq_refl) as [(m' & i' & ret & ->) | (r' & k' & HR)]; [by destruct Hf |].
      eexists. by apply step_r.
    + eexists. by apply step_w.
  - apply (inv_alive _ HI).
  - intros E. pose proof (inv_read _ HI) as Hr. by rewrite E in Hr.
Qed.

(** ** A complete run: the writer, then the reader *)

Definition store_byte (d : list byte) (i : nat) : list byte :=
  default d (b ← (message ++ [NUL]) !! i; store d (Z.of_nat i) [b]).

(** The segment after [i] bytes have been copied. *)
Definition segment (i : nat) : list byte := fold_left store_byte (seq 0 i) (replicate SHM_SIZE NUL).

Definition objects (i : nat) (v : Z) : ipc :=
  {| segs := {[ 0 := segment i ]}; shm_key := Some 0; sems := {[ 1 := v ]}; sem_key := Some 1; next_id := 2 |}.

Lemma run_copy i : (i < length message + 1)%nat ->
  step {| sy_w := WCopy 0 1 i; sy_r := RShmget; sy_k := objects i 0 |}
       {| sy_w := WCopy 0 1 (S i); sy_r := RShmget; sy_k := objects (S i) 0 |}.
Proof.
  intros Hi. apply step_w.
  destruct (lookup_lt_is_Some_2 (message ++ [NUL]) i) as [b Hb]; [rewrite length_app; simpl in *; lia |].
  assert (length (segment i) = SHM_SIZE) as Hl.
  { unfold segment. generalize (seq 0 i) as l. generalize (replicate SHM_SIZE NUL) as d, (length_replicate SHM_SIZE NUL) as Hd.
    intros d Hd l. revert d Hd. induction l as [| j l IH]; intros d Hd; simpl; [done |]. apply IH.
    unfold store_byte. destruct (_ !! j) as [c |]; simpl; [| done].
    destruct (store d (Z.of_nat j) [c]) as [d' |] eqn:E; simpl; [| done].
    apply zlen_store in E. unfold zlen in E. lia. }
  destruct (store_Some (segment i) (Z.of_nat i) [b]) as [d' Hd'];
    [lia | unfold zlen; rewrite Hl; simpl in *; unfold SHM_SIZE; lia |].
  assert (segment (S i) = d') as Hs.
  { unfold segment. rewrite seq_S, fold_left_app. change (store_byte (segment i) i = d').
    unfold store_byte. rewrite Hb. cbn [mbind option_bind]. by rewrite Hd'. }
  assert (objects (S i) 0 = set_seg (objects i 0) 0 d') as ->.
  { unfold objects, set_seg. simpl. by rewrite Hs, insert_singleton_eq. }
  by eapply ws_copy.
Qed.

Lemma run_copies n i : (i + n <= length message + 1)%nat ->
  rtc step {| sy_w := WCopy 0 1 i; sy_r := RShmget; sy_k := objects i 0 |}
           {| sy_w := WCopy 0 1 (i + n); sy_r := RShmget; sy_k := objects (i + n) 0 |}.
Proof.
  revert i. induction n as [| n IH]; intros i Hi; [by rewrite Nat.add_0_r |].
  eapply rtc_l; [apply run_copy; lia |]. replace (i + S n)%nat with (S i + n)%nat by lia. apply IH. lia.
Qed.

Lemma shm_run : exists k, reachable {| sy_w := WDone 0 1; sy_r := RDone 0 1 message; sy_k := k |}.
Proof.
  eexists. unfold reachable, start.
  eapply rtc_l; [apply step_w, ws_shmget; reflexivity |].
  eapply rtc_l; [apply step_w, ws_semget; reflexivity |].
  eapply rtc_l; [apply step_w; eapply ws_setval; reflexivity |].
  eapply rtc_l; [apply step_w, ws_shmat; [by eexists | done] |].
  etransitivity; [exact (run_copies (length message + 1) 0 ltac:(lia)) |].
  eapply rtc_l; [apply step_w, ws_copied |].
  eapply rtc_l; [apply step_w; eapply ws_post; reflexivity |].
  eapply rtc_l; [apply step_w, ws_shmdt |].
  eapply rtc_l; [apply step_r, rs_shmget; reflexivity |].
  eapply rtc_l; [apply step_r, rs_semget; reflexivity |].
  eapply rtc_l; [apply step_r; eapply rs_wait; [reflexivity | lia] |].
  eapply rtc_l; [apply step_r, rs_shmat; [by eexists | done] |].
  eapply rtc_l; [apply step_r; eapply rs_strlen; [reflexivity | vm_compute; reflexivity] |].
  eapply rtc_l; [apply step_r; eapply rs_strcpy; [reflexivity | vm_compute; reflexivity | lia] |].
  eapply rtc_l; [apply step_r, rs_shmdt |].
  eapply rtc_l; [apply step_r, rs_rmid_shm |].
  eapply rtc_l; [apply step_r, rs_rmid_sem |].
  apply rtc_refl.
Qed.

Lemma shm_reader_gets_message_witness :
  exists s ret, reachable s /\ sy_r s = RDone 0 1 ret /\ ret = message.
Proof.
  destruct shm_run as [k H]. eexists. exists message. split; [exact H |]. split; [reflexivity |].
  exact (shm_reader_gets_message _ 0 1 message H eq_refl).
Defined.

Lemma shm_terminates_clean_witness :
  exists k, reachable {| sy_w := WDone 0 1; sy_r := RDone 0 1 message; sy_k := k |} /\
    shm_key k = None /\ sem_key k = None.
Proof.
  destruct shm_run as [k H]. exists k. split; [exact H |]. apply (proj2 shm_terminates_clean _ H). exact I.
Defined.

(** ** Objects of an earlier run, and calls that fail *)

(** An earlier writer has posted, and nobody has read. *)
Definition leftover : ipc :=
  {| segs := {[ 0 := str "old" ++ replicate 1021 NUL ]}; shm_key := Some 0; sems := {[ 1 := 1 ]}; sem_key := Some 1; next_id := 2 |}.

(** The reader does not wait for the writer, and returns the old message; the
    objects a writer has got meanwhile are gone. *)
Lemma leftover_read : exists k, rtc step {| sy_w := WSemget 0; sy_r := RShmget; sy_k := leftover |}
    {| sy_w := WSemget 0; sy_r := RDone 0 1 (str "old"); sy_k := k |} /\ shm_key k = None /\ sem_key k = None.
Proof.
  eexists. split; [| split; [| ]].
  - eapply rtc_l; [apply step_r, rs_shmget; reflexivity |]. eapply rtc_l; [apply step_r, rs_semget; reflexivity |].
    eapply rtc_l; [apply step_r; eapply rs_wait; [reflexivity | lia] |]. eapply rtc_l; [apply step_r, rs_shmat; [by eexists | done] |].
    eapply rtc_l; [apply step_r; eapply rs_strlen; [reflexivity | vm_compute; reflexivity] |].
    eapply rtc_l; [apply step_r; eapply rs_strcpy; [reflexivity | vm_compute; reflexivity | lia] |].
    eapply rtc_l; [apply step_r, rs_shmdt |]. eapply rtc_l; [apply step_r, rs_rmid_shm |]. eapply rtc_l; [apply step_r, rs_rmid_sem |]. apply rtc_refl.
  - reflexivity.
  - reflexivity.
Qed.

(** The wait fails: the reader goes on, and returns an empty message. *)
Lemma failed_wait_reads_nothing : exists k, rtc faulty_step {| sy_w := WShmget; sy_r := RShmget; sy_k := ipc_empty |}
    {| sy_w := WShmget; sy_r := RShmdt 0 1 []; sy_k := k |}.
Proof.
  eexists. eapply rtc_l; [apply step_ok, step_r, rs_shmget; reflexivity |]. eapply rtc_l; [apply step_ok, step_r, rs_semget; reflexivity |].
  eapply rtc_l; [apply step_rf, rf_wait |]. eapply rtc_l; [apply step_ok, step_r, rs_shmat; [by eexists | done] |].
  eapply rtc_l; [apply step_ok, step_r; eapply rs_strlen; [reflexivity | vm_compute; reflexivity] |].
  eapply rtc_l; [apply step_ok, step_r; eapply rs_strcpy; [reflexivity | vm_compute; reflexivity | lia] |]. apply rtc_refl.
Qed.
