(* ===== verification/ServiceApp.v ===== *)
(** The demo service: src/utils.cpp, src/common/common.cpp,
    src/service/server.cpp and src/service/client.cpp.

    Reading a vector or writing a buffer out of range is [None].  Clocks,
    random draws and socket calls are arguments; [error] ends the process with
    status 1. *)
From S2P Require Import Prelude.
From S2P Require Import CLib.

(** ** utils.cpp: [Solution::minimumLevels] *)

Definition is_one (x : Z) : Z := if x =? 1 then 1 else 0.

(** The loop that fills the two vectors, from [i] on. *)
Fixpoint fill_sums (fuel : nat) (possible left right : list Z) (n i : nat) : option (list Z * list Z) :=
  match fuel with
  | O => if (i <? n)%nat then None else Some (left, right)
  | S fuel' =>
    if (i <? n)%nat then
      l ← left !! (i - 1)%nat;
      p ← possible !! i;
      r ← right !! (n - i)%nat;
      q ← possible !! (n - i - 1)%nat;
      fill_sums fuel' possible (<[i := l + is_one p]> left) (<[(n - 1 - i)%nat := r + is_one q]> right) n (i + 1)
    else Some (left, right)
  end.

(** The loop that looks for the first index, from [i] on. *)
Fixpoint find_level (fuel : nat) (possible left right : list Z) (n i : nat) : option Z :=
  match fuel with
  | O => if (i <? n - 1)%nat then None else Some (-1)
  | S fuel' =>
    if (i <? n - 1)%nat then
      l ← left !! i;
      r ← right !! i;
      p ← possible !! i;
      if r - is_one p <? l then Some (Z.of_nat i) else find_level fuel' possible left right n (i + 1)
    else Some (-1)
  end.

Definition minimumLevels (possible : list Z) : option Z :=
  let n := length possible in
  p0 ← possible !! 0%nat;
  pn ← possible !! (n - 1)%nat;
  '(lsum, rsum) ← fill_sums n possible (replicate n (is_one p0)) (replicate n (is_one pn)) n 1;
  find_level n possible lsum rsum n 0.

(** The reference: the first split, with something on each side, that has more
    ones on its left. *)
Definition ones (l : list Z) : Z := fold_right (fun x a => is_one x + a) 0 l.

Definition first_level (possible : list Z) : Z :=
  match list_find (fun i => ones (drop (i + 1) possible) < ones (take (i + 1) possible))
          (seq 0 (length possible - 1)) with
  | Some (_, i) => Z.of_nat i
  | None => -1
  end.

(** ** utils.cpp: times *)

Record timeval := { tv_sec : Z; tv_usec : Z }.

Definition tv_us (t : timeval) : Z := tv_sec t * 1000000 + tv_usec t.

(** [get_sys_start_timestamp_us] for a steady clock of [uptime_ns]. *)
Definition get_sys_start_timestamp_us (uptime_ns : Z) : Z := u64 uptime_ns / 1000.

(** [cur_unix] and [uptime_ns] are what the two clocks show during the call. *)
Definition tranfer_unix_time2epoch_time (cur_unix : timeval) (uptime_ns : Z) (unix_time : timeval) : Z :=
  let cur_epoch := get_sys_start_timestamp_us uptime_ns in
  let tmp := tv_us cur_unix - cur_epoch in
  u64 (tv_us unix_time + tmp).

(** ** utils.cpp: random strings *)

Definition characters : list byte := str "abcdefghijklmnopqrstuvwxyzABCDEFGHIJKLMNOPQRSTUVWXYZ0123456789".

(** The distribution draws indices from 0 to 61. *)
Definition draw_ok (draws : list nat) : Prop :=
  length draws = 3000%nat /\ Forall (fun d => d < length characters)%nat draws.

Definition generateRandomString (draws : list nat) : option (list byte) :=
  mapM (fun d => characters !! d) draws.

(** ** client.cpp *)

Record client_script := {
  cs_socket : Z;
  cs_setsockopt : Z;
  cs_host_ok : bool;
  cs_connect : Z;
  cs_write : list byte -> Z        (** the result of [write] for what is passed *)
}.

(** The exit status, and what was passed to [write], if the client got there. *)
Definition client_main (sc : client_script) (draws : list nat) : option (Z * option (list byte)) :=
  if cs_socket sc <? 0 then Some (1, None) else
  if cs_setsockopt sc <? 0 then Some (1, None) else
  if negb (cs_host_ok sc) then Some (0, None) else
  if cs_connect sc <? 0 then Some (1, None) else
  message ← generateRandomString draws;
  let buffer := strncpy 4096 message in
  n ← strlen buffer;
  let data := take (Z.to_nat n) buffer in
  if cs_write sc data <? 0 then Some (1, Some data) else Some (0, Some data).

(** ** server.cpp *)

Definition BUFFER_SIZE : nat := 4096.
Definition NUM_THREADS : Z := 4.

(** Control messages: level, type, and the time they carry. *)
Record cmsg := { cm_level : Z; cm_type : Z; cm_tv : timeval }.

Definition SOL_SOCKET : Z := 1.
Definition SO_TIMESTAMP : Z := 29.

(** What the worker does with one readable connection: it closes it, or
    reports the receive times and prints what it read up to the first NUL. *)
Inductive served := Closed | Printed (times : list timeval) (text : list byte).

(** [recv] is the result of [recvmsg] and the bytes it stored. *)
Definition serve (recv : Z * list byte) (control : list cmsg) : option served :=
  let '(bytes_read, data) := recv in
  if bytes_read <=? 0 then Some Closed else
  buffer ← store (replicate BUFFER_SIZE NUL) 0 data;
  let times := map cm_tv (List.filter (fun c => (cm_level c =? SOL_SOCKET) && (cm_type c =? SO_TIMESTAMP)) control) in
  buffer ← store buffer bytes_read [NUL];
  Some (Printed times (cstr buffer)).

(** The acceptor and the workers.  [watch] has the connections each worker's
    epoll instance watches; [log] what was printed, by which worker, for which
    connection. *)
Record server := { watch : gmap Z (gset Z); log : list (Z * Z * list byte) }.

Definition worker_watch (s : server) (t : Z) : gset Z := default ∅ (watch s !! t).

Definition accept_conn (s : server) (fd : Z) : server :=
  let thread_index := Z.rem fd NUM_THREADS in
  {| watch := <[thread_index := {[ fd ]} ∪ worker_watch s thread_index]> (watch s); log := log s |}.

(** Worker [t] handles an event of connection [fd]. *)
Definition worker_event (s : server) (t fd : Z) (recv : Z * list byte) (control : list cmsg) : option server :=
  r ← serve recv control;
  Some match r with
       | Closed => {| watch := <[t := worker_watch s t ∖ {[ fd ]}]> (watch s); log := log s |}
       | Printed _ text => {| watch := watch s; log := log s ++ [(t, fd, text)] |}
       end.

(** What happens to the server: [accept] returns a descriptor, which
    [epoll_ctl] adds to the instance of its worker or, as its result is not looked at,
    does not; or a worker is told that a descriptor is readable and [recvmsg]
    returns a number and stores bytes. *)
Inductive event := Accept (fd : Z) (added : bool) | Recv (fd : Z) (recv : Z * list byte) (control : list cmsg).

(** The bytes [recvmsg] stored are as many as it says, and fit the buffer. *)
Definition recv_ok (recv : Z * list byte) : Prop := fst recv <= 0 \/ fst recv = zlen (snd recv) /\ zlen (snd recv) <= Z.of_nat BUFFER_SIZE.

(** A descriptor that [accept] returns was closed, so that nobody watches it;
    a worker is told only of descriptors its instance watches. *)
Inductive server_step : event -> server -> server -> Prop :=
| ss_accept s fd added : 0 <= fd -> (forall t, fd ∉ worker_watch s t) ->
    server_step (Accept fd added) s (if added then accept_conn s fd else s)
| ss_event s t fd recv control s' : fd ∈ worker_watch s t -> recv_ok recv ->
    worker_event s t fd recv control = Some s' -> server_step (Recv fd recv control) s s'.

Inductive server_run : list event -> server -> Prop :=
| sr_start : server_run [] {| watch := ∅; log := [] |}
| sr_step tr e s s' : server_run tr s -> server_step e s s' -> server_run (tr ++ [e]) s'.

(** ** server.cpp: [main] *)

Definition O_NONBLOCK : Z := 2048.

(** What the kernel answers to the main thread: [sv_epoll i] is the
    descriptor of the [i]th [epoll_create1], [sv_accepts] the results of
    [accept] until the signal handler has set [exiting]. *)
Record server_script := {
  sv_signal_ok : bool;
  sv_socket : Z;
  sv_setsockopt : Z;
  sv_bind : Z;
  sv_listen : Z;
  sv_getfl : Z -> Z;
  sv_epoll : nat -> Z;
  sv_accepts : list Z
}.

(** The calls of the main thread that change something outside it, once the
    socket listens. *)
Inductive server_call :=
| SetFlags (fd flags : Z)
| Spawn (thread_id : nat) (epoll_fd : Z)
| Watch (epoll_fd fd : Z)
| Close (fd : Z).

Definition set_non_blocking (sc : server_script) (socket_fd : Z) : list server_call :=
  [SetFlags socket_fd (Z.lor (sv_getfl sc socket_fd) O_NONBLOCK)].

(** The thread pool from thread [i] on: the calls, and the descriptors in
    [thread_data], or nothing after a failed [epoll_create1]. *)
Fixpoint start_workers (sc : server_script) (server_fd : Z) (n i : nat) : list server_call * option (list Z) :=
  match n with
  | O => ([], Some [])
  | S n' =>
      let epoll_fd := sv_epoll sc i in
      if epoll_fd =? -1 then ([Close server_fd], None) else
      let '(calls, rest) := start_workers sc server_fd n' (S i) in
      (Spawn i epoll_fd :: calls, cons epoll_fd <$> rest)
  end.

(** One turn of the accept loop; an index outside [thread_data] is undefined. *)
Definition accept_turn (sc : server_script) (thread_data : list Z) (new_socket : Z) : option (list server_call) :=
  if new_socket =? -1 then Some [] else
  let thread_index := Z.rem new_socket NUM_THREADS in
  if thread_index <? 0 then None else
  epoll_fd ← thread_data !! Z.to_nat thread_index;
  Some (set_non_blocking sc new_socket ++ [Watch epoll_fd new_socket]).

Definition accept_loop (sc : server_script) (thread_data : list Z) : option (list server_call) :=
  @concat server_call <$> mapM (accept_turn sc thread_data) (sv_accepts sc).

(** The exit status and the calls. *)
Definition server_main (sc : server_script) : option (Z * list server_call) :=
  if negb (sv_signal_ok sc) then Some (1, []) else
  let server_fd := sv_socket sc in
  if server_fd =? 0 then Some (1, []) else
  if sv_setsockopt sc <? 0 then Some (1, []) else
  if sv_bind sc <? 0 then Some (1, [Close server_fd]) else
  if sv_listen sc <? 0 then Some (1, [Close server_fd]) else
  let nb := set_non_blocking sc server_fd in
  match start_workers sc server_fd (Z.to_nat NUM_THREADS) 0 with
  | (calls, None) => Some (1, nb ++ calls)
  | (calls, Some thread_data) =>
      loop ← accept_loop sc thread_data;
      Some (0, nb ++ calls ++ loop ++ Close server_fd :: map Close thread_data)
  end.

(** ** [minimumLevels] *)

Lemma ones_app l k : ones (l ++ k) = ones l + ones k.
Proof. induction l as [| x l IH]; simpl; [done |]. rewrite IH. lia. Qed.

Lemma ones_take_S p i x : p !! i = Some x -> ones (take (S i) p) = ones (take i p) + is_one x.
Proof. intros H. rewrite (take_S_r _ _ _ H), ones_app. simpl. lia. Qed.

Lemma ones_drop_S p i x : p !! i = Some x -> ones (drop i p) = is_one x + ones (drop (S i) p).
Proof. intros H. by rewrite (drop_S _ _ _ H). Qed.

(** The two vectors after the loop has reached [i]. *)
Record sums_ok (p left right : list Z) (i : nat) : Prop := {
  so_left : length left = length p;
  so_right : length right = length p;
  so_prefix j : (j < i)%nat -> left !! j = Some (ones (take (S j) p));
  so_suffix j : (length p - i <= j < length p)%nat -> right !! j = Some (ones (drop j p))
}.

Lemma sums_step p left right i x y : sums_ok p left right i -> (1 <= i < length p)%nat ->
  p !! i = Some x -> p !! (length p - i - 1)%nat = Some y ->
  sums_ok p (<[i := ones (take i p) + is_one x]> left)
    (<[(length p - 1 - i)%nat := ones (drop (length p - i) p) + is_one y]> right) (i + 1).
Proof.
  intros [Hl Hr Hp Hs] Hi Hx Hy. split; [by rewrite length_insert.. | |].
  - intros j Hj. destruct (decide (j = i)) as [-> | Hne].
    + rewrite list_lookup_insert_eq by lia. by rewrite (ones_take_S p i x).
    + rewrite list_lookup_insert_ne by done. apply Hp. lia.
  - intros j Hj. destruct (decide (j = length p - 1 - i)%nat) as [-> | Hne].
    + rewrite list_lookup_insert_eq by lia. f_equal.
      replace (length p - 1 - i)%nat with (length p - i - 1)%nat by lia.
      rewrite (ones_drop_S p _ y Hy). replace (S (length p - i - 1))%nat with (length p - i)%nat by lia. lia.
    + rewrite list_lookup_insert_ne by done. apply Hs. lia.
Qed.

Lemma fill_sums_ok p fuel : forall left right i,
  sums_ok p left right i -> (1 <= i)%nat -> (length p <= i + fuel)%nat ->
  exists left' right', fill_sums fuel p left right (length p) i = Some (left', right') /\
    sums_ok p left' right' (length p).
Proof.
  assert (forall left right i, sums_ok p left right i -> (length p <= i)%nat -> sums_ok p left right (length p)) as Hend.
  { intros left right i [Hl Hr Hp Hs] Hi. split; try done; intros j Hj; [apply Hp | apply Hs]; lia. }
  induction fuel as [| fuel IH]; intros left right i HS Hi Hf; cbn [fill_sums].
  { rewrite (proj2 (Nat.ltb_ge _ _)) by lia. do 2 eexists. split; [done |]. eapply Hend; [exact HS | lia]. }
  destruct (i <? length p)%nat eqn:E.
  2: { apply Nat.ltb_ge in E. do 2 eexists. split; [done |]. by eapply Hend. }
  apply Nat.ltb_lt in E. rewrite (so_prefix _ _ _ _ HS (i - 1)) by lia. cbn [mbind option_bind].
  destruct (lookup_lt_is_Some_2 p i) as [x Hx]; [lia |]. rewrite Hx. cbn [mbind option_bind].
  rewrite (so_suffix _ _ _ _ HS (length p - i)) by lia. cbn [mbind option_bind].
  destruct (lookup_lt_is_Some_2 p (length p - i - 1)) as [y Hy]; [lia |]. rewrite Hy. cbn [mbind option_bind].
  replace (S (i - 1)) with i by lia. apply IH; [by apply sums_step | lia | lia].
Qed.

Lemma find_level_ok p left right fuel : sums_ok p left right (length p) ->
  forall i, (length p <= i + fuel)%nat ->
  find_level fuel p left right (length p) i =
    Some (match list_find (fun i => ones (drop (i + 1) p) < ones (take (i + 1) p))
                  (seq i (length p - 1 - i)) with Some (_, k) => Z.of_nat k | None => -1 end).
Proof.
  intros HS. induction fuel as [| fuel IH]; intros i Hf; cbn [find_level].
  { rewrite (proj2 (Nat.ltb_ge _ _)) by lia. by replace (length p - 1 - i)%nat with 0%nat by lia. }
  destruct (i <? length p - 1)%nat eqn:E.
  2: { apply Nat.ltb_ge in E. by replace (length p - 1 - i)%nat with 0%nat by lia. }
  apply Nat.ltb_lt in E. rewrite (so_prefix _ _ _ _ HS i) by lia. cbn [mbind option_bind].
  rewrite (so_suffix _ _ _ _ HS i) by lia. cbn [mbind option_bind].
  destruct (lookup_lt_is_Some_2 p i) as [x Hx]; [lia |]. rewrite Hx. cbn [mbind option_bind].
  rewrite (ones_drop_S p i x Hx).
  replace (is_one x + ones (drop (S i) p) - is_one x) with (ones (drop (S i) p)) by lia.
  replace (length p - 1 - i)%nat with (S (length p - 1 - (i + 1))) by lia. cbn [seq list_find].
  rewrite (Nat.add_comm i 1). cbn [Nat.add]. destruct (ones (drop (S i) p) <? ones (take (S i) p)) eqn:El.
  - by rewrite decide_True by lia.
  - rewrite decide_False by lia. rewrite IH by lia.
    by destruct (list_find _ _) as [[? ?] |].
Qed.

(** [minimumLevels] computes, for every non-empty input, the first index
    before the last such that there are more ones up to it than after it, and -1
    when there is none; the two vectors of sums agree with counting directly,
    and every access is inside its vector. *)
Theorem minimumLevels_first possible : possible <> [] -> minimumLevels possible = Some (first_level possible).
Proof.
  intros Hne. unfold minimumLevels.
  assert (0 < length possible)%nat as Hn by (destruct possible; [done | simpl; lia]).
  destruct (lookup_lt_is_Some_2 possible 0) as [p0 H0]; [lia |]. rewrite H0. cbn [mbind option_bind].
  destruct (lookup_lt_is_Some_2 possible (length possible - 1)) as [pn Hp]; [lia |]. rewrite Hp. cbn [mbind option_bind].
  destruct (fill_sums_ok possible (length possible) (replicate (length possible) (is_one p0))
    (replicate (length possible) (is_one pn)) 1) as (l & r & -> & HS); [| lia | lia |].
  - split; [by rewrite length_replicate.. | |].
    + intros j Hj. replace j with 0%nat by lia. rewrite lookup_replicate_2 by lia.
      by rewrite (ones_take_S possible 0 p0 H0).
    + intros j Hj. replace j with (length possible - 1)%nat by lia. rewrite lookup_replicate_2 by lia.
      rewrite (ones_drop_S possible _ pn Hp), drop_ge by lia. simpl. do 2 f_equal. lia.
  - cbn [mbind option_bind]. rewrite (find_level_ok _ _ _ _ HS) by lia. by rewrite Nat.sub_0_r.
Qed.

Lemma minimumLevels_first_witness : minimumLevels [1; 0; 1; 0] = Some 2 /\ first_level [1; 0; 1; 0] = 2.
Proof. split; [rewrite minimumLevels_first; [vm_compute; reflexivity | done] | vm_compute; reflexivity]. Defined.

(** ** Times *)

(** The conversion from wall-clock time to time since boot has the wrong
    sign.  The boot clock's value for a wall-clock time [t] is [t] minus the
    difference of the clocks; the function adds the difference, so its result
    is off by twice the wall-clock time of the boot. *)
Theorem transfer_off_by_twice_boot cur up t :
  0 <= up < 2 ^ 63 -> let boot := tv_us cur - up / 1000 in
  0 <= boot -> 0 <= tv_us t -> tv_us t + boot < 2 ^ 64 ->
  tranfer_unix_time2epoch_time cur up t = (tv_us t - boot) + 2 * boot.
Proof.
  intros Hu boot Hb Ht Hlt. unfold tranfer_unix_time2epoch_time, get_sys_start_timestamp_us.
  rewrite (u64_id up) by lia. fold boot. rewrite u64_id by lia. lia.
Qed.

Lemma transfer_off_by_twice_boot_witness :
  tranfer_unix_time2epoch_time {| tv_sec := 1000; tv_usec := 0 |} (600 * 1000000000) {| tv_sec := 1000; tv_usec := 0 |} =
    600 * 1000000 + 2 * (400 * 1000000).
Proof.
  rewrite (transfer_off_by_twice_boot {| tv_sec := 1000; tv_usec := 0 |} (600 * 1000000000)
    {| tv_sec := 1000; tv_usec := 0 |}); [vm_compute; reflexivity | lia | vm_compute; done | vm_compute; done | vm_compute; done].
Defined.

(** ** The message on its way *)

Definition is_alnum (b : byte) : Prop := b ∈ characters.

Lemma random_string draws : draw_ok draws ->
  exists m, generateRandomString draws = Some m /\ length m = 3000%nat /\ Forall is_alnum m.
Proof.
  intros [Hl Hd]. unfold generateRandomString. rewrite <- Hl. clear Hl.
  induction Hd as [| d draws Hd _ (m & IH & Hm & Ha)]; [by exists [] |].
  destruct (lookup_lt_is_Some_2 characters d Hd) as [c Hc]. exists (c :: m). cbn [mapM]. rewrite Hc. cbn [mbind option_bind].
  rewrite IH. split_and!; [done | simpl; by rewrite Hm |]. apply Forall_cons. split; [| done].
  by eapply list_elem_of_lookup_2.
Qed.

Lemma alnum_no_nul m : Forall is_alnum m -> NUL ∉ m.
Proof.
  intros H Hin. rewrite Forall_forall in H. specialize (H _ Hin).
  assert (NUL ∉ characters) as Hn by (apply (bool_decide_unpack _); by vm_compute). done.
Qed.

(** What the client sends.  When its calls succeed, the client passes to
    [write] exactly the 3000 letters and digits it has drawn, nothing cut off
    by the buffer and nothing added. *)
Theorem client_sends_message sc draws :
  draw_ok draws -> 0 <= cs_socket sc -> 0 <= cs_setsockopt sc -> cs_host_ok sc = true -> 0 <= cs_connect sc ->
  exists m, generateRandomString draws = Some m /\ length m = 3000%nat /\ Forall is_alnum m /\
    client_main sc draws = Some (if cs_write sc m <? 0 then 1 else 0, Some m).
Proof.
  intros Hd Hs Ho Hh Hc. destruct (random_string draws Hd) as (m & Hm & Hl & Ha).
  exists m. split_and!; [done.. |]. unfold client_main.
  rewrite (proj2 (Z.ltb_ge _ _) Hs), (proj2 (Z.ltb_ge _ _) Ho), Hh, (proj2 (Z.ltb_ge _ _) Hc), Hm.
  cbn [negb mbind option_bind].
  destruct (strncpy_fits 4096 m (alnum_no_nul m Ha)) as [_ Hn]; [lia |]. rewrite Hn. cbn [mbind option_bind].
  assert (take (Z.to_nat (zlen m)) (strncpy 4096 m) = m) as ->; [| by destruct (_ <? 0)].
  unfold strncpy, zlen. rewrite Nat2Z.id, (take_ge m) by lia. by rewrite take_app_length.
Qed.

(** The times reported by the receive path. *)
Definition stamps (control : list cmsg) : list timeval :=
  map cm_tv (List.filter (fun c => (cm_level c =? SOL_SOCKET) && (cm_type c =? SO_TIMESTAMP)) control).

(** What a worker does with what it receives.  A message of less than
    4096 bytes is printed up to its first NUL, with the receive time stamps found
    in the control data, whatever the buffer held; but a read that fills the
    buffer makes the worker write the terminator one byte past it. *)
Theorem serve_message data control :
  0 < zlen data <= Z.of_nat BUFFER_SIZE ->
  serve (zlen data, data) control =
    if zlen data <? Z.of_nat BUFFER_SIZE then Some (Printed (stamps control) (cstr (data ++ [NUL]))) else None.
Proof.
  intros Hlen. unfold serve. rewrite (proj2 (Z.leb_gt _ _)) by lia.
  assert (store (replicate BUFFER_SIZE NUL) 0 data = Some (data ++ replicate (BUFFER_SIZE - length data) NUL)) as ->.
  { unfold zlen in Hlen. rewrite <- (take_drop (length data) (replicate BUFFER_SIZE NUL)), take_replicate, drop_replicate.
    apply (store_app [] (replicate (length data `min` BUFFER_SIZE) NUL)); [done |]. rewrite length_replicate. lia. }
  cbn [mbind option_bind]. destruct (zlen data <? Z.of_nat BUFFER_SIZE) eqn:E.
  - apply Z.ltb_lt in E. unfold zlen in E.
    destruct (BUFFER_SIZE - length data)%nat as [| k] eqn:Ek; [lia |]. cbn [replicate].
    change (NUL :: replicate k NUL) with ([NUL] ++ replicate k NUL).
    rewrite (store_app data [NUL] (replicate k NUL) [NUL]) by done. cbn [mbind option_bind].
    do 2 f_equal. clear. induction data as [| b data IH]; simpl; [done |]. destruct (decide (b = NUL)); [done |].
    f_equal. exact IH.
  - apply Z.ltb_ge in E.
    assert (store (data ++ replicate (BUFFER_SIZE - length data) NUL) (zlen data) [NUL] = None) as ->; [| done].
    apply store_None. right. rewrite zlen_app, zlen_replicate. unfold zlen in *. simpl. lia.
Qed.

(** ** One worker per connection *)

(** The descriptors that are watched after some events: those that were
    added, and not closed since. *)
Definition live (tr : list event) : gset Z :=
  foldl (fun l e => match e with
    | Accept fd added => if added then {[ fd ]} ∪ l else l
    | Recv fd recv _ => if fst recv <=? 0 then l ∖ {[ fd ]} else l
    end) ∅ tr.

(** What is printed for an event: the thread, the descriptor, and the
    bytes received up to the first NUL. *)
Definition line (e : event) : option (Z * Z * list byte) :=
  match e with
  | Accept _ _ => None
  | Recv fd recv _ => if fst recv <=? 0 then None else Some (fd mod 4, fd, cstr (snd recv ++ [NUL]))
  end.

Lemma worker_watch_insert m l t x t' :
  worker_watch {| watch := <[t := x]> m; log := l |} t' = if decide (t' = t) then x else default ∅ (m !! t').
Proof.
  unfold worker_watch. simpl. destruct (decide (t' = t)) as [-> |].
  - by rewrite lookup_insert_eq.
  - by rewrite lookup_insert_ne.
Qed.

Lemma live_snoc tr e : live (tr ++ [e]) = match e with
  | Accept fd added => if added then {[ fd ]} ∪ live tr else live tr
  | Recv fd recv _ => if fst recv <=? 0 then live tr ∖ {[ fd ]} else live tr
  end.
Proof. unfold live. by rewrite foldl_app. Qed.

(** What is watched, by whom, and what was printed, after the events [tr]. *)
Definition follows (tr : list event) (s : server) : Prop :=
  (forall t fd, fd ∈ worker_watch s t <-> fd ∈ live tr /\ t = fd mod 4) /\ log s = omap line tr.

Lemma serve_cases recv control r : recv_ok recv -> serve recv control = Some r ->
  if fst recv <=? 0 then r = Closed else r = Printed (stamps control) (cstr (snd recv ++ [NUL])).
Proof.
  destruct recv as [n data]. cbn [fst snd]. intros [Hn | [Hn Hl]] E; cbn [fst snd] in *.
  - unfold serve in E. rewrite (proj2 (Z.leb_le n 0)) in * by done. by injection E.
  - subst n. destruct (Z.leb_spec (zlen data) 0) as [Hz | Hz].
    + unfold serve in E. rewrite (proj2 (Z.leb_le _ 0)) in E by done. by injection E.
    + rewrite serve_message in E by lia. destruct (_ <? _); [by injection E | done].
Qed.

Lemma server_step_follows tr e s s' : follows tr s -> server_step e s s' -> follows (tr ++ [e]) s'.
Proof.
  intros [Hw Hl] HS. destruct HS as [s fd added Hfd _ | s t fd recv control s' Hin Hok HE]; unfold follows; rewrite live_snoc, omap_app.
  - destruct added; [| split; [done | by rewrite app_nil_r]]. split; [| cbn; by rewrite app_nil_r].
    intros t fd'. unfold accept_conn. rewrite worker_watch_insert. rewrite Z.rem_mod_nonneg by done.
    change (default ∅ (watch s !! t)) with (worker_watch s t). case_decide as Ht.
    + rewrite !elem_of_union, !elem_of_singleton, Hw. subst t. naive_solver congruence.
    + rewrite elem_of_union, elem_of_singleton, Hw. naive_solver congruence.
  - unfold worker_event in HE. destruct (serve recv control) as [r |] eqn:Es; [| done]. cbn [mbind option_bind] in HE. injection HE as <-.
    apply serve_cases in Es; [| done]. cbn [omap list_omap line]. pose proof (proj1 (Hw t fd) Hin) as [Hlive Ht]. destruct (fst recv <=? 0); subst r.
    + split; [| cbn [log]; by rewrite app_nil_r]. intros t' fd'. rewrite worker_watch_insert.
      change (default ∅ (watch s !! t')) with (worker_watch s t'). case_decide as Ht'.
      * rewrite !elem_of_difference, !elem_of_singleton, Hw. subst t'. naive_solver.
      * rewrite elem_of_difference, elem_of_singleton, Hw. naive_solver congruence.
    + split; [exact Hw |]. cbn [log]. by rewrite Hl, Ht.
Qed.


(** ** The main thread of the server *)

(** The connections the calls put on each worker's list, where [pool] has the
    workers' epoll descriptors. *)
Definition watched (pool : list Z) (s : server) (c : server_call) : server :=
  match c with
  | Watch epoll_fd fd =>
      match list_find (eq epoll_fd) pool with
      | Some (t, _) => {| watch := <[Z.of_nat t := {[ fd ]} ∪ worker_watch s (Z.of_nat t)]> (watch s); log := log s |}
      | None => s
      end
  | _ => s
  end.

Definition accepted (sc : server_script) : list Z := List.filter (fun fd => negb (fd =? -1)) (sv_accepts sc).

Definition pool_of (sc : server_script) : list Z := sv_epoll sc <$> seq 0 (Z.to_nat NUM_THREADS).

Lemma start_workers_ok sc fd n : forall i, (forall k, (i <= k < i + n)%nat -> sv_epoll sc k <> -1) ->
  start_workers sc fd n i = ((fun k => Spawn k (sv_epoll sc k)) <$> seq i n, Some (sv_epoll sc <$> seq i n)).
Proof.
  induction n as [| n IH]; intros i Hk; cbn [start_workers seq fmap list_fmap]; [done |].
  rewrite (proj2 (Z.eqb_neq _ _)) by (apply Hk; lia). rewrite IH; [done |]. intros k ?. apply Hk. lia.
Qed.

Lemma find_nodup (l : list Z) i x : NoDup l -> l !! i = Some x -> list_find (eq x) l = Some (i, x).
Proof.
  intros Hn Hi. apply list_find_Some. split_and!; [done.. |]. intros j y Hj Hlt ->.
  pose proof (NoDup_lookup _ _ _ _ Hn Hi Hj). lia.
Qed.

Lemma accept_turn_ok sc fd s : NoDup (pool_of sc) -> -1 <= fd ->
  exists calls, accept_turn sc (pool_of sc) fd = Some calls /\
    foldl (watched (pool_of sc)) s calls = (if fd =? -1 then s else accept_conn s fd).
Proof.
  intros Hn Hfd. unfold accept_turn. destruct (fd =? -1) eqn:E; [by exists [] |]. apply Z.eqb_neq in E.
  pose proof (Z.rem_bound_pos fd NUM_THREADS ltac:(lia) ltac:(done)) as Hr.
  rewrite (proj2 (Z.ltb_ge _ _)) by lia.
  destruct (lookup_lt_is_Some_2 (pool_of sc) (Z.to_nat (Z.rem fd NUM_THREADS))) as [e He].
  { unfold pool_of. rewrite length_fmap, length_seq. lia. }
  rewrite He. cbn [mbind option_bind]. eexists. split; [done |].
  cbn [set_non_blocking app foldl watched]. rewrite (find_nodup _ _ _ Hn He).
  unfold accept_conn. by rewrite Z2Nat.id by lia.
Qed.

Lemma accept_loop_ok sc fds : NoDup (pool_of sc) -> Forall (fun fd => -1 <= fd) fds -> forall s,
  exists calls, mapM (accept_turn sc (pool_of sc)) fds = Some calls /\
    foldl (watched (pool_of sc)) s (concat calls) =
      foldl accept_conn s (List.filter (fun fd => negb (fd =? -1)) fds).
Proof.
  intros Hn. induction 1 as [| fd fds Hfd _ IH]; intros s; [by exists [] |].
  destruct (accept_turn_ok sc fd s Hn Hfd) as (c & Hc & Hs). cbn [mapM]. rewrite Hc. cbn [mbind option_bind].
  destruct (IH (foldl (watched (pool_of sc)) s c)) as (cs & Hcs & Hss). rewrite Hcs. cbn [mbind option_bind].
  eexists. split; [done |]. cbn [concat List.filter]. rewrite foldl_app, Hss, Hs. by destruct (fd =? -1).
Qed.

(** The main thread.  When its set-up calls succeed, the server starts one
    worker per epoll instance, hands every connection that [accept] returned to
    the worker its descriptor selects (the calls have the effect [accept_conn]
    has for each of them, in that order), and returns 0 after it has closed the
    listening socket and the epoll instances. *)
Theorem server_main_serves sc s :
  sv_signal_ok sc = true -> 0 < sv_socket sc -> 0 <= sv_setsockopt sc -> 0 <= sv_bind sc -> 0 <= sv_listen sc ->
  NoDup (pool_of sc) -> (-1) ∉ pool_of sc -> Forall (fun fd => -1 <= fd) (sv_accepts sc) ->
  exists loop, server_main sc =
      Some (0, set_non_blocking sc (sv_socket sc) ++ ((fun k => Spawn k (sv_epoll sc k)) <$> seq 0 4) ++
               loop ++ Close (sv_socket sc) :: map Close (pool_of sc)) /\
    foldl (watched (pool_of sc)) s loop = foldl accept_conn s (accepted sc).
Proof.
  intros H1 H2 H3 H4 H5 Hn Hm Ha. unfold server_main. rewrite H1. cbn [negb].
  rewrite (proj2 (Z.eqb_neq _ _)), !(proj2 (Z.ltb_ge _ _)) by lia.
  rewrite start_workers_ok.
  2: { intros k Hk E. apply Hm. rewrite <- E. apply list_elem_of_fmap. exists k. split; [done |]. apply elem_of_seq. lia. }
  destruct (accept_loop_ok sc (sv_accepts sc) Hn Ha s) as (cs & Hcs & Hs).
  unfold accept_loop. fold (pool_of sc). rewrite Hcs. cbn [fmap option_fmap option_map mbind option_bind].
  eexists. split; [reflexivity | exact Hs].
Qed.

(** A set-up call that fails ends the server with status 1, and no connection
    has been accepted; the epoll instances created before are left to the exit. *)
Theorem server_main_fails sc :
  sv_signal_ok sc = false \/ sv_socket sc = 0 \/ sv_setsockopt sc < 0 \/ sv_bind sc < 0 \/ sv_listen sc < 0 \/
    (-1) ∈ pool_of sc ->
  exists calls, server_main sc = Some (1, calls) /\ forall e fd, Watch e fd ∉ calls.
Proof.
  assert (forall n i calls r, start_workers sc (sv_socket sc) n i = (calls, r) ->
    (forall e fd, Watch e fd ∉ calls) /\ ((-1) ∈ sv_epoll sc <$> seq i n -> r = None)) as Hw.
  { induction n as [| n IH]; intros i calls r; cbn [start_workers].
    - intros [= <- <-]. split; intros; set_solver.
    - destruct (sv_epoll sc i =? -1) eqn:E; [intros [= <- <-]; split; [set_solver | done] |].
      destruct (start_workers sc (sv_socket sc) n (S i)) as [c' r'] eqn:Es. intros [= <- <-].
      destruct (IH _ _ _ Es) as [Hc Hr]. apply Z.eqb_neq in E. split; [set_solver |].
      cbn [seq fmap list_fmap]. intros [? | Hin]%elem_of_cons; [done |]. by rewrite (Hr Hin). }
  intros H. unfold server_main.
  destruct (sv_signal_ok sc); cbn [negb]; [| eexists; split; [done | set_solver]].
  destruct (Z.eqb_spec (sv_socket sc) 0); [eexists; split; [done | set_solver] |].
  destruct (Z.ltb_spec (sv_setsockopt sc) 0); [eexists; split; [done | set_solver] |].
  destruct (Z.ltb_spec (sv_bind sc) 0); [eexists; split; [done | set_solver] |].
  destruct (Z.ltb_spec (sv_listen sc) 0); [eexists; split; [done | set_solver] |].
  destruct (start_workers _ _ _ _) as [c r] eqn:Es. destruct (Hw _ _ _ _ Es) as [Hc Hr].
  rewrite Hr by (destruct H as [|[|[|[|[|]]]]]; [done | lia.. | done]).
  eexists. split; [done |]. unfold set_non_blocking. set_solver.
Qed.

(** ** Concrete instances *)

Definition sample_client : client_script :=
  {| cs_socket := 3; cs_setsockopt := 0; cs_host_ok := true; cs_connect := 0; cs_write := fun _ => 3000 |}.

Lemma client_sends_message_witness :
  exists m, length m = 3000%nat /\ client_main sample_client (replicate 3000 61%nat) = Some (0, Some m).
Proof.
  destruct (client_sends_message sample_client (replicate 3000 61%nat)) as (m & _ & Hl & _ & E);
    [| simpl; lia | simpl; lia | done | simpl; lia | exists m; split; [exact Hl | exact E]].
  split; [by rewrite length_replicate |]. apply Forall_replicate. vm_compute. lia.
Defined.

Lemma serve_message_witness :
  serve (5, str "hello") [{| cm_level := 1; cm_type := 29; cm_tv := {| tv_sec := 7; tv_usec := 8 |} |}] =
    Some (Printed [{| tv_sec := 7; tv_usec := 8 |}] (str "hello")) /\
  serve (4096, replicate 4096 x61) [] = None.
Proof.
  split.
  - change 5 with (zlen (str "hello")). rewrite serve_message; [reflexivity | vm_compute; done].
  - assert (zlen (replicate 4096 x61) = 4096) as E by (rewrite zlen_replicate; done).
    rewrite <- E at 1. rewrite serve_message by (rewrite E; split; [lia | done]). by rewrite E.
Defined.


Definition sample_server : server_script :=
  {| sv_signal_ok := true; sv_socket := 3; sv_setsockopt := 0; sv_bind := 0; sv_listen := 0;
     sv_getfl := fun _ => 2; sv_epoll := fun i => 4 + Z.of_nat i; sv_accepts := [-1; 9; -1; 10] |}.

Lemma server_main_serves_witness :
  exists loop, server_main sample_server =
    Some (0, [SetFlags 3 2050; Spawn 0 4; Spawn 1 5; Spawn 2 6; Spawn 3 7] ++ loop ++
             [Close 3; Close 4; Close 5; Close 6; Close 7]).
Proof.
  destruct (server_main_serves sample_server {| watch := ∅; log := [] |}) as (loop & E & _);
    [done.. | apply (bool_decide_unpack _); by vm_compute | apply (bool_decide_unpack _); by vm_compute
    | repeat constructor; simpl; lia | exists loop; exact E].
Defined.
