(* ===== verification/Proxy.v ===== *)
(** The TCP proxy, src/proxy/proxy.cpp: the chain of asynchronous operations of
    a [ProxySession], the acceptor, and [main].

    A session is a state machine: each state is the operation that is pending,
    and a completion (an error, or success with what was read) moves it on. *)
From S2P Require Import Prelude.
From S2P Require Import CLib.

Definition BUF_SIZE : nat := 8192.

(** The pending operation. *)
Inductive pending :=
| ReadClient
| ConnectServer
| WriteServer
| ReadServer
| WriteClient (length : nat)
| Stopped.

(** The session: what is pending, its two buffers, what has been sent to either
    side, and what it printed of the buffers. *)
Record session := {
  state : pending;
  client_buffer_ : list byte;
  server_buffer_ : list byte;
  to_server : list byte;
  to_client : list byte;
  dumps : list (list byte)
}.

(** How an operation completes: with an error, or successfully, having read
    [data] into the front of its buffer where it is a read. *)
Inductive completion := Error | Success (data : list byte).

(** The outcome of running a handler: the session goes on, or an exception
    leaves the handler (a failed name resolution), which ends [io_context::run]. *)
Inductive handled := Continue (s : session) | Throws.

Definition read_into (buf data : list byte) : option (list byte) := store buf 0 data.

Definition with_state (s : session) (p : pending) : session :=
  {| state := p; client_buffer_ := client_buffer_ s; server_buffer_ := server_buffer_ s;
     to_server := to_server s; to_client := to_client s; dumps := dumps s |}.

(** [read_from_client]: the buffer is printed, and the connection to the server
    is started; [resolves] is whether the host name can be resolved. *)
Definition read_from_client_done (resolves : bool) (s : session) (c : completion) : option handled :=
  match c with
  | Error => Some (Continue (with_state s Stopped))
  | Success data =>
    buf ← read_into (client_buffer_ s) data;
    if resolves then
      Some (Continue {| state := ConnectServer; client_buffer_ := buf; server_buffer_ := server_buffer_ s;
                        to_server := to_server s; to_client := to_client s; dumps := dumps s ++ [buf] |})
    else Some Throws
  end.

(** [connect_to_server] completes, and [write_to_server] fills the buffer and
    starts the write. *)
Definition connect_done (s : session) (c : completion) : option handled :=
  match c with
  | Error => Some (Continue (with_state s Stopped))
  | Success _ =>
    let buf := replicate BUF_SIZE x61 in
    Some (Continue {| state := WriteServer; client_buffer_ := buf; server_buffer_ := server_buffer_ s;
                      to_server := to_server s; to_client := to_client s; dumps := dumps s |})
  end.

(** [async_write] has written the whole buffer. *)
Definition write_to_server_done (s : session) (c : completion) : option handled :=
  match c with
  | Error => Some (Continue (with_state s Stopped))
  | Success _ =>
    Some (Continue {| state := ReadServer; client_buffer_ := client_buffer_ s; server_buffer_ := server_buffer_ s;
                      to_server := to_server s ++ client_buffer_ s; to_client := to_client s; dumps := dumps s |})
  end.

(** [read_from_server]: the client's buffer is printed. *)
Definition read_from_server_done (s : session) (c : completion) : option handled :=
  match c with
  | Error => Some (Continue (with_state s Stopped))
  | Success data =>
    buf ← read_into (server_buffer_ s) data;
    Some (Continue {| state := WriteClient (length data); client_buffer_ := client_buffer_ s; server_buffer_ := buf;
                      to_server := to_server s; to_client := to_client s; dumps := dumps s ++ [client_buffer_ s] |})
  end.

Definition write_to_client_done (len : nat) (s : session) (c : completion) : option handled :=
  match c with
  | Error => Some (Continue (with_state s Stopped))
  | Success _ =>
    Some (Continue {| state := ReadServer; client_buffer_ := client_buffer_ s; server_buffer_ := server_buffer_ s;
                      to_server := to_server s; to_client := to_client s ++ take len (server_buffer_ s);
                      dumps := dumps s |})
  end.

Definition complete (resolves : bool) (s : session) (c : completion) : option handled :=
  match state s with
  | ReadClient => read_from_client_done resolves s c
  | ConnectServer => connect_done s c
  | WriteServer => write_to_server_done s c
  | ReadServer => read_from_server_done s c
  | WriteClient len => write_to_client_done len s c
  | Stopped => Some (Continue s)
  end.

Definition start (junk_c junk_s : list byte) : session :=
  {| state := ReadClient; client_buffer_ := junk_c; server_buffer_ := junk_s; to_server := []; to_client := []; dumps := [] |}.

Fixpoint run (resolves : bool) (cs : list completion) (s : session) : option handled :=
  match cs with
  | [] => Some (Continue s)
  | c :: cs' =>
    h ← complete resolves s c;
    match h with Continue s' => run resolves cs' s' | Throws => Some Throws end
  end.

(** [main]: the port as the [short] of the constructor, then the [unsigned
    short] of the endpoint. *)
Definition s16 (z : Z) : Z := (z + 2 ^ 15) mod 2 ^ 16 - 2 ^ 15.

Definition main_port (arg : list byte) : Z := u16 (s16 (atoi arg)).

(** The accept loop with its sessions: the completions of the acceptor and of
    sessions (by index) in the order they are delivered; the result is the
    sessions, or [None] inside when an exception has ended the loop. *)
Inductive io_event := Accepted (junk_c junk_s : list byte) | AcceptError | SessionDone (i : nat) (c : completion).

Definition io_step (resolves : bool) (ss : list session) (e : io_event) : option (option (list session)) :=
  match e with
  | Accepted jc js => Some (Some (ss ++ [start jc js]))
  | AcceptError => Some (Some ss)
  | SessionDone i c =>
    s ← ss !! i;
    h ← complete resolves s c;
    Some (match h with Continue s' => Some (<[i := s']> ss) | Throws => None end)
  end.

Fixpoint io_run (resolves : bool) (es : list io_event) (ss : list session) : option (option (list session)) :=
  match es with
  | [] => Some (Some ss)
  | e :: es' =>
    r ← io_step resolves ss e;
    match r with Some ss' => io_run resolves es' ss' | None => Some None end
  end.

(** ** Properties *)

Definition fits (data : list byte) : Prop := (length data <= BUF_SIZE)%nat.

Lemma read_into_spec buf data : length buf = BUF_SIZE -> fits data ->
  exists buf', read_into buf data = Some buf' /\ length buf' = BUF_SIZE /\ take (length data) buf' = data.
Proof.
  intros Hb Hd. unfold fits in Hd. destruct (store_Some buf 0 data) as [buf' E]; [lia | unfold zlen; lia |].
  exists buf'. split; [exact E |]. pose proof (zlen_store _ _ _ _ E) as Hz. unfold zlen in Hz. split; [lia |].
  apply store_inv in E as (_ & _ & ->). simpl. by rewrite take_app_length.
Qed.

(** The completions of a server that sends [chunks] while the client keeps
    reading. *)
Definition chunk_events (chunks : list (list byte)) : list completion :=
  concat (map (fun d => [Success d; Success []]) chunks).

Lemma relay_chunks chunks : Forall fits chunks -> forall s,
  state s = ReadServer -> length (server_buffer_ s) = BUF_SIZE ->
  exists s', run true (chunk_events chunks) s = Some (Continue s') /\ state s' = ReadServer /\
    to_client s' = to_client s ++ concat chunks /\ to_server s' = to_server s /\
    dumps s' = dumps s ++ replicate (length chunks) (client_buffer_ s).
Proof.
  induction 1 as [| d chunks Hd _ IH]; intros s Hs Hb.
  { exists s. simpl. by rewrite !app_nil_r. }
  destruct (read_into_spec _ d Hb Hd) as (buf & Hr & Hl & Ht).
  change (chunk_events (d :: chunks)) with (Success d :: Success [] :: chunk_events chunks). cbn [run].
  assert (complete true s (Success d) = read_from_server_done s (Success d)) as -> by (unfold complete; by rewrite Hs).
  unfold read_from_server_done. rewrite Hr. cbn [mbind option_bind complete state write_to_client_done server_buffer_ to_client].
  rewrite Ht. edestruct IH as (s' & E & H1 & H2 & H3 & H4); [| | exists s'; split; [exact E |]]; [done | done |].
  rewrite H2, H3, H4. simpl. by rewrite <- !app_assoc.
Qed.

(** What the proxy relays.  In a session without errors, everything the
    server sends reaches the client, in order and complete, chunk by chunk.  The
    other way round nothing does: whatever the client sent, the server
    receives 8192 times the letter a; and what is printed as the server's
    response is the client's buffer, which by then holds those letters. *)
Theorem proxy_relays req chunks jc js :
  length jc = BUF_SIZE -> length js = BUF_SIZE -> fits req -> Forall fits chunks ->
  exists s buf, run true (Success req :: Success [] :: Success [] :: chunk_events chunks) (start jc js) =
      Some (Continue s) /\
    to_client s = concat chunks /\ to_server s = replicate BUF_SIZE x61 /\
    dumps s = buf :: replicate (length chunks) (replicate BUF_SIZE x61).
Proof.
  intros Hc Hs Hreq Hch. destruct (read_into_spec jc req Hc Hreq) as (buf & Hr & Hl & Ht).
  cbn [run complete state start read_from_client_done client_buffer_]. rewrite Hr.
  cbn [mbind option_bind run complete state connect_done write_to_server_done].
  edestruct (relay_chunks chunks Hch) as (s' & E & H1 & H2 & H3 & H4); [| | exists s', buf; split; [exact E |]];
    [done | exact Hs |]. rewrite H2, H3, H4. done.
Qed.

(** One failed name resolution ends the proxy for everybody.  When the
    server's name cannot be resolved, the first request of any client throws out
    of its handler and out of the event loop; whatever sessions exist and
    whatever was still to come, the loop is over. *)
Theorem resolve_failure_stops_proxy ss i s req rest :
  ss !! i = Some s -> state s = ReadClient -> length (client_buffer_ s) = BUF_SIZE -> fits req ->
  io_run false (SessionDone i (Success req) :: rest) ss = Some None.
Proof.
  intros Hi Hs Hb Hreq. cbn [io_run io_step]. rewrite Hi. cbn [mbind option_bind].
  unfold complete. rewrite Hs. unfold read_from_client_done.
  destruct (read_into_spec _ req Hb Hreq) as (buf & -> & _). done.
Qed.

(** The port.  Passing the port through a [short] loses nothing: for every
    port number as it is written, the proxy listens on that port. *)
Theorem main_port_exact p : 0 <= p < 2 ^ 16 -> main_port (fmt_u p) = p.
Proof.
  intros Hp. unfold main_port, atoi. rewrite strtol_fmt_u by (unfold LONG_MAX; lia). simpl fst.
  rewrite s32_id by lia. unfold s16, u16. Z.to_euclidean_division_equations; lia.
Qed.

Lemma proxy_relays_witness :
  exists s, run true (Success (str "GET /") :: Success [] :: Success [] :: chunk_events [str "200"; str " OK"])
      (start (replicate BUF_SIZE x00) (replicate BUF_SIZE x00)) = Some (Continue s) /\
    to_client s = str "200 OK" /\ to_server s = replicate BUF_SIZE x61.
Proof.
  destruct (proxy_relays (str "GET /") [str "200"; str " OK"] (replicate BUF_SIZE x00) (replicate BUF_SIZE x00))
    as (s & buf & E & H1 & H2 & _); [apply length_replicate | apply length_replicate | | |].
  - unfold fits, BUF_SIZE. apply Nat.leb_le. vm_compute. reflexivity.
  - repeat (apply Forall_cons; split); first [by apply Forall_nil | unfold fits, BUF_SIZE; apply Nat.leb_le; vm_compute; reflexivity].
  - exists s. split; [exact E |]. split; [exact H1 | exact H2].
Defined.

Lemma resolve_failure_stops_proxy_witness :
  io_run false [SessionDone 0 (Success (str "GET /")); Accepted [] []]
    [start (replicate BUF_SIZE x00) (replicate BUF_SIZE x00)] = Some None.
Proof.
  apply (resolve_failure_stops_proxy _ 0 (start (replicate BUF_SIZE x00) (replicate BUF_SIZE x00)));
    [reflexivity | reflexivity | apply length_replicate |].
  unfold fits, BUF_SIZE. apply Nat.leb_le. vm_compute. reflexivity.
Defined.

Lemma main_port_exact_witness : main_port (str "65000") = 65000.
Proof. apply (main_port_exact 65000). lia. Defined.
