(* ===== verification/Hashmap.v ===== *)
(** libbpf's hash map: src/lib/libbpf/src/hashmap.c and hashmap.h.

    Keys and values are [long]s.  Hash and equality are the callbacks of the
    map's owner; a callback that reads where it must not has no result, and
    neither has the operation that called it.  A bucket is the list of its
    entries; the pointer to the link that refers to an entry is the entry's
    position in its bucket.  Allocations may fail ([calloc], given the number
    of buckets, and [malloc]). *)
From S2P Require Import Prelude.
From S2P Require Import CLib.

Definition HASHMAP_MIN_CAP_BITS : Z := 2.

(** The 64-bit case. *)
Definition hash_bits (h bits : Z) : Z :=
  if bits =? 0 then 0 else Z.shiftr (u64 (h * 11400714819323198485)) (64 - bits).

(** A [char] is signed. *)
Definition s8 (z : Z) : Z := (z + 2 ^ 7) mod 2 ^ 8 - 2 ^ 7.

(** [None]: the memory ends before the terminator. *)
Fixpoint str_hash_from (h : Z) (m : list byte) : option Z :=
  match m with
  | [] => None
  | b :: m' => if decide (b = NUL) then Some h else str_hash_from (u64 (h * 31 + s8 (byte.unsigned b))) m'
  end.
Definition str_hash (m : list byte) : option Z := str_hash_from 0 m.

Record hashmap_entry := { ekey : Z; evalue : Z }.

Record hashmap := {
  buckets : option (list (list hashmap_entry));
  cap : Z;
  cap_bits : Z;
  sz : Z
}.

Definition set_sz (map : hashmap) (n : Z) : hashmap :=
  {| buckets := buckets map; cap := cap map; cap_bits := cap_bits map; sz := n |}.

Inductive hashmap_insert_strategy := HASHMAP_ADD | HASHMAP_SET | HASHMAP_UPDATE | HASHMAP_APPEND.

#[global] Instance strategy_eq_dec : EqDecision hashmap_insert_strategy.
Proof. solve_decision. Defined.

Definition hashmap__init : hashmap := {| buckets := None; cap := 0; cap_bits := 0; sz := 0 |}.

(** [None]: the error pointer of [-ENOMEM]. *)
Definition hashmap__new (malloc : bool) : option hashmap := if malloc then Some hashmap__init else None.

Definition hashmap__clear (map : hashmap) : hashmap := {| buckets := None; cap := 0; cap_bits := 0; sz := 0 |}.
Definition hashmap__size (map : hashmap) : Z := sz map.
Definition hashmap__capacity (map : hashmap) : Z := cap map.

Definition hashmap_needs_to_grow (map : hashmap) : bool :=
  (cap map =? 0) || (cap map <? u64 (u64 (sz map + 1) * 4) / 3).

(** The entries in the order of [hashmap__for_each_entry]. *)
Definition for_each_entry (map : hashmap) : option (list hashmap_entry) :=
  if cap map =? 0 then Some [] else
  bs ← buckets map;
  if zlen bs <? cap map then None else Some (concat (take (Z.to_nat (cap map)) bs)).

Definition hashmap_add_entry (bs : list (list hashmap_entry)) (h : Z) (entry : hashmap_entry) :
    option (list (list hashmap_entry)) :=
  b ← bs !! Z.to_nat h; Some (<[Z.to_nat h := entry :: b]> bs).

Section Ops.
Context (hash_fn : Z -> option Z) (equal_fn : Z -> Z -> option bool).

(** Moving the entries one after another to the new buckets. *)
Fixpoint rehash (es : list hashmap_entry) (new_cap_bits : Z) (bs : list (list hashmap_entry)) :
    option (list (list hashmap_entry)) :=
  match es with
  | [] => Some bs
  | cur :: es' =>
    hv ← hash_fn (ekey cur);
    bs ← hashmap_add_entry bs (hash_bits hv new_cap_bits) cur;
    rehash es' new_cap_bits bs
  end.

(** A shift by 64 or more has no result. *)
Definition hashmap_grow (calloc : Z -> bool) (map : hashmap) : option (Z * hashmap) :=
  let new_cap_bits := u64 (cap_bits map + 1) in
  let new_cap_bits := if new_cap_bits <? HASHMAP_MIN_CAP_BITS then HASHMAP_MIN_CAP_BITS else new_cap_bits in
  if 64 <=? new_cap_bits then None else
  let new_cap := Z.shiftl 1 new_cap_bits in
  if negb (calloc new_cap) then Some (- ENOMEM, map) else
  es ← for_each_entry map;
  bs ← rehash es new_cap_bits (replicate (Z.to_nat new_cap) []);
  Some (0, {| buckets := Some bs; cap := new_cap; cap_bits := new_cap_bits; sz := sz map |}).

(** The search in a bucket: the position of the entry and the entry. *)
Fixpoint find_chain (b : list hashmap_entry) (key : Z) (i : nat) : option (option (nat * hashmap_entry)) :=
  match b with
  | [] => Some None
  | cur :: b' => eq ← equal_fn (ekey cur) key; if eq : bool then Some (Some (i, cur)) else find_chain b' key (S i)
  end.

Definition hashmap_find_entry (map : hashmap) (key h : Z) : option (option (nat * hashmap_entry)) :=
  match buckets map with
  | None => Some None
  | Some bs => b ← bs !! Z.to_nat h; find_chain b key 0
  end.

(** [f] applied to bucket [h]. *)
Definition on_bucket (map : hashmap) (h : Z) (f : list hashmap_entry -> list hashmap_entry) : option hashmap :=
  bs ← buckets map;
  b ← bs !! Z.to_nat h;
  Some {| buckets := Some (<[Z.to_nat h := f b]> bs); cap := cap map; cap_bits := cap_bits map; sz := sz map |}.

(** A new entry, in front of its bucket. *)
Definition put_new (malloc : bool) (map : hashmap) (key value h : Z) : option (Z * hashmap) :=
  if negb malloc then Some (- ENOMEM, map) else
  map ← on_bucket map h (cons {| ekey := key; evalue := value |});
  Some (0, set_sz map (u64 (sz map + 1))).

(** The part behind the search. *)
Definition insert_new (calloc : Z -> bool) (malloc : bool) (map : hashmap) (key value h : Z) : option (Z * hashmap) :=
  if hashmap_needs_to_grow map then
    '(err, map) ← hashmap_grow calloc map;
    if negb (err =? 0) then Some (err, map) else
    hv ← hash_fn key;
    put_new malloc map key value (hash_bits hv (cap_bits map))
  else put_new malloc map key value h.

(** The result, what [old_key] and [old_value] are set to, and the map. *)
Definition hashmap_insert (calloc : Z -> bool) (malloc : bool) (map : hashmap) (key value : Z)
    (strategy : hashmap_insert_strategy) : option (Z * Z * Z * hashmap) :=
  hv ← hash_fn key;
  let h := hash_bits hv (cap_bits map) in
  found ← (if decide (strategy = HASHMAP_APPEND) then Some None else hashmap_find_entry map key h);
  match found, strategy with
  | Some (i, entry), HASHMAP_ADD => Some (- EEXIST, ekey entry, evalue entry, map)
  | Some (i, entry), _ =>
    map ← on_bucket map h (fun b => <[i := {| ekey := key; evalue := value |}]> b);
    Some (0, ekey entry, evalue entry, map)
  | None, HASHMAP_UPDATE => Some (- ENOENT, 0, 0, map)
  | None, _ => '(err, map) ← insert_new calloc malloc map key value h; Some (err, 0, 0, map)
  end.

(** The value found. *)
Definition hashmap_find (map : hashmap) (key : Z) : option (option Z) :=
  hv ← hash_fn key;
  found ← hashmap_find_entry map key (hash_bits hv (cap_bits map));
  Some (option_map (fun x => evalue (snd x)) found).

(** The old key and value, if there was an entry. *)
Definition hashmap_delete (map : hashmap) (key : Z) : option (option (Z * Z) * hashmap) :=
  hv ← hash_fn key;
  let h := hash_bits hv (cap_bits map) in
  found ← hashmap_find_entry map key h;
  match found with
  | None => Some (None, map)
  | Some (i, entry) =>
    map ← on_bucket map h (delete i);
    Some (Some (ekey entry, evalue entry), set_sz map (u64 (sz map - 1)))
  end.

(** The entries [hashmap__for_each_key_entry] visits, in order. *)
Fixpoint key_chain (b : list hashmap_entry) (key : Z) : option (list hashmap_entry) :=
  match b with
  | [] => Some []
  | cur :: b' =>
    eq ← equal_fn (ekey cur) key;
    es ← key_chain b' key;
    Some (if eq : bool then cur :: es else es)
  end.

Definition for_each_key_entry (map : hashmap) (key : Z) : option (list hashmap_entry) :=
  match buckets map with
  | None => Some []
  | Some bs => hv ← hash_fn key; b ← bs !! Z.to_nat (hash_bits hv (cap_bits map)); key_chain b key
  end.

End Ops.

(** ** Buckets *)

Lemma hash_bits_range h bits : 0 <= bits <= 64 -> 0 <= hash_bits h bits < 2 ^ bits.
Proof.
  intros Hb. unfold hash_bits. destruct (Z.eqb_spec bits 0) as [-> | Hn]; [done |].
  pose proof (u64_range (h * 11400714819323198485)) as Hu. rewrite Z.shiftr_div_pow2 by lia. split.
  - apply Z.div_pos; [lia | apply Z.pow_pos_nonneg; lia].
  - apply Z.div_lt_upper_bound; [apply Z.pow_pos_nonneg; lia |]. rewrite <- Z.pow_add_r by lia.
    replace (64 - bits + bits) with 64 by lia. lia.
Qed.

(** What is left of the entries without bucket [i]. *)
Lemma concat_bucket (bs : list (list hashmap_entry)) i b : bs !! i = Some b -> exists rest, concat bs ≡ₚ b ++ rest /\
  (forall b', concat (<[i := b']> bs) ≡ₚ b' ++ rest) /\
  (forall e, e ∈ rest -> exists j b1, j <> i /\ bs !! j = Some b1 /\ e ∈ b1).
Proof.
  intros E. pose proof (lookup_lt_Some _ _ _ E) as Hi.
  exists (concat (take i bs) ++ concat (drop (S i) bs)). split_and!.
  - rewrite <- (take_drop_middle bs i b E) at 1. rewrite concat_app. cbn [concat]. solve_Permutation.
  - intros b'. rewrite insert_take_drop by done. rewrite concat_app. cbn [concat]. solve_Permutation.
  - intros e [He | He]%elem_of_app; apply list_elem_of_In, in_concat in He as (b1 & H1 & H2);
      apply list_elem_of_In in H1, H2; apply list_elem_of_lookup in H1 as (j & Hj).
    + apply lookup_take_Some in Hj as [Hj Hlt]. exists j, b1. split_and!; [lia | done | done].
    + rewrite lookup_drop in Hj. exists (S i + j)%nat, b1. split_and!; [lia | done | done].
Qed.

(** ** The map a hash map stands for

    Keys are what [repr] makes of the stored [long]s: equality of keys is
    equality of what they stand for, and the hash depends on that alone.  [P]
    are the keys the callbacks can be called with. *)
Section Spec.
Context {R : Type} `{Countable R} (P : Z -> Prop) (repr : Z -> R) (hash : R -> Z).
Context (hash_fn : Z -> option Z) (equal_fn : Z -> Z -> option bool).
Context (Hhash : forall k, P k -> hash_fn k = Some (hash (repr k))).
Context (Hequal : forall k1 k2, P k1 -> P k2 -> equal_fn k1 k2 = Some (bool_decide (repr k1 = repr k2))).
(** The bytes asked for do not fit a [size_t]. *)
Context (calloc : Z -> bool) (Hcalloc : forall n, 2 ^ 61 <= n -> calloc n = false).

(** An allocation fails that a map of [n] entries asks for: the entry, or at
    most four buckets for each entry. *)
Definition no_memory (malloc : bool) (n : Z) : Prop := malloc = false \/ exists k, 0 <= k <= 4 * (n + 1) /\ calloc k = false.

Lemma no_memory_mono malloc n n' : n <= n' -> no_memory malloc n -> no_memory malloc n'.
Proof. intros Hle [-> | (k & Hk & Hc)]; [by left | right]. exists k. split; [lia | done]. Qed.

Definition idx (k bits : Z) : nat := Z.to_nat (hash_bits (hash (repr k)) bits).

(** Every entry is in the bucket of its key. *)
Definition placed (bits : Z) (bs : list (list hashmap_entry)) : Prop :=
  forall i b e, bs !! i = Some b -> e ∈ b -> P (ekey e) /\ i = idx (ekey e) bits.

Definition entries (m : hashmap) : list hashmap_entry := match buckets m with None => [] | Some bs => concat bs end.

(** The invariant: a power of two of buckets, at most three quarters as many
    entries, counted by [sz]. *)
Definition hm_ok (m : hashmap) : Prop :=
  match buckets m with
  | None => cap m = 0 /\ cap_bits m = 0 /\ sz m = 0
  | Some bs => 2 <= cap_bits m <= 60 /\ cap m = 2 ^ cap_bits m /\ zlen bs = cap m /\ placed (cap_bits m) bs /\
      sz m = zlen (concat bs) /\ sz m * 4 / 3 <= cap m
  end.

Lemma idx_lt k bits : 0 <= bits <= 64 -> Z.of_nat (idx k bits) < 2 ^ bits.
Proof. intros Hb. unfold idx. pose proof (hash_bits_range (hash (repr k)) bits Hb). lia. Qed.

Lemma find_chain_spec k b : P k -> (forall e, e ∈ b -> P (ekey e)) -> forall i, exists r, find_chain equal_fn b k i = Some r /\
  match r with
  | None => forall e, e ∈ b -> repr (ekey e) <> repr k
  | Some (j, e) => (i <= j)%nat /\ b !! (j - i)%nat = Some e /\ repr (ekey e) = repr k
  end.
Proof.
  intros Hk. induction b as [| e b IH]; intros Hb i; cbn [find_chain].
  { exists None. split; [done |]. by intros e ?%not_elem_of_nil. }
  rewrite Hequal by (done || (apply Hb; set_solver)). cbn [mbind option_bind]. case_bool_decide as E.
  { exists (Some (i, e)). by rewrite Nat.sub_diag. }
  destruct (IH ltac:(set_solver) (S i)) as (r & -> & Hr). exists r. split; [done |]. destruct r as [[j e'] |].
  - destruct Hr as (Hj & Hl & He). split_and!; [lia | | done].
    by replace (j - i)%nat with (S (j - S i)) by lia.
  - intros e' [-> | He']%elem_of_cons; [done | by apply Hr].
Qed.

Lemma bucket_of k m bs : hm_ok m -> buckets m = Some bs -> exists b, bs !! idx k (cap_bits m) = Some b.
Proof.
  intros Hok E. unfold hm_ok in Hok. rewrite E in Hok. destruct Hok as (Hb & Hc & Hl & _).
  apply lookup_lt_is_Some. pose proof (idx_lt k (cap_bits m)). unfold zlen in Hl. lia.
Qed.

(** The entry of a key, if there is one, is found in its bucket. *)
Lemma find_entry_spec m k : hm_ok m -> P k ->
  exists r, hashmap_find_entry equal_fn m k (hash_bits (hash (repr k)) (cap_bits m)) = Some r /\
    match r with
    | None => forall e, e ∈ entries m -> repr (ekey e) <> repr k
    | Some (i, e) => repr (ekey e) = repr k /\
        exists bs b, buckets m = Some bs /\ bs !! idx k (cap_bits m) = Some b /\ b !! i = Some e
    end.
Proof.
  intros Hok Hk. unfold hashmap_find_entry, entries. destruct (buckets m) as [bs |] eqn:E; [| exists None; set_solver].
  destruct (bucket_of k m bs Hok E) as [b Eb]. fold (idx k (cap_bits m)). rewrite Eb. cbn [mbind option_bind].
  unfold hm_ok in Hok. rewrite E in Hok. destruct Hok as (_ & _ & _ & Hp & _).
  destruct (find_chain_spec k b Hk ltac:(by intros e He; apply (Hp _ _ _ Eb He)) 0) as (r & -> & Hr).
  exists r. split; [done |]. destruct r as [[j e] |].
  - destruct Hr as (_ & Hl & He). rewrite Nat.sub_0_r in Hl. eauto 10.
  - intros e He Hek. destruct (concat_bucket bs _ b Eb) as (rest & HP & _ & Hrest). rewrite HP in He.
    apply elem_of_app in He as [He | He]; [by apply (Hr e) |]. destruct (Hrest e He) as (j & b1 & Hj & Hb1 & He1).
    destruct (Hp _ _ _ Hb1 He1) as [_ ->]. apply Hj. unfold idx. by rewrite Hek.
Qed.

Lemma placed_update bits bs k b' : placed bits bs ->
  (forall e, e ∈ b' -> P (ekey e) /\ idx (ekey e) bits = idx k bits) -> placed bits (<[idx k bits := b']> bs).
Proof.
  intros Hp Hb' i b e Hi He. apply list_lookup_insert_Some in Hi as [(<- & -> & _) | (_ & Hi)]; [| by eapply Hp].
  destruct (Hb' e He) as [HP HI]. by rewrite HI.
Qed.

Lemma for_each_entry_ok m : hm_ok m -> for_each_entry m = Some (entries m).
Proof.
  unfold hm_ok, for_each_entry, entries. destruct (buckets m) as [bs |].
  - intros (Hb & Hc & Hl & _). assert (0 < 2 ^ cap_bits m) by (apply Z.pow_pos_nonneg; lia).
    rewrite (proj2 (Z.eqb_neq (cap m) 0)) by lia. cbn [mbind option_bind]. rewrite (proj2 (Z.ltb_ge _ _)) by lia.
    do 2 f_equal. apply take_ge. unfold zlen in Hl. lia.
  - intros (-> & _). done.
Qed.

Lemma add_entry_spec bits bs e : 0 <= bits <= 64 -> P (ekey e) -> placed bits bs -> zlen bs = 2 ^ bits ->
  exists bs', hashmap_add_entry bs (hash_bits (hash (repr (ekey e))) bits) e = Some bs' /\
    placed bits bs' /\ zlen bs' = 2 ^ bits /\ concat bs' ≡ₚ e :: concat bs.
Proof.
  intros Hb HP Hp Hl. unfold hashmap_add_entry. fold (idx (ekey e) bits).
  destruct (lookup_lt_is_Some_2 bs (idx (ekey e) bits)) as [b Eb].
  { pose proof (idx_lt (ekey e) bits Hb). unfold zlen in Hl. lia. }
  rewrite Eb. cbn [mbind option_bind]. eexists. split; [done |].
  destruct (concat_bucket bs _ b Eb) as (rest & H1 & H2 & _). split_and!.
  - apply placed_update; [done |]. intros e' [-> | He']%elem_of_cons; [done |]. destruct (Hp _ _ _ Eb He') as [? ->]. done.
  - unfold zlen in *. by rewrite length_insert.
  - by rewrite H2, H1.
Qed.

Lemma rehash_spec bits es : 0 <= bits <= 64 -> (forall e, e ∈ es -> P (ekey e)) -> forall bs, placed bits bs ->
  zlen bs = 2 ^ bits -> exists bs', rehash hash_fn es bits bs = Some bs' /\ placed bits bs' /\ zlen bs' = 2 ^ bits /\
    concat bs' ≡ₚ es ++ concat bs.
Proof.
  intros Hb. induction es as [| e es IH]; intros HP bs Hp Hl; cbn [rehash]; [by eauto |].
  rewrite Hhash by (apply HP; set_solver). cbn [mbind option_bind].
  destruct (add_entry_spec bits bs e Hb ltac:(apply HP; set_solver) Hp Hl) as (bs1 & -> & Hp1 & Hl1 & HP1).
  cbn [mbind option_bind]. destruct (IH ltac:(set_solver) bs1 Hp1 Hl1) as (bs2 & -> & Hp2 & Hl2 & HP2).
  eexists. split_and!; [done | done | done |]. rewrite HP2, HP1. cbn [app]. solve_Permutation.
Qed.

Lemma entries_P m e : hm_ok m -> e ∈ entries m -> P (ekey e).
Proof.
  unfold hm_ok, entries. destruct (buckets m) as [bs |]; [| set_solver]. intros (_ & _ & _ & Hp & _) He.
  apply list_elem_of_In, in_concat in He as (b & Hb & He). apply list_elem_of_In, list_elem_of_lookup in Hb as (i & Hi).
  apply list_elem_of_In in He. by apply (Hp i b e).
Qed.

(** Growing doubles the number of buckets and keeps the entries. *)
Lemma grow_spec m : hm_ok m -> exists err m', hashmap_grow hash_fn calloc m = Some (err, m') /\
  ((err = - ENOMEM /\ m' = m /\ exists n, 0 <= n <= Z.max 4 (2 * cap m) /\ calloc n = false) \/
   (err = 0 /\ hm_ok m' /\ entries m' ≡ₚ entries m /\ sz m' = sz m /\ cap m < cap m' /\ 2 * cap m <= cap m' /\
    4 <= cap m' /\ buckets m' <> None)).
Proof.
  intros Hok. assert (cap_bits m = 0 /\ cap m = 0 /\ sz m = 0 \/
    2 <= cap_bits m <= 60 /\ cap m = 2 ^ cap_bits m /\ 0 <= sz m /\ sz m * 4 / 3 <= cap m) as Hc.
  { unfold hm_ok in Hok. destruct (buckets m) as [bs |]; [right | left]; [| naive_solver].
    pose proof (zlen_nonneg (concat bs)). naive_solver lia. }
  pose proof (for_each_entry_ok m Hok) as He. pose proof (fun e => entries_P m e Hok) as HP.
  unfold hashmap_grow. rewrite u64_id by lia. set (nb := if _ <? _ then _ else _).
  assert (2 <= nb <= 61 /\ cap_bits m < nb /\ nb = Z.max 2 (cap_bits m + 1)) as (Hnb & Hlt & Hmax)
    by (unfold nb, HASHMAP_MIN_CAP_BITS; destruct (Z.ltb_spec (cap_bits m + 1) 2); lia).
  clearbody nb. rewrite (proj2 (Z.leb_gt _ _)) by lia. rewrite Z.shiftl_1_l.
  destruct (calloc (2 ^ nb)) eqn:Ec; cbn [negb].
  2: { eexists _, _. split; [done |]. left. split_and!; try done. exists (2 ^ nb). split; [| done]. split; [lia |].
       destruct Hc as [(Hb & Hc & _) | (Hb & Hc & _)]; [rewrite Hmax, Hb, Hc; vm_compute; discriminate |]. rewrite Hc, <- Z.pow_succ_r, Hmax by lia.
       etransitivity; [| apply Z.le_max_r]. apply Z.pow_le_mono_r; lia. }
  assert (nb <= 60). { destruct (decide (nb = 61)) as [-> |]; [| lia]. by rewrite Hcalloc in Ec. }
  rewrite He. cbn [mbind option_bind].
  destruct (rehash_spec nb (entries m) ltac:(lia) HP (replicate (Z.to_nat (2 ^ nb)) [])) as (bs & -> & Hp & Hl & HPm).
  { intros i b e Hi. apply lookup_replicate in Hi as [-> _]. set_solver. }
  { rewrite zlen_replicate. lia. }
  cbn [mbind option_bind].
  assert (concat (replicate (Z.to_nat (2 ^ nb)) []) = @nil hashmap_entry) as Hnil.
  { clear. induction (Z.to_nat (2 ^ nb)); [done |]. done. }
  rewrite Hnil, app_nil_r in HPm.
  assert (sz m = zlen (entries m)) as Hsz.
  { unfold hm_ok, entries in *. destruct (buckets m); naive_solver. }
  assert (cap m = 0 \/ cap m = 2 ^ cap_bits m) as Hcap by (destruct Hc as [(_ & ? & _) | (_ & ? & _)]; auto).
  assert (4 <= 2 ^ nb) by (change 4 with (2 ^ 2); apply Z.pow_le_mono_r; lia).
  assert (2 * cap m <= 2 ^ nb /\ cap m < 2 ^ nb) as [? ?].
  { destruct Hcap as [-> | ->]; [lia |]. pose proof (Z.pow_pos_nonneg 2 (cap_bits m)).
    assert (2 * 2 ^ cap_bits m <= 2 ^ nb); [| lia]. rewrite <- Z.pow_succ_r by lia. apply Z.pow_le_mono_r; lia. }
  eexists _, _. split; [done |]. right. unfold hm_ok, entries at 1. cbn [buckets cap cap_bits sz].
  split_and!; try done; try lia.
  - rewrite Hsz. unfold zlen. by rewrite HPm.
  - destruct Hc as [(_ & _ & ->) | (_ & _ & _ & Hs)]; [change (0 * 4 / 3) with 0 |]; lia.
Qed.

(** What a change of the bucket of [k] makes of the map. *)
Lemma on_bucket_spec m k b f : hm_ok m -> P k ->
  (exists bs, buckets m = Some bs /\ bs !! idx k (cap_bits m) = Some b) ->
  (forall e, e ∈ f b -> e ∈ b \/ (P (ekey e) /\ repr (ekey e) = repr k)) ->
  (zlen (entries m) + zlen (f b) - zlen b) * 4 / 3 <= cap m ->
  exists m' rest, on_bucket m (hash_bits (hash (repr k)) (cap_bits m)) f = Some m' /\
    hm_ok (set_sz m' (sz m + zlen (f b) - zlen b)) /\ sz m' = sz m /\
    entries m ≡ₚ b ++ rest /\ entries m' ≡ₚ f b ++ rest.
Proof.
  intros Hok Hk (bs & E & Eb) Hf Hload. unfold on_bucket. fold (idx k (cap_bits m)).
  destruct m as [mbs c cb s]. unfold hm_ok, entries in *. cbn [buckets cap cap_bits sz] in *. subst mbs.
  cbn [mbind option_bind]. rewrite Eb. cbn [mbind option_bind].
  destruct (concat_bucket bs _ b Eb) as (rest & H1 & H2 & _).
  eexists _, rest. split; [done |]. cbn [buckets cap cap_bits sz set_sz].
  destruct Hok as (Hb & Hc & Hl & Hp & Hs & _). pose proof (H2 (f b)) as H3. split_and!; try done; try lia.
  - unfold zlen in *. by rewrite length_insert.
  - apply placed_update; [done |]. intros e He. destruct (Hf e He) as [Hin | [HP HR]].
    + destruct (Hp _ _ _ Eb Hin) as [? ->]. done.
    + split; [done |]. unfold idx. by rewrite HR.
  - rewrite Hs. apply Permutation_length in H1, H3. rewrite length_app in *. unfold zlen. lia.
  - by rewrite Hs.
Qed.

Lemma ok_sz m : hm_ok m -> sz m = zlen (entries m) /\ 0 <= sz m < 2 ^ 60 /\ cap m <= 2 ^ 60.
Proof.
  unfold hm_ok, entries. destruct (buckets m) as [bs |]; [| intros (? & ? & ?); rewrite zlen_nil; lia].
  intros (Hb & Hc & _ & _ & Hs & Hl). pose proof (zlen_nonneg (concat bs)).
  assert (cap m <= 2 ^ 60) by (rewrite Hc; apply Z.pow_le_mono_r; lia).
  split_and!; [done | lia | | done]. Z.to_euclidean_division_equations. lia.
Qed.

Lemma needs_to_grow_spec m : hm_ok m ->
  hashmap_needs_to_grow m = false -> buckets m <> None /\ (sz m + 1) * 4 / 3 <= cap m.
Proof.
  intros Hok. destruct (ok_sz m Hok) as (_ & Hs & _). unfold hashmap_needs_to_grow. rewrite (u64_id (sz m + 1)), u64_id by lia.
  intros [Hz Hg]%orb_false_iff. apply Z.eqb_neq in Hz. apply Z.ltb_ge in Hg. split; [| done].
  unfold hm_ok in Hok. intros E. rewrite E in Hok. naive_solver.
Qed.

(** A new entry is added, or memory is short and the map holds what it held. *)
Lemma put_new_spec malloc m k v : hm_ok m -> P k -> buckets m <> None -> (sz m + 1) * 4 / 3 <= cap m ->
  exists err m', put_new malloc m k v (hash_bits (hash (repr k)) (cap_bits m)) = Some (err, m') /\ hm_ok m' /\
    ((err = - ENOMEM /\ m' = m /\ malloc = false) \/ (err = 0 /\ entries m' ≡ₚ {| ekey := k; evalue := v |} :: entries m)).
Proof.
  intros Hok Hk Hb Hl. unfold put_new. destruct malloc; cbn [negb]; [| by eauto 10].
  destruct (ok_sz m Hok) as (Hs & Hr & _). destruct (buckets m) as [bs |] eqn:E; [| done].
  destruct (bucket_of k m bs Hok E) as [b Eb].
  destruct (on_bucket_spec m k b (cons {| ekey := k; evalue := v |})) as (m' & rest & -> & Hok' & Hs' & H1 & H2);
    [done | done | by eauto | set_solver | |].
  { rewrite zlen_cons. replace (zlen (entries m) + (1 + zlen b) - zlen b) with (sz m + 1) by lia. done. }
  cbn [mbind option_bind]. eexists _, _. split; [done |]. rewrite Hs', u64_id by lia.
  rewrite zlen_cons in Hok'. replace (sz m + (1 + zlen b) - zlen b) with (sz m + 1) in Hok' by lia.
  split; [done |]. right. split; [done |]. rewrite H1. unfold entries in H2 |- *. cbn [buckets set_sz]. by rewrite H2.
Qed.

Lemma insert_new_spec malloc m k v : hm_ok m -> P k ->
  exists err m', insert_new hash_fn calloc malloc m k v (hash_bits (hash (repr k)) (cap_bits m)) = Some (err, m') /\
    hm_ok m' /\ ((err = - ENOMEM /\ entries m' ≡ₚ entries m /\ no_memory malloc (sz m)) \/
      (err = 0 /\ entries m' ≡ₚ {| ekey := k; evalue := v |} :: entries m)).
Proof.
  intros Hok Hk. unfold insert_new. destruct (hashmap_needs_to_grow m) eqn:Eg.
  - destruct (grow_spec m Hok) as (err & m1 & -> & [(-> & -> & Hn) | (-> & Hok1 & HP & Hs & Hc & Hc2 & H4 & Hb1)]);
      cbn [mbind option_bind].
    { eexists _, _. split; [done |]. split; [done |]. left. split_and!; [done | done |]. right. destruct Hn as (n & Hn & Hc). exists n.
      split; [| done]. destruct (ok_sz m Hok) as (_ & Hs & _). unfold hashmap_needs_to_grow in Eg.
      rewrite (u64_id (sz m + 1)), u64_id in Eg by lia. Z.to_euclidean_division_equations. lia. }
    cbn [Z.eqb negb]. rewrite Hhash by done. cbn [mbind option_bind].
    assert ((sz m1 + 1) * 4 / 3 <= cap m1) as Hl1.
    { rewrite Hs. assert (sz m * 4 / 3 <= cap m) as Hl.
      { unfold hm_ok in Hok. destruct (buckets m); [naive_solver |]. destruct Hok as (-> & _ & ->). done. }
      Z.to_euclidean_division_equations. lia. }
    destruct (put_new_spec malloc m1 k v Hok1 Hk Hb1 Hl1) as (err & m2 & -> & Hok2 & [(-> & -> & Hn) | (-> & HP2)]).
    + eexists _, _. split; [done |]. split; [done |]. left. split_and!; [done | done | by left].
    + eexists _, _. split; [done |]. split; [done |]. right. by rewrite HP2, HP.
  - destruct (needs_to_grow_spec m Hok Eg) as [Hb Hl].
    destruct (put_new_spec malloc m k v Hok Hk Hb Hl) as (err & m2 & -> & Hok2 & [(-> & -> & Hn) | (-> & HP2)]);
      eexists _, _; (split; [done |]); (split; [done |]); [left; split_and!; [done | done | by left] | by right].
Qed.

(** *** As a finite map, when no two entries have the same key *)

Definition pair (e : hashmap_entry) : R * (Z * Z) := (repr (ekey e), (ekey e, evalue e)).
Definition to_map (es : list hashmap_entry) : gmap R (Z * Z) := list_to_map (pair <$> es).
Definition abs (m : hashmap) : gmap R (Z * Z) := to_map (entries m).

Definition keys (es : list hashmap_entry) : list R := (fun e => repr (ekey e)) <$> es.
Definition uniq (m : hashmap) : Prop := NoDup (keys (entries m)).

Lemma fst_pair es : (pair <$> es).*1 = keys es.
Proof. unfold keys. by rewrite <- list_fmap_compose. Qed.

Lemma to_map_perm es es' : NoDup (keys es) -> es ≡ₚ es' -> to_map es = to_map es'.
Proof. intros Hn HP. apply list_to_map_proper; [by rewrite fst_pair | by rewrite HP]. Qed.

Lemma to_map_None es r : to_map es !! r = None <-> r ∉ keys es.
Proof. unfold to_map. rewrite <- fst_pair. split; [apply not_elem_of_list_to_map_2 | apply not_elem_of_list_to_map_1]. Qed.

Lemma to_map_Some es e : NoDup (keys es) -> e ∈ es -> to_map es !! repr (ekey e) = Some (ekey e, evalue e).
Proof.
  intros Hn He. apply elem_of_list_to_map_1; [by rewrite fst_pair |]. apply list_elem_of_fmap. by exists e.
Qed.

(** What [hashmap_insert] promises. *)
Definition spec_insert (strategy : hashmap_insert_strategy) (malloc : bool) (k v : Z) (M : gmap R (Z * Z))
    (res : Z * Z * Z) (M' : gmap R (Z * Z)) : Prop :=
  match M !! repr k, strategy with
  | Some (k0, v0), HASHMAP_ADD => res = (- EEXIST, k0, v0) /\ M' = M
  | Some (k0, v0), _ => res = (0, k0, v0) /\ M' = <[repr k := (k, v)]> M
  | None, HASHMAP_UPDATE => res = (- ENOENT, 0, 0) /\ M' = M
  | None, _ => (res = (0, 0, 0) /\ M' = <[repr k := (k, v)]> M) \/
      (res = (- ENOMEM, 0, 0) /\ M' = M /\ no_memory malloc (Z.of_nat (base.size M)))
  end.

Lemma abs_size m : hm_ok m -> uniq m -> sz m = Z.of_nat (base.size (abs m)).
Proof.
  intros Hok Hu. unfold abs, to_map. destruct (ok_sz m Hok) as (-> & _).
  rewrite map_size_list_to_map by (by rewrite fst_pair). by rewrite length_fmap.
Qed.

Lemma abs_insert_new m m' e : uniq m -> (forall x, x ∈ entries m -> repr (ekey x) <> repr (ekey e)) ->
  entries m' ≡ₚ e :: entries m -> uniq m' /\ abs m' = <[repr (ekey e) := (ekey e, evalue e)]> (abs m).
Proof.
  intros Hu Hne HP. assert (NoDup (keys (e :: entries m))) as Hn.
  { cbn. apply NoDup_cons. split; [| done]. intros (x & Hx & Hin)%list_elem_of_fmap. by apply (Hne x). }
  assert (uniq m') as Hu' by (unfold uniq, keys; by rewrite HP). split; [done |]. unfold abs.
  by rewrite (to_map_perm _ _ Hu' HP).
Qed.

Lemma abs_same m m' : uniq m -> entries m' ≡ₚ entries m -> uniq m' /\ abs m' = abs m.
Proof.
  intros Hu HP. assert (uniq m') as Hu' by (unfold uniq, keys; by rewrite HP). split; [done |].
  by apply to_map_perm.
Qed.

(** The entry [e] of the map, alone and with the others. *)
Lemma uniq_split m e rest : uniq m -> entries m ≡ₚ e :: rest ->
  repr (ekey e) ∉ keys rest /\ NoDup (keys rest) /\ abs m = <[repr (ekey e) := (ekey e, evalue e)]> (to_map rest).
Proof.
  intros Hu HP. assert (NoDup (keys (e :: rest))) as Hn by (unfold uniq, keys in *; by rewrite <- HP).
  apply NoDup_cons in Hn as [Hn1 Hn2]. split_and!; [done | done |].
  unfold abs. by rewrite (to_map_perm _ _ Hu HP).
Qed.

(** The entry found at position [i] of its bucket. *)
Definition found_at (m : hashmap) (k : Z) (i : nat) (e : hashmap_entry) : Prop :=
  repr (ekey e) = repr k /\
  exists bs b, buckets m = Some bs /\ bs !! idx k (cap_bits m) = Some b /\ b !! i = Some e.

Lemma insert_at_perm {A} (l : list A) i x y : l !! i = Some x -> <[i := y]> l ≡ₚ y :: delete i l.
Proof.
  intros E. pose proof (lookup_lt_Some _ _ _ E). rewrite insert_take_drop, delete_take_drop by done. solve_Permutation.
Qed.

Lemma perm_cons_app {A} (l b d rest : list A) x : l ≡ₚ b ++ rest -> b ≡ₚ x :: d -> l ≡ₚ x :: (d ++ rest).
Proof. intros H1 H2. etrans; [exact H1 |]. exact (Permutation_app_tail rest H2). Qed.

Lemma ok_load m : hm_ok m -> sz m * 4 / 3 <= cap m.
Proof.
  unfold hm_ok. destruct (buckets m); [naive_solver |]. intros (-> & _ & ->). done.
Qed.

Lemma set_sz_same m : set_sz m (sz m) = m.
Proof. by destruct m. Qed.

Lemma found_abs m k i e : uniq m -> found_at m k i e -> abs m !! repr k = Some (ekey e, evalue e).
Proof.
  intros Hu (HR & bs & b & E & Eb & Ei). rewrite <- HR. apply to_map_Some; [done |]. unfold entries. rewrite E.
  apply list_elem_of_In, in_concat. exists b. split; apply list_elem_of_In; by eapply list_elem_of_lookup_2.
Qed.

Lemma replace_found m k v i e : hm_ok m -> uniq m -> P k -> found_at m k i e ->
  exists m', on_bucket m (hash_bits (hash (repr k)) (cap_bits m)) (fun b => <[i := {| ekey := k; evalue := v |}]> b) = Some m' /\
    hm_ok m' /\ uniq m' /\ abs m' = <[repr k := (k, v)]> (abs m).
Proof.
  intros Hok Hu Hk (HR & bs & b & E & Eb & Ei). set (new := {| ekey := k; evalue := v |}).
  pose proof (delete_Permutation _ _ _ Ei) as HP1. pose proof (insert_at_perm b i e new Ei) as HP2.
  pose proof (ok_load m Hok). destruct (ok_sz m Hok) as (Hs & _).
  destruct (on_bucket_spec m k b (fun b => <[i := new]> b)) as (m' & rest & Em & Hok' & Hs' & H1 & H2);
    [done | done | by eauto | | |].
  { intros x. rewrite HP2. intros [-> | Hx]%elem_of_cons; [by right | left]. rewrite HP1. by right. }
  { unfold zlen. rewrite length_insert. unfold zlen in Hs. replace (_ + _ - _) with (sz m) by lia. done. }
  exists m'. split; [done |]. unfold zlen in Hok'. rewrite length_insert in Hok'.
  replace (sz m + Z.of_nat (length b) - Z.of_nat (length b)) with (sz m') in Hok' by lia. rewrite set_sz_same in Hok'.
  assert (entries m ≡ₚ e :: (delete i b ++ rest)) as HE1 by (by eapply perm_cons_app).
  assert (entries m' ≡ₚ new :: (delete i b ++ rest)) as HE2 by (by eapply perm_cons_app).
  destruct (uniq_split m e _ Hu HE1) as (Hn1 & Hn2 & Ha).
  assert (uniq m') as Hu'. { unfold uniq, keys. rewrite HE2. cbn. rewrite <- HR. by apply NoDup_cons. }
  destruct (uniq_split m' new _ Hu' HE2) as (_ & _ & Ha'). split_and!; [done | done |].
  rewrite Ha', Ha, HR. by rewrite insert_insert_eq.
Qed.

Lemma delete_found m k i e : hm_ok m -> uniq m -> P k -> found_at m k i e ->
  exists m', on_bucket m (hash_bits (hash (repr k)) (cap_bits m)) (delete i) = Some m' /\
    sz m' = sz m /\ hm_ok (set_sz m' (u64 (sz m - 1))) /\ uniq (set_sz m' (u64 (sz m - 1))) /\
    abs (set_sz m' (u64 (sz m - 1))) = delete (repr k) (abs m).
Proof.
  intros Hok Hu Hk (HR & bs & b & E & Eb & Ei).
  pose proof (delete_Permutation _ _ _ Ei) as HP1. pose proof (Permutation_length HP1) as HL. cbn [length] in HL.
  pose proof (ok_load m Hok) as Hload. destruct (ok_sz m Hok) as (Hs & Hr & _).
  destruct (on_bucket_spec m k b (delete i)) as (m' & rest & Em & Hok' & Hs' & H1 & H2); [done | done | by eauto | | |].
  { intros x Hx. left. rewrite HP1. by right. }
  { unfold zlen in *. Z.to_euclidean_division_equations. lia. }
  assert (entries m ≡ₚ e :: (delete i b ++ rest)) as HE1 by (by eapply perm_cons_app).
  pose proof (Permutation_length HE1) as HL1. cbn [length] in HL1. unfold zlen in *.
  exists m'. split_and!; [done | done | ..]; rewrite u64_id by lia.
  - by replace (sz m - 1) with (sz m + Z.of_nat (length (delete i b)) - Z.of_nat (length b)) by lia.
  - destruct (uniq_split m e _ Hu HE1) as (Hn1 & Hn2 & Ha). unfold uniq, keys. change (entries (set_sz _ _)) with (entries m').
    by rewrite H2.
  - destruct (uniq_split m e _ Hu HE1) as (Hn1 & Hn2 & Ha). unfold abs at 1. change (entries (set_sz _ _)) with (entries m').
    rewrite (to_map_perm _ (delete i b ++ rest)); [| unfold keys; by rewrite H2 | done].
    rewrite Ha, <- HR, delete_insert_id; [done |]. by apply to_map_None.
Qed.

Lemma insert_refines strategy malloc m k v : hm_ok m -> uniq m -> P k -> strategy <> HASHMAP_APPEND ->
  exists err ok ov m', hashmap_insert hash_fn equal_fn calloc malloc m k v strategy = Some (err, ok, ov, m') /\
    hm_ok m' /\ uniq m' /\ spec_insert strategy malloc k v (abs m) (err, ok, ov) (abs m').
Proof.
  intros Hok Hu Hk Hstr. unfold hashmap_insert. rewrite Hhash by done. cbn [mbind option_bind].
  rewrite decide_False by done. destruct (find_entry_spec m k Hok Hk) as (r & -> & Hr). cbn [mbind option_bind].
  unfold spec_insert. destruct r as [[i e] |].
  - pose proof (found_abs m k i e Hu Hr) as ->. destruct (replace_found m k v i e Hok Hu Hk Hr) as (m' & E & Hok' & Hu' & Ha).
    destruct strategy; try done; try rewrite E; cbn [mbind option_bind]; eexists _, _, _, _; (split; [done |]); done.
  - assert (abs m !! repr k = None) as ->.
    { apply to_map_None. intros (x & Hx & Hin)%list_elem_of_fmap. by apply (Hr x). }
    destruct (decide (strategy = HASHMAP_UPDATE)) as [-> | Hupd]; [by eexists _, _, _, _ |].
    destruct (insert_new_spec malloc m k v Hok Hk) as (err & m' & E & Hok' & [(-> & HP & Hn) | (-> & HP)]);
      [rewrite (abs_size m Hok Hu) in Hn; destruct (abs_same m m' Hu HP) as [Hu' Ha] | destruct (abs_insert_new m m' {| ekey := k; evalue := v |} Hu Hr HP) as [Hu' Ha]];
      destruct strategy; try done; rewrite E; cbn [mbind option_bind]; eexists _, _, _, _; (split; [done |]); eauto 10.
Qed.

Lemma find_refines m k : hm_ok m -> uniq m -> P k -> hashmap_find hash_fn equal_fn m k = Some (snd <$> abs m !! repr k).
Proof.
  intros Hok Hu Hk. unfold hashmap_find. rewrite Hhash by done. cbn [mbind option_bind].
  destruct (find_entry_spec m k Hok Hk) as (r & -> & Hr). cbn [mbind option_bind]. destruct r as [[i e] |].
  - by rewrite (found_abs m k i e Hu Hr).
  - assert (abs m !! repr k = None) as ->; [| done].
    apply to_map_None. intros (x & Hx & Hin)%list_elem_of_fmap. by apply (Hr x).
Qed.

Lemma delete_refines m k : hm_ok m -> uniq m -> P k ->
  exists m', hashmap_delete hash_fn equal_fn m k = Some (abs m !! repr k, m') /\
    hm_ok m' /\ uniq m' /\ abs m' = delete (repr k) (abs m).
Proof.
  intros Hok Hu Hk. unfold hashmap_delete. rewrite Hhash by done. cbn [mbind option_bind].
  destruct (find_entry_spec m k Hok Hk) as (r & -> & Hr). cbn [mbind option_bind]. destruct r as [[i e] |].
  - destruct (delete_found m k i e Hok Hu Hk Hr) as (m' & -> & Hs & Hd). rewrite (found_abs m k i e Hu Hr).
    cbn [mbind option_bind]. rewrite Hs. by eexists.
  - assert (abs m !! repr k = None) as HN.
    { apply to_map_None. intros (x & Hx & Hin)%list_elem_of_fmap. by apply (Hr x). }
    exists m. rewrite HN. split_and!; [done | done | done |]. by rewrite delete_id.
Qed.

(** *** Sequences of calls *)

Inductive hm_op := OInsert (strategy : hashmap_insert_strategy) (malloc : bool) (k v : Z) | OFind (k : Z) | ODelete (k : Z).
Inductive hm_res := RInsert (res : Z * Z * Z) | RFind (res : option Z) | RDelete (res : option (Z * Z)).

Definition hm_step (o : hm_op) (m : hashmap) : option (hm_res * hashmap) :=
  match o with
  | OInsert strategy malloc k v =>
    '(res, m) ← hashmap_insert hash_fn equal_fn calloc malloc m k v strategy; Some (RInsert res, m)
  | OFind k => res ← hashmap_find hash_fn equal_fn m k; Some (RFind res, m)
  | ODelete k => '(res, m) ← hashmap_delete hash_fn equal_fn m k; Some (RDelete res, m)
  end.

Fixpoint hm_run (os : list hm_op) (m : hashmap) : option (list hm_res * hashmap) :=
  match os with
  | [] => Some ([], m)
  | o :: os' => '(r, m) ← hm_step o m; '(rs, m) ← hm_run os' m; Some (r :: rs, m)
  end.

(** The same calls on a finite map. *)
Definition spec_step (o : hm_op) (M : gmap R (Z * Z)) (r : hm_res) (M' : gmap R (Z * Z)) : Prop :=
  match o, r with
  | OInsert strategy malloc k v, RInsert res => spec_insert strategy malloc k v M res M'
  | OFind k, RFind res => res = (snd <$> M !! repr k) /\ M' = M
  | ODelete k, RDelete res => res = M !! repr k /\ M' = delete (repr k) M
  | _, _ => False
  end.

Inductive spec_run : list hm_op -> gmap R (Z * Z) -> list hm_res -> gmap R (Z * Z) -> Prop :=
  | spec_nil M : spec_run [] M [] M
  | spec_cons o os M r rs M1 M2 : spec_step o M r M1 -> spec_run os M1 rs M2 -> spec_run (o :: os) M (r :: rs) M2.

(** A call on a map with unique keys. *)
Definition op_ok (o : hm_op) : Prop :=
  match o with
  | OInsert strategy _ k _ => P k /\ strategy <> HASHMAP_APPEND
  | OFind k | ODelete k => P k
  end.

Lemma step_refines o m : hm_ok m -> uniq m -> op_ok o ->
  exists r m', hm_step o m = Some (r, m') /\ hm_ok m' /\ uniq m' /\ spec_step o (abs m) r (abs m').
Proof.
  intros Hok Hu. destruct o as [strategy malloc k v | k | k]; cbn [op_ok hm_step].
  - intros [Hk Hs]. destruct (insert_refines strategy malloc m k v Hok Hu Hk Hs) as (err & ok & ov & m' & -> & H1 & H2 & H3).
    by eexists _, _.
  - intros Hk. rewrite find_refines by done. by eexists _, _.
  - intros Hk. destruct (delete_refines m k Hok Hu Hk) as (m' & -> & H1 & H2 & H3). by eexists _, _.
Qed.

Lemma run_refines os : Forall op_ok os -> forall m, hm_ok m -> uniq m ->
  exists rs m', hm_run os m = Some (rs, m') /\ hm_ok m' /\ uniq m' /\ spec_run os (abs m) rs (abs m').
Proof.
  induction 1 as [| o os Ho _ IH]; intros m Hok Hu; cbn [hm_run]; [eexists _, _; split_and!; try done; constructor |].
  destruct (step_refines o m Hok Hu Ho) as (r & m1 & -> & Hok1 & Hu1 & Hs1). cbn [mbind option_bind].
  destruct (IH m1 Hok1 Hu1) as (rs & m2 & -> & Hok2 & Hu2 & Hs2). cbn [mbind option_bind].
  eexists _, _. split_and!; [done | done | done |]. by econstructor.
Qed.

(** C27: the hash map is a finite map.  Any sequence of lookups, deletions and
    insertions that do not append runs without touching memory it should not,
    and returns, call for call, what the same calls return on a finite map from
    keys to the stored key and value: ADD leaves an entry alone, SET and
    UPDATE replace it and hand out the old one, UPDATE does not create one;
    a new entry fails only when memory is short, and then nothing changes.
    The size counts the entries, and at most three quarters of the capacity, a
    power of two, are used. *)
Theorem hashmap_refines os : Forall op_ok os ->
  exists rs m, hm_run os hashmap__init = Some (rs, m) /\ spec_run os ∅ rs (abs m) /\
    hashmap__size m = Z.of_nat (base.size (abs m)) /\ hashmap__size m * 4 / 3 <= hashmap__capacity m /\
    (hashmap__capacity m = 0 \/ hashmap__capacity m = 2 ^ cap_bits m).
Proof.
  intros Ho. destruct (run_refines os Ho hashmap__init) as (rs & m & E & Hok & Hu & Hs); [done | constructor |].
  exists rs, m. split_and!; [done | done | | by apply ok_load |].
  - by apply abs_size.
  - unfold hm_ok in Hok. destruct (buckets m); naive_solver.
Qed.

(** *** Appending: several entries for a key *)

Definition of_key (k : Z) (es : list hashmap_entry) : list hashmap_entry := filter (fun e => repr (ekey e) = repr k) es.

Lemma key_chain_spec k b : P k -> (forall e, e ∈ b -> P (ekey e)) -> key_chain equal_fn b k = Some (of_key k b).
Proof.
  intros Hk. unfold of_key. induction b as [| e b IH]; intros Hb; cbn [key_chain]; [done |].
  rewrite Hequal by (done || (apply Hb; set_solver)). cbn [mbind option_bind]. rewrite IH by set_solver.
  cbn [mbind option_bind]. rewrite filter_cons. by case_bool_decide; case_decide.
Qed.

Lemma for_each_key_spec m k : hm_ok m -> P k ->
  exists es, for_each_key_entry hash_fn equal_fn m k = Some es /\ es ≡ₚ of_key k (entries m).
Proof.
  intros Hok Hk. unfold for_each_key_entry, entries. destruct (buckets m) as [bs |] eqn:E; [| by exists []].
  destruct (bucket_of k m bs Hok E) as [b Eb]. rewrite Hhash by done. cbn [mbind option_bind].
  fold (idx k (cap_bits m)). rewrite Eb. cbn [mbind option_bind].
  unfold hm_ok in Hok. rewrite E in Hok. destruct Hok as (_ & _ & _ & Hp & _).
  rewrite key_chain_spec by (done || by intros e He; apply (Hp _ _ _ Eb He)). eexists. split; [done |].
  destruct (concat_bucket bs _ b Eb) as (rest & HP & _ & Hrest). unfold of_key. rewrite HP, filter_app.
  assert (filter (fun e => repr (ekey e) = repr k) rest = []) as ->; [| by rewrite app_nil_r].
  apply elem_of_nil_inv. intros e [Hek He]%list_elem_of_filter. destruct (Hrest e He) as (j & b1 & Hj & Hb1 & He1).
  destruct (Hp _ _ _ Hb1 He1) as [_ ->]. apply Hj. unfold idx. by rewrite Hek.
Qed.

(** Appending one pair after another; the results. *)
Fixpoint append_all (kvs : list (bool * Z * Z)) (m : hashmap) : option (list Z * hashmap) :=
  match kvs with
  | [] => Some ([], m)
  | (malloc, k, v) :: kvs' =>
    '(err, _, _, m) ← hashmap_insert hash_fn equal_fn calloc malloc m k v HASHMAP_APPEND;
    '(errs, m) ← append_all kvs' m;
    Some (err :: errs, m)
  end.

(** The pairs whose call returned 0. *)
Fixpoint appended (kvs : list (bool * Z * Z)) (errs : list Z) : list hashmap_entry :=
  match kvs, errs with
  | (_, k, v) :: kvs', err :: errs' => (if err =? 0 then [{| ekey := k; evalue := v |}] else []) ++ appended kvs' errs'
  | _, _ => []
  end.

Lemma append_all_spec kvs : Forall (fun x => P (snd (fst x))) kvs -> forall m, hm_ok m ->
  exists errs m', append_all kvs m = Some (errs, m') /\ hm_ok m' /\
    Forall2 (fun x err => err = 0 \/ (err = - ENOMEM /\ no_memory (fst (fst x)) (sz m + zlen kvs))) kvs errs /\
    entries m' ≡ₚ appended kvs errs ++ entries m.
Proof.
  induction 1 as [| [[malloc k] v] kvs Hk _ IH]; intros m Hok; cbn [append_all].
  { eexists _, _. split_and!; [done | done | constructor | done]. }
  unfold hashmap_insert. rewrite Hhash by done. cbn [mbind option_bind]. rewrite decide_True by done.
  cbn [mbind option_bind]. destruct (insert_new_spec malloc m k v Hok Hk) as (err & m1 & -> & Hok1 & Hins).
  cbn [mbind option_bind]. destruct (IH m1 Hok1) as (errs & m2 & -> & Hok2 & HF & HP). cbn [mbind option_bind].
  eexists _, _. split; [done |]. split; [done |]. cbn [appended]. rewrite zlen_cons. pose proof (zlen_nonneg kvs) as Hz.
  destruct (ok_sz m Hok) as (Es & _). destruct (ok_sz m1 Hok1) as (Es1 & _).
  assert (sz m1 <= 1 + sz m) as Hle.
  { rewrite Es, Es1. unfold zlen. destruct Hins as [(_ & HP1 & _) | (_ & HP1)]; rewrite HP1; cbn [length]; lia. }
  assert (Forall2 (fun x err => err = 0 \/ (err = - ENOMEM /\ no_memory (fst (fst x)) (sz m + (1 + zlen kvs)))) kvs errs) as HF'.
  { eapply Forall2_impl; [exact HF |]. intros x e [-> | [-> Hn]]; [by left | right]. split; [done |]. eapply no_memory_mono; [| exact Hn]. lia. }
  destruct Hins as [(-> & HP1 & Hn) | (-> & HP1)].
  - split; [constructor; [right; split; [done | eapply no_memory_mono; [| exact Hn]; cbn; lia] | done] |]. cbn. by rewrite HP, HP1.
  - split; [constructor; [by left | done] |]. cbn. rewrite HP, HP1. solve_Permutation.
Qed.

(** A hash map that is only appended to is a multimap.  Every append
    succeeds or fails for want of memory; iterating over the entries of a key
    visits the pairs appended with that key, each once and no others, and the
    size is the number of pairs. *)
Theorem hashmap_append_multimap kvs k : Forall (fun x => P (snd (fst x))) kvs -> P k ->
  exists errs m es, append_all kvs hashmap__init = Some (errs, m) /\
    Forall2 (fun x err => err = 0 \/ (err = - ENOMEM /\ no_memory (fst (fst x)) (zlen kvs))) kvs errs /\
    for_each_key_entry hash_fn equal_fn m k = Some es /\ es ≡ₚ of_key k (appended kvs errs) /\
    hashmap__size m = zlen (appended kvs errs).
Proof.
  intros Hkvs Hk. destruct (append_all_spec kvs Hkvs hashmap__init) as (errs & m & E & Hok & HF & HP); [done |].
  change (entries hashmap__init) with (@nil hashmap_entry) in HP. rewrite app_nil_r in HP.
  destruct (for_each_key_spec m k Hok Hk) as (es & Ees & HPes).
  exists errs, m, es. split_and!; [done | done | done | |].
  - rewrite HPes. unfold of_key. by rewrite HP.
  - unfold hashmap__size. destruct (ok_sz m Hok) as (-> & _). unfold zlen. by rewrite HP.
Qed.
End Spec.

(** The invariant and the map depend only on what the stored keys stand for. *)
Lemma hm_ok_ext {R} (P P' : Z -> Prop) (repr repr' : Z -> R) hash m :
  (forall e, e ∈ entries m -> P' (ekey e) /\ repr' (ekey e) = repr (ekey e)) -> hm_ok P repr hash m -> hm_ok P' repr' hash m.
Proof.
  unfold hm_ok, entries. destruct (buckets m) as [bs |]; [| done]. intros He (H1 & H2 & H3 & Hp & H4 & H5).
  split_and!; try done; try lia. intros i b e Hi Hin.
  destruct (He e) as [HP HR]. { apply list_elem_of_In, in_concat. exists b. split; apply list_elem_of_In; [| done]. by eapply list_elem_of_lookup_2. }
  split; [done |]. destruct (Hp i b e Hi Hin) as [_ ->]. unfold idx. by rewrite HR.
Qed.

Lemma to_map_ext {R} `{Countable R} (repr repr' : Z -> R) es :
  (forall e, e ∈ es -> repr' (ekey e) = repr (ekey e)) -> keys repr' es = keys repr es /\ to_map repr' es = to_map repr es.
Proof.
  intros He. split.
  - unfold keys. apply list_fmap_ext. intros i e Hi. apply He. by eapply list_elem_of_lookup_2.
  - unfold to_map. f_equal. apply list_fmap_ext. intros i e Hi. unfold pair. f_equal. apply He. by eapply list_elem_of_lookup_2.
Qed.

(** ** Integer keys *)

Definition int_hash (k : Z) : option Z := Some k.
Definition int_equal (k1 k2 : Z) : option bool := Some (k1 =? k2).
Definition int_calloc (n : Z) : bool := n <? 2 ^ 61.

Lemma int_equal_spec k1 k2 : int_equal k1 k2 = Some (bool_decide (k1 = k2)).
Proof. unfold int_equal. f_equal. by destruct (Z.eqb_spec k1 k2); case_bool_decide. Qed.

Lemma int_calloc_spec n : 2 ^ 61 <= n -> int_calloc n = false.
Proof. intros. by apply Z.ltb_ge. Qed.

Lemma hashmap_refines_witness :
  let ops := [OInsert HASHMAP_ADD true 7 70; OInsert HASHMAP_ADD true 7 71; OInsert HASHMAP_SET true 7 72;
              OInsert HASHMAP_UPDATE true 8 80; OInsert HASHMAP_SET true 8 81; OInsert HASHMAP_ADD true 9 90;
              OInsert HASHMAP_ADD false 10 100; OInsert HASHMAP_ADD true 11 110; ODelete 8; OFind 8; OFind 7] in
  exists m, hm_run int_hash int_equal int_calloc ops hashmap__init =
    Some ([RInsert (0, 0, 0); RInsert (- EEXIST, 7, 70); RInsert (0, 7, 70); RInsert (- ENOENT, 0, 0);
           RInsert (0, 0, 0); RInsert (0, 0, 0); RInsert (- ENOMEM, 0, 0); RInsert (0, 0, 0);
           RDelete (Some (8, 81)); RFind None; RFind (Some 72)], m) /\
    hashmap__size m = 3 /\ hashmap__size m * 4 / 3 <= hashmap__capacity m.
Proof.
  intros ops.
  destruct (hashmap_refines (fun _ => True) id id int_hash int_equal (fun _ _ => eq_refl)
    (fun k1 k2 _ _ => int_equal_spec k1 k2) int_calloc int_calloc_spec ops) as (rs & m & E & _ & _ & Hl & _).
  { by repeat constructor. }
  exists m. assert (Some (rs, m) = Some (rs, m)) as E' by reflexivity. rewrite <- E in E' at 2. vm_compute in E'.
  injection E' as -> ->. split; [vm_compute; reflexivity |]. split; [reflexivity | exact Hl].
Defined.

Lemma hashmap_append_multimap_witness :
  let kvs := [(true, 5, 1); (true, 5, 2); (true, 6, 9); (true, 5, 3); (false, 5, 4)] in
  exists m es, append_all int_hash int_equal int_calloc kvs hashmap__init = Some ([0; 0; 0; 0; - ENOMEM], m) /\
    for_each_key_entry int_hash int_equal m 5 = Some es /\ evalue <$> es ≡ₚ [1; 2; 3] /\ hashmap__size m = 4.
Proof.
  intros kvs.
  destruct (hashmap_append_multimap (fun _ => True) id id int_hash int_equal (fun _ _ => eq_refl)
    (fun k1 k2 _ _ => int_equal_spec k1 k2) int_calloc int_calloc_spec kvs 5) as (errs & m & es & E & _ & Ees & HP & Hz).
  { by repeat constructor. }
  { done. }
  assert (errs = [0; 0; 0; 0; - ENOMEM]) as ->.
  { apply (f_equal (fmap fst)) in E. vm_compute in E. by injection E as <-. }
  exists m, es. split; [exact E |]. split; [exact Ees |]. split; [by rewrite HP | exact Hz].
Defined.

(** hashmap.h promises that [hashmap__find] returns the entry appended last;
    growing the map reverses the chains. *)
Lemma append_find_first_after_growing :
  exists m m', append_all int_hash int_equal int_calloc [(true, 0, 1); (true, 0, 2); (true, 1, 9)] hashmap__init =
      Some ([0; 0; 0], m) /\
    hashmap_find int_hash int_equal m 0 = Some (Some 2) /\
    hashmap_insert int_hash int_equal int_calloc true m 2 9 HASHMAP_APPEND = Some (0, 0, 0, m') /\
    hashmap_find int_hash int_equal m' 0 = Some (Some 1).
Proof.
  eexists _, _. split; [vm_compute; reflexivity |]. split; [vm_compute; reflexivity |].
  split; [vm_compute; reflexivity |]. vm_compute. reflexivity.
Qed.
