(* ===== verification/Strset.v ===== *)
(** libbpf's string sets: src/lib/libbpf/src/strset.c, and the growing of
    arrays, [libbpf_add_mem] of src/lib/libbpf/src/btf.c.

    A set keeps its strings one after another in a byte array, and a hash map
    from each string to its offset.  The keys of the map are offsets: the
    callbacks compare what lies there.  To look up a string it is first written
    behind the others. *)
From S2P Require Import Prelude.
From S2P Require Import CLib.
From S2P Require Import Hashmap.
From coqutil Require Import Datatypes.RecordSetters.
Import DoubleBraceUpdate.

(** ** Growing an array

    [data] is the array, of [zlen data] bytes; [None] is NULL.  [realloc] tells
    whether a number of bytes can be had; the bytes beyond the old ones are
    zeroed. *)
Definition libbpf_reallocarray (realloc : Z -> bool) (data : list byte) (nmemb size : Z) : option (list byte) :=
  let total := nmemb * size in
  if 2 ^ 64 <=? total then None else
  if realloc total then Some (take (Z.to_nat total) data) else None.

(** The position of the new elements, the array and its capacity. *)
Definition libbpf_add_mem (realloc : Z -> bool) (data : list byte) (cap_cnt elem_sz cur_cnt max_cnt add_cnt : Z) :
    option (Z * list byte * Z) :=
  if u64 (cur_cnt + add_cnt) <=? cap_cnt then Some (cur_cnt * elem_sz, data, cap_cnt) else
  if max_cnt <? u64 (cur_cnt + add_cnt) then None else
  let new_cnt := u64 (cap_cnt + cap_cnt / 4) in
  let new_cnt := if new_cnt <? 16 then 16 else new_cnt in
  let new_cnt := if max_cnt <? new_cnt then max_cnt else new_cnt in
  let new_cnt := if new_cnt <? u64 (cur_cnt + add_cnt) then u64 (cur_cnt + add_cnt) else new_cnt in
  new_data ← libbpf_reallocarray realloc data new_cnt elem_sz;
  Some (cur_cnt * elem_sz, new_data ++ replicate (Z.to_nat (u64 ((new_cnt - cap_cnt) * elem_sz))) x00, new_cnt).

(** ** The set *)

Record strset := {
  strs_data : list byte;
  strs_data_len : Z;
  strs_data_cap : Z;
  strs_data_max_len : Z;
  strs_hash : hashmap
}.

(** [strcmp] of two strings in memory, compared with 0. *)
Fixpoint str_equal (m1 m2 : list byte) : option bool :=
  match m1, m2 with
  | b1 :: m1', b2 :: m2' =>
    if decide (b1 = b2) then if decide (b1 = NUL) then Some true else str_equal m1' m2' else Some false
  | _, _ => None
  end.

Definition at_off (data : list byte) (off : Z) : option (list byte) :=
  if (off <? 0) || (zlen data <=? off) then None else Some (drop (Z.to_nat off) data).

Definition strset_hash_fn (data : list byte) (key : Z) : option Z := s ← at_off data key; str_hash s.

Definition strset_equal_fn (data : list byte) (key1 key2 : Z) : option bool :=
  s1 ← at_off data key1; s2 ← at_off data key2; str_equal s1 s2.

Section Ops.
(** [malloc] is asked with a number that distinguishes the calls. *)
Context (calloc realloc : Z -> bool).

(** The loop over the initial strings, from [off] on, with fuel: the error and
    the map. *)
Fixpoint add_init (fuel : nat) (malloc : Z -> bool) (data : list byte) (len off : Z) (hash : hashmap) :
    option (Z * hashmap) :=
  if negb (off <? len) then Some (0, hash) else
  match fuel with
  | O => None
  | S fuel =>
    '(err, _, _, hash) ← hashmap_insert (strset_hash_fn data) (strset_equal_fn data) calloc (malloc off) hash off off HASHMAP_ADD;
    if negb (err =? - EEXIST) && negb (err =? 0) then Some (err, hash) else
    s ← at_off data off;
    n ← strlen s;
    add_init fuel malloc data len (off + n + 1) hash
  end.

(** [inl] is an error pointer.  The initial data are given as the memory they
    are in, with their size. *)
Definition strset__new (alloc_set alloc_map alloc_data : bool) (malloc : Z -> bool) (max_data_sz : Z)
    (init : option (list byte * Z)) : option (Z + strset) :=
  if negb alloc_set then Some (inl (- ENOMEM)) else
  match hashmap__new alloc_map with
  | None => Some (inl (- ENOMEM))
  | Some hash =>
    let set := {| strs_data := []; strs_data_len := 0; strs_data_cap := 0; strs_data_max_len := max_data_sz;
                  strs_hash := hash |} in
    match init with
    | None => Some (inr set)
    | Some (init_data, init_data_sz) =>
      if negb alloc_data then Some (inl (- ENOMEM)) else
      data ← bytes_at init_data 0 (Z.to_nat init_data_sz);
      '(err, hash) ← add_init (length data) malloc data init_data_sz 0 hash;
      if negb (err =? 0) then Some (inl err) else
      Some (inr (set {{ strs_data := data; strs_data_len := init_data_sz; strs_data_cap := init_data_sz;
                        strs_hash := hash }}))
    end
  end.

Definition strset__data_size (set : strset) : Z := strs_data_len set.
Definition strset__data (set : strset) : list byte := strs_data set.

Definition strset_add_str_mem (set : strset) (add_sz : Z) : option (Z * list byte * Z) :=
  libbpf_add_mem realloc (strs_data set) (strs_data_cap set) 1 (strs_data_len set) (strs_data_max_len set) add_sz.

(** What both functions begin with: the string [s], which lies in memory with
    its terminator, behind the others.  [inl] is the error. *)
Definition put_str (set : strset) (s : list byte) : option (Z + strset) :=
  n ← strlen s;
  let len := n + 1 in
  match strset_add_str_mem set len with
  | None => Some (inl (- ENOMEM))
  | Some (p, data, cap) =>
    bs ← bytes_at s 0 (Z.to_nat len);
    data ← store data p bs;
    Some (inr (set {{ strs_data := data; strs_data_cap := cap }}))
  end.

(** The functions return an [int]. *)
Definition strset__find_str (set : strset) (s : list byte) : option (Z * strset) :=
  r ← put_str set s;
  match r with
  | inl err => Some (err, set)
  | inr set =>
    let data := strs_data set in
    found ← hashmap_find (strset_hash_fn data) (strset_equal_fn data) (strs_hash set) (strs_data_len set);
    Some (match found with Some old_off => s32 old_off | None => - ENOENT end, set)
  end.

Definition strset__add_str (malloc : bool) (set : strset) (s : list byte) : option (Z * strset) :=
  n ← strlen s;
  let len := n + 1 in
  r ← put_str set s;
  match r with
  | inl err => Some (err, set)
  | inr set =>
    let data := strs_data set in
    let new_off := strs_data_len set in
    '(err, old_off, _, hash) ←
      hashmap_insert (strset_hash_fn data) (strset_equal_fn data) calloc malloc (strs_hash set) new_off new_off HASHMAP_ADD;
    let set := set {{ strs_hash := hash }} in
    if err =? - EEXIST then Some (s32 old_off, set) else
    if negb (err =? 0) then Some (err, set) else
    Some (s32 new_off, set {{ strs_data_len := u64 (strs_data_len set + len) }})
  end.

End Ops.

(** ** Strings in memory *)

Lemma cstr_app m t : NUL ∈ m -> cstr (m ++ t) = cstr m.
Proof.
  induction m as [| b m IH]; intros H; [by apply not_elem_of_nil in H |]. cbn. destruct (decide (b = NUL)); [done |].
  rewrite IH; [done |]. set_solver.
Qed.

Definition hash_of (s : list byte) : Z := default 0 (str_hash (s ++ [NUL])).

Lemma str_hash_from_cstr m : forall h, NUL ∈ m -> str_hash_from h m = str_hash_from h (cstr m ++ [NUL]).
Proof.
  induction m as [| b m IH]; intros h H; [by apply not_elem_of_nil in H |]. cbn [str_hash_from cstr].
  destruct (decide (b = NUL)) as [-> | Hb]; [done |]. cbn [app str_hash_from]. rewrite decide_False by done.
  apply IH. set_solver.
Qed.

Lemma str_hash_from_Some s : forall h, exists x, str_hash_from h (s ++ [NUL]) = Some x.
Proof.
  induction s as [| b s IH]; intros h; cbn [app str_hash_from]; [by rewrite decide_True by done; eauto |].
  destruct (decide (b = NUL)); [by eauto | apply IH].
Qed.

Lemma str_hash_cstr m : NUL ∈ m -> str_hash m = Some (hash_of (cstr m)).
Proof.
  intros H. unfold hash_of, str_hash. rewrite str_hash_from_cstr by done.
  by destruct (str_hash_from_Some (cstr m) 0) as [x ->].
Qed.

Lemma str_equal_cstr m1 : forall m2, NUL ∈ m1 -> NUL ∈ m2 -> str_equal m1 m2 = Some (bool_decide (cstr m1 = cstr m2)).
Proof.
  induction m1 as [| b1 m1 IH]; intros [| b2 m2] H1 H2; try (by apply not_elem_of_nil in H1 || by apply not_elem_of_nil in H2).
  cbn [str_equal cstr]. destruct (decide (b1 = b2)) as [<- | Hne].
  - destruct (decide (b1 = NUL)); [by rewrite bool_decide_true |]. rewrite IH by set_solver.
    f_equal. apply bool_decide_ext. split; [by intros -> | by intros [= ->]].
  - f_equal. symmetry. apply bool_decide_eq_false_2.
    destruct (decide (b1 = NUL)), (decide (b2 = NUL)); congruence.
Qed.

(** The keys: offsets at which a terminated string lies. *)
Definition key_ok (data : list byte) (k : Z) : Prop := 0 <= k < zlen data /\ NUL ∈ drop (Z.to_nat k) data.
Definition str_at (data : list byte) (k : Z) : list byte := cstr (drop (Z.to_nat k) data).

Lemma at_off_ok data k : 0 <= k < zlen data -> at_off data k = Some (drop (Z.to_nat k) data).
Proof. intros Hk. unfold at_off. by rewrite (proj2 (Z.ltb_ge _ _)), (proj2 (Z.leb_gt _ _)) by lia. Qed.

Lemma strset_hash_fn_ok data k : key_ok data k -> strset_hash_fn data k = Some (hash_of (str_at data k)).
Proof. intros [Hk Hn]. unfold strset_hash_fn. rewrite at_off_ok by done. cbn. by apply str_hash_cstr. Qed.

Lemma strset_equal_fn_ok data k1 k2 : key_ok data k1 -> key_ok data k2 ->
  strset_equal_fn data k1 k2 = Some (bool_decide (str_at data k1 = str_at data k2)).
Proof.
  intros [Hk1 Hn1] [Hk2 Hn2]. unfold strset_equal_fn. rewrite !at_off_ok by done. cbn. by apply str_equal_cstr.
Qed.

(** A string that lies inside the first [len] bytes does not depend on the
    others. *)
Definition inside (data : list byte) (len k : Z) : Prop := 0 <= k /\ NUL ∈ drop (Z.to_nat k) (take (Z.to_nat len) data).

Lemma inside_key_ok data len k : inside data len k ->
  key_ok data k /\ str_at data k = cstr (drop (Z.to_nat k) (take (Z.to_nat len) data)).
Proof.
  intros [Hk Hn]. set (pre := take (Z.to_nat len) data) in *.
  assert (Z.to_nat k < length pre)%nat as Hlt.
  { destruct (decide (Z.to_nat k < length pre)%nat); [done |]. rewrite drop_ge in Hn by lia. by apply not_elem_of_nil in Hn. }
  assert (data = pre ++ drop (Z.to_nat len) data) as E by (symmetry; apply take_drop).
  assert (drop (Z.to_nat k) data = drop (Z.to_nat k) pre ++ drop (Z.to_nat len) data) as Ed.
  { rewrite E at 1. apply drop_app_le. lia. }
  unfold key_ok, str_at. rewrite Ed. split_and!; [lia | | set_solver | by apply cstr_app].
  rewrite E. unfold zlen. rewrite length_app. lia.
Qed.

Lemma inside_ext data data' len k : take (Z.to_nat len) data' = take (Z.to_nat len) data -> inside data len k ->
  inside data' len k /\ str_at data' k = str_at data k.
Proof.
  intros E Hi. assert (inside data' len k) as Hi' by (unfold inside in *; by rewrite E). split; [done |].
  destruct (inside_key_ok _ _ _ Hi) as [_ ->]. destruct (inside_key_ok _ _ _ Hi') as [_ ->]. by rewrite E.
Qed.

(** ** Growing *)

(** The allocator refuses an array of at most [max] bytes. *)
Definition refused (realloc : Z -> bool) (max : Z) : Prop := exists n, 0 <= n <= max /\ realloc n = false.

Lemma add_mem_spec realloc data cap elem_sz cur max add :
  0 < elem_sz -> zlen data = cap * elem_sz -> 0 <= cur <= cap -> cap <= max -> max * elem_sz < 2 ^ 62 ->
  0 < add -> cur + add < 2 ^ 64 ->
  match libbpf_add_mem realloc data cap elem_sz cur max add with
  | None => max < cur + add \/ refused realloc (max * elem_sz)
  | Some (p, data', cap') => p = cur * elem_sz /\ zlen data' = cap' * elem_sz /\ cur + add <= cap' <= max /\
      exists n, data' = data ++ replicate n x00
  end.
Proof.
  intros He Hd Hcur Hmax Hb Hadd Ho. pose proof (zlen_nonneg data). assert (0 <= cap) by nia. assert (max < 2 ^ 62) by nia.
  unfold libbpf_add_mem. rewrite (u64_id (cur + add)) by lia.
  destruct (Z.leb_spec (cur + add) cap). { split_and!; try done; try lia. exists O. by rewrite app_nil_r. }
  destruct (Z.ltb_spec max (cur + add)); [by left |].
  rewrite (u64_id (cap + cap / 4)) by (Z.to_euclidean_division_equations; lia). cbv zeta.
  set (n := if (if max <? _ then _ else _) <? cur + add then _ else _).
  assert (cur + add <= n <= max) as Hn.
  { unfold n. set (x := if _ <? 16 then _ else _). clearbody x.
    destruct (Z.ltb_spec max x); [destruct (Z.ltb_spec max (cur + add)) | destruct (Z.ltb_spec x (cur + add))]; lia. }
  clearbody n. assert (n * elem_sz <= max * elem_sz) by nia. unfold libbpf_reallocarray. rewrite (proj2 (Z.leb_gt _ _)) by nia.
  destruct (realloc (n * elem_sz)) eqn:Er; cbn [mbind option_bind]; [| right; eexists; split; [| exact Er]; nia].
  rewrite take_ge by (unfold zlen in Hd; nia). rewrite u64_id by nia.
  split_and!; [done | | lia | lia | by eexists]. rewrite zlen_app, zlen_replicate. nia.
Qed.

(** The string has been written behind the others. *)
Lemma put_str_spec realloc set s t : NUL ∉ s -> strs_data_cap set = zlen (strs_data set) ->
  0 <= strs_data_len set <= strs_data_cap set -> strs_data_cap set <= strs_data_max_len set < 2 ^ 62 -> zlen s < 2 ^ 62 ->
  exists r, put_str realloc set (s ++ NUL :: t) = Some r /\
    match r with
    | inl err => err = - ENOMEM /\ (strs_data_max_len set < strs_data_len set + zlen s + 1 \/ refused realloc (strs_data_max_len set))
    | inr set' => exists pre t', strs_data set' = pre ++ s ++ NUL :: t' /\ zlen pre = strs_data_len set /\
        take (Z.to_nat (strs_data_len set)) (strs_data set) = pre /\
        strs_data_cap set' = zlen (strs_data set') /\ strs_data_cap set' <= strs_data_max_len set /\
        strs_data_len set' = strs_data_len set /\ strs_data_max_len set' = strs_data_max_len set /\
        strs_hash set' = strs_hash set
    end.
Proof.
  intros Hs Hcap Hlen Hmax Hsz. unfold put_str. rewrite strlen_app_nul by done. cbn [mbind option_bind].
  unfold strset_add_str_mem. pose proof (zlen_nonneg s) as Hz.
  pose proof (add_mem_spec realloc (strs_data set) (strs_data_cap set) 1 (strs_data_len set) (strs_data_max_len set) (zlen s + 1)) as HA.
  destruct (libbpf_add_mem _ _ _ _ _ _ _) as [[[p data] cap] |].
  - destruct HA as (-> & Hd & Hc & n & Ed); [lia.. |].
    assert (bytes_at (s ++ NUL :: t) 0 (Z.to_nat (zlen s + 1)) = Some (s ++ [NUL])) as ->.
    { change (s ++ NUL :: t) with (s ++ [NUL] ++ t). rewrite app_assoc. apply (bytes_at_app [] (s ++ [NUL]) t); [done |].
      rewrite length_app. unfold zlen. simpl length. lia. }
    cbn [mbind option_bind]. set (pre := take (Z.to_nat (strs_data_len set)) data).
    assert (zlen pre = strs_data_len set) as Hp. { unfold pre, zlen in *. rewrite length_take. lia. }
    assert (exists mid post, data = pre ++ mid ++ post /\ length mid = length (s ++ [NUL])) as (mid & post & E & Hm).
    { exists (take (length (s ++ [NUL])) (drop (Z.to_nat (strs_data_len set)) data)),
        (drop (length (s ++ [NUL])) (drop (Z.to_nat (strs_data_len set)) data)).
      rewrite take_drop. unfold pre. rewrite take_drop. split; [done |]. rewrite length_take, length_drop.
      rewrite length_app. unfold zlen in *. simpl length. lia. }
    rewrite E. rewrite (store_app pre mid post (s ++ [NUL]) (strs_data_len set * 1)) by (lia || done).
    cbn [mbind option_bind]. eexists. split; [done |]. exists pre, post. destruct set as [d0 l0 c0 m0 h0]. cbn in *.
    unfold constant. split_and!; try done; try lia.
    + by rewrite <- app_assoc.
    + unfold pre. rewrite Ed, take_app_le; [done |]. unfold zlen in *. lia.
    + rewrite E in Hd. unfold zlen in *. rewrite !length_app in *. lia.
  - eexists. split; [done |]. split; [done |]. rewrite !Z.mul_1_r in HA. destruct HA as [HA | HA]; [lia.. | left; lia | by right].
Qed.

(** ** The map from strings to offsets *)

Definition index (set : strset) : gmap (list byte) (Z * Z) := abs (str_at (strs_data set)) (strs_hash set).

(** [M] maps each string of the set to its offset. *)
Record set_ok (set : strset) (M : gmap (list byte) Z) : Prop := {
  so_cap : strs_data_cap set = zlen (strs_data set);
  so_len : 0 <= strs_data_len set <= strs_data_cap set;
  so_max : strs_data_cap set <= strs_data_max_len set < 2 ^ 31;
  so_hash : hm_ok (key_ok (strs_data set)) (str_at (strs_data set)) hash_of (strs_hash set);
  so_uniq : uniq (str_at (strs_data set)) (strs_hash set);
  so_keys : forall s k v, index set !! s = Some (k, v) -> v = k /\ inside (strs_data set) (strs_data_len set) k /\
    str_at (strs_data set) k = s;
  so_map : M = snd <$> index set
}.

Lemma inside_mono data len len' k : 0 <= len <= len' -> inside data len k -> inside data len' k /\ k < len.
Proof.
  intros Hl [Hk Hn]. assert (k < len) as Hlt.
  { destruct (decide (k < len)); [done |]. rewrite drop_ge in Hn; [by apply not_elem_of_nil in Hn |].
    rewrite length_take. lia. }
  split; [| done]. split; [done |]. replace (Z.to_nat len') with (Z.to_nat len + Z.to_nat (len' - len))%nat by lia.
  rewrite <- take_take_drop. rewrite drop_app. set_solver.
Qed.

Lemma inside_lt data len k : 0 <= len -> inside data len k -> 0 <= k < len.
Proof. intros Hl Hi. destruct (inside_mono data len len k ltac:(lia) Hi) as [[? _] ?]. lia. Qed.

(** Writing behind the strings changes nothing. *)
Lemma set_ok_put set set' M : set_ok set M ->
  take (Z.to_nat (strs_data_len set)) (strs_data set') = take (Z.to_nat (strs_data_len set)) (strs_data set) ->
  strs_data_cap set' = zlen (strs_data set') -> strs_data_len set <= strs_data_cap set' <= strs_data_max_len set ->
  strs_data_len set' = strs_data_len set -> strs_data_max_len set' = strs_data_max_len set ->
  strs_hash set' = strs_hash set -> set_ok set' M /\ index set' = index set.
Proof.
  intros [Hcap Hlen Hmax Hh Hu Hk HM] Ht Hc Hc2 El Em Eh.
  assert (forall e, e ∈ entries (strs_hash set) ->
    key_ok (strs_data set') (ekey e) /\ str_at (strs_data set') (ekey e) = str_at (strs_data set) (ekey e)) as He.
  { intros e He. destruct (Hk _ _ _ (to_map_Some _ _ e Hu He)) as (_ & Hi & _).
    destruct (inside_ext _ _ _ _ Ht Hi) as [Hi' E]. split; [| done]. by apply inside_key_ok in Hi' as [? _]. }
  assert (index set' = index set) as Ei.
  { unfold index, abs. rewrite Eh. apply to_map_ext. intros e Hin. by apply He. }
  split; [| done]. constructor; try lia; try done.
  - rewrite Eh. by eapply hm_ok_ext.
  - unfold uniq. rewrite Eh. rewrite (proj1 (to_map_ext (str_at (strs_data set)) _ _ (fun e H => proj2 (He e H)))). done.
  - intros s k v Hs. rewrite Ei in Hs. destruct (Hk _ _ _ Hs) as (-> & Hi & Es).
    destruct (inside_ext _ _ _ _ Ht Hi) as [Hi' E]. rewrite El, E. done.
  - by rewrite Ei.
Qed.

(** Replacing the hash map by one that stands for the same map. *)
Lemma set_hash_ok set M hash : set_ok set M -> hm_ok (key_ok (strs_data set)) (str_at (strs_data set)) hash_of hash ->
  uniq (str_at (strs_data set)) hash -> abs (str_at (strs_data set)) hash = index set -> set_ok (set {{ strs_hash := hash }}) M.
Proof.
  intros [Hcap Hlen Hmax Hh Hu Hk HM] Hh' Hu' Ha. unfold index in *. destruct set. cbn in *. unfold constant.
  constructor; unfold index; cbn; try done; try lia; rewrite Ha; done.
Qed.

(** One more string, behind the others. *)
Lemma set_added_ok set M hash s k n : set_ok set M -> hm_ok (key_ok (strs_data set)) (str_at (strs_data set)) hash_of hash ->
  uniq (str_at (strs_data set)) hash -> abs (str_at (strs_data set)) hash = <[s := (k, k)]> (index set) ->
  strs_data_len set <= n <= strs_data_cap set -> inside (strs_data set) n k -> str_at (strs_data set) k = s ->
  set_ok (set {{ strs_hash := hash; strs_data_len := n }}) (<[s := k]> M).
Proof.
  intros [Hcap Hlen Hmax Hh Hu Hk HM] Hh' Hu' Ha Hn Hi Hs. unfold index in *. destruct set as [data len cap max h]. cbn in *.
  unfold constant. constructor; unfold index; cbn; try done; try lia.
  - intros s' k' v. rewrite Ha, lookup_insert_Some. intros [[<- [= <- <-]] | [_ E]]; [done |].
    destruct (Hk _ _ _ E) as (-> & Hin & <-). split_and!; [done | | done]. by apply (inside_mono _ len n) in Hin as [? _]; [| lia].
  - rewrite Ha, fmap_insert, HM. done.
Qed.

(** The strings lie at different offsets. *)
Lemma set_size set M : set_ok set M -> Z.of_nat (size M) <= strs_data_len set.
Proof.
  intros Hok. pose proof (so_len _ _ Hok) as Hl.
  assert (forall s k, M !! s = Some k -> 0 <= k < strs_data_len set /\ str_at (strs_data set) k = s) as HM.
  { intros s k. rewrite (so_map _ _ Hok), lookup_fmap. destruct (index set !! s) as [[k' v] |] eqn:E; [| done]. intros [= <-].
    destruct (so_keys _ _ Hok _ _ _ E) as (-> & Hin & Hs). split; [| done]. apply inside_lt in Hin; [done | lia]. }
  assert (NoDup (map_to_list M).*2) as Hn.
  { apply NoDup_fmap_2_strong; [| apply NoDup_map_to_list]. intros [s k] [s' k'] H1%elem_of_map_to_list H2%elem_of_map_to_list E.
    cbn in E. subst k'. f_equal. by rewrite <- (proj2 (HM _ _ H1)), <- (proj2 (HM _ _ H2)). }
  assert ((map_to_list M).*2 ⊆ seqZ 0 (strs_data_len set)) as Hs.
  { intros k ([s k'] & -> & H)%list_elem_of_fmap. apply elem_of_map_to_list, HM in H. apply elem_of_seqZ. cbn. lia. }
  pose proof (submseteq_length _ _ (NoDup_submseteq _ _ Hn Hs)) as HL. rewrite length_fmap, length_seqZ in HL. rewrite length_map_to_list in HL. lia.
Qed.

Section Spec.
Context (calloc realloc : Z -> bool) (Hcalloc : forall n, 2 ^ 61 <= n -> calloc n = false).

(** Memory is short, or the limit of the set is reached. *)
Definition no_room (malloc : bool) (max len : Z) (s : list byte) : Prop :=
  max < len + zlen s + 1 \/ refused realloc max \/ no_memory calloc malloc len.

Definition string_ok (s : list byte) : Prop := NUL ∉ s /\ zlen s < 2 ^ 62.

(** The set after the string is written, and the new key. *)
Lemma put_str_ok set M s t : set_ok set M -> string_ok s ->
  exists r, put_str realloc set (s ++ NUL :: t) = Some r /\
    match r with
    | inl err => err = - ENOMEM /\ (strs_data_max_len set < strs_data_len set + zlen s + 1 \/ refused realloc (strs_data_max_len set))
    | inr set' => set_ok set' M /\ strs_data_len set' = strs_data_len set /\ strs_data_max_len set' = strs_data_max_len set /\
        take (Z.to_nat (strs_data_len set)) (strs_data set') = take (Z.to_nat (strs_data_len set)) (strs_data set) /\
        strs_data_len set + zlen s + 1 <= strs_data_cap set' /\
        inside (strs_data set') (strs_data_len set + zlen s + 1) (strs_data_len set) /\
        str_at (strs_data set') (strs_data_len set) = s
    end.
Proof.
  intros Hok [Hs Hsz]. pose proof Hok as [Hcap Hlen Hmax _ _ _ _].
  destruct (put_str_spec realloc set s t Hs Hcap Hlen ltac:(lia) Hsz) as (r & -> & Hr). exists r. split; [done |].
  destruct r as [err | set']; [done |]. destruct Hr as (pre & t' & Ed & Hp & Ht & Hc & Hcm & El & Em & Eh).
  assert (take (Z.to_nat (strs_data_len set)) (strs_data set') = pre) as Ht'.
  { rewrite Ed. apply take_app_length'. unfold zlen in Hp. lia. }
  assert (zlen (strs_data set') = zlen pre + zlen s + 1 + zlen t') as Hz'.
  { rewrite Ed, !zlen_app, zlen_cons. lia. }
  pose proof (zlen_nonneg s). pose proof (zlen_nonneg t').
  destruct (set_ok_put set set' M Hok) as [Hok' Ei]; [by rewrite Ht' | done | lia | done | done | done |].
  assert (drop (Z.to_nat (strs_data_len set)) (strs_data set') = s ++ NUL :: t') as Edr.
  { rewrite Ed. apply drop_app_length'. unfold zlen in Hp. lia. }
  split_and!; try done; try lia; try by rewrite Ht'.
  - split; [lia |]. rewrite Ed. change (pre ++ s ++ NUL :: t') with (pre ++ s ++ [NUL] ++ t'). rewrite !app_assoc.
    rewrite take_app_length' by (rewrite !length_app; unfold zlen in *; simpl length; lia).
    rewrite <- app_assoc, drop_app_length' by (unfold zlen in Hp; lia). set_solver.
  - unfold str_at. rewrite Edr. by apply cstr_app_nul.
Qed.

(** What the functions promise, on the size of the data and the map. *)
Definition spec_add (malloc : bool) (max : Z) (s : list byte) (A : Z * gmap (list byte) Z) (r : Z)
    (A' : Z * gmap (list byte) Z) : Prop :=
  let '(len, M) := A in
  (r = - ENOMEM /\ A' = A /\ no_room malloc max len s) \/
  match M !! s with
  | Some off => r = off /\ A' = A
  | None => r = len /\ A' = (len + zlen s + 1, <[s := len]> M)
  end.

Definition spec_find (max : Z) (s : list byte) (A : Z * gmap (list byte) Z) (r : Z) : Prop :=
  let '(len, M) := A in (r = - ENOMEM /\ no_room true max len s) \/ r = default (- ENOENT) (M !! s).

(** The set grows, and keeps the strings it has. *)
Definition extends (set set' : strset) : Prop :=
  strs_data_len set <= strs_data_len set' /\ strs_data_max_len set' = strs_data_max_len set /\
  take (Z.to_nat (strs_data_len set)) (strs_data set') = take (Z.to_nat (strs_data_len set)) (strs_data set).

Lemma index_M set M s : set_ok set M -> M !! s = snd <$> index set !! s.
Proof. intros Hok. rewrite (so_map _ _ Hok). by rewrite lookup_fmap. Qed.

Lemma find_str_refines set M s t : set_ok set M -> string_ok s ->
  exists r set', strset__find_str realloc set (s ++ NUL :: t) = Some (r, set') /\ set_ok set' M /\ extends set set' /\
    strs_data_len set' = strs_data_len set /\ spec_find (strs_data_max_len set) s (strs_data_len set, M) r.
Proof.
  intros Hok Hs. unfold strset__find_str. destruct (put_str_ok set M s t Hok Hs) as (r & -> & Hr). cbn [mbind option_bind].
  destruct r as [err | set'].
  { destruct Hr as [-> Hr]. eexists _, _. do 4 (split; [done |]). left. unfold no_room. tauto. }
  destruct Hr as (Hok' & El & Em & Ht & Hc & Hi & Es). destruct (inside_key_ok _ _ _ Hi) as [Hk _].
  pose proof Hok' as [_ Hlen Hmax Hh Hu Hkeys _].
  rewrite (find_refines _ _ _ _ _ (strset_hash_fn_ok _) (strset_equal_fn_ok _) calloc Hcalloc _ _ Hh Hu) by (by rewrite El).
  cbn [mbind option_bind]. eexists _, _. split; [done |]. split; [done |]. split; [split_and!; [lia | done | done] |].
  split; [done |]. right. rewrite El, Es, (index_M set' M s Hok'). fold (index set'). destruct (index set' !! s) as [[k v] |] eqn:E; [| done].
  cbn. destruct (Hkeys _ _ _ E) as (-> & Hin & _). apply s32_id.
  apply inside_lt in Hin; lia.
Qed.

(** Adding the key [k], where the string [s] lies, to the hash map. *)
Lemma insert_off_spec malloc set M k s : set_ok set M -> key_ok (strs_data set) k -> str_at (strs_data set) k = s ->
  exists err ok ov hash, hashmap_insert (strset_hash_fn (strs_data set)) (strset_equal_fn (strs_data set)) calloc malloc
      (strs_hash set) k k HASHMAP_ADD = Some (err, ok, ov, hash) /\
    ((M !! s = Some ok /\ err = - EEXIST /\ 0 <= ok < strs_data_len set /\ set_ok (set {{ strs_hash := hash }}) M) \/
     (M !! s = None /\ err = - ENOMEM /\ no_memory calloc malloc (strs_data_len set) /\ set_ok (set {{ strs_hash := hash }}) M) \/
     (M !! s = None /\ err = 0 /\ forall n, strs_data_len set <= n <= strs_data_cap set -> inside (strs_data set) n k ->
        set_ok (set {{ strs_hash := hash; strs_data_len := n }}) (<[s := k]> M))).
Proof.
  intros Hok Hk Hs. pose proof Hok as [Hcap Hlen Hmax Hh Hu Hkeys HM].
  destruct (insert_refines _ _ _ _ _ (strset_hash_fn_ok _) (strset_equal_fn_ok _) calloc Hcalloc HASHMAP_ADD malloc
    (strs_hash set) k k Hh Hu Hk ltac:(done)) as (err & ok & ov & hash & -> & Hh' & Hu' & Hspec).
  eexists _, _, _, _. split; [done |]. unfold spec_insert in Hspec. rewrite Hs in Hspec. fold (index set) in Hspec.
  rewrite (index_M set M s Hok). destruct (index set !! s) as [[k0 v] |] eqn:E; cbn.
  - left. destruct Hspec as [[= -> -> ->] Ha]. destruct (Hkeys _ _ _ E) as (-> & Hin & _). apply inside_lt in Hin; [| lia].
    split_and!; [done | done | lia | lia |]. by apply set_hash_ok.
  - right. destruct Hspec as [[[= -> -> ->] Ha] | ([= -> -> ->] & Ha & Hn)]; [right | left]; split_and!; try done.
    + intros n Hn Hi. by apply set_added_ok.
    + eapply no_memory_mono; [| exact Hn]. pose proof (set_size _ _ Hok) as Hsz. rewrite HM, map_size_fmap in Hsz. exact Hsz.
    + by apply set_hash_ok.
Qed.

Lemma add_str_refines malloc set M s t : set_ok set M -> string_ok s ->
  exists r set' M', strset__add_str calloc realloc malloc set (s ++ NUL :: t) = Some (r, set') /\ set_ok set' M' /\
    extends set set' /\ spec_add malloc (strs_data_max_len set) s (strs_data_len set, M) r (strs_data_len set', M').
Proof.
  intros Hok Hs. unfold strset__add_str. rewrite strlen_app_nul by apply Hs. cbn [mbind option_bind].
  destruct (put_str_ok set M s t Hok Hs) as (r & -> & Hr). cbn [mbind option_bind]. destruct r as [err | set1].
  { destruct Hr as [-> Hr]. eexists _, _, M. split; [done |]. split; [done |]. split; [done |]. left. unfold no_room. tauto. }
  destruct Hr as (Hok1 & El & Em & Ht & Hc & Hi & Es). destruct (inside_key_ok _ _ _ Hi) as [Hk _]. rewrite <- El in Hk, Hi, Es.
  pose proof (so_len _ _ Hok1) as Hlen. pose proof (so_max _ _ Hok1) as Hmax. pose proof (zlen_nonneg s) as Hz.
  assert (forall hash, extends set (set1 {{ strs_hash := hash }}) /\ strs_data_len (set1 {{ strs_hash := hash }}) = strs_data_len set)
    as Hext by (intros hash; destruct set1; unfold extends; cbn in *; split_and!; lia || done).
  destruct (insert_off_spec malloc set1 M (strs_data_len set1) s Hok1 Hk Es) as (err & ok & ov & hash & -> & Hins).
  cbn [mbind option_bind]. destruct (Hext hash) as [Hext1 El1]. unfold spec_add.
  destruct Hins as [(HM & -> & Hr & Hok2) | [(HM & -> & Hn & Hok2) | (HM & -> & Hok2)]]; rewrite HM; cbn [Z.eqb negb].
  - eexists _, _, M. split; [done |]. split; [done |]. split; [done |]. right. rewrite s32_id, El1 by lia. done.
  - eexists _, _, M. split; [done |]. split; [done |]. split; [done |]. left. rewrite El1. rewrite El in Hn. unfold no_room. tauto.
  - change (match - EEXIST with 0 => true | _ => false end) with false. cbv iota. specialize (Hok2 (strs_data_len set1 + zlen s + 1) ltac:(lia) Hi). rewrite El1. rewrite s32_id, u64_id by lia.
    replace (strs_data_len set + (zlen s + 1)) with (strs_data_len set1 + zlen s + 1) by lia.
    eexists _, _, _. split; [done |]. split; [exact Hok2 |]. split; [destruct set1; unfold extends, constant in *; cbn in *; unfold constant; split_and!; lia || done |].
    right. rewrite El. done.
Qed.

(** ** The initial strings *)

Definition render (ss : list (list byte)) : list byte := ss ≫= (fun s => s ++ [NUL]).

(** Each string at its first offset. *)
Fixpoint first_offs (ss : list (list byte)) (off : Z) (M : gmap (list byte) Z) : gmap (list byte) Z :=
  match ss with
  | [] => M
  | s :: ss' => first_offs ss' (off + zlen s + 1) (match M !! s with Some _ => M | None => <[s := off]> M end)
  end.

Lemma render_cons s ss : render (s :: ss) = s ++ NUL :: render ss.
Proof. unfold render. cbn. by rewrite <- app_assoc. Qed.

Definition with_hash (data : list byte) (max : Z) (hash : hashmap) : strset :=
  {| strs_data := data; strs_data_len := zlen data; strs_data_cap := zlen data; strs_data_max_len := max; strs_hash := hash |}.

Lemma add_init_spec malloc max data ss : Forall (fun s => NUL ∉ s) ss -> forall fuel pre hash M,
  data = pre ++ render ss -> (length (render ss) <= fuel)%nat -> set_ok (with_hash data max hash) M ->
  exists err hash', add_init calloc fuel malloc data (zlen data) (zlen pre) hash = Some (err, hash') /\
    ((err = 0 /\ set_ok (with_hash data max hash') (first_offs ss (zlen pre) M)) \/
     (err = - ENOMEM /\ exists off, no_memory calloc (malloc off) (zlen data))).
Proof.
  induction 1 as [| s ss Hs _ IH]; intros fuel pre hash M E Hf Hok.
  { cbn in E. rewrite app_nil_r in E. subst pre. destruct fuel; cbn [add_init]; rewrite Z.ltb_irrefl; cbn [negb]; eauto 10. }
  rewrite render_cons in E, Hf. rewrite length_app in Hf. simpl length in Hf. destruct fuel as [| fuel]; [lia |].
  cbn [add_init]. pose proof (zlen_nonneg pre). pose proof (zlen_nonneg s). pose proof (zlen_nonneg (render ss)).
  assert (zlen data = zlen pre + zlen s + 1 + zlen (render ss)) as Hz by (rewrite E, !zlen_app, zlen_cons; lia).
  rewrite (proj2 (Z.ltb_lt _ _)) by lia. cbn [negb].
  assert (drop (Z.to_nat (zlen pre)) data = s ++ NUL :: render ss) as Ed.
  { rewrite E. apply drop_app_length'. unfold zlen. lia. }
  assert (inside data (zlen data) (zlen pre)) as Hi.
  { split; [lia |]. rewrite take_ge by (unfold zlen; lia). rewrite Ed. set_solver. }
  assert (str_at data (zlen pre) = s) as Es by (unfold str_at; rewrite Ed; by apply cstr_app_nul).
  destruct (inside_key_ok _ _ _ Hi) as [Hk _].
  destruct (insert_off_spec (malloc (zlen pre)) (with_hash data max hash) M (zlen pre) s Hok Hk Es)
    as (err & ok & ov & hash1 & Eins & Hins). cbn [strs_data strs_hash with_hash] in Eins. rewrite Eins. cbn [mbind option_bind].
  assert (forall M1, set_ok (with_hash data max hash1) M1 ->
    M1 = (match M !! s with Some _ => M | None => <[s := zlen pre]> M end) ->
    exists err hash', (x ← at_off data (zlen pre); n ← strlen x;
       add_init calloc fuel malloc data (zlen data) (zlen pre + n + 1) hash1) = Some (err, hash') /\
    ((err = 0 /\ set_ok (with_hash data max hash') (first_offs (s :: ss) (zlen pre) M)) \/
     (err = - ENOMEM /\ exists off, no_memory calloc (malloc off) (zlen data)))) as Hnext.
  { intros M1 Hok1 ->. rewrite at_off_ok by lia. rewrite Ed. cbn [mbind option_bind]. rewrite strlen_app_nul by done.
    cbn [mbind option_bind first_offs]. replace (zlen pre + zlen s + 1) with (zlen (pre ++ s ++ [NUL]))
      by (rewrite !zlen_app; unfold zlen; simpl length; lia).
    apply IH; [| lia | done]. rewrite E, <- !app_assoc. done. }
  destruct Hins as [(HM & -> & _ & Hok1) | [(HM & -> & Hn & _) | (HM & -> & Hok1)]]; rewrite HM in Hnext.
  - by apply (Hnext M).
  - eexists _, _. split; [done |]. right. eauto.
  - apply (Hnext (<[s := zlen pre]> M)); [| done]. apply (Hok1 (zlen data)); [cbn; lia | done].
Qed.

(** ** Sequences of calls *)

Inductive str_op := SAdd (malloc : bool) (s : list byte) | SFind (s : list byte).

Definition str_step (o : str_op) (set : strset) : option (Z * strset) :=
  match o with
  | SAdd malloc s => strset__add_str calloc realloc malloc set (s ++ [NUL])
  | SFind s => strset__find_str realloc set (s ++ [NUL])
  end.

Fixpoint str_run (os : list str_op) (set : strset) : option (list Z * strset) :=
  match os with
  | [] => Some ([], set)
  | o :: os' => '(r, set) ← str_step o set; '(rs, set) ← str_run os' set; Some (r :: rs, set)
  end.

Definition str_spec (max : Z) (o : str_op) (A : Z * gmap (list byte) Z) (r : Z) (A' : Z * gmap (list byte) Z) : Prop :=
  match o with
  | SAdd malloc s => spec_add malloc max s A r A'
  | SFind s => spec_find max s A r /\ A' = A
  end.

Inductive str_spec_run (max : Z) :
    list str_op -> Z * gmap (list byte) Z -> list Z -> Z * gmap (list byte) Z -> Prop :=
  | str_spec_nil A : str_spec_run max [] A [] A
  | str_spec_cons o os A r rs A1 A2 : str_spec max o A r A1 -> str_spec_run max os A1 rs A2 ->
      str_spec_run max (o :: os) A (r :: rs) A2.

Definition str_op_ok (o : str_op) : Prop := match o with SAdd _ s | SFind s => string_ok s end.

Lemma str_run_refines os : Forall str_op_ok os -> forall set M, set_ok set M ->
  exists rs set' M', str_run os set = Some (rs, set') /\ set_ok set' M' /\
    str_spec_run (strs_data_max_len set) os (strs_data_len set, M) rs (strs_data_len set', M').
Proof.
  induction 1 as [| o os Ho _ IH]; intros set M Hok; cbn [str_run].
  { eexists _, _, _. split_and!; [done | done | constructor]. }
  assert (exists r set1 M1, str_step o set = Some (r, set1) /\ set_ok set1 M1 /\ extends set set1 /\
    str_spec (strs_data_max_len set) o (strs_data_len set, M) r (strs_data_len set1, M1))
    as (r & set1 & M1 & -> & Hok1 & (_ & Em & _) & Hs1).
  { destruct o as [malloc s | s]; cbn [str_step str_spec].
    - destruct (add_str_refines malloc set M s [] Hok Ho) as (r & set1 & M1 & E & ?). eauto 10.
    - destruct (find_str_refines set M s [] Hok Ho) as (r & set1 & E & Hok1 & He & El & Hs). rewrite <- El in Hs |- *. eauto 10. }
  cbn [mbind option_bind]. destruct (IH set1 M1 Hok1) as (rs & set2 & M2 & -> & Hok2 & Hs2). cbn [mbind option_bind].
  eexists _, _, _. split_and!; [done | done |]. econstructor; [done |]. by rewrite <- Em.
Qed.

Definition init_of (ss : list (list byte)) : list byte * Z := (render ss, zlen (render ss)).

Lemma set_ok_empty data max : zlen data <= max < 2 ^ 31 -> set_ok (with_hash data max hashmap__init) ∅.
Proof.
  intros Hm. pose proof (zlen_nonneg data). constructor; cbn; try lia; try done. constructor.
Qed.

Lemma strset__new_spec malloc max init : Forall (fun s => NUL ∉ s) (default [] init) ->
  zlen (render (default [] init)) <= max < 2 ^ 31 ->
  exists r, strset__new calloc true true true malloc max (init_of <$> init) = Some r /\
    ((r = inl (- ENOMEM) /\ exists off, no_memory calloc (malloc off) (zlen (render (default [] init)))) \/
     exists set, r = inr set /\ strs_data_len set = zlen (render (default [] init)) /\ strs_data_max_len set = max /\
       set_ok set (first_offs (default [] init) 0 ∅)).
Proof.
  intros Hs Hm. unfold strset__new. cbn [negb hashmap__new]. destruct init as [ss |]; cbn [fmap option_fmap option_map default init_of] in *.
  - pose proof (bytes_at_app [] (render ss) [] 0 (length (render ss)) eq_refl eq_refl) as Hb. rewrite app_nil_r in Hb.
    cbn [app] in Hb. unfold init_of. cbv iota beta. replace (Z.to_nat (zlen (render ss))) with (length (render ss)) by (unfold zlen; lia).
    rewrite Hb.
    cbn [mbind option_bind].
    destruct (add_init_spec malloc max (render ss) ss Hs (length (render ss)) [] hashmap__init ∅) as (err & hash & E & Herr);
      [done | done | by apply set_ok_empty |]. change (zlen []) with 0 in E, Herr. rewrite E. cbn [mbind option_bind].
    destruct Herr as [[-> Hok] | [-> Hn]]; cbn [Z.eqb negb]; [| by eauto 10].
    eexists. split; [done |]. right. by eexists.
  - eexists. split; [done |]. right. eexists. split_and!; try done. by apply (set_ok_empty []).
Qed.

(** C31: a string set interns strings.  From a new set, with or without initial
    strings, any sequence of [strset__add_str] and [strset__find_str] runs
    without touching memory it should not and behaves like a finite map from
    strings to offsets: a string that is there is returned at the offset it
    has; a new one gets the end of the data, which grow by the string and its
    terminator; looking up a string the set does not have says so; calls fail
    only for want of memory or room.  At the end every string of the map lies
    at its offset in the data, so that two strings share an offset only when
    they are equal. *)
Theorem strset_interns malloc max init os :
  Forall (fun s => NUL ∉ s) (default [] init) -> zlen (render (default [] init)) <= max < 2 ^ 31 -> Forall str_op_ok os ->
  exists r, strset__new calloc true true true malloc max (init_of <$> init) = Some r /\
    ((r = inl (- ENOMEM) /\ exists off, no_memory calloc (malloc off) (zlen (render (default [] init)))) \/
     exists set0 rs set M, r = inr set0 /\ str_run os set0 = Some (rs, set) /\
       str_spec_run max os (zlen (render (default [] init)), first_offs (default [] init) 0 ∅) rs (strset__data_size set, M) /\
       forall s off, M !! s = Some off -> 0 <= off < strset__data_size set /\ str_at (strset__data set) off = s).
Proof.
  intros Hs Hm Hos. destruct (strset__new_spec malloc max init Hs Hm) as (r & -> & Hr). exists r. split; [done |].
  destruct Hr as [Hr | (set0 & -> & El & Em & Hok)]; [by left | right].
  destruct (str_run_refines os Hos set0 _ Hok) as (rs & set & M & E & Hok' & Hrun). rewrite El, Em in Hrun.
  exists set0, rs, set, M. split_and!; [done | done | done |]. intros s off HM. rewrite (index_M set M s Hok') in HM.
  destruct (index set !! s) as [[k v] |] eqn:Ei; [| done]. cbn in HM. injection HM as <-.
  destruct (so_keys _ _ Hok' _ _ _ Ei) as (-> & Hin & Hat). split; [| done]. apply inside_lt in Hin; [done |].
  apply (so_len _ _ Hok').
Qed.
End Spec.

Lemma strset_interns_witness :
  let realloc n := n <? 2 ^ 40 in
  exists set0 rs set, strset__new int_calloc true true true (fun _ => true) 64 (Some (init_of [[]; str "int"; str "int"])) =
      Some (inr set0) /\
    str_run int_calloc realloc [SAdd true (str "long"); SFind (str "int"); SFind (str "char"); SAdd true (str "long");
      SAdd true (str "char")] set0 = Some (rs, set) /\ rs = [9; 1; - ENOENT; 9; 14] /\ strset__data_size set = 19.
Proof.
  intros realloc.
  destruct (strset_interns int_calloc realloc int_calloc_spec (fun _ => true) 64 (Some [[]; str "int"; str "int"])
    [SAdd true (str "long"); SFind (str "int"); SFind (str "char"); SAdd true (str "long"); SAdd true (str "char")])
    as (r & E & [(-> & _) | (set0 & rs & set & M & -> & Er & _)]).
  - repeat constructor; apply (bool_decide_unpack _); vm_compute; exact I.
  - split; vm_compute; done.
  - repeat constructor; try (apply (bool_decide_unpack _); vm_compute; exact I); vm_compute; done.
  - exfalso. apply (f_equal (fmap (fun x => match x with inl _ => true | inr _ => false end))) in E. vm_compute in E. discriminate E.
  - exists set0, rs, set. split; [exact E |]. split; [exact Er |].
    vm_compute in E. injection E as <-. vm_compute in Er. injection Er as <- <-. split; reflexivity.
Defined.
