(* ===== verification/Zip.v ===== *)
(** ZIP archives: src/lib/libbpf/src/zip.c.

    An archive is a file in memory.  It ends with a record that says where its
    directory is; the directory names the files and where their headers are. *)
From S2P Require Import Prelude.
From S2P Require Import CLib.

(** ** Data *)

Definition END_OF_CD_RECORD_MAGIC : Z := 0x06054b50.
Definition CD_FILE_HEADER_MAGIC : Z := 0x02014b50.
Definition LOCAL_FILE_HEADER_MAGIC : Z := 0x04034b50.
Definition FLAG_ENCRYPTED : Z := 1.
Definition FLAG_HAS_DATA_DESCRIPTOR : Z := 8.

(** The sizes of the packed structs. *)
Definition SIZEOF_EOCD : Z := 22.
Definition SIZEOF_CDFH : Z := 46.
Definition SIZEOF_LFH : Z := 30.

(** [data] is the mapping; pointers into it are offsets. *)
Record zip_archive := { data : list byte; size : Z; cd_offset : Z; cd_records : Z }.

Record zip_entry := {
  e_compression : Z;
  e_name : Z;
  e_name_length : Z;
  e_data : Z;
  e_data_length : Z;
  e_data_offset : Z
}.

(** ** Finding the directory *)

(** NULL is [None]. *)
Definition check_access (a : zip_archive) (offset sz : Z) : option Z :=
  if (size a <? u32 (offset + sz)) || (u32 (offset + sz) <? offset) then None else Some offset.

Definition try_parse_end_of_cd (a : zip_archive) (offset : Z) : option (Z * zip_archive) :=
  match check_access a offset SIZEOF_EOCD with
  | None => Some (- EINVAL, a)
  | Some eocd =>
    magic ← load32 (data a) eocd;
    if negb (magic =? END_OF_CD_RECORD_MAGIC) then Some (- EINVAL, a) else
    comment_length ← load16 (data a) (eocd + 20);
    if negb (offset + SIZEOF_EOCD + comment_length =? size a) then Some (- EINVAL, a) else
    records ← load16 (data a) (eocd + 8);
    this_disk ← load16 (data a) (eocd + 4);
    cd_disk ← load16 (data a) (eocd + 6);
    records_total ← load16 (data a) (eocd + 10);
    if c_true this_disk || c_true cd_disk || negb (records_total =? records) then Some (- ENOTSUP, a) else
    cd_off ← load32 (data a) (eocd + 16);
    cd_size ← load32 (data a) (eocd + 12);
    match check_access a cd_off cd_size with
    | None => Some (- EINVAL, a)
    | Some _ => Some (0, {| data := data a; size := size a; cd_offset := cd_off; cd_records := records |})
    end
  end.

(** The loop of [find_cd]; the fuel bounds the rounds. *)
Fixpoint find_cd_loop (fuel : nat) (a : zip_archive) (offset limit rc : Z) : option (Z * zip_archive) :=
  if negb ((0 <=? offset) && (limit <? offset) && negb (rc =? 0)) then Some (rc, a) else
  match fuel with
  | O => None
  | S fuel =>
    '(rc, a) ← try_parse_end_of_cd a (u32 offset);
    if rc =? - ENOTSUP then Some (rc, a) else find_cd_loop fuel a (offset - 1) limit rc
  end.

Definition find_cd (a : zip_archive) : option (Z * zip_archive) :=
  if size a <=? SIZEOF_EOCD then Some (- EINVAL, a) else
  let offset := size a - SIZEOF_EOCD in
  find_cd_loop (Z.to_nat (2 ^ 16)) a offset (offset - 2 ^ 16) (- EINVAL).

(** ** Opening and closing *)

(** What the process holds: descriptors, the sizes of its mappings, and
    the number of archives on the heap. *)
Record held := { fds : list Z; mappings : list Z; archives : Z }.

(** The answers of the system: a descriptor or minus an error number, the
    size, 0 or the error of [mmap], and whether there is memory.  [oe_file]
    is the content of the mapping. *)
Record open_env := { oe_open : Z; oe_lseek : Z; oe_mmap : Z; oe_malloc : bool; oe_file : list byte }.

Definition take_fd (fd : Z) (w : held) : held := {| fds := fd :: fds w; mappings := mappings w; archives := archives w |}.
Definition close (fd : Z) (w : held) : held := {| fds := filter (fun x => x <> fd) (fds w); mappings := mappings w; archives := archives w |}.
Definition map_file (n : Z) (w : held) : held := {| fds := fds w; mappings := n :: mappings w; archives := archives w |}.
Fixpoint remove_one (n : Z) (l : list Z) : list Z := match l with [] => [] | x :: l => if x =? n then l else x :: remove_one n l end.
Definition munmap (n : Z) (w : held) : held := {| fds := fds w; mappings := remove_one n (mappings w); archives := archives w |}.
Definition new_archive (w : held) : held := {| fds := fds w; mappings := mappings w; archives := archives w + 1 |}.
Definition free_archive (w : held) : held := {| fds := fds w; mappings := mappings w; archives := archives w - 1 |}.

Definition UINT32_MAX : Z := 2 ^ 32 - 1.

(** An error pointer is [inl]. *)
Definition zip_archive_open (e : open_env) (w : held) : option ((Z + zip_archive) * held) :=
  let fd := oe_open e in
  if fd <? 0 then Some (inl fd, w) else
  let w := take_fd fd w in
  let sz := oe_lseek e in
  if (sz =? -1) || (UINT32_MAX <? sz) then Some (inl (- EINVAL), close fd w) else
  let w := if oe_mmap e =? 0 then map_file sz w else w in
  let w := close fd w in
  if negb (oe_mmap e =? 0) then Some (inl (- oe_mmap e), w) else
  if negb (oe_malloc e) then Some (inl (- ENOMEM), munmap sz w) else
  let w := new_archive w in
  '(err, a) ← find_cd {| data := oe_file e; size := sz; cd_offset := 0; cd_records := 0 |};
  if c_true err then Some (inl err, free_archive (munmap sz w)) else Some (inr a, w).

Definition zip_archive_close (a : zip_archive) (w : held) : held := free_archive (munmap (size a) w).

(** ** Finding a file *)

Definition local_file_header_at_offset (a : zip_archive) (offset : Z) : option (option Z) :=
  match check_access a offset SIZEOF_LFH with
  | None => Some None
  | Some lfh => magic ← load32 (data a) lfh; Some (if magic =? LOCAL_FILE_HEADER_MAGIC then Some lfh else None)
  end.

(** The flags of files that are not supported. *)
Definition unsupported (flags : Z) : bool := c_true (Z.land flags FLAG_ENCRYPTED) || c_true (Z.land flags FLAG_HAS_DATA_DESCRIPTOR).

Definition get_entry_at_offset (a : zip_archive) (offset : Z) : option (Z * option zip_entry) :=
  lfh ← local_file_header_at_offset a offset;
  match lfh with
  | None => Some (- EINVAL, None)
  | Some lfh =>
    let offset := u32 (offset + SIZEOF_LFH) in
    flags ← load16 (data a) (lfh + 6);
    if unsupported flags then Some (- EINVAL, None) else
    name_length ← load16 (data a) (lfh + 26);
    match check_access a offset name_length with
    | None => Some (- EINVAL, None)
    | Some name =>
      let offset := u32 (offset + name_length) in
      extra_length ← load16 (data a) (lfh + 28);
      match check_access a offset extra_length with
      | None => Some (- EINVAL, None)
      | Some _ =>
        let offset := u32 (offset + extra_length) in
        compressed_size ← load32 (data a) (lfh + 18);
        match check_access a offset compressed_size with
        | None => Some (- EINVAL, None)
        | Some d =>
          compression ← load16 (data a) (lfh + 8);
          Some (0, Some {| e_compression := compression; e_name := name; e_name_length := name_length; e_data := d;
                           e_data_length := compressed_size; e_data_offset := offset |})
        end
      end
    end
  end.

(** [memcmp] of [n] bytes tells whether they are equal. *)
Definition same_bytes (m : list byte) (p : Z) (m' : list byte) (q : Z) (n : nat) : option bool :=
  x ← bytes_at m p n; y ← bytes_at m' q n; Some (bool_decide (x = y)).

(** The loop over [n] records from [offset] on. *)
Fixpoint find_entry_loop (n : nat) (a : zip_archive) (offset : Z) (file_name : list byte) (file_name_length : Z) :
    option (Z * option zip_entry) :=
  match n with
  | O => Some (- ENOENT, None)
  | S n =>
    match check_access a offset SIZEOF_CDFH with
    | None => Some (- EINVAL, None)
    | Some cdfh =>
      magic ← load32 (data a) cdfh;
      if negb (magic =? CD_FILE_HEADER_MAGIC) then Some (- EINVAL, None) else
      let offset := u32 (offset + SIZEOF_CDFH) in
      cdfh_name_length ← load16 (data a) (cdfh + 28);
      match check_access a offset cdfh_name_length with
      | None => Some (- EINVAL, None)
      | Some _ =>
        flags ← load16 (data a) (cdfh + 8);
        found ← (if negb (unsupported flags) && (file_name_length =? cdfh_name_length)
                 then same_bytes file_name 0 (data a) offset (Z.to_nat file_name_length) else Some false);
        if (found : bool) then off ← load32 (data a) (cdfh + 42); get_entry_at_offset a off else
        extra_length ← load16 (data a) (cdfh + 30);
        comment_length ← load16 (data a) (cdfh + 32);
        find_entry_loop n a (u32 (u32 (u32 (offset + cdfh_name_length) + extra_length) + comment_length)) file_name file_name_length
      end
    end
  end.

Definition zip_archive_find_entry (a : zip_archive) (file_name : list byte) : option (Z * option zip_entry) :=
  file_name_length ← strlen file_name;
  find_entry_loop (Z.to_nat (cd_records a)) a (cd_offset a) file_name file_name_length.

(** ** Safety *)

Record archive_ok (a : zip_archive) : Prop := {
  ao_size : zlen (data a) = size a;
  ao_limit : size a < 2 ^ 32;
  ao_offset : 0 <= cd_offset a < 2 ^ 32;
  ao_records : 0 <= cd_records a
}.

Lemma check_access_inv a off sz p : 0 <= off < 2 ^ 32 -> 0 <= sz < 2 ^ 32 -> check_access a off sz = Some p -> p = off /\ off + sz <= size a.
Proof.
  intros Ho Hs. unfold check_access, u32. destruct (Z.ltb_spec (size a) ((off + sz) mod 2 ^ 32)); [done |].
  destruct (Z.ltb_spec ((off + sz) mod 2 ^ 32) off) as [| H']; [done |]. cbn. intros [= ->]. split; [done |].
  destruct (decide (p + sz < 2 ^ 32)); [rewrite Z.mod_small in * by lia; lia |].
  assert ((p + sz) mod 2 ^ 32 = p + sz - 2 ^ 32) as E by (symmetry; apply (Z.mod_unique_pos _ _ 1); lia). lia.
Qed.

Lemma check_access_ok a off sz : size a < 2 ^ 32 -> 0 <= off -> 0 <= sz -> off + sz <= size a -> check_access a off sz = Some off.
Proof.
  intros Ha Ho Hs Hle. unfold check_access. rewrite u32_id by lia. by rewrite (proj2 (Z.ltb_ge _ _)), (proj2 (Z.ltb_ge _ _)) by lia.
Qed.

(** A field of a struct that was checked. *)
Lemma field n a p off sz : archive_ok a -> 0 <= off -> off + sz <= size a -> 0 <= p -> p + Z.of_nat n <= sz ->
  exists v, load n (data a) (off + p) = Some v /\ 0 <= v < 2 ^ (8 * Z.of_nat n).
Proof. intros [Ha _ _ _] Ho Hle Hp Hn. apply load_Some; lia. Qed.

Ltac field p sz v Hv :=
  let E := fresh "E" in
  match goal with |- context [load ?n (data ?a) (?off + p)] => destruct (field n a p off sz) as (v & E & Hv); [assumption | lia | lia | lia | lia |]; rewrite E; clear E; cbn [mbind option_bind] end.

Ltac first_field off sz v Hv :=
  let E := fresh "E" in
  match goal with |- context [load ?n (data ?a) off] => destruct (field n a 0 off sz) as (v & E & Hv); [assumption | lia | lia | lia | lia |]; rewrite Z.add_0_r in E; rewrite E; clear E; cbn [mbind option_bind] end.

Lemma try_parse_total a offset : archive_ok a -> 0 <= offset < 2 ^ 32 ->
  exists rc a', try_parse_end_of_cd a offset = Some (rc, a') /\ data a' = data a /\ size a' = size a /\ archive_ok a' /\
    (rc = 0 \/ (a' = a /\ (rc = - EINVAL \/ rc = - ENOTSUP))).
Proof.
  intros Ha Ho. unfold try_parse_end_of_cd. assert (forall rc, rc = - EINVAL \/ rc = - ENOTSUP ->
    exists rc' a', Some (rc, a) = Some (rc', a') /\ data a' = data a /\ size a' = size a /\ archive_ok a' /\ (rc' = 0 \/ (a' = a /\ (rc' = - EINVAL \/ rc' = - ENOTSUP)))) as Herr
    by (intros rc Hrc; exists rc, a; auto 7).
  destruct (check_access a offset SIZEOF_EOCD) as [p |] eqn:Ec; [| by apply Herr; left].
  apply check_access_inv in Ec as [-> Hle]; [| done | done]. unfold SIZEOF_EOCD in *. first_field offset 22 magic Hm.
  destruct (magic =? _); cbn [negb]; [| by apply Herr; left]. field 20 22 clen Hc.
  destruct (_ =? size a); cbn [negb]; [| by apply Herr; left]. field 8 22 recs Hr. field 4 22 this Ht. field 6 22 disk Hd. field 10 22 ntotal Htot.
  destruct (_ || _); [by apply Herr; right |]. field 16 22 cdo Hcdo. field 12 22 cds Hcds.
  destruct (check_access a cdo cds) as [q |] eqn:Ec'; [| by apply Herr; left].
  eexists _, _. split; [done |]. destruct Ha as [H1 H2 H3 H4]. split_and!; try done; [| by left]. split; cbn; try done. lia.
Qed.

Lemma find_cd_loop_total fuel : forall a offset limit rc, archive_ok a -> offset < 2 ^ 32 -> offset - limit <= Z.of_nat fuel ->
  rc = - EINVAL \/ rc = 0 ->
  exists rc' a', find_cd_loop fuel a offset limit rc = Some (rc', a') /\ data a' = data a /\ size a' = size a /\ archive_ok a' /\
    (rc' = 0 \/ rc' = - EINVAL \/ rc' = - ENOTSUP).
Proof.
  induction fuel as [| fuel IH]; intros a offset limit rc Ha Ho Hf Hrc; cbn [find_cd_loop]; (destruct (negb _) eqn:Ec; [exists rc, a; naive_solver |]); apply negb_false_iff in Ec.
  - apply andb_prop in Ec as [[_ Ec]%andb_prop _]. lia.
  - apply andb_prop in Ec as [[H0 _]%andb_prop _]. rewrite u32_id by lia.
    destruct (try_parse_total a offset Ha) as (rc1 & a1 & -> & E1 & E2 & Ha1 & Hrc1); [lia |]. cbn [mbind option_bind].
    destruct (Z.eqb_spec rc1 (- ENOTSUP)) as [-> |]; [exists (- ENOTSUP), a1; auto 7 |].
    destruct (IH a1 (offset - 1) limit rc1 Ha1) as (rc' & a' & -> & E1' & E2' & Ha' & Hrc'); [lia | lia | naive_solver |].
    exists rc', a'. split_and!; try done; congruence.
Qed.

Lemma find_cd_total a : archive_ok a -> exists rc a', find_cd a = Some (rc, a') /\ data a' = data a /\ size a' = size a /\ archive_ok a' /\
  (rc = 0 \/ rc = - EINVAL \/ rc = - ENOTSUP).
Proof.
  intros Ha. unfold find_cd. destruct (_ <=? _); [exists (- EINVAL), a; auto 7 |]. pose proof (ao_limit _ Ha). unfold SIZEOF_EOCD.
  apply find_cd_loop_total; [done | lia | lia | by left].
Qed.

(** An entry lies in the archive. *)
Definition entry_inside (a : zip_archive) (e : zip_entry) : Prop :=
  0 <= e_name e /\ 0 <= e_name_length e /\ e_name e + e_name_length e <= size a /\
  0 <= e_data e /\ 0 <= e_data_length e /\ e_data e + e_data_length e <= size a /\ e_data_offset e = e_data e.

(** An error without an entry, or success with one that lies in the archive. *)
Definition lookup_ok (a : zip_archive) (r : Z * option zip_entry) : Prop :=
  (r = (- EINVAL, None) \/ r = (- ENOENT, None)) \/ exists e, r = (0, Some e) /\ entry_inside a e.

Lemma get_entry_total a offset : archive_ok a -> 0 <= offset < 2 ^ 32 -> exists r, get_entry_at_offset a offset = Some r /\ lookup_ok a r.
Proof.
  intros Ha Ho. assert (exists r, Some (- EINVAL, @None zip_entry) = Some r /\ lookup_ok a r) as Herr by (eexists; split; [done |]; by left; left).
  unfold get_entry_at_offset, local_file_header_at_offset. destruct (check_access a offset SIZEOF_LFH) as [p |] eqn:Ec; [| done].
  apply check_access_inv in Ec as [-> Hle]; [| done | done]. unfold SIZEOF_LFH in *. pose proof (ao_limit _ Ha) as Hlim. first_field offset 30 magic Hm.
  destruct (_ =? _); [| done]. rewrite (u32_id (offset + 30)) by lia. field 6 30 flags Hf. destruct (unsupported flags); [done |].
  field 26 30 nlen Hn. change (8 * Z.of_nat 2) with 16 in Hn. destruct (check_access a (offset + 30) nlen) as [q |] eqn:En; [| done].
  apply check_access_inv in En as [-> Hle1]; [| lia | lia]. rewrite (u32_id (offset + 30 + nlen)) by lia. field 28 30 xlen Hx. change (8 * Z.of_nat 2) with 16 in Hx.
  destruct (check_access a (offset + 30 + nlen) xlen) as [q |] eqn:Ex; [| done]. apply check_access_inv in Ex as [-> Hle2]; [| lia | lia].
  rewrite (u32_id (offset + 30 + nlen + xlen)) by lia. field 18 30 csz Hs. change (8 * Z.of_nat 4) with 32 in Hs.
  destruct (check_access a (offset + 30 + nlen + xlen) csz) as [q |] eqn:Es; [| done]. apply check_access_inv in Es as [-> Hle3]; [| lia | lia].
  field 8 30 comp Hco. eexists. split; [done |]. right. eexists. split; [done |]. unfold entry_inside. cbn. lia.
Qed.

Lemma find_entry_loop_total n : forall a offset s t, archive_ok a -> 0 <= offset < 2 ^ 32 ->
  exists r, find_entry_loop n a offset (s ++ NUL :: t) (zlen s) = Some r /\ lookup_ok a r.
Proof.
  induction n as [| n IH]; intros a offset s t Ha Ho; cbn [find_entry_loop]; [eexists; split; [done |]; by left; right |].
  assert (exists r, Some (- EINVAL, @None zip_entry) = Some r /\ lookup_ok a r) as Herr by (eexists; split; [done |]; by left; left).
  destruct (check_access a offset SIZEOF_CDFH) as [p |] eqn:Ec; [| done]. apply check_access_inv in Ec as [-> Hle]; [| done | done]. unfold SIZEOF_CDFH in *.
  pose proof (ao_limit _ Ha) as Hlim. first_field offset 46 magic Hm. destruct (_ =? _); cbn [negb]; [| done]. rewrite (u32_id (offset + 46)) by lia.
  field 28 46 nlen Hn. change (8 * Z.of_nat 2) with 16 in Hn. destruct (check_access a (offset + 46) nlen) as [q |] eqn:En; [| done].
  apply check_access_inv in En as [-> Hle1]; [| lia | lia]. field 8 46 flags Hf.
  assert (exists found, (if negb (unsupported flags) && (zlen s =? nlen) then same_bytes (s ++ NUL :: t) 0 (data a) (offset + 46) (Z.to_nat (zlen s)) else Some false) = Some found) as (found & ->).
  { destruct (negb _); [| by eexists]. destruct (Z.eqb_spec (zlen s) nlen) as [Es |]; [| by eexists]. cbn [andb]. unfold same_bytes. pose proof (zlen_nonneg s) as Hs.
    rewrite (bytes_at_Some (s ++ NUL :: t)), (bytes_at_Some (data a)); [by eexists | lia | rewrite (ao_size _ Ha); lia | lia |].
    rewrite zlen_app, zlen_cons. pose proof (zlen_nonneg t). lia. }
  cbn [mbind option_bind]. destruct found.
  - field 42 46 off Hoff. by apply get_entry_total.
  - field 30 46 xlen Hx. field 32 46 clen Hcl. apply IH; [done |]. apply u32_range.
Qed.

Lemma remove_one_head n l : remove_one n (n :: l) = l.
Proof. cbn. by rewrite Z.eqb_refl. Qed.

Lemma close_new fd w : fd ∉ fds w -> filter (fun x => x <> fd) (fd :: fds w) = fds w.
Proof.
  intros H. rewrite filter_cons_False by (by intros []). induction (fds w) as [| x l IH]; [done |]. apply not_elem_of_cons in H as [Hx Hl].
  rewrite filter_cons_True by done. by rewrite IH.
Qed.

(** C15: a ZIP archive is opened and searched safely, whatever the file.
    For any content of up to 2^32 - 1 bytes and any answers of the system, every access
    stays inside the mapping and every loop ends.  Opening fails with nothing
    left open, or gives an archive that holds one mapping and one block;
    any name then is not found, or found as an entry whose name and data lie inside the file; and
    closing releases everything. *)
Theorem zip_safe e w : oe_lseek e = -1 \/ oe_lseek e = zlen (oe_file e) -> oe_open e ∉ fds w ->
  exists r w', zip_archive_open e w = Some (r, w') /\
    match r with
    | inl err => w' = w /\ (oe_open e < 0 -> err = oe_open e)
    | inr a => data a = oe_file e /\ w' = {| fds := fds w; mappings := oe_lseek e :: mappings w; archives := archives w + 1 |} /\ zip_archive_close a w' = w /\
        forall s t, NUL ∉ s -> exists r, zip_archive_find_entry a (s ++ NUL :: t) = Some r /\ lookup_ok a r
    end.
Proof.
  intros Hl Hfd. pose proof (zlen_nonneg (oe_file e)) as H0. unfold zip_archive_open. destruct (Z.ltb_spec (oe_open e) 0) as [Hneg |]; [by eexists _, _ |].
  assert (forall w' : held, {| fds := filter (fun x => x <> oe_open e) (oe_open e :: fds w); mappings := mappings w'; archives := archives w' |} =
    {| fds := fds w; mappings := mappings w'; archives := archives w' |}) as Hclose by (intros w'; by rewrite close_new).
  destruct ((oe_lseek e =? -1) || (UINT32_MAX <? oe_lseek e)) eqn:Esz.
  { eexists _, _. split; [done |]. split; [| lia]. unfold close, take_fd. cbn [fds mappings archives]. rewrite Hclose. by destruct w. }
  apply orb_false_elim in Esz as [Es1%Z.eqb_neq Es2%Z.ltb_ge]. unfold UINT32_MAX in Es2.
  destruct (oe_mmap e =? 0); cbn [negb].
  2: { eexists _, _. split; [done |]. split; [| lia]. unfold close, take_fd. cbn [fds mappings archives]. rewrite Hclose. by destruct w. }
  destruct (oe_malloc e); cbn [negb].
  2: { eexists _, _. split; [done |]. split; [| lia]. unfold munmap, close, map_file, take_fd. cbn [fds mappings archives]. rewrite close_new, remove_one_head by done. by destruct w. }
  destruct (find_cd_total {| data := oe_file e; size := oe_lseek e; cd_offset := 0; cd_records := 0 |}) as (rc & a & -> & E1 & E2 & Ha & Hrc); [split; cbn; lia |].
  cbn [mbind option_bind data size] in *. unfold c_true. destruct (Z.eqb_spec rc 0) as [-> | Hne]; cbn [negb]; eexists _, _; (split; [done |]).
  - split; [done |]. unfold zip_archive_close, free_archive, munmap, new_archive, close, map_file, take_fd. cbn [fds mappings archives]. rewrite close_new, E2, remove_one_head by done.
    split; [done |]. split; [destruct w; cbn; f_equal; lia |]. intros s t Hs. unfold zip_archive_find_entry. rewrite strlen_app_nul by done. cbn [mbind option_bind].
    apply find_entry_loop_total; [done | apply (ao_offset _ Ha)].
  - split; [| lia]. unfold free_archive, munmap, new_archive, close, map_file, take_fd. cbn [fds mappings archives]. rewrite close_new, remove_one_head by done. destruct w; cbn; f_equal; lia.
Qed.

(** ** Archives that are written *)

Record zfile := {
  zf_name : list byte;
  zf_data : list byte;
  zf_flags : Z;
  zf_compression : Z;
  zf_extra : list byte;
  zf_cd_extra : list byte;
  zf_comment : list byte;
  zf_version : Z;
  zf_min_version : Z;
  zf_time : Z;
  zf_date : Z;
  zf_crc : Z;
  zf_uncompressed : Z;
  zf_disk : Z;
  zf_internal : Z;
  zf_external : Z
}.

Record zfile_ok (f : zfile) : Prop := {
  zo_name : zlen (zf_name f) < 2 ^ 16;
  zo_data : zlen (zf_data f) < 2 ^ 32;
  zo_extra : zlen (zf_extra f) < 2 ^ 16;
  zo_cd_extra : zlen (zf_cd_extra f) < 2 ^ 16;
  zo_comment : zlen (zf_comment f) < 2 ^ 16;
  zo_flags : 0 <= zf_flags f < 2 ^ 16;
  zo_compression : 0 <= zf_compression f < 2 ^ 16
}.

(** The fields of a packed struct. *)
Definition fields (l : list (nat * Z)) : list byte := l ≫= fun '(n, v) => le_split n v.

Definition local_fields (f : zfile) : list (nat * Z) :=
  [(4%nat, LOCAL_FILE_HEADER_MAGIC); (2%nat, zf_min_version f); (2%nat, zf_flags f); (2%nat, zf_compression f); (2%nat, zf_time f); (2%nat, zf_date f); (4%nat, zf_crc f);
   (4%nat, zlen (zf_data f)); (4%nat, zf_uncompressed f); (2%nat, zlen (zf_name f)); (2%nat, zlen (zf_extra f))].
Definition local_bytes (f : zfile) : list byte := fields (local_fields f) ++ zf_name f ++ zf_extra f ++ zf_data f.

Definition central_fields (off : Z) (f : zfile) : list (nat * Z) :=
  [(4%nat, CD_FILE_HEADER_MAGIC); (2%nat, zf_version f); (2%nat, zf_min_version f); (2%nat, zf_flags f); (2%nat, zf_compression f); (2%nat, zf_time f); (2%nat, zf_date f);
   (4%nat, zf_crc f); (4%nat, zlen (zf_data f)); (4%nat, zf_uncompressed f); (2%nat, zlen (zf_name f)); (2%nat, zlen (zf_cd_extra f)); (2%nat, zlen (zf_comment f));
   (2%nat, zf_disk f); (2%nat, zf_internal f); (4%nat, zf_external f); (4%nat, off)].
Definition central_bytes (off : Z) (f : zfile) : list byte := fields (central_fields off f) ++ zf_name f ++ zf_cd_extra f ++ zf_comment f.

Definition locals (fs : list zfile) : list byte := fs ≫= local_bytes.
Fixpoint centrals (fs : list zfile) (off : Z) : list byte :=
  match fs with [] => [] | f :: fs => central_bytes off f ++ centrals fs (off + zlen (local_bytes f)) end.

Definition end_fields (fs : list zfile) (comment : list byte) : list (nat * Z) :=
  [(4%nat, END_OF_CD_RECORD_MAGIC); (2%nat, 0); (2%nat, 0); (2%nat, zlen fs); (2%nat, zlen fs); (4%nat, zlen (centrals fs 0)); (4%nat, zlen (locals fs)); (2%nat, zlen comment)].

Definition zip_image (fs : list zfile) (comment : list byte) : list byte :=
  locals fs ++ centrals fs 0 ++ fields (end_fields fs comment) ++ comment.

(** Bytes behind the record do not look like another one. *)
Definition quiet (fs : list zfile) (comment : list byte) : Prop :=
  forall k, 0 < k <= zlen comment -> load32 (fields (end_fields fs comment) ++ comment) k <> Some END_OF_CD_RECORD_MAGIC.

Lemma fields_app l l' : fields (l ++ l') = fields l ++ fields l'.
Proof. apply bind_app. Qed.

Lemma zlen_fields l : zlen (fields l) = foldr (fun '(n, _) s => Z.of_nat n + s) 0 l.
Proof. induction l as [| [n v] l IH]; [done |]. cbn. rewrite zlen_app, zlen_le_split. fold (fields l). by rewrite IH. Qed.

(** Reading field [i]. *)
Lemma load_field pre l post (i : nat) n v off : l !! i = Some (n, v) -> off = zlen pre + zlen (fields (take i l)) -> 0 <= v < 2 ^ (8 * Z.of_nat n) ->
  load n (pre ++ fields l ++ post) off = Some v.
Proof.
  intros Hi Ho Hv. rewrite <- (take_drop_middle l i _ Hi), fields_app. change (fields ((n, v) :: ?l)) with (le_split n v ++ fields l).
  rewrite <- !app_assoc, app_assoc. apply load_app_le; [by rewrite zlen_app | done].
Qed.

Lemma zlen_local f : zlen (local_bytes f) = 30 + zlen (zf_name f) + zlen (zf_extra f) + zlen (zf_data f).
Proof. unfold local_bytes. rewrite !zlen_app, zlen_fields. cbn. lia. Qed.

Lemma zlen_central off f : zlen (central_bytes off f) = 46 + zlen (zf_name f) + zlen (zf_cd_extra f) + zlen (zf_comment f).
Proof. unfold central_bytes. rewrite !zlen_app, zlen_fields. cbn. lia. Qed.

(** Reading a field of the struct at [p], whose fields [l] are in memory. *)
Ltac read_field pre l post i :=
  let H := fresh "H" in
  match goal with |- context [load ?n (data ?a) ?p] =>
    match eval cbn in (l !! i) with
    | Some (_, ?v) => assert (load n (data a) p = Some v) as H;
        [match goal with E : data a = _ |- _ => rewrite E end; apply (load_field pre l post i); [reflexivity | rewrite zlen_fields; cbn; lia | first [split; [discriminate | reflexivity] | cbn; lia]]
        | rewrite H; clear H; cbn [mbind option_bind]]
    end
  end.

Definition entry_of (f : zfile) (off : Z) : zip_entry :=
  {| e_compression := zf_compression f; e_name := off + 30; e_name_length := zlen (zf_name f); e_data := off + 30 + zlen (zf_name f) + zlen (zf_extra f);
     e_data_length := zlen (zf_data f); e_data_offset := off + 30 + zlen (zf_name f) + zlen (zf_extra f) |}.

Section Written.
Context (a : zip_archive) (Ha : archive_ok a).

Lemma get_entry_local pre f post : data a = pre ++ local_bytes f ++ post -> zfile_ok f -> unsupported (zf_flags f) = false ->
  get_entry_at_offset a (zlen pre) = Some (0, Some (entry_of f (zlen pre))).
Proof.
  intros Ed [F1 F2 F3 F4 F5 F6 F7] Hu. pose proof (ao_size _ Ha) as Hsz. pose proof (ao_limit _ Ha) as Hlim. rewrite Ed, !zlen_app, zlen_local in Hsz.
  pose proof (zlen_nonneg pre). pose proof (zlen_nonneg post). pose proof (zlen_nonneg (zf_name f)). pose proof (zlen_nonneg (zf_extra f)). pose proof (zlen_nonneg (zf_data f)).
  unfold local_bytes in Ed. rewrite <- !app_assoc in Ed. set (rest := zf_name f ++ _) in Ed.
  unfold get_entry_at_offset, local_file_header_at_offset, SIZEOF_LFH. rewrite check_access_ok by lia.
  read_field pre (local_fields f) rest 0%nat. rewrite Z.eqb_refl. rewrite (u32_id (zlen pre + 30)) by lia.
  read_field pre (local_fields f) rest 2%nat. rewrite Hu. read_field pre (local_fields f) rest 9%nat. rewrite check_access_ok by lia.
  rewrite (u32_id (zlen pre + 30 + _)) by lia. read_field pre (local_fields f) rest 10%nat. rewrite check_access_ok by lia.
  rewrite (u32_id (zlen pre + 30 + _ + _)) by lia. read_field pre (local_fields f) rest 7%nat. rewrite check_access_ok by lia.
  read_field pre (local_fields f) rest 3%nat. done.
Qed.

(** The first supported file with the name, and where its header is. *)
Fixpoint zip_find (fs : list zfile) (off : Z) (s : list byte) : option (zfile * Z) :=
  match fs with
  | [] => None
  | f :: fs => if negb (unsupported (zf_flags f)) && bool_decide (zf_name f = s) then Some (f, off) else zip_find fs (off + zlen (local_bytes f)) s
  end.

Lemma same_bytes_name s t pre name post : zlen s = zlen name ->
  same_bytes (s ++ NUL :: t) 0 (pre ++ name ++ post) (zlen pre) (Z.to_nat (zlen s)) = Some (bool_decide (name = s)).
Proof.
  intros E. unfold same_bytes. rewrite bytes_at_start by (unfold zlen; lia). cbn [mbind option_bind].
  rewrite (bytes_at_app pre name) by (done || unfold zlen in *; lia). cbn [mbind option_bind]. f_equal. apply bool_decide_ext. split; congruence.
Qed.

Lemma find_entry_written s t fs : forall pre post off lpre lpost, Forall zfile_ok fs -> data a = pre ++ centrals fs off ++ post ->
  lpre ++ locals fs ++ lpost = data a -> zlen lpre = off ->
  find_entry_loop (length fs) a (zlen pre) (s ++ NUL :: t) (zlen s) =
    Some match zip_find fs off s with Some (f, o) => (0, Some (entry_of f o)) | None => (- ENOENT, None) end.
Proof.
  induction fs as [| f fs IH]; intros pre post off lpre lpost Hok Ed El Ho; [done |]. apply Forall_cons in Hok as [Hf Hok]. pose proof Hf as [F1 F2 F3 F4 F5 F6 F7].
  pose proof (ao_size _ Ha) as Hsz. pose proof (ao_limit _ Ha) as Hlim. cbn [centrals] in Ed. change (locals (f :: fs)) with (local_bytes f ++ locals fs) in El.
  pose proof (zlen_nonneg pre). pose proof (zlen_nonneg post). pose proof (zlen_nonneg (zf_name f)). pose proof (zlen_nonneg (zf_cd_extra f)). pose proof (zlen_nonneg (zf_comment f)).
  set (more := centrals fs _) in *. pose proof (zlen_nonneg more). pose proof (zlen_nonneg lpre).
  assert (zlen lpre < 2 ^ 32). { rewrite <- Hsz, <- El, !zlen_app, zlen_local in Hlim. pose proof (zlen_nonneg lpost). pose proof (zlen_nonneg (locals fs)).
    pose proof (zlen_nonneg (zf_extra f)). pose proof (zlen_nonneg (zf_data f)). lia. }
  assert (zlen pre + 46 + zlen (zf_name f) + zlen (zf_cd_extra f) + zlen (zf_comment f) <= size a) as Hle by (rewrite <- Hsz, Ed, !zlen_app, zlen_central; lia).
  cbn [length find_entry_loop zip_find]. pose proof Ed as Ed0. unfold central_bytes in Ed. rewrite <- !app_assoc in Ed. set (rest := zf_name f ++ _) in Ed.
  unfold SIZEOF_CDFH. rewrite check_access_ok by lia. clear Ed0. read_field pre (central_fields off f) rest 0%nat. rewrite Z.eqb_refl. cbn [negb].
  rewrite (u32_id (zlen pre + 46)) by lia. read_field pre (central_fields off f) rest 10%nat. rewrite check_access_ok by lia.
  read_field pre (central_fields off f) rest 3%nat.
  assert ((if negb (unsupported (zf_flags f)) && (zlen s =? zlen (zf_name f)) then same_bytes (s ++ NUL :: t) 0 (data a) (zlen pre + 46) (Z.to_nat (zlen s)) else Some false) =
    Some (negb (unsupported (zf_flags f)) && bool_decide (zf_name f = s))) as ->.
  { destruct (negb _); [| done]. cbn [andb]. destruct (Z.eqb_spec (zlen s) (zlen (zf_name f))) as [Es | Hne].
    - rewrite Ed, app_assoc. unfold rest. assert (zlen pre + 46 = zlen (pre ++ fields (central_fields off f))) as -> by (rewrite zlen_app, zlen_fields; done). by apply same_bytes_name.
    - rewrite bool_decide_false; [done |]. intros E. by rewrite E in Hne. }
  cbn [mbind option_bind]. destruct (negb _ && _) eqn:Efound.
  - apply andb_prop in Efound as [Hu%negb_true_iff _]. read_field pre (central_fields off f) rest 16%nat. rewrite <- Ho. apply (get_entry_local lpre f (locals fs ++ lpost)); [| done | done].
    by rewrite <- El, <- !app_assoc.
  - read_field pre (central_fields off f) rest 11%nat. read_field pre (central_fields off f) rest 12%nat.
    rewrite (u32_id (zlen pre + 46 + _)), (u32_id (_ + zlen (zf_cd_extra f))), (u32_id (_ + zlen (zf_comment f))) by lia.
    replace (zlen pre + 46 + zlen (zf_name f) + zlen (zf_cd_extra f) + zlen (zf_comment f)) with (zlen (pre ++ central_bytes off f)) by (rewrite zlen_app, zlen_central; lia).
    apply (IH _ post _ (lpre ++ local_bytes f) lpost); [done | | by rewrite <- El, <- !app_assoc | by rewrite zlen_app, Ho].
    rewrite Ed. unfold rest, central_bytes. by rewrite <- !app_assoc.
Qed.
End Written.

(** ** The end record of a written archive *)

Lemma zip_find_spec fs : forall off s, match List.find (fun f => negb (unsupported (zf_flags f)) && bool_decide (zf_name f = s)) fs with
  | Some f => exists pre post, locals fs = pre ++ local_bytes f ++ post /\ zip_find fs off s = Some (f, off + zlen pre)
  | None => zip_find fs off s = None
  end.
Proof.
  induction fs as [| f fs IH]; intros off s; [done |]. cbn [List.find zip_find]. destruct (_ && _).
  - exists [], (locals fs). split; [done |]. change (zlen (@nil byte)) with 0. by rewrite Z.add_0_r.
  - specialize (IH (off + zlen (local_bytes f)) s). destruct (List.find _ fs) as [g |]; [| done]. destruct IH as (pre & post & E & ->).
    exists (local_bytes f ++ pre), post. change (locals (f :: fs)) with (local_bytes f ++ locals fs). rewrite E, <- app_assoc. split; [done |]. rewrite zlen_app. do 2 f_equal. lia.
Qed.

Section Image.
Context (fs : list zfile) (comment : list byte).
Context (Hcount : zlen fs < 2 ^ 16) (Hcomment : zlen comment < 2 ^ 16) (Hquiet : quiet fs comment).
Context (Hsize : zlen (zip_image fs comment) < 2 ^ 32).

Notation body := (locals fs ++ centrals fs 0).
Definition found_archive : zip_archive := {| data := zip_image fs comment; size := zlen (zip_image fs comment); cd_offset := zlen (locals fs); cd_records := zlen fs |}.

Lemma zlen_zip_image : zlen (zip_image fs comment) = zlen (locals fs) + zlen (centrals fs 0) + 22 + zlen comment.
Proof. unfold zip_image. rewrite !zlen_app, zlen_fields. cbn. lia. Qed.

Definition raw_archive : zip_archive := {| data := zip_image fs comment; size := zlen (zip_image fs comment); cd_offset := 0; cd_records := 0 |}.

Lemma parse_end_record : try_parse_end_of_cd raw_archive (zlen body) = Some (0, found_archive).
Proof.
  pose proof zlen_zip_image as Hz. pose proof (zlen_nonneg (locals fs)). pose proof (zlen_nonneg (centrals fs 0)). pose proof (zlen_nonneg comment). pose proof (zlen_nonneg fs).
  assert (data raw_archive = body ++ fields (end_fields fs comment) ++ comment) as Ed by (cbn; unfold zip_image; by rewrite <- !app_assoc).
  unfold try_parse_end_of_cd, SIZEOF_EOCD. rewrite zlen_app in *. rewrite check_access_ok; [| cbn; lia ..].
  assert (zlen body = zlen (locals fs) + zlen (centrals fs 0)) as Hb by apply zlen_app.
  read_field (locals fs ++ centrals fs 0) (end_fields fs comment) comment 0%nat. rewrite Z.eqb_refl. cbn [negb]. read_field (locals fs ++ centrals fs 0) (end_fields fs comment) comment 7%nat.
  cbn [size raw_archive]. rewrite Hz. replace (_ =? _) with true by lia. cbn [negb].
  read_field (locals fs ++ centrals fs 0) (end_fields fs comment) comment 3%nat. read_field (locals fs ++ centrals fs 0) (end_fields fs comment) comment 1%nat. read_field (locals fs ++ centrals fs 0) (end_fields fs comment) comment 2%nat.
  read_field (locals fs ++ centrals fs 0) (end_fields fs comment) comment 4%nat. rewrite Z.eqb_refl. cbn [c_true Z.eqb negb orb]. read_field (locals fs ++ centrals fs 0) (end_fields fs comment) comment 6%nat.
  read_field (locals fs ++ centrals fs 0) (end_fields fs comment) comment 5%nat. rewrite check_access_ok by (cbn; lia). unfold found_archive. by rewrite Hz.
Qed.

Lemma parse_comment k : 0 < k <= zlen comment -> try_parse_end_of_cd raw_archive (zlen body + k) = Some (- EINVAL, raw_archive).
Proof.
  intros Hk. pose proof zlen_zip_image as Hz. pose proof (zlen_nonneg (locals fs)). pose proof (zlen_nonneg (centrals fs 0)).
  assert (zlen body = zlen (locals fs) + zlen (centrals fs 0)) as Hb by apply zlen_app.
  unfold try_parse_end_of_cd, SIZEOF_EOCD. rewrite check_access_ok by (cbn; lia). specialize (Hquiet k Hk).
  assert (load32 (data raw_archive) (zlen body + k) = load32 (fields (end_fields fs comment) ++ comment) k) as ->.
  { cbn. unfold zip_image, load. rewrite app_assoc, bytes_at_shift by lia. done. }
  destruct (load_Some 4 (fields (end_fields fs comment) ++ comment) k) as (v & Ev & _); [lia | rewrite zlen_app, zlen_fields; cbn; lia |].
  rewrite Ev in *. cbn [mbind option_bind]. by rewrite (proj2 (Z.eqb_neq _ _)) by congruence.
Qed.

Lemma find_loop_written (k : nat) : forall fuel, (k < fuel)%nat -> Z.of_nat k <= zlen comment ->
  forall limit, limit < zlen body -> find_cd_loop fuel raw_archive (zlen body + Z.of_nat k) limit (- EINVAL) = Some (0, found_archive).
Proof.
  pose proof zlen_zip_image as Hz. pose proof (zlen_nonneg body) as Z0. assert (zlen body = zlen (locals fs) + zlen (centrals fs 0)) as Hb by apply zlen_app.
  induction k as [| k IH]; intros [| fuel] Hf Hk limit Hl; try lia; cbn [find_cd_loop]; rewrite (proj2 (Z.leb_le _ _)), (proj2 (Z.ltb_lt _ _)) by lia; cbn [andb negb Z.eqb Z.opp];
    rewrite u32_id by lia.
  - rewrite Z.add_0_r, parse_end_record. cbn [mbind option_bind]. destruct fuel; cbn [find_cd_loop]; by rewrite andb_false_r.
  - rewrite parse_comment by lia. cbn [mbind option_bind Z.eqb Z.opp Pos.eqb]. replace (zlen body + Z.of_nat (S k) - 1) with (zlen body + Z.of_nat k) by lia. apply IH; lia.
Qed.

Lemma find_cd_written : fs <> [] \/ comment <> [] -> find_cd raw_archive = Some (0, found_archive).
Proof.
  intros Hne. pose proof zlen_zip_image as Hz. assert (zlen body = zlen (locals fs) + zlen (centrals fs 0)) as Hb by apply zlen_app.
  assert (0 < zlen (locals fs) + zlen comment).
  { pose proof (zlen_nonneg (locals fs)). destruct Hne as [Hne | Hne]; cycle 1; [destruct comment; [done |]; rewrite zlen_cons; pose proof (zlen_nonneg l); lia |].
    pose proof (zlen_nonneg comment). destruct fs as [| f fs']; [done |]. change (locals (f :: fs')) with (local_bytes f ++ locals fs'). rewrite zlen_app, zlen_local.
    pose proof (zlen_nonneg (locals fs')). pose proof (zlen_nonneg (zf_name f)). pose proof (zlen_nonneg (zf_extra f)). pose proof (zlen_nonneg (zf_data f)). lia. }
  pose proof (zlen_nonneg (centrals fs 0)). pose proof (zlen_nonneg comment).
  unfold find_cd, SIZEOF_EOCD. cbn [size raw_archive]. rewrite (proj2 (Z.leb_gt _ _)) by lia. replace (zlen (zip_image fs comment) - 22) with (zlen body + Z.of_nat (length comment)) by (unfold zlen in *; lia).
  apply find_loop_written; unfold zlen in *; lia.
Qed.
End Image.

(** C14: files survive a round trip through a ZIP archive.  An archive of fewer
    than 65536 files, with extra fields and comments, of lengths the fields of
    the format can hold, smaller than 4 GiB, in which the magic number of the end record does not
    occur again behind the one at the start of that record, is opened unless the system refuses, with one exception:
    the archive without files and without a comment is refused with -EINVAL.  In an
    archive that was opened, every name finds the first file with this name
    that is neither encrypted nor streamed, with exactly its data and
    compression method, and other names are not found. *)
Theorem zip_roundtrip e w fs comment : oe_file e = zip_image fs comment -> oe_lseek e = zlen (zip_image fs comment) -> zlen (zip_image fs comment) < 2 ^ 32 ->
  0 <= oe_open e -> oe_mmap e = 0 -> oe_malloc e = true ->
  Forall zfile_ok fs -> zlen fs < 2 ^ 16 -> zlen comment < 2 ^ 16 -> quiet fs comment ->
  if decide (fs = [] /\ comment = []) then exists w', zip_archive_open e w = Some (inl (- EINVAL), w') else
  exists a w', zip_archive_open e w = Some (inr a, w') /\
    forall s t, NUL ∉ s ->
      match List.find (fun f => negb (unsupported (zf_flags f)) && bool_decide (zf_name f = s)) fs with
      | Some f => exists x, zip_archive_find_entry a (s ++ NUL :: t) = Some (0, Some x) /\ e_compression x = zf_compression f /\
          bytes_at (oe_file e) (e_name x) (Z.to_nat (e_name_length x)) = Some s /\
          bytes_at (oe_file e) (e_data x) (Z.to_nat (e_data_length x)) = Some (zf_data f) /\ e_data_offset x = e_data x
      | None => zip_archive_find_entry a (s ++ NUL :: t) = Some (- ENOENT, None)
      end.
Proof.
  intros Ef El Hsize Hfd Hmm Hmal Hok Hc Hcm Hq. destruct (decide (fs = [] /\ comment = [])) as [[-> ->] | Hne0].
  { unfold zip_archive_open. rewrite (proj2 (Z.ltb_ge _ _)), El, Hmm, Hmal, Ef by done. by eexists. }
  assert (fs <> [] \/ comment <> []) as Hne by (destruct fs, comment; [by destruct Hne0 | by right | by left..]). clear Hne0.
  exists (found_archive fs comment). unfold zip_archive_open. rewrite (proj2 (Z.ltb_ge _ _)) by done.
  pose proof (zlen_nonneg (zip_image fs comment)). rewrite El, (proj2 (Z.eqb_neq _ _)) by lia. unfold UINT32_MAX. rewrite (proj2 (Z.ltb_ge _ _)) by lia. cbn [orb].
  rewrite Hmm, Hmal, Ef. cbn [Z.eqb negb]. fold (raw_archive fs comment). rewrite find_cd_written by done. cbn [mbind option_bind]. change (c_true 0) with false. cbv iota.
  eexists. split; [done |]. intros s t Hs. unfold zip_archive_find_entry. rewrite strlen_app_nul by done. cbn [mbind option_bind cd_records cd_offset found_archive].
  assert (archive_ok (found_archive fs comment)) as Ha. { split; cbn; [done | done | | apply zlen_nonneg]. rewrite zlen_zip_image in *. pose proof (zlen_nonneg (locals fs)). pose proof (zlen_nonneg (centrals fs 0)). pose proof (zlen_nonneg comment). lia. }
  pose proof (find_entry_written (found_archive fs comment) Ha s t fs (locals fs) (fields (end_fields fs comment) ++ comment) 0 [] (centrals fs 0 ++ fields (end_fields fs comment) ++ comment) Hok eq_refl eq_refl eq_refl) as HF.
  assert (length fs = Z.to_nat (zlen fs)) as Hn by (unfold zlen; lia). rewrite Hn in HF. clear Hn.
  pose proof (zip_find_spec fs 0 s) as Hz. destruct (List.find _ fs) as [f |] eqn:Efind; [| by rewrite Hz in HF].
  destruct Hz as (pre & post & Epre & Hz). rewrite Hz, Z.add_0_l in HF. eexists. split; [exact HF |]. apply List.find_some in Efind as [_ [_ Hn%bool_decide_eq_true]%andb_prop].
  cbn [entry_of e_compression e_name e_name_length e_data e_data_length e_data_offset]. unfold zip_image. rewrite Epre. unfold local_bytes. split; [done |]. split; [| split; [| done]].
  - rewrite <- Hn, <- !app_assoc, app_assoc. apply bytes_at_app; [rewrite zlen_app, zlen_fields; cbn; lia | unfold zlen; lia].
  - match goal with |- bytes_at ?m _ _ = _ => replace m with ((pre ++ fields (local_fields f) ++ zf_name f ++ zf_extra f) ++ zf_data f ++ post ++
      centrals fs 0 ++ fields (end_fields fs comment) ++ comment) by (by rewrite <- !app_assoc) end. apply bytes_at_app; [rewrite !zlen_app, zlen_fields; cbn; lia | unfold zlen; lia].
Qed.

(** ** An example: two files, of which the first is encrypted *)

Definition sample_file (flags : Z) (s : string) : zfile :=
  {| zf_name := str "lib.so"; zf_data := str s; zf_flags := flags; zf_compression := 0; zf_extra := str "xx"; zf_cd_extra := []; zf_comment := str "c";
     zf_version := 20; zf_min_version := 10; zf_time := 0; zf_date := 0; zf_crc := 7; zf_uncompressed := 5; zf_disk := 0; zf_internal := 0; zf_external := 0 |}.
Definition sample_files : list zfile := [sample_file 1 "secret"; sample_file 0 "plain"].
Definition sample_open (file : list byte) : open_env := {| oe_open := 3; oe_lseek := zlen file; oe_mmap := 0; oe_malloc := true; oe_file := file |}.
Definition nothing_held : held := {| fds := []; mappings := []; archives := 0 |}.

Lemma sample_quiet : quiet sample_files (str "bye").
Proof.
  intros k Hk. change (zlen (str "bye")) with 3 in Hk. assert (k = 1 \/ k = 2 \/ k = 3) as [-> | [-> | ->]] by lia; vm_compute; discriminate.
Qed.

Lemma zip_safe_witness : let file := zip_image sample_files (str "bye") in
  exists r w', zip_archive_open (sample_open file) nothing_held = Some (r, w') /\
    match r with
    | inl err => w' = nothing_held /\ (3 < 0 -> err = 3)
    | inr a => data a = file /\ w' = {| fds := []; mappings := [zlen file]; archives := 0 + 1 |} /\ zip_archive_close a w' = nothing_held /\
        forall s t, NUL ∉ s -> exists r, zip_archive_find_entry a (s ++ NUL :: t) = Some r /\ lookup_ok a r
    end.
Proof. intros file. apply (zip_safe (sample_open file) nothing_held); [by right | apply not_elem_of_nil]. Defined.

Lemma zip_roundtrip_witness : let file := zip_image sample_files (str "bye") in
  exists a w', zip_archive_open (sample_open file) nothing_held = Some (inr a, w') /\
    forall s t, NUL ∉ s ->
      match List.find (fun f => negb (unsupported (zf_flags f)) && bool_decide (zf_name f = s)) sample_files with
      | Some f => exists x, zip_archive_find_entry a (s ++ NUL :: t) = Some (0, Some x) /\ e_compression x = zf_compression f /\
          bytes_at file (e_name x) (Z.to_nat (e_name_length x)) = Some s /\
          bytes_at file (e_data x) (Z.to_nat (e_data_length x)) = Some (zf_data f) /\ e_data_offset x = e_data x
      | None => zip_archive_find_entry a (s ++ NUL :: t) = Some (- ENOENT, None)
      end.
Proof.
  intros file. apply (zip_roundtrip (sample_open file) nothing_held sample_files (str "bye"));
    [done | done | done | done | done | done | by repeat constructor | done | done | apply sample_quiet].
Defined.

(** An archive without files is refused, though it is well-formed. *)
Lemma empty_zip_refused : zip_archive_open (sample_open (zip_image [] [])) nothing_held = Some (inl (- EINVAL), nothing_held).
Proof. reflexivity. Qed.
