(* ===== verification/Nlattr.v ===== *)
(** Netlink attributes: src/lib/libbpf/src/nlattr.c and nlattr.h.

    A message is a stretch of memory; a pointer to an attribute is its offset.
    An attribute is a length and a type of 16 bits each, the payload, and
    padding to four bytes. *)
From S2P Require Import Prelude.
From S2P Require Import CLib.

Definition NLA_HDRLEN : Z := 4.
Definition NLA_ALIGN (len : Z) : Z := Z.land (len + 3) (Z.lnot 3).
Definition NLA_F_NESTED : Z := Z.shiftl 1 15.
Definition NLA_TYPE_MASK : Z := 0x3fff.

(** [struct nlmsghdr], 16 bytes. *)
Definition NLMSG_HDRLEN : Z := 16.
Definition NLMSG_ALIGN (len : Z) : Z := Z.land (len + 3) (Z.lnot 3).
Definition NLMSG_LENGTH (len : Z) : Z := len + NLMSG_HDRLEN.

Definition LIBBPF_NLA_UNSPEC : Z := 0.
Definition LIBBPF_NLA_U32 : Z := 3.
Definition LIBBPF_NLA_STRING : Z := 5.
Definition LIBBPF_NLA_TYPE_MAX : Z := 8.

(** Indexed by the types from UNSPEC to NESTED. *)
Definition nla_attr_minlen : list Z := [0; 1; 2; 4; 8; 1; 0; 0; 0].

Record libbpf_nla_policy := { p_type : Z; p_minlen : Z; p_maxlen : Z }.

(** ** Reading *)

Definition libbpf_nla_data (nla : Z) : Z := nla + NLA_HDRLEN.
Definition libbpf_nla_len (m : list byte) (nla : Z) : option Z := len ← load16 m nla; Some (len - NLA_HDRLEN).

Definition libbpf_nla_getattr_u8 (m : list byte) (nla : Z) : option Z := load8 m (libbpf_nla_data nla).
Definition libbpf_nla_getattr_u16 (m : list byte) (nla : Z) : option Z := load16 m (libbpf_nla_data nla).
Definition libbpf_nla_getattr_u32 (m : list byte) (nla : Z) : option Z := load32 m (libbpf_nla_data nla).
Definition libbpf_nla_getattr_u64 (m : list byte) (nla : Z) : option Z := load64 m (libbpf_nla_data nla).

Definition nla_ok (m : list byte) (nla remaining : Z) : option bool :=
  if remaining <? 4 then Some false else
  len ← load16 m nla;
  Some ((4 <=? len) && (len <=? remaining)).

Definition nla_next (m : list byte) (nla remaining : Z) : option (Z * Z) :=
  len ← load16 m nla;
  let totlen := NLA_ALIGN len in
  Some (nla + totlen, remaining - totlen).

Definition nla_type (m : list byte) (nla : Z) : option Z :=
  t ← load16 m (nla + 2); Some (Z.land t NLA_TYPE_MASK).

Definition validate_nla (m : list byte) (nla maxtype : Z) (policy : list libbpf_nla_policy) : option Z :=
  type ← nla_type m nla;
  if (type <? 0) || (maxtype <? type) then Some 0 else
  pt ← policy !! Z.to_nat type;
  if LIBBPF_NLA_TYPE_MAX <? p_type pt then Some 0 else
  minlen ← (if c_true (p_minlen pt) then Some (p_minlen pt)
            else if negb (p_type pt =? LIBBPF_NLA_UNSPEC) then nla_attr_minlen !! Z.to_nat (p_type pt)
            else Some 0);
  len ← libbpf_nla_len m nla;
  if u32 len <? minlen then Some (-1) else
  if c_true (p_maxlen pt) && (p_maxlen pt <? len) then Some (-1) else
  if p_type pt =? LIBBPF_NLA_STRING then
    b ← load8 m (libbpf_nla_data nla + len - 1);
    Some (if negb (b =? 0) then -1 else 0)
  else Some 0.

(** The loop over the attributes; [tb] are the pointers found. *)
Fixpoint nla_parse_loop (fuel : nat) (m : list byte) (maxtype : Z) (policy : option (list libbpf_nla_policy))
    (nla rem : Z) (tb : list (option Z)) : option (Z * list (option Z)) :=
  ok ← nla_ok m nla rem;
  if negb ok then Some (0, tb) else
  match fuel with
  | O => None
  | S fuel =>
    type ← nla_type m nla;
    let next tb := '(nla, rem) ← nla_next m nla rem; nla_parse_loop fuel m maxtype policy nla rem tb in
    if maxtype <? type then next tb else
    err ← (match policy with Some p => validate_nla m nla maxtype p | None => Some 0 end);
    if err <? 0 then Some (err, tb) else
    if zlen tb <=? type then None else next (<[Z.to_nat type := Some nla]> tb)
  end.

Definition libbpf_nla_parse (m : list byte) (maxtype head len : Z) (policy : option (list libbpf_nla_policy)) :
    option (Z * list (option Z)) :=
  nla_parse_loop (Z.to_nat len) m maxtype policy head len (replicate (Z.to_nat (maxtype + 1)) None).

Definition libbpf_nla_parse_nested (m : list byte) (maxtype nla : Z) (policy : option (list libbpf_nla_policy)) :
    option (Z * list (option Z)) :=
  len ← libbpf_nla_len m nla;
  libbpf_nla_parse m maxtype (libbpf_nla_data nla) len policy.

Definition NLM_F_CAPPED : Z := 0x100.
Definition NLM_F_ACK_TLVS : Z := 0x200.
Definition NLMSGERR_ATTR_MSG : Z := 1.
Definition NLMSGERR_ATTR_MAX : Z := 3.

Definition extack_policy : list libbpf_nla_policy :=
  [{| p_type := 0; p_minlen := 0; p_maxlen := 0 |};
   {| p_type := LIBBPF_NLA_STRING; p_minlen := 0; p_maxlen := 0 |};
   {| p_type := LIBBPF_NLA_U32; p_minlen := 0; p_maxlen := 0 |};
   {| p_type := 0; p_minlen := 0; p_maxlen := 0 |}].

(** What is printed: nothing, that the attributes are malformed, or the
    message, given as the place it lies at, [None] the null pointer. *)
Inductive extack := Silent | Malformed | Printed (errmsg : option Z).

Definition libbpf_nla_dump_errormsg (m : list byte) (nlh : Z) : option extack :=
  flags ← load16 m (nlh + 6);
  if negb (c_true (Z.land flags NLM_F_ACK_TLVS)) then Some Silent else
  let err := nlh + NLMSG_HDRLEN in
  hlen ← (if negb (c_true (Z.land flags NLM_F_CAPPED)) then
            inner ← load32 m (err + 4); Some (20 + s32 (inner - NLMSG_HDRLEN))
          else Some 20);
  let attr := err + hlen in
  nlmsg_len ← load32 m nlh;
  let alen := s32 (nlh + nlmsg_len - attr) in
  '(r, tb) ← libbpf_nla_parse m NLMSGERR_ATTR_MAX attr alen (Some extack_policy);
  if negb (r =? 0) then Some Malformed else
  t ← tb !! Z.to_nat NLMSGERR_ATTR_MSG;
  Some (Printed (option_map libbpf_nla_data t)).

(** ** Writing *)

(** [sizeof (struct libbpf_nla_req)]: the header, the largest member of the
    union, and the buffer. *)
Definition sizeof_req : Z := 16 + 20 + 128.

Definition nlmsg_len_of (req : list byte) : option Z := load32 req 0.

Definition req_tail (req : list byte) : option Z := len ← nlmsg_len_of req; Some (NLMSG_ALIGN len).

Definition nlattr_add (req : list byte) (type : Z) (data : option (list byte)) (len : Z) : option (Z * list byte) :=
  nlmsg_len ← nlmsg_len_of req;
  if sizeof_req <? NLMSG_ALIGN nlmsg_len + NLA_ALIGN (NLA_HDRLEN + len) then Some (- EMSGSIZE, req) else
  if negb (Bool.eqb (bool_decide (is_Some data)) (c_true len)) then Some (- EINVAL, req) else
  nla ← req_tail req;
  req ← store req (nla + 2) (le_split 2 type);
  req ← store req nla (le_split 2 (NLA_HDRLEN + len));
  req ← (match data with
         | Some d => bs ← bytes_at d 0 (Z.to_nat len); store req (nla + NLA_HDRLEN) bs
         | None => Some req
         end);
  nla_len ← load16 req nla;
  req ← store req 0 (le_split 4 (NLMSG_ALIGN nlmsg_len + NLA_ALIGN nla_len));
  Some (0, req).

(** [None] is the null pointer. *)
Definition nlattr_begin_nested (req : list byte) (type : Z) : option (option Z * list byte) :=
  tail ← req_tail req;
  '(err, req) ← nlattr_add req (Z.lor type NLA_F_NESTED) None 0;
  Some (if c_true err then None else Some tail, req).

Definition nlattr_end_nested (req : list byte) (tail : Z) : option (list byte) :=
  t ← req_tail req; store req tail (le_split 2 (t - tail)).

(** ** Reading is safe *)

Lemma align4 n : Z.land (n + 3) (Z.lnot 3) = 4 * ((n + 3) / 4).
Proof.
  change (Z.lnot 3) with (Z.lnot (Z.ones 2)). rewrite <- Z.ldiff_land, Z.ldiff_ones_r by lia.
  rewrite Z.shiftr_div_pow2, Z.shiftl_mul_pow2 by lia. change (2 ^ 2) with 4. lia.
Qed.

Lemma NLA_ALIGN_spec n : NLA_ALIGN n = 4 * ((n + 3) / 4) /\ n <= NLA_ALIGN n < n + 4.
Proof. unfold NLA_ALIGN. rewrite align4. split; [done |]. Z.to_euclidean_division_equations. lia. Qed.

(** [p] is an attribute of type [t] in [m], inside [lo] to [hi]. *)
Definition attr_in (m : list byte) (lo hi t p : Z) : Prop :=
  lo <= p /\ exists n, load16 m p = Some n /\ nla_type m p = Some t /\ 4 <= n /\ p + n <= hi.

Definition policy_ok (maxtype : Z) (policy : list libbpf_nla_policy) : Prop :=
  zlen policy = maxtype + 1 /\ Forall (fun p => 0 <= p_type p /\ 0 <= p_minlen p) policy.

(** The attributes the policy accepts. *)
Definition policy_accepts (m : list byte) (maxtype p : Z) (policy : option (list libbpf_nla_policy)) : Prop :=
  match policy with None => True | Some pol => validate_nla m p maxtype pol = Some 0 end.

Lemma load16_ok m off : 0 <= off -> off + 2 <= zlen m -> exists v, load16 m off = Some v /\ 0 <= v < 2 ^ 16.
Proof. intros H1 H2. destruct (load_Some 2 m off H1 ltac:(lia)) as (v & -> & Hv). exists v. split; [done |]. lia. Qed.

Lemma validate_nla_safe m lo hi t p maxtype policy : attr_in m lo hi t p -> 0 <= lo -> hi <= zlen m ->
  0 <= t <= maxtype -> policy_ok maxtype policy ->
  validate_nla m p maxtype policy = Some 0 \/ validate_nla m p maxtype policy = Some (-1).
Proof.
  intros (Hp & n & Hn & Ht & H4 & Hhi) Hlo Hz Ht2 [Hpl Hpol]. unfold validate_nla. rewrite Ht. cbn [mbind option_bind].
  rewrite (proj2 (Z.ltb_ge t 0)), (proj2 (Z.ltb_ge maxtype t)) by lia. cbn [orb].
  destruct (lookup_lt_is_Some_2 policy (Z.to_nat t)) as [pt Ept]; [unfold zlen in Hpl; lia |].
  eapply Forall_lookup_1 in Hpol as [Hty Hmin]; [| exact Ept]. rewrite Ept. cbn [mbind option_bind].
  destruct (Z.ltb_spec LIBBPF_NLA_TYPE_MAX (p_type pt)) as [| Hmax]; [by left |]. unfold LIBBPF_NLA_TYPE_MAX in Hmax.
  assert (exists minlen, (if c_true (p_minlen pt) then Some (p_minlen pt)
            else if negb (p_type pt =? LIBBPF_NLA_UNSPEC) then nla_attr_minlen !! Z.to_nat (p_type pt)
            else Some 0) = Some minlen /\ (p_type pt = LIBBPF_NLA_STRING -> 1 <= minlen)) as (minlen & -> & Hstr).
  { unfold c_true. destruct (Z.eqb_spec (p_minlen pt) 0); cbn [negb]; [| eexists; split; [done | lia]].
    assert (p_type pt = 0 \/ p_type pt = 1 \/ p_type pt = 2 \/ p_type pt = 3 \/ p_type pt = 4 \/ p_type pt = 5 \/
      p_type pt = 6 \/ p_type pt = 7 \/ p_type pt = 8) as Hc by lia.
    repeat destruct Hc as [-> | Hc]; try rewrite Hc; eexists; split; done. }
  cbn [mbind option_bind]. unfold libbpf_nla_len. rewrite Hn. cbn [mbind option_bind].
  apply load_inv in Hn as (_ & _ & Hn). rewrite u32_id by (unfold NLA_HDRLEN; lia).
  destruct (Z.ltb_spec (n - NLA_HDRLEN) minlen); [by right |]. destruct (c_true _ && _); [by right |].
  destruct (Z.eqb_spec (p_type pt) LIBBPF_NLA_STRING) as [Es |]; [| by left]. specialize (Hstr Es).
  destruct (load_Some 1 m (libbpf_nla_data p + (n - NLA_HDRLEN) - 1)) as (b & -> & _);
    [unfold libbpf_nla_data, NLA_HDRLEN in *; lia.. |]. cbn [mbind option_bind]. destruct (negb _); [by right | by left].
Qed.

(** The pointers found so far. *)
Definition tb_ok (m : list byte) (lo hi maxtype : Z) (policy : option (list libbpf_nla_policy)) (tb : list (option Z)) : Prop :=
  zlen tb = maxtype + 1 /\ forall t p, tb !! t = Some (Some p) ->
    attr_in m lo hi (Z.of_nat t) p /\ policy_accepts m maxtype p policy.

Lemma nla_type_ok m p : 0 <= p -> p + 4 <= zlen m -> exists t, nla_type m p = Some t /\ 0 <= t.
Proof.
  intros H1 H2. unfold nla_type. destruct (load16_ok m (p + 2)) as (v & -> & Hv); [lia.. |]. cbn [mbind option_bind].
  eexists. split; [done |]. apply Z.land_nonneg. lia.
Qed.

Lemma nla_parse_loop_safe m lo hi maxtype policy : 0 <= lo -> 0 <= maxtype ->
  match policy with Some pol => policy_ok maxtype pol | None => True end ->
  forall fuel nla rem tb, (Z.to_nat rem <= fuel)%nat -> lo <= nla -> nla + rem = hi -> (0 <= rem -> hi <= zlen m) ->
  tb_ok m lo hi maxtype policy tb ->
  exists err tb', nla_parse_loop fuel m maxtype policy nla rem tb = Some (err, tb') /\ (err = 0 \/ err = -1) /\
    tb_ok m lo hi maxtype policy tb'.
Proof.
  intros Hlo Hmt Hpol. induction fuel as [| fuel IH]; intros nla rem tb Hf Hnla Hrem Hz Htb; cbn [nla_parse_loop]; unfold nla_ok.
  { rewrite (proj2 (Z.ltb_lt rem 4)) by lia. cbn. eauto 10. }
  destruct (Z.ltb_spec rem 4); [cbn; eauto 10 |]. specialize (Hz ltac:(lia)).
  destruct (load16_ok m nla) as (n & En & Hn); [lia.. |]. rewrite En. cbn [mbind option_bind].
  destruct (Z.leb_spec 4 n), (Z.leb_spec n rem); cbn [andb negb]; try (by eauto 10).
  destruct (nla_type_ok m nla ltac:(lia) ltac:(lia)) as (t & Et & Ht). rewrite Et. cbn [mbind option_bind].
  unfold nla_next. rewrite En. cbn [mbind option_bind]. destruct (NLA_ALIGN_spec n) as [_ Ha].
  assert (forall tb, tb_ok m lo hi maxtype policy tb -> exists err tb',
    nla_parse_loop fuel m maxtype policy (nla + NLA_ALIGN n) (rem - NLA_ALIGN n) tb = Some (err, tb') /\ (err = 0 \/ err = -1) /\
    tb_ok m lo hi maxtype policy tb') as Hnext.
  { intros tb1 Htb1. apply IH; [lia | lia | lia | done | done]. }
  destruct (Z.ltb_spec maxtype t); [by apply Hnext |].
  assert (attr_in m lo hi t nla) as Hin by (split; [done |]; exists n; split_and!; done || lia).
  assert (exists err, match policy with Some p => validate_nla m nla maxtype p | None => Some 0 end = Some err /\
    (err = 0 \/ err = -1) /\ (err = 0 -> policy_accepts m maxtype nla policy)) as (err & -> & Herr & Hacc).
  { destruct policy as [pol |]; [| by eauto 10].
    destruct (validate_nla_safe m lo hi t nla maxtype pol Hin Hlo Hz ltac:(lia) Hpol) as [E | E]; rewrite E;
      eexists; (split; [done |]); split; auto; intros; done. }
  cbn [mbind option_bind]. destruct (Z.ltb_spec err 0); [by eauto 10 |]. specialize (Hacc ltac:(lia)).
  destruct Htb as [Hl Htb]. rewrite (proj2 (Z.leb_gt (zlen tb) t)) by lia. apply Hnext.
  split; [unfold zlen in *; by rewrite length_insert |]. intros t' p Hp.
  apply list_lookup_insert_Some in Hp as [(<- & [= <-] & _) | (_ & Hp)]; [| by apply Htb].
  rewrite Z2Nat.id by done. done.
Qed.

Lemma parse_tb_ok m maxtype head len policy : 0 <= head -> 0 <= maxtype -> head + Z.max len 0 <= zlen m ->
  match policy with Some pol => policy_ok maxtype pol | None => True end ->
  exists err tb, libbpf_nla_parse m maxtype head len policy = Some (err, tb) /\ (err = 0 \/ err = -1) /\
    tb_ok m head (head + len) maxtype policy tb.
Proof.
  intros Hh Hm Hz Hpol. apply nla_parse_loop_safe; [done | done | done | lia | lia | done | lia |].
  split; [rewrite zlen_replicate; lia |]. intros t p Hp. apply lookup_replicate in Hp as [? _]. done.
Qed.

(** C37: parsing attributes is safe and ends.  For any bytes and any length
    given for them (also a negative one), [libbpf_nla_parse] returns, 0 or -1,
    without reading outside the stretch it was given; every entry of the table
    it fills in is null or points to an attribute of that type which lies
    inside the stretch with its whole payload, and which the policy accepts. *)
Theorem nla_parse_safe m maxtype head len policy : 0 <= head -> 0 <= maxtype -> head + Z.max len 0 <= zlen m ->
  match policy with Some pol => policy_ok maxtype pol | None => True end ->
  exists err tb, libbpf_nla_parse m maxtype head len policy = Some (err, tb) /\ (err = 0 \/ err = -1) /\
    zlen tb = maxtype + 1 /\
    forall t p, tb !! t = Some (Some p) -> attr_in m head (head + len) (Z.of_nat t) p /\ policy_accepts m maxtype p policy.
Proof.
  intros Hh Hm Hz Hpol. destruct (parse_tb_ok m maxtype head len policy Hh Hm Hz Hpol) as (err & tb & E & Herr & Hl & Htb).
  by eauto 10.
Qed.

(** An error message in an acknowledgement, as the extended acknowledgement has it. *)
Definition example_tlvs : list byte := [x08; x00; x01; x00; x62; x61; x64; x00; x08; x00; x02; x00; x01; x00; x00; x00; x03; x00].

Lemma nla_parse_safe_witness : exists err tb,
  libbpf_nla_parse example_tlvs NLMSGERR_ATTR_MAX 0 18 (Some extack_policy) = Some (err, tb) /\ (err = 0 \/ err = -1) /\
  zlen tb = 4 /\ forall t p, tb !! t = Some (Some p) ->
    attr_in example_tlvs 0 18 (Z.of_nat t) p /\ policy_accepts example_tlvs NLMSGERR_ATTR_MAX p (Some extack_policy).
Proof. apply nla_parse_safe; [done | done | done |]. split; [done |]. repeat constructor; done. Defined.

(** ** What is written is read *)

Definition pad (n : Z) : list byte := replicate (Z.to_nat (NLA_ALIGN n - n)) x00.

(** An attribute: type and payload. *)
Definition encode_attr (a : Z * list byte) : list byte :=
  le_split 2 (NLA_HDRLEN + zlen (snd a)) ++ le_split 2 (fst a) ++ snd a ++ pad (zlen (snd a)).

Definition encode_attrs (attrs : list (Z * list byte)) : list byte := attrs ≫= encode_attr.

Definition attr_ok (a : Z * list byte) : Prop := 0 <= fst a < 2 ^ 16 /\ NLA_HDRLEN + zlen (snd a) < 2 ^ 16.

(** The last attribute of a type counts. *)
Fixpoint find_last (t : Z) (attrs : list (Z * list byte)) : option (list byte) :=
  match attrs with
  | [] => None
  | (ty, pl) :: attrs' =>
    match find_last t attrs' with
    | Some pl' => Some pl'
    | None => if Z.land ty NLA_TYPE_MASK =? t then Some pl else None
    end
  end.

(** The payload of the attribute a table entry points to. *)
Definition payload (m : list byte) (e : option Z) : option (list byte) :=
  p ← e; n ← libbpf_nla_len m p; if n <? 0 then None else bytes_at m (libbpf_nla_data p) (Z.to_nat n).

Lemma zlen_pad n : zlen (pad n) = NLA_ALIGN n - n.
Proof. unfold pad. rewrite zlen_replicate. destruct (NLA_ALIGN_spec n). lia. Qed.

Lemma align_hdr n : NLA_ALIGN (NLA_HDRLEN + n) = NLA_HDRLEN + NLA_ALIGN n.
Proof.
  destruct (NLA_ALIGN_spec (NLA_HDRLEN + n)) as [-> _]. destruct (NLA_ALIGN_spec n) as [-> _]. unfold NLA_HDRLEN.
  Z.to_euclidean_division_equations. lia.
Qed.

Lemma zlen_encode_attr a : zlen (encode_attr a) = NLA_HDRLEN + NLA_ALIGN (zlen (snd a)).
Proof. unfold encode_attr. rewrite !zlen_app, !zlen_le_split, zlen_pad. unfold NLA_HDRLEN. lia. Qed.

(** The fields of an attribute in memory. *)
Lemma attr_fields pre a post : attr_ok a -> let m := pre ++ encode_attr a ++ post in
  load16 m (zlen pre) = Some (NLA_HDRLEN + zlen (snd a)) /\ load16 m (zlen pre + 2) = Some (fst a) /\
  payload m (Some (zlen pre)) = Some (snd a).
Proof.
  intros [Ht Hl] m. unfold m, encode_attr. pose proof (zlen_nonneg (snd a)). rewrite <- !app_assoc. unfold NLA_HDRLEN in *.
  assert (load16 (pre ++ le_split 2 (4 + zlen (snd a)) ++ le_split 2 (fst a) ++ snd a ++ pad (zlen (snd a)) ++ post) (zlen pre) =
    Some (4 + zlen (snd a))) as E1 by (apply load_app_le; [done | lia]).
  split_and!; [done | |].
  - rewrite (app_assoc pre). apply load_app_le; [rewrite zlen_app, zlen_le_split; lia | lia].
  - unfold payload, libbpf_nla_len, libbpf_nla_data, NLA_HDRLEN. cbn [mbind option_bind]. rewrite E1. cbn [mbind option_bind].
    rewrite (proj2 (Z.ltb_ge _ _)) by lia. rewrite (app_assoc pre), (app_assoc (pre ++ _)). apply bytes_at_app.
    + rewrite !zlen_app, !zlen_le_split. lia.
    + unfold zlen. lia.
Qed.

Lemma parse_loop_encode m maxtype attrs : 0 <= maxtype -> Forall attr_ok attrs -> forall fuel pre post tb,
  m = pre ++ encode_attrs attrs ++ post -> (length attrs <= fuel)%nat -> zlen tb = maxtype + 1 ->
  exists tb', nla_parse_loop fuel m maxtype None (zlen pre) (zlen (encode_attrs attrs)) tb = Some (0, tb') /\
    zlen tb' = maxtype + 1 /\ forall t : nat, Z.of_nat t <= maxtype ->
      match find_last (Z.of_nat t) attrs with
      | Some pl => exists e, tb' !! t = Some e /\ payload m e = Some pl
      | None => tb' !! t = tb !! t
      end.
Proof.
  intros Hm. induction 1 as [| a attrs Ha _ IH]; intros fuel pre post tb E Hf Hl.
  { exists tb. split; [| done]. destruct fuel; done. }
  destruct fuel as [| fuel]; [simpl in Hf; lia |]. cbn [length] in Hf. cbn [nla_parse_loop].
  assert (encode_attrs (a :: attrs) = encode_attr a ++ encode_attrs attrs) as Ee by done. rewrite Ee in *.
  rewrite <- app_assoc in E. destruct (attr_fields pre a (encode_attrs attrs ++ post) Ha) as (E1 & E2 & E3).
  rewrite <- E in E1, E2, E3. pose proof (zlen_encode_attr a) as Hz. pose proof (zlen_nonneg (snd a)).
  pose proof (zlen_nonneg (encode_attrs attrs)). destruct (NLA_ALIGN_spec (zlen (snd a))) as [_ Hal].
  unfold nla_ok. rewrite zlen_app, (proj2 (Z.ltb_ge _ _)), E1 by (unfold NLA_HDRLEN in *; lia). cbn [mbind option_bind].
  rewrite (proj2 (Z.leb_le 4 _)), (proj2 (Z.leb_le _ _)) by (unfold NLA_HDRLEN in *; lia). cbn [andb negb].
  unfold nla_type at 1. rewrite E2. cbn [mbind option_bind]. unfold nla_next. rewrite E1. cbn [mbind option_bind].
  rewrite align_hdr, <- Hz. replace (zlen (encode_attr a) + zlen (encode_attrs attrs) - zlen (encode_attr a))
    with (zlen (encode_attrs attrs)) by lia. rewrite <- zlen_app.
  set (ty := Z.land (fst a) NLA_TYPE_MASK). assert (0 <= ty) as Hty by (apply Z.land_nonneg; destruct Ha; lia).
  destruct a as [t0 pl]. cbn [fst snd find_last] in *. fold ty.
  destruct (Z.ltb_spec maxtype ty).
  - destruct (IH fuel (pre ++ encode_attr (t0, pl)) post tb) as (tb' & Ep & Hl' & Hp); [by rewrite E, <- app_assoc | lia | done |].
    exists tb'. split_and!; [done | done |]. intros t Ht. specialize (Hp t Ht).
    destruct (find_last (Z.of_nat t) attrs); [done |]. by rewrite (proj2 (Z.eqb_neq _ _)) by lia.
  - cbn [Z.ltb Z.compare]. rewrite (proj2 (Z.leb_gt _ _)) by lia.
    destruct (IH fuel (pre ++ encode_attr (t0, pl)) post (<[Z.to_nat ty := Some (zlen pre)]> tb)) as (tb' & Ep & Hl' & Hp);
      [by rewrite E, <- app_assoc | lia | unfold zlen in *; by rewrite length_insert |].
    exists tb'. split_and!; [done | done |]. intros t Ht. specialize (Hp t Ht).
    destruct (find_last (Z.of_nat t) attrs); [done |]. destruct (Z.eqb_spec ty (Z.of_nat t)) as [Et | Et].
    + rewrite Et, Nat2Z.id, list_lookup_insert_eq in Hp by (unfold zlen in Hl; lia). by eauto.
    + rewrite list_lookup_insert_ne in Hp by lia. done.
Qed.

Lemma length_encode_attrs attrs : (length attrs <= length (encode_attrs attrs))%nat.
Proof.
  induction attrs as [| a attrs IH]; [done |]. change (encode_attrs (a :: attrs)) with (encode_attr a ++ encode_attrs attrs).
  rewrite length_app. pose proof (zlen_encode_attr a) as Hz. destruct (NLA_ALIGN_spec (zlen (snd a))) as [_ ?].
  pose proof (zlen_nonneg (snd a)). unfold zlen, NLA_HDRLEN in *. simpl length. lia.
Qed.

(** The table has an entry for the last attribute of every type, and null
    for the types there are none of. *)
Definition reads (m : list byte) (maxtype : Z) (attrs : list (Z * list byte)) (tb : list (option Z)) : Prop :=
  forall t, 0 <= t <= maxtype -> exists e, tb !! Z.to_nat t = Some e /\
    match find_last t attrs with Some pl => payload m e = Some pl | None => e = None end.

(** What parsing finds in a stretch of encoded attributes. *)
Lemma parse_encode pre attrs post maxtype : 0 <= maxtype -> Forall attr_ok attrs ->
  exists tb, libbpf_nla_parse (pre ++ encode_attrs attrs ++ post) maxtype (zlen pre) (zlen (encode_attrs attrs)) None = Some (0, tb) /\
    reads (pre ++ encode_attrs attrs ++ post) maxtype attrs tb.
Proof.
  intros Hm Hattrs. unfold libbpf_nla_parse.
  destruct (parse_loop_encode (pre ++ encode_attrs attrs ++ post) maxtype attrs Hm Hattrs (Z.to_nat (zlen (encode_attrs attrs)))
    pre post (replicate (Z.to_nat (maxtype + 1)) None)) as (tb & E & Hl & Hp).
  - done.
  - pose proof (length_encode_attrs attrs). unfold zlen. lia.
  - rewrite zlen_replicate. lia.
  - exists tb. split; [done |]. intros t Ht. specialize (Hp (Z.to_nat t) ltac:(lia)). rewrite Z2Nat.id in Hp by lia.
    rewrite lookup_replicate_2 in Hp by lia. destruct (find_last t attrs); by eauto.
Qed.

(** The same for the attributes nested in one. *)
Lemma parse_nested_encode m nla attrs maxtype : payload m (Some nla) = Some (encode_attrs attrs) -> 0 <= maxtype -> Forall attr_ok attrs ->
  exists tb, libbpf_nla_parse_nested m maxtype nla None = Some (0, tb) /\ reads m maxtype attrs tb.
Proof.
  intros Hp Hm Hattrs. unfold payload in Hp. cbn [mbind option_bind] in Hp. unfold libbpf_nla_parse_nested.
  destruct (libbpf_nla_len m nla) as [n |]; [| done]. cbn [mbind option_bind] in *. destruct (Z.ltb_spec n 0); [done |].
  apply bytes_at_split in Hp as (pre & post & -> & <- & Hl).
  replace n with (zlen (encode_attrs attrs)) by (unfold zlen; lia). by apply parse_encode.
Qed.

(** Reading the value of an attribute. *)
Lemma payload_load m e bs n : payload m e = Some bs -> length bs = n -> exists p, e = Some p /\ load n m (libbpf_nla_data p) = Some (le_combine bs).
Proof.
  unfold payload. destruct e as [p |]; [| done]. cbn [mbind option_bind]. intros H Hl. exists p. split; [done |].
  destruct (libbpf_nla_len m p) as [k |]; [| done]. cbn [mbind option_bind] in H. destruct (Z.ltb_spec k 0); [done |].
  unfold load. pose proof (bytes_at_length _ _ _ _ H) as Hk. rewrite <- Hl, Hk, H. done.
Qed.

(** ** Building a request *)

(** A request of [libbpf_nla_req]: [rest] is what follows [nlmsg_len]; the
    room behind the message is zero. *)
Definition request (rest : list byte) : list byte :=
  le_split 4 (4 + zlen rest) ++ rest ++ replicate (Z.to_nat (sizeof_req - 4 - zlen rest)) x00.

Definition aligned (rest : list byte) : Prop := 4 + zlen rest <= sizeof_req /\ zlen rest mod 4 = 0.

Lemma align_id n : n mod 4 = 0 -> NLMSG_ALIGN n = n.
Proof. intros H. unfold NLMSG_ALIGN. rewrite align4. Z.to_euclidean_division_equations. lia. Qed.

Lemma NLA_ALIGN_mod n : NLA_ALIGN n mod 4 = 0.
Proof. destruct (NLA_ALIGN_spec n) as [-> _]. rewrite Z.mul_comm. apply Z_mod_mult. Qed.

Lemma nlmsg_len_request rest : aligned rest -> nlmsg_len_of (request rest) = Some (4 + zlen rest).
Proof.
  intros [H _]. pose proof (zlen_nonneg rest). unfold sizeof_req in H. apply (load_app_le [] _ 0 4); [done | lia].
Qed.

Lemma req_tail_request rest : aligned rest -> req_tail (request rest) = Some (4 + zlen rest).
Proof.
  intros H. unfold req_tail. rewrite nlmsg_len_request by done. cbn [mbind option_bind]. f_equal. apply align_id.
  destruct H as [_ H]. rewrite <- Zplus_mod_idemp_r, H. done.
Qed.

Lemma aligned_app rest a : aligned rest -> 4 + zlen rest + NLA_ALIGN (NLA_HDRLEN + zlen (snd a)) <= sizeof_req ->
  aligned (rest ++ encode_attr a).
Proof.
  intros [H1 H2] H3. unfold aligned. rewrite zlen_app, zlen_encode_attr, <- align_hdr. split; [lia |].
  rewrite <- Zplus_mod_idemp_l, H2. apply NLA_ALIGN_mod.
Qed.

Lemma store_app_0 (bs post bs' : list byte) : length bs' = length bs -> store (bs ++ post) 0 bs' = Some (bs' ++ post).
Proof. apply (store_app []). done. Qed.

(** Copying the payload, if there is one, over the zeros. *)
Lemma store_payload pre data post off : off = zlen pre ->
  match match data with [] => None | _ => Some data end with
  | Some d => bs ← bytes_at d 0 (Z.to_nat (zlen data)); store (pre ++ replicate (length data) x00 ++ post) off bs
  | None => Some (pre ++ replicate (length data) x00 ++ post)
  end = Some (pre ++ data ++ post).
Proof.
  intros Hoff. destruct data as [| b data]; [done |]. remember (b :: data) as d.
  rewrite <- (app_nil_r d) at 1. rewrite (bytes_at_app [] d [] 0) by (done || (unfold zlen; lia)). cbn [mbind option_bind].
  apply store_app; [done | by rewrite length_replicate].
Qed.

(** [nlattr_add] appends the attribute, or refuses it and leaves the request
    as it was. *)
Lemma nlattr_add_spec rest type data : aligned rest ->
  nlattr_add (request rest) type (match data with [] => None | _ => Some data end) (zlen data) =
    if sizeof_req <? 4 + zlen rest + NLA_ALIGN (NLA_HDRLEN + zlen data) then Some (- EMSGSIZE, request rest)
    else Some (0, request (rest ++ encode_attr (type, data))).
Proof.
  intros Ha. pose proof Ha as [Hs Hm]. unfold nlattr_add. rewrite nlmsg_len_request by done. cbn [mbind option_bind].
  pose proof (zlen_nonneg rest). pose proof (zlen_nonneg data).
  rewrite align_id by (rewrite <- Zplus_mod_idemp_r, Hm; done).
  destruct (Z.ltb_spec sizeof_req (4 + zlen rest + NLA_ALIGN (NLA_HDRLEN + zlen data))) as [| Hfit]; [done |].
  assert (Bool.eqb (bool_decide (is_Some (match data with [] => None | _ => Some data end))) (c_true (zlen data)) = true) as ->.
  { destruct data; [done |]. unfold c_true. rewrite zlen_cons in *. rewrite bool_decide_eq_true_2 by done.
    rewrite (proj2 (Z.eqb_neq _ _)) by (pose proof (zlen_nonneg data); lia). done. }
  cbn [negb]. rewrite req_tail_request by done. cbn [mbind option_bind].
  rewrite align_hdr in Hfit. destruct (NLA_ALIGN_spec (zlen data)) as [_ Hal].
  set (k := Z.to_nat (sizeof_req - 4 - zlen (rest ++ encode_attr (type, data)))).
  assert (replicate (Z.to_nat (sizeof_req - 4 - zlen rest)) x00 =
    replicate 2 x00 ++ replicate 2 x00 ++ replicate (length data) x00 ++ pad (zlen data) ++ replicate k x00) as Er.
  { unfold pad. rewrite <- !replicate_add. f_equal. unfold k. rewrite zlen_app, zlen_encode_attr.
    unfold zlen, NLA_HDRLEN in *. cbn [snd]. lia. }
  unfold request at 1. rewrite Er.
  rewrite (app_assoc (le_split 4 _) rest), (app_assoc (_ ++ _) (replicate 2 x00)).
  rewrite store_app; [| rewrite !zlen_app, zlen_le_split, zlen_replicate; lia | by rewrite length_le_split, length_replicate].
  cbn [mbind option_bind]. rewrite <- (app_assoc (le_split 4 _ ++ rest)).
  rewrite store_app; [| rewrite !zlen_app, zlen_le_split; lia | by rewrite length_le_split, length_replicate].
  cbn [mbind option_bind].
  rewrite (app_assoc (_ ++ rest)), (app_assoc (_ ++ le_split 2 _)).
  rewrite store_payload by (rewrite !zlen_app, !zlen_le_split; unfold NLA_HDRLEN; lia). rewrite <- (app_assoc (_ ++ le_split 2 _)), <- (app_assoc (_ ++ rest)).
  cbn [mbind option_bind]. unfold sizeof_req, NLA_HDRLEN in *.
  rewrite load_app_le; [| rewrite !zlen_app, zlen_le_split; lia | lia]. cbn [mbind option_bind].
  rewrite <- (app_assoc (le_split 4 _)).
  rewrite store_app_0 by (by rewrite !length_le_split).
  cbn [mbind option_bind]. unfold request. fold k. do 2 f_equal.
  change 4 with NLA_HDRLEN at 3. rewrite align_hdr, zlen_app, zlen_encode_attr. unfold encode_attr. cbn [fst snd]. unfold NLA_HDRLEN.
  rewrite <- !app_assoc. f_equal; [f_equal; lia |]. unfold k. by rewrite zlen_app, zlen_encode_attr.
Qed.

(** Adding an attribute there is room for. *)
Lemma nlattr_add_fits rest type data : aligned rest -> 4 + zlen rest + NLA_ALIGN (NLA_HDRLEN + zlen data) <= sizeof_req ->
  data <> [] ->
  nlattr_add (request rest) type (Some data) (zlen data) = Some (0, request (rest ++ encode_attr (type, data))) /\
  aligned (rest ++ encode_attr (type, data)).
Proof.
  intros Ha Hfit Hd. split; [| by apply aligned_app]. pose proof (nlattr_add_spec rest type data Ha) as E.
  destruct data; [done |]. by rewrite (proj2 (Z.ltb_ge _ _)) in E by lia.
Qed.

Lemma nlattr_begin_nested_fits rest type : aligned rest -> 4 + zlen rest + NLA_HDRLEN <= sizeof_req ->
  nlattr_begin_nested (request rest) type =
    Some (Some (4 + zlen rest), request (rest ++ encode_attr (Z.lor type NLA_F_NESTED, []))) /\
  aligned (rest ++ encode_attr (Z.lor type NLA_F_NESTED, [])).
Proof.
  intros Ha Hfit. split; [| by apply aligned_app]. unfold nlattr_begin_nested. rewrite req_tail_request by done.
  cbn [mbind option_bind]. pose proof (nlattr_add_spec rest (Z.lor type NLA_F_NESTED) [] Ha) as E. cbn [zlen length] in E.
  change (zlen []) with 0 in E. rewrite E, (proj2 (Z.ltb_ge _ _)) by exact Hfit. done.
Qed.

(** Ending the nested attribute makes what was added since its payload. *)
Lemma nlattr_end_nested_spec rest type inner : aligned (rest ++ encode_attr (type, []) ++ inner) -> zlen inner mod 4 = 0 ->
  nlattr_end_nested (request (rest ++ encode_attr (type, []) ++ inner)) (4 + zlen rest) =
    Some (request (rest ++ encode_attr (type, inner))).
Proof.
  intros Ha Hi. unfold nlattr_end_nested. rewrite req_tail_request by done. cbn [mbind option_bind].
  assert (zlen (encode_attr (type, inner)) = 4 + zlen inner) as Hz.
  { rewrite zlen_encode_attr. cbn [snd]. rewrite (align_id (zlen inner) Hi : NLA_ALIGN _ = _). done. }
  assert (encode_attr (type, []) = le_split 2 4 ++ le_split 2 type) as E0 by done.
  assert (encode_attr (type, inner) = le_split 2 (4 + zlen inner) ++ le_split 2 type ++ inner) as E1.
  { unfold encode_attr, pad. cbn [fst snd]. rewrite (align_id (zlen inner) Hi : NLA_ALIGN _ = _), Z.sub_diag. cbn [Z.to_nat replicate].
    by rewrite app_nil_r. }
  unfold request. rewrite E0, !zlen_app, Hz, !zlen_le_split, E1. rewrite <- !app_assoc, (app_assoc (le_split 4 _) rest).
  rewrite store_app; [| by rewrite zlen_app, zlen_le_split | by rewrite !length_le_split].
  rewrite <- !app_assoc. replace (zlen rest + (Z.of_nat 2 + Z.of_nat 2 + zlen inner)) with (zlen rest + (4 + zlen inner)) by lia.
  do 5 f_equal. lia.
Qed.
