(* ===== verification/Netlink.v ===== *)
(** The netlink client of libbpf that attaches and queries XDP programs:
    src/lib/libbpf/src/netlink.c up to [bpf_xdp_query_id].

    A request is the memory of its [struct libbpf_nla_req].  The kernel is a
    record of what its system calls answer; the answer to a request is a
    function of the protocol and the bytes sent, a list with one element for
    each [recvmsg] call.  What is sent, and the sockets opened and closed, is
    the trace of a call. *)
From S2P Require Import Prelude.
From S2P Require Import CLib.
From S2P Require Import Nlattr.

(** A call returns, waits for ever in [recvmsg], or reads memory it was not given. *)
Inductive out (A : Type) := Ret (a : A) | Blocked | Undef.
Arguments Ret {A} a.
Arguments Blocked {A}.
Arguments Undef {A}.

#[global] Instance out_ret : MRet out := @Ret.
#[global] Instance out_bind : MBind out := fun A B f x =>
  match x with Ret a => f a | Blocked => Blocked | Undef => Undef end.

(** A read that may be undefined. *)
Definition defd {A} (x : option A) : out A := match x with Some a => Ret a | None => Undef end.

Definition LIBBPF_ERRNO__INTERNAL : Z := 4004.
Definition LIBBPF_ERRNO__WRNGPID : Z := 4011.
Definition LIBBPF_ERRNO__INVSEQ : Z := 4012.
Definition LIBBPF_ERRNO__NLPARSE : Z := 4013.

Definition NLM_F_REQUEST : Z := 1.
Definition NLM_F_MULTI : Z := 2.
Definition NLM_F_ACK : Z := 4.
Definition NLM_F_DUMP : Z := 0x300.
Definition NLMSG_ERROR : Z := 2.
Definition NLMSG_DONE : Z := 3.
Definition RTM_GETLINK : Z := 18.
Definition RTM_SETLINK : Z := 19.
Definition NETLINK_ROUTE : Z := 0.
Definition NETLINK_GENERIC : Z := 16.
Definition AF_UNSPEC : Z := 0.
Definition AF_PACKET : Z := 17.
Definition GENL_ID_CTRL : Z := 16.
Definition GENL_HDRLEN : Z := 4.
Definition CTRL_CMD_GETFAMILY : Z := 3.
Definition CTRL_ATTR_FAMILY_ID : Z := 1.
Definition CTRL_ATTR_FAMILY_NAME : Z := 2.
Definition NETDEV_A_DEV_IFINDEX : Z := 1.
Definition NETDEV_A_DEV_XDP_FEATURES : Z := 3.
Definition NETDEV_A_DEV_XDP_ZC_MAX_SEGS : Z := 4.
Definition NETDEV_CMD_DEV_GET : Z := 1.
Definition NETDEV_CMD_MAX : Z := 4.
Definition IFLA_XDP : Z := 43.
Definition IFLA_MAX : Z := 60.
Definition IFLA_XDP_FD : Z := 1.
Definition IFLA_XDP_ATTACHED : Z := 2.
Definition IFLA_XDP_FLAGS : Z := 3.
Definition IFLA_XDP_PROG_ID : Z := 4.
Definition IFLA_XDP_DRV_PROG_ID : Z := 5.
Definition IFLA_XDP_SKB_PROG_ID : Z := 6.
Definition IFLA_XDP_HW_PROG_ID : Z := 7.
Definition IFLA_XDP_EXPECTED_FD : Z := 8.
Definition IFLA_XDP_MAX : Z := 8.
Definition XDP_FLAGS_UPDATE_IF_NOEXIST : Z := 1.
Definition XDP_FLAGS_SKB_MODE : Z := 2.
Definition XDP_FLAGS_DRV_MODE : Z := 4.
Definition XDP_FLAGS_HW_MODE : Z := 8.
Definition XDP_FLAGS_REPLACE : Z := 16.
Definition XDP_FLAGS_MODES : Z := Z.lor XDP_FLAGS_SKB_MODE (Z.lor XDP_FLAGS_DRV_MODE XDP_FLAGS_HW_MODE).
Definition XDP_FLAGS_MASK : Z := Z.lor XDP_FLAGS_UPDATE_IF_NOEXIST (Z.lor XDP_FLAGS_MODES XDP_FLAGS_REPLACE).
Definition XDP_ATTACHED_NONE : Z := 0.
Definition XDP_ATTACHED_MULTI : Z := 4.

(** ** The kernel *)

(** [inl e] is a call that fails with the errno [e]. *)
Record nl_world := {
  w_socket : Z + Z;
  w_bind : option Z;
  (** The port id and the length of the address. *)
  w_getsockname : Z + Z * Z;
  w_time : Z;
  w_send : option Z;
  (** Whether [realloc] of so many bytes succeeds. *)
  w_alloc : Z -> bool;
  w_recv : Z -> list byte -> list (Z + list byte) }.

Inductive event := Opened (sock : Z) | Sent (proto : Z) (msg : list byte) | Closed (sock : Z).

Definition sizeof_sockaddr_nl : Z := 12.

(** [setsockopt] of NETLINK_EXT_ACK failing is only warned about. *)
Definition libbpf_netlink_open (w : nl_world) : Z * Z * list event :=
  match w_socket w with
  | inl e => (- e, 0, [])
  | inr sock =>
    match w_bind w with
    | Some e => (- e, 0, [Opened sock; Closed sock])
    | None =>
      match w_getsockname w with
      | inl e => (- e, 0, [Opened sock; Closed sock])
      | inr (pid, addrlen) =>
        if negb (addrlen =? sizeof_sockaddr_nl) then (- LIBBPF_ERRNO__INTERNAL, 0, [Opened sock; Closed sock])
        else (sock, pid, [Opened sock])
      end
    end
  end.

(** ** Receiving *)

(** The answer of the call that is not interrupted, and the answers left. *)
Fixpoint netlink_recvmsg (ans : list (Z + list byte)) : out ((Z + list byte) * list (Z + list byte)) :=
  match ans with
  | [] => Blocked
  | inl e :: ans => if (e =? EINTR) || (e =? EAGAIN) then netlink_recvmsg ans else Ret (inl e, ans)
  | inr d :: ans => Ret (inr d, ans)
  end.

Definition NL_CONT : Z := 0.
Definition NL_NEXT : Z := 1.
Definition NL_DONE : Z := 2.

Definition NLMSG_OK (m : list byte) (nh len : Z) : option bool :=
  if len <? NLMSG_HDRLEN then Some false else
  n ← load32 m nh; Some ((NLMSG_HDRLEN <=? n) && (n <=? len)).

(** How the loop over the messages of a datagram ends. *)
Inductive msgs_end (C : Type) := Finished (ret : Z) (c : C) | Start (c : C) | Ended (multipart : bool) (c : C).
Arguments Finished {C} ret c.
Arguments Start {C} c.
Arguments Ended {C} multipart c.

Section Recv.
Context {C : Type}.
(** [_fn] with its [fn]; [None] the null pointer. *)
Variable fn : option (list byte -> Z -> C -> option (Z * C)).
Variable nl_pid : Z.
Variable seq : Z.

(** The messages from [nh] on, of which [len] bytes are left. *)
Fixpoint recv_msgs (fuel : nat) (m : list byte) (nh len : Z) (multipart : bool) (cookie : C) : option (msgs_end C) :=
  ok ← NLMSG_OK m nh len;
  if negb ok then Some (Ended multipart cookie) else
  match fuel with
  | O => None
  | S fuel =>
    nlmsg_len ← load32 m nh;
    type ← load16 m (nh + 4);
    flags ← load16 m (nh + 6);
    sq ← load32 m (nh + 8);
    pid ← load32 m (nh + 12);
    if negb (pid =? nl_pid) then Some (Finished (- LIBBPF_ERRNO__WRNGPID) cookie) else
    if negb (sq =? u32 seq) then Some (Finished (- LIBBPF_ERRNO__INVSEQ) cookie) else
    let multipart := if c_true (Z.land flags NLM_F_MULTI) then true else multipart in
    let next := recv_msgs fuel m (nh + NLMSG_ALIGN nlmsg_len) (len - NLMSG_ALIGN nlmsg_len) multipart in
    if type =? NLMSG_ERROR then
      error ← load32 m (nh + NLMSG_HDRLEN);
      if s32 error =? 0 then next cookie else
      _ ← libbpf_nla_dump_errormsg m nh;
      Some (Finished (s32 error) cookie)
    else if type =? NLMSG_DONE then Some (Finished 0 cookie) else
    match fn with
    | Some fn =>
      '(ret, cookie) ← fn m nh cookie;
      if ret =? NL_CONT then next cookie else
      if ret =? NL_NEXT then Some (Start cookie) else
      if ret =? NL_DONE then Some (Finished 0 cookie) else Some (Finished ret cookie)
    | None => next cookie
    end
  end.

(** The loop over the datagrams; [iov_len] is the size of the buffer. *)
Fixpoint recv_loop (fuel : nat) (alloc : Z -> bool) (iov_len : Z) (ans : list (Z + list byte)) (cookie : C) : out (Z * C) :=
  match fuel with
  | O => Blocked
  | S fuel =>
    '(peek, ans) ← netlink_recvmsg ans;
    match peek with
    | inl e => Ret (- e, cookie)
    | inr d =>
      let grow := iov_len <? zlen d in
      if grow && negb (alloc (zlen d)) then Ret (- ENOMEM, cookie) else
      let iov_len := if grow then zlen d else iov_len in
      '(got, ans) ← netlink_recvmsg ans;
      match got with
      | inl e => Ret (- e, cookie)
      | inr d =>
        let buf := take (Z.to_nat iov_len) d in
        if zlen buf =? 0 then Ret (0, cookie) else
        o ← defd (recv_msgs (Z.to_nat (zlen buf)) buf 0 (zlen buf) false cookie);
        match o with
        | Finished ret cookie => Ret (ret, cookie)
        | Start cookie => recv_loop fuel alloc iov_len ans cookie
        | Ended multipart cookie => if multipart then recv_loop fuel alloc iov_len ans cookie else Ret (0, cookie)
        end
      end
    end
  end.

(** Every round of the loop takes at least one answer. *)
Definition libbpf_netlink_recv (alloc : Z -> bool) (ans : list (Z + list byte)) (cookie : C) : out (Z * C) :=
  if negb (alloc 4096) then Ret (- ENOMEM, cookie) else recv_loop (S (length ans)) alloc 4096 ans cookie.
End Recv.

Definition libbpf_netlink_send_recv {C} (w : nl_world) (req : list byte) (proto : Z)
    (fn : option (list byte -> Z -> C -> option (Z * C))) (cookie : C) : out (Z * C * list event) :=
  let '(sock, nl_pid, tr) := libbpf_netlink_open w in
  if sock <? 0 then Ret (sock, cookie, tr) else
  req ← defd (store req 12 (le_split 4 0));
  req ← defd (store req 8 (le_split 4 (w_time w)));
  nlmsg_len ← defd (load32 req 0);
  msg ← defd (bytes_at req 0 (Z.to_nat nlmsg_len));
  match w_send w with
  | Some e => Ret (- e, cookie, tr ++ [Sent proto msg; Closed sock])
  | None =>
    '(ret, cookie) ← libbpf_netlink_recv fn nl_pid (s32 (w_time w)) (w_alloc w) (w_recv w proto msg) cookie;
    Ret (ret, cookie, tr ++ [Sent proto msg; Closed sock])
  end.

(** ** Requests *)

(** A request initialised to a header and a [body], and zero elsewhere. *)
Definition req_init (len type flags : Z) (body : list byte) : list byte :=
  le_split 4 len ++ le_split 2 type ++ le_split 2 flags ++ replicate 8 x00 ++ body ++
    replicate (Z.to_nat (sizeof_req - NLMSG_HDRLEN - zlen body)) x00.

Definition ifinfomsg (family index : Z) : list byte :=
  le_split 1 family ++ replicate 3 x00 ++ le_split 4 index ++ replicate 8 x00.

Definition genlmsghdr (cmd version : Z) : list byte := le_split 1 cmd ++ le_split 1 version ++ replicate 2 x00.

Definition parse_genl_family_id (m : list byte) (nh : Z) (id : option Z) : option (Z * option Z) :=
  let na := nh + NLMSG_HDRLEN + GENL_HDRLEN in
  len ← load32 m nh;
  '(_, tb) ← libbpf_nla_parse m CTRL_ATTR_FAMILY_ID na (s32 (len - 20)) None;
  a ← tb !! Z.to_nat CTRL_ATTR_FAMILY_ID;
  match a with
  | None => Some (NL_CONT, id)
  | Some nla => v ← libbpf_nla_getattr_u16 m nla; Some (NL_DONE, Some v)
  end.

(** [name] with its zero byte; [id] is [None] while it is not initialised. *)
Definition libbpf_netlink_resolve_genl_family_id (w : nl_world) (name : list byte) (id : option Z) :
    out (Z * option Z * list event) :=
  let req := req_init (NLMSG_LENGTH GENL_HDRLEN) GENL_ID_CTRL NLM_F_REQUEST (genlmsghdr CTRL_CMD_GETFAMILY 2) in
  '(err, req) ← defd (nlattr_add req CTRL_ATTR_FAMILY_NAME (Some name) (zlen name));
  if err <? 0 then Ret (err, id, []) else
  libbpf_netlink_send_recv w req NETLINK_GENERIC (Some parse_genl_family_id) id.

Definition __bpf_set_link_xdp_fd_replace (w : nl_world) (ifindex fd old_fd flags : Z) : out (Z * list event) :=
  let req := req_init (NLMSG_LENGTH 16) RTM_SETLINK (Z.lor NLM_F_REQUEST NLM_F_ACK) (ifinfomsg AF_UNSPEC ifindex) in
  '(nla, req) ← defd (nlattr_begin_nested req IFLA_XDP);
  match nla with
  | None => Ret (- EMSGSIZE, [])
  | Some nla =>
    '(ret, req) ← defd (nlattr_add req IFLA_XDP_FD (Some (le_split 4 fd)) 4);
    if ret <? 0 then Ret (ret, []) else
    '(ret, req) ← (if c_true flags then defd (nlattr_add req IFLA_XDP_FLAGS (Some (le_split 4 flags)) 4) else Ret (0, req));
    if ret <? 0 then Ret (ret, []) else
    '(ret, req) ← (if c_true (Z.land flags XDP_FLAGS_REPLACE)
                   then defd (nlattr_add req IFLA_XDP_EXPECTED_FD (Some (le_split 4 old_fd)) 4) else Ret (0, req));
    if ret <? 0 then Ret (ret, []) else
    req ← defd (nlattr_end_nested req nla);
    '(ret, _, tr) ← libbpf_netlink_send_recv w req NETLINK_ROUTE None tt;
    Ret (ret, tr)
  end.

(** ** Options

    The options are the memory the caller gives, [None] the null pointer;
    [sz] is their first field. *)

Fixpoint mem_zeroed (m : list byte) (p : Z) (len : nat) : option bool :=
  match len with
  | O => Some true
  | S len => b ← load8 m p; if c_true b then Some false else mem_zeroed m (p + 1) len
  end.
Definition libbpf_is_mem_zeroed (m : list byte) (p len : Z) : option bool := mem_zeroed m p (Z.to_nat len).

Definition libbpf_validate_opts (opts : list byte) (opts_sz user_sz : Z) : option bool :=
  if user_sz <? 8 then Some false else libbpf_is_mem_zeroed opts opts_sz (s64 (user_sz - opts_sz)).

(** [opts_sz] is where the last field ends, as is [end_]. *)
Definition OPTS_VALID (opts : option (list byte)) (opts_sz : Z) : option bool :=
  match opts with None => Some true | Some o => sz ← load64 o 0; libbpf_validate_opts o opts_sz sz end.
Definition OPTS_HAS (opts : option (list byte)) (end_ : Z) : option bool :=
  match opts with None => Some false | Some o => sz ← load64 o 0; Some (end_ <=? sz) end.
Definition OPTS_SET (opts : option (list byte)) (off : Z) (v : list byte) : option (option (list byte)) :=
  match opts with
  | None => Some None
  | Some o => sz ← load64 o 0; if off + zlen v <=? sz then o ← store o off v; Some (Some o) else Some opts
  end.

(** [struct bpf_xdp_attach_opts]: sz, old_prog_fd. *)
Definition bpf_xdp_attach (w : nl_world) (ifindex prog_fd flags : Z) (opts : option (list byte)) : out (Z * list event) :=
  valid ← defd (OPTS_VALID opts 12);
  if negb valid then Ret (- EINVAL, []) else
  has ← defd (OPTS_HAS opts 12);
  old_prog_fd ← (match opts with
                 | Some o => if has : bool then v ← defd (load32 o 8); Ret (s32 v) else Ret 0
                 | None => Ret 0
                 end);
  let '(flags, old_prog_fd) :=
    if c_true old_prog_fd then (Z.lor flags XDP_FLAGS_REPLACE, old_prog_fd) else (flags, -1) in
  __bpf_set_link_xdp_fd_replace w ifindex prog_fd old_prog_fd flags.

Definition bpf_xdp_detach (w : nl_world) (ifindex flags : Z) (opts : option (list byte)) : out (Z * list event) :=
  bpf_xdp_attach w ifindex (-1) flags opts.

(** ** Querying *)

Record xdp_link_info := { prog_id : Z; drv_prog_id : Z; hw_prog_id : Z; skb_prog_id : Z; attach_mode : Z }.

(** [flags] and [feature_flags] of the struct are not used. *)
Record xdp_id_md := { x_ifindex : Z; x_info : xdp_link_info }.

Definition get_u32_or (m : list byte) (tb : list (option Z)) (t : Z) (old : Z) : option Z :=
  a ← tb !! Z.to_nat t;
  match a with None => Some old | Some nla => libbpf_nla_getattr_u32 m nla end.

Definition get_xdp_info (m : list byte) (ifinfo : Z) (tb : list (option Z)) (xdp_id : xdp_id_md) : option (Z * xdp_id_md) :=
  ifi_index ← load32 m (ifinfo + 4);
  if c_true (x_ifindex xdp_id) && negb (x_ifindex xdp_id =? s32 ifi_index) then Some (0, xdp_id) else
  a ← tb !! Z.to_nat IFLA_XDP;
  match a with
  | None => Some (0, xdp_id)
  | Some nla =>
    '(ret, xdp_tb) ← libbpf_nla_parse_nested m IFLA_XDP_MAX nla None;
    if c_true ret then Some (ret, xdp_id) else
    att ← xdp_tb !! Z.to_nat IFLA_XDP_ATTACHED;
    match att with
    | None => Some (0, xdp_id)
    | Some att =>
      mode ← libbpf_nla_getattr_u8 m att;
      let info := x_info xdp_id in
      if mode =? XDP_ATTACHED_NONE then
        Some (0, {| x_ifindex := x_ifindex xdp_id;
                    x_info := {| prog_id := prog_id info; drv_prog_id := drv_prog_id info; hw_prog_id := hw_prog_id info;
                                 skb_prog_id := skb_prog_id info; attach_mode := mode |} |})
      else
      prog ← get_u32_or m xdp_tb IFLA_XDP_PROG_ID (prog_id info);
      skb ← get_u32_or m xdp_tb IFLA_XDP_SKB_PROG_ID (skb_prog_id info);
      drv ← get_u32_or m xdp_tb IFLA_XDP_DRV_PROG_ID (drv_prog_id info);
      hw ← get_u32_or m xdp_tb IFLA_XDP_HW_PROG_ID (hw_prog_id info);
      Some (0, {| x_ifindex := x_ifindex xdp_id;
                  x_info := {| prog_id := prog; drv_prog_id := drv; hw_prog_id := hw; skb_prog_id := skb; attach_mode := mode |} |})
    end
  end.

Definition __dump_link_nlmsg {C} (dump_link_nlmsg : list byte -> Z -> list (option Z) -> C -> option (Z * C))
    (m : list byte) (nlh : Z) (cookie : C) : option (Z * C) :=
  let ifi := nlh + NLMSG_HDRLEN in
  nlmsg_len ← load32 m nlh;
  '(err, tb) ← libbpf_nla_parse m IFLA_MAX (ifi + NLMSG_ALIGN 16) (s32 (nlmsg_len - NLMSG_LENGTH 16)) None;
  if negb (err =? 0) then Some (- LIBBPF_ERRNO__NLPARSE, cookie) else
  dump_link_nlmsg m ifi tb cookie.

Record xdp_features_md := { f_ifindex : Z; f_xdp_zc_max_segs : Z; f_flags : Z }.

Definition parse_xdp_features (m : list byte) (nh : Z) (md : xdp_features_md) : option (Z * xdp_features_md) :=
  let na := nh + NLMSG_HDRLEN + GENL_HDRLEN in
  len ← load32 m nh;
  '(_, tb) ← libbpf_nla_parse m NETDEV_CMD_MAX na (s32 (len - 20)) None;
  ai ← tb !! Z.to_nat NETDEV_A_DEV_IFINDEX;
  af ← tb !! Z.to_nat NETDEV_A_DEV_XDP_FEATURES;
  match ai, af with
  | Some ai, Some af =>
    ifindex ← libbpf_nla_getattr_u32 m ai;
    if negb (ifindex =? u32 (f_ifindex md)) then Some (NL_CONT, md) else
    flags ← libbpf_nla_getattr_u64 m af;
    segs ← get_u32_or m tb NETDEV_A_DEV_XDP_ZC_MAX_SEGS (f_xdp_zc_max_segs md);
    Some (NL_DONE, {| f_ifindex := f_ifindex md; f_xdp_zc_max_segs := segs; f_flags := flags |})
  | _, _ => Some (NL_CONT, md)
  end.

(** [struct bpf_xdp_query_opts]: sz, prog_id at 8, drv_prog_id, hw_prog_id,
    skb_prog_id, attach_mode at 24, feature_flags at 32, xdp_zc_max_segs at 40. *)
Definition sizeof_query_opts : Z := 48.

Definition set_query_opts (opts : option (list byte)) (i : xdp_link_info) : option (option (list byte)) :=
  opts ← OPTS_SET opts 8 (le_split 4 (prog_id i));
  opts ← OPTS_SET opts 12 (le_split 4 (drv_prog_id i));
  opts ← OPTS_SET opts 16 (le_split 4 (hw_prog_id i));
  opts ← OPTS_SET opts 20 (le_split 4 (skb_prog_id i));
  OPTS_SET opts 24 (le_split 1 (attach_mode i)).

(** What is done when the options have room for the features. *)
Definition query_features (w : nl_world) (ifindex : Z) (o : list byte) : out (Z * list byte * list event) :=
  '(err, id, tr) ← libbpf_netlink_resolve_genl_family_id w (str "netdev" ++ [NUL]) None;
  if err <? 0 then
    if err =? - ENOENT then o ← defd (store o 32 (le_split 8 0)); Ret (0, o, tr) else Ret (err, o, tr)
  else
  id ← defd id;
  let req := req_init (NLMSG_LENGTH GENL_HDRLEN) id NLM_F_REQUEST (genlmsghdr NETDEV_CMD_DEV_GET 2) in
  '(err, req) ← defd (nlattr_add req NETDEV_A_DEV_IFINDEX (Some (le_split 4 ifindex)) 4);
  if err <? 0 then Ret (err, o, tr) else
  '(err, md, tr2) ← libbpf_netlink_send_recv w req NETLINK_GENERIC (Some parse_xdp_features)
                      {| f_ifindex := ifindex; f_xdp_zc_max_segs := 0; f_flags := 0 |};
  if c_true err then Ret (err, o, tr ++ tr2) else
  o ← defd (store o 32 (le_split 8 (f_flags md)));
  o ← defd (store o 40 (le_split 4 (f_xdp_zc_max_segs md)));
  Ret (0, o, tr ++ tr2).

Definition bpf_xdp_query (w : nl_world) (ifindex xdp_flags : Z) (opts : option (list byte)) :
    out (Z * option (list byte) * list event) :=
  let req := req_init (NLMSG_LENGTH 16) RTM_GETLINK (Z.lor NLM_F_DUMP NLM_F_REQUEST) (ifinfomsg AF_PACKET 0) in
  valid ← defd (OPTS_VALID opts 44);
  if negb valid then Ret (- EINVAL, opts, []) else
  if c_true (Z.land xdp_flags (Z.lnot XDP_FLAGS_MASK)) then Ret (- EINVAL, opts, []) else
  let xdp_flags := Z.land xdp_flags (Z.lor XDP_FLAGS_SKB_MODE (Z.lor XDP_FLAGS_DRV_MODE XDP_FLAGS_HW_MODE)) in
  if c_true (Z.land xdp_flags (xdp_flags - 1)) then Ret (- EINVAL, opts, []) else
  '(err, xdp_id, tr) ← libbpf_netlink_send_recv w req NETLINK_ROUTE (Some (__dump_link_nlmsg get_xdp_info))
    {| x_ifindex := ifindex;
       x_info := {| prog_id := 0; drv_prog_id := 0; hw_prog_id := 0; skb_prog_id := 0; attach_mode := 0 |} |};
  if c_true err then Ret (err, opts, tr) else
  opts ← defd (set_query_opts opts (x_info xdp_id));
  has ← defd (OPTS_HAS opts 40);
  match opts with
  | Some o => if negb has then Ret (0, opts, tr) else
    '(err, o, tr2) ← query_features w ifindex o;
    Ret (err, Some o, tr ++ tr2)
  | None => Ret (0, opts, tr)
  end.

(** The id is written only on success. *)
Definition bpf_xdp_query_id (w : nl_world) (ifindex flags prog_id : Z) : out (Z * Z * list event) :=
  '(ret, opts, tr) ← bpf_xdp_query w ifindex flags (Some (le_split 8 sizeof_query_opts ++ replicate 40 x00));
  if c_true ret then Ret (ret, prog_id, tr) else
  o ← defd opts;
  let flags := Z.land flags XDP_FLAGS_MODES in
  mode ← defd (load8 o 24);
  prog_id ← defd (if negb (mode =? XDP_ATTACHED_MULTI) && negb (c_true flags) then load32 o 8
    else if c_true (Z.land flags XDP_FLAGS_DRV_MODE) then load32 o 12
    else if c_true (Z.land flags XDP_FLAGS_HW_MODE) then load32 o 16
    else if c_true (Z.land flags XDP_FLAGS_SKB_MODE) then load32 o 20
    else Some 0);
  Ret (0, prog_id, tr).

(** ** Messages in memory *)

Definition nlmsg (type flags seq pid : Z) (body : list byte) : list byte :=
  le_split 4 (NLMSG_HDRLEN + zlen body) ++ le_split 2 type ++ le_split 2 flags ++ le_split 4 seq ++ le_split 4 pid ++ body.

(** Reading fields off a concatenation, from the front. *)
Lemma load_skip n (a m : list byte) off : zlen a <= off -> load n (a ++ m) off = load n m (off - zlen a).
Proof.
  intros H. unfold load, bytes_at. rewrite zlen_app. pose proof (zlen_nonneg a).
  rewrite (proj2 (Z.leb_le 0 off)), (proj2 (Z.leb_le 0 (off - zlen a))) by lia. cbn [andb].
  destruct (Z.leb_spec (off + Z.of_nat n) (zlen a + zlen m)), (Z.leb_spec (off - zlen a + Z.of_nat n) (zlen m)); try lia; [| done].
  cbn [fmap option_fmap option_map mbind option_bind]. do 2 f_equal. unfold zlen in *. rewrite drop_app_ge by lia. do 2 f_equal. lia.
Qed.

Lemma load_here n v m : 0 <= v < 2 ^ (8 * Z.of_nat n) -> load n (le_split n v ++ m) 0 = Some v.
Proof. intros H. apply (load_app_le [] m 0 n v); [done | done]. Qed.

Lemma zlen_nlmsg type flags seq pid body : zlen (nlmsg type flags seq pid body) = NLMSG_HDRLEN + zlen body.
Proof. unfold nlmsg. rewrite !zlen_app, !zlen_le_split. unfold NLMSG_HDRLEN. lia. Qed.

Definition hdr_ok (type flags seq pid : Z) (body : list byte) : Prop :=
  0 <= type < 2 ^ 16 /\ 0 <= flags < 2 ^ 16 /\ 0 <= seq < 2 ^ 32 /\ 0 <= pid < 2 ^ 32 /\ zlen body < 2 ^ 30.

Lemma nlmsg_fields pre type flags seq pid body post : hdr_ok type flags seq pid body ->
  let m := pre ++ nlmsg type flags seq pid body ++ post in let nh := zlen pre in
  load32 m nh = Some (NLMSG_HDRLEN + zlen body) /\ load16 m (nh + 4) = Some type /\ load16 m (nh + 6) = Some flags /\
  load32 m (nh + 8) = Some seq /\ load32 m (nh + 12) = Some pid.
Proof.
  intros (Ht & Hf & Hs & Hp & Hb) m nh. unfold m, nh. pose proof (zlen_nonneg body).
  assert (forall k, 0 <= k -> forall n, load n (pre ++ nlmsg type flags seq pid body ++ post) (zlen pre + k) =
    load n (nlmsg type flags seq pid body ++ post) k) as Hskip.
  { intros k Hk n. rewrite load_skip by lia. f_equal. lia. }
  rewrite <- (Z.add_0_r (zlen pre)) at 1. rewrite !Hskip by lia. unfold nlmsg, NLMSG_HDRLEN. rewrite <- !app_assoc.
  split_and!; repeat (rewrite load_skip by (rewrite zlen_le_split; lia); rewrite zlen_le_split);
    apply load_here; lia.
Qed.

Lemma NLMSG_OK_nlmsg pre type flags seq pid body post len : hdr_ok type flags seq pid body ->
  NLMSG_HDRLEN + zlen body <= len ->
  NLMSG_OK (pre ++ nlmsg type flags seq pid body ++ post) (zlen pre) len = Some true.
Proof.
  intros Hh Hl. destruct (nlmsg_fields pre type flags seq pid body post Hh) as (E & _). unfold NLMSG_OK.
  pose proof (zlen_nonneg body). rewrite (proj2 (Z.ltb_ge _ _)) by lia. rewrite E. cbn [mbind option_bind].
  rewrite !(proj2 (Z.leb_le _ _)) by lia. done.
Qed.

(** ** The stream of answers *)

Definition interrupted (l : list (Z + list byte)) : Prop := Forall (fun a => a = inl EINTR \/ a = inl EAGAIN) l.

(** The calls that peek at and read the datagram [d], with interruptions. *)
Definition delivers (d : list byte) (ans : list (Z + list byte)) : Prop :=
  exists i1 i2, interrupted i1 /\ interrupted i2 /\ ans = i1 ++ inr d :: i2 ++ [inr d].

Lemma recvmsg_interrupted i ans : interrupted i -> netlink_recvmsg (i ++ ans) = netlink_recvmsg ans.
Proof. induction 1 as [| a i [-> | ->] _ IH]; [done | exact IH..]. Qed.

Lemma recv_round {C} (fn : option (list byte -> Z -> C -> option (Z * C))) pid seq fuel alloc iov_len d a ans cookie :
  (forall n, alloc n = true) -> delivers d a -> d <> [] ->
  exists iov_len', recv_loop fn pid seq (S fuel) alloc iov_len (a ++ ans) cookie =
    o ← defd (recv_msgs fn pid seq (length d) d 0 (zlen d) false cookie);
    match o with
    | Finished ret cookie => Ret (ret, cookie)
    | Start cookie => recv_loop fn pid seq fuel alloc iov_len' ans cookie
    | Ended multipart cookie => if multipart then recv_loop fn pid seq fuel alloc iov_len' ans cookie else Ret (0, cookie)
    end.
Proof.
  intros Halloc (i1 & i2 & H1 & H2 & ->) Hd. exists (if iov_len <? zlen d then zlen d else iov_len). cbn [recv_loop].
  rewrite <- app_assoc, recvmsg_interrupted by done. cbn [app netlink_recvmsg mbind out_bind].
  rewrite Halloc, andb_false_r, <- app_assoc, recvmsg_interrupted by done. cbn [app netlink_recvmsg mbind out_bind].
  rewrite take_ge by (destruct (Z.ltb_spec iov_len (zlen d)); unfold zlen in *; lia).
  rewrite (proj2 (Z.eqb_neq (zlen d) 0)) by (destruct d; [done |]; rewrite zlen_cons; pose proof (zlen_nonneg d); lia).
  replace (Z.to_nat (zlen d)) with (length d) by (unfold zlen; lia). done.
Qed.

Lemma load_split n v m : load n (le_split n v ++ m) 0 = Some (v mod 2 ^ (8 * Z.of_nat n)).
Proof.
  unfold load. assert (bytes_at (le_split n v ++ m) 0 n = Some (le_split n v)) as ->
    by (apply (bytes_at_app []); [done | by rewrite length_le_split]).
  cbn [fmap option_fmap option_map mbind option_bind]. rewrite le_combine_split, Z.mul_comm. done.
Qed.

Lemma load_app_l n (a m : list byte) off v : load n a off = Some v -> load n (a ++ m) off = Some v.
Proof.
  unfold load. destruct (bytes_at a off n) as [bs |] eqn:E; [| done]. intros [= <-].
  apply bytes_at_split in E as (pre & post & -> & Hpre & Hl). rewrite <- !app_assoc.
  by rewrite (bytes_at_app pre bs (post ++ m) off n).
Qed.

Lemma s32_u32 e : - 2 ^ 31 <= e < 2 ^ 31 -> s32 (e mod 2 ^ 32) = e.
Proof. intros H. unfold s32. Z.to_euclidean_division_equations. lia. Qed.

Lemma align_ge n : n <= NLMSG_ALIGN n.
Proof. destruct (NLA_ALIGN_spec n) as [_ H]. exact (proj1 H). Qed.

(** An acknowledgement with the error [e]: a copy of the request's header
    ([capped]) or of the whole request, then attributes, in any form. *)
Definition ack (seq pid : Z) (capped : bool) (e : Z) (orig tlvs : list byte) : list byte :=
  nlmsg NLMSG_ERROR (Z.lor (if capped then NLM_F_CAPPED else 0) (match tlvs with [] => 0 | _ => NLM_F_ACK_TLVS end)) seq pid
    (le_split 4 e ++ orig ++ tlvs).

Definition ack_ok (seq pid : Z) (capped : bool) (e : Z) (orig tlvs : list byte) : Prop :=
  0 <= seq < 2 ^ 32 /\ 0 <= pid < 2 ^ 32 /\ - 2 ^ 31 <= e < 2 ^ 31 /\ 4 + zlen orig + zlen tlvs < 2 ^ 30 /\
  16 <= zlen orig /\ if capped then zlen orig = 16 else load32 orig 0 = Some (zlen orig).

Lemma ack_hdr_ok seq pid capped e orig tlvs : ack_ok seq pid capped e orig tlvs ->
  hdr_ok NLMSG_ERROR (Z.lor (if capped then NLM_F_CAPPED else 0) (match tlvs with [] => 0 | _ => NLM_F_ACK_TLVS end)) seq pid
    (le_split 4 e ++ orig ++ tlvs).
Proof.
  intros (Hs & Hp & He & Hz & _). unfold hdr_ok. rewrite !zlen_app, zlen_le_split.
  split_and!; try (lia || done); by destruct capped, tlvs.
Qed.

Lemma dump_errormsg_ack seq pid capped e orig tlvs : ack_ok seq pid capped e orig tlvs ->
  is_Some (libbpf_nla_dump_errormsg (ack seq pid capped e orig tlvs) 0).
Proof.
  intros Ha. pose proof Ha as (Hs & Hp & He & Hz & Ho & Hc). pose proof (zlen_nonneg tlvs).
  destruct (nlmsg_fields [] _ _ _ _ _ [] (ack_hdr_ok _ _ _ _ _ _ Ha)) as (El & _ & Ef & _ & _).
  rewrite app_nil_r in El, Ef. change ([] ++ ?x) with x in El, Ef. change (zlen []) with 0 in El, Ef. fold (ack seq pid capped e orig tlvs) in El, Ef.
  unfold libbpf_nla_dump_errormsg. rewrite Ef. cbn [mbind option_bind]. destruct tlvs as [| b tl] eqn:Et; [by destruct capped |].
  rewrite <- Et in *. assert (c_true (Z.land (Z.lor (if capped then NLM_F_CAPPED else 0) NLM_F_ACK_TLVS) NLM_F_ACK_TLVS) = true) as ->
    by (by destruct capped). cbn [negb].
  assert ((if negb (c_true (Z.land (Z.lor (if capped then NLM_F_CAPPED else 0) NLM_F_ACK_TLVS) NLM_F_CAPPED))
     then inner ← load32 (ack seq pid capped e orig tlvs) (0 + NLMSG_HDRLEN + 4); Some (20 + s32 (inner - NLMSG_HDRLEN))
     else Some 20) = Some (4 + zlen orig)) as ->.
  { destruct capped; [by rewrite Hc |]. cbn [Z.lor NLM_F_ACK_TLVS NLM_F_CAPPED Z.land Pos.land Pos.lor c_true Z.eqb Pos.eqb negb].
    assert (load32 (ack seq pid false e orig tlvs) (0 + NLMSG_HDRLEN + 4) = Some (zlen orig)) as ->.
    { unfold ack, nlmsg, NLMSG_HDRLEN. repeat (rewrite load_skip by (rewrite zlen_le_split; lia); rewrite zlen_le_split).
      by apply load_app_l. }
    cbn [mbind option_bind]. rewrite s32_id by (unfold NLMSG_HDRLEN; lia). f_equal. unfold NLMSG_HDRLEN. lia. }
  cbn [mbind option_bind]. rewrite El. cbn [mbind option_bind]. rewrite !zlen_app, zlen_le_split.
  unfold NLMSG_HDRLEN. rewrite s32_id by lia.
  assert (zlen (ack seq pid capped e orig tlvs) = 20 + zlen orig + zlen tlvs) as Hza.
  { unfold ack. rewrite zlen_nlmsg, !zlen_app, zlen_le_split. unfold NLMSG_HDRLEN. lia. }
  destruct (parse_tb_ok (ack seq pid capped e orig tlvs) NLMSGERR_ATTR_MAX (0 + 16 + (4 + zlen orig))
    (0 + (16 + (Z.of_nat 4 + (zlen orig + zlen tlvs))) - (0 + 16 + (4 + zlen orig))) (Some extack_policy))
    as (r & tb & E & Hr & Htb & _); [lia | done | lia | by split; [| repeat constructor] |].
  rewrite E. cbn [mbind option_bind]. destruct (negb (r =? 0)); [done |].
  destruct (lookup_lt_is_Some_2 tb (Z.to_nat NLMSGERR_ATTR_MSG)) as [t ->]; [unfold zlen, NLMSGERR_ATTR_MAX, NLMSGERR_ATTR_MSG in *; lia |]. done.
Qed.

(** What is done with a message that has the right port and sequence number. *)
Definition on_msg {C} (fn : option (list byte -> Z -> C -> option (Z * C))) (m : list byte) (nh type : Z)
    (next : C -> option (msgs_end C)) (cookie : C) : option (msgs_end C) :=
  if type =? NLMSG_ERROR then
    error ← load32 m (nh + NLMSG_HDRLEN);
    if s32 error =? 0 then next cookie else
    _ ← libbpf_nla_dump_errormsg m nh;
    Some (Finished (s32 error) cookie)
  else if type =? NLMSG_DONE then Some (Finished 0 cookie) else
  match fn with
  | Some fn =>
    '(ret, cookie) ← fn m nh cookie;
    if ret =? NL_CONT then next cookie else
    if ret =? NL_NEXT then Some (Start cookie) else
    if ret =? NL_DONE then Some (Finished 0 cookie) else Some (Finished ret cookie)
  | None => next cookie
  end.

Lemma recv_step {C} (fn : option (list byte -> Z -> C -> option (Z * C))) pid seq fuel m pre type flags body post rem mp c :
  m = pre ++ nlmsg type flags (u32 seq) pid body ++ post -> hdr_ok type flags (u32 seq) pid body ->
  NLMSG_HDRLEN + zlen body <= rem ->
  recv_msgs fn pid seq (S fuel) m (zlen pre) rem mp c =
    on_msg fn m (zlen pre) type
      (recv_msgs fn pid seq fuel m (zlen pre + NLMSG_ALIGN (NLMSG_HDRLEN + zlen body)) (rem - NLMSG_ALIGN (NLMSG_HDRLEN + zlen body))
         (if c_true (Z.land flags NLM_F_MULTI) then true else mp)) c.
Proof.
  intros -> Hh Hr. destruct (nlmsg_fields pre type flags (u32 seq) pid body post Hh) as (E1 & E2 & E3 & E4 & E5).
  cbn [recv_msgs]. rewrite NLMSG_OK_nlmsg by done. cbn [mbind option_bind negb]. rewrite E1, E2, E3, E4, E5. cbn [mbind option_bind].
  rewrite !Z.eqb_refl. done.
Qed.

Lemma recv_msgs_end {C} (fn : option (list byte -> Z -> C -> option (Z * C))) pid seq fuel m nh rem mp c :
  rem < NLMSG_HDRLEN -> recv_msgs fn pid seq fuel m nh rem mp c = Some (Ended mp c).
Proof. intros H. destruct fuel; cbn [recv_msgs]; unfold NLMSG_OK; by rewrite (proj2 (Z.ltb_lt _ _)). Qed.

Lemma recv_ack {C} (fn : option (list byte -> Z -> C -> option (Z * C))) pid seq capped e orig tlvs c :
  ack_ok (u32 seq) pid capped e orig tlvs -> let m := ack (u32 seq) pid capped e orig tlvs in
  recv_msgs fn pid seq (length m) m 0 (zlen m) false c = Some (if e =? 0 then Ended false c else Finished e c).
Proof.
  intros Ha m. pose proof Ha as (_ & _ & He & Hz & Ho & _). pose proof (ack_hdr_ok _ _ _ _ _ _ Ha) as Hh.
  assert (zlen m = NLMSG_HDRLEN + zlen (le_split 4 e ++ orig ++ tlvs)) as Hm by apply zlen_nlmsg.
  pose proof (zlen_nonneg (le_split 4 e ++ orig ++ tlvs)). destruct (length m) as [| fuel] eqn:El; [unfold zlen, NLMSG_HDRLEN in Hm; lia |].
  pose proof (recv_step fn pid seq fuel m [] _ _ _ [] (zlen m) false c (eq_sym (app_nil_r m)) Hh ltac:(lia)) as Es.
  change (zlen []) with 0 in Es. rewrite Es. clear Es. unfold on_msg. cbn [Z.eqb NLMSG_ERROR Pos.eqb].
  assert (load32 m (0 + NLMSG_HDRLEN) = Some (e mod 2 ^ 32)) as ->.
  { unfold m, ack, nlmsg, NLMSG_HDRLEN. repeat (rewrite load_skip by (rewrite zlen_le_split; lia); rewrite zlen_le_split).
    apply load_split. }
  cbn [mbind option_bind]. rewrite s32_u32 by done. destruct (Z.eqb_spec e 0).
  - rewrite recv_msgs_end; [by destruct capped, tlvs |]. rewrite <- Hm. pose proof (align_ge (zlen m)). unfold NLMSG_HDRLEN. lia.
  - destruct (dump_errormsg_ack _ _ _ _ _ _ Ha) as [x Ex]. unfold m. rewrite Ex. done.
Qed.

(** ** Exchanges *)

(** The socket opens, with port [pid], and the request can be sent. *)
Definition connected (w : nl_world) (sock pid : Z) : Prop :=
  0 <= sock /\ w_socket w = inr sock /\ w_bind w = None /\ w_getsockname w = inr (pid, sizeof_sockaddr_nl) /\
  0 <= pid < 2 ^ 32 /\ w_send w = None /\ forall n, w_alloc w n = true.

(** The message that is sent for a request. *)
Definition sent_msg (time type flags : Z) (body : list byte) : list byte := nlmsg type flags time 0 body.

Lemma send_recv_spec {C} w (fn : option (list byte -> Z -> C -> option (Z * C))) proto type flags body c sock pid :
  connected w sock pid -> NLMSG_HDRLEN + zlen body <= sizeof_req ->
  libbpf_netlink_send_recv w (request (le_split 2 type ++ le_split 2 flags ++ replicate 8 x00 ++ body)) proto fn c =
    let msg := sent_msg (w_time w) type flags body in
    '(ret, c) ← libbpf_netlink_recv fn pid (s32 (w_time w)) (w_alloc w) (w_recv w proto msg) c;
    Ret (ret, c, [Opened sock; Sent proto msg; Closed sock]).
Proof.
  intros (H0 & Hs & Hb & Hg & _ & Hsend & _) Hz. pose proof (zlen_nonneg body). unfold libbpf_netlink_send_recv, libbpf_netlink_open.
  rewrite Hs, Hb, Hg, Z.eqb_refl. cbn [negb]. rewrite (proj2 (Z.ltb_ge _ _)) by done.
  unfold request. rewrite !zlen_app, !zlen_le_split, zlen_replicate.
  set (tail := replicate (Z.to_nat (sizeof_req - _ - _)) x00). set (len := 4 + _).
  assert (len = NLMSG_HDRLEN + zlen body) as Hlen by (unfold len, NLMSG_HDRLEN; lia). rewrite Hlen.
  change (replicate 8 x00) with (replicate 4 x00 ++ replicate 4 x00). rewrite <- !app_assoc.
  set (a := le_split 4 (NLMSG_HDRLEN + zlen body)). set (b := le_split 2 type). set (d := le_split 2 flags).
  replace (a ++ b ++ d ++ replicate 4 x00 ++ replicate 4 x00 ++ body ++ tail)
    with ((a ++ b ++ d ++ replicate 4 x00) ++ replicate 4 x00 ++ body ++ tail) by (by rewrite <- !app_assoc).
  rewrite store_app; [| unfold a, b, d; rewrite !zlen_app, !zlen_le_split, zlen_replicate; done | by rewrite length_le_split].
  cbn [defd mbind out_bind].
  replace ((a ++ b ++ d ++ replicate 4 x00) ++ le_split 4 0 ++ body ++ tail)
    with ((a ++ b ++ d) ++ replicate 4 x00 ++ le_split 4 0 ++ body ++ tail) by (by rewrite <- !app_assoc).
  rewrite store_app; [| unfold a, b, d; rewrite !zlen_app, !zlen_le_split; done | by rewrite length_le_split].
  cbn [defd mbind out_bind].
  replace ((a ++ b ++ d) ++ le_split 4 (w_time w) ++ le_split 4 0 ++ body ++ tail)
    with (sent_msg (w_time w) type flags body ++ tail) by (unfold sent_msg, nlmsg; by rewrite <- !app_assoc).
  assert (load32 (sent_msg (w_time w) type flags body ++ tail) 0 = Some (NLMSG_HDRLEN + zlen body)) as ->.
  { unfold sent_msg, nlmsg. rewrite <- app_assoc. apply load_here. unfold sizeof_req, NLMSG_HDRLEN in *. lia. }
  cbn [defd mbind out_bind]. rewrite <- (zlen_nlmsg type flags (w_time w) 0 body).
  assert (bytes_at (sent_msg (w_time w) type flags body ++ tail) 0 (Z.to_nat (zlen (nlmsg type flags (w_time w) 0 body))) =
    Some (sent_msg (w_time w) type flags body)) as -> by (apply (bytes_at_app []); [done | unfold sent_msg, zlen; lia]).
  cbn [defd mbind out_bind]. rewrite Hsend. done.
Qed.

Lemma req_init_request type flags body : NLMSG_HDRLEN + zlen body <= sizeof_req ->
  req_init (NLMSG_LENGTH (zlen body)) type flags body = request (le_split 2 type ++ le_split 2 flags ++ replicate 8 x00 ++ body).
Proof.
  intros H. unfold req_init, request, NLMSG_LENGTH, NLMSG_HDRLEN in *. rewrite !zlen_app, !zlen_le_split, zlen_replicate, <- !app_assoc.
  f_equal; [f_equal; lia |]. do 5 f_equal. lia.
Qed.

Lemma zlen_ifinfomsg family index : zlen (ifinfomsg family index) = 16.
Proof. unfold ifinfomsg. by rewrite !zlen_app, !zlen_le_split, !zlen_replicate. Qed.

(** ** Attaching *)

Definition word (t v : Z) : Z * list byte := (t, le_split 4 v).

Lemma zlen_word t v : zlen (encode_attr (word t v)) = 8.
Proof. rewrite zlen_encode_attr. cbn [word snd]. by rewrite zlen_le_split. Qed.

Lemma word_ok t v : 0 <= t < 2 ^ 16 -> attr_ok (word t v).
Proof. intros H. split; [done |]. cbn [word snd]. by rewrite zlen_le_split. Qed.

(** The attributes of a request to attach. *)
Definition xdp_attrs (fd old_fd flags : Z) : list (Z * list byte) :=
  word IFLA_XDP_FD fd :: (if c_true flags then [word IFLA_XDP_FLAGS flags] else []) ++
    (if c_true (Z.land flags XDP_FLAGS_REPLACE) then [word IFLA_XDP_EXPECTED_FD old_fd] else []).

Definition setlink_body (ifindex fd old_fd flags : Z) : list byte :=
  ifinfomsg AF_UNSPEC ifindex ++ encode_attr (Z.lor IFLA_XDP NLA_F_NESTED, encode_attrs (xdp_attrs fd old_fd flags)).

(** Adding one word to a request that has room. *)
Lemma add_word rest t v : aligned rest -> 12 + zlen rest <= sizeof_req ->
  nlattr_add (request rest) t (Some (le_split 4 v)) 4 = Some (0, request (rest ++ encode_attr (word t v))) /\
  aligned (rest ++ encode_attr (word t v)) /\ zlen (rest ++ encode_attr (word t v)) = zlen rest + 8.
Proof.
  intros Ha Hz. destruct (nlattr_add_fits rest t (le_split 4 v) Ha) as [E H].
  - rewrite zlen_le_split. change (NLA_ALIGN (NLA_HDRLEN + Z.of_nat 4)) with 8. lia.
  - intros E. apply (f_equal length) in E. by rewrite length_le_split in E.
  - rewrite zlen_le_split in E. split_and!; [exact E | exact H |]. by rewrite zlen_app, zlen_word.
Qed.

Lemma encode_attrs_app a b : encode_attrs (a ++ b) = encode_attrs a ++ encode_attrs b.
Proof. apply bind_app. Qed.

Lemma encode_attrs_cons a l : encode_attrs (a :: l) = encode_attr a ++ encode_attrs l.
Proof. done. Qed.

Lemma encode_attrs_one a : encode_attrs [a] = encode_attr a.
Proof. apply app_nil_r. Qed.

Lemma zlen_xdp_attrs fd old_fd flags :
  0 <= zlen (encode_attrs (xdp_attrs fd old_fd flags)) <= 24 /\ zlen (encode_attrs (xdp_attrs fd old_fd flags)) mod 4 = 0.
Proof.
  unfold xdp_attrs. rewrite encode_attrs_cons, encode_attrs_app, !zlen_app, zlen_word.
  destruct (c_true flags), (c_true (Z.land _ _)); rewrite ?encode_attrs_one, ?zlen_word; change (zlen (encode_attrs [])) with 0; split; done || lia.
Qed.

Lemma add_opt_word rest (b : bool) t v : aligned rest -> 12 + zlen rest <= sizeof_req ->
  let rest' := rest ++ encode_attrs (if b then [word t v] else []) in
  (if b then defd (nlattr_add (request rest) t (Some (le_split 4 v)) 4) else Ret (0, request rest)) = Ret (0, request rest') /\
  aligned rest' /\ zlen rest' <= zlen rest + 8.
Proof.
  intros Ha Hz. destruct b.
  - destruct (add_word rest t v Ha Hz) as (-> & Ha3 & Hz3). cbv zeta. rewrite encode_attrs_one. split_and!; [done | done | lia].
  - cbv zeta. change (encode_attrs []) with (@nil byte). rewrite app_nil_r. split_and!; [done | done | lia].
Qed.

Lemma set_link_request w ifindex fd old_fd flags :
  __bpf_set_link_xdp_fd_replace w ifindex fd old_fd flags =
    '(ret, _, tr) ← libbpf_netlink_send_recv w
        (request (le_split 2 RTM_SETLINK ++ le_split 2 (Z.lor NLM_F_REQUEST NLM_F_ACK) ++ replicate 8 x00 ++ setlink_body ifindex fd old_fd flags))
        NETLINK_ROUTE None tt;
    Ret (ret, tr).
Proof.
  unfold __bpf_set_link_xdp_fd_replace. rewrite <- (zlen_ifinfomsg AF_UNSPEC ifindex), req_init_request
    by (rewrite zlen_ifinfomsg; done).
  set (hdr := le_split 2 RTM_SETLINK ++ _). assert (zlen hdr = 28) as Hz.
  { unfold hdr. by rewrite !zlen_app, !zlen_le_split, zlen_replicate, zlen_ifinfomsg. }
  assert (aligned hdr) as Ha by (split; rewrite Hz; done).
  destruct (nlattr_begin_nested_fits hdr IFLA_XDP Ha) as [-> Ha1]; [rewrite Hz; done |]. cbn [defd mbind out_bind].
  set (nest := Z.lor IFLA_XDP NLA_F_NESTED) in *. assert (zlen (hdr ++ encode_attr (nest, [])) = 32) as Hz1.
  { rewrite zlen_app, Hz, zlen_encode_attr. done. }
  destruct (add_word _ IFLA_XDP_FD fd Ha1) as (-> & Ha2 & Hz2); [rewrite Hz1; done |]. cbn [defd mbind out_bind Z.ltb Z.compare].
  set (r2 := _ ++ encode_attr (word IFLA_XDP_FD fd)) in *.
  destruct (add_opt_word r2 (c_true flags) IFLA_XDP_FLAGS flags Ha2) as (-> & Ha3 & Hz3); [unfold sizeof_req; lia |].
  cbn [mbind out_bind Z.ltb Z.compare]. set (r3 := r2 ++ _) in *.
  destruct (add_opt_word r3 (c_true (Z.land flags XDP_FLAGS_REPLACE)) IFLA_XDP_EXPECTED_FD old_fd Ha3) as (-> & Ha4 & _);
    [unfold sizeof_req; lia |]. set (r4 := r3 ++ _) in *.
  cbn [mbind out_bind Z.ltb Z.compare].
  assert (r4 = hdr ++ encode_attr (nest, []) ++ encode_attrs (xdp_attrs fd old_fd flags)) as Er.
  { unfold r4, r3, r2, xdp_attrs. rewrite encode_attrs_cons, encode_attrs_app. by rewrite <- !app_assoc. }
  rewrite Er in *. rewrite nlattr_end_nested_spec by (done || apply zlen_xdp_attrs). cbn [defd mbind out_bind].
  unfold setlink_body, hdr. rewrite <- !app_assoc. done.
Qed.

(** What the kernel reads from a request: the interface and, if present, the
    program, the flags and the program expected there. *)
Definition decode_setlink (m : list byte) : option (Z * option Z * option Z * option Z) :=
  len ← load32 m 0;
  index ← load32 m 20;
  '(err, tb) ← libbpf_nla_parse m IFLA_MAX 32 (len - 32) None;
  nla ← mjoin (tb !! Z.to_nat IFLA_XDP);
  '(err', x) ← libbpf_nla_parse_nested m IFLA_XDP_MAX nla None;
  let get t := le_combine <$> payload m (mjoin (x !! Z.to_nat t)) in
  if c_true err || c_true err' then None else
  Some (s32 index, s32 <$> get IFLA_XDP_FD, get IFLA_XDP_FLAGS, s32 <$> get IFLA_XDP_EXPECTED_FD).

Lemma xdp_attrs_ok fd old_fd flags : Forall attr_ok (xdp_attrs fd old_fd flags).
Proof.
  unfold xdp_attrs. constructor; [by apply word_ok |].
  apply Forall_app; split; destruct (c_true _); repeat constructor; by try apply word_ok.
Qed.

Lemma reads_payload m maxtype attrs tb t : reads m maxtype attrs tb -> 0 <= t <= maxtype ->
  payload m (mjoin (tb !! Z.to_nat t)) = find_last t attrs.
Proof. intros H Ht. destruct (H t Ht) as (e & -> & He). cbn [mjoin option_join]. destruct (find_last t attrs); [done | by subst e]. Qed.

Lemma decode_sent time ifindex fd old_fd flags : 0 <= flags < 2 ^ 32 ->
  - 2 ^ 31 <= ifindex < 2 ^ 31 -> - 2 ^ 31 <= fd < 2 ^ 31 -> - 2 ^ 31 <= old_fd < 2 ^ 31 ->
  decode_setlink (sent_msg time RTM_SETLINK (Z.lor NLM_F_REQUEST NLM_F_ACK) (setlink_body ifindex fd old_fd flags)) =
    Some (ifindex, Some fd, if c_true flags then Some flags else None,
          if c_true (Z.land flags XDP_FLAGS_REPLACE) then Some old_fd else None).
Proof.
  intros Hf Hi Hfd Hold. set (m := sent_msg _ _ _ _). unfold decode_setlink.
  destruct (zlen_xdp_attrs fd old_fd flags) as [Hx Hx4]. set (nested := (Z.lor IFLA_XDP NLA_F_NESTED, encode_attrs (xdp_attrs fd old_fd flags))).
  assert (zlen (encode_attr nested) = 4 + zlen (encode_attrs (xdp_attrs fd old_fd flags))) as Hn.
  { rewrite zlen_encode_attr. cbn [nested snd]. rewrite (align_id _ Hx4 : NLA_ALIGN _ = _). done. }
  assert (zlen (setlink_body ifindex fd old_fd flags) = 16 + zlen (encode_attr nested)) as Hb.
  { unfold setlink_body. by rewrite zlen_app, zlen_ifinfomsg. }
  assert (load32 m 0 = Some (32 + zlen (encode_attr nested))) as ->.
  { unfold m, sent_msg, nlmsg. rewrite load_here; [unfold NLMSG_HDRLEN; f_equal; lia | unfold NLMSG_HDRLEN; lia]. }
  assert (load32 m 20 = Some (ifindex mod 2 ^ 32)) as ->.
  { unfold m, sent_msg, nlmsg, setlink_body, ifinfomsg. rewrite <- !app_assoc.
    repeat (rewrite load_skip by (rewrite ?zlen_le_split, ?zlen_replicate; lia); rewrite ?zlen_le_split, ?zlen_replicate). apply load_split. }
  cbn [mbind option_bind]. rewrite s32_u32 by done.
  assert (exists pre, m = pre ++ encode_attrs [nested] ++ [] /\ zlen pre = 32) as (pre & Em & Hpre).
  { exists (le_split 4 (NLMSG_HDRLEN + zlen (setlink_body ifindex fd old_fd flags)) ++ le_split 2 RTM_SETLINK ++
      le_split 2 (Z.lor NLM_F_REQUEST NLM_F_ACK) ++ le_split 4 time ++ le_split 4 0 ++ ifinfomsg AF_UNSPEC ifindex).
    split; [| by rewrite !zlen_app, !zlen_le_split, zlen_ifinfomsg].
    rewrite encode_attrs_one, app_nil_r. unfold m, sent_msg, nlmsg, setlink_body. by rewrite <- !app_assoc. }
  destruct (parse_encode pre [nested] [] IFLA_MAX) as (tb & Ep & Hp); [done | |].
  { constructor; [| by constructor]. split; [done |]. cbn [nested snd]. unfold NLA_HDRLEN. lia. }
  rewrite <- Em in Ep, Hp. rewrite Hpre, encode_attrs_one in Ep.
  replace (32 + zlen (encode_attr nested) - 32) with (zlen (encode_attr nested)) by lia. rewrite Ep. cbn [mbind option_bind].
  destruct (Hp IFLA_XDP) as (e & -> & He); [done |].
  change (find_last IFLA_XDP [nested]) with (Some (encode_attrs (xdp_attrs fd old_fd flags))) in He.
  cbn [mjoin option_join]. destruct e as [nla |]; [| done]. cbn [mbind option_bind].
  destruct (parse_nested_encode m nla _ IFLA_XDP_MAX He ltac:(done) (xdp_attrs_ok _ _ _)) as (x & -> & Hx').
  cbn [mbind option_bind c_true Z.eqb negb orb]. rewrite !(reads_payload _ _ _ _ _ Hx') by done. unfold xdp_attrs.
  assert (forall v, le_combine (le_split 4 v) = v mod 2 ^ 32) as Hlc by (intros v; by rewrite le_combine_split).
  destruct (c_true flags), (c_true (Z.land flags XDP_FLAGS_REPLACE));
    lazy -[le_combine le_split s32]; rewrite ?Hlc, ?s32_u32 by done; rewrite ?Z.mod_small by done; done.
Qed.

Lemma u32_of_s32 t : u32 (s32 t) = u32 t.
Proof. unfold u32, s32. Z.to_euclidean_division_equations. lia. Qed.

Lemma nlmsg_nonempty type flags seq pid body : nlmsg type flags seq pid body <> [].
Proof. intros E. apply (f_equal zlen) in E. rewrite zlen_nlmsg in E. pose proof (zlen_nonneg body). change (zlen (@nil byte)) with 0 in E. unfold NLMSG_HDRLEN in E. lia. Qed.

(** The result of an exchange that is answered with an acknowledgement. *)
Lemma recv_acked {C} (fn : option (list byte -> Z -> C -> option (Z * C))) w pid ans capped e orig tlvs c :
  (forall n, w_alloc w n = true) -> ack_ok (u32 (w_time w)) pid capped e orig tlvs ->
  delivers (ack (u32 (w_time w)) pid capped e orig tlvs) ans ->
  libbpf_netlink_recv fn pid (s32 (w_time w)) (w_alloc w) ans c = Ret (e, c).
Proof.
  intros Halloc Ha Hd. unfold libbpf_netlink_recv. rewrite Halloc. cbn [negb].
  destruct (recv_round fn pid (s32 (w_time w)) (length ans) (w_alloc w) 4096 _ ans [] c Halloc Hd) as [iov E];
    [apply nlmsg_nonempty |]. rewrite app_nil_r in E. rewrite E. rewrite <- u32_of_s32 in *. rewrite recv_ack by done.
  destruct (Z.eqb_spec e 0) as [-> |]; done.
Qed.

(** The options of a caller that replaces the program [old]; [None] for no options. *)
Definition attach_opts (old : option Z) : option (list byte) :=
  (fun old => le_split 8 16 ++ le_split 4 old ++ replicate 4 x00) <$> old.

Lemma attach_unfold w ifindex fd flags old : - 2 ^ 31 <= default 0 old < 2 ^ 31 ->
  bpf_xdp_attach w ifindex fd flags (attach_opts old) =
    let replace := c_true (default 0 old) in
    __bpf_set_link_xdp_fd_replace w ifindex fd (if replace then default 0 old else -1)
      (if replace then Z.lor flags XDP_FLAGS_REPLACE else flags).
Proof.
  intros Ho. unfold bpf_xdp_attach. destruct old as [old |]; [| done]. cbn [attach_opts fmap option_fmap option_map default from_option] in *.
  set (o := le_split 8 16 ++ le_split 4 old ++ replicate 4 x00).
  assert (load64 o 0 = Some 16) as E0 by (by apply load_here).
  assert (OPTS_VALID (Some o) 12 = Some true) as ->.
  { unfold OPTS_VALID. rewrite E0. cbn [mbind option_bind]. unfold libbpf_validate_opts, libbpf_is_mem_zeroed.
    change (16 <? 8) with false. change (Z.to_nat (s64 (16 - 12))) with 4%nat. unfold o.
    assert (forall k : nat, (k < 4)%nat -> load8 (le_split 8 16 ++ le_split 4 old ++ replicate 4 x00) (12 + Z.of_nat k) = Some 0) as Hz.
    { intros k Hk. rewrite !load_skip by (rewrite ?zlen_le_split; lia). rewrite !zlen_le_split.
      destruct k as [| [| [| [| k]]]]; [done.. | lia]. }
    cbn [mem_zeroed]. change (12 + 1 + 1 + 1) with (12 + Z.of_nat 3). change (12 + 1 + 1) with (12 + Z.of_nat 2).
    change (12 + 1) with (12 + Z.of_nat 1). change 12 with (12 + Z.of_nat 0) at 1. rewrite !Hz by lia. done. }
  cbn [defd mbind out_bind negb]. unfold OPTS_HAS. rewrite E0. cbn [mbind option_bind defd out_bind]. change (12 <=? 16) with true. cbv iota.
  assert (load32 o 8 = Some (old mod 2 ^ 32)) as ->.
  { unfold o. rewrite load_skip by (rewrite zlen_le_split; lia). apply load_split. }
  cbn [defd mbind out_bind]. rewrite s32_u32 by done. cbv [id]. by destruct (c_true old).
Qed.

(** The flags and the program expected there that are sent, for the options. *)
Definition sent_flags (flags : Z) (old : option Z) : Z := if c_true (default 0 old) then Z.lor flags XDP_FLAGS_REPLACE else flags.
Definition sent_old (old : option Z) : Z := if c_true (default 0 old) then default 0 old else -1.

Definition attach_msg (w : nl_world) (ifindex fd flags : Z) (old : option Z) : list byte :=
  sent_msg (w_time w) RTM_SETLINK (Z.lor NLM_F_REQUEST NLM_F_ACK) (setlink_body ifindex fd (sent_old old) (sent_flags flags old)).

Lemma decode_attach_msg w ifindex fd flags old :
  - 2 ^ 31 <= ifindex < 2 ^ 31 -> - 2 ^ 31 <= fd < 2 ^ 31 -> 0 <= flags < 2 ^ 32 -> - 2 ^ 31 <= default 0 old < 2 ^ 31 ->
  decode_setlink (attach_msg w ifindex fd flags old) =
    Some (ifindex, Some fd, if c_true (sent_flags flags old) then Some (sent_flags flags old) else None,
      if c_true (Z.land (sent_flags flags old) XDP_FLAGS_REPLACE) then Some (sent_old old) else None).
Proof.
  intros Hi Hfd Hf Ho. apply decode_sent; [| done | done | unfold sent_old; destruct (c_true _); lia].
  unfold sent_flags. destruct (c_true _); [| done]. split; [apply Z.lor_nonneg; split; [lia | done] |].
  destruct (Z.eq_dec flags 0) as [-> | Hn]; [done |]. apply Z.log2_lt_pow2; [|].
  - assert (0 <= Z.lor flags XDP_FLAGS_REPLACE) by (apply Z.lor_nonneg; split; [lia | done]).
    assert (Z.lor flags XDP_FLAGS_REPLACE <> 0); [| lia]. intros E. by apply Z.lor_eq_0_iff in E as [_ ?].
  - rewrite Z.log2_lor by (unfold XDP_FLAGS_REPLACE; lia). apply Z.max_lub_lt; [apply Z.log2_lt_pow2; lia | done].
Qed.

Lemma attach_acked w sock pid ifindex fd flags old capped e orig tlvs : connected w sock pid -> - 2 ^ 31 <= default 0 old < 2 ^ 31 ->
  ack_ok (u32 (w_time w)) pid capped e orig tlvs ->
  delivers (ack (u32 (w_time w)) pid capped e orig tlvs) (w_recv w NETLINK_ROUTE (attach_msg w ifindex fd flags old)) ->
  bpf_xdp_attach w ifindex fd flags (attach_opts old) =
    Ret (e, [Opened sock; Sent NETLINK_ROUTE (attach_msg w ifindex fd flags old); Closed sock]).
Proof.
  intros Hw Ho Ha Hd. rewrite attach_unfold by done. cbv zeta. fold (sent_old old) (sent_flags flags old). rewrite set_link_request.
  rewrite (send_recv_spec w None _ _ _ _ tt sock pid Hw).
  - cbv zeta. destruct Hw as (_ & _ & _ & _ & _ & _ & Halloc). rewrite (recv_acked None w pid _ capped e orig tlvs) by done. done.
  - unfold setlink_body. rewrite zlen_app, zlen_ifinfomsg, zlen_encode_attr. cbn [snd].
    destruct (zlen_xdp_attrs fd (sent_old old) (sent_flags flags old)) as [Hx _].
    destruct (NLA_ALIGN_spec (zlen (encode_attrs (xdp_attrs fd (sent_old old) (sent_flags flags old))))).
    unfold NLMSG_HDRLEN, NLA_HDRLEN, sizeof_req. lia.
Qed.

(** Attaching an XDP program asks the kernel for exactly what the caller
    asked for.  [bpf_xdp_attach] sends one message over one socket, which it
    closes; decoded with the attribute parser, the message names the
    interface, the program, the flags if there are any, and, exactly when the
    caller gave a program to replace or the REPLACE flag, the program expected
    there; and the result is the error of the kernel's acknowledgement,
    whatever else the acknowledgement contains and however often the calls
    that receive it are interrupted. *)
Theorem xdp_attach_request w sock pid ifindex fd flags old : connected w sock pid ->
  - 2 ^ 31 <= ifindex < 2 ^ 31 -> - 2 ^ 31 <= fd < 2 ^ 31 -> 0 <= flags < 2 ^ 32 -> - 2 ^ 31 <= default 0 old < 2 ^ 31 ->
  let flags' := if c_true (default 0 old) then Z.lor flags XDP_FLAGS_REPLACE else flags in
  exists msg,
    decode_setlink msg = Some (ifindex, Some fd, if c_true flags' then Some flags' else None,
      if c_true (Z.land flags' XDP_FLAGS_REPLACE) then Some (if c_true (default 0 old) then default 0 old else -1) else None) /\
    forall capped e orig tlvs, ack_ok (u32 (w_time w)) pid capped e orig tlvs ->
      delivers (ack (u32 (w_time w)) pid capped e orig tlvs) (w_recv w NETLINK_ROUTE msg) ->
      bpf_xdp_attach w ifindex fd flags (attach_opts old) = Ret (e, [Opened sock; Sent NETLINK_ROUTE msg; Closed sock]).
Proof.
  intros Hw Hi Hfd Hf Ho flags'. exists (attach_msg w ifindex fd flags old). split; [by apply decode_attach_msg |].
  intros capped e orig tlvs Ha Hd. by eapply attach_acked.
Qed.

(** ** Querying *)

Definition RTM_NEWLINK : Z := 16.

(** A link in a dump.  [l_head] and [l_tail] are the other fields of its
    [struct ifinfomsg]; [l_xdp] are the attributes nested in IFLA_XDP. *)
Record link := { l_head : list byte; l_index : Z; l_tail : list byte; l_attrs : list (Z * list byte);
                 l_xdp : option (list (Z * list byte)) }.

(** The kernel gives the mode one byte and the ids four. *)
Definition xdp_sizes (inner : list (Z * list byte)) : Prop :=
  Forall attr_ok inner /\ (forall bs, find_last IFLA_XDP_ATTACHED inner = Some bs -> length bs = 1%nat) /\
  forall t bs, IFLA_XDP_PROG_ID <= t <= IFLA_XDP_HW_PROG_ID -> find_last t inner = Some bs -> length bs = 4%nat.

Definition link_ok (l : link) : Prop :=
  length (l_head l) = 4%nat /\ length (l_tail l) = 8%nat /\ - 2 ^ 31 <= l_index l < 2 ^ 31 /\ Forall attr_ok (l_attrs l) /\
  zlen (encode_attrs (l_attrs l)) < 2 ^ 20 /\ find_last IFLA_XDP (l_attrs l) = encode_attrs <$> l_xdp l /\
  match l_xdp l with Some inner => xdp_sizes inner | None => True end.

Definition link_body (l : link) : list byte := l_head l ++ le_split 4 (l_index l) ++ l_tail l ++ encode_attrs (l_attrs l).

Definition value_or (old : Z) (v : option (list byte)) : Z := match v with Some bs => le_combine bs | None => old end.

(** What the attributes say of the program attached. *)
Definition xdp_of (inner : list (Z * list byte)) (i : xdp_link_info) : xdp_link_info :=
  match find_last IFLA_XDP_ATTACHED inner with
  | None => i
  | Some bs =>
    let mode := le_combine bs in
    let id t old := if mode =? XDP_ATTACHED_NONE then old else value_or old (find_last t inner) in
    {| prog_id := id IFLA_XDP_PROG_ID (prog_id i); drv_prog_id := id IFLA_XDP_DRV_PROG_ID (drv_prog_id i);
       hw_prog_id := id IFLA_XDP_HW_PROG_ID (hw_prog_id i); skb_prog_id := id IFLA_XDP_SKB_PROG_ID (skb_prog_id i);
       attach_mode := mode |}
  end.

Definition see_link (x : xdp_id_md) (l : link) : xdp_id_md :=
  if c_true (x_ifindex x) && negb (x_ifindex x =? l_index l) then x else
  match l_xdp l with
  | None => x
  | Some inner => {| x_ifindex := x_ifindex x; x_info := xdp_of inner (x_info x) |}
  end.

Lemma get_u32_or_reads m maxtype inner tb t old : reads m maxtype inner tb -> 0 <= t <= maxtype ->
  (forall bs, find_last t inner = Some bs -> length bs = 4%nat) -> get_u32_or m tb t old = Some (value_or old (find_last t inner)).
Proof.
  intros Hr Ht Hs. unfold get_u32_or. destruct (Hr t Ht) as (e & -> & He). cbn [mbind option_bind].
  destruct (find_last t inner) as [bs |]; [| by subst e].
  destruct (payload_load m e bs 4 He (Hs _ eq_refl)) as (p & -> & Ep). exact Ep.
Qed.

Lemma get_xdp_info_spec m ifinfo tb l x : load32 m (ifinfo + 4) = Some (l_index l mod 2 ^ 32) ->
  reads m IFLA_MAX (l_attrs l) tb -> link_ok l -> get_xdp_info m ifinfo tb x = Some (0, see_link x l).
Proof.
  intros E Hr (_ & _ & Hi & _ & _ & Hx & Hs). unfold get_xdp_info, see_link. rewrite E. cbn [mbind option_bind]. rewrite s32_u32 by done.
  destruct (c_true (x_ifindex x) && _); [done |]. destruct (Hr IFLA_XDP) as (e & -> & He); [done |]. cbn [mbind option_bind].
  rewrite Hx in He. destruct (l_xdp l) as [inner |]; [| by cbn in He; subst e]. cbn [fmap option_fmap option_map] in He.
  destruct Hs as (Hok & Hs1 & Hs4). destruct e as [nla |]; [| done].
  destruct (parse_nested_encode m nla inner IFLA_XDP_MAX He ltac:(done) Hok) as (xtb & -> & Hxr). cbn [mbind option_bind c_true Z.eqb negb].
  unfold xdp_of. destruct (Hxr IFLA_XDP_ATTACHED) as (a & -> & Ha); [done |]. cbn [mbind option_bind].
  destruct (find_last IFLA_XDP_ATTACHED inner) as [bs |]; [| subst a; by destruct x].
  destruct (payload_load m a bs 1 Ha (Hs1 _ eq_refl)) as (p & -> & Ep). unfold libbpf_nla_getattr_u8. rewrite Ep. cbn [mbind option_bind].
  destruct (le_combine bs =? XDP_ATTACHED_NONE); [done |].
  rewrite !(get_u32_or_reads m IFLA_XDP_MAX inner xtb) by (done || (intros ?; apply Hs4; done)). done.
Qed.

Lemma zlen_link_body l : link_ok l -> zlen (link_body l) = 16 + zlen (encode_attrs (l_attrs l)).
Proof. intros (H1 & H2 & _). unfold link_body. rewrite !zlen_app, zlen_le_split. unfold zlen at 1 2. rewrite H1, H2. lia. Qed.

Lemma dump_link m pre type flags sq pid l post x : m = pre ++ nlmsg type flags sq pid (link_body l) ++ post ->
  hdr_ok type flags sq pid (link_body l) -> link_ok l ->
  __dump_link_nlmsg get_xdp_info m (zlen pre) x = Some (0, see_link x l).
Proof.
  intros -> Hh Hl. destruct (nlmsg_fields pre type flags sq pid (link_body l) post Hh) as (E & _). unfold __dump_link_nlmsg. rewrite E.
  cbn [mbind option_bind]. rewrite zlen_link_body by done. pose proof Hl as (H1 & H2 & Hi & Hok & Hz & _).
  pose proof (zlen_nonneg (encode_attrs (l_attrs l))). unfold NLMSG_LENGTH, NLMSG_HDRLEN. rewrite s32_id by lia.
  replace (16 + (16 + zlen (encode_attrs (l_attrs l))) - (16 + 16)) with (zlen (encode_attrs (l_attrs l))) by lia.
  set (h := le_split 4 (NLMSG_HDRLEN + zlen (link_body l)) ++ le_split 2 type ++ le_split 2 flags ++ le_split 4 sq ++ le_split 4 pid).
  assert (zlen h = 16) as Hzh by (unfold h; by rewrite !zlen_app, !zlen_le_split).
  assert (pre ++ nlmsg type flags sq pid (link_body l) ++ post =
    (pre ++ h ++ l_head l ++ le_split 4 (l_index l) ++ l_tail l) ++ encode_attrs (l_attrs l) ++ post) as Em.
  { unfold nlmsg, h, link_body. by rewrite <- !app_assoc. }
  rewrite Em. destruct (parse_encode (pre ++ h ++ l_head l ++ le_split 4 (l_index l) ++ l_tail l) (l_attrs l) post IFLA_MAX ltac:(done) Hok)
    as (tb & Ep & Hr).
  assert (zlen (pre ++ h ++ l_head l ++ le_split 4 (l_index l) ++ l_tail l) = zlen pre + 16 + NLMSG_ALIGN 16) as Hzp.
  { rewrite !zlen_app, Hzh, zlen_le_split. unfold zlen at 2 3. rewrite H1, H2. change (NLMSG_ALIGN 16) with 16. lia. }
  rewrite Hzp in Ep. rewrite Ep. cbn [mbind option_bind Z.eqb negb]. apply get_xdp_info_spec; [| done | done].
  rewrite <- app_assoc, load_skip by lia. rewrite <- app_assoc, load_skip by lia. rewrite <- app_assoc, load_skip by (unfold zlen in *; lia).
  replace (zlen pre + 16 + 4 - zlen pre - zlen h - zlen (l_head l)) with 0 by (unfold zlen in *; lia).
  rewrite <- app_assoc. apply load_split.
Qed.

Lemma zlen_encode_attrs_mod attrs : zlen (encode_attrs attrs) mod 4 = 0.
Proof.
  induction attrs as [| a attrs IH]; [done |]. rewrite encode_attrs_cons, zlen_app, zlen_encode_attr, <- align_hdr.
  rewrite <- Zplus_mod_idemp_r, IH, Z.add_0_r. apply NLA_ALIGN_mod.
Qed.

(** *** A dump *)

Section Dump.
Variables (sq pid : Z).

Definition link_msg (l : link) : list byte := nlmsg RTM_NEWLINK NLM_F_MULTI sq pid (link_body l).
Definition dgram (links : list link) : list byte := links ≫= link_msg.
Definition done_msg : list byte := nlmsg NLMSG_DONE NLM_F_MULTI sq pid (le_split 4 0).

(** The links come in any number of datagrams; the end of the dump ends the
    last one.  What else would be received does not matter. *)
Inductive dumps : list link -> list (Z + list byte) -> Prop :=
| dumps_last links a rest : delivers (dgram links ++ done_msg) a -> dumps links (a ++ rest)
| dumps_more links links' a ans : links <> [] -> delivers (dgram links) a -> dumps links' ans -> dumps (links ++ links') (a ++ ans).
End Dump.

Section RecvDump.
Variables (seq pid : Z).
Hypothesis Hpid : 0 <= pid < 2 ^ 32.

Lemma link_hdr_ok l : link_ok l -> hdr_ok RTM_NEWLINK NLM_F_MULTI (u32 seq) pid (link_body l).
Proof.
  intros Hl. pose proof (u32_range seq). unfold hdr_ok. rewrite zlen_link_body by done. destruct Hl as (_ & _ & _ & _ & Hz & _).
  split_and!; done || lia.
Qed.

Lemma zlen_link_msg l : link_ok l ->
  zlen (link_msg (u32 seq) pid l) = NLMSG_HDRLEN + zlen (link_body l) /\ NLMSG_ALIGN (zlen (link_msg (u32 seq) pid l)) = zlen (link_msg (u32 seq) pid l).
Proof.
  intros Hl. unfold link_msg. rewrite zlen_nlmsg. split; [done |]. apply align_id. rewrite zlen_link_body by done.
  unfold NLMSG_HDRLEN. rewrite Z.add_assoc, <- Zplus_mod_idemp_r, zlen_encode_attrs_mod. done.
Qed.

Notation recv_link_msgs := (recv_msgs (Some (__dump_link_nlmsg get_xdp_info)) pid seq).

Lemma recv_links m links : Forall link_ok links -> forall pre post fuel mp x, m = pre ++ dgram (u32 seq) pid links ++ post ->
  recv_link_msgs (length links + fuel) m (zlen pre) (zlen (dgram (u32 seq) pid links) + zlen post) mp x =
  recv_link_msgs fuel m (zlen pre + zlen (dgram (u32 seq) pid links)) (zlen post)
    (match links with [] => mp | _ => true end) (foldl see_link x links).
Proof.
  induction 1 as [| l links Hl _ IH]; intros pre post fuel mp x E.
  { change (zlen (dgram _ _ [])) with 0. rewrite Z.add_0_r. done. }
  change (dgram (u32 seq) pid (l :: links)) with (link_msg (u32 seq) pid l ++ dgram (u32 seq) pid links) in *. rewrite <- app_assoc in E.
  cbn [length Nat.add foldl]. destruct (zlen_link_msg l Hl) as [Hz Ha]. rewrite zlen_app. pose proof (zlen_nonneg (dgram (u32 seq) pid links)).
  pose proof (zlen_nonneg post). rewrite (recv_step _ pid seq _ m pre _ _ _ _ _ mp x E (link_hdr_ok l Hl)) by lia.
  rewrite <- Hz, Ha. unfold on_msg. change (RTM_NEWLINK =? NLMSG_ERROR) with false. change (RTM_NEWLINK =? NLMSG_DONE) with false. cbv iota.
  rewrite (dump_link m pre _ _ _ _ l _ x E (link_hdr_ok l Hl) Hl). cbn [mbind option_bind]. change (0 =? NL_CONT) with true. cbv iota.
  change (c_true (Z.land NLM_F_MULTI NLM_F_MULTI)) with true. cbv iota.
  replace (zlen (link_msg (u32 seq) pid l) + zlen (dgram (u32 seq) pid links) + zlen post - zlen (link_msg (u32 seq) pid l))
    with (zlen (dgram (u32 seq) pid links) + zlen post) by lia.
  specialize (IH (pre ++ link_msg (u32 seq) pid l) post fuel true (see_link x l)). rewrite zlen_app, <- app_assoc in IH.
  rewrite (IH E). rewrite Z.add_assoc. by destruct links.
Qed.

Lemma length_dgram links : (length links <= length (dgram (u32 seq) pid links))%nat.
Proof.
  induction links as [| l links IH]; [done |].
  change (dgram (u32 seq) pid (l :: links)) with (link_msg (u32 seq) pid l ++ dgram (u32 seq) pid links). rewrite length_app.
  pose proof (nlmsg_nonempty RTM_NEWLINK NLM_F_MULTI (u32 seq) pid (link_body l)) as H. unfold link_msg. destruct (nlmsg _ _ _ _ _); [done |].
  simpl length. lia.
Qed.

Lemma recv_dgram links x : Forall link_ok links -> links <> [] -> let m := dgram (u32 seq) pid links in
  recv_link_msgs (length m) m 0 (zlen m) false x = Some (Ended true (foldl see_link x links)).
Proof.
  intros Hl Hne m. pose proof (recv_links m links Hl [] [] (length m - length links) false x (eq_sym (app_nil_r m))) as E.
  pose proof (length_dgram links). fold m in E. change (zlen (@nil byte)) with 0 in E. rewrite Z.add_0_r in E.
  replace (length links + (length m - length links))%nat with (length m) in E by (unfold m; lia). rewrite E.
  rewrite recv_msgs_end by done. by destruct links.
Qed.

Lemma recv_dgram_done links x : Forall link_ok links -> let m := dgram (u32 seq) pid links ++ done_msg (u32 seq) pid in
  recv_link_msgs (length m) m 0 (zlen m) false x = Some (Finished 0 (foldl see_link x links)).
Proof.
  intros Hl m. pose proof (recv_links m links Hl [] (done_msg (u32 seq) pid) (length m - length links) false x eq_refl) as E.
  pose proof (length_dgram links). pose proof (u32_range seq).
  assert (hdr_ok NLMSG_DONE NLM_F_MULTI (u32 seq) pid (le_split 4 0)) as Hh by (unfold hdr_ok; split_and!; done || lia).
  assert (zlen (done_msg (u32 seq) pid) = 20) as Hz by (unfold done_msg; by rewrite zlen_nlmsg).
  assert (length m = length (dgram (u32 seq) pid links) + 20)%nat as Hm by (unfold m; rewrite length_app; unfold zlen in Hz; lia).
  change (zlen (@nil byte)) with 0 in E. rewrite <- zlen_app in E. fold m in E.
  replace (length links + (length m - length links))%nat with (length m) in E by lia. rewrite E. rewrite Hz, Z.add_0_l.
  destruct (length m - length links)%nat as [| k] eqn:Ek; [lia |].
  rewrite (recv_step _ pid seq k m (dgram (u32 seq) pid links) _ _ _ [] 20 _ _ (f_equal _ (eq_sym (app_nil_r _))) Hh) by done. done.
Qed.

Lemma recv_dump links ans alloc : (forall n, alloc n = true) -> dumps (u32 seq) pid links ans -> Forall link_ok links ->
  forall fuel iov x, (length ans < fuel)%nat ->
  recv_loop (Some (__dump_link_nlmsg get_xdp_info)) pid seq fuel alloc iov ans x = Ret (0, foldl see_link x links).
Proof.
  intros Halloc. induction 1 as [links a rest Hd | links links' a ans Hne Hd _ IH]; intros Hl fuel iov x Hf;
    destruct fuel as [| fuel]; try lia.
  - destruct (recv_round (Some (__dump_link_nlmsg get_xdp_info)) pid seq fuel alloc iov _ a rest x Halloc Hd) as [iov' ->].
    { intros E. apply app_eq_nil in E as [_ E]. by apply nlmsg_nonempty in E. }
    rewrite recv_dgram_done by done. done.
  - apply Forall_app in Hl as [Hl Hl']. destruct (recv_round (Some (__dump_link_nlmsg get_xdp_info)) pid seq fuel alloc iov _ a ans x Halloc Hd) as [iov' ->].
    { intros E. pose proof (length_dgram links) as H. rewrite E in H. destruct links; [done | simpl in H; lia]. }
    rewrite recv_dgram by done. cbn [defd mbind out_bind]. rewrite foldl_app. apply IH; [done |].
    destruct Hd as (i1 & i2 & _ & _ & ->). rewrite !length_app in Hf. simpl in Hf. lia.
Qed.
End RecvDump.

(** The link asked for is the one that is reported. *)
Lemma see_links links l x : NoDup (l_index <$> links) -> l ∈ links -> x_ifindex x = l_index l -> l_index l <> 0 ->
  foldl see_link x links = see_link x l.
Proof.
  assert (forall links x, x_ifindex x <> 0 -> x_ifindex x ∉ (l_index <$> links) -> foldl see_link x links = x) as Hskip.
  { clear. induction links as [| k links IH]; intros x H0 Hn; [done |]. cbn [foldl fmap list_fmap] in *. apply not_elem_of_cons in Hn as [Hk Hn].
    unfold see_link at 2. unfold c_true. rewrite (proj2 (Z.eqb_neq _ 0)), (proj2 (Z.eqb_neq _ (l_index k))) by done. cbn [negb andb]. by apply IH. }
  intros Hnd Hin Hx H0. revert x Hx Hnd Hin. induction links as [| k links IH]; intros x Hx Hnd Hin; [by apply elem_of_nil in Hin |].
  cbn [foldl fmap list_fmap] in *. apply NoDup_cons in Hnd as [Hk Hnd]. apply elem_of_cons in Hin as [<- | Hin].
  - assert (x_ifindex (see_link x l) = x_ifindex x) as Hi by (unfold see_link; by repeat case_match). apply Hskip; by rewrite Hi, Hx.
  - assert (l_index k <> l_index l) as Hne. { intros E. apply Hk. rewrite E. by apply list_elem_of_fmap_2. }
    assert (see_link x k = x) as ->; [| by apply IH]. unfold see_link, c_true.
    rewrite (proj2 (Z.eqb_neq _ 0)), (proj2 (Z.eqb_neq _ (l_index k))) by congruence. done.
Qed.

(** *** Generic netlink: one message is the answer *)

Lemma recv_one {C} (fn : list byte -> Z -> C -> option (Z * C)) w pid ans type flags body c c' :
  (forall n, w_alloc w n = true) -> hdr_ok type flags (u32 (w_time w)) pid body -> type <> NLMSG_ERROR -> type <> NLMSG_DONE ->
  delivers (nlmsg type flags (u32 (w_time w)) pid body) ans ->
  fn (nlmsg type flags (u32 (w_time w)) pid body) 0 c = Some (NL_DONE, c') ->
  libbpf_netlink_recv (Some fn) pid (s32 (w_time w)) (w_alloc w) ans c = Ret (0, c').
Proof.
  intros Halloc Hh Ht1 Ht2 Hd Hfn. unfold libbpf_netlink_recv. rewrite Halloc. cbn [negb]. rewrite <- u32_of_s32 in *. set (m := nlmsg _ _ _ _ _) in *.
  destruct (recv_round (Some fn) pid (s32 (w_time w)) (length ans) (w_alloc w) 4096 m ans [] c Halloc Hd) as [iov E];
    [apply nlmsg_nonempty |]. rewrite app_nil_r in E. rewrite E.
  assert (zlen m = NLMSG_HDRLEN + zlen body) as Hm by apply zlen_nlmsg. pose proof (zlen_nonneg body).
  destruct (length m) as [| fuel] eqn:El; [unfold zlen, NLMSG_HDRLEN in Hm; lia |].
  pose proof (recv_step (Some fn) pid (s32 (w_time w)) fuel m [] _ _ _ [] (zlen m) false c (eq_sym (app_nil_r m)) Hh ltac:(lia)) as Es.
  change (zlen []) with 0 in Es. rewrite Es. unfold on_msg. rewrite !(proj2 (Z.eqb_neq type _)) by done. rewrite Hfn. done.
Qed.

(** A generic netlink message: [head] is its [struct genlmsghdr]. *)
Lemma parse_genl type flags sq pid head attrs maxtype : length head = 4%nat -> hdr_ok type flags sq pid (head ++ encode_attrs attrs) ->
  0 <= maxtype -> Forall attr_ok attrs -> let m := nlmsg type flags sq pid (head ++ encode_attrs attrs) in
  exists len tb, load32 m 0 = Some len /\ libbpf_nla_parse m maxtype (0 + NLMSG_HDRLEN + GENL_HDRLEN) (s32 (len - 20)) None = Some (0, tb) /\
    reads m maxtype attrs tb.
Proof.
  intros Hl Hh Hm Hok m. destruct (nlmsg_fields [] type flags sq pid (head ++ encode_attrs attrs) [] Hh) as (E & _).
  rewrite app_nil_r in E. change ([] ++ ?x) with x in E. change (zlen []) with 0 in E. fold m in E.
  pose proof (zlen_nonneg (encode_attrs attrs)). destruct Hh as (_ & _ & _ & _ & Hz). rewrite zlen_app in *.
  assert (zlen head = 4) as Hzh by (unfold zlen; lia). rewrite Hzh in *.
  set (pre := le_split 4 (NLMSG_HDRLEN + zlen (head ++ encode_attrs attrs)) ++ le_split 2 type ++ le_split 2 flags ++ le_split 4 sq ++ le_split 4 pid ++ head).
  destruct (parse_encode pre attrs [] maxtype Hm Hok) as (tb & Ep & Hr).
  assert (pre ++ encode_attrs attrs ++ [] = m) as Em by (rewrite app_nil_r; unfold pre, m, nlmsg; by rewrite <- !app_assoc).
  assert (zlen pre = 20) as Hzp by (unfold pre; rewrite !zlen_app, !zlen_le_split, Hzh; done).
  rewrite Em, Hzp in *. eexists _, tb. split_and!; [exact E | | exact Hr].
  rewrite s32_id by (unfold NLMSG_HDRLEN; lia). unfold NLMSG_HDRLEN, GENL_HDRLEN.
  replace (16 + (4 + zlen (encode_attrs attrs)) - 20) with (zlen (encode_attrs attrs)) by lia. exact Ep.
Qed.

(** *** The options in memory *)

Definition query_opts (i : xdp_link_info) (features segs : Z) : list byte :=
  le_split 8 sizeof_query_opts ++ le_split 4 (prog_id i) ++ le_split 4 (drv_prog_id i) ++ le_split 4 (hw_prog_id i) ++
  le_split 4 (skb_prog_id i) ++ le_split 1 (attach_mode i) ++ replicate 7 x00 ++ le_split 8 features ++ le_split 4 segs ++ replicate 4 x00.

Definition no_info : xdp_link_info := {| prog_id := 0; drv_prog_id := 0; hw_prog_id := 0; skb_prog_id := 0; attach_mode := 0 |}.

Lemma query_opts_sz i f s : load64 (query_opts i f s) 0 = Some sizeof_query_opts.
Proof. apply load_here. done. Qed.

Ltac eval_mem := lazy -[byte.of_Z Z.shiftr]; reflexivity.

Lemma opts_set_spec i i' f s off v : off + zlen v <= sizeof_query_opts ->
  store (query_opts i f s) off v = Some (query_opts i' f s) -> OPTS_SET (Some (query_opts i f s)) off v = Some (Some (query_opts i' f s)).
Proof.
  intros Hz E. unfold OPTS_SET. rewrite query_opts_sz. cbn [mbind option_bind]. rewrite (proj2 (Z.leb_le _ _)) by done. rewrite E. done.
Qed.

Lemma set_query_opts_spec i : set_query_opts (Some (query_opts no_info 0 0)) i = Some (Some (query_opts i 0 0)).
Proof.
  unfold set_query_opts. destruct i as [p d h s m]. unfold no_info. cbn [prog_id drv_prog_id hw_prog_id skb_prog_id attach_mode].
  rewrite (opts_set_spec _ {| prog_id := p; drv_prog_id := 0; hw_prog_id := 0; skb_prog_id := 0; attach_mode := 0 |}); [| done | eval_mem].
  cbn [mbind option_bind].
  rewrite (opts_set_spec _ {| prog_id := p; drv_prog_id := d; hw_prog_id := 0; skb_prog_id := 0; attach_mode := 0 |}); [| done | eval_mem].
  cbn [mbind option_bind].
  rewrite (opts_set_spec _ {| prog_id := p; drv_prog_id := d; hw_prog_id := h; skb_prog_id := 0; attach_mode := 0 |}); [| done | eval_mem].
  cbn [mbind option_bind].
  rewrite (opts_set_spec _ {| prog_id := p; drv_prog_id := d; hw_prog_id := h; skb_prog_id := s; attach_mode := 0 |}); [| done | eval_mem].
  cbn [mbind option_bind]. apply opts_set_spec; [done | eval_mem].
Qed.

Lemma store_features i f s f' : store (query_opts i f s) 32 (le_split 8 f') = Some (query_opts i f' s).
Proof. destruct i. eval_mem. Qed.

Lemma store_segs i f s s' : store (query_opts i f s) 40 (le_split 4 s') = Some (query_opts i f s').
Proof. destruct i. eval_mem. Qed.

(** *** The whole query *)

Definition exchange (sock : Z) (p : Z * list byte) : list event := [Opened sock; Sent (fst p) (snd p); Closed sock].

Definition getlink_msg (time : Z) : list byte :=
  sent_msg time RTM_GETLINK (Z.lor NLM_F_DUMP NLM_F_REQUEST) (ifinfomsg AF_PACKET 0).
Definition family_msg (time : Z) : list byte :=
  sent_msg time GENL_ID_CTRL NLM_F_REQUEST (genlmsghdr CTRL_CMD_GETFAMILY 2 ++ encode_attr (CTRL_ATTR_FAMILY_NAME, str "netdev" ++ [NUL])).
Definition dev_msg (time id ifindex : Z) : list byte :=
  sent_msg time id NLM_F_REQUEST (genlmsghdr NETDEV_CMD_DEV_GET 2 ++ encode_attr (word NETDEV_A_DEV_IFINDEX ifindex)).

(** A reply of generic netlink, that is not an acknowledgement. *)
Definition genl_reply (w : nl_world) (pid type flags : Z) (head : list byte) (attrs : list (Z * list byte)) (ans : list (Z + list byte)) : Prop :=
  length head = 4%nat /\ Forall attr_ok attrs /\ type <> NLMSG_ERROR /\ type <> NLMSG_DONE /\
  hdr_ok type flags (u32 (w_time w)) pid (head ++ encode_attrs attrs) /\
  delivers (nlmsg type flags (u32 (w_time w)) pid (head ++ encode_attrs attrs)) ans.

(** What the kernel says of the features of the device: it has no such
    family, or gives its id and, under that id, the features. *)
Inductive features_known (w : nl_world) (pid ifindex : Z) : Z -> Z -> Prop :=
| no_netdev capped orig tlvs :
  ack_ok (u32 (w_time w)) pid capped (- ENOENT) orig tlvs ->
  delivers (ack (u32 (w_time w)) pid capped (- ENOENT) orig tlvs) (w_recv w NETLINK_GENERIC (family_msg (w_time w))) ->
  features_known w pid ifindex 0 0
| netdev ftype fflags fhead fattrs idb type flags head attrs fb :
  genl_reply w pid ftype fflags fhead fattrs (w_recv w NETLINK_GENERIC (family_msg (w_time w))) ->
  find_last CTRL_ATTR_FAMILY_ID fattrs = Some idb -> length idb = 2%nat ->
  genl_reply w pid type flags head attrs (w_recv w NETLINK_GENERIC (dev_msg (w_time w) (le_combine idb) ifindex)) ->
  find_last NETDEV_A_DEV_IFINDEX attrs = Some (le_split 4 ifindex) ->
  find_last NETDEV_A_DEV_XDP_FEATURES attrs = Some fb -> length fb = 8%nat ->
  (forall bs, find_last NETDEV_A_DEV_XDP_ZC_MAX_SEGS attrs = Some bs -> length bs = 4%nat) ->
  features_known w pid ifindex (le_combine fb) (value_or 0 (find_last NETDEV_A_DEV_XDP_ZC_MAX_SEGS attrs)).

Lemma genl_reply_done {C} w pid type flags head attrs ans (fn : list byte -> Z -> C -> option (Z * C)) maxtype c c' :
  (forall n, w_alloc w n = true) -> genl_reply w pid type flags head attrs ans -> 0 <= maxtype ->
  (forall m len tb, load32 m 0 = Some len -> libbpf_nla_parse m maxtype (0 + NLMSG_HDRLEN + GENL_HDRLEN) (s32 (len - 20)) None = Some (0, tb) ->
     reads m maxtype attrs tb -> fn m 0 c = Some (NL_DONE, c')) ->
  libbpf_netlink_recv (Some fn) pid (s32 (w_time w)) (w_alloc w) ans c = Ret (0, c').
Proof.
  intros Halloc (Hl & Hok & H1 & H2 & Hh & Hd) Hm Hfn. destruct (parse_genl type flags _ pid head attrs maxtype Hl Hh Hm Hok) as (len & tb & E1 & E2 & Hr).
  eapply recv_one; [done | exact Hh | done | done | exact Hd | by eapply Hfn].
Qed.

Lemma genl_request id cmd t data : NLMSG_HDRLEN + 4 + NLA_ALIGN (NLA_HDRLEN + zlen data) <= sizeof_req -> data <> [] ->
  nlattr_add (req_init (NLMSG_LENGTH GENL_HDRLEN) id NLM_F_REQUEST (genlmsghdr cmd 2)) t (Some data) (zlen data) =
    Some (0, request (le_split 2 id ++ le_split 2 NLM_F_REQUEST ++ replicate 8 x00 ++ genlmsghdr cmd 2 ++ encode_attr (t, data))).
Proof.
  intros Hz Hd. change GENL_HDRLEN with (zlen (genlmsghdr cmd 2)). rewrite req_init_request by done.
  set (hdr := _ ++ _). assert (zlen hdr = 16) as Hh.
  { unfold hdr, genlmsghdr. rewrite !zlen_app, !zlen_le_split, !zlen_replicate. done. }
  destruct (nlattr_add_fits hdr t data) as [-> _]; [split; rewrite Hh; done | rewrite Hh; unfold NLMSG_HDRLEN in Hz; lia | done |].
  unfold hdr. by rewrite <- !app_assoc.
Qed.

Lemma parse_family_reads m len tb fattrs idb id : load32 m 0 = Some len ->
  libbpf_nla_parse m CTRL_ATTR_FAMILY_ID (0 + NLMSG_HDRLEN + GENL_HDRLEN) (s32 (len - 20)) None = Some (0, tb) ->
  reads m CTRL_ATTR_FAMILY_ID fattrs tb -> find_last CTRL_ATTR_FAMILY_ID fattrs = Some idb -> length idb = 2%nat ->
  parse_genl_family_id m 0 id = Some (NL_DONE, Some (le_combine idb)).
Proof.
  intros E1 E2 Hr Hid Hidl. unfold parse_genl_family_id. rewrite E1. cbn [mbind option_bind]. rewrite E2. cbn [mbind option_bind].
  destruct (Hr CTRL_ATTR_FAMILY_ID) as (e & -> & He); [done |]. rewrite Hid in He. cbn [mbind option_bind].
  destruct (payload_load m e idb 2 He Hidl) as (p & -> & Ep). unfold libbpf_nla_getattr_u16. by rewrite Ep.
Qed.

Lemma parse_features_reads m len tb attrs fb ifindex : load32 m 0 = Some len ->
  libbpf_nla_parse m NETDEV_CMD_MAX (0 + NLMSG_HDRLEN + GENL_HDRLEN) (s32 (len - 20)) None = Some (0, tb) ->
  reads m NETDEV_CMD_MAX attrs tb -> find_last NETDEV_A_DEV_IFINDEX attrs = Some (le_split 4 ifindex) ->
  find_last NETDEV_A_DEV_XDP_FEATURES attrs = Some fb -> length fb = 8%nat ->
  (forall bs, find_last NETDEV_A_DEV_XDP_ZC_MAX_SEGS attrs = Some bs -> length bs = 4%nat) ->
  parse_xdp_features m 0 {| f_ifindex := ifindex; f_xdp_zc_max_segs := 0; f_flags := 0 |} =
    Some (NL_DONE, {| f_ifindex := ifindex; f_xdp_zc_max_segs := value_or 0 (find_last NETDEV_A_DEV_XDP_ZC_MAX_SEGS attrs);
                      f_flags := le_combine fb |}).
Proof.
  intros E1 E2 Hr Hifi Hfb Hfl Hsegs. unfold parse_xdp_features. rewrite E1. cbn [mbind option_bind]. rewrite E2. cbn [mbind option_bind].
  destruct (Hr NETDEV_A_DEV_IFINDEX) as (e & -> & He); [done |]. destruct (Hr NETDEV_A_DEV_XDP_FEATURES) as (e' & -> & He'); [done |].
  rewrite Hifi in He. rewrite Hfb in He'. cbn [mbind option_bind].
  destruct (payload_load m e _ 4 He (length_le_split _ _)) as (p & -> & Ep). destruct (payload_load m e' fb 8 He' Hfl) as (p' & -> & Ep').
  unfold libbpf_nla_getattr_u32 at 1. rewrite Ep. cbn [mbind option_bind f_ifindex f_xdp_zc_max_segs]. rewrite le_combine_split.
  change (u32 ifindex) with (ifindex mod 2 ^ (Z.of_nat 4 * 8)). rewrite Z.eqb_refl. cbn [negb]. unfold libbpf_nla_getattr_u64. rewrite Ep'.
  cbn [mbind option_bind]. rewrite (get_u32_or_reads m NETDEV_CMD_MAX attrs tb) by done. done.
Qed.

Lemma query_features_spec w sock pid ifindex i f s : connected w sock pid -> features_known w pid ifindex f s ->
  exists msgs, query_features w ifindex (query_opts i 0 0) = Ret (0, query_opts i f s, msgs ≫= exchange sock).
Proof.
  intros Hw Hf. unfold query_features, libbpf_netlink_resolve_genl_family_id. rewrite genl_request by done.
  cbn [defd mbind out_bind Z.ltb Z.compare]. rewrite (send_recv_spec w _ _ _ _ _ _ sock pid Hw) by done.
  fold (family_msg (w_time w)). cbv zeta. pose proof Hw as (_ & _ & _ & _ & _ & _ & Halloc).
  destruct Hf as [capped orig tlvs Ha Hd | ftype fflags fhead fattrs idb type flags head attrs fb Hr1 Hid Hidl Hr2 Hifi Hfb Hfl Hsegs].
  - rewrite (recv_acked _ w pid _ capped (- ENOENT) orig tlvs) by done. cbn [mbind out_bind].
    change (- ENOENT <? 0) with true. rewrite Z.eqb_refl, store_features. cbn [defd mbind out_bind].
    exists [(NETLINK_GENERIC, family_msg (w_time w))]. done.
  - rewrite (genl_reply_done w pid _ _ _ _ _ parse_genl_family_id CTRL_ATTR_FAMILY_ID None (Some (le_combine idb)) Halloc Hr1);
      [| done | intros; by eapply parse_family_reads].
    cbn [defd mbind out_bind Z.ltb Z.compare]. change 4 with (zlen (le_split 4 ifindex)) at 1.
    rewrite genl_request; [| by rewrite zlen_le_split | intros E; apply (f_equal length) in E; by rewrite length_le_split in E].
    fold (word NETDEV_A_DEV_IFINDEX ifindex). cbn [defd mbind out_bind Z.ltb Z.compare].
    rewrite (send_recv_spec w _ _ _ _ _ _ sock pid Hw) by (by rewrite zlen_app, zlen_word).
    fold (dev_msg (w_time w) (le_combine idb) ifindex). cbv zeta.
    erewrite (genl_reply_done w pid _ _ _ _ _ parse_xdp_features NETDEV_CMD_MAX _ _ Halloc Hr2);
      [| done | intros; by eapply parse_features_reads].
    cbn [mbind out_bind c_true Z.eqb negb f_flags f_xdp_zc_max_segs]. rewrite store_features. cbn [defd mbind out_bind]. rewrite store_segs.
    exists [(NETLINK_GENERIC, family_msg (w_time w)); (NETLINK_GENERIC, dev_msg (w_time w) (le_combine idb) ifindex)]. done.
Qed.

(** What the kernel reports of a link. *)
Definition link_info (l : link) : xdp_link_info :=
  match l_xdp l with Some inner => xdp_of inner no_info | None => no_info end.

(** The id of the program attached in a mode, 0 for any. *)
Definition mode_id (mode : Z) (i : xdp_link_info) : Z :=
  if mode =? XDP_FLAGS_DRV_MODE then drv_prog_id i else
  if mode =? XDP_FLAGS_HW_MODE then hw_prog_id i else
  if mode =? XDP_FLAGS_SKB_MODE then skb_prog_id i else
  if attach_mode i =? XDP_ATTACHED_MULTI then 0 else prog_id i.

Lemma le_combine_range bs n : length bs = n -> 0 <= le_combine bs < 2 ^ (8 * Z.of_nat n).
Proof. intros <-. pose proof (le_combine_bound bs). lia. Qed.

Lemma link_info_range l : link_ok l -> let i := link_info l in
  0 <= prog_id i < 2 ^ 32 /\ 0 <= drv_prog_id i < 2 ^ 32 /\ 0 <= hw_prog_id i < 2 ^ 32 /\ 0 <= skb_prog_id i < 2 ^ 32 /\ 0 <= attach_mode i < 2 ^ 8.
Proof.
  intros (_ & _ & _ & _ & _ & _ & Hs). unfold link_info. destruct (l_xdp l) as [inner |]; [| done]. destruct Hs as (_ & H1 & H4).
  unfold xdp_of. destruct (find_last IFLA_XDP_ATTACHED inner) as [bs |] eqn:E; [| done].
  assert (forall t, IFLA_XDP_PROG_ID <= t <= IFLA_XDP_HW_PROG_ID -> 0 <= value_or 0 (find_last t inner) < 2 ^ 32) as Hv.
  { intros t Ht. destruct (find_last t inner) as [b |] eqn:Et; [| done]. apply (le_combine_range b 4). by apply (H4 t). }
  pose proof (le_combine_range bs 1 (H1 _ eq_refl)). cbn [prog_id drv_prog_id hw_prog_id skb_prog_id attach_mode no_info].
  destruct (le_combine bs =? XDP_ATTACHED_NONE); split_and!; try apply Hv; try lia; done.
Qed.

Lemma see_link_info l x : x_ifindex x = l_index l -> x_info x = no_info -> x_info (see_link x l) = link_info l.
Proof.
  intros E1 E2. unfold see_link, link_info. rewrite E1, Z.eqb_refl, andb_false_r. destruct (l_xdp l); [by rewrite <- E2 | done].
Qed.

Lemma query_opts_valid : OPTS_VALID (Some (query_opts no_info 0 0)) 44 = Some true.
Proof. vm_compute. reflexivity. Qed.

Lemma query_opts_fields i f s : 0 <= prog_id i < 2 ^ 32 -> 0 <= drv_prog_id i < 2 ^ 32 -> 0 <= hw_prog_id i < 2 ^ 32 ->
  0 <= skb_prog_id i < 2 ^ 32 -> 0 <= attach_mode i < 2 ^ 8 -> let o := query_opts i f s in
  load8 o 24 = Some (attach_mode i) /\ load32 o 8 = Some (prog_id i) /\ load32 o 12 = Some (drv_prog_id i) /\
  load32 o 16 = Some (hw_prog_id i) /\ load32 o 20 = Some (skb_prog_id i).
Proof.
  intros R1 R2 R3 R4 R5 o. unfold o, query_opts.
  split_and!; repeat (rewrite load_skip by (rewrite ?zlen_le_split; lia); rewrite ?zlen_le_split); by apply load_here.
Qed.

(** The whole of [bpf_xdp_query] with the options [bpf_xdp_query_id] gives. *)
Lemma xdp_query_spec w sock pid links l flags f s : connected w sock pid -> l_index l <> 0 ->
  Z.land flags (Z.lnot XDP_FLAGS_MASK) = 0 -> Z.land flags XDP_FLAGS_MODES ∈ [0; XDP_FLAGS_SKB_MODE; XDP_FLAGS_DRV_MODE; XDP_FLAGS_HW_MODE] ->
  dumps (u32 (w_time w)) pid links (w_recv w NETLINK_ROUTE (getlink_msg (w_time w))) ->
  Forall link_ok links -> NoDup (l_index <$> links) -> l ∈ links -> features_known w pid (l_index l) f s ->
  exists msgs, bpf_xdp_query w (l_index l) flags (Some (query_opts no_info 0 0)) =
    Ret (0, Some (query_opts (link_info l) f s), msgs ≫= exchange sock).
Proof.
  intros Hw H0 Hmask Hmode Hd Hok Hnd Hin Hf. unfold bpf_xdp_query. rewrite query_opts_valid. cbn [defd mbind out_bind negb].
  rewrite Hmask. change (c_true 0) with false. cbv iota. change (Z.lor XDP_FLAGS_SKB_MODE _) with XDP_FLAGS_MODES. cbv zeta.
  assert (Z.land (Z.land flags XDP_FLAGS_MODES) (Z.land flags XDP_FLAGS_MODES - 1) = 0) as ->.
  { set (k := Z.land flags XDP_FLAGS_MODES) in *. clearbody k. repeat (apply elem_of_cons in Hmode as [-> | Hmode]; [done |]). by apply elem_of_nil in Hmode. }
  change (c_true 0) with false. cbv iota.
  rewrite <- (zlen_ifinfomsg AF_PACKET 0), req_init_request by (rewrite zlen_ifinfomsg; done).
  rewrite (send_recv_spec w _ _ _ _ _ _ sock pid Hw) by (rewrite zlen_ifinfomsg; done). fold (getlink_msg (w_time w)). cbv zeta.
  pose proof Hw as (_ & _ & _ & _ & Hpid & _ & Halloc). unfold libbpf_netlink_recv. rewrite Halloc. cbn [negb].
  rewrite <- u32_of_s32 in Hd. rewrite (recv_dump (s32 (w_time w)) pid Hpid links _ (w_alloc w) Halloc Hd Hok) by lia. cbn [mbind out_bind].
  change (c_true 0) with false. cbv iota. fold no_info. rewrite (see_links links l) by done. rewrite see_link_info by done.
  rewrite set_query_opts_spec. cbn [defd mbind out_bind]. unfold OPTS_HAS. rewrite query_opts_sz. cbn [defd mbind option_bind out_bind].
  change (40 <=? sizeof_query_opts) with true. cbn [negb].
  destruct (query_features_spec w sock pid (l_index l) (link_info l) f s Hw Hf) as [msgs ->]. cbn [mbind out_bind].
  exists ((NETLINK_ROUTE, getlink_msg (w_time w)) :: msgs). done.
Qed.

(** C25: querying the XDP program of an interface gives what the kernel
    reports.  The sockets can be opened and sent to, there is memory for what is
    received, the flags are known ones that name at most one mode, and the kernel
    answers the query of the device's features, also by not knowing the family.  Then
    for any dump of links with different indexes that has the interface, cut into
    datagrams in any way and received with interruptions, and for any attributes of
    those links that are shorter than 2^20 bytes and in which those about XDP have their
    sizes, [bpf_xdp_query_id] returns 0 and the id that the attributes of
    the interface give for the mode asked for (for no mode, the id of the one
    program attached, or 0 when there are several), and every socket it opened is
    closed. *)
Theorem xdp_query_id_spec w sock pid links l flags prog f s : connected w sock pid -> l_index l <> 0 ->
  Z.land flags (Z.lnot XDP_FLAGS_MASK) = 0 -> Z.land flags XDP_FLAGS_MODES ∈ [0; XDP_FLAGS_SKB_MODE; XDP_FLAGS_DRV_MODE; XDP_FLAGS_HW_MODE] ->
  dumps (u32 (w_time w)) pid links (w_recv w NETLINK_ROUTE (getlink_msg (w_time w))) ->
  Forall link_ok links -> NoDup (l_index <$> links) -> l ∈ links -> features_known w pid (l_index l) f s ->
  exists msgs, bpf_xdp_query_id w (l_index l) flags prog =
    Ret (0, mode_id (Z.land flags XDP_FLAGS_MODES) (link_info l), msgs ≫= exchange sock).
Proof.
  intros Hw H0 Hmask Hmode Hd Hok Hnd Hin Hf.
  destruct (xdp_query_spec w sock pid links l flags f s Hw H0 Hmask Hmode Hd Hok Hnd Hin Hf) as [msgs E]. exists msgs.
  unfold bpf_xdp_query_id. change (le_split 8 sizeof_query_opts ++ replicate 40 x00) with (query_opts no_info 0 0). rewrite E.
  cbn [mbind out_bind defd]. change (c_true 0) with false. cbv iota zeta. clear E. set (k := Z.land flags XDP_FLAGS_MODES) in *. clearbody k.
  pose proof (proj1 (Forall_forall _ _) Hok l Hin) as Hl. destruct (link_info_range l Hl) as (R1 & R2 & R3 & R4 & R5).
  set (i := link_info l) in *. clearbody i.
  destruct (query_opts_fields i f s R1 R2 R3 R4 R5) as (E0 & E1 & E2 & E3 & E4).
  rewrite E0, E1, E2, E3, E4. cbn [defd mbind out_bind]. unfold mode_id.
  repeat (apply elem_of_cons in Hmode as [-> | Hmode]; [by destruct (attach_mode i =? XDP_ATTACHED_MULTI) |]). by apply elem_of_nil in Hmode.
Qed.

(** ** A kernel with two interfaces, one with a program, that knows no netdev family *)

Definition ex_xdp : list (Z * list byte) := [(IFLA_XDP_ATTACHED, [x01]); word IFLA_XDP_PROG_ID 9; word IFLA_XDP_DRV_PROG_ID 9].
Definition ex_lo : link :=
  {| l_head := replicate 4 x00; l_index := 1; l_tail := replicate 8 x00; l_attrs := [(3, str "lo" ++ [NUL])]; l_xdp := None |}.
Definition ex_eth0 : link :=
  {| l_head := replicate 4 x00; l_index := 2; l_tail := replicate 8 x00;
     l_attrs := [(3, str "eth0" ++ [NUL]); (IFLA_XDP, encode_attrs ex_xdp)]; l_xdp := Some ex_xdp |}.
Definition ex_ack (e : Z) : list byte := ack 1000 77 true e (replicate 16 x00) [].
Definition ex_dump : list (Z + list byte) :=
  [inl EINTR; inr (dgram 1000 77 [ex_lo]); inr (dgram 1000 77 [ex_lo]);
   inr (dgram 1000 77 [ex_eth0] ++ done_msg 1000 77); inl EAGAIN; inr (dgram 1000 77 [ex_eth0] ++ done_msg 1000 77)].
Definition ex_world : nl_world :=
  {| w_socket := inr 5; w_bind := None; w_getsockname := inr (77, sizeof_sockaddr_nl); w_time := 1000; w_send := None;
     w_alloc := fun _ => true;
     w_recv := fun proto msg =>
       if negb (proto =? NETLINK_ROUTE) then [inr (ex_ack (- ENOENT)); inr (ex_ack (- ENOENT))]
       else if bool_decide (msg = getlink_msg 1000) then ex_dump else [inr (ex_ack (- EBUSY)); inl EINTR; inr (ex_ack (- EBUSY))] |}.

Lemma ex_connected : connected ex_world 5 77.
Proof. repeat split; done. Qed.

Lemma ex_links_ok : Forall link_ok [ex_lo; ex_eth0].
Proof.
  constructor; [| constructor; [| constructor]]; (split_and!; try done).
  - constructor; [done | constructor].
  - repeat (constructor; [done |]). constructor.
  - split_and!; [repeat (constructor; [done |]); constructor | by intros bs [= <-] |].
    intros t bs Ht Hb. assert (t = 4 \/ t = 5 \/ t = 6 \/ t = 7) as Hc by (unfold IFLA_XDP_PROG_ID, IFLA_XDP_HW_PROG_ID in Ht; lia).
    repeat destruct Hc as [-> | Hc]; try subst t; vm_compute in Hb; by simplify_eq.
Qed.

Lemma ex_ack_ok e : - 2 ^ 31 <= e < 2 ^ 31 -> ack_ok (u32 (w_time ex_world)) 77 true e (replicate 16 x00) [].
Proof. intros H. split_and!; done || lia. Qed.

Lemma xdp_attach_request_witness : exists msg,
  decode_setlink msg = Some (2, Some 6, Some 20, Some 4) /\
  bpf_xdp_attach ex_world 2 6 4 (attach_opts (Some 4)) = Ret (- EBUSY, [Opened 5; Sent NETLINK_ROUTE msg; Closed 5]).
Proof.
  destruct (xdp_attach_request ex_world 5 77 2 6 4 (Some 4) ex_connected) as (msg & E & H); [done.. |].
  exists msg. split; [exact E |]. apply (H true (- EBUSY) (replicate 16 x00) []); [by apply ex_ack_ok |].
  cbn [w_recv ex_world]. change (negb (NETLINK_ROUTE =? NETLINK_ROUTE)) with false. cbv iota. rewrite bool_decide_eq_false_2.
  - exists [], [inl EINTR]. split_and!; [constructor | constructor; [by left | constructor] | done].
  - intros ->. vm_compute in E. discriminate E.
Defined.

Lemma xdp_query_id_spec_witness : exists msgs, bpf_xdp_query_id ex_world 2 0 0 = Ret (0, 9, msgs ≫= exchange 5).
Proof.
  destruct (xdp_query_id_spec ex_world 5 77 [ex_lo; ex_eth0] ex_eth0 0 0 0 0) as [msgs E].
  - exact ex_connected.
  - done.
  - done.
  - apply elem_of_cons. by left.
  - cbn [w_recv ex_world w_time]. change (negb (NETLINK_ROUTE =? NETLINK_ROUTE)) with false. cbv iota. rewrite bool_decide_eq_true_2 by done.
    apply (dumps_more 1000 77 [ex_lo] [ex_eth0] [inl EINTR; inr (dgram 1000 77 [ex_lo]); inr (dgram 1000 77 [ex_lo])]); [done | |].
    + exists [inl EINTR], []. split_and!; [constructor; [by left | constructor] | constructor | done].
    + apply (dumps_last 1000 77 [ex_eth0] (drop 3 ex_dump) []). exists [], [inl EAGAIN].
      split_and!; [constructor | constructor; [by right | constructor] | done].
  - exact ex_links_ok.
  - apply (bool_decide_unpack _). done.
  - apply elem_of_cons. right. apply list_elem_of_singleton. done.
  - apply (no_netdev ex_world 77 2 true (replicate 16 x00) []); [by apply ex_ack_ok |].
    exists [], []. split_and!; [constructor | constructor | done].
  - exists msgs. exact E.
Defined.
