(* ===== verification/NetlinkTc.v ===== *)
(** The traffic control client of libbpf: src/lib/libbpf/src/netlink.c from
    [clsact_config] on.

    Hooks and options are the memory the caller gives, [None] the null pointer.
    The requests, the exchange with the kernel and the attributes are those of
    the files on netlink. *)
From S2P Require Import Prelude.
From S2P Require Import CLib.
From S2P Require Import Nlattr.
From S2P Require Import Netlink.

Definition NLM_F_ECHO : Z := 8.
Definition NLM_F_REPLACE : Z := 0x100.
Definition NLM_F_EXCL : Z := 0x200.
Definition NLM_F_CREATE : Z := 0x400.
Definition RTM_NEWQDISC : Z := 36.
Definition RTM_DELQDISC : Z := 37.
Definition RTM_NEWTFILTER : Z := 44.
Definition RTM_DELTFILTER : Z := 45.
Definition RTM_GETTFILTER : Z := 46.
Definition TCA_KIND : Z := 1.
Definition TCA_OPTIONS : Z := 2.
Definition TCA_MAX : Z := 16.
Definition TCA_BPF_FD : Z := 6.
Definition TCA_BPF_NAME : Z := 7.
Definition TCA_BPF_FLAGS : Z := 8.
Definition TCA_BPF_ID : Z := 11.
Definition TCA_BPF_MAX : Z := 11.
Definition TCA_BPF_FLAG_ACT_DIRECT : Z := 1.
Definition TC_H_MAJ (h : Z) : Z := Z.land h 0xFFFF0000.
Definition TC_H_MIN (h : Z) : Z := Z.land h 0x0000FFFF.
Definition TC_H_MAKE (maj min : Z) : Z := Z.lor (TC_H_MAJ maj) (TC_H_MIN min).
Definition TC_H_CLSACT : Z := 0xFFFFFFF1.
Definition TC_H_MIN_INGRESS : Z := 0xFFF2.
Definition TC_H_MIN_EGRESS : Z := 0xFFF3.
Definition ETH_P_ALL : Z := 3.
Definition UINT16_MAX : Z := 65535.
Definition BPF_TC_INGRESS : Z := 1.
Definition BPF_TC_EGRESS : Z := 2.
Definition BPF_TC_CUSTOM : Z := 4.
Definition BPF_TC_F_REPLACE : Z := 1.

(** ** Hooks and options

    [struct bpf_tc_hook]: sz, ifindex at 8, attach_point at 12, parent at 16;
    [struct bpf_tc_opts]: sz, prog_fd at 8, flags at 12, prog_id at 16, handle at
    20, priority at 24. *)

Definition hook_end : Z := 20.
Definition opts_end : Z := 28.

(** [OPTS_GET(opts, field, 0)] for the word at [off]. *)
Definition OPTS_GET (opts : option (list byte)) (off : Z) : option Z :=
  has ← OPTS_HAS opts (off + 4);
  match opts with Some o => if has : bool then load32 o off else Some 0 | None => Some 0 end.

(** [struct tcmsg]. *)
Definition tcmsg (family ifindex handle parent info : Z) : list byte :=
  le_split 1 family ++ replicate 3 x00 ++ le_split 4 ifindex ++ le_split 4 handle ++ le_split 4 parent ++ le_split 4 info.
Definition sizeof_tcmsg : Z := 20.

(** ** Queueing disciplines *)

Definition clsact_config (req : list byte) : option (Z * list byte) :=
  req ← store req 28 (le_split 4 TC_H_CLSACT);
  req ← store req 24 (le_split 4 (TC_H_MAKE TC_H_CLSACT 0));
  nlattr_add req TCA_KIND (Some (str "clsact" ++ [NUL])) 7.

(** The error, and the configuration function. *)
Definition attach_point_to_config (hook : option (list byte)) : option (Z * option (list byte -> option (Z * list byte))) :=
  ap ← OPTS_GET hook 12;
  if (ap =? BPF_TC_INGRESS) || (ap =? BPF_TC_EGRESS) || (ap =? Z.lor BPF_TC_INGRESS BPF_TC_EGRESS) then
    parent ← OPTS_GET hook 16;
    Some (if c_true parent then (- EINVAL, None) else (0, Some clsact_config))
  else if ap =? BPF_TC_CUSTOM then Some (- EOPNOTSUPP, None) else Some (- EINVAL, None).

(** The error and the parent. *)
Definition tc_get_tcm_parent (attach_point parent : Z) : Z * Z :=
  if (attach_point =? BPF_TC_INGRESS) || (attach_point =? BPF_TC_EGRESS) then
    if c_true parent then (- EINVAL, parent) else
    (0, TC_H_MAKE TC_H_CLSACT (if attach_point =? BPF_TC_INGRESS then TC_H_MIN_INGRESS else TC_H_MIN_EGRESS))
  else if attach_point =? BPF_TC_CUSTOM then
    if negb (c_true parent) then (- EINVAL, parent) else (0, parent)
  else (- EINVAL, parent).

Definition tc_qdisc_modify (w : nl_world) (hook : option (list byte)) (cmd flags : Z) : out (Z * list event) :=
  '(ret, config) ← defd (attach_point_to_config hook);
  if ret <? 0 then Ret (ret, []) else
  ifindex ← defd (OPTS_GET hook 8);
  let req := req_init (NLMSG_LENGTH sizeof_tcmsg) cmd (Z.lor (Z.lor NLM_F_REQUEST NLM_F_ACK) flags) (tcmsg AF_UNSPEC ifindex 0 0 0) in
  config ← defd config;
  '(ret, req) ← defd (config req);
  if ret <? 0 then Ret (ret, []) else
  '(ret, _, tr) ← libbpf_netlink_send_recv w req NETLINK_ROUTE None tt;
  Ret (ret, tr).

Definition tc_qdisc_create_excl (w : nl_world) (hook : option (list byte)) : out (Z * list event) :=
  tc_qdisc_modify w hook RTM_NEWQDISC (Z.lor NLM_F_CREATE NLM_F_EXCL).

Definition tc_qdisc_delete (w : nl_world) (hook : option (list byte)) : out (Z * list event) :=
  tc_qdisc_modify w hook RTM_DELQDISC 0.

(** [!hook || !OPTS_VALID(hook, bpf_tc_hook) || OPTS_GET(hook, ifindex, 0) <= 0] *)
Definition bad_hook (hook : option (list byte)) : option bool :=
  match hook with
  | None => Some true
  | Some _ =>
    valid ← OPTS_VALID hook hook_end;
    if negb valid then Some true else
    ifindex ← OPTS_GET hook 8; Some (s32 ifindex <=? 0)
  end.

Definition bpf_tc_hook_create (w : nl_world) (hook : option (list byte)) : out (Z * list event) :=
  bad ← defd (bad_hook hook);
  if bad : bool then Ret (- EINVAL, []) else tc_qdisc_create_excl w hook.

(** ** Detaching *)

(** [TC_H_MAKE(priority << 16, htons(protocol))] *)
Definition tcm_info (priority protocol : Z) : Z := TC_H_MAKE (u32 (Z.shiftl priority 16)) (bswap16 protocol).

Definition __bpf_tc_detach (w : nl_world) (hook opts : option (list byte)) (flush : bool) : out (Z * list event) :=
  match hook with
  | None => Ret (- EINVAL, [])
  | Some _ =>
    valid ← defd (OPTS_VALID hook hook_end);
    if negb valid then Ret (- EINVAL, []) else
    valid ← defd (OPTS_VALID opts opts_end);
    if negb valid then Ret (- EINVAL, []) else
    ifindex ← defd (OPTS_GET hook 8);
    parent ← defd (OPTS_GET hook 16);
    attach_point ← defd (OPTS_GET hook 12);
    handle ← defd (OPTS_GET opts 20);
    priority ← defd (OPTS_GET opts 24);
    prog_fd ← defd (OPTS_GET opts 8);
    prog_id ← defd (OPTS_GET opts 16);
    flags ← defd (OPTS_GET opts 12);
    if (s32 ifindex <=? 0) || c_true flags || c_true prog_fd || c_true prog_id then Ret (- EINVAL, []) else
    if UINT16_MAX <? priority then Ret (- EINVAL, []) else
    if negb flush && (negb (c_true handle) || negb (c_true priority)) then Ret (- EINVAL, []) else
    if flush && (c_true handle || c_true priority) then Ret (- EINVAL, []) else
    let '(ret, parent) := tc_get_tcm_parent attach_point parent in
    if ret <? 0 then Ret (ret, []) else
    let req := req_init (NLMSG_LENGTH sizeof_tcmsg) RTM_DELTFILTER (Z.lor NLM_F_REQUEST NLM_F_ACK)
      (tcmsg AF_UNSPEC ifindex (if flush then 0 else handle) parent (if flush then 0 else tcm_info priority ETH_P_ALL)) in
    '(ret, req) ← (if flush then Ret (0, req) else defd (nlattr_add req TCA_KIND (Some (str "bpf" ++ [NUL])) 4));
    if ret <? 0 then Ret (ret, []) else
    '(ret, _, tr) ← libbpf_netlink_send_recv w req NETLINK_ROUTE None tt;
    Ret (ret, tr)
  end.

Definition bpf_tc_detach (w : nl_world) (hook opts : option (list byte)) : out (Z * list event) :=
  match opts with None => Ret (- EINVAL, []) | Some _ => __bpf_tc_detach w hook opts false end.

Definition bpf_tc_hook_destroy (w : nl_world) (hook : option (list byte)) : out (Z * list event) :=
  bad ← defd (bad_hook hook);
  if bad : bool then Ret (- EINVAL, []) else
  ap ← defd (OPTS_GET hook 12);
  if (ap =? BPF_TC_INGRESS) || (ap =? BPF_TC_EGRESS) then __bpf_tc_detach w hook None true else
  if ap =? Z.lor BPF_TC_INGRESS BPF_TC_EGRESS then tc_qdisc_delete w hook else
  if ap =? BPF_TC_CUSTOM then Ret (- EOPNOTSUPP, []) else Ret (- EINVAL, []).

(** ** Filters the kernel reports *)

Record bpf_cb_ctx := { cb_opts : option (list byte); processed : bool }.

Definition __get_tc_info (m : list byte) (tc : Z) (tb : list (option Z)) (unicast : bool) (info : bpf_cb_ctx) :
    option (Z * bpf_cb_ctx) :=
  match cb_opts info with
  | None => Some (- EINVAL, info)
  | Some _ =>
    if unicast && processed info then Some (- EINVAL, info) else
    a ← tb !! Z.to_nat TCA_OPTIONS;
    match a with
    | None => Some (NL_CONT, info)
    | Some nla =>
      '(_, tbb) ← libbpf_nla_parse_nested m TCA_BPF_MAX nla None;
      b ← tbb !! Z.to_nat TCA_BPF_ID;
      match b with
      | None => Some (- EINVAL, info)
      | Some id =>
        id ← libbpf_nla_getattr_u32 m id;
        opts ← OPTS_SET (cb_opts info) 16 (le_split 4 id);
        tcm_handle ← load32 m (tc + 8);
        opts ← OPTS_SET opts 20 (le_split 4 tcm_handle);
        tcm_info ← load32 m (tc + 16);
        opts ← OPTS_SET opts 24 (le_split 4 (Z.shiftr (TC_H_MAJ tcm_info) 16));
        Some (if unicast then NL_NEXT else NL_DONE, {| cb_opts := opts; processed := true |})
      end
    end
  end.

Definition get_tc_info (m : list byte) (nh : Z) (cookie : bpf_cb_ctx) : option (Z * bpf_cb_ctx) :=
  let tc := nh + NLMSG_HDRLEN in
  nlmsg_len ← load32 m nh;
  '(_, tb) ← libbpf_nla_parse m TCA_MAX (tc + NLMSG_ALIGN sizeof_tcmsg) (s32 (nlmsg_len - NLMSG_LENGTH sizeof_tcmsg)) None;
  a ← tb !! Z.to_nat TCA_KIND;
  match a with
  | None => Some (NL_CONT, cookie)
  | Some _ =>
    flags ← load16 m (nh + 6);
    __get_tc_info m tc tb (c_true (Z.land flags NLM_F_ECHO)) cookie
  end.

(** ** Attaching *)

(** [info] is what [bpf_prog_get_info_by_fd] returns, and the name and the id
    of the program it gives. *)
Definition tc_add_fd_and_name (info : Z * list byte * Z) (req : list byte) (fd : Z) : option (Z * list byte) :=
  let '(ret, name, id) := info in
  if ret <? 0 then Some (ret, req) else
  '(ret, req) ← nlattr_add req TCA_BPF_FD (Some (le_split 4 fd)) 4;
  if ret <? 0 then Some (ret, req) else
  let '(name, len) := snprintf 256 (cstr name ++ str ":[" ++ fmt_u id ++ str "]") in
  if 256 <=? len then Some (- ENAMETOOLONG, req) else
  nlattr_add req TCA_BPF_NAME (Some name) (len + 1).

(** The error, the options afterwards and the trace. *)
Definition bpf_tc_attach (w : nl_world) (prog_info : Z -> Z * list byte * Z) (hook opts : option (list byte)) :
    out (Z * option (list byte) * list event) :=
  match hook, opts with
  | Some _, Some _ =>
    valid ← defd (OPTS_VALID hook hook_end);
    if negb valid then Ret (- EINVAL, opts, []) else
    valid ← defd (OPTS_VALID opts opts_end);
    if negb valid then Ret (- EINVAL, opts, []) else
    ifindex ← defd (OPTS_GET hook 8);
    parent ← defd (OPTS_GET hook 16);
    attach_point ← defd (OPTS_GET hook 12);
    handle ← defd (OPTS_GET opts 20);
    priority ← defd (OPTS_GET opts 24);
    prog_fd ← defd (OPTS_GET opts 8);
    prog_id ← defd (OPTS_GET opts 16);
    flags ← defd (OPTS_GET opts 12);
    if (s32 ifindex <=? 0) || negb (c_true prog_fd) || c_true prog_id then Ret (- EINVAL, opts, []) else
    if UINT16_MAX <? priority then Ret (- EINVAL, opts, []) else
    if c_true (Z.land flags (u32 (Z.lnot BPF_TC_F_REPLACE))) then Ret (- EINVAL, opts, []) else
    let flags := if c_true (Z.land flags BPF_TC_F_REPLACE) then NLM_F_REPLACE else NLM_F_EXCL in
    let '(ret, parent) := tc_get_tcm_parent attach_point parent in
    if ret <? 0 then Ret (ret, opts, []) else
    let req := req_init (NLMSG_LENGTH sizeof_tcmsg) RTM_NEWTFILTER
      (Z.lor (Z.lor NLM_F_REQUEST (Z.lor NLM_F_ACK (Z.lor NLM_F_CREATE NLM_F_ECHO))) flags)
      (tcmsg AF_UNSPEC ifindex handle parent (tcm_info priority ETH_P_ALL)) in
    '(ret, req) ← defd (nlattr_add req TCA_KIND (Some (str "bpf" ++ [NUL])) 4);
    if ret <? 0 then Ret (ret, opts, []) else
    '(nla, req) ← defd (nlattr_begin_nested req TCA_OPTIONS);
    match nla with
    | None => Ret (- EMSGSIZE, opts, [])
    | Some nla =>
      '(ret, req) ← defd (tc_add_fd_and_name (prog_info (s32 prog_fd)) req prog_fd);
      if ret <? 0 then Ret (ret, opts, []) else
      '(ret, req) ← defd (nlattr_add req TCA_BPF_FLAGS (Some (le_split 4 TCA_BPF_FLAG_ACT_DIRECT)) 4);
      if ret <? 0 then Ret (ret, opts, []) else
      req ← defd (nlattr_end_nested req nla);
      '(ret, info, tr) ← libbpf_netlink_send_recv w req NETLINK_ROUTE (Some get_tc_info) {| cb_opts := opts; processed := false |};
      Ret (if ret <? 0 then ret else if processed info then ret else - ENOENT, cb_opts info, tr)
    end
  | _, _ => Ret (- EINVAL, opts, [])
  end.

(** ** Querying *)

Definition bpf_tc_query (w : nl_world) (hook opts : option (list byte)) : out (Z * option (list byte) * list event) :=
  match hook, opts with
  | Some _, Some _ =>
    valid ← defd (OPTS_VALID hook hook_end);
    if negb valid then Ret (- EINVAL, opts, []) else
    valid ← defd (OPTS_VALID opts opts_end);
    if negb valid then Ret (- EINVAL, opts, []) else
    ifindex ← defd (OPTS_GET hook 8);
    parent ← defd (OPTS_GET hook 16);
    attach_point ← defd (OPTS_GET hook 12);
    handle ← defd (OPTS_GET opts 20);
    priority ← defd (OPTS_GET opts 24);
    prog_fd ← defd (OPTS_GET opts 8);
    prog_id ← defd (OPTS_GET opts 16);
    flags ← defd (OPTS_GET opts 12);
    if (s32 ifindex <=? 0) || c_true flags || c_true prog_fd || c_true prog_id || negb (c_true handle) || negb (c_true priority)
    then Ret (- EINVAL, opts, []) else
    if UINT16_MAX <? priority then Ret (- EINVAL, opts, []) else
    let '(ret, parent) := tc_get_tcm_parent attach_point parent in
    if ret <? 0 then Ret (ret, opts, []) else
    let req := req_init (NLMSG_LENGTH sizeof_tcmsg) RTM_GETTFILTER NLM_F_REQUEST
      (tcmsg AF_UNSPEC ifindex handle parent (tcm_info priority ETH_P_ALL)) in
    '(ret, req) ← defd (nlattr_add req TCA_KIND (Some (str "bpf" ++ [NUL])) 4);
    if ret <? 0 then Ret (ret, opts, []) else
    '(ret, info, tr) ← libbpf_netlink_send_recv w req NETLINK_ROUTE (Some get_tc_info) {| cb_opts := opts; processed := false |};
    Ret (if ret <? 0 then ret else if processed info then ret else - ENOENT, cb_opts info, tr)
  | _, _ => Ret (- EINVAL, opts, [])
  end.

(** ** Hooks and options in memory *)

Definition hook_mem (ifindex attach_point parent : Z) : list byte :=
  le_split 8 24 ++ le_split 4 ifindex ++ le_split 4 attach_point ++ le_split 4 parent ++ replicate 4 x00.

Definition opts_mem (prog_fd flags prog_id handle priority : Z) : list byte :=
  le_split 8 32 ++ le_split 4 prog_fd ++ le_split 4 flags ++ le_split 4 prog_id ++ le_split 4 handle ++ le_split 4 priority ++
    replicate 4 x00.

Definition is_u32 (v : Z) : Prop := 0 <= v < 2 ^ 32.

Lemma mem_zeroed_zeros n : forall pre, mem_zeroed (pre ++ replicate n x00) (zlen pre) n = Some true.
Proof.
  induction n as [| n IH]; intros pre; [done |]. cbn [mem_zeroed replicate]. rewrite load_skip by lia. rewrite Z.sub_diag.
  change (load8 (x00 :: replicate n x00) 0) with (load 1 (le_split 1 0 ++ replicate n x00) 0). rewrite load_here by done.
  cbn [mbind option_bind c_true Z.eqb negb]. rewrite <- IH with (pre := pre ++ [x00]). rewrite <- app_assoc, zlen_app. done.
Qed.

Lemma opts_valid_padded sz a n : sz = 8 + zlen a + Z.of_nat n -> sz < 2 ^ 63 ->
  OPTS_VALID (Some (le_split 8 sz ++ a ++ replicate n x00)) (8 + zlen a) = Some true.
Proof.
  intros Hsz Hlt. pose proof (zlen_nonneg a). unfold OPTS_VALID. rewrite load_here by lia. cbn [mbind option_bind].
  unfold libbpf_validate_opts, libbpf_is_mem_zeroed. rewrite (proj2 (Z.ltb_ge sz 8)) by lia. rewrite s64_id by lia.
  replace (Z.to_nat (sz - (8 + zlen a))) with n by lia. rewrite app_assoc.
  replace (8 + zlen a) with (zlen (le_split 8 sz ++ a)) by (rewrite zlen_app, zlen_le_split; done). apply mem_zeroed_zeros.
Qed.

Lemma hook_valid i a p : OPTS_VALID (Some (hook_mem i a p)) hook_end = Some true.
Proof.
  unfold hook_mem. rewrite (app_assoc (le_split 4 a)), (app_assoc (le_split 4 i)).
  replace hook_end with (8 + zlen (le_split 4 i ++ le_split 4 a ++ le_split 4 p)) by (by rewrite !zlen_app, !zlen_le_split).
  apply opts_valid_padded; [by rewrite !zlen_app, !zlen_le_split | done].
Qed.

Lemma opts_valid f g i h p : OPTS_VALID (Some (opts_mem f g i h p)) opts_end = Some true.
Proof.
  unfold opts_mem. set (a := le_split 4 f ++ le_split 4 g ++ le_split 4 i ++ le_split 4 h ++ le_split 4 p).
  replace (le_split 4 f ++ _) with (a ++ replicate 4 x00) by (unfold a; by rewrite <- !app_assoc).
  replace opts_end with (8 + zlen a) by (unfold a; by rewrite !zlen_app, !zlen_le_split).
  apply opts_valid_padded; [unfold a; by rewrite !zlen_app, !zlen_le_split | done].
Qed.

(** Reading a word off a concatenation. *)
Ltac load_field :=
  repeat (rewrite load_skip by (rewrite ?zlen_le_split, ?zlen_replicate; lia); rewrite ?zlen_le_split, ?zlen_replicate);
  apply load_here; done.

Lemma opts_get sz rest off v : load32 (le_split 8 sz ++ rest) off = Some v -> off + 4 <= sz < 2 ^ 64 -> 0 <= sz ->
  OPTS_GET (Some (le_split 8 sz ++ rest)) off = Some v.
Proof.
  intros E Hsz H0. unfold OPTS_GET, OPTS_HAS. rewrite load_here by lia. cbn [mbind option_bind].
  by rewrite (proj2 (Z.leb_le _ _)) by lia.
Qed.

Lemma hook_get i a p : is_u32 i -> is_u32 a -> is_u32 p -> let hook := Some (hook_mem i a p) in
  OPTS_GET hook 8 = Some i /\ OPTS_GET hook 12 = Some a /\ OPTS_GET hook 16 = Some p.
Proof. intros Hi Ha Hp hook. unfold hook, hook_mem. split_and!; apply opts_get; try done; load_field. Qed.

Lemma opts_get_all f g i h p : is_u32 f -> is_u32 g -> is_u32 i -> is_u32 h -> is_u32 p -> let opts := Some (opts_mem f g i h p) in
  OPTS_GET opts 8 = Some f /\ OPTS_GET opts 12 = Some g /\ OPTS_GET opts 16 = Some i /\ OPTS_GET opts 20 = Some h /\
  OPTS_GET opts 24 = Some p.
Proof. intros Hf Hg Hi Hh Hp opts. unfold opts, opts_mem. split_and!; apply opts_get; try done; load_field. Qed.

Lemma opts_set_word f g i h p v : let opts := Some (opts_mem f g i h p) in
  OPTS_SET opts 16 (le_split 4 v) = Some (Some (opts_mem f g v h p)) /\
  OPTS_SET opts 20 (le_split 4 v) = Some (Some (opts_mem f g i v p)) /\
  OPTS_SET opts 24 (le_split 4 v) = Some (Some (opts_mem f g i h v)).
Proof.
  intros opts. unfold OPTS_SET, opts. assert (load64 (opts_mem f g i h p) 0 = Some 32) as -> by (by apply load_here).
  cbn [mbind option_bind]. rewrite zlen_le_split. cbn [Z.add Z.of_nat Z.leb Z.compare Pos.of_succ_nat Pos.succ Pos.add Pos.add_carry Pos.compare Pos.compare_cont].
  split_and!; eval_mem.
Qed.

(** ** What the kernel reads *)

(** A request on a filter: the fields of its [struct tcmsg], the kind and, in
    TCA_OPTIONS, the program, its name and its flags. *)
Record tc_request := {
  r_type : Z; r_flags : Z; r_ifindex : Z; r_handle : Z; r_parent : Z; r_info : Z;
  r_kind : option (list byte);
  r_prog : option (option Z * option (list byte) * option Z) }.

Definition decode_tc (m : list byte) : option tc_request :=
  len ← load32 m 0; type ← load16 m 4; flags ← load16 m 6;
  ifindex ← load32 m 20; handle ← load32 m 24; parent ← load32 m 28; info ← load32 m 32;
  '(err, tb) ← libbpf_nla_parse m TCA_MAX 36 (len - 36) None;
  prog ← (match mjoin (tb !! Z.to_nat TCA_OPTIONS) with
          | None => Some None
          | Some nla =>
            '(err, x) ← libbpf_nla_parse_nested m TCA_BPF_MAX nla None;
            let get t := payload m (mjoin (x !! Z.to_nat t)) in
            Some (Some (le_combine <$> get TCA_BPF_FD, get TCA_BPF_NAME, le_combine <$> get TCA_BPF_FLAGS))
          end);
  if c_true err then None else
  Some {| r_type := type; r_flags := flags; r_ifindex := ifindex; r_handle := handle; r_parent := parent; r_info := info;
          r_kind := payload m (mjoin (tb !! Z.to_nat TCA_KIND)); r_prog := prog |}.

Lemma zlen_tcmsg family i h p f : zlen (tcmsg family i h p f) = 20.
Proof. unfold tcmsg. by rewrite !zlen_app, !zlen_le_split, zlen_replicate. Qed.

Lemma tc_fields type flags sq pid family i h p f rest : is_u32 i -> is_u32 h -> is_u32 p -> is_u32 f ->
  let m := nlmsg type flags sq pid (tcmsg family i h p f ++ rest) in
  load32 m 20 = Some i /\ load32 m 24 = Some h /\ load32 m 28 = Some p /\ load32 m 32 = Some f.
Proof. intros Hi Hh Hp Hf m. unfold m, nlmsg, tcmsg. rewrite <- !app_assoc. split_and!; load_field. Qed.

Lemma tc_parse type flags sq pid family i h p f attrs maxtype : hdr_ok type flags sq pid (tcmsg family i h p f ++ encode_attrs attrs) ->
  0 <= maxtype -> Forall attr_ok attrs -> let m := nlmsg type flags sq pid (tcmsg family i h p f ++ encode_attrs attrs) in
  exists tb, load32 m 0 = Some (36 + zlen (encode_attrs attrs)) /\
    libbpf_nla_parse m maxtype 36 (zlen (encode_attrs attrs)) None = Some (0, tb) /\ reads m maxtype attrs tb.
Proof.
  intros Hh Hm Hok m. destruct (nlmsg_fields [] _ _ _ _ _ [] Hh) as (E & _).
  rewrite app_nil_r in E. change ([] ++ ?x) with x in E. change (zlen []) with 0 in E. fold m in E. rewrite zlen_app, zlen_tcmsg in E.
  set (pre := le_split 4 (NLMSG_HDRLEN + zlen (tcmsg family i h p f ++ encode_attrs attrs)) ++ le_split 2 type ++ le_split 2 flags ++
    le_split 4 sq ++ le_split 4 pid ++ tcmsg family i h p f).
  destruct (parse_encode pre attrs [] maxtype Hm Hok) as (tb & Ep & Hr).
  assert (pre ++ encode_attrs attrs ++ [] = m) as Em by (rewrite app_nil_r; unfold pre, m, nlmsg; by rewrite <- !app_assoc).
  assert (zlen pre = 36) as Hzp by (unfold pre; rewrite !zlen_app, !zlen_le_split, zlen_tcmsg; done).
  rewrite Em, Hzp in *. exists tb. split_and!; [| exact Ep | exact Hr]. rewrite E. f_equal. unfold NLMSG_HDRLEN. lia.
Qed.

(** Decoding what was sent. *)
Lemma decode_tc_sent time type flags i h p f attrs inner : is_u32 i -> is_u32 h -> is_u32 p -> is_u32 f ->
  0 <= type < 2 ^ 16 -> 0 <= flags < 2 ^ 16 -> zlen (encode_attrs attrs) < 2 ^ 16 -> Forall attr_ok attrs ->
  find_last TCA_OPTIONS attrs = encode_attrs <$> inner -> Forall attr_ok (default [] inner) ->
  decode_tc (sent_msg time type flags (tcmsg AF_UNSPEC i h p f ++ encode_attrs attrs)) =
    Some {| r_type := type; r_flags := flags; r_ifindex := i; r_handle := h; r_parent := p; r_info := f;
            r_kind := find_last TCA_KIND attrs;
            r_prog := (fun x => (le_combine <$> find_last TCA_BPF_FD x, find_last TCA_BPF_NAME x, le_combine <$> find_last TCA_BPF_FLAGS x)) <$> inner |}.
Proof.
  intros Hi Hh Hp Hf Ht Hfl Hz Hok Hin Hiok. set (body := tcmsg AF_UNSPEC i h p f ++ encode_attrs attrs).
  assert (exists t', sent_msg time type flags body = nlmsg type flags t' 0 body /\ hdr_ok type flags t' 0 body) as (t' & Em & Hhd).
  { exists (u32 time). split; [| split_and!; [lia.. | apply u32_range | apply u32_range | done | done | unfold body; rewrite zlen_app, zlen_tcmsg; lia]].
    unfold sent_msg, nlmsg. do 3 f_equal. f_equal. apply (le_split_mod time 4). }
  rewrite Em. unfold body in *. destruct (tc_fields type flags t' 0 AF_UNSPEC i h p f (encode_attrs attrs) Hi Hh Hp Hf) as (E1 & E2 & E3 & E4).
  destruct (nlmsg_fields [] _ _ _ _ _ [] Hhd) as (_ & E5 & E6 & _). rewrite app_nil_r in E5, E6.
  change ([] ++ ?x) with x in E5, E6. change (zlen [] + ?k) with k in E5, E6.
  destruct (tc_parse _ _ _ _ _ _ _ _ _ _ TCA_MAX Hhd ltac:(done) Hok) as (tb & E0 & Ep & Hr). set (m := nlmsg _ _ _ _ _) in *.
  unfold decode_tc. rewrite E0, E1, E2, E3, E4, E5, E6. cbn [mbind option_bind]. rewrite Z.add_simpl_l, Ep. cbn [mbind option_bind].
  rewrite !(reads_payload _ _ _ _ _ Hr) by done. destruct (Hr TCA_OPTIONS) as (e & -> & He); [done |]. cbn [mjoin option_join].
  rewrite Hin in He. destruct inner as [inner |]; cbn [fmap option_fmap option_map] in He; [| subst e; done].
  destruct e as [nla |]; [| done]. destruct (parse_nested_encode m nla inner TCA_BPF_MAX He ltac:(done) Hiok) as (x & -> & Hx).
  cbn [mbind option_bind c_true Z.eqb negb]. rewrite !(reads_payload _ _ _ _ _ Hx) by done. done.
Qed.

(** *** Reports *)

(** The program [id] is the filter with the handle [h] and the priority [p], of
    any protocol, in a message of [type] with [flags]. *)
Definition reports (w : nl_world) (pid flags i parent h p id : Z) (d : list byte) : Prop :=
  exists type family proto attrs inner,
    let body := tcmsg family i h parent (tcm_info p proto) ++ encode_attrs attrs in
    d = nlmsg type flags (u32 (w_time w)) pid body /\ hdr_ok type flags (u32 (w_time w)) pid body /\
    type <> NLMSG_ERROR /\ type <> NLMSG_DONE /\ Forall attr_ok attrs /\ is_Some (find_last TCA_KIND attrs) /\
    find_last TCA_OPTIONS attrs = Some (encode_attrs inner) /\ Forall attr_ok inner /\ find_last TCA_BPF_ID inner = Some (le_split 4 id).

Lemma lor_u32 a b : is_u32 a -> is_u32 b -> is_u32 (Z.lor a b).
Proof.
  intros Ha Hb. unfold is_u32 in *. assert (forall v, 0 <= v < 2 ^ 32 -> Z.land v (Z.ones 32) = v) as Hones
    by (intros v Hv; rewrite Z.land_ones, Z.mod_small by lia; done).
  rewrite <- (Hones a), <- (Hones b), <- Z.land_lor_distr_l, Z.land_ones by lia. apply Z.mod_pos_bound. lia.
Qed.

Lemma tcm_info_spec p proto : 0 <= p < 2 ^ 16 -> is_u32 (tcm_info p proto) /\ Z.shiftr (TC_H_MAJ (tcm_info p proto)) 16 = p.
Proof.
  intros Hp. unfold tcm_info, TC_H_MAKE. rewrite Z.shiftl_mul_pow2, u32_id by lia.
  assert (TC_H_MAJ (p * 2 ^ 16) = p * 2 ^ 16) as E.
  { unfold TC_H_MAJ. change 0xFFFF0000 with (Z.ones 16 * 2 ^ 16). rewrite <- !Z.shiftl_mul_pow2, <- Z.shiftl_land by lia.
    by rewrite Z.land_ones, Z.mod_small by lia. }
  split.
  - rewrite E. apply lor_u32; [unfold is_u32; lia |]. unfold is_u32, TC_H_MIN. change 0x0000FFFF with (Z.ones 16). rewrite Z.land_ones by lia.
    pose proof (Z.mod_pos_bound (bswap16 proto) (2 ^ 16)). lia.
  - unfold TC_H_MAJ at 1. rewrite Z.land_lor_distr_l. fold (TC_H_MAJ (TC_H_MAJ (p * 2 ^ 16))). rewrite !E. unfold TC_H_MIN. rewrite <- Z.land_assoc.
    change (Z.land 0x0000FFFF 0xFFFF0000) with 0. rewrite Z.land_0_r, Z.lor_0_r, Z.shiftr_div_pow2, Z.div_mul by lia. done.
Qed.

(** The options get the id, the handle and the priority of the filter. *)
Lemma get_tc_info_spec w pid flags i parent h p id d f g i0 h0 p0 : reports w pid flags i parent h p id d ->
  is_u32 i -> is_u32 parent -> is_u32 h -> 0 <= p < 2 ^ 16 -> is_u32 id ->
  get_tc_info d 0 {| cb_opts := Some (opts_mem f g i0 h0 p0); processed := false |} =
    Some (if c_true (Z.land flags NLM_F_ECHO) then NL_NEXT else NL_DONE, {| cb_opts := Some (opts_mem f g id h p); processed := true |}).
Proof.
  intros (type & family & proto & attrs & inner & -> & Hhd & _ & _ & Hok & Hkind & Hopt & Hiok & Hid) Hi Hpar Hh Hp Hidr.
  destruct (tcm_info_spec p proto Hp) as [Hf Hprio].
  destruct (tc_fields type flags (u32 (w_time w)) pid family i h parent _ (encode_attrs attrs) Hi Hh Hpar Hf) as (_ & E2 & _ & E4).
  destruct (nlmsg_fields [] _ _ _ _ _ [] Hhd) as (_ & _ & E6 & _). rewrite app_nil_r in E6.
  change ([] ++ ?x) with x in E6. change (zlen [] + ?k) with k in E6. pose proof Hhd as (_ & _ & _ & _ & Hz). rewrite zlen_app, zlen_tcmsg in Hz.
  destruct (tc_parse _ _ _ _ _ _ _ _ _ _ TCA_MAX Hhd ltac:(done) Hok) as (tb & E0 & Ep & Hr). set (m := nlmsg _ _ _ _ _) in *.
  pose proof (zlen_nonneg (encode_attrs attrs)). unfold get_tc_info. rewrite E0. cbn [mbind option_bind]. change (NLMSG_LENGTH sizeof_tcmsg) with 36.
  rewrite Z.add_simpl_l, s32_id by lia. change (0 + NLMSG_HDRLEN + NLMSG_ALIGN sizeof_tcmsg) with 36. rewrite Ep. cbn [mbind option_bind].
  destruct (Hr TCA_KIND) as (k & -> & Hk); [done |]. destruct Hkind as [kd Hkd]. rewrite Hkd in Hk. cbn [mbind option_bind].
  destruct k as [k |]; [| done]. change (0 + 6) with 6. rewrite E6. cbn [mbind option_bind]. unfold __get_tc_info. cbn [cb_opts processed].
  rewrite andb_false_r. destruct (Hr TCA_OPTIONS) as (o & -> & Ho); [done |]. rewrite Hopt in Ho. cbn [mbind option_bind].
  destruct o as [nla |]; [| done]. destruct (parse_nested_encode m nla inner TCA_BPF_MAX Ho ltac:(done) Hiok) as (x & -> & Hx).
  cbn [mbind option_bind]. destruct (Hx TCA_BPF_ID) as (b & -> & Hb); [done |]. rewrite Hid in Hb. cbn [mbind option_bind].
  destruct (payload_load m b _ 4 Hb (length_le_split _ _)) as (q & -> & Eq). unfold libbpf_nla_getattr_u32. rewrite Eq. cbn [mbind option_bind].
  rewrite le_combine_split, Z.mod_small by exact Hidr. rewrite (proj1 (opts_set_word f g i0 h0 p0 id)). cbn [mbind option_bind].
  change (0 + NLMSG_HDRLEN + 8) with 24. rewrite E2. cbn [mbind option_bind]. rewrite (proj1 (proj2 (opts_set_word f g id h0 p0 h))).
  cbn [mbind option_bind]. change (0 + NLMSG_HDRLEN + 16) with 32. rewrite E4. cbn [mbind option_bind].
  rewrite Hprio, (proj2 (proj2 (opts_set_word f g id h p0 p))). done.
Qed.

(** ** Requests *)

Definition bpf_kind : Z * list byte := (TCA_KIND, str "bpf" ++ [NUL]).

(** A request on a filter, with its attributes. *)
Definition tc_req (type flags i h parent f : Z) (attrs : list (Z * list byte)) : list byte :=
  request (le_split 2 type ++ le_split 2 flags ++ replicate 8 x00 ++ tcmsg AF_UNSPEC i h parent f ++ encode_attrs attrs).

Definition tc_msg (w : nl_world) (type flags i h parent f : Z) (attrs : list (Z * list byte)) : list byte :=
  sent_msg (w_time w) type flags (tcmsg AF_UNSPEC i h parent f ++ encode_attrs attrs).

Lemma tc_req_init type flags i h parent f :
  req_init (NLMSG_LENGTH sizeof_tcmsg) type flags (tcmsg AF_UNSPEC i h parent f) = tc_req type flags i h parent f [].
Proof.
  change sizeof_tcmsg with 20. rewrite <- (zlen_tcmsg AF_UNSPEC i h parent f), req_init_request by (rewrite zlen_tcmsg; done).
  unfold tc_req. change (encode_attrs []) with (@nil byte). by rewrite app_nil_r.
Qed.

Lemma tc_rest_ok type flags i h parent f attrs : 36 + zlen (encode_attrs attrs) <= sizeof_req ->
  let rest := le_split 2 type ++ le_split 2 flags ++ replicate 8 x00 ++ tcmsg AF_UNSPEC i h parent f ++ encode_attrs attrs in
  aligned rest /\ zlen rest = 32 + zlen (encode_attrs attrs).
Proof.
  intros Hz rest. assert (zlen rest = 32 + zlen (encode_attrs attrs)) as E.
  { unfold rest. rewrite !zlen_app, !zlen_le_split, zlen_replicate, zlen_tcmsg. lia. }
  split; [| exact E]. split; rewrite E; [lia |]. rewrite <- Zplus_mod_idemp_r, zlen_encode_attrs_mod. done.
Qed.

Lemma tc_req_add type flags i h parent f attrs t data : data <> [] ->
  36 + zlen (encode_attrs attrs) + NLA_ALIGN (NLA_HDRLEN + zlen data) <= sizeof_req ->
  nlattr_add (tc_req type flags i h parent f attrs) t (Some data) (zlen data) = Some (0, tc_req type flags i h parent f (attrs ++ [(t, data)])).
Proof.
  intros Hd Hz. destruct (NLA_ALIGN_spec (NLA_HDRLEN + zlen data)) as [_ Hal]. pose proof (zlen_nonneg data). unfold NLA_HDRLEN in Hal.
  destruct (tc_rest_ok type flags i h parent f attrs) as [Ha Hr]; [unfold NLA_HDRLEN in Hz; lia |].
  unfold tc_req. destruct (nlattr_add_fits _ t data Ha) as [-> _]; [rewrite Hr; lia | done |].
  rewrite encode_attrs_app, encode_attrs_one. by rewrite <- !app_assoc.
Qed.

Lemma add_kind type flags i h parent f :
  nlattr_add (req_init (NLMSG_LENGTH sizeof_tcmsg) type flags (tcmsg AF_UNSPEC i h parent f)) TCA_KIND (Some (str "bpf" ++ [NUL])) 4 =
    Some (0, tc_req type flags i h parent f [bpf_kind]).
Proof. rewrite tc_req_init. apply (tc_req_add type flags i h parent f [] TCA_KIND (str "bpf" ++ [NUL])); done. Qed.

Lemma tc_send {C} w (fn : option (list byte -> Z -> C -> option (Z * C))) type flags i h parent f attrs c sock pid :
  connected w sock pid -> 36 + zlen (encode_attrs attrs) <= sizeof_req ->
  libbpf_netlink_send_recv w (tc_req type flags i h parent f attrs) NETLINK_ROUTE fn c =
    let msg := tc_msg w type flags i h parent f attrs in
    '(ret, c) ← libbpf_netlink_recv fn pid (s32 (w_time w)) (w_alloc w) (w_recv w NETLINK_ROUTE msg) c;
    Ret (ret, c, exchange sock (NETLINK_ROUTE, msg)).
Proof.
  intros Hw Hz. unfold tc_req. rewrite (send_recv_spec w fn _ _ _ _ c sock pid Hw); [done |]. rewrite zlen_app, zlen_tcmsg. unfold NLMSG_HDRLEN. lia.
Qed.

(** The fd, name and flags of the program, as TCA_OPTIONS holds them. *)
Definition prog_attrs (fd : Z) (name : list byte) (id : Z) : list (Z * list byte) :=
  [word TCA_BPF_FD fd; (TCA_BPF_NAME, (cstr name ++ str ":[" ++ fmt_u id ++ str "]") ++ [NUL]); word TCA_BPF_FLAGS TCA_BPF_FLAG_ACT_DIRECT].

Lemma length_dec_digits fuel : forall n acc, (length (dec_digits fuel n acc) <= fuel + length acc)%nat.
Proof.
  induction fuel as [| fuel IH]; intros n acc; cbn [dec_digits]; [lia |]. destruct (n <? 10); [cbn [length]; lia |].
  eapply Nat.le_trans; [apply IH |]. cbn [length]. lia.
Qed.

Lemma prog_name_small name id : zlen (cstr name) < 16 -> 0 <= zlen (cstr name ++ str ":[" ++ fmt_u id ++ str "]") < 39.
Proof.
  intros Hn. rewrite !zlen_app. change (zlen (str ":[")) with 2. change (zlen (str "]")) with 1.
  pose proof (length_dec_digits DEC_FUEL id []). unfold fmt_u, DEC_FUEL in *. pose proof (zlen_nonneg (cstr name)).
  unfold zlen in *. cbn [length] in *. lia.
Qed.

Lemma zlen_prog_attrs fd name id : zlen (cstr name) < 16 -> 0 <= zlen (encode_attrs (prog_attrs fd name id)) <= 60.
Proof.
  intros Hn. unfold prog_attrs. rewrite !encode_attrs_cons, !zlen_app, !zlen_word, zlen_encode_attr. cbn [snd].
  change (zlen (encode_attrs [])) with 0. pose proof (prog_name_small name id Hn) as Hs. set (nm := _ ++ str ":[" ++ _) in *.
  rewrite zlen_app. change (zlen [NUL]) with 1. destruct (NLA_ALIGN_spec (zlen nm + 1)) as [-> H]. unfold NLA_HDRLEN in *.
  Z.to_euclidean_division_equations. lia.
Qed.

Definition NESTED_OPTIONS : Z := Z.lor TCA_OPTIONS NLA_F_NESTED.

Lemma tc_begin type flags i h parent f attrs t : 40 + zlen (encode_attrs attrs) <= sizeof_req ->
  nlattr_begin_nested (tc_req type flags i h parent f attrs) t =
    Some (Some (36 + zlen (encode_attrs attrs)), tc_req type flags i h parent f (attrs ++ [(Z.lor t NLA_F_NESTED, [])])).
Proof.
  intros Hz. destruct (tc_rest_ok type flags i h parent f attrs) as [Ha Hr]; [lia |].
  unfold tc_req. destruct (nlattr_begin_nested_fits _ t Ha) as [-> _]; [rewrite Hr; unfold NLA_HDRLEN; lia |].
  rewrite Hr, encode_attrs_app, encode_attrs_one, <- !app_assoc. do 3 f_equal. lia.
Qed.

Lemma tc_end type flags i h parent f attrs t inner : 40 + zlen (encode_attrs attrs) + zlen (encode_attrs inner) <= sizeof_req ->
  nlattr_end_nested (tc_req type flags i h parent f (attrs ++ (t, []) :: inner)) (36 + zlen (encode_attrs attrs)) =
    Some (tc_req type flags i h parent f (attrs ++ [(t, encode_attrs inner)])).
Proof.
  intros Hz. destruct (tc_rest_ok type flags i h parent f attrs) as [_ Hr]; [pose proof (zlen_nonneg (encode_attrs inner)); lia |].
  destruct (tc_rest_ok type flags i h parent f (attrs ++ (t, []) :: inner)) as [Ha _].
  { rewrite encode_attrs_app, encode_attrs_cons, !zlen_app, zlen_encode_attr. change (NLA_HDRLEN + NLA_ALIGN _) with 4. lia. }
  unfold tc_req. rewrite encode_attrs_app, encode_attrs_cons in *. rewrite encode_attrs_app, encode_attrs_one.
  set (rest := le_split 2 type ++ le_split 2 flags ++ replicate 8 x00 ++ tcmsg AF_UNSPEC i h parent f ++ encode_attrs attrs) in *.
  assert (forall x, le_split 2 type ++ le_split 2 flags ++ replicate 8 x00 ++ tcmsg AF_UNSPEC i h parent f ++ encode_attrs attrs ++ x = rest ++ x)
    as E by (intros x; unfold rest; by rewrite <- !app_assoc).
  rewrite E in *. rewrite E. replace (36 + zlen (encode_attrs attrs)) with (4 + zlen rest) by lia.
  apply nlattr_end_nested_spec; [exact Ha | apply zlen_encode_attrs_mod].
Qed.

Lemma add_fd_and_name ret name id type flags i h parent f attrs fd : 0 <= ret -> zlen (cstr name) < 16 ->
  36 + zlen (encode_attrs attrs) + 52 <= sizeof_req ->
  tc_add_fd_and_name (ret, name, id) (tc_req type flags i h parent f attrs) fd =
    Some (0, tc_req type flags i h parent f (attrs ++ take 2 (prog_attrs fd name id))).
Proof.
  intros Hret Hn Hz. pose proof (prog_name_small name id Hn) as Hs. unfold tc_add_fd_and_name. rewrite (proj2 (Z.ltb_ge ret 0)) by done.
  change 4 with (zlen (le_split 4 fd)). rewrite tc_req_add; [| intros E; apply (f_equal length) in E; by rewrite length_le_split in E |].
  2: { rewrite zlen_le_split. change (NLA_ALIGN _) with 8. lia. }
  cbn [mbind option_bind Z.ltb Z.compare]. unfold prog_attrs. set (nm := cstr name ++ str ":[" ++ fmt_u id ++ str "]") in *.
  unfold snprintf. rewrite (proj2 (Z.leb_gt 256 (zlen nm))) by lia.
  rewrite take_ge by (unfold zlen in Hs; lia).
  replace (zlen nm + 1) with (zlen (nm ++ [NUL])) by (by rewrite zlen_app). rewrite tc_req_add.
  - rewrite <- app_assoc. done.
  - intros E. by apply app_eq_nil in E as [_ E].
  - rewrite encode_attrs_app, encode_attrs_one, !zlen_app, (zlen_word TCA_BPF_FD fd : zlen (encode_attr (TCA_BPF_FD, le_split 4 fd)) = 8). change (zlen [NUL]) with 1.
    destruct (NLA_ALIGN_spec (NLA_HDRLEN + (zlen nm + 1))) as [-> _]. unfold NLA_HDRLEN. Z.to_euclidean_division_equations. lia.
Qed.

(** ** Filters *)

(** A hook: [parent'] is what its filters hang off. *)
Definition hook_ok (i ap parent parent' : Z) : Prop :=
  0 < i < 2 ^ 31 /\ is_u32 ap /\ is_u32 parent /\ is_u32 parent' /\ tc_get_tcm_parent ap parent = (0, parent').

Definition new_flags (flags : Z) : Z :=
  Z.lor (Z.lor NLM_F_REQUEST (Z.lor NLM_F_ACK (Z.lor NLM_F_CREATE NLM_F_ECHO))) (if c_true flags then NLM_F_REPLACE else NLM_F_EXCL).

Definition attach_attrs (fd : Z) (name : list byte) (id : Z) : list (Z * list byte) :=
  [bpf_kind; (NESTED_OPTIONS, encode_attrs (prog_attrs fd name id))].

Lemma zlen_attach_attrs fd name id : zlen (cstr name) < 16 -> 0 <= zlen (encode_attrs (attach_attrs fd name id)) <= 72.
Proof.
  intros Hn. unfold attach_attrs. rewrite !encode_attrs_cons, !zlen_app, !zlen_encode_attr. change (zlen (encode_attrs [])) with 0. cbn [snd].
  change (NLA_ALIGN (zlen (snd bpf_kind))) with 4. rewrite (align_id _ (zlen_encode_attrs_mod _) : NLA_ALIGN _ = _).
  pose proof (zlen_prog_attrs fd name id Hn). unfold NLA_HDRLEN. lia.
Qed.

Lemma attach_unfold_tc w prog_info i ap parent parent' fd flags handle prio ret name id : hook_ok i ap parent parent' ->
  0 < fd < 2 ^ 31 -> flags = 0 \/ flags = BPF_TC_F_REPLACE -> is_u32 handle -> 0 <= prio < 2 ^ 16 ->
  prog_info fd = (ret, name, id) -> 0 <= ret -> zlen (cstr name) < 16 ->
  bpf_tc_attach w prog_info (Some (hook_mem i ap parent)) (Some (opts_mem fd flags 0 handle prio)) =
    '(ret, info, tr) ← libbpf_netlink_send_recv w
        (tc_req RTM_NEWTFILTER (new_flags flags) i handle parent' (tcm_info prio ETH_P_ALL) (attach_attrs fd name id)) NETLINK_ROUTE
        (Some get_tc_info) {| cb_opts := Some (opts_mem fd flags 0 handle prio); processed := false |};
    Ret (if ret <? 0 then ret else if processed info then ret else - ENOENT, cb_opts info, tr).
Proof.
  intros (Hi & Hap & Hpar & Hpar' & Etp) Hfd Hfl Hh Hp Einfo Hret Hn. unfold bpf_tc_attach. rewrite hook_valid, opts_valid. cbn [defd mbind out_bind negb].
  destruct (hook_get i ap parent) as (-> & -> & ->); [unfold is_u32; lia | done | done |].
  destruct (opts_get_all fd flags 0 handle prio) as (-> & -> & -> & -> & ->);
    [unfold is_u32; lia | destruct Hfl as [-> | ->]; done | done | done | unfold is_u32; lia |].
  cbn [defd mbind out_bind]. rewrite !s32_id by lia. rewrite (proj2 (Z.leb_gt i 0)) by lia. unfold c_true at 1 2. rewrite (proj2 (Z.eqb_neq fd 0)) by lia.
  change (0 =? 0) with true. cbn [negb orb]. rewrite (proj2 (Z.ltb_ge UINT16_MAX prio)) by (unfold UINT16_MAX; lia).
  assert (c_true (Z.land flags (u32 (Z.lnot BPF_TC_F_REPLACE))) = false) as -> by (destruct Hfl as [-> | ->]; done).
  rewrite Etp. cbn [Z.ltb Z.compare]. rewrite add_kind. cbn [defd mbind out_bind Z.ltb Z.compare].
  rewrite tc_begin by done. cbn [defd mbind out_bind app]. fold NESTED_OPTIONS. rewrite Einfo.
  rewrite add_fd_and_name by done. cbn [defd mbind out_bind Z.ltb Z.compare]. change 4 with (zlen (le_split 4 TCA_BPF_FLAG_ACT_DIRECT)) at 1.
  rewrite tc_req_add; [| done |].
  2: { rewrite encode_attrs_app, zlen_app. change (zlen (encode_attrs [bpf_kind; (NESTED_OPTIONS, [])])) with 12.
       pose proof (zlen_prog_attrs fd name id Hn) as Hz. change (prog_attrs fd name id) with (take 2 (prog_attrs fd name id) ++ [word TCA_BPF_FLAGS TCA_BPF_FLAG_ACT_DIRECT]) in Hz.
       rewrite encode_attrs_app, encode_attrs_one, zlen_app, zlen_word in Hz. rewrite zlen_le_split. change (NLA_ALIGN (NLA_HDRLEN + Z.of_nat 4)) with 8. unfold sizeof_req. lia. }
  cbn [defd mbind out_bind Z.ltb Z.compare]. rewrite <- app_assoc.
  change (take 2 (prog_attrs fd name id) ++ [(TCA_BPF_FLAGS, le_split 4 TCA_BPF_FLAG_ACT_DIRECT)]) with (prog_attrs fd name id).
  change ([bpf_kind; (NESTED_OPTIONS, [])] ++ prog_attrs fd name id) with ([bpf_kind] ++ (NESTED_OPTIONS, []) :: prog_attrs fd name id).
  rewrite tc_end; [| pose proof (zlen_prog_attrs fd name id Hn); change (zlen (encode_attrs [bpf_kind])) with 8; unfold sizeof_req; lia].
  cbn [defd mbind out_bind app]. fold (attach_attrs fd name id).
  assert (Z.lor (Z.lor NLM_F_REQUEST (Z.lor NLM_F_ACK (Z.lor NLM_F_CREATE NLM_F_ECHO)))
    (if c_true (Z.land flags BPF_TC_F_REPLACE) then NLM_F_REPLACE else NLM_F_EXCL) = new_flags flags) as -> by (destruct Hfl as [-> | ->]; done).
  done.
Qed.

(** An echo of the filter, and then an acknowledgement. *)
Lemma recv_echo w pid flags i parent h p id d a1 a2 capped orig tlvs f g i0 h0 p0 : (forall n, w_alloc w n = true) ->
  reports w pid flags i parent h p id d -> is_u32 i -> is_u32 parent -> is_u32 h -> 0 <= p < 2 ^ 16 -> is_u32 id ->
  c_true (Z.land flags NLM_F_ECHO) = true -> delivers d a1 -> ack_ok (u32 (w_time w)) pid capped 0 orig tlvs ->
  delivers (ack (u32 (w_time w)) pid capped 0 orig tlvs) a2 ->
  libbpf_netlink_recv (Some get_tc_info) pid (s32 (w_time w)) (w_alloc w) (a1 ++ a2) {| cb_opts := Some (opts_mem f g i0 h0 p0); processed := false |} =
    Ret (0, {| cb_opts := Some (opts_mem f g id h p); processed := true |}).
Proof.
  intros Halloc Hrep Hi Hpar Hh Hp Hid Hecho Hd1 Hack Hd2. pose proof (get_tc_info_spec w pid flags i parent h p id d f g i0 h0 p0 Hrep Hi Hpar Hh Hp Hid) as Eg.
  rewrite Hecho in Eg. destruct Hrep as (type & family & proto & attrs & inner & -> & Hhd & Ht1 & Ht2 & _).
  unfold libbpf_netlink_recv. rewrite Halloc. cbn [negb]. rewrite <- u32_of_s32 in *. set (m := nlmsg _ _ _ _ _) in *.
  destruct (length (a1 ++ a2)) as [| k] eqn:Ek.
  { exfalso. destruct Hd1 as (i1 & i2 & _ & _ & ->). rewrite !length_app in Ek. cbn [length] in Ek. lia. }
  destruct (recv_round (Some get_tc_info) pid (s32 (w_time w)) (S k) (w_alloc w) 4096 m a1 a2
    {| cb_opts := Some (opts_mem f g i0 h0 p0); processed := false |} Halloc Hd1) as [iov ->]; [apply nlmsg_nonempty |].
  assert (zlen m = NLMSG_HDRLEN + zlen (tcmsg family i h parent (tcm_info p proto) ++ encode_attrs attrs)) as Hm by apply zlen_nlmsg.
  destruct (length m) as [| fuel] eqn:El; [pose proof (zlen_nonneg (tcmsg family i h parent (tcm_info p proto) ++ encode_attrs attrs)); unfold zlen, NLMSG_HDRLEN in *; lia |].
  pose proof (recv_step (Some get_tc_info) pid (s32 (w_time w)) fuel m [] _ _ _ [] (zlen m) false
    {| cb_opts := Some (opts_mem f g i0 h0 p0); processed := false |} (eq_sym (app_nil_r m)) Hhd ltac:(lia)) as Es.
  change (zlen []) with 0 in Es. rewrite Es. unfold on_msg. rewrite !(proj2 (Z.eqb_neq type _)) by done. rewrite Eg. cbn [mbind option_bind defd out_bind].
  change (NL_NEXT =? NL_CONT) with false. change (NL_NEXT =? NL_NEXT) with true. cbv iota. cbn [defd mbind out_bind].
  destruct (recv_round (Some get_tc_info) pid (s32 (w_time w)) k (w_alloc w) iov _ a2 [] {| cb_opts := Some (opts_mem f g id h p); processed := true |} Halloc Hd2)
    as [iov' E]; [apply nlmsg_nonempty |]. rewrite app_nil_r in E. rewrite E, recv_ack by done. done.
Qed.

Definition names (type flags i h parent p : Z) : tc_request :=
  {| r_type := type; r_flags := flags; r_ifindex := i; r_handle := h; r_parent := parent; r_info := tcm_info p ETH_P_ALL;
     r_kind := Some (str "bpf" ++ [NUL]); r_prog := None |}.

Lemma decode_named w type flags i h parent p : is_u32 i -> is_u32 h -> is_u32 parent -> 0 <= p < 2 ^ 16 -> 0 <= type < 2 ^ 16 -> 0 <= flags < 2 ^ 16 ->
  decode_tc (tc_msg w type flags i h parent (tcm_info p ETH_P_ALL) [bpf_kind]) = Some (names type flags i h parent p).
Proof.
  intros Hi Hh Hpar Hp Ht Hf. unfold tc_msg. rewrite (decode_tc_sent _ _ _ _ _ _ _ _ None); try done; [by apply tcm_info_spec |].
  repeat constructor; done.
Qed.

(** The checks of [bpf_tc_query] and [bpf_tc_detach] on options that name a filter. *)
Lemma query_unfold w i ap parent parent' h p : hook_ok i ap parent parent' -> is_u32 h -> h <> 0 -> 0 < p < 2 ^ 16 ->
  bpf_tc_query w (Some (hook_mem i ap parent)) (Some (opts_mem 0 0 0 h p)) =
    '(ret, info, tr) ← libbpf_netlink_send_recv w (tc_req RTM_GETTFILTER NLM_F_REQUEST i h parent' (tcm_info p ETH_P_ALL) [bpf_kind]) NETLINK_ROUTE
        (Some get_tc_info) {| cb_opts := Some (opts_mem 0 0 0 h p); processed := false |};
    Ret (if ret <? 0 then ret else if processed info then ret else - ENOENT, cb_opts info, tr).
Proof.
  intros (Hi & Hap & Hpar & Hpar' & Etp) Hh H0 Hp. unfold bpf_tc_query. rewrite hook_valid, opts_valid. cbn [defd mbind out_bind negb].
  destruct (hook_get i ap parent) as (-> & -> & ->); [unfold is_u32; lia | done | done |].
  destruct (opts_get_all 0 0 0 h p) as (-> & -> & -> & -> & ->); [done.. | unfold is_u32; lia |].
  cbn [defd mbind out_bind]. rewrite s32_id by lia. rewrite (proj2 (Z.leb_gt i 0)) by lia. unfold c_true.
  rewrite (proj2 (Z.eqb_neq h 0)), (proj2 (Z.eqb_neq p 0)) by lia. cbn [Z.eqb negb orb].
  rewrite (proj2 (Z.ltb_ge UINT16_MAX p)), Etp by (unfold UINT16_MAX; lia). cbn [Z.ltb Z.compare]. rewrite add_kind. done.
Qed.

Lemma detach_unfold w i ap parent parent' h p : hook_ok i ap parent parent' -> is_u32 h -> h <> 0 -> 0 < p < 2 ^ 16 ->
  bpf_tc_detach w (Some (hook_mem i ap parent)) (Some (opts_mem 0 0 0 h p)) =
    '(ret, _, tr) ← libbpf_netlink_send_recv w
        (tc_req RTM_DELTFILTER (Z.lor NLM_F_REQUEST NLM_F_ACK) i h parent' (tcm_info p ETH_P_ALL) [bpf_kind]) NETLINK_ROUTE None tt;
    Ret (ret, tr).
Proof.
  intros (Hi & Hap & Hpar & Hpar' & Etp) Hh H0 Hp. unfold bpf_tc_detach, __bpf_tc_detach. rewrite hook_valid, opts_valid. cbn [defd mbind out_bind negb].
  destruct (hook_get i ap parent) as (-> & -> & ->); [unfold is_u32; lia | done | done |].
  destruct (opts_get_all 0 0 0 h p) as (-> & -> & -> & -> & ->); [done.. | unfold is_u32; lia |].
  cbn [defd mbind out_bind]. rewrite s32_id by lia. rewrite (proj2 (Z.leb_gt i 0)) by lia. unfold c_true.
  rewrite (proj2 (Z.eqb_neq h 0)), (proj2 (Z.eqb_neq p 0)) by lia. cbn [Z.eqb negb orb andb].
  rewrite (proj2 (Z.ltb_ge UINT16_MAX p)), Etp by (unfold UINT16_MAX; lia). cbn [Z.ltb Z.compare]. rewrite add_kind. done.
Qed.

(** Asking for a filter: the program that is reported is stored. *)
Lemma query_spec w sock pid i ap parent parent' h p : connected w sock pid -> hook_ok i ap parent parent' -> is_u32 h -> h <> 0 -> 0 < p < 2 ^ 16 ->
  exists msg, decode_tc msg = Some (names RTM_GETTFILTER NLM_F_REQUEST i h parent' p) /\
    forall flags id d, reports w pid flags i parent' h p id d -> is_u32 id -> Z.land flags NLM_F_ECHO = 0 ->
      delivers d (w_recv w NETLINK_ROUTE msg) ->
      bpf_tc_query w (Some (hook_mem i ap parent)) (Some (opts_mem 0 0 0 h p)) =
        Ret (0, Some (opts_mem 0 0 id h p), exchange sock (NETLINK_ROUTE, msg)).
Proof.
  intros Hw Hhook Hh H0 Hp. pose proof Hhook as (Hi & _ & _ & Hpar & _). exists (tc_msg w RTM_GETTFILTER NLM_F_REQUEST i h parent' (tcm_info p ETH_P_ALL) [bpf_kind]).
  split; [apply decode_named; unfold is_u32; try done; lia |]. intros flags id d Hrep Hid Hecho Hd.
  rewrite (query_unfold w i ap parent parent') by done. rewrite (tc_send w _ _ _ _ _ _ _ _ _ sock pid Hw) by done. cbv zeta.
  pose proof (get_tc_info_spec w pid flags i parent' h p id d 0 0 0 h p Hrep ltac:(unfold is_u32; lia) Hpar Hh ltac:(lia) Hid) as Eg. rewrite Hecho in Eg.
  destruct Hrep as (type & family & proto & attrs & inner & -> & Hhd & Ht1 & Ht2 & _). destruct Hw as (_ & _ & _ & _ & _ & _ & Halloc).
  rewrite (recv_one get_tc_info w pid _ _ _ _ _ _ Halloc Hhd Ht1 Ht2 Hd Eg). done.
Qed.

Lemma detach_spec w sock pid i ap parent parent' h p : connected w sock pid -> hook_ok i ap parent parent' -> is_u32 h -> h <> 0 -> 0 < p < 2 ^ 16 ->
  exists msg, decode_tc msg = Some (names RTM_DELTFILTER (Z.lor NLM_F_REQUEST NLM_F_ACK) i h parent' p) /\
    forall capped e orig tlvs, ack_ok (u32 (w_time w)) pid capped e orig tlvs ->
      delivers (ack (u32 (w_time w)) pid capped e orig tlvs) (w_recv w NETLINK_ROUTE msg) ->
      bpf_tc_detach w (Some (hook_mem i ap parent)) (Some (opts_mem 0 0 0 h p)) = Ret (e, exchange sock (NETLINK_ROUTE, msg)).
Proof.
  intros Hw Hhook Hh H0 Hp. pose proof Hhook as (Hi & _ & _ & Hpar & _).
  exists (tc_msg w RTM_DELTFILTER (Z.lor NLM_F_REQUEST NLM_F_ACK) i h parent' (tcm_info p ETH_P_ALL) [bpf_kind]).
  split; [apply decode_named; unfold is_u32; try done; lia |]. intros capped e orig tlvs Ha Hd.
  rewrite (detach_unfold w i ap parent parent') by done. rewrite (tc_send w _ _ _ _ _ _ _ _ _ sock pid Hw) by done. cbv zeta.
  destruct Hw as (_ & _ & _ & _ & _ & _ & Halloc). by rewrite (recv_acked None w pid _ capped e orig tlvs).
Qed.

(** The answers to an attempt to attach: the kernel echoes the filter [h], [p]
    with the program [id] and acknowledges the request. *)
Definition echoed (w : nl_world) (pid i parent h p id : Z) (ans : list (Z + list byte)) : Prop :=
  exists flags d a1 a2 capped orig tlvs, ans = a1 ++ a2 /\ reports w pid flags i parent h p id d /\
    c_true (Z.land flags NLM_F_ECHO) = true /\ delivers d a1 /\ ack_ok (u32 (w_time w)) pid capped 0 orig tlvs /\
    delivers (ack (u32 (w_time w)) pid capped 0 orig tlvs) a2.

Lemma prog_attrs_ok fd name id : zlen (cstr name) < 16 -> Forall attr_ok (prog_attrs fd name id).
Proof.
  intros Hn. pose proof (prog_name_small name id Hn). unfold prog_attrs. repeat constructor; try done; cbn [word fst snd]; rewrite ?zlen_le_split; try done.
  rewrite zlen_app. change (zlen [NUL]) with 1. unfold NLA_HDRLEN. lia.
Qed.

Lemma attach_spec w sock pid prog_info i ap parent parent' fd flags handle prio ret name id : connected w sock pid -> hook_ok i ap parent parent' ->
  0 < fd < 2 ^ 31 -> flags = 0 \/ flags = BPF_TC_F_REPLACE -> is_u32 handle -> 0 <= prio < 2 ^ 16 ->
  prog_info fd = (ret, name, id) -> 0 <= ret -> zlen (cstr name) < 16 ->
  let call := bpf_tc_attach w prog_info (Some (hook_mem i ap parent)) (Some (opts_mem fd flags 0 handle prio)) in
  exists msg,
    decode_tc msg = Some {| r_type := RTM_NEWTFILTER; r_flags := new_flags flags; r_ifindex := i; r_handle := handle; r_parent := parent';
      r_info := tcm_info prio ETH_P_ALL; r_kind := Some (str "bpf" ++ [NUL]);
      r_prog := Some (Some fd, Some ((cstr name ++ str ":[" ++ fmt_u id ++ str "]") ++ [NUL]), Some TCA_BPF_FLAG_ACT_DIRECT) |} /\
    (forall capped e orig tlvs, ack_ok (u32 (w_time w)) pid capped e orig tlvs ->
      delivers (ack (u32 (w_time w)) pid capped e orig tlvs) (w_recv w NETLINK_ROUTE msg) ->
      call = Ret (if e <? 0 then e else - ENOENT, Some (opts_mem fd flags 0 handle prio), exchange sock (NETLINK_ROUTE, msg))) /\
    forall h p prog, is_u32 h -> 0 <= p < 2 ^ 16 -> is_u32 prog -> echoed w pid i parent' h p prog (w_recv w NETLINK_ROUTE msg) ->
      call = Ret (0, Some (opts_mem fd flags prog h p), exchange sock (NETLINK_ROUTE, msg)).
Proof.
  intros Hw Hhook Hfd Hfl Hh Hp Einfo Hret Hn call. pose proof Hhook as (Hi & _ & _ & Hpar & _). pose proof (zlen_attach_attrs fd name id Hn) as Hz.
  exists (tc_msg w RTM_NEWTFILTER (new_flags flags) i handle parent' (tcm_info prio ETH_P_ALL) (attach_attrs fd name id)).
  assert (call = _) as Ec by (apply (attach_unfold_tc w prog_info i ap parent parent' fd flags handle prio ret name id); done).
  rewrite (tc_send w _ _ _ _ _ _ _ _ _ sock pid Hw) in Ec by (unfold sizeof_req; lia). cbv zeta in Ec. split_and!.
  - unfold tc_msg. rewrite (decode_tc_sent _ _ _ _ _ _ _ _ (Some (prog_attrs fd name id))).
    + do 2 f_equal. cbn [fmap option_fmap option_map]. do 3 f_equal. unfold prog_attrs.
      change (find_last TCA_BPF_FD _) with (Some (le_split 4 fd)). cbn [fmap option_fmap option_map]. f_equal. rewrite le_combine_split. apply Z.mod_small. lia.
    + unfold is_u32. lia.
    + exact Hh.
    + exact Hpar.
    + by apply tcm_info_spec.
    + done.
    + by destruct Hfl as [-> | ->].
    + lia.
    + constructor; [done |]. constructor; [| constructor]. split; [done |]. cbn [snd]. pose proof (zlen_prog_attrs fd name id Hn). unfold NLA_HDRLEN. lia.
    + reflexivity.
    + by apply prog_attrs_ok.
  - intros capped e orig tlvs Ha Hd. rewrite Ec. destruct Hw as (_ & _ & _ & _ & _ & _ & Halloc).
    rewrite (recv_acked _ w pid _ capped e orig tlvs) by done. done.
  - intros h p prog Hh' Hp' Hprog (fl & d & a1 & a2 & capped & orig & tlvs & Eans & Hrep & Hecho & Hd1 & Hack & Hd2). rewrite Ec.
    destruct Hw as (_ & _ & _ & _ & _ & _ & Halloc). rewrite Eans.
    rewrite (recv_echo w pid fl i parent' h p prog d a1 a2 capped orig tlvs _ _ _ _ _ Halloc Hrep); [reflexivity | unfold is_u32; lia | assumption..].
Qed.

(** C32: the life of a filter.  [bpf_tc_attach] sends one request to create a
    classifier on the hook: with the handle and priority of the options, the program with its
    name, exclusively unless the caller allows replacing.  If the kernel refuses, the
    result is its error and the options are as before; if it acknowledges without a report, the result is
    ENOENT.  If it reports the filter it has made, the result is 0 and the options
    hold the id of the program, the handle and the priority the kernel chose.
    With these two and the rest cleared, [bpf_tc_query] and
    [bpf_tc_detach] ask for exactly that filter: the first stores the id
    of the program the kernel reports there, the second returns the kernel's error. *)
Theorem tc_filter_lifecycle w sock pid prog_info i ap parent parent' fd flags handle prio ret name id : connected w sock pid ->
  hook_ok i ap parent parent' -> 0 < fd < 2 ^ 31 -> flags = 0 \/ flags = BPF_TC_F_REPLACE -> is_u32 handle -> 0 <= prio < 2 ^ 16 ->
  prog_info fd = (ret, name, id) -> 0 <= ret -> zlen (cstr name) < 16 ->
  let hook := Some (hook_mem i ap parent) in
  let opts := Some (opts_mem fd flags 0 handle prio) in
  exists msg,
    decode_tc msg = Some {| r_type := RTM_NEWTFILTER; r_flags := new_flags flags; r_ifindex := i; r_handle := handle; r_parent := parent';
      r_info := tcm_info prio ETH_P_ALL; r_kind := Some (str "bpf" ++ [NUL]);
      r_prog := Some (Some fd, Some ((cstr name ++ str ":[" ++ fmt_u id ++ str "]") ++ [NUL]), Some TCA_BPF_FLAG_ACT_DIRECT) |} /\
    (forall capped e orig tlvs, ack_ok (u32 (w_time w)) pid capped e orig tlvs ->
      delivers (ack (u32 (w_time w)) pid capped e orig tlvs) (w_recv w NETLINK_ROUTE msg) ->
      bpf_tc_attach w prog_info hook opts = Ret (if e <? 0 then e else - ENOENT, opts, exchange sock (NETLINK_ROUTE, msg))) /\
    forall h p prog, is_u32 h -> h <> 0 -> 0 < p < 2 ^ 16 -> is_u32 prog -> echoed w pid i parent' h p prog (w_recv w NETLINK_ROUTE msg) ->
      bpf_tc_attach w prog_info hook opts = Ret (0, Some (opts_mem fd flags prog h p), exchange sock (NETLINK_ROUTE, msg)) /\
      forall w2 sock2 pid2, connected w2 sock2 pid2 ->
        (exists q, decode_tc q = Some (names RTM_GETTFILTER NLM_F_REQUEST i h parent' p) /\
          forall flags2 now d, reports w2 pid2 flags2 i parent' h p now d -> is_u32 now -> Z.land flags2 NLM_F_ECHO = 0 ->
            delivers d (w_recv w2 NETLINK_ROUTE q) ->
            bpf_tc_query w2 hook (Some (opts_mem 0 0 0 h p)) = Ret (0, Some (opts_mem 0 0 now h p), exchange sock2 (NETLINK_ROUTE, q))) /\
        (exists q, decode_tc q = Some (names RTM_DELTFILTER (Z.lor NLM_F_REQUEST NLM_F_ACK) i h parent' p) /\
          forall capped e orig tlvs, ack_ok (u32 (w_time w2)) pid2 capped e orig tlvs ->
            delivers (ack (u32 (w_time w2)) pid2 capped e orig tlvs) (w_recv w2 NETLINK_ROUTE q) ->
            bpf_tc_detach w2 hook (Some (opts_mem 0 0 0 h p)) = Ret (e, exchange sock2 (NETLINK_ROUTE, q))).
Proof.
  intros Hw Hhook Hfd Hfl Hh Hp Einfo Hret Hn hook opts.
  destruct (attach_spec w sock pid prog_info i ap parent parent' fd flags handle prio ret name id) as (msg & Hdec & Herr & Hok); [done.. |].
  exists msg. split_and!; [exact Hdec | exact Herr |]. intros h p prog Hh' H0 Hp' Hprog He. split; [apply Hok; [done | lia | done | done] |].
  intros w2 sock2 pid2 Hw2. split; [by apply query_spec | by apply detach_spec].
Qed.

(** ** Hooks *)

Lemma tc_req_store type flags i h parent f v :
  store (tc_req type flags i h parent f []) 24 (le_split 4 v) = Some (tc_req type flags i v parent f []) /\
  store (tc_req type flags i h parent f []) 28 (le_split 4 v) = Some (tc_req type flags i h v f []).
Proof.
  unfold tc_req, request. change (encode_attrs []) with (@nil byte). rewrite !app_nil_r, !zlen_app, !zlen_le_split, zlen_replicate, !zlen_tcmsg.
  set (t := replicate (Z.to_nat _) x00). set (a := le_split 4 (4 + (Z.of_nat 2 + (Z.of_nat 2 + (Z.of_nat 8 + 20)))) ++ le_split 2 type ++ le_split 2 flags ++ replicate 8 x00 ++ le_split 1 AF_UNSPEC ++ replicate 3 x00 ++ le_split 4 i).
  assert (forall h parent, le_split 4 (4 + (Z.of_nat 2 + (Z.of_nat 2 + (Z.of_nat 8 + 20)))) ++ (le_split 2 type ++ le_split 2 flags ++ replicate 8 x00 ++ tcmsg AF_UNSPEC i h parent f) ++ t =
    a ++ le_split 4 h ++ le_split 4 parent ++ le_split 4 f ++ t) as E by (intros; unfold a, tcmsg; by rewrite <- !app_assoc).
  assert (zlen a = 24) as Ha by (unfold a; by rewrite !zlen_app, !zlen_le_split, !zlen_replicate). rewrite !E. split.
  - apply store_app; [by rewrite Ha | by rewrite !length_le_split].
  - rewrite (app_assoc a), (app_assoc a). apply store_app; [by rewrite zlen_app, Ha, zlen_le_split | by rewrite !length_le_split].
Qed.

Definition clsact_kind : Z * list byte := (TCA_KIND, str "clsact" ++ [NUL]).
Definition clsact_handle : Z := TC_H_MAKE TC_H_CLSACT 0.

Lemma clsact_config_spec type flags i : clsact_config (tc_req type flags i 0 0 0 []) = Some (0, tc_req type flags i clsact_handle TC_H_CLSACT 0 [clsact_kind]).
Proof.
  unfold clsact_config. fold clsact_handle. rewrite (proj2 (tc_req_store type flags i 0 0 0 TC_H_CLSACT)). cbn [mbind option_bind].
  rewrite (proj1 (tc_req_store type flags i 0 TC_H_CLSACT 0 clsact_handle)). cbn [mbind option_bind].
  apply (tc_req_add type flags i clsact_handle TC_H_CLSACT 0 [] TCA_KIND (str "clsact" ++ [NUL])); done.
Qed.

Definition both : Z := Z.lor BPF_TC_INGRESS BPF_TC_EGRESS.
Definition clsact_point (ap : Z) : bool := (ap =? BPF_TC_INGRESS) || (ap =? BPF_TC_EGRESS) || (ap =? both).

Lemma qdisc_modify_spec w sock pid i ap cmd flags : connected w sock pid -> 0 < i < 2 ^ 31 -> is_u32 ap -> clsact_point ap = true ->
  0 <= cmd < 2 ^ 16 -> 0 <= Z.lor (Z.lor NLM_F_REQUEST NLM_F_ACK) flags < 2 ^ 16 ->
  exists msg, decode_tc msg = Some {| r_type := cmd; r_flags := Z.lor (Z.lor NLM_F_REQUEST NLM_F_ACK) flags; r_ifindex := i; r_handle := clsact_handle;
      r_parent := TC_H_CLSACT; r_info := 0; r_kind := Some (str "clsact" ++ [NUL]); r_prog := None |} /\
    forall capped e orig tlvs, ack_ok (u32 (w_time w)) pid capped e orig tlvs ->
      delivers (ack (u32 (w_time w)) pid capped e orig tlvs) (w_recv w NETLINK_ROUTE msg) ->
      tc_qdisc_modify w (Some (hook_mem i ap 0)) cmd flags = Ret (e, exchange sock (NETLINK_ROUTE, msg)).
Proof.
  intros Hw Hi Hap Hpt Hc Hf. exists (tc_msg w cmd (Z.lor (Z.lor NLM_F_REQUEST NLM_F_ACK) flags) i clsact_handle TC_H_CLSACT 0 [clsact_kind]). split.
  - unfold tc_msg. rewrite (decode_tc_sent _ _ _ _ _ _ _ _ None); try done; [unfold is_u32; lia |]. by repeat constructor.
  - intros capped e orig tlvs Ha Hd. unfold tc_qdisc_modify, attach_point_to_config.
    destruct (hook_get i ap 0) as (-> & -> & ->); [unfold is_u32; lia | done | done |]. cbn [mbind option_bind]. unfold clsact_point, both in Hpt.
    rewrite Hpt. cbn [c_true Z.eqb negb defd mbind out_bind Z.ltb Z.compare]. rewrite tc_req_init, clsact_config_spec.
    cbn [defd mbind out_bind Z.ltb Z.compare]. rewrite (tc_send w _ _ _ _ _ _ _ _ _ sock pid Hw) by done. cbv zeta.
    destruct Hw as (_ & _ & _ & _ & _ & _ & Halloc). by rewrite (recv_acked None w pid _ capped e orig tlvs).
Qed.

Lemma good_hook i ap parent : 0 < i < 2 ^ 31 -> is_u32 ap -> is_u32 parent -> bad_hook (Some (hook_mem i ap parent)) = Some false.
Proof.
  intros Hi Hap Hpar. unfold bad_hook. rewrite hook_valid. cbn [mbind option_bind negb].
  destruct (hook_get i ap parent) as (-> & _); [unfold is_u32; lia | done | done |]. cbn [mbind option_bind].
  rewrite s32_id, (proj2 (Z.leb_gt i 0)) by lia. done.
Qed.

(** Creating the hook of an interface asks for its clsact queueing discipline,
    exclusively; destroying it deletes the discipline when both
    directions are named, and else only all filters of the one direction. *)
Theorem tc_hook_requests w sock pid i ap : connected w sock pid -> 0 < i < 2 ^ 31 -> is_u32 ap -> clsact_point ap = true ->
  let hook := Some (hook_mem i ap 0) in
  let qdisc type flags := {| r_type := type; r_flags := flags; r_ifindex := i; r_handle := clsact_handle; r_parent := TC_H_CLSACT; r_info := 0;
                             r_kind := Some (str "clsact" ++ [NUL]); r_prog := None |} in
  let acked q e := exists capped orig tlvs, ack_ok (u32 (w_time w)) pid capped e orig tlvs /\
    delivers (ack (u32 (w_time w)) pid capped e orig tlvs) (w_recv w NETLINK_ROUTE q) in
  (exists q, decode_tc q = Some (qdisc RTM_NEWQDISC (Z.lor (Z.lor NLM_F_REQUEST NLM_F_ACK) (Z.lor NLM_F_CREATE NLM_F_EXCL))) /\
    forall e, acked q e -> bpf_tc_hook_create w hook = Ret (e, exchange sock (NETLINK_ROUTE, q))) /\
  (exists q, decode_tc q = Some (if ap =? both then qdisc RTM_DELQDISC (Z.lor NLM_F_REQUEST NLM_F_ACK) else
      {| r_type := RTM_DELTFILTER; r_flags := Z.lor NLM_F_REQUEST NLM_F_ACK; r_ifindex := i; r_handle := 0; r_parent := snd (tc_get_tcm_parent ap 0);
         r_info := 0; r_kind := None; r_prog := None |}) /\
    forall e, acked q e -> bpf_tc_hook_destroy w hook = Ret (e, exchange sock (NETLINK_ROUTE, q))).
Proof.
  intros Hw Hi Hap Hpt hook qdisc acked. split.
  - destruct (qdisc_modify_spec w sock pid i ap RTM_NEWQDISC (Z.lor NLM_F_CREATE NLM_F_EXCL)) as (q & Hdec & Hq); [done.. |].
    exists q. split; [exact Hdec |]. intros e (capped & orig & tlvs & Ha & Hd). unfold bpf_tc_hook_create, hook. rewrite good_hook by done.
    cbn [defd mbind out_bind]. by apply (Hq capped e orig tlvs).
  - assert (bpf_tc_hook_destroy w hook = if (ap =? BPF_TC_INGRESS) || (ap =? BPF_TC_EGRESS) then __bpf_tc_detach w hook None true else tc_qdisc_delete w hook) as E.
    { unfold bpf_tc_hook_destroy, hook. rewrite good_hook by done. cbn [defd mbind out_bind].
      destruct (hook_get i ap 0) as (_ & -> & _); [unfold is_u32; lia | done | done |]. cbn [defd mbind out_bind].
      destruct ((ap =? BPF_TC_INGRESS) || (ap =? BPF_TC_EGRESS)) eqn:Es; [done |]. unfold clsact_point, both in Hpt. rewrite Es in Hpt. cbn [orb] in Hpt. by rewrite Hpt. }
    rewrite E. clear E. destruct ((ap =? BPF_TC_INGRESS) || (ap =? BPF_TC_EGRESS)) eqn:Es.
    + set (p := snd (tc_get_tcm_parent ap 0)).
      assert (ap =? both = false /\ tc_get_tcm_parent ap 0 = (0, p) /\ is_u32 p) as (Hb & Ep & Hp).
      { unfold p, tc_get_tcm_parent. rewrite Es. cbn [c_true Z.eqb negb]. apply orb_true_iff in Es as [Es | Es]; apply Z.eqb_eq in Es; subst ap; done. }
      rewrite Hb. exists (tc_msg w RTM_DELTFILTER (Z.lor NLM_F_REQUEST NLM_F_ACK) i 0 p 0 []). split.
      * unfold tc_msg. rewrite (decode_tc_sent _ _ _ _ _ _ _ _ None); try done; unfold is_u32; lia.
      * intros e (capped & orig & tlvs & Ha & Hd). unfold __bpf_tc_detach, hook. rewrite hook_valid. cbn [defd mbind out_bind negb OPTS_VALID].
        destruct (hook_get i ap 0) as (-> & -> & ->); [unfold is_u32; lia | done | done |]. cbn [OPTS_GET OPTS_HAS defd mbind out_bind option_bind].
        rewrite s32_id, (proj2 (Z.leb_gt i 0)) by lia. cbn [c_true Z.eqb negb orb andb]. change (UINT16_MAX <? 0) with false. cbv iota.
        rewrite Ep. cbn [Z.ltb Z.compare]. rewrite tc_req_init. cbn [mbind out_bind Z.ltb Z.compare].
        rewrite (tc_send w _ _ _ _ _ _ _ _ _ sock pid Hw) by done. cbv zeta.
        destruct Hw as (_ & _ & _ & _ & _ & _ & Halloc). by rewrite (recv_acked None w pid _ capped e orig tlvs).
    + assert (ap =? both = true) as -> by (unfold clsact_point in Hpt; by rewrite Es in Hpt).
      destruct (qdisc_modify_spec w sock pid i ap RTM_DELQDISC 0) as (q & Hdec & Hq); [done.. |].
      exists q. split; [exact Hdec |]. intros e (capped & orig & tlvs & Ha & Hd). by apply (Hq capped e orig tlvs).
Qed.

(** ** A kernel that gives filters the handle 1 and the priority 49152 *)

Definition ex_report (flags : Z) : list byte :=
  nlmsg RTM_NEWTFILTER flags 1000 77 (tcmsg AF_UNSPEC 2 1 0xFFFFFFF2 (tcm_info 49152 ETH_P_ALL) ++
    encode_attrs [bpf_kind; (TCA_OPTIONS, encode_attrs [word TCA_BPF_ID 9])]).

Definition ex_tc_world : nl_world :=
  {| w_socket := inr 5; w_bind := None; w_getsockname := inr (77, sizeof_sockaddr_nl); w_time := 1000; w_send := None;
     w_alloc := fun _ => true;
     w_recv := fun _ msg =>
       if bool_decide (r_type <$> decode_tc msg = Some RTM_NEWTFILTER) then
         [inr (ex_report NLM_F_ECHO); inr (ex_report NLM_F_ECHO); inl EINTR; inr (ex_ack 0); inr (ex_ack 0)]
       else if bool_decide (r_type <$> decode_tc msg = Some RTM_GETTFILTER) then [inr (ex_report 0); inr (ex_report 0)]
       else [inr (ex_ack (- ENOENT)); inr (ex_ack (- ENOENT))] |}.

Lemma ex_reports flags : 0 <= flags < 2 ^ 16 -> reports ex_tc_world 77 flags 2 0xFFFFFFF2 1 49152 9 (ex_report flags).
Proof.
  intros Hf. exists RTM_NEWTFILTER, AF_UNSPEC, ETH_P_ALL, [bpf_kind; (TCA_OPTIONS, encode_attrs [word TCA_BPF_ID 9])], [word TCA_BPF_ID 9].
  cbv zeta. split; [reflexivity |]. split; [split_and!; done || lia |]. do 2 (split; [done |]). split; [repeat constructor; done |].
  split; [by eexists |]. split; [reflexivity |]. split; [repeat constructor; done | reflexivity].
Qed.

Lemma tc_filter_lifecycle_witness :
  let hook := Some (hook_mem 2 BPF_TC_INGRESS 0) in
  exists msg q q',
    bpf_tc_attach ex_tc_world (fun _ => (0, str "count" ++ [NUL], 9)) hook (Some (opts_mem 6 0 0 0 0)) =
      Ret (0, Some (opts_mem 6 0 9 1 49152), exchange 5 (NETLINK_ROUTE, msg)) /\
    bpf_tc_query ex_tc_world hook (Some (opts_mem 0 0 0 1 49152)) = Ret (0, Some (opts_mem 0 0 9 1 49152), exchange 5 (NETLINK_ROUTE, q)) /\
    bpf_tc_detach ex_tc_world hook (Some (opts_mem 0 0 0 1 49152)) = Ret (- ENOENT, exchange 5 (NETLINK_ROUTE, q')).
Proof.
  cbv zeta. assert (connected ex_tc_world 5 77) as Hw by (repeat split; done).
  assert (forall d, delivers d [inr d; inr d]) as Hdel by (intros d; exists [], []; split_and!; [constructor | constructor | done]).
  assert (is_u32 9) as H9 by done. assert (Z.land 0 NLM_F_ECHO = 0) as Hl by done.
  pose proof (ex_reports 0 ltac:(done)) as Hrep. pose proof (ex_ack_ok (- ENOENT) ltac:(done)) as Hack.
  destruct (tc_filter_lifecycle ex_tc_world 5 77 (fun _ => (0, str "count" ++ [NUL], 9)) 2 BPF_TC_INGRESS 0 0xFFFFFFF2 6 0 0 0 0 (str "count" ++ [NUL]) 9 Hw)
    as (msg & Hdec & _ & Hlife); [split_and!; done | done | by left | done | done | done | done | done |].
  destruct (Hlife 1 49152 9) as [Hatt Hrest]; [done | done | done | done | |].
  { cbn [w_recv ex_tc_world]. rewrite Hdec. exists NLM_F_ECHO, (ex_report NLM_F_ECHO), [inr (ex_report NLM_F_ECHO); inr (ex_report NLM_F_ECHO)],
      [inl EINTR; inr (ex_ack 0); inr (ex_ack 0)], true, (replicate 16 x00), [].
    split_and!; [done | by apply ex_reports | done | apply Hdel | by apply ex_ack_ok |]. exists [inl EINTR], [].
    split_and!; [constructor; [by left | constructor] | constructor | done]. }
  destruct (Hrest ex_tc_world 5 77 Hw) as [(q & Hq & Hget) (q' & Hq' & Hdet)]. exists msg, q, q'. split; [exact Hatt |]. clear Hatt. split.
  - apply (Hget 0 9 (ex_report 0) Hrep H9 Hl). cbn [w_recv ex_tc_world]. rewrite Hq. apply Hdel.
  - apply (Hdet true (- ENOENT) (replicate 16 x00) [] Hack). cbn [w_recv ex_tc_world]. rewrite Hq'. apply Hdel.
Defined.
