(* ===== verification/XdpNetlink.v ===== *)
(** libxdp on libbpf's netlink client: [do_xdp_attach] and
    [xdp_get_ifindex_prog_id] of src/lib/xdp-tools/lib/libxdp/libxdp.c call
    [bpf_xdp_attach] and [bpf_xdp_query] of src/lib/libbpf/src/netlink.c.

    The kernel of the file on attaching is made here of those two functions, on
    a kernel that answers messages; what attaching relies on follows from what
    the kernel does with a message. *)
From S2P Require Import Prelude.
From S2P Require Import CLib.
From S2P Require Import Nlattr.
From S2P Require Import Netlink.
From S2P Require Import XdpProgram.
From S2P Require Import XdpDispatch.
From S2P Require Import XdpPin.
From S2P Require Import XdpMultiprog.
From S2P Require Import XdpAttach.

Definition EBADF : Z := 9.

(** What the kernel reads from a message: the interface, the program, the
    flags and the program expected. *)
Definition setlink : Type := Z * option Z * option Z * option Z.

Section Netlink.
Context (ifindex : Z).
(** The kernel's reaction to a message. *)
Context (react : shared -> setlink -> Z * shared).
(** The sockets at a time, in a state. *)
Context (world : nat -> shared -> nl_world).

(** The effect of what was sent. *)
Definition effect (x : shared) (tr : list event) : shared :=
  foldl (fun x ev => match ev with
    | Sent proto msg =>
      if proto =? NETLINK_ROUTE then match decode_setlink msg with Some d => snd (react x d) | None => x end else x
    | _ => x
    end) x tr.

Definition in_int (v : Z) : bool := (- 2 ^ 31 <=? v) && (v <? 2 ^ 31).

(** [do_xdp_attach]: the descriptors are ints and the flags unsigned, so other
    arguments do not occur. *)
Definition netlink_set (n : nat) (x : shared) (prog_fd xdp_flags old_fd : Z) : Z * shared :=
  if in_int prog_fd && in_int old_fd && (0 <=? xdp_flags) && (xdp_flags <? 2 ^ 32) then
    match bpf_xdp_attach (world n x) ifindex prog_fd xdp_flags (attach_opts (Some old_fd)) with
    | Ret (err, tr) => (err, effect x tr)
    | _ => (- EBADF, x)
    end
  else (- EBADF, x).

(** The options of [xdp_get_ifindex_prog_id], and what it takes from them. *)
Definition netlink_query (w : nl_world) : option (Z + query_answer) :=
  match bpf_xdp_query w ifindex 0 (Some (query_opts no_info 0 0)) with
  | Ret (err, Some o, _) =>
    if negb (err =? 0) then Some (inl err) else
    drv ← load32 o 12; hw ← load32 o 16; skb ← load32 o 20; mode ← load8 o 24;
    Some (inr {| qa_drv := drv; qa_skb := skb; qa_hw := hw; qa_mode := mode |})
  | _ => None
  end.

(** A kernel [K] whose interface is set and asked for with messages. *)
Definition over_netlink (K : kern) : kern :=
  {| k_rely := k_rely K; k_set := netlink_set;
     k_attempt := fun n x =>
       let a := k_attempt K n x in
       {| at_query := default (inl (- EBADF)) (netlink_query (world n x)); at_alloc := at_alloc a; at_get := at_get a; at_fill := at_fill a |};
     k_about := k_about K; k_strdup := k_strdup K; k_links := k_links K; k_links_end := k_links_end K; k_link_detach := k_link_detach K;
     k_load := k_load K; k_frags := k_frags K; k_set_flags := k_set_flags K; k_gen := k_gen K; k_fault := k_fault K; k_obj := k_obj K;
     k_dir := k_dir K; k_lock := k_lock K; k_skip := k_skip K |}.

(** What the kernel documents of RTM_SETLINK messages: one that is refused changes nothing; one
    that is not attaches the program, and then the program expected, if one was given,
    was attached, and none if the flags ask for that. *)
Record react_ok (id_of : Z -> Z) : Prop := {
  react_fails x d err x' : react x d = (err, x') -> err <> 0 -> err < 0 /\ x' = x;
  react_attaches x fd flags expected x' : react x (ifindex, Some fd, flags, expected) = (0, x') ->
    Z.land (default 0 flags) XDP_FLAGS_HW_MODE = 0 ->
    sh_slot x' = (if fd =? -1 then None else Some (id_of fd)) /\ sh_fs x' = sh_fs x /\ sh_hw x' = sh_hw x /\
    (forall old, expected = Some old -> sh_slot x = Some (id_of old)) /\
    (Z.land (default 0 flags) XDP_FLAGS_UPDATE_IF_NOEXIST <> 0 -> sh_slot x = None)
}.

(** The kernel answers a message with an acknowledgement of its reaction. *)
Definition answers (n : nat) (x : shared) : Prop :=
  exists sock pid, connected (world n x) sock pid /\ forall msg d, decode_setlink msg = Some d ->
    exists capped orig tlvs, ack_ok (u32 (w_time (world n x))) pid capped (fst (react x d)) orig tlvs /\
      delivers (ack (u32 (w_time (world n x))) pid capped (fst (react x d)) orig tlvs) (w_recv (world n x) NETLINK_ROUTE msg).

(** The message of a call. *)
Definition request_of (fd flags old : Z) : setlink :=
  let flags := if c_true old then Z.lor flags XDP_FLAGS_REPLACE else flags in
  (ifindex, Some fd, if c_true flags then Some flags else None,
   if c_true (Z.land flags XDP_FLAGS_REPLACE) then Some (if c_true old then old else -1) else None).

(** A call is the kernel's reaction to one message. *)
Lemma netlink_set_spec n x fd flags old : - 2 ^ 31 <= ifindex < 2 ^ 31 -> answers n x ->
  netlink_set n x fd flags old =
    if in_int fd && in_int old && (0 <=? flags) && (flags <? 2 ^ 32) then react x (request_of fd flags old) else (- EBADF, x).
Proof.
  intros Hi (sock & pid & Hw & Hans). unfold netlink_set. destruct (_ && _) eqn:Er; [| done].
  assert (- 2 ^ 31 <= fd < 2 ^ 31 /\ - 2 ^ 31 <= default 0 (Some old) < 2 ^ 31 /\ 0 <= flags < 2 ^ 32) as (Hfd & Ho & Hf)
    by (unfold in_int in Er; cbn [default from_option id] in *; lia).
  pose proof (decode_attach_msg (world n x) ifindex fd flags (Some old) Hi Hfd Hf Ho) as Hdec.
  change (decode_setlink (attach_msg (world n x) ifindex fd flags (Some old)) = Some (request_of fd flags old)) in Hdec.
  destruct (Hans _ _ Hdec) as (capped & orig & tlvs & Ha & Hd).
  rewrite (attach_acked _ sock pid _ _ _ _ capped _ orig tlvs Hw Ho Ha Hd). cbn [effect foldl]. rewrite Z.eqb_refl, Hdec. by destruct (react x _).
Qed.

Lemma replace_bits flags mask : Z.land XDP_FLAGS_REPLACE mask = 0 -> forall b : bool,
  Z.land (if b then Z.lor flags XDP_FLAGS_REPLACE else flags) mask = Z.land flags mask.
Proof. intros H [|]; [| done]. by rewrite Z.land_lor_distr_l, H, Z.lor_0_r. Qed.

Lemma c_true_old old : old <> 0 -> c_true old = true.
Proof. intros H. unfold c_true. by rewrite (proj2 (Z.eqb_neq _ _)). Qed.

Lemma expects flags : c_true (Z.land (Z.lor flags XDP_FLAGS_REPLACE) XDP_FLAGS_REPLACE) = true.
Proof. rewrite Z.land_lor_distr_l, Z.land_diag. apply c_true_old. intros E. by apply Z.lor_eq_0_iff in E as [_ E]. Qed.

(** What attaching relies on, from what the kernel does with messages. *)
Lemma netlink_kern_ok K id_of : 0 < ifindex < 2 ^ 31 -> react_ok id_of -> (forall n x, answers n x) ->
  (forall n x fd hw_fd k, fe_dup (fl_main (at_fill (k_attempt K n x) fd hw_fd)) = inr k -> 0 < k) ->
  (forall n op f errno, k_fault K n op f = Some errno -> 0 < errno) -> (forall n err, ge_dispatcher (k_gen K n) = inl err -> err <> 0) ->
  kern_ok (over_netlink K) id_of.
Proof.
  intros Hi [Hfails Hatt] Hans Hdup Hfault Hgen. split; cbn [over_netlink k_set k_attempt at_fill k_fault k_gen]; [| | exact Hdup | exact Hfault | exact Hgen].
  - intros n x fd flags old err x'. rewrite netlink_set_spec by (done || lia). destruct (_ && _); [apply Hfails |]. by intros [= <- <-].
  - intros n x fd flags old x'. rewrite netlink_set_spec by (done || lia). destruct (_ && _); [| by intros E; apply (f_equal fst) in E].
    intros E Hhw. unfold request_of in E. set (fl := if c_true old then Z.lor flags XDP_FLAGS_REPLACE else flags) in E.
    assert (forall mask, Z.land XDP_FLAGS_REPLACE mask = 0 -> Z.land (default 0 (if c_true fl then Some fl else None)) mask = Z.land flags mask) as Hbits.
    { intros mask Hm. rewrite <- (replace_bits flags mask Hm (c_true old)). fold fl. unfold c_true. by destruct (Z.eqb_spec fl 0) as [-> |]. }
    apply Hatt in E as (H1 & H2 & H3 & H4 & H5); [| by rewrite Hbits]. split_and!; [done | done | done | |].
    + intros Ho. apply H4. unfold fl. by rewrite (c_true_old old), expects.
    + intros Hf. apply H5. by rewrite Hbits.
Qed.

(** A call refused as invalid is a message refused as invalid. *)
Lemma refused_message K fd old : 0 < ifindex < 2 ^ 31 -> (forall n x, answers n x) -> old <> 0 -> refused (over_netlink K) fd old ->
  exists x0 fd flags old, fst (react x0 (ifindex, Some fd, flags, Some old)) = - EINVAL.
Proof.
  intros Hi Hans Ho (n & x & flags & E). cbn [over_netlink k_set] in E. rewrite netlink_set_spec in E by (done || lia).
  destruct (_ && _); [| done]. unfold request_of in E. rewrite (c_true_old old), expects in E by done. eauto.
Qed.

(** *** Querying *)

(** The query reports what the kernel's dump says of the interface. *)
Lemma netlink_query_spec w sock pid links l f s : connected w sock pid -> l_index l = ifindex -> ifindex <> 0 ->
  dumps (u32 (w_time w)) pid links (w_recv w NETLINK_ROUTE (getlink_msg (w_time w))) ->
  Forall link_ok links -> NoDup (l_index <$> links) -> l ∈ links -> features_known w pid ifindex f s ->
  let i := link_info l in
  netlink_query w = Some (inr {| qa_drv := drv_prog_id i; qa_skb := skb_prog_id i; qa_hw := hw_prog_id i; qa_mode := attach_mode i |}).
Proof.
  intros Hw Hl H0 Hd Hok Hnd Hin Hf i. unfold netlink_query. rewrite <- Hl in *.
  destruct (xdp_query_spec w sock pid links l 0 f s Hw H0 eq_refl) as [msgs ->]; [apply elem_of_cons; by left | done.. |].
  change (negb (0 =? 0)) with false. cbv iota. pose proof (proj1 (Forall_forall _ _) Hok l Hin) as Hlok.
  destruct (link_info_range l Hlok) as (R1 & R2 & R3 & R4 & R5). fold i in R1, R2, R3, R4, R5. fold i.
  destruct (query_opts_fields i f s R1 R2 R3 R4 R5) as (-> & _ & -> & -> & ->). done.
Qed.

(** A program in driver or generic mode is shown. *)
Lemma netlink_query_shows w sock pid links l f s mode : connected w sock pid -> l_index l = ifindex -> ifindex <> 0 ->
  dumps (u32 (w_time w)) pid links (w_recv w NETLINK_ROUTE (getlink_msg (w_time w))) ->
  Forall link_ok links -> NoDup (l_index <$> links) -> l ∈ links -> features_known w pid ifindex f s ->
  (attach_mode (link_info l) = XDP_ATTACHED_DRV /\ mode = XDP_MODE_NATIVE) \/ (attach_mode (link_info l) = XDP_ATTACHED_SKB /\ mode = XDP_MODE_SKB) ->
  shows (if mode =? XDP_MODE_NATIVE then drv_prog_id (link_info l) else skb_prog_id (link_info l)) mode (default (inl (- EBADF)) (netlink_query w)).
Proof.
  intros Hw Hl H0 Hd Hok Hnd Hin Hf Hm. rewrite (netlink_query_spec w sock pid links l f s) by done. eexists. split; [done |].
  cbn [qa_mode qa_drv qa_skb]. destruct Hm as [[E ->] | [E ->]]; [by left | by right].
Qed.

End Netlink.

(** ** A kernel that answers messages *)

Definition ex_react (x : shared) (d : setlink) : Z * shared :=
  let '(_, fd, flags, expected) := d in
  if match expected with Some old => negb (bool_decide (sh_slot x = Some old)) | None => false end then (- EEXIST, x) else
  if c_true (Z.land (default 0 flags) XDP_FLAGS_UPDATE_IF_NOEXIST) && bool_decide (is_Some (sh_slot x)) then (- EEXIST, x) else
  (0, {| sh_slot := if default (-1) fd =? -1 then None else fd; sh_hw := sh_hw x; sh_fs := sh_fs x |}).

Lemma ex_react_range x d : fst (ex_react x d) = 0 \/ fst (ex_react x d) = - EEXIST.
Proof. destruct d as [[[i fd] fl] e]. cbn [ex_react]. destruct (match e with Some _ => _ | None => _ end); [by right |]. destruct (_ && _); [by right | by left]. Qed.

(** It knows no netdev family; its dump is empty. *)
Definition ex_link_world (n : nat) (x : shared) : nl_world :=
  {| w_socket := inr 5; w_bind := None; w_getsockname := inr (77, sizeof_sockaddr_nl); w_time := 1000; w_send := None;
     w_alloc := fun _ => true;
     w_recv := fun proto msg =>
       let d := if negb (proto =? NETLINK_ROUTE) then ex_ack (- ENOENT) else
                match decode_setlink msg with Some d => ex_ack (fst (ex_react x d)) | None => done_msg 1000 77 end in
       [inr d; inl EINTR; inr d] |}.

Lemma ex_answers n x : answers ex_react ex_link_world n x.
Proof.
  exists 5, 77. split; [repeat split; done |]. intros msg d Hd. exists true, (replicate 16 x00), [].
  assert (- 2 ^ 31 <= fst (ex_react x d) < 2 ^ 31) as Hr by (destruct (ex_react_range x d) as [-> | ->]; done).
  split; [by apply ex_ack_ok |]. cbn [w_recv ex_link_world]. rewrite Z.eqb_refl, Hd. cbn [negb].
  exists [], [inl EINTR]. split_and!; [constructor | constructor; [by left | constructor] | done].
Qed.

Lemma ex_react_ok : react_ok 2 ex_react id.
Proof.
  split.
  - intros x [[[i fd] fl] e] err x'. cbn [ex_react]. destruct (match e with Some _ => _ | None => _ end); [by intros [= <- <-] |].
    destruct (_ && _); by intros [= <- <-].
  - intros x fd fl e x'. cbn [ex_react default from_option].
    destruct (match e with Some _ => _ | None => _ end) eqn:Ee; [intros E; by apply (f_equal fst) in E |].
    destruct (_ && _) eqn:Ef; [intros E; by apply (f_equal fst) in E |]. intros E _. apply (f_equal snd) in E. cbn in E. subst x'. cbn.
    split_and!; [done | done | done | |].
    + intros old ->. by apply negb_false_iff, bool_decide_eq_true in Ee.
    + intros Hf. rewrite (c_true_old _ Hf) in Ef. cbn [andb] in Ef. apply bool_decide_eq_false in Ef. by apply eq_None_not_Some.
Qed.

Lemma ex_query n x : netlink_query 2 (ex_link_world n x) = Some (inr {| qa_drv := 0; qa_skb := 0; qa_hw := 0; qa_mode := XDP_ATTACHED_NONE |}).
Proof. reflexivity. Qed.

