(* ===== verification/Btf.v ===== *)
(** BPF type information as bytes: the parser and the type queries of
    src/lib/libbpf/src/btf.c, with the accessors of btf.h.

    BTF is a header, a section of types and a section of strings.  A type is three
    32-bit words (name, kind and size or referenced type) followed by more
    words that depend on its kind.  A BTF object has copies of its sections in
    memory, an array with the offset of each type, and it may be on top of a
    base object, whose types come first. *)
From S2P Require Import Prelude.
From S2P Require Import CLib.
From S2P Require Import Hashmap.
From S2P Require Import Strset.
From coqutil Require Import Datatypes.RecordSetters.
Import DoubleBraceUpdate.

Definition BTF_MAX_NR_TYPES : Z := 0x7fffffff.
Definition BTF_MAX_STR_OFFSET : Z := 0x7fffffff.
Definition BTF_MAGIC : Z := 0xeb9f.
Definition SIZEOF_HEADER : Z := 24.
Definition SIZEOF_TYPE : Z := 12.

(** ** Kinds *)

Inductive kind :=
| KUnkn | KInt | KPtr | KArray | KStruct | KUnion | KEnum | KFwd | KTypedef | KVolatile | KConst | KRestrict
| KFunc | KFuncProto | KVar | KDatasec | KFloat | KDeclTag | KTypeTag | KEnum64 | KOther (k : Z).

#[global] Instance kind_eq_decision : EqDecision kind.
Proof. solve_decision. Defined.

Definition kinds : list kind :=
  [KUnkn; KInt; KPtr; KArray; KStruct; KUnion; KEnum; KFwd; KTypedef; KVolatile; KConst; KRestrict; KFunc; KFuncProto; KVar;
   KDatasec; KFloat; KDeclTag; KTypeTag; KEnum64].

Definition kind_of (k : Z) : kind := default (KOther k) (kinds !! Z.to_nat k).

(** BTF_INFO_KIND, BTF_INFO_VLEN, BTF_INFO_KFLAG *)
Definition btf_kind (info : Z) : kind := kind_of (Z.land (Z.shiftr info 24) 0x1f).
Definition btf_vlen (info : Z) : Z := Z.land info 0xffff.
Definition btf_kflag (info : Z) : bool := c_true (Z.shiftr info 31).

(** ** Objects *)

Record btf_header := {
  magic : Z; version : Z; flags : Z; hdr_len : Z; type_off : Z; type_len : Z; str_off : Z; str_len : Z }.

(** One object, without its base.  [b_hdr_rest] are the bytes of the header
    behind the struct.  [b_modifiable] says that the header, the types and
    the strings are in memory of their own ([btf->hdr != btf->raw_data]); the strings
    are in [b_set] then, and in [b_strs] otherwise. *)
Record btf_own := {
  b_raw : option (list byte);
  b_raw_swapped : option (list byte);
  b_raw_size : Z;
  b_swapped : bool;
  b_modifiable : bool;
  b_hdr : btf_header;
  b_hdr_rest : list byte;
  b_types : list byte;
  b_types_cap : Z;
  b_offs : list byte;
  b_offs_cap : Z;
  b_nr_types : Z;
  b_start_id : Z;
  b_start_str_off : Z;
  b_strs : list byte;
  b_set : option strset;
  b_deduped : bool;
  b_fd : Z;
  b_ptr_sz : Z
}.

(** An object and its bases, the nearest first. *)
Record btf := { own : btf_own; bases : list btf_own }.

Definition base_btf (b : btf) : option btf :=
  match bases b with o :: os => Some {| own := o; bases := os |} | [] => None end.

(** ** Types in memory *)

(** A pointer to a [struct btf_type]: the static one for void, or an offset
    in a section. *)
Inductive tptr := TVoid | TAt (m : list byte) (off : Z).

Definition btf_void : list Z := [0; 0; 0].

(** The words of the struct and of what follows it. *)
Definition t_word (t : tptr) (i : Z) : option Z :=
  match t with
  | TVoid => if (i <? 0) || (3 <=? i) then None else btf_void !! Z.to_nat i
  | TAt m off => load32 m (off + 4 * i)
  end.

Definition t_name_off (t : tptr) : option Z := t_word t 0.
Definition t_info (t : tptr) : option Z := t_word t 1.
Definition t_size (t : tptr) : option Z := t_word t 2.
(** Word [j] of member [i] of [n] words each, behind the struct. *)
Definition t_member (t : tptr) (n i j : Z) : option Z := t_word t (3 + n * i + j).

(** ** Growing the array of offsets *)

Definition btf_add_type_offs_mem (realloc : Z -> bool) (b : btf_own) (add_cnt : Z) : option (Z * list byte * Z) :=
  libbpf_add_mem realloc (b_offs b) (b_offs_cap b) 4 (b_nr_types b) BTF_MAX_NR_TYPES add_cnt.

Definition btf_add_type_idx_entry (realloc : Z -> bool) (b : btf_own) (off : Z) : option (Z * btf_own) :=
  match btf_add_type_offs_mem realloc b 1 with
  | None => Some (- ENOMEM, b)
  | Some (p, offs, cap) =>
    offs ← store offs p (le_split 4 off);
    Some (0, b {{ b_offs := offs; b_offs_cap := cap }})
  end.

(** ** Byte order *)

Definition bswap32 (x : Z) : Z := le_combine (rev (le_split 4 x)).

(** [x = bswap_32(x)] for a word in memory, and for [n] words in a row. *)
Definition bswap_word (m : list byte) (off : Z) : option (list byte) :=
  bs ← bytes_at m off 4; store m off (rev bs).
Fixpoint bswap_words (m : list byte) (off : Z) (n : nat) : option (list byte) :=
  match n with O => Some m | S n => m ← bswap_word m off; bswap_words m (off + 4) n end.

Definition btf_bswap_hdr (m : list byte) : option (list byte) :=
  bs ← bytes_at m 0 2; m ← store m 0 (rev bs); bswap_words m 4 5.

Definition load_header (m : list byte) : option btf_header :=
  mg ← load16 m 0; v ← load8 m 2; f ← load8 m 3; hl ← load32 m 4; t_off ← load32 m 8; tl ← load32 m 12;
  so ← load32 m 16; sl ← load32 m 20;
  Some {| magic := mg; version := v; flags := f; hdr_len := hl; type_off := t_off; type_len := tl; str_off := so; str_len := sl |}.

Definition btf_bswap_type_base (m : list byte) (t : Z) : option (list byte) := bswap_words m t 3.

Definition btf_bswap_type_rest (m : list byte) (t : Z) : option (Z * list byte) :=
  info ← load32 m (t + 4);
  let vlen := Z.to_nat (btf_vlen info) in
  let swap n := m ← bswap_words m (t + SIZEOF_TYPE) n; Some (0, m) in
  match btf_kind info with
  | KFwd | KConst | KVolatile | KRestrict | KPtr | KTypedef | KFunc | KFloat | KTypeTag => Some (0, m)
  | KInt => swap 1%nat
  | KEnum => swap (vlen * 2)%nat
  | KEnum64 => swap (vlen * 3)%nat
  | KArray => swap 3%nat
  | KStruct | KUnion => swap (vlen * 3)%nat
  | KFuncProto => swap (vlen * 2)%nat
  | KVar => swap 1%nat
  | KDatasec => swap (vlen * 3)%nat
  | KDeclTag => swap 1%nat
  | KUnkn | KOther _ => Some (- EINVAL, m)
  end.

(** ** Parsing *)

(** The checks of a header in native byte order. *)
Definition check_header (m : list byte) (raw_size : Z) (swapped : bool) : option (Z * list byte * option btf_header * bool) :=
  h ← load_header m;
  let meta_left := u32 (raw_size - hdr_len h) in
  Some (if raw_size <? hdr_len h then - EINVAL else
        if meta_left <? str_off h + str_len h then - EINVAL else
        if str_off h <? type_off h + type_len h then - EINVAL else
        if c_true (type_off h mod 4) then - EINVAL else 0, m, Some h, swapped).

(** The error, the data, in which the header is in native byte order now, the
    header, and whether it was not. *)
Definition btf_parse_hdr (m : list byte) (raw_size : Z) : option (Z * list byte * option btf_header * bool) :=
  if raw_size <? SIZEOF_HEADER then Some (- EINVAL, m, None, false) else
  mg ← load16 m 0;
  hl ← load32 m 4;
  if mg =? bswap16 BTF_MAGIC then
    if negb (bswap32 hl =? SIZEOF_HEADER) then Some (- ENOTSUP, m, None, true) else
    m ← btf_bswap_hdr m; check_header m raw_size true
  else if negb (mg =? BTF_MAGIC) then Some (- EINVAL, m, None, false) else
  check_header m raw_size false.

Definition btf_parse_str_sec (b : btf) : option Z :=
  let len := str_len (b_hdr (own b)) in
  let based := match bases b with [] => false | _ => true end in
  if based && (len =? 0) then Some 0 else
  if (len =? 0) || (BTF_MAX_STR_OFFSET <? u32 (len - 1)) then Some (- EINVAL) else
  last ← load8 (b_strs (own b)) (len - 1);
  if c_true last then Some (- EINVAL) else
  first ← load8 (b_strs (own b)) 0;
  if negb based && c_true first then Some (- EINVAL) else Some 0.

Definition btf_type_size (m : list byte) (t : Z) : option Z :=
  info ← load32 m (t + 4);
  let vlen := btf_vlen info in
  Some match btf_kind info with
  | KFwd | KConst | KVolatile | KRestrict | KPtr | KTypedef | KFunc | KFloat | KTypeTag => SIZEOF_TYPE
  | KInt => SIZEOF_TYPE + 4
  | KEnum => SIZEOF_TYPE + vlen * 8
  | KEnum64 => SIZEOF_TYPE + vlen * 12
  | KArray => SIZEOF_TYPE + 12
  | KStruct | KUnion => SIZEOF_TYPE + vlen * 12
  | KFuncProto => SIZEOF_TYPE + vlen * 8
  | KVar => SIZEOF_TYPE + 4
  | KDatasec => SIZEOF_TYPE + vlen * 12
  | KDeclTag => SIZEOF_TYPE + 4
  | KUnkn | KOther _ => - EINVAL
  end.

(** [btf_parse_type_sec]: the loop over the types, which start at [types] and
    end at [end_type] in the data [m].  The error, the data, and the object
    with the array of offsets. *)
Fixpoint parse_types (fuel : nat) (realloc : Z -> bool) (m : list byte) (types next_type end_type : Z) (b : btf_own) :
    option (Z * list byte * btf_own) :=
  if negb (next_type + SIZEOF_TYPE <=? end_type) then
    Some (if negb (next_type =? end_type) then - EINVAL else 0, m, b)
  else
  match fuel with
  | O => None
  | S fuel =>
    m ← (if b_swapped b then btf_bswap_type_base m next_type else Some m);
    type_size ← btf_type_size m next_type;
    if type_size <? 0 then Some (type_size, m, b) else
    if end_type <? next_type + type_size then Some (- EINVAL, m, b) else
    '(err, m) ← (if b_swapped b then btf_bswap_type_rest m next_type else Some (0, m));
    if c_true err then Some (- EINVAL, m, b) else
    '(err, b) ← btf_add_type_idx_entry realloc b (next_type - types);
    if c_true err then Some (err, m, b) else
    parse_types fuel realloc m types (next_type + type_size) end_type (b {{ b_nr_types := b_nr_types b + 1 }})
  end.

(** ** Types and strings by number *)

Definition btf__type_cnt (b : btf) : Z := u32 (b_start_id (own b) + b_nr_types (own b)).

Fixpoint type_by_id (o : btf_own) (os : list btf_own) (type_id : Z) : option tptr :=
  if type_id =? 0 then Some TVoid else
  if type_id <? b_start_id o then match os with o' :: os' => type_by_id o' os' type_id | [] => None end else
  off ← load32 (b_offs o) (4 * (type_id - b_start_id o));
  Some (TAt (b_types o) off).

Definition btf_type_by_id (b : btf) (type_id : Z) : option tptr := type_by_id (own b) (bases b) type_id.

(** The pointer, [None] inside for NULL. *)
Definition btf__type_by_id (b : btf) (type_id : Z) : option (option tptr) :=
  if btf__type_cnt b <=? type_id then Some None else t ← btf_type_by_id b type_id; Some (Some t).

Definition btf_strs_data (o : btf_own) : option (list byte) :=
  if b_modifiable o then strset__data <$> b_set o else Some (b_strs o).

Fixpoint str_by_offset (o : btf_own) (os : list btf_own) (offset : Z) : option (option (list byte)) :=
  if offset <? b_start_str_off o then match os with o' :: os' => str_by_offset o' os' offset | [] => None end else
  if u32 (offset - b_start_str_off o) <? str_len (b_hdr o) then
    m ← btf_strs_data o;
    Some (Some (drop (Z.to_nat (offset - b_start_str_off o)) m))
  else Some None.

(** The memory from the string on, [None] inside for NULL. *)
Definition btf__str_by_offset (b : btf) (offset : Z) : option (option (list byte)) := str_by_offset (own b) (bases b) offset.
Definition btf__name_by_offset (b : btf) (offset : Z) : option (option (list byte)) := btf__str_by_offset b offset.

(** ** The sanity check *)

Definition btf_validate_str (b : btf) (off : Z) : option Z :=
  s ← btf__str_by_offset b off;
  Some match s with None => - EINVAL | Some _ => 0 end.

Definition btf_validate_id (b : btf) (id : Z) : option Z :=
  t ← btf__type_by_id b id;
  Some match t with None => - EINVAL | Some _ => 0 end.

(** [err = err ?: f], lazily. *)
Definition or_else (err : Z) (f : option Z) : option Z := if c_true err then Some err else f.

(** The loop over the [n] members from member [i] on. *)
Fixpoint validate_members (check : Z -> option Z) (i : Z) (n : nat) : option Z :=
  match n with
  | O => Some 0
  | S n => err ← check i; or_else err (validate_members check (i + 1) n)
  end.

Definition btf_validate_type (b : btf) (t : tptr) : option Z :=
  info ← t_info t;
  name ← t_name_off t;
  err ← btf_validate_str b name;
  or_else err (
    let n := Z.to_nat (btf_vlen info) in
    match btf_kind info with
    | KUnkn | KInt | KFwd | KFloat => Some 0
    | KPtr | KTypedef | KVolatile | KConst | KRestrict | KVar | KDeclTag | KTypeTag => id ← t_size t; btf_validate_id b id
    | KArray =>
      type ← t_member t 3 0 0; err ← btf_validate_id b type;
      or_else err (index_type ← t_member t 3 0 1; btf_validate_id b index_type)
    | KStruct | KUnion =>
      validate_members (fun i => name ← t_member t 3 i 0; err ← btf_validate_str b name;
                                 or_else err (type ← t_member t 3 i 1; btf_validate_id b type)) 0 n
    | KEnum => validate_members (fun i => name ← t_member t 2 i 0; btf_validate_str b name) 0 n
    | KEnum64 => validate_members (fun i => name ← t_member t 3 i 0; btf_validate_str b name) 0 n
    | KFunc =>
      id ← t_size t; err ← btf_validate_id b id;
      or_else err (
        ft ← btf__type_by_id b id; ft ← ft; info ← t_info ft;
        Some (if decide (btf_kind info = KFuncProto) then 0 else - EINVAL))
    | KFuncProto =>
      validate_members (fun i => name ← t_member t 2 i 0; err ← btf_validate_str b name;
                                 or_else err (type ← t_member t 2 i 1; btf_validate_id b type)) 0 n
    | KDatasec => validate_members (fun i => type ← t_member t 3 i 0; btf_validate_id b type) 0 n
    | KOther _ => Some (- EINVAL)
    end).

(** The loop over [n] types from [i] on. *)
Fixpoint sanity_loop (b : btf) (i : Z) (n : nat) : option Z :=
  match n with
  | O => Some 0
  | S n => t ← btf_type_by_id b i; err ← btf_validate_type b t; or_else err (sanity_loop b (i + 1) n)
  end.

Definition btf_sanity_check (b : btf) : option Z := sanity_loop b 1 (Z.to_nat (btf__type_cnt b - 1)).

(** ** New objects *)

Record new_env := { ne_btf : bool; ne_raw : bool; ne_realloc : Z -> bool }.

Definition no_header : btf_header :=
  {| magic := 0; version := 0; flags := 0; hdr_len := 0; type_off := 0; type_len := 0; str_off := 0; str_len := 0 |}.

(** An object as [calloc] and the first assignments of [btf_new] leave it. *)
Definition btf_blank (base : option btf) : btf :=
  {| own :=
       {| b_raw := None; b_raw_swapped := None; b_raw_size := 0; b_swapped := false; b_modifiable := false; b_hdr := no_header;
          b_hdr_rest := []; b_types := []; b_types_cap := 0; b_offs := []; b_offs_cap := 0; b_nr_types := 0;
          b_start_id := match base with Some b => btf__type_cnt b | None => 1 end;
          b_start_str_off := match base with Some b => str_len (b_hdr (own b)) | None => 0 end;
          b_strs := []; b_set := None; b_deduped := false; b_fd := -1; b_ptr_sz := 0 |};
     bases := match base with Some b => own b :: bases b | None => [] end |}.

(** The rest of [btf_new], with the header [h] of the data [raw]. *)
Definition new_sections (realloc : Z -> bool) (raw : list byte) (size : Z) (h : btf_header) (swapped : bool) (base : option btf) :
    option (Z + btf) :=
  let types := hdr_len h + type_off h in
  strs ← bytes_at raw (hdr_len h + str_off h) (Z.to_nat (str_len h));
  let b := btf_blank base in
  let o := (own b) {{ b_raw_size := size; b_swapped := swapped; b_hdr := h;
                      b_hdr_rest := drop 24 (take (Z.to_nat (hdr_len h)) raw); b_strs := strs }} in
  err ← btf_parse_str_sec (b {{ own := o }});
  if c_true err then Some (inl err) else
  '(err, raw, o) ← parse_types (Z.to_nat (type_len h)) realloc raw types types (types + type_len h) o;
  if c_true err then Some (inl err) else
  ts ← bytes_at raw types (Z.to_nat (type_len h));
  let b := b {{ own := o {{ b_raw := Some raw; b_types := ts }} }} in
  err ← btf_sanity_check b;
  if c_true err then Some (inl err) else Some (inr b).

(** [inl] is the error; [data] is copied.  The object that is freed on an
    error has no descriptor. *)
Definition btf_new (e : new_env) (data : list byte) (size : Z) (base : option btf) : option (Z + btf) :=
  if negb (ne_btf e) then Some (inl (- ENOMEM)) else
  if negb (ne_raw e) then Some (inl (- ENOMEM)) else
  raw ← bytes_at data 0 (Z.to_nat size);
  '(err, raw, h, swapped) ← btf_parse_hdr raw size;
  if c_true err then Some (inl err) else
  h ← h;
  new_sections (ne_realloc e) raw size h swapped base.

Definition btf__new (e : new_env) (data : list byte) (size : Z) : option (Z + btf) := btf_new e data size None.

(** ** Queries *)

(** A search over the types from [i] on, for the first result. *)
Fixpoint first_type {A} (test : Z -> option (option A)) (i : Z) (n : nat) : option (option A) :=
  match n with
  | O => Some None
  | S n => r ← test i; match r with Some a => Some (Some a) | None => first_type test (i + 1) n end
  end.

Definition long_aliases : list (list byte) :=
  map (fun s => str s ++ [NUL])
    ["long"; "long int"; "int long"; "unsigned long"; "long unsigned"; "unsigned long int"; "unsigned int long";
     "long unsigned int"; "long int unsigned"; "int unsigned long"; "int long unsigned"]%string.

(** [strcmp(name, s) == 0] for one of the strings. *)
Fixpoint equal_any (name : list byte) (ss : list (list byte)) : option bool :=
  match ss with
  | [] => Some false
  | s :: ss' => eq ← str_equal name s; if (eq : bool) then Some true else equal_any name ss'
  end.

(** One type of the loop of [determine_ptr_size]. *)
Definition long_size (b : btf) (i : Z) : option (option Z) :=
  t ← btf__type_by_id b i;
  t ← t;
  info ← t_info t;
  if negb (bool_decide (btf_kind info = KInt)) then Some None else
  size ← t_size t;
  if negb (size =? 4) && negb (size =? 8) then Some None else
  name_off ← t_name_off t;
  name ← btf__name_by_offset b name_off;
  match name with
  | None => Some None
  | Some name => eq ← equal_any name long_aliases; Some (if (eq : bool) then Some size else None)
  end.

Definition determine_ptr_size (b : btf) : option Z :=
  match bases b with
  | o :: _ => if 0 <? b_ptr_sz o then Some (b_ptr_sz o) else
    r ← first_type (long_size b) 1 (Z.to_nat (btf__type_cnt b - 1)); Some (default (-1) r)
  | [] => r ← first_type (long_size b) 1 (Z.to_nat (btf__type_cnt b - 1)); Some (default (-1) r)
  end.

(** The value is kept in the object. *)
Definition cached_ptr_sz (b : btf) : option btf :=
  if b_ptr_sz (own b) =? 0 then sz ← determine_ptr_size b; Some (b {{ own := (own b) {{ b_ptr_sz := sz }} }}) else Some b.

Definition btf_ptr_sz (b : btf) : option (Z * btf) :=
  b ← cached_ptr_sz b;
  Some (if b_ptr_sz (own b) <? 0 then 8 else b_ptr_sz (own b), b).

Definition btf__pointer_size (b : btf) : option (Z * btf) :=
  b ← cached_ptr_sz b;
  Some (if b_ptr_sz (own b) <? 0 then 0 else b_ptr_sz (own b), b).

Definition btf__set_pointer_size (b : btf) (ptr_sz : Z) : Z * btf :=
  if negb (ptr_sz =? 4) && negb (ptr_sz =? 8) then (- EINVAL, b) else (0, b {{ own := (own b) {{ b_ptr_sz := ptr_sz }} }}).

(** BTF_LITTLE_ENDIAN is 0 and BTF_BIG_ENDIAN is 1; the host is little endian. *)
Definition btf__endianness (b : btf) : Z := c_bool (b_swapped (own b)).

Definition btf__set_endianness (b : btf) (endian : Z) : Z * btf :=
  if negb (endian =? 0) && negb (endian =? 1) then (- EINVAL, b) else
  let swapped := endian =? 1 in
  let o := (own b) {{ b_swapped := swapped }} in
  (0, b {{ own := if negb swapped then o {{ b_raw_swapped := None }} else o }}).

(** [btf_type_is_void_or_null] *)
Definition is_void_or_null (t : option tptr) : option bool :=
  match t with
  | None => Some true
  | Some TVoid => Some true
  | Some t => info ← t_info t; Some (bool_decide (btf_kind info = KFwd))
  end.

Definition MAX_RESOLVE_DEPTH : nat := 32.
Definition UINT32_MAX : Z := 2 ^ 32 - 1.

(** The loop of [btf__resolve_size]: the size, or an error, and the number of
    elements.  A size is the last step, with the object. *)
Fixpoint resolve_size_loop (n : nat) (b : btf) (t : option tptr) (nelems : Z) : option (Z + Z * Z * btf) :=
  match n with
  | O => Some (inr (-1, nelems, b))
  | S n =>
    stop ← is_void_or_null t;
    if (stop : bool) then Some (inr (-1, nelems, b)) else
    t ← t;
    info ← t_info t;
    match btf_kind info with
    | KInt | KStruct | KUnion | KEnum | KEnum64 | KDatasec | KFloat => size ← t_size t; Some (inr (size, nelems, b))
    | KPtr => '(size, b) ← btf_ptr_sz b; Some (inr (size, nelems, b))
    | KTypedef | KVolatile | KConst | KRestrict | KVar | KDeclTag | KTypeTag =>
      id ← t_size t; t ← btf__type_by_id b id; resolve_size_loop n b t nelems
    | KArray =>
      cnt ← t_member t 3 0 2;
      if c_true nelems && (UINT32_MAX / nelems <? cnt) then Some (inl (- E2BIG)) else
      id ← t_member t 3 0 0; t ← btf__type_by_id b id; resolve_size_loop n b t (u32 (nelems * cnt))
    | KUnkn | KFwd | KFunc | KFuncProto | KOther _ => Some (inl (- EINVAL))
    end
  end.

Definition btf__resolve_size (b : btf) (type_id : Z) : option (Z * btf) :=
  t ← btf__type_by_id b type_id;
  r ← resolve_size_loop MAX_RESOLVE_DEPTH b t 1;
  Some match r with
  | inl err => (err, b)
  | inr (size, nelems, b) =>
    (if size <? 0 then - EINVAL else
     if c_true nelems && (UINT32_MAX / nelems <? size) then - E2BIG else nelems * size, b)
  end.

(** [btf_member_bitfield_size] of a member with this offset *)
Definition btf_member_bitfield_size (info offset : Z) : Z := if btf_kflag info then Z.shiftr offset 24 else 0.

(** The loop over [n] members of [btf__align_of], from member [i] on: the
    result if the function returns, or the largest alignment. *)
Fixpoint align_members (align_of : Z -> option Z) (t : tptr) (info max_align i : Z) (n : nat) : option (Z + Z) :=
  match n with
  | O => Some (inr max_align)
  | S n =>
    type ← t_member t 3 i 1;
    align ← align_of type;
    if align <=? 0 then Some (inl align) else
    offset ← t_member t 3 i 2;
    if (btf_member_bitfield_size info offset =? 0) && c_true (offset mod u32 (8 * align)) then Some (inl 1) else
    align_members align_of t info (Z.max max_align align) (i + 1) n
  end.

(** [btf__align_of], with the pointer size [ptr_sz], which does not change
    between the calls, and fuel: the code recurses without a limit. *)
Fixpoint align_of (fuel : nat) (ptr_sz : Z) (b : btf) (id : Z) : option Z :=
  match fuel with
  | O => None
  | S fuel =>
    t ← btf__type_by_id b id;
    t ← t;
    info ← t_info t;
    match btf_kind info with
    | KInt | KEnum | KEnum64 | KFloat => size ← t_size t; Some (Z.min ptr_sz size)
    | KPtr => Some ptr_sz
    | KTypedef | KVolatile | KConst | KRestrict | KTypeTag => type ← t_size t; align_of fuel ptr_sz b type
    | KArray => type ← t_member t 3 0 0; align_of fuel ptr_sz b type
    | KStruct | KUnion =>
      r ← align_members (align_of fuel ptr_sz b) t info 1 0 (Z.to_nat (btf_vlen info));
      match r with
      | inl align => Some align
      | inr max_align => size ← t_size t; Some (if c_true (size mod max_align) then 1 else max_align)
      end
    | KUnkn | KFwd | KFunc | KFuncProto | KVar | KDatasec | KDeclTag | KOther _ => Some 0
    end
  end.

Definition btf__align_of (fuel : nat) (b : btf) (id : Z) : option Z :=
  '(ptr_sz, b) ← btf_ptr_sz b; align_of fuel ptr_sz b id.

(** The loop of [btf__resolve_type]: the id, the type and the depth left. *)
Fixpoint resolve_type_loop (n : nat) (b : btf) (type_id : Z) (t : option tptr) : option (nat * Z * option tptr) :=
  stop ← is_void_or_null t;
  if (stop : bool) then Some (n, type_id, t) else
  match n with
  | O => Some (O, type_id, t)
  | S n' =>
    t' ← t;
    info ← t_info t';
    match btf_kind info with
    | KVolatile | KConst | KRestrict | KTypeTag | KTypedef | KVar =>
      id ← t_size t'; t'' ← btf__type_by_id b id; resolve_type_loop n' b id t''
    | _ => Some (n, type_id, t)
    end
  end.

(** The function returns an [int]. *)
Definition btf__resolve_type (b : btf) (type_id : Z) : option Z :=
  t ← btf__type_by_id b type_id;
  '(rest, type_id, t) ← resolve_type_loop MAX_RESOLVE_DEPTH b type_id t;
  stop ← is_void_or_null t;
  Some (if bool_decide (rest = O) || stop then - EINVAL else s32 type_id).

(** One type of the search: its number if it has the name. *)
Definition named (b : btf) (type_name : list byte) (t : tptr) (i : Z) : option (option Z) :=
  name_off ← t_name_off t;
  name ← btf__name_by_offset b name_off;
  match name with
  | None => Some None
  | Some name => eq ← str_equal type_name name; Some (if (eq : bool) then Some (s32 i) else None)
  end.

Definition btf__find_by_name (b : btf) (type_name : list byte) : option Z :=
  void ← str_equal type_name (str "void" ++ [NUL]);
  if (void : bool) then Some 0 else
  r ← first_type (fun i => t ← btf__type_by_id b i; t ← t; named b type_name t i) 1 (Z.to_nat (btf__type_cnt b - 1));
  Some (default (- ENOENT) r).

Definition btf_find_by_name_kind (b : btf) (start_id : Z) (type_name : list byte) (k : kind) : option Z :=
  if decide (k = KUnkn) then Some 0 else
  void ← str_equal type_name (str "void" ++ [NUL]);
  if (void : bool) then Some 0 else
  r ← first_type (fun i => t ← btf__type_by_id b i; t ← t; info ← t_info t;
                           if decide (btf_kind info = k) then named b type_name t i else Some None)
        start_id (Z.to_nat (btf__type_cnt b - start_id));
  Some (default (- ENOENT) r).

Definition btf__find_by_name_kind_own (b : btf) (type_name : list byte) (k : kind) : option Z :=
  btf_find_by_name_kind b (b_start_id (own b)) type_name k.
Definition btf__find_by_name_kind (b : btf) (type_name : list byte) (k : kind) : option Z :=
  btf_find_by_name_kind b 1 type_name k.

(** ** The data of an object *)

Definition header_bytes (h : btf_header) : list byte :=
  le_split 2 (magic h) ++ le_split 1 (version h) ++ le_split 1 (flags h) ++ le_split 4 (hdr_len h) ++
  le_split 4 (type_off h) ++ le_split 4 (type_len h) ++ le_split 4 (str_off h) ++ le_split 4 (str_len h).

(** The loop over the types of data [m] in which they start at [p]: [None]
    inside is an unknown kind. *)
Fixpoint bswap_all (m : list byte) (p : Z) (offs : list byte) (i : Z) (n : nat) : option (option (list byte)) :=
  match n with
  | O => Some (Some m)
  | S n =>
    off ← load32 offs (4 * i);
    '(err, m) ← btf_bswap_type_rest m (p + off);
    if c_true err then Some None else
    m ← btf_bswap_type_base m (p + off);
    bswap_all m p offs (i + 1) n
  end.

(** [None] inside is NULL; [calloc] tells whether there is memory. *)
Definition btf_get_raw_data (calloc : bool) (o : btf_own) (swap_endian : bool) : option (option (list byte * Z)) :=
  match (if swap_endian then b_raw_swapped o else b_raw o) with
  | Some data => Some (Some (data, b_raw_size o))
  | None =>
    let h := b_hdr o in
    let data_sz := u32 (hdr_len h + type_len h + str_len h) in
    if negb calloc then Some None else
    hdr ← bytes_at (header_bytes h ++ b_hdr_rest o) 0 (Z.to_nat (hdr_len h));
    types ← bytes_at (b_types o) 0 (Z.to_nat (type_len h));
    strs ← btf_strs_data o;
    strs ← bytes_at strs 0 (Z.to_nat (str_len h));
    let data := replicate (Z.to_nat data_sz) NUL in
    data ← store data 0 hdr;
    data ← (if swap_endian then btf_bswap_hdr data else Some data);
    data ← store data (hdr_len h) types;
    data ← (if swap_endian then bswap_all data (hdr_len h) (b_offs o) 0 (Z.to_nat (b_nr_types o)) else Some (Some data));
    match data with
    | None => Some None
    | Some data => data ← store data (hdr_len h + type_len h) strs; Some (Some (data, data_sz))
    end
  end.

(** The data are kept in the object. *)
Definition btf__raw_data (calloc : bool) (b : btf) : option (option (list byte * Z) * btf) :=
  let o := own b in
  r ← btf_get_raw_data calloc o (b_swapped o);
  match r with
  | None => Some (None, b)
  | Some (data, size) =>
    let o := o {{ b_raw_size := size }} in
    let o := if b_swapped o then o {{ b_raw_swapped := Some data }} else o {{ b_raw := Some data }} in
    Some (Some (data, size), b {{ own := o }})
  end.
