(* ===== verification/BtfParse.v ===== *)
(** What the BTF parser of Btf.v accepts, and what an accepted object is.

    The reference is a list of types, each a list of 32-bit words; a section is the
    concatenation of their words, in either byte order. *)
From S2P Require Import Prelude.
From S2P Require Import CLib.
From S2P Require Import Hashmap.
From S2P Require Import Strset.
From S2P Require Import Btf.
From coqutil Require Import Datatypes.RecordSetters.
Import DoubleBraceUpdate.

(** ** Words *)

Definition enc_words (ws : list Z) : list byte := ws ≫= le_split 4.
Notation is_u32 z := (0 <= z < 2 ^ 32).

Lemma enc_words_app ws ws' : enc_words (ws ++ ws') = enc_words ws ++ enc_words ws'.
Proof. unfold enc_words. apply bind_app. Qed.

Lemma enc_words_cons w ws : enc_words (w :: ws) = le_split 4 w ++ enc_words ws.
Proof. done. Qed.

Lemma zlen_enc_words ws : zlen (enc_words ws) = 4 * zlen ws.
Proof.
  induction ws as [| w ws IH]; [done |]. rewrite enc_words_cons, zlen_app, IH, zlen_le_split, zlen_cons. lia.
Qed.

Lemma length_enc_words ws : length (enc_words ws) = (4 * length ws)%nat.
Proof. pose proof (zlen_enc_words ws). unfold zlen in *. lia. Qed.

#[export] Hint Rewrite zlen_enc_words : cmem.

(** Any bytes are words. *)
Lemma bytes_words n : forall bs, length bs = (4 * n)%nat ->
  exists ws, bs = enc_words ws /\ length ws = n /\ Forall (fun w => is_u32 w) ws.
Proof.
  induction n as [| n IH]; intros bs Hl.
  - exists []. destruct bs; [done | simpl in Hl; lia].
  - destruct (IH (drop 4 bs)) as (ws & E & Hn & Hf); [rewrite length_drop; lia |].
    exists (le_combine (take 4 bs) :: ws). rewrite enc_words_cons, <- E.
    assert (length (take 4 bs) = 4%nat) as H4 by (rewrite length_take; lia).
    split_and!; [| simpl; lia |].
    + pose proof (split_le_combine (take 4 bs)) as Hs. rewrite H4 in Hs. by rewrite Hs, take_drop.
    + constructor; [| done]. pose proof (le_combine_bound (take 4 bs)) as Hb. by rewrite H4 in Hb.
Qed.

Lemma load_words pre ws post (i : nat) w off : Forall (fun w => is_u32 w) ws -> ws !! i = Some w ->
  off = zlen pre + 4 * Z.of_nat i -> load32 (pre ++ enc_words ws ++ post) off = Some w.
Proof.
  intros Hf Hi ->. pose proof (Forall_lookup_1 _ _ _ _ Hf Hi) as Hw. cbv beta in Hw.
  apply lookup_lt_Some in Hi as Hlt. rewrite <- (take_drop_middle ws i w Hi), enc_words_app, enc_words_cons, <- !app_assoc.
  rewrite app_assoc. apply load_app_le; [| done]. rewrite zlen_app, zlen_enc_words. unfold zlen. rewrite length_take. lia.
Qed.

Lemma bswap32_enc w : rev (le_split 4 w) = le_split 4 (bswap32 w).
Proof.
  unfold bswap32. assert (length (rev (le_split 4 w)) = 4%nat) as H4 by (by rewrite length_rev, length_le_split).
  pose proof (split_le_combine (rev (le_split 4 w))) as Hs. by rewrite H4 in Hs.
Qed.

Lemma bswap32_range w : is_u32 (bswap32 w).
Proof.
  unfold bswap32. pose proof (le_combine_bound (rev (le_split 4 w))) as H. by rewrite length_rev, length_le_split in H.
Qed.

Lemma bswap32_involutive w : is_u32 w -> bswap32 (bswap32 w) = w.
Proof.
  intros Hw. unfold bswap32 at 1. rewrite <- bswap32_enc, rev_involutive, le_combine_split. by apply Z.mod_small.
Qed.

#[export] Hint Resolve bswap32_range : cint.

Lemma bswap_words_run ws : forall pre post off, off = zlen pre ->
  bswap_words (pre ++ enc_words ws ++ post) off (length ws) = Some (pre ++ enc_words (bswap32 <$> ws) ++ post).
Proof.
  induction ws as [| w ws IH]; intros pre post off ->; [done |]. cbn [length bswap_words]. unfold bswap_word.
  rewrite enc_words_cons, <- app_assoc. rewrite (bytes_at_app pre (le_split 4 w)); [| done | by rewrite length_le_split].
  cbn [mbind option_bind]. rewrite (store_app pre (le_split 4 w)); [| done | by rewrite length_rev].
  cbn [mbind option_bind]. rewrite bswap32_enc, (app_assoc pre).
  rewrite (IH (pre ++ le_split 4 (bswap32 w))) by (rewrite zlen_app, zlen_le_split; lia).
  rewrite fmap_cons, enc_words_cons. by rewrite <- !app_assoc.
Qed.

(** ** Types as words *)

Record rtype := { r_name : Z; r_info : Z; r_size : Z; r_extra : list Z }.

Definition r_words (t : rtype) : list Z := [r_name t; r_info t; r_size t] ++ r_extra t.

(** How many words follow the struct; [None] for unknown kinds. *)
Definition extra_words (info : Z) : option Z :=
  let vlen := btf_vlen info in
  match btf_kind info with
  | KFwd | KConst | KVolatile | KRestrict | KPtr | KTypedef | KFunc | KFloat | KTypeTag => Some 0
  | KInt | KVar | KDeclTag => Some 1
  | KEnum | KFuncProto => Some (2 * vlen)
  | KArray => Some 3
  | KEnum64 | KStruct | KUnion | KDatasec => Some (3 * vlen)
  | KUnkn | KOther _ => None
  end.

Definition rtype_ok (t : rtype) : Prop :=
  Forall (fun w => is_u32 w) (r_words t) /\ extra_words (r_info t) = Some (zlen (r_extra t)).

(** The bytes of a type, in the byte order of the file. *)
Definition in_order (swapped : bool) (ws : list Z) : list Z := if swapped then bswap32 <$> ws else ws.
Definition type_bytes (swapped : bool) (t : rtype) : list byte := enc_words (in_order swapped (r_words t)).
Definition types_bytes (swapped : bool) (ts : list rtype) : list byte := ts ≫= type_bytes swapped.

Lemma btf_vlen_range info : 0 <= btf_vlen info < 2 ^ 16.
Proof. unfold btf_vlen. change 0xffff with (Z.ones 16). rewrite Z.land_ones by lia. apply Z.mod_pos_bound. lia. Qed.

Lemma zlen_in_order sw ws : zlen (in_order sw ws) = zlen ws.
Proof. destruct sw; [| done]. unfold in_order, zlen. by rewrite length_fmap. Qed.

Lemma zlen_type_bytes sw t : zlen (type_bytes sw t) = 12 + 4 * zlen (r_extra t).
Proof. unfold type_bytes. rewrite zlen_enc_words, zlen_in_order. unfold r_words. rewrite zlen_app. unfold zlen at 1. simpl length. lia. Qed.

#[export] Hint Rewrite zlen_in_order zlen_type_bytes : cmem.

Lemma types_bytes_cons sw t ts : types_bytes sw (t :: ts) = type_bytes sw t ++ types_bytes sw ts.
Proof. done. Qed.

Lemma types_bytes_app sw ts ts' : types_bytes sw (ts ++ ts') = types_bytes sw ts ++ types_bytes sw ts'.
Proof. unfold types_bytes. apply bind_app. Qed.

Lemma in_order_ok sw ws : Forall (fun w => is_u32 w) ws -> Forall (fun w => is_u32 w) (in_order sw ws).
Proof. destruct sw; [| done]. intros _. apply Forall_fmap, Forall_true. intros w. apply bswap32_range. Qed.

Lemma type_size_spec m p info : load32 m (p + 4) = Some info ->
  btf_type_size m p = Some (match extra_words info with Some n => 12 + 4 * n | None => - EINVAL end).
Proof.
  intros E. unfold btf_type_size. rewrite E. cbn [mbind option_bind]. f_equal. unfold extra_words, SIZEOF_TYPE.
  destruct (btf_kind info); lia.
Qed.

Lemma bswap_rest_spec m p info : load32 m (p + 4) = Some info ->
  btf_bswap_type_rest m p =
    match extra_words info with Some n => m ← bswap_words m (p + SIZEOF_TYPE) (Z.to_nat n); Some (0, m) | None => Some (- EINVAL, m) end.
Proof.
  intros E. unfold btf_bswap_type_rest. rewrite E. cbn [mbind option_bind]. unfold extra_words.
  assert (Z.to_nat (3 * btf_vlen info) = (Z.to_nat (btf_vlen info) * 3)%nat) as E3 by lia.
  assert (Z.to_nat (2 * btf_vlen info) = (Z.to_nat (btf_vlen info) * 2)%nat) as E2 by lia.
  destruct (btf_kind info); rewrite ?E3, ?E2; done.
Qed.

(** The array of offsets holds [offs]. *)
Record offs_ok (b : btf_own) (offs : list Z) : Prop := {
  oo_nr : b_nr_types b = zlen offs;
  oo_cap : zlen (b_offs b) = b_offs_cap b * 4;
  oo_max : b_offs_cap b <= BTF_MAX_NR_TYPES;
  oo_data : exists rest, b_offs b = enc_words offs ++ rest;
  oo_u32 : Forall (fun w => is_u32 w) offs
}.

(** There is no memory for another offset, or too many types. *)
Definition no_offs_room (realloc : Z -> bool) (n : Z) : Prop := BTF_MAX_NR_TYPES < n \/ refused realloc (BTF_MAX_NR_TYPES * 4).

Lemma add_idx_run realloc b offs off : offs_ok b offs -> is_u32 off ->
  exists err b', btf_add_type_idx_entry realloc b off = Some (err, b') /\
    ((err = - ENOMEM /\ no_offs_room realloc (zlen offs + 1) /\ b' = b) \/
     (err = 0 /\ (exists bs cap, b' = b {{ b_offs := bs; b_offs_cap := cap }}) /\
      offs_ok (b' {{ b_nr_types := b_nr_types b' + 1 }}) (offs ++ [off]))).
Proof.
  intros [Hn Hc Hm [rest Hd] Hu] Hoff. unfold btf_add_type_idx_entry, btf_add_type_offs_mem. rewrite Hn.
  pose proof (zlen_nonneg offs) as H0. pose proof (zlen_nonneg rest) as H1.
  assert (zlen offs <= b_offs_cap b) as Hle by (rewrite Hd in Hc; autorewrite with cmem in Hc; lia).
  unfold BTF_MAX_NR_TYPES in *.
  pose proof (add_mem_spec realloc (b_offs b) (b_offs_cap b) 4 (zlen offs) 0x7fffffff 1) as HA.
  destruct (libbpf_add_mem _ _ _ _ _ _ _) as [[[p data] cap] |].
  - destruct HA as (-> & Hl & Hcap & n & Ed); [lia .. |].
    assert (exists w0 rest', data = enc_words offs ++ w0 ++ rest' /\ length w0 = 4%nat) as (w0 & rest' & E & Hw).
    { exists (take 4 (rest ++ replicate n x00)), (drop 4 (rest ++ replicate n x00)). rewrite take_drop.
      split; [by rewrite Ed, Hd, <- app_assoc |]. rewrite length_take. rewrite Ed, Hd in Hl. autorewrite with cmem in Hl.
      rewrite length_app, length_replicate. unfold zlen in *. lia. }
    rewrite E, (store_app (enc_words offs) w0) by (rewrite ?zlen_enc_words, ?length_le_split; lia). cbn [mbind option_bind].
    do 2 eexists. split; [done |]. right. split; [done |]. split; [by do 2 eexists |].
    destruct b as [? ? ? ? ? ? ? ? ? ? ? nr ? ? ? ? ? ? ?]. cbn in *. unfold constant. split; cbn.
    + rewrite Hn, zlen_app. done.
    + rewrite E in Hl. rewrite <- Hl, !zlen_app, zlen_le_split. unfold zlen. rewrite Hw. done.
    + unfold BTF_MAX_NR_TYPES. lia.
    + exists rest'. rewrite enc_words_app, enc_words_cons. change (enc_words []) with (@nil byte). by rewrite app_nil_r, <- app_assoc.
    + apply Forall_app. split; [done |]. by constructor.
  - do 2 eexists. split; [done |]. left. split; [done |]. split; [| done]. unfold no_offs_room, BTF_MAX_NR_TYPES. destruct HA; [lia .. | by left; lia | by right].
Qed.

(** ** The type section *)

Lemma bswap_twice ws : Forall (fun w => is_u32 w) ws -> bswap32 <$> (bswap32 <$> ws) = ws.
Proof.
  induction 1 as [| w ws Hw _ IH]; [done |]. rewrite !fmap_cons, IH. by rewrite bswap32_involutive.
Qed.

(** The three words of the struct come first. *)
Definition r_base (t : rtype) : list Z := [r_name t; r_info t; r_size t].

Lemma type_bytes_split sw t : type_bytes sw t = enc_words (in_order sw (r_base t)) ++ enc_words (in_order sw (r_extra t)).
Proof. unfold type_bytes, r_words. fold (r_base t). destruct sw; unfold in_order; by rewrite ?fmap_app, enc_words_app. Qed.

Lemma rtype_ok_parts t : rtype_ok t -> Forall (fun w => is_u32 w) (r_base t) /\ Forall (fun w => is_u32 w) (r_extra t).
Proof. intros [H _]. unfold r_words in H. by apply Forall_app in H. Qed.

Lemma load_info pre t post p : rtype_ok t -> p = zlen pre -> load32 (pre ++ enc_words (r_base t) ++ post) (p + 4) = Some (r_info t).
Proof. intros Hok ->. by apply (load_words _ _ _ 1%nat); [apply rtype_ok_parts | |]. Qed.

(** The struct is put into native byte order, and then what follows it. *)
Lemma swap_base_run (sw : bool) pre t post p : rtype_ok t -> p = zlen pre ->
  (if sw then btf_bswap_type_base (pre ++ enc_words (in_order sw (r_base t)) ++ post) p
   else Some (pre ++ enc_words (in_order sw (r_base t)) ++ post)) = Some (pre ++ enc_words (r_base t) ++ post).
Proof.
  intros Hok ->. destruct sw; [| done]. unfold btf_bswap_type_base, in_order.
  etransitivity; [exact (bswap_words_run (bswap32 <$> r_base t) pre post _ eq_refl) |]. rewrite bswap_twice; [done |]. by apply rtype_ok_parts.
Qed.

Lemma swap_rest_run (sw : bool) pre t post p : rtype_ok t -> p = zlen pre ->
  (if sw then btf_bswap_type_rest (pre ++ enc_words (r_base t) ++ enc_words (in_order sw (r_extra t)) ++ post) p
   else Some (0, pre ++ enc_words (r_base t) ++ enc_words (in_order sw (r_extra t)) ++ post)) =
  Some (0, pre ++ type_bytes false t ++ post).
Proof.
  intros Hok ->. rewrite (type_bytes_split false), <- app_assoc. destruct sw; [| done]. unfold in_order.
  erewrite bswap_rest_spec; [| by apply load_info]. rewrite (proj2 Hok). unfold zlen at 2. rewrite Nat2Z.id.
  rewrite !(app_assoc pre). rewrite <- (length_fmap bswap32 (r_extra t)).
  rewrite (bswap_words_run (bswap32 <$> r_extra t) (pre ++ enc_words (r_base t))) by (autorewrite with cmem; done).
  cbn [mbind option_bind]. rewrite bswap_twice; [done |]. by apply rtype_ok_parts.
Qed.

Lemma parse_step fuel realloc pre t post types next end_type b : rtype_ok t -> next = zlen pre ->
  next + zlen (type_bytes false t) <= end_type ->
  parse_types (S fuel) realloc (pre ++ type_bytes (b_swapped b) t ++ post) types next end_type b =
  ('(err, b) ← btf_add_type_idx_entry realloc b (next - types);
   if c_true err then Some (err, pre ++ type_bytes false t ++ post, b) else
   parse_types fuel realloc (pre ++ type_bytes false t ++ post) types (next + zlen (type_bytes false t)) end_type
     (b {{ b_nr_types := b_nr_types b + 1 }})).
Proof.
  intros Hok Hn Hle. cbn [parse_types]. rewrite zlen_type_bytes in Hle. pose proof (zlen_nonneg (r_extra t)) as H0. unfold SIZEOF_TYPE.
  rewrite (proj2 (Z.leb_le _ _)) by lia. cbn [negb]. rewrite (type_bytes_split (b_swapped b)), <- app_assoc.
  rewrite swap_base_run by done. cbn [mbind option_bind]. erewrite type_size_spec; [| by apply load_info]. cbn [mbind option_bind].
  rewrite (proj2 Hok), <- (zlen_type_bytes false t).
  rewrite (proj2 (Z.ltb_ge (zlen _) 0)) by apply zlen_nonneg. rewrite (proj2 (Z.ltb_ge _ _)) by (rewrite zlen_type_bytes; lia).
  rewrite swap_rest_run by done. cbn [mbind option_bind]. change (c_true 0) with false. done.
Qed.

(** Bytes start with a type or give an error. *)
Lemma parse_type_or_error fuel realloc pre body post types next end_type b : next = zlen pre -> end_type = next + zlen body -> body <> [] ->
  (exists t body', rtype_ok t /\ body = type_bytes (b_swapped b) t ++ body') \/
  exists err m, parse_types (S fuel) realloc (pre ++ body ++ post) types next end_type b = Some (err, m, b) /\ err < 0.
Proof.
  intros -> -> Hne. cbn [parse_types]. unfold SIZEOF_TYPE. destruct (Z.leb_spec (zlen pre + 12) (zlen pre + zlen body)) as [Hl | Hl]; cbn [negb].
  2: { rewrite (proj2 (Z.eqb_neq _ _)); [right; by do 2 eexists |]. destruct body; [done |]. rewrite zlen_cons. pose proof (zlen_nonneg body). lia. }
  destruct (bytes_words 3 (take 12 body)) as (ws & E & H3 & Hu); [rewrite length_take; unfold zlen in *; lia |].
  set (sw := b_swapped b) in *.
  assert (exists n i s, ws = in_order sw [n; i; s] /\ Forall (fun w => is_u32 w) [n; i; s]) as (n & i & s & -> & Hnis).
  { destruct ws as [| a [| b' [| c [|]]]]; try done. destruct sw.
    - exists (bswap32 a), (bswap32 b'), (bswap32 c). unfold in_order. apply Forall_cons in Hu as [? Hu]. apply Forall_cons in Hu as [? Hu].
      apply Forall_cons in Hu as [? _]. rewrite !fmap_cons. rewrite !bswap32_involutive by done.
      split; [done |]. repeat constructor; apply bswap32_range.
    - by exists a, b', c. }
  assert (body = enc_words (in_order sw [n; i; s]) ++ drop 12 body) as Eb by (rewrite <- E; by rewrite take_drop).
  set (tl := drop 12 body) in *. clearbody tl. clear E H3 Hu. subst body. rewrite <- app_assoc.
  pose (base := {| r_name := n; r_info := i; r_size := s; r_extra := [] |}).
  assert ((if sw then btf_bswap_type_base (pre ++ enc_words (in_order sw [n; i; s]) ++ tl ++ post) (zlen pre)
    else Some (pre ++ enc_words (in_order sw [n; i; s]) ++ tl ++ post)) = Some (pre ++ enc_words [n; i; s] ++ tl ++ post)) as ->.
  { destruct sw; [| done]. unfold btf_bswap_type_base, in_order.
    etransitivity; [exact (bswap_words_run (bswap32 <$> [n; i; s]) pre _ _ eq_refl) |]. by rewrite bswap_twice. }
  cbn [mbind option_bind]. erewrite type_size_spec; [| apply (load_words _ _ _ 1%nat); done]. cbn [mbind option_bind].
  destruct (extra_words i) as [x |] eqn:Ex; [| right; by do 2 eexists].
  assert (0 <= x) as Hx. { unfold extra_words in Ex. pose proof (btf_vlen_range i). destruct (btf_kind i); simplify_eq; lia. }
  rewrite (proj2 (Z.ltb_ge _ 0)) by lia. destruct (Z.ltb_spec (zlen pre + zlen (enc_words (in_order sw [n; i; s]) ++ tl)) (zlen pre + (12 + 4 * x))) as [Hs | Hs];
    [right; by do 2 eexists |].
  left. autorewrite with cmem in Hs. destruct (bytes_words (Z.to_nat x) (take (4 * Z.to_nat x) tl)) as (ws & E & Hw & Hu).
  { rewrite length_take. change (zlen [n; i; s]) with 3 in Hs. unfold zlen in Hs. lia. }
  assert (exists ws', ws = in_order sw ws' /\ Forall (fun w => is_u32 w) ws' /\ length ws' = length ws) as (ws' & -> & Hu' & Hl').
  { destruct sw; [| by exists ws]. exists (bswap32 <$> ws). unfold in_order. rewrite bswap_twice by done. split; [done |].
    split; [| by rewrite length_fmap]. apply (in_order_ok true), Hu. }
  exists {| r_name := n; r_info := i; r_size := s; r_extra := ws' |}, (drop (4 * Z.to_nat x) tl). split.
  - split; [by apply Forall_app |]. cbn. rewrite Ex. f_equal. unfold zlen. rewrite Hl', Hw. lia.
  - rewrite type_bytes_split. cbn [r_base r_extra r_name r_info r_size]. rewrite <- app_assoc, <- E. by rewrite take_drop.
Qed.

(** The offsets of types that start at [off]. *)
Fixpoint offsets (ts : list rtype) (off : Z) : list Z :=
  match ts with [] => [] | t :: ts' => off :: offsets ts' (off + zlen (type_bytes false t)) end.

Definition same_but_offs (b b' : btf_own) : Prop :=
  exists bs cap nr, b' = b {{ b_offs := bs; b_offs_cap := cap; b_nr_types := nr }}.

Lemma zlen_types_bytes sw ts : zlen (types_bytes sw ts) = zlen (types_bytes false ts).
Proof. induction ts as [| t ts IH]; [done |]. rewrite !types_bytes_cons, !zlen_app, IH, !zlen_type_bytes. done. Qed.

Lemma parse_end fuel realloc m types next b : parse_types fuel realloc m types next next b = Some (0, m, b).
Proof. destruct fuel; cbn [parse_types]; unfold SIZEOF_TYPE; rewrite (proj2 (Z.leb_gt _ _)) by lia; cbn [negb]; by rewrite Z.eqb_refl. Qed.

Lemma parse_types_accepts realloc types post ts : Forall rtype_ok ts -> forall fuel pre next b offs,
  (length ts <= fuel)%nat -> next = zlen pre -> offs_ok b offs -> 0 <= next - types ->
  next - types + zlen (types_bytes false ts) < 2 ^ 32 ->
  exists err m b', parse_types fuel realloc (pre ++ types_bytes (b_swapped b) ts ++ post) types next
      (next + zlen (types_bytes false ts)) b = Some (err, m, b') /\
    ((err = - ENOMEM /\ exists n, n <= zlen offs + zlen ts /\ no_offs_room realloc n) \/
     (err = 0 /\ m = pre ++ types_bytes false ts ++ post /\ same_but_offs b b' /\ offs_ok b' (offs ++ offsets ts (next - types)))).
Proof.
  induction 1 as [| t ts Ht Hts IH]; intros fuel pre next b offs Hf Hn Ho H0 Hmax.
  - replace (next + zlen (types_bytes false [])) with next by (change (zlen (types_bytes false [])) with 0; lia). rewrite parse_end.
    do 3 eexists. split; [done |]. right. cbn [offsets]. rewrite app_nil_r. split_and!; try done. exists (b_offs b), (b_offs_cap b), (b_nr_types b). by destruct b.
  - destruct fuel as [| fuel]; [simpl in Hf; lia |]. rewrite types_bytes_cons, zlen_app in Hmax. pose proof (zlen_nonneg (types_bytes false ts)).
    rewrite !types_bytes_cons, <- app_assoc. rewrite parse_step by (try done; rewrite zlen_app; lia).
    destruct (add_idx_run realloc b offs (next - types) Ho) as (err & b' & E & Hb'); [pose proof (zlen_nonneg (type_bytes false t)); lia |].
    rewrite E. cbn [mbind option_bind]. destruct Hb' as [(-> & Hr & _) | (-> & (bs & cap & Eb) & Ho')].
    { do 3 eexists. split; [done |]. left. split; [done |]. exists (zlen offs + 1). rewrite zlen_cons. pose proof (zlen_nonneg ts). split; [lia | done]. }
    change (c_true 0) with false. cbv iota.
    destruct (IH fuel (pre ++ type_bytes false t) (next + zlen (type_bytes false t)) (b' {{ b_nr_types := b_nr_types b' + 1 }}) (offs ++ [next - types]))
      as (err & m & b'' & E' & Hr); [simpl in Hf; lia | rewrite zlen_app; lia | done | pose proof (zlen_nonneg (type_bytes false t)); lia | lia |].
    assert (b_swapped (b' {{ b_nr_types := b_nr_types b' + 1 }}) = b_swapped b) as Esw by (by rewrite Eb).
    rewrite Esw, <- app_assoc in E'. rewrite (zlen_app (type_bytes false t)), Z.add_assoc.
    rewrite E'. do 3 eexists. split; [done |]. destruct Hr as [(-> & n & Hle & Hn') | (-> & -> & (bs' & cap' & nr' & Eb') & Ho'')]; [left | right].
    + split; [done |]. exists n. split; [| done]. rewrite zlen_app in Hle. rewrite zlen_cons. change (zlen [next - types]) with 1 in Hle. lia.
    + split; [done |]. split; [by rewrite <- !app_assoc |]. split.
      * exists bs', cap', nr'. rewrite Eb', Eb. done.
      * cbn [offsets]. rewrite <- app_assoc in Ho''. simpl in Ho''. by replace (next - types + zlen (type_bytes false t)) with (next + zlen (type_bytes false t) - types) by lia.
Qed.

Lemma parse_types_sound realloc types post : forall fuel body pre next b offs,
  (length body <= fuel)%nat -> next = zlen pre -> offs_ok b offs -> 0 <= next - types -> next - types + zlen body < 2 ^ 32 ->
  exists err m b', parse_types fuel realloc (pre ++ body ++ post) types next (next + zlen body) b = Some (err, m, b') /\
    (err < 0 \/ exists ts, Forall rtype_ok ts /\ body = types_bytes (b_swapped b) ts).
Proof.
  induction fuel as [| fuel IH]; intros body pre next b offs Hf Hn Ho H0 Hmax.
  { destruct body; [| simpl in Hf; lia]. change (zlen (@nil byte)) with 0. rewrite Z.add_0_r, parse_end. do 3 eexists. split; [done |]. right. by exists []. }
  destruct body as [| x body0] eqn:Eb.
  { change (zlen (@nil byte)) with 0. rewrite Z.add_0_r, parse_end. do 3 eexists. split; [done |]. right. by exists []. }
  rewrite <- Eb in *. assert (body <> []) as Hne by (by subst). clear Eb x body0.
  destruct (parse_type_or_error fuel realloc pre body post types next (next + zlen body) b Hn eq_refl Hne)
    as [(t & body' & Ht & ->) | (err & m & E & Herr)]; [| rewrite E; do 3 eexists; split; [done | by left]].
  rewrite zlen_app in Hmax. pose proof (zlen_nonneg body'). pose proof (zlen_nonneg (type_bytes false t)) as Hz.
  rewrite <- app_assoc. rewrite !zlen_type_bytes in *. rewrite parse_step by (try done; rewrite zlen_app, !zlen_type_bytes; lia).
  destruct (add_idx_run realloc b offs (next - types) Ho) as (err & b' & E & Hb'); [lia |].
  rewrite E. cbn [mbind option_bind]. destruct Hb' as [[-> _] | (-> & (bs & cap & Eb) & Ho')]; [do 3 eexists; split; [done | by left] |].
  change (c_true 0) with false. cbv iota. rewrite zlen_app, !zlen_type_bytes.
  destruct (IH body' (pre ++ type_bytes false t) (next + (12 + 4 * zlen (r_extra t))) (b' {{ b_nr_types := b_nr_types b' + 1 }}) (offs ++ [next - types]))
    as (err & m & b'' & E' & Hr).
  - rewrite length_app in Hf. pose proof (zlen_type_bytes (b_swapped b) t). unfold zlen in *. lia.
  - rewrite zlen_app, zlen_type_bytes. lia.
  - done.
  - pose proof (zlen_nonneg (r_extra t)). lia.
  - lia.
  - rewrite <- app_assoc in E'. rewrite <- Z.add_assoc in E'. rewrite E'. do 3 eexists. split; [done |].
    destruct Hr as [Hr | (ts & Hts & ->)]; [by left | right]. exists (t :: ts). split; [by constructor |].
    rewrite types_bytes_cons. by rewrite Eb.
Qed.

(** ** Well-formed objects *)

(** The pointer leads to the words of the type. *)
Definition is_type (t : tptr) (r : rtype) : Prop := forall i w, r_words r !! i = Some w -> t_word t (Z.of_nat i) = Some w.

Lemma is_type_base t r : is_type t r -> t_name_off t = Some (r_name r) /\ t_info t = Some (r_info r) /\ t_size t = Some (r_size r).
Proof. intros H. split_and!; [by apply (H 0%nat) | by apply (H 1%nat) | by apply (H 2%nat)]. Qed.

Definition void_type : rtype := {| r_name := 0; r_info := 0; r_size := 0; r_extra := [] |}.

(** The types by number. *)
Definition get_type (ts : list rtype) (id : Z) : option rtype :=
  if id =? 0 then Some void_type else if id <? 0 then None else ts !! Z.to_nat (id - 1).

(** The object's own types are [ts], and its strings are terminated. *)
Record own_ok (o : btf_own) (ts : list rtype) : Prop := {
  ow_types : exists rest, b_types o = types_bytes false ts ++ rest;
  ow_ok : Forall rtype_ok ts;
  ow_offs : offs_ok o (offsets ts 0);
  ow_len : type_len (b_hdr o) = zlen (types_bytes false ts);
  ow_strs : exists m, btf_strs_data o = Some m /\ 0 <= str_len (b_hdr o) <= zlen m /\ str_len (b_hdr o) <= 2 ^ 31 /\
    (0 < str_len (b_hdr o) -> m !! Z.to_nat (str_len (b_hdr o) - 1) = Some NUL)
}.

(** The same with the bases; [ts] are all types, those of the bases first. *)
Fixpoint chain_ok (o : btf_own) (os : list btf_own) (ts : list rtype) : Prop :=
  match os with
  | [] => own_ok o ts /\ b_start_id o = 1 /\ b_start_str_off o = 0
  | o' :: os' => exists ts0 ts1, ts = ts0 ++ ts1 /\ chain_ok o' os' ts0 /\ own_ok o ts1 /\
      b_start_id o = 1 + zlen ts0 /\ b_start_str_off o = str_len (b_hdr o')
  end.

Record btf_ok (b : btf) (ts : list rtype) : Prop := {
  bo_chain : chain_ok (own b) (bases b) ts;
  bo_count : 1 + zlen ts < 2 ^ 32
}.

Lemma offsets_lookup ts : forall o (k : nat) t, ts !! k = Some t ->
  exists pre post, types_bytes false ts = pre ++ type_bytes false t ++ post /\ offsets ts o !! k = Some (o + zlen pre).
Proof.
  induction ts as [| t0 ts IH]; intros o [| k] t Hk; try done.
  - injection Hk as ->. exists [], (types_bytes false ts). split; [done |]. cbn. f_equal. change (zlen (@nil byte)) with 0. lia.
  - destruct (IH (o + zlen (type_bytes false t0)) k t Hk) as (pre & post & E & Eo).
    exists (type_bytes false t0 ++ pre), post. rewrite types_bytes_cons, E, <- app_assoc. split; [done |].
    etransitivity; [exact Eo |]. f_equal. rewrite zlen_app. lia.
Qed.

Lemma length_offsets ts : forall o, length (offsets ts o) = length ts.
Proof. induction ts as [| t ts IH]; intros o; [done |]. cbn. by rewrite IH. Qed.

Lemma own_type o ts (k : nat) t : own_ok o ts -> ts !! k = Some t ->
  exists off, load32 (b_offs o) (4 * Z.of_nat k) = Some off /\ is_type (TAt (b_types o) off) t.
Proof.
  intros [[rest Et] Hf [_ _ _ [rest' Eo] Hu] _ _] Hk. destruct (offsets_lookup ts 0 k t Hk) as (pre & post & E & Ek).
  exists (0 + zlen pre). split.
  - rewrite Eo. apply (load_words [] _ _ k); [done | done |]. done.
  - intros i w Hi. cbn [t_word]. rewrite Et, E, <- !app_assoc. apply (load_words _ _ _ i); [| done | lia].
    apply (Forall_lookup_1 _ _ _ _ Hf Hk).
Qed.

Lemma own_ok_nr o ts : own_ok o ts -> b_nr_types o = zlen ts.
Proof. intros H. rewrite (oo_nr _ _ (ow_offs _ _ H)). unfold zlen. by rewrite length_offsets. Qed.

Lemma chain_start o os ts : chain_ok o os ts -> 1 <= b_start_id o /\ b_start_id o + b_nr_types o = 1 + zlen ts.
Proof.
  destruct os as [| o' os].
  - intros (Ho & -> & _). rewrite (own_ok_nr _ _ Ho). lia.
  - intros (ts0 & ts1 & -> & _ & Ho & -> & _). rewrite (own_ok_nr _ _ Ho), zlen_app. pose proof (zlen_nonneg ts0). lia.
Qed.

Lemma is_type_void : is_type TVoid void_type.
Proof. intros [| [| [| i]]] w Hi; by simplify_eq. Qed.

Lemma type_by_id_ok os : forall o ts id, chain_ok o os ts -> 0 <= id <= zlen ts ->
  exists t r, type_by_id o os id = Some t /\ get_type ts id = Some r /\ is_type t r /\ (id <> 0 -> t <> TVoid).
Proof.
  assert (forall o ts id, own_ok o ts -> 0 <= id < zlen ts ->
    exists t r, (off ← load32 (b_offs o) (4 * id); Some (TAt (b_types o) off)) = Some t /\ ts !! Z.to_nat id = Some r /\ is_type t r /\ t <> TVoid) as Hown.
  { intros o ts id Ho Hid. destruct (lookup_lt_is_Some_2 ts (Z.to_nat id)) as [r Hr]; [unfold zlen in *; lia |].
    destruct (own_type o ts _ r Ho Hr) as (off & El & Ht). rewrite Z2Nat.id in El by lia. rewrite El. by do 2 eexists. }
  induction os as [| o' os IH]; intros o ts id HC Hid; cbn [type_by_id]; unfold get_type; (destruct (Z.eqb_spec id 0) as [-> | Hne];
    [do 2 eexists; split_and!; [done | done | apply is_type_void | done] |]); rewrite (proj2 (Z.ltb_ge id 0)) by lia.
  - destruct HC as (Ho & -> & _). rewrite (proj2 (Z.ltb_ge id 1)) by lia.
    destruct (Hown o ts (id - 1) Ho) as (t & r & E & Er & Ht & Hv); [lia |]. exists t, r. by split_and!.
  - destruct HC as (ts0 & ts1 & -> & HC & Ho & Es & _). rewrite Es, zlen_app in *. pose proof (zlen_nonneg ts0).
    destruct (Z.ltb_spec id (1 + zlen ts0)) as [Hlt | Hge].
    + destruct (IH o' ts0 id HC) as (t & r & E & Er & Ht & Hv); [lia |]. exists t, r. unfold get_type in Er.
      rewrite (proj2 (Z.eqb_neq _ _) Hne), (proj2 (Z.ltb_ge id 0)) in Er by lia. split_and!; try done. by apply lookup_app_l_Some.
    + destruct (Hown o ts1 (id - (1 + zlen ts0)) Ho) as (t & r & E & Er & Ht & Hv); [lia |]. exists t, r. split_and!; try done.
      rewrite lookup_app_r by (unfold zlen in *; lia). rewrite <- Er. f_equal. unfold zlen in *. lia.
Qed.

Lemma get_type_ok ts id r : Forall rtype_ok ts -> get_type ts id = Some r -> id <> 0 -> rtype_ok r.
Proof.
  intros Hf Hg Hne. unfold get_type in Hg. rewrite (proj2 (Z.eqb_neq _ _) Hne) in Hg. destruct (id <? 0); [done |].
  by apply (Forall_lookup_1 _ _ _ _ Hf Hg).
Qed.

Lemma chain_types os : forall o ts, chain_ok o os ts -> Forall rtype_ok ts.
Proof.
  induction os as [| o' os IH]; intros o ts; [intros (Ho & _); apply Ho |].
  intros (ts0 & ts1 & -> & HC & Ho & _). apply Forall_app. split; [by eapply IH | apply Ho].
Qed.

Lemma type_cnt_ok b ts : btf_ok b ts -> btf__type_cnt b = 1 + zlen ts.
Proof.
  intros [HC Hn]. unfold btf__type_cnt. destruct (chain_start _ _ _ HC) as [_ E]. rewrite E. apply u32_id. pose proof (zlen_nonneg ts). lia.
Qed.

(** Looking up a type by its number gives the type, or NULL beyond the end. *)
Lemma btf__type_by_id_ok b ts id : btf_ok b ts -> 0 <= id ->
  (id <= zlen ts /\ exists t r, btf__type_by_id b id = Some (Some t) /\ get_type ts id = Some r /\ is_type t r /\ (id <> 0 -> t <> TVoid)) \/
  (zlen ts < id /\ btf__type_by_id b id = Some None /\ get_type ts id = None).
Proof.
  intros Hb Hid. unfold btf__type_by_id. rewrite (type_cnt_ok b ts Hb). destruct (Z.leb_spec (1 + zlen ts) id) as [H | H].
  - right. split_and!; [lia | done |]. unfold get_type. rewrite (proj2 (Z.eqb_neq _ _)), (proj2 (Z.ltb_ge _ _)) by (pose proof (zlen_nonneg ts); lia).
    apply lookup_ge_None. unfold zlen in *. lia.
  - left. split; [lia |]. destruct (type_by_id_ok _ _ _ id (bo_chain _ _ Hb)) as (t & r & E & Er & Ht & Hv); [lia |].
    exists t, r. unfold btf_type_by_id. by rewrite E.
Qed.

(** A string is terminated inside its section, or there is none. *)
Lemma str_by_offset_ok os : forall o ts off, chain_ok o os ts -> is_u32 off ->
  exists s, str_by_offset o os off = Some s /\ forall m, s = Some m -> NUL ∈ m.
Proof.
  assert (forall o ts off, own_ok o ts -> 0 <= b_start_str_off o <= off -> is_u32 off -> exists s,
    (if u32 (off - b_start_str_off o) <? str_len (b_hdr o)
     then m ← btf_strs_data o; Some (Some (drop (Z.to_nat (off - b_start_str_off o)) m)) else Some None) = Some s /\
    forall m, s = Some m -> NUL ∈ m) as Hown.
  { intros o ts off Ho Hs Hu. destruct (ow_strs _ _ Ho) as (m & Em & Hl & _ & Hz). rewrite u32_id by lia.
    destruct (Z.ltb_spec (off - b_start_str_off o) (str_len (b_hdr o))) as [Hlt | Hge]; [| by eexists].
    rewrite Em. eexists. split; [done |]. intros ? [= <-]. specialize (Hz ltac:(lia)).
    apply (list_elem_of_lookup_2 _ (Z.to_nat (str_len (b_hdr o) - 1) - Z.to_nat (off - b_start_str_off o))).
    rewrite lookup_drop, <- Hz. f_equal. lia. }
  induction os as [| o' os IH]; intros o ts off HC Hu; cbn [str_by_offset].
  - destruct HC as (Ho & _ & Es). rewrite (proj2 (Z.ltb_ge _ _)) by lia. apply (Hown o ts off); [done | lia | done].
  - destruct HC as (ts0 & ts1 & -> & HC & Ho & _ & Es). destruct (Z.ltb_spec off (b_start_str_off o)); [by eapply IH |].
    apply (Hown o ts1 off); [done | | done]. split; [| lia]. rewrite Es.
    destruct os; cbn [chain_ok] in HC; [destruct HC as (Ho' & _) | destruct HC as (? & ? & _ & _ & Ho' & _)];
      destruct (ow_strs _ _ Ho') as (? & _ & ? & _); lia.
Qed.

(** ** The sanity check *)

(** Word [j] of each of the [vlen] members of [n] words. *)
Definition column (n j vlen : nat) (l : list Z) : list Z := (fun i => default 0 (l !! (n * i + j)%nat)) <$> seq 0 vlen.

(** The strings that the check looks at. *)
Definition type_strs (r : rtype) : list Z :=
  let vlen := Z.to_nat (btf_vlen (r_info r)) in
  r_name r ::
  match btf_kind (r_info r) with
  | KStruct | KUnion | KEnum64 => column 3 0 vlen (r_extra r)
  | KEnum | KFuncProto => column 2 0 vlen (r_extra r)
  | _ => []
  end.

(** The types that the check looks at.  Of a prototype those are the types of
    its parameters; its return type is not looked at. *)
Definition checked_ids (r : rtype) : list Z :=
  let vlen := Z.to_nat (btf_vlen (r_info r)) in
  match btf_kind (r_info r) with
  | KPtr | KTypedef | KVolatile | KConst | KRestrict | KVar | KDeclTag | KTypeTag | KFunc => [r_size r]
  | KArray => take 2 (r_extra r)
  | KStruct | KUnion => column 3 1 vlen (r_extra r)
  | KFuncProto => column 2 1 vlen (r_extra r)
  | KDatasec => column 3 0 vlen (r_extra r)
  | _ => []
  end.

(** The string offsets that name a string of the object. *)
Definition str_valid (b : btf) (off : Z) : bool := match btf__str_by_offset b off with Some (Some _) => true | _ => false end.

Definition sane_type (str_ok : Z -> bool) (ts : list rtype) (r : rtype) : bool :=
  forallb str_ok (type_strs r) && forallb (fun id => id <=? zlen ts) (checked_ids r) &&
  match btf_kind (r_info r) with
  | KFunc => match get_type ts (r_size r) with Some f => bool_decide (btf_kind (r_info f) = KFuncProto) | None => false end
  | _ => true
  end.

(** What the check returns for a condition. *)
Notation checked c := (if c then 0 else - EINVAL).

Lemma or_else_checked (c c' : bool) f : (c = true -> f = Some (checked c')) -> or_else (checked c) f = Some (checked (c && c')).
Proof. intros H. destruct c; [by rewrite H | done]. Qed.

Lemma validate_str_ok b ts off : btf_ok b ts -> is_u32 off -> btf_validate_str b off = Some (checked (str_valid b off)).
Proof.
  intros Hb Hu. unfold btf_validate_str, str_valid, btf__str_by_offset.
  destruct (str_by_offset_ok _ _ _ off (bo_chain _ _ Hb) Hu) as (s & -> & _). by destruct s.
Qed.

Lemma validate_id_ok b ts id : btf_ok b ts -> is_u32 id -> btf_validate_id b id = Some (checked (id <=? zlen ts)).
Proof.
  intros Hb Hu. unfold btf_validate_id. destruct (btf__type_by_id_ok b ts id Hb) as [(Hle & t & r & -> & _) | (Hlt & -> & _)]; [lia | |].
  - by rewrite (proj2 (Z.leb_le _ _) Hle).
  - by rewrite (proj2 (Z.leb_gt _ _) Hlt).
Qed.

Lemma validate_members_ok check (p : nat -> bool) n : forall i, (forall j, (i <= j < i + n)%nat -> check (Z.of_nat j) = Some (checked (p j))) ->
  validate_members check (Z.of_nat i) n = Some (checked (forallb p (seq i n))).
Proof.
  induction n as [| n IH]; intros i H; [done |]. cbn [validate_members seq forallb]. rewrite H by lia. cbn [mbind option_bind].
  apply or_else_checked. intros _. replace (Z.of_nat i + 1) with (Z.of_nat (S i)) by lia. apply IH. intros j Hj. apply H. lia.
Qed.

Lemma forallb_and {A} (p q : A -> bool) l : forallb (fun x => p x && q x) l = forallb p l && forallb q l.
Proof. induction l as [| x l IH]; [done |]. cbn. rewrite IH. by destruct (p x), (q x), (forallb p l). Qed.

Lemma forallb_column (f : Z -> bool) n j vlen l : forallb f (column n j vlen l) = forallb (fun i => f (default 0 (l !! (n * i + j)%nat))) (seq 0 vlen).
Proof. unfold column. induction (seq 0 vlen) as [| i l0 IH]; [done |]. cbn. by rewrite IH. Qed.

Section Validate.
Context (b : btf) (ts : list rtype) (t : tptr) (r : rtype).
Context (Hb : btf_ok b ts) (Ht : is_type t r) (Hr : rtype_ok r).

(** A word of a member, when the type has that many words. *)
Lemma member_word (n i j : nat) : (n * i + j < length (r_extra r))%nat ->
  t_member t (Z.of_nat n) (Z.of_nat i) (Z.of_nat j) = Some (default 0 (r_extra r !! (n * i + j)%nat)) /\
  is_u32 (default 0 (r_extra r !! (n * i + j)%nat)).
Proof.
  intros Hl. destruct (lookup_lt_is_Some_2 _ _ Hl) as [w Hw]. rewrite Hw. cbn. split.
  - unfold t_member. replace (3 + Z.of_nat n * Z.of_nat i + Z.of_nat j) with (Z.of_nat (3 + (n * i + j))) by lia. by apply Ht.
  - apply (Forall_lookup_1 _ _ _ _ (proj2 (rtype_ok_parts r Hr)) Hw).
Qed.

Lemma base_word (i : nat) w : r_base r !! i = Some w -> t_word t (Z.of_nat i) = Some w /\ is_u32 w.
Proof.
  intros Hi. split; [apply Ht; unfold r_words; fold (r_base r); by apply lookup_app_l_Some |].
  apply (Forall_lookup_1 _ _ _ _ (proj1 (rtype_ok_parts r Hr)) Hi).
Qed.

(** The loop over members of [n] words: those in column 0 are strings, those
    in column 1 types. *)
Lemma members_str (n vlen : nat) : (0 < n)%nat -> length (r_extra r) = (n * vlen)%nat ->
  validate_members (fun i => name ← t_member t (Z.of_nat n) i 0; btf_validate_str b name) 0 vlen =
  Some (checked (forallb (str_valid b) (column n 0 vlen (r_extra r)))).
Proof.
  intros Hn Hl. rewrite forallb_column. apply (validate_members_ok _ _ _ 0%nat). intros j Hj.
  destruct (member_word n j 0) as [E Hu]; [nia |]. change (Z.of_nat 0) with 0 in E. rewrite E. by apply (validate_str_ok b ts).
Qed.

Lemma members_ids (n vlen : nat) : (0 < n)%nat -> length (r_extra r) = (n * vlen)%nat ->
  validate_members (fun i => type ← t_member t (Z.of_nat n) i 0; btf_validate_id b type) 0 vlen =
  Some (checked (forallb (fun id => id <=? zlen ts) (column n 0 vlen (r_extra r)))).
Proof.
  intros Hn Hl. rewrite forallb_column. apply (validate_members_ok _ _ _ 0%nat). intros j Hj.
  destruct (member_word n j 0) as [E Hu]; [nia |]. change (Z.of_nat 0) with 0 in E. rewrite E. by apply (validate_id_ok b ts).
Qed.

Lemma members_both (n vlen : nat) : (1 < n)%nat -> length (r_extra r) = (n * vlen)%nat ->
  validate_members (fun i => name ← t_member t (Z.of_nat n) i 0; err ← btf_validate_str b name;
                             or_else err (type ← t_member t (Z.of_nat n) i 1; btf_validate_id b type)) 0 vlen =
  Some (checked (forallb (str_valid b) (column n 0 vlen (r_extra r)) && forallb (fun id => id <=? zlen ts) (column n 1 vlen (r_extra r)))).
Proof.
  intros Hn Hl. rewrite !forallb_column, <- forallb_and. apply (validate_members_ok _ _ _ 0%nat). intros j Hj.
  destruct (member_word n j 0) as [E Hu]; [nia |]. change (Z.of_nat 0) with 0 in E. rewrite E. cbn [mbind option_bind].
  rewrite (validate_str_ok b ts) by done. cbn [mbind option_bind]. apply or_else_checked. intros _.
  destruct (member_word n j 1) as [E' Hu']; [nia |]. change (Z.of_nat 1) with 1 in E'. rewrite E'. by apply (validate_id_ok b ts).
Qed.

Lemma extra_length n : extra_words (r_info r) = Some (Z.of_nat n * btf_vlen (r_info r)) ->
  length (r_extra r) = (n * Z.to_nat (btf_vlen (r_info r)))%nat.
Proof. intros E. rewrite (proj2 Hr) in E. injection E as E. pose proof (btf_vlen_range (r_info r)). unfold zlen in E. lia. Qed.

Lemma validate_type_ok : btf_validate_type b t = Some (checked (sane_type (str_valid b) ts r)).
Proof.
  unfold btf_validate_type. destruct (is_type_base _ _ Ht) as (E0 & E1 & E2).
  destruct (base_word 0 _ eq_refl) as [_ Hu0]. destruct (base_word 2 _ eq_refl) as [_ Hu2].
  rewrite E1, E0. cbn [mbind option_bind]. rewrite (validate_str_ok b ts) by done. cbn [mbind option_bind].
  unfold sane_type, type_strs. cbn [forallb]. rewrite <- !andb_assoc. apply or_else_checked. intros _.
  pose proof extra_length as HL. unfold extra_words in HL. unfold checked_ids.
  destruct (btf_kind (r_info r)) eqn:Ek; cbn [forallb andb]; rewrite ?andb_true_r; try done.
  all: try (rewrite E2; cbn [mbind option_bind]; by apply (validate_id_ok b ts)).
  - destruct (r_extra r) as [| a [| i [| n [| z l]]]] eqn:Ee; pose proof (proj2 Hr) as Hx; unfold extra_words in Hx; rewrite Ek, Ee in Hx; try done.
    2: { assert (3 = zlen (a :: i :: n :: z :: l)) as Hx' by congruence. rewrite !zlen_cons in Hx'. pose proof (zlen_nonneg l). lia. }
    destruct (member_word 3 0 0) as [Ea Ha]; [rewrite Ee; simpl; lia |]. destruct (member_word 3 0 1) as [Ei Hi]; [rewrite Ee; simpl; lia |].
    rewrite Ee in Ea, Ei, Ha, Hi.
    change (t_member t 3 0 0 = Some a) in Ea. change (t_member t 3 0 1 = Some i) in Ei. change (is_u32 a) in Ha. change (is_u32 i) in Hi. rewrite Ea. cbn [mbind option_bind]. rewrite (validate_id_ok b ts) by done.
    cbn [mbind option_bind take forallb]. rewrite andb_true_r. apply or_else_checked. intros _. rewrite Ei. by apply (validate_id_ok b ts).
  - apply (members_both 3); [lia |]. by apply HL.
  - apply (members_both 3); [lia |]. by apply HL.
  - apply (members_str 2); [lia |]. by apply HL.
  - rewrite E2. cbn [mbind option_bind]. rewrite (validate_id_ok b ts) by done. cbn [mbind option_bind]. apply or_else_checked.
    intros Hle%Z.leb_le. destruct (btf__type_by_id_ok b ts (r_size r) Hb) as [(_ & ft & fr & -> & Eg & Hft & _) | (Hlt & _)]; [lia | | lia].
    cbn [mbind option_bind]. rewrite Eg. destruct (is_type_base _ _ Hft) as (_ & -> & _). cbn [mbind option_bind]. by case_decide; case_bool_decide.
  - apply (members_both 2); [lia |]. by apply HL.
  - apply (members_ids 3); [lia |]. by apply HL.
  - apply (members_str 3); [lia |]. by apply HL.
  - pose proof (proj2 Hr) as Hx. unfold extra_words in Hx. by rewrite Ek in Hx.
Qed.

End Validate.

Lemma sanity_loop_ok b ts n : btf_ok b ts -> forall k, (k + n = length ts)%nat ->
  sanity_loop b (Z.of_nat k + 1) n = Some (checked (forallb (sane_type (str_valid b) ts) (drop k ts))).
Proof.
  intros Hb. induction n as [| n IH]; intros k Hk.
  - rewrite drop_ge by lia. done.
  - cbn [sanity_loop]. destruct (lookup_lt_is_Some_2 ts k) as [r Hr]; [lia |]. rewrite (drop_S _ _ _ Hr). cbn [forallb].
    destruct (type_by_id_ok _ _ _ (Z.of_nat k + 1) (bo_chain _ _ Hb)) as (t & r' & E & Eg & Ht & _); [unfold zlen; lia |].
    unfold btf_type_by_id. rewrite E. cbn [mbind option_bind]. unfold get_type in Eg.
    rewrite (proj2 (Z.eqb_neq _ _)), (proj2 (Z.ltb_ge _ _)) in Eg by lia. replace (Z.to_nat (Z.of_nat k + 1 - 1)) with k in Eg by lia.
    rewrite Hr in Eg. injection Eg as <-.
    rewrite (validate_type_ok b ts t r Hb Ht (Forall_lookup_1 _ _ _ _ (chain_types _ _ _ (bo_chain _ _ Hb)) Hr)). cbn [mbind option_bind].
    apply or_else_checked. intros _. replace (Z.of_nat k + 1 + 1) with (Z.of_nat (S k) + 1) by lia. apply IH. lia.
Qed.

Lemma sanity_check_ok b ts : btf_ok b ts -> btf_sanity_check b = Some (checked (forallb (sane_type (str_valid b) ts) ts)).
Proof.
  intros Hb. unfold btf_sanity_check. rewrite (type_cnt_ok b ts Hb). apply (sanity_loop_ok b ts _ Hb 0%nat). unfold zlen. lia.
Qed.

(** ** The header *)

Record header_ok (h : btf_header) : Prop := {
  ho_hdr : is_u32 (hdr_len h);
  ho_type_off : is_u32 (type_off h);
  ho_type_len : is_u32 (type_len h);
  ho_str_off : is_u32 (str_off h);
  ho_str_len : is_u32 (str_len h)
}.

(** The sections lie in the data, one behind the other. *)
Definition sections_fit (h : btf_header) (size : Z) : Prop :=
  hdr_len h + str_off h + str_len h <= size /\ type_off h + type_len h <= str_off h.

Lemma load_header_Some m : 24 <= zlen m -> exists h, load_header m = Some h /\ header_ok h.
Proof.
  intros Hm. unfold load_header.
  destruct (load_Some 2 m 0) as (x0 & -> & _); [lia | lia |]. destruct (load_Some 1 m 2) as (x1 & -> & _); [lia | lia |].
  destruct (load_Some 1 m 3) as (x2 & -> & _); [lia | lia |]. destruct (load_Some 4 m 4) as (x3 & -> & H3); [lia | lia |].
  destruct (load_Some 4 m 8) as (x4 & -> & H4); [lia | lia |]. destruct (load_Some 4 m 12) as (x5 & -> & H5); [lia | lia |].
  destruct (load_Some 4 m 16) as (x6 & -> & H6); [lia | lia |]. destruct (load_Some 4 m 20) as (x7 & -> & H7); [lia | lia |].
  cbn [mbind option_bind]. eexists. split; [done |]. by split.
Qed.

Lemma bswap_words_total n : forall m off, 0 <= off -> off + 4 * Z.of_nat n <= zlen m ->
  exists m', bswap_words m off n = Some m' /\ zlen m' = zlen m.
Proof.
  induction n as [| n IH]; intros m off H0 Hl; [by exists m |]. cbn [bswap_words]. unfold bswap_word.
  rewrite bytes_at_Some by lia. cbn [mbind option_bind].
  destruct (store_Some m off (rev (take 4 (drop (Z.to_nat off) m)))) as [m1 E1].
  { done. } { unfold zlen in *. rewrite length_rev, length_take, length_drop. lia. }
  rewrite E1. cbn [mbind option_bind]. pose proof (zlen_store _ _ _ _ E1) as El. destruct (IH m1 (off + 4)) as (m2 & -> & E2); [lia | lia |].
  exists m2. split; [done | lia].
Qed.

Lemma bswap_hdr_total m : 24 <= zlen m -> exists m', btf_bswap_hdr m = Some m' /\ zlen m' = zlen m.
Proof.
  intros Hm. unfold btf_bswap_hdr. rewrite bytes_at_Some by lia. cbn [mbind option_bind].
  destruct (store_Some m 0 (rev (take 2 (drop (Z.to_nat 0) m)))) as [m1 E1]; [lia | unfold zlen in *; rewrite length_rev, length_take, length_drop; lia |].
  rewrite E1. cbn [mbind option_bind]. pose proof (zlen_store _ _ _ _ E1). destruct (bswap_words_total 5 m1 4) as (m2 & -> & E2); [lia | lia |].
  exists m2. split; [done | lia].
Qed.

Lemma check_header_sound m size sw : zlen m = size -> 24 <= size < 2 ^ 32 ->
  exists err m' h sw', check_header m size sw = Some (err, m', h, sw') /\ zlen m' = size /\
    (err < 0 \/ (err = 0 /\ exists h', h = Some h' /\ header_ok h' /\ sections_fit h' size)).
Proof.
  intros Hm Hs. unfold check_header. destruct (load_header_Some m) as (h & -> & Hok); [lia |]. cbn [mbind option_bind].
  do 4 eexists. split_and!; [done | done |]. pose proof Hok as [? ? ? ? ?].
  destruct (Z.ltb_spec size (hdr_len h)); [by left |]. rewrite u32_id by lia.
  destruct (Z.ltb_spec (size - hdr_len h) (str_off h + str_len h)); [by left |]. destruct (Z.ltb_spec (str_off h) (type_off h + type_len h)); [by left |].
  destruct (c_true _); [by left |]. right. split; [done |]. exists h. split_and!; [done | done |]. split; lia.
Qed.

Lemma parse_hdr_sound m size : zlen m = size -> size < 2 ^ 32 ->
  exists err m' h sw, btf_parse_hdr m size = Some (err, m', h, sw) /\ zlen m' = size /\
    (err < 0 \/ (err = 0 /\ exists h', h = Some h' /\ header_ok h' /\ sections_fit h' size)).
Proof.
  intros Hm Hs. unfold btf_parse_hdr, SIZEOF_HEADER. destruct (Z.ltb_spec size 24) as [Hlt | Hge]; [do 4 eexists; split_and!; [done | done | by left] |].
  destruct (load_Some 2 m 0) as (mg & -> & _); [lia | lia |]. destruct (load_Some 4 m 4) as (hl & -> & _); [lia | lia |]. cbn [mbind option_bind].
  destruct (mg =? bswap16 BTF_MAGIC).
  - destruct (negb _); [do 4 eexists; split_and!; [done | done | by left] |].
    destruct (bswap_hdr_total m) as (m' & -> & Em); [lia |]. cbn [mbind option_bind]. apply check_header_sound; lia.
  - destruct (negb _); [do 4 eexists; split_and!; [done | done | by left] |]. by apply check_header_sound.
Qed.

(** ** The string section *)

Definition strs_ok (based : bool) (m : list byte) : bool :=
  (based && bool_decide (m = [])) ||
  (negb (bool_decide (m = [])) && (zlen m - 1 <=? BTF_MAX_STR_OFFSET) && bool_decide (last m = Some NUL) &&
   (based || bool_decide (head m = Some NUL))).

Lemma load8_lookup m (k : nat) x off : m !! k = Some x -> off = Z.of_nat k ->
  exists v, load8 m off = Some v /\ c_true v = negb (bool_decide (x = NUL)).
Proof.
  intros Hk ->. apply lookup_lt_Some in Hk as Hl. unfold load. rewrite bytes_at_Some by (unfold zlen; lia).
  rewrite Nat2Z.id, (drop_S _ _ _ Hk). change (take 1 (x :: drop (S k) m)) with [x]. eexists. split; [done |]. by destruct x.
Qed.

Lemma parse_str_sec_ok b : str_len (b_hdr (own b)) = zlen (b_strs (own b)) -> zlen (b_strs (own b)) < 2 ^ 32 ->
  btf_parse_str_sec b = Some (checked (strs_ok (match bases b with [] => false | _ => true end) (b_strs (own b)))).
Proof.
  intros El Hl. unfold btf_parse_str_sec, strs_ok. rewrite El. set (based := match bases b with [] => false | _ => true end).
  set (m := b_strs (own b)) in *. clearbody based m. destruct m as [| x m'] eqn:Em.
  { change (zlen []) with 0. destruct based; done. }
  rewrite (bool_decide_false (x :: m' = [])) by done. rewrite zlen_cons in *. pose proof (zlen_nonneg m').
  rewrite (proj2 (Z.eqb_neq (1 + zlen m') 0)) by lia. rewrite andb_false_r, orb_false_l. cbn [orb negb andb]. rewrite u32_id by lia.
  destruct (Z.ltb_spec BTF_MAX_STR_OFFSET (1 + zlen m' - 1)) as [H1 | H1]; [by rewrite (proj2 (Z.leb_gt _ _)) by lia |].
  rewrite (proj2 (Z.leb_le _ _)) by lia. cbn [andb].
  destruct (last (x :: m')) as [y |] eqn:Ey; [| by apply last_None in Ey]. rewrite last_lookup in Ey.
  destruct (load8_lookup _ _ y (1 + zlen m' - 1) Ey) as (v & -> & Ev); [simpl; unfold zlen; lia |]. cbn [mbind option_bind]. rewrite Ev.
  destruct (load8_lookup (x :: m') 0 x 0 eq_refl eq_refl) as (v' & -> & Ev'). cbn [mbind option_bind head]. rewrite Ev'.
  destruct (bool_decide_reflect (y = NUL)) as [-> |]; cbn [negb]; [rewrite (bool_decide_true (Some NUL = Some NUL)) by done | by rewrite bool_decide_false by congruence].
  cbn [andb]. destruct based; cbn [negb andb orb]; [done |]. destruct (bool_decide_reflect (x = NUL)) as [-> |]; cbn [negb]; [done |].
  by rewrite bool_decide_false by congruence.
Qed.

Lemma parse_strs_blank base o : str_len (b_hdr o) = zlen (b_strs o) -> zlen (b_strs o) < 2 ^ 32 ->
  btf_parse_str_sec ((btf_blank base) {{ own := o }}) =
  Some (checked (strs_ok (match base with Some _ => true | None => false end) (b_strs o))).
Proof. intros. rewrite parse_str_sec_ok by done. by destruct base. Qed.

(** ** New objects *)

(** What is known of an object that was parsed from [raw]. *)
Record parsed (raw : list byte) (size : Z) (h : btf_header) (sw : bool) (strs : list byte) (base : option btf) (ts : list rtype) (b : btf) :
    Prop := {
  pa_own : own_ok (own b) ts;
  pa_bases : bases b = bases (btf_blank base);
  pa_start : b_start_id (own b) = b_start_id (own (btf_blank base));
  pa_start_str : b_start_str_off (own b) = b_start_str_off (own (btf_blank base));
  pa_raw : b_raw (own b) = Some raw;
  pa_raw_swapped : b_raw_swapped (own b) = None;
  pa_size : b_raw_size (own b) = size;
  pa_swapped : b_swapped (own b) = sw;
  pa_modifiable : b_modifiable (own b) = false;
  pa_hdr : b_hdr (own b) = h;
  pa_rest : b_hdr_rest (own b) = drop 24 (take (Z.to_nat (hdr_len h)) raw);
  pa_strs : b_strs (own b) = strs;
  pa_types : b_types (own b) = types_bytes false ts;
  pa_ptr_sz : b_ptr_sz (own b) = 0
}.

(** The bases of a new object. *)
Definition base_ok (base : option btf) (ts0 : list rtype) : Prop :=
  match base with Some b => btf_ok b ts0 /\ 1 + zlen ts0 <= 2 ^ 31 | None => ts0 = [] end.

Lemma parsed_ok raw size h sw strs base ts0 ts b : base_ok base ts0 -> parsed raw size h sw strs base ts b -> type_len h < 2 ^ 32 ->
  btf_ok b (ts0 ++ ts).
Proof.
  intros Hbase [H1 H2 H3 H4 _ _ _ _ _ Hh _ _ _ _] Hlen.
  assert (12 * zlen ts <= type_len h) as Hn.
  { rewrite <- Hh, (ow_len _ _ H1). clear. induction ts as [| t ts IH]; [done |]. rewrite types_bytes_cons, zlen_app, zlen_cons, zlen_type_bytes.
    pose proof (zlen_nonneg (r_extra t)). lia. }
  pose proof (zlen_nonneg ts). split.
  - rewrite H2. destruct base as [b0 |]; cbn in *.
    + destruct Hbase as [Hb0 _]. exists ts0, ts. split_and!; try done; [apply Hb0 |]. rewrite H3. by apply type_cnt_ok.
    + subst ts0. split_and!; done.
  - rewrite zlen_app. destruct base; cbn in Hbase; [destruct Hbase as [_ ?] | subst ts0; change (zlen []) with 0]; lia.
Qed.

Lemma strs_ok_last based m : strs_ok based m = true ->
  zlen m <= 2 ^ 31 /\ (0 < zlen m -> m !! Z.to_nat (zlen m - 1) = Some NUL).
Proof.
  unfold strs_ok. destruct (bool_decide_reflect (m = [])) as [-> | Hne]; [by change (zlen []) with 0 |].
  rewrite andb_false_r. cbn [orb negb andb]. intros [[Hmax%Z.leb_le Hlast%bool_decide_eq_true]%andb_prop _]%andb_prop.
  rewrite last_lookup in Hlast. unfold BTF_MAX_STR_OFFSET in Hmax. split; [lia |]. intros _. rewrite <- Hlast. f_equal. unfold zlen. lia.
Qed.

Lemma offs_ok_blank o : b_nr_types o = 0 -> b_offs o = [] -> b_offs_cap o = 0 -> offs_ok o [].
Proof. intros E1 E2 E3. split; rewrite ?E1, ?E2, ?E3; try done. by exists []. Qed.

Lemma new_sections_accepts realloc pre ts post raw size h sw base ts0 strs :
  base_ok base ts0 -> header_ok h -> raw = pre ++ types_bytes sw ts ++ post -> zlen pre = hdr_len h + type_off h ->
  Forall rtype_ok ts -> type_len h = zlen (types_bytes false ts) ->
  bytes_at raw (hdr_len h + str_off h) (Z.to_nat (str_len h)) = Some strs ->
  strs_ok (match base with Some _ => true | None => false end) strs = true ->
  exists r, new_sections realloc raw size h sw base = Some r /\
    ((r = inl (- ENOMEM) /\ exists n, n <= zlen ts /\ no_offs_room realloc n) \/
     exists b, parsed (pre ++ types_bytes false ts ++ post) size h sw strs base ts b /\
       r = if forallb (sane_type (str_valid b) (ts0 ++ ts)) (ts0 ++ ts) then inr b else inl (- EINVAL)).
Proof.
  intros Hbase Hh Eraw Hpre Hts Htl Estrs Hstrs. unfold new_sections. rewrite Estrs. cbn [mbind option_bind]. cbv zeta.
  assert (str_len h = zlen strs) as Hsl. { apply bytes_at_length in Estrs. destruct Hh as [_ _ _ _ Hsl]. unfold zlen. lia. }
  set (o := (own (btf_blank base)) {{ b_raw_size := size; b_swapped := sw; b_hdr := h; b_hdr_rest := drop 24 (take (Z.to_nat (hdr_len h)) raw); b_strs := strs }}).
  rewrite parse_strs_blank; [| exact Hsl | change (zlen strs < 2 ^ 32); destruct Hh; lia]. change (b_strs o) with strs. rewrite Hstrs.
  cbn [mbind option_bind]. change (c_true 0) with false. cbv iota.
  assert (length ts <= Z.to_nat (type_len h))%nat as Hfuel.
  { rewrite Htl. clear. induction ts as [| t ts IH]; [simpl; lia |]. rewrite types_bytes_cons, zlen_app, zlen_type_bytes. pose proof (zlen_nonneg (r_extra t)).
    simpl. pose proof (zlen_nonneg (types_bytes false ts)). lia. }
  destruct (parse_types_accepts realloc (hdr_len h + type_off h) post ts Hts (Z.to_nat (type_len h)) pre (hdr_len h + type_off h) o [])
    as (err & m & o' & E & Hr); [done | done | by apply offs_ok_blank | lia | rewrite <- Htl; destruct Hh; lia |].
  change (b_swapped o) with sw in E. rewrite <- Eraw, <- Htl in E. rewrite E. cbn [mbind option_bind].
  destruct Hr as [(-> & n & Hn & Hroom) | (-> & -> & (bs & cap & nr & Eo) & Ho)].
  { eexists. split; [done |]. left. split; [done |]. exists n. split; [| done]. change (zlen []) with 0 in Hn. lia. }
  change (c_true 0) with false. cbv iota. rewrite Z.sub_diag in Ho.
  rewrite (bytes_at_app pre (types_bytes false ts)) by (first [done | rewrite Htl; unfold zlen; lia]). cbn [mbind option_bind].
  set (b := (btf_blank base) {{ own := o' {{ b_raw := Some (pre ++ types_bytes false ts ++ post); b_types := types_bytes false ts }} }}).
  assert (parsed (pre ++ types_bytes false ts ++ post) size h sw strs base ts b) as HP.
  { assert (b_hdr o' = h /\ b_strs o' = strs /\ b_modifiable o' = false /\ b_raw_size o' = size /\ b_swapped o' = sw /\
      b_start_id o' = b_start_id (own (btf_blank base)) /\ b_start_str_off o' = b_start_str_off (own (btf_blank base)) /\
      b_raw_swapped o' = None /\ b_hdr_rest o' = drop 24 (take (Z.to_nat (hdr_len h)) raw) /\ b_ptr_sz o' = 0)
      as (F1 & F2 & F3 & F4 & F5 & F6 & F7 & F8 & F9 & F10) by (rewrite Eo; by destruct base).
    split; try done.
    - split; try done.
      + exists []. symmetry. apply app_nil_r.
      + by destruct Ho.
      + etransitivity; [| exact Htl]. by rewrite <- F1.
      + exists strs. change (b_hdr (own b)) with (b_hdr o'). rewrite F1, Hsl. split.
        { unfold btf_strs_data. change (b_modifiable (own b)) with (b_modifiable o'). rewrite F3. change (b_strs (own b)) with (b_strs o'). by rewrite F2. }
        split; [pose proof (zlen_nonneg strs); lia |]. by eapply strs_ok_last.
    - change (b_hdr_rest (own b)) with (b_hdr_rest o'). rewrite F9, Eraw. f_equal.
      rewrite !take_app_le by (destruct Hh; unfold zlen in *; lia). done. }
  assert (btf_ok b (ts0 ++ ts)) as Hb by (eapply parsed_ok; [done | done | apply Hh]).
  rewrite (sanity_check_ok b _ Hb). cbn [mbind option_bind].
  destruct (forallb (sane_type (str_valid b) (ts0 ++ ts)) (ts0 ++ ts)) eqn:Es; [exists (inr b) | exists (inl (- EINVAL))];
    (split; [done |]); right; exists b; by rewrite Es.
Qed.

Lemma new_sections_sound realloc raw size h sw base ts0 : base_ok base ts0 -> header_ok h -> sections_fit h size -> zlen raw = size ->
  exists r, new_sections realloc raw size h sw base = Some r /\
    match r with
    | inl err => err < 0
    | inr b => exists ts, btf_ok b (ts0 ++ ts) /\ forallb (sane_type (str_valid b) (ts0 ++ ts)) (ts0 ++ ts) = true
    end.
Proof.
  intros Hbase Hh [Hf1 Hf2] Hraw. pose proof Hh as [? ? ? ? ?].
  destruct (bytes_at raw (hdr_len h + str_off h) (Z.to_nat (str_len h))) as [strs |] eqn:Estrs; [| apply bytes_at_None in Estrs; lia].
  assert (str_len h = zlen strs) as Hsl by (apply bytes_at_length in Estrs; unfold zlen; lia).
  destruct (bytes_at raw (hdr_len h + type_off h) (Z.to_nat (type_len h))) as [body |] eqn:Ebody; [| apply bytes_at_None in Ebody; lia].
  apply bytes_at_split in Ebody as (pre & post & Eraw & Hpre & Hbody).
  set (o := (own (btf_blank base)) {{ b_raw_size := size; b_swapped := sw; b_hdr := h; b_hdr_rest := drop 24 (take (Z.to_nat (hdr_len h)) raw); b_strs := strs }}).
  destruct (parse_types_sound realloc (hdr_len h + type_off h) post (Z.to_nat (type_len h)) body pre (hdr_len h + type_off h) o [])
    as (err & m & o' & E & Hr); [lia | done | by apply offs_ok_blank | lia | unfold zlen; lia |].
  replace (zlen body) with (type_len h) in E by (unfold zlen; lia). rewrite <- Eraw in E.
  destruct (strs_ok (match base with Some _ => true | None => false end) strs) eqn:Hs; [destruct Hr as [Herr | (ts & Hts & ->)] |].
  - exists (inl err). split; [| done]. unfold new_sections. rewrite Estrs. cbn [mbind option_bind]. cbv zeta. fold o.
    rewrite parse_strs_blank; [| exact Hsl | change (zlen strs < 2 ^ 32); lia]. change (b_strs o) with strs. rewrite Hs.
    cbn [mbind option_bind]. change (c_true 0) with false. cbv iota. rewrite E. cbn [mbind option_bind].
    unfold c_true. by rewrite (proj2 (Z.eqb_neq _ _)) by lia.
  - destruct (new_sections_accepts realloc pre ts post raw size h sw base ts0 strs) as (r & Er & Hr'); try done.
    { rewrite <- (zlen_types_bytes sw). unfold zlen. change (b_swapped o) with sw in Hbody. lia. }
    exists r. split; [done |]. destruct Hr' as [[-> _] | (b & HP & ->)]; [done |].
    destruct (forallb _ _) eqn:Ef; [| done]. exists ts. split; [by eapply parsed_ok; [done | done | lia] | done].
  - exists (inl (- EINVAL)). split; [| done]. unfold new_sections. rewrite Estrs. cbn [mbind option_bind]. cbv zeta. fold o.
    rewrite parse_strs_blank; [| exact Hsl | change (zlen strs < 2 ^ 32); lia]. change (b_strs o) with strs. by rewrite Hs.
Qed.

(** C8: parsing BTF is safe for any data.  Whatever the bytes are, less than
    4 GiB of them, in either byte order, and whatever well-formed object they are put on top of,
    [btf_new] reads only inside them and returns: an error, or an object in which
    every type that can be named has all of its words in the section, every
    string ends inside its section, and every type, with those of the bases,
    passes the check of the code: its strings exist, the types it refers to
    exist, except that the return type of a function prototype may be any
    number, and a function refers to a prototype. *)
Theorem btf_new_sound e data size base ts0 : 0 <= size < 2 ^ 32 -> size <= zlen data -> base_ok base ts0 ->
  exists r, btf_new e data size base = Some r /\
    match r with
    | inl err => err < 0
    | inr b => exists ts, btf_ok b (ts0 ++ ts) /\ forallb (sane_type (str_valid b) (ts0 ++ ts)) (ts0 ++ ts) = true
    end.
Proof.
  intros Hs Hd Hbase. unfold btf_new. destruct (ne_btf e), (ne_raw e); try (by exists (inl (- ENOMEM))). cbn [negb].
  rewrite bytes_at_Some by lia. cbn [mbind option_bind]. set (raw := take _ _).
  assert (zlen raw = size) as Hraw by (unfold raw, zlen in *; rewrite length_take, length_drop; lia). clearbody raw.
  destruct (parse_hdr_sound raw size Hraw) as (err & raw' & h & sw & -> & Hraw' & Hr); [lia |]. cbn [mbind option_bind].
  destruct Hr as [Herr | (-> & h' & -> & Hh & Hfit)].
  - unfold c_true. rewrite (proj2 (Z.eqb_neq _ _)) by lia. by exists (inl err).
  - change (c_true 0) with false. cbv iota. cbn [mbind option_bind]. by apply new_sections_sound.
Qed.

(** ** Files *)

(** A header struct in the byte order of the file. *)
Definition header_words (h : btf_header) : list Z := [hdr_len h; type_off h; type_len h; str_off h; str_len h].
Definition header_image (sw : bool) (h : btf_header) : list byte :=
  (if sw then rev (le_split 2 (magic h)) else le_split 2 (magic h)) ++ le_split 1 (version h) ++ le_split 1 (flags h) ++
  enc_words (in_order sw (header_words h)).

Lemma header_image_native h : header_image false h = header_bytes h.
Proof. unfold header_image, header_bytes, in_order, header_words. rewrite !enc_words_cons. change (enc_words []) with (@nil byte). by rewrite app_nil_r. Qed.

(** A file without gaps. *)
Definition image_header (ts : list rtype) (strs : list byte) : btf_header :=
  {| magic := BTF_MAGIC; version := 1; flags := 0; hdr_len := 24; type_off := 0; type_len := zlen (types_bytes false ts);
     str_off := zlen (types_bytes false ts); str_len := zlen strs |}.
Definition image (sw : bool) (ts : list rtype) (strs : list byte) : list byte :=
  header_image sw (image_header ts strs) ++ types_bytes sw ts ++ strs.

Lemma header_words_ok h : header_ok h -> Forall (fun w => is_u32 w) (header_words h).
Proof. intros []. unfold header_words. by rewrite !Forall_cons, Forall_nil. Qed.

Lemma store_start (bs post bs' : list byte) : length bs' = length bs -> store (bs ++ post) 0 bs' = Some (bs' ++ post).
Proof. by apply (store_app []). Qed.

Lemma bswap_hdr_image sw h post : header_ok h ->
  btf_bswap_hdr (header_image sw h ++ post) = Some (header_image (negb sw) h ++ post).
Proof.
  intros Hh. unfold btf_bswap_hdr, header_image. set (mg := if sw then _ else _). rewrite <- !app_assoc.
  assert (length mg = 2%nat) as Hl by (unfold mg; destruct sw; rewrite ?length_rev, length_le_split; done).
  rewrite bytes_at_start by done. cbn [mbind option_bind]. rewrite store_start by (by rewrite length_rev). cbn [mbind option_bind].
  rewrite !app_assoc, <- (app_assoc _ (enc_words _)).
  replace 5%nat with (length (in_order sw (header_words h))) by (by destruct sw).
  rewrite bswap_words_run by (rewrite !zlen_app, !zlen_le_split; unfold zlen; rewrite length_rev, Hl; done).
  f_equal. rewrite <- !app_assoc. f_equal; [by unfold mg; destruct sw; [rewrite rev_involutive |] |]. do 2 f_equal. f_equal. f_equal.
  destruct sw; cbn [negb in_order]; [| done]. by apply bswap_twice, header_words_ok.
Qed.

Lemma load_header_image h post : header_ok h -> 0 <= magic h < 2 ^ 16 -> 0 <= version h < 2 ^ 8 -> 0 <= flags h < 2 ^ 8 ->
  load_header (header_image false h ++ post) = Some h.
Proof.
  intros Hh Hm Hv Hf. unfold load_header, header_image, in_order. rewrite <- !app_assoc.
  set (m := le_split 2 (magic h)). set (v := le_split 1 (version h)). set (f := le_split 1 (flags h)).
  assert (load16 (m ++ v ++ f ++ enc_words (header_words h) ++ post) 0 = Some (magic h)) as -> by (by apply (load_app_le [])).
  assert (load8 (m ++ v ++ f ++ enc_words (header_words h) ++ post) 2 = Some (version h)) as -> by (by apply (load_app_le m)).
  assert (load8 (m ++ v ++ f ++ enc_words (header_words h) ++ post) 3 = Some (flags h)) as ->
    by (rewrite (app_assoc m); by apply (load_app_le (m ++ v))).
  assert (forall off (i : nat) w, header_words h !! i = Some w -> off = 4 + 4 * Z.of_nat i ->
    load32 (m ++ v ++ f ++ enc_words (header_words h) ++ post) off = Some w) as HW.
  { intros off i w Hi ->. rewrite (app_assoc v), (app_assoc m). apply (load_words _ _ _ i); [by apply header_words_ok | done |].
    rewrite !zlen_app. unfold m, v, f. rewrite !zlen_le_split. done. }
  cbn [mbind option_bind]. rewrite (HW 4 0%nat _ eq_refl eq_refl), (HW 8 1%nat _ eq_refl eq_refl), (HW 12 2%nat _ eq_refl eq_refl),
    (HW 16 3%nat _ eq_refl eq_refl), (HW 20 4%nat _ eq_refl eq_refl).
  cbn [mbind option_bind]. by destruct h.
Qed.

Lemma zlen_header_image sw h : zlen (header_image sw h) = 24.
Proof.
  unfold header_image. rewrite !zlen_app, !zlen_le_split, zlen_enc_words, zlen_in_order. destruct sw; unfold zlen; by rewrite ?length_rev, length_le_split.
Qed.

#[export] Hint Rewrite zlen_header_image : cmem.

Section Image.
Context (ts : list rtype) (strs : list byte) (Hsize : 24 + zlen (types_bytes false ts) + zlen strs < 2 ^ 32).
Let h : btf_header := image_header ts strs.

Lemma image_header_ok : header_ok h.
Proof. pose proof (zlen_nonneg strs). pose proof (zlen_nonneg (types_bytes false ts)). split; cbn; lia. Qed.

Lemma zlen_image sw : zlen (image sw ts strs) = 24 + zlen (types_bytes false ts) + zlen strs.
Proof. unfold image. rewrite !zlen_app, zlen_header_image, zlen_types_bytes. lia. Qed.

Lemma parse_hdr_image sw : btf_parse_hdr (image sw ts strs) (zlen (image sw ts strs)) =
  Some (0, header_image false h ++ types_bytes sw ts ++ strs, Some h, sw).
Proof.
  pose proof (zlen_nonneg strs). pose proof (zlen_nonneg (types_bytes false ts)). pose proof image_header_ok as Hh.
  unfold btf_parse_hdr. rewrite zlen_image. unfold SIZEOF_HEADER. rewrite (proj2 (Z.ltb_ge _ 24)) by lia.
  assert (load16 (image sw ts strs) 0 = Some (if sw then bswap16 BTF_MAGIC else BTF_MAGIC)) as ->.
  { unfold image, header_image, load. rewrite <- !app_assoc. rewrite bytes_at_start by (destruct sw; by rewrite ?length_rev, length_le_split).
    by destruct sw. }
  assert (load32 (image sw ts strs) 4 = Some (if sw then bswap32 24 else 24)) as ->.
  { unfold image, header_image. fold h. rewrite <- !app_assoc, (app_assoc (le_split 1 _)), app_assoc.
    apply (load_words _ _ _ 0%nat); [by apply in_order_ok, header_words_ok | by destruct sw |].
    rewrite !zlen_app, !zlen_le_split. destruct sw; unfold zlen; by rewrite ?length_rev, length_le_split. }
  assert (check_header (header_image false h ++ types_bytes sw ts ++ strs) (24 + zlen (types_bytes false ts) + zlen strs) sw =
    Some (0, header_image false h ++ types_bytes sw ts ++ strs, Some h, sw)) as Hc.
  { unfold check_header. rewrite load_header_image by done. cbn [mbind option_bind]. cbn [h image_header hdr_len type_off type_len str_off str_len].
    rewrite (proj2 (Z.ltb_ge _ 24)) by lia. rewrite u32_id by lia. rewrite (proj2 (Z.ltb_ge _ (zlen _ + zlen _))) by lia.
    rewrite (proj2 (Z.ltb_ge _ (0 + _))) by lia. done. }
  cbn [mbind option_bind]. destruct sw.
  - rewrite Z.eqb_refl. rewrite bswap32_involutive by lia. cbn [Z.eqb Pos.eqb negb]. unfold image. fold h.
    rewrite bswap_hdr_image by done. cbn [mbind option_bind negb]. exact Hc.
  - change (BTF_MAGIC =? bswap16 BTF_MAGIC) with false. cbv iota. rewrite Z.eqb_refl. cbn [negb]. exact Hc.
Qed.

(** Each type is put back into the byte order of the file. *)
Lemma bswap_all_run ts1 : forall pre post p offs i, Forall rtype_ok ts1 ->
  (forall (k : nat) off, offsets ts1 (zlen pre - p) !! k = Some off -> load32 offs (4 * (i + Z.of_nat k)) = Some off) ->
  bswap_all (pre ++ types_bytes false ts1 ++ post) p offs i (length ts1) = Some (Some (pre ++ types_bytes true ts1 ++ post)).
Proof.
  induction ts1 as [| t ts1 IH]; intros pre post p offs i Hok Ho; [done |]. apply Forall_cons in Hok as [Ht Hok]. cbn [length bswap_all].
  pose proof (Ho 0%nat (zlen pre - p) eq_refl) as E0. rewrite Z.add_0_r in E0. rewrite E0. cbn [mbind option_bind].
  replace (p + (zlen pre - p)) with (zlen pre) by lia. rewrite !types_bytes_cons, <- !app_assoc.
  assert (btf_bswap_type_rest (pre ++ type_bytes false t ++ types_bytes false ts1 ++ post) (zlen pre) =
    Some (0, pre ++ enc_words (r_base t) ++ enc_words (in_order true (r_extra t)) ++ types_bytes false ts1 ++ post)) as ->.
  { rewrite (type_bytes_split false), <- app_assoc. erewrite bswap_rest_spec; [| by apply load_info]. rewrite (proj2 Ht).
    unfold zlen at 2. rewrite Nat2Z.id. unfold in_order. rewrite !(app_assoc pre).
    rewrite (bswap_words_run (r_extra t) (pre ++ enc_words (r_base t))) by (autorewrite with cmem; done). done. }
  cbn [mbind option_bind]. change (c_true 0) with false. cbv iota.
  assert (btf_bswap_type_base (pre ++ enc_words (r_base t) ++ enc_words (in_order true (r_extra t)) ++ types_bytes false ts1 ++ post) (zlen pre) =
    Some ((pre ++ type_bytes true t) ++ types_bytes false ts1 ++ post)) as ->.
  { unfold btf_bswap_type_base. etransitivity; [exact (bswap_words_run (r_base t) pre _ _ eq_refl) |].
    rewrite (type_bytes_split true). unfold in_order. by rewrite <- !app_assoc. }
  cbn [mbind option_bind]. rewrite IH; [by rewrite <- !app_assoc | done |].
  intros k off Hk. rewrite <- (Ho (S k) off); [f_equal; lia |].
  change (offsets ts1 (zlen pre - p + zlen (type_bytes false t)) !! k = Some off). rewrite <- Hk, zlen_app, !zlen_type_bytes. do 2 f_equal. lia.
Qed.

Lemma store_replicate (pre bs : list byte) n x off : off = zlen pre -> (length bs <= n)%nat ->
  store (pre ++ replicate n x) off bs = Some ((pre ++ bs) ++ replicate (n - length bs) x).
Proof.
  intros -> Hl. replace n with (length bs + (n - length bs))%nat at 1 by lia. rewrite replicate_add.
  rewrite (store_app pre (replicate (length bs) x)) by (by rewrite ?length_replicate). by rewrite <- app_assoc.
Qed.

(** Objects that differ only in cached data. *)
Record same_core (o o' : btf_own) : Prop := {
  sc_types : b_types o' = b_types o;
  sc_offs : b_offs o' = b_offs o;
  sc_offs_cap : b_offs_cap o' = b_offs_cap o;
  sc_nr : b_nr_types o' = b_nr_types o;
  sc_hdr : b_hdr o' = b_hdr o;
  sc_modifiable : b_modifiable o' = b_modifiable o;
  sc_strs : b_strs o' = b_strs o;
  sc_set : b_set o' = b_set o;
  sc_start : b_start_id o' = b_start_id o;
  sc_start_str : b_start_str_off o' = b_start_str_off o
}.

Lemma same_core_own o o' l : same_core o o' -> own_ok o l -> own_ok o' l.
Proof.
  intros [H1 H2 H3 H4 H5 H6 H7 H8 _ _] [? ? [? ? ? ? ?] ? ?]. split; unfold btf_strs_data in *; rewrite ?H1, ?H5, ?H6, ?H7, ?H8; try done.
  split; rewrite ?H2, ?H3, ?H4; done.
Qed.

Lemma same_core_ok b b' all : same_core (own b) (own b') -> bases b' = bases b -> btf_ok b all -> btf_ok b' all.
Proof.
  intros Hc Eb [HC Hn]. split; [| done]. rewrite Eb. pose proof (fun l => same_core_own (own b) (own b') l Hc) as Hown.
  destruct (bases b); cbn [chain_ok] in *; rewrite (sc_start _ _ Hc), (sc_start_str _ _ Hc).
  - destruct HC as (? & ? & ?). split_and!; try done. by apply Hown.
  - destruct HC as (l0 & l1 & ? & ? & ? & ? & ?). exists l0, l1. split_and!; try done. by apply Hown.
Qed.

Lemma raw_data_core calloc b r b' : btf__raw_data calloc b = Some (r, b') -> same_core (own b) (own b') /\ bases b' = bases b.
Proof.
  unfold btf__raw_data. cbv zeta. destruct (btf_get_raw_data _ _ _) as [[[data size] |] |]; [| | done]; cbn [mbind option_bind]; intros [= _ <-].
  - split; [| done]. destruct b as [[? ? ? [] ? ? ? ? ? ? ? ? ? ? ? ? ? ? ?] os]; by split.
  - by split.
Qed.

(** The data of an object without cached data. *)
Lemma get_raw_image o (sw : bool) hd : (if sw then b_raw_swapped o else b_raw o) = None -> Forall rtype_ok ts -> own_ok o ts ->
  (hdr_len hd, type_len hd, str_len hd) = (24, zlen (types_bytes false ts), zlen strs) -> header_bytes hd = header_image false h ->
  b_hdr o = hd -> b_hdr_rest o = [] -> (exists m, btf_strs_data o = Some m /\ take (length strs) m = strs) ->
  btf_get_raw_data true o sw = Some (Some (image sw ts strs, 24 + zlen (types_bytes false ts) + zlen strs)).
Proof.
  intros Hraw Hts Ho Hlens Hhb Eh Er (m & Em & Hm). pose proof (zlen_nonneg strs) as Z1. pose proof (zlen_nonneg (types_bytes false ts)) as Z2.
  injection Hlens as L1 L2 L3. unfold btf_get_raw_data. rewrite Hraw. cbv zeta. rewrite Eh, L1, L2, L3, Er, app_nil_r, Hhb, u32_id by lia. cbn [negb].
  assert (length (header_image false h) = 24%nat) as HL by (pose proof (zlen_header_image false h); unfold zlen in *; lia).
  rewrite (bytes_at_all (header_image false h)) by (by rewrite HL). cbn [mbind option_bind].
  destruct (ow_types _ _ Ho) as [rest ->]. rewrite bytes_at_start by (unfold zlen; lia). cbn [mbind option_bind]. rewrite Em. cbn [mbind option_bind].
  rewrite <- (take_drop (length strs) m), Hm, bytes_at_start by (unfold zlen; lia).
  cbn [mbind option_bind]. set (n := Z.to_nat (24 + zlen (types_bytes false ts) + zlen strs)). assert (n = 24 + length (types_bytes false ts) + length strs)%nat as Hn by (unfold n, zlen; lia).
  clearbody n. pose proof (store_replicate [] (header_image false h) n NUL 0 eq_refl ltac:(lia)) as Es. cbn [app] in Es. rewrite Es. cbn [mbind option_bind].
  assert (forall sw', length (types_bytes sw' ts) = length (types_bytes false ts)) as HLt by (intros sw'; pose proof (zlen_types_bytes sw' ts); unfold zlen in *; lia).
  destruct sw; cbn [mbind option_bind].
  - rewrite bswap_hdr_image by apply image_header_ok. cbn [mbind option_bind].
    rewrite store_replicate by (rewrite ?zlen_header_image; first [done | lia]). cbn [mbind option_bind]. rewrite <- (app_assoc (header_image _ _)).
    assert (Z.to_nat (b_nr_types o) = length ts) as -> by (rewrite (own_ok_nr _ _ Ho); unfold zlen; lia). rewrite bswap_all_run; [| done |].
    2: { intros k off Hk. rewrite zlen_header_image in Hk. destruct (ow_offs _ _ Ho) as [_ _ _ [rest' Eo] Hu]. rewrite Eo.
         apply (load_words [] _ _ k); [done | done |]. change (zlen []) with 0. lia. }
    cbn [mbind option_bind]. rewrite app_assoc. rewrite store_replicate; [| rewrite zlen_app, zlen_header_image; unfold zlen; rewrite (HLt true); lia | lia].
    cbn [mbind option_bind]. do 3 f_equal. match goal with |- context [replicate ?k NUL] => replace k with O by lia end. unfold image. cbn [replicate]. by rewrite app_nil_r, <- app_assoc.
  - rewrite store_replicate by (rewrite ?zlen_header_image; first [done | lia]). cbn [mbind option_bind].
    rewrite store_replicate; [| rewrite zlen_app, zlen_header_image; unfold zlen; lia | lia].
    cbn [mbind option_bind]. do 3 f_equal. match goal with |- context [replicate ?k NUL] => replace k with O by lia end. unfold image. cbn [replicate]. by rewrite app_nil_r, <- app_assoc.
Qed.

Lemma raw_data_image sw size b : size = 24 + zlen (types_bytes false ts) + zlen strs -> Forall rtype_ok ts ->
  parsed (header_image false h ++ types_bytes false ts ++ strs) size h sw strs None ts b ->
  exists b', btf__raw_data true b = Some (Some (image sw ts strs, size), b').
Proof.
  intros -> Hts [P1 P2 P3 P4 P5 P6 P7 P8 P9 P10 P11 P12 P13 P14]. unfold btf__raw_data. rewrite P8.
  assert (btf_get_raw_data true (own b) sw = Some (Some (image sw ts strs, 24 + zlen (types_bytes false ts) + zlen strs))) as ->; [| by eexists].
  destruct sw; [| unfold btf_get_raw_data; rewrite P5, P7; unfold image; by fold h].
  apply get_raw_image with (hd := h); [done | done | done | done | symmetry; apply header_image_native | done | |].
  - rewrite P11. apply drop_ge. rewrite length_take. cbn. lia.
  - exists strs. unfold btf_strs_data. rewrite P9, P12. split; [done | apply firstn_all].
Qed.

Lemma type_strs_ok r : rtype_ok r -> Forall (fun off => is_u32 off) (type_strs r).
Proof.
  intros Hr. destruct (rtype_ok_parts r Hr) as [Hb He]. unfold r_base in Hb. apply Forall_cons in Hb as [Hn _].
  assert (forall n j vlen, Forall (fun off => is_u32 off) (column n j vlen (r_extra r))) as Hc.
  { intros n j vlen. apply Forall_fmap, Forall_true. intros i. cbn. destruct (r_extra r !! (n * i + j)%nat) as [w |] eqn:E; [| done].
    by apply (Forall_lookup_1 _ _ _ _ He E). }
  unfold type_strs. apply Forall_cons. split; [done |]. by destruct (btf_kind (r_info r)).
Qed.

Lemma sane_type_ext f g all r : (forall off, is_u32 off -> f off = g off) -> rtype_ok r -> sane_type f all r = sane_type g all r.
Proof.
  intros Hfg Hr. unfold sane_type. f_equal. f_equal. pose proof (type_strs_ok r Hr) as HF.
  induction HF as [| off l Ho _ IH]; [done |]. cbn. by rewrite Hfg, IH.
Qed.

Lemma forallb_sane_ext f g all l : (forall off, is_u32 off -> f off = g off) -> Forall rtype_ok l ->
  forallb (sane_type f all) l = forallb (sane_type g all) l.
Proof. intros Hfg. induction 1 as [| r l Hr _ IH]; [done |]. cbn. by rewrite IH, (sane_type_ext f g all r Hfg Hr). Qed.

(** The strings of the file. *)
Definition in_strs (off : Z) : bool := off <? zlen strs.

Lemma str_valid_image raw size hd sw b : str_len hd = zlen strs -> parsed raw size hd sw strs None ts b -> forall off, is_u32 off ->
  str_valid b off = in_strs off /\ (off < zlen strs -> btf__str_by_offset b off = Some (Some (drop (Z.to_nat off) strs))).
Proof.
  intros Hl [_ P2 _ P4 _ _ _ _ P9 P10 _ P12 _ _] off Hu. unfold str_valid, btf__str_by_offset. rewrite P2. cbn [btf_blank bases]. cbn [str_by_offset].
  rewrite P4. cbn. rewrite (proj2 (Z.ltb_ge off 0)) by lia. rewrite Z.sub_0_r, u32_id, P10, Hl by done. unfold btf_strs_data, in_strs. rewrite P9, P12.
  destruct (Z.ltb_spec off (zlen strs)); cbn; [done | split; [done | lia]].
Qed.

End Image.

(** A file is parsed into its types and strings, and then checked. *)
Lemma btf_new_checked e sw ts strs : Forall rtype_ok ts -> strs_ok false strs = true -> 24 + zlen (types_bytes false ts) + zlen strs < 2 ^ 32 ->
  let file := image sw ts strs in let h := image_header ts strs in
  exists r, btf_new e file (zlen file) None = Some r /\
    ((r = inl (- ENOMEM) /\ (ne_btf e = false \/ ne_raw e = false \/ exists n, n <= zlen ts /\ no_offs_room (ne_realloc e) n)) \/
     exists b, btf_ok b ts /\ parsed (header_image false h ++ types_bytes false ts ++ strs) (zlen file) h sw strs None ts b /\
       r = if forallb (sane_type (in_strs strs) ts) ts then inr b else inl (- EINVAL)).
Proof.
  intros Hts Hstrs Hsize file h. pose proof (image_header_ok ts strs Hsize) as Hh. unfold btf_new.
  destruct (ne_btf e) eqn:E1; [| eexists; split; [done |]; left; auto]. destruct (ne_raw e) eqn:E2; [| eexists; split; [done |]; left; auto]. cbn [negb].
  rewrite bytes_at_all by (unfold zlen; lia). cbn [mbind option_bind].
  unfold file. rewrite parse_hdr_image by done. cbn [mbind option_bind]. change (c_true 0) with false. cbv iota. cbn [mbind option_bind].
  destruct (new_sections_accepts (ne_realloc e) (header_image false (image_header ts strs)) ts strs
    (header_image false (image_header ts strs) ++ types_bytes sw ts ++ strs) (zlen (image sw ts strs)) (image_header ts strs) sw None [] strs)
    as (r & -> & Hr); [done | done | done | by rewrite zlen_header_image | done | done | | done |].
  { cbn [hdr_len str_off str_len image_header]. rewrite app_assoc.
    apply bytes_at_end; [rewrite zlen_app, zlen_header_image, (zlen_types_bytes sw); lia | unfold zlen; lia]. }
  exists r. split; [done |]. destruct Hr as [(-> & n & Hn & Hroom) | (b & HP & ->)]; [left; split; [done | eauto 8] | right].
  pose proof (str_valid_image ts strs _ _ (image_header ts strs) _ b eq_refl HP) as Hv.
  exists b. split; [by apply (parsed_ok _ _ _ _ _ None [] ts b eq_refl HP), (ho_type_len _ Hh) |]. split; [done |].
  cbn [app]. rewrite (forallb_sane_ext (str_valid b) (in_strs strs) ts ts); [done | intros off Ho; by apply Hv | done].
Qed.

Lemma btf_new_image e sw ts strs : Forall rtype_ok ts -> strs_ok false strs = true ->
  forallb (sane_type (in_strs strs) ts) ts = true -> 24 + zlen (types_bytes false ts) + zlen strs < 2 ^ 32 ->
  let file := image sw ts strs in let h := image_header ts strs in
  exists r, btf_new e file (zlen file) None = Some r /\
    ((r = inl (- ENOMEM) /\ (ne_btf e = false \/ ne_raw e = false \/ exists n, n <= zlen ts /\ no_offs_room (ne_realloc e) n)) \/
     exists b, r = inr b /\ btf_ok b ts /\ parsed (header_image false h ++ types_bytes false ts ++ strs) (zlen file) h sw strs None ts b).
Proof.
  intros Hts Hstrs Hsane Hsize file h. destruct (btf_new_checked e sw ts strs Hts Hstrs Hsize) as (r & E & Hr). exists r. split; [exact E |].
  destruct Hr as [Hr | (b & Hb & HP & Hr)]; [by left | right]. rewrite Hsane in Hr. by exists b.
Qed.

(** C9: BTF survives a round trip through a file in either byte order.  A file
    made of types and strings that pass the checks is accepted
    by [btf_new], unless memory is short; the object has exactly these types, in
    native byte order, and these strings; and [btf__raw_data] gives the file back,
    byte for byte, in the byte order it had. *)
Theorem btf_image_roundtrip e sw ts strs : Forall rtype_ok ts -> strs_ok false strs = true ->
  forallb (sane_type (in_strs strs) ts) ts = true -> 24 + zlen (types_bytes false ts) + zlen strs < 2 ^ 32 ->
  let file := image sw ts strs in
  exists r, btf_new e file (zlen file) None = Some r /\
    ((r = inl (- ENOMEM) /\ (ne_btf e = false \/ ne_raw e = false \/ exists n, n <= zlen ts /\ no_offs_room (ne_realloc e) n)) \/
     exists b, r = inr b /\ btf_ok b ts /\ btf__endianness b = c_bool sw /\
       (forall off, 0 <= off < zlen strs -> btf__str_by_offset b off = Some (Some (drop (Z.to_nat off) strs))) /\
       exists b', btf__raw_data true b = Some (Some (file, zlen file), b') /\ btf_ok b' ts).
Proof.
  intros Hts Hstrs Hsane Hsize file. destruct (btf_new_image e sw ts strs Hts Hstrs Hsane Hsize) as (r & E & Hr). exists r. split; [exact E |]. clear E.
  destruct Hr as [Hr | (b & -> & Hb & HP)]; [by left | right]. exists b. split; [done |]. split; [done |].
  split; [unfold btf__endianness; by rewrite (pa_swapped _ _ _ _ _ _ _ _ HP) |].
  pose proof (str_valid_image ts strs _ _ (image_header ts strs) _ b eq_refl HP) as Hv.
  split; [intros off Ho; apply Hv; pose proof (zlen_nonneg (types_bytes false ts)); lia |]. unfold file in *. rewrite zlen_image in *.
  destruct (raw_data_image ts strs Hsize sw _ b eq_refl Hts HP) as (b' & E). exists b'. split; [done |].
  apply raw_data_core in E as [? ?]. by eapply same_core_ok.
Qed.

(** ** An example: [int], a pointer to it, an array of 10 pointers, a typedef
    and a struct *)

Definition sample_strs : list byte := NUL :: str "int" ++ NUL :: str "s" ++ NUL :: str "a" ++ [NUL].
Definition sample_types : list rtype :=
  [{| r_name := 1; r_info := 1 * 2 ^ 24; r_size := 4; r_extra := [0x1000020] |};
   {| r_name := 0; r_info := 2 * 2 ^ 24; r_size := 1; r_extra := [] |};
   {| r_name := 0; r_info := 3 * 2 ^ 24; r_size := 0; r_extra := [2; 1; 10] |};
   {| r_name := 7; r_info := 8 * 2 ^ 24; r_size := 3; r_extra := [] |};
   {| r_name := 5; r_info := 4 * 2 ^ 24 + 1; r_size := 80; r_extra := [7; 4; 0] |}].
Definition sample_env : new_env := {| ne_btf := true; ne_raw := true; ne_realloc := fun _ => true |}.

(** A decision for [rtype_ok]. *)
Definition rtype_check (r : rtype) : bool :=
  forallb (fun w => (0 <=? w) && (w <? 2 ^ 32)) (r_words r) && bool_decide (extra_words (r_info r) = Some (zlen (r_extra r))).

Lemma rtype_check_ok r : rtype_check r = true -> rtype_ok r.
Proof.
  intros [H1 H2%bool_decide_eq_true]%andb_prop. split; [| done]. induction (r_words r) as [| w ws IH]; [done |]. cbn in H1.
  apply andb_prop in H1 as [H1 H3]. apply Forall_cons. split; [lia | by apply IH].
Qed.

Lemma sample_types_ok : Forall rtype_ok sample_types.
Proof.
  assert (forallb rtype_check sample_types = true) as H by (vm_compute; reflexivity).
  apply Is_true_true, forallb_True in H. eapply Forall_impl; [exact H |]. intros r Hr. by apply rtype_check_ok, Is_true_true.
Qed.

Lemma btf_new_sound_witness : exists r, btf_new sample_env (image true sample_types sample_strs) 121 None = Some r /\
  match r with
  | inl err => err < 0
  | inr b => exists ts, btf_ok b ([] ++ ts) /\ forallb (sane_type (str_valid b) ([] ++ ts)) ([] ++ ts) = true
  end.
Proof. apply btf_new_sound; [lia | vm_compute; discriminate | done]. Defined.

Lemma btf_image_roundtrip_witness :
  let file := image true sample_types sample_strs in
  exists r, btf_new sample_env file (zlen file) None = Some r /\
    ((r = inl (- ENOMEM) /\ (ne_btf sample_env = false \/ ne_raw sample_env = false \/
        exists n, n <= zlen sample_types /\ no_offs_room (ne_realloc sample_env) n)) \/
     exists b, r = inr b /\ btf_ok b sample_types /\ btf__endianness b = c_bool true /\
       (forall off, 0 <= off < zlen sample_strs -> btf__str_by_offset b off = Some (Some (drop (Z.to_nat off) sample_strs))) /\
       exists b', btf__raw_data true b = Some (Some (file, zlen file), b') /\ btf_ok b' sample_types).
Proof. apply btf_image_roundtrip; [apply sample_types_ok | reflexivity | reflexivity | reflexivity]. Defined.
