(* ===== verification/BtfQuery.v ===== *)
(** What the queries of Btf.v answer on a well-formed object: sizes, names,
    alignment. *)
From S2P Require Import Prelude.
From S2P Require Import CLib.
From S2P Require Import Hashmap.
From S2P Require Import Strset.
From S2P Require Import Btf.
From S2P Require Import BtfParse.
From coqutil Require Import Datatypes.RecordSetters.
Import DoubleBraceUpdate.

(** ** Names *)

(** The name at an offset, without its terminator. *)
Definition name_at (b : btf) (off : Z) : option (list byte) :=
  match btf__str_by_offset b off with Some (Some m) => Some (cstr m) | _ => None end.

Lemma name_by_offset_ok b ts off : btf_ok b ts -> is_u32 off ->
  exists m, btf__name_by_offset b off = Some m /\ name_at b off = cstr <$> m /\ forall s, m = Some s -> NUL ∈ s.
Proof.
  intros Hb Hu. unfold btf__name_by_offset, name_at, btf__str_by_offset.
  destruct (str_by_offset_ok _ _ _ off (bo_chain _ _ Hb) Hu) as (m & -> & Hm). exists m. by destruct m.
Qed.

(** A type of the object, through its number. *)
Lemma query_type b ts (k : nat) r : btf_ok b ts -> ts !! k = Some r ->
  exists t, btf__type_by_id b (Z.of_nat k + 1) = Some (Some t) /\ is_type t r /\ rtype_ok r.
Proof.
  intros Hb Hk. apply lookup_lt_Some in Hk as Hl.
  destruct (btf__type_by_id_ok b ts (Z.of_nat k + 1) Hb) as [(_ & t & r' & E & Eg & Ht & _) | (Hlt & _)]; [lia | | unfold zlen in Hlt; lia].
  exists t. unfold get_type in Eg. rewrite (proj2 (Z.eqb_neq _ _)), (proj2 (Z.ltb_ge _ _)) in Eg by lia.
  replace (Z.to_nat (Z.of_nat k + 1 - 1)) with k in Eg by lia. rewrite Hk in Eg. injection Eg as <-.
  split_and!; [done | done |]. apply (Forall_lookup_1 _ _ _ _ (chain_types _ _ _ (bo_chain _ _ Hb)) Hk).
Qed.

Lemma rtype_words_u32 r : rtype_ok r -> is_u32 (r_name r) /\ is_u32 (r_size r).
Proof. intros Hr. destruct (rtype_ok_parts r Hr) as [Hb _]. unfold r_base in Hb. rewrite !Forall_cons in Hb. tauto. Qed.

(** A search finds the first type with a result. *)
Fixpoint first_of {A} (f : Z -> rtype -> option A) (i : Z) (ts : list rtype) : option A :=
  match ts with [] => None | r :: ts' => match f i r with Some a => Some a | None => first_of f (i + 1) ts' end end.

Lemma first_type_ok {A} b ts (test : Z -> option (option A)) (f : Z -> rtype -> option A) n : btf_ok b ts ->
  (forall (k : nat) r t, ts !! k = Some r -> btf__type_by_id b (Z.of_nat k + 1) = Some (Some t) -> is_type t r -> rtype_ok r ->
     test (Z.of_nat k + 1) = Some (f (Z.of_nat k + 1) r)) ->
  forall k, (k + n = length ts)%nat -> first_type test (Z.of_nat k + 1) n = Some (first_of f (Z.of_nat k + 1) (drop k ts)).
Proof.
  intros Hb Hf. induction n as [| n IH]; intros k Hk; [by rewrite drop_ge by lia |]. cbn [first_type].
  destruct (lookup_lt_is_Some_2 ts k) as [r Hr]; [lia |]. destruct (query_type b ts k r Hb Hr) as (t & E & Ht & Hok).
  rewrite (Hf k r t) by done. cbn [mbind option_bind]. rewrite (drop_S _ _ _ Hr). cbn [first_of]. destruct (f (Z.of_nat k + 1) r); [done |].
  replace (Z.of_nat k + 1 + 1) with (Z.of_nat (S k) + 1) by lia. apply IH. lia.
Qed.

(** ** Pointer sizes *)

Definition long_names : list (list byte) := cstr <$> long_aliases.

Definition is_long (b : btf) (r : rtype) : option Z :=
  if bool_decide (btf_kind (r_info r) = KInt) && ((r_size r =? 4) || (r_size r =? 8)) then
    match name_at b (r_name r) with Some s => if bool_decide (s ∈ long_names) then Some (r_size r) else None | None => None end
  else None.

Lemma equal_any_ok m ss : NUL ∈ m -> Forall (fun s => NUL ∈ s) ss -> equal_any m ss = Some (bool_decide (cstr m ∈ cstr <$> ss)).
Proof.
  intros Hm. induction 1 as [| s ss Hs _ IH]; [done |]. cbn [equal_any]. rewrite str_equal_cstr by done. cbn [mbind option_bind].
  rewrite fmap_cons. destruct (bool_decide_reflect (cstr m = cstr s)) as [E | E].
  - by rewrite bool_decide_true by (rewrite E; apply elem_of_cons; by left).
  - rewrite IH. f_equal. apply bool_decide_ext. rewrite elem_of_cons. tauto.
Qed.

Lemma long_aliases_nul : Forall (fun s => NUL ∈ s) long_aliases.
Proof. unfold long_aliases. apply Forall_fmap, Forall_true. intros s. cbn. apply elem_of_app. right. by apply list_elem_of_here. Qed.

Definition ptr_size (b : btf) (ts : list rtype) : Z :=
  if b_ptr_sz (own b) =? 0 then
    match bases b with
    | o :: _ => if 0 <? b_ptr_sz o then b_ptr_sz o else default (-1) (first_of (fun _ => is_long b) 1 ts)
    | [] => default (-1) (first_of (fun _ => is_long b) 1 ts)
    end
  else b_ptr_sz (own b).

Lemma long_size_ok b ts (k : nat) r t : btf_ok b ts -> btf__type_by_id b (Z.of_nat k + 1) = Some (Some t) -> is_type t r -> rtype_ok r ->
  long_size b (Z.of_nat k + 1) = Some (is_long b r).
Proof.
  intros Hb E Ht Hr. unfold long_size, is_long. rewrite E. cbn [mbind option_bind]. destruct (is_type_base _ _ Ht) as (-> & -> & ->). cbn [mbind option_bind].
  destruct (bool_decide (btf_kind (r_info r) = KInt)); cbn [negb andb]; [| done].
  destruct (r_size r =? 4), (r_size r =? 8); cbn [negb andb orb]; try done.
  all: destruct (name_by_offset_ok b ts (r_name r) Hb) as (m & -> & -> & Hm); [by apply rtype_words_u32 |]; cbn [mbind option_bind];
    destruct m as [m |]; [| done]; rewrite equal_any_ok by (first [by apply Hm | apply long_aliases_nul]); done.
Qed.

Lemma determine_ptr_size_ok b ts : btf_ok b ts ->
  determine_ptr_size b = Some (match bases b with
    | o :: _ => if 0 <? b_ptr_sz o then b_ptr_sz o else default (-1) (first_of (fun _ => is_long b) 1 ts)
    | [] => default (-1) (first_of (fun _ => is_long b) 1 ts) end).
Proof.
  intros Hb. assert (first_type (long_size b) 1 (Z.to_nat (btf__type_cnt b - 1)) = Some (first_of (fun _ => is_long b) 1 ts)) as E.
  { rewrite (type_cnt_ok b ts Hb). apply (first_type_ok b ts _ (fun _ => is_long b) _ Hb) with (k := O); [| unfold zlen; lia].
    intros k r t _. by apply (long_size_ok b ts). }
  unfold determine_ptr_size. rewrite E. destruct (bases b) as [| o os]; [done |]. by destruct (0 <? b_ptr_sz o).
Qed.

(** The pointer size is found once and then kept; the object stays the same
    otherwise. *)
Lemma cached_ptr_sz_ok b ts : btf_ok b ts -> exists b', cached_ptr_sz b = Some b' /\ b_ptr_sz (own b') = ptr_size b ts /\ btf_ok b' ts.
Proof.
  intros Hb. unfold cached_ptr_sz, ptr_size. destruct (b_ptr_sz (own b) =? 0) eqn:E; [| by exists b].
  rewrite (determine_ptr_size_ok b ts Hb). cbn [mbind option_bind]. eexists. split; [done |]. split; [done |].
  apply (same_core_ok b); [by split | done | done].
Qed.

Definition ptr_size_used (b : btf) (ts : list rtype) : Z := if ptr_size b ts <? 0 then 8 else ptr_size b ts.

Lemma btf_ptr_sz_ok b ts : btf_ok b ts -> exists b', btf_ptr_sz b = Some (ptr_size_used b ts, b') /\ btf_ok b' ts.
Proof.
  intros Hb. unfold btf_ptr_sz, ptr_size_used. destruct (cached_ptr_sz_ok b ts Hb) as (b' & -> & E & Hb'). cbn [mbind option_bind]. exists b'. by rewrite E.
Qed.

(** ** Sizes *)

(** Reference: the element counts of the arrays on the way, from the outside in,
    and the size of what is at the end of the way, which may have up to [n] steps. *)
Fixpoint resolve (n : nat) (ptr : Z) (ts : list rtype) (id : Z) : option (list Z * Z) :=
  match n with
  | O => None
  | S n =>
    r ← get_type ts id;
    match btf_kind (r_info r) with
    | KInt | KStruct | KUnion | KEnum | KEnum64 | KDatasec | KFloat => Some ([], r_size r)
    | KPtr => Some ([], ptr)
    | KTypedef | KVolatile | KConst | KRestrict | KVar | KDeclTag | KTypeTag => resolve n ptr ts (r_size r)
    | KArray =>
      match r_extra r with
      | elem :: _ :: cnt :: _ => '(cs, size) ← resolve n ptr ts elem; Some (cnt :: cs, size)
      | _ => None
      end
    | KUnkn | KFwd | KFunc | KFuncProto | KOther _ => None
    end
  end.

(** The size of nested arrays of [cs] elements of [size], from [acc] on, if none
    of the products on the way is 2^32 or more. *)
Fixpoint bounded_size (acc : Z) (cs : list Z) (size : Z) : option Z :=
  match cs with
  | [] => if acc * size <? 2 ^ 32 then Some (acc * size) else None
  | c :: cs' => if acc * c <? 2 ^ 32 then bounded_size (acc * c) cs' size else None
  end.

Lemma div_overflow acc c : 0 <= acc -> 0 <= c -> c_true acc && (UINT32_MAX / acc <? c) = negb (acc * c <? 2 ^ 32).
Proof.
  intros Ha Hc. unfold c_true, UINT32_MAX. destruct (Z.eqb_spec acc 0) as [-> | Hne]; [done |]. cbn [negb andb].
  destruct (Z.ltb_spec ((2 ^ 32 - 1) / acc) c), (Z.ltb_spec (acc * c) (2 ^ 32)); try done; exfalso.
  - pose proof (Z.mul_succ_div_gt (2 ^ 32 - 1) acc). nia.
  - pose proof (Z.mul_div_le (2 ^ 32 - 1) acc). nia.
Qed.

Lemma array_words t r : is_type t r -> rtype_ok r -> btf_kind (r_info r) = KArray ->
  exists elem index cnt, r_extra r = [elem; index; cnt] /\ t_member t 3 0 0 = Some elem /\ t_member t 3 0 2 = Some cnt /\ is_u32 elem /\ is_u32 cnt.
Proof.
  intros Ht Hr Hk. pose proof (proj2 Hr) as Hx. unfold extra_words in Hx. rewrite Hk in Hx. injection Hx as Hx.
  destruct (r_extra r) as [| elem [| index [| cnt [| z l]]]] eqn:Ee; try done.
  2: { rewrite !zlen_cons in Hx. pose proof (zlen_nonneg l). lia. }
  exists elem, index, cnt. destruct (rtype_ok_parts r Hr) as [_ He]. rewrite Ee, !Forall_cons in He.
  split_and!; try tauto; [apply (Ht 3%nat) | apply (Ht 5%nat)]; unfold r_words; by rewrite Ee.
Qed.

Section Sizes.
Context (b : btf) (ts : list rtype) (Hb : btf_ok b ts).
Let ptr : Z := ptr_size_used b ts.

Lemma type_by_id_void : btf__type_by_id b 0 = Some (Some TVoid).
Proof.
  unfold btf__type_by_id, btf_type_by_id. rewrite (type_cnt_ok b ts Hb). rewrite (proj2 (Z.leb_gt _ _)) by (pose proof (zlen_nonneg ts); lia).
  by destruct (bases b).
Qed.

(** The cases of a number: none, void, or a type of the object. *)
Lemma id_cases id : 0 <= id ->
  (btf__type_by_id b id = Some None /\ get_type ts id = None) \/
  (id = 0 /\ btf__type_by_id b id = Some (Some TVoid)) \/
  (exists m off r, btf__type_by_id b id = Some (Some (TAt m off)) /\ get_type ts id = Some r /\ is_type (TAt m off) r /\ rtype_ok r).
Proof.
  intros Hid. destruct (Z.eq_dec id 0) as [-> | Hne]; [right; left; split; [done | apply type_by_id_void] |].
  destruct (btf__type_by_id_ok b ts id Hb Hid) as [(_ & t & r & E & Eg & Ht & Hv) | (_ & E & Eg)]; [right; right | by left].
  destruct t as [| m off]; [by destruct (Hv Hne) |]. exists m, off, r. split_and!; try done.
  eapply get_type_ok; [| done | done]. apply (chain_types _ _ _ (bo_chain _ _ Hb)).
Qed.

Lemma type_by_id_total id : 0 <= id -> exists t, btf__type_by_id b id = Some t.
Proof. intros H. destruct (id_cases id H) as [[E _] | [[_ E] | (? & ? & ? & E & _)]]; by eexists. Qed.

Definition size_result (acc : Z) (want : option (list Z * Z)) (r : Z + Z * Z * btf) : Prop :=
  match want with
  | Some (cs, size) => 0 <= size /\
    match r with
    | inl err => err = - E2BIG /\ bounded_size acc cs size = None
    | inr (sz, nelems, b') => sz = size /\ btf_ok b' ts /\ 0 <= nelems < 2 ^ 32 /\
        bounded_size acc cs size = if nelems * size <? 2 ^ 32 then Some (nelems * size) else None
    end
  | None => match r with inl err => err = - EINVAL \/ err = - E2BIG | inr (sz, _, b') => sz = -1 /\ b' = b end
  end.

Lemma resolve_loop_ok n : forall id t acc, 0 <= id -> btf__type_by_id b id = Some t -> 0 <= acc < 2 ^ 32 ->
  exists r, resolve_size_loop n b t acc = Some r /\ size_result acc (resolve n ptr ts id) r.
Proof.
  induction n as [| n IH]; intros id t acc Hid E Hacc; [by eexists |]. cbn [resolve_size_loop resolve].
  destruct (id_cases id Hid) as [[E' Eg] | [[-> E'] | (m & off & r & E' & Eg & Ht & Hr)]]; rewrite E' in E; injection E as <-.
  - rewrite Eg. by eexists.
  - by eexists.
  - rewrite Eg. cbn [is_void_or_null]. destruct (is_type_base _ _ Ht) as (_ & Ei & Es). rewrite Ei. cbn [mbind option_bind].
    destruct (rtype_words_u32 r Hr) as [_ Hsz].
    destruct (bool_decide_reflect (btf_kind (r_info r) = KFwd)) as [Hk | Hk]; [rewrite Hk; by eexists |].
    rewrite Ei. cbn [mbind option_bind]. destruct (btf_kind (r_info r)) eqn:Ek; try done.
    all: try (eexists; split; [done |]; by left).
    all: try (rewrite Es; cbn [mbind option_bind]; eexists; split; [done |]; cbn; split_and!; first [done | lia]).
    all: try (destruct (type_by_id_total (r_size r)) as [t' E1]; [lia |]; rewrite Es; cbn [mbind option_bind]; rewrite E1;
      cbn [mbind option_bind]; apply IH; [lia | exact E1 | lia]).
    + destruct (btf_ptr_sz_ok b ts Hb) as (b' & -> & Hb'). cbn [mbind option_bind]. eexists. split; [done |]. cbn.
      split_and!; try done; try lia. unfold ptr, ptr_size_used. destruct (Z.ltb_spec (ptr_size b ts) 0); lia.
    + destruct (array_words _ r Ht Hr Ek) as (elem & index & cnt & Ee & E0 & E2 & He & Hc). rewrite E2, Ee. cbn [mbind option_bind].
      rewrite div_overflow by lia. destruct (Z.ltb_spec (acc * cnt) (2 ^ 32)) as [Hlt | Hge]; cbn [negb].
      * rewrite E0. cbn [mbind option_bind]. rewrite u32_id by nia.
        destruct (type_by_id_total elem) as [t' E1]; [lia |]. rewrite E1. cbn [mbind option_bind]. destruct (IH elem t' (acc * cnt)) as (res & -> & Hres); [lia | exact E1 | nia |]. cbn [mbind option_bind]. exists res. split; [done |].
        destruct (resolve n ptr ts elem) as [[cs size] |]; [| done]. cbn [mbind option_bind]. unfold size_result in *. cbn [bounded_size].
        by rewrite (proj2 (Z.ltb_lt _ _) Hlt).
      * eexists. split; [done |]. destruct (resolve n ptr ts elem) as [[cs size] |] eqn:Er; cbn [mbind option_bind]; [| by right].
        cbn. rewrite (proj2 (Z.ltb_ge _ _) Hge). split; [| done].
        destruct (type_by_id_total elem) as [t' E1]; [lia |]. destruct (IH elem t' 0) as (res & _ & Hres); [lia | exact E1 | lia |]. rewrite Er in Hres. apply Hres.
Qed.

End Sizes.

(** C24: [btf__resolve_size] is right about the size of a type.  For every
    type number of a well-formed object it returns, reading only what is there.
    If typedefs, qualifiers and arrays lead in at most 32 steps to something
    with a size, the result is that size times the numbers of elements on the
    way, provided that neither it nor a product on the way exceeds 32 bits, and
    E2BIG otherwise; if they lead nowhere it is an error. *)
Theorem resolve_size_spec b ts id : btf_ok b ts -> is_u32 id ->
  exists res b', btf__resolve_size b id = Some (res, b') /\ btf_ok b' ts /\
    match resolve MAX_RESOLVE_DEPTH (ptr_size_used b ts) ts id with
    | Some (cs, size) => res = match bounded_size 1 cs size with Some s => s | None => - E2BIG end
    | None => res = - EINVAL \/ res = - E2BIG
    end.
Proof.
  intros Hb Hid. unfold btf__resolve_size. generalize MAX_RESOLVE_DEPTH as n. intros n.
  destruct (type_by_id_total b ts Hb id) as [t Et]; [lia |]. rewrite Et. cbn [mbind option_bind]. destruct (resolve_loop_ok b ts Hb n id t 1) as (r & -> & Hr); [lia | exact Et | lia |].
  cbn [mbind option_bind]. unfold size_result in Hr. destruct (resolve n _ _ _) as [[cs size] |].
  - destruct Hr as [Hs Hr]. destruct r as [err | [[sz nelems] b']].
    + destruct Hr as [-> ->]. by exists (- E2BIG), b.
    + destruct Hr as (-> & Hb' & Hn & ->). do 2 eexists. split; [done |]. split; [done |]. rewrite (proj2 (Z.ltb_ge _ _)) by lia.
      rewrite div_overflow by lia. destruct (nelems * size <? 2 ^ 32); reflexivity.
  - destruct r as [err | [[sz nelems] b']]; [exists err, b; split_and!; [reflexivity | exact Hb | exact Hr] |].
    destruct Hr as [-> ->]. exists (- EINVAL), b. split; [reflexivity |]. split; [exact Hb | left; reflexivity].
Qed.

(** ** Searching by name *)

(** The number of the first type from number [i] on for which [p] holds. *)
Lemma first_of_number (p : rtype -> bool) ts : forall i,
  match first_of (fun j r => if p r then Some (s32 j) else None) i ts with
  | Some a => exists (k : nat) r, ts !! k = Some r /\ p r = true /\ a = s32 (i + Z.of_nat k) /\ forall j r', (j < k)%nat -> ts !! j = Some r' -> p r' = false
  | None => forall (j : nat) r, ts !! j = Some r -> p r = false
  end.
Proof.
  induction ts as [| r ts IH]; intros i; [by intros [| j] |]. cbn [first_of]. destruct (p r) eqn:Ep.
  - exists O, r. split_and!; try done; [f_equal; lia | lia].
  - specialize (IH (i + 1)). destruct (first_of _ _ _) as [a |].
    + destruct IH as (k & r' & Hk & Hp & -> & Hl). exists (S k), r'. split_and!; try done; [f_equal; lia |].
      intros [| j] r'' Hj Hr; [by injection Hr as -> |]. apply (Hl j); [lia | done].
    + intros [| j] r' Hr; [by injection Hr as <- | by apply (IH j)].
Qed.

Definition has_name (b : btf) (name : list byte) (r : rtype) : bool := bool_decide (name_at b (r_name r) = Some name).

Lemma named_ok b ts name tl t r i : btf_ok b ts -> NUL ∉ name -> is_type t r -> rtype_ok r ->
  named b (name ++ NUL :: tl) t i = Some (if has_name b name r then Some (s32 i) else None).
Proof.
  intros Hb Hn Ht Hr. unfold named, has_name. destruct (is_type_base _ _ Ht) as (-> & _ & _). cbn [mbind option_bind].
  destruct (name_by_offset_ok b ts (r_name r) Hb) as (m & -> & -> & Hm); [by apply rtype_words_u32 |]. cbn [mbind option_bind].
  destruct m as [m |]; [| by rewrite bool_decide_false]. rewrite str_equal_cstr; [| set_solver | by apply Hm]. cbn [mbind option_bind fmap option_fmap option_map].
  rewrite cstr_app_nul by done. do 2 f_equal. destruct (bool_decide_reflect (name = cstr m)) as [-> | Hne]; [by rewrite bool_decide_true | by rewrite bool_decide_false by congruence].
Qed.

Lemma str_equal_void name tl : NUL ∉ name -> str_equal (name ++ NUL :: tl) (str "void" ++ [NUL]) = Some (bool_decide (name = str "void")).
Proof. intros Hn. rewrite str_equal_cstr by set_solver. rewrite cstr_app_nul by done. done. Qed.

(** [btf_find_by_name_kind], searching from [start_id] on, returns the number
    of the first type with this kind and name from there, or says that there is none. *)
Theorem find_by_name_kind_spec b ts start name tl k : btf_ok b ts -> zlen ts < 2 ^ 31 - 1 -> 1 <= start <= 1 + zlen ts -> NUL ∉ name ->
  name <> str "void" -> k <> KUnkn ->
  exists res, btf_find_by_name_kind b start (name ++ NUL :: tl) k = Some res /\
    let wanted id := exists r, get_type ts id = Some r /\ btf_kind (r_info r) = k /\ name_at b (r_name r) = Some name in
    ((start <= res <= zlen ts /\ wanted res /\ forall id, start <= id < res -> ~ wanted id) \/
     (res = - ENOENT /\ forall id, start <= id -> ~ wanted id)).
Proof.
  intros Hb Hmax Hstart Hn Hv Hk. unfold btf_find_by_name_kind. rewrite decide_False by done. rewrite str_equal_void by done. cbn [mbind option_bind].
  rewrite bool_decide_false by done. rewrite (type_cnt_ok b ts Hb).
  set (p := fun r => bool_decide (btf_kind (r_info r) = k) && has_name b name r).
  pose proof (first_type_ok b ts (fun i => t ← btf__type_by_id b i; t ← t; info ← t_info t;
      if decide (btf_kind info = k) then named b (name ++ NUL :: tl) t i else Some None)
    (fun j r => if p r then Some (s32 j) else None) (Z.to_nat (1 + zlen ts - start)) Hb) as HF.
  assert (Z.of_nat (Z.to_nat (start - 1)) + 1 = start) as Es by lia.
  specialize (fun H => HF H (Z.to_nat (start - 1)) ltac:(unfold zlen in *; lia)). rewrite Es in HF. rewrite HF.
  2: { intros j r t _ E Ht Hr. rewrite E. cbn [mbind option_bind]. destruct (is_type_base _ _ Ht) as (_ & -> & _). cbn [mbind option_bind]. unfold p.
       destruct (decide (btf_kind (r_info r) = k)); [rewrite bool_decide_true by done; cbn [andb]; by apply (named_ok b ts) | by rewrite bool_decide_false]. }
  cbn [mbind option_bind]. set (k0 := Z.to_nat (start - 1)).
  pose proof (first_of_number p (drop k0 ts) start) as HN.
  assert (forall id, start <= id -> (exists r, get_type ts id = Some r /\ btf_kind (r_info r) = k /\ name_at b (r_name r) = Some name) ->
    exists r, drop k0 ts !! Z.to_nat (id - start) = Some r /\ p r = true) as Hw.
  { intros id Hid (r & Hg & Hk' & Hname). exists r. unfold get_type in Hg. rewrite (proj2 (Z.eqb_neq _ _)), (proj2 (Z.ltb_ge _ _)) in Hg by lia.
    rewrite lookup_drop. split; [rewrite <- Hg; unfold k0; f_equal; lia |]. unfold p, has_name. by rewrite !bool_decide_true. }
  destruct (first_of _ _ _) as [a |].
  - destruct HN as (j & r & Hj & Hp & -> & Hl). rewrite lookup_drop in Hj. apply lookup_lt_Some in Hj as Hlt. unfold k0 in Hlt. rewrite s32_id by (unfold zlen in *; lia).
    exists (start + Z.of_nat j). split; [done |]. left. split; [unfold zlen in *; lia |]. split.
    + exists r. unfold get_type. rewrite (proj2 (Z.eqb_neq _ _)), (proj2 (Z.ltb_ge _ _)) by lia. unfold p, has_name in Hp.
      apply andb_prop in Hp as [?%bool_decide_eq_true ?%bool_decide_eq_true]. split; [rewrite <- Hj; unfold k0; f_equal; lia | done].
    + intros id Hid Hwant. destruct (Hw id ltac:(lia) Hwant) as (r' & Hr' & Hp'). rewrite (Hl (Z.to_nat (id - start)) r') in Hp'; [done | lia | done].
  - eexists. split; [done |]. right. split; [done |]. intros id Hid Hwant. destruct (Hw id Hid Hwant) as (r' & Hr' & Hp'). by rewrite (HN _ _ Hr') in Hp'.
Qed.

(** ** Alignment *)

(** The types whose alignment the alignment of a type is made of. *)
Definition align_refs (r : rtype) : list Z :=
  match btf_kind (r_info r) with
  | KTypedef | KVolatile | KConst | KRestrict | KTypeTag => [r_size r]
  | KArray => take 1 (r_extra r)
  | KStruct | KUnion => column 3 1 (Z.to_nat (btf_vlen (r_info r))) (r_extra r)
  | _ => []
  end.

Section Align.
Context (b : btf) (ts : list rtype) (ptr_sz : Z) (Hb : btf_ok b ts).

Lemma align_members_total (f : Z -> option Z) t r n : is_type t r -> rtype_ok r ->
  forall max_align (i : nat), (3 * (i + n) <= length (r_extra r))%nat ->
  (forall (j : nat), (i <= j < i + n)%nat -> is_Some (f (default 0 (r_extra r !! (3 * j + 1)%nat)))) ->
  is_Some (align_members f t (r_info r) max_align (Z.of_nat i) n).
Proof.
  intros Ht Hr. induction n as [| n IH]; intros max_align i Hl Hf; [by eexists |]. cbn [align_members].
  destruct (member_word t r Ht Hr 3 i 1) as [E1 _]; [lia |]. destruct (member_word t r Ht Hr 3 i 2) as [E2 _]; [lia |].
  change (Z.of_nat 3) with 3 in E1, E2. change (Z.of_nat 1) with 1 in E1. change (Z.of_nat 2) with 2 in E2. rewrite E1. cbn [mbind option_bind].
  destruct (Hf i ltac:(lia)) as [align ->]. cbn [mbind option_bind]. destruct (align <=? 0); [by eexists |]. rewrite E2. cbn [mbind option_bind].
  destruct (_ && _); [by eexists |]. replace (Z.of_nat i + 1) with (Z.of_nat (S i)) by lia. apply IH; [lia |]. intros j Hj. apply Hf. lia.
Qed.
Lemma align_composite (f : Z -> option Z) t r : is_type t r -> rtype_ok r -> btf_kind (r_info r) = KStruct \/ btf_kind (r_info r) = KUnion ->
  (forall id', id' ∈ column 3 1 (Z.to_nat (btf_vlen (r_info r))) (r_extra r) -> is_Some (f id')) ->
  is_Some (r' ← align_members f t (r_info r) 1 0 (Z.to_nat (btf_vlen (r_info r)));
    match r' with inl align => Some align | inr max_align => size ← t_size t; Some (if c_true (size mod max_align) then 1 else max_align) end).
Proof.
  intros Ht Hr Hk Hf. assert (length (r_extra r) = (3 * Z.to_nat (btf_vlen (r_info r)))%nat) as Hl.
  { apply extra_length; [done |]. unfold extra_words. by destruct Hk as [-> | ->]. }
  destruct (align_members_total f t r (Z.to_nat (btf_vlen (r_info r))) Ht Hr 1 O) as [r' E]; [lia | |].
  { intros j Hj. apply Hf. unfold column. apply list_elem_of_fmap. exists j. split; [done |]. apply elem_of_seq. lia. }
  change (Z.of_nat 0) with 0 in E. rewrite E. cbn [mbind option_bind]. destruct r'; [by eexists |].
  destruct (is_type_base _ _ Ht) as (_ & _ & ->). by eexists.
Qed.

(** The alignment of a type is found in as many steps as the nesting is deep. *)
Lemma align_of_terminates (rank : Z -> nat) :
  (forall id r id', get_type ts id = Some r -> id' ∈ align_refs r -> 0 <= id' <= zlen ts /\ (rank id' < rank id)%nat) ->
  forall fuel id, 0 <= id <= zlen ts -> (rank id < fuel)%nat -> is_Some (align_of fuel ptr_sz b id).
Proof.
  intros Hrank. induction fuel as [| fuel IH]; intros id Hid Hf; [lia |]. cbn [align_of].
  destruct (id_cases b ts Hb id) as [[_ Eg] | [[-> E] | (m & off & r & E & Eg & Ht & Hr)]]; [lia | | |].
  { unfold get_type in Eg. destruct (Z.eqb_spec id 0); [done |]. rewrite (proj2 (Z.ltb_ge _ _)) in Eg by lia.
    apply lookup_ge_None in Eg. unfold zlen in Hid. lia. }
  { rewrite E. by eexists. }
  rewrite E. cbn [mbind option_bind]. destruct (is_type_base _ _ Ht) as (_ & -> & Es). cbn [mbind option_bind].
  assert (forall id', id' ∈ align_refs r -> is_Some (align_of fuel ptr_sz b id')) as Hsub.
  { intros id' Hin. destruct (Hrank id r id' Eg Hin). apply IH; [done | lia]. }
  unfold align_refs in Hsub. destruct (btf_kind (r_info r)) eqn:Ek; try (by eexists); try (rewrite Es; cbn [mbind option_bind]; first [by eexists | apply Hsub; set_solver]).
  - destruct (array_words _ r Ht Hr Ek) as (elem & index & cnt & Ee & -> & _). cbn [mbind option_bind]. apply Hsub. rewrite Ee. set_solver.
  - apply align_composite; [done | done | by left | exact Hsub].
  - apply align_composite; [done | done | by right | exact Hsub].
Qed.

End Align.

(** A struct that has itself as a member is accepted by the parser, since only
    the existence of referenced types is checked, and [btf__align_of] calls itself
    without end on it. *)
Definition self_struct : rtype := {| r_name := 0; r_info := 4 * 2 ^ 24 + 1; r_size := 4; r_extra := [0; 1; 0] |}.
Definition memory : new_env := {| ne_btf := true; ne_raw := true; ne_realloc := fun _ => true |}.

Lemma align_self b : btf_ok b [self_struct] -> forall fuel ptr_sz, align_of fuel ptr_sz b 1 = None.
Proof.
  intros Hb fuel ptr_sz. induction fuel as [| fuel IH]; [done |]. cbn [align_of].
  destruct (query_type b [self_struct] 0 self_struct Hb eq_refl) as (t & E & Ht & Hr). change (Z.of_nat 0 + 1) with 1 in E. rewrite E. cbn [mbind option_bind].
  destruct (is_type_base _ _ Ht) as (_ & -> & _). cbn [mbind option_bind].
  change (btf_kind (r_info self_struct)) with KStruct. cbv iota. change (Z.to_nat (btf_vlen (r_info self_struct))) with 1%nat. cbn [align_members].
  destruct (member_word t self_struct Ht Hr 3 0 1) as [E1 _]; [simpl; lia |]. change (t_member t 3 0 1 = Some 1) in E1. rewrite E1. cbn [mbind option_bind].
  by rewrite IH.
Qed.

Theorem align_of_unbounded : exists b, btf__new memory (image false [self_struct] [NUL]) 49 = Some (inr b) /\
  forall fuel, btf__align_of fuel b 1 = None.
Proof.
  destruct (btf_new_image memory false [self_struct] [NUL]) as (r & Er & Hr); [| done .. |].
  { apply Forall_singleton. split; [| done]. change (Forall (fun w => is_u32 w) [0; 67108865; 4; 0; 1; 0]). by rewrite !Forall_cons, Forall_nil. }
  change (zlen (image false [self_struct] [NUL])) with 49 in Er. unfold btf__new. rewrite Er.
  destruct Hr as [[-> _] | (b & -> & Hb & _)]; [vm_compute in Er; discriminate |]. exists b. split; [done |]. intros fuel.
  unfold btf__align_of. destruct (btf_ptr_sz_ok b _ Hb) as (b' & -> & Hb'). cbn [mbind option_bind]. by apply align_self.
Qed.

(** The typedef of [sample_types] is an array of ten pointers of eight bytes. *)
Lemma resolve_size_spec_witness : exists b, btf__new sample_env (image false sample_types sample_strs) 121 = Some (inr b) /\
  exists res b', btf__resolve_size b 4 = Some (res, b') /\ btf_ok b' sample_types /\
    match resolve MAX_RESOLVE_DEPTH (ptr_size_used b sample_types) sample_types 4 with
    | Some (cs, size) => res = match bounded_size 1 cs size with Some s => s | None => - E2BIG end
    | None => res = - EINVAL \/ res = - E2BIG
    end.
Proof.
  destruct (btf_new_image sample_env false sample_types sample_strs sample_types_ok eq_refl eq_refl eq_refl) as (r & Er & Hr).
  change (zlen (image false sample_types sample_strs)) with 121 in Er. unfold btf__new. rewrite Er.
  destruct Hr as [[-> _] | (b & -> & Hb & _)]; [vm_compute in Er; discriminate |]. exists b. split; [reflexivity |].
  apply resolve_size_spec; [exact Hb | lia].
Defined.
