(* ===== verification/BtfAdd.v ===== *)
(** Building BTF: the functions of src/lib/libbpf/src/btf.c that add strings and
    types to an object.

    An object that is changed for the first time is taken apart: the header and
    the types are copied to memory of their own, and the strings go to a set.
    Every allocation may fail. *)
From S2P Require Import Prelude.
From S2P Require Import CLib.
From S2P Require Import Hashmap.
From S2P Require Import Strset.
From S2P Require Import Btf.
From coqutil Require Import Datatypes.RecordSetters.
Import DoubleBraceUpdate.

(** ** Making an object modifiable *)

(** What the allocator answers: for the copies of header and types, for the
    set with its map, its data and its entries, for the entry of a new string, and
    for arrays of a size. *)
Record add_env := {
  ae_hdr : bool;
  ae_types : bool;
  ae_set : bool;
  ae_map : bool;
  ae_data : bool;
  ae_entries : Z -> bool;
  ae_entry : bool;
  ae_calloc : Z -> bool;
  ae_realloc : Z -> bool
}.

Definition btf_invalidate_raw_data (o : btf_own) : btf_own := o {{ b_raw := None; b_raw_swapped := None }}.

(** [based] tells whether there is a base.  The copy of the header has
    [hdr_len] bytes and is read as a struct. *)
Definition btf_ensure_modifiable (e : add_env) (based : bool) (o : btf_own) : option (Z * btf_own) :=
  if b_modifiable o then Some (0, btf_invalidate_raw_data o) else
  let h := b_hdr o in
  if negb (ae_hdr e && ae_types e) then Some (- ENOMEM, o) else
  types ← bytes_at (b_types o) 0 (Z.to_nat (type_len h));
  set ← strset__new (ae_calloc e) (ae_set e) (ae_map e) (ae_data e) (ae_entries e) BTF_MAX_STR_OFFSET (Some (b_strs o, str_len h));
  match set with
  | inl err => Some (err, o)
  | inr set =>
    if hdr_len h <? SIZEOF_HEADER then None else
    let deduped := b_deduped o || (str_len h =? 0) || (negb based && (str_len h =? 1)) in
    Some (0, btf_invalidate_raw_data (o {{ b_modifiable := true; b_types := types; b_types_cap := type_len h; b_strs := [];
                                           b_set := Some set; b_deduped := deduped }}))
  end.

(** ** Strings *)

(** The sum of two [int]s, which must not overflow. *)
Definition int_add (x y : Z) : option Z := if (- 2 ^ 31 <=? x + y) && (x + y <? 2 ^ 31) then Some (x + y) else None.

Definition has_base (os : list btf_own) : bool := match os with [] => false | _ => true end.

(** The parts of [btf__find_str] and [btf__add_str] behind the base. *)
Definition own_find_str (e : add_env) (based : bool) (o : btf_own) (s : list byte) : option (Z * btf_own) :=
  '(err, o) ← btf_ensure_modifiable e based o;
  if c_true err then Some (- ENOMEM, o) else
  set ← b_set o;
  '(off, set) ← strset__find_str (ae_realloc e) set s;
  let o := o {{ b_set := Some set }} in
  if off <? 0 then Some (off, o) else
  off ← int_add (b_start_str_off o) off;
  Some (off, o).

Definition set_str_len (h : btf_header) (n : Z) : btf_header := h {{ str_len := u32 n }}.

Definition own_add_str (e : add_env) (based : bool) (o : btf_own) (s : list byte) : option (Z * btf_own) :=
  '(err, o) ← btf_ensure_modifiable e based o;
  if c_true err then Some (- ENOMEM, o) else
  set ← b_set o;
  '(off, set) ← strset__add_str (ae_calloc e) (ae_realloc e) (ae_entry e) set s;
  let o := o {{ b_set := Some set }} in
  if off <? 0 then Some (off, o) else
  let o := o {{ b_hdr := set_str_len (b_hdr o) (strset__data_size set) }} in
  off ← int_add (b_start_str_off o) off;
  Some (off, o).

(** [e] answers for the object at each depth of the chain. *)
Fixpoint find_str (e : nat -> add_env) (d : nat) (o : btf_own) (os : list btf_own) (s : list byte) :
    option (Z * btf_own * list btf_own) :=
  '(off, os) ← match os with
               | [] => Some (- ENOENT, [])
               | o' :: os' => '(off, o', os') ← find_str e (S d) o' os' s; Some (off, o' :: os')
               end;
  if negb (off =? - ENOENT) then Some (off, o, os) else
  '(off, o) ← own_find_str (e d) (has_base os) o s;
  Some (off, o, os).

Definition btf__find_str (e : nat -> add_env) (b : btf) (s : list byte) : option (Z * btf) :=
  '(off, o, os) ← find_str e 0 (own b) (bases b) s; Some (off, {| own := o; bases := os |}).

Definition btf__add_str (e : nat -> add_env) (b : btf) (s : list byte) : option (Z * btf) :=
  '(off, os) ← match bases b with
               | [] => Some (- ENOENT, [])
               | o' :: os' => '(off, o', os') ← find_str e 1 o' os' s; Some (off, o' :: os')
               end;
  if negb (off =? - ENOENT) then Some (off, {| own := own b; bases := os |}) else
  '(off, o) ← own_add_str (e 0%nat) (has_base os) (own b) s;
  Some (off, {| own := o; bases := os |}).

(** ** Functions that change an object and may return early

    [inl] is a value returned early; [None] is undefined behaviour. *)

Definition act (A : Type) : Type := btf -> option ((Z + A) * btf).

Definition ret {A} (a : A) : act A := fun b => Some (inr a, b).
Definition leave {A} (z : Z) : act A := fun b => Some (inl z, b).
Definition bind {A B} (m : act A) (f : A -> act B) : act B :=
  fun b => match m b with Some (inr a, b') => f a b' | Some (inl z, b') => Some (inl z, b') | None => None end.

Declare Scope btf_scope.
Delimit Scope btf_scope with btf.
Notation "x <- m ;; k" := (bind m (fun x => k)) (at level 100, m at next level, right associativity) : btf_scope.
Notation "m ;; k" := (bind m (fun _ => k)) (at level 100, right associativity) : btf_scope.
#[local] Open Scope btf_scope.

(** The value a function returns. *)
Definition call (m : act Z) (b : btf) : option (Z * btf) :=
  match m b with Some (inl z, b') | Some (inr z, b') => Some (z, b') | None => None end.

Definition require (c : bool) (err : Z) : act unit := if c then ret tt else leave err.
Definition ask {A} (f : btf -> option A) : act A := fun b => a ← f b; Some (inr a, b).
Definition change_own (f : btf_own -> option btf_own) : act unit := fun b => o ← f (own b); Some (inr tt, b {{ own := o }}).

(** ** Memory for a type *)

Definition btf_add_type_mem (e : add_env) (b : btf_own) (add_sz : Z) : option (Z * list byte * Z) :=
  libbpf_add_mem (ae_realloc e) (b_types b) (b_types_cap b) 1 (type_len (b_hdr b)) UINT32_MAX add_sz.

(** What every function begins with: the object is made modifiable,
    and the position of [sz] new bytes. *)
Definition make_modifiable (e : nat -> add_env) : act unit := fun b =>
  '(err, o) ← btf_ensure_modifiable (e 0%nat) (has_base (bases b)) (own b);
  let b := b {{ own := o }} in
  if c_true err then leave (- ENOMEM) b else ret tt b.

Definition type_mem (e : nat -> add_env) (sz : Z) : act Z := fun b =>
  match btf_add_type_mem (e 0%nat) (own b) sz with
  | None => leave (- ENOMEM) b
  | Some (p, data, cap) => ret p (b {{ own := (own b) {{ b_types := data; b_types_cap := cap }} }})
  end.

Definition new_mem (e : nat -> add_env) (sz : Z) : act Z := make_modifiable e ;; type_mem e sz.

Fixpoint store_words (m : list byte) (p : Z) (ws : list Z) : option (list byte) :=
  match ws with [] => Some m | w :: ws' => m ← store m p (le_split 4 w); store_words m (p + 4) ws' end.

(** Assigning consecutive 32-bit fields. *)
Definition put (p : Z) (ws : list Z) : act unit :=
  change_own (fun o => m ← store_words (b_types o) p ws; Some (o {{ b_types := m }})).

Definition grow_types (h : btf_header) (sz : Z) : btf_header :=
  h {{ type_len := u32 (type_len h + sz); str_off := u32 (str_off h + sz) }}.

Definition btf_commit_type (e : nat -> add_env) (data_sz : Z) : act Z := fun b =>
  '(err, o) ← btf_add_type_idx_entry (ae_realloc (e 0%nat)) (own b) (type_len (b_hdr (own b)));
  let b := b {{ own := o }} in
  if c_true err then leave err b else
  let o := o {{ b_hdr := grow_types (b_hdr o) data_sz; b_nr_types := u32 (b_nr_types o + 1) }} in
  ret (s32 (b_start_id o + b_nr_types o - 1)) (b {{ own := o }}).

(** What the functions that add to the last type end with. *)
Definition commit_member (sz : Z) : act Z :=
  change_own (fun o => Some (o {{ b_hdr := grow_types (b_hdr o) sz }})) ;; ret 0.

(** ** Names

    A name is NULL or memory with a terminated string. *)

Definition has_name (name : option (list byte)) : option bool :=
  match name with None => Some false | Some s => c ← load8 s 0; Some (c_true c) end.

Definition need_name (name : option (list byte)) : act unit :=
  given <- ask (fun _ => has_name name) ;; require given (- EINVAL).

Definition add_name (e : nat -> add_env) (name : option (list byte)) : act Z := fun b =>
  s ← name;
  '(off, b) ← btf__add_str e b s;
  if off <? 0 then leave off b else ret off b.

Definition opt_name (e : nat -> add_env) (name : option (list byte)) : act Z :=
  given <- ask (fun _ => has_name name) ;; if given : bool then add_name e name else ret 0.

(** ** Adding types *)

Definition kind_nr (k : kind) : Z :=
  match k with
  | KUnkn => 0 | KInt => 1 | KPtr => 2 | KArray => 3 | KStruct => 4 | KUnion => 5 | KEnum => 6 | KFwd => 7 | KTypedef => 8
  | KVolatile => 9 | KConst => 10 | KRestrict => 11 | KFunc => 12 | KFuncProto => 13 | KVar => 14 | KDatasec => 15 | KFloat => 16
  | KDeclTag => 17 | KTypeTag => 18 | KEnum64 => 19 | KOther k => k
  end.

Definition btf_type_info (kind vlen : Z) (kflag : bool) : Z :=
  u32 (Z.lor (Z.lor (Z.shiftl (c_bool kflag) 31) (Z.shiftl kind 24)) vlen).

Definition new_info (k : kind) (vlen : Z) (kflag : bool) : Z := btf_type_info (kind_nr k) vlen kflag.

Definition power_of_2_upto (n max : Z) : bool := c_true n && (Z.land n (n - 1) =? 0) && (n <=? max).

Definition btf__add_int (e : nat -> add_env) (name : option (list byte)) (byte_sz encoding : Z) : act Z :=
  need_name name ;;
  require (power_of_2_upto byte_sz 16) (- EINVAL) ;;
  require (Z.land encoding (Z.lnot 7) =? 0) (- EINVAL) ;;
  t <- new_mem e 16 ;;
  name_off <- add_name e name ;;
  put t [name_off; new_info KInt 0 false; byte_sz; Z.lor (Z.shiftl encoding 24) (byte_sz * 8)] ;;
  btf_commit_type e 16.

Definition btf__add_float (e : nat -> add_env) (name : option (list byte)) (byte_sz : Z) : act Z :=
  need_name name ;;
  require (existsb (Z.eqb byte_sz) [2; 4; 8; 12; 16]) (- EINVAL) ;;
  t <- new_mem e 12 ;;
  name_off <- add_name e name ;;
  put t [name_off; new_info KFloat 0 false; byte_sz] ;;
  btf_commit_type e 12.

Definition validate_type_id (id : Z) : bool := negb ((id <? 0) || (BTF_MAX_NR_TYPES <? id)).

Definition btf_add_ref_kind (e : nat -> add_env) (k : kind) (name : option (list byte)) (ref_type_id : Z) : act Z :=
  require (validate_type_id ref_type_id) (- EINVAL) ;;
  t <- new_mem e 12 ;;
  name_off <- opt_name e name ;;
  put t [name_off; new_info k 0 false; ref_type_id] ;;
  btf_commit_type e 12.

Definition btf__add_ptr (e : nat -> add_env) (ref_type_id : Z) : act Z := btf_add_ref_kind e KPtr None ref_type_id.

Definition btf__add_array (e : nat -> add_env) (index_type_id elem_type_id nr_elems : Z) : act Z :=
  require (validate_type_id index_type_id && validate_type_id elem_type_id) (- EINVAL) ;;
  t <- new_mem e 24 ;;
  put t [0; new_info KArray 0 false; 0] ;;
  put (t + 12) [elem_type_id; index_type_id; nr_elems] ;;
  btf_commit_type e 24.

Definition btf_add_composite (e : nat -> add_env) (k : kind) (name : option (list byte)) (bytes_sz : Z) : act Z :=
  t <- new_mem e 12 ;;
  name_off <- opt_name e name ;;
  put t [name_off; new_info k 0 false; bytes_sz] ;;
  btf_commit_type e 12.

Definition btf__add_struct (e : nat -> add_env) (name : option (list byte)) (byte_sz : Z) : act Z :=
  btf_add_composite e KStruct name byte_sz.
Definition btf__add_union (e : nat -> add_env) (name : option (list byte)) (byte_sz : Z) : act Z :=
  btf_add_composite e KUnion name byte_sz.

(** A type of the object itself, as a position in its types. *)
Definition own_type_at (b : btf) (id : Z) : option Z :=
  t ← btf_type_by_id b id; match t with TAt _ off => Some off | TVoid => None end.

Definition btf_last_type (b : btf) : option Z := own_type_at b (u32 (btf__type_cnt b - 1)).

Definition info_at (b : btf) (t : Z) : option Z := load32 (b_types (own b)) (t + 4).

Definition last_info (b : btf) : option Z := t ← btf_last_type b; info_at b t.

(** The last type must be of one of the kinds; its information. *)
Definition need_last (ks : list kind) : act Z :=
  n <- ask (fun b => Some (b_nr_types (own b))) ;;
  require (c_true n) (- EINVAL) ;;
  info <- ask last_info ;;
  require (bool_decide (btf_kind info ∈ ks)) (- EINVAL) ;;
  ret info.

(** Assigning the information of the last type. *)
Definition set_last_info (f : Z -> Z) : act unit :=
  t <- ask btf_last_type ;;
  info <- ask (fun b => info_at b t) ;;
  put (t + 4) [f info].

(** BTF_INFO_KIND *)
Definition kind_bits (info : Z) : Z := Z.land (Z.shiftr info 24) 0x1f.

Definition btf_type_inc_vlen (info : Z) : Z := btf_type_info (kind_bits info) (btf_vlen info + 1) (btf_kflag info).

Definition btf__add_field (e : nat -> add_env) (name : option (list byte)) (type_id bit_offset bit_size : Z) : act Z :=
  info <- need_last [KStruct; KUnion] ;;
  require (validate_type_id type_id) (- EINVAL) ;;
  let is_bitfield := c_true bit_size || c_true (bit_offset mod 8) in
  require (negb (is_bitfield && ((bit_size =? 0) || (255 <? bit_size) || (0xffffff <? bit_offset)))) (- EINVAL) ;;
  require (negb (bool_decide (btf_kind info = KUnion) && c_true bit_offset)) (- EINVAL) ;;
  m <- new_mem e 12 ;;
  name_off <- opt_name e name ;;
  put m [name_off; type_id; u32 (Z.lor bit_offset (Z.shiftl bit_size 24))] ;;
  set_last_info (fun info => btf_type_info (kind_bits info) (btf_vlen info + 1) (is_bitfield || btf_kflag info)) ;;
  commit_member 12.

Definition btf_add_enum_common (e : nat -> add_env) (name : option (list byte)) (byte_sz : Z) (is_signed : bool) (k : kind) : act Z :=
  require (power_of_2_upto byte_sz 8) (- EINVAL) ;;
  t <- new_mem e 12 ;;
  name_off <- opt_name e name ;;
  put t [name_off; new_info k 0 is_signed; byte_sz] ;;
  btf_commit_type e 12.

Definition btf__add_enum (e : nat -> add_env) (name : option (list byte)) (byte_sz : Z) : act Z :=
  btf_add_enum_common e name byte_sz false KEnum.

Definition INT_MIN : Z := - 2 ^ 31.
Definition E2BIG : Z := 7.

Definition btf__add_enum_value (e : nat -> add_env) (name : option (list byte)) (value : Z) : act Z :=
  need_last [KEnum] ;;
  need_name name ;;
  require (negb ((value <? INT_MIN) || (UINT32_MAX <? value))) (- E2BIG) ;;
  v <- new_mem e 8 ;;
  name_off <- add_name e name ;;
  put v [name_off; u32 value] ;;
  set_last_info btf_type_inc_vlen ;;
  (if value <? 0 then set_last_info (fun info => btf_type_info (kind_bits info) (btf_vlen info) true) else ret tt) ;;
  commit_member 8.

Definition btf__add_enum64 (e : nat -> add_env) (name : option (list byte)) (byte_sz : Z) (is_signed : bool) : act Z :=
  btf_add_enum_common e name byte_sz is_signed KEnum64.

Definition btf__add_enum64_value (e : nat -> add_env) (name : option (list byte)) (value : Z) : act Z :=
  need_last [KEnum64] ;;
  need_name name ;;
  v <- new_mem e 12 ;;
  name_off <- add_name e name ;;
  put v [name_off; u32 value; u32 (Z.shiftr value 32)] ;;
  set_last_info btf_type_inc_vlen ;;
  commit_member 12.

Inductive btf_fwd_kind := BTF_FWD_STRUCT | BTF_FWD_UNION | BTF_FWD_ENUM | BTF_FWD_OTHER.

Definition set_info (id info : Z) : act unit := t <- ask (fun b => own_type_at b id) ;; put (t + 4) [info].

Definition btf__add_fwd (e : nat -> add_env) (name : option (list byte)) (fwd_kind : btf_fwd_kind) : act Z :=
  need_name name ;;
  let declare (union : bool) :=
    id <- btf_add_ref_kind e KFwd name 0 ;;
    if id <=? 0 then leave id else
    set_info id (new_info KFwd 0 union) ;;
    ret id in
  match fwd_kind with
  | BTF_FWD_STRUCT => declare false
  | BTF_FWD_UNION => declare true
  | BTF_FWD_ENUM => btf__add_enum e name 4
  | BTF_FWD_OTHER => leave (- EINVAL)
  end.

Definition btf__add_typedef (e : nat -> add_env) (name : option (list byte)) (ref_type_id : Z) : act Z :=
  need_name name ;; btf_add_ref_kind e KTypedef name ref_type_id.
Definition btf__add_volatile (e : nat -> add_env) (ref_type_id : Z) : act Z := btf_add_ref_kind e KVolatile None ref_type_id.
Definition btf__add_const (e : nat -> add_env) (ref_type_id : Z) : act Z := btf_add_ref_kind e KConst None ref_type_id.
Definition btf__add_restrict (e : nat -> add_env) (ref_type_id : Z) : act Z := btf_add_ref_kind e KRestrict None ref_type_id.
Definition btf__add_type_tag (e : nat -> add_env) (value : option (list byte)) (ref_type_id : Z) : act Z :=
  need_name value ;; btf_add_ref_kind e KTypeTag value ref_type_id.

(** BTF_FUNC_STATIC, BTF_FUNC_GLOBAL, BTF_FUNC_EXTERN; BTF_VAR_STATIC,
    BTF_VAR_GLOBAL_ALLOCATED, BTF_VAR_GLOBAL_EXTERN *)
Definition is_linkage (linkage : Z) : bool := (linkage =? 0) || (linkage =? 1) || (linkage =? 2).

Definition btf__add_func (e : nat -> add_env) (name : option (list byte)) (linkage proto_type_id : Z) : act Z :=
  need_name name ;;
  require (is_linkage linkage) (- EINVAL) ;;
  id <- btf_add_ref_kind e KFunc name proto_type_id ;;
  (if 0 <? id then set_info id (new_info KFunc linkage false) else ret tt) ;;
  ret id.

Definition btf__add_func_proto (e : nat -> add_env) (ret_type_id : Z) : act Z :=
  require (validate_type_id ret_type_id) (- EINVAL) ;;
  t <- new_mem e 12 ;;
  put t [0; new_info KFuncProto 0 false; ret_type_id] ;;
  btf_commit_type e 12.

Definition btf__add_func_param (e : nat -> add_env) (name : option (list byte)) (type_id : Z) : act Z :=
  require (validate_type_id type_id) (- EINVAL) ;;
  need_last [KFuncProto] ;;
  p <- new_mem e 8 ;;
  name_off <- opt_name e name ;;
  put p [name_off; type_id] ;;
  set_last_info btf_type_inc_vlen ;;
  commit_member 8.

Definition btf__add_var (e : nat -> add_env) (name : option (list byte)) (linkage type_id : Z) : act Z :=
  need_name name ;;
  require (is_linkage linkage) (- EINVAL) ;;
  require (validate_type_id type_id) (- EINVAL) ;;
  t <- new_mem e 16 ;;
  name_off <- add_name e name ;;
  put t [name_off; new_info KVar 0 false; type_id] ;;
  put (t + 12) [linkage] ;;
  btf_commit_type e 16.

Definition btf__add_datasec (e : nat -> add_env) (name : option (list byte)) (byte_sz : Z) : act Z :=
  need_name name ;;
  t <- new_mem e 12 ;;
  name_off <- add_name e name ;;
  put t [name_off; new_info KDatasec 0 false; byte_sz] ;;
  btf_commit_type e 12.

Definition btf__add_datasec_var_info (e : nat -> add_env) (var_type_id offset byte_sz : Z) : act Z :=
  need_last [KDatasec] ;;
  require (validate_type_id var_type_id) (- EINVAL) ;;
  v <- new_mem e 12 ;;
  put v [var_type_id; offset; byte_sz] ;;
  set_last_info btf_type_inc_vlen ;;
  commit_member 12.

Definition btf__add_decl_tag (e : nat -> add_env) (value : option (list byte)) (ref_type_id component_idx : Z) : act Z :=
  need_name value ;;
  require (negb (component_idx <? -1)) (- EINVAL) ;;
  require (validate_type_id ref_type_id) (- EINVAL) ;;
  t <- new_mem e 16 ;;
  value_off <- add_name e value ;;
  put t [value_off; new_info KDeclTag 0 false; ref_type_id] ;;
  put (t + 12) [u32 component_idx] ;;
  btf_commit_type e 16.

(** ** New objects *)

(** The header of an object without types; a base has the empty string. *)
Definition empty_header (based : bool) : btf_header :=
  {| magic := BTF_MAGIC; version := 1; flags := 0; hdr_len := SIZEOF_HEADER; type_off := 0; type_len := 0; str_off := 0;
     str_len := if based then 0 else 1 |}.

(** [alloc] answers for the object and for its data. *)
Definition btf_new_empty (alloc : bool * bool) (base : option btf) : Z + btf :=
  if negb (fst alloc && snd alloc) then inl (- ENOMEM) else
  let based := match base with Some _ => true | None => false end in
  let strs := if based then [] else [NUL] in
  let b := btf_blank base in
  inr (b {{ own := (own b) {{ b_raw := Some (header_bytes (empty_header based) ++ strs); b_raw_size := SIZEOF_HEADER + zlen strs;
                              b_hdr := empty_header based; b_strs := strs; b_ptr_sz := 8 }} }}).

Definition btf__new_empty (alloc : bool * bool) : Z + btf := btf_new_empty alloc None.
Definition btf__new_empty_split (alloc : bool * bool) (base : btf) : Z + btf := btf_new_empty alloc (Some base).
