(* ===== verification/BtfBuild.v ===== *)
(** Building BTF with the functions of BtfAdd.v.

    An object stands for a list of declarations in which names are strings.
    Each call adds a declaration, or a member to the last one, or changes nothing. *)
From S2P Require Import Prelude.
From S2P Require Import CLib.
From S2P Require Import Hashmap.
From S2P Require Import Strset.
From S2P Require Import Btf.
From S2P Require Import BtfParse.
From S2P Require Import BtfQuery.
From S2P Require Import BtfAdd.
From coqutil Require Import Datatypes.RecordSetters.
Import DoubleBraceUpdate.

(** ** Sections of strings *)

(** A section is empty or ends with a terminator. *)
Definition terminated (m : list byte) : Prop := m = [] \/ last m = Some NUL.

Lemma terminated_nul m (k : nat) : terminated m -> (k < length m)%nat -> NUL ∈ drop k m.
Proof.
  intros [-> | Hl] Hk; [simpl in Hk; lia |]. apply (list_elem_of_lookup_2 _ (length m - 1 - k)). rewrite lookup_drop.
  rewrite last_lookup in Hl. rewrite <- Hl. f_equal. lia.
Qed.

Lemma terminated_app m m' : terminated m -> terminated m' -> terminated (m ++ m').
Proof.
  intros Hm [-> | Hl]; [by rewrite app_nil_r |]. right. rewrite last_app, Hl. done.
Qed.

Lemma terminated_render m : terminated m -> exists ss, m = render ss /\ Forall (fun s => NUL ∉ s) ss.
Proof.
  intros [-> | Hl]; [by exists [] |]. cut (forall s, NUL ∉ s -> exists ss, s ++ m = render ss /\ Forall (fun s => NUL ∉ s) ss).
  { intros H. apply (H []). set_solver. }
  induction m as [| x m IH]; [done |]. intros s Hs. destruct (decide (x = NUL)) as [-> | Hx].
  - destruct m as [| y m']; [exists [s]; split; [by rewrite render_cons | by constructor] |].
    destruct (IH Hl []) as (ss & E & HF); [set_solver |]. exists (s :: ss). rewrite render_cons, <- E. split; [done | by constructor].
  - destruct m as [| y m']; [by injection Hl as -> |]. destruct (IH Hl (s ++ [x])) as (ss & E & HF); [set_solver |].
    exists ss. split; [| done]. rewrite <- E. by rewrite <- app_assoc.
Qed.

(** The string at an offset of a section. *)
Definition string_at (m : list byte) (off : Z) : option (list byte) :=
  if (0 <=? off) && (off <? zlen m) then Some (cstr (drop (Z.to_nat off) m)) else None.

Lemma string_at_range m off s : string_at m off = Some s -> 0 <= off < zlen m.
Proof. unfold string_at. destruct (Z.leb_spec 0 off), (Z.ltb_spec off (zlen m)); done. Qed.

Lemma string_at_app m m' off s : terminated m -> string_at m off = Some s -> string_at (m ++ m') off = Some s.
Proof.
  intros Hm. unfold string_at. destruct (Z.leb_spec 0 off); [| done]. destruct (Z.ltb_spec off (zlen m)) as [Hlt | Hlt]; [| done]. cbn [andb].
  rewrite (proj2 (Z.ltb_lt _ _)) by (rewrite zlen_app; pose proof (zlen_nonneg m'); lia). intros [= <-]. f_equal.
  rewrite drop_app_le by (unfold zlen in Hlt; lia). apply cstr_app. apply terminated_nul; [done | unfold zlen in Hlt; lia].
Qed.

Lemma string_at_shift m m' off s : string_at m' off = Some s -> string_at (m ++ m') (zlen m + off) = Some s.
Proof.
  unfold string_at. destruct (Z.leb_spec 0 off); [| done]. destruct (Z.ltb_spec off (zlen m')); [| done]. cbn [andb]. intros [= <-].
  pose proof (zlen_nonneg m). rewrite (proj2 (Z.leb_le _ _)), (proj2 (Z.ltb_lt _ _)) by (rewrite ?zlen_app; lia). cbn [andb]. f_equal. f_equal.
  rewrite drop_app_ge by (unfold zlen; lia). f_equal. unfold zlen. lia.
Qed.

(** A string the set knows. *)
Lemma set_string set M s k m : set_ok set M -> strs_data_len set = zlen m -> take (length m) (strs_data set) = m ->
  M !! s = Some k -> string_at m k = Some s.
Proof.
  intros Hok El Et HM. rewrite (index_M set M s Hok) in HM. destruct (index set !! s) as [[k' v] |] eqn:Ei; [| done]. injection HM as <-.
  destruct (so_keys _ _ Hok _ _ _ Ei) as (-> & Hin & Hs). destruct (inside_key_ok _ _ _ Hin) as [_ Hat].
  pose proof (zlen_nonneg m) as Hz. apply inside_lt in Hin; [| lia]. cbn [snd]. unfold string_at.
  rewrite (proj2 (Z.leb_le _ _)), (proj2 (Z.ltb_lt _ _)) by lia. cbn [andb]. f_equal. rewrite <- Hs, Hat, El.
  unfold zlen. by rewrite Nat2Z.id, Et.
Qed.

(** ** Memory *)

(** One of the answers is no. *)
Definition env_short (a : add_env) : Prop :=
  ae_hdr a = false \/ ae_types a = false \/ ae_set a = false \/ ae_map a = false \/ ae_data a = false \/
  (exists off, ae_entries a off = false) \/ ae_entry a = false \/
  (exists n, 0 <= n <= 2 ^ 34 /\ ae_calloc a n = false) \/ (exists n, 0 <= n <= 2 ^ 34 /\ ae_realloc a n = false).

Definition short (e : nat -> add_env) : Prop := exists d, env_short (e d).

(** What is asked of [calloc] fits a [size_t]. *)
Definition env_ok (e : nat -> add_env) : Prop := forall d n, 2 ^ 61 <= n -> ae_calloc (e d) n = false.

Lemma refused_short a max : max <= 2 ^ 34 -> refused (ae_realloc a) max -> env_short a.
Proof. intros Hm (n & Hn & Hr). unfold env_short. do 8 right. exists n. split; [lia | done]. Qed.

Lemma no_memory_short a malloc n : n < 2 ^ 31 -> no_memory (ae_calloc a) malloc n -> malloc = false \/ env_short a.
Proof. intros Hn [-> | (k & Hk & Hc)]; [by left | right]. unfold env_short. do 7 right. left. exists k. split; [lia | done]. Qed.

(** ** One object *)

(** The object's own types are [ts] and its strings are [strs]. *)
Record own_state (o : btf_own) (ts : list rtype) (strs : list byte) : Prop := {
  os_own : own_ok o ts;
  os_strs : exists m, btf_strs_data o = Some m /\ take (length strs) m = strs;
  os_len : str_len (b_hdr o) = zlen strs;
  os_max : zlen strs <= BTF_MAX_STR_OFFSET;
  os_types : type_len (b_hdr o) <= UINT32_MAX;
  os_mod : if b_modifiable o then
      b_types_cap o = zlen (b_types o) /\ b_types_cap o <= UINT32_MAX /\
      exists set M, b_set o = Some set /\ set_ok set M /\ strs_data_len set = zlen strs /\ strs_data_max_len set = BTF_MAX_STR_OFFSET
    else SIZEOF_HEADER <= hdr_len (b_hdr o)
}.

(** What the calls never change. *)
Definition shape (o : btf_own) : Z * Z * Z * Z * Z * Z * (list byte * bool * Z * Z) :=
  let h := b_hdr o in
  (magic h, version h, flags h, hdr_len h, type_off h, u32 (str_off h - type_len h), (b_hdr_rest o, b_swapped o, b_start_id o, b_start_str_off o)).

(** Cached data of an object that has changed are dropped. *)
Definition cached (o : btf_own) : option (list byte) * option (list byte) * Z := (b_raw o, b_raw_swapped o, b_raw_size o).
Definition keeps (o : btf_own) (ts : list rtype) (strs : list byte) (o' : btf_own) (ts' : list rtype) (strs' : list byte) : Prop :=
  shape o' = shape o /\ ((b_raw o' = None /\ b_raw_swapped o' = None) \/ (cached o' = cached o /\ ts' = ts /\ strs' = strs)).

Lemma keeps_refl o ts strs : keeps o ts strs o ts strs.
Proof. split; [done |]. by right. Qed.

Lemma keeps_trans o ts strs o1 ts1 strs1 o2 ts2 strs2 : keeps o ts strs o1 ts1 strs1 -> keeps o1 ts1 strs1 o2 ts2 strs2 -> keeps o ts strs o2 ts2 strs2.
Proof.
  unfold keeps, cached. intros [S1 C1] [S2 C2]. split; [congruence |].
  destruct C2 as [C2 | (E2 & -> & ->)]; [by left |]. destruct C1 as [[H1 H2] | (E1 & -> & ->)]; [left | right; split; [congruence | done]].
  injection E2 as -> -> _. done.
Qed.

Lemma own_state_core o o' ts strs : same_core o o' -> b_types_cap o' = b_types_cap o -> own_state o ts strs -> own_state o' ts strs.
Proof.
  intros Hc Et [Hown H1 H2 H3 H4 H5]. pose proof (same_core_own _ _ _ Hc Hown). destruct Hc as [E1 E2 E3 E4 E5 E6 E7 E8 E9 E10].
  split; unfold btf_strs_data in *; rewrite ?E1, ?E5, ?E6, ?E7, ?E8, ?Et; done.
Qed.

Lemma own_terminated o ts strs : own_state o ts strs -> terminated strs.
Proof.
  intros [[_ _ _ _ (m & Em & Hl & _ & Hn)] (m' & Em' & Et) El _ _ _]. simplify_eq. rewrite El in *.
  destruct (decide (strs = [])) as [-> | Hne]; [by left | right]. assert (0 < zlen strs) as H0 by (unfold zlen; destruct strs; [done | simpl; lia]).
  specialize (Hn H0). rewrite last_lookup, <- Et, length_take, lookup_take_lt by (unfold zlen in *; lia).
  rewrite <- Hn. f_equal. unfold zlen in *. lia.
Qed.

(** The strings as [own_ok] has them. *)
Lemma strs_section m strs : take (length strs) m = strs -> terminated strs -> zlen strs <= BTF_MAX_STR_OFFSET ->
  0 <= zlen strs <= zlen m /\ zlen strs <= 2 ^ 31 /\ (0 < zlen strs -> m !! Z.to_nat (zlen strs - 1) = Some NUL).
Proof.
  intros Et Ht Hm. pose proof (zlen_nonneg strs). unfold BTF_MAX_STR_OFFSET in Hm. assert (length strs <= length m)%nat by (rewrite <- Et, length_take; lia).
  split_and!; [lia | unfold zlen; lia | lia |]. intros Hpos. destruct Ht as [-> | Hl]; [done |]. rewrite last_lookup in Hl.
  rewrite <- Hl. transitivity (take (length strs) m !! pred (length strs)); [| by rewrite Et].
  rewrite lookup_take_lt by (unfold zlen in *; lia). f_equal. unfold zlen. lia.
Qed.

Lemma strset_new_total a strs : (forall n, 2 ^ 61 <= n -> ae_calloc a n = false) -> terminated strs -> zlen strs <= BTF_MAX_STR_OFFSET ->
  forall m, take (length strs) m = strs ->
  exists r, strset__new (ae_calloc a) (ae_set a) (ae_map a) (ae_data a) (ae_entries a) BTF_MAX_STR_OFFSET (Some (m, zlen strs)) = Some r /\
    ((exists err, r = inl err /\ err <> 0 /\ env_short a) \/
     exists set M, r = inr set /\ strs_data set = strs /\ set_ok set M /\ strs_data_len set = zlen strs /\ strs_data_max_len set = BTF_MAX_STR_OFFSET).
Proof.
  intros Ha Ht Hm m Em. destruct (terminated_render strs Ht) as (ss & Es & HF). unfold env_short.
  assert (bytes_at m 0 (Z.to_nat (zlen strs)) = Some strs) as Eb.
  { rewrite bytes_at_Some; [| unfold zlen; lia | unfold zlen; rewrite <- Em, length_take; lia].
    f_equal. unfold zlen. rewrite Nat2Z.id. exact Em. }
  destruct (ae_set a) eqn:E1; [| eexists; split; [done |]; left; exists (- ENOMEM); auto 10].
  destruct (ae_map a) eqn:E2; [| eexists; split; [done |]; left; exists (- ENOMEM); auto 10].
  destruct (ae_data a) eqn:E3; [| eexists; split; [done |]; left; exists (- ENOMEM); auto 10].
  destruct (strset__new_spec (ae_calloc a) (ae_realloc a) Ha (ae_entries a) BTF_MAX_STR_OFFSET (Some ss)) as (r & Er & Hr); [done | change (zlen (render ss) <= BTF_MAX_STR_OFFSET < 2 ^ 31); rewrite <- Es; done |].
  change (default [] (Some ss)) with ss in Hr. change (init_of <$> Some ss) with (Some (render ss, zlen (render ss))) in Er. rewrite <- Es in Er, Hr.
  assert (strset__new (ae_calloc a) true true true (ae_entries a) BTF_MAX_STR_OFFSET (Some (m, zlen strs)) = Some r /\
    forall set, r = inr set -> strs_data set = strs) as [Er' Hd].
  { unfold strset__new in *. cbn [negb hashmap__new] in *. rewrite Eb. rewrite bytes_at_all in Er by (unfold zlen; lia). split; [done |].
    intros set ->. cbn [mbind option_bind] in Er. destruct (add_init _ _ _ _ _ _ _) as [[err hash] |]; [| done]. cbn [mbind option_bind] in Er.
    destruct (negb _); [done |]. by injection Er as <-. }
  exists r. split; [done |]. destruct Hr as [(-> & off & Hn) | (set & -> & Hl & Hmx & Hok)]; [left | right].
  - exists (- ENOMEM). split_and!; try done. apply (no_memory_short a) in Hn; [| unfold BTF_MAX_STR_OFFSET in Hm; lia].
    destruct Hn as [Hn | Hn]; [| unfold env_short in Hn; rewrite E1, E2, E3 in Hn; tauto]. do 5 right. left. by exists off.
  - exists set, (first_offs ss 0 ∅). split_and!; try done. by apply Hd.
Qed.

Lemma ensure_ok e d based o ts strs : env_ok e -> own_state o ts strs ->
  exists err o', btf_ensure_modifiable (e d) based o = Some (err, o') /\ own_state o' ts strs /\ keeps o ts strs o' ts strs /\
    (b_modifiable o = true -> b_modifiable o' = true /\ b_types o' = b_types o) /\
    ((err <> 0 /\ env_short (e d)) \/ (err = 0 /\ b_modifiable o' = true /\ b_raw o' = None /\ b_raw_swapped o' = None)).
Proof.
  intros He Ho. pose proof (own_terminated _ _ _ Ho) as Ht. pose proof Ho as [Hown (m & Em & Et) El Hmax Htl Hmod]. unfold btf_ensure_modifiable.
  destruct (b_modifiable o) eqn:Emod.
  { eexists _, _. split; [done |]. split; [| split; [split; [by destruct o | left; by destruct o] | split; [by destruct o | right; by destruct o]]].
    eapply own_state_core; [| | exact Ho]; destruct o; by split. }
  destruct (ae_hdr (e d) && ae_types (e d)) eqn:E1; cbn [negb].
  2: { eexists _, _. split; [done |]. split; [done |]. split; [apply keeps_refl |]. split; [done |]. left. split; [done |].
       unfold env_short. apply andb_false_iff in E1. tauto. }
  pose proof Hown as [[rest Etb] Hf Hoffs Hlen (m' & Em' & Hl & Hl2 & Hn)]. simplify_eq. unfold btf_strs_data in Em. rewrite Emod in Em. injection Em as Em.
  rewrite Etb, Hlen, bytes_at_start by (unfold zlen; lia). cbn [mbind option_bind].
  destruct (strset_new_total (e d) strs (He d) Ht Hmax m Et) as (r & Er & Hr). rewrite El, Em, Er. cbn [mbind option_bind].
  destruct Hr as [(err & -> & Herr & Hsh) | (set & M & -> & Hd & Hok & Hsl & Hsm)].
  { eexists _, _. split; [done |]. split; [done |]. split; [apply keeps_refl |]. split; [done |]. by left. }
  rewrite (proj2 (Z.ltb_ge _ _)) by done. eexists _, _. split; [done |].
  split; [| split; [split; [by destruct o | left; by destruct o] | split; [done | right; by destruct o]]].
  destruct (strs_section strs strs (firstn_all strs) Ht Hmax) as (S1 & S2 & S3).
  destruct o. cbn in *. unfold constant. split; cbn; try done.
  - split; cbn; try done.
    + exists []. by rewrite app_nil_r.
    + destruct Hoffs. by split.
    + exists strs. unfold btf_strs_data. cbn. rewrite El. unfold strset__data. rewrite Hd. done.
  - exists strs. unfold btf_strs_data. cbn. unfold strset__data. rewrite Hd. split; [done | apply firstn_all].
  - split; [done |]. split; [by rewrite <- Hlen |]. by exists set, M.
Qed.

Lemma cstr_split m : NUL ∈ m -> exists t, m = cstr m ++ NUL :: t.
Proof.
  induction m as [| x m IH]; intros Hin; [by apply not_elem_of_nil in Hin |]. cbn [cstr]. destruct (decide (x = NUL)) as [-> | Hx]; [by exists m |].
  destruct IH as [t E]; [set_solver |]. exists t. cbn. by rewrite <- E.
Qed.

(** The set of an object replaced by one with the strings [strs']. *)
Definition with_set (o : btf_own) (set : strset) (n : Z) : btf_own := o {{ b_set := Some set; b_hdr := set_str_len (b_hdr o) n }}.

Lemma own_state_set o ts strs set M strs' : own_state o ts strs -> b_modifiable o = true -> set_ok set M -> strs_data_len set = zlen strs' ->
  strs_data_max_len set = BTF_MAX_STR_OFFSET -> take (length strs') (strs_data set) = strs' -> terminated strs' ->
  own_state (with_set o set (zlen strs')) ts strs'.
Proof.
  intros [[H1 H2 H3 H4 _] _ El _ Htl Hmod] Em Hok Hl Hmx Et Ht. pose proof (so_len _ _ Hok). pose proof (so_max _ _ Hok).
  pose proof (zlen_nonneg strs'). assert (zlen strs' <= BTF_MAX_STR_OFFSET) as Hmax by lia. destruct (strs_section _ _ Et Ht Hmax) as (S1 & S2 & S3).
  assert (u32 (zlen strs') = zlen strs') as Eu by (apply u32_id; unfold BTF_MAX_STR_OFFSET in Hmax; lia).
  rewrite Em in Hmod. destruct Hmod as (C1 & C2 & _). unfold with_set.
  assert (type_len (set_str_len (b_hdr o) (zlen strs')) = type_len (b_hdr o)) as Etl by (by destruct (b_hdr o)).
  assert (str_len (set_str_len (b_hdr o) (zlen strs')) = zlen strs') as Esl by (by destruct (b_hdr o); cbn).
  set (h := set_str_len (b_hdr o) (zlen strs')) in *. clearbody h.
  destruct o. cbn in *. subst. unfold constant. split; cbn; try done; try congruence.
  - split; cbn; try done; try congruence; [destruct H3; by split |]. exists (strs_data set). unfold btf_strs_data. cbn. by rewrite Esl.
  - by exists (strs_data set).
  - split; [done |]. split; [done |]. by exists set, M.
Qed.

Lemma with_set_same o set ts strs : own_state o ts strs -> with_set o set (zlen strs) = o {{ b_set := Some set }}.
Proof.
  intros Ho. pose proof (os_len _ _ _ Ho) as El. pose proof (os_max _ _ _ Ho) as Hm. pose proof (zlen_nonneg strs). unfold BTF_MAX_STR_OFFSET in Hm.
  destruct o. unfold with_set. cbn in *. unfold constant, set_str_len. rewrite u32_id by lia. rewrite <- El. by destruct b_hdr.
Qed.

Lemma own_set o ts strs : own_state o ts strs -> b_modifiable o = true ->
  exists set M, b_set o = Some set /\ set_ok set M /\ strs_data_len set = zlen strs /\ strs_data_max_len set = BTF_MAX_STR_OFFSET /\
    take (length strs) (strs_data set) = strs.
Proof.
  intros [_ (m & Em & Et) _ _ _ Hmod] E. rewrite E in Hmod. destruct Hmod as (_ & _ & set & M & Es & Hok & Hl & Hmx). exists set, M.
  split_and!; try done. unfold btf_strs_data in Em. rewrite E, Es in Em. injection Em as <-. exact Et.
Qed.

(** Adding a string to a set. *)
Lemma set_added set M strs s k set' M' : set_ok set' M' -> strs_data_len set = zlen strs -> take (length strs) (strs_data set) = strs ->
  extends set set' -> k = zlen strs -> strs_data_len set' = zlen strs + zlen s + 1 -> M' = <[s := k]> M ->
  take (length (strs ++ s ++ [NUL])) (strs_data set') = strs ++ s ++ [NUL].
Proof.
  intros Hok El Et (_ & _ & He) -> El' ->. set (data := strs_data set') in *. set (all := take (length (strs ++ s ++ [NUL])) data).
  assert (take (length strs) data = strs) as E1. { rewrite El in He. unfold zlen in He. rewrite Nat2Z.id in He. by rewrite He. }
  pose proof (index_M set' _ s Hok) as Hi. rewrite lookup_insert_eq in Hi. destruct (index set' !! s) as [[k' v] |] eqn:Ei; [| done]. injection Hi as Hv.
  destruct (so_keys _ _ Hok _ _ _ Ei) as (-> & Hin & Hs). subst k'. destruct (inside_key_ok _ _ _ Hin) as [_ Hat]. rewrite Hs in Hat.
  destruct Hin as [_ Hn]. fold data in Hn, Hat.
  assert (Z.to_nat (strs_data_len set') = length (strs ++ s ++ [NUL])) as EL by (rewrite El', !length_app; unfold zlen; simpl length; lia).
  rewrite EL in Hn, Hat. fold all in Hn, Hat. destruct (cstr_split _ Hn) as [t E2]. rewrite <- Hat in E2.
  assert (length all = length (strs ++ s ++ [NUL])) as La.
  { unfold all. rewrite length_take. pose proof (so_len _ _ Hok) as Hl. rewrite (so_cap _ _ Hok) in Hl. unfold data, zlen in *. rewrite !length_app in *. simpl length in *. lia. }
  assert (t = []) as ->.
  { apply (f_equal length) in E2. rewrite length_drop, La, !length_app in E2. unfold zlen in E2. simpl length in E2. destruct t; [done | simpl length in E2; lia]. }
  transitivity (take (length strs) all ++ drop (length strs) all); [by rewrite take_drop |]. f_equal.
  - unfold all. rewrite take_take, Nat.min_l by (rewrite !length_app; lia). exact E1.
  - rewrite <- E2. f_equal. unfold zlen. lia.
Qed.

Lemma extends_take set set' strs : strs_data_len set = zlen strs -> take (length strs) (strs_data set) = strs -> extends set set' ->
  take (length strs) (strs_data set') = strs.
Proof. intros Hl Et (_ & _ & Hx). rewrite Hl in Hx. unfold zlen in Hx. rewrite Nat2Z.id in Hx. by rewrite Hx. Qed.

Lemma int_add_small x y : 0 <= x -> 0 <= y -> x + y < 2 ^ 31 -> int_add x y = Some (x + y).
Proof. intros ? ? ?. unfold int_add. by rewrite (proj2 (Z.leb_le _ _)), (proj2 (Z.ltb_lt _ _)) by lia. Qed.

Section Strings.
Context (e : nat -> add_env) (He : env_ok e).

Lemma no_room_short d malloc len s : len + zlen s + 1 <= BTF_MAX_STR_OFFSET ->
  no_room (ae_calloc (e d)) (ae_realloc (e d)) malloc BTF_MAX_STR_OFFSET len s -> malloc = false \/ env_short (e d).
Proof.
  intros Hl. pose proof (zlen_nonneg s). unfold BTF_MAX_STR_OFFSET in *. intros [Hn | [Hn | Hn]]; [lia | right; eapply refused_short; [| exact Hn]; lia |].
  eapply no_memory_short; [| exact Hn]. lia.
Qed.

(** Looking for a string in an object. *)
Lemma own_find_ok d based o ts strs s t : own_state o ts strs -> b_start_str_off o = 0 -> string_ok s -> zlen strs + zlen s + 1 <= BTF_MAX_STR_OFFSET ->
  exists off o', own_find_str (e d) based o (s ++ NUL :: t) = Some (off, o') /\ own_state o' ts strs /\ keeps o ts strs o' ts strs /\
    ((off = - ENOMEM /\ env_short (e d)) \/ off = - ENOENT \/ string_at strs off = Some s).
Proof.
  intros Ho Hst Hs Hlim. unfold own_find_str.
  destruct (ensure_ok e d based o ts strs He Ho) as (err & o1 & -> & Ho1 & Hk1 & _ & Hr). cbn [mbind option_bind].
  destruct Hr as [[Herr Hsh] | (-> & Em & _)].
  { unfold c_true. rewrite (proj2 (Z.eqb_neq _ _)) by done. cbn [negb]. eexists _, _. split; [done |]. split; [done |]. split; [done |]. by left. }
  change (c_true 0) with false. cbv iota. destruct (own_set o1 ts strs Ho1 Em) as (set & M & Es & Hok & Hl & Hmx & Et). rewrite Es. cbn [mbind option_bind].
  destruct (find_str_refines (ae_calloc (e d)) (ae_realloc (e d)) (He d) set M s t Hok Hs) as (off & set' & -> & Hok' & Hext & Hl' & Hspec).
  cbn [mbind option_bind]. rewrite Hl, Hmx in Hspec. pose proof (extends_take set set' strs Hl Et Hext) as Et'.
  assert (own_state (o1 {{ b_set := Some set' }}) ts strs) as Ho2.
  { rewrite <- (with_set_same o1 set' ts strs Ho1). eapply own_state_set; try done; [lia | | by eapply own_terminated]. destruct Hext as (_ & Hx & _). lia. }
  assert (keeps o ts strs (o1 {{ b_set := Some set' }}) ts strs) as Hk2.
  { eapply keeps_trans; [exact Hk1 |]. split; [by destruct o1 | right; by destruct o1]. }
  assert (b_start_str_off (o1 {{ b_set := Some set' }}) = 0) as Hst2 by (destruct Hk2 as [E _]; unfold shape in E; congruence).
  destruct Hspec as [[-> Hn] | ->].
  { eexists _, _. split; [done |]. split; [done |]. split; [done |]. left. split; [done |]. apply no_room_short in Hn; [| lia]. by destruct Hn. }
  destruct (M !! s) as [k |] eqn:EM; cbn [default from_option id].
  - pose proof (set_string set M s k strs Hok Hl Et EM) as Hat. pose proof (string_at_range _ _ _ Hat) as Hk. pose proof (zlen_nonneg s).
    rewrite (proj2 (Z.ltb_ge _ _)) by lia. rewrite Hst2, int_add_small by (unfold BTF_MAX_STR_OFFSET in Hlim; lia).
    cbn [mbind option_bind]. eexists _, _. split; [done |]. split; [done |]. split; [done |]. auto.
  - eexists _, _. split; [done |]. split; [done |]. split; [done |]. auto.
Qed.

(** The strings after a call of [strset__add_str]. *)
Lemma added_strs set M s k set' M' strs : set_ok set M -> set_ok set' M' -> strs_data_len set = zlen strs -> take (length strs) (strs_data set) = strs ->
  terminated strs -> extends set set' -> NUL ∉ s ->
  match M !! s with Some off => k = off /\ (strs_data_len set', M') = (zlen strs, M)
  | None => k = zlen strs /\ (strs_data_len set', M') = (zlen strs + zlen s + 1, <[s := zlen strs]> M) end ->
  exists strs', strs_data_len set' = zlen strs' /\ take (length strs') (strs_data set') = strs' /\ terminated strs' /\ strs `prefix_of` strs' /\
    zlen strs' <= zlen strs + zlen s + 1 /\ string_at strs' k = Some s.
Proof.
  intros Hok Hok' Hl Et Ht Hext Hs. pose proof (extends_take set set' strs Hl Et Hext) as Et'. pose proof (zlen_nonneg s).
  assert (zlen (strs ++ s ++ [NUL]) = zlen strs + zlen s + 1) as Ez by (rewrite !zlen_app; unfold zlen; simpl length; lia).
  destruct (M !! s) as [off |] eqn:EM; intros [-> [= El' ->]].
  - exists strs. split_and!; try done; [lia |]. by eapply set_string.
  - exists (strs ++ s ++ [NUL]). split_and!; try lia; [by eapply (set_added set M strs s (zlen strs) set') | | by eexists |].
    + apply terminated_app; [done |]. right. by rewrite last_snoc.
    + replace (zlen strs) with (zlen strs + 0) by lia. apply string_at_shift. unfold string_at.
      rewrite (proj2 (Z.ltb_lt _ _)) by (rewrite zlen_app; unfold zlen in *; simpl length; lia). cbn. f_equal. by apply cstr_app_nul.
Qed.

(** Adding a string to an object. *)
Lemma own_add_ok d based o ts strs s t : own_state o ts strs -> string_ok s -> 0 <= b_start_str_off o ->
  b_start_str_off o + zlen strs + zlen s + 1 <= BTF_MAX_STR_OFFSET ->
  exists off o' strs', own_add_str (e d) based o (s ++ NUL :: t) = Some (off, o') /\ own_state o' ts strs' /\ keeps o ts strs o' ts strs' /\
    strs `prefix_of` strs' /\ zlen strs' <= zlen strs + zlen s + 1 /\
    (b_modifiable o = true -> b_modifiable o' = true /\ b_types o' = b_types o) /\
    ((off = - ENOMEM /\ env_short (e d)) \/ string_at strs' (off - b_start_str_off o) = Some s).
Proof.
  intros Ho Hs Hst Hlim. pose proof (own_terminated _ _ _ Ho) as Ht. pose proof (zlen_nonneg strs) as Z1. pose proof (zlen_nonneg s) as Z2. unfold own_add_str.
  destruct (ensure_ok e d based o ts strs He Ho) as (err & o1 & -> & Ho1 & Hk1 & Hty & Hr). cbn [mbind option_bind].
  destruct Hr as [[Herr Hsh] | (-> & Em & Hr1 & Hr2)].
  { unfold c_true. rewrite (proj2 (Z.eqb_neq _ _)) by done. cbn [negb]. eexists _, _, strs. split; [done |]. split_and!; try done; [lia |]. by left. }
  change (c_true 0) with false. cbv iota. destruct (own_set o1 ts strs Ho1 Em) as (set & M & Es & Hok & Hl & Hmx & Et). rewrite Es. cbn [mbind option_bind].
  destruct (add_str_refines (ae_calloc (e d)) (ae_realloc (e d)) (He d) (ae_entry (e d)) set M s t Hok Hs) as (off & set' & M' & -> & Hok' & Hext & Hspec).
  cbn [mbind option_bind]. rewrite Hl, Hmx in Hspec.
  assert (strs_data_max_len set' = BTF_MAX_STR_OFFSET) as Hmx' by (destruct Hext as (_ & -> & _); done).
  assert (forall strs' n, keeps o ts strs (with_set o1 set' n) ts strs') as Hk2.
  { intros strs' n. destruct Hk1 as [Hk1 _]. split; [by rewrite <- Hk1; destruct o1 as [? ? ? ? ? [] ? ? ? ? ? ? ? ? ? ? ? ? ?] |].
    left. destruct o1; split; cbn in *; congruence. }
  assert (b_modifiable o = true -> forall n, b_modifiable (with_set o1 set' n) = true /\ b_types (with_set o1 set' n) = b_types o) as Hty'.
  { intros Em' n. destruct (Hty Em') as [? ?]. by destruct o1. }
  destruct Hspec as [(-> & [= El' ->] & Hn) | Hspec].
  - cbn [Z.ltb Z.compare Z.opp]. eexists _, _, strs. split; [done |]. rewrite <- (with_set_same o1 set' ts strs Ho1).
    split; [eapply own_state_set; try done; by apply (extends_take set) |]. split; [done |]. split; [done |]. split; [lia |]. split; [auto |].
    left. split; [done |]. apply no_room_short in Hn; [| lia]. destruct Hn as [Hn |]; [| done]. unfold env_short. tauto.
  - destruct (added_strs set M s off set' M' strs Hok Hok' Hl Et Ht Hext (proj1 Hs) Hspec) as (strs' & El' & Et' & Ht' & Hpre & Hsz & Hat).
    pose proof (string_at_range _ _ _ Hat) as Hk. rewrite (proj2 (Z.ltb_ge _ _)) by lia. destruct (Hk2 strs' (zlen strs')) as [Hsh _].
    assert (b_start_str_off (with_set o1 set' (zlen strs')) = b_start_str_off o) as Est by (unfold shape in Hsh; congruence).
    unfold strset__data_size. rewrite El'. match goal with |- context [int_add (b_start_str_off ?x) _] => change x with (with_set o1 set' (zlen strs')) end.
    rewrite Est, int_add_small by (unfold BTF_MAX_STR_OFFSET in Hlim; lia).
    cbn [mbind option_bind]. eexists _, _, strs'. split; [done |]. split; [by eapply own_state_set |]. split; [done |]. split; [done |]. split; [done |].
    split; [auto |]. right. by replace (b_start_str_off o + off - b_start_str_off o) with off by lia.
Qed.

(** ** An object and at most one base *)

Record obj (b : btf) (ts0 : list rtype) (strs0 : list byte) (ts : list rtype) (strs : list byte) : Prop := {
  ob_base : match bases b with
            | [] => ts0 = [] /\ strs0 = []
            | [o] => own_state o ts0 strs0 /\ b_start_id o = 1 /\ b_start_str_off o = 0
            | _ => False
            end;
  ob_own : own_state (own b) ts strs;
  ob_start : b_start_id (own b) = 1 + zlen ts0;
  ob_start_str : b_start_str_off (own b) = zlen strs0
}.

Lemma obj_btf_ok b ts0 strs0 ts strs : obj b ts0 strs0 ts strs -> 1 + zlen (ts0 ++ ts) < 2 ^ 32 -> btf_ok b (ts0 ++ ts).
Proof.
  intros [Hb Ho Hs Hss] Hn. split; [| done]. destruct (bases b) as [| o [|]]; [| | done].
  - destruct Hb as [-> ->]. split_and!; [apply (os_own _ _ _ Ho) | done | done].
  - destruct Hb as (Ho0 & H1 & H2). exists ts0, ts. split_and!; try done; [| apply (os_own _ _ _ Ho) |].
    + split_and!; [apply (os_own _ _ _ Ho0) | done | done].
    + rewrite Hss. symmetry. apply (os_len _ _ _ Ho0).
Qed.

Lemma obj_terminated b ts0 strs0 ts strs : obj b ts0 strs0 ts strs -> terminated strs0 /\ terminated strs.
Proof.
  intros [Hb Ho _ _]. split; [| by eapply own_terminated]. destruct (bases b) as [| o [|]]; [| | done]; [destruct Hb as [_ ->]; by left |].
  destruct Hb as (Ho0 & _). by eapply own_terminated.
Qed.

(** The strings of one object by offset. *)
Lemma own_string o ts strs off s : own_state o ts strs -> string_at strs off = Some s ->
  u32 off <? str_len (b_hdr o) = true /\ exists m, btf_strs_data o = Some m /\ cstr (drop (Z.to_nat off) m) = s.
Proof.
  intros Ho Hs. pose proof (own_terminated _ _ _ Ho) as Ht. destruct Ho as [_ (m & Em & Et) El Hmax _ _]. unfold string_at in Hs.
  destruct (Z.leb_spec 0 off), (Z.ltb_spec off (zlen strs)) as [Hlt |]; try done. injection Hs as <-. unfold BTF_MAX_STR_OFFSET in Hmax.
  rewrite El, u32_id by lia. split; [by apply Z.ltb_lt |]. exists m. split; [done |].
  rewrite <- (take_drop (length strs) m), Et, drop_app_le by (unfold zlen in Hlt; lia). apply cstr_app, terminated_nul; [done | unfold zlen in Hlt; lia].
Qed.

Lemma obj_name b ts0 strs0 ts strs off s : obj b ts0 strs0 ts strs -> string_at (strs0 ++ strs) off = Some s -> name_at b off = Some s.
Proof.
  intros Hobj Hs. destruct (obj_terminated _ _ _ _ _ Hobj) as [Ht0 Ht]. destruct Hobj as [Hb Ho Hst Hss].
  pose proof (string_at_range _ _ _ Hs) as Hr. unfold name_at, btf__str_by_offset. destruct (Z.ltb_spec off (zlen strs0)) as [Hlt | Hge].
  - assert (string_at strs0 off = Some s) as Hs0.
    { unfold string_at in *. rewrite zlen_app in Hs. destruct (Z.leb_spec 0 off) as [H0 |]; [| done].
      rewrite (proj2 (Z.ltb_lt _ _)) in Hs by (pose proof (zlen_nonneg strs); lia). rewrite (proj2 (Z.ltb_lt _ _)) by lia. cbn [andb] in *.
      rewrite <- Hs, drop_app_le by (unfold zlen in Hlt; lia). f_equal. symmetry. apply cstr_app, terminated_nul; [done | unfold zlen in Hlt; lia]. }
    destruct (bases b) as [| o [|]]; [| | done]; [destruct Hb as [_ ->]; change (zlen (@nil byte)) with 0 in Hlt; lia |].
    destruct Hb as (Ho0 & H1 & H2). cbn [str_by_offset]. rewrite Hss, (proj2 (Z.ltb_lt _ _)) by done. rewrite H2.
    rewrite (proj2 (Z.ltb_ge off 0)), Z.sub_0_r by lia. destruct (own_string o ts0 strs0 off s Ho0 Hs0) as (-> & m & -> & <-). done.
  - assert (string_at strs (off - zlen strs0) = Some s) as Hs1.
    { unfold string_at in *. rewrite zlen_app in Hs. destruct (Z.leb_spec 0 off) as [H0 |]; [| done].
      destruct (Z.ltb_spec off (zlen strs0 + zlen strs)); [| done]. rewrite (proj2 (Z.leb_le _ _)), (proj2 (Z.ltb_lt _ _)) by lia. cbn [andb] in *.
      rewrite <- Hs, drop_app_ge by (unfold zlen in Hge; lia). do 3 f_equal. unfold zlen in *. lia. }
    destruct (bases b); cbn [str_by_offset]; rewrite Hss, (proj2 (Z.ltb_ge _ _)) by done;
      destruct (own_string (own b) ts strs (off - zlen strs0) s Ho Hs1) as (-> & m & -> & <-); done.
Qed.

(** A name is added: it is found in the base, found in the object, or new. *)
Lemma add_str_ok b ts0 strs0 ts strs s t : obj b ts0 strs0 ts strs -> string_ok s -> zlen strs0 + zlen strs + zlen s + 1 <= BTF_MAX_STR_OFFSET ->
  exists off b' strs', btf__add_str e b (s ++ NUL :: t) = Some (off, b') /\ obj b' ts0 strs0 ts strs' /\ keeps (own b) ts strs (own b') ts strs' /\
    strs `prefix_of` strs' /\ zlen strs' <= zlen strs + zlen s + 1 /\
    (b_modifiable (own b) = true -> b_modifiable (own b') = true /\ b_types (own b') = b_types (own b)) /\
    ((off = - ENOMEM /\ short e) \/ string_at (strs0 ++ strs') off = Some s).
Proof.
  intros Hobj Hs Hlim. destruct (obj_terminated _ _ _ _ _ Hobj) as [Ht0 Ht]. pose proof Hobj as [Hb Ho Hst Hss]. unfold btf__add_str.
  pose proof (zlen_nonneg strs0) as Z0. pose proof (zlen_nonneg strs) as Z1. pose proof (zlen_nonneg s) as Z2.
  assert (exists off os, match bases b with
      | [] => Some (- ENOENT, [])
      | o' :: os' => '(off, o', os') ← find_str e 1 o' os' (s ++ NUL :: t); Some (off, o' :: os')
      end = Some (off, os) /\ obj {| own := own b; bases := os |} ts0 strs0 ts strs /\
      ((off = - ENOMEM /\ env_short (e 1)) \/ off = - ENOENT \/ string_at strs0 off = Some s)) as (off & os & -> & Hobj1 & Hoff).
  { destruct (bases b) as [| o [|]] eqn:Eb; [| | done].
    - exists (- ENOENT), []. split; [done |]. split; [| auto]. split; cbn; done.
    - destruct Hb as (Ho0 & H1 & H2). cbn [find_str mbind option_bind has_base]. rewrite Z.eqb_refl. cbn [negb].
      destruct (own_find_ok 1 false o ts0 strs0 s t Ho0 H2 Hs) as (off & o' & -> & Ho' & [Hk _] & Hr); [lia |]. unfold shape in Hk.
      exists off, [o']. split; [done |]. split; [| done]. split; cbn; try done. split_and!; [done | congruence | congruence]. }
  cbn [mbind option_bind]. clear Hb. destruct (Z.eqb_spec off (- ENOENT)) as [-> | Hne]; cbn [negb].
  2: { eexists _, _, strs. split; [done |]. split; [done |]. split; [apply keeps_refl |]. split; [done |]. split; [lia |]. split; [done |].
       destruct Hoff as [[-> Hsh] | [-> | Hoff]]; [left; split; [done |]; by exists 1%nat | done | right; by apply string_at_app]. }
  destruct (own_add_ok 0 (has_base os) (own b) ts strs s t Ho Hs) as (off & o' & strs' & -> & Ho' & Hk & Hpre & Hsz & Hty & Hr); [lia | lia |].
  cbn [mbind option_bind]. eexists _, _, strs'. split; [done |]. split; [| split; [done |]; split; [done |]; split; [done |]; split; [done |]].
  - destruct Hobj1 as [Hb1 _ _ _], Hk as [Hk _]. unfold shape in Hk. split; cbn in *; try done; congruence.
  - destruct Hr as [[-> Hsh] | Hr]; [left; split; [done |]; by exists 0%nat | right].
    replace off with (zlen strs0 + (off - b_start_str_off (own b))) by lia. by apply string_at_shift.
Qed.

End Strings.
