(* ===== verification/BtfDecl.v ===== *)
(** What the functions of BtfAdd.v build: lists of declarations. *)
From S2P Require Import Prelude.
From S2P Require Import CLib.
From S2P Require Import Hashmap.
From S2P Require Import Strset.
From S2P Require Import Btf.
From S2P Require Import BtfParse.
From S2P Require Import BtfQuery.
From S2P Require Import BtfAdd.
From S2P Require Import BtfBuild.
From coqutil Require Import Datatypes.RecordSetters.
Import DoubleBraceUpdate.
#[local] Open Scope btf_scope.

(** ** Running functions *)

(** The function is defined, and ends in a result and an object with [Q]. *)
Definition runs {A} (m : act A) (b : btf) (Q : Z + A -> btf -> Prop) : Prop := exists r b', m b = Some (r, b') /\ Q r b'.

Lemma runs_bind {A B} (m : act A) (f : A -> act B) b (Q : Z + B -> btf -> Prop) :
  runs m b (fun r b' => match r with inl z => Q (inl z) b' | inr a => runs (f a) b' Q end) -> runs (bind m f) b Q.
Proof.
  intros (r & b1 & E & H). unfold runs, bind. rewrite E. destruct r as [z | a]; [by eexists _, _ | done].
Qed.

Lemma runs_mono {A} (m : act A) b (Q Q' : Z + A -> btf -> Prop) : runs m b Q -> (forall r b', Q r b' -> Q' r b') -> runs m b Q'.
Proof. intros (r & b' & E & H) HQ. exists r, b'. auto. Qed.

Lemma runs_ret {A} (a : A) b (Q : Z + A -> btf -> Prop) : Q (inr a) b -> runs (ret a) b Q.
Proof. intros H. by eexists _, _. Qed.

Lemma runs_leave {A} z b (Q : Z + A -> btf -> Prop) : Q (inl z) b -> runs (leave z) b Q.
Proof. intros H. by eexists _, _. Qed.

Lemma runs_require c err b (Q : Z + unit -> btf -> Prop) : (c = true -> Q (inr tt) b) -> (c = false -> Q (inl err) b) -> runs (require c err) b Q.
Proof. intros H1 H2. unfold require. destruct c; [apply runs_ret | apply runs_leave]; auto. Qed.

Lemma runs_ask {A} (f : btf -> option A) a b (Q : Z + A -> btf -> Prop) : f b = Some a -> Q (inr a) b -> runs (ask f) b Q.
Proof. intros E H. unfold runs, ask. rewrite E. by eexists _, _. Qed.

Lemma bind_ext {A B} (m : act A) (f g : A -> act B) : (forall a b, f a b = g a b) -> forall b, bind m f b = bind m g b.
Proof. intros H b. unfold bind. destruct (m b) as [[[z | a] b'] |]; [done | apply H | done]. Qed.

Lemma runs_ext {A} (m m' : act A) b (Q : Z + A -> btf -> Prop) : (forall b, m' b = m b) -> runs m b Q -> runs m' b Q.
Proof. intros H (r & b' & E & HQ). exists r, b'. by rewrite H. Qed.

Lemma act_assoc {A B C} (m : act A) (f : A -> act B) (g : B -> act C) b : bind m (fun a => bind (f a) g) b = bind (bind m f) g b.
Proof. unfold bind. by destruct (m b) as [[[z | a] b'] |]. Qed.

Lemma runs_assoc {A B C} (m : act A) (f : A -> act B) (g : B -> act C) b Q : runs (bind m (fun a => bind (f a) g)) b Q <-> runs (bind (bind m f) g) b Q.
Proof. unfold runs. by setoid_rewrite act_assoc. Qed.

(** ** Words of a type that is being written *)

(** Behind the types, the words [pend] have been written, and [n] more bytes can be. *)
Definition room (o : btf_own) (ts : list rtype) (pend : list Z) (n : Z) : Prop :=
  b_modifiable o = true /\ exists rest, b_types o = types_bytes false ts ++ enc_words pend ++ rest /\ n <= zlen rest.

Lemma room_0 o ts pend n : room o ts pend n -> room o ts pend 0.
Proof. intros [Em (rest & Et & _)]. split; [done |]. exists rest. split; [done | apply zlen_nonneg]. Qed.

Lemma store_words_run ws : forall pre old post p, p = zlen pre -> length old = length (enc_words ws) ->
  store_words (pre ++ old ++ post) p ws = Some (pre ++ enc_words ws ++ post).
Proof.
  induction ws as [| w ws IH]; intros pre old post p -> Hl.
  - destruct old; [done | simpl in Hl; lia].
  - rewrite enc_words_cons in Hl |- *. rewrite length_app, length_le_split in Hl. cbn [store_words].
    rewrite <- (take_drop 4 old), <- app_assoc. rewrite (store_app pre (take 4 old)); [| done | rewrite length_take, length_le_split; lia].
    cbn [mbind option_bind]. rewrite app_assoc, (IH (pre ++ le_split 4 w)).
    + by rewrite <- !app_assoc.
    + rewrite zlen_app, zlen_le_split. done.
    + rewrite length_drop. lia.
Qed.

Lemma store_words_app ws ws' : forall m p, store_words m p (ws ++ ws') = (m ← store_words m p ws; store_words m (p + 4 * zlen ws) ws').
Proof.
  induction ws as [| w ws IH]; intros m p; [cbn; by rewrite Z.add_0_r |]. cbn [app store_words]. destruct (store m p (le_split 4 w)); [| done]. cbn [mbind option_bind].
  rewrite IH, zlen_cons. destruct (store_words _ _ ws); [| done]. cbn [mbind option_bind]. f_equal. lia.
Qed.

(** Assignments to adjacent fields are one assignment. *)
Lemma put_put {B} p ws ws' (k : act B) b : (put p ws ;; (put (p + 4 * zlen ws) ws' ;; k)) b = (put p (ws ++ ws') ;; k) b.
Proof.
  unfold bind, put, change_own. rewrite store_words_app. destruct (store_words (b_types (own b)) p ws) as [m |]; [| done]. cbn [mbind option_bind].
  assert (b_types (own (b {{ own := (own b) {{ b_types := m }} }})) = m) as -> by (by destruct b as [[] ?]).
  destruct (store_words m (p + 4 * zlen ws) ws') as [m' |]; [| done]. cbn [mbind option_bind]. by destruct b as [[] ?].
Qed.

(** Types in memory with more room. *)
Lemma own_state_types o ts strs data : own_state o ts strs -> b_modifiable o = true -> zlen data <= UINT32_MAX ->
  (exists rest, data = types_bytes false ts ++ rest) -> own_state (o {{ b_types := data; b_types_cap := zlen data }}) ts strs.
Proof.
  intros [[H1 H2 H3 H4 H5] Hs El Hm Ht Hmod] Em Hz Hd. rewrite Em in Hmod. destruct Hmod as (C1 & C2 & C3).
  destruct o. cbn in *. subst. unfold constant. split; cbn; try done. split; cbn; try done. destruct H3. by split.
Qed.

Lemma own_types_cap o ts strs : own_state o ts strs -> b_modifiable o = true -> b_types_cap o = zlen (b_types o) /\ b_types_cap o <= UINT32_MAX.
Proof. intros Ho Em. pose proof (os_mod _ _ _ Ho) as Hm. rewrite Em in Hm. tauto. Qed.

Lemma offsets_app ts ts' : forall o, offsets (ts ++ ts') o = offsets ts o ++ offsets ts' (o + zlen (types_bytes false ts)).
Proof.
  induction ts as [| t ts IH]; intros o; [cbn; by rewrite Z.add_0_r |]. cbn [offsets app]. rewrite IH, types_bytes_cons, zlen_app. by rewrite Z.add_assoc.
Qed.

Lemma grow_types_shape h sz : u32 (str_off (grow_types h sz) - type_len (grow_types h sz)) = u32 (str_off h - type_len h).
Proof. destruct h. unfold grow_types. cbn. unfold constant, u32. rewrite <- Zminus_mod. f_equal. lia. Qed.

Lemma shape_grow o sz o' : b_hdr o' = grow_types (b_hdr o) sz ->
  (b_hdr_rest o', b_swapped o', b_start_id o', b_start_str_off o') = (b_hdr_rest o, b_swapped o, b_start_id o, b_start_str_off o) -> shape o' = shape o.
Proof. intros Eh E. unfold shape. cbv zeta. rewrite E, Eh, grow_types_shape. by destruct (b_hdr o). Qed.

(** The bytes of types are those of all their words. *)
Lemma types_bytes_words rs : types_bytes false rs = enc_words (concat (r_words <$> rs)).
Proof. induction rs as [| r rs IH]; [done |]. rewrite types_bytes_cons, IH. cbn [fmap list_fmap concat]. by rewrite enc_words_app. Qed.

(** Types are added to the index and become types of the object. *)
Lemma own_state_commit o ts strs rs sz offs cap : own_state o ts strs -> room o ts (concat (r_words <$> rs)) 0 -> Forall rtype_ok rs -> sz = zlen (types_bytes false rs) ->
  zlen (types_bytes false ts) + sz <= UINT32_MAX -> zlen ts + zlen rs <= BTF_MAX_NR_TYPES ->
  offs_ok (o {{ b_offs := offs; b_offs_cap := cap; b_nr_types := b_nr_types o + zlen rs }}) (offsets ts 0 ++ offsets rs (zlen (types_bytes false ts))) ->
  own_state (o {{ b_offs := offs; b_offs_cap := cap; b_hdr := grow_types (b_hdr o) sz; b_nr_types := u32 (b_nr_types o + zlen rs) }}) (ts ++ rs) strs.
Proof.
  intros Ho [Em (rest & Et & _)] Hr -> Hlim Hn Hoffs. pose proof (own_types_cap _ _ _ Ho Em) as [C1 C2].
  pose proof Ho as [[H1 H2 H3 H4 H5] (m & Em1 & Em2) El Hm Ht Hmod]. unfold UINT32_MAX, BTF_MAX_NR_TYPES in *.
  pose proof (own_ok_nr _ _ (os_own _ _ _ Ho)) as Hnr. pose proof (zlen_nonneg ts) as Z1. pose proof (zlen_nonneg rs) as Z3. pose proof (zlen_nonneg (types_bytes false rs)) as Z2.
  assert (type_len (grow_types (b_hdr o) (zlen (types_bytes false rs))) = zlen (types_bytes false (ts ++ rs))) as Etl.
  { rewrite types_bytes_app, zlen_app. unfold grow_types. destruct (b_hdr o). cbn in *. unfold constant. rewrite H4. apply u32_id. pose proof (zlen_nonneg (types_bytes false ts)). lia. }
  assert (str_len (grow_types (b_hdr o) (zlen (types_bytes false rs))) = str_len (b_hdr o)) as Esl by (by destruct (b_hdr o)).
  assert (hdr_len (grow_types (b_hdr o) (zlen (types_bytes false rs))) = hdr_len (b_hdr o)) as Ehl by (by destruct (b_hdr o)).
  rewrite (u32_id (b_nr_types o + zlen rs)) by lia. set (h := grow_types _ _) in *. clearbody h.
  rewrite <- types_bytes_words in Et. pose proof (types_bytes_app false ts rs) as Etb.
  destruct o. cbn in *. unfold constant in *. split; cbn; try done.
  - split; cbn; try done.
    + exists rest. by rewrite Etb, <- app_assoc.
    + by apply Forall_app.
    + rewrite offsets_app. cbn. destruct Hoffs as [? ? ? ? ?]. split; try done.
    + destruct H5 as (m' & ? & ?). exists m'. rewrite Esl. done.
  - by exists m.
  - congruence.
  - rewrite Etl, Etb, zlen_app. unfold UINT32_MAX. lia.
  - by rewrite Em in *.
Qed.

(** ** The last type *)

Definition set_rinfo (r : rtype) (info : Z) : rtype := {| r_name := r_name r; r_info := info; r_size := r_size r; r_extra := r_extra r |}.
Definition add_words (r : rtype) (info : Z) (ws : list Z) : rtype :=
  {| r_name := r_name r; r_info := info; r_size := r_size r; r_extra := r_extra r ++ ws |}.

Lemma types_bytes_snoc ts r : types_bytes false (ts ++ [r]) = types_bytes false ts ++ enc_words (r_words r).
Proof. rewrite types_bytes_app. f_equal. change (types_bytes false [r]) with (type_bytes false r ++ []). by rewrite app_nil_r. Qed.

Lemma own_last_info o ts r strs : own_state o (ts ++ [r]) strs -> is_u32 (r_info r).
Proof.
  intros Ho. pose proof (ow_ok _ _ (os_own _ _ _ Ho)) as HF. apply Forall_app in HF as [_ HF]. apply Forall_cons in HF as [HF _].
  destruct (rtype_ok_parts _ HF) as [Hb _]. unfold r_base in Hb. rewrite !Forall_cons in Hb. tauto.
Qed.

(** An object whose last type has other information in memory. *)
Definition with_info (o : btf_own) (ts : list rtype) (r : rtype) (info : Z) (rest : list byte) : btf_own :=
  o {{ b_types := types_bytes false (ts ++ [set_rinfo r info]) ++ rest }}.

Lemma last_type_at b o ts strs r data n0 : own_state o (ts ++ [r]) strs -> own b = o {{ b_types := data }} -> b_start_id o = 1 + n0 -> 0 <= n0 ->
  n0 + zlen (ts ++ [r]) <= BTF_MAX_NR_TYPES -> btf_last_type b = Some (zlen (types_bytes false ts)).
Proof.
  intros Ho Eo Hst H0 Hn. pose proof (own_ok_nr _ _ (os_own _ _ _ Ho)) as Hnr. destruct (ow_offs _ _ (os_own _ _ _ Ho)) as [_ _ _ [rest Eoffs] Hu].
  pose proof (zlen_nonneg (ts ++ [r])) as Z1. unfold BTF_MAX_NR_TYPES in Hn.
  assert (b_start_id (own b) = 1 + n0 /\ b_nr_types (own b) = zlen (ts ++ [r]) /\ b_offs (own b) = b_offs o) as (E1 & E2 & E3).
  { rewrite Eo. destruct o. cbn in *. by split_and!. }
  unfold btf_last_type, own_type_at, btf_type_by_id, btf__type_cnt. rewrite E1, E2. rewrite u32_id, u32_id by (rewrite ?u32_id; lia).
  assert (zlen (ts ++ [r]) = zlen ts + 1) as Ez by (by rewrite zlen_app). pose proof (zlen_nonneg ts) as Z2. rewrite Ez.
  assert (forall os, type_by_id (own b) os (1 + n0 + (zlen ts + 1) - 1) = Some (TAt (b_types (own b)) (zlen (types_bytes false ts)))) as E; [| by rewrite E].
  intros os. assert (load32 (b_offs (own b)) (4 * (1 + n0 + (zlen ts + 1) - 1 - b_start_id (own b))) = Some (zlen (types_bytes false ts))) as HL.
  { rewrite E3, Eoffs, E1. apply (load_words [] _ _ (length ts)); [done | | unfold zlen; simpl length; lia].
    rewrite offsets_app, lookup_app_r by (rewrite length_offsets; lia). by rewrite length_offsets, Nat.sub_diag. }
  destruct os; cbn [type_by_id]; rewrite (proj2 (Z.eqb_neq _ _)), E1, (proj2 (Z.ltb_ge _ _)) by lia; rewrite E1 in HL; by rewrite HL.
Qed.

Lemma info_split ts r info : types_bytes false (ts ++ [set_rinfo r info]) =
  (types_bytes false ts ++ le_split 4 (r_name r)) ++ le_split 4 info ++ le_split 4 (r_size r) ++ enc_words (r_extra r).
Proof. rewrite types_bytes_snoc, <- app_assoc. done. Qed.

(** Assigning the information of the last type. *)
Lemma set_last_run b o ts strs r info rest f n0 : own_state o (ts ++ [r]) strs -> own b = with_info o ts r info rest -> b_start_id o = 1 + n0 -> 0 <= n0 ->
  n0 + zlen (ts ++ [r]) <= BTF_MAX_NR_TYPES -> is_u32 info ->
  set_last_info f b = Some (inr tt, {| own := with_info o ts r (f info) rest; bases := bases b |}).
Proof.
  intros Ho Eo Hst H0 Hn Hi. unfold set_last_info, bind, ask. rewrite (last_type_at b o ts strs r _ n0 Ho Eo Hst H0 Hn). cbn [mbind option_bind].
  assert (b_types (own b) = types_bytes false (ts ++ [set_rinfo r info]) ++ rest) as Et by (rewrite Eo; unfold with_info; by destruct o).
  assert (info_at b (zlen (types_bytes false ts)) = Some info) as ->.
  { unfold info_at. rewrite Et, info_split, <- !app_assoc, app_assoc. apply load_app_le; [rewrite zlen_app, zlen_le_split; lia | done]. }
  cbn [mbind option_bind]. unfold put, change_own. rewrite Et, info_split, <- !(app_assoc _ _ rest). cbn [store_words].
  rewrite (store_app _ (le_split 4 info)) by (rewrite ?zlen_app, ?zlen_le_split, ?length_le_split; done). cbn [mbind option_bind]. do 3 f_equal.
  destruct b as [own bases]. cbn in *. subst own. unfold with_info. rewrite !info_split, <- !app_assoc. by destruct o.
Qed.

(** What a function that updates the last type promises. *)
Definition sets_last (upd : act unit) (f : Z -> Z) : Prop := forall b o ts strs r info rest n0, own_state o (ts ++ [r]) strs ->
  own b = with_info o ts r info rest -> b_start_id o = 1 + n0 -> 0 <= n0 -> n0 + zlen (ts ++ [r]) <= BTF_MAX_NR_TYPES -> is_u32 info ->
  upd b = Some (inr tt, {| own := with_info o ts r (f info) rest; bases := bases b |}).

Lemma sets_last_info f : sets_last (set_last_info f) f.
Proof. intros b o ts strs r info rest n0 Ho Eo Hs H0 Hn Hi. by eapply set_last_run. Qed.

Lemma sets_last_seq (upd upd' : act unit) f g : (forall info, is_u32 (f info)) -> sets_last upd f -> sets_last upd' g ->
  sets_last (upd ;; upd') (fun info => g (f info)).
Proof.
  intros Hf H1 H2 b o ts strs r info rest n0 Ho Eo Hs H0 Hn Hi. unfold bind. rewrite (H1 b o ts strs r info rest n0) by done.
  by rewrite (H2 _ o ts strs r (f info) rest n0).
Qed.

Lemma sets_last_none : sets_last (ret tt) (fun info => info).
Proof. intros b o ts strs r info rest n0 _ Eo _ _ _ _. unfold ret. do 2 f_equal. destruct b. cbn in *. by subst. Qed.

(** The members written behind the last type become part of it. *)
Lemma own_state_member o ts r strs ws info rest : own_state o (ts ++ [r]) strs -> b_modifiable o = true ->
  b_types o = types_bytes false (ts ++ [r]) ++ enc_words ws ++ rest -> rtype_ok (add_words r info ws) ->
  zlen (types_bytes false (ts ++ [r])) + 4 * zlen ws <= UINT32_MAX ->
  own_state ((with_info o ts r info (enc_words ws ++ rest)) {{ b_hdr := grow_types (b_hdr o) (4 * zlen ws) }}) (ts ++ [add_words r info ws]) strs.
Proof.
  intros Ho Em Et Hr Hlim. destruct (own_types_cap _ _ _ Ho Em) as [C1 C2]. pose proof (zlen_nonneg ws) as Z0.
  pose proof Ho as [[H1 H2 H3 H4 H5] (m & Em1 & Em2) El Hm Ht Hmod]. rewrite Em in Hmod. destruct Hmod as (_ & _ & Hset).
  assert (types_bytes false (ts ++ [set_rinfo r info]) ++ enc_words ws ++ rest = types_bytes false (ts ++ [add_words r info ws]) ++ rest) as Eb.
  { rewrite !types_bytes_snoc, <- !app_assoc. f_equal. rewrite (app_assoc (enc_words (r_words _))), <- enc_words_app. done. }
  assert (zlen (types_bytes false (ts ++ [add_words r info ws])) = zlen (types_bytes false (ts ++ [r])) + 4 * zlen ws) as Ez.
  { rewrite !types_bytes_snoc, !zlen_app, !zlen_enc_words. unfold r_words, add_words. cbn [r_extra]. rewrite !zlen_app. change (zlen [_; _; _]) with 3. lia. }
  assert (type_len (grow_types (b_hdr o) (4 * zlen ws)) = zlen (types_bytes false (ts ++ [add_words r info ws]))) as Etl.
  { unfold grow_types. destruct (b_hdr o). cbn in *. unfold constant. rewrite H4, Ez. apply u32_id. unfold UINT32_MAX in Hlim. pose proof (zlen_nonneg (types_bytes false (ts ++ [r]))). lia. }
  assert (str_len (grow_types (b_hdr o) (4 * zlen ws)) = str_len (b_hdr o)) as Esl by (by destruct (b_hdr o)).
  unfold with_info. rewrite Eb. set (h := grow_types _ _) in *. clearbody h.
  assert (offsets (ts ++ [add_words r info ws]) 0 = offsets (ts ++ [r]) 0) as Eoff by (by rewrite !offsets_app).
  destruct o. cbn in *. unfold constant in *. subst. split; cbn; try done.
  - split; cbn; try done.
    + by eexists.
    + apply Forall_app in H2 as [H2 _]. apply Forall_app. split; [done | by constructor].
    + rewrite Eoff. by destruct H3.
    + destruct H5 as (m' & ? & ?). exists m'. rewrite Esl. done.
  - by exists m.
  - congruence.
  - rewrite Etl, Ez. done.
  - split; [| done]. rewrite !zlen_app, Ez, zlen_enc_words. lia.
Qed.

Section Steps.
Context (e : nat -> add_env) (He : env_ok e).
Context (ts0 : list rtype) (strs0 : list byte).
(** How long the strings may become. *)
Context (mx : Z).

(** An object replaced by one with the same shape. *)
Lemma obj_own b o' ts strs ts' strs' : obj b ts0 strs0 ts strs -> shape o' = shape (own b) -> own_state o' ts' strs' ->
  obj {| own := o'; bases := bases b |} ts0 strs0 ts' strs'.
Proof. intros [Hb _ H1 H2] Hs Ho. unfold shape in Hs. split; cbn; try done; congruence. Qed.

Lemma make_modifiable_ok b ts strs : obj b ts0 strs0 ts strs ->
  runs (make_modifiable e) b (fun r b' => obj b' ts0 strs0 ts strs /\ keeps (own b) ts strs (own b') ts strs /\
    match r with
    | inl z => z = - ENOMEM /\ short e
    | inr _ => b_modifiable (own b') = true /\ b_raw (own b') = None /\ b_raw_swapped (own b') = None
    end).
Proof.
  intros Hobj. unfold runs, make_modifiable.
  destruct (ensure_ok e 0 (has_base (bases b)) (own b) ts strs He (ob_own _ _ _ _ _ Hobj)) as (err & o1 & -> & Ho1 & Hk & _ & Hr). cbn [mbind option_bind].
  assert (b {{ own := o1 }} = {| own := o1; bases := bases b |}) as -> by (by destruct b).
  pose proof (obj_own b o1 ts strs ts strs Hobj (proj1 Hk) Ho1) as Hobj1.
  destruct Hr as [[Herr Hsh] | (-> & Hr)].
  - unfold c_true. rewrite (proj2 (Z.eqb_neq _ _)) by done. cbn [negb]. eexists _, _. split; [done |]. split_and!; try done. by exists 0%nat.
  - change (c_true 0) with false. cbv iota. by eexists _, _.
Qed.

Lemma type_mem_ok b ts strs sz : obj b ts0 strs0 ts strs -> b_modifiable (own b) = true -> b_raw (own b) = None /\ b_raw_swapped (own b) = None ->
  0 < sz -> zlen (types_bytes false ts) + sz <= UINT32_MAX ->
  runs (type_mem e sz) b (fun r b' => obj b' ts0 strs0 ts strs /\ keeps (own b) ts strs (own b') ts strs /\
    (b_raw (own b') = None /\ b_raw_swapped (own b') = None) /\
    match r with inl z => z = - ENOMEM /\ short e | inr p => p = zlen (types_bytes false ts) /\ room (own b') ts [] sz end).
Proof.
  intros Hobj Em Hraw Hsz Hlim. pose proof (ob_own _ _ _ _ _ Hobj) as Ho. destruct (own_types_cap _ _ _ Ho Em) as [C1 C2].
  pose proof (ow_len _ _ (os_own _ _ _ Ho)) as Hl. destruct (ow_types _ _ (os_own _ _ _ Ho)) as [rest Et].
  pose proof (zlen_nonneg rest). pose proof (zlen_nonneg (types_bytes false ts)). unfold runs, type_mem, btf_add_type_mem. rewrite Hl. unfold UINT32_MAX in *.
  assert (zlen (types_bytes false ts) <= b_types_cap (own b)) as Hle by (rewrite C1, Et, zlen_app; lia).
  pose proof (add_mem_spec (ae_realloc (e 0%nat)) (b_types (own b)) (b_types_cap (own b)) 1 (zlen (types_bytes false ts)) (2 ^ 32 - 1) sz) as HA.
  destruct (libbpf_add_mem _ _ _ _ _ _ _) as [[[p data] cap] |].
  - destruct HA as (-> & Hd & Hc & n & Ed); [lia .. |]. rewrite Z.mul_1_r in *. subst cap.
    assert (b {{ own := (own b) {{ b_types := data; b_types_cap := zlen data }} }} =
      {| own := (own b) {{ b_types := data; b_types_cap := zlen data }}; bases := bases b |}) as E by (by destruct b).
    assert (exists rest', data = types_bytes false ts ++ rest') as Hd' by (eexists; by rewrite Ed, Et, <- app_assoc).
    eexists _, _. split; [rewrite E; reflexivity |]. split; [| split; [split; [by destruct (own b) | left; by destruct (own b)] | split; [by destruct (own b) |]]].
    + eapply obj_own; [exact Hobj | by destruct (own b) |]. apply own_state_types; try done. unfold UINT32_MAX. lia.
    + split; [done |]. split; [by destruct (own b) |]. destruct Hd' as [rest' Ed']. exists rest'. split; [by destruct (own b) |].
      rewrite Ed', zlen_app in Hc. lia.
  - eexists _, _. split; [done |]. split; [done |]. split; [apply keeps_refl |]. split; [done |]. split; [done |]. exists 0%nat.
    destruct HA as [HA | HA]; [lia .. |]. eapply refused_short; [| exact HA]. lia.
Qed.

Definition fresh (o : btf_own) : Prop := b_raw o = None /\ b_raw_swapped o = None.

(** The object [b'], with these types and strings, comes from [b]. *)
Definition later (b : btf) (ts : list rtype) (strs : list byte) (b' : btf) (ts' : list rtype) (strs' : list byte) : Prop :=
  obj b' ts0 strs0 ts' strs' /\ keeps (own b) ts strs (own b') ts' strs' /\ strs `prefix_of` strs'.

Lemma later_refl b ts strs : obj b ts0 strs0 ts strs -> later b ts strs b ts strs.
Proof. intros H. split_and!; [done | apply keeps_refl | done]. Qed.

Lemma later_trans b ts strs b1 ts1 strs1 b2 ts2 strs2 : later b ts strs b1 ts1 strs1 -> later b1 ts1 strs1 b2 ts2 strs2 -> later b ts strs b2 ts2 strs2.
Proof. intros (_ & K1 & P1) (O2 & K2 & P2). split_and!; [done | by eapply keeps_trans | by etransitivity]. Qed.

Lemma later_fresh b ts strs b' ts' strs' : later b ts strs b' ts' strs' -> fresh (own b) -> fresh (own b').
Proof.
  intros (_ & [_ [H | (E & _)]] & _) [H1 H2]; [done |]. unfold cached in E. injection E as E1 E2 _. split; congruence.
Qed.

Lemma later_new_fresh b ts strs b' r strs' : later b ts strs b' (ts ++ [r]) strs' -> fresh (own b').
Proof. intros (_ & [_ [H | (_ & E & _)]] & _); [done |]. apply (f_equal length) in E. rewrite length_app in E. simpl in E. lia. Qed.

(** A step that ends with the object in this state, or for want of memory with
    the types as they were. *)
Definition or_short {A} (b : btf) (ts : list rtype) (strs : list byte) (P : A -> btf -> Prop) (r : Z + A) (b' : btf) : Prop :=
  match r with
  | inl z => z = - ENOMEM /\ short e /\ exists strs', later b ts strs b' ts strs' /\ zlen strs' <= mx
  | inr a => P a b'
  end.

Lemma or_short_bind {A B} (m : act A) (f : A -> act B) b ts strs P (Q : B -> btf -> Prop) : runs m b (or_short b ts strs P) ->
  (forall a b', P a b' -> runs (f a) b' (or_short b ts strs Q)) -> runs (bind m f) b (or_short b ts strs Q).
Proof. intros Hm Hf. apply runs_bind. eapply runs_mono; [exact Hm |]. intros [z | a] b' H; [exact H | by apply Hf]. Qed.

Lemma or_short_later {A} (m : act A) b ts strs b1 strs1 (P : A -> btf -> Prop) : later b ts strs b1 ts strs1 ->
  runs m b1 (or_short b1 ts strs1 P) -> runs m b1 (or_short b ts strs P).
Proof.
  intros HL Hm. eapply runs_mono; [exact Hm |]. intros [z | a] b' H; [| exact H]. destruct H as (-> & Hs & strs' & HL' & Hz). split_and!; try done.
  exists strs'. split; [by eapply later_trans | done].
Qed.

Lemma new_mem_ok b ts strs sz : obj b ts0 strs0 ts strs -> zlen strs <= mx -> 0 < sz -> zlen (types_bytes false ts) + sz <= UINT32_MAX ->
  runs (new_mem e sz) b (or_short b ts strs (fun p b' => later b ts strs b' ts strs /\ fresh (own b') /\
    p = zlen (types_bytes false ts) /\ room (own b') ts [] sz)).
Proof.
  intros Hobj Hmx Hsz Hlim. unfold new_mem. apply runs_bind. eapply runs_mono; [by apply make_modifiable_ok |].
  intros [z | []] b1 (O1 & K1 & H1); [destruct H1; split_and!; try done; by exists strs; split |]. destruct H1 as (Em & Hr).
  eapply runs_mono; [by eapply type_mem_ok |]. intros r b2 (O2 & K2 & Hf & H2).
  assert (later b ts strs b2 ts strs) as HL by (split_and!; [done | by eapply keeps_trans | done]).
  destruct r as [z | p]; [destruct H2; split_and!; try done; by exists strs; split | destruct H2; by split_and!].
Qed.

(** *** Names *)

(** NULL or a string, as memory. *)
Definition mem_of (name : option (list byte)) : option (list byte) := (fun s => s ++ [NUL]) <$> name.
Definition name_str (name : option (list byte)) : list byte := default [] name.
Definition name_ok (name : option (list byte)) : Prop := string_ok (name_str name).

Lemma has_name_ok name : name_ok name -> has_name (mem_of name) = Some (bool_decide (name_str name <> [])).
Proof.
  intros [Hn _]. destruct name as [[| x s] |]; [done | | done]. cbn [mem_of fmap option_fmap option_map has_name app]. cbn [name_str default from_option id] in *.
  destruct (load8_lookup (x :: s ++ [NUL]) 0 x 0 eq_refl eq_refl) as (v & -> & Ev). cbn [mbind option_bind]. rewrite Ev. f_equal.
  rewrite (bool_decide_false (x = NUL)) by (intros ->; apply Hn; by left). by rewrite bool_decide_true.
Qed.

Definition named_post (b : btf) (ts : list rtype) (strs : list byte) (pend : list Z) (n : Z) (name : list byte) (off : Z) (b' : btf) : Prop :=
  exists strs', later b ts strs b' ts strs' /\ fresh (own b') /\ room (own b') ts pend n /\ zlen strs' <= zlen strs + zlen name + 1 /\
    string_at (strs0 ++ strs') off = Some name.

Lemma add_name_ok b ts strs pend n s : obj b ts0 strs0 ts strs -> fresh (own b) -> room (own b) ts pend n -> string_ok s ->
  zlen strs0 + zlen strs + zlen s + 1 <= BTF_MAX_STR_OFFSET -> zlen strs + zlen s + 1 <= mx ->
  runs (add_name e (mem_of (Some s))) b (or_short b ts strs (named_post b ts strs pend n s)).
Proof.
  intros Hobj Hf [Em (rest & Et & Hn)] Hs Hlim Hmx. unfold runs, add_name. cbn [mem_of fmap option_fmap option_map mbind option_bind].
  destruct (add_str_ok e He b ts0 strs0 ts strs s [] Hobj Hs Hlim) as (off & b' & strs' & -> & O' & K' & Hp & Hz & Hty & Hr). cbn [mbind option_bind].
  assert (later b ts strs b' ts strs') as HL by (by split_and!).
  destruct Hr as [[-> Hsh] | Hat]; [eexists _, _; split; [done |]; split_and!; try done; exists strs'; split; [done | lia] |].
  rewrite (proj2 (Z.ltb_ge _ _)) by (apply string_at_range in Hat; lia). eexists _, _. split; [done |]. exists strs'. destruct (Hty Em) as [Em' Et'].
  split_and!; try done; [by apply (later_fresh _ _ _ _ _ _ HL) .. |]. split; [done |]. exists rest. by rewrite Et'.
Qed.

Lemma need_name_ok name b (Q : Z + unit -> btf -> Prop) : name_ok name -> (name_str name <> [] -> Q (inr tt) b) ->
  (name_str name = [] -> Q (inl (- EINVAL)) b) -> runs (need_name (mem_of name)) b Q.
Proof.
  intros Hn H1 H2. unfold need_name. apply runs_bind. eapply runs_ask; [by apply has_name_ok |]. cbv beta iota.
  apply runs_require; intros E; [apply H1 | apply H2]; apply bool_decide_eq_true in E || apply bool_decide_eq_false in E; [done |].
  by apply dec_stable.
Qed.

Lemma opt_name_ok b ts strs pend n name : obj b ts0 strs0 ts strs -> fresh (own b) -> room (own b) ts pend n -> name_ok name ->
  zlen strs0 + zlen strs + zlen (name_str name) + 1 <= BTF_MAX_STR_OFFSET -> zlen strs + zlen (name_str name) + 1 <= mx ->
  string_at (strs0 ++ strs) 0 = Some [] ->
  runs (opt_name e (mem_of name)) b (or_short b ts strs (named_post b ts strs pend n (name_str name))).
Proof.
  intros Hobj Hf Hr Hn Hlim Hmx H0. unfold opt_name. apply runs_bind. eapply runs_ask; [by apply has_name_ok |]. cbv beta iota.
  case_bool_decide as Hne.
  - destruct name as [s |]; [| done]. by apply add_name_ok.
  - apply runs_ret. rewrite Hne. exists strs. split_and!; try done; [by apply later_refl |].
    pose proof (zlen_nonneg (@nil byte)). lia.
Qed.

(** *** Writing and committing *)

Lemma put_ok b ts strs pend n p ws : obj b ts0 strs0 ts strs -> fresh (own b) -> room (own b) ts pend n -> p = zlen (types_bytes false ts) + 4 * zlen pend ->
  4 * zlen ws <= n ->
  runs (put p ws) b (or_short b ts strs (fun _ b' => later b ts strs b' ts strs /\ fresh (own b') /\ room (own b') ts (pend ++ ws) (n - 4 * zlen ws))).
Proof.
  intros Hobj Hf [Em (rest & Et & Hn)] -> Hws. pose proof (ob_own _ _ _ _ _ Hobj) as Ho. destruct (own_types_cap _ _ _ Ho Em) as [C1 C2].
  pose proof (zlen_enc_words ws) as Hz. assert (length (enc_words ws) <= length rest)%nat as Hle by (unfold zlen in *; lia).
  set (data := types_bytes false ts ++ enc_words (pend ++ ws) ++ drop (length (enc_words ws)) rest).
  assert (zlen data = zlen (b_types (own b))) as Hd.
  { unfold data. rewrite Et, !zlen_app, enc_words_app, zlen_app. unfold zlen. rewrite length_drop. lia. }
  unfold runs, put, change_own.
  assert (store_words (b_types (own b)) (zlen (types_bytes false ts) + 4 * zlen pend) ws = Some data) as ->.
  { rewrite Et, app_assoc, <- (take_drop (length (enc_words ws)) rest).
    rewrite store_words_run; [| rewrite zlen_app, zlen_enc_words; lia | rewrite length_take; lia]. unfold data. by rewrite enc_words_app, <- !app_assoc. }
  cbn [mbind option_bind].
  assert ((own b) {{ b_types := data }} = (own b) {{ b_types := data; b_types_cap := zlen data }}) as E by (rewrite Hd, <- C1; by destruct (own b)).
  eexists _, _. split; [reflexivity |].
  assert (b {{ own := (own b) {{ b_types := data }} }} = {| own := (own b) {{ b_types := data }}; bases := bases b |}) as -> by (by destruct b).
  split; [| split; [by destruct (own b) |]].
  - split; [| split; [split; [by destruct (own b) | left; by destruct (own b)] | done]]. eapply obj_own; [done | by destruct (own b) |].
    cbn [own]. rewrite E. apply own_state_types; [done | done | lia |]. by eexists.
  - split; [by destruct (own b) |]. exists (drop (length (enc_words ws)) rest). split; [by destruct (own b) |].
    unfold zlen in *. rewrite length_drop. lia.
Qed.

Lemma commit_ok b ts strs r n sz : obj b ts0 strs0 ts strs -> zlen strs <= mx -> fresh (own b) -> room (own b) ts (r_words r) n -> rtype_ok r ->
  sz = zlen (type_bytes false r) -> zlen (types_bytes false ts) + sz <= UINT32_MAX -> zlen ts0 + zlen ts + 1 <= BTF_MAX_NR_TYPES ->
  runs (btf_commit_type e sz) b (or_short b ts strs (fun id b' => id = zlen ts0 + zlen ts + 1 /\ b_modifiable (own b') = true /\ later b ts strs b' (ts ++ [r]) strs)).
Proof.
  intros Hobj Hmx Hf Hroom Hr -> Hlim Hcnt. pose proof (ob_own _ _ _ _ _ Hobj) as Ho. pose proof (ow_len _ _ (os_own _ _ _ Ho)) as Hl.
  pose proof (own_ok_nr _ _ (os_own _ _ _ Ho)) as Hnr. pose proof (zlen_nonneg ts0) as Z0. pose proof (zlen_nonneg ts) as Z1.
  pose proof (zlen_nonneg (types_bytes false ts)) as Z2. pose proof (zlen_nonneg (type_bytes false r)) as Z3. unfold UINT32_MAX, BTF_MAX_NR_TYPES in *.
  unfold runs, btf_commit_type. rewrite Hl.
  destruct (add_idx_run (ae_realloc (e 0%nat)) (own b) (offsets ts 0) (zlen (types_bytes false ts)) (ow_offs _ _ (os_own _ _ _ Ho)))
    as (err & o' & -> & Hr'); [lia |]. cbn [mbind option_bind].
  destruct Hr' as [(-> & Hroom' & ->) | (-> & (offs & cap & ->) & Hoffs)].
  - change (c_true (- ENOMEM)) with true. cbv iota. assert (b {{ own := own b }} = b) as -> by (by destruct b). eexists _, _. split; [done |].
    split; [done |]. split; [| exists strs; split; [by apply later_refl | done]]. exists 0%nat. unfold no_offs_room, BTF_MAX_NR_TYPES in Hroom'.
    destruct Hroom' as [Hx | Hx]; [unfold zlen in *; rewrite length_offsets in Hx; lia |]. eapply refused_short; [| exact Hx]. lia.
  - change (c_true 0) with false. cbv iota. set (o1 := (own b) {{ b_offs := offs; b_offs_cap := cap }}) in *.
    assert (types_bytes false [r] = type_bytes false r) as Eb by (change (types_bytes false [r]) with (type_bytes false r ++ []); apply app_nil_r).
    pose proof (own_state_commit (own b) ts strs [r] (zlen (type_bytes false r)) offs cap Ho ltac:(cbn [fmap list_fmap concat]; rewrite app_nil_r; by eapply room_0)
      ltac:(by constructor) ltac:(by rewrite Eb) ltac:(unfold UINT32_MAX; lia) ltac:(unfold BTF_MAX_NR_TYPES; change (zlen [r]) with 1; lia) Hoffs) as Hc. change (zlen [r]) with 1 in Hc.
    set (o2 := (own b) {{ b_offs := offs; b_offs_cap := cap; b_hdr := _; b_nr_types := _ }}) in *.
    assert (o1 {{ b_hdr := grow_types (b_hdr o1) (zlen (type_bytes false r)); b_nr_types := u32 (b_nr_types o1 + 1) }} = o2) as -> by (unfold o1, o2; by destruct (own b)).
    assert (b_start_id o2 + b_nr_types o2 - 1 = zlen ts0 + zlen ts + 1) as ->.
    { pose proof (ob_start _ _ _ _ _ Hobj). unfold o2. destruct (own b). cbn in *. unfold constant. rewrite u32_id by lia. lia. }
    rewrite s32_id by lia. assert (b {{ own := o1 }} {{ own := o2 }} = {| own := o2; bases := bases b |}) as -> by (by destruct b).
    eexists _, _. split; [done |]. split; [done |]. split; [destruct Hroom as [Em _]; unfold o2; by destruct (own b) |]. assert (shape o2 = shape (own b)) as Hsh.
    { unfold o2. apply (shape_grow (own b) (zlen (type_bytes false r))); by destruct (own b). }
    split; [by eapply obj_own |]. split; [| done]. split; [done |]. left. unfold o2. by destruct (own b).
Qed.

(** *** A new type *)

Definition new_post (b : btf) (ts : list rtype) (strs : list byte) (name : list byte) (info size : Z) (extra : list Z) (id : Z) (b' : btf) : Prop :=
  id = zlen ts0 + zlen ts + 1 /\ b_modifiable (own b') = true /\ exists off strs', later b ts strs b' (ts ++ [{| r_name := off; r_info := info; r_size := size; r_extra := extra |}]) strs' /\
    string_at (strs0 ++ strs') off = Some name /\ zlen strs' <= zlen strs + zlen name + 1.

(** What a function that gives a name promises. *)
Definition gives_name (nm : act Z) (ts : list rtype) (strs name : list byte) : Prop := forall b pend n, obj b ts0 strs0 ts strs -> fresh (own b) ->
  room (own b) ts pend n -> runs nm b (or_short b ts strs (named_post b ts strs pend n name)).

Lemma new_decl_ok nm b ts strs name info size extra sz : gives_name nm ts strs name -> obj b ts0 strs0 ts strs -> is_u32 info -> is_u32 size ->
  Forall (fun w => is_u32 w) extra -> extra_words info = Some (zlen extra) -> sz = 12 + 4 * zlen extra ->
  zlen (types_bytes false ts) + sz <= UINT32_MAX -> zlen ts0 + zlen ts + 1 <= BTF_MAX_NR_TYPES ->
  zlen strs0 + zlen strs + zlen name + 1 <= BTF_MAX_STR_OFFSET -> zlen strs + zlen name + 1 <= mx ->
  runs (t <- new_mem e sz ;; off <- nm ;; put t (off :: info :: size :: extra) ;; btf_commit_type e sz) b
    (or_short b ts strs (new_post b ts strs name info size extra)).
Proof.
  intros Hnm Hobj Hi Hs He' Hx Hsz Hl1 Hl2 Hl3 Hmx. pose proof (zlen_nonneg extra) as Z0. pose proof (zlen_nonneg name) as Z1.
  eapply or_short_bind; [apply new_mem_ok; [done | lia | lia | done] |].
  intros t b1 (L1 & F1 & -> & R1). apply or_short_later with (1 := L1). eapply or_short_bind; [apply (Hnm b1 [] sz); [apply L1 | done | done] |].
  intros off b2 (strs2 & L2 & F2 & R2 & Hz & Hat). apply or_short_later with (1 := L2).
  assert (is_u32 off) as Ho. { apply string_at_range in Hat. rewrite zlen_app in Hat. unfold BTF_MAX_STR_OFFSET in Hl3. lia. }
  set (r := {| r_name := off; r_info := info; r_size := size; r_extra := extra |}).
  assert (rtype_ok r) as Hr by (split; [by repeat (apply Forall_cons; split; [assumption |]) | done]).
  eapply or_short_bind; [eapply (put_ok b2 ts strs2 [] sz _ (r_words r)); [apply L2 | done | done | change (zlen []) with 0; lia |] |].
  { change (zlen (r_words r)) with (zlen ([off; info; size] ++ extra)). rewrite zlen_app. change (zlen [off; info; size]) with 3. lia. }
  intros [] b3 (L3 & F3 & R3). apply or_short_later with (1 := L3).
  eapply runs_mono; [eapply (commit_ok b3 ts strs2 r); [apply L3 | lia | done | exact R3 | done | by rewrite zlen_type_bytes | done | done] |].
  intros [z | id] b4 H4; [exact H4 |]. destruct H4 as (-> & M4 & L4). split; [done |]. split; [done |]. exists off, strs2. split; [| done].
  eapply later_trans; [exact L1 |]. eapply later_trans; [exact L2 |]. by eapply later_trans.
Qed.

(** The same when the words behind the struct are assigned after it. *)
Lemma new_decl_extra_ok nm b ts strs name info size extra sz : gives_name nm ts strs name -> obj b ts0 strs0 ts strs -> is_u32 info -> is_u32 size ->
  Forall (fun w => is_u32 w) extra -> extra_words info = Some (zlen extra) -> sz = 12 + 4 * zlen extra ->
  zlen (types_bytes false ts) + sz <= UINT32_MAX -> zlen ts0 + zlen ts + 1 <= BTF_MAX_NR_TYPES ->
  zlen strs0 + zlen strs + zlen name + 1 <= BTF_MAX_STR_OFFSET -> zlen strs + zlen name + 1 <= mx ->
  runs (t <- new_mem e sz ;; off <- nm ;; put t [off; info; size] ;; put (t + 12) extra ;; btf_commit_type e sz) b
    (or_short b ts strs (new_post b ts strs name info size extra)).
Proof.
  intros. eapply runs_ext; [| by apply new_decl_ok]. apply bind_ext. intros t. apply bind_ext. intros off b'. apply (put_put t [off; info; size] extra).
Qed.

Lemma no_name ts strs : string_at (strs0 ++ strs) 0 = Some [] -> gives_name (ret 0) ts strs [].
Proof.
  intros H0 b pend n Hobj Hf Hr. apply runs_ret. exists strs. split_and!; try done; [by apply later_refl |]. change (zlen (@nil byte)) with 0. lia.
Qed.

Lemma some_name ts strs name : name_ok name -> name_str name <> [] -> zlen strs0 + zlen strs + zlen (name_str name) + 1 <= BTF_MAX_STR_OFFSET ->
  zlen strs + zlen (name_str name) + 1 <= mx -> gives_name (add_name e (mem_of name)) ts strs (name_str name).
Proof. intros Hn Hne Hl Hmx b pend n Hobj Hf Hr. destruct name as [s |]; [| done]. by apply add_name_ok. Qed.

Lemma any_name ts strs name : name_ok name -> zlen strs0 + zlen strs + zlen (name_str name) + 1 <= BTF_MAX_STR_OFFSET ->
  zlen strs + zlen (name_str name) + 1 <= mx ->
  string_at (strs0 ++ strs) 0 = Some [] -> gives_name (opt_name e (mem_of name)) ts strs (name_str name).
Proof. intros Hn Hl Hmx H0 b pend n Hobj Hf Hr. by apply opt_name_ok. Qed.

(** *** Members of the last type *)

Definition member_post (b : btf) (ts : list rtype) (r : rtype) (strs : list byte) (name : list byte) (info : Z) (ws : Z -> list Z) (z : Z) (b' : btf) : Prop :=
  z = 0 /\ exists off strs', later b (ts ++ [r]) strs b' (ts ++ [add_words r info (ws off)]) strs' /\
    string_at (strs0 ++ strs') off = Some name /\ zlen strs' <= zlen strs + zlen name + 1.

Lemma set_rinfo_same r : set_rinfo r (r_info r) = r.
Proof. by destruct r. Qed.

(** The update of the last type and the commit. *)
Lemma update_commit_ok b ts r strs ws info n upd f : obj b ts0 strs0 (ts ++ [r]) strs -> fresh (own b) -> room (own b) (ts ++ [r]) ws n -> sets_last upd f ->
  info = f (r_info r) -> rtype_ok (add_words r info ws) -> zlen (types_bytes false (ts ++ [r])) + 4 * zlen ws <= UINT32_MAX ->
  zlen ts0 + zlen (ts ++ [r]) <= BTF_MAX_NR_TYPES ->
  runs (upd ;; commit_member (4 * zlen ws)) b (fun z b' => z = inr 0 /\ later b (ts ++ [r]) strs b' (ts ++ [add_words r info ws]) strs).
Proof.
  intros Hobj Hf [Em (rest & Et & _)] Hupd -> Hr Hlim Hcnt. pose proof (ob_own _ _ _ _ _ Hobj) as Ho.
  assert (own b = with_info (own b) ts r (r_info r) (enc_words ws ++ rest)) as Eo by (unfold with_info; rewrite set_rinfo_same, <- Et; by destruct (own b)).
  pose proof (own_last_info _ _ _ _ Ho) as Hi.
  unfold runs, bind. rewrite (Hupd b (own b) ts strs r (r_info r) (enc_words ws ++ rest) (zlen ts0) Ho Eo (ob_start _ _ _ _ _ Hobj) (zlen_nonneg _) Hcnt Hi).
  unfold commit_member, bind, change_own. cbn [mbind option_bind own bases]. eexists _, _. split; [reflexivity |]. split; [done |].
  pose proof (own_state_member (own b) ts r strs ws (f (r_info r)) rest Ho Em Et Hr Hlim) as Hos.
  clear Eo. set (o1 := with_info (own b) ts r (f (r_info r)) (enc_words ws ++ rest)) in *.
  assert (b_hdr o1 = b_hdr (own b)) as Eh by (unfold o1, with_info; by destruct (own b)). rewrite Eh.
  match goal with |- later _ _ _ ?x _ _ => change x with {| own := o1 {{ b_hdr := grow_types (b_hdr (own b)) (4 * zlen ws) }}; bases := bases b |} end.
  set (o2 := o1 {{ b_hdr := _ }}) in *.
  assert (shape o2 = shape (own b)) as Hsh by (apply (shape_grow (own b) (4 * zlen ws)); unfold o2, o1, with_info; by destruct (own b)).
  split; [by eapply obj_own |]. split; [| done]. split; [done |]. left. unfold o2, o1, with_info. by destruct (own b).
Qed.

Lemma member_ok nm upd f wsf b ts r strs name sz : gives_name nm (ts ++ [r]) strs name -> sets_last upd f -> obj b ts0 strs0 (ts ++ [r]) strs ->
  (forall off, is_u32 off -> rtype_ok (add_words r (f (r_info r)) (wsf off)) /\ sz = 4 * zlen (wsf off)) -> 0 < sz ->
  zlen (types_bytes false (ts ++ [r])) + sz <= UINT32_MAX -> zlen ts0 + zlen (ts ++ [r]) <= BTF_MAX_NR_TYPES ->
  zlen strs0 + zlen strs + zlen name + 1 <= BTF_MAX_STR_OFFSET -> zlen strs + zlen name + 1 <= mx ->
  runs (m <- new_mem e sz ;; off <- nm ;; put m (wsf off) ;; upd ;; commit_member sz) b
    (or_short b (ts ++ [r]) strs (member_post b ts r strs name (f (r_info r)) wsf)).
Proof.
  intros Hnm Hupd Hobj Hws Hsz Hl1 Hl2 Hl3 Hmx. pose proof (zlen_nonneg name) as Z1.
  eapply or_short_bind; [apply new_mem_ok; [done | lia | lia | done] |].
  intros t b1 (L1 & F1 & -> & R1). apply or_short_later with (1 := L1). eapply or_short_bind; [apply (Hnm b1 [] sz); [apply L1 | done | done] |].
  intros off b2 (strs2 & L2 & F2 & R2 & Hz & Hat). apply or_short_later with (1 := L2).
  assert (is_u32 off) as Ho. { apply string_at_range in Hat. rewrite zlen_app in Hat. unfold BTF_MAX_STR_OFFSET in Hl3. lia. }
  destruct (Hws off Ho) as [Hr ->].
  eapply or_short_bind; [eapply (put_ok b2 (ts ++ [r]) strs2 [] _ _ (wsf off)); [apply L2 | done | exact R2 | change (zlen []) with 0; lia | lia] |].
  intros [] b3 (L3 & F3 & R3). apply or_short_later with (1 := L3).
  eapply runs_mono; [eapply (update_commit_ok b3 ts r strs2 (wsf off) _ _ upd f); [apply L3 | done | exact R3 | done | done | done | done | done] |].
  intros z b4 (-> & L4). split; [done |]. exists off, strs2. split; [| done].
  eapply later_trans; [exact L1 |]. eapply later_trans; [exact L2 |]. by eapply later_trans.
Qed.

(** The kind of the last type is checked. *)
Lemma need_last_ok ks b ts strs (Q : Z + Z -> btf -> Prop) : obj b ts0 strs0 ts strs -> zlen ts0 + zlen ts <= BTF_MAX_NR_TYPES ->
  match last ts with
  | Some r => if bool_decide (btf_kind (r_info r) ∈ ks) then Q (inr (r_info r)) b else Q (inl (- EINVAL)) b
  | None => Q (inl (- EINVAL)) b
  end -> runs (need_last ks) b Q.
Proof.
  intros Hobj Hn HQ. pose proof (ob_own _ _ _ _ _ Hobj) as Ho. pose proof (own_ok_nr _ _ (os_own _ _ _ Ho)) as Hnr.
  unfold need_last. apply runs_bind. eapply runs_ask; [done |]. cbv beta iota. rewrite Hnr. destruct (last ts) as [r |] eqn:El.
  - apply last_Some in El as [ts' ->]. apply runs_bind. apply runs_require.
    2: { unfold c_true. rewrite zlen_app. change (zlen [r]) with 1. pose proof (zlen_nonneg ts'). intros E. apply negb_false_iff, Z.eqb_eq in E. lia. }
    intros _. apply runs_bind. apply (runs_ask last_info (r_info r)).
    { unfold last_info. erewrite (last_type_at b (own b) ts' strs r (b_types (own b)) (zlen ts0)); try done.
      - cbn [mbind option_bind]. unfold info_at. destruct (ow_types _ _ (os_own _ _ _ Ho)) as [rest ->].
        pose proof (info_split ts' r (r_info r)) as Es. rewrite set_rinfo_same in Es. rewrite Es, <- !app_assoc, app_assoc.
        apply load_app_le; [rewrite zlen_app, zlen_le_split; lia |].
        apply (own_last_info _ _ _ _ Ho).
      - by destruct (own b).
      - apply (ob_start _ _ _ _ _ Hobj).
      - apply zlen_nonneg. }
    cbv beta iota. apply runs_bind. apply runs_require; intros E; rewrite E in HQ; [by apply runs_ret | done].
  - apply last_None in El as ->. apply runs_bind. by apply runs_require.
Qed.

(** *** Assigning the information of a type that has just been added *)

Lemma own_state_info o ts r strs info rest : own_state o (ts ++ [r]) strs -> b_modifiable o = true -> b_types o = types_bytes false (ts ++ [r]) ++ rest ->
  rtype_ok (set_rinfo r info) -> own_state (with_info o ts r info rest) (ts ++ [set_rinfo r info]) strs.
Proof.
  intros Ho Em Et Hr. destruct (own_types_cap _ _ _ Ho Em) as [C1 C2].
  pose proof Ho as [[H1 H2 H3 H4 H5] (m & Em1 & Em2) El Hm Ht Hmod]. rewrite Em in Hmod. destruct Hmod as (_ & _ & Hset).
  assert (zlen (types_bytes false (ts ++ [set_rinfo r info])) = zlen (types_bytes false (ts ++ [r]))) as Ez by (by rewrite !types_bytes_snoc, !zlen_app, !zlen_enc_words).
  assert (offsets (ts ++ [set_rinfo r info]) 0 = offsets (ts ++ [r]) 0) as Eoff by (by rewrite !offsets_app).
  unfold with_info. destruct o. cbn in *. unfold constant in *. subst. split; cbn; try done.
  - split; cbn; try done.
    + by eexists.
    + apply Forall_app in H2 as [H2 _]. apply Forall_app. split; [done | by constructor].
    + rewrite Eoff. by destruct H3.
    + by rewrite Ez.
  - by exists m.
  - split; [| done]. rewrite !zlen_app, Ez. done.
Qed.

Lemma set_info_ok b ts r strs info id : obj b ts0 strs0 (ts ++ [r]) strs -> b_modifiable (own b) = true -> fresh (own b) -> id = zlen ts0 + zlen (ts ++ [r]) ->
  id <= BTF_MAX_NR_TYPES -> rtype_ok (set_rinfo r info) ->
  runs (set_info id info) b (fun z b' => z = inr tt /\ b_modifiable (own b') = true /\ later b (ts ++ [r]) strs b' (ts ++ [set_rinfo r info]) strs).
Proof.
  intros Hobj Em Hf -> Hid Hr. pose proof (ob_own _ _ _ _ _ Hobj) as Ho. destruct (ow_types _ _ (os_own _ _ _ Ho)) as [rest Et].
  pose proof (zlen_nonneg ts0) as Z0. pose proof (zlen_nonneg (ts ++ [r])) as Z1.
  assert (own b = with_info (own b) ts r (r_info r) rest) as Eo by (unfold with_info; rewrite set_rinfo_same, <- Et; by destruct (own b)).
  assert (set_info (zlen ts0 + zlen (ts ++ [r])) info b = set_last_info (fun _ => info) b) as E.
  { assert (u32 (btf__type_cnt b - 1) = zlen ts0 + zlen (ts ++ [r])) as Ei.
    { unfold btf__type_cnt. rewrite (ob_start _ _ _ _ _ Hobj), (own_ok_nr _ _ (os_own _ _ _ Ho)). unfold BTF_MAX_NR_TYPES in Hid.
      rewrite (u32_id (1 + zlen ts0 + _)) by lia. rewrite u32_id by lia. lia. }
    pose proof (set_last_run b (own b) ts strs r (r_info r) rest (fun _ => info) (zlen ts0) Ho Eo (ob_start _ _ _ _ _ Hobj) Z0 Hid (own_last_info _ _ _ _ Ho)) as Hrun.
    unfold set_last_info, set_info, bind, ask, btf_last_type in *. rewrite Ei in *. destruct (own_type_at b _) as [t |]; [| done]. cbn [mbind option_bind] in *.
    by destruct (info_at b t). }
  unfold runs. rewrite E, (set_last_run b (own b) ts strs r (r_info r) rest (fun _ => info) (zlen ts0) Ho Eo (ob_start _ _ _ _ _ Hobj) Z0 Hid (own_last_info _ _ _ _ Ho)).
  eexists _, _. split; [done |]. split; [done |]. split; [unfold with_info; by destruct (own b) |]. set (o1 := with_info (own b) ts r info rest).
  assert (shape o1 = shape (own b)) as Hsh by (unfold o1, with_info; by destruct (own b)).
  split; [eapply obj_own; [done | done | by apply own_state_info] |]. split; [| done]. split; [done |]. left. cbn [own]. unfold o1, with_info. by destruct (own b).
Qed.

End Steps.
