(* ===== verification/BtfOps.v ===== *)
(** Every function of BtfAdd.v that adds a type, against declarations.

    A declaration has a kind, a flag, a number (of members, or a linkage), a
    name, a size or the id of a type, and words that are numbers or
    names.  [spec_op] says what each call does to the list of declarations. *)
From S2P Require Import Prelude.
From S2P Require Import CLib.
From S2P Require Import Hashmap.
From S2P Require Import Strset.
From S2P Require Import Btf.
From S2P Require Import BtfParse.
From S2P Require Import BtfQuery.
From S2P Require Import BtfAdd.
From S2P Require Import BtfBuild.
From S2P Require Import BtfDecl.
From coqutil Require Import Datatypes.RecordSetters.
Import DoubleBraceUpdate.
#[local] Open Scope btf_scope.

(** ** Declarations *)

Inductive dword := WNum (z : Z) | WStr (s : list byte).

Record decl := { d_kind : kind; d_flag : bool; d_vlen : Z; d_name : list byte; d_size : Z; d_rows : list (list dword) }.

(** The words of a type in memory say what the declaration says; [m] are the
    strings. *)
Definition word_is (m : list byte) (x : dword) (w : Z) : Prop := match x with WNum z => w = z | WStr s => string_at m w = Some s end.

Record decl_is (m : list byte) (d : decl) (r : rtype) : Prop := {
  di_kind : btf_kind (r_info r) = d_kind d;
  di_flag : btf_kflag (r_info r) = d_flag d;
  di_vlen : btf_vlen (r_info r) = d_vlen d;
  di_name : string_at m (r_name r) = Some (d_name d);
  di_size : r_size r = d_size d;
  di_words : Forall2 (word_is m) (concat (d_rows d)) (r_extra r)
}.

(** ** The calls *)

Notation cname := (option (list byte)).

Inductive add_op :=
  | AddInt (name : cname) (byte_sz encoding : Z)
  | AddFloat (name : cname) (byte_sz : Z)
  | AddPtr (id : Z)
  | AddArray (index_id elem_id nr_elems : Z)
  | AddStruct (name : cname) (byte_sz : Z)
  | AddUnion (name : cname) (byte_sz : Z)
  | AddField (name : cname) (id bit_offset bit_size : Z)
  | AddEnum (name : cname) (byte_sz : Z)
  | AddEnumValue (name : cname) (value : Z)
  | AddEnum64 (name : cname) (byte_sz : Z) (is_signed : bool)
  | AddEnum64Value (name : cname) (value : Z)
  | AddFwd (name : cname) (fwd_kind : btf_fwd_kind)
  | AddTypedef (name : cname) (id : Z)
  | AddVolatile (id : Z)
  | AddConst (id : Z)
  | AddRestrict (id : Z)
  | AddTypeTag (value : cname) (id : Z)
  | AddFunc (name : cname) (linkage id : Z)
  | AddFuncProto (id : Z)
  | AddFuncParam (name : cname) (id : Z)
  | AddVar (name : cname) (linkage id : Z)
  | AddDatasec (name : cname) (byte_sz : Z)
  | AddDatasecVar (id offset byte_sz : Z)
  | AddDeclTag (value : cname) (id component_idx : Z).

Definition run_op (e : nat -> add_env) (op : add_op) : act Z :=
  match op with
  | AddInt name sz enc => btf__add_int e (mem_of name) sz enc
  | AddFloat name sz => btf__add_float e (mem_of name) sz
  | AddPtr id => btf__add_ptr e id
  | AddArray i t n => btf__add_array e i t n
  | AddStruct name sz => btf__add_struct e (mem_of name) sz
  | AddUnion name sz => btf__add_union e (mem_of name) sz
  | AddField name id off bits => btf__add_field e (mem_of name) id off bits
  | AddEnum name sz => btf__add_enum e (mem_of name) sz
  | AddEnumValue name v => btf__add_enum_value e (mem_of name) v
  | AddEnum64 name sz sg => btf__add_enum64 e (mem_of name) sz sg
  | AddEnum64Value name v => btf__add_enum64_value e (mem_of name) v
  | AddFwd name k => btf__add_fwd e (mem_of name) k
  | AddTypedef name id => btf__add_typedef e (mem_of name) id
  | AddVolatile id => btf__add_volatile e id
  | AddConst id => btf__add_const e id
  | AddRestrict id => btf__add_restrict e id
  | AddTypeTag v id => btf__add_type_tag e (mem_of v) id
  | AddFunc name l id => btf__add_func e (mem_of name) l id
  | AddFuncProto id => btf__add_func_proto e id
  | AddFuncParam name id => btf__add_func_param e (mem_of name) id
  | AddVar name l id => btf__add_var e (mem_of name) l id
  | AddDatasec name sz => btf__add_datasec e (mem_of name) sz
  | AddDatasecVar id off sz => btf__add_datasec_var_info e id off sz
  | AddDeclTag v id idx => btf__add_decl_tag e (mem_of v) id idx
  end.

(** ** What they promise *)

(** An error, a new declaration, or a member of the last one. *)
Inductive effect := EErr (z : Z) | ENew (d : decl) | EMember (flag : bool) (ws : list dword).

Definition plain (k : kind) (name : list byte) (size : Z) (rows : list (list dword)) : effect :=
  ENew {| d_kind := k; d_flag := false; d_vlen := 0; d_name := name; d_size := size; d_rows := rows |}.
Definition flagged (k : kind) (flag : bool) (vlen : Z) (name : list byte) (size : Z) : effect :=
  ENew {| d_kind := k; d_flag := flag; d_vlen := vlen; d_name := name; d_size := size; d_rows := [] |}.

Definition valid_if (c : bool) (ef : effect) : effect := if c then ef else EErr (- EINVAL).
Definition given (name : cname) : bool := negb (bool_decide (name_str name = [])).
Definition id_ok (id : Z) : bool := 0 <=? id.
Definition one_of (z : Z) (zs : list Z) : bool := existsb (Z.eqb z) zs.
Definition last_is (last : option kind) (ks : list kind) : bool := match last with Some k => bool_decide (k ∈ ks) | None => false end.

(** A field in memory: its offset in bits, and the number of bits of a bit field. *)
Definition is_bitfield (off bits : Z) : bool := negb ((bits =? 0) && (off mod 8 =? 0)).
Definition field_ok (off bits : Z) : bool := negb (is_bitfield off bits) || ((1 <=? bits) && (bits <=? 255) && (off <=? 0xffffff)).

(** [last] is the kind of the last declaration. *)
Definition op_effect (op : add_op) (last : option kind) : effect :=
  match op with
  | AddInt name sz enc =>
    valid_if (given name && one_of sz [1; 2; 4; 8; 16] && (0 <=? enc) && (enc <? 8)) (plain KInt (name_str name) sz [[WNum (enc * 2 ^ 24 + sz * 8)]])
  | AddFloat name sz => valid_if (given name && one_of sz [2; 4; 8; 12; 16]) (plain KFloat (name_str name) sz [])
  | AddPtr id => valid_if (id_ok id) (plain KPtr [] id [])
  | AddArray i t n => valid_if (id_ok i && id_ok t) (plain KArray [] 0 [[WNum t; WNum i; WNum n]])
  | AddStruct name sz => plain KStruct (name_str name) sz []
  | AddUnion name sz => plain KUnion (name_str name) sz []
  | AddField name id off bits =>
    valid_if (last_is last [KStruct; KUnion] && id_ok id && field_ok off bits && negb (last_is last [KUnion] && c_true off))
      (EMember (is_bitfield off bits) [WStr (name_str name); WNum id; WNum (off + bits * 2 ^ 24)])
  | AddEnum name sz => valid_if (one_of sz [1; 2; 4; 8]) (plain KEnum (name_str name) sz [])
  | AddEnumValue name v =>
    valid_if (last_is last [KEnum] && given name)
      (if (- 2 ^ 31 <=? v) && (v <? 2 ^ 32) then EMember (v <? 0) [WStr (name_str name); WNum (u32 v)] else EErr (- E2BIG))
  | AddEnum64 name sz sg => valid_if (one_of sz [1; 2; 4; 8]) (flagged KEnum64 sg 0 (name_str name) sz)
  | AddEnum64Value name v =>
    valid_if (last_is last [KEnum64] && given name) (EMember false [WStr (name_str name); WNum (v mod 2 ^ 32); WNum (v / 2 ^ 32)])
  | AddFwd name BTF_FWD_STRUCT => valid_if (given name) (flagged KFwd false 0 (name_str name) 0)
  | AddFwd name BTF_FWD_UNION => valid_if (given name) (flagged KFwd true 0 (name_str name) 0)
  | AddFwd name BTF_FWD_ENUM => valid_if (given name) (plain KEnum (name_str name) 4 [])
  | AddFwd name BTF_FWD_OTHER => EErr (- EINVAL)
  | AddTypedef name id => valid_if (given name && id_ok id) (plain KTypedef (name_str name) id [])
  | AddVolatile id => valid_if (id_ok id) (plain KVolatile [] id [])
  | AddConst id => valid_if (id_ok id) (plain KConst [] id [])
  | AddRestrict id => valid_if (id_ok id) (plain KRestrict [] id [])
  | AddTypeTag v id => valid_if (given v && id_ok id) (plain KTypeTag (name_str v) id [])
  | AddFunc name l id => valid_if (given name && one_of l [0; 1; 2] && id_ok id) (flagged KFunc false l (name_str name) id)
  | AddFuncProto id => valid_if (id_ok id) (plain KFuncProto [] id [])
  | AddFuncParam name id => valid_if (last_is last [KFuncProto] && id_ok id) (EMember false [WStr (name_str name); WNum id])
  | AddVar name l id => valid_if (given name && one_of l [0; 1; 2] && id_ok id) (plain KVar (name_str name) id [[WNum l]])
  | AddDatasec name sz => valid_if (given name) (plain KDatasec (name_str name) sz [])
  | AddDatasecVar id off sz => valid_if (last_is last [KDatasec] && id_ok id) (EMember false [WNum id; WNum off; WNum sz])
  | AddDeclTag v id idx => valid_if (given v && (-1 <=? idx) && id_ok id) (plain KDeclTag (name_str v) id [[WNum (u32 idx)]])
  end.

Definition add_to (d : decl) (flag : bool) (ws : list dword) : decl :=
  {| d_kind := d_kind d; d_flag := flag || d_flag d; d_vlen := d_vlen d + 1; d_name := d_name d; d_size := d_size d; d_rows := d_rows d ++ [ws] |}.

(** The result and the declarations after a call; ids start behind [n0]. *)
Definition apply_effect (ef : effect) (n0 : Z) (ds : list decl) : Z * list decl :=
  match ef with
  | EErr z => (z, ds)
  | ENew d => (n0 + zlen ds + 1, ds ++ [d])
  | EMember flag ws => (0, match last ds with Some d => take (pred (length ds)) ds ++ [add_to d flag ws] | None => ds end)
  end.

Definition spec_op (op : add_op) (n0 : Z) (ds : list decl) : Z * list decl := apply_effect (op_effect op (d_kind <$> last ds)) n0 ds.

(** The arguments have the types of the parameters. *)
Definition is_int (z : Z) : Prop := - 2 ^ 31 <= z < 2 ^ 31.
Definition op_args (op : add_op) : Prop :=
  match op with
  | AddInt name sz enc => name_ok name /\ 0 <= sz < 2 ^ 64 /\ is_int enc
  | AddFloat name sz => name_ok name /\ 0 <= sz < 2 ^ 64
  | AddPtr id | AddVolatile id | AddConst id | AddRestrict id | AddFuncProto id => is_int id
  | AddArray i t n => is_int i /\ is_int t /\ is_u32 n
  | AddStruct name sz | AddUnion name sz | AddEnum name sz | AddEnum64 name sz _ | AddDatasec name sz => name_ok name /\ is_u32 sz
  | AddField name id off bits => name_ok name /\ is_int id /\ is_u32 off /\ is_u32 bits
  | AddEnumValue name v => name_ok name /\ - 2 ^ 63 <= v < 2 ^ 63
  | AddEnum64Value name v => name_ok name /\ 0 <= v < 2 ^ 64
  | AddFwd name _ => name_ok name
  | AddTypedef name id | AddTypeTag name id | AddFuncParam name id => name_ok name /\ is_int id
  | AddFunc name l id | AddVar name l id => name_ok name /\ is_int l /\ is_int id
  | AddDatasecVar id off sz => is_int id /\ is_u32 off /\ is_u32 sz
  | AddDeclTag v id idx => name_ok v /\ is_int id /\ is_int idx
  end.

Definition op_name (op : add_op) : list byte :=
  match op with
  | AddInt name _ _ | AddFloat name _ | AddStruct name _ | AddUnion name _ | AddField name _ _ _ | AddEnum name _ | AddEnumValue name _
  | AddEnum64 name _ _ | AddEnum64Value name _ | AddFwd name _ | AddTypedef name _ | AddTypeTag name _ | AddFunc name _ _
  | AddFuncParam name _ | AddVar name _ _ | AddDatasec name _ | AddDeclTag name _ _ => name_str name
  | _ => []
  end.

(** ** The information word *)

Lemma type_info_value k v (f : bool) : 0 <= k < 32 -> 0 <= v < 2 ^ 16 -> btf_type_info k v f = c_bool f * 2 ^ 31 + k * 2 ^ 24 + v.
Proof.
  intros Hk Hv. unfold btf_type_info.
  assert (Z.lor (Z.shiftl (c_bool f) 31) (Z.shiftl k 24) = c_bool f * 2 ^ 31 + k * 2 ^ 24) as ->.
  { rewrite (Z.shiftl_mul_pow2 k) by lia. apply lor_shift; lia. }
  assert (c_bool f * 2 ^ 31 + k * 2 ^ 24 = Z.shiftl (c_bool f * 2 ^ 7 + k) 24) as -> by (rewrite Z.shiftl_mul_pow2 by lia; lia).
  rewrite lor_shift, Z.shiftl_mul_pow2 by lia. apply u32_id. destruct f; unfold c_bool; lia.
Qed.

Lemma info_fields k v (f : bool) : 0 <= k < 32 -> 0 <= v < 2 ^ 16 -> let i := btf_type_info k v f in
  is_u32 i /\ kind_bits i = k /\ btf_kind i = kind_of k /\ btf_vlen i = v /\ btf_kflag i = f.
Proof.
  intros Hk Hv i. assert (i = c_bool f * 2 ^ 31 + k * 2 ^ 24 + v) as Ei by (by apply type_info_value). clearbody i.
  assert (kind_bits i = k) as Ek.
  { unfold kind_bits. change 0x1f with (Z.ones 5). rewrite Z.land_ones, Z.shiftr_div_pow2 by lia. subst i. destruct f; unfold c_bool; Z.to_euclidean_division_equations; lia. }
  split_and!; try (subst i; destruct f; unfold c_bool; lia); try done.
  - unfold btf_kind. fold (kind_bits i). by rewrite Ek.
  - unfold btf_vlen. change 0xffff with (Z.ones 16). rewrite Z.land_ones by lia. subst i. destruct f; unfold c_bool; Z.to_euclidean_division_equations; lia.
  - unfold btf_kflag. rewrite Z.shiftr_div_pow2 by lia. unfold c_true. subst i. destruct f; unfold c_bool; [apply negb_true_iff, Z.eqb_neq | apply negb_false_iff, Z.eqb_eq];
      Z.to_euclidean_division_equations; lia.
Qed.

(** The words of a type depend on its kind and the number of its members. *)
Definition words_for (k : kind) (vlen : Z) : option Z :=
  match k with
  | KFwd | KConst | KVolatile | KRestrict | KPtr | KTypedef | KFunc | KFloat | KTypeTag => Some 0
  | KInt | KVar | KDeclTag => Some 1
  | KEnum | KFuncProto => Some (2 * vlen)
  | KArray => Some 3
  | KEnum64 | KStruct | KUnion | KDatasec => Some (3 * vlen)
  | KUnkn | KOther _ => None
  end.

Lemma extra_words_for info : extra_words info = words_for (btf_kind info) (btf_vlen info).
Proof. done. Qed.

(** The kinds with a number. *)
Definition known (k : kind) : Prop := kind_of (kind_nr k) = k /\ 0 <= kind_nr k < 32.

Lemma new_info_fields k v f : known k -> 0 <= v < 2 ^ 16 ->
  is_u32 (new_info k v f) /\ btf_kind (new_info k v f) = k /\ btf_vlen (new_info k v f) = v /\ btf_kflag (new_info k v f) = f.
Proof. intros [Hk Hn] Hv. destruct (info_fields (kind_nr k) v f Hn Hv) as (H1 & _ & H2 & H3 & H4). unfold new_info. rewrite H2, Hk. done. Qed.

Lemma kind_bits_range info : 0 <= kind_bits info < 32.
Proof. unfold kind_bits. change 0x1f with (Z.ones 5). rewrite Z.land_ones by lia. apply Z.mod_pos_bound. lia. Qed.

(** A member more. *)
Lemma member_info info (f : bool) : btf_vlen info + 1 < 2 ^ 16 -> let i := btf_type_info (kind_bits info) (btf_vlen info + 1) f in
  is_u32 i /\ btf_kind i = btf_kind info /\ btf_vlen i = btf_vlen info + 1 /\ btf_kflag i = f.
Proof.
  intros Hv i. pose proof (btf_vlen_range info). pose proof (kind_bits_range info) as Hk.
  destruct (info_fields (kind_bits info) (btf_vlen info + 1) f Hk ltac:(lia)) as (H1 & _ & H2 & H3 & H4). exact (conj H1 (conj H2 (conj H3 H4))).
Qed.

(** ** One call *)

Lemma word_is_app m m' x w : terminated m -> word_is m x w -> word_is (m ++ m') x w.
Proof. intros Hm. destruct x; [done |]. by apply string_at_app. Qed.

Lemma decl_is_app m m' d r : terminated m -> decl_is m d r -> decl_is (m ++ m') d r.
Proof.
  intros Hm [H1 H2 H3 H4 H5 H6]. split; try done; [by apply string_at_app |]. eapply Forall2_impl; [exact H6 |]. intros x w. by apply word_is_app.
Qed.

Lemma decls_later m m' ds ts : terminated m -> m `prefix_of` m' -> Forall2 (decl_is m) ds ts -> Forall2 (decl_is m') ds ts.
Proof. intros Hm [t ->] H. eapply Forall2_impl; [exact H |]. intros d r. by apply decl_is_app. Qed.

Lemma nums_are m ws : Forall2 (word_is m) (WNum <$> ws) ws.
Proof. induction ws; by constructor. Qed.

Section Step.
Context (e : nat -> add_env) (He : env_ok e) (ts0 : list rtype) (strs0 : list byte).
Context (b : btf) (ds : list decl) (ts : list rtype) (strs : list byte).
Context (Hobj : obj b ts0 strs0 ts strs) (Hds : Forall2 (decl_is (strs0 ++ strs)) ds ts) (H0 : string_at (strs0 ++ strs) 0 = Some []).
Context (Htypes : zlen (types_bytes false ts) + 24 <= UINT32_MAX) (Hcount : zlen ts0 + zlen ts + 1 <= BTF_MAX_NR_TYPES).

(** What a call with this effect ends with; [name] is the string it may add. *)
Definition ends (name : list byte) (ef : effect) (r : Z + Z) (b' : btf) : Prop :=
  let z := match r with inl z | inr z => z end in
  exists ds' ts' strs', later ts0 strs0 b ts strs b' ts' strs' /\ Forall2 (decl_is (strs0 ++ strs')) ds' ts' /\
    zlen strs' <= zlen strs + zlen name + 1 /\ zlen (types_bytes false ts') <= zlen (types_bytes false ts) + 24 /\ zlen ts' <= zlen ts + 1 /\
    ((z = - ENOMEM /\ short e /\ ds' = ds) \/ (z, ds') = apply_effect ef (zlen ts0) ds).

Lemma strs_terminated : terminated (strs0 ++ strs).
Proof. destruct (obj_terminated _ _ _ _ _ Hobj). by apply terminated_app. Qed.

Lemma ends_error name z : ends name (EErr z) (inl z) b.
Proof.
  exists ds, ts, strs. pose proof (zlen_nonneg name). split_and!; try done; try lia; [by apply later_refl |]. by right.
Qed.

Lemma later_decls b' ts' strs' : later ts0 strs0 b ts strs b' ts' strs' -> Forall2 (decl_is (strs0 ++ strs')) ds ts.
Proof.
  intros (_ & _ & [t ->]). rewrite app_assoc. eapply decls_later; [apply strs_terminated | | exact Hds]. by eexists.
Qed.

Lemma ds_length : length ds = length ts.
Proof. by eapply Forall2_length. Qed.

Lemma ends_short name ef strs' b' : short e -> later ts0 strs0 b ts strs b' ts strs' -> zlen strs' <= zlen strs + zlen name + 1 -> ends name ef (inl (- ENOMEM)) b'.
Proof. intros Hs HL Hz. exists ds, ts, strs'. split_and!; try done; try lia; [by eapply later_decls |]. by left. Qed.

(** The functions that add a type. *)
Lemma ends_new name k (f : bool) vlen size extra rows (m : act Z) : known k -> 0 <= vlen < 2 ^ 16 -> zlen extra <= 3 -> concat rows = WNum <$> extra ->
  runs m b (or_short e ts0 strs0 (zlen strs + zlen name + 1) b ts strs (new_post ts0 strs0 b ts strs name (new_info k vlen f) size extra)) ->
  runs m b (ends name (ENew {| d_kind := k; d_flag := f; d_vlen := vlen; d_name := name; d_size := size; d_rows := rows |})).
Proof.
  intros Hk Hv H3 Hrows Hm. eapply runs_mono; [exact Hm |]. intros [z | id] b' Hr.
  { destruct Hr as (-> & Hs & strs' & HL & Hz). by eapply ends_short. }
  destruct Hr as (-> & _ & off & strs' & HL & Hat & Hz). destruct (new_info_fields k vlen f Hk Hv) as (_ & F1 & F2 & F3).
  eexists _, _, strs'. split; [exact HL |]. split; [| split; [done |]; split; [| split; [| right; cbn [apply_effect]; unfold zlen; by rewrite ds_length]]].
  - apply Forall2_app; [by eapply later_decls |]. constructor; [| done]. split; [exact F1 | exact F3 | exact F2 | exact Hat | done | cbn [d_rows]; rewrite Hrows; apply nums_are].
  - rewrite types_bytes_snoc, zlen_app, zlen_enc_words. unfold r_words. cbn [r_name r_info r_size r_extra]. rewrite zlen_app. change (zlen [_; _; _]) with 3. lia.
  - by rewrite zlen_app.
Qed.

Context (name : list byte) (Hname : zlen strs0 + zlen strs + zlen name + 1 <= BTF_MAX_STR_OFFSET).
Notation named := (gives_name e ts0 strs0 (zlen strs + zlen name + 1)).

Lemma new_op_ok nm k (f : bool) vlen size extra rows sz : named nm ts strs name -> known k -> 0 <= vlen < 2 ^ 16 -> is_u32 size ->
  Forall (fun w => is_u32 w) extra -> words_for k vlen = Some (zlen extra) -> zlen extra <= 3 -> concat rows = WNum <$> extra -> sz = 12 + 4 * zlen extra ->
  runs (t <- new_mem e sz ;; off <- nm ;; put t (off :: new_info k vlen f :: size :: extra) ;; btf_commit_type e sz) b
    (ends name (ENew {| d_kind := k; d_flag := f; d_vlen := vlen; d_name := name; d_size := size; d_rows := rows |})).
Proof.
  intros Hnm Hk Hv Hs He' Hw H3 Hrows Hsz. destruct (new_info_fields k vlen f Hk Hv) as (F0 & F1 & F2 & F3). apply ends_new with (extra := extra); [done | done | done | done |].
  apply (new_decl_ok e He ts0 strs0); try done; [by rewrite extra_words_for, F1, F2 | lia].
Qed.

Lemma new_op_extra_ok nm k (f : bool) vlen size extra rows sz : named nm ts strs name -> known k -> 0 <= vlen < 2 ^ 16 -> is_u32 size ->
  Forall (fun w => is_u32 w) extra -> words_for k vlen = Some (zlen extra) -> zlen extra <= 3 -> concat rows = WNum <$> extra -> sz = 12 + 4 * zlen extra ->
  runs (t <- new_mem e sz ;; off <- nm ;; put t [off; new_info k vlen f; size] ;; put (t + 12) extra ;; btf_commit_type e sz) b
    (ends name (ENew {| d_kind := k; d_flag := f; d_vlen := vlen; d_name := name; d_size := size; d_rows := rows |})).
Proof.
  intros Hnm Hk Hv Hs He' Hw H3 Hrows Hsz. destruct (new_info_fields k vlen f Hk Hv) as (F0 & F1 & F2 & F3). apply ends_new with (extra := extra); [done | done | done | done |].
  apply (new_decl_extra_ok e He ts0 strs0); try done; [by rewrite extra_words_for, F1, F2 | lia].
Qed.

(** The functions that add a member: [n] words for types of the kinds [ks]. *)
Lemma member_op_ok nm upd (ks : list kind) (inc : Z -> Z) (flag : bool) ws wsf sz n :
  named nm ts strs name -> sets_last upd inc ->
  (forall info, btf_vlen info + 1 < 2 ^ 16 -> inc info = btf_type_info (kind_bits info) (btf_vlen info + 1) (flag || btf_kflag info)) -> (exists d, last ds = Some d /\ d_kind d ∈ ks /\ d_vlen d + 1 < 2 ^ 16) ->
  (forall k v, k ∈ ks -> words_for k v = Some (n * v)) -> sz = 4 * n -> 0 < n <= 6 ->
  (forall off, is_u32 off -> Forall (fun w => is_u32 w) (wsf off) /\ zlen (wsf off) = n) ->
  (forall m off, string_at m off = Some name -> Forall2 (word_is m) ws (wsf off)) ->
  runs (m <- new_mem e sz ;; off <- nm ;; put m (wsf off) ;; upd ;; commit_member sz) b (ends name (EMember flag ws)).
Proof.
  intros Hnm Hupd Hinc (d & Hl & Hk & Hv) Hw -> Hn Hu Hws. apply last_Some in Hl as [ds1 Eds]. pose proof Hds as Hds'. rewrite Eds in Hds'.
  apply Forall2_app_inv_l in Hds' as (ts1 & ts2 & HF1 & HF2 & Ets). apply Forall2_cons_inv_l in HF2 as (r & ts3 & Hd & HF2 & ->).
  apply Forall2_nil_inv_l in HF2 as ->. pose proof Hd as [D1 D2 D3 D4 D5 D6].
  destruct (member_info (r_info r) (flag || btf_kflag (r_info r)) ltac:(lia)) as (F0 & F1 & F2 & F3). rewrite <- Hinc in F0, F1, F2, F3 by lia.
  set (i := inc (r_info r)) in *.
  assert (rtype_ok r) as Hr. { pose proof (ow_ok _ _ (os_own _ _ _ (ob_own _ _ _ _ _ Hobj))) as HF. rewrite Ets in HF. apply Forall_app in HF as [_ HF]. by apply Forall_cons in HF as [? _]. }
  pose proof (proj2 Hr) as Hx. rewrite extra_words_for, D1, D3, (Hw _ _ Hk) in Hx.
  assert (forall off, is_u32 off -> rtype_ok (add_words r i (wsf off)) /\ 4 * n = 4 * zlen (wsf off)) as Hok.
  { intros off Ho. destruct (Hu off Ho) as [HF Hz]. split; [| lia]. destruct (rtype_ok_parts r Hr) as [HB HE]. unfold r_base in HB. rewrite !Forall_cons in HB. destruct HB as (HB1 & _ & HB2 & _). split.
    - unfold r_words, add_words. cbn [r_name r_info r_size r_extra]. repeat (apply Forall_cons; split; [assumption |]). by apply Forall_app.
    - cbn [r_info r_extra add_words]. rewrite extra_words_for, F1, F2, D1, (Hw _ _ Hk), zlen_app. f_equal. injection Hx as Hx. lia. }
  pose proof (member_ok e He ts0 strs0 (zlen strs + zlen name + 1) nm upd inc wsf b ts1 r strs name (4 * n)) as HM. rewrite <- Ets in HM.
  specialize (HM Hnm Hupd Hobj Hok ltac:(lia) ltac:(lia) ltac:(lia) Hname ltac:(lia)). eapply runs_mono; [exact HM |]. intros [z | z] b' Hp.
  { destruct Hp as (-> & Hs & strs' & HL & Hz). by eapply ends_short. }
  destruct Hp as (-> & off & strs' & HL & Hat & Hz). rewrite <- Ets in HL. fold i in HL.
  assert (is_u32 off) as Ho. { apply string_at_range in Hat. rewrite zlen_app in Hat. unfold BTF_MAX_STR_OFFSET in Hname. lia. }
  pose proof (later_decls _ _ _ HL) as HF. rewrite Eds, Ets in HF. apply Forall2_app_inv in HF as [HFa HFb]; [| by eapply Forall2_length].
  apply Forall2_cons in HFb as [[E1 E2 E3 E4 E5 E6] _].
  exists (ds1 ++ [add_to d flag ws]), (ts1 ++ [add_words r i (wsf off)]), strs'. split; [exact HL |]. split.
  { apply Forall2_app; [done |]. constructor; [| done]. split; cbn [add_words add_to r_info r_name r_size r_extra d_kind d_flag d_vlen d_name d_size d_rows]; try done.
    - by rewrite F1.
    - by rewrite F3, D2.
    - by rewrite F2, D3.
    - rewrite concat_app. apply Forall2_app; [done |]. cbn [concat]. rewrite app_nil_r. by apply Hws. }
  split; [done |]. split; [| split].
  - rewrite Ets, !types_bytes_snoc, !zlen_app, !zlen_enc_words. unfold r_words, add_words. cbn [r_extra]. rewrite !zlen_app. change (zlen [_; _; _]) with 3.
    destruct (Hu off Ho) as [_ ->]. lia.
  - rewrite Ets, !zlen_app. change (zlen [add_words r i (wsf off)]) with (zlen [r]). lia.
  - right. unfold apply_effect. rewrite Eds, last_snoc. f_equal. rewrite length_app. cbn [length]. rewrite Nat.add_1_r. cbn [pred]. by rewrite take_app_length.
Qed.

(** *** Checks *)

Lemma valid_require c ef (m : act Z) : (c = true -> runs m b (ends name ef)) -> runs (require c (- EINVAL) ;; m) b (ends name (valid_if c ef)).
Proof. intros Hm. apply runs_bind. apply runs_require; intros ->; [by apply Hm | apply ends_error]. Qed.

Lemma valid_name cn ef (m : act Z) : name_ok cn -> (name_str cn <> [] -> runs m b (ends name ef)) ->
  runs (need_name (mem_of cn) ;; m) b (ends name (valid_if (given cn) ef)).
Proof.
  intros Hn Hm. apply runs_bind. unfold given. apply need_name_ok; [done | |]; intros E.
  - rewrite bool_decide_false by done. by apply Hm.
  - rewrite bool_decide_true by done. apply ends_error.
Qed.

Lemma valid_last (ks : list kind) ef (m : Z -> act Z) :
  (forall d info, last ds = Some d -> d_kind d ∈ ks -> btf_kind info = d_kind d -> runs (m info) b (ends name ef)) ->
  runs (info <- need_last ks ;; m info) b (ends name (valid_if (last_is (d_kind <$> last ds) ks) ef)).
Proof.
  intros Hm. apply runs_bind. eapply need_last_ok; [exact Hobj | lia |]. destruct (last ds) as [d |] eqn:El.
  - apply last_Some in El as [ds1 Eds]. pose proof Hds as Hds'. rewrite Eds in Hds'.
    apply Forall2_app_inv_l in Hds' as (ts1 & ts2 & HF1 & HF2 & Ets). apply Forall2_cons_inv_l in HF2 as (r & ts3 & Hd & HF2 & ->).
    apply Forall2_nil_inv_l in HF2 as ->. rewrite Ets, last_snoc. rewrite (di_kind _ _ _ Hd). cbn [fmap option_fmap option_map last_is].
    case_bool_decide; [| apply ends_error]. by apply (Hm d); [done | done | apply (di_kind _ _ _ Hd)].
  - apply last_None in El. pose proof ds_length as Hl. rewrite El in Hl. assert (last ts = None) as -> by (apply last_None; by apply nil_length_inv). apply ends_error.
Qed.

Lemma valid_if_and c c' ef : valid_if (c && c') ef = valid_if c (valid_if c' ef).
Proof. by destruct c. Qed.

Lemma named_none : name = [] -> named (ret 0) ts strs name.
Proof. intros ->. by apply no_name. Qed.

Lemma named_some cn : name = name_str cn -> name_ok cn -> name_str cn <> [] -> named (add_name e (mem_of cn)) ts strs name.
Proof. intros -> Hn Hne. apply some_name; try done. Qed.

Lemma named_any cn : name = name_str cn -> name_ok cn -> named (opt_name e (mem_of cn)) ts strs name.
Proof. intros -> Hn. by apply any_name. Qed.

End Step.

Lemma type_id_ok id : is_int id -> validate_type_id id = id_ok id.
Proof. unfold is_int, validate_type_id, id_ok, BTF_MAX_NR_TYPES. intros H. destruct (Z.ltb_spec id 0), (Z.leb_spec 0 id), (Z.ltb_spec 0x7fffffff id); done || lia. Qed.

Lemma id_ok_range id : is_int id -> id_ok id = true -> is_u32 id.
Proof. unfold is_int, id_ok. intros H E. apply Z.leb_le in E. lia. Qed.

Lemma power_of_2_ok n max l : 0 <= n -> max <= 16 -> forallb (fun n => Bool.eqb (power_of_2_upto n max) (one_of n l)) (seqZ 0 17) = true ->
  forallb (fun x => x <=? 16) l = true -> power_of_2_upto n max = one_of n l.
Proof.
  intros Hn Hmax Hall Hl. destruct (decide (n <= 16)) as [Hle |].
  - apply Is_true_true, forallb_True in Hall. rewrite Forall_forall in Hall. specialize (Hall n ltac:(apply elem_of_seqZ; lia)).
    cbv beta in Hall. by apply Is_true_true, Bool.eqb_prop in Hall.
  - unfold power_of_2_upto, one_of. rewrite (proj2 (Z.leb_gt n max)), andb_false_r by lia. symmetry. apply not_true_iff_false.
    intros (x & Hx & E)%existsb_exists. apply Z.eqb_eq in E as <-. rewrite forallb_forall in Hl. specialize (Hl n Hx). lia.
Qed.

Lemma encoding_ok enc : (Z.land enc (Z.lnot 7) =? 0) = (0 <=? enc) && (enc <? 8).
Proof.
  assert (Z.land enc (Z.lnot 7) = 8 * (enc / 8)) as ->.
  { change 7 with (Z.ones 3). rewrite <- Z.ldiff_land, Z.ldiff_ones_r, Z.shiftl_mul_pow2, Z.shiftr_div_pow2 by lia. change (2 ^ 3) with 8. lia. }
  destruct (Z.eqb_spec (8 * (enc / 8)) 0), (Z.leb_spec 0 enc), (Z.ltb_spec enc 8); try done; exfalso; Z.to_euclidean_division_equations; lia.
Qed.

Lemma one_of_range z l (P : Z -> bool) : one_of z l = true -> forallb P l = true -> P z = true.
Proof. intros (x & Hx & E)%existsb_exists Hl. apply Z.eqb_eq in E as <-. rewrite forallb_forall in Hl. by apply Hl. Qed.

Definition u32b (z : Z) : bool := (0 <=? z) && (z <? 2 ^ 32).
Lemma u32b_ok z : u32b z = true -> is_u32 z.
Proof. unfold u32b. lia. Qed.
