(* ===== verification/BtfCalls.v ===== *)
(** Each function of BtfAdd.v does what [op_effect] says, and so does
    any sequence of calls; what is built can be written out and read back. *)
From S2P Require Import Prelude.
From S2P Require Import CLib.
From S2P Require Import Hashmap.
From S2P Require Import Strset.
From S2P Require Import Btf.
From S2P Require Import BtfParse.
From S2P Require Import BtfQuery.
From S2P Require Import BtfAdd.
From S2P Require Import BtfBuild.
From S2P Require Import BtfDecl.
From S2P Require Import BtfOps.
From coqutil Require Import Datatypes.RecordSetters.
Import DoubleBraceUpdate.
#[local] Open Scope btf_scope.

Lemma known_kind k : match k with KOther _ => False | _ => True end -> known k.
Proof. intros H. destruct k; try done; by split. Qed.

Ltac solve_words := repeat (apply Forall_cons; split; [lia |]); by apply Forall_nil.

(** The side conditions of the lemmas on types and members. *)
Ltac side :=
  lazymatch goal with
  | |- known _ => assumption || by apply known_kind
  | |- gives_name _ _ _ _ (ret 0) _ _ _ => by apply named_none
  | |- gives_name _ _ _ _ (add_name _ _) _ _ _ => by apply named_some
  | |- gives_name _ _ _ _ (opt_name _ _) _ _ _ => by apply named_any
  | |- Forall _ _ => solve_words
  | |- _ = _ => reflexivity || eassumption
  | |- zlen _ <= 3 => unfold zlen; cbn; lia
  | |- _ => assumption || lia
  end.

Section Calls.
Context (e : nat -> add_env) (He : env_ok e) (ts0 : list rtype) (strs0 : list byte).
Context (b : btf) (ds : list decl) (ts : list rtype) (strs : list byte).
Context (Hobj : obj b ts0 strs0 ts strs) (Hds : Forall2 (decl_is (strs0 ++ strs)) ds ts) (H0 : string_at (strs0 ++ strs) 0 = Some []).
Context (Htypes : zlen (types_bytes false ts) + 24 <= UINT32_MAX) (Hcount : zlen ts0 + zlen ts + 1 <= BTF_MAX_NR_TYPES).

Notation goes name m ef := (runs m b (ends e ts0 strs0 b ds ts strs name ef)).

(** The calls that add to the last type. *)
Definition is_member (op : add_op) : bool :=
  match op with AddField _ _ _ _ | AddEnumValue _ _ | AddEnum64Value _ _ | AddFuncParam _ _ | AddDatasecVar _ _ _ => true | _ => false end.

Definition call_ok (op : add_op) : Prop := op_args op -> zlen strs0 + zlen strs + zlen (op_name op) + 1 <= BTF_MAX_STR_OFFSET ->
  (is_member op = true -> forall d, last ds = Some d -> d_vlen d + 1 < 2 ^ 16) -> goes (op_name op) (run_op e op) (op_effect op (d_kind <$> last ds)).

Lemma add_int_ok name sz enc : call_ok (AddInt name sz enc).
Proof.
  intros (Hn & Hs & Hi) Hl _. cbn [run_op op_name op_effect] in *. unfold btf__add_int. rewrite (power_of_2_ok sz 16 [1; 2; 4; 8; 16]) by (done || lia).
  rewrite <- andb_assoc, <- encoding_ok, !valid_if_and. apply valid_name; [done .. |]. intros Hne. apply valid_require; [done .. |]. intros Hsz.
  apply valid_require; [done .. |]. intros Henc. rewrite encoding_ok in Henc.
  assert (0 <= sz <= 16) as Hsz' by (apply (one_of_range _ _ (fun x => (0 <=? x) && (x <=? 16))) in Hsz; [lia | done]).
  rewrite lor_shift by lia. apply new_op_ok with (extra := [_]); side.
Qed.

Lemma add_float_ok name sz : call_ok (AddFloat name sz).
Proof.
  intros (Hn & Hs) Hl _. cbn [run_op op_name op_effect] in *. unfold btf__add_float. rewrite !valid_if_and. apply valid_name; [done .. |]. intros Hne.
  apply valid_require; [done .. |]. intros Hsz. apply (one_of_range _ _ u32b), u32b_ok in Hsz; [| done].
  apply new_op_ok with (extra := []); side.
Qed.

(** *** References *)

Lemma ref_kind_ok k cn id : known k -> words_for k 0 = Some 0 -> name_ok cn -> is_int id ->
  zlen strs0 + zlen strs + zlen (name_str cn) + 1 <= BTF_MAX_STR_OFFSET ->
  goes (name_str cn) (btf_add_ref_kind e k (mem_of cn) id) (valid_if (id_ok id) (plain k (name_str cn) id [])).
Proof.
  intros Hk Hw Hn Hi Hl. unfold btf_add_ref_kind. rewrite type_id_ok by done. apply valid_require; [done .. |]. intros Hid.
  apply id_ok_range in Hid; [| done]. apply new_op_ok with (extra := []); side.
Qed.

Lemma no_name_ok : name_ok None.
Proof. split; [apply not_elem_of_nil | done]. Qed.

Lemma anonymous_ref_ok k id : known k -> words_for k 0 = Some 0 -> is_int id -> zlen strs0 + zlen strs + zlen (@nil byte) + 1 <= BTF_MAX_STR_OFFSET ->
  goes [] (btf_add_ref_kind e k None id) (valid_if (id_ok id) (plain k [] id [])).
Proof. intros Hk Hw Hi Hl. by apply (ref_kind_ok k None id); [.. | apply no_name_ok | |]. Qed.

Lemma named_ref_ok k cn id : known k -> words_for k 0 = Some 0 -> name_ok cn -> is_int id ->
  zlen strs0 + zlen strs + zlen (name_str cn) + 1 <= BTF_MAX_STR_OFFSET ->
  goes (name_str cn) (need_name (mem_of cn) ;; btf_add_ref_kind e k (mem_of cn) id) (valid_if (given cn && id_ok id) (plain k (name_str cn) id [])).
Proof. intros Hk Hw Hn Hi Hl. rewrite valid_if_and. apply valid_name; [done .. |]. intros _. by apply ref_kind_ok. Qed.

Lemma add_ptr_ok id : call_ok (AddPtr id).
Proof. intros Hi Hl _. by apply anonymous_ref_ok; [apply known_kind | ..]. Qed.

Lemma add_volatile_ok id : call_ok (AddVolatile id).
Proof. intros Hi Hl _. by apply anonymous_ref_ok; [apply known_kind | ..]. Qed.

Lemma add_const_ok id : call_ok (AddConst id).
Proof. intros Hi Hl _. by apply anonymous_ref_ok; [apply known_kind | ..]. Qed.

Lemma add_restrict_ok id : call_ok (AddRestrict id).
Proof. intros Hi Hl _. by apply anonymous_ref_ok; [apply known_kind | ..]. Qed.

Lemma add_typedef_ok name id : call_ok (AddTypedef name id).
Proof. intros [Hn Hi] Hl _. by apply named_ref_ok; [apply known_kind | ..]. Qed.

Lemma add_type_tag_ok name id : call_ok (AddTypeTag name id).
Proof. intros [Hn Hi] Hl _. by apply named_ref_ok; [apply known_kind | ..]. Qed.

(** *** Types with a size *)

Lemma composite_ok k cn sz : known k -> words_for k 0 = Some 0 -> name_ok cn -> is_u32 sz ->
  zlen strs0 + zlen strs + zlen (name_str cn) + 1 <= BTF_MAX_STR_OFFSET ->
  goes (name_str cn) (btf_add_composite e k (mem_of cn) sz) (plain k (name_str cn) sz []).
Proof. intros Hk Hw Hn Hs Hl. unfold btf_add_composite. apply new_op_ok with (extra := []); side. Qed.

Lemma add_struct_ok name sz : call_ok (AddStruct name sz).
Proof. intros [Hn Hs] Hl _. by apply composite_ok; [apply known_kind | ..]. Qed.

Lemma add_union_ok name sz : call_ok (AddUnion name sz).
Proof. intros [Hn Hs] Hl _. by apply composite_ok; [apply known_kind | ..]. Qed.

Lemma enum_common_ok k cn sz sg : known k -> words_for k 0 = Some 0 -> name_ok cn -> is_u32 sz ->
  zlen strs0 + zlen strs + zlen (name_str cn) + 1 <= BTF_MAX_STR_OFFSET ->
  goes (name_str cn) (btf_add_enum_common e (mem_of cn) sz sg k) (valid_if (one_of sz [1; 2; 4; 8]) (flagged k sg 0 (name_str cn) sz)).
Proof.
  intros Hk Hw Hn Hs Hl. unfold btf_add_enum_common. rewrite (power_of_2_ok sz 8 [1; 2; 4; 8]) by (done || lia). apply valid_require; [done .. |].
  intros _. apply new_op_ok with (extra := []); side.
Qed.

Lemma add_enum_ok name sz : call_ok (AddEnum name sz).
Proof. intros [Hn Hs] Hl _. by apply enum_common_ok; [apply known_kind | ..]. Qed.

Lemma add_enum64_ok name sz sg : call_ok (AddEnum64 name sz sg).
Proof. intros [Hn Hs] Hl _. by apply enum_common_ok; [apply known_kind | ..]. Qed.

Lemma add_datasec_ok name sz : call_ok (AddDatasec name sz).
Proof.
  intros [Hn Hs] Hl _. cbn [run_op op_name op_effect] in *. apply valid_name; [done .. |]. intros Hne. apply new_op_ok with (extra := []); side.
Qed.

(** *** Other types *)

Lemma add_array_ok i t n : call_ok (AddArray i t n).
Proof.
  intros (Hi & Ht & Hn) Hl _. cbn [run_op op_name op_effect] in *. unfold btf__add_array. rewrite !type_id_ok by done. apply valid_require; [done .. |].
  intros [Ei Et]%andb_prop. apply id_ok_range in Ei, Et; [| done ..].
  apply (new_op_extra_ok e He ts0 strs0 b ds ts strs Hobj Hds Htypes Hcount [] Hl (ret 0) KArray false 0 0 [t; i; n] _); side.
Qed.

Lemma add_func_proto_ok id : call_ok (AddFuncProto id).
Proof.
  intros Hi Hl _. cbn [run_op op_name op_effect] in *. unfold btf__add_func_proto. rewrite !type_id_ok by done. apply valid_require; [done .. |].
  intros Ei. apply id_ok_range in Ei; [| done].
  apply (new_op_ok e He ts0 strs0 b ds ts strs Hobj Hds Htypes Hcount [] Hl (ret 0) KFuncProto false 0 id [] _); side.
Qed.

Lemma linkage_ok l : is_linkage l = one_of l [0; 1; 2].
Proof. unfold is_linkage, one_of. cbn [existsb]. by rewrite orb_false_r, orb_assoc. Qed.

Lemma add_var_ok name l id : call_ok (AddVar name l id).
Proof.
  intros (Hn & Hl1 & Hi) Hl _. cbn [run_op op_name op_effect] in *. unfold btf__add_var. rewrite type_id_ok, linkage_ok, !valid_if_and by done.
  apply valid_name; [done .. |]. intros Hne. apply valid_require; [done .. |]. intros Ek. apply (one_of_range _ _ u32b), u32b_ok in Ek; [| done].
  apply valid_require; [done .. |]. intros Ei. apply id_ok_range in Ei; [| done]. apply new_op_extra_ok with (extra := [l]); side.
Qed.

Lemma add_decl_tag_ok v id idx : call_ok (AddDeclTag v id idx).
Proof.
  intros (Hn & Hi & Hx) Hl _. cbn [run_op op_name op_effect] in *. unfold btf__add_decl_tag. rewrite type_id_ok, !valid_if_and by done.
  assert (negb (idx <? -1) = (-1 <=? idx)) as -> by lia. pose proof (u32_range idx) as Hu.
  apply valid_name; [done .. |]. intros Hne. apply valid_require; [done .. |]. intros _.
  apply valid_require; [done .. |]. intros Ei. apply id_ok_range in Ei; [| done]. apply new_op_extra_ok with (extra := [u32 idx]); side.
Qed.

(** *** Types whose information is assigned again *)

Lemma info_again_ok name k (f : bool) vlen size (m : act Z) (k' : Z -> act Z) info0 : known k -> 0 <= vlen < 2 ^ 16 -> words_for k vlen = Some 0 -> is_u32 size ->
  zlen strs0 + zlen strs + zlen name + 1 <= BTF_MAX_STR_OFFSET ->
  runs m b (or_short e ts0 strs0 (zlen strs + zlen name + 1) b ts strs (new_post ts0 strs0 b ts strs name info0 size [])) ->
  (forall id b', 0 < id -> k' id b' = (set_info id (new_info k vlen f) ;; ret id) b') ->
  goes name (id <- m ;; k' id) (flagged k f vlen name size).
Proof.
  intros Hk Hv Hw Hsz Hl Hm Hk'. destruct (new_info_fields k vlen f Hk Hv) as (F0 & F1 & F2 & F3). pose proof (zlen_nonneg ts0) as Z0. pose proof (zlen_nonneg ts) as Z1.
  apply (ends_new e ts0 strs0 b ds ts strs Hobj Hds name k f vlen size []); [done | done | done | done |].
  eapply or_short_bind; [exact Hm |]. intros id b1 (-> & Em & off & strs1 & L1 & Hat & Hz). eapply runs_ext; [intros b'; apply Hk'; lia |].
  assert (is_u32 off) as Ho. { apply string_at_range in Hat. rewrite zlen_app in Hat. unfold BTF_MAX_STR_OFFSET in Hl. lia. }
  apply runs_bind. eapply runs_mono.
  { eapply (set_info_ok ts0 strs0 b1 ts _ strs1 (new_info k vlen f)); [apply L1 | done | by eapply later_new_fresh | rewrite zlen_app; change (zlen [_]) with 1; lia | lia |].
    split; [cbn [set_rinfo r_words r_name r_info r_size r_extra app]; side | by rewrite extra_words_for; cbn [set_rinfo r_info r_extra]; rewrite F1, F2]. }
  intros z b2 (-> & Em2 & L2). apply runs_ret. split; [done |]. split; [done |]. exists off, strs1. split; [by eapply later_trans | done].
Qed.

(** The type before its information is assigned again. *)
Lemma ref_kind_new k cn id : known k -> words_for k 0 = Some 0 -> name_ok cn -> is_u32 id ->
  zlen strs0 + zlen strs + zlen (name_str cn) + 1 <= BTF_MAX_STR_OFFSET ->
  runs (t <- new_mem e 12 ;; off <- opt_name e (mem_of cn) ;; put t [off; new_info k 0 false; id] ;; btf_commit_type e 12) b
    (or_short e ts0 strs0 (zlen strs + zlen (name_str cn) + 1) b ts strs (new_post ts0 strs0 b ts strs (name_str cn) (new_info k 0 false) id [])).
Proof.
  intros Hk Hw Hn Hi Hl. destruct (new_info_fields k 0 false Hk ltac:(lia)) as (F0 & F1 & F2 & F3).
  apply (new_decl_ok e He ts0 strs0 _ _ _ _ _ _ _ _ []); try done; try lia; [by apply named_any | by rewrite extra_words_for, F1, F2].
Qed.

Lemma add_fwd_ok name fk : call_ok (AddFwd name fk).
Proof.
  intros Hn Hl _. cbn [run_op op_name op_effect] in *. unfold btf__add_fwd. cbv zeta.
  assert (forall union : bool, goes (name_str name) (id <- btf_add_ref_kind e KFwd (mem_of name) 0 ;;
    if id <=? 0 then leave id else set_info id (new_info KFwd 0 union) ;; ret id) (flagged KFwd union 0 (name_str name) 0)) as Hdecl.
  { intros union. eapply (info_again_ok _ KFwd); [side .. | | intros id b' Hid; by rewrite (proj2 (Z.leb_gt _ _)) by lia].
    by apply ref_kind_new; [apply known_kind | ..]. }
  destruct fk; try (apply valid_name; [done .. |]; intros _; apply Hdecl).
  - apply valid_name; [done .. |]. intros _. by apply (enum_common_ok KEnum name 4 false); [apply known_kind | ..].
  - apply runs_bind. apply need_name_ok; [done | |]; intros _; [apply runs_leave |]; by apply ends_error.
Qed.

Lemma add_func_ok name l id : call_ok (AddFunc name l id).
Proof.
  intros (Hn & Hl1 & Hi) Hl _. cbn [run_op op_name op_effect] in *. unfold btf__add_func, btf_add_ref_kind. rewrite type_id_ok, linkage_ok, !valid_if_and by done.
  apply valid_name; [done .. |]. intros _. apply valid_require; [done .. |]. intros Ek.
  assert (0 <= l < 2 ^ 16) as Hlr by (apply (one_of_range _ _ (fun x => (0 <=? x) && (x <=? 2))) in Ek; [lia | done]).
  apply runs_assoc. apply valid_require; [done .. |]. intros Ei. apply id_ok_range in Ei; [| done].
  eapply (info_again_ok _ KFunc); [side .. | | intros id' b' Hid; by rewrite (proj2 (Z.ltb_lt _ _)) by lia].
  by apply ref_kind_new; [apply known_kind | ..].
Qed.

(** *** Members *)

Lemma inc_vlen_ok info : btf_vlen info + 1 < 2 ^ 16 -> btf_type_inc_vlen info = btf_type_info (kind_bits info) (btf_vlen info + 1) (false || btf_kflag info).
Proof. done. Qed.

Lemma bitfield_flag off bits : c_true bits || c_true (off mod 8) = is_bitfield off bits.
Proof. unfold c_true, is_bitfield. by rewrite negb_andb. Qed.

Lemma field_checks off bits : is_u32 off -> is_u32 bits ->
  negb (is_bitfield off bits && ((bits =? 0) || (255 <? bits) || (0xffffff <? off))) = field_ok off bits.
Proof. intros Ho Hb. unfold field_ok. destruct (is_bitfield off bits); [cbn [negb andb orb]; lia | done]. Qed.

(** The word of an accepted field. *)
Lemma field_word off bits : is_u32 off -> is_u32 bits -> field_ok off bits = true ->
  u32 (Z.lor off (Z.shiftl bits 24)) = off + bits * 2 ^ 24 /\ is_u32 (off + bits * 2 ^ 24).
Proof.
  intros Ho Hb. unfold field_ok, is_bitfield. destruct (Z.eqb_spec bits 0) as [-> | Hne].
  - intros _. rewrite Z.shiftl_0_l, Z.lor_0_r, u32_id by done. lia.
  - cbn [andb negb orb]. intros H. rewrite Z.lor_comm, lor_shift by lia. rewrite u32_id by lia. lia.
Qed.

Lemma add_field_ok name id off bits : call_ok (AddField name id off bits).
Proof.
  intros (Hn & Hi & Ho & Hb) Hl Hv. cbn [run_op op_name op_effect] in *. unfold btf__add_field. cbv zeta. rewrite bitfield_flag, field_checks, !valid_if_and by done.
  apply valid_last; [done .. |]. intros d info Hd Hk Hinfo. rewrite type_id_ok by done. apply valid_require; [done .. |]. intros Ei. apply id_ok_range in Ei; [| done].
  apply valid_require; [done .. |]. intros Hf. destruct (field_word off bits Ho Hb Hf) as [Ew Hw]. rewrite Hinfo, Hd. cbn [fmap option_fmap option_map last_is].
  assert (bool_decide (d_kind d ∈ [KUnion]) = bool_decide (d_kind d = KUnion)) as -> by (apply bool_decide_ext; set_solver).
  apply valid_require; [done .. |]. intros _. rewrite Ew.
  eapply (member_op_ok e He ts0 strs0 b ds ts strs Hobj Hds Htypes Hcount _ Hl _ _ [KStruct; KUnion]) with (n := 3)
    (wsf := fun off' => [off'; id; off + bits * 2 ^ 24]); [side | apply sets_last_info | done | by exists d; auto | | done | lia | |].
  - intros k v Hin. by rewrite !elem_of_cons, elem_of_nil in Hin; destruct Hin as [-> | [-> | []]].
  - intros off' Ho'. split; [side | done].
  - intros m off' Hat. by repeat constructor.
Qed.

(** The members that only count. *)
Lemma count_member_ok name nm k ws wsf sz n d : gives_name e ts0 strs0 (zlen strs + zlen name + 1) nm ts strs name ->
  zlen strs0 + zlen strs + zlen name + 1 <= BTF_MAX_STR_OFFSET -> last ds = Some d -> d_kind d ∈ [k] -> d_vlen d + 1 < 2 ^ 16 ->
  (forall v, words_for k v = Some (n * v)) -> sz = 4 * n -> 0 < n <= 6 ->
  (forall off, is_u32 off -> Forall (fun w => is_u32 w) (wsf off) /\ zlen (wsf off) = n) ->
  (forall m off, string_at m off = Some name -> Forall2 (word_is m) ws (wsf off)) ->
  goes name (m <- new_mem e sz ;; off <- nm ;; put m (wsf off) ;; set_last_info btf_type_inc_vlen ;; commit_member sz) (EMember false ws).
Proof.
  intros Hnm Hl Hd Hk Hv Hw Hsz Hn Hu Hws.
  eapply (member_op_ok e He ts0 strs0 b ds ts strs Hobj Hds Htypes Hcount _ Hl _ _ [k]) with (n := n);
    [done | apply sets_last_info | apply inc_vlen_ok | by exists d | | done | done | done | done].
  intros k' v Hin. by apply list_elem_of_singleton in Hin as ->.
Qed.

Lemma add_func_param_ok name id : call_ok (AddFuncParam name id).
Proof.
  intros [Hn Hi] Hl Hv. cbn [run_op op_name op_effect] in *. unfold btf__add_func_param. rewrite type_id_ok, andb_comm, valid_if_and by done.
  apply valid_require; [done .. |]. intros Ei. apply id_ok_range in Ei; [| done]. apply valid_last; [done .. |]. intros d info Hd Hk _.
  eapply (count_member_ok _ _ KFuncProto _ (fun off => [off; id]) _ 2 d); [side | done | done | done | by apply Hv | done | done | lia | |].
  - intros off Ho. split; [side | done].
  - intros m off Hat. by repeat constructor.
Qed.

Lemma add_datasec_var_ok id off sz : call_ok (AddDatasecVar id off sz).
Proof.
  intros (Hi & Ho & Hs) Hl Hv. cbn [run_op op_name op_effect] in *. unfold btf__add_datasec_var_info. rewrite valid_if_and by done.
  apply valid_last; [done .. |]. intros d info Hd Hk _. rewrite type_id_ok by done. apply valid_require; [done .. |]. intros Ei. apply id_ok_range in Ei; [| done].
  eapply (count_member_ok _ (ret 0) KDatasec _ (fun _ => [id; off; sz]) _ 3 d); [side | done | done | done | by apply Hv | done | done | lia | |].
  - intros off' Ho'. split; [side | done].
  - intros m off' Hat. by repeat constructor.
Qed.

Lemma add_enum64_value_ok name v : call_ok (AddEnum64Value name v).
Proof.
  intros [Hn Hv64] Hl Hv. cbn [run_op op_name op_effect] in *. unfold btf__add_enum64_value. rewrite valid_if_and by done.
  apply valid_last; [done .. |]. intros d info Hd Hk _. apply valid_name; [done .. |]. intros Hne.
  assert (u32 (Z.shiftr v 32) = v / 2 ^ 32 /\ is_u32 (v / 2 ^ 32)) as [-> Hhi].
  { rewrite Z.shiftr_div_pow2 by lia. assert (is_u32 (v / 2 ^ 32)) by (Z.to_euclidean_division_equations; lia). by rewrite u32_id. }
  change (v mod 2 ^ 32) with (u32 v). pose proof (u32_range v).
  eapply (count_member_ok _ _ KEnum64 _ (fun off => [off; u32 v; v / 2 ^ 32]) _ 3 d); [side | done | done | done | by apply Hv | done | done | lia | |].
  - intros off Ho. split; [side | done].
  - intros m off Hat. by repeat constructor.
Qed.

(** A negative value also sets the flag. *)
Definition set_flag (info : Z) : Z := btf_type_info (kind_bits info) (btf_vlen info) true.
Definition enum_update (v : Z) : act unit := set_last_info btf_type_inc_vlen ;; (if v <? 0 then set_last_info set_flag else ret tt).

Lemma enum_update_ok v : sets_last (enum_update v) (fun info => (if v <? 0 then set_flag else fun info => info) (btf_type_inc_vlen info)).
Proof.
  apply sets_last_seq; [intros info; apply u32_range | apply sets_last_info |]. destruct (v <? 0); [apply sets_last_info | apply sets_last_none].
Qed.

Lemma enum_info_ok v info : btf_vlen info + 1 < 2 ^ 16 ->
  (if v <? 0 then set_flag else fun info => info) (btf_type_inc_vlen info) = btf_type_info (kind_bits info) (btf_vlen info + 1) ((v <? 0) || btf_kflag info).
Proof.
  intros Hi. pose proof (btf_vlen_range info). destruct (info_fields (kind_bits info) (btf_vlen info + 1) (btf_kflag info) (kind_bits_range info) ltac:(lia)) as (_ & F1 & _ & F2 & _).
  destruct (v <? 0); [| done]. unfold set_flag, btf_type_inc_vlen. by rewrite F1, F2.
Qed.

Lemma add_enum_value_ok name v : call_ok (AddEnumValue name v).
Proof.
  intros [Hn Hv64] Hl Hv. cbn [run_op op_name op_effect] in *. unfold btf__add_enum_value. rewrite valid_if_and by done.
  apply valid_last; [done .. |]. intros d info Hd Hk _. apply valid_name; [done .. |]. intros Hne. apply runs_bind.
  assert (negb ((v <? INT_MIN) || (UINT32_MAX <? v)) = (- 2 ^ 31 <=? v) && (v <? 2 ^ 32)) as -> by (unfold INT_MIN, UINT32_MAX; lia).
  apply runs_require; intros ->; [| by apply ends_error]. pose proof (u32_range v).
  apply (runs_ext (m <- new_mem e 8 ;; off <- add_name e (mem_of name) ;; put m [off; u32 v] ;; enum_update v ;; commit_member 8)).
  { apply bind_ext. intros m. apply bind_ext. intros off. apply bind_ext. intros [] b'. apply (act_assoc _ (fun _ => _) (fun _ => commit_member 8)). }
  eapply (member_op_ok e He ts0 strs0 b ds ts strs Hobj Hds Htypes Hcount _ Hl _ _ [KEnum]) with (n := 2)
    (wsf := fun off => [off; u32 v]); [side | apply enum_update_ok | intros i; apply enum_info_ok | by exists d; auto | | done | lia | |].
  - intros k v' Hin. by apply list_elem_of_singleton in Hin as ->.
  - intros off' Ho'. split; [side | done].
  - intros m off' Hat. by repeat constructor.
Qed.

Lemma add_call_ok op : call_ok op.
Proof.
  destruct op; [apply add_int_ok | apply add_float_ok | apply add_ptr_ok | apply add_array_ok | apply add_struct_ok | apply add_union_ok | apply add_field_ok
    | apply add_enum_ok | apply add_enum_value_ok | apply add_enum64_ok | apply add_enum64_value_ok | apply add_fwd_ok | apply add_typedef_ok
    | apply add_volatile_ok | apply add_const_ok | apply add_restrict_ok | apply add_type_tag_ok | apply add_func_ok | apply add_func_proto_ok
    | apply add_func_param_ok | apply add_var_ok | apply add_datasec_ok | apply add_datasec_var_ok | apply add_decl_tag_ok].
Qed.
End Calls.
