(* ===== verification/BtfRun.v ===== *)
(** Sequences of calls that build BTF: what is built is what the calls
    declare, and it survives being written and read back. *)
From S2P Require Import Prelude.
From S2P Require Import CLib.
From S2P Require Import Hashmap.
From S2P Require Import Strset.
From S2P Require Import Btf.
From S2P Require Import BtfParse.
From S2P Require Import BtfQuery.
From S2P Require Import BtfAdd.
From S2P Require Import BtfBuild.
From S2P Require Import BtfDecl.
From S2P Require Import BtfOps.
From S2P Require Import BtfCalls.
From coqutil Require Import Datatypes.RecordSetters.
Import DoubleBraceUpdate.

(** ** Sequences of calls *)

(** Each call has its own answers of the allocator. *)
Notation calls := (list ((nat -> add_env) * add_op)).

Fixpoint run_calls (cs : calls) (b : btf) : option (list Z * btf) :=
  match cs with
  | [] => Some ([], b)
  | (e, op) :: cs => '(z, b) ← call (run_op e op) b; '(zs, b) ← run_calls cs b; Some (z :: zs, b)
  end.

(** What they return, and the declarations they lead to: each call does
    what [spec_op] says, or memory is short and it does nothing. *)
Inductive spec_calls (n0 : Z) : calls -> list decl -> list Z -> list decl -> Prop :=
  | spec_nil ds : spec_calls n0 [] ds [] ds
  | spec_done e op cs ds z ds1 zs ds2 : spec_op op n0 ds = (z, ds1) -> spec_calls n0 cs ds1 zs ds2 ->
      spec_calls n0 ((e, op) :: cs) ds (z :: zs) ds2
  | spec_short e op cs ds zs ds2 : short e -> spec_calls n0 cs ds zs ds2 -> spec_calls n0 ((e, op) :: cs) ds (- ENOMEM :: zs) ds2.

Definition names_len (cs : calls) : Z := foldr (fun c n => zlen (op_name (snd c)) + 1 + n) 0 cs.

(** No call adds a 65536th member to a type. *)
Definition uncrowded (n0 : Z) (cs : calls) (ds : list decl) : Prop := forall cs1 e op cs2 zs ds1 d, cs = cs1 ++ (e, op) :: cs2 ->
  spec_calls n0 cs1 ds zs ds1 -> is_member op = true -> last ds1 = Some d -> d_vlen d + 1 < 2 ^ 16.

Definition proper (c : (nat -> add_env) * add_op) : Prop := env_ok (fst c) /\ op_args (snd c).

Lemma uncrowded_step n0 e op cs ds z ds1 : uncrowded n0 ((e, op) :: cs) ds -> (spec_op op n0 ds = (z, ds1) \/ (short e /\ ds1 = ds)) -> uncrowded n0 cs ds1.
Proof.
  intros Hu Hs cs1 e' op' cs2 zs ds2 d -> Hc. destruct Hs as [Hs | [Hs ->]].
  - by apply (Hu ((e, op) :: cs1) e' op' cs2 (z :: zs) ds2 d eq_refl), (spec_done _ _ _ _ _ _ ds1).
  - by apply (Hu ((e, op) :: cs1) e' op' cs2 (- ENOMEM :: zs) ds2 d eq_refl), spec_short.
Qed.

Lemma names_len_nonneg cs : 0 <= names_len cs.
Proof. induction cs as [| c cs IH]; cbn [names_len foldr]; [lia |]. fold (names_len cs). pose proof (zlen_nonneg (op_name (snd c))). lia. Qed.

Lemma run_calls_ok ts0 strs0 cs : forall b ds ts strs, obj b ts0 strs0 ts strs -> Forall2 (decl_is (strs0 ++ strs)) ds ts ->
  string_at (strs0 ++ strs) 0 = Some [] -> Forall proper cs -> uncrowded (zlen ts0) cs ds ->
  zlen strs0 + zlen strs + names_len cs <= BTF_MAX_STR_OFFSET -> zlen (types_bytes false ts) + 24 * zlen cs <= UINT32_MAX ->
  zlen ts0 + zlen ts + zlen cs <= BTF_MAX_NR_TYPES ->
  exists zs b' ds' ts' strs', run_calls cs b = Some (zs, b') /\ spec_calls (zlen ts0) cs ds zs ds' /\ later ts0 strs0 b ts strs b' ts' strs' /\
    Forall2 (decl_is (strs0 ++ strs')) ds' ts' /\ zlen strs' <= zlen strs + names_len cs /\
    zlen (types_bytes false ts') <= zlen (types_bytes false ts) + 24 * zlen cs /\ zlen ts' <= zlen ts + zlen cs.
Proof.
  induction cs as [| [e op] cs IH]; intros b ds ts strs Hobj Hds H0 Hp Hu Hl1 Hl2 Hl3.
  { exists [], b, ds, ts, strs. cbn [names_len foldr]. change (zlen (@nil ((nat -> add_env) * add_op))) with 0. split_and!; try done; try lia; [constructor | by apply later_refl]. }
  apply Forall_cons in Hp as [[He Ha] Hp]. cbn [fst snd] in *. rewrite zlen_cons in *. cbn [names_len foldr snd] in *. fold (names_len cs) in *.
  pose proof (names_len_nonneg cs) as Z0. pose proof (zlen_nonneg cs) as Z1.
  destruct (add_call_ok e He ts0 strs0 b ds ts strs Hobj Hds H0 ltac:(lia) ltac:(lia) op Ha ltac:(lia)) as (r & b1 & E & ds1 & ts1 & strs1 & HL & Hd1 & Hs1 & Ht1 & Hn1 & Hr).
  { intros Hm d. by apply (Hu [] e op cs [] ds d eq_refl (spec_nil _ ds)). }
  set (z := match r with inl z | inr z => z end) in *.
  assert (spec_op op (zlen ts0) ds = (z, ds1) \/ (short e /\ ds1 = ds)) as Hstep by (destruct Hr as [(_ & ? & ?) | Hr]; [by right | by left]).
  assert (string_at (strs0 ++ strs1) 0 = Some []) as H01.
  { destruct HL as (_ & _ & t & ->). rewrite app_assoc. apply string_at_app; [| done]. by eapply strs_terminated. }
  destruct (IH b1 ds1 ts1 strs1) as (zs & b2 & ds2 & ts2 & strs2 & E2 & Hc & HL2 & Hd2 & Hs2 & Ht2 & Hn2);
    [apply HL | done | done | done | by eapply uncrowded_step | lia | lia | lia |].
  exists (z :: zs), b2, ds2, ts2, strs2. split_and!; try done; try lia; [| | by eapply later_trans].
  - cbn [run_calls]. unfold call. rewrite E. assert (match r with inl z | inr z => Some (z, b1) end = Some (z, b1)) as -> by (by destruct r). cbn [mbind option_bind].
    by rewrite E2.
  - destruct Hr as [(-> & Hsh & ->) | Hr]; [by apply spec_short | by apply (spec_done _ _ _ _ _ _ ds1)].
Qed.

(** ** Objects that show declarations *)

(** A type of the object, read through its functions. *)
Definition shows_word (b : btf) (x : dword) (w : Z) : Prop := match x with WNum z => w = z | WStr s => name_at b w = Some s end.

Definition shows (b : btf) (id : Z) (d : decl) : Prop := exists t r, btf__type_by_id b id = Some (Some t) /\ is_type t r /\
  btf_kind (r_info r) = d_kind d /\ btf_kflag (r_info r) = d_flag d /\ btf_vlen (r_info r) = d_vlen d /\ r_size r = d_size d /\
  name_at b (r_name r) = Some (d_name d) /\ Forall2 (shows_word b) (concat (d_rows d)) (r_extra r).

(** The object has its own types, behind those of its base, as
    declared. *)
Definition built (b : btf) (ds : list decl) : Prop := exists ts0 strs0 ts strs, obj b ts0 strs0 ts strs /\ Forall2 (decl_is (strs0 ++ strs)) ds ts /\
  string_at (strs0 ++ strs) 0 = Some [].

Lemma obj_shows b ts0 strs0 ts strs ds (i : nat) d : obj b ts0 strs0 ts strs -> Forall2 (decl_is (strs0 ++ strs)) ds ts -> zlen ts0 + zlen ts <= BTF_MAX_NR_TYPES ->
  ds !! i = Some d -> shows b (1 + zlen ts0 + Z.of_nat i) d.
Proof.
  intros Hobj Hds Hn Hi. destruct (Forall2_lookup_l _ _ _ _ _ Hds Hi) as (r & Hr & [D1 D2 D3 D4 D5 D6]). pose proof (zlen_nonneg ts0) as Z0.
  pose proof (lookup_lt_Some _ _ _ Hr) as Hlt. unfold BTF_MAX_NR_TYPES in Hn.
  pose proof (obj_btf_ok _ _ _ _ _ Hobj ltac:(rewrite zlen_app; lia)) as Hok.
  destruct (btf__type_by_id_ok b (ts0 ++ ts) (1 + zlen ts0 + Z.of_nat i) Hok) as [(_ & t & r' & E & Eg & Ht & _) | (Hgt & _)]; [lia | | rewrite zlen_app in Hgt; unfold zlen in *; lia].
  assert (r' = r) as ->.
  { unfold get_type in Eg. rewrite (proj2 (Z.eqb_neq _ _)), (proj2 (Z.ltb_ge _ _)) in Eg by lia.
    rewrite lookup_app_r in Eg by (unfold zlen; lia). unfold zlen in Eg. replace (Z.to_nat _ - length ts0)%nat with i in Eg by lia. congruence. }
  exists t, r. split_and!; try done; [by eapply obj_name |]. eapply Forall2_impl; [exact D6 |]. intros [z | s] w Hw; [done | by eapply obj_name].
Qed.

(** ** Well-formed declarations *)

(** The rows of words that a kind has. *)
Inductive row_of : kind -> list dword -> Prop :=
  | row_int w : row_of KInt [WNum w]
  | row_var w : row_of KVar [WNum w]
  | row_decl_tag w : row_of KDeclTag [WNum w]
  | row_array t i n : row_of KArray [WNum t; WNum i; WNum n]
  | row_struct s id w : row_of KStruct [WStr s; WNum id; WNum w]
  | row_union s id w : row_of KUnion [WStr s; WNum id; WNum w]
  | row_enum s v : row_of KEnum [WStr s; WNum v]
  | row_enum64 s v w : row_of KEnum64 [WStr s; WNum v; WNum w]
  | row_func_proto s id : row_of KFuncProto [WStr s; WNum id]
  | row_datasec id off sz : row_of KDatasec [WNum id; WNum off; WNum sz].

(** The number of rows: the kinds with members count them. *)
Definition rows_for (k : kind) (vlen : Z) : Z :=
  match k with
  | KInt | KVar | KDeclTag | KArray => 1
  | KStruct | KUnion | KEnum | KEnum64 | KFuncProto | KDatasec => vlen
  | _ => 0
  end.

Definition counts (k : kind) : bool := match k with KStruct | KUnion | KEnum | KEnum64 | KFuncProto | KDatasec => true | _ => false end.

Record decl_form (d : decl) : Prop := {
  df_rows : Forall (row_of (d_kind d)) (d_rows d);
  df_count : zlen (d_rows d) = rows_for (d_kind d) (d_vlen d);
  df_known : known (d_kind d) /\ d_kind d <> KUnkn
}.

Lemma effect_form op last : match op_effect op last with
  | EErr _ => True
  | ENew d => decl_form d
  | EMember _ ws => exists k, last = Some k /\ row_of k ws /\ counts k = true
  end.
Proof.
  assert (forall k f vlen name size rows, Forall (row_of k) rows -> zlen rows = rows_for k vlen -> match k with KOther _ | KUnkn => False | _ => True end ->
    decl_form {| d_kind := k; d_flag := f; d_vlen := vlen; d_name := name; d_size := size; d_rows := rows |}) as HN.
  { intros k f vlen name size rows H1 H2 H3. split; cbn; [done | done |]. split; [apply known_kind; by destruct k | by intros ->]. }
  assert (forall ks, last_is last ks = true -> exists k, last = Some k /\ k ∈ ks) as HL.
  { intros ks H. destruct last as [k |]; [| done]. exists k. split; [done |]. by apply bool_decide_eq_true in H. }
  destruct op as [| | | | | | ? ? ? ? | | ? v | | | ? [] | | | | | | | | | | | |]; cbn [op_effect]; unfold valid_if, plain, flagged;
    try (match goal with |- context [if ?c then _ else _] => destruct c eqn:Hc end; [| done]);
    try (apply HN; [by repeat constructor | done | done]).
  - apply andb_prop in Hc as [[[Hc _]%andb_prop _]%andb_prop _]. destruct (HL _ Hc) as (k & -> & Hk). rewrite !elem_of_cons, elem_of_nil in Hk.
    exists k. destruct Hk as [-> | [-> | []]]; split_and!; try done; constructor.
  - apply andb_prop in Hc as [Hc _]. destruct (HL _ Hc) as (k & -> & ->%list_elem_of_singleton).
    destruct (_ && _); [| done]. exists KEnum. split_and!; try done; constructor.
  - apply andb_prop in Hc as [Hc _]. destruct (HL _ Hc) as (k & -> & ->%list_elem_of_singleton). exists KEnum64. split_and!; try done; constructor.
  - done.
  - apply andb_prop in Hc as [Hc _]. destruct (HL _ Hc) as (k & -> & ->%list_elem_of_singleton). exists KFuncProto. split_and!; try done; constructor.
  - apply andb_prop in Hc as [Hc _]. destruct (HL _ Hc) as (k & -> & ->%list_elem_of_singleton). exists KDatasec. split_and!; try done; constructor.
Qed.

Lemma spec_op_form op n0 ds z ds1 : Forall decl_form ds -> spec_op op n0 ds = (z, ds1) -> Forall decl_form ds1.
Proof.
  intros HF E. unfold spec_op in E. pose proof (effect_form op (d_kind <$> last ds)) as He. destruct (op_effect _ _) as [err | d | f ws]; cbn [apply_effect] in E; simplify_eq.
  - done.
  - apply Forall_app. by split; [| constructor].
  - destruct He as (k & Hk & Hw & Hc). destruct (last ds) as [d |] eqn:El; [| done]. injection Hk as <-. apply last_Some in El as [ds' ->].
    rewrite length_app. cbn [length]. rewrite Nat.add_1_r. cbn [pred]. rewrite take_app_length. apply Forall_app in HF as [HF Hd]. apply Forall_cons in Hd as [[H1 H2 H3] _].
    apply Forall_app. split; [done |]. constructor; [| done]. split; cbn [add_to d_rows d_kind d_vlen]; [| | done].
    + apply Forall_app. by split; [| constructor].
    + rewrite zlen_app, H2. change (zlen [ws]) with 1. by destruct (d_kind d).
Qed.

Lemma spec_calls_form n0 cs ds zs ds' : spec_calls n0 cs ds zs ds' -> Forall decl_form ds -> Forall decl_form ds'.
Proof. induction 1 as [| ? ? ? ? ? ? ? ? Hs ? IH |]; [done | | done]. intros HF. apply IH. by eapply spec_op_form. Qed.

(** ** The checks of a reader, on declarations *)

Definition row_ids (k : kind) (row : list dword) : list Z :=
  match k, row with
  | (KStruct | KUnion), [_; WNum id; _] => [id]
  | KFuncProto, [_; WNum id] => [id]
  | KDatasec, [WNum id; _; _] => [id]
  | KArray, [WNum t; WNum i; _] => [t; i]
  | _, _ => []
  end.

(** The types of a declaration that a reader looks at.  The return type of a
    prototype is not among them. *)
Definition checked_decl_ids (d : decl) : list Z :=
  match d_kind d with
  | KPtr | KTypedef | KVolatile | KConst | KRestrict | KVar | KDeclTag | KTypeTag | KFunc => [d_size d]
  | k => d_rows d ≫= row_ids k
  end.

(** These exist, and a function has a prototype. *)
Definition decl_sane (ds : list decl) (d : decl) : bool :=
  forallb (fun id => id <=? zlen ds) (checked_decl_ids d) &&
  match d_kind d with
  | KFunc => match ds !! Z.to_nat (d_size d - 1) with Some f => (1 <=? d_size d) && bool_decide (d_kind f = KFuncProto) | None => false end
  | _ => true
  end.

Lemma column_cons n j vlen (ws l : list Z) : length ws = n -> (j < n)%nat -> column n j (S vlen) (ws ++ l) = default 0 (ws !! j) :: column n j vlen l.
Proof.
  intros Hl Hj. unfold column. cbn [seq fmap list_fmap]. f_equal.
  - rewrite Nat.mul_0_r, Nat.add_0_l, lookup_app_l by lia. done.
  - rewrite <- seq_shift, <- list_fmap_compose. apply list_fmap_ext. intros _ i _. cbn. rewrite lookup_app_r by lia. do 2 f_equal. lia.
Qed.

(** A column of the words of the rows. *)
Lemma column_rows m k n j (P : list dword -> Z -> Prop) :
  (forall row ws, row_of k row -> Forall2 (word_is m) row ws -> length ws = n /\ (j < n)%nat /\ P row (default 0 (ws !! j))) ->
  forall rows extra, Forall (row_of k) rows -> Forall2 (word_is m) (concat rows) extra -> Forall2 P rows (column n j (length rows) extra).
Proof.
  intros HP. induction rows as [| row rows IH]; intros extra HF H2; [constructor |]. apply Forall_cons in HF as [Hr HF].
  apply Forall2_app_inv_l in H2 as (ws & l & Hws & Hl & ->). destruct (HP row ws Hr Hws) as (Hn & Hj & Hp). cbn [length].
  rewrite column_cons by done. constructor; [done | by apply IH].
Qed.

Ltac row_words := intros row ws Hrow Hws; inversion Hrow; subst; repeat (apply Forall2_cons_inv_l in Hws as (? & ? & ? & Hws & ->));
  apply Forall2_nil_inv_l in Hws as ->; cbn in *; subst.

Section Sane.
Context (strs : list byte) (ds : list decl) (ts : list rtype) (Hds : Forall2 (decl_is strs) ds ts).

Lemma vlen_rows d r : decl_is strs d r -> decl_form d -> counts (d_kind d) = true -> Z.to_nat (btf_vlen (r_info r)) = length (d_rows d).
Proof. intros [D1 D2 D3 D4 D5 D6] [F1 F2 F3] Hc. rewrite D3. assert (zlen (d_rows d) = d_vlen d) as E by (rewrite F2; by destruct (d_kind d)). unfold zlen in E. lia. Qed.

Lemma checked_ids_ok d r : decl_is strs d r -> decl_form d -> checked_ids r = checked_decl_ids d.
Proof.
  intros Hd Hf. pose proof (vlen_rows d r Hd Hf) as Hv. destruct Hd as [D1 D2 D3 D4 D5 D6]. destruct Hf as [F1 F2 F3]. unfold checked_ids, checked_decl_ids. rewrite D1, D5.
  assert (forall n j, (forall row ws, row_of (d_kind d) row -> Forall2 (word_is strs) row ws -> length ws = n /\ (j < n)%nat /\ row_ids (d_kind d) row = [default 0 (ws !! j)]) ->
    counts (d_kind d) = true -> column n j (Z.to_nat (btf_vlen (r_info r))) (r_extra r) = d_rows d ≫= row_ids (d_kind d)) as HC.
  { intros n j HP Hc. rewrite Hv by done.
    pose proof (column_rows strs (d_kind d) n j (fun row w => row_ids (d_kind d) row = [w]) HP (d_rows d) (r_extra r) F1 D6) as H2.
    clear -H2. induction H2 as [| row w rows l Hrow _ IH]; [done |]. cbn. rewrite Hrow. cbn. by rewrite IH. }
  assert (forall k, (forall row, row_ids k row = []) -> [] = d_rows d ≫= row_ids k) as HE.
  { intros k Hk. clear -Hk. induction (d_rows d) as [| row rows IH]; [done |]. cbn. rewrite Hk. exact IH. }
  destruct (d_kind d) eqn:Ek; try done; try (apply HC; [row_words; split_and!; done || lia | done]); try (by apply HE).
  - change (rows_for KArray _) with 1 in F2. destruct (d_rows d) as [| row [|]]; [done | | unfold zlen in F2; cbn in F2; lia]. apply Forall_cons in F1 as [F1 _].
    inversion F1; subst. cbn in D6. repeat (apply Forall2_cons_inv_l in D6 as (? & ? & ? & D6 & ->)). cbn in *. by subst.
Qed.

Lemma decl_strs_ok d r : decl_is strs d r -> decl_form d -> forallb (in_strs strs) (type_strs r) = true.
Proof.
  intros Hd Hf. pose proof (vlen_rows d r Hd Hf) as Hv. destruct Hd as [D1 D2 D3 D4 D5 D6]. destruct Hf as [F1 F2 F3]. unfold type_strs. rewrite D1. cbn [forallb].
  assert (forall w s, string_at strs w = Some s -> in_strs strs w = true) as HS by (intros w s Hw; apply string_at_range in Hw; unfold in_strs; lia).
  rewrite (HS _ _ D4). cbn [andb].
  assert (forall n j, (forall row ws, row_of (d_kind d) row -> Forall2 (word_is strs) row ws -> length ws = n /\ (j < n)%nat /\ in_strs strs (default 0 (ws !! j)) = true) ->
    counts (d_kind d) = true -> forallb (in_strs strs) (column n j (Z.to_nat (btf_vlen (r_info r))) (r_extra r)) = true) as HC.
  { intros n j HP Hc. rewrite Hv by done.
    pose proof (column_rows strs (d_kind d) n j (fun _ w => in_strs strs w = true) HP (d_rows d) (r_extra r) F1 D6) as H2.
    clear -H2. induction H2 as [| row w rows l Hrow _ IH]; [done |]. cbn. by rewrite Hrow, IH. }
  destruct (d_kind d) eqn:Ek; try done; (apply HC; [row_words; split_and!; try (done || lia); by eapply HS | done]).
Qed.

Lemma decl_sane_ok d r : decl_is strs d r -> decl_form d -> rtype_ok r -> sane_type (in_strs strs) ts r = decl_sane ds d.
Proof.
  intros Hd Hf Hr. unfold sane_type, decl_sane. rewrite (decl_strs_ok d r Hd Hf), (checked_ids_ok d r Hd Hf). cbn [andb].
  pose proof Hd as [D1 D2 D3 D4 D5 D6]. rewrite D1, D5. assert (zlen ts = zlen ds) as -> by (unfold zlen; by rewrite (Forall2_length _ _ _ Hds)). f_equal.
  destruct (d_kind d); try done. destruct (rtype_ok_parts r Hr) as [HB _]. unfold r_base in HB. rewrite !Forall_cons, D5 in HB. destruct HB as (_ & _ & HB & _).
  unfold get_type. rewrite (proj2 (Z.ltb_ge _ 0)) by lia. destruct (Z.eqb_spec (d_size d) 0) as [-> | Hne].
  - by destruct (ds !! Z.to_nat (0 - 1)).
  - rewrite (proj2 (Z.leb_le 1 _)) by lia. destruct (ts !! Z.to_nat (d_size d - 1)) as [f |] eqn:Ef.
    + destruct (Forall2_lookup_r _ _ _ _ _ Hds Ef) as (f' & -> & [E _ _ _ _ _]). by rewrite E.
    + apply lookup_ge_None in Ef. by rewrite (proj2 (lookup_ge_None ds _)) by (rewrite (Forall2_length _ _ _ Hds); done).
Qed.

Lemma decls_sane_ok : Forall decl_form ds -> Forall rtype_ok ts -> forallb (sane_type (in_strs strs) ts) ts = forallb (decl_sane ds) ds.
Proof.
  intros HF HR. pose proof decl_sane_ok as H. revert H. generalize (sane_type (in_strs strs) ts) (decl_sane ds). intros f g H.
  induction Hds as [| d r ds' ts' Hd Hds' IH]; [done |]. apply Forall_cons in HF as [? ?], HR as [? ?]. cbn. by rewrite (H d r), IH by done.
Qed.
End Sane.

(** ** New objects *)

Lemma empty_own_state o (strs : list byte) : (strs = [] \/ strs = [NUL]) -> b_modifiable o = false -> b_strs o = strs -> b_types o = [] -> b_offs o = [] ->
  b_offs_cap o = 0 -> b_nr_types o = 0 -> type_len (b_hdr o) = 0 -> str_len (b_hdr o) = zlen strs -> hdr_len (b_hdr o) = 24 -> own_state o [] strs.
Proof.
  intros Hs H1 H2 H3 H4 H5 H6 H7 H8 H9. assert (btf_strs_data o = Some strs) as Es by (unfold btf_strs_data; by rewrite H1, H2). assert (0 <= zlen strs <= 1) as Hz by (destruct Hs as [-> | ->]; done).
  split.
  - split; [by exists []; rewrite H3 | done | split; [done | by rewrite H4, H5 | by rewrite H5 | by exists []; rewrite H4 | done] | done |].
    exists strs. rewrite H8. split; [done |]. split; [lia |]. split; [lia |]. intros Hp. by destruct Hs as [-> | ->].
  - exists strs. split; [done | apply firstn_all].
  - done.
  - unfold BTF_MAX_STR_OFFSET. lia.
  - by rewrite H7.
  - by rewrite H1, H9.
Qed.

Lemma new_empty_obj b : btf__new_empty (true, true) = inr b -> obj b [] [] [] [NUL].
Proof.
  intros [= <-]. split; [done | | done | done]. by apply empty_own_state; [right | ..].
Qed.

Lemma new_split_obj base b ts0 strs0 : obj base [] [] ts0 strs0 -> bases base = [] -> zlen ts0 <= BTF_MAX_NR_TYPES -> btf__new_empty_split (true, true) base = inr b ->
  obj b ts0 strs0 [] [].
Proof.
  intros Hobj Eb Hn [= <-]. pose proof (ob_own _ _ _ _ _ Hobj) as Ho. pose proof (zlen_nonneg ts0) as Z0. unfold BTF_MAX_NR_TYPES in Hn.
  split; cbn [own bases btf_blank b_start_id b_start_str_off].
  - cbn. rewrite Eb. split; [done |]. split; [apply (ob_start _ _ _ _ _ Hobj) | apply (ob_start_str _ _ _ _ _ Hobj)].
  - by apply empty_own_state; [left | ..].
  - cbn. unfold constant, btf__type_cnt. rewrite (ob_start _ _ _ _ _ Hobj), (own_ok_nr _ _ (os_own _ _ _ Ho)). change (zlen (@nil rtype)) with 0. apply u32_id. lia.
  - cbn. unfold constant. apply (os_len _ _ _ Ho).
Qed.

(** An object that was read. *)
Lemma parsed_obj raw size sw strs ts b : parsed raw size (image_header ts strs) sw strs None ts b -> zlen strs <= BTF_MAX_STR_OFFSET ->
  zlen (types_bytes false ts) <= UINT32_MAX -> obj b [] [] ts strs.
Proof.
  intros [P1 P2 P3 P4 P5 P6 P7 P8 P9 P10 P11 P12 P13 P14] Hs Ht. split; [by rewrite P2 | | done | done]. split; try done.
  - exists strs. unfold btf_strs_data. rewrite P9, P12. split; [done | apply firstn_all].
  - by rewrite P10.
  - by rewrite P10.
  - by rewrite P9, P10.
Qed.

(** Few calls do not fill a type. *)
Lemma spec_calls_vlen n0 cs ds zs ds' : spec_calls n0 cs ds zs ds' -> forall v, 2 <= v -> Forall (fun d => d_vlen d <= v) ds ->
  Forall (fun d => d_vlen d <= v + zlen cs) ds'.
Proof.
  induction 1 as [ds | e op cs ds z ds1 zs ds2 Hs _ IH | e op cs ds zs ds2 _ _ IH]; intros v Hv HF.
  - eapply Forall_impl; [exact HF |]. change (zlen (@nil ((nat -> add_env) * add_op))) with 0. cbn. lia.
  - replace (v + zlen ((e, op) :: cs)) with (v + 1 + zlen cs) by (rewrite zlen_cons; lia). apply IH; [lia |]. unfold spec_op in Hs.
    assert (match op_effect op (d_kind <$> last ds) with ENew d => d_vlen d <= 2 | _ => True end) as He.
    { destruct op as [| | | | | | | | | | | ? [] | | | | | | ? l ? | | | | | |]; cbn [op_effect]; unfold valid_if, plain, flagged; repeat case_match; simplify_eq; try done; cbn; try lia.
      match goal with H : _ && _ = true |- _ => apply andb_prop in H as [[_ Hl]%andb_prop _] end.
      apply (one_of_range _ _ (fun x => x <=? 2)) in Hl; [lia | done]. }
    assert (Forall (fun d => d_vlen d <= v + 1) ds) as HF' by (eapply Forall_impl; [exact HF |]; cbn; lia).
    destruct (op_effect _ _) as [err | d | f ws]; cbn [apply_effect] in Hs; simplify_eq; [done | |].
    + apply Forall_app. split; [done |]. constructor; [lia | done].
    + destruct (last ds) as [d |] eqn:El; [| done]. apply last_Some in El as [ds' ->]. rewrite length_app. cbn [length]. rewrite Nat.add_1_r. cbn [pred].
      rewrite take_app_length. apply Forall_app in HF as [_ Hd]. apply Forall_cons in Hd as [Hd _]. apply Forall_app in HF' as [HF' _].
      apply Forall_app. split; [done |]. constructor; [cbn; lia | done].
  - rewrite zlen_cons. eapply Forall_impl; [by apply (IH v) |]. cbn. lia.
Qed.

Lemma few_calls n0 cs : zlen cs < 2 ^ 16 - 2 -> uncrowded n0 cs [].
Proof.
  intros Hl cs1 e op cs2 zs ds d -> Hc _ Hd. apply last_Some in Hd as [ds' ->].
  assert (Forall (fun d => d_vlen d <= 2 + zlen cs1) (ds' ++ [d])) as HF by (by eapply spec_calls_vlen).
  apply Forall_app in HF as [_ HF]. apply Forall_cons in HF as [HF _]. rewrite zlen_app, zlen_cons in Hl. pose proof (zlen_nonneg cs2). lia.
Qed.

(** ** Building *)

(** The strings, the types and their number stay within the limits of the format. *)
Record fits (b : btf) (cs : calls) : Prop := {
  fit_strs : b_start_str_off (own b) + str_len (b_hdr (own b)) + names_len cs <= BTF_MAX_STR_OFFSET;
  fit_types : type_len (b_hdr (own b)) + 24 * zlen cs <= UINT32_MAX;
  fit_count : b_start_id (own b) + b_nr_types (own b) + zlen cs <= BTF_MAX_NR_TYPES
}.

Lemma run_built b ds cs : built b ds -> Forall proper cs -> fits b cs -> uncrowded (b_start_id (own b) - 1) cs ds ->
  exists zs b' ds', run_calls cs b = Some (zs, b') /\ spec_calls (b_start_id (own b) - 1) cs ds zs ds' /\ built b' ds' /\
    btf__type_cnt b' = b_start_id (own b) + zlen ds' /\ (forall i d, ds' !! i = Some d -> shows b' (b_start_id (own b) + Z.of_nat i) d).
Proof.
  intros (ts0 & strs0 & ts & strs & Hobj & Hds & H0) Hp [F1 F2 F3] Hu. pose proof (ob_own _ _ _ _ _ Hobj) as Ho.
  rewrite (ob_start_str _ _ _ _ _ Hobj), (os_len _ _ _ Ho) in F1. rewrite (ow_len _ _ (os_own _ _ _ Ho)) in F2.
  rewrite (ob_start _ _ _ _ _ Hobj), (own_ok_nr _ _ (os_own _ _ _ Ho)) in F3. rewrite (ob_start _ _ _ _ _ Hobj) in *.
  replace (1 + zlen ts0 - 1) with (zlen ts0) in * by lia.
  destruct (run_calls_ok ts0 strs0 cs b ds ts strs) as (zs & b' & ds' & ts' & strs' & E & Hc & HL & Hd' & _ & _ & Hn); [done | done | done | done | done | lia | done | lia |].
  assert (zlen ts0 + zlen ts' <= BTF_MAX_NR_TYPES) as Hn' by lia.
  exists zs, b', ds'. split; [done |]. split; [done |]. split; [| split].
  - exists ts0, strs0, ts', strs'. split; [apply HL |]. split; [done |]. destruct HL as (_ & _ & t & ->). rewrite app_assoc. apply string_at_app; [| done]. by eapply strs_terminated.
  - unfold BTF_MAX_NR_TYPES in Hn'. rewrite (type_cnt_ok b' (ts0 ++ ts')), zlen_app by (eapply obj_btf_ok; [apply HL | rewrite zlen_app; lia]).
    unfold zlen. rewrite (Forall2_length _ _ _ Hd'). lia.
  - intros i d Hi. eapply obj_shows; [apply HL | done | done | done].
Qed.

(** C10: the functions that add types build what is declared.  Take any
    object with declarations [ds] (new, split from a base, or read), and any calls of
    the 24 functions, with arguments of the C types and names that are C strings, each with its own answers of the
    allocator, such that the strings, the types and their number stay within the
    limits of the format and no type gets a 65536th member (the code does not notice
    that, and spoils the type).  Every call is
    defined; it returns and declares what [spec_op] says (an id, 0 for a member, or an error, with the declarations unchanged), or
    -ENOMEM when memory is short, with the declarations unchanged; and afterwards the
    object shows exactly the declarations, through its own functions, under
    the ids that were returned.  If the declarations were well-formed, they are: each has a
    known kind and the rows of words of its kind, one for each member it counts. *)
Theorem btf_add_refines b ds cs : built b ds -> Forall proper cs -> fits b cs -> uncrowded (b_start_id (own b) - 1) cs ds ->
  exists zs b' ds', run_calls cs b = Some (zs, b') /\ spec_calls (b_start_id (own b) - 1) cs ds zs ds' /\ built b' ds' /\
    btf__type_cnt b' = b_start_id (own b) + zlen ds' /\ (forall i d, ds' !! i = Some d -> shows b' (b_start_id (own b) + Z.of_nat i) d) /\
    (Forall decl_form ds -> Forall decl_form ds').
Proof.
  intros Hb Hp Hfit Hu. destruct (run_built b ds cs Hb Hp Hfit Hu) as (zs & b' & ds' & E & Hc & Hb' & Hcnt & Hsh). exists zs, b', ds'.
  split_and!; try done. by apply (spec_calls_form _ _ _ _ _ Hc).
Qed.

(** ** Writing what was built *)

(** The data of an object that has been built from a new one. *)
Lemma built_raw b0 b ts strs endian b1 : btf__new_empty (true, true) = inr b0 -> later [] [] b0 [] [NUL] b ts strs ->
  24 + zlen (types_bytes false ts) + zlen strs < 2 ^ 32 -> btf__set_endianness b endian = (0, b1) ->
  exists b2, btf__raw_data true b1 = Some (Some (image (endian =? 1) ts strs, zlen (image (endian =? 1) ts strs)), b2).
Proof.
  intros [= <-] (Hobj & [Hsh Hc] & _) Hsize Hend. pose proof (ob_own _ _ _ _ _ Hobj) as Ho. set (sw := endian =? 1) in *.
  change (shape (own b) = (BTF_MAGIC, 1, 0, 24, 0, 0, (@nil byte, false, 1, 0))) in Hsh. unfold shape in Hsh. injection Hsh as S1 S2 S3 S4 S5 S6 S7 _ _ _.
  pose proof (ow_len _ _ (os_own _ _ _ Ho)) as Htl. pose proof (os_len _ _ _ Ho) as Hsl.
  assert (same_core (own b) (own b1) /\ b_swapped (own b1) = sw /\ b_hdr_rest (own b1) = b_hdr_rest (own b) /\ b_raw (own b1) = b_raw (own b) /\
    b_raw_size (own b1) = b_raw_size (own b) /\ (b_raw_swapped (own b) = None -> b_raw_swapped (own b1) = None)) as (Hcore & Esw & Er & Eraw & Erz & Ers).
  { unfold btf__set_endianness in Hend. fold sw in Hend. destruct (_ && _); [done |]. injection Hend as <-. destruct b as [[] ?]. cbn. destruct sw; split_and!; try done; by split. }
  rewrite zlen_image. unfold btf__raw_data. cbv zeta. rewrite Esw.
  assert (btf_get_raw_data true (own b1) sw = Some (Some (image sw ts strs, 24 + zlen (types_bytes false ts) + zlen strs))) as ->; [| by eexists].
  assert ((if sw then b_raw_swapped (own b1) else b_raw (own b1)) = None -> btf_get_raw_data true (own b1) sw = Some (Some (image sw ts strs, 24 + zlen (types_bytes false ts) + zlen strs))) as Hnew.
  { intros Hnone. apply get_raw_image with (hd := b_hdr (own b)); try done.
    - apply (ow_ok _ _ (os_own _ _ _ Ho)).
    - apply (same_core_own _ _ _ Hcore), (os_own _ _ _ Ho).
    - by rewrite Htl, Hsl, S4.
    - etransitivity; [| symmetry; apply header_image_native]. unfold header_bytes. rewrite S1, S2, S3, S4, S5, Htl, Hsl. cbn [magic version flags hdr_len type_off type_len str_off str_len image_header].
      do 6 f_equal. f_equal. rewrite (le_split_mod (str_off _) 4), (le_split_mod (zlen _) 4). f_equal. change (2 ^ (8 * Z.of_nat 4)) with (2 ^ 32).
      rewrite Htl in S6. unfold u32 in S6. pose proof (Z.div_mod (str_off (b_hdr (own b)) - zlen (types_bytes false ts)) (2 ^ 32) ltac:(done)) as Hd. rewrite S6 in Hd.
      replace (str_off (b_hdr (own b))) with (zlen (types_bytes false ts) + (str_off (b_hdr (own b)) - zlen (types_bytes false ts)) / 2 ^ 32 * 2 ^ 32) by lia.
      apply Z.mod_add. done.
    - apply (sc_hdr _ _ Hcore).
    - by rewrite Er.
    - destruct (os_strs _ _ _ Ho) as (m & Em & Et). exists m. split; [| done]. rewrite <- Em. unfold btf_strs_data.
      by rewrite (sc_modifiable _ _ Hcore), (sc_set _ _ Hcore), (sc_strs _ _ Hcore). }
  destruct Hc as [[C1 C2] | (C & -> & ->)].
  - apply Hnew. destruct sw; [by apply Ers | by rewrite Eraw].
  - unfold cached in C. injection C as C1 C2 C3. destruct sw; [apply Hnew; by apply Ers |]. unfold btf_get_raw_data. rewrite Eraw, Erz, C1, C3. done.
Qed.

Lemma built_strs b ts strs : obj b [] [] ts strs -> [NUL] `prefix_of` strs -> strs_ok false strs = true.
Proof.
  intros Hobj [t ->]. destruct (obj_terminated _ _ _ _ _ Hobj) as [_ [Hn | Hl]]; [done |]. pose proof (os_max _ _ _ (ob_own _ _ _ _ _ Hobj)) as Hm.
  unfold strs_ok. cbn [andb orb]. rewrite bool_decide_false by done. rewrite (bool_decide_true (last _ = _)) by done. rewrite (bool_decide_true (head _ = _)) by done.
  rewrite (proj2 (Z.leb_le _ _)) by lia. done.
Qed.

Lemma read_back e b ds ts strs sw : obj b [] [] ts strs -> Forall2 (decl_is strs) ds ts -> Forall decl_form ds -> [NUL] `prefix_of` strs ->
  24 + zlen (types_bytes false ts) + zlen strs < 2 ^ 32 -> zlen ts <= BTF_MAX_NR_TYPES -> let file := image sw ts strs in
  exists r, btf_new e file (zlen file) None = Some r /\
    ((r = inl (- ENOMEM) /\ (ne_btf e = false \/ ne_raw e = false \/ exists n, n <= zlen ds /\ no_offs_room (ne_realloc e) n)) \/
     if forallb (decl_sane ds) ds then
       exists b', r = inr b' /\ btf__endianness b' = c_bool sw /\ btf__type_cnt b' = 1 + zlen ds /\
         forall i d, ds !! i = Some d -> shows b' (1 + Z.of_nat i) d
     else r = inl (- EINVAL)).
Proof.
  intros Hobj Hds HF Hpre Hsize Hn file. pose proof (ob_own _ _ _ _ _ Hobj) as Ho. pose proof (ow_ok _ _ (os_own _ _ _ Ho)) as Hts.
  assert (zlen ds = zlen ts) as Ez by (unfold zlen; by rewrite (Forall2_length _ _ _ Hds)). rewrite Ez.
  destruct (btf_new_checked e sw ts strs Hts (built_strs _ _ _ Hobj Hpre) Hsize) as (r & E & Hr). exists r. split; [exact E |].
  destruct Hr as [Hr | (b' & Hok & HP & Hr)]; [by left | right]. rewrite (decls_sane_ok strs ds ts Hds HF Hts) in Hr. destruct (forallb _ _); [| done].
  assert (obj b' [] [] ts strs) as Hobj'.
  { eapply parsed_obj; [exact HP | apply (os_max _ _ _ Ho) |]. pose proof (zlen_nonneg strs). unfold UINT32_MAX. lia. }
  exists b'. split; [done |]. split; [unfold btf__endianness; by rewrite (pa_swapped _ _ _ _ _ _ _ _ HP) |]. split; [by apply type_cnt_ok |].
  intros i d Hi. apply (obj_shows b' [] [] ts strs ds i d Hobj' Hds); [change (zlen (@nil rtype)) with 0; lia | done].
Qed.

(** C12: what is built can be written and read back.  Take a new object,
    any calls that add types, with arguments of the C types, less than 2 GiB in all, that add no 65536th
    member to a type, and either byte order.  The object is written as a file when there is memory
    for it.  Reading the file, if memory is not short then (-ENOMEM), gives an object that shows the same declarations under
    the same ids, in this byte order; or it is refused with -EINVAL, exactly when a
    declaration refers to a type that does not exist, other than as the return type of a
    prototype, which is not checked, or a function to something else than a prototype. *)
Theorem btf_built_roundtrip b cs endian : btf__new_empty (true, true) = inr b -> Forall proper cs -> uncrowded 0 cs [] ->
  26 + 24 * zlen cs + names_len cs < 2 ^ 31 -> endian = 0 \/ endian = 1 ->
  exists zs b' ds b1 file b2, run_calls cs b = Some (zs, b') /\ spec_calls 0 cs [] zs ds /\ btf__set_endianness b' endian = (0, b1) /\
    btf__raw_data true b1 = Some (Some (file, zlen file), b2) /\
    forall e, exists r, btf_new e file (zlen file) None = Some r /\
      ((r = inl (- ENOMEM) /\ (ne_btf e = false \/ ne_raw e = false \/ exists n, n <= zlen ds /\ no_offs_room (ne_realloc e) n)) \/
       if forallb (decl_sane ds) ds then
         exists b3, r = inr b3 /\ btf__endianness b3 = endian /\ btf__type_cnt b3 = 1 + zlen ds /\
           forall i d, ds !! i = Some d -> shows b3 (1 + Z.of_nat i) d
       else r = inl (- EINVAL)).
Proof.
  intros Hb Hp Hu Hsize Hend. pose proof (new_empty_obj b Hb) as Hobj. pose proof (names_len_nonneg cs) as Z0. pose proof (zlen_nonneg cs) as Z1.
  destruct (run_calls_ok [] [] cs b [] [] [NUL]) as (zs & b' & ds & ts & strs & E & Hc & HL & Hd & L1 & L2 & L3);
    [done | constructor | done | done | done | unfold BTF_MAX_STR_OFFSET; change (zlen (@nil byte)) with 0; change (zlen [NUL]) with 1; lia
    | change (zlen (types_bytes false [])) with 0; unfold UINT32_MAX; lia | change (zlen (@nil rtype)) with 0; unfold BTF_MAX_NR_TYPES; lia |].
  change (zlen [NUL]) with 1 in L1. change (zlen (types_bytes false [])) with 0 in L2. change (zlen (@nil rtype)) with 0 in L3.
  pose proof (spec_calls_form _ _ _ _ _ Hc (Forall_nil_2 _)) as HF. cbn [app] in Hd.
  assert (exists b1, btf__set_endianness b' endian = (0, b1)) as [b1 E1] by (unfold btf__set_endianness; destruct Hend as [-> | ->]; by eexists).
  destruct (built_raw b b' ts strs endian b1 Hb HL ltac:(lia) E1) as [b2 E2]. exists zs, b', ds, b1, (image (endian =? 1) ts strs), b2. split_and!; try done.
  intros e. destruct (read_back e b' ds ts strs (endian =? 1)) as (r & Er & Hr); [apply HL | done | done | apply HL | lia | unfold BTF_MAX_NR_TYPES; lia |].
  exists r. split; [done |]. assert (c_bool (endian =? 1) = endian) as Ee by (by destruct Hend as [-> | ->]). by rewrite Ee in Hr.
Qed.

(** ** An example: a number, a struct with two fields, a pointer to it, an
    enumeration and a function *)

Definition ample : nat -> add_env := fun _ =>
  {| ae_hdr := true; ae_types := true; ae_set := true; ae_map := true; ae_data := true; ae_entries := fun _ => true; ae_entry := true;
     ae_calloc := fun n => n <? 2 ^ 61; ae_realloc := fun _ => true |}.

Definition sample_calls : calls := (fun op => (ample, op)) <$>
  [AddInt (Some (str "int")) 4 1; AddStruct (Some (str "point")) 8; AddField (Some (str "x")) 1 0 0; AddField (Some (str "y")) 1 32 0;
   AddPtr 2; AddEnum (Some (str "color")) 4; AddEnumValue (Some (str "x")) (-1); AddFuncProto 1; AddFuncParam (Some (str "p")) 3;
   AddFunc (Some (str "draw")) 1 5; AddVar None 1 1; AddPtr (-1)].

Definition empty_btf : btf := match btf__new_empty (true, true) with inr b => b | inl _ => btf_blank None end.

Lemma sample_calls_proper : Forall proper sample_calls.
Proof.
  assert (env_ok ample) as He by (intros d n Hn; cbn; lia).
  repeat (constructor; [split; [exact He |]; cbn; unfold name_ok, string_ok, is_int; split_and?; try lia; try done; cbn; set_solver |]). constructor.
Qed.

Lemma empty_built : built empty_btf [].
Proof. exists [], [], [], [NUL]. split; [by apply new_empty_obj |]. by split; [constructor |]. Qed.

Lemma sample_calls_fit : fits empty_btf sample_calls.
Proof. split; vm_compute; discriminate. Qed.

Lemma sample_results : exists b, run_calls sample_calls empty_btf = Some ([1; 2; 0; 0; 3; 4; 0; 5; 0; 6; - EINVAL; - EINVAL], b).
Proof. eexists. vm_compute. reflexivity. Qed.

Lemma btf_add_refines_witness : exists zs b' ds', run_calls sample_calls empty_btf = Some (zs, b') /\ spec_calls 0 sample_calls [] zs ds' /\ built b' ds' /\
  btf__type_cnt b' = 1 + zlen ds' /\ (forall i d, ds' !! i = Some d -> shows b' (1 + Z.of_nat i) d) /\ (Forall decl_form [] -> Forall decl_form ds').
Proof. apply (btf_add_refines empty_btf [] sample_calls); [apply empty_built | apply sample_calls_proper | apply sample_calls_fit | by apply few_calls]. Defined.

Lemma btf_built_roundtrip_witness :
  exists zs b' ds b1 file b2, run_calls sample_calls empty_btf = Some (zs, b') /\ spec_calls 0 sample_calls [] zs ds /\ btf__set_endianness b' 1 = (0, b1) /\
    btf__raw_data true b1 = Some (Some (file, zlen file), b2) /\
    forall e, exists r, btf_new e file (zlen file) None = Some r /\
      ((r = inl (- ENOMEM) /\ (ne_btf e = false \/ ne_raw e = false \/ exists n, n <= zlen ds /\ no_offs_room (ne_realloc e) n)) \/
       if forallb (decl_sane ds) ds then
         exists b3, r = inr b3 /\ btf__endianness b3 = 1 /\ btf__type_cnt b3 = 1 + zlen ds /\
           forall i d, ds !! i = Some d -> shows b3 (1 + Z.of_nat i) d
       else r = inl (- EINVAL)).
Proof. apply (btf_built_roundtrip empty_btf sample_calls 1); [done | apply sample_calls_proper | by apply few_calls | done | by right]. Defined.

(** A prototype that returns the type 99, which does not exist, is written and
    read back without complaint. *)
Lemma proto_return_unchecked :
  match run_calls [(ample, AddFuncProto 99)] empty_btf with
  | Some (_, b) =>
    match btf__raw_data true b with
    | Some (Some (file, size), _) =>
      match btf_new {| ne_btf := true; ne_raw := true; ne_realloc := fun _ => true |} file size None with Some (inr b') => btf__type_cnt b' = 2 | _ => False end
    | _ => False
    end
  | None => False
  end.
Proof. vm_compute. reflexivity. Qed.

(** A struct with 65535 members that gets another one counts none. *)
Lemma crowded_counts_none : btf_vlen (btf_type_inc_vlen (btf_type_info 4 65535 false)) = 0.
Proof. reflexivity. Qed.
