(* ===== verification/BtfCopy.v ===== *)
(** Copying types from one BTF object to another: [btf__add_type] and
    [btf__add_btf] of src/lib/libbpf/src/btf.c.

    The words of the types are copied as they are, and then visited: offsets of
    strings become those of the same strings in the other object, and
    [btf__add_btf] adds to the ids the number of types that are there already. *)
From S2P Require Import Prelude.
From S2P Require Import CLib.
From S2P Require Import Hashmap.
From S2P Require Import Strset.
From S2P Require Import Btf.
From S2P Require Import BtfParse.
From S2P Require Import BtfQuery.
From S2P Require Import BtfAdd.
From S2P Require Import BtfBuild.
From S2P Require Import BtfDecl.
From S2P Require Import BtfOps.
From S2P Require Import BtfCalls.
From S2P Require Import BtfRun.
From coqutil Require Import Datatypes.RecordSetters.
Import DoubleBraceUpdate.
#[local] Open Scope btf_scope.

(** ** Visiting the words of a type *)

(** The object that is changed, and the map from its source's string offsets
    to its own, if there is one.  The source is another object. *)
Record btf_pipe := { dst : btf; str_off_map : option hashmap }.

Definition pipe_types (c : btf_pipe) : list byte := b_types (own (dst c)).

Section Visit.
(** The callback, given the address of a word; it returns an error or 0. *)
Context (visit : Z -> btf_pipe -> option (Z * btf_pipe)).

(** [err = visit(p); if (err) return err;] and what follows. *)
Definition visit_then (p : Z) (k : btf_pipe -> option (Z * btf_pipe)) (c : btf_pipe) : option (Z * btf_pipe) :=
  '(err, c) ← visit p c; if c_true err then Some (err, c) else k c.

(** A word of each of [n] members of [step] bytes. *)
Fixpoint visit_each (p step : Z) (n : nat) : btf_pipe -> option (Z * btf_pipe) :=
  match n with O => fun c => Some (0, c) | S n => visit_then p (visit_each (p + step) step n) end.

Definition btf_type_visit_type_ids (t : Z) (c : btf_pipe) : option (Z * btf_pipe) :=
  info ← load32 (pipe_types c) (t + 4);
  let n := Z.to_nat (btf_vlen info) in
  let m := t + SIZEOF_TYPE in
  match btf_kind info with
  | KInt | KFloat | KEnum | KEnum64 => Some (0, c)
  | KFwd | KConst | KVolatile | KRestrict | KPtr | KTypedef | KFunc | KVar | KDeclTag | KTypeTag => visit (t + 8) c
  | KArray => visit_then m (visit (m + 4)) c
  | KStruct | KUnion => visit_each (m + 4) 12 n c
  | KFuncProto => visit_then (t + 8) (visit_each (m + 4) 8 n) c
  | KDatasec => visit_each m 12 n c
  | KUnkn | KOther _ => Some (- EINVAL, c)
  end.

Definition btf_type_visit_str_offs (t : Z) (c : btf_pipe) : option (Z * btf_pipe) :=
  visit_then t (fun c =>
    info ← load32 (pipe_types c) (t + 4);
    let n := Z.to_nat (btf_vlen info) in
    let m := t + SIZEOF_TYPE in
    match btf_kind info with
    | KStruct | KUnion => visit_each m 12 n c
    | KEnum => visit_each m 8 n c
    | KEnum64 => visit_each m 12 n c
    | KFuncProto => visit_each m 8 n c
    | _ => Some (0, c)
    end) c.
End Visit.

(** ** The callbacks *)

(** What the allocator answers: in the calls that make room for types, for
    the map, and, for the word at an address, when its string is added and
    when the map is. *)
Record copy_env := {
  ce_own : nat -> add_env;
  ce_map : bool;
  ce_str : Z -> nat -> add_env;
  ce_entry : Z -> bool;
  ce_calloc : Z -> Z -> bool
}.

Definition btf_dedup_identity_hash_fn (key : Z) : option Z := Some key.
Definition btf_dedup_equal_fn (k1 k2 : Z) : option bool := Some (k1 =? k2).

(** Assigning the word at an address. *)
Definition set_word (p v : Z) (c : btf_pipe) : option btf_pipe :=
  m ← store (pipe_types c) p (le_split 4 v);
  Some (c {{ dst := (dst c) {{ own := (own (dst c)) {{ b_types := m }} }} }}).

(** [hashmap__find] in the map, if there is one. *)
Definition mapped (c : btf_pipe) (off : Z) : option (option Z) :=
  match str_off_map c with
  | Some m => hashmap_find btf_dedup_identity_hash_fn btf_dedup_equal_fn m off
  | None => Some None
  end.

(** [hashmap__append] to the map, if there is one. *)
Definition remember (calloc : Z -> bool) (malloc : bool) (off new_off : Z) (c : btf_pipe) : option (Z * btf_pipe) :=
  match str_off_map c with
  | Some m =>
    '(err, _, _, m) ← hashmap_insert btf_dedup_identity_hash_fn btf_dedup_equal_fn calloc malloc m off new_off HASHMAP_APPEND;
    Some (err, c {{ str_off_map := Some m }})
  | None => Some (0, c)
  end.

(** A string offset the source does not have gives NULL, which
    [btf__add_str] must not be called with. *)
Definition btf_rewrite_str (e : copy_env) (src : btf) (p : Z) (c : btf_pipe) : option (Z * btf_pipe) :=
  str_off ← load32 (pipe_types c) p;
  if str_off =? 0 then Some (0, c) else
  found ← mapped c str_off;
  match found with
  | Some mapped_off => c ← set_word p mapped_off c; Some (0, c)
  | None =>
    s ← btf__str_by_offset src str_off;
    s ← s;
    '(off, b) ← btf__add_str (ce_str e p) (dst c) s;
    let c := c {{ dst := b }} in
    if off <? 0 then Some (off, c) else
    '(err, c) ← remember (ce_calloc e p) (ce_entry e p) str_off off c;
    if c_true err then Some (err, c) else
    c ← set_word p off c;
    Some (0, c)
  end.

Definition btf_rewrite_type_ids (p : Z) (c : btf_pipe) : option (Z * btf_pipe) :=
  type_id ← load32 (pipe_types c) p;
  if type_id =? 0 then Some (0, c) else
  let o := own (dst c) in
  c ← set_word p (u32 (type_id + (b_start_id o + b_nr_types o - 1))) c;
  Some (0, c).

(** ** Copying one type *)

(** The type is at [src_type] in the memory [m]. *)
Definition btf__add_type (e : copy_env) (src : btf) (m : list byte) (src_type : Z) : act Z :=
  sz <- ask (fun _ => btf_type_size m src_type) ;;
  require (negb (sz <? 0)) sz ;;
  t <- new_mem (ce_own e) sz ;;
  bytes <- ask (fun _ => bytes_at m src_type (Z.to_nat sz)) ;;
  change_own (fun o => m ← store (b_types o) t bytes; Some (o {{ b_types := m }})) ;;
  err <- (fun b => '(err, c) ← btf_type_visit_str_offs (btf_rewrite_str e src) t {| dst := b; str_off_map := None |}; Some (inr err, dst c)) ;;
  require (negb (c_true err)) err ;;
  btf_commit_type (ce_own e) sz.

(** ** Copying an object *)

(** An array that has no capacity is NULL. *)
Definition offs_mem (e : nat -> add_env) (cnt : Z) : act Z := fun b =>
  match btf_add_type_offs_mem (ae_realloc (e 0%nat)) (own b) cnt with
  | None => leave (- ENOMEM) b
  | Some (p, offs, cap) =>
    if cap =? 0 then leave (- ENOMEM) b else ret p (b {{ own := (own b) {{ b_offs := offs; b_offs_cap := cap }} }})
  end.

(** The loop over the types that have been copied to [t], with the positions of
    the next type and of its offset. *)
Fixpoint copy_types (e : copy_env) (src : btf) (n : nat) (t off : Z) (c : btf_pipe) : option (Z * btf_pipe) :=
  match n with
  | O => Some (0, c)
  | S n =>
    sz ← btf_type_size (pipe_types c) t;
    if sz <? 0 then Some (sz, c) else
    offs ← store (b_offs (own (dst c))) off (le_split 4 (u32 t));
    let c := c {{ dst := (dst c) {{ own := (own (dst c)) {{ b_offs := offs }} }} }} in
    '(err, c) ← btf_type_visit_str_offs (btf_rewrite_str e src) t c;
    if c_true err then Some (err, c) else
    '(err, c) ← btf_type_visit_type_ids btf_rewrite_type_ids t c;
    if c_true err then Some (err, c) else
    copy_types e src n (t + sz) (off + 4) c
  end.

(** [memset(p, 0, n)]: nothing is written for [n] = 0. *)
Definition zero_out (m : list byte) (p n : Z) : option (list byte) :=
  if n =? 0 then Some m else store m p (replicate (Z.to_nat n) NUL).

(** What is done on an error.  [strs_data] is NULL in an object that can be
    changed: its strings are in the set. *)
Definition undo_copy (data_sz old_strs_len : Z) (o : btf_own) : option btf_own :=
  let h := b_hdr o in
  types ← zero_out (b_types o) (type_len h) data_sz;
  strs ← zero_out (b_strs o) old_strs_len (str_len h - old_strs_len);
  Some (o {{ b_types := types; b_strs := strs; b_hdr := set_str_len h old_strs_len }}).

Definition commit_copy (data_sz cnt : Z) (o : btf_own) : option btf_own :=
  Some (o {{ b_hdr := grow_types (b_hdr o) data_sz; b_nr_types := u32 (b_nr_types o + cnt) }}).

(** The sizes are [int]s, and become [size_t]s. *)
Definition btf__add_btf (e : copy_env) (src : btf) : act Z :=
  require (negb (has_base (bases src))) (- ENOTSUP) ;;
  make_modifiable (ce_own e) ;;
  old_strs_len <- ask (fun b => Some (str_len (b_hdr (own b)))) ;;
  let data_sz := s32 (type_len (b_hdr (own src))) in
  let cnt := s32 (btf__type_cnt src - 1) in
  t <- type_mem (ce_own e) (u64 data_sz) ;;
  off <- offs_mem (ce_own e) (u64 cnt) ;;
  map <- match hashmap__new (ce_map e) with Some map => ret map | None => leave (- ENOMEM) end ;;
  bytes <- ask (fun _ => bytes_at (b_types (own src)) 0 (Z.to_nat (u64 data_sz))) ;;
  change_own (fun o => m ← store (b_types o) t bytes; Some (o {{ b_types := m }})) ;;
  err <- (fun b => '(err, c) ← copy_types e src (Z.to_nat cnt) t off {| dst := b; str_off_map := Some map |}; Some (inr err, dst c)) ;;
  if c_true err then change_own (undo_copy data_sz old_strs_len) ;; leave err else
  change_own (commit_copy data_sz cnt) ;;
  id <- ask (fun b => Some (s32 (b_start_id (own b) + b_nr_types (own b) - cnt))) ;;
  ret id.
