(* ===== verification/BtfCopied.v ===== *)
(** Visiting the words of copied types: each visited word becomes the offset of
    the same string, or the id of a copy, and all others stay as they are. *)
From S2P Require Import Prelude.
From S2P Require Import CLib.
From S2P Require Import Hashmap.
From S2P Require Import Strset.
From S2P Require Import Btf.
From S2P Require Import BtfParse.
From S2P Require Import BtfQuery.
From S2P Require Import BtfAdd.
From S2P Require Import BtfBuild.
From S2P Require Import BtfDecl.
From S2P Require Import BtfOps.
From S2P Require Import BtfCalls.
From S2P Require Import BtfRun.
From S2P Require Import BtfCopy.
From coqutil Require Import Datatypes.RecordSetters.
Import DoubleBraceUpdate.
#[local] Open Scope btf_scope.

(** ** Memory *)

Definition copy_short (e : copy_env) : Prop :=
  short (ce_own e) \/ ce_map e = false \/ exists p, short (ce_str e p) \/ ce_entry e p = false \/ exists n, 0 <= n <= 2 ^ 34 /\ ce_calloc e p n = false.

Record copy_env_ok (e : copy_env) : Prop := {
  ceo_own : env_ok (ce_own e);
  ceo_str : forall p, env_ok (ce_str e p);
  ceo_calloc : forall p n, 2 ^ 61 <= n -> ce_calloc e p n = false
}.

(** ** What adding a string leaves alone *)

Definition aside (o : btf_own) : list byte * Z * Z := (b_offs o, b_offs_cap o, b_nr_types o).

(** The pointer to the strings of an object that can be changed is NULL. *)
Definition null_strs (o : btf_own) : Prop := b_modifiable o = true -> b_strs o = [].

Lemma ensure_aside e based o err o' : btf_ensure_modifiable e based o = Some (err, o') -> aside o' = aside o /\ (null_strs o -> null_strs o').
Proof.
  unfold btf_ensure_modifiable. destruct (b_modifiable o) eqn:E; [intros [= <- <-]; by destruct o |].
  destruct (negb _); [by intros [= <- <-] |]. destruct (bytes_at _ _ _); [| done]. cbn [mbind option_bind].
  destruct (strset__new _ _ _ _ _ _ _) as [[z | set] |]; cbn [mbind option_bind]; [by intros [= <- <-] | | done].
  destruct (_ <? _); [done |]. intros [= <- <-]. by destruct o.
Qed.

Lemma own_add_aside e based o s off o' : own_add_str e based o s = Some (off, o') -> aside o' = aside o /\ (null_strs o -> null_strs o').
Proof.
  unfold own_add_str. destruct (btf_ensure_modifiable e based o) as [[err o1] |] eqn:E; [| done]. cbn [mbind option_bind].
  destruct (ensure_aside _ _ _ _ _ E) as [Ha Hn]. destruct (c_true err); [by intros [= <- <-] |].
  destruct (b_set o1) as [set |]; [| done]. cbn [mbind option_bind]. destruct (strset__add_str _ _ _ _ _) as [[off1 set1] |]; [| done]. cbn [mbind option_bind].
  destruct (off1 <? 0); [intros [= <- <-]; by destruct o1 |]. destruct (int_add _ _) as [z |]; [| done]. cbn [mbind option_bind]. intros [= <- <-]. by destruct o1.
Qed.

Lemma add_str_aside e b s off b' : btf__add_str e b s = Some (off, b') -> aside (own b') = aside (own b) /\ (null_strs (own b) -> null_strs (own b')).
Proof.
  unfold btf__add_str. destruct (match bases b with [] => _ | _ => _ end) as [[off1 os] |]; [| done]. cbn [mbind option_bind].
  destruct (negb _); [by intros [= <- <-] |]. destruct (own_add_str _ _ _ _) as [[off2 o] |] eqn:E; [| done]. cbn [mbind option_bind].
  intros [= <- <-]. by eapply own_add_aside.
Qed.

(** ** The strings of the source *)

Lemma string_at_ok m off s : string_at m off = Some s -> zlen m <= BTF_MAX_STR_OFFSET -> string_ok s /\ zlen s <= zlen m.
Proof.
  intros Hs Hm. unfold string_at in Hs. destruct (_ && _); [| done]. injection Hs as <-. unfold BTF_MAX_STR_OFFSET in Hm.
  assert (zlen (cstr (drop (Z.to_nat off) m)) <= zlen m) as Hl.
  { transitivity (zlen (drop (Z.to_nat off) m)); [| unfold zlen; rewrite length_drop; lia]. generalize (drop (Z.to_nat off) m). intros l.
    induction l as [| x l IH]; cbn [cstr]; [done |]. case_decide; rewrite ?zlen_cons; [pose proof (zlen_nonneg l); change (zlen (@nil byte)) with 0; lia | lia]. }
  split; [| done]. split; [| lia]. generalize (drop (Z.to_nat off) m). intros l. induction l as [| x l IH]; cbn [cstr]; [set_solver |]. case_decide; set_solver.
Qed.

Lemma src_string b ts strs off s : obj b [] [] ts strs -> zlen ts <= BTF_MAX_NR_TYPES -> string_at strs off = Some s ->
  exists t, btf__str_by_offset b off = Some (Some (s ++ NUL :: t)).
Proof.
  intros Hobj Hn Hs. pose proof (string_at_range _ _ _ Hs) as Hr. pose proof (os_max _ _ _ (ob_own _ _ _ _ _ Hobj)) as Hm. unfold BTF_MAX_STR_OFFSET, BTF_MAX_NR_TYPES in *.
  pose proof (obj_btf_ok _ _ _ _ _ Hobj ltac:(cbn [app]; lia)) as Hok. destruct (name_by_offset_ok b _ off Hok) as (m & E & En & HN); [lia |].
  rewrite (obj_name _ _ _ _ _ _ _ Hobj Hs) in En. destruct m as [m |]; [| done]. injection En as ->. destruct (cstr_split m (HN m eq_refl)) as [t Et].
  exists t. unfold btf__name_by_offset in E. by rewrite E, <- Et.
Qed.

(** ** The map of string offsets *)

Section Map.
Context (strss : list byte) (Hmax : zlen strss <= BTF_MAX_STR_OFFSET).

(** Every offset is mapped to one of the same string; [strs] are the strings of the object. *)
Definition same_string (strs : list byte) (off off' : Z) : Prop := exists s, string_at strss off = Some s /\ string_at strs off' = Some s.

Definition map_ok (strs : list byte) (m : option hashmap) : Prop :=
  match m with
  | None => True
  | Some m => hm_ok (fun _ => True) id id m /\ NoDup (ekey <$> entries m) /\ forall x, x ∈ entries m -> same_string strs (ekey x) (evalue x)
  end.

Lemma same_string_app strs strs' off off' : terminated strs -> same_string strs off off' -> same_string (strs ++ strs') off off'.
Proof. intros Ht (s & H1 & H2). exists s. split; [done | by apply string_at_app]. Qed.

Lemma map_ok_app strs strs' m : terminated strs -> map_ok strs m -> map_ok (strs ++ strs') m.
Proof. intros Ht. destruct m as [m |]; [| done]. intros (H1 & H2 & H3). split_and!; try done. intros x Hx. by apply same_string_app, H3. Qed.

Lemma hash_id k : True -> btf_dedup_identity_hash_fn k = Some (id (id k)).
Proof. done. Qed.

Lemma equal_id k1 k2 : True -> True -> btf_dedup_equal_fn k1 k2 = Some (bool_decide (id k1 = id k2)).
Proof. intros _ _. apply int_equal_spec. Qed.

Lemma mapped_ok strs c off : map_ok strs (str_off_map c) -> exists r, mapped c off = Some r /\
  match r with
  | Some off' => same_string strs off off'
  | None => forall m x, str_off_map c = Some m -> x ∈ entries m -> ekey x <> off
  end.
Proof.
  unfold mapped. destruct (str_off_map c) as [m |]; [| intros _; exists None; split; [done | discriminate]]. intros (Hok & _ & Hm).
  destruct (find_entry_spec _ _ _ _ _ hash_id equal_id int_calloc int_calloc_spec m off Hok I) as (r & E & Hr). unfold hashmap_find. cbn [mbind option_bind btf_dedup_identity_hash_fn].
  unfold id in E. rewrite E. cbn [mbind option_bind]. eexists. split; [done |]. destruct r as [[i x] |]; cbn [option_map].
  - destruct Hr as (Ek & bs & b & Eb & Hb & Hx). unfold id in Ek. rewrite <- Ek. apply Hm. unfold entries. rewrite Eb. apply list_elem_of_In, in_concat. exists b.
    split; apply list_elem_of_In; by eapply list_elem_of_lookup_2.
  - intros m' x [= <-]. apply Hr.
Qed.

Lemma map_size strs m : map_ok strs (Some m) -> zlen (entries m) <= zlen strss.
Proof.
  intros (_ & Hn & Hm). assert (ekey <$> entries m ⊆+ seqZ 0 (zlen strss)) as Hs.
  { apply NoDup_submseteq; [done |]. intros k (x & -> & Hx)%list_elem_of_fmap. destruct (Hm x Hx) as (s & Hs & _).
    apply string_at_range in Hs. apply elem_of_seqZ. lia. }
  apply submseteq_length in Hs. rewrite length_fmap, length_seqZ in Hs. unfold zlen in *. lia.
Qed.

Lemma remember_ok strs c calloc malloc off off' : (forall n, 2 ^ 61 <= n -> calloc n = false) -> map_ok strs (str_off_map c) ->
  (forall m x, str_off_map c = Some m -> x ∈ entries m -> ekey x <> off) -> same_string strs off off' ->
  exists err c', remember calloc malloc off off' c = Some (err, c') /\ dst c' = dst c /\ map_ok strs (str_off_map c') /\
    (err = 0 \/ (err = - ENOMEM /\ (malloc = false \/ exists n, 0 <= n <= 2 ^ 34 /\ calloc n = false))).
Proof.
  intros Hc. unfold remember. destruct (str_off_map c) as [m |] eqn:Em; [| intros _ _ _; exists 0, c; rewrite Em; split_and!; [done .. | by left]]. intros Hok Hnew Hs.
  pose proof (map_size _ _ Hok) as Hsz. destruct Hok as (Hok & Hn & Hm). unfold hashmap_insert. cbn [mbind option_bind btf_dedup_identity_hash_fn]. rewrite decide_True by done. cbn [mbind option_bind].
  destruct (insert_new_spec _ _ _ _ _ hash_id equal_id calloc Hc malloc m off off' Hok I) as (err & m' & E & Hok' & Hr). unfold id in E. rewrite E. cbn [mbind option_bind].
  eexists _, _. split; [done |]. split; [done |]. split.
  - cbn. unfold constant. split; [done |]. destruct Hr as [(_ & HP & _) | (_ & HP)].
    + split; [by rewrite HP | intros x Hx; apply Hm; by rewrite <- HP].
    + rewrite HP. split; [| intros x Hx; rewrite HP in Hx; apply elem_of_cons in Hx as [-> | Hx]; [done | by apply Hm]]. cbn. constructor; [| done].
      intros (x & Ex & Hx)%list_elem_of_fmap. by apply (Hnew m x eq_refl Hx).
  - destruct Hr as [(-> & _ & Hno) | (-> & _)]; [right | by left]. split; [done |]. destruct Hno as [-> | (k & Hk & Hck)]; [by left | right].
    exists k. split; [| done]. destruct (ok_sz _ _ _ m Hok) as (Esz & _). unfold BTF_MAX_STR_OFFSET in Hmax. lia.
Qed.

End Map.

(** ** Words at regular distances *)

(** Every [step]th word from [i] on. *)
Fixpoint every (i step k : nat) : list nat := match k with O => [] | S k => i :: every (i + step) step k end.

Lemma elem_of_every k : forall i step j, j ∈ every i step k <-> exists m, (m < k)%nat /\ j = (i + step * m)%nat.
Proof.
  induction k as [| k IH]; intros i step j; cbn [every]; [split; [by intros ?%elem_of_nil | intros (m & ? & _); lia] |]. rewrite elem_of_cons, IH. split.
  - intros [-> | (m & Hm & ->)]; [exists 0%nat | exists (S m)]; lia.
  - intros ([| m] & Hm & ->); [left; lia | right; exists m; lia].
Qed.

Lemma every_above j i step m : (i < j)%nat -> i ∉ every j step m.
Proof. rewrite elem_of_every. intros Hi (x & _ & E). lia. Qed.

(** ** Rewriting one word *)

Section Copy.
Context (e : copy_env) (He : copy_env_ok e).
(** The source, with its types and strings. *)
Context (src : btf) (tss : list rtype) (strss : list byte) (Hsrc : obj src [] [] tss strss) (Hcnt : zlen tss <= BTF_MAX_NR_TYPES)
  (Hempty : string_at strss 0 = Some []).
(** The base of the object, the object before the copy, and its types and strings. *)
Context (ts0 : list rtype) (strs0 : list byte) (b0 : btf) (ts : list rtype) (sb : list byte).

Lemma src_max : zlen strss <= BTF_MAX_STR_OFFSET.
Proof. apply (os_max _ _ _ (ob_own _ _ _ _ _ Hsrc)). Qed.

(** The words [ws] are behind the types, and the strings are [strs] now. *)
Record copying (a : list byte * Z * Z) (strs : list byte) (ws : list Z) (n : Z) (c : btf_pipe) : Prop := {
  cp_later : later ts0 strs0 b0 ts sb (dst c) ts strs;
  cp_fresh : fresh (own (dst c));
  cp_room : room (own (dst c)) ts ws n;
  cp_words : Forall (fun w => is_u32 w) ws;
  cp_aside : aside (own (dst c)) = a;
  cp_null : null_strs (own b0) -> null_strs (own (dst c));
  cp_empty : string_at (strs0 ++ strs) 0 = Some [];
  cp_map : map_ok strss (strs0 ++ strs) (str_off_map c)
}.

Definition word_addr (i : nat) : Z := zlen (types_bytes false ts) + 4 * Z.of_nat i.

Lemma copying_terminated a strs ws n c : copying a strs ws n c -> terminated (strs0 ++ strs).
Proof. intros Hc. destruct (obj_terminated _ _ _ _ _ (proj1 (cp_later _ _ _ _ _ Hc))). by apply terminated_app. Qed.

Lemma copying_load a strs ws n c i w : copying a strs ws n c -> ws !! i = Some w -> load32 (pipe_types c) (word_addr i) = Some w.
Proof.
  intros Hc Hi. destruct (cp_room _ _ _ _ _ Hc) as [_ (rest & Et & _)]. unfold pipe_types. rewrite Et. by apply (load_words _ ws rest i w); [apply (cp_words _ _ _ _ _ Hc) | |].
Qed.

Lemma set_word_ok a strs ws n c i w v : copying a strs ws n c -> ws !! i = Some w -> is_u32 v ->
  exists c', set_word (word_addr i) v c = Some c' /\ copying a strs (<[i := v]> ws) n c'.
Proof.
  intros [(Hobj & Hk & Hp) Hf [Em (rest & Et & Hn)] Hw Ha Hnull Hz0 Hm] Hi Hv. unfold set_word, pipe_types.
  assert (store (b_types (own (dst c))) (word_addr i) (le_split 4 v) = Some (types_bytes false ts ++ enc_words (<[i := v]> ws) ++ rest)) as E.
  { pose proof (lookup_lt_Some _ _ _ Hi) as Hlt. rewrite Et, <- (take_drop_middle ws i w Hi) at 1. rewrite (insert_take_drop ws i v Hlt).
    rewrite !enc_words_app, !enc_words_cons, <- !app_assoc, !(app_assoc (types_bytes false ts)). apply store_app; [| by rewrite !length_le_split].
    unfold word_addr. rewrite zlen_app, zlen_enc_words. unfold zlen. rewrite length_take. lia. }
  rewrite E. cbn [mbind option_bind]. eexists. split; [reflexivity |]. pose proof (ob_own _ _ _ _ _ Hobj) as Ho. destruct (own_types_cap _ _ _ Ho Em) as [C1 C2].
  set (data := types_bytes false ts ++ enc_words (<[i := v]> ws) ++ rest) in *.
  assert (zlen data = zlen (b_types (own (dst c)))) as Hd by (unfold data; rewrite Et, !zlen_app, !zlen_enc_words; unfold zlen; by rewrite length_insert).
  assert ((own (dst c)) {{ b_types := data }} = (own (dst c)) {{ b_types := data; b_types_cap := zlen data }}) as Eo by (rewrite Hd, <- C1; by destruct (own (dst c))).
  assert (own_state ((own (dst c)) {{ b_types := data }}) ts strs) as Ho' by (rewrite Eo; apply own_state_types; [done | done | lia | by eexists]).
  destruct c as [[o os] map]. cbn in *. unfold constant.
  split; cbn; [| by destruct o | | by apply Forall_insert | by destruct o | by destruct o | done | done].
  - split_and!; [eapply (obj_own _ _ {| own := o; bases := os |}); [done | by destruct o | done] | | done].
    eapply keeps_trans; [exact Hk |]. split; [by destruct o | right; by destruct o].
  - split; [by destruct o |]. exists rest. by destruct o.
Qed.

(** A step at word [i]: it is done, and the words and the strings are these; or memory is short. *)
Definition rewrote (a : list byte * Z * Z) (strs : list byte) (ws : list Z) (n cost : Z) (i : nat) (P : list byte -> Z -> Prop) (r : option (Z * btf_pipe)) : Prop :=
  exists z c' strs', r = Some (z, c') /\ strs `prefix_of` strs' /\ zlen strs' <= zlen strs + cost /\
    ((z = 0 /\ exists w', copying a strs' (<[i := w']> ws) n c' /\ P strs' w') \/ (z = - ENOMEM /\ copy_short e /\ copying a strs' ws n c')).

Lemma copying_same a strs ws n c i w : copying a strs ws n c -> ws !! i = Some w -> copying a strs (<[i := w]> ws) n c.
Proof. intros Hc Hi. by rewrite list_insert_id. Qed.

Lemma add_str_copying a strs ws n c s t p : copying a strs ws n c -> string_ok s -> zlen strs0 + zlen strs + zlen s + 1 <= BTF_MAX_STR_OFFSET ->
  exists off b strs', btf__add_str (ce_str e p) (dst c) (s ++ NUL :: t) = Some (off, b) /\ strs `prefix_of` strs' /\ zlen strs' <= zlen strs + zlen s + 1 /\
    copying a strs' ws n (c {{ dst := b }}) /\ ((off = - ENOMEM /\ copy_short e) \/ string_at (strs0 ++ strs') off = Some s).
Proof.
  intros Hc Hs Hlim. pose proof (copying_terminated _ _ _ _ _ Hc) as Ht. pose proof Hc as [HL Hf [Em (rest & Et & Hn)] Hw Ha Hnull Hz0 Hm].
  destruct (add_str_ok (ce_str e p) (ceo_str _ He p) (dst c) ts0 strs0 ts strs s t (proj1 HL) Hs Hlim) as (off & b & strs' & E & O' & K' & Hp & Hz & Hty & Hr).
  exists off, b, strs'. split; [done |]. split; [done |]. split; [done |]. destruct (add_str_aside _ _ _ _ _ E) as [Ha' Hn']. destruct (Hty Em) as [Em' Et'].
  assert (later ts0 strs0 (dst c) ts strs b ts strs') as HL' by (by split_and!). split.
  - destruct c as [d map]. cbn in *. unfold constant. split; cbn; try done; [by eapply later_trans | by eapply later_fresh | | by rewrite Ha' | by intros ?; apply Hn', Hnull | |].
    + split; [done |]. exists rest. by rewrite Et'.
    + destruct Hp as [strs1 ->]. rewrite app_assoc. by apply string_at_app.
    + destruct Hp as [strs1 ->]. rewrite app_assoc. by apply map_ok_app.
  - destruct Hr as [[-> Hsh] | Hr]; [left | by right]. split; [done |]. right. right. exists p. by left.
Qed.

Lemma rewrite_str_ok a strs ws n c i w s cost : copying a strs ws n c -> ws !! i = Some w -> string_at strss w = Some s ->
  zlen s + 1 <= cost -> zlen strs0 + zlen strs + cost <= BTF_MAX_STR_OFFSET ->
  rewrote a strs ws n cost i (fun strs w' => same_string strss (strs0 ++ strs) w w') (btf_rewrite_str e src (word_addr i) c).
Proof.
  intros Hc Hi Hs Hcost Hlim. unfold btf_rewrite_str. rewrite (copying_load _ _ _ _ _ _ _ Hc Hi). cbn [mbind option_bind]. pose proof (zlen_nonneg s) as Z0.
  destruct (Z.eqb_spec w 0) as [-> | Hne].
  { eexists _, c, strs. split; [done |]. split; [done |]. split; [lia |]. left. split; [done |]. exists 0. split; [by apply copying_same |]. exists [].
    split; [done | apply (cp_empty _ _ _ _ _ Hc)]. }
  destruct (mapped_ok strss (strs0 ++ strs) c w (cp_map _ _ _ _ _ Hc)) as (r & -> & Hr). cbn [mbind option_bind]. destruct r as [w' |].
  { assert (is_u32 w') as Hu.
    { destruct Hr as (s' & _ & Hr). apply string_at_range in Hr. rewrite zlen_app in Hr. unfold BTF_MAX_STR_OFFSET in Hlim. lia. }
    destruct (set_word_ok _ _ _ _ _ i w w' Hc Hi Hu) as (c' & -> & Hc'). cbn [mbind option_bind]. eexists _, c', strs. split; [done |].
    split; [done |]. split; [lia |]. left. split; [done |]. by exists w'. }
  destruct (src_string src tss strss w s Hsrc Hcnt Hs) as (t & ->). cbn [mbind option_bind]. destruct (string_at_ok _ _ _ Hs src_max) as [Hsok Hsl].
  destruct (add_str_copying _ _ _ _ _ s t (word_addr i) Hc Hsok) as (off & b & strs' & -> & Hp & Hz & Hc1 & Hoff); [lia |]. cbn [mbind option_bind].
  destruct Hoff as [[-> Hsh] | Hat]; [eexists _, _, strs'; split; [done |]; split; [done |]; split; [lia |]; right; by split_and! |].
  pose proof (string_at_range _ _ _ Hat) as Hoff. rewrite (proj2 (Z.ltb_ge _ _)) by lia.
  destruct (remember_ok strss src_max (strs0 ++ strs') (c {{ dst := b }}) (ce_calloc e (word_addr i)) (ce_entry e (word_addr i)) w off (ceo_calloc _ He _)
    (cp_map _ _ _ _ _ Hc1)) as (err & c2 & -> & Ed & Hm2 & Herr); [by destruct c | by exists s |]. cbn [mbind option_bind].
  assert (copying a strs' ws n c2) as Hc2 by (destruct Hc1; split; rewrite ?Ed; done).
  destruct Herr as [-> | [-> Hsh]].
  2: { eexists _, _, strs'. split; [done |]. split; [done |]. split; [lia |]. right. split; [done |]. split; [| done]. right. right. exists (word_addr i). tauto. }
  change (c_true 0) with false. cbv iota. assert (is_u32 off) as Hu by (rewrite zlen_app in Hoff; unfold BTF_MAX_STR_OFFSET in Hlim; lia).
  destruct (set_word_ok _ _ _ _ _ i w off Hc2 Hi Hu) as (c3 & -> & Hc3). cbn [mbind option_bind]. eexists _, c3, strs'. split; [done |]. split; [done |]. split; [lia |].
  left. split; [done |]. exists off. split; [done |]. by exists s.
Qed.

(** Ids of the copies. *)
Definition shift_id (k id : Z) : Z := if id =? 0 then 0 else u32 (id + k).

Lemma shift_id_range k id : is_u32 (shift_id k id).
Proof. unfold shift_id. destruct (id =? 0); [lia | apply u32_range]. Qed.

Lemma rewrite_ids_ok a strs ws n c i w : copying a strs ws n c -> ws !! i = Some w ->
  rewrote a strs ws n 0 i (fun _ w' => w' = shift_id (zlen ts0 + zlen ts) w) (btf_rewrite_type_ids (word_addr i) c).
Proof.
  intros Hc Hi. unfold btf_rewrite_type_ids. rewrite (copying_load _ _ _ _ _ _ _ Hc Hi). cbn [mbind option_bind].
  destruct (Z.eqb_spec w 0) as [-> | Hne].
  { eexists _, c, strs. split; [done |]. split; [done |]. split; [lia |]. left. split; [done |]. exists 0. split; [by apply copying_same | done]. }
  destruct (cp_later _ _ _ _ _ Hc) as (Hobj & _). pose proof (own_ok_nr _ _ (os_own _ _ _ (ob_own _ _ _ _ _ Hobj))) as Hnr. rewrite Hnr, (ob_start _ _ _ _ _ Hobj).
  replace (1 + zlen ts0 + zlen ts - 1) with (zlen ts0 + zlen ts) by lia.
  destruct (set_word_ok _ _ _ _ _ i w (u32 (w + (zlen ts0 + zlen ts))) Hc Hi (u32_range _)) as (c' & -> & Hc'). cbn [mbind option_bind].
  eexists _, c', strs. split; [done |]. split; [done |]. split; [lia |]. left. split; [done |]. eexists. split; [done |].
  unfold shift_id. by rewrite (proj2 (Z.eqb_neq _ _)).
Qed.

(** ** Visiting words *)

Section Walk.
Context (visit : Z -> btf_pipe -> option (Z * btf_pipe)).
(** What is known of a word before, what it becomes, and how many bytes of strings it needs. *)
Context (pre : nat -> Z -> Prop) (rel : list byte -> Z -> Z -> Prop) (cost : nat -> Z).
Context (a : list byte * Z * Z) (n : Z).
Context (Hvisit : forall strs ws c i w, copying a strs ws n c -> ws !! i = Some w -> pre i w -> zlen strs0 + zlen strs + cost i <= BTF_MAX_STR_OFFSET ->
  rewrote a strs ws n (cost i) i (fun strs w' => rel strs w w') (visit (word_addr i) c)).
Context (Hrel : forall strs strs' w w', terminated (strs0 ++ strs) -> rel strs w w' -> rel (strs ++ strs') w w').
Context (Hcost : forall i, 0 <= cost i).
(** The information of the type, which is not visited. *)
Context (i1 : nat) (info : Z).

Definition total (js : list nat) : Z := foldr (fun i x => cost i + x) 0 js.

Lemma total_nonneg js : 0 <= total js.
Proof. induction js as [| i js IH]; cbn; [done |]. pose proof (Hcost i). fold (total js). lia. Qed.

(** The words at [js] have been rewritten, and no others. *)
Definition changed (strs : list byte) (js : list nat) (ws ws' : list Z) : Prop := length ws' = length ws /\
  forall i w, ws !! i = Some w -> exists w', ws' !! i = Some w' /\ if decide (i ∈ js) then rel strs w w' else w' = w.

Definition walks (js : list nat) (v : btf_pipe -> option (Z * btf_pipe)) : Prop := forall strs ws c, copying a strs ws n c -> ws !! i1 = Some info -> i1 ∉ js ->
  (forall i, i ∈ js -> exists w, ws !! i = Some w /\ pre i w) -> zlen strs0 + zlen strs + total js <= BTF_MAX_STR_OFFSET ->
  exists z c' strs' ws', v c = Some (z, c') /\ copying a strs' ws' n c' /\ strs `prefix_of` strs' /\ zlen strs' <= zlen strs + total js /\
    ((z = 0 /\ changed strs' js ws ws') \/ (z = - ENOMEM /\ copy_short e)).

Lemma walks_nil : walks [] (fun c => Some (0, c)).
Proof.
  intros strs ws c Hc Hi Hn Hw Hl. eexists _, _, strs, ws. split; [done |]. split; [done |]. split; [done |]. split; [cbn; lia |]. left. split; [done |].
  split; [done |]. intros i w Hiw. exists w. split; [done |]. by rewrite decide_False by set_solver.
Qed.

Lemma walks_then i js k : i ∉ js -> walks js k -> walks (i :: js) (visit_then visit (word_addr i) k).
Proof.
  intros Hni Hk strs ws c Hc Hi1 Hnin Hw Hl. cbn [total foldr] in *. fold (total js) in *. pose proof (total_nonneg js) as Ht. apply not_elem_of_cons in Hnin as [Hne Hnin].
  destruct (Hw i (list_elem_of_here _ _)) as (w & Hiw & Hpre). unfold visit_then.
  destruct (Hvisit strs ws c i w Hc Hiw Hpre ltac:(lia)) as (z & c1 & strs1 & -> & Hp & Hz & Hr). cbn [mbind option_bind].
  destruct Hr as [(-> & w' & Hc1 & Hrw) | (-> & Hsh & Hc1)].
  2: { eexists _, c1, strs1, ws. split; [done |]. split; [done |]. split; [done |]. split; [lia |]. by right. }
  change (c_true 0) with false. cbv iota.
  destruct (Hk strs1 (<[i := w']> ws) c1 Hc1) as (z & c2 & strs2 & ws2 & E & Hc2 & Hp2 & Hz2 & Hr2); [by rewrite list_lookup_insert_ne | done | | lia |].
  { intros j Hj. destruct (Hw j (list_elem_of_further _ _ _ Hj)) as (wj & Hjw & Hpj). exists wj. split; [| done]. rewrite list_lookup_insert_ne; [done | congruence]. }
  exists z, c2, strs2, ws2. split; [done |]. split; [done |]. split; [by etransitivity |]. split; [lia |]. destruct Hr2 as [(-> & Hlen & Hch) | Hr2]; [left | by right].
  split; [done |]. split; [by rewrite Hlen, length_insert |]. intros j wj Hj. destruct (decide (j = i)) as [-> | Hji].
  - destruct (Hch i w') as (w2 & Hw2 & Hd); [by apply list_lookup_insert_eq, lookup_lt_is_Some; eexists |]. rewrite decide_False in Hd by done. subst w2.
    exists w'. split; [done |]. rewrite decide_True by set_solver. replace wj with w by congruence. destruct Hp2 as [t ->]. apply Hrel; [by eapply copying_terminated | done].
  - destruct (Hch j wj) as (w2 & Hw2 & Hd); [by rewrite list_lookup_insert_ne |]. exists w2. split; [done |].
    destruct (decide (j ∈ js)); [rewrite decide_True by set_solver | rewrite decide_False by set_solver]; done.
Qed.

Lemma walks_one i : walks [i] (visit (word_addr i)).
Proof.
  intros strs ws c. pose proof (walks_then i [] _ ltac:(set_solver) walks_nil strs ws c) as H. unfold visit_then in H.
  intros Hc Hi Hn Hw Hl. destruct (H Hc Hi Hn Hw Hl) as (z & c' & strs' & ws' & E & Hr). exists z, c', strs', ws'. split; [| done].
  destruct (visit (word_addr i) c) as [[err c1] |]; [| done]. cbn [mbind option_bind] in E. unfold c_true in E. by destruct (Z.eqb_spec err 0) as [-> |].
Qed.

Lemma walks_each step k : (0 < step)%nat -> forall i, walks (every i step k) (visit_each visit (word_addr i) (4 * Z.of_nat step) k).
Proof.
  intros Hs. induction k as [| k IH]; intros i; [apply walks_nil |]. cbn [visit_each every].
  replace (word_addr i + 4 * Z.of_nat step) with (word_addr (i + step)) by (unfold word_addr; lia). apply walks_then; [| apply IH].
  rewrite elem_of_every. intros (m & _ & Hm). lia.
Qed.

(** The information is read. *)
Lemma walks_info js t (F : Z -> btf_pipe -> option (Z * btf_pipe)) : t + 4 = word_addr i1 -> walks js (F info) ->
  walks js (fun c => info ← load32 (pipe_types c) (t + 4); F info c).
Proof. intros Et HF strs ws c Hc Hi Hn Hw Hl. rewrite Et, (copying_load _ _ _ _ _ _ _ Hc Hi). by apply HF. Qed.

(** *** The words of the type at word [k] *)

Context (k : nat) (Hk : i1 = S k).

Definition str_words : list nat := k ::
  match btf_kind info with
  | KStruct | KUnion | KEnum64 => every (k + 3) 3 (Z.to_nat (btf_vlen info))
  | KEnum | KFuncProto => every (k + 3) 2 (Z.to_nat (btf_vlen info))
  | _ => []
  end.

Definition id_words : list nat :=
  match btf_kind info with
  | KFwd | KConst | KVolatile | KRestrict | KPtr | KTypedef | KFunc | KVar | KDeclTag | KTypeTag => [k + 2]%nat
  | KArray => [k + 3; k + 4]%nat
  | KStruct | KUnion => every (k + 4) 3 (Z.to_nat (btf_vlen info))
  | KFuncProto => (k + 2)%nat :: every (k + 4) 2 (Z.to_nat (btf_vlen info))
  | KDatasec => every (k + 3) 3 (Z.to_nat (btf_vlen info))
  | _ => []
  end.

Lemma addr_of (j : nat) z : z = 4 * Z.of_nat j -> word_addr k + z = word_addr (k + j).
Proof. unfold word_addr. lia. Qed.

Lemma walks_columns (j step : nat) z m : (0 < step)%nat -> z = 4 * Z.of_nat step -> walks (every (k + j) step m) (visit_each visit (word_addr (k + j)) z m).
Proof. intros Hs ->. by apply walks_each. Qed.

Lemma visit_strs_walks : walks str_words (btf_type_visit_str_offs visit (word_addr k)).
Proof.
  unfold str_words, btf_type_visit_str_offs. apply walks_then.
  - destruct (btf_kind info); first [apply not_elem_of_nil | apply every_above; lia].
  - apply (walks_info _ (word_addr k) (fun info c => _)); [rewrite (addr_of 1); [by rewrite Hk, Nat.add_1_r | done] |].
    unfold SIZEOF_TYPE. rewrite (addr_of 3 12) by done. destruct (btf_kind info); try apply walks_nil; by apply walks_columns; [lia |].
Qed.

Lemma visit_ids_walks : extra_words info <> None -> walks id_words (btf_type_visit_type_ids visit (word_addr k)).
Proof.
  intros Hx. unfold id_words, btf_type_visit_type_ids. apply (walks_info _ (word_addr k) (fun info c => _)); [rewrite (addr_of 1); [by rewrite Hk, Nat.add_1_r | done] |].
  unfold SIZEOF_TYPE. cbv zeta. rewrite <- Z.add_assoc, (addr_of 2 8), (addr_of 3 12), (addr_of 4 (12 + 4)) by done. unfold extra_words in Hx.
  destruct (btf_kind info); try done; try apply walks_nil; try apply walks_one; try (by apply walks_columns; [lia |]).
  - apply walks_then; [set_solver by lia | apply walks_one].
  - apply walks_then; [apply every_above; lia | by apply walks_columns; [lia |]].
Qed.

End Walk.

End Copy.
