(* ===== verification/BtfCopyDecl.v ===== *)
(** Copied BTF as declarations: [btf__add_type] adds the declaration it is given,
    and [btf__add_btf] all those of the source, with ids that refer to
    the copies. *)
From S2P Require Import Prelude.
From S2P Require Import CLib.
From S2P Require Import Hashmap.
From S2P Require Import Strset.
From S2P Require Import Btf.
From S2P Require Import BtfParse.
From S2P Require Import BtfQuery.
From S2P Require Import BtfAdd.
From S2P Require Import BtfBuild.
From S2P Require Import BtfDecl.
From S2P Require Import BtfOps.
From S2P Require Import BtfCalls.
From S2P Require Import BtfRun.
From S2P Require Import BtfCopy.
From S2P Require Import BtfCopied.
From coqutil Require Import Datatypes.RecordSetters.
Import DoubleBraceUpdate.
#[local] Open Scope btf_scope.

(** ** The roles of words in declarations *)

Inductive role := RStr | RId | RNum.

Definition row_roles (k : kind) : list role :=
  match k with
  | KInt | KVar | KDeclTag => [RNum]
  | KArray => [RId; RId; RNum]
  | KStruct | KUnion => [RStr; RId; RNum]
  | KEnum => [RStr; RNum]
  | KEnum64 => [RStr; RNum; RNum]
  | KFuncProto => [RStr; RId]
  | KDatasec => [RId; RNum; RNum]
  | _ => []
  end.

Definition size_role (k : kind) : role :=
  match k with
  | KFwd | KConst | KVolatile | KRestrict | KPtr | KTypedef | KFunc | KVar | KDeclTag | KTypeTag | KFuncProto => RId
  | _ => RNum
  end.

Definition word_roles (k : kind) (rows : nat) : list role := [RStr; RNum; size_role k] ++ concat (replicate rows (row_roles k)).

Lemma lookup_rows {A} (R : list A) x : forall n j, concat (replicate n R) !! j = Some x -> exists m q, (m < n)%nat /\ R !! q = Some x /\ j = (length R * m + q)%nat.
Proof.
  induction n as [| n IH]; intros j; cbn [replicate concat]; [done |]. rewrite lookup_app_Some. intros [Hj | [Hj Hn]].
  - exists 0%nat, j. split_and!; [lia | done | lia].
  - apply IH in Hn as (m & q & Hm & Hq & E). exists (S m), q. split_and!; [lia | done | lia].
Qed.

Definition rows_of (info : Z) : nat := Z.to_nat (rows_for (btf_kind info) (btf_vlen info)).

Lemma role_cases info j ρ : word_roles (btf_kind info) (rows_of info) !! j = Some ρ ->
  (j = 0%nat /\ ρ = RStr) \/ (j = 1%nat /\ ρ = RNum) \/ (j = 2%nat /\ ρ = size_role (btf_kind info)) \/
  exists m q, (m < rows_of info)%nat /\ row_roles (btf_kind info) !! q = Some ρ /\ j = (3 + (length (row_roles (btf_kind info)) * m + q))%nat.
Proof.
  intros Hj. unfold word_roles in Hj. generalize dependent (size_role (btf_kind info)). intros r Hj.
  destruct j as [| [| [| j]]]; cbn [app lookup list_lookup] in Hj; [simplify_eq; auto 10 .. |]. do 3 right. apply lookup_rows in Hj as (m & q & Hm & Hq & ->). by exists m, q.
Qed.

(** A word of the rows: which one it is. *)
Ltac column_cases := repeat match goal with
  | H : [] !! _ = Some _ |- _ => by rewrite lookup_nil in H
  | H : (_ :: _) !! ?q = Some _ |- _ => destruct q; cbn in H; [injection H as <- |]
  end.

(** A word that is not one of those listed. *)
Ltac not_listed E := repeat match type of E with
  | _ ∈ [] => by apply elem_of_nil in E
  | _ ∈ _ :: _ => apply elem_of_cons in E as [E | E]; [lia |]
  | _ ∈ every _ _ _ => apply elem_of_every in E as (? & ? & E); lia
  end.

Lemma str_words_role info k j ρ : word_roles (btf_kind info) (rows_of info) !! j = Some ρ -> (k + j)%nat ∈ str_words info k <-> ρ = RStr.
Proof.
  intros Hj. unfold str_words. destruct (role_cases _ _ _ Hj) as [[-> ->] | [[-> ->] | [[-> ->] | (m & q & Hm & Hq & ->)]]].
  - split; [done |]. intros _. rewrite Nat.add_0_r. left.
  - split; [| done]. intros E. exfalso. destruct (btf_kind info); not_listed E.
  - split; [| by destruct (btf_kind info)]. intros E. exfalso. destruct (btf_kind info); not_listed E.
  - unfold rows_of in Hm. destruct (btf_kind info); cbn [rows_for] in Hm; cbn [row_roles] in Hq |- *; column_cases; cbn [length];
      (split; [intros E; try done; exfalso; not_listed E | intros ?; try done; right; apply elem_of_every; exists m; lia]).
Qed.

Lemma id_words_role info k j ρ : word_roles (btf_kind info) (rows_of info) !! j = Some ρ -> (k + j)%nat ∈ id_words info k <-> ρ = RId.
Proof.
  intros Hj. unfold id_words. destruct (role_cases _ _ _ Hj) as [[-> ->] | [[-> ->] | [[-> ->] | (m & q & Hm & Hq & ->)]]].
  - split; [| done]. intros E. exfalso. destruct (btf_kind info); not_listed E.
  - split; [| done]. intros E. exfalso. destruct (btf_kind info); not_listed E.
  - destruct (btf_kind info); cbn [size_role]; (split; [intros E; try done; exfalso; not_listed E | intros ?; try done; left]).
  - unfold rows_of in Hm. destruct (btf_kind info); cbn [rows_for] in Hm; cbn [row_roles] in Hq |- *; column_cases; cbn [length];
      (split; [intros E; try done; exfalso; not_listed E | intros ?; try done]).
    all: try (apply elem_of_every; exists m; lia).
    all: try (right; apply elem_of_every; exists m; lia).
    all: apply list_elem_of_In; simpl In; lia.
Qed.

Lemma str_words_range info k n i : extra_words info = Some n -> i ∈ str_words info k -> (k <= i < k + (3 + Z.to_nat n))%nat.
Proof.
  unfold extra_words, str_words. intros Hx [-> | Hi]%elem_of_cons; [lia |].
  destruct (btf_kind info); simplify_eq; try (by apply elem_of_nil in Hi); apply elem_of_every in Hi as (m & Hm & ->); lia.
Qed.

Lemma id_words_range info k n i : extra_words info = Some n -> i ∈ id_words info k -> (k <= i < k + (3 + Z.to_nat n))%nat.
Proof.
  unfold extra_words, id_words. intros Hx Hi.
  destruct (btf_kind info); simplify_eq;
    repeat first [by apply elem_of_nil in Hi | apply elem_of_every in Hi as (m & Hm & ->); lia | apply elem_of_cons in Hi as [-> | Hi]; [lia |]].
Qed.

(** ** Declarations with other ids *)

Definition map_word (g : Z -> Z) (ρ : role) (x : dword) : dword := match ρ, x with RId, WNum z => WNum (g z) | _, _ => x end.

Definition map_ids (g : Z -> Z) (d : decl) : decl :=
  {| d_kind := d_kind d; d_flag := d_flag d; d_vlen := d_vlen d; d_name := d_name d;
     d_size := match size_role (d_kind d) with RId => g (d_size d) | _ => d_size d end;
     d_rows := zip_with (map_word g) (row_roles (d_kind d)) <$> d_rows d |}.

Definition agree (ρ : role) (x : dword) : Prop := match ρ, x with RStr, WStr _ | RId, WNum _ | RNum, WNum _ => True | _, _ => False end.

Lemma row_agree k row : row_of k row -> Forall2 agree (row_roles k) row.
Proof. destruct 1; cbn; repeat constructor. Qed.

Lemma rows_agree k rows : Forall (row_of k) rows -> Forall2 agree (concat (replicate (length rows) (row_roles k))) (concat rows).
Proof. induction 1 as [| row rows Hr _ IH]; cbn [length replicate concat]; [constructor |]. apply Forall2_app; [by apply row_agree | done]. Qed.

Lemma concat_rows g k rows : Forall (row_of k) rows ->
  concat (zip_with (map_word g) (row_roles k) <$> rows) = zip_with (map_word g) (concat (replicate (length rows) (row_roles k))) (concat rows).
Proof.
  induction 1 as [| row rows Hr _ IH]; [done |]. cbn [length replicate concat fmap list_fmap]. rewrite IH.
  by rewrite zip_with_app by (by eapply Forall2_length, row_agree).
Qed.

Lemma map_ids_same d : decl_form d -> map_ids (fun id => id) d = d.
Proof.
  intros [Hr _ _]. destruct d as [k f v nm sz rows]. unfold map_ids. cbn in *. f_equal; [by destruct (size_role k) |].
  induction Hr as [| row rows Hr _ IH]; [done |]. cbn [fmap list_fmap]. rewrite IH. f_equal. apply row_agree in Hr. revert Hr. generalize (row_roles k). clear. intros R Hr.
  induction Hr as [| ρ x R row H1 _ IH]; [done |]. cbn. rewrite IH. by destruct ρ, x.
Qed.

Lemma map_ids_form g d : decl_form d -> decl_form (map_ids g d).
Proof.
  intros [H1 H2 H3]. split; cbn; [| | done]; [| unfold zlen; by rewrite length_fmap].
  apply Forall_fmap. eapply Forall_impl; [exact H1 |]. intros row Hr. unfold compose. destruct Hr; cbn; constructor.
Qed.

(** What a word becomes. *)
Definition becomes (same : Z -> Z -> Prop) (g : Z -> Z) (ρ : role) (w w' : Z) : Prop :=
  match ρ with RStr => same w w' | RId => w' = g w | RNum => w' = w end.

Lemma decl_becomes M M' same g d r r' : (forall w w' s, string_at M w = Some s -> same w w' -> string_at M' w' = Some s) -> decl_is M d r -> decl_form d ->
  length (r_words r') = length (r_words r) ->
  (forall j w ρ, r_words r !! j = Some w -> word_roles (btf_kind (r_info r)) (rows_of (r_info r)) !! j = Some ρ ->
     exists w', r_words r' !! j = Some w' /\ becomes same g ρ w w') ->
  r_info r' = r_info r /\ decl_is M' (map_ids g d) r'.
Proof.
  intros Hsame [D1 D2 D3 D4 D5 D6] [Hrows Hcount _] Hlen Hw. destruct r as [nm info size extra], r' as [nm' info' size' extra']. unfold r_words in *. cbn [r_name r_info r_size r_extra] in *.
  destruct (Hw 0%nat nm RStr eq_refl eq_refl) as (? & [= <-] & W0). destruct (Hw 1%nat info RNum eq_refl eq_refl) as (? & [= <-] & W1).
  destruct (Hw 2%nat size _ eq_refl eq_refl) as (? & [= <-] & W2). cbn in W0, W1. subst info'. split; [done |].
  assert (length (d_rows d) = rows_of info) as Hn by (unfold rows_of; rewrite D1, D3, <- Hcount; unfold zlen; lia).
  split; cbn [r_name r_info r_size r_extra map_ids d_kind d_flag d_vlen d_name d_size d_rows]; [exact D1 | exact D2 | exact D3 | | |].
  - by apply (Hsame nm).
  - rewrite D1 in W2. rewrite <- D5. destruct (d_kind d); exact W2.
  - rewrite concat_rows by done. pose proof (rows_agree _ _ Hrows) as Ha. rewrite Hn in *. rewrite <- D1 in *.
    set (R := concat (replicate (rows_of info) (row_roles (btf_kind info)))) in *. pose proof (Forall2_length _ _ _ Ha) as L1. pose proof (Forall2_length _ _ _ D6) as L2.
    apply Forall2_same_length_lookup_2; [rewrite length_zip_with; simpl in Hlen; lia |]. intros j x' w' Hx Hw'. apply lookup_zip_with_Some in Hx as (ρ & x & -> & Hρ & Hx).
    destruct (Forall2_lookup_l _ _ _ _ _ D6 Hx) as (w & Hwj & Hxw). pose proof (Forall2_lookup_lr _ _ _ _ _ _ Ha Hρ Hx) as Hag.
    destruct (Hw (3 + j)%nat w ρ) as (w2 & Hw2 & Hb); [done | done |]. cbn [app lookup list_lookup Nat.add] in Hw2. assert (w2 = w') as -> by (change (extra' !! j = Some w2) in Hw2; congruence).
    clear - Hsame Hag Hxw Hb. destruct ρ, x; cbn in *; [done | by eapply Hsame | congruence | done | congruence | done].
Qed.

(** ** The strings a declaration needs *)

Definition word_cost (x : dword) : Z := match x with WStr s => zlen s + 1 | WNum _ => 0 end.
Definition cost_of (xs : list dword) : Z := foldr (fun x n => word_cost x + n) 0 xs.
Definition decl_words (d : decl) : list dword := [WStr (d_name d); WNum 0; WNum (d_size d)] ++ concat (d_rows d).
Definition decl_cost (d : decl) : Z := cost_of (decl_words d).

(** The cost of word [i], when the words start at [k]. *)
Definition cost_at (xs : list dword) (k i : nat) : Z := default 0 (word_cost <$> xs !! (i - k)%nat).

Lemma word_cost_nonneg x : 0 <= word_cost x.
Proof. destruct x as [z | s]; cbn; [done |]. pose proof (zlen_nonneg s). lia. Qed.

Lemma cost_at_nonneg xs k i : 0 <= cost_at xs k i.
Proof. unfold cost_at. destruct (xs !! _); cbn; [apply word_cost_nonneg | done]. Qed.

Lemma cost_of_nonneg xs : 0 <= cost_of xs.
Proof. induction xs as [| x xs IH]; cbn; [done |]. pose proof (word_cost_nonneg x). fold (cost_of xs). lia. Qed.

Lemma total_submseteq cost js js' : (forall i, 0 <= cost i) -> js ⊆+ js' -> total cost js <= total cost js'.
Proof.
  intros Hc. unfold total. induction 1 as [| x l1 l2 _ IH | x y l | x l1 l2 _ IH | l1 l2 l3 _ IH1 _ IH2]; cbn [foldr]; try lia. pose proof (Hc x). lia.
Qed.

Lemma total_ext cost cost' js : (forall i, i ∈ js -> cost i = cost' i) -> total cost js = total cost' js.
Proof. induction js as [| i js IH]; intros H; [done |]. cbn [total foldr]. fold (total cost js) (total cost' js). rewrite H by left. rewrite IH; [done |]. intros j Hj. apply H. by right. Qed.

Lemma total_all xs : forall k, total (cost_at xs k) (seq k (length xs)) = cost_of xs.
Proof.
  induction xs as [| x xs IH]; intros k; [done |]. cbn [length seq total foldr cost_of]. fold (total (cost_at (x :: xs) k) (seq (S k) (length xs))) (cost_of xs).
  rewrite <- (IH (S k)). f_equal; [unfold cost_at; by rewrite Nat.sub_diag |]. apply total_ext. intros i Hi. apply elem_of_seq in Hi. unfold cost_at.
  by replace (i - k)%nat with (S (i - S k)) by lia.
Qed.

Lemma NoDup_every step m : (0 < step)%nat -> forall i, NoDup (every i step m).
Proof. intros Hs. induction m as [| m IH]; intros i; cbn [every]; constructor; [apply every_above; lia | apply IH]. Qed.

Lemma NoDup_str_words info k : NoDup (str_words info k).
Proof.
  unfold str_words. constructor; [destruct (btf_kind info); first [apply not_elem_of_nil | apply every_above; lia] |].
  destruct (btf_kind info); first [apply NoDup_nil_2 | apply NoDup_every; lia].
Qed.

Lemma length_decl_words M d r : decl_is M d r -> length (decl_words d) = length (r_words r).
Proof. intros [_ _ _ _ _ H]. apply Forall2_length in H. unfold decl_words, r_words. rewrite !length_app. simpl. lia. Qed.

Lemma str_words_cost M d r k : decl_is M d r -> rtype_ok r -> total (cost_at (decl_words d) k) (str_words (r_info r) k) <= decl_cost d.
Proof.
  intros Hd [_ Hx]. unfold decl_cost. rewrite <- (total_all _ k). apply total_submseteq; [apply cost_at_nonneg |]. apply NoDup_submseteq; [apply NoDup_str_words |].
  intros i Hi. apply elem_of_seq. rewrite (length_decl_words _ _ _ Hd). pose proof (str_words_range _ _ _ _ Hx Hi) as Hr. unfold r_words. rewrite length_app. unfold zlen in Hr. simpl length. lia.
Qed.

(** ** Words between others *)

Lemma changed_split rel strs js pre mid post ws' : changed rel strs js (pre ++ mid ++ post) ws' ->
  (forall i, i ∈ js -> (length pre <= i < length pre + length mid)%nat) ->
  exists mid', ws' = pre ++ mid' ++ post /\ length mid' = length mid /\
    forall j w, mid !! j = Some w -> exists w', mid' !! j = Some w' /\ if decide ((length pre + j)%nat ∈ js) then rel strs w w' else w' = w.
Proof.
  intros [Hlen Hch] Hjs. rewrite !length_app in Hlen. exists (take (length mid) (drop (length pre) ws')). split_and!.
  - apply list_eq_same_length with (n := length ws'); [rewrite !length_app, length_take, length_drop; lia | done |]. intros i x y Hi Hx Hy.
    destruct (decide (i < length pre)%nat) as [H1 |]; [| destruct (decide (i < length pre + length mid)%nat) as [H2 | H2]].
    + rewrite lookup_app_l in Hy by done. destruct (Hch i y) as (w & Hw & Hd); [by rewrite lookup_app_l |]. rewrite decide_False in Hd; [congruence |].
      intros Hin%Hjs. lia.
    + rewrite lookup_app_r, lookup_app_l in Hy by (rewrite ?length_take, ?length_drop; lia). rewrite lookup_take_lt, lookup_drop in Hy by lia.
      replace (length pre + (i - length pre))%nat with i in Hy by lia. congruence.
    + rewrite !lookup_app_r in Hy by (rewrite ?length_take, ?length_drop; lia). rewrite length_take, length_drop in Hy.
      destruct (Hch i y) as (w & Hw & Hd); [rewrite !lookup_app_r by lia; rewrite <- Hy; f_equal; lia |]. rewrite decide_False in Hd; [congruence |].
      intros Hin%Hjs. lia.
  - rewrite length_take, length_drop. lia.
  - intros j w Hj. pose proof (lookup_lt_Some _ _ _ Hj) as Hlt. destruct (Hch (length pre + j)%nat w) as (w' & Hw & Hd).
    { rewrite lookup_app_r, lookup_app_l by lia. by replace (length pre + j - length pre)%nat with j by lia. }
    exists w'. split; [| done]. by rewrite lookup_take_lt, lookup_drop by lia.
Qed.

(** ** Copying one type *)

Lemma decl_agree M d r : decl_is M d r -> decl_form d -> Forall2 agree (word_roles (btf_kind (r_info r)) (rows_of (r_info r))) (decl_words d).
Proof.
  intros [D1 _ D3 _ _ _] [Hrows Hcount _]. assert (rows_of (r_info r) = length (d_rows d)) as -> by (unfold rows_of; rewrite D1, D3, <- Hcount; unfold zlen; lia).
  rewrite D1. unfold word_roles, decl_words. apply Forall2_app; [| by apply rows_agree]. repeat constructor. by destruct (d_kind d).
Qed.

Lemma decl_string M d r j s : decl_is M d r -> decl_words d !! j = Some (WStr s) -> exists w, r_words r !! j = Some w /\ string_at M w = Some s.
Proof.
  intros [_ _ _ D4 _ D6] Hj. destruct j as [| [| [| j]]]; [injection Hj as <-; by exists (r_name r) | done | done |].
  destruct (Forall2_lookup_l _ _ _ _ _ D6 Hj) as (w & Hw & Hs). by exists w.
Qed.

Section Type_copy.
Context (e : copy_env) (He : copy_env_ok e).
Context (src : btf) (tss : list rtype) (strss : list byte) (Hsrc : obj src [] [] tss strss) (Hcnt : zlen tss <= BTF_MAX_NR_TYPES)
  (Hempty : string_at strss 0 = Some []).
Context (ts0 : list rtype) (strs0 : list byte) (b0 : btf) (ts : list rtype) (sb : list byte).

Notation copying := (copying strss ts0 strs0 b0 ts sb).
Notation word_addr := (word_addr ts).

(** The words [mid] are those of [r] after a visit. *)
Definition visited (same : Z -> Z -> Prop) (g : Z -> Z) (r : rtype) (mid : list Z) : Prop := length mid = length (r_words r) /\
  forall j w ρ, r_words r !! j = Some w -> word_roles (btf_kind (r_info r)) (rows_of (r_info r)) !! j = Some ρ ->
    exists w', mid !! j = Some w' /\ becomes same g ρ w w'.

Lemma visited_type same g r mid : visited same g r mid -> exists r', mid = r_words r' /\ r_info r' = r_info r.
Proof.
  intros [Hl Hv]. destruct mid as [| nm [| info [| size extra]]]; [simpl in Hl; lia .. |]. exists {| r_name := nm; r_info := info; r_size := size; r_extra := extra |}.
  split; [done |]. destruct (Hv 1%nat (r_info r) RNum eq_refl eq_refl) as (w' & [= <-] & Hw). exact Hw.
Qed.

(** A visit of a type ends in this state of words and strings, or for want of memory. *)
Definition visit_ends (a : list byte * Z * Z) (strs : list byte) (n cost : Z) (P : list byte -> list Z -> Prop) (res : option (Z * btf_pipe)) : Prop :=
  exists z c' strs' ws', res = Some (z, c') /\ copying a strs' ws' n c' /\ strs `prefix_of` strs' /\ zlen strs' <= zlen strs + cost /\
    ((z = 0 /\ P strs' ws') \/ (z = - ENOMEM /\ copy_short e)).

Lemma info_word (pre : list Z) r post : (pre ++ r_words r ++ post) !! S (length pre) = Some (r_info r).
Proof. rewrite lookup_app_r by lia. by replace (S (length pre) - length pre)%nat with 1%nat by lia. Qed.

Lemma strs_stage a strs pre r post n c d : copying a strs (pre ++ r_words r ++ post) n c -> rtype_ok r -> decl_is strss d r -> decl_form d ->
  zlen strs0 + zlen strs + decl_cost d <= BTF_MAX_STR_OFFSET ->
  visit_ends a strs n (decl_cost d)
    (fun strs' ws' => exists mid, ws' = pre ++ mid ++ post /\ visited (same_string strss (strs0 ++ strs')) (fun id => id) r mid)
    (btf_type_visit_str_offs (btf_rewrite_str e src) (word_addr (length pre)) c).
Proof.
  intros Hc Hr Hd Hf Hlim. pose proof (str_words_cost _ _ _ (length pre) Hd Hr) as Hcost. pose proof (length_decl_words _ _ _ Hd) as Hl.
  pose proof (decl_agree _ _ _ Hd Hf) as Ha. pose proof (proj2 Hr) as Hx.
  set (cost := cost_at (decl_words d) (length pre)) in *.
  assert (forall i, i ∈ str_words (r_info r) (length pre) -> (length pre <= i < length pre + length (r_words r))%nat) as Hrange.
  { intros i Hi. pose proof (str_words_range _ _ _ _ Hx Hi) as Hi'. unfold r_words. rewrite length_app. unfold zlen in Hi'. simpl length. lia. }
  destruct (visit_strs_walks e He src tss strss Hsrc Hcnt Hempty ts0 strs0 b0 ts sb (btf_rewrite_str e src)
    (fun i w => exists s, string_at strss w = Some s /\ zlen s + 1 <= cost i) (fun strs => same_string strss (strs0 ++ strs)) cost a n
    ltac:(intros ? ? ? ? ? ? ? (s & ? & ?) ?; by eapply rewrite_str_ok) ltac:(cbv beta; intros; rewrite app_assoc; by apply same_string_app)
    (cost_at_nonneg _ _) (S (length pre)) (r_info r) (length pre) eq_refl strs _ c Hc (info_word _ _ _)) as (z & c' & strs' & ws' & E & Hc' & Hp & Hz & Hres).
  - intros Hin. assert (word_roles (btf_kind (r_info r)) (rows_of (r_info r)) !! 1%nat = Some RNum) as H1 by done.
    apply (str_words_role _ (length pre)) in H1. rewrite Nat.add_1_r in H1. by apply H1 in Hin.
  - intros i Hi. pose proof (Hrange i Hi) as Hi'. destruct (lookup_lt_is_Some_2 (decl_words d) (i - length pre)) as [x Hxi]; [lia |].
    destruct (Forall2_lookup_r _ _ _ _ _ Ha Hxi) as (ρ & Hρ & Hag). pose proof (proj1 (str_words_role _ (length pre) _ _ Hρ)) as Hs.
    replace (length pre + (i - length pre))%nat with i in Hs by lia. rewrite (Hs Hi) in Hag. destruct x as [| s]; [done |].
    destruct (decl_string _ _ _ _ _ Hd Hxi) as (w & Hw & Hat). exists w. split; [rewrite lookup_app_r, lookup_app_l by lia; done |]. exists s. split; [done |].
    unfold cost, cost_at. rewrite Hxi. done.
  - lia.
  - exists z, c', strs', ws'. split; [done |]. split; [done |]. split; [done |]. split; [lia |]. destruct Hres as [[-> Hch] | Hres]; [left | by right]. split; [done |].
    destruct (changed_split _ _ _ _ _ _ _ Hch Hrange) as (mid & -> & Hm & Hmid). exists mid. split; [done |]. split; [done |]. intros j w ρ Hj Hρ.
    destruct (Hmid j w Hj) as (w' & Hw' & Hw2). exists w'. split; [done |]. pose proof (str_words_role _ (length pre) _ _ Hρ) as Hrole.
    destruct (decide _) as [Hin | Hin]; [by rewrite (proj1 Hrole Hin) |]. destruct ρ; [by destruct Hin; apply Hrole | done | done].
Qed.

Lemma ids_stage a strs pre r post n c : copying a strs (pre ++ r_words r ++ post) n c -> rtype_ok r -> zlen strs0 + zlen strs <= BTF_MAX_STR_OFFSET ->
  visit_ends a strs n 0 (fun strs' ws' => exists mid, ws' = pre ++ mid ++ post /\ visited eq (shift_id (zlen ts0 + zlen ts)) r mid)
    (btf_type_visit_type_ids btf_rewrite_type_ids (word_addr (length pre)) c).
Proof.
  intros Hc Hr Hlim. pose proof (proj2 Hr) as Hx.
  assert (forall i, i ∈ id_words (r_info r) (length pre) -> (length pre <= i < length pre + length (r_words r))%nat) as Hrange.
  { intros i Hi. pose proof (id_words_range _ _ _ _ Hx Hi) as Hi'. unfold r_words. rewrite length_app. unfold zlen in Hi'. simpl length. lia. }
  assert (total (fun _ : nat => 0) (id_words (r_info r) (length pre)) = 0) as Ht by (generalize (id_words (r_info r) (length pre)); clear; intros l; induction l as [| i l IH]; [done | exact IH]).
  destruct (visit_ids_walks e He src tss strss Hsrc Hcnt Hempty ts0 strs0 b0 ts sb btf_rewrite_type_ids
    (fun _ _ => True) (fun _ w w' => w' = shift_id (zlen ts0 + zlen ts) w) (fun _ => 0) a n
    ltac:(intros; by apply rewrite_ids_ok) ltac:(done) ltac:(done) (S (length pre)) (r_info r) (length pre) eq_refl ltac:(by rewrite Hx) strs _ c Hc (info_word _ _ _))
    as (z & c' & strs' & ws' & E & Hc' & Hp & Hz & Hres).
  - intros Hin. assert (word_roles (btf_kind (r_info r)) (rows_of (r_info r)) !! 1%nat = Some RNum) as H1 by done.
    apply (id_words_role _ (length pre)) in H1. rewrite Nat.add_1_r in H1. by apply H1 in Hin.
  - intros i Hi. pose proof (Hrange i Hi) as Hi'. destruct (lookup_lt_is_Some_2 (r_words r) (i - length pre)) as [w Hw]; [lia |]. exists w.
    split; [rewrite lookup_app_r, lookup_app_l by lia; done | done].
  - lia.
  - exists z, c', strs', ws'. split; [done |]. split; [done |]. split; [done |]. split; [lia |]. destruct Hres as [[-> Hch] | Hres]; [left | by right]. split; [done |].
    destruct (changed_split _ _ _ _ _ _ _ Hch Hrange) as (mid & -> & Hm & Hmid). exists mid. split; [done |]. split; [done |]. intros j w ρ Hj Hρ.
    destruct (Hmid j w Hj) as (w' & Hw' & Hw2). exists w'. split; [done |]. pose proof (id_words_role _ (length pre) _ _ Hρ) as Hrole.
    destruct (decide _) as [Hin | Hin]; [by rewrite (proj1 Hrole Hin) |]. destruct ρ; [done | by destruct Hin; apply Hrole | done].
Qed.

End Type_copy.
