(* ===== verification/BtfCopyRun.v ===== *)
(** The calls of BtfCopy.v as a whole: what they return and what the object
    shows afterwards. *)
From S2P Require Import Prelude.
From S2P Require Import CLib.
From S2P Require Import Hashmap.
From S2P Require Import Strset.
From S2P Require Import Btf.
From S2P Require Import BtfParse.
From S2P Require Import BtfQuery.
From S2P Require Import BtfAdd.
From S2P Require Import BtfBuild.
From S2P Require Import BtfDecl.
From S2P Require Import BtfOps.
From S2P Require Import BtfCalls.
From S2P Require Import BtfRun.
From S2P Require Import BtfCopy.
From S2P Require Import BtfCopied.
From S2P Require Import BtfCopyDecl.
From coqutil Require Import Datatypes.RecordSetters.
Import DoubleBraceUpdate.
#[local] Open Scope btf_scope.

(** ** A copied type *)

Lemma visited_trans same g r r1 mid : visited same (fun id => id) r (r_words r1) -> r_info r1 = r_info r -> visited eq g r1 mid -> visited same g r mid.
Proof.
  intros [L1 H1] Ei [L2 H2]. split; [congruence |]. intros j w ρ Hj Hρ. destruct (H1 j w ρ Hj Hρ) as (w1 & Hw1 & B1). rewrite <- Ei in Hρ.
  destruct (H2 j w1 ρ Hw1 Hρ) as (w2 & Hw2 & B2). exists w2. split; [done |]. destruct ρ; cbn in *; congruence.
Qed.

(** The type [r'] is a copy of [r]. *)
Record copy_of (strs : list byte) (d : decl) (r r' : rtype) : Prop := {
  co_ok : rtype_ok r';
  co_len : length (r_words r') = length (r_words r);
  co_decl : decl_is strs d r'
}.

Lemma visited_copy strss strs g d r r' : visited (same_string strss strs) g r (r_words r') -> Forall (fun w => is_u32 w) (r_words r') -> rtype_ok r ->
  decl_is strss d r -> decl_form d -> copy_of strs (map_ids g d) r r'.
Proof.
  intros [Hl Hv] Hu [_ Hx] Hd Hf. destruct (decl_becomes strss strs (same_string strss strs) g d r r') as [Ei Hd']; [| done | done | done | done |].
  { intros w w' s Hs (s' & H1 & H2). congruence. }
  split; [| done | done]. split; [done |]. rewrite Ei, Hx. unfold r_words in Hl. rewrite !length_app in Hl. unfold zlen. simpl length in Hl. do 2 f_equal. lia.
Qed.

Lemma copies_bytes strs ds rs rs' : Forall2 (fun '(d, r) r' => copy_of strs d r r') (zip ds rs) rs' -> length ds = length rs ->
  zlen (types_bytes false rs') = zlen (types_bytes false rs).
Proof.
  intros H Hl. rewrite !types_bytes_words, !zlen_enc_words. f_equal. revert ds rs Hl H. induction rs' as [| r' rs' IH]; intros [| d ds] [| r rs] Hl H; try done; [by inversion H .. |].
  cbn in H. apply Forall2_cons in H as [H1 H2]. cbn [fmap list_fmap concat]. rewrite !zlen_app. rewrite (IH ds rs) by (try done; by injection Hl). f_equal. unfold zlen. by rewrite (co_len _ _ _ _ H1).
Qed.

(** ** The bytes of the source *)

Lemma src_type b ts strs (i : nat) r : obj b [] [] ts strs -> zlen ts <= BTF_MAX_NR_TYPES -> ts !! i = Some r ->
  exists pre post, btf__type_by_id b (1 + Z.of_nat i) = Some (Some (TAt (pre ++ enc_words (r_words r) ++ post) (zlen pre))).
Proof.
  intros Hobj Hn Hi. pose proof (ob_own _ _ _ _ _ Hobj) as Ho. destruct (ow_types _ _ (os_own _ _ _ Ho)) as [rest Et].
  destruct (ow_offs _ _ (os_own _ _ _ Ho)) as [Hnr _ _ [orest Eo] Hu]. pose proof (own_ok_nr _ _ (os_own _ _ _ Ho)) as Hnr'. pose proof (lookup_lt_Some _ _ _ Hi) as Hlt.
  destruct (offsets_lookup ts 0 i r Hi) as (pre & post & Eb & Eoff). pose proof (ob_start _ _ _ _ _ Hobj) as Hs. change (zlen []) with 0 in Hs. unfold BTF_MAX_NR_TYPES in Hn.
  exists pre, (post ++ rest). unfold btf__type_by_id, btf__type_cnt. rewrite Hs, Hnr', u32_id by (unfold zlen in *; lia).
  rewrite (proj2 (Z.leb_gt _ _)) by (unfold zlen in *; lia). unfold btf_type_by_id.
  assert (load32 (b_offs (own b)) (4 * (1 + Z.of_nat i - b_start_id (own b))) = Some (zlen pre)) as HL.
  { rewrite Eo, Hs. apply (load_words [] _ _ i); [done | done | change (zlen []) with 0; lia]. }
  assert (type_by_id (own b) (bases b) (1 + Z.of_nat i) = Some (TAt (b_types (own b)) (zlen pre))) as ->.
  { destruct (bases b); cbn [type_by_id]; rewrite (proj2 (Z.eqb_neq _ _)), (proj2 (Z.ltb_ge _ _)) by lia; by rewrite HL. }
  cbn [mbind option_bind]. do 3 f_equal. rewrite Et, Eb. rewrite <- !app_assoc. done.
Qed.

(** Bytes of words are stored as the words are. *)
Lemma store_put b ts pend n p ws : room (own b) ts pend n -> p = zlen (types_bytes false ts) + 4 * zlen pend -> 4 * zlen ws <= n ->
  change_own (fun o => m ← store (b_types o) p (enc_words ws); Some (o {{ b_types := m }})) b = put p ws b.
Proof.
  intros [_ (rest & Et & Hn)] -> Hws. unfold put, change_own. rewrite Et. pose proof (zlen_enc_words ws) as Hz.
  assert (length (enc_words ws) <= length rest)%nat as Hle by (unfold zlen in *; lia).
  rewrite app_assoc, <- (take_drop (length (enc_words ws)) rest).
  rewrite store_words_run, store_app; [done | rewrite zlen_app, zlen_enc_words; lia | rewrite length_take; lia | rewrite zlen_app, zlen_enc_words; lia | rewrite length_take; lia].
Qed.

Lemma bytes_of_words pre ws post n : n = 4 * zlen ws -> bytes_at (pre ++ enc_words ws ++ post) (zlen pre) (Z.to_nat n) = Some (enc_words ws).
Proof.
  intros ->. apply bytes_at_app; [done |]. pose proof (zlen_enc_words ws) as Hz. unfold zlen in *. lia.
Qed.

(** ** Limits *)

Definition decl_bytes (d : decl) : Z := 4 * zlen (decl_words d).

(** There is room for so many bytes of strings, bytes of types, and types. *)
Record copy_fits (b : btf) (cost bytes cnt : Z) : Prop := {
  cf_strs : b_start_str_off (own b) + str_len (b_hdr (own b)) + cost <= BTF_MAX_STR_OFFSET;
  cf_types : type_len (b_hdr (own b)) + bytes <= UINT32_MAX;
  cf_count : b_start_id (own b) + b_nr_types (own b) + cnt <= BTF_MAX_NR_TYPES
}.

Lemma copy_fits_obj b ts0 strs0 ts strs cost bytes cnt : obj b ts0 strs0 ts strs -> copy_fits b cost bytes cnt ->
  zlen strs0 + zlen strs + cost <= BTF_MAX_STR_OFFSET /\ zlen (types_bytes false ts) + bytes <= UINT32_MAX /\ 1 + zlen ts0 + zlen ts + cnt <= BTF_MAX_NR_TYPES.
Proof.
  intros Hobj [F1 F2 F3]. pose proof (ob_own _ _ _ _ _ Hobj) as Ho. rewrite (ob_start_str _ _ _ _ _ Hobj), (os_len _ _ _ Ho) in F1.
  rewrite (ow_len _ _ (os_own _ _ _ Ho)) in F2. rewrite (ob_start _ _ _ _ _ Hobj), (own_ok_nr _ _ (os_own _ _ _ Ho)) in F3. done.
Qed.

Lemma own_count o ts : own_ok o ts -> zlen ts <= BTF_MAX_NR_TYPES.
Proof.
  intros Ho. destruct (ow_offs _ _ Ho) as [H1 H2 H3 [rest H4] _]. rewrite (own_ok_nr _ _ Ho) in H1. rewrite H4, zlen_app, zlen_enc_words in H2.
  pose proof (zlen_nonneg rest). lia.
Qed.

(** An object without a base that has these declarations. *)
Record stands_for (b : btf) (ds : list decl) : Prop := {
  st_alone : bases b = [];
  st_built : built b ds;
  st_form : Forall decl_form ds
}.

Lemma stands_obj b ds : stands_for b ds -> exists ts strs, obj b [] [] ts strs /\ Forall2 (decl_is strs) ds ts /\ string_at strs 0 = Some [] /\
  Forall rtype_ok ts /\ zlen ts <= BTF_MAX_NR_TYPES.
Proof.
  intros [Hb (ts0 & strs0 & ts & strs & Hobj & Hd & H0) _]. pose proof (ob_base _ _ _ _ _ Hobj) as Hbase. rewrite Hb in Hbase. destruct Hbase as [-> ->].
  pose proof (os_own _ _ _ (ob_own _ _ _ _ _ Hobj)) as Ho. exists ts, strs. split_and!; try done; [by apply (ow_ok _ _ Ho) | by eapply own_count].
Qed.

Section Run.
Context (e : copy_env) (He : copy_env_ok e).
Context (src : btf) (tss : list rtype) (strss : list byte) (Hsrc : obj src [] [] tss strss) (Hcnt : zlen tss <= BTF_MAX_NR_TYPES)
  (Hempty : string_at strss 0 = Some []).
Context (ts0 : list rtype) (strs0 : list byte).

Lemma copying_start b ts strs ws n m : obj b ts0 strs0 ts strs -> fresh (own b) -> room (own b) ts ws n -> Forall (fun w => is_u32 w) ws ->
  string_at (strs0 ++ strs) 0 = Some [] -> map_ok strss (strs0 ++ strs) m ->
  copying strss ts0 strs0 b ts strs (aside (own b)) strs ws n {| dst := b; str_off_map := m |}.
Proof. intros. split; cbn; try done. by apply later_refl. Qed.

(** A step of the copy: it ends in a value, or memory is short and the types are as they were. *)
Definition copy_ends {A} (b : btf) (ts : list rtype) (strs : list byte) (P : A -> btf -> Prop) (r : Z + A) (b' : btf) : Prop :=
  match r with
  | inl z => z = - ENOMEM /\ copy_short e /\ exists strs', later ts0 strs0 b ts strs b' ts strs'
  | inr x => P x b'
  end.

Lemma copy_ends_bind {A B} (m : act A) (f : A -> act B) b ts strs P (Q : B -> btf -> Prop) : runs m b (copy_ends b ts strs P) ->
  (forall x b', P x b' -> runs (f x) b' (copy_ends b ts strs Q)) -> runs (bind m f) b (copy_ends b ts strs Q).
Proof. intros Hm Hf. apply runs_bind. eapply runs_mono; [exact Hm |]. intros [z | x] b' H; [exact H | by apply Hf]. Qed.

Lemma copy_ends_later {A} (m : act A) b ts strs b1 strs1 (P : A -> btf -> Prop) : later ts0 strs0 b ts strs b1 ts strs1 ->
  runs m b1 (copy_ends b1 ts strs1 P) -> runs m b1 (copy_ends b ts strs P).
Proof.
  intros HL Hm. eapply runs_mono; [exact Hm |]. intros [z | x] b' H; [| exact H]. destruct H as (-> & Hs & strs' & HL'). split_and!; try done.
  exists strs'. by eapply later_trans.
Qed.

Lemma or_short_copy {A} mx (m : act A) b ts strs (P : A -> btf -> Prop) : runs m b (or_short (ce_own e) ts0 strs0 mx b ts strs P) -> runs m b (copy_ends b ts strs P).
Proof.
  intros Hm. eapply runs_mono; [exact Hm |]. intros [z | x] b' H; [| exact H]. destruct H as (-> & Hs & strs' & HL' & _). split_and!; [done | by left | by exists strs'].
Qed.

(** The strings of a new type are visited. *)
Lemma visit_type_ok b ts strs r n d : obj b ts0 strs0 ts strs -> fresh (own b) -> room (own b) ts (r_words r) n -> rtype_ok r -> decl_is strss d r -> decl_form d ->
  string_at (strs0 ++ strs) 0 = Some [] -> zlen strs0 + zlen strs + decl_cost d <= BTF_MAX_STR_OFFSET ->
  runs (err <- (fun b => '(err, c) ← btf_type_visit_str_offs (btf_rewrite_str e src) (zlen (types_bytes false ts)) {| dst := b; str_off_map := None |}; Some (inr err, dst c)) ;;
        require (negb (c_true err)) err) b
    (copy_ends b ts strs (fun _ b' => exists strs' r', later ts0 strs0 b ts strs b' ts strs' /\ fresh (own b') /\ room (own b') ts (r_words r') n /\
      copy_of (strs0 ++ strs') d r r' /\ zlen strs' <= zlen strs + decl_cost d)).
Proof.
  intros Hobj Hf Hroom Hr Hd Hform H0 Hlim.
  assert (copying strss ts0 strs0 b ts strs (aside (own b)) strs ([] ++ r_words r ++ []) n {| dst := b; str_off_map := None |}) as Hc.
  { rewrite app_nil_r. apply copying_start; try done. apply Hr. }
  destruct (strs_stage e He src tss strss Hsrc Hcnt Hempty ts0 strs0 b ts strs _ strs [] r [] n _ d Hc Hr Hd Hform Hlim) as (z & c' & strs' & ws' & E & Hc' & Hp & Hz & Hres).
  unfold word_addr in E. cbn [length] in E. change (4 * Z.of_nat 0) with 0 in E. rewrite Z.add_0_r in E.
  apply runs_bind. eexists _, _. split; [rewrite E; reflexivity |]. cbv beta iota. destruct Hres as [(-> & mid & -> & Hv) | [-> Hsh]].
  - destruct (visited_type _ _ _ _ Hv) as (r' & -> & Ei). cbn [app] in Hc'. rewrite app_nil_r in Hc'. apply runs_ret. exists strs', r'. destruct Hc' as [HL' Hf' Hr' Hw' _ _ _].
    split_and!; try done. rewrite <- (map_ids_same d Hform). by eapply visited_copy.
  - apply runs_require; [done |]. intros _. split_and!; try done. exists strs'. apply (cp_later _ _ _ _ _ _ _ _ _ _ _ Hc').
Qed.

Lemma add_type_run b ts strs r d pre post : obj b ts0 strs0 ts strs -> rtype_ok r -> decl_is strss d r -> decl_form d -> string_at (strs0 ++ strs) 0 = Some [] ->
  zlen strs0 + zlen strs + decl_cost d <= BTF_MAX_STR_OFFSET -> zlen (types_bytes false ts) + decl_bytes d <= UINT32_MAX -> zlen ts0 + zlen ts + 1 <= BTF_MAX_NR_TYPES ->
  runs (btf__add_type e src (pre ++ enc_words (r_words r) ++ post) (zlen pre)) b
    (copy_ends b ts strs (fun id b' => id = zlen ts0 + zlen ts + 1 /\ exists strs' r', later ts0 strs0 b ts strs b' (ts ++ [r']) strs' /\ copy_of (strs0 ++ strs') d r r')).
Proof.
  intros Hobj Hr Hd Hform H0 Hl1 Hl2 Hl3. set (mx := zlen strs + decl_cost d). pose proof (cost_of_nonneg (decl_words d)) as Z0. fold (decl_cost d) in Z0.
  set (sz := 12 + 4 * zlen (r_extra r)). pose proof (zlen_nonneg (r_extra r)) as Z1.
  assert (4 * zlen (r_words r) = sz) as Esz by (unfold sz, r_words; rewrite zlen_app; change (zlen [r_name r; r_info r; r_size r]) with 3; lia).
  assert (decl_bytes d = sz) as Eb by (unfold decl_bytes; rewrite <- Esz; unfold zlen; by rewrite (length_decl_words _ _ _ Hd)).
  unfold btf__add_type. apply runs_bind. apply (runs_ask _ sz).
  { rewrite (type_size_spec _ _ (r_info r)); [by rewrite (proj2 Hr) |]. apply (load_words pre (r_words r) post 1%nat (r_info r)); [apply Hr | done | lia]. }
  cbv beta iota. apply runs_bind, runs_require; [intros _ | intros E; apply negb_false_iff, Z.ltb_lt in E; lia].
  eapply copy_ends_bind; [apply (or_short_copy mx); apply new_mem_ok; [apply (ceo_own _ He) | done | lia | lia | lia] |].
  intros t b1 (L1 & F1 & -> & R1). apply copy_ends_later with (1 := L1). apply runs_bind. eapply runs_ask; [by apply bytes_of_words |]. cbv beta iota.
  eapply copy_ends_bind.
  { apply (or_short_copy mx). destruct (put_ok (ce_own e) ts0 strs0 mx b1 ts strs [] sz _ (r_words r) (proj1 L1) F1 R1 eq_refl ltac:(lia)) as (x & b2 & E & H2).
    exists x, b2. split; [| exact H2]. change (4 * zlen (@nil Z)) with 0 in E. rewrite Z.add_0_r in E.
    rewrite (store_put b1 ts [] sz _ (r_words r) R1); [done | change (4 * zlen (@nil Z)) with 0; lia | lia]. }
  intros [] b2 (L2 & F2 & R2). apply copy_ends_later with (1 := L2). cbn [app] in R2. rewrite Esz, Z.sub_diag in R2.
  apply runs_assoc. eapply copy_ends_bind; [apply (visit_type_ok b2 ts strs r 0 d); [apply L2 | done | done | done | done | done | done | done] |].
  intros [] b3 (strs3 & r' & L3 & F3 & R3 & Hco & Hz). apply copy_ends_later with (1 := L3).
  assert (zlen (type_bytes false r') = sz) as Er' by (rewrite zlen_type_bytes; pose proof (co_len _ _ _ _ Hco) as Hl; unfold r_words in Hl; rewrite !length_app in Hl; unfold sz, zlen; simpl length in Hl; lia).
  eapply runs_mono; [apply (or_short_copy mx), (commit_ok (ce_own e) ts0 strs0 mx b3 ts strs3 r' 0 sz); [apply L3 | unfold mx; lia | done | done | apply Hco | done | lia | lia] |].
  intros [z | id] b4 H4; [exact H4 |]. destruct H4 as (-> & _ & L4). split; [done |]. exists strs3, r'. split; [| done].
  eapply later_trans; [exact L1 |]. eapply later_trans; [exact L2 |]. by eapply later_trans.
Qed.

(** *** The loop over the types of an object *)

Section Loop.
(** The object when the words have been copied. *)
Context (b0 : btf) (ts : list rtype) (sb : list byte).

Notation copying := (copying strss ts0 strs0 b0 ts sb).
Notation word_addr := (word_addr ts).
Notation shift := (shift_id (zlen ts0 + zlen ts)).

(** Offsets behind those of the types. *)
Definition more_offs (os : list Z) (rest : list byte) (cap : Z) : list byte * Z * Z := (enc_words (offsets ts 0 ++ os) ++ rest, cap, zlen ts).

Lemma store_off_ok os rest cap strs ws n c v p : copying (more_offs os rest cap) strs ws n c -> 4 <= zlen rest -> p = 4 * (zlen ts + zlen os) ->
  exists offs, store (b_offs (own (dst c))) p (le_split 4 v) = Some offs /\
    copying (more_offs (os ++ [v]) (drop 4 rest) cap) strs ws n (c {{ dst := (dst c) {{ own := (own (dst c)) {{ b_offs := offs }} }} }}).
Proof.
  intros [HL Hf Hr Hw Ha Hn He0 Hm] Hrest ->. unfold aside, more_offs in Ha. injection Ha as Ao Ac An. rewrite Ao.
  assert (zlen (offsets ts 0) = zlen ts) as Eoff by (unfold zlen; by rewrite length_offsets).
  exists (enc_words (offsets ts 0 ++ os ++ [v]) ++ drop 4 rest). split.
  { rewrite <- (take_drop 4 rest) at 1. rewrite store_app; [| rewrite zlen_enc_words, zlen_app; lia | rewrite length_le_split, length_take; unfold zlen in Hrest; lia].
    rewrite app_assoc, !enc_words_app, <- !app_assoc. done. }
  set (offs := enc_words _ ++ _). destruct HL as ([Hb Ho Hs1 Hs2] & Hk & Hp). destruct c as [[o os'] map]. cbn in *. unfold constant.
  assert (own_state (o {{ b_offs := offs }}) ts strs) as Ho'.
  { assert (zlen offs = zlen (b_offs o)) as Ez. { rewrite Ao. unfold offs. rewrite !zlen_app, !zlen_enc_words, !zlen_app. change (zlen [v]) with 1. unfold zlen in *. rewrite length_drop. lia. }
    destruct Ho as [[H1 H2 [P1 P2 P3 _ P5] H4 H5] Q1 Q2 Q3 Q4 Q5]. destruct o. cbn in *. unfold constant. split; cbn; try done. split; cbn; try done. split; cbn; try done; [by rewrite Ez |].
    unfold offs. rewrite enc_words_app, <- app_assoc. by eexists. }
  split; cbn; [| by destruct o | by destruct o | done | unfold aside, more_offs; rewrite <- Ac, <- An; by destruct o | intros H; specialize (Hn H); by destruct o | done | done].
  split_and!; [split; cbn; try done; by destruct o | | done]. eapply keeps_trans; [exact Hk |]. split; [by destruct o | right; by destruct o].
Qed.

(** The words of one type are visited twice. *)
Definition visit_both (t : Z) (c : btf_pipe) : option (Z * btf_pipe) :=
  '(err, c) ← btf_type_visit_str_offs (btf_rewrite_str e src) t c;
  if c_true err then Some (err, c) else btf_type_visit_type_ids btf_rewrite_type_ids t c.

Lemma visit_both_ok a strs pre r post n c d : copying a strs (pre ++ r_words r ++ post) n c -> rtype_ok r -> decl_is strss d r -> decl_form d ->
  zlen strs0 + zlen strs + decl_cost d <= BTF_MAX_STR_OFFSET ->
  visit_ends e strss ts0 strs0 b0 ts sb a strs n (decl_cost d)
    (fun strs' ws' => exists r', ws' = pre ++ r_words r' ++ post /\ copy_of (strs0 ++ strs') (map_ids shift d) r r')
    (visit_both (word_addr (length pre)) c).
Proof.
  intros Hc Hr Hd Hform Hlim. unfold visit_both.
  destruct (strs_stage e He src tss strss Hsrc Hcnt Hempty ts0 strs0 b0 ts sb a strs pre r post n c d Hc Hr Hd Hform Hlim) as (z & c1 & strs1 & ws1 & -> & Hc1 & Hp1 & Hz1 & H1).
  cbn [mbind option_bind]. destruct H1 as [(-> & mid & -> & Hv) | [-> Hsh]]; [| exists (- ENOMEM), c1, strs1, ws1; by split_and!; auto].
  change (c_true 0) with false. cbv iota. destruct (visited_type _ _ _ _ Hv) as (r1 & -> & Ei).
  assert (forall strs c r, copying a strs (pre ++ r_words r ++ post) n c -> Forall (fun w => is_u32 w) (r_words r)) as Hu.
  { intros s0 c0 r0 Hc0. pose proof (cp_words _ _ _ _ _ _ _ _ _ _ _ Hc0) as Hw. rewrite !Forall_app in Hw. tauto. }
  pose proof (visited_copy _ _ _ _ _ _ Hv (Hu _ _ _ Hc1) Hr Hd Hform) as Hco1.
  destruct (ids_stage e He src tss strss Hsrc Hcnt Hempty ts0 strs0 b0 ts sb a strs1 pre r1 post n c1 Hc1 (co_ok _ _ _ _ Hco1) ltac:(lia)) as (z & c2 & strs2 & ws2 & -> & Hc2 & Hp2 & Hz2 & H2).
  exists z, c2, strs2, ws2. split; [done |]. split; [done |]. split; [by etransitivity |]. split; [lia |]. destruct H2 as [(-> & mid & -> & Hv2) | H2]; [left | by right].
  split; [done |]. destruct (visited_type _ _ _ _ Hv2) as (r2 & -> & Ei2). exists r2. split; [done |]. eapply visited_copy; [| by eapply Hu | done | done | done].
  assert (strs2 = strs1) as ->; [| by eapply visited_trans]. symmetry. destruct Hp2 as [l ->]. rewrite zlen_app in Hz2. destruct l; [by rewrite app_nil_r | rewrite zlen_cons in Hz2; pose proof (zlen_nonneg l); lia].
Qed.

Definition decls_cost (ds : list decl) : Z := foldr (fun d n => decl_cost d + n) 0 ds.

Lemma decl_cost_nonneg d : 0 <= decl_cost d.
Proof. apply cost_of_nonneg. Qed.

Lemma decls_cost_nonneg ds : 0 <= decls_cost ds.
Proof. induction ds as [| d ds IH]; [done |]. cbn [decls_cost foldr]. pose proof (decl_cost_nonneg d). fold (decls_cost ds). lia. Qed.

Lemma copy_of_app strs strs' d r r' : terminated strs -> copy_of strs d r r' -> copy_of (strs ++ strs') d r r'.
Proof. intros Ht [H1 H2 H3]. split; [done | done | by apply decl_is_app]. Qed.

Lemma copy_types_step m t off c : copy_types e src (S m) t off c =
  (sz ← btf_type_size (pipe_types c) t; if sz <? 0 then Some (sz, c) else
   offs ← store (b_offs (own (dst c))) off (le_split 4 (u32 t));
   '(err, c) ← visit_both t (c {{ dst := (dst c) {{ own := (own (dst c)) {{ b_offs := offs }} }} }});
   if c_true err then Some (err, c) else copy_types e src m (t + sz) (off + 4) c).
Proof.
  cbn [copy_types]. destruct (btf_type_size _ _) as [sz |]; [| done]. cbn [mbind option_bind]. destruct (sz <? 0); [done |]. destruct (store _ _ _) as [offs |]; [| done].
  cbn [mbind option_bind]. unfold visit_both. destruct (btf_type_visit_str_offs _ _ _) as [[err c1] |]; [| done]. cbn [mbind option_bind].
  destruct (c_true err) eqn:Ee; cbn [mbind option_bind]; [by rewrite Ee | done].
Qed.

Lemma copy_types_ok rs : forall ds pre os rest cap strs n c, copying (more_offs os rest cap) strs (pre ++ concat (r_words <$> rs)) n c ->
  Forall rtype_ok rs -> Forall2 (decl_is strss) ds rs -> Forall decl_form ds -> 4 * zlen rs <= zlen rest ->
  word_addr (length pre) + zlen (types_bytes false rs) < 2 ^ 32 -> zlen strs0 + zlen strs + decls_cost ds <= BTF_MAX_STR_OFFSET ->
  exists z c' strs', copy_types e src (length rs) (word_addr (length pre)) (4 * (zlen ts + zlen os)) c = Some (z, c') /\ strs `prefix_of` strs' /\ zlen strs' <= zlen strs + decls_cost ds /\
    ((z = 0 /\ exists rs' rest', copying (more_offs (os ++ offsets rs' (word_addr (length pre))) rest' cap) strs' (pre ++ concat (r_words <$> rs')) n c' /\
        Forall2 (fun '(d, r) r' => copy_of (strs0 ++ strs') d r r') (zip (map_ids shift <$> ds) rs) rs') \/
     (z = - ENOMEM /\ copy_short e /\ exists a' ws', copying a' strs' ws' n c')).
Proof.
  induction rs as [| r rs IH]; intros ds pre os rest cap strs n c Hc Hok Hds Hform Hrest Hlim Hcost.
  { apply Forall2_nil_inv_r in Hds as ->. exists 0, c, strs. split; [done |]. split; [done |]. split; [cbn; lia |]. left. split; [done |]. exists [], rest. cbn. rewrite app_nil_r. by split; [| constructor]. }
  apply Forall2_cons_inv_r in Hds as (d & ds' & Hd & Hds & ->). apply Forall_cons in Hok as [Hr Hok]. apply Forall_cons in Hform as [Hf Hform].
  cbn [fmap list_fmap concat] in Hc. rewrite zlen_cons in Hrest. rewrite types_bytes_cons, zlen_app in Hlim. cbn [decls_cost foldr] in *. fold (decls_cost ds') in *.
  pose proof (zlen_nonneg rs) as Z1. pose proof (decls_cost_nonneg ds') as Z2. pose proof (decl_cost_nonneg d) as Z3. pose proof (zlen_nonneg (types_bytes false rs)) as Z4. pose proof (zlen_nonneg (r_extra r)) as Z5.
  set (sz := 12 + 4 * zlen (r_extra r)). pose proof (zlen_type_bytes false r) as Ez. fold sz in Ez. rewrite Ez in Hlim.
  assert (0 <= word_addr (length pre)) as Z6 by (unfold word_addr; pose proof (zlen_nonneg (types_bytes false ts)); lia).
  cbn [length]. rewrite copy_types_step. rewrite (type_size_spec _ _ (r_info r)).
  2: { replace (word_addr (length pre) + 4) with (word_addr (S (length pre))) by (unfold word_addr; lia). eapply copying_load; [exact Hc | apply info_word]. }
  rewrite (proj2 Hr). fold sz. cbn [mbind option_bind]. rewrite (proj2 (Z.ltb_ge sz 0)) by lia. rewrite u32_id by lia.
  destruct (store_off_ok os rest cap strs _ n c (word_addr (length pre)) _ Hc ltac:(lia) eq_refl) as (offs & -> & Hc1). cbn [mbind option_bind].
  destruct (visit_both_ok _ strs pre r _ n _ d Hc1 Hr Hd Hf ltac:(lia)) as (z & c2 & strs2 & ws2 & -> & Hc2 & Hp2 & Hz2 & H2). cbn [mbind option_bind].
  destruct H2 as [(-> & r' & -> & Hco) | [-> Hsh]].
  2: { exists (- ENOMEM), c2, strs2. split; [done |]. split; [done |]. split; [lia |]. right. split; [done |]. split; [done |]. by eexists _, _. }
  change (c_true 0) with false. cbv iota.
  assert (length (pre ++ r_words r') = (length pre + length (r_words r))%nat) as El by (rewrite length_app; by rewrite (co_len _ _ _ _ Hco)).
  assert (word_addr (length pre) + sz = word_addr (length (pre ++ r_words r'))) as Ea by (rewrite El; unfold word_addr, sz, r_words; rewrite length_app; unfold zlen; simpl length; lia).
  rewrite app_assoc in Hc2. destruct (IH ds' (pre ++ r_words r') (os ++ [word_addr (length pre)]) (drop 4 rest) cap strs2 n c2) as (z & c3 & strs3 & E3 & Hp3 & Hz3 & H3);
    [done | done | done | done | unfold zlen in *; rewrite length_drop; lia | lia | lia |].
  rewrite Ea. replace (4 * (zlen ts + zlen os) + 4) with (4 * (zlen ts + zlen (os ++ [word_addr (length pre)]))) by (rewrite zlen_app; change (zlen [word_addr (length pre)]) with 1; lia).
  exists z, c3, strs3. split; [exact E3 |]. split; [by etransitivity |]. split; [lia |]. destruct H3 as [(-> & rs' & rest' & Hc3 & HF) | H3]; [left | by right].
  split; [done |]. exists (r' :: rs'), rest'. cbn [fmap list_fmap concat offsets zip zip_with]. rewrite zlen_type_bytes. split.
  - rewrite (app_assoc pre). replace (word_addr (length pre) + (12 + 4 * zlen (r_extra r'))) with (word_addr (length (pre ++ r_words r'))); [by rewrite <- app_assoc in Hc3 |].
    rewrite length_app. unfold word_addr, r_words. rewrite length_app. unfold zlen. simpl length. lia.
  - constructor; [| exact HF]. destruct Hp3 as [l ->]. rewrite app_assoc. apply copy_of_app; [by eapply copying_terminated | done].
Qed.

End Loop.

(** *** Room for an object *)

(** The function is defined and ends with [Q]; only when memory is short it may be undefined. *)
Definition may {A} (m : act A) (b : btf) (Q : Z + A -> btf -> Prop) : Prop := match m b with Some (r, b') => Q r b' | None => copy_short e end.

Lemma may_runs {A} (m : act A) b Q : runs m b Q -> may m b Q.
Proof. intros (r & b' & E & H). unfold may. by rewrite E. Qed.

Lemma may_bind {A B} (m : act A) (f : A -> act B) b (Q : Z + B -> btf -> Prop) :
  may m b (fun r b' => match r with inl z => Q (inl z) b' | inr x => may (f x) b' Q end) -> may (bind m f) b Q.
Proof. unfold may, bind. destruct (m b) as [[[z | x] b'] |]; done. Qed.

Lemma may_mono {A} (m : act A) b (Q Q' : Z + A -> btf -> Prop) : may m b Q -> (forall r b', Q r b' -> Q' r b') -> may m b Q'.
Proof. unfold may. destruct (m b) as [[r b'] |]; auto. Qed.

(** Steps that leave the index and the pointer to the strings alone. *)
Lemma make_modifiable_null env b r b' : make_modifiable env b = Some (r, b') -> null_strs (own b) -> null_strs (own b').
Proof.
  unfold make_modifiable. destruct (btf_ensure_modifiable _ _ _) as [[err o] |] eqn:E; [| done]. cbn [mbind option_bind]. destruct (ensure_aside _ _ _ _ _ E) as [_ Hn].
  destruct (c_true err); intros [= _ <-]; by destruct b.
Qed.

Lemma type_mem_null env sz b r b' : type_mem env sz b = Some (r, b') -> null_strs (own b) -> null_strs (own b').
Proof. unfold type_mem. destruct (btf_add_type_mem _ _ _) as [[[p data] cap] |]; intros [= _ <-]; [by destruct b as [[] ?] | done]. Qed.

Lemma put_null p ws b r b' : put p ws b = Some (r, b') -> aside (own b') = aside (own b) /\ (null_strs (own b) -> null_strs (own b')).
Proof. unfold put, change_own. destruct (store_words _ _ _); [| done]. cbn [mbind option_bind]. intros [= _ <-]. by destruct b as [[] ?]. Qed.

(** A step with one more thing known of its result. *)
Lemma runs_and {A} (m : act A) b (Q : Z + A -> btf -> Prop) (P : btf -> Prop) : runs m b Q -> (forall r b', m b = Some (r, b') -> P b') -> runs m b (fun r b' => Q r b' /\ P b').
Proof. intros (r & b' & E & H) HP. exists r, b'. split; [done |]. split; [done | by eapply HP]. Qed.

(** Room for [cnt] offsets. *)
Lemma offs_mem_ok b ts strs ws n cnt : obj b ts0 strs0 ts strs -> fresh (own b) -> room (own b) ts ws n -> null_strs (own b) -> 0 < cnt -> zlen ts + cnt <= BTF_MAX_NR_TYPES ->
  runs (offs_mem (ce_own e) cnt) b (copy_ends b ts strs (fun p b' => p = 4 * zlen ts /\ later ts0 strs0 b ts strs b' ts strs /\ fresh (own b') /\ room (own b') ts ws n /\
    null_strs (own b') /\ exists rest cap, aside (own b') = more_offs ts [] rest cap /\ 4 * cnt <= zlen rest)).
Proof.
  intros Hobj Hf Hroom Hnull Hpos Hmax. pose proof (ob_own _ _ _ _ _ Hobj) as Ho. pose proof (own_ok_nr _ _ (os_own _ _ _ Ho)) as Hnr.
  destruct (ow_offs _ _ (os_own _ _ _ Ho)) as [_ Hc Hm [rest Hd] Hu]. assert (zlen (offsets ts 0) = zlen ts) as Eoff by (unfold zlen; by rewrite length_offsets).
  pose proof (zlen_nonneg rest) as Z0. pose proof (zlen_nonneg ts) as Z1. assert (zlen ts <= b_offs_cap (own b)) as Hle by (rewrite Hd, zlen_app, zlen_enc_words in Hc; lia).
  unfold runs, offs_mem, btf_add_type_offs_mem. rewrite Hnr. unfold BTF_MAX_NR_TYPES in *.
  pose proof (add_mem_spec (ae_realloc (ce_own e 0%nat)) (b_offs (own b)) (b_offs_cap (own b)) 4 (zlen ts) 0x7fffffff cnt) as HA.
  destruct (libbpf_add_mem _ _ _ _ _ _ _) as [[[p data] cap] |].
  2: { eexists _, _. split; [done |]. split; [done |]. split; [| exists strs; by apply later_refl]. left. exists 0%nat. destruct HA as [HA | HA]; [lia .. |]. eapply refused_short; [| exact HA]. lia. }
  destruct HA as (-> & Hl & Hcap & k & Ed); [lia .. |]. rewrite (proj2 (Z.eqb_neq cap 0)) by lia.
  assert (b {{ own := (own b) {{ b_offs := data; b_offs_cap := cap }} }} = {| own := (own b) {{ b_offs := data; b_offs_cap := cap }}; bases := bases b |}) as E by (by destruct b).
  eexists _, _. split; [rewrite E; reflexivity |]. clear E. split; [lia |].
  assert (own_state ((own b) {{ b_offs := data; b_offs_cap := cap }}) ts strs) as Ho'.
  { destruct Ho as [[H1 H2 _ H4 H5] Q1 Q2 Q3 Q4 Q5]. destruct (own b). cbn in *. unfold constant. split; cbn; try done. split; cbn; try done. split; cbn; [by rewrite Eoff | done | unfold BTF_MAX_NR_TYPES; lia | by rewrite Ed, Hd, <- app_assoc; eexists | done]. }
  split; [| split; [by destruct (own b) | split; [by destruct (own b) | split; [by destruct (own b) |]]]].
  - split; [by eapply obj_own; [| by destruct (own b) |] |]. split; [| done]. split; [by destruct (own b) | left; by destruct (own b)].
  - exists (rest ++ replicate k x00), cap. split; [unfold aside, more_offs; rewrite app_nil_r, app_assoc, <- Hd, <- Ed, <- Hnr; by destruct (own b) |].
    rewrite Ed, Hd, <- app_assoc, zlen_app, zlen_enc_words in Hl. lia.
Qed.

Lemma offsets_u32 rs : forall o, 0 <= o -> o + zlen (types_bytes false rs) < 2 ^ 32 -> Forall (fun w => is_u32 w) (offsets rs o).
Proof.
  induction rs as [| r rs IH]; intros o H0 H1; [constructor |]. rewrite types_bytes_cons, zlen_app in H1. pose proof (zlen_nonneg (types_bytes false rs)).
  pose proof (zlen_nonneg (type_bytes false r)). cbn [offsets]. constructor; [lia |]. apply IH; lia.
Qed.

(** *** The end of the copy *)

Lemma commit_copy_ok b0 ts sb strs rs rest cap n c sz cnt : copying strss ts0 strs0 b0 ts sb (more_offs ts (offsets rs (zlen (types_bytes false ts))) rest cap) strs (concat (r_words <$> rs)) n c ->
  Forall rtype_ok rs -> sz = zlen (types_bytes false rs) -> cnt = zlen rs -> zlen (types_bytes false ts) + sz <= UINT32_MAX -> zlen ts + cnt <= BTF_MAX_NR_TYPES ->
  exists o, commit_copy sz cnt (own (dst c)) = Some o /\ b_nr_types o = zlen ts + cnt /\ later ts0 strs0 b0 ts sb {| own := o; bases := bases (dst c) |} (ts ++ rs) strs.
Proof.
  intros [(Hobj & Hk & Hp) Hf Hr Hw Ha _ _ _] Hok -> -> Hl1 Hl2. unfold aside, more_offs in Ha. injection Ha as Ao Ac An. pose proof (ob_own _ _ _ _ _ Hobj) as Ho.
  eexists. split; [reflexivity |]. set (o := own (dst c)) in *. destruct (ow_offs _ _ (os_own _ _ _ Ho)) as [_ Hc Hm _ Hu]. unfold UINT32_MAX, BTF_MAX_NR_TYPES in *.
  pose proof (zlen_nonneg (types_bytes false ts)) as Z0. pose proof (zlen_nonneg ts) as Z1. pose proof (zlen_nonneg rs) as Z2.
  assert (forall rs o, zlen (offsets rs o) = zlen rs) as Eoff by (intros; unfold zlen; by rewrite length_offsets).
  pose proof (own_state_commit o ts strs rs _ (b_offs o) (b_offs_cap o) Ho ltac:(destruct Hr as [Em (r & Et & _)]; split; [done | exists r; split; [done | apply zlen_nonneg]]) Hok eq_refl ltac:(unfold UINT32_MAX; lia) ltac:(unfold BTF_MAX_NR_TYPES; lia)) as Hcm.
  set (o' := o {{ b_hdr := _; b_nr_types := _ }}).
  assert (own_state o' (ts ++ rs) strs) as Ho'.
  { assert (o' = o {{ b_offs := b_offs o; b_offs_cap := b_offs_cap o; b_hdr := grow_types (b_hdr o) (zlen (types_bytes false rs)); b_nr_types := u32 (b_nr_types o + zlen rs) }}) as -> by (unfold o'; by destruct o).
    apply Hcm. clear Hcm. clearbody o. destruct o. cbn in *. unfold constant. split; cbn; [rewrite zlen_app, !Eoff; lia | done | done | by eexists |]. apply Forall_app. split; [done | apply offsets_u32; lia]. }
  split; [transitivity (u32 (b_nr_types o + zlen rs)); [unfold o'; by destruct o | rewrite An, u32_id; lia] |].
  assert (shape o' = shape o) as Hs by (unfold o'; apply (shape_grow o (zlen (types_bytes false rs))); by destruct o).
  split_and!; [by eapply obj_own | | done]. destruct Hk as [Hk _], Hf as [Hf1 Hf2]. split; [change (shape o' = shape (own b0)); by rewrite Hs |]. left. unfold o'. cbn. clearbody o. by destruct o.
Qed.

Lemma undo_ok b0 ts sb strs a ws n c sz old o : copying strss ts0 strs0 b0 ts sb a strs ws n c -> null_strs (own b0) -> old = zlen sb -> 0 < sz ->
  undo_copy sz old (own (dst c)) = Some o -> later ts0 strs0 b0 ts sb {| own := o; bases := bases (dst c) |} ts sb.
Proof.
  intros [(Hobj & Hk & Hp) Hf [Em (rest & Et & _)] _ _ Hnull _ _] Hn -> Hsz. pose proof (ob_own _ _ _ _ _ Hobj) as Ho. unfold undo_copy.
  rewrite (ow_len _ _ (os_own _ _ _ Ho)), (os_len _ _ _ Ho), (Hnull Hn Em). destruct (zero_out (b_types _) _ _) as [types |] eqn:Ez; [| done]. cbn [mbind option_bind].
  destruct Hp as [l ->]. unfold zero_out at 1. destruct (Z.eqb_spec (zlen (sb ++ l) - zlen sb) 0) as [El | El].
  2: { rewrite (proj2 (store_None _ _ _)); [done |]. right. rewrite zlen_replicate. change (zlen (@nil byte)) with 0. pose proof (zlen_nonneg sb). pose proof (zlen_nonneg (sb ++ l)). rewrite zlen_app in *. pose proof (zlen_nonneg l). lia. }
  assert (l = []) as -> by (rewrite zlen_app in El; destruct l; [done | rewrite zlen_cons in El; pose proof (zlen_nonneg l); lia]). rewrite app_nil_r in *. cbn [mbind option_bind]. intros [= <-].
  unfold zero_out in Ez. rewrite (proj2 (Z.eqb_neq sz 0)) in Ez by lia. pose proof (zlen_store _ _ _ _ Ez) as Hz. destruct (own_types_cap _ _ _ Ho Em) as [C1 C2].
  assert (exists rest', types = types_bytes false ts ++ rest') as Hd.
  { unfold store in Ez. destruct (_ && _); [| done]. injection Ez as <-. eexists. rewrite Et. f_equal. unfold zlen. by rewrite Nat2Z.id, take_app_length. }
  pose proof (own_state_types _ _ _ types Ho Em ltac:(lia) Hd) as Ho1. set (o := own (dst c)) in *.
  assert (set_str_len (b_hdr o) (zlen sb) = b_hdr o) as Eh.
  { unfold set_str_len. pose proof (os_len _ _ _ Ho) as Hl. pose proof (os_max _ _ _ Ho) as Hm. unfold BTF_MAX_STR_OFFSET in Hm. pose proof (zlen_nonneg sb). rewrite u32_id, <- Hl by lia. by destruct (b_hdr o). }
  rewrite Eh. match goal with |- later _ _ _ _ _ {| own := ?x; bases := _ |} _ _ => assert (x = o {{ b_types := types; b_types_cap := zlen types }}) as -> end.
  { rewrite Hz, <- C1. pose proof (Hnull Hn Em) as Hs. clearbody o. destruct o. cbn in *. by subst. }
  split; [eapply obj_own; [exact Hobj | fold o; clearbody o; by destruct o | done] |]. split; [| done]. eapply keeps_trans; [exact Hk |].
  split; [clearbody o; by destruct o | right; clearbody o; by destruct o].
Qed.

(** *** The whole call *)

Lemma may_step {A B} (m : act A) (f : A -> act B) b ts strs P (Q : B -> btf -> Prop) : runs m b (copy_ends b ts strs P) ->
  (forall x b', P x b' -> may (f x) b' (copy_ends b ts strs Q)) -> may (bind m f) b (copy_ends b ts strs Q).
Proof. intros Hm Hf. apply may_bind, may_runs. eapply runs_mono; [exact Hm |]. intros [z | x] b' H; [exact H | by apply Hf]. Qed.

Lemma may_later {A} (m : act A) b ts strs b1 strs1 (P : A -> btf -> Prop) : later ts0 strs0 b ts strs b1 ts strs1 ->
  may m b1 (copy_ends b1 ts strs1 P) -> may m b1 (copy_ends b ts strs P).
Proof.
  intros HL Hm. eapply may_mono; [exact Hm |]. intros [z | x] b' H; [| exact H]. destruct H as (-> & Hs & strs' & HL'). split_and!; try done.
  exists strs'. by eapply later_trans.
Qed.

Lemma no_map_ok strs : map_ok strss strs (Some hashmap__init).
Proof. split_and!; [done | constructor | intros x Hx; by apply elem_of_nil in Hx]. Qed.

(** The object has copies of all types of the source. *)
Definition copied_all (b : btf) (ts : list rtype) (strs : list byte) (dss : list decl) (id : Z) (b' : btf) : Prop :=
  id = zlen ts0 + zlen ts + 1 /\ exists strs' rs', later ts0 strs0 b ts strs b' (ts ++ rs') strs' /\
    Forall2 (fun '(d, r) r' => copy_of (strs0 ++ strs') d r r') (zip (map_ids (shift_id (zlen ts0 + zlen ts)) <$> dss) tss) rs'.

(** What is done when the words have been copied. *)
Definition rewrite_all (data_sz cnt old t off : Z) : act Z :=
  err <- (fun b => '(err, c) ← copy_types e src (Z.to_nat cnt) t off {| dst := b; str_off_map := Some hashmap__init |}; Some (inr err, dst c)) ;;
  if c_true err then change_own (undo_copy data_sz old) ;; leave err else
  change_own (commit_copy data_sz cnt) ;;
  id <- ask (fun b => Some (s32 (b_start_id (own b) + b_nr_types (own b) - cnt))) ;;
  ret id.

Lemma copies_ok strs ds rs rs' : Forall2 (fun '(d, r) r' => copy_of strs d r r') (zip ds rs) rs' -> length ds = length rs -> Forall rtype_ok rs' /\ Forall2 (decl_is strs) ds rs' /\ length rs' = length rs.
Proof.
  revert rs rs'. induction ds as [| d ds IH]; intros [| r rs] rs' H Hl; try done; [apply Forall2_nil_inv_l in H as ->; by split_and!; constructor |].
  cbn in H. apply Forall2_cons_inv_l in H as (r' & rs1 & H1 & H2 & ->). destruct (IH rs rs1 H2) as (I1 & I2 & I3); [by injection Hl |].
  destruct H1. split_and!; [by constructor | by constructor | cbn; lia].
Qed.

Lemma rewrite_all_ok b ts strs dss n rest cap sz cnt : obj b ts0 strs0 ts strs -> fresh (own b) -> room (own b) ts (concat (r_words <$> tss)) n -> null_strs (own b) ->
  aside (own b) = more_offs ts [] rest cap -> 4 * zlen tss <= zlen rest -> Forall rtype_ok tss -> Forall2 (decl_is strss) dss tss -> Forall decl_form dss ->
  string_at (strs0 ++ strs) 0 = Some [] -> sz = zlen (types_bytes false tss) -> cnt = zlen tss -> 0 < sz ->
  zlen strs0 + zlen strs + decls_cost dss <= BTF_MAX_STR_OFFSET -> zlen (types_bytes false ts) + sz <= UINT32_MAX -> 1 + zlen ts0 + zlen ts + cnt <= BTF_MAX_NR_TYPES ->
  may (rewrite_all sz cnt (zlen strs) (zlen (types_bytes false ts)) (4 * zlen ts)) b (copy_ends b ts strs (copied_all b ts strs dss)).
Proof.
  intros Hobj Hf Hroom Hnull Ha Hrest Hok Hds Hform H0 Esz Ecnt Hsz Hl1 Hl2 Hl3. pose proof (zlen_nonneg ts0) as Z0. pose proof (zlen_nonneg ts) as Z1. pose proof (zlen_nonneg tss) as Z2.
  assert (Forall (fun w => is_u32 w) (concat (r_words <$> tss))) as Hu.
  { clear - Hok. induction Hok as [| r rs Hr _ IH]; [constructor |]. cbn [fmap list_fmap concat]. apply Forall_app. split; [apply Hr | exact IH]. }
  pose proof (copying_start b ts strs _ n (Some hashmap__init) Hobj Hf Hroom Hu H0 (no_map_ok _)) as Hc. rewrite Ha in Hc.
  destruct (copy_types_ok b ts strs tss dss [] [] rest cap strs n _ Hc Hok Hds Hform Hrest) as (z & c & strs' & E & Hp & Hz & Hres);
    [unfold word_addr; cbn [length]; unfold UINT32_MAX in Hl2; lia | done |].
  unfold word_addr in E. cbn [length] in E. change (4 * Z.of_nat 0) with 0 in E. change (zlen (@nil Z)) with 0 in E. rewrite !Z.add_0_r in E.
  unfold rewrite_all. apply may_bind. unfold may at 1. rewrite Ecnt. unfold zlen at 1. rewrite Nat2Z.id, E. cbn [mbind option_bind]. destruct Hres as [(-> & rs' & rest' & Hc' & Hco) | (-> & Hsh & a' & ws' & Hc')].
  - change (c_true 0) with false. cbv iota. destruct (copies_ok _ _ _ _ Hco) as (Hok' & _ & Hlen); [rewrite length_fmap; by eapply Forall2_length |].
    pose proof (copies_bytes _ _ _ _ Hco) as Eb. rewrite length_fmap in Eb. specialize (Eb (Forall2_length _ _ _ Hds)).
    unfold word_addr in Hc'. cbn [length app] in Hc'. change (4 * Z.of_nat 0) with 0 in Hc'. rewrite Z.add_0_r in Hc'. assert (zlen rs' = zlen tss) as Ers by (unfold zlen; lia).
    destruct (commit_copy_ok b ts strs strs' rs' rest' cap n c sz (zlen tss) Hc' Hok' ltac:(congruence) ltac:(done) Hl2 ltac:(lia)) as (o & Eo & Enr & HL).
    unfold may, bind, change_own. rewrite Eo. cbn [mbind option_bind]. change ((dst c) {{ own := o }}) with {| own := o; bases := bases (dst c) |}. unfold ask, ret. cbn [own mbind option_bind].
    pose proof (ob_start _ _ _ _ _ (proj1 HL)) as Est. cbn [own] in Est. rewrite Est, Enr. unfold BTF_MAX_NR_TYPES in Hl3. rewrite s32_id by lia.
    split; [lia |]. by exists strs', rs'.
  - change (c_true (- ENOMEM)) with true. cbv iota. unfold may, bind, change_own. destruct (undo_copy sz (zlen strs) (own (dst c))) as [o |] eqn:Eo; cbn [mbind option_bind]; [| done].
    change ((dst c) {{ own := o }}) with {| own := o; bases := bases (dst c) |}. split; [done |]. split; [done |]. exists strs. by eapply undo_ok.
Qed.

(** The words are copied. *)
Lemma store_all_ok b ts strs sz rest cap : obj b ts0 strs0 ts strs -> fresh (own b) -> room (own b) ts [] sz -> null_strs (own b) -> aside (own b) = more_offs ts [] rest cap ->
  4 * zlen (concat (r_words <$> tss)) = sz ->
  runs (change_own (fun o => m ← store (b_types o) (zlen (types_bytes false ts)) (enc_words (concat (r_words <$> tss))); Some (o {{ b_types := m }}))) b
    (copy_ends b ts strs (fun _ b' => later ts0 strs0 b ts strs b' ts strs /\ fresh (own b') /\ room (own b') ts (concat (r_words <$> tss)) 0 /\ null_strs (own b') /\
      aside (own b') = more_offs ts [] rest cap)).
Proof.
  intros Hobj Hf Hr Hn Ha Ew. set (ws := concat _) in *.
  destruct (put_ok (ce_own e) ts0 strs0 0 b ts strs [] sz (zlen (types_bytes false ts)) ws Hobj Hf Hr) as (x & b' & E & H); [change (zlen (@nil Z)) with 0; lia | lia |].
  destruct (put_null _ _ _ _ _ E) as [Ha' Hn']. exists x, b'. rewrite (store_put b ts [] sz _ ws Hr); [| change (zlen (@nil Z)) with 0; lia | lia]. split; [done |].
  destruct x as [z | []]; [destruct H as (-> & Hs & strs' & HL & _); split; [done |]; split; [by left | by exists strs'] |].
  destruct H as (L & F & R). cbn [app] in R. rewrite Ew, Z.sub_diag in R. split_and!; [done .. | by apply Hn' | by rewrite Ha'].
Qed.

Lemma add_btf_run b ts strs dss : obj b ts0 strs0 ts strs -> null_strs (own b) -> bases src = [] -> Forall rtype_ok tss -> Forall2 (decl_is strss) dss tss -> Forall decl_form dss ->
  string_at (strs0 ++ strs) 0 = Some [] -> tss <> [] -> zlen (types_bytes false tss) < 2 ^ 31 ->
  zlen strs0 + zlen strs + decls_cost dss <= BTF_MAX_STR_OFFSET -> zlen (types_bytes false ts) + zlen (types_bytes false tss) <= UINT32_MAX ->
  1 + zlen ts0 + zlen ts + zlen tss <= BTF_MAX_NR_TYPES ->
  may (btf__add_btf e src) b (copy_ends b ts strs (copied_all b ts strs dss)).
Proof.
  intros Hobj Hnull Hbase Hok Hds Hform H0 Hne Hsmall Hl1 Hl2 Hl3. set (sz := zlen (types_bytes false tss)) in *.
  assert (0 < sz) as Hsz. { unfold sz. destruct tss as [| r rs]; [done |]. rewrite types_bytes_cons, zlen_app, zlen_type_bytes. pose proof (zlen_nonneg (r_extra r)). pose proof (zlen_nonneg (types_bytes false rs)). lia. }
  assert (0 < zlen tss) as Hpos by (destruct tss; [done | rewrite zlen_cons; pose proof (zlen_nonneg l); lia]).
  pose proof (zlen_nonneg ts0) as Z0. pose proof (zlen_nonneg ts) as Z1. pose proof (ob_own _ _ _ _ _ Hsrc) as Hos.
  assert (s32 (type_len (b_hdr (own src))) = sz) as Esz by (rewrite (ow_len _ _ (os_own _ _ _ Hos)); apply s32_id; lia).
  assert (s32 (btf__type_cnt src - 1) = zlen tss) as Ecnt.
  { unfold btf__type_cnt, BTF_MAX_NR_TYPES in *. rewrite (ob_start _ _ _ _ _ Hsrc), (own_ok_nr _ _ (os_own _ _ _ Hos)). change (zlen []) with 0. rewrite u32_id, s32_id; lia. }
  unfold btf__add_btf. rewrite Hbase, Esz, Ecnt. unfold BTF_MAX_NR_TYPES in Hl3. rewrite !u64_id by lia. cbn [has_base negb]. apply may_bind, may_runs, runs_ret.
  apply may_bind, may_runs. eapply runs_mono; [eapply (runs_and _ _ _ (fun b' => null_strs (own b'))); [apply (make_modifiable_ok (ce_own e) (ceo_own _ He)), Hobj | intros r b' E; by eapply make_modifiable_null] |].
  intros [z | []] b1 ((O1 & K1 & H1) & N1).
  { destruct H1 as [-> Hs]. split; [done |]. split; [by left |]. exists strs. by split_and!. }
  destruct H1 as (M1 & F1a & F1b). assert (later ts0 strs0 b ts strs b1 ts strs) as L1 by (by split_and!). apply may_later with (1 := L1).
  apply may_bind, may_runs. eapply runs_ask; [reflexivity |]. cbv beta iota. rewrite (os_len _ _ _ (ob_own _ _ _ _ _ O1)).
  apply may_bind, may_runs. eapply runs_mono; [eapply (runs_and _ _ _ (fun b' => null_strs (own b'))); [apply (type_mem_ok (ce_own e) ts0 strs0 b1 ts strs sz); done | intros r b' E; by eapply type_mem_null] |].
  intros [z | t] b2 ((O2 & K2 & F2 & H2) & N2).
  { destruct H2 as [-> Hs]. split; [done |]. split; [by left |]. exists strs. by split_and!. }
  destruct H2 as (-> & R2). assert (later ts0 strs0 b1 ts strs b2 ts strs) as L2 by (by split_and!). apply may_later with (1 := L2).
  eapply may_step; [apply (offs_mem_ok b2 ts strs [] sz (zlen tss)); [done | done | done | done | done | unfold BTF_MAX_NR_TYPES; lia] |].
  intros off b3 (-> & L3 & F3 & R3 & N3 & rest & cap & A3 & Hrest). apply may_later with (1 := L3).
  unfold hashmap__new. destruct (ce_map e) eqn:Emap.
  2: { apply may_bind, may_runs, runs_leave. split; [done |]. split; [right; by left |]. exists strs. apply later_refl, L3. }
  apply may_bind, may_runs, runs_ret. apply may_bind, may_runs.
  assert (4 * zlen (concat (r_words <$> tss)) = sz) as Ew by (unfold sz; by rewrite types_bytes_words, zlen_enc_words).
  eapply runs_ask.
  { destruct (ow_types _ _ (os_own _ _ _ Hos)) as [srest ->]. rewrite types_bytes_words. by apply (bytes_of_words [] _ srest). }
  cbv beta iota. eapply may_step; [apply (store_all_ok b3 ts strs sz rest cap); [apply L3 | done ..] |].
  intros [] b4 (L4 & F4 & R4 & N4 & A4). apply may_later with (1 := L4).
  eapply may_mono; [apply (rewrite_all_ok b4 ts strs dss 0 rest cap sz (zlen tss)); try done; apply L4 |].
  intros [z | id] b5 H5; [exact H5 |]. destruct H5 as (-> & strs5 & rs5 & L5 & Hco). split; [done |]. exists strs5, rs5. split; [| done].
  eapply later_trans; [exact L1 |]. eapply later_trans; [exact L2 |]. eapply later_trans; [exact L3 |]. by eapply later_trans.
Qed.

End Run.

(** ** Copies as declarations *)

Lemma grown b ds b' ts0 strs0 ts strs rs strs' new : obj b ts0 strs0 ts strs -> Forall2 (decl_is (strs0 ++ strs)) ds ts -> string_at (strs0 ++ strs) 0 = Some [] ->
  later ts0 strs0 b ts strs b' (ts ++ rs) strs' -> Forall2 (decl_is (strs0 ++ strs')) new rs -> zlen ts0 + zlen (ts ++ rs) <= BTF_MAX_NR_TYPES ->
  built b' (ds ++ new) /\ forall i d, (ds ++ new) !! i = Some d -> shows b' (b_start_id (own b) + Z.of_nat i) d.
Proof.
  intros Hobj Hds H0 (O' & _ & l & ->) Hnew Hmax. destruct (obj_terminated _ _ _ _ _ Hobj) as [T0 T1]. pose proof (terminated_app _ _ T0 T1) as Ht. rewrite app_assoc in Hnew.
  assert (Forall2 (decl_is (strs0 ++ strs ++ l)) (ds ++ new) (ts ++ rs)) as Hall.
  { rewrite app_assoc. apply Forall2_app; [| done]. eapply decls_later; [done | | done]. by eexists. }
  split.
  - exists ts0, strs0, (ts ++ rs), (strs ++ l). split_and!; [done | done |]. rewrite app_assoc. by apply string_at_app.
  - intros i d Hi. rewrite (ob_start _ _ _ _ _ Hobj). by eapply obj_shows.
Qed.

Lemma still_built b ds b' ts0 strs0 ts strs strs' : obj b ts0 strs0 ts strs -> Forall2 (decl_is (strs0 ++ strs)) ds ts -> string_at (strs0 ++ strs) 0 = Some [] ->
  later ts0 strs0 b ts strs b' ts strs' -> built b' ds.
Proof.
  intros Hobj Hds H0 HL. pose proof (own_count _ _ (os_own _ _ _ (ob_own _ _ _ _ _ (proj1 HL)))) as Hn. destruct HL as (O' & _ & l & ->).
  destruct (obj_terminated _ _ _ _ _ Hobj) as [T0 T1]. pose proof (terminated_app _ _ T0 T1) as Ht.
  exists ts0, strs0, ts, (strs ++ l). split_and!; [done | | rewrite app_assoc; by apply string_at_app]. eapply decls_later; [done | | done]. rewrite app_assoc. by eexists.
Qed.

(** C26: [btf__add_type] copies a declaration.  For any object and any type
    of another one (not split), found by its id, the call is defined and returns the next id; afterwards the object
    shows its old declarations and the copied one, with the same kind, numbers, ids and names,
    whose strings are in the object now.  If memory is short the call may return -ENOMEM
    instead, with the declarations unchanged. *)
Theorem btf_add_type_copies e src dss (i : nat) d m t b ds : copy_env_ok e -> stands_for src dss -> dss !! i = Some d ->
  btf__type_by_id src (1 + Z.of_nat i) = Some (Some (TAt m t)) -> built b ds -> copy_fits b (decl_cost d) (decl_bytes d) 1 ->
  exists z b', call (btf__add_type e src m t) b = Some (z, b') /\
    ((z = btf__type_cnt b /\ built b' (ds ++ [d]) /\ forall j d', (ds ++ [d]) !! j = Some d' -> shows b' (b_start_id (own b) + Z.of_nat j) d') \/
     (z = - ENOMEM /\ copy_short e /\ built b' ds)).
Proof.
  intros He Hst Hi Ht (ts0 & strs0 & ts & strs & Hobj & Hds & H0) Hfit. destruct (stands_obj _ _ Hst) as (tss & strss & Hsrc & Hdss & Hs0 & Hok & Hn).
  destruct (copy_fits_obj _ _ _ _ _ _ _ _ Hobj Hfit) as (F1 & F2 & F3). destruct (Forall2_lookup_l _ _ _ _ _ Hdss Hi) as (r & Hr & Hd).
  destruct (src_type _ _ _ _ _ Hsrc Hn Hr) as (pre & post & E). rewrite E in Ht. assert (m = pre ++ enc_words (r_words r) ++ post /\ t = zlen pre) as [-> ->] by (split; congruence).
  pose proof (Forall_lookup_1 _ _ _ _ Hok Hr) as Hrok. pose proof (Forall_lookup_1 _ _ _ _ (st_form _ _ Hst) Hi) as Hform. pose proof (zlen_nonneg ts0). pose proof (zlen_nonneg ts).
  destruct (add_type_run e He src tss strss Hsrc Hn Hs0 ts0 strs0 b ts strs r d pre post) as (x & b' & Er & Hres); try done; [lia |].
  unfold call. rewrite Er. destruct x as [z | z]; eexists _, _; (split; [reflexivity |]).
  - right. destruct Hres as (-> & Hsh & strs' & HL). split_and!; try done. eapply still_built; [exact Hobj | exact Hds | exact H0 | exact HL].
  - left. destruct Hres as (-> & strs' & r' & HL & Hco). split.
    + unfold btf__type_cnt. rewrite (ob_start _ _ _ _ _ Hobj), (own_ok_nr _ _ (os_own _ _ _ (ob_own _ _ _ _ _ Hobj))). unfold BTF_MAX_NR_TYPES in F3. rewrite u32_id; lia.
    + eapply grown; [exact Hobj | exact Hds | exact H0 | exact HL | repeat constructor; apply Hco | rewrite zlen_app; change (zlen [r']) with 1; lia].
Qed.

(** C11: [btf__add_btf] copies an object.  For any object with declarations [ds]
    (if it has been changed before, its pointer to strings is NULL, as the code leaves it) and any source with declarations
    [dss], not split and not empty, within the limits of the format, the call returns the id of the first copy, and
    afterwards the object shows [ds] and behind them every declaration of the source, with the same names, each
    id replaced by that of the copy it refers to (0, for void, stays). If memory is short the call
    may instead return -ENOMEM with the declarations unchanged, or have no defined result. *)
Theorem btf_add_btf_copies e src dss b ds : copy_env_ok e -> stands_for src dss -> dss <> [] -> built b ds -> null_strs (own b) ->
  type_len (b_hdr (own src)) < 2 ^ 31 -> copy_fits b (decls_cost dss) (type_len (b_hdr (own src))) (zlen dss) ->
  let n := b_start_id (own b) - 1 + zlen ds in
  let all := ds ++ (map_ids (shift_id n) <$> dss) in
  match call (btf__add_btf e src) b with
  | Some (z, b') => (z = n + 1 /\ built b' all /\ forall i d, all !! i = Some d -> shows b' (b_start_id (own b) + Z.of_nat i) d) \/
                    (z = - ENOMEM /\ copy_short e /\ built b' ds)
  | None => copy_short e
  end.
Proof.
  intros He Hst Hne (ts0 & strs0 & ts & strs & Hobj & Hds & H0) Hnull Hsmall Hfit n all. destruct (stands_obj _ _ Hst) as (tss & strss & Hsrc & Hdss & Hs0 & Hok & Hn).
  destruct (copy_fits_obj _ _ _ _ _ _ _ _ Hobj Hfit) as (F1 & F2 & F3). rewrite (ow_len _ _ (os_own _ _ _ (ob_own _ _ _ _ _ Hsrc))) in *.
  pose proof (Forall2_length _ _ _ Hdss) as Hlen. assert (zlen dss = zlen tss) as El by (unfold zlen; lia). assert (zlen ds = zlen ts) as Eds by (unfold zlen; by rewrite (Forall2_length _ _ _ Hds)).
  assert (n = zlen ts0 + zlen ts) as En by (unfold n; rewrite (ob_start _ _ _ _ _ Hobj), Eds; lia).
  assert (may e (btf__add_btf e src) b (copy_ends e ts0 strs0 b ts strs (copied_all tss ts0 strs0 b ts strs dss))) as Hrun.
  { apply (add_btf_run e He src tss strss); try done; [apply (st_alone _ _ Hst) | apply (st_form _ _ Hst) | | lia]. intros ->. by destruct dss. }
  unfold may in Hrun. unfold call. destruct (btf__add_btf e src b) as [[[z | z] b'] |]; [| | done].
  - right. destruct Hrun as (-> & Hsh & strs' & HL). split_and!; try done. eapply still_built; [exact Hobj | exact Hds | exact H0 | exact HL].
  - left. destruct Hrun as (-> & strs' & rs' & HL & Hco). split; [lia |]. destruct (copies_ok _ _ _ _ Hco) as (_ & Hd' & Hl'); [by rewrite length_fmap |].
    unfold all. rewrite En. eapply grown; [exact Hobj | exact Hds | exact H0 | exact HL | done | rewrite zlen_app; unfold zlen in *; lia].
Qed.

(** ** An example: the declarations of BtfRun.v are copied *)

Fixpoint spec_run (n0 : Z) (cs : calls) (ds : list decl) : list decl :=
  match cs with [] => ds | (_, op) :: cs => spec_run n0 cs (snd (spec_op op n0 ds)) end.

Lemma spec_calls_run n0 cs ds zs ds' : spec_calls n0 cs ds zs ds' -> Forall (fun c => ~ short (fst c)) cs -> ds' = spec_run n0 cs ds.
Proof.
  induction 1 as [| env op cs ds z ds1 zs ds2 E _ IH | env op cs ds zs ds2 Hs _ _]; intros HF; [done | |].
  - apply Forall_cons in HF as [_ HF]. cbn. rewrite E. by apply IH.
  - apply Forall_cons in HF as [HF _]. done.
Qed.

Lemma ample_not_short : ~ short ample.
Proof.
  intros [d H]. unfold env_short, ample in H. cbn in H.
  repeat (destruct H as [H | H]; [try done; destruct H as (? & ? & ?) || destruct H as (? & ?); try done; lia |]). destruct H as (n & Hn & H). done.
Qed.

Definition sample : btf := match run_calls sample_calls empty_btf with Some (_, b) => b | None => empty_btf end.
Definition sample_decls : list decl := spec_run 0 sample_calls [].

Lemma sample_stands : stands_for sample sample_decls.
Proof.
  destruct (run_built empty_btf [] sample_calls empty_built sample_calls_proper sample_calls_fit (few_calls _ sample_calls eq_refl)) as (zs & b & ds & E & Hc & Hb & _).
  assert (sample = b) as -> by (unfold sample; by rewrite E).
  assert (ds = sample_decls) as -> by (apply (spec_calls_run _ _ _ _ _ Hc); repeat (constructor; [exact ample_not_short |]); constructor).
  split; [| done | apply (spec_calls_form _ _ _ _ _ Hc); constructor].
  assert (bases sample = []) as Eb by (vm_compute; reflexivity). unfold sample in Eb. by rewrite E in Eb.
Qed.

Definition ample_copy : copy_env :=
  {| ce_own := ample; ce_map := true; ce_str := fun _ => ample; ce_entry := fun _ => true; ce_calloc := fun _ n => n <? 2 ^ 61 |}.

Lemma ample_copy_ok : copy_env_ok ample_copy.
Proof. split; [intros d n Hn; cbn; lia | intros p d n Hn; cbn; lia | intros p n Hn; cbn; lia]. Qed.

Definition point : decl :=
  {| d_kind := KStruct; d_flag := false; d_vlen := 2; d_name := str "point"; d_size := 8;
     d_rows := [[WStr (str "x"); WNum 1; WNum 0]; [WStr (str "y"); WNum 1; WNum 32]] |}.

Lemma btf_add_type_copies_witness : exists z b', call (btf__add_type ample_copy sample (b_types (own sample)) 16) empty_btf = Some (z, b') /\
  ((z = btf__type_cnt empty_btf /\ built b' ([] ++ [point]) /\ forall j d', ([] ++ [point]) !! j = Some d' -> shows b' (b_start_id (own empty_btf) + Z.of_nat j) d') \/
   (z = - ENOMEM /\ copy_short ample_copy /\ built b' [])).
Proof.
  apply (btf_add_type_copies ample_copy sample sample_decls 1 point (b_types (own sample)) 16 empty_btf []);
    [apply ample_copy_ok | apply sample_stands | vm_compute; reflexivity | vm_compute; reflexivity | apply empty_built | split; vm_compute; discriminate].
Defined.

Lemma btf_add_btf_copies_witness : match call (btf__add_btf ample_copy sample) sample with
  | Some (z, b') =>
    (z = 6 + 1 /\ built b' (sample_decls ++ (map_ids (shift_id 6) <$> sample_decls)) /\
     forall i d, (sample_decls ++ (map_ids (shift_id 6) <$> sample_decls)) !! i = Some d -> shows b' (1 + Z.of_nat i) d) \/
    (z = - ENOMEM /\ copy_short ample_copy /\ built b' sample_decls)
  | None => copy_short ample_copy
  end.
Proof.
  apply (btf_add_btf_copies ample_copy sample sample_decls sample sample_decls);
    [apply ample_copy_ok | apply sample_stands | vm_compute; discriminate | apply (st_built _ _ sample_stands) | intros _; vm_compute; reflexivity | vm_compute; reflexivity |
     split; vm_compute; discriminate].
Defined.

(** The first field of the copied struct refers to the copy of the number. *)
Lemma copied_point : (sample_decls ++ (map_ids (shift_id 6) <$> sample_decls)) !! 7%nat =
  Some {| d_kind := KStruct; d_flag := false; d_vlen := 2; d_name := str "point"; d_size := 8;
          d_rows := [[WStr (str "x"); WNum 7; WNum 0]; [WStr (str "y"); WNum 7; WNum 32]] |}.
Proof. vm_compute. reflexivity. Qed.

(** An object without types is not copied to another one: there is memory, but the array of offsets is NULL. *)
Lemma empty_copy_fails : exists b, call (btf__add_btf ample_copy empty_btf) empty_btf = Some (- ENOMEM, b).
Proof. eexists. vm_compute. reflexivity. Qed.

(** No memory for the second entry of the map: the strings that have been added
    are to be zeroed, but the pointer to them is NULL. *)
Lemma failed_copy_undefined : call (btf__add_btf (ample_copy {{ ce_entry := fun p => negb (p =? 16) }}) sample) empty_btf = None.
Proof. vm_compute. reflexivity. Qed.

(** The same object as target when its strings are there already: the error is returned. *)
Lemma failed_copy_returns : exists b, call (btf__add_btf (ample_copy {{ ce_entry := fun p => negb (p =? 16 + 116) }}) sample) sample = Some (- ENOMEM, b).
Proof. eexists. vm_compute. reflexivity. Qed.

Lemma split_copy_refused e src b : bases src <> [] -> call (btf__add_btf e src) b = Some (- ENOTSUP, b).
Proof. intros H. unfold call, btf__add_btf, bind. by destruct (bases src). Qed.
