(* ===== verification/XskRing.v ===== *)
(** The rings of AF_XDP sockets, src/lib/xdp-tools/headers/xdp/xsk.h: the
    producer and the consumer side of a ring that user space shares with the
    kernel, and the addresses of a umem.

    The two indices and the entries are memory the kernel also uses; a ring has
    cached copies of the indices.  All of them are 32-bit and run freely, so
    they wrap around; an entry's place is its index modulo the size.  An entry
    is 8 bytes (an address, in the fill and completion rings) or 16 (a descriptor,
    in the transmit and receive rings).  The kernel is a step of its own that
    may come between any two operations: it takes the submitted entries in
    order from a ring user space fills, and appends entries to one user space
    empties as long as there is room. *)
From S2P Require Import Prelude.

(** ** Data *)

(** [DEFINE_XSK_RING]; the last four are addresses. *)
Record xsk_ring := {
  xr_cached_prod : Z;
  xr_cached_cons : Z;
  xr_mask : Z;
  xr_size : Z;
  xr_producer : Z;
  xr_consumer : Z;
  xr_ring : Z;
  xr_flags : Z
}.

Definition set_cached_prod (r : xsk_ring) (v : Z) : xsk_ring :=
  {| xr_cached_prod := v; xr_cached_cons := xr_cached_cons r; xr_mask := xr_mask r; xr_size := xr_size r;
     xr_producer := xr_producer r; xr_consumer := xr_consumer r; xr_ring := xr_ring r; xr_flags := xr_flags r |}.

Definition set_cached_cons (r : xsk_ring) (v : Z) : xsk_ring :=
  {| xr_cached_prod := xr_cached_prod r; xr_cached_cons := v; xr_mask := xr_mask r; xr_size := xr_size r;
     xr_producer := xr_producer r; xr_consumer := xr_consumer r; xr_ring := xr_ring r; xr_flags := xr_flags r |}.

(** What the addresses of a ring point to. *)
Record ring_mem := { rm_producer : Z; rm_consumer : Z; rm_flags : Z; rm_ring : list byte }.

(** [struct xdp_desc] *)
Record xdp_desc := { d_addr : Z; d_len : Z; d_options : Z }.

Definition desc_bytes (d : xdp_desc) : list byte :=
  le_split 8 (d_addr d) ++ le_split 4 (d_len d) ++ le_split 4 (d_options d).

Definition SIZEOF_U64 : Z := 8.
Definition SIZEOF_XDP_DESC : Z := 16.

(** ** Entries: offsets from the address [ring] *)

Definition xsk_ring_prod__fill_addr (fill : xsk_ring) (idx : Z) : Z := SIZEOF_U64 * Z.land idx (xr_mask fill).
Definition xsk_ring_cons__comp_addr (comp : xsk_ring) (idx : Z) : Z := SIZEOF_U64 * Z.land idx (xr_mask comp).
Definition xsk_ring_prod__tx_desc (tx : xsk_ring) (idx : Z) : Z := SIZEOF_XDP_DESC * Z.land idx (xr_mask tx).
Definition xsk_ring_cons__rx_desc (rx : xsk_ring) (idx : Z) : Z := SIZEOF_XDP_DESC * Z.land idx (xr_mask rx).

Definition XDP_RING_NEED_WAKEUP : Z := 1.

Definition xsk_ring_prod__needs_wakeup (m : ring_mem) : Z := Z.land (rm_flags m) XDP_RING_NEED_WAKEUP.

(** ** Producer *)

Definition xsk_prod_nb_free (r : xsk_ring) (m : ring_mem) (nb : Z) : Z * xsk_ring :=
  let free_entries := u32 (xr_cached_cons r - xr_cached_prod r) in
  if nb <=? free_entries then (free_entries, r) else
  let r := set_cached_cons r (rm_consumer m) in
  let r := set_cached_cons r (u32 (xr_cached_cons r + xr_size r)) in
  (u32 (xr_cached_cons r - xr_cached_prod r), r).

(** The result, and the value of [*idx] if it was set. *)
Definition xsk_ring_prod__reserve (prod : xsk_ring) (m : ring_mem) (nb : Z) : Z * option Z * xsk_ring :=
  let '(free, prod) := xsk_prod_nb_free prod m nb in
  if free <? nb then (0, None, prod) else
  (nb, Some (xr_cached_prod prod), set_cached_prod prod (u32 (xr_cached_prod prod + nb))).

Definition xsk_ring_prod__submit (m : ring_mem) (nb : Z) : ring_mem :=
  {| rm_producer := u32 (rm_producer m + nb); rm_consumer := rm_consumer m; rm_flags := rm_flags m;
     rm_ring := rm_ring m |}.

(** ** Consumer *)

Definition xsk_cons_nb_avail (r : xsk_ring) (m : ring_mem) (nb : Z) : Z * xsk_ring :=
  let entries := u32 (xr_cached_prod r - xr_cached_cons r) in
  let '(entries, r) :=
    if entries =? 0 then
      let r := set_cached_prod r (rm_producer m) in
      (u32 (xr_cached_prod r - xr_cached_cons r), r)
    else (entries, r) in
  (if nb <? entries then nb else entries, r).

Definition xsk_ring_cons__peek (cons : xsk_ring) (m : ring_mem) (nb : Z) : Z * option Z * xsk_ring :=
  let '(entries, r) := xsk_cons_nb_avail cons m nb in
  if 0 <? entries
  then (entries, Some (xr_cached_cons r), set_cached_cons r (u32 (xr_cached_cons r + entries)))
  else (entries, None, r).

Definition xsk_ring_cons__cancel (cons : xsk_ring) (nb : Z) : xsk_ring :=
  set_cached_cons cons (u32 (xr_cached_cons cons - nb)).

Definition xsk_ring_cons__release (m : ring_mem) (nb : Z) : ring_mem :=
  {| rm_producer := rm_producer m; rm_consumer := u32 (rm_consumer m + nb); rm_flags := rm_flags m;
     rm_ring := rm_ring m |}.

(** ** Addresses of a umem

    In the unaligned mode the upper 16 bits of an address are an offset to be
    added to the lower 48. *)

Definition XSK_UNALIGNED_BUF_OFFSET_SHIFT : Z := 48.
Definition XSK_UNALIGNED_BUF_ADDR_MASK : Z := 2 ^ XSK_UNALIGNED_BUF_OFFSET_SHIFT - 1.

Definition xsk_umem__get_data (umem_area addr : Z) : Z := u64 (umem_area + addr).
Definition xsk_umem__extract_addr (addr : Z) : Z := Z.land addr XSK_UNALIGNED_BUF_ADDR_MASK.
Definition xsk_umem__extract_offset (addr : Z) : Z := Z.shiftr addr XSK_UNALIGNED_BUF_OFFSET_SHIFT.
Definition xsk_umem__add_offset_to_addr (addr : Z) : Z :=
  u64 (xsk_umem__extract_addr addr + xsk_umem__extract_offset addr).

(** ** Runs *)

(** A run of a labelled step relation. *)
Inductive run {S L} (step : S -> L -> S -> Prop) : S -> list L -> S -> Prop :=
| run_nil s : run step s [] s
| run_cons s l s' ls s'' : step s l s' -> run step s' ls s'' -> run step s (l :: ls) s''.

Section Runs.
Context {S L A : Type} (step : S -> L -> S -> Prop) (spec : A -> L -> A -> Prop) (R : S -> A -> Prop).
Context (sim : forall s a l s', R s a -> step s l s' -> exists a', spec a l a' /\ R s' a').

(** A forward simulation matches runs. *)
Lemma run_simulation s ls s' : run step s ls s' -> forall a, R s a -> exists a', run spec a ls a' /\ R s' a'.
Proof.
  induction 1 as [s | s l s1 ls s2 Hs _ IH]; intros a Ha; [exists a; split; [constructor | done] |].
  destruct (sim _ _ _ _ Ha Hs) as (a1 & Hl & H1). destruct (IH a1 H1) as (a2 & Hr & H2).
  exists a2. split; [by econstructor | done].
Qed.
End Runs.

(** *** User space fills the ring *)

Inductive plabel :=
| PReserve (nb ret : Z) (idx : option Z)
| PWrite (idx : Z) (e : list byte)
| PSubmit (nb : Z)
| PTake (e : list byte).

Section Entries.

(** The size of an entry, and the function that gives its place. *)
Context (esz : Z) (entry : xsk_ring -> Z -> Z).

(** The client writes to indices it has reserved and not submitted, and
    submits no more than it has reserved; the kernel takes what was submitted. *)
Inductive prod_step : xsk_ring * ring_mem -> plabel -> xsk_ring * ring_mem -> Prop :=
| prod_reserve r m nb ret idx r' : 0 <= nb < 2 ^ 32 -> xsk_ring_prod__reserve r m nb = (ret, idx, r') ->
    prod_step (r, m) (PReserve nb ret idx) (r', m)
| prod_write r m idx e d : 0 <= idx < 2 ^ 32 -> u32 (idx - rm_producer m) < u32 (xr_cached_prod r - rm_producer m) ->
    zlen e = esz -> store (rm_ring m) (entry r idx) e = Some d ->
    prod_step (r, m) (PWrite idx e)
      (r, {| rm_producer := rm_producer m; rm_consumer := rm_consumer m; rm_flags := rm_flags m; rm_ring := d |})
| prod_submit r m nb : 0 <= nb <= u32 (xr_cached_prod r - rm_producer m) ->
    prod_step (r, m) (PSubmit nb) (r, xsk_ring_prod__submit m nb)
| prod_take r m e : rm_consumer m <> rm_producer m ->
    bytes_at (rm_ring m) (entry r (rm_consumer m)) (Z.to_nat esz) = Some e ->
    prod_step (r, m) (PTake e)
      (r, {| rm_producer := rm_producer m; rm_consumer := u32 (rm_consumer m + 1); rm_flags := rm_flags m;
             rm_ring := rm_ring m |}).

(** The promise: a queue of at most [N] entries, those the kernel has not
    taken yet and those that are reserved and open for writing; [ps_base]
    counts the entries the kernel has taken. *)
Record pspec := { ps_base : Z; ps_queue : list (list byte); ps_open : list (list byte) }.

Definition ps_used (s : pspec) : Z := zlen (ps_queue s) + zlen (ps_open s).

Inductive pspec_step (N : Z) : pspec -> plabel -> pspec -> Prop :=
| ps_reserve s nb es : nb = zlen es -> ps_used s + nb <= N ->
    pspec_step N s (PReserve nb nb (Some (u32 (ps_base s + ps_used s))))
      {| ps_base := ps_base s; ps_queue := ps_queue s; ps_open := ps_open s ++ es |}
| ps_full s nb : N < ps_used s + nb -> pspec_step N s (PReserve nb 0 None) s
| ps_write s (i : nat) e : (i < length (ps_open s))%nat ->
    pspec_step N s (PWrite (u32 (ps_base s + zlen (ps_queue s) + Z.of_nat i)) e)
      {| ps_base := ps_base s; ps_queue := ps_queue s; ps_open := <[i := e]> (ps_open s) |}
| ps_submit b q es o : pspec_step N {| ps_base := b; ps_queue := q; ps_open := es ++ o |} (PSubmit (zlen es))
      {| ps_base := b; ps_queue := q ++ es; ps_open := o |}
| ps_take b e q o : pspec_step N {| ps_base := b; ps_queue := e :: q; ps_open := o |} (PTake e)
      {| ps_base := b + 1; ps_queue := q; ps_open := o |}.

(** *** User space empties the ring *)

Inductive clabel :=
| CPeek (nb ret : Z) (idx : option Z)
| CRead (idx : Z) (e : list byte)
| CCancel (nb : Z)
| CRelease (nb : Z)
| CPut (e : list byte).

(** The client reads indices it has peeked and not released, and cancels or
    releases no more than it holds; the kernel appends where there is room. *)
Inductive cons_step : xsk_ring * ring_mem -> clabel -> xsk_ring * ring_mem -> Prop :=
| cons_peek r m nb ret idx r' : 0 <= nb < 2 ^ 32 -> xsk_ring_cons__peek r m nb = (ret, idx, r') ->
    cons_step (r, m) (CPeek nb ret idx) (r', m)
| cons_read r m idx e : 0 <= idx < 2 ^ 32 -> u32 (idx - rm_consumer m) < u32 (xr_cached_cons r - rm_consumer m) ->
    bytes_at (rm_ring m) (entry r idx) (Z.to_nat esz) = Some e ->
    cons_step (r, m) (CRead idx e) (r, m)
| cons_cancel r m nb : 0 <= nb <= u32 (xr_cached_cons r - rm_consumer m) ->
    cons_step (r, m) (CCancel nb) (xsk_ring_cons__cancel r nb, m)
| cons_release r m nb : 0 <= nb <= u32 (xr_cached_cons r - rm_consumer m) ->
    cons_step (r, m) (CRelease nb) (r, xsk_ring_cons__release m nb)
| cons_put r m e d : u32 (rm_producer m - rm_consumer m) < xr_size r -> zlen e = esz ->
    store (rm_ring m) (entry r (rm_producer m)) e = Some d ->
    cons_step (r, m) (CPut e)
      (r, {| rm_producer := u32 (rm_producer m + 1); rm_consumer := rm_consumer m; rm_flags := rm_flags m;
             rm_ring := d |}).

(** The promise: a queue whose first entries are held by the client;
    [cs_base] counts the entries that were released. *)
Record cspec := { cs_base : Z; cs_held : list (list byte); cs_rest : list (list byte) }.

Inductive cspec_step (N : Z) : cspec -> clabel -> cspec -> Prop :=
| cs_peek b h es o nb : 0 <= nb -> zlen es <= nb -> (es = [] -> nb = 0 \/ o = []) ->
    cspec_step N {| cs_base := b; cs_held := h; cs_rest := es ++ o |}
      (CPeek nb (zlen es) (match es with [] => None | _ => Some (u32 (b + zlen h)) end))
      {| cs_base := b; cs_held := h ++ es; cs_rest := o |}
| cs_read s (i : nat) e : cs_held s !! i = Some e ->
    cspec_step N s (CRead (u32 (cs_base s + Z.of_nat i)) e) s
| cs_cancel b h es o : cspec_step N {| cs_base := b; cs_held := h ++ es; cs_rest := o |} (CCancel (zlen es))
      {| cs_base := b; cs_held := h; cs_rest := es ++ o |}
| cs_release b es h o : cspec_step N {| cs_base := b; cs_held := es ++ h; cs_rest := o |} (CRelease (zlen es))
      {| cs_base := b + zlen es; cs_held := h; cs_rest := o |}
| cs_put s e : zlen (cs_held s) + zlen (cs_rest s) < N ->
    cspec_step N s (CPut e) {| cs_base := cs_base s; cs_held := cs_held s; cs_rest := cs_rest s ++ [e] |}.

End Entries.

(** The functions on entries of the four rings. *)
Definition prod_entries : list (Z * (xsk_ring -> Z -> Z)) :=
  [(SIZEOF_U64, xsk_ring_prod__fill_addr); (SIZEOF_XDP_DESC, xsk_ring_prod__tx_desc)].
Definition cons_entries : list (Z * (xsk_ring -> Z -> Z)) :=
  [(SIZEOF_U64, xsk_ring_cons__comp_addr); (SIZEOF_XDP_DESC, xsk_ring_cons__rx_desc)].

(** ** Indices that wrap around *)

Lemma u32_sub_window a b n : 0 <= n < 2 ^ 32 -> a = b + n -> u32 (u32 a - u32 b) = n.
Proof. intros Hn ->. unfold u32. rewrite <- Zminus_mod. rewrite Z.mod_small; lia. Qed.

Lemma u32_add_u32 a n : u32 (u32 a + n) = u32 (a + n).
Proof. unfold u32. by rewrite Zplus_mod_idemp_l. Qed.

Lemma u32_sub_u32 a n : u32 (u32 a - n) = u32 (a - n).
Proof. unfold u32. by rewrite Zminus_mod_idemp_l. Qed.

(** An index in the window of [n] indices from [u32 b] on. *)
Lemma u32_window_index idx b n : 0 <= n < 2 ^ 32 -> 0 <= idx < 2 ^ 32 -> u32 (idx - u32 b) < n ->
  exists i : nat, Z.of_nat i < n /\ idx = u32 (b + Z.of_nat i).
Proof.
  intros Hn Hi Hlt. pose proof (u32_range (idx - u32 b)) as Hr. exists (Z.to_nat (u32 (idx - u32 b))).
  rewrite Z2Nat.id by lia. split; [done |].
  rewrite <- u32_add_u32. unfold u32 at 1 3. rewrite Zplus_mod_idemp_r. rewrite Z.mod_small; lia.
Qed.

Section Ring.
Context (k N esz : Z) (Hk : 0 <= k < 32) (HN : N = 2 ^ k) (Hesz : 0 < esz).

Lemma ring_size_pos : 0 < N < 2 ^ 32.
Proof. subst N. split; [apply Z.pow_pos_nonneg; lia | apply Z.pow_lt_mono_r; lia]. Qed.

Lemma land_mask a : Z.land (u32 a) (N - 1) = a mod N.
Proof.
  replace (N - 1) with (Z.ones k) by (rewrite Z.ones_equiv; lia). rewrite Z.land_ones, <- HN by lia.
  unfold u32. apply Z.mod_mod_divide. subst N. exists (2 ^ (32 - k)). rewrite <- Z.pow_add_r by lia. f_equal. lia.
Qed.

(** The entry at a position that counts all entries there ever were. *)
Definition slot (d : list byte) (a : Z) : option (list byte) := bytes_at d (esz * (a mod N)) (Z.to_nat esz).

Definition laid_out (d : list byte) (base : Z) (es : list (list byte)) : Prop :=
  forall i e, es !! i = Some e -> slot d (base + Z.of_nat i) = Some e.

Lemma slot_in_range a : 0 <= esz * (a mod N) /\ esz * (a mod N) + esz <= esz * N.
Proof. pose proof ring_size_pos. pose proof (Z.mod_pos_bound a N). nia. Qed.

Lemma slot_exists d a : zlen d = esz * N -> exists e, slot d a = Some e /\ zlen e = esz.
Proof.
  intros Hd. pose proof (slot_in_range a). unfold slot. rewrite bytes_at_Some by lia.
  eexists. split; [done |]. unfold zlen in *. rewrite length_take, length_drop. lia.
Qed.

Lemma slots_exist d a n : zlen d = esz * N -> exists es, length es = n /\ laid_out d a es.
Proof.
  intros Hd. induction n as [| n (es & Hl & HL)]; [by exists [] |].
  destruct (slot_exists d (a + Z.of_nat n) Hd) as (e & He & _). exists (es ++ [e]).
  split; [rewrite length_app; simpl; lia |].
  intros i x [Hi | [? Hi]]%lookup_app_Some; [by apply HL |].
  apply list_lookup_singleton_Some in Hi as [Hi <-]. by replace i with n by lia.
Qed.

Lemma slot_store d a e d' x : zlen d = esz * N -> zlen e = esz -> store d (esz * (a mod N)) e = Some d' ->
  slot d' x = if decide (x mod N = a mod N) then Some e else slot d x.
Proof.
  intros Hd He Hs. pose proof (slot_in_range x). unfold slot. case_decide as E.
  - rewrite E. rewrite <- He at 2. unfold zlen. rewrite Nat2Z.id. by eapply bytes_at_store_same.
  - eapply bytes_at_store_other; [done | lia |]. rewrite He, Z2Nat.id by lia.
    pose proof (Z.mod_pos_bound x N). pose proof (Z.mod_pos_bound a N). pose proof ring_size_pos. nia.
Qed.

Lemma window_inj_mod c x y : c <= x < c + N -> c <= y < c + N -> x mod N = y mod N -> x = y.
Proof.
  intros Hx Hy E. pose proof ring_size_pos. pose proof (Z.div_mod x N ltac:(lia)). pose proof (Z.div_mod y N ltac:(lia)).
  assert (x / N = y / N) by nia. nia.
Qed.

(** Writing one entry of the window, or the one behind it. *)
Lemma laid_out_store d base es (i : nat) e d' :
  zlen d = esz * N -> zlen e = esz -> zlen es <= N -> Z.of_nat i < N -> laid_out d base es ->
  store d (esz * ((base + Z.of_nat i) mod N)) e = Some d' -> laid_out d' base (<[i := e]> es).
Proof.
  intros Hd He Hes Hi HL Hs j x Hj. rewrite (slot_store _ _ _ _ _ Hd He Hs).
  apply list_lookup_insert_Some in Hj as [(<- & <- & _) | [Hne Hj]]; [by rewrite decide_True |].
  apply lookup_lt_Some in Hj as Hlt. rewrite decide_False; [by apply HL |].
  unfold zlen in Hes. intros E. apply (window_inj_mod base) in E; lia.
Qed.

Lemma laid_out_push d base es e d' :
  zlen d = esz * N -> zlen e = esz -> zlen es < N -> laid_out d base es ->
  store d (esz * ((base + zlen es) mod N)) e = Some d' -> laid_out d' base (es ++ [e]).
Proof.
  intros Hd He Hes HL Hs. intros i x Hi. rewrite (slot_store _ _ _ _ _ Hd He Hs). unfold zlen in *.
  apply lookup_app_Some in Hi as [Hi | [Hge Hi]].
  - apply lookup_lt_Some in Hi as Hlt. rewrite decide_False; [by apply HL |].
    intros E. apply (window_inj_mod base) in E; lia.
  - apply list_lookup_singleton_Some in Hi as [Hi <-]. rewrite decide_True; [done |]. f_equal. lia.
Qed.

Lemma laid_out_app d base es fs : laid_out d base (es ++ fs) <-> laid_out d base es /\ laid_out d (base + zlen es) fs.
Proof.
  unfold laid_out, zlen. split.
  - intros H. split; intros i e Hi.
    + apply H. by apply lookup_app_l_Some.
    + replace (base + Z.of_nat (length es) + Z.of_nat i) with (base + Z.of_nat (length es + i)) by lia.
      apply H. rewrite lookup_app_r by lia. by replace (length es + i - length es)%nat with i by lia.
  - intros [H1 H2] i e [Hi | [Hge Hi]]%lookup_app_Some; [by apply H1 |].
    specialize (H2 _ _ Hi). by replace (base + Z.of_nat (length es) + Z.of_nat (i - length es))
      with (base + Z.of_nat i) in H2 by lia.
Qed.

(** ** The producer refines its queue *)

Section Producer.
Context (entry : xsk_ring -> Z -> Z) (Hentry : forall r idx, entry r idx = esz * Z.land idx (xr_mask r)).

Record prod_inv (s : xsk_ring * ring_mem) (a : pspec) : Prop := {
  pi_size : xr_size s.1 = N;
  pi_mask : xr_mask s.1 = N - 1;
  pi_mem : zlen (rm_ring s.2) = esz * N;
  pi_cons : rm_consumer s.2 = u32 (ps_base a);
  pi_prod : rm_producer s.2 = u32 (ps_base a + zlen (ps_queue a));
  pi_cached : xr_cached_prod s.1 = u32 (ps_base a + ps_used a);
  pi_used : ps_used a <= N;
  pi_seen : exists c, c <= ps_base a /\ ps_base a + ps_used a <= c + N /\ xr_cached_cons s.1 = u32 (c + N);
  pi_slots : laid_out (rm_ring s.2) (ps_base a) (ps_queue a ++ ps_open a)
}.

Lemma prod_inv_entry s a x : prod_inv s a -> entry s.1 (u32 x) = esz * (x mod N).
Proof. intros HI. by rewrite Hentry, (pi_mask _ _ HI), land_mask. Qed.

Lemma prod_open s a : prod_inv s a -> u32 (xr_cached_prod s.1 - rm_producer s.2) = zlen (ps_open a).
Proof.
  intros HI. rewrite (pi_cached _ _ HI), (pi_prod _ _ HI). pose proof ring_size_pos. pose proof (pi_used _ _ HI) as Hu.
  unfold ps_used in *. pose proof (zlen_nonneg (ps_open a)). pose proof (zlen_nonneg (ps_queue a)).
  apply u32_sub_window; lia.
Qed.

(** The free entries the producer finds: all there are when it needs them. *)
Lemma nb_free_spec s a nb : prod_inv s a -> 0 <= nb ->
  exists free r', xsk_prod_nb_free s.1 s.2 nb = (free, r') /\ prod_inv (r', s.2) a /\
    free <= N - ps_used a /\ (free < nb -> free = N - ps_used a).
Proof.
  intros HI Hnb. pose proof ring_size_pos. destruct (pi_seen _ _ HI) as (c & Hc & Hu & Ec).
  unfold xsk_prod_nb_free. rewrite Ec, (pi_cached _ _ HI).
  assert (0 <= ps_used a) as H0 by (unfold ps_used, zlen; lia).
  rewrite (u32_sub_window (c + N) _ (c + N - ps_base a - ps_used a)) by lia.
  destruct (nb <=? _) eqn:E.
  - do 2 eexists. split; [done |]. split; [by destruct s |]. split; lia.
  - do 2 eexists. split; [done |]. cbn [set_cached_cons xr_cached_cons xr_cached_prod xr_size].
    rewrite (pi_size _ _ HI), (pi_cons _ _ HI), u32_add_u32, (pi_cached _ _ HI).
    rewrite (u32_sub_window (ps_base a + N) _ (N - ps_used a)) by (pose proof (pi_used _ _ HI); lia).
    split; [| lia]. destruct HI. split; try done. exists (ps_base a). cbn. split_and!; [lia.. | done].
Qed.

Lemma prod_reserve_sim s a nb ret idx r' : prod_inv s a -> 0 <= nb ->
  xsk_ring_prod__reserve s.1 s.2 nb = (ret, idx, r') ->
  exists a', pspec_step N a (PReserve nb ret idx) a' /\ prod_inv (r', s.2) a'.
Proof.
  intros HI Hnb E. destruct (nb_free_spec s a nb HI Hnb) as (free & r1 & Ef & HI1 & Hle & Hlt).
  unfold xsk_ring_prod__reserve in E. rewrite Ef in E. destruct (free <? nb) eqn:Eb.
  - injection E as <- <- <-. exists a. split; [constructor; lia | done].
  - injection E as <- <- <-.
    destruct (slots_exist (rm_ring s.2) (ps_base a + ps_used a) (Z.to_nat nb)) as (es & Hl & HL); [apply HI |].
    assert (zlen es = nb) as Hz by (unfold zlen; lia).
    destruct HI1 as [H1 H2 H3 H4 H5 H6 H7 (c & H8 & H9 & H10) H11]. cbn in *.
    exists {| ps_base := ps_base a; ps_queue := ps_queue a; ps_open := ps_open a ++ es |}.
    split; [rewrite H6; apply (ps_reserve _ _ _ es); [done | lia] |].
    assert (free = c + N - ps_base a - ps_used a) as Efree.
    { assert (free = u32 (xr_cached_cons r1 - xr_cached_prod r1)) as ->
        by (unfold xsk_prod_nb_free in Ef; destruct (nb <=? _); by injection Ef as <- <-).
      rewrite H10, H6. pose proof ring_size_pos. apply u32_sub_window; unfold ps_used, zlen in *; lia. }
    split; unfold ps_used in *; cbn; rewrite ?zlen_app; try done; [| lia | |].
    + rewrite H6, u32_add_u32. f_equal. lia.
    + exists c. split_and!; [lia.. | done].
    + rewrite app_assoc. apply laid_out_app. split; [done |]. by rewrite zlen_app.
Qed.

Lemma prod_write_sim s a idx e d : prod_inv s a -> 0 <= idx < 2 ^ 32 ->
  u32 (idx - rm_producer s.2) < u32 (xr_cached_prod s.1 - rm_producer s.2) ->
  zlen e = esz -> store (rm_ring s.2) (entry s.1 idx) e = Some d ->
  exists a', pspec_step N a (PWrite idx e) a' /\
    prod_inv (s.1, {| rm_producer := rm_producer s.2; rm_consumer := rm_consumer s.2; rm_flags := rm_flags s.2; rm_ring := d |}) a'.
Proof.
  intros HI Hi Hlt He Hs. rewrite (prod_open _ _ HI) in Hlt. rewrite (pi_prod _ _ HI) in Hlt.
  pose proof ring_size_pos. pose proof (pi_used _ _ HI) as Hu. unfold ps_used in Hu.
  apply u32_window_index in Hlt as (i & Hil & ->); [| unfold zlen in *; lia | done].
  rewrite (prod_inv_entry _ _ _ HI) in Hs. unfold zlen in Hil.
  exists {| ps_base := ps_base a; ps_queue := ps_queue a; ps_open := <[i := e]> (ps_open a) |}.
  split; [constructor; lia |].
  assert (zlen (<[i := e]> (ps_open a)) = zlen (ps_open a)) as Hz by (unfold zlen; by rewrite length_insert).
  pose proof (zlen_store _ _ _ _ Hs) as Hzd.
  destruct HI as [H1 H2 H3 H4 H5 H6 H7 H8 H9]; split; unfold ps_used in *; cbn in *; rewrite ?Hz; try done; [lia |].
  rewrite <- insert_app_r. eapply laid_out_store; [exact H3 | done | rewrite zlen_app; lia | unfold zlen in *; lia | done |].
  rewrite <- Hs. do 3 f_equal. unfold zlen. lia.
Qed.

Lemma prod_submit_sim s a nb : prod_inv s a -> 0 <= nb <= u32 (xr_cached_prod s.1 - rm_producer s.2) ->
  exists a', pspec_step N a (PSubmit nb) a' /\ prod_inv (s.1, xsk_ring_prod__submit s.2 nb) a'.
Proof.
  intros HI Hnb. rewrite (prod_open _ _ HI) in Hnb.
  destruct a as [b q o]. cbn [ps_open] in Hnb. rewrite <- (take_drop (Z.to_nat nb) o) in HI |- *.
  assert (nb = zlen (take (Z.to_nat nb) o)) as Hz by (unfold zlen in *; rewrite length_take; lia).
  revert HI. generalize (drop (Z.to_nat nb) o) as o'. revert Hz. generalize (take (Z.to_nat nb) o) as es.
  intros es Hz o' HI. exists {| ps_base := b; ps_queue := q ++ es; ps_open := o' |}. rewrite Hz.
  split; [constructor |].
  destruct HI as [H1 H2 H3 H4 H5 H6 H7 (c & H8 & H9 & H10) H11]; split; unfold ps_used in *; cbn in *; try done.
  - rewrite H5, u32_add_u32, zlen_app. f_equal. lia.
  - rewrite H6. f_equal. rewrite !zlen_app. lia.
  - rewrite !zlen_app in *. lia.
  - exists c. rewrite !zlen_app in *. split_and!; [lia.. | done].
  - by rewrite <- app_assoc.
Qed.

Lemma prod_take_sim s a e : prod_inv s a -> rm_consumer s.2 <> rm_producer s.2 ->
  bytes_at (rm_ring s.2) (entry s.1 (rm_consumer s.2)) (Z.to_nat esz) = Some e ->
  exists a', pspec_step N a (PTake e) a' /\
    prod_inv (s.1, {| rm_producer := rm_producer s.2; rm_consumer := u32 (rm_consumer s.2 + 1);
                      rm_flags := rm_flags s.2; rm_ring := rm_ring s.2 |}) a'.
Proof.
  intros HI Hne He. destruct a as [b [| e' q] o].
  { exfalso. apply Hne. rewrite (pi_cons _ _ HI), (pi_prod _ _ HI). cbn. f_equal. rewrite zlen_nil. lia. }
  rewrite (pi_cons _ _ HI), (prod_inv_entry _ _ _ HI) in He. cbn [ps_base] in He.
  assert (slot (rm_ring s.2) b = Some e') as He'.
  { rewrite <- (Z.add_0_r b). by apply (pi_slots _ _ HI 0%nat). }
  unfold slot in He'. rewrite He in He'. injection He' as <-.
  exists {| ps_base := b + 1; ps_queue := q; ps_open := o |}. split; [constructor |].
  destruct HI as [H1 H2 H3 H4 H5 H6 H7 (c & H8 & H9 & H10) H11]; split; unfold ps_used in *; cbn in *; try done.
  - by rewrite H4, u32_add_u32.
  - rewrite H5. f_equal. rewrite zlen_cons. lia.
  - rewrite H6. f_equal. rewrite zlen_cons. lia.
  - rewrite zlen_cons in H7. lia.
  - exists c. rewrite zlen_cons in *. split_and!; [lia.. | done].
  - apply (laid_out_app _ _ [e]) in H11 as [_ H11]. done.
Qed.

Lemma prod_sim s a l s' : prod_inv s a -> prod_step esz entry s l s' ->
  exists a', pspec_step N a l a' /\ prod_inv s' a'.
Proof.
  intros HI HS. destruct HS.
  - by eapply (prod_reserve_sim (r, m)); [| lia |].
  - by eapply (prod_write_sim (r, m)).
  - by eapply (prod_submit_sim (r, m)).
  - by eapply (prod_take_sim (r, m)).
Qed.

(** Every write to an entry the client holds stays inside the ring. *)
Lemma prod_write_defined s a x e : prod_inv s a -> zlen e = esz -> is_Some (store (rm_ring s.2) (entry s.1 (u32 x)) e).
Proof.
  intros HI He. rewrite (prod_inv_entry _ _ _ HI). pose proof (slot_in_range x).
  apply store_Some; [lia |]. rewrite (pi_mem _ _ HI). lia.
Qed.

Lemma prod_inv_init r m b : xr_size r = N -> xr_mask r = N - 1 -> zlen (rm_ring m) = esz * N ->
  rm_consumer m = u32 b -> rm_producer m = u32 b -> xr_cached_prod r = u32 b -> xr_cached_cons r = u32 (b + N) ->
  prod_inv (r, m) {| ps_base := b; ps_queue := []; ps_open := [] |}.
Proof.
  intros. pose proof ring_size_pos. assert (ps_used {| ps_base := b; ps_queue := []; ps_open := [] |} = 0) as Hu by done.
  split; rewrite ?Hu; cbn; rewrite ?zlen_nil, ?Z.add_0_r; try done; [lia |].
  exists b. split_and!; [lia.. | done].
Qed.

End Producer.

(** ** The consumer refines its queue *)

Section Consumer.
Context (entry : xsk_ring -> Z -> Z) (Hentry : forall r idx, entry r idx = esz * Z.land idx (xr_mask r)).

Record cons_inv (s : xsk_ring * ring_mem) (a : cspec) : Prop := {
  ci_size : xr_size s.1 = N;
  ci_mask : xr_mask s.1 = N - 1;
  ci_mem : zlen (rm_ring s.2) = esz * N;
  ci_cons : rm_consumer s.2 = u32 (cs_base a);
  ci_cached : xr_cached_cons s.1 = u32 (cs_base a + zlen (cs_held a));
  ci_prod : rm_producer s.2 = u32 (cs_base a + zlen (cs_held a) + zlen (cs_rest a));
  ci_used : zlen (cs_held a) + zlen (cs_rest a) <= N;
  ci_seen : exists c, 0 <= c <= zlen (cs_rest a) /\ xr_cached_prod s.1 = u32 (cs_base a + zlen (cs_held a) + c);
  ci_slots : laid_out (rm_ring s.2) (cs_base a) (cs_held a ++ cs_rest a)
}.

Lemma cons_inv_entry s a x : cons_inv s a -> entry s.1 (u32 x) = esz * (x mod N).
Proof. intros HI. by rewrite Hentry, (ci_mask _ _ HI), land_mask. Qed.

Lemma cons_held s a : cons_inv s a -> u32 (xr_cached_cons s.1 - rm_consumer s.2) = zlen (cs_held a).
Proof.
  intros HI. rewrite (ci_cached _ _ HI), (ci_cons _ _ HI). pose proof ring_size_pos. pose proof (ci_used _ _ HI) as Hu.
  pose proof (zlen_nonneg (cs_held a)). pose proof (zlen_nonneg (cs_rest a)). apply u32_sub_window; lia.
Qed.

(** The entries the consumer finds: some if there are any. *)
Lemma nb_avail_spec s a nb : cons_inv s a -> 0 <= nb ->
  exists n r', xsk_cons_nb_avail s.1 s.2 nb = (n, r') /\ cons_inv (r', s.2) a /\
    0 <= n <= nb /\ n <= u32 (xr_cached_prod r' - xr_cached_cons r') <= zlen (cs_rest a) /\
    (n = 0 -> nb = 0 \/ cs_rest a = []).
Proof.
  intros HI Hnb. pose proof ring_size_pos. pose proof (ci_used _ _ HI) as Hu.
  assert (0 <= zlen (cs_held a)) as Hh by apply zlen_nonneg.
  assert (forall r' c, cons_inv (r', s.2) a -> 0 <= c <= zlen (cs_rest a) ->
    xr_cached_prod r' = u32 (cs_base a + zlen (cs_held a) + c) -> u32 (xr_cached_prod r' - xr_cached_cons r') = c) as Hav.
  { intros r' c HI' Hc E. pose proof (ci_cached _ _ HI') as E'. cbn in E'. rewrite E, E'. apply u32_sub_window; lia. }
  unfold xsk_cons_nb_avail. destruct (ci_seen _ _ HI) as (c & Hc & Ec).
  rewrite (Hav s.1 c) by (done || by destruct s). destruct (c =? 0) eqn:E0.
  - assert (cons_inv (set_cached_prod s.1 (rm_producer s.2), s.2) a) as HI'.
    { destruct HI. split; try done. exists (zlen (cs_rest a)). cbn. split; [lia | done]. }
    rewrite (Hav _ (zlen (cs_rest a)) HI') by (pose proof (zlen_nonneg (cs_rest a)); lia || apply (ci_prod _ _ HI)).
    do 2 eexists. split; [done |]. split; [done |].
    rewrite (Hav _ (zlen (cs_rest a)) HI') by (pose proof (zlen_nonneg (cs_rest a)); lia || apply (ci_prod _ _ HI)).
    pose proof (zlen_nonneg (cs_rest a)).
    destruct (nb <? _) eqn:E1; split_and!; try lia. intros E2. right. apply nil_length_inv. unfold zlen in E2. lia.
  - do 2 eexists. split; [done |]. assert (cons_inv (s.1, s.2) a) as HI' by (by destruct s).
    split; [done |]. rewrite (Hav _ c HI' Hc Ec). destruct (nb <? c) eqn:E1; split_and!; lia.
Qed.

Lemma cons_peek_sim s a nb ret idx r' : cons_inv s a -> 0 <= nb ->
  xsk_ring_cons__peek s.1 s.2 nb = (ret, idx, r') ->
  exists a', cspec_step N a (CPeek nb ret idx) a' /\ cons_inv (r', s.2) a'.
Proof.
  intros HI Hnb E. destruct (nb_avail_spec s a nb HI Hnb) as (n & r1 & En & HI1 & Hn & Hle & H0).
  unfold xsk_ring_cons__peek in E. rewrite En in E. destruct a as [b h o]. cbn [cs_rest] in *.
  destruct (0 <? n) eqn:Eb; injection E as <- <- <-.
  - rewrite <- (take_drop (Z.to_nat n) o) in HI1, Hle |- *.
    assert (n = zlen (take (Z.to_nat n) o)) as Hz
      by (rewrite take_drop in Hle; unfold zlen in *; rewrite length_take; lia).
    clear H0. revert HI1 Hle. generalize (drop (Z.to_nat n) o) as o'. revert Hz. generalize (take (Z.to_nat n) o) as es.
    intros es Hz o' HI1 Hle. exists {| cs_base := b; cs_held := h ++ es; cs_rest := o' |}. split.
    + pose proof (ci_cached _ _ HI1) as Ec. cbn in Ec. rewrite Ec, Hz. destruct es as [| e es]; [rewrite zlen_nil in Hz; lia |].
      by apply (cs_peek N b h (e :: es) o'); [| lia |].
    + destruct HI1 as [H1 H2 H3 H4 H5 H6 H7 (c & H8 & H9) H11]; split; cbn in *; rewrite ?zlen_app in *; try done.
      * rewrite H5, u32_add_u32, Hz. f_equal. lia.
      * rewrite H6. f_equal. lia.
      * lia.
      * rewrite H9, H5 in Hle. pose proof ring_size_pos. pose proof (zlen_nonneg h).
        rewrite (u32_sub_window _ _ c) in Hle by lia. exists (c - zlen es). split; [lia |]. rewrite H9. f_equal. lia.
      * by rewrite <- app_assoc.
  - exists {| cs_base := b; cs_held := h; cs_rest := o |}. split; [| done].
    assert (n = 0) as -> by lia. pose proof (cs_peek N b h [] o nb Hnb) as HP. rewrite zlen_nil, app_nil_r in HP.
    apply HP; [lia | intros _; by apply H0].
Qed.

Lemma cons_read_sim s a idx e : cons_inv s a -> 0 <= idx < 2 ^ 32 ->
  u32 (idx - rm_consumer s.2) < u32 (xr_cached_cons s.1 - rm_consumer s.2) ->
  bytes_at (rm_ring s.2) (entry s.1 idx) (Z.to_nat esz) = Some e -> cspec_step N a (CRead idx e) a.
Proof.
  intros HI Hi Hlt He. rewrite (cons_held _ _ HI), (ci_cons _ _ HI) in Hlt. pose proof ring_size_pos.
  pose proof (ci_used _ _ HI) as Hu. pose proof (zlen_nonneg (cs_rest a)). pose proof (zlen_nonneg (cs_held a)).
  apply u32_window_index in Hlt as (i & Hil & ->); [| lia | done].
  rewrite (cons_inv_entry _ _ _ HI) in He. unfold zlen in Hil.
  destruct (lookup_lt_is_Some_2 (cs_held a) i) as [x Hx]; [lia |].
  pose proof (ci_slots _ _ HI i x ltac:(by apply lookup_app_l_Some)) as Hs. unfold slot in Hs. rewrite He in Hs.
  injection Hs as <-. by constructor.
Qed.

Lemma cons_cancel_sim s a nb : cons_inv s a -> 0 <= nb <= u32 (xr_cached_cons s.1 - rm_consumer s.2) ->
  exists a', cspec_step N a (CCancel nb) a' /\ cons_inv (xsk_ring_cons__cancel s.1 nb, s.2) a'.
Proof.
  intros HI Hnb. rewrite (cons_held _ _ HI) in Hnb. destruct a as [b h o]. cbn [cs_held] in Hnb.
  rewrite <- (take_drop (length h - Z.to_nat nb) h) in HI |- *.
  assert (nb = zlen (drop (length h - Z.to_nat nb) h)) as Hz by (unfold zlen in *; rewrite length_drop; lia).
  revert HI. generalize (take (length h - Z.to_nat nb) h) as h'. revert Hz. generalize (drop (length h - Z.to_nat nb) h) as es.
  intros es Hz h' HI. exists {| cs_base := b; cs_held := h'; cs_rest := es ++ o |}. rewrite Hz. split; [constructor |].
  destruct HI as [H1 H2 H3 H4 H5 H6 H7 (c & H8 & H9) H11]; split; cbn in *; rewrite ?zlen_app in *; try done.
  - rewrite H5, u32_sub_u32. f_equal. lia.
  - rewrite H6. f_equal. lia.
  - lia.
  - exists (zlen es + c). pose proof (zlen_nonneg es). split; [lia |]. rewrite H9. f_equal. lia.
  - by rewrite <- app_assoc in H11.
Qed.

Lemma cons_release_sim s a nb : cons_inv s a -> 0 <= nb <= u32 (xr_cached_cons s.1 - rm_consumer s.2) ->
  exists a', cspec_step N a (CRelease nb) a' /\ cons_inv (s.1, xsk_ring_cons__release s.2 nb) a'.
Proof.
  intros HI Hnb. rewrite (cons_held _ _ HI) in Hnb. destruct a as [b h o]. cbn [cs_held] in Hnb.
  rewrite <- (take_drop (Z.to_nat nb) h) in HI |- *.
  assert (nb = zlen (take (Z.to_nat nb) h)) as Hz by (unfold zlen in *; rewrite length_take; lia).
  revert HI. generalize (drop (Z.to_nat nb) h) as h'. revert Hz. generalize (take (Z.to_nat nb) h) as es.
  intros es Hz h' HI. exists {| cs_base := b + zlen es; cs_held := h'; cs_rest := o |}. rewrite Hz. split; [constructor |].
  destruct HI as [H1 H2 H3 H4 H5 H6 H7 (c & H8 & H9) H11]; split; cbn in *; rewrite ?zlen_app in *; try done.
  - by rewrite H4, u32_add_u32.
  - rewrite H5. f_equal. lia.
  - rewrite H6. f_equal. lia.
  - pose proof (zlen_nonneg es). lia.
  - exists c. split; [lia |]. rewrite H9. f_equal. lia.
  - rewrite <- app_assoc in H11. by apply laid_out_app in H11 as [_ H11].
Qed.

Lemma cons_put_sim s a e d : cons_inv s a -> u32 (rm_producer s.2 - rm_consumer s.2) < xr_size s.1 -> zlen e = esz ->
  store (rm_ring s.2) (entry s.1 (rm_producer s.2)) e = Some d ->
  exists a', cspec_step N a (CPut e) a' /\
    cons_inv (s.1, {| rm_producer := u32 (rm_producer s.2 + 1); rm_consumer := rm_consumer s.2;
                      rm_flags := rm_flags s.2; rm_ring := d |}) a'.
Proof.
  intros HI Hlt He Hs. pose proof ring_size_pos. pose proof (ci_used _ _ HI) as Hu.
  pose proof (zlen_nonneg (cs_rest a)). pose proof (zlen_nonneg (cs_held a)).
  rewrite (ci_size _ _ HI), (ci_prod _ _ HI), (ci_cons _ _ HI) in Hlt.
  rewrite (u32_sub_window _ _ (zlen (cs_held a) + zlen (cs_rest a))) in Hlt by lia.
  rewrite (ci_prod _ _ HI), (cons_inv_entry _ _ _ HI) in Hs. pose proof (zlen_store _ _ _ _ Hs) as Hzd.
  eexists. split; [by apply cs_put |].
  destruct HI as [I1 I2 I3 I4 I5 I6 I7 (c & I8 & I9) I11]; split; cbn in *; rewrite ?zlen_app, ?zlen_cons, ?zlen_nil; try done.
  - lia.
  - rewrite I6, u32_add_u32. f_equal. lia.
  - lia.
  - exists c. split; [unfold zlen in *; simpl length in *; lia | done].
  - rewrite app_assoc. eapply laid_out_push; [exact I3 | done | rewrite zlen_app; lia | done |].
    rewrite <- Hs. do 3 f_equal. rewrite zlen_app. lia.
Qed.

Lemma cons_sim s a l s' : cons_inv s a -> cons_step esz entry s l s' ->
  exists a', cspec_step N a l a' /\ cons_inv s' a'.
Proof.
  intros HI HS. destruct HS.
  - by eapply (cons_peek_sim (r, m)); [| lia |].
  - exists a. split; [by eapply (cons_read_sim (r, m)) | done].
  - by eapply (cons_cancel_sim (r, m)).
  - by eapply (cons_release_sim (r, m)).
  - by eapply (cons_put_sim (r, m)).
Qed.

(** Every read of an entry the client holds stays inside the ring. *)
Lemma cons_read_defined s a x : cons_inv s a -> is_Some (bytes_at (rm_ring s.2) (entry s.1 (u32 x)) (Z.to_nat esz)).
Proof.
  intros HI. rewrite (cons_inv_entry _ _ _ HI). destruct (slot_exists (rm_ring s.2) x (ci_mem _ _ HI)) as (e & He & _).
  exists e. exact He.
Qed.

Lemma cons_inv_init r m b : xr_size r = N -> xr_mask r = N - 1 -> zlen (rm_ring m) = esz * N ->
  rm_consumer m = u32 b -> rm_producer m = u32 b -> xr_cached_prod r = u32 b -> xr_cached_cons r = u32 b ->
  cons_inv (r, m) {| cs_base := b; cs_held := []; cs_rest := [] |}.
Proof.
  intros. pose proof ring_size_pos. assert (zlen (@nil (list byte)) = 0) as Hnil by done.
  split; cbn; rewrite ?Hnil, ?Z.add_0_r; try done; [lia |].
  exists 0. split; [lia |]. by rewrite Z.add_0_r.
Qed.

End Consumer.

End Ring.

(** ** The rings *)

(** A ring of [2 ^ k] entries whose two indices are [b]. *)
Record ring_ready (esz k : Z) (r : xsk_ring) (m : ring_mem) (b : Z) : Prop := {
  rr_index : 0 <= b < 2 ^ 32;
  rr_k : 0 <= k < 32;
  rr_size : xr_size r = 2 ^ k;
  rr_mask : xr_mask r = 2 ^ k - 1;
  rr_mem : zlen (rm_ring m) = esz * 2 ^ k;
  rr_producer : rm_producer m = b;
  rr_consumer : rm_consumer m = b
}.

Lemma prod_entries_spec esz entry : (esz, entry) ∈ prod_entries ->
  0 < esz /\ forall r idx, entry r idx = esz * Z.land idx (xr_mask r).
Proof. unfold prod_entries. rewrite !elem_of_cons, elem_of_nil. intros [[= -> ->] | [[= -> ->] | []]]; done. Qed.

Lemma cons_entries_spec esz entry : (esz, entry) ∈ cons_entries ->
  0 < esz /\ forall r idx, entry r idx = esz * Z.land idx (xr_mask r).
Proof. unfold cons_entries. rewrite !elem_of_cons, elem_of_nil. intros [[= -> ->] | [[= -> ->] | []]]; done. Qed.

(** C21: a ring user space fills is a bounded queue, from any starting index,
    also when the 32-bit indices wrap around.  In every interleaving of
    reservations, writes, submissions and the kernel's taking of entries, a reservation
    succeeds exactly when that many entries are free at that moment, it names the
    next indices, no entry the kernel may still read is among them, and the
    kernel takes the submitted entries in order and as they were written; and every
    write to a reserved entry stays inside the ring. *)
Theorem xsk_prod_refines esz entry k r m b :
  (esz, entry) ∈ prod_entries -> ring_ready esz k r m b ->
  xr_cached_prod r = b -> xr_cached_cons r = u32 (b + 2 ^ k) ->
  forall ls r' m', run (prod_step esz entry) (r, m) ls (r', m') ->
  (exists a, run (pspec_step (2 ^ k)) {| ps_base := b; ps_queue := []; ps_open := [] |} ls a /\
     rm_producer m' = u32 (ps_base a + zlen (ps_queue a))) /\
  forall idx e, 0 <= idx < 2 ^ 32 -> zlen e = esz ->
    u32 (idx - rm_producer m') < u32 (xr_cached_prod r' - rm_producer m') ->
    is_Some (store (rm_ring m') (entry r' idx) e).
Proof.
  intros Hin [Hb Hk Hs Hm Hz Hp Hc] Hcp Hcc ls r' m' HR. destruct (prod_entries_spec _ _ Hin) as [Hesz Hentry].
  assert (prod_inv (2 ^ k) esz (r, m) {| ps_base := b; ps_queue := []; ps_open := [] |}) as HI
    by (apply (prod_inv_init k); rewrite ?(u32_id b) by done; done).
  destruct (run_simulation _ _ _ (prod_sim k (2 ^ k) esz Hk eq_refl Hesz entry Hentry) _ _ _ HR _ HI) as (a & Ha & HI').
  split; [exists a; split; [done | apply (pi_prod _ _ _ _ HI')] |].
  intros idx e Hi He _. rewrite <- (u32_id idx) by done.
  by apply (prod_write_defined k (2 ^ k) esz Hk eq_refl Hesz entry Hentry _ _ _ _ HI').
Qed.

(** C22: a ring user space empties is a bounded queue, from any starting index,
    also when the 32-bit indices wrap around.  In every interleaving of peeks, reads,
    cancellations, releases and the kernel's appending of entries, a peek holds some
    entries if there are any and never more than asked for, what is read are the
    entries the kernel appended, in order, a cancelled entry is found again by the
    next peek, and an entry that is held is not overwritten; and every read of a
    held entry stays inside the ring. *)
Theorem xsk_cons_refines esz entry k r m b :
  (esz, entry) ∈ cons_entries -> ring_ready esz k r m b ->
  xr_cached_prod r = b -> xr_cached_cons r = b ->
  forall ls r' m', run (cons_step esz entry) (r, m) ls (r', m') ->
  (exists a, run (cspec_step (2 ^ k)) {| cs_base := b; cs_held := []; cs_rest := [] |} ls a /\
     rm_consumer m' = u32 (cs_base a)) /\
  forall idx, 0 <= idx < 2 ^ 32 -> u32 (idx - rm_consumer m') < u32 (xr_cached_cons r' - rm_consumer m') ->
    is_Some (bytes_at (rm_ring m') (entry r' idx) (Z.to_nat esz)).
Proof.
  intros Hin [Hb Hk Hs Hm Hz Hp Hc] Hcp Hcc ls r' m' HR. destruct (cons_entries_spec _ _ Hin) as [Hesz Hentry].
  assert (cons_inv (2 ^ k) esz (r, m) {| cs_base := b; cs_held := []; cs_rest := [] |}) as HI
    by (apply (cons_inv_init k); rewrite ?(u32_id b) by done; done).
  destruct (run_simulation _ _ _ (cons_sim k (2 ^ k) esz Hk eq_refl Hesz entry Hentry) _ _ _ HR _ HI) as (a & Ha & HI').
  split; [exists a; split; [done | apply (ci_cons _ _ _ _ HI')] |].
  intros idx Hi _. rewrite <- (u32_id idx) by done.
  by apply (cons_read_defined k (2 ^ k) esz Hk eq_refl Hesz entry Hentry _ _ _ HI').
Qed.

(** In the unaligned mode, an address is taken apart into its two fields, and
    the data is their sum bytes into the area. *)
Theorem umem_unaligned_addr area a off :
  0 <= a < 2 ^ 48 -> 0 <= off < 2 ^ 16 -> 0 <= area -> area + 2 ^ 49 <= 2 ^ 64 ->
  xsk_umem__extract_addr (off * 2 ^ 48 + a) = a /\ xsk_umem__extract_offset (off * 2 ^ 48 + a) = off /\
  xsk_umem__get_data area (xsk_umem__add_offset_to_addr (off * 2 ^ 48 + a)) = area + a + off.
Proof.
  intros Ha Ho Hr Hr'.
  assert (xsk_umem__extract_addr (off * 2 ^ 48 + a) = a) as E1.
  { unfold xsk_umem__extract_addr, XSK_UNALIGNED_BUF_ADDR_MASK, XSK_UNALIGNED_BUF_OFFSET_SHIFT.
    change (2 ^ 48 - 1) with (Z.ones 48). rewrite Z.land_ones by lia.
    rewrite Z.add_comm, Z_mod_plus_full. apply Z.mod_small. lia. }
  assert (xsk_umem__extract_offset (off * 2 ^ 48 + a) = off) as E2.
  { unfold xsk_umem__extract_offset, XSK_UNALIGNED_BUF_OFFSET_SHIFT. rewrite Z.shiftr_div_pow2 by lia.
    rewrite Z.div_add_l by lia. rewrite Z.div_small by lia. lia. }
  split_and!; [done.. |]. unfold xsk_umem__get_data, xsk_umem__add_offset_to_addr. rewrite E1, E2.
  rewrite (u64_id (a + off)) by lia. rewrite u64_id by lia. lia.
Qed.

(** ** Concrete runs, across the wrap of the indices *)

Definition sample_ring (cp cc : Z) : xsk_ring :=
  {| xr_cached_prod := cp; xr_cached_cons := cc; xr_mask := 1; xr_size := 2;
     xr_producer := 0; xr_consumer := 0; xr_ring := 0; xr_flags := 0 |}.

Definition sample_mem (p c : Z) (d : list byte) : ring_mem :=
  {| rm_producer := p; rm_consumer := c; rm_flags := 0; rm_ring := d |}.

Definition addr1 : list byte := le_split 8 4096.
Definition addr2 : list byte := le_split 8 8192.

Definition sample_fill : list plabel :=
  [PReserve 2 2 (Some (2 ^ 32 - 1)); PWrite (2 ^ 32 - 1) addr1; PWrite 0 addr2; PReserve 1 0 None; PSubmit 2;
   PTake addr1; PTake addr2].

Lemma xsk_prod_refines_witness :
  exists s a, run (prod_step 8 xsk_ring_prod__fill_addr)
      (sample_ring (2 ^ 32 - 1) 1, sample_mem (2 ^ 32 - 1) (2 ^ 32 - 1) (replicate 16 x00)) sample_fill s /\
    run (pspec_step 2) {| ps_base := 2 ^ 32 - 1; ps_queue := []; ps_open := [] |} sample_fill a.
Proof.
  assert (exists r m, run (prod_step 8 xsk_ring_prod__fill_addr)
      (sample_ring (2 ^ 32 - 1) 1, sample_mem (2 ^ 32 - 1) (2 ^ 32 - 1) (replicate 16 x00)) sample_fill (r, m)) as (r & m & HR).
  { do 2 eexists. unfold sample_fill.
    eapply run_cons; [apply prod_reserve; [lia | vm_compute; reflexivity] |].
    eapply run_cons; [apply prod_write; [lia | vm_compute; reflexivity.. ] |].
    eapply run_cons; [apply prod_write; [lia | vm_compute; reflexivity.. ] |].
    eapply run_cons; [apply prod_reserve; [lia | vm_compute; reflexivity] |].
    eapply run_cons; [apply prod_submit; vm_compute; split; discriminate |].
    eapply run_cons; [apply prod_take; [vm_compute; discriminate | vm_compute; reflexivity] |].
    eapply run_cons; [apply prod_take; [vm_compute; discriminate | vm_compute; reflexivity] |].
    apply run_nil. }
  destruct (xsk_prod_refines 8 xsk_ring_prod__fill_addr 1 (sample_ring (2 ^ 32 - 1) 1)
    (sample_mem (2 ^ 32 - 1) (2 ^ 32 - 1) (replicate 16 x00)) (2 ^ 32 - 1)
    ltac:(apply list_elem_of_here) ltac:(split; done || lia) eq_refl eq_refl _ _ _ HR) as [(a & Ha & _) _].
  exists (r, m), a. split; [exact HR | exact Ha].
Defined.

Definition desc1 : list byte := desc_bytes {| d_addr := 4096; d_len := 60; d_options := 0 |}.
Definition desc2 : list byte := desc_bytes {| d_addr := 8192; d_len := 1500; d_options := 0 |}.

Definition sample_receive : list clabel :=
  [CPeek 4 0 None; CPut desc1; CPut desc2; CPeek 4 2 (Some (2 ^ 32 - 1)); CRead 0 desc2; CCancel 1; CRelease 1;
   CPeek 4 1 (Some 0); CRead 0 desc2].

Lemma xsk_cons_refines_witness :
  exists s a, run (cons_step 16 xsk_ring_cons__rx_desc)
      (sample_ring (2 ^ 32 - 1) (2 ^ 32 - 1), sample_mem (2 ^ 32 - 1) (2 ^ 32 - 1) (replicate 32 x00)) sample_receive s /\
    run (cspec_step 2) {| cs_base := 2 ^ 32 - 1; cs_held := []; cs_rest := [] |} sample_receive a.
Proof.
  assert (exists r m, run (cons_step 16 xsk_ring_cons__rx_desc)
      (sample_ring (2 ^ 32 - 1) (2 ^ 32 - 1), sample_mem (2 ^ 32 - 1) (2 ^ 32 - 1) (replicate 32 x00)) sample_receive (r, m))
    as (r & m & HR).
  { do 2 eexists. unfold sample_receive.
    eapply run_cons; [apply cons_peek; [lia | vm_compute; reflexivity] |].
    eapply run_cons; [apply cons_put; vm_compute; reflexivity |].
    eapply run_cons; [apply cons_put; vm_compute; reflexivity |].
    eapply run_cons; [apply cons_peek; [lia | vm_compute; reflexivity] |].
    eapply run_cons; [apply cons_read; [lia | vm_compute; reflexivity..] |].
    eapply run_cons; [apply cons_cancel; vm_compute; split; discriminate |].
    eapply run_cons; [apply cons_release; vm_compute; split; discriminate |].
    eapply run_cons; [apply cons_peek; [lia | vm_compute; reflexivity] |].
    eapply run_cons; [apply cons_read; [lia | vm_compute; reflexivity..] |].
    apply run_nil. }
  destruct (xsk_cons_refines 16 xsk_ring_cons__rx_desc 1 (sample_ring (2 ^ 32 - 1) (2 ^ 32 - 1))
    (sample_mem (2 ^ 32 - 1) (2 ^ 32 - 1) (replicate 32 x00)) (2 ^ 32 - 1)
    ltac:(apply list_elem_of_further, list_elem_of_here) ltac:(split; done || lia) eq_refl eq_refl _ _ _ HR) as [(a & Ha & _) _].
  exists (r, m), a. split; [exact HR | exact Ha].
Defined.
