(* ===== verification/XskProg.v ===== *)
(** The default program of AF_XDP sockets: src/lib/xdp-tools/lib/libxdp/xsk.c
    (finding, loading, attaching, counting and releasing it) and the two
    programs xsk_def_xdp_prog.c and xsk_def_xdp_prog_5.3.c.

    The first half has the functions of xsk.c one by one, on what the kernel
    and libbpf answer.  The second half runs any number of processes on one
    interface, each in [__xsk_setup_xdp_prog] and later in [xsk_socket__delete],
    one call after the other and in every interleaving: they share the programs
    attached to the interface, the count of users in each program's data and its map
    of sockets.  A call may fail wherever the code has a branch for it. *)
From S2P Require Import Prelude.
From S2P Require Import CLib.
From S2P Require Import XdpStats.
From S2P Require Import XdpProgram.
From S2P Require Import XdpDispatch.
From S2P Require Import XdpMultiprog.
From S2P Require Import XdpAttach.

(** ** The default programs *)

(** [bpf_redirect_map] on an XSKMAP, for one queue: the action, where [entry]
    is what the map has for the queue.  The lower two bits of the flags are
    the action without an entry; before Linux 5.3 the flags have to be 0. *)
Class RedirectMap := {
  redirect_map : option Z -> Z -> Z;
  redirect_hit fd : redirect_map (Some fd) 0 = XDP_REDIRECT
}.

Class RedirectFlags `{RedirectMap} : Prop := {
  redirect_flags_hit fd flags : 0 <= flags < 4 -> redirect_map (Some fd) flags = XDP_REDIRECT;
  redirect_flags_miss flags : 0 <= flags < 4 -> redirect_map None flags = flags
}.

Definition xsk_def_prog `{RedirectMap} (refcnt : Z) (xsks_map : gmap Z Z) (rx_queue_index : Z) : Z :=
  if refcnt =? 0 then XDP_PASS else redirect_map (xsks_map !! rx_queue_index) XDP_PASS.

(** The program for kernels up to 5.3. *)
Definition xsk_def_prog_5_3 `{RedirectMap} (refcnt : Z) (xsks_map : gmap Z Z) (rx_queue_index : Z) : Z :=
  let index := rx_queue_index in
  if refcnt =? 0 then XDP_PASS else
  match xsks_map !! index with
  | Some _ => redirect_map (xsks_map !! index) 0
  | None => XDP_PASS
  end.

(** Where the kernel supports the flags the two programs are the same. *)
Theorem xsk_def_progs_equal `{RedirectFlags} refcnt xsks_map q :
  xsk_def_prog refcnt xsks_map q = xsk_def_prog_5_3 refcnt xsks_map q.
Proof.
  unfold xsk_def_prog, xsk_def_prog_5_3. destruct (refcnt =? 0); [done |].
  destruct (xsks_map !! q).
  - by rewrite redirect_flags_hit, redirect_hit.
  - by rewrite redirect_flags_miss.
Qed.

(** ** Flags and queues *)

Definition XDP_FLAGS_MASK : Z := 31.

(** The warning about other flags is output only. *)
Definition xsk_convert_xdp_flags (xdp_flags : Z) : Z :=
  if c_true (Z.land xdp_flags XDP_FLAGS_SKB_MODE) then XDP_MODE_SKB else
  if c_true (Z.land xdp_flags XDP_FLAGS_DRV_MODE) then XDP_MODE_NATIVE else
  if c_true (Z.land xdp_flags XDP_FLAGS_HW_MODE) then XDP_MODE_HW else
  XDP_MODE_NATIVE.

Definition MAX_DEV_QUEUE_PATH_LEN : Z := 64.

Definition starts_with (p s : list byte) : bool := bool_decide (take (length p) s = p).

(** [readdir] gives the names in the directory of that path, or [opendir]
    fails.  The counters are 32-bit. *)
Definition xsk_get_queues_from_sysfs (readdir : list byte -> option (list (list byte))) (ifname : list byte) : Z * Z :=
  let path := str "/sys/class/net/" ++ ifname ++ str "/queues/" in
  if MAX_DEV_QUEUE_PATH_LEN <=? zlen path then (0, 0) else
  match readdir path with
  | None => (0, 0)
  | Some entries =>
    fold_left (fun '(rx, tx) d_name =>
      (if starts_with (str "rx") d_name then u32 (rx + 1) else rx,
       if starts_with (str "tx") d_name then u32 (tx + 1) else tx)) entries (0, 0)
  end.

Record ethtool_channels := { max_rx : Z; max_tx : Z; max_combined : Z }.

(** [socket] is the descriptor or [errno], [ioctl] the channels or [errno]. *)
Definition xsk_get_max_queues (socket : Z + Z) (ioctl : Z + ethtool_channels)
    (readdir : list byte -> option (list (list byte))) (ifname : list byte) : Z :=
  match socket with
  | inl errno => - errno
  | inr _ =>
    match ioctl with
    | inl errno =>
      if negb (errno =? EOPNOTSUPP) then - errno else
      let '(rx, tx) := xsk_get_queues_from_sysfs readdir (cstr (take 15 ifname ++ [NUL])) in
      s32 (Z.max (Z.max rx tx) 1)
    | inr channels => Z.max (s32 (Z.max (max_rx channels) (max_tx channels))) (s32 (max_combined channels))
    end
  end.

(** [has_map] says whether the object has "xsks_map"; [set_max_entries] is
    libbpf's answer for the number of queues. *)
Definition xsk_size_map (max_queues : Z) (has_map : bool) (set_max_entries : Z -> Z) : Z :=
  if max_queues <? 0 then max_queues else
  if negb has_map then - ENOENT else
  set_max_entries max_queues.

(** Without channels, the size that is set is at least 1 and covers the queues
    found in the directory. *)
Theorem xsk_max_queues_sysfs fd readdir ifname :
  (forall p l, readdir p = Some l -> zlen l < 2 ^ 31) ->
  let '(rx, tx) := xsk_get_queues_from_sysfs readdir (cstr (take 15 ifname ++ [NUL])) in
  xsk_get_max_queues (inr fd) (inl EOPNOTSUPP) readdir ifname = Z.max (Z.max rx tx) 1.
Proof.
  intros Hd. unfold xsk_get_max_queues. rewrite Z.eqb_refl. cbn [negb].
  set (count := fun '(rx, tx) d_name =>
      (if starts_with (str "rx") d_name then u32 (rx + 1) else rx,
       if starts_with (str "tx") d_name then u32 (tx + 1) else tx)).
  assert (forall l c, 0 <= c.1 -> 0 <= c.2 -> 0 <= (fold_left count l c).1 <= c.1 + zlen l /\
    0 <= (fold_left count l c).2 <= c.2 + zlen l) as Hl.
  { assert (forall x, 0 <= x -> 0 <= u32 (x + 1) <= x + 1) as Hu.
    { intros x Hx. pose proof (u32_range (x + 1)). unfold u32 in *. split; [lia |]. apply Z.mod_le; lia. }
    induction l as [| d l IH]; intros [rx tx] Hrx Htx; cbn [fst snd] in *; [unfold zlen; simpl; lia |].
    cbn [fold_left]. pose proof (Hu rx Hrx). pose proof (Hu tx Htx).
    specialize (IH (count (rx, tx) d) ltac:(cbn; case_match; lia) ltac:(cbn; case_match; lia)).
    rewrite zlen_cons. cbn [count fst snd] in *. repeat case_match; lia. }
  unfold xsk_get_queues_from_sysfs. fold count. destruct (_ <=? _); [by rewrite s32_id by lia |].
  destruct (readdir _) as [l |] eqn:E; [| by rewrite s32_id by lia]. apply Hd in E.
  specialize (Hl l (0, 0) ltac:(simpl; lia) ltac:(simpl; lia)). destruct (fold_left count l _) as [r t].
  cbn [fst snd] in Hl. rewrite s32_id by lia. done.
Qed.

(** ** The maps of a program *)

(** What is used of [struct bpf_map_info]. *)
Record xmap_info := { xm_name : list byte; xm_key_size : Z; xm_value_size : Z }.

(** [strncmp(name, s, sizeof(name)) == 0] *)
Definition name_is (name s : list byte) : bool := bool_decide (cstr name = s).

Definition xsk_map_is_socket_map (i : xmap_info) : bool :=
  name_is (xm_name i) (str "xsks_map") && (xm_key_size i =? 4) && (xm_value_size i =? 4).

Definition xsk_map_is_refcnt_map (i : xmap_info) : bool :=
  name_is (xm_name i) (str "xsk_def_.data") && (4 <=? xm_value_size i).

(** [mf_nr] is the number of maps the first query gives, [mf_ids] what the
    second one stored and [mf_nr2] the number it gives; [inl] an error. *)
Record maps_env := {
  mf_nr : Z + Z;
  mf_alloc : bool;
  mf_ids : list Z;
  mf_nr2 : Z + Z;
  mf_fd : Z -> Z + Z;              (** bpf_map_get_fd_by_id *)
  mf_info : Z -> Z + xmap_info     (** of an id *)
}.

(** The loop from index [i] on: the result, and the descriptors it leaves
    open. *)
Fixpoint lookup_maps (e : maps_env) (filter : xmap_info -> bool) (n i : nat) : option (Z * list Z) :=
  match n with
  | O => Some (- ENOENT, [])
  | S n' =>
    id ← mf_ids e !! i;
    match mf_fd e id with
    | inl _ => lookup_maps e filter n' (S i)
    | inr fd =>
      match mf_info e id with
      | inl _ => lookup_maps e filter n' (S i)
      | inr info => if filter info then Some (fd, [fd]) else lookup_maps e filter n' (S i)
      end
    end
  end.

Definition xsk_lookup_map_by_filter (e : maps_env) (filter : xmap_info -> bool) : option (Z * list Z) :=
  match mf_nr e with
  | inl err => Some (err, [])
  | inr _ =>
    if negb (mf_alloc e) then Some (- ENOMEM, []) else
    match mf_nr2 e with
    | inl err => Some (err, [])
    | inr nr => lookup_maps e filter (Z.to_nat nr) 0
    end
  end.

Definition xsk_lookup_bpf_map (e : maps_env) : option (Z * list Z) :=
  xsk_lookup_map_by_filter e xsk_map_is_socket_map.

(** The messages are output only. *)
Definition xsk_lookup_refcnt_map (e : maps_env) : option (Z * list Z) :=
  xsk_lookup_map_by_filter e xsk_map_is_refcnt_map.

(** The answers about a program: as many ids as it has maps, descriptors are
    not negative and errors are. *)
Record maps_env_ok (e : maps_env) : Prop := {
  mo_nr err : mf_nr e = inl err -> err < 0;
  mo_nr2 err : mf_nr2 e = inl err -> err < 0;
  mo_ids n : mf_nr2 e = inr n -> n = zlen (mf_ids e);
  mo_fd id fd : mf_fd e id = inr fd -> 0 <= fd
}.

(** Map [id] is one the filter accepts, and the kernel hands it out. *)
Definition offered (e : maps_env) (filter : xmap_info -> bool) (id fd : Z) : Prop :=
  mf_fd e id = inr fd /\ exists info, mf_info e id = inr info /\ filter info = true.

Lemma lookup_maps_spec e filter n : forall i, maps_env_ok e -> (i + n = length (mf_ids e))%nat ->
  exists r open, lookup_maps e filter n i = Some (r, open) /\
    ((r = - ENOENT /\ open = [] /\ forall j id fd, (i <= j)%nat -> mf_ids e !! j = Some id -> ~ offered e filter id fd) \/
     (0 <= r /\ open = [r] /\ exists j id, (i <= j)%nat /\ mf_ids e !! j = Some id /\ offered e filter id r)).
Proof.
  induction n as [| n IH]; intros i He Hi; cbn [lookup_maps].
  { do 2 eexists. split; [done |]. left. split_and!; [done.. |]. intros j id fd Hj E. apply lookup_lt_Some in E. lia. }
  destruct (lookup_lt_is_Some_2 (mf_ids e) i) as [id Hid]; [lia |]. rewrite Hid. cbn [mbind option_bind].
  destruct (IH (S i) He ltac:(lia)) as (r & open & E & HR).
  assert ((forall fd, ~ offered e filter id fd) -> lookup_maps e filter n (S i) = Some (r, open) ->
    exists r open, lookup_maps e filter n (S i) = Some (r, open) /\
    ((r = - ENOENT /\ open = [] /\ forall j id fd, (i <= j)%nat -> mf_ids e !! j = Some id -> ~ offered e filter id fd) \/
     (0 <= r /\ open = [r] /\ exists j id, (i <= j)%nat /\ mf_ids e !! j = Some id /\ offered e filter id r))) as Hskip.
  { intros Hno _. exists r, open. split; [done |].
    destruct HR as [(-> & -> & H) | (Hr & -> & j & id' & Hj & Hl & Ho)].
    - left. split_and!; [done.. |]. intros j id' fd Hj Hl. destruct (decide (j = i)) as [-> |].
      + rewrite Hid in Hl. injection Hl as <-. apply Hno.
      + apply (H j); [lia | done].
    - right. split_and!; [done.. |]. exists j, id'. split_and!; [lia | done..]. }
  destruct (mf_fd e id) as [err | fd] eqn:Ef; [apply Hskip; [| done]; intros fd [H _]; congruence |].
  destruct (mf_info e id) as [err | info] eqn:Ei; [apply Hskip; [| done]; intros ? [_ (x & H & _)]; congruence |].
  destruct (filter info) eqn:Eb; [| apply Hskip; [| done]; intros ? [_ (x & H & H')]; congruence].
  do 2 eexists. split; [done |]. right. split_and!; [by eapply mo_fd | done |].
  exists i, id. split_and!; [lia | done |]. split; [done |]. by exists info.
Qed.

(** Looking up a map: the descriptor of a map the filter accepts, which is the only one
    left open, or an error and none is. *)
Theorem xsk_lookup_map_spec e filter : maps_env_ok e ->
  exists r open, xsk_lookup_map_by_filter e filter = Some (r, open) /\
    open = (if 0 <=? r then [r] else []) /\
    (0 <= r -> exists id, id ∈ mf_ids e /\ offered e filter id r) /\
    (forall n m id fd, mf_nr e = inr n -> mf_alloc e = true -> mf_nr2 e = inr m -> id ∈ mf_ids e ->
       offered e filter id fd -> 0 <= r).
Proof.
  intros He. unfold xsk_lookup_map_by_filter. destruct (mf_nr e) as [err | n] eqn:En.
  { apply (mo_nr _ He) in En. do 2 eexists. split; [done |]. rewrite (proj2 (Z.leb_gt _ _)) by lia. split_and!; [done | lia | done]. }
  destruct (mf_alloc e); cbn [negb]; [| do 2 eexists; split; [done |]; split_and!; [done | unfold ENOMEM; lia | done]].
  destruct (mf_nr2 e) as [err | m] eqn:Em.
  { apply (mo_nr2 _ He) in Em. do 2 eexists. split; [done |]. rewrite (proj2 (Z.leb_gt _ _)) by lia. split_and!; [done | lia | done]. }
  apply (mo_ids _ He) in Em as ->. unfold zlen. rewrite Nat2Z.id.
  destruct (lookup_maps_spec e filter (length (mf_ids e)) 0 He eq_refl) as (r & open & E & HR).
  exists r, open. split; [done |]. destruct HR as [(-> & -> & H) | (Hr & -> & j & id & _ & Hl & Ho)].
  - split_and!; [done | unfold ENOENT; lia |]. intros ? ? id fd _ _ _ [j Hj]%list_elem_of_lookup Ho.
    by destruct (H j id fd ltac:(lia) Hj).
  - rewrite (proj2 (Z.leb_le _ _)) by lia. split_and!; [done | | done]. intros _. exists id.
    split; [by eapply list_elem_of_lookup_2 | done].
Qed.

(** ** Finding the program *)

Definition XSK_PROG_VERSION : Z := 1.
Definition xsk_def_prog_name : list byte := str "xsk_def_prog".
Definition xsk_version_name : list byte := str "xsk_prog_version".

(** The first program of that name among those [xdp_multiprog__next_prog]
    visits. *)
Fixpoint find_by_name (name : list byte) (progs : list xdp_program) : option xdp_program :=
  match progs with
  | [] => None
  | p :: progs' => if bool_decide (prog_name p = name) then Some p else find_by_name name progs'
  end.

(** [found] is the answer of [xdp_multiprog__get_from_ifindex], [about] that
    of the kernel about the descriptor that is cloned.  The result is an error, NULL
    or a program. *)
Definition xsk_lookup_program (found : Z + xdp_multiprog) (about : Z -> fd_env) :
    option (Z + option xdp_program) :=
  match found with
  | inl _ => Some (inr None)
  | inr multi_prog =>
    prog ← (if is_legacy multi_prog
            then p ← main_prog multi_prog;
                 Some (if bool_decide (prog_name p = xsk_def_prog_name) then Some p else None)
            else Some (find_by_name xsk_def_prog_name (first_prog multi_prog)));
    match prog with
    | None => Some (inr None)
    | Some p =>
      '(err, version) ← match prog_btf p with
                        | None => Some (- ENOENT, 0)
                        | Some b => check_xdp_prog_version b xsk_version_name
                        end;
      if negb (err =? 0) then Some (inl err) else
      if XSK_PROG_VERSION <? version then Some (inl (- EOPNOTSUPP)) else
      if prog_fd p <? 0 then Some (inl (- EINVAL)) else
      r ← xdp_program__from_fd (about (prog_fd p));
      Some (match r with inl err => inl err | inr p => inr (Some p) end)
    end
  end.

(** ** Counting the users *)

(** The answers to one update of the count: information about the map, the
    allocation, the lock, and whether reading or writing the map fails. *)
Record refcnt_env := {
  rf_info : Z;
  rf_alloc : bool;
  rf_lock : Z;
  rf_lookup : Z;
  rf_update : Z
}.

(** The result and the count in the map; the count is read and written while
    the lock is held. *)
Definition xsk_update_prog_refcnt (e : refcnt_env) (delta value : Z) : Z * Z :=
  if negb (rf_info e =? 0) then (rf_info e, value) else
  if negb (rf_alloc e) then (- ENOMEM, value) else
  if rf_lock e <? 0 then (rf_lock e, value) else
  if negb (rf_lookup e =? 0) then (rf_lookup e, value) else
  if c_true value then
    if negb (rf_update e =? 0) then (rf_update e, value) else (s32 (value + delta), s32 (value + delta))
  else (value, value).

Definition xsk_incr_prog_refcnt (e : refcnt_env) (value : Z) : Z * Z := xsk_update_prog_refcnt e 1 value.
Definition xsk_decr_prog_refcnt (e : refcnt_env) (value : Z) : Z * Z := xsk_update_prog_refcnt e (-1) value.

Record refcnt_env_ok (e : refcnt_env) : Prop := {
  ro_info : rf_info e <= 0;
  ro_lookup : rf_lookup e <= 0;
  ro_update : rf_update e <= 0
}.

(** An update fails and leaves the count alone, or counts, unless the count
    was 0 already. *)
Lemma update_refcnt_spec e delta v r v' : refcnt_env_ok e -> 0 <= v -> delta = 1 \/ delta = -1 -> v + delta < 2 ^ 31 ->
  xsk_update_prog_refcnt e delta v = (r, v') ->
  (r < 0 /\ v' = v) \/ (r = 0 /\ v = 0 /\ v' = 0) \/ (0 < v /\ r = v + delta /\ v' = v + delta).
Proof.
  intros [H1 H2 H3] Hv Hd Hlt. unfold xsk_update_prog_refcnt. destruct (rf_info e =? 0) eqn:E1; cbn [negb]; [| intros [= <- <-]; lia].
  destruct (rf_alloc e); cbn [negb]; [| intros [= <- <-]; left; done].
  destruct (rf_lock e <? 0) eqn:E2; [intros [= <- <-]; lia |].
  destruct (rf_lookup e =? 0) eqn:E3; cbn [negb]; [| intros [= <- <-]; lia].
  unfold c_true. destruct (v =? 0) eqn:E4; cbn [negb]; [intros [= <- <-]; lia |].
  destruct (rf_update e =? 0) eqn:E5; cbn [negb]; [| intros [= <- <-]; lia].
  rewrite s32_id by lia. intros [= <- <-]. lia.
Qed.

(** ** What the kernel supports *)

(** The answers of creating a map, loading a program that redirects with the
    action XDP_PASS in the flags, and running it: the result, and the
    descriptors that were closed. *)
Definition xsk_check_redirect_flags (map_create prog_load : Z) (test_run : Z * Z) : bool * list Z :=
  if map_create <? 0 then (false, []) else
  if prog_load <? 0 then (false, [map_create]) else
  let '(ret, retval) := test_run in
  ((ret =? 0) && (retval =? XDP_PASS), [prog_load; map_create]).

(** The file that is loaded. *)
Definition xsk_default_file (redirect_flags : bool) : list byte :=
  if redirect_flags then str "xsk_def_xdp_prog.o" else str "xsk_def_xdp_prog_5.3.o".
