(* ===== verification/XskRefcnt.v ===== *)
(** Processes that share the default program of AF_XDP sockets on an
    interface: [__xsk_setup_xdp_prog], [xsk_delete_map_entry] and
    [xsk_release_xdp_prog] of src/lib/xdp-tools/lib/libxdp/xsk.c, step by step.

    A process is at a place in the code; the calls between two places are one
    step.  The steps of different processes come in any order.  Where the code has a
    branch for a failing call there is a step for it; those that break what
    the count promises are named by [fault], so that a theorem can say which of them
    it allows. *)
From S2P Require Import Prelude.
From S2P Require Import CLib.
From S2P Require Import XdpStats.
From S2P Require Import XskProg.

(** ** The interface and the processes *)

(** A default program in the kernel: the count in its data, if there is a map
    for it, and its map of sockets by queue. *)
Record kprog := { k_refcnt : option Z; k_xsks : gmap Z Z }.

(** The default programs that were ever loaded, by id, and those attached to
    the interface, in the order they run. *)
Record iface := { if_progs : gmap Z kprog; if_attached : list Z }.

(** The places: [own] says that the descriptor of the count is open
    ([refcnt_map_fd >= 0]), [att] is the variable [attached]. *)
Inductive pc :=
| Start
| LookedUp (p : Z)
| MapFound (p : Z)
| NeedProg
| AttachedProg (p : Z)
| MapLookup (p : Z) (own att : bool)
| MapUpdate (p : Z) (own att : bool)
| Ready (p : Z) (own : bool)
| ErrLookup (p : Z) (att : bool)
| Failed
| Leaving (p : Z) (own : bool)
| Detaching (p : Z)
| Gone.

Record proc := { p_queue : Z; p_fd : Z; p_rx : bool; p_pc : pc }.

Inductive fault :=
| MapHidden          (** the count's map exists, but its descriptor cannot be had *)
| AttachedLeft       (** looking up the count fails after the program was attached *)
| AttacherFails      (** a call fails later in the process that attached the program *)
| UserFails          (** a call fails in a process that only uses the program *)
| DecrFails          (** the count cannot be decremented *)
| DetachFails.

Definition set_prog (I : iface) (p : Z) (k : kprog) : iface :=
  {| if_progs := <[p := k]> (if_progs I); if_attached := if_attached I |}.

Definition set_refcnt (k : kprog) (v : Z) : kprog := {| k_refcnt := Some v; k_xsks := k_xsks k |}.
Definition set_xsks (k : kprog) (m : gmap Z Z) : kprog := {| k_refcnt := k_refcnt k; k_xsks := m |}.

Definition detach (I : iface) (p : Z) : iface :=
  {| if_progs := if_progs I; if_attached := List.filter (fun x => negb (x =? p)) (if_attached I) |}.

(** ** Steps *)

Section Steps.
Context (allow : fault -> bool).

(** [setup_step q fd rx I pc I' pc']: a step of [__xsk_setup_xdp_prog] for the
    socket [fd] of queue [q]. *)
Inductive setup_step (q fd : Z) (rx : bool) : iface -> pc -> iface -> pc -> Prop :=
| st_lookup_err I : setup_step q fd rx I Start I Failed
| st_lookup_none I : setup_step q fd rx I Start I NeedProg
| st_lookup I p l : if_attached I = p :: l -> setup_step q fd rx I Start I (LookedUp p)
| st_count_err I p : setup_step q fd rx I (LookedUp p) I Failed
| st_count_none I p k : if_progs I !! p = Some k -> k_refcnt k = None ->
    setup_step q fd rx I (LookedUp p) I (MapLookup p false false)
| st_count_hidden I p : allow MapHidden = true -> setup_step q fd rx I (LookedUp p) I (MapLookup p false false)
| st_count I p k v : if_progs I !! p = Some k -> k_refcnt k = Some v ->
    setup_step q fd rx I (LookedUp p) I (MapFound p)
| st_incr I p k v e r v' : if_progs I !! p = Some k -> k_refcnt k = Some v -> refcnt_env_ok e ->
    xsk_incr_prog_refcnt e v = (r, v') ->
    setup_step q fd rx I (MapFound p) (set_prog I p (set_refcnt k v'))
      (if r <? 0 then Failed else if r =? 0 then NeedProg else MapLookup p true false)
| st_load_err I : setup_step q fd rx I NeedProg I Failed
| st_attach I p pre post rc : if_attached I = pre ++ post -> if_progs I !! p = None -> rc = Some 1 \/ rc = None ->
    setup_step q fd rx I NeedProg
      {| if_progs := <[p := {| k_refcnt := rc; k_xsks := ∅ |}]> (if_progs I); if_attached := pre ++ p :: post |}
      (AttachedProg p)
| st_own I p k v : if_progs I !! p = Some k -> k_refcnt k = Some v ->
    setup_step q fd rx I (AttachedProg p) I (MapLookup p true true)
| st_own_none I p k : if_progs I !! p = Some k -> k_refcnt k = None ->
    setup_step q fd rx I (AttachedProg p) I (MapLookup p false true)
| st_own_hidden I p : allow MapHidden = true -> setup_step q fd rx I (AttachedProg p) I (MapLookup p false true)
| st_own_err I p : allow AttachedLeft = true -> setup_step q fd rx I (AttachedProg p) I Failed
| st_xsks I p (own att : bool) : setup_step q fd rx I (MapLookup p own att) I (MapUpdate p own att)
| st_xsks_err I p (own att : bool) : allow (if att then AttacherFails else UserFails) = true ->
    setup_step q fd rx I (MapLookup p own att) I (ErrLookup p att)
| st_update I p k (own att : bool) : rx = true -> if_progs I !! p = Some k ->
    setup_step q fd rx I (MapUpdate p own att) (set_prog I p (set_xsks k (<[q := fd]> (k_xsks k)))) (Ready p own)
| st_update_err I p (own att : bool) : rx = true -> allow (if att then AttacherFails else UserFails) = true ->
    setup_step q fd rx I (MapUpdate p own att) I (ErrLookup p att)
| st_no_rx I p (own att : bool) : rx = false -> setup_step q fd rx I (MapUpdate p own att) I (Ready p own)
| st_err_detach I p : setup_step q fd rx I (ErrLookup p true) (detach I p) Failed
| st_err_detach_fails I p : setup_step q fd rx I (ErrLookup p true) I Failed
| st_err I p : setup_step q fd rx I (ErrLookup p false) I Failed.

(** The same for [xsk_delete_map_entry] and [xsk_release_xdp_prog].  The entry
    of the socket map is taken out: the code does not look at the result of that call, and
    the kernel takes a closed socket out of the map itself. *)
Inductive release_step (q : Z) : iface -> pc -> iface -> pc -> Prop :=
| st_leave I p k own : if_progs I !! p = Some k ->
    release_step q I (Ready p own) (set_prog I p (set_xsks k (delete q (k_xsks k)))) (Leaving p own)
| st_uncounted I p : release_step q I (Leaving p false) I Gone
| st_decr I p k v e r v' : if_progs I !! p = Some k -> k_refcnt k = Some v -> refcnt_env_ok e ->
    xsk_decr_prog_refcnt e v = (r, v') -> (r < 0 -> allow DecrFails = true) ->
    release_step q I (Leaving p true) (set_prog I p (set_refcnt k v')) (if c_true r then Gone else Detaching p)
| st_detach I p : release_step q I (Detaching p) (detach I p) Gone
| st_detach_fails I p : allow DetachFails = true -> release_step q I (Detaching p) I Gone.

Definition with_pc (pr : proc) (c : pc) : proc :=
  {| p_queue := p_queue pr; p_fd := p_fd pr; p_rx := p_rx pr; p_pc := c |}.

Inductive sys_step : iface * list proc -> iface * list proc -> Prop :=
| ss_setup I ps i pr I' c : ps !! i = Some pr -> setup_step (p_queue pr) (p_fd pr) (p_rx pr) I (p_pc pr) I' c ->
    sys_step (I, ps) (I', <[i := with_pc pr c]> ps)
| ss_release I ps i pr I' c : ps !! i = Some pr -> release_step (p_queue pr) I (p_pc pr) I' c ->
    sys_step (I, ps) (I', <[i := with_pc pr c]> ps).

End Steps.

(** ** What a packet meets *)

(** The default programs of the interface in order, until one does not pass
    the packet on: XDP_PASS is a chain call action of theirs. *)
Fixpoint run_default `{RedirectMap} (progs : gmap Z kprog) (attached : list Z) (q : Z) : Z * option Z :=
  match attached with
  | [] => (XDP_PASS, None)
  | p :: attached' =>
    match progs !! p with
    | None => run_default progs attached' q
    | Some k =>
      let action := xsk_def_prog (default 1 (k_refcnt k)) (k_xsks k) q in
      if action =? XDP_PASS then run_default progs attached' q else (action, k_xsks k !! q)
    end
  end.

(** ** Counting *)

Definition count (f : proc -> bool) (ps : list proc) : Z := foldr (fun pr n => c_bool (f pr) + n) 0 ps.

Lemma count_range f ps : 0 <= count f ps <= zlen ps.
Proof.
  induction ps as [| pr ps IH]; simpl; [unfold zlen; simpl; lia |]. rewrite zlen_cons. unfold c_bool. destruct (f pr); lia.
Qed.

Lemma count_insert f ps i pr pr' : ps !! i = Some pr ->
  count f (<[i := pr']> ps) = count f ps - c_bool (f pr) + c_bool (f pr').
Proof.
  revert i. induction ps as [| x ps IH]; intros [| i] E; simplify_eq/=; [lia |]. rewrite (IH _ E). lia.
Qed.

Lemma count_pos f ps i pr : ps !! i = Some pr -> f pr = true -> 0 < count f ps.
Proof.
  revert i. induction ps as [| x ps IH]; intros [| i] E Hf; simplify_eq/=.
  - rewrite Hf. pose proof (count_range f ps). unfold c_bool. lia.
  - specialize (IH i E Hf). unfold c_bool. destruct (f x); lia.
Qed.

(** The processes that are counted in program [p]. *)
Definition counts (p : Z) (pr : proc) : bool :=
  match p_pc pr with
  | AttachedProg p' | MapLookup p' true _ | MapUpdate p' true _ | Ready p' true | Leaving p' true => p =? p'
  | _ => false
  end.

(** The processes that have used up their one chance to be counted. *)
Definition past (pr : proc) : bool :=
  match p_pc pr with Start | LookedUp _ | MapFound _ | NeedProg => false | _ => true end.

Definition users (p : Z) (ps : list proc) : Z := count (counts p) ps.

(** ** The invariant *)

Section Invariant.
Context {hidden : bool}.

(** [hidden] says that the map of a count may have been overlooked. *)
Definition pc_ok (progs : gmap Z kprog) (c : pc) : Prop :=
  match c with
  | Start | NeedProg | Failed | Gone => True
  | LookedUp p | AttachedProg p => is_Some (progs !! p)
  | MapFound p => exists k v, progs !! p = Some k /\ k_refcnt k = Some v
  | MapLookup p own _ | MapUpdate p own _ | Ready p own | Leaving p own =>
      exists k, progs !! p = Some k /\ (own = true -> is_Some (k_refcnt k)) /\
        (hidden = false -> is_Some (k_refcnt k) -> own = true)
  | ErrLookup p att => att = false
  | Detaching p => exists k, progs !! p = Some k /\ k_refcnt k = Some 0
  end.

(** The count covers the processes that rely on it, and a program that is
    counted or cannot be counted is attached. *)
Definition prog_ok (attached : list Z) (ps : list proc) (p : Z) (k : kprog) : Prop :=
  match k_refcnt k with
  | Some v => users p ps <= v <= count past ps /\ (v <> 0 -> p ∈ attached)
  | None => p ∈ attached
  end.

Definition at_ready (pr : proc) (p : Z) : Prop := exists own, p_pc pr = Ready p own.

Record inv (I : iface) (ps : list proc) : Prop := {
  in_attached p : p ∈ if_attached I -> is_Some (if_progs I !! p);
  in_prog p k : if_progs I !! p = Some k -> prog_ok (if_attached I) ps p k;
  in_pc i pr : ps !! i = Some pr -> pc_ok (if_progs I) (p_pc pr);
  in_entry p k q fd : if_progs I !! p = Some k -> k_xsks k !! q = Some fd ->
    exists i pr, ps !! i = Some pr /\ p_queue pr = q /\ p_fd pr = fd /\ p_rx pr = true /\ at_ready pr p;
  in_ready i pr p k : ps !! i = Some pr -> at_ready pr p -> p_rx pr = true -> if_progs I !! p = Some k ->
    k_xsks k !! p_queue pr = Some (p_fd pr)
}.

(** Programs do not disappear, keep or lack their count, and a count of 0
    stays. *)
Definition progs_le (m m' : gmap Z kprog) : Prop :=
  forall p k, m !! p = Some k -> exists k', m' !! p = Some k' /\
    (is_Some (k_refcnt k) <-> is_Some (k_refcnt k')) /\ (k_refcnt k = Some 0 -> k_refcnt k' = Some 0).

Lemma progs_le_refl m : progs_le m m.
Proof. intros p k E. by exists k. Qed.

Lemma progs_le_insert m p k k' : m !! p = Some k -> (is_Some (k_refcnt k) <-> is_Some (k_refcnt k')) ->
  (k_refcnt k = Some 0 -> k_refcnt k' = Some 0) -> progs_le m (<[p := k']> m).
Proof.
  intros E H1 H2 p0 k0 E0. destruct (decide (p0 = p)) as [-> | Hne].
  - rewrite E in E0. injection E0 as <-. exists k'. by rewrite lookup_insert_eq.
  - exists k0. by rewrite lookup_insert_ne.
Qed.

Lemma pc_ok_le m m' c : progs_le m m' -> pc_ok m c -> pc_ok m' c.
Proof.
  intros HL. assert (forall p, is_Some (m !! p) -> is_Some (m' !! p)) as Hs.
  { intros p [k E]. destruct (HL _ _ E) as (k' & E' & _). by exists k'. }
  assert (forall p (own : bool), (exists k, m !! p = Some k /\ (own = true -> is_Some (k_refcnt k)) /\
      (hidden = false -> is_Some (k_refcnt k) -> own = true)) ->
    exists k, m' !! p = Some k /\ (own = true -> is_Some (k_refcnt k)) /\
      (hidden = false -> is_Some (k_refcnt k) -> own = true)) as Ho.
  { intros p own (k & E & H). destruct (HL _ _ E) as (k' & E' & H1 & _). exists k'. by rewrite <- H1. }
  destruct c; simpl; auto.
  - intros (k & v & E & Ev). destruct (HL _ _ E) as (k' & E' & H1 & _). rewrite Ev in H1.
    destruct (proj1 H1 ltac:(by eexists)) as [v' Ev']. by exists k', v'.
  - intros (k & E & Ev). destruct (HL _ _ E) as (k' & E' & _ & H2). exists k'. auto.
Qed.

Lemma with_pc_id pr : with_pc pr (p_pc pr) = pr.
Proof. by destruct pr. Qed.

(** A step of process [i] to the place [c]. *)
Lemma pc_ok_step m m' (ps : list proc) i pr c : progs_le m m' -> ps !! i = Some pr -> pc_ok m' c ->
  (forall i pr, ps !! i = Some pr -> pc_ok m (p_pc pr)) ->
  forall j pr', <[i := with_pc pr c]> ps !! j = Some pr' -> pc_ok m' (p_pc pr').
Proof.
  intros HL Hi Hc HI j pr' [(<- & <- & _) | [_ Hj]]%list_lookup_insert_Some; [done |].
  by eapply pc_ok_le, HI.
Qed.

(** The count of the users after a step. *)
Lemma users_step p ps i pr c : ps !! i = Some pr ->
  users p (<[i := with_pc pr c]> ps) = users p ps - c_bool (counts p pr) + c_bool (counts p (with_pc pr c)).
Proof. apply count_insert. Qed.

Lemma past_step ps i pr c : ps !! i = Some pr ->
  count past (<[i := with_pc pr c]> ps) = count past ps - c_bool (past pr) + c_bool (past (with_pc pr c)).
Proof. apply count_insert. Qed.

(** A process that is not ready, before or after, does not matter for the
    entries of the socket maps. *)
Lemma entries_step (progs progs' : gmap Z kprog) (ps : list proc) i pr c :
  ps !! i = Some pr -> (forall p, ~ at_ready pr p) -> (forall p, at_ready (with_pc pr c) p -> p_rx pr = false) ->
  (forall p k', progs' !! p = Some k' -> k_xsks k' = ∅ \/ exists k, progs !! p = Some k /\ k_xsks k' = k_xsks k) ->
  (forall p k q fd, progs !! p = Some k -> k_xsks k !! q = Some fd ->
    exists i pr, ps !! i = Some pr /\ p_queue pr = q /\ p_fd pr = fd /\ p_rx pr = true /\ at_ready pr p) ->
  forall p k q fd, progs' !! p = Some k -> k_xsks k !! q = Some fd ->
    exists j pr', <[i := with_pc pr c]> ps !! j = Some pr' /\ p_queue pr' = q /\ p_fd pr' = fd /\ p_rx pr' = true /\
      at_ready pr' p.
Proof.
  intros Hi Hn Hc Hx HE p k q fd Hk Hq. destruct (Hx p k Hk) as [E | (k0 & Hk0 & E)]; rewrite E in Hq; [done |].
  destruct (HE p k0 q fd Hk0 Hq) as (j & pr' & Hj & H). exists j, pr'. split; [| done].
  rewrite list_lookup_insert_ne; [done |]. intros ->. rewrite Hi in Hj. injection Hj as <-. by apply (Hn p), H.
Qed.

Lemma ready_step (progs progs' : gmap Z kprog) (ps : list proc) i pr c :
  ps !! i = Some pr -> (forall p, at_ready (with_pc pr c) p -> p_rx pr = false) ->
  (forall p k', progs' !! p = Some k' -> forall j pr', ps !! j = Some pr' -> j <> i -> at_ready pr' p ->
     exists k, progs !! p = Some k /\ k_xsks k' !! p_queue pr' = k_xsks k !! p_queue pr') ->
  (forall i pr p k, ps !! i = Some pr -> at_ready pr p -> p_rx pr = true -> progs !! p = Some k ->
    k_xsks k !! p_queue pr = Some (p_fd pr)) ->
  forall j pr' p k, <[i := with_pc pr c]> ps !! j = Some pr' -> at_ready pr' p -> p_rx pr' = true -> progs' !! p = Some k ->
    k_xsks k !! p_queue pr' = Some (p_fd pr').
Proof.
  intros Hi Hc Hx HR j pr' p k [(<- & <- & _) | [Hne Hj]]%list_lookup_insert_Some Ha Hrx Hk.
  - apply Hc in Ha. simpl in Hrx. congruence.
  - destruct (Hx p k Hk j pr' Hj ltac:(done) Ha) as (k0 & Hk0 & E). rewrite E. by eapply HR.
Qed.

Lemma prog_ok_step attached ps i pr c p k : ps !! i = Some pr ->
  c_bool (counts p (with_pc pr c)) <= c_bool (counts p pr) -> c_bool (past pr) <= c_bool (past (with_pc pr c)) ->
  prog_ok attached ps p k -> prog_ok attached (<[i := with_pc pr c]> ps) p k.
Proof.
  intros Hi Hc Hp. unfold prog_ok. destruct (k_refcnt k) as [v |]; [| done].
  rewrite (users_step _ _ _ _ _ Hi), (past_step _ _ _ _ Hi). intros [H1 H2]. split; [lia | done].
Qed.

(** Steps that leave the interface alone. *)
Lemma inv_same I ps i pr c : inv I ps -> ps !! i = Some pr ->
  (forall p, ~ at_ready pr p) -> (forall p, at_ready (with_pc pr c) p -> p_rx pr = false) ->
  (forall p, counts p (with_pc pr c) = true -> counts p pr = true) -> (past pr = true -> past (with_pc pr c) = true) ->
  pc_ok (if_progs I) c -> inv I (<[i := with_pc pr c]> ps).
Proof.
  intros HI Hi Hr Hr' Hc Hp Hok. split.
  - apply (in_attached _ _ HI).
  - intros p k Hk. apply prog_ok_step; [done | | | by apply (in_prog _ _ HI)].
    + specialize (Hc p). unfold c_bool. destruct (counts p (with_pc pr c)), (counts p pr); lia || by specialize (Hc eq_refl).
    + unfold c_bool. destruct (past pr), (past (with_pc pr c)); lia || by specialize (Hp eq_refl).
  - by apply (pc_ok_step (if_progs I)), HI; [apply progs_le_refl | |].
  - apply (entries_step (if_progs I) (if_progs I)); try done; [| apply HI]. intros p k' Hk. right. by exists k'.
  - apply (ready_step (if_progs I) (if_progs I)); try done; [| apply HI]. intros p k' Hk j pr' _ _ _. by exists k'.
Qed.

(** Steps that change the count of one program. *)
Lemma inv_count I ps i pr c p k v v' : inv I ps -> ps !! i = Some pr ->
  if_progs I !! p = Some k -> k_refcnt k = Some v -> (v = 0 -> v' = 0) ->
  (forall p, ~ at_ready pr p) -> (forall p, ~ at_ready (with_pc pr c) p) ->
  (forall p', p' <> p -> counts p' (with_pc pr c) = counts p' pr) -> (past pr = true -> past (with_pc pr c) = true) ->
  users p (<[i := with_pc pr c]> ps) <= v' <= count past (<[i := with_pc pr c]> ps) ->
  pc_ok (<[p := set_refcnt k v']> (if_progs I)) c ->
  inv (set_prog I p (set_refcnt k v')) (<[i := with_pc pr c]> ps).
Proof.
  intros HI Hi Hk Hv H0 Hr Hr' Hc Hp Hu Hok.
  assert (forall p0 k0, <[p := set_refcnt k v']> (if_progs I) !! p0 = Some k0 ->
    exists k1, if_progs I !! p0 = Some k1 /\ k_xsks k0 = k_xsks k1) as Hx.
  { intros p0 k0 [(<- & <-) | [_ E]]%lookup_insert_Some; [by exists k | by exists k0]. }
  assert (progs_le (if_progs I) (<[p := set_refcnt k v']> (if_progs I))) as HL.
  { apply (progs_le_insert _ _ k); [done | |].
    - rewrite Hv. by split; intros _; eexists.
    - rewrite Hv. intros [= ->]. simpl. by rewrite H0. }
  split; cbn [set_prog if_progs if_attached].
  - intros p' H. destruct (in_attached _ _ HI p' H) as [k' E]. destruct (HL _ _ E) as (k2 & E2 & _). by exists k2.
  - intros p' k' [(<- & <-) | [Hne Hk']]%lookup_insert_Some.
    + pose proof (in_prog _ _ HI p k Hk) as HP. unfold prog_ok in *. rewrite Hv in HP. simpl.
      split; [done |]. intros Hne. apply HP. intros E. by apply Hne, H0.
    + apply prog_ok_step; [done | by rewrite Hc | | by apply (in_prog _ _ HI)].
      unfold c_bool. destruct (past pr), (past (with_pc pr c)); lia || by specialize (Hp eq_refl).
  - by apply (pc_ok_step (if_progs I)), HI.
  - apply (entries_step (if_progs I)); try done; [intros p0 H; by destruct (Hr' p0) | | apply HI]. intros p0 k0 E. right. by apply Hx.
  - apply (ready_step (if_progs I)); try done; [intros p0 H; by destruct (Hr' p0) | | apply HI].
    intros p0 k0 E j pr' _ _ _. destruct (Hx _ _ E) as (k1 & E1 & E2). exists k1. by rewrite E2.
Qed.

(** Detaching a program whose count is 0. *)
Lemma inv_detach I ps i pr p k : inv I ps -> ps !! i = Some pr -> p_pc pr = Detaching p ->
  if_progs I !! p = Some k -> k_refcnt k = Some 0 -> inv (detach I p) (<[i := with_pc pr Gone]> ps).
Proof.
  intros HI Hi Hpc Hk H0.
  assert (inv I (<[i := with_pc pr Gone]> ps)) as HI'.
  { apply inv_same; try done.
    - intros p' [own E]. congruence.
    - intros p' [own E]. done. }
  destruct HI' as [Ha Hp Hc He Hr]. split; cbn [detach if_progs if_attached]; try done.
  - intros p' [H _]%list_elem_of_In%filter_In. by apply Ha, list_elem_of_In.
  - intros p' k' E. specialize (Hp p' k' E). unfold prog_ok in *.
    assert (p' ∈ if_attached I -> p' <> p -> p' ∈ List.filter (fun x => negb (x =? p)) (if_attached I)) as Hin.
    { intros H Hne. apply list_elem_of_In, filter_In. split; [by apply list_elem_of_In |]. lia. }
    destruct (decide (p' = p)) as [-> | Hne].
    + rewrite Hk in E. injection E as <-. rewrite H0 in *. split; [apply Hp | done].
    + destruct (k_refcnt k'); [split; [apply Hp | intros H; apply Hin; [by apply Hp | done]] | by apply Hin].
Qed.

(** Attaching a new program. *)
Lemma inv_attach I ps i pr p pre post rc : inv I ps -> ps !! i = Some pr -> p_pc pr = NeedProg ->
  if_attached I = pre ++ post -> if_progs I !! p = None -> rc = Some 1 \/ rc = None ->
  inv {| if_progs := <[p := {| k_refcnt := rc; k_xsks := ∅ |}]> (if_progs I); if_attached := pre ++ p :: post |}
      (<[i := with_pc pr (AttachedProg p)]> ps).
Proof.
  intros HI Hi Hpc Ha Hp Hrc.
  assert (progs_le (if_progs I) (<[p := {| k_refcnt := rc; k_xsks := ∅ |}]> (if_progs I))) as HL.
  { intros p0 k0 E. exists k0. rewrite lookup_insert_ne by congruence. done. }
  assert (forall p' pr', pr' ∈ ps -> counts p' pr' = true -> p' <> p) as Hno.
  { intros p' pr' [j Hj]%list_elem_of_lookup Hc ->. pose proof (in_pc _ _ HI j pr' Hj) as Hok.
    unfold counts in Hc. destruct (p_pc pr') as [| | | | q | q [] ? | q [] ? | q [] | | | q [] | |]; try done;
      apply Z.eqb_eq in Hc as <-; simpl in Hok; rewrite Hp in Hok; try (by destruct Hok as [? ?]); by destruct Hok as (? & ? & _). }
  assert (forall l : list proc, (forall pr', pr' ∈ l -> counts p pr' = false) -> users p l = 0) as Hzero.
  { unfold users. induction l as [| x l IH]; intros H; simpl; [done |].
    rewrite (H x) by (apply elem_of_cons; auto). rewrite IH; [done |]. intros y Hy. apply H, elem_of_cons. auto. }
  assert (users p ps = 0) as Hu.
  { apply Hzero. intros pr' Hin. destruct (counts p pr') eqn:E; [| done]. by destruct (Hno p pr' Hin E). }
  assert (counts p pr = false /\ past pr = false) as [Hcp Hpast] by (unfold counts, past; by rewrite Hpc).
  split; cbn [if_progs if_attached].
  - intros p' [H | [-> | H]%elem_of_cons]%elem_of_app.
    + destruct (in_attached _ _ HI p') as [k E]; [rewrite Ha; set_solver |]. destruct (HL _ _ E) as (k2 & E2 & _). by exists k2.
    + rewrite lookup_insert_eq. by eexists.
    + destruct (in_attached _ _ HI p') as [k E]; [rewrite Ha; set_solver |]. destruct (HL _ _ E) as (k2 & E2 & _). by exists k2.
  - intros p' k' [(<- & <-) | [Hne Hk']]%lookup_insert_Some.
    + unfold prog_ok. simpl. rewrite (users_step _ _ _ _ _ Hi), (past_step _ _ _ _ Hi), Hu, Hcp, Hpast.
      assert (counts p (with_pc pr (AttachedProg p)) = true) as -> by (unfold counts; simpl; apply Z.eqb_refl).
      pose proof (count_range past ps). destruct Hrc as [-> | ->]; [| set_solver]. simpl. split; [lia | set_solver].
    + apply (prog_ok_step _ _ _ pr); [done | | by rewrite Hpast |].
      * assert (counts p' (with_pc pr (AttachedProg p)) = false) as -> by (unfold counts; simpl; by apply Z.eqb_neq).
        unfold counts. by rewrite Hpc.
      * pose proof (in_prog _ _ HI p' k' Hk') as HP. unfold prog_ok in *. rewrite Ha in HP.
        destruct (k_refcnt k'); set_solver.
  - apply (pc_ok_step (if_progs I)); [done | done | simpl; rewrite lookup_insert_eq; by eexists | apply HI].
  - apply (entries_step (if_progs I)); try done.
    + intros p' [own E]. congruence.
    + intros p' [own E]. done.
    + intros p' k' [(<- & <-) | [_ E]]%lookup_insert_Some; [by left | right; by exists k'].
    + apply HI.
  - apply (ready_step (if_progs I)); try done.
    + intros p' [own E]. done.
    + intros p' k' [(<- & <-) | [_ E]]%lookup_insert_Some j pr' Hj _ Hr; [| by exists k'].
      exfalso. destruct Hr as [own Hr]. pose proof (in_pc _ _ HI j pr' Hj) as Hok. rewrite Hr in Hok.
      destruct Hok as (k & E & _). congruence.
    + apply HI.
Qed.

Lemma queue_inj (ps : list proc) i j x y : NoDup (p_queue <$> ps) -> ps !! i = Some x -> ps !! j = Some y ->
  p_queue x = p_queue y -> i = j.
Proof.
  intros Hn Hi Hj E. eapply NoDup_lookup; [exact Hn | |]; rewrite list_lookup_fmap; [by rewrite Hi | by rewrite Hj, E].
Qed.

(** Steps that change the entry of the process's queue in one program's map. *)
Lemma inv_entry I ps i pr c p k m : inv I ps -> ps !! i = Some pr -> if_progs I !! p = Some k ->
  (forall p', counts p' (with_pc pr c) = counts p' pr) -> past pr = true -> past (with_pc pr c) = true ->
  pc_ok (if_progs I) c ->
  (forall p' q fd, (if decide (p' = p) then Some m else k_xsks <$> if_progs I !! p') ≫= lookup q = Some fd ->
     exists j pr', <[i := with_pc pr c]> ps !! j = Some pr' /\ p_queue pr' = q /\ p_fd pr' = fd /\ p_rx pr' = true /\ at_ready pr' p') ->
  (forall j pr' p' n, <[i := with_pc pr c]> ps !! j = Some pr' -> at_ready pr' p' -> p_rx pr' = true ->
     (if decide (p' = p) then Some m else k_xsks <$> if_progs I !! p') = Some n -> n !! p_queue pr' = Some (p_fd pr')) ->
  inv (set_prog I p (set_xsks k m)) (<[i := with_pc pr c]> ps).
Proof.
  intros HI Hi Hk Hc Hp Hp' Hok He Hr.
  assert (progs_le (if_progs I) (<[p := set_xsks k m]> (if_progs I))) as HL by (by apply (progs_le_insert _ _ k)).
  assert (forall p' k', <[p := set_xsks k m]> (if_progs I) !! p' = Some k' ->
    (if decide (p' = p) then Some m else k_xsks <$> if_progs I !! p') = Some (k_xsks k')) as Hx.
  { intros p' k' [(<- & <-) | [Hne E]]%lookup_insert_Some; [by rewrite decide_True | rewrite decide_False by done; by rewrite E]. }
  split; cbn [set_prog if_progs if_attached].
  - intros p' H. destruct (in_attached _ _ HI p' H) as [k' E]. destruct (HL _ _ E) as (k2 & E2 & _). by exists k2.
  - intros p' k' Hk'. apply prog_ok_step; [done | by rewrite Hc | by rewrite Hp, Hp' |].
    apply lookup_insert_Some in Hk' as [(<- & <-) | [Hne Hk']]; [| by apply (in_prog _ _ HI)].
    apply (in_prog _ _ HI p k Hk).
  - apply (pc_ok_step (if_progs I)); [done | done | by eapply pc_ok_le | apply HI].
  - intros p' k' q fd Hk' Hq. apply He. by rewrite (Hx _ _ Hk').
  - intros j pr' p' k' Hj Ha Hrx Hk'. eapply Hr; [done.. | by apply Hx].
Qed.

Lemma inv_update I ps i pr p k own att : inv I ps -> NoDup (p_queue <$> ps) -> ps !! i = Some pr ->
  p_pc pr = MapUpdate p own att -> p_rx pr = true -> if_progs I !! p = Some k ->
  inv (set_prog I p (set_xsks k (<[p_queue pr := p_fd pr]> (k_xsks k)))) (<[i := with_pc pr (Ready p own)]> ps).
Proof.
  intros HI Hn Hi Hpc Hrx Hk. pose proof (lookup_lt_Some _ _ _ Hi) as Hlt. apply inv_entry; try done.
  - intros p'. unfold counts. rewrite Hpc. by destruct own.
  - unfold past. by rewrite Hpc.
  - pose proof (in_pc _ _ HI i pr Hi) as H. by rewrite Hpc in H.
  - intros p' q fd H.
    assert (forall k', if_progs I !! p' = Some k' -> k_xsks k' !! q = Some fd ->
      exists j pr', <[i := with_pc pr (Ready p own)]> ps !! j = Some pr' /\ p_queue pr' = q /\ p_fd pr' = fd /\
        p_rx pr' = true /\ at_ready pr' p') as Hold.
    { intros k' E Hq. destruct (in_entry _ _ HI p' k' q fd E Hq) as (j & pr' & Hj & H'). exists j, pr'. split; [| done].
      rewrite list_lookup_insert_ne; [done |]. intros ->. rewrite Hi in Hj. injection Hj as <-.
      destruct H' as (_ & _ & _ & own' & E'). congruence. }
    case_decide as Hd; [subst p' |].
    + cbn in H. apply lookup_insert_Some in H as [(<- & <-) | [_ H]]; [| by eapply Hold].
      exists i, (with_pc pr (Ready p own)). rewrite list_lookup_insert_eq by done. split_and!; try done. by exists own.
    + destruct (if_progs I !! p') as [k' |] eqn:E; [| done]. cbn in H. by eapply Hold.
  - intros j pr' p' n Hj Ha Hrx' H. apply list_lookup_insert_Some in Hj as [(<- & <- & _) | [Hne Hj]].
    + destruct Ha as [o E]. simpl in E. injection E as <- <-. rewrite decide_True in H by done. injection H as <-.
      apply lookup_insert_eq.
    + case_decide as Hd; [subst p' |].
      * injection H as <-. rewrite lookup_insert_ne; [by eapply in_ready |].
        intros E. by apply Hne, (queue_inj ps i j pr pr').
      * destruct (if_progs I !! p') as [k' |] eqn:E; [| done]. injection H as <-. by eapply in_ready.
Qed.

Lemma inv_leave I ps i pr p k own : inv I ps -> NoDup (p_queue <$> ps) -> ps !! i = Some pr ->
  p_pc pr = Ready p own -> if_progs I !! p = Some k ->
  inv (set_prog I p (set_xsks k (delete (p_queue pr) (k_xsks k)))) (<[i := with_pc pr (Leaving p own)]> ps).
Proof.
  intros HI Hn Hi Hpc Hk. apply inv_entry; try done.
  - intros p'. unfold counts. rewrite Hpc. by destruct own.
  - unfold past. by rewrite Hpc.
  - pose proof (in_pc _ _ HI i pr Hi) as H. by rewrite Hpc in H.
  - intros p' q fd H.
    assert (forall k', if_progs I !! p' = Some k' -> k_xsks k' !! q = Some fd -> p' <> p \/ q <> p_queue pr ->
      exists j pr', <[i := with_pc pr (Leaving p own)]> ps !! j = Some pr' /\ p_queue pr' = q /\ p_fd pr' = fd /\
        p_rx pr' = true /\ at_ready pr' p') as Hold.
    { intros k' E Hq Hd. destruct (in_entry _ _ HI p' k' q fd E Hq) as (j & pr' & Hj & H'). exists j, pr'. split; [| done].
      rewrite list_lookup_insert_ne; [done |]. intros ->. rewrite Hi in Hj. injection Hj as <-.
      destruct H' as (Eq & _ & _ & own' & E'). rewrite Hpc in E'. injection E' as <- <-. naive_solver. }
    case_decide as Hd; [subst p' |].
    + cbn in H. apply lookup_delete_Some in H as [Hne H]. eapply Hold; [done | done | right; congruence].
    + destruct (if_progs I !! p') as [k' |] eqn:E; [| done]. cbn in H. eapply Hold; [done | done | by left].
  - intros j pr' p' n Hj Ha Hrx' H. apply list_lookup_insert_Some in Hj as [(<- & <- & _) | [Hne Hj]].
    + by destruct Ha as [o E].
    + case_decide as Hd; [subst p' |].
      * injection H as <-. rewrite lookup_delete_ne; [by eapply in_ready |].
        intros E. by apply Hne, (queue_inj ps i j pr pr').
      * destruct (if_progs I !! p') as [k' |] eqn:E; [| done]. injection H as <-. by eapply in_ready.
Qed.

End Invariant.

(** ** Every step keeps it *)

Section Safe.
Context (allow : fault -> bool) (Hattacher : allow AttacherFails = false).
Notation inv := (inv (hidden := allow MapHidden)).

Ltac same_step HI Hi Epc :=
  apply inv_same; [exact HI | exact Hi | by intros ? [? ?]; congruence | by intros ? [? [=]] |
    intros ?; unfold counts; rewrite Epc; simpl; done |
    unfold past; rewrite Epc; simpl; done | ].

Lemma setup_inv I ps i pr I' c : inv I ps -> NoDup (p_queue <$> ps) -> zlen ps < 2 ^ 31 -> ps !! i = Some pr ->
  setup_step allow (p_queue pr) (p_fd pr) (p_rx pr) I (p_pc pr) I' c -> inv I' (<[i := with_pc pr c]> ps).
Proof.
  intros HI Hn Hlen Hi HS. pose proof (in_pc _ _ HI i pr Hi) as Hok.
  remember (p_pc pr) as c0 eqn:Epc. symmetry in Epc.
  destruct HS as [| | I p l Hl | | I p k Hk Hv | ? ? Hx | I p k v Hk Hv | I p k v e r v' Hk Hv He E | | I p pre post rc Ha Hp Hrc
    | I p k v Hk Hv | I p k Hk Hv | ? ? Hx | I p | | ? ? ? [] Hx | I p k own att Hrx Hk | ? ? ? [] _ Hx | I p own att Hrx | | | ];
    try congruence.
  - same_step HI Hi Epc. done.
  - same_step HI Hi Epc. done.
  - same_step HI Hi Epc. apply (in_attached _ _ HI). rewrite Hl. set_solver.
  - same_step HI Hi Epc. done.
  - same_step HI Hi Epc. exists k. rewrite Hv. split_and!; [done | done | by intros _ [? ?]].
  - same_step HI Hi Epc. destruct Hok as [k Hk]. exists k. split_and!; [done | done | congruence].
  - same_step HI Hi Epc. by exists k, v.
  - (* incr *)
    pose proof (in_prog _ _ HI p k Hk) as HP. unfold prog_ok in HP. rewrite Hv in HP.
    pose proof (count_range (counts p) ps) as Hr0. fold (users p ps) in Hr0. pose proof (count_range past ps) as Hr1.
    assert (counts p pr = false /\ past pr = false) as [Hc0 Hp0] by (unfold counts, past; by rewrite Epc).
    assert (v + 1 < 2 ^ 31) as Hb.
    { pose proof (past_step ps i pr Gone Hi) as Hp. rewrite Hp0 in Hp. simpl in Hp.
      pose proof (count_range past (<[i := with_pc pr Gone]> ps)) as Hr2. unfold zlen in *. rewrite length_insert in Hr2. lia. }
    destruct (update_refcnt_spec e 1 v r v' He ltac:(lia) ltac:(by left) Hb E) as [[Hr ->] | [(-> & -> & ->) | (Hpos & -> & ->)]].
    + rewrite (proj2 (Z.ltb_lt _ _) Hr). eapply inv_count; try done.
      * by intros ? [? ?]; congruence.
      * by intros ? [? [=]].
      * intros p' _. unfold counts. by rewrite Epc.
      * rewrite (users_step _ _ _ _ _ Hi), (past_step _ _ _ _ Hi), Hc0, Hp0. simpl. lia.
    + eapply inv_count; try done.
      * by intros ? [? ?]; congruence.
      * by intros ? [? [=]].
      * intros p' _. unfold counts. by rewrite Epc.
      * unfold past. by rewrite Epc.
      * rewrite (users_step _ _ _ _ _ Hi), (past_step _ _ _ _ Hi), Hc0, Hp0. simpl. lia.
    + rewrite (proj2 (Z.ltb_ge _ _)), (proj2 (Z.eqb_neq _ _)) by lia. eapply inv_count; try done; [lia | | | | |].
      * by intros ? [? ?]; congruence.
      * by intros ? [? [=]].
      * intros p' Hne. unfold counts. rewrite Epc. simpl. by apply Z.eqb_neq.
      * rewrite (users_step _ _ _ _ _ Hi), (past_step _ _ _ _ Hi), Hc0, Hp0. unfold counts. simpl. rewrite Z.eqb_refl. simpl. lia.
      * exists (set_refcnt k (v + 1)). rewrite lookup_insert_eq. split_and!; [done | by eexists | done].
  - same_step HI Hi Epc. done.
  - by apply inv_attach.
  - same_step HI Hi Epc. exists k. rewrite Hv. split_and!; [done | by eexists | done].
  - same_step HI Hi Epc. exists k. rewrite Hv. split_and!; [done | done | by intros _ [? ?]].
  - same_step HI Hi Epc. destruct Hok as [k Hk]. exists k. split_and!; [done | done | congruence].
  - same_step HI Hi Epc. done.
  - apply inv_same; try done; [by intros ? [? ?]; congruence | by intros ? [? [=]] | intros ?; unfold counts; by rewrite Epc].
  - apply inv_same; try done; [by intros ? [? ?]; congruence | by intros ? [? [=]]].
  - by eapply inv_update.
  - apply inv_same; try done; [by intros ? [? ?]; congruence | by intros ? [? [=]]].
  - apply inv_same; try done; [by intros ? [? ?]; congruence | intros ?; unfold counts; by rewrite Epc].
  - same_step HI Hi Epc. done.
Qed.

Lemma release_inv I ps i pr I' c : inv I ps -> NoDup (p_queue <$> ps) -> zlen ps < 2 ^ 31 -> ps !! i = Some pr ->
  release_step allow (p_queue pr) I (p_pc pr) I' c -> inv I' (<[i := with_pc pr c]> ps).
Proof.
  intros HI Hn Hlen Hi HS. pose proof (in_pc _ _ HI i pr Hi) as Hok.
  remember (p_pc pr) as c0 eqn:Epc. symmetry in Epc.
  destruct HS as [I p k own Hk | | I p k v e r v' Hk Hv He E Hr | I p | I p].
  - by apply inv_leave.
  - same_step HI Hi Epc. done.
  - pose proof (in_prog _ _ HI p k Hk) as HP. unfold prog_ok in HP. rewrite Hv in HP.
    assert (counts p pr = true) as Hc0 by (unfold counts; rewrite Epc; apply Z.eqb_refl).
    assert (past pr = true) as Hp0 by (unfold past; by rewrite Epc).
    pose proof (count_pos (counts p) ps i pr Hi Hc0) as Hpos. fold (users p ps) in Hpos.
    pose proof (count_range past ps) as Hr1.
    assert (forall p', p' <> p -> counts p' pr = false) as Hoth by (intros p' Hne; unfold counts; rewrite Epc; by apply Z.eqb_neq).
    destruct (update_refcnt_spec e (-1) v r v' He ltac:(lia) ltac:(by right) ltac:(lia) E) as [[Hneg ->] | [(-> & -> & ->) | (Hv0 & -> & ->)]].
    + assert (c_true r = true) as -> by (unfold c_true; rewrite (proj2 (Z.eqb_neq _ _)) by lia; done).
      eapply inv_count; try done.
      * by intros ? [? ?]; congruence.
      * by intros ? [? [=]].
      * intros p' Hne. by rewrite Hoth.
      * rewrite (users_step _ _ _ _ _ Hi), (past_step _ _ _ _ Hi), Hc0, Hp0. simpl. lia.
    + lia.
    + assert (users p ps <= v) as Hle by lia.
      unfold c_true. destruct (Z.eqb_spec (v + -1) 0) as [Ez | Enz]; cbn [negb].
      * eapply inv_count; try done.
        -- by intros ? [? ?]; congruence.
        -- by intros ? [? [=]].
        -- intros p' Hne. by rewrite Hoth.
        -- rewrite (users_step _ _ _ _ _ Hi), (past_step _ _ _ _ Hi), Hc0, Hp0. simpl. lia.
        -- exists (set_refcnt k (v + -1)). rewrite lookup_insert_eq. split; [done |]. simpl. by rewrite Ez.
      * eapply inv_count; try done; [lia | | | |].
        -- by intros ? [? ?]; congruence.
        -- by intros ? [? [=]].
        -- intros p' Hne. by rewrite Hoth.
        -- rewrite (users_step _ _ _ _ _ Hi), (past_step _ _ _ _ Hi), Hc0, Hp0. simpl. lia.
  - destruct Hok as (k & Hk & H0). by eapply inv_detach.
  - same_step HI Hi Epc. done.
Qed.

Lemma queues_step s s' : sys_step allow s s' -> p_queue <$> s'.2 = p_queue <$> s.2.
Proof.
  assert (forall (ps : list proc) i pr c, ps !! i = Some pr -> p_queue <$> <[i := with_pc pr c]> ps = p_queue <$> ps) as H.
  { intros ps i pr c E. rewrite list_fmap_insert. apply list_insert_id. rewrite list_lookup_fmap. by rewrite E. }
  destruct 1; by apply H.
Qed.

Lemma sys_inv s s' : rtc (sys_step allow) s s' -> inv s.1 s.2 -> NoDup (p_queue <$> s.2) -> zlen s.2 < 2 ^ 31 ->
  inv s'.1 s'.2 /\ NoDup (p_queue <$> s'.2).
Proof.
  induction 1 as [s | s1 s2 s3 HS _ IH]; intros HI Hn Hl; [done |].
  pose proof (queues_step _ _ HS) as Hq. apply IH.
  - destruct HS; [by eapply setup_inv | by eapply release_inv].
  - by rewrite Hq.
  - destruct HS; unfold zlen in *; simpl in *; by rewrite length_insert.
Qed.

End Safe.

(** ** What the count promises *)

(** Processes that have not begun, on an interface without a default
    program. *)
Definition initial (ps : list proc) : Prop := Forall (fun pr => p_pc pr = Start) ps.

Definition no_iface : iface := {| if_progs := ∅; if_attached := [] |}.

Lemma inv_initial hidden ps : initial ps -> inv (hidden := hidden) no_iface ps.
Proof.
  intros H. unfold initial in H. rewrite Forall_lookup in H. split; cbn.
  - intros p Hp. by apply elem_of_nil in Hp.
  - intros p k Hk. by rewrite lookup_empty in Hk.
  - intros i pr Hi. by rewrite (H i pr Hi).
  - intros p k q fd Hk. by rewrite lookup_empty in Hk.
  - intros i pr p k Hi [own E]. rewrite (H i pr Hi) in E. done.
Qed.

Lemma default_prog_ready `{RedirectFlags} hidden I ps i pr p own : inv (hidden := hidden) I ps ->
  NoDup (p_queue <$> ps) -> ps !! i = Some pr -> p_pc pr = Ready p own -> hidden = false \/ own = true ->
  p ∈ if_attached I /\
  (p_rx pr = true -> run_default (if_progs I) (if_attached I) (p_queue pr) = (XDP_REDIRECT, Some (p_fd pr))).
Proof.
  intros HI Hn Hi Epc Hc. assert (at_ready pr p) as Ha by (by exists own).
  pose proof (in_pc _ _ HI i pr Hi) as Hok. rewrite Epc in Hok. destruct Hok as (k & Hk & _ & Hown). pose proof (in_prog _ _ HI p k Hk) as HP. unfold prog_ok in HP.
  assert (p ∈ if_attached I /\ default 1 (k_refcnt k) <> 0) as [Hin Hne].
  { destruct (k_refcnt k) as [v |]; [| done]. assert (own = true) as -> by (destruct Hc; [apply Hown; [done | by eexists] | done]).
    assert (0 < users p ps) as Hpos by (apply (count_pos _ _ i pr Hi); unfold counts; rewrite Epc; apply Z.eqb_refl).
    simpl. split; [apply HP; lia | lia]. }
  split; [done |]. intros Hrx. pose proof (in_ready _ _ HI i pr p k Hi Ha Hrx Hk) as He.
  assert (forall p' k', if_progs I !! p' = Some k' -> p' <> p -> k_xsks k' !! p_queue pr = None) as Hoth.
  { intros p' k' Hk' Hd. destruct (k_xsks k' !! p_queue pr) as [fd |] eqn:E; [| done].
    destruct (in_entry _ _ HI p' k' _ fd Hk' E) as (j & pr' & Hj & Hq & _ & _ & own' & E').
    assert (j = i) as -> by (by apply (queue_inj ps j i pr' pr)). rewrite Hi in Hj. injection Hj as <-. congruence. }
  clear HP Hown Ha HI Hi. revert Hin. generalize (if_attached I) as l. intros l. induction l as [| x l IH]; [by intros ?%elem_of_nil |].
  intros Hin. simpl. destruct (decide (x = p)) as [-> | Hd].
  - rewrite Hk. unfold xsk_def_prog. rewrite (proj2 (Z.eqb_neq _ 0) Hne), He. by rewrite redirect_flags_hit.
  - assert (p ∈ l) as Hin' by set_solver. destruct (if_progs I !! x) as [k' |] eqn:E; [| by apply IH].
    rewrite (Hoth x k' E Hd). unfold xsk_def_prog. rewrite (Hoth x k' E Hd), redirect_flags_miss by done.
    destruct (default 1 (k_refcnt k') =? 0); by apply IH.
Qed.

(** C6: sockets share the default program safely.  Any number of processes,
    fewer than 2^31, set up and release sockets for different queues of an
    interface that had no default program before, in any interleaving of their
    calls.  Calls fail anywhere the code looks at their result, except that a
    process which attached the program itself does not fail after that
    ([AttacherFails]; [xsk_attacher_failure_detaches] shows what happens when it does).  While a
    process has a socket, the program its set-up chose stays attached, whatever the
    others do, and the packets of its queue that reach the default programs are
    redirected to its socket.  A process that overlooked the map of the count
    ([MapHidden]: xsk_lookup_map_by_filter skips a map it cannot open and answers
    -ENOENT) is not counted and not covered when that can happen;
    [xsk_hidden_count_detaches] shows how it loses its program. *)
Theorem xsk_refcnt_safe `{RedirectFlags} allow ps I ps' i pr p own :
  allow AttacherFails = false ->
  initial ps -> NoDup (p_queue <$> ps) -> zlen ps < 2 ^ 31 ->
  rtc (sys_step allow) (no_iface, ps) (I, ps') ->
  ps' !! i = Some pr -> p_pc pr = Ready p own -> allow MapHidden = false \/ own = true ->
  p ∈ if_attached I /\
  (p_rx pr = true -> run_default (if_progs I) (if_attached I) (p_queue pr) = (XDP_REDIRECT, Some (p_fd pr))).
Proof.
  intros H1 Hi Hn Hl HR Hpr Hpc Hown.
  destruct (sys_inv allow H1 _ _ HR (inv_initial _ ps Hi) Hn Hl) as [HI Hn']. by eapply (default_prog_ready _ I ps' i).
Qed.

(** ** The last one out *)

(** Without faults the count is the number of users, and a program nobody uses
    is about to be detached. *)
Definition exact (I : iface) (ps : list proc) : Prop := forall p k v,
  if_progs I !! p = Some k -> k_refcnt k = Some v ->
  users p ps = v /\ (v = 0 -> p ∈ if_attached I -> exists i pr, ps !! i = Some pr /\ p_pc pr = Detaching p).

Definition no_fault (f : fault) : bool := false.

Lemma detaching_kept (ps : list proc) i pr c p : ps !! i = Some pr -> p_pc pr <> Detaching p ->
  (exists j pr', ps !! j = Some pr' /\ p_pc pr' = Detaching p) ->
  exists j pr', <[i := with_pc pr c]> ps !! j = Some pr' /\ p_pc pr' = Detaching p.
Proof.
  intros Hi Hne (j & pr' & Hj & E). exists j, pr'. split; [| done].
  rewrite list_lookup_insert_ne; [done |]. intros ->. congruence.
Qed.

(** A step that changes the count of each program by what it changes the
    users. *)
Lemma exact_step I ps I' i pr c : exact I ps -> ps !! i = Some pr ->
  (forall p k' v', if_progs I' !! p = Some k' -> k_refcnt k' = Some v' ->
     exists k v, if_progs I !! p = Some k /\ k_refcnt k = Some v /\
       v' = v - c_bool (counts p pr) + c_bool (counts p (with_pc pr c)) /\
       (v' = 0 -> p ∈ if_attached I' -> c = Detaching p \/ (v = 0 /\ p ∈ if_attached I /\ p_pc pr <> Detaching p))) ->
  exact I' (<[i := with_pc pr c]> ps).
Proof.
  intros HE Hi H p k' v' Hk' Hv'. destruct (H p k' v' Hk' Hv') as (k & v & Hk & Hv & Ev & Hz).
  destruct (HE p k v Hk Hv) as [Hu Hd]. split; [rewrite (users_step _ _ _ _ _ Hi); lia |].
  intros H0 Hin. destruct (Hz H0 Hin) as [-> | (Hv0 & Hin' & Hne)].
  - exists i, (with_pc pr (Detaching p)). rewrite list_lookup_insert_eq by (by eapply lookup_lt_Some). done.
  - apply detaching_kept; [done | done |]. by apply Hd.
Qed.

Lemma exact_same I ps i pr c : exact I ps -> ps !! i = Some pr -> (forall p, p_pc pr <> Detaching p) ->
  (forall p k v, if_progs I !! p = Some k -> k_refcnt k = Some v -> counts p (with_pc pr c) = counts p pr) ->
  exact I (<[i := with_pc pr c]> ps).
Proof.
  intros HE Hi Hnd Hc. apply (exact_step I); [done | done |]. intros p k v Hk Hv. exists k, v.
  rewrite (Hc p k v Hk Hv). split_and!; [done | done | lia |]. intros H0 Hin. right. split_and!; [lia | done..].
Qed.

Lemma exact_xsks I ps i pr c p k m : exact I ps -> ps !! i = Some pr -> (forall p, p_pc pr <> Detaching p) ->
  if_progs I !! p = Some k -> (forall p, counts p (with_pc pr c) = counts p pr) ->
  exact (set_prog I p (set_xsks k m)) (<[i := with_pc pr c]> ps).
Proof.
  intros HE Hi Hnd Hk Hc. apply (exact_step I); [done | done |]. cbn [set_prog if_progs if_attached]. intros p' k' v' Hk' Hv'.
  apply lookup_insert_Some in Hk' as [(<- & <-) | [_ Hk']]; [exists k, v' | exists k', v']; rewrite Hc;
    (split_and!; [done | done | lia | intros H0 Hin; right; split_and!; [lia | done..]]).
Qed.

Lemma setup_exact I ps i pr I' c : inv (hidden := false) I ps -> exact I ps -> zlen ps < 2 ^ 31 -> ps !! i = Some pr ->
  setup_step no_fault (p_queue pr) (p_fd pr) (p_rx pr) I (p_pc pr) I' c -> exact I' (<[i := with_pc pr c]> ps).
Proof.
  intros HI HE Hlen Hi HS. pose proof (in_pc _ _ HI i pr Hi) as Hok.
  remember (p_pc pr) as c0 eqn:Epc. symmetry in Epc.
  assert (forall p, c0 <> Detaching p) as Hnd by (destruct HS; done). rewrite <- Epc in Hnd.
  destruct HS as [| | I p l Hl | | I p k Hk Hv | ? ? Hx | I p k v Hk Hv | I p k v e r v' Hk Hv He E | | I p pre post rc Ha Hp Hrc
    | I p k v Hk Hv | I p k Hk Hv | ? ? Hx | I p Hx | | ? ? ? [] Hx | I p k own att Hrx Hk | ? ? ? [] _ Hx | I p own att Hrx | | | ];
    try done; try (apply exact_same; try done; intros p0 k0 v0 _ _; unfold counts; rewrite Epc; by try destruct own).
  - pose proof (in_prog _ _ HI p k Hk) as HP. unfold prog_ok in HP. rewrite Hv in HP.
    assert (forall p', counts p' pr = false) as Hc0 by (intros p'; unfold counts; by rewrite Epc).
    assert (past pr = false) as Hp0 by (unfold past; by rewrite Epc).
    pose proof (count_range (counts p) ps) as Hr0. fold (users p ps) in Hr0.
    assert (v + 1 < 2 ^ 31) as Hb.
    { pose proof (past_step ps i pr Gone Hi) as Hp. rewrite Hp0 in Hp. simpl in Hp.
      pose proof (count_range past (<[i := with_pc pr Gone]> ps)) as Hr2. unfold zlen in *. rewrite length_insert in Hr2. lia. }
    apply (exact_step I); [done | done |]. cbn [set_prog if_progs if_attached]. intros p' k' v2 Hk' Hv'. rewrite Hc0.
    apply lookup_insert_Some in Hk' as [(<- & <-) | [Hne Hk']].
    + simpl in Hv'. injection Hv' as <-. exists k, v. split_and!; [done | done | |].
      * destruct (update_refcnt_spec e 1 v r v' He ltac:(lia) ltac:(by left) Hb E) as [[Hr ->] | [(-> & -> & ->) | (Hpos & -> & ->)]].
        -- rewrite (proj2 (Z.ltb_lt _ _) Hr). unfold counts. simpl. lia.
        -- unfold counts. simpl. lia.
        -- rewrite (proj2 (Z.ltb_ge _ _)), (proj2 (Z.eqb_neq _ _)) by lia. unfold counts. simpl. rewrite Z.eqb_refl. simpl. lia.
      * intros -> Hin. right. split_and!; [| done | apply Hnd].
        destruct (update_refcnt_spec e 1 v r 0 He ltac:(lia) ltac:(by left) Hb E) as [[Hr E0] | [(-> & -> & _) | (Hpos & ? & ?)]]; lia.
    + exists k', v2. split_and!; [done | done | | intros H0 Hin; right; split_and!; [lia | done | apply Hnd]].
      assert (counts p' (with_pc pr (if r <? 0 then Failed else if r =? 0 then NeedProg else MapLookup p true false)) = false) as ->.
      { unfold counts. destruct (r <? 0); [done |]. destruct (r =? 0); [done |]. by apply Z.eqb_neq. }
      simpl. lia.
  - intros p' k' v' Hk' Hv'. cbn [if_progs if_attached] in *. apply lookup_insert_Some in Hk' as [(<- & <-) | [Hne Hk']].
    + pose proof (in_prog _ _ (inv_attach I ps i pr p pre post rc HI Hi Epc Ha Hp Hrc) p _ (lookup_insert_eq _ _ _)) as HP.
      unfold prog_ok in HP. simpl in HP, Hv'. destruct Hrc as [-> | ->]; [| done]. injection Hv' as <-. split; [| done].
      assert (0 < users p (<[i := with_pc pr (AttachedProg p)]> ps)); [| lia].
      apply (count_pos _ _ i (with_pc pr (AttachedProg p))); [apply list_lookup_insert_eq; by eapply lookup_lt_Some |].
      unfold counts. apply Z.eqb_refl.
    + destruct (HE p' k' v' Hk' Hv') as [Hu Hd]. split.
      * rewrite (users_step _ _ _ _ _ Hi). unfold counts. rewrite Epc. simpl. rewrite (proj2 (Z.eqb_neq p' p)) by congruence. simpl. lia.
      * intros H0 Hin. apply detaching_kept; [done | apply Hnd |]. apply Hd; [done |]. rewrite Ha. simpl in Hin. set_solver.
  - apply exact_same; try done. intros p0 k0 v0 Hk0 Hv0. unfold counts. rewrite Epc. simpl.
    destruct (Z.eqb_spec p0 p) as [-> |]; [congruence | done].
  - apply exact_xsks; try done. intros p0. unfold counts. rewrite Epc. by destruct own.
Qed.

Lemma release_exact I ps i pr I' c : inv (hidden := false) I ps -> exact I ps -> zlen ps < 2 ^ 31 -> ps !! i = Some pr ->
  release_step no_fault (p_queue pr) I (p_pc pr) I' c -> exact I' (<[i := with_pc pr c]> ps).
Proof.
  intros HI HE Hlen Hi HS. pose proof (in_pc _ _ HI i pr Hi) as Hok.
  remember (p_pc pr) as c0 eqn:Epc. symmetry in Epc.
  destruct HS as [I p k own Hk | I p | I p k v e r v' Hk Hv He E Hr | I p | I p]; [| | | | done].
  - apply exact_xsks; try done; [by rewrite Epc |]. intros p0. unfold counts. rewrite Epc. by destruct own.
  - apply exact_same; try done; [by rewrite Epc |]. intros p0 k0 v0 _ _. unfold counts. by rewrite Epc.
  - destruct (HE p k v Hk Hv) as [Hu _].
    assert (counts p pr = true) as Hc0 by (unfold counts; rewrite Epc; apply Z.eqb_refl).
    assert (forall c p', p' <> p -> c = Gone \/ c = Detaching p -> counts p' (with_pc pr c) = counts p' pr) as Hoth.
    { intros c p' Hne Hc. unfold counts at 2. rewrite Epc, (proj2 (Z.eqb_neq _ _) Hne). by destruct Hc as [-> | ->]. }
    pose proof (count_pos (counts p) ps i pr Hi Hc0) as Hpos. fold (users p ps) in Hpos.
    pose proof (count_range (counts p) ps) as Hr1. fold (users p ps) in Hr1.
    destruct (update_refcnt_spec e (-1) v r v' He ltac:(lia) ltac:(by right) ltac:(lia) E) as [[Hneg ->] | [(-> & -> & ->) | (Hv0 & -> & ->)]];
      [by specialize (Hr Hneg) | lia |].
    apply (exact_step I); [done | done |]. cbn [set_prog if_progs if_attached]. intros p' k' v2 Hk' Hv'.
    apply lookup_insert_Some in Hk' as [(<- & <-) | [Hne Hk']].
    + simpl in Hv'. injection Hv' as <-. exists k, v. rewrite Hc0. unfold c_true.
      destruct (Z.eqb_spec (v + -1) 0); cbn [negb]; (split_and!; [done | done | unfold counts; simpl; lia | lia || (intros; by left)]).
    + exists k', v2. rewrite Hoth; [| done | destruct (c_true _); auto].
      split_and!; [done | done | lia | intros H0 Hin; right; split_and!; [lia | done | by rewrite Epc]].
  - apply (exact_step I); [done | done |]. cbn [detach if_progs if_attached]. intros p' k' v' Hk' Hv'. exists k', v'.
    split_and!; [done | done | unfold counts; rewrite Epc; simpl; lia |].
    intros H0 [Hin Hne]%list_elem_of_In%filter_In. right. split_and!; [done | by apply list_elem_of_In |].
    rewrite Epc. intros [= ->]. by rewrite Z.eqb_refl in Hne.
Qed.

(** When every call succeeds, the processes that have released their sockets
    leave no default program behind that is counted: the last one detached it. *)
Theorem xsk_last_user_detaches ps I ps' :
  initial ps -> NoDup (p_queue <$> ps) -> zlen ps < 2 ^ 31 ->
  rtc (sys_step no_fault) (no_iface, ps) (I, ps') ->
  Forall (fun pr => p_pc pr = Gone \/ p_pc pr = Failed) ps' ->
  forall p k, p ∈ if_attached I -> if_progs I !! p = Some k -> k_refcnt k = None.
Proof.
  intros Hi Hn Hl HR Hend p k Hin Hk.
  assert (forall s s', rtc (sys_step no_fault) s s' -> inv (hidden := false) s.1 s.2 -> exact s.1 s.2 -> NoDup (p_queue <$> s.2) -> zlen s.2 < 2 ^ 31 ->
    exact s'.1 s'.2) as Hsys.
  { induction 1 as [s | s1 s2 s3 HS _ IH]; intros HI HE Hn' Hl'; [done |]. pose proof (queues_step _ _ _ HS) as Hq.
    apply IH.
    - destruct HS; [by eapply (setup_inv no_fault eq_refl) | by eapply (release_inv no_fault)].
    - destruct HS; [by eapply setup_exact | by eapply release_exact].
    - by rewrite Hq.
    - destruct HS; unfold zlen in *; simpl in *; by rewrite length_insert. }
  assert (exact no_iface ps) as HE0 by (intros ? ? ? E; cbn in E; by rewrite lookup_empty in E).
  pose proof (Hsys _ _ HR (inv_initial _ ps Hi) HE0 Hn Hl) as HE. destruct (k_refcnt k) as [v |] eqn:Ev; [| done].
  destruct (HE p k v Hk Ev) as [Hu Hd]. rewrite Forall_lookup in Hend. cbn [snd] in *.
  assert (v = 0) as ->.
  { subst v. unfold users. clear - Hend. induction ps' as [| x l IH]; [done |]. simpl. rewrite IH by (intros i; apply (Hend (S i))).
    destruct (Hend 0%nat x eq_refl) as [E | E]; unfold counts; by rewrite E. }
  destruct (Hd eq_refl Hin) as (i & pr & E & Epc). destruct (Hend i pr E); congruence.
Qed.

(** ** Concrete runs *)

#[export] Instance plain_redirect : RedirectMap.
Proof. exists (fun e flags => match e with Some _ => XDP_REDIRECT | None => flags end). done. Defined.

#[export] Instance plain_redirect_flags : RedirectFlags.
Proof. by split. Qed.

Definition works : refcnt_env := {| rf_info := 0; rf_alloc := true; rf_lock := 9; rf_lookup := 0; rf_update := 0 |}.

Lemma works_ok : refcnt_env_ok works.
Proof. by split. Qed.

Definition proc_at (q : Z) (c : pc) : proc := {| p_queue := q; p_fd := 100 + q; p_rx := true; p_pc := c |}.

Lemma setup_to allow I ps i pr I' c s' : ps !! i = Some pr ->
  setup_step allow (p_queue pr) (p_fd pr) (p_rx pr) I (p_pc pr) I' c -> s' = (I', <[i := with_pc pr c]> ps) ->
  sys_step allow (I, ps) s'.
Proof. intros Hi HS ->. by apply ss_setup. Qed.

Definition prog7 (v : Z) (m : gmap Z Z) (attached : list Z) : iface :=
  {| if_progs := {[ 7 := {| k_refcnt := Some v; k_xsks := m |} ]}; if_attached := attached |}.

(** Process 0 attaches a program. *)
Lemma first_attaches allow :
  rtc (sys_step allow) (no_iface, [proc_at 0 Start; proc_at 1 Start])
    (prog7 1 ∅ [7], [proc_at 0 (MapLookup 7 true true); proc_at 1 Start]).
Proof.
  apply (rtc_l _ _ (no_iface, [proc_at 0 NeedProg; proc_at 1 Start])).
  { by apply (setup_to _ _ _ 0 (proc_at 0 Start) no_iface NeedProg), eq_refl; [| apply st_lookup_none]. }
  apply (rtc_l _ _ (prog7 1 ∅ [7], [proc_at 0 (AttachedProg 7); proc_at 1 Start])).
  { eapply (setup_to _ _ _ 0 (proc_at 0 NeedProg) _ (AttachedProg 7)); [done | |].
    - apply (st_attach _ _ _ _ _ 7 [] [] (Some 1)); [done | done | by left].
    - reflexivity. }
  apply rtc_once. apply (setup_to _ _ _ 0 (proc_at 0 (AttachedProg 7)) (prog7 1 ∅ [7]) (MapLookup 7 true true)); [done | | done].
  by eapply (st_own _ _ _ _ _ 7 {| k_refcnt := Some 1; k_xsks := ∅ |} 1).
Qed.

(** Process 1 joins it while process 0 is still at it. *)
Lemma second_joins allow :
  rtc (sys_step allow) (prog7 1 ∅ [7], [proc_at 0 (MapLookup 7 true true); proc_at 1 Start])
    (prog7 2 {[ 1 := 101 ]} [7], [proc_at 0 (MapLookup 7 true true); proc_at 1 (Ready 7 true)]).
Proof.
  apply (rtc_l _ _ (prog7 1 ∅ [7], [proc_at 0 (MapLookup 7 true true); proc_at 1 (LookedUp 7)])).
  { apply (setup_to _ _ _ 1 (proc_at 1 Start) (prog7 1 ∅ [7]) (LookedUp 7)); [done | by apply (st_lookup _ _ _ _ _ 7 []) | done]. }
  apply (rtc_l _ _ (prog7 1 ∅ [7], [proc_at 0 (MapLookup 7 true true); proc_at 1 (MapFound 7)])).
  { apply (setup_to _ _ _ 1 (proc_at 1 (LookedUp 7)) (prog7 1 ∅ [7]) (MapFound 7)); [done | | done].
    by eapply (st_count _ _ _ _ _ 7 {| k_refcnt := Some 1; k_xsks := ∅ |} 1). }
  apply (rtc_l _ _ (prog7 2 ∅ [7], [proc_at 0 (MapLookup 7 true true); proc_at 1 (MapLookup 7 true false)])).
  { eapply (setup_to _ _ _ 1 (proc_at 1 (MapFound 7)) _ (MapLookup 7 true false)); [done | |].
    - apply (st_incr _ _ _ _ (prog7 1 ∅ [7]) 7 {| k_refcnt := Some 1; k_xsks := ∅ |} 1 works 2 2 eq_refl eq_refl works_ok eq_refl).
    - reflexivity. }
  apply (rtc_l _ _ (prog7 2 ∅ [7], [proc_at 0 (MapLookup 7 true true); proc_at 1 (MapUpdate 7 true false)])).
  { apply (setup_to _ _ _ 1 (proc_at 1 (MapLookup 7 true false)) (prog7 2 ∅ [7]) (MapUpdate 7 true false)); [done | apply st_xsks | done]. }
  apply rtc_once. eapply (setup_to _ _ _ 1 (proc_at 1 (MapUpdate 7 true false)) _ (Ready 7 true)); [done | |].
  - apply (st_update _ _ _ _ (prog7 2 ∅ [7]) 7 {| k_refcnt := Some 2; k_xsks := ∅ |} true false eq_refl eq_refl).
  - reflexivity.
Qed.

(** The set-up that attached the program detaches it when one of its later
    calls fails, also if the program is counted twice by then: the other process
    has a socket and its packets no longer reach it. *)
Theorem xsk_attacher_failure_detaches :
  exists I pr, rtc (sys_step (fun _ => true)) (no_iface, [proc_at 0 Start; proc_at 1 Start])
      (I, [proc_at 0 Failed; pr]) /\ at_ready pr 7 /\ if_attached I = [] /\
    run_default (if_progs I) (if_attached I) (p_queue pr) = (XDP_PASS, None).
Proof.
  exists (prog7 2 {[ 1 := 101 ]} []), (proc_at 1 (Ready 7 true)). split_and!; [| by exists true | done | done].
  etrans; [apply first_attaches |]. etrans; [apply second_joins |].
  apply (rtc_l _ _ (prog7 2 {[ 1 := 101 ]} [7], [proc_at 0 (ErrLookup 7 true); proc_at 1 (Ready 7 true)])).
  { eapply (setup_to _ _ _ 0 (proc_at 0 (MapLookup 7 true true)) _ (ErrLookup 7 true)); [done | by apply st_xsks_err | done]. }
  apply rtc_once. eapply (setup_to _ _ _ 0 (proc_at 0 (ErrLookup 7 true)) _ Failed); [done | apply (st_err_detach _ _ _ _ _ 7) | done].
Qed.

Lemma release_to allow I ps i pr I' c s' : ps !! i = Some pr ->
  release_step allow (p_queue pr) I (p_pc pr) I' c -> s' = (I', <[i := with_pc pr c]> ps) ->
  sys_step allow (I, ps) s'.
Proof. intros Hi HS ->. by apply ss_release. Qed.

(** Process 1 cannot open the map of the count: it uses the program without
    being counted. *)
Lemma second_overlooks :
  rtc (sys_step (fun _ => true)) (prog7 1 ∅ [7], [proc_at 0 (MapLookup 7 true true); proc_at 1 Start])
    (prog7 1 {[ 1 := 101 ]} [7], [proc_at 0 (MapLookup 7 true true); proc_at 1 (Ready 7 false)]).
Proof.
  apply (rtc_l _ _ (prog7 1 ∅ [7], [proc_at 0 (MapLookup 7 true true); proc_at 1 (LookedUp 7)])).
  { apply (setup_to _ _ _ 1 (proc_at 1 Start) (prog7 1 ∅ [7]) (LookedUp 7)); [done | by apply (st_lookup _ _ _ _ _ 7 []) | done]. }
  apply (rtc_l _ _ (prog7 1 ∅ [7], [proc_at 0 (MapLookup 7 true true); proc_at 1 (MapLookup 7 false false)])).
  { apply (setup_to _ _ _ 1 (proc_at 1 (LookedUp 7)) (prog7 1 ∅ [7]) (MapLookup 7 false false)); [done | by apply st_count_hidden | done]. }
  apply (rtc_l _ _ (prog7 1 ∅ [7], [proc_at 0 (MapLookup 7 true true); proc_at 1 (MapUpdate 7 false false)])).
  { apply (setup_to _ _ _ 1 (proc_at 1 (MapLookup 7 false false)) (prog7 1 ∅ [7]) (MapUpdate 7 false false)); [done | apply st_xsks | done]. }
  apply rtc_once. eapply (setup_to _ _ _ 1 (proc_at 1 (MapUpdate 7 false false)) _ (Ready 7 false)); [done | |].
  - apply (st_update _ _ _ _ (prog7 1 ∅ [7]) 7 {| k_refcnt := Some 1; k_xsks := ∅ |} false false eq_refl eq_refl).
  - reflexivity.
Qed.

(** Process 0 finishes, releases its socket and detaches the program. *)
Lemma first_leaves :
  rtc (sys_step (fun _ => true))
    (prog7 1 {[ 1 := 101 ]} [7], [proc_at 0 (MapLookup 7 true true); proc_at 1 (Ready 7 false)])
    (prog7 0 {[ 1 := 101 ]} [], [proc_at 0 Gone; proc_at 1 (Ready 7 false)]).
Proof.
  pose (two c := [proc_at 0 c; proc_at 1 (Ready 7 false)]).
  apply (rtc_l _ _ (prog7 1 {[ 1 := 101 ]} [7], two (MapUpdate 7 true true))).
  { eapply (setup_to _ _ _ 0 (proc_at 0 (MapLookup 7 true true)) _ (MapUpdate 7 true true)); [done | apply st_xsks | done]. }
  apply (rtc_l _ _ (prog7 1 {[ 0 := 100; 1 := 101 ]} [7], two (Ready 7 true))).
  { eapply (setup_to _ _ _ 0 (proc_at 0 (MapUpdate 7 true true)) _ (Ready 7 true)); [done | |].
    - apply (st_update _ _ _ _ (prog7 1 {[ 1 := 101 ]} [7]) 7 {| k_refcnt := Some 1; k_xsks := {[ 1 := 101 ]} |} true true eq_refl eq_refl).
    - reflexivity. }
  apply (rtc_l _ _ (prog7 1 {[ 1 := 101 ]} [7], two (Leaving 7 true))).
  { eapply (release_to _ _ _ 0 (proc_at 0 (Ready 7 true)) _ (Leaving 7 true)); [done | |].
    - apply (st_leave _ _ (prog7 1 {[ 0 := 100; 1 := 101 ]} [7]) 7 {| k_refcnt := Some 1; k_xsks := {[ 0 := 100; 1 := 101 ]} |} true eq_refl).
    - reflexivity. }
  apply (rtc_l _ _ (prog7 0 {[ 1 := 101 ]} [7], two (Detaching 7))).
  { eapply (release_to _ _ _ 0 (proc_at 0 (Leaving 7 true)) _ (Detaching 7)); [done | |].
    - apply (st_decr _ _ (prog7 1 {[ 1 := 101 ]} [7]) 7 {| k_refcnt := Some 1; k_xsks := {[ 1 := 101 ]} |} 1 works 0 0
        eq_refl eq_refl works_ok eq_refl). done.
    - reflexivity. }
  apply rtc_once. eapply (release_to _ _ _ 0 (proc_at 0 (Detaching 7)) _ Gone); [done | apply st_detach | reflexivity].
Qed.

(** A process that could not open the map of the count is not counted: when
    the process that attached the program leaves, the program is detached, and
    the packets of the other no longer reach its socket. *)
Theorem xsk_hidden_count_detaches :
  exists I pr, rtc (sys_step (fun _ => true)) (no_iface, [proc_at 0 Start; proc_at 1 Start])
      (I, [proc_at 0 Gone; pr]) /\ at_ready pr 7 /\ if_attached I = [] /\
    run_default (if_progs I) (if_attached I) (p_queue pr) = (XDP_PASS, None).
Proof.
  exists (prog7 0 {[ 1 := 101 ]} []), (proc_at 1 (Ready 7 false)). split_and!; [| by exists false | done | done].
  etrans; [apply first_attaches |]. etrans; [apply second_overlooks | apply first_leaves].
Qed.

Lemma xsk_refcnt_safe_witness :
  exists I pr, rtc (sys_step no_fault) (no_iface, [proc_at 0 Start; proc_at 1 Start])
      (I, [proc_at 0 (MapLookup 7 true true); pr]) /\
    run_default (if_progs I) (if_attached I) 1 = (XDP_REDIRECT, Some 101).
Proof.
  assert (rtc (sys_step no_fault) (no_iface, [proc_at 0 Start; proc_at 1 Start])
    (prog7 2 {[ 1 := 101 ]} [7], [proc_at 0 (MapLookup 7 true true); proc_at 1 (Ready 7 true)])) as HR
    by (etrans; [apply first_attaches | apply second_joins]).
  do 2 eexists. split; [exact HR |].
  refine (proj2 (xsk_refcnt_safe no_fault [proc_at 0 Start; proc_at 1 Start] _ _ 1 (proc_at 1 (Ready 7 true)) 7 true
    eq_refl _ _ eq_refl HR eq_refl eq_refl (or_introl eq_refl)) eq_refl).
  - by repeat constructor.
  - apply (bool_decide_unpack _). by vm_compute.
Defined.

Lemma xsk_last_user_detaches_witness :
  exists I, rtc (sys_step no_fault) (no_iface, [proc_at 0 Start]) (I, [proc_at 0 Failed]) /\
    forall p k, p ∈ if_attached I -> if_progs I !! p = Some k -> k_refcnt k = None.
Proof.
  assert (rtc (sys_step no_fault) (no_iface, [proc_at 0 Start]) (no_iface, [proc_at 0 Failed])) as HR.
  { apply rtc_once. eapply (setup_to _ _ _ 0 (proc_at 0 Start) _ Failed); [done | apply st_lookup_err | done]. }
  eexists. split; [exact HR |]. eapply (xsk_last_user_detaches [proc_at 0 Start] _ [proc_at 0 Failed]); [| | | exact HR |].
  - by repeat constructor.
  - apply (bool_decide_unpack _). by vm_compute.
  - done.
  - apply Forall_singleton. by right.
Defined.
