(* ===== verification/XskSocket.v ===== *)
(** AF_XDP sockets and their umem: src/lib/xdp-tools/lib/libxdp/xsk.c.

    The library's structs are objects of a heap, which sockets share by
    address; using one that was freed is [None].  The client's ring structs are
    objects too, since the library keeps their addresses.  Mappings and descriptors
    are the [world] of RingBufMgr.v, and open programs are a set of handles.
    [errno] is part of the state, because the code returns it also where no call
    has just set it.  What the kernel, the allocator and the functions of
    XskProg.v answer are arguments, one field per call. *)
From S2P Require Import Prelude.
From S2P Require Import CLib.
From S2P Require Import RingBufMgr.
From S2P Require Import XskRing.

Definition EFAULT : Z := 14.
Definition ENOPROTOOPT : Z := 92.
Definition INIT_NS : Z := 1.
Definition SIZEOF_MMAP_OFFSETS : Z := 128.
Definition SIZEOF_MMAP_OFFSETS_V1 : Z := 96.

(** ** Data *)

Record umem_config := {
  uc_fill_size : Z; uc_comp_size : Z; uc_frame_size : Z; uc_frame_headroom : Z; uc_flags : Z }.

Record socket_config := {
  sc_rx_size : Z; sc_tx_size : Z; sc_libbpf_flags : Z; sc_xdp_flags : Z; sc_bind_flags : Z }.

(** [struct xsk_umem]; rings and contexts are addresses, 0 is NULL. *)
Record xsk_umem := {
  um_fill_save : Z;
  um_comp_save : Z;
  um_area : Z;
  um_config : umem_config;
  um_fd : Z;
  um_refcount : Z;
  um_ctx_list : list Z;
  um_rx_done : bool;
  um_tx_done : bool
}.

Record xsk_ctx := {
  cx_fill : Z;
  cx_comp : Z;
  cx_umem : Z;
  cx_queue_id : Z;
  cx_refcount : Z;
  cx_ifindex : Z;
  cx_netns_cookie : Z;
  cx_xsks_map_fd : Z;
  cx_xdp_prog : Z;          (** 0 is NULL, an error pointer is negative *)
  cx_refcnt_map_fd : Z;
  cx_ifname : list byte
}.

Record xsk_socket := {
  so_rx : Z;
  so_tx : Z;
  so_ctx : Z;
  so_config : socket_config;
  so_fd : Z
}.

(** [struct xdp_ring_offset] and [struct xdp_mmap_offsets] *)
Record ring_offset := { of_producer : Z; of_consumer : Z; of_desc : Z; of_flags : Z }.
Record mmap_offsets := { off_rx : ring_offset; off_tx : ring_offset; off_fr : ring_offset; off_cr : ring_offset }.

Record xst := {
  s_world : world;
  s_umem : gmap Z xsk_umem;
  s_ctx : gmap Z xsk_ctx;
  s_sock : gmap Z xsk_socket;
  s_rings : gmap Z xsk_ring;
  s_progs : gset Z;
  s_errno : Z
}.

(** ** The state monad of the library *)

Definition M (A : Type) : Type := xst -> option (A * xst).

Definition ret {A} (a : A) : M A := fun s => Some (a, s).
Definition bind {A B} (m : M A) (f : A -> M B) : M B :=
  fun s => match m s with Some (a, s') => f a s' | None => None end.

Declare Scope xsk_scope.
Delimit Scope xsk_scope with xsk.
Notation "x <- m ;; k" := (bind m (fun x => k)) (at level 100, m at next level, right associativity) : xsk_scope.
Notation "m ;; k" := (bind m (fun _ => k)) (at level 100, right associativity) : xsk_scope.
#[local] Open Scope xsk_scope.

Definition set_world (w : world) (s : xst) : xst :=
  {| s_world := w; s_umem := s_umem s; s_ctx := s_ctx s; s_sock := s_sock s; s_rings := s_rings s;
     s_progs := s_progs s; s_errno := s_errno s |}.
Definition set_umems (m : gmap Z xsk_umem) (s : xst) : xst :=
  {| s_world := s_world s; s_umem := m; s_ctx := s_ctx s; s_sock := s_sock s; s_rings := s_rings s;
     s_progs := s_progs s; s_errno := s_errno s |}.
Definition set_ctxs (m : gmap Z xsk_ctx) (s : xst) : xst :=
  {| s_world := s_world s; s_umem := s_umem s; s_ctx := m; s_sock := s_sock s; s_rings := s_rings s;
     s_progs := s_progs s; s_errno := s_errno s |}.
Definition set_socks (m : gmap Z xsk_socket) (s : xst) : xst :=
  {| s_world := s_world s; s_umem := s_umem s; s_ctx := s_ctx s; s_sock := m; s_rings := s_rings s;
     s_progs := s_progs s; s_errno := s_errno s |}.
Definition set_rings (m : gmap Z xsk_ring) (s : xst) : xst :=
  {| s_world := s_world s; s_umem := s_umem s; s_ctx := s_ctx s; s_sock := s_sock s; s_rings := m;
     s_progs := s_progs s; s_errno := s_errno s |}.
Definition set_progs (p : gset Z) (s : xst) : xst :=
  {| s_world := s_world s; s_umem := s_umem s; s_ctx := s_ctx s; s_sock := s_sock s; s_rings := s_rings s;
     s_progs := p; s_errno := s_errno s |}.
Definition set_err (e : Z) (s : xst) : xst :=
  {| s_world := s_world s; s_umem := s_umem s; s_ctx := s_ctx s; s_sock := s_sock s; s_rings := s_rings s;
     s_progs := s_progs s; s_errno := e |}.

(** Reading and writing through a pointer to a live object. *)
Definition get_umem (a : Z) : M xsk_umem := fun s => u ← s_umem s !! a; Some (u, s).
Definition put_umem (a : Z) (u : xsk_umem) : M unit := fun s => Some (tt, set_umems (<[a := u]> (s_umem s)) s).
Definition free_umem (a : Z) : M unit := fun s => Some (tt, set_umems (delete a (s_umem s)) s).
Definition get_ctx (a : Z) : M xsk_ctx := fun s => c ← s_ctx s !! a; Some (c, s).
Definition put_ctx (a : Z) (c : xsk_ctx) : M unit := fun s => Some (tt, set_ctxs (<[a := c]> (s_ctx s)) s).
Definition free_ctx (a : Z) : M unit := fun s => Some (tt, set_ctxs (delete a (s_ctx s)) s).
Definition get_sock (a : Z) : M xsk_socket := fun s => x ← s_sock s !! a; Some (x, s).
Definition put_sock (a : Z) (x : xsk_socket) : M unit := fun s => Some (tt, set_socks (<[a := x]> (s_sock s)) s).
Definition free_sock (a : Z) : M unit := fun s => Some (tt, set_socks (delete a (s_sock s)) s).
Definition get_ring (a : Z) : M xsk_ring := fun s => r ← s_rings s !! a; Some (r, s).
Definition put_ring (a : Z) (r : xsk_ring) : M unit := fun s => Some (tt, set_rings (<[a := r]> (s_rings s)) s).

Definition get_errno : M Z := fun s => Some (s_errno s, s).
(** A failing call sets [errno]. *)
Definition fails (errno : Z) : M unit := fun s => Some (tt, set_err errno s).

Definition do_mmap (addr len : Z) : M unit := fun s => Some (tt, set_world (mmap_at (s_world s) addr len) s).
Definition do_munmap (addr len : Z) : M unit := fun s => w ← munmap (s_world s) addr len; Some (tt, set_world w s).
Definition do_open (fd : Z) : M unit := fun s => Some (tt, set_world (open_fd (s_world s) fd) s).
Definition do_close (fd : Z) : M unit := fun s => w ← close (s_world s) fd; Some (tt, set_world w s).

(** Unmapping MAP_FAILED, which is not page aligned: EINVAL, and nothing is
    unmapped. *)
Definition MAP_FAILED : Z := -1.
Definition munmap_failed : M unit := fails EINVAL.

(** ** Descriptors and configurations *)

Definition xsk_umem__fd (umem : option xsk_umem) : Z := match umem with Some u => um_fd u | None => - EINVAL end.
Definition xsk_socket__fd (xsk : option xsk_socket) : Z := match xsk with Some x => so_fd x | None => - EINVAL end.

Definition xsk_page_aligned (pagesize addr : Z) : bool := Z.land addr (pagesize - 1) =? 0.

Definition xsk_set_umem_config (usr_cfg : option umem_config) : umem_config :=
  match usr_cfg with
  | None => {| uc_fill_size := 2048; uc_comp_size := 2048; uc_frame_size := 4096; uc_frame_headroom := 0; uc_flags := 0 |}
  | Some c => c
  end.

Definition XSK_INHIBIT_PROG_LOAD : Z := 1.

Definition xsk_set_xdp_socket_config (usr_cfg : option socket_config) : Z + socket_config :=
  match usr_cfg with
  | None => inr {| sc_rx_size := 2048; sc_tx_size := 2048; sc_libbpf_flags := 0; sc_xdp_flags := 0; sc_bind_flags := 0 |}
  | Some c =>
    if c_true (Z.land (sc_libbpf_flags c) (u32 (Z.lnot XSK_INHIBIT_PROG_LOAD))) then inl (- EINVAL) else inr c
  end.

(** ** The layout of the rings *)

Definition offset4 (p c d f : Z) : ring_offset := {| of_producer := p; of_consumer := c; of_desc := d; of_flags := f |}.

(** The words the kernel stored, as the struct of kernels from 5.4 on. *)
Definition read_offsets (w : list Z) : option mmap_offsets :=
  match w with
  | [a1; a2; a3; a4; b1; b2; b3; b4; c1; c2; c3; c4; d1; d2; d3; d4] =>
    Some {| off_rx := offset4 a1 a2 a3 a4; off_tx := offset4 b1 b2 b3 b4; off_fr := offset4 c1 c2 c3 c4; off_cr := offset4 d1 d2 d3 d4 |}
  | _ => None
  end.

(** [xsk_mmap_offsets_v1]: the first twelve words are the struct of kernels up to
    5.3, and the flags are put behind the consumer index. *)
Definition xsk_mmap_offsets_v1 (w : list Z) : option mmap_offsets :=
  match take 12 w with
  | [a1; a2; a3; b1; b2; b3; c1; c2; c3; d1; d2; d3] =>
    let v1 p c d := offset4 p c d (u64 (c + 4)) in
    Some {| off_rx := v1 a1 a2 a3; off_tx := v1 b1 b2 b3; off_fr := v1 c1 c2 c3; off_cr := v1 d1 d2 d3 |}
  | _ => None
  end.

(** The answer of [getsockopt]: [errno], or the length it stored and the
    sixteen words of the buffer. *)
Definition offsets_answer : Type := Z + Z * list Z.

(** The result, and the offsets if it is 0. *)
Definition xsk_get_mmap_offsets (a : offsets_answer) : M (Z * option mmap_offsets) :=
  match a with
  | inl errno => fails errno ;; ret (-1, None)
  | inr (optlen, w) =>
    if optlen =? SIZEOF_MMAP_OFFSETS then
      fun s => off ← read_offsets w; Some ((0, Some off), s)
    else if optlen =? SIZEOF_MMAP_OFFSETS_V1 then
      fun s => off ← xsk_mmap_offsets_v1 w; Some ((0, Some off), s)
    else ret (- EINVAL, None)
  end.

(** The length of a mapping with [n] entries of [sz] bytes. *)
Definition map_len (o : ring_offset) (n sz : Z) : Z := u64 (of_desc o + n * sz).

(** The rings of a mapping at [map]. *)
Definition place_ring (r : xsk_ring) (o : ring_offset) (map n : Z) : xsk_ring :=
  {| xr_cached_prod := xr_cached_prod r; xr_cached_cons := xr_cached_cons r; xr_mask := u32 (n - 1); xr_size := n;
     xr_producer := map + of_producer o; xr_consumer := map + of_consumer o; xr_ring := map + of_desc o;
     xr_flags := map + of_flags o |}.

Record rings_env := {
  re_fill_opt : option Z;      (** the [errno] of a failing call *)
  re_comp_opt : option Z;
  re_off : offsets_answer;
  re_map_fill : Z + Z;
  re_map_comp : Z + Z
}.

Definition xsk_create_umem_rings (e : rings_env) (config : umem_config) (fill comp : Z) : M Z :=
  match re_fill_opt e with
  | Some errno => fails errno ;; ret (- errno)
  | None =>
    match re_comp_opt e with
    | Some errno => fails errno ;; ret (- errno)
    | None =>
      r <- xsk_get_mmap_offsets (re_off e) ;;
      match snd r with
      | None => errno <- get_errno ;; ret (- errno)
      | Some off =>
        match re_map_fill e with
        | inl errno => fails errno ;; ret (- errno)
        | inr map =>
          do_mmap map (map_len (off_fr off) (uc_fill_size config) SIZEOF_U64) ;;
          f <- get_ring fill ;;
          put_ring fill (set_cached_cons (place_ring f (off_fr off) map (uc_fill_size config)) (uc_fill_size config)) ;;
          match re_map_comp e with
          | inl errno => fails errno ;; munmap_failed ;; ret (- errno)
          | inr map =>
            do_mmap map (map_len (off_cr off) (uc_comp_size config) SIZEOF_U64) ;;
            c <- get_ring comp ;;
            put_ring comp (place_ring c (off_cr off) map (uc_comp_size config)) ;;
            ret 0
          end
        end
      end
    end
  end.

(** ** The umem *)

Record umem_env := {
  ue_pagesize : Z;
  ue_alloc : option Z;         (** the address of the new struct *)
  ue_socket : Z + Z;
  ue_reg : option Z;           (** the [errno] of a failing XDP_UMEM_REG *)
  ue_rings : rings_env
}.

Definition save_rings (u : xsk_umem) (fill comp : Z) : xsk_umem :=
  {| um_fill_save := fill; um_comp_save := comp; um_area := um_area u; um_config := um_config u; um_fd := um_fd u;
     um_refcount := um_refcount u; um_ctx_list := um_ctx_list u; um_rx_done := um_rx_done u; um_tx_done := um_tx_done u |}.

Definition set_refs (u : xsk_umem) (n : Z) : xsk_umem :=
  {| um_fill_save := um_fill_save u; um_comp_save := um_comp_save u; um_area := um_area u; um_config := um_config u;
     um_fd := um_fd u; um_refcount := n; um_ctx_list := um_ctx_list u; um_rx_done := um_rx_done u; um_tx_done := um_tx_done u |}.

Definition set_list (u : xsk_umem) (l : list Z) : xsk_umem :=
  {| um_fill_save := um_fill_save u; um_comp_save := um_comp_save u; um_area := um_area u; um_config := um_config u;
     um_fd := um_fd u; um_refcount := um_refcount u; um_ctx_list := l; um_rx_done := um_rx_done u; um_tx_done := um_tx_done u |}.

Definition set_done (u : xsk_umem) (rx tx : bool) : xsk_umem :=
  {| um_fill_save := um_fill_save u; um_comp_save := um_comp_save u; um_area := um_area u; um_config := um_config u;
     um_fd := um_fd u; um_refcount := um_refcount u; um_ctx_list := um_ctx_list u; um_rx_done := rx; um_tx_done := tx |}.

(** The result, and [*umem_ptr] if it was set.  [umem_ptr] says that the
    pointer is not NULL. *)
Definition xsk_umem__create_with_fd (e : umem_env) (umem_ptr : bool) (fd umem_area size fill comp : Z)
    (usr_config : option umem_config) : M (Z * Z) :=
  if (umem_area =? 0) || negb umem_ptr || (fill =? 0) || (comp =? 0) then ret (- EFAULT, 0) else
  if (size =? 0) && negb (xsk_page_aligned (ue_pagesize e) umem_area) then ret (- EINVAL, 0) else
  match ue_alloc e with
  | None => ret (- ENOMEM, 0)
  | Some umem =>
    let config := xsk_set_umem_config usr_config in
    let u fd := {| um_fill_save := 0; um_comp_save := 0; um_area := umem_area; um_config := config; um_fd := fd;
                   um_refcount := 0; um_ctx_list := []; um_rx_done := false; um_tx_done := false |} in
    let register fd :=
      put_umem umem (u fd) ;;
      match ue_reg e with
      | Some errno => fails errno ;; do_close fd ;; free_umem umem ;; ret (- errno, 0)
      | None =>
        err <- xsk_create_umem_rings (ue_rings e) config fill comp ;;
        if negb (err =? 0) then do_close fd ;; free_umem umem ;; ret (err, 0) else
        put_umem umem (save_rings (u fd) fill comp) ;;
        ret (0, umem)
      end in
    if fd <? 0 then
      match ue_socket e with
      | inl errno => put_umem umem (u (-1)) ;; fails errno ;; free_umem umem ;; ret (- errno, 0)
      | inr fd => do_open fd ;; register fd
      end
    else register fd
  end.

Definition xsk_umem__create (e : umem_env) (umem_ptr : bool) (umem_area size fill comp : Z)
    (usr_config : option umem_config) : M (Z * Z) :=
  xsk_umem__create_with_fd e umem_ptr (-1) umem_area size fill comp usr_config.

(** Unmapping the fill and completion rings at [fill] and [comp]. *)
Definition unmap_umem_rings (off : mmap_offsets) (config : umem_config) (fill comp : Z) : M unit :=
  f <- get_ring fill ;;
  do_munmap (xr_ring f - of_desc (off_fr off)) (map_len (off_fr off) (uc_fill_size config) SIZEOF_U64) ;;
  c <- get_ring comp ;;
  do_munmap (xr_ring c - of_desc (off_cr off)) (map_len (off_cr off) (uc_comp_size config) SIZEOF_U64).

Definition xsk_umem__delete (a : offsets_answer) (umem : Z) : M Z :=
  if umem =? 0 then ret 0 else
  u <- get_umem umem ;;
  if c_true (um_refcount u) then ret (- EBUSY) else
  r <- xsk_get_mmap_offsets a ;;
  match snd r with
  | Some off =>
    if negb (um_fill_save u =? 0) && negb (um_comp_save u =? 0)
    then unmap_umem_rings off (um_config u) (um_fill_save u) (um_comp_save u) else ret tt
  | None => ret tt
  end ;;
  do_close (um_fd u) ;;
  free_umem umem ;;
  ret 0.

(** ** Contexts: what the sockets of one queue of an interface share *)

Definition set_ctx_refs (c : xsk_ctx) (n : Z) : xsk_ctx :=
  {| cx_fill := cx_fill c; cx_comp := cx_comp c; cx_umem := cx_umem c; cx_queue_id := cx_queue_id c; cx_refcount := n;
     cx_ifindex := cx_ifindex c; cx_netns_cookie := cx_netns_cookie c; cx_xsks_map_fd := cx_xsks_map_fd c;
     cx_xdp_prog := cx_xdp_prog c; cx_refcnt_map_fd := cx_refcnt_map_fd c; cx_ifname := cx_ifname c |}.

Definition set_ctx_prog (c : xsk_ctx) (prog refcnt_fd xsks_fd : Z) : xsk_ctx :=
  {| cx_fill := cx_fill c; cx_comp := cx_comp c; cx_umem := cx_umem c; cx_queue_id := cx_queue_id c;
     cx_refcount := cx_refcount c; cx_ifindex := cx_ifindex c; cx_netns_cookie := cx_netns_cookie c;
     cx_xsks_map_fd := xsks_fd; cx_xdp_prog := prog; cx_refcnt_map_fd := refcnt_fd; cx_ifname := cx_ifname c |}.

(** The address of the context, 0 if there is none; the list is walked from
    its head. *)
Fixpoint xsk_get_ctx_loop (l : list Z) (netns_cookie ifindex queue_id : Z) : M Z :=
  match l with
  | [] => ret 0
  | a :: l' =>
    c <- get_ctx a ;;
    if (cx_netns_cookie c =? netns_cookie) && (cx_ifindex c =? ifindex) && (cx_queue_id c =? queue_id)
    then put_ctx a (set_ctx_refs c (cx_refcount c + 1)) ;; ret a
    else xsk_get_ctx_loop l' netns_cookie ifindex queue_id
  end.

Definition xsk_get_ctx (umem netns_cookie ifindex queue_id : Z) : M Z :=
  u <- get_umem umem ;; xsk_get_ctx_loop (um_ctx_list u) netns_cookie ifindex queue_id.

Definition remove_ctx (l : list Z) (ctx : Z) : list Z := List.filter (fun a => negb (a =? ctx)) l.

Definition xsk_put_ctx (a : offsets_answer) (ctx : Z) (unmap : bool) : M unit :=
  c <- get_ctx ctx ;;
  let c := set_ctx_refs c (cx_refcount c - 1) in
  put_ctx ctx c ;;
  if c_true (cx_refcount c) then ret tt else
  u <- get_umem (cx_umem c) ;;
  (if negb unmap then ret tt else
   r <- xsk_get_mmap_offsets a ;;
   match snd r with
   | None => ret tt
   | Some off => unmap_umem_rings off (um_config u) (cx_fill c) (cx_comp c)
   end) ;;
  put_umem (cx_umem c) (set_list u (remove_ctx (um_ctx_list u) ctx)) ;;
  free_ctx ctx.

(** [memcpy(ctx->ifname, ifname, IFNAMSIZ - 1)] and the terminator: fifteen
    bytes are read, whatever the length of the name. *)
Definition copy_name (ifname : list byte) : M (list byte) :=
  fun s => name ← bytes_at ifname 0 15; Some (name ++ [NUL], s).

(** The new context of the umem. *)
Definition link_ctx (ctx umem netns_cookie ifindex : Z) (ifname : list byte) (queue_id fill comp : Z) : M Z :=
  name <- copy_name ifname ;;
  put_ctx ctx {| cx_fill := fill; cx_comp := comp; cx_umem := umem; cx_queue_id := queue_id; cx_refcount := 1;
                 cx_ifindex := ifindex; cx_netns_cookie := netns_cookie; cx_xsks_map_fd := 0; cx_xdp_prog := 0;
                 cx_refcnt_map_fd := 0; cx_ifname := name |} ;;
  u <- get_umem umem ;;
  put_umem umem (set_list u (ctx :: um_ctx_list u)) ;;
  ret ctx.

(** The address of the new context, 0 on failure.  The rings of an xsk_umem
    whose own rings are in use are made for the new context. *)
Definition xsk_create_ctx (alloc : option Z) (e : rings_env) (umem netns_cookie ifindex : Z) (ifname : list byte)
    (queue_id fill comp : Z) : M Z :=
  match alloc with
  | None => ret 0
  | Some ctx =>
    u <- get_umem umem ;;
    err <- (if um_fill_save u =? 0 then xsk_create_umem_rings e (um_config u) fill comp
            else if negb (um_fill_save u =? fill) || negb (um_comp_save u =? comp) then
              f <- get_ring (um_fill_save u) ;; put_ring fill f ;;
              c <- get_ring (um_comp_save u) ;; put_ring comp c ;; ret 0
            else ret 0) ;;
    if negb (err =? 0) then ret 0 else link_ctx ctx umem netns_cookie ifindex ifname queue_id fill comp
  end.

(** ** The program *)

(** What the functions of XskProg.v and libxdp answer: an error, NULL or the
    handle of a program; error codes are negative, descriptors are not. *)
Record setup_env := {
  pe_lookup : Z + option Z;    (** xsk_lookup_program *)
  pe_refcnt : Z;               (** xsk_lookup_refcnt_map of the program found *)
  pe_incr : Z;
  pe_find : Z + Z;             (** xdp_program__find_file *)
  pe_size : Z;
  pe_attach : Z;
  pe_refcnt_new : Z;           (** xsk_lookup_refcnt_map of the program attached *)
  pe_xsks : Z;                 (** xsk_lookup_bpf_map *)
  pe_update : Z
}.

Definition prog_open (p : Z) : M unit := fun s => Some (tt, set_progs ({[ p ]} ∪ s_progs s) s).

(** [xdp_program__close]: NULL is ignored, anything else has to be an open
    program. *)
Definition prog_close (p : Z) : M unit :=
  fun s => if p =? 0 then Some (tt, s) else
    if decide (p ∈ s_progs s) then Some (tt, set_progs (s_progs s ∖ {[ p ]}) s) else None.

(** A descriptor that a lookup returned. *)
Definition got_fd (fd : Z) : M unit := if 0 <=? fd then do_open fd else ret tt.

(** The labels of the error path. *)
Definition err_prog_load (ctx : Z) (err : Z) : M Z :=
  c <- get_ctx ctx ;;
  (if 0 <=? cx_refcnt_map_fd c then do_close (cx_refcnt_map_fd c) else ret tt) ;;
  prog_close (cx_xdp_prog c) ;;
  put_ctx ctx (set_ctx_prog c 0 (- ENOENT) (cx_xsks_map_fd c)) ;;
  ret err.

(** From the label map_lookup on; detaching has no effect on this state. *)
Definition setup_map_lookup (e : setup_env) (rx ctx : Z) : M Z :=
  got_fd (pe_xsks e) ;;
  c <- get_ctx ctx ;;
  put_ctx ctx (set_ctx_prog c (cx_xdp_prog c) (cx_refcnt_map_fd c) (pe_xsks e)) ;;
  if pe_xsks e <? 0 then err_prog_load ctx (pe_xsks e) else
  if negb (rx =? 0) && negb (pe_update e =? 0) then err_prog_load ctx (pe_update e) else
  ret 0.

(** Loading and attaching a new program, and the rest. *)
Definition setup_new_prog (e : setup_env) (rx ctx : Z) : M Z :=
  c <- get_ctx ctx ;;
  match pe_find e with
  | inl err => put_ctx ctx (set_ctx_prog c err (cx_refcnt_map_fd c) (cx_xsks_map_fd c)) ;; ret err
  | inr p =>
    prog_open p ;;
    put_ctx ctx (set_ctx_prog c p (cx_refcnt_map_fd c) (cx_xsks_map_fd c)) ;;
    if negb (pe_size e =? 0) then err_prog_load ctx (pe_size e) else
    if negb (pe_attach e =? 0) then err_prog_load ctx (pe_attach e) else
    got_fd (pe_refcnt_new e) ;;
    put_ctx ctx (set_ctx_prog c p (pe_refcnt_new e) (cx_xsks_map_fd c)) ;;
    if (pe_refcnt_new e <? 0) && negb (pe_refcnt_new e =? - ENOENT) then err_prog_load ctx (pe_refcnt_new e) else
    setup_map_lookup e rx ctx
  end.

(** [__xsk_setup_xdp_prog] for a socket with the receive ring [rx]. *)
Definition xsk_setup_prog (e : setup_env) (rx ctx : Z) : M Z :=
  c <- get_ctx ctx ;;
  match pe_lookup e with
  | inl err => put_ctx ctx (set_ctx_prog c err (cx_refcnt_map_fd c) (cx_xsks_map_fd c)) ;; ret err
  | inr None =>
    put_ctx ctx (set_ctx_prog c 0 (- ENOENT) (cx_xsks_map_fd c)) ;;
    setup_new_prog e rx ctx
  | inr (Some p) =>
    prog_open p ;;
    got_fd (pe_refcnt e) ;;
    put_ctx ctx (set_ctx_prog c p (pe_refcnt e) (cx_xsks_map_fd c)) ;;
    if pe_refcnt e =? - ENOENT then setup_map_lookup e rx ctx else
    if pe_refcnt e <? 0 then err_prog_load ctx (pe_refcnt e) else
    if pe_incr e <? 0 then err_prog_load ctx (pe_incr e) else
    if pe_incr e =? 0 then
      do_close (pe_refcnt e) ;;
      prog_close p ;;
      put_ctx ctx (set_ctx_prog c 0 (- ENOENT) (cx_xsks_map_fd c)) ;;
      setup_new_prog e rx ctx
    else setup_map_lookup e rx ctx
  end.

(** [xsk_release_xdp_prog]: the count and the interface are in XskRefcnt.v. *)
Definition xsk_release_xdp_prog (ctx : Z) : M unit :=
  c <- get_ctx ctx ;; prog_close (cx_xdp_prog c).

(** ** Sockets *)

Record create_env := {
  ce_alloc : option Z;
  ce_ifindex : Z + Z;
  ce_socket : Z + Z;
  ce_cookie : Z + Z;
  ce_ctx : option Z;
  ce_rings : rings_env;
  ce_rx_opt : option Z;
  ce_tx_opt : option Z;
  ce_off : offsets_answer;
  ce_rx_map : Z + Z;
  ce_rx_index : Z * Z;         (** [*rx->producer] and [*rx->consumer] *)
  ce_tx_map : Z + Z;
  ce_tx_index : Z * Z;
  ce_bind : option Z;
  ce_setup : setup_env;
  ce_off_put : offsets_answer  (** in [xsk_put_ctx] on the error path *)
}.

(** The labels of the error path, from the last to the first. *)
Definition out_xsk_alloc (xsk err : Z) : M (Z * Z) := free_sock xsk ;; ret (err, 0).

Definition out_socket (xsk umem fd err : Z) : M (Z * Z) :=
  u <- get_umem umem ;;
  let u := set_refs u (um_refcount u - 1) in
  put_umem umem u ;;
  (if c_true (um_refcount u) then do_close fd else ret tt) ;;
  out_xsk_alloc xsk err.

Definition out_put_ctx (e : create_env) (xsk umem fd ctx fill err : Z) : M (Z * Z) :=
  u <- get_umem umem ;;
  xsk_put_ctx (ce_off_put e) ctx (negb (um_fill_save u =? fill)) ;;
  out_socket xsk umem fd err.

Definition out_mmap_rx (e : create_env) (off : mmap_offsets) (config : socket_config) (rx rx_map xsk umem fd ctx fill err : Z) :
    M (Z * Z) :=
  (if negb (rx =? 0) then do_munmap rx_map (map_len (off_rx off) (sc_rx_size config) SIZEOF_XDP_DESC) else ret tt) ;;
  out_put_ctx e xsk umem fd ctx fill err.

Definition out_mmap_tx (e : create_env) (off : mmap_offsets) (config : socket_config)
    (tx tx_map rx rx_map xsk umem fd ctx fill err : Z) : M (Z * Z) :=
  (if negb (tx =? 0) then do_munmap tx_map (map_len (off_tx off) (sc_tx_size config) SIZEOF_XDP_DESC) else ret tt) ;;
  out_mmap_rx e off config rx rx_map xsk umem fd ctx fill err.

(** [bind] and the program, when the rings are mapped. *)
Definition create_bind (e : create_env) (off : mmap_offsets) (config : socket_config)
    (xsk umem fd ctx rx rx_map tx tx_map fill : Z) : M (Z * Z) :=
  match ce_bind e with
  | Some errno => fails errno ;; out_mmap_tx e off config tx tx_map rx rx_map xsk umem fd ctx fill (- errno)
  | None =>
    put_sock xsk {| so_rx := rx; so_tx := tx; so_ctx := ctx; so_config := config; so_fd := fd |} ;;
    err <- (if c_true (Z.land (sc_libbpf_flags config) XSK_INHIBIT_PROG_LOAD) then ret 0
            else xsk_setup_prog (ce_setup e) rx ctx) ;;
    if negb (err =? 0) then out_mmap_tx e off config tx tx_map rx rx_map xsk umem fd ctx fill err else
    u <- get_umem umem ;;
    put_umem umem (save_rings u 0 0) ;;
    ret (0, xsk)
  end.

(** The transmit ring. *)
Definition create_tx (e : create_env) (off : mmap_offsets) (config : socket_config)
    (xsk umem fd ctx rx rx_map tx fill : Z) : M (Z * Z) :=
  if tx =? 0 then create_bind e off config xsk umem fd ctx rx rx_map tx 0 fill else
  match ce_tx_map e with
  | inl errno => fails errno ;; out_mmap_rx e off config rx rx_map xsk umem fd ctx fill (- errno)
  | inr map =>
    do_mmap map (map_len (off_tx off) (sc_tx_size config) SIZEOF_XDP_DESC) ;;
    t <- get_ring tx ;;
    put_ring tx (set_cached_cons (set_cached_prod (place_ring t (off_tx off) map (sc_tx_size config)) (fst (ce_tx_index e)))
                   (u32 (snd (ce_tx_index e) + sc_tx_size config))) ;;
    create_bind e off config xsk umem fd ctx rx rx_map tx map fill
  end.

(** From the offsets on: the receive ring and the rest. *)
Definition create_rings (e : create_env) (config : socket_config) (xsk umem fd ctx rx tx fill : Z) : M (Z * Z) :=
  r <- xsk_get_mmap_offsets (ce_off e) ;;
  match snd r with
  | None => errno <- get_errno ;; out_put_ctx e xsk umem fd ctx fill (- errno)
  | Some off =>
    if rx =? 0 then create_tx e off config xsk umem fd ctx rx 0 tx fill else
    match ce_rx_map e with
    | inl errno => fails errno ;; out_put_ctx e xsk umem fd ctx fill (- errno)
    | inr map =>
      do_mmap map (map_len (off_rx off) (sc_rx_size config) SIZEOF_XDP_DESC) ;;
      r <- get_ring rx ;;
      put_ring rx (set_cached_cons (set_cached_prod (place_ring r (off_rx off) map (sc_rx_size config)) (fst (ce_rx_index e)))
                     (snd (ce_rx_index e))) ;;
      create_tx e off config xsk umem fd ctx rx map tx fill
    end
  end.

(** The socket option for the transmit ring. *)
Definition create_tx_option (e : create_env) (config : socket_config) (xsk umem fd ctx rx tx fill : Z)
    (tx_setup_done : bool) : M (Z * Z) :=
  if negb (tx =? 0) && negb tx_setup_done then
    match ce_tx_opt e with
    | Some errno => fails errno ;; out_put_ctx e xsk umem fd ctx fill (- errno)
    | None =>
      u <- get_umem umem ;;
      put_umem umem (if fd =? um_fd u then set_done u (um_rx_done u) true else u) ;;
      create_rings e config xsk umem fd ctx rx tx fill
    end
  else create_rings e config xsk umem fd ctx rx tx fill.

(** The socket options for the two rings. *)
Definition create_options (e : create_env) (config : socket_config) (xsk umem fd ctx rx tx fill : Z)
    (rx_setup_done tx_setup_done : bool) : M (Z * Z) :=
  if negb (rx =? 0) && negb rx_setup_done then
    match ce_rx_opt e with
    | Some errno => fails errno ;; out_put_ctx e xsk umem fd ctx fill (- errno)
    | None =>
      u <- get_umem umem ;;
      put_umem umem (if fd =? um_fd u then set_done u true (um_tx_done u) else u) ;;
      create_tx_option e config xsk umem fd ctx rx tx fill tx_setup_done
    end
  else create_tx_option e config xsk umem fd ctx rx tx fill tx_setup_done.

(** The context, when the namespace is known. *)
Definition create_in_netns (e : create_env) (config : socket_config) (xsk umem fd ifindex : Z) (ifname : list byte)
    (queue_id rx tx fill comp : Z) (rx_setup_done tx_setup_done : bool) (netns_cookie : Z) : M (Z * Z) :=
  ctx <- xsk_get_ctx umem netns_cookie ifindex queue_id ;;
  if negb (ctx =? 0) then create_options e config xsk umem fd ctx rx tx fill rx_setup_done tx_setup_done else
  if (fill =? 0) || (comp =? 0) then out_socket xsk umem fd (- EFAULT) else
  ctx <- xsk_create_ctx (ce_ctx e) (ce_rings e) umem netns_cookie ifindex ifname queue_id fill comp ;;
  if ctx =? 0 then out_socket xsk umem fd (- ENOMEM) else
  create_options e config xsk umem fd ctx rx tx fill rx_setup_done tx_setup_done.

(** From the socket on: its namespace, and the rest. *)
Definition create_ctx (e : create_env) (config : socket_config) (xsk umem fd ifindex : Z) (ifname : list byte)
    (queue_id rx tx fill comp : Z) (rx_setup_done tx_setup_done : bool) : M (Z * Z) :=
  let rest := create_in_netns e config xsk umem fd ifindex ifname queue_id rx tx fill comp rx_setup_done tx_setup_done in
  match ce_cookie e with
  | inl errno =>
    fails errno ;;
    if negb (errno =? ENOPROTOOPT) then out_socket xsk umem fd (- errno) else rest INIT_NS
  | inr netns_cookie => rest netns_cookie
  end.

(** The result, and [*xsk_ptr] if it was set; [xsk_ptr] says that the pointer
    is not NULL. *)
Definition xsk_socket__create_shared (e : create_env) (xsk_ptr : bool) (ifname : list byte) (queue_id umem : Z)
    (rx tx fill comp : Z) (usr_config : option socket_config) : M (Z * Z) :=
  if (umem =? 0) || negb xsk_ptr || ((rx =? 0) && (tx =? 0)) then ret (- EFAULT, 0) else
  match ce_alloc e with
  | None => ret (- ENOMEM, 0)
  | Some xsk =>
    let zero := {| sc_rx_size := 0; sc_tx_size := 0; sc_libbpf_flags := 0; sc_xdp_flags := 0; sc_bind_flags := 0 |} in
    put_sock xsk {| so_rx := 0; so_tx := 0; so_ctx := 0; so_config := zero; so_fd := 0 |} ;;
    match xsk_set_xdp_socket_config usr_config with
    | inl err => out_xsk_alloc xsk err
    | inr config =>
      match ce_ifindex e with
      | inl errno => fails errno ;; out_xsk_alloc xsk (- errno)
      | inr ifindex =>
        u <- get_umem umem ;;
        put_umem umem (set_refs u (um_refcount u + 1)) ;;
        if 0 <? um_refcount u then
          match ce_socket e with
          | inl errno => fails errno ;; out_xsk_alloc xsk (- errno)
          | inr fd =>
            do_open fd ;;
            create_ctx e config xsk umem fd ifindex ifname queue_id rx tx fill comp false false
          end
        else create_ctx e config xsk umem (um_fd u) ifindex ifname queue_id rx tx fill comp (um_rx_done u) (um_tx_done u)
      end
    end
  end.

Definition xsk_socket__create (e : create_env) (xsk_ptr : bool) (ifname : list byte) (queue_id umem rx tx : Z)
    (usr_config : option socket_config) : M (Z * Z) :=
  if umem =? 0 then ret (- EFAULT, 0) else
  u <- get_umem umem ;;
  xsk_socket__create_shared e xsk_ptr ifname queue_id umem rx tx (um_fill_save u) (um_comp_save u) usr_config.

(** [off_sock] and [off_put] are the answers of the two queries for offsets. *)
Definition xsk_socket__delete (off_sock off_put : offsets_answer) (xsk : Z) : M unit :=
  if xsk =? 0 then ret tt else
  x <- get_sock xsk ;;
  c <- get_ctx (so_ctx x) ;;
  (if negb (cx_xdp_prog c =? 0) then do_close (cx_xsks_map_fd c) ;; xsk_release_xdp_prog (so_ctx x) else ret tt) ;;
  r <- xsk_get_mmap_offsets off_sock ;;
  match snd r with
  | None => ret tt
  | Some off =>
    (if negb (so_rx x =? 0) then
       r <- get_ring (so_rx x) ;;
       do_munmap (xr_ring r - of_desc (off_rx off)) (map_len (off_rx off) (sc_rx_size (so_config x)) SIZEOF_XDP_DESC)
     else ret tt) ;;
    (if negb (so_tx x =? 0) then
       t <- get_ring (so_tx x) ;;
       do_munmap (xr_ring t - of_desc (off_tx off)) (map_len (off_tx off) (sc_tx_size (so_config x)) SIZEOF_XDP_DESC)
     else ret tt)
  end ;;
  xsk_put_ctx off_put (so_ctx x) true ;;
  u <- get_umem (cx_umem c) ;;
  put_umem (cx_umem c) (set_refs u (um_refcount u - 1)) ;;
  (if negb (so_fd x =? um_fd u) then do_close (so_fd x) else ret tt) ;;
  free_sock xsk.

(** ** The program without a socket, and other entry points *)

Record init_env := { ie_xsk : option Z; ie_ctx : option Z; ie_name : Z + list byte }.

(** [xsk_init_xsk_struct]: the context of the interface, 0 after an error. *)
Definition xsk_init_xsk_struct (e : init_env) (ifindex : Z) : M (Z * Z) :=
  match ie_ctx e with
  | None => ret (- ENOMEM, 0)
  | Some ctx =>
    match ie_name e with
    | inl errno => fails errno ;; ret (- errno, 0)
    | inr ifname =>
      name <- copy_name ifname ;;
      put_ctx ctx {| cx_fill := 0; cx_comp := 0; cx_umem := 0; cx_queue_id := 0; cx_refcount := 0; cx_ifindex := ifindex;
                     cx_netns_cookie := 0; cx_xsks_map_fd := 0; cx_xdp_prog := 0; cx_refcnt_map_fd := 0; cx_ifname := name |} ;;
      ret (0, ctx)
    end
  end.

Definition xsk_destroy_xsk_struct (ctx xsk : Z) : M unit :=
  c <- get_ctx ctx ;; prog_close (cx_xdp_prog c) ;; free_ctx ctx ;; free_sock xsk.

(** The socket's struct is only there for its context. *)
Definition xsk_setup_xdp_prog (ie : init_env) (e : setup_env) (ifindex : Z) : M Z :=
  match ie_xsk ie with
  | None => ret (- ENOMEM)
  | Some xsk =>
    let zero := {| sc_rx_size := 0; sc_tx_size := 0; sc_libbpf_flags := 0; sc_xdp_flags := 0; sc_bind_flags := 0 |} in
    put_sock xsk {| so_rx := 0; so_tx := 0; so_ctx := 0; so_config := zero; so_fd := 0 |} ;;
    r <- xsk_init_xsk_struct ie ifindex ;;
    if negb (fst r =? 0) then free_sock xsk ;; ret (- EINVAL) else
    res <- xsk_setup_prog e 0 (snd r) ;;
    xsk_destroy_xsk_struct (snd r) xsk ;;
    ret res
  end.

(** The answer of bpf_map_update_elem is the result. *)
Definition xsk_socket__update_xskmap (update : Z) (xsk fd : Z) : M Z :=
  x <- get_sock xsk ;;
  c <- get_ctx (so_ctx x) ;;
  put_ctx (so_ctx x) (set_ctx_prog c (cx_xdp_prog c) (cx_refcnt_map_fd c) fd) ;;
  ret update.

(** ** Running the monad *)

Lemma get_umem_run a u s : s_umem s !! a = Some u -> get_umem a s = Some (u, s).
Proof. unfold get_umem. by intros ->. Qed.
Lemma get_ctx_run a c s : s_ctx s !! a = Some c -> get_ctx a s = Some (c, s).
Proof. unfold get_ctx. by intros ->. Qed.
Lemma get_sock_run a x s : s_sock s !! a = Some x -> get_sock a s = Some (x, s).
Proof. unfold get_sock. by intros ->. Qed.
Lemma get_ring_run a r s : s_rings s !! a = Some r -> get_ring a s = Some (r, s).
Proof. unfold get_ring. by intros ->. Qed.

Lemma bind_run {A B} (m : M A) (f : A -> M B) s a s' : m s = Some (a, s') -> bind m f s = f a s'.
Proof. unfold bind. by intros ->. Qed.

Section BindLaws.
Context {B C : Type} (f : unit -> M B) (s : xst).

Lemma bind_assoc {A} (m : M A) (g : A -> M C) (h : C -> M B) : bind (bind m g) h s = bind m (fun x => bind (g x) h) s.
Proof. unfold bind. by destruct (m s) as [[a s'] |]. Qed.
Lemma bind_ret {A} (a : A) (h : A -> M B) : bind (ret a) h s = h a s.
Proof. done. Qed.
Lemma bind_put_umem a u : bind (put_umem a u) f s = f tt (set_umems (<[a := u]> (s_umem s)) s).
Proof. done. Qed.
Lemma bind_free_umem a : bind (free_umem a) f s = f tt (set_umems (delete a (s_umem s)) s).
Proof. done. Qed.
Lemma bind_put_ctx a c : bind (put_ctx a c) f s = f tt (set_ctxs (<[a := c]> (s_ctx s)) s).
Proof. done. Qed.
Lemma bind_free_ctx a : bind (free_ctx a) f s = f tt (set_ctxs (delete a (s_ctx s)) s).
Proof. done. Qed.
Lemma bind_put_sock a x : bind (put_sock a x) f s = f tt (set_socks (<[a := x]> (s_sock s)) s).
Proof. done. Qed.
Lemma bind_free_sock a : bind (free_sock a) f s = f tt (set_socks (delete a (s_sock s)) s).
Proof. done. Qed.
Lemma bind_put_ring a r : bind (put_ring a r) f s = f tt (set_rings (<[a := r]> (s_rings s)) s).
Proof. done. Qed.
Lemma bind_fails errno : bind (fails errno) f s = f tt (set_err errno s).
Proof. done. Qed.
Lemma bind_errno (h : Z -> M B) : bind get_errno h s = h (s_errno s) s.
Proof. done. Qed.
Lemma bind_mmap a n : bind (do_mmap a n) f s = f tt (set_world (mmap_at (s_world s) a n) s).
Proof. done. Qed.
Lemma bind_open fd : bind (do_open fd) f s = f tt (set_world (open_fd (s_world s) fd) s).
Proof. done. Qed.
End BindLaws.

Create HintDb xsk.
#[export] Hint Rewrite @bind_assoc @bind_ret @bind_put_umem @bind_free_umem @bind_put_ctx @bind_free_ctx @bind_put_sock
  @bind_free_sock @bind_put_ring @bind_fails @bind_errno @bind_mmap @bind_open : xsk.

(** Run the calls that need no knowledge of the state. *)
Ltac mrun := autorewrite with xsk; cbv beta zeta.
(** Read an object of which the state is known. *)
Ltac mget H := erewrite bind_run; [| first [apply get_umem_run | apply get_ctx_run | apply get_sock_run | apply get_ring_run]; H].

(** The answer gives these offsets, or none. *)
Definition gives (a : offsets_answer) (off : mmap_offsets) : Prop := forall s, xsk_get_mmap_offsets a s = Some ((0, Some off), s).
Definition refuses (a : offsets_answer) : Prop :=
  forall s, exists n errno, xsk_get_mmap_offsets a s = Some ((n, None), set_err errno s).

Lemma refuses_fail errno : refuses (inl errno).
Proof. intros s. by exists (-1), errno. Qed.

Lemma unmap_rings_run off config fill comp s f c mf mc :
  s_rings s !! fill = Some f -> s_rings s !! comp = Some c ->
  xr_ring f = mf + of_desc (off_fr off) -> xr_ring c = mc + of_desc (off_cr off) -> mf <> mc ->
  w_maps (s_world s) !! mf = Some (map_len (off_fr off) (uc_fill_size config) SIZEOF_U64) ->
  w_maps (s_world s) !! mc = Some (map_len (off_cr off) (uc_comp_size config) SIZEOF_U64) ->
  unmap_umem_rings off config fill comp s =
    Some (tt, set_world {| w_maps := delete mc (delete mf (w_maps (s_world s))); w_fds := w_fds (s_world s) |} s).
Proof.
  intros Hf Hc Ef Ec Hne Hmf Hmc. unfold unmap_umem_rings.
  rewrite (bind_run _ _ _ _ _ (get_ring_run _ _ _ Hf)). rewrite Ef. replace (mf + _ - _) with mf by lia.
  unfold bind at 1, do_munmap at 1. rewrite (munmap_owned _ _ _ Hmf). cbn [mbind option_bind].
  erewrite bind_run; [| apply get_ring_run; exact Hc]. rewrite Ec. replace (mc + _ - _) with mc by lia.
  unfold do_munmap. cbn [set_world s_world]. rewrite munmap_owned by (simpl; by rewrite lookup_delete_ne).
  done.
Qed.

Lemma socket_config_err usr err : xsk_set_xdp_socket_config usr = inl err -> err < 0.
Proof. unfold xsk_set_xdp_socket_config. destruct usr; [| done]. by repeat case_match; intros [= <-]. Qed.

(** ** Creating a socket *)

Definition umem_with (u : xsk_umem) (n : Z) (l : list Z) (r t : bool) (fs cs : Z) : xsk_umem :=
  {| um_fill_save := fs; um_comp_save := cs; um_area := um_area u; um_config := um_config u; um_fd := um_fd u;
     um_refcount := n; um_ctx_list := l; um_rx_done := r; um_tx_done := t |}.

(** How a new socket comes by its context: it shares one, or a new one takes the
    umem's own rings or copies of their structs, or rings that were mapped for it at two addresses. *)
Inductive ctx_case := Shared (c : xsk_ctx) | Saved (c : xsk_ctx) | Mapped (c : xsk_ctx) (mf mc : Z).

Section Create.
Context (s0 : xst) (e : create_env) (off : mmap_offsets) (umem : Z) (u : xsk_umem).
Context (xsk fd rx tx fill comp : Z).
Context (Hu : s_umem s0 !! umem = Some u) (Hrefs : 0 <= um_refcount u) (Hxsk : s_sock s0 !! xsk = None).
Context (Hfd : if 0 <? um_refcount u then fd ∉ w_fds (s_world s0) else fd = um_fd u).

Definition new_ctx (c : xsk_ctx) : Prop :=
  cx_refcount c = 1 /\ cx_umem c = umem /\ cx_fill c = fill /\ cx_comp c = comp /\ cx_xdp_prog c = 0.

Definition fill_len : Z := map_len (off_fr off) (uc_fill_size (um_config u)) SIZEOF_U64.
Definition comp_len : Z := map_len (off_cr off) (uc_comp_size (um_config u)) SIZEOF_U64.

(** The state of contexts, of the umem's list of them, and of the mappings. *)
Definition ctx_state (k : ctx_case) (ctx : Z) (s : xst) (l : list Z) (maps : gmap Z Z) : Prop :=
  match k with
  | Shared c =>
    l = um_ctx_list u /\ s_ctx s0 !! ctx = Some c /\ 1 <= cx_refcount c /\ cx_umem c = umem /\
    s_ctx s = <[ctx := set_ctx_refs c (cx_refcount c + 1)]> (s_ctx s0) /\ maps = w_maps (s_world s0)
  | Saved c =>
    l = ctx :: um_ctx_list u /\ s_ctx s0 !! ctx = None /\ ctx ∉ um_ctx_list u /\ new_ctx c /\
    s_ctx s = <[ctx := c]> (s_ctx s0) /\ um_fill_save u <> 0 /\ maps = w_maps (s_world s0) /\
    s_rings s !! fill = s_rings s0 !! um_fill_save u /\ s_rings s !! comp = s_rings s0 !! um_comp_save u
  | Mapped c mf mc =>
    l = ctx :: um_ctx_list u /\ s_ctx s0 !! ctx = None /\ ctx ∉ um_ctx_list u /\ new_ctx c /\
    s_ctx s = <[ctx := c]> (s_ctx s0) /\ um_fill_save u = 0 /\ fill <> 0 /\ mf <> mc /\
    re_map_fill (ce_rings e) = inr mf /\ re_map_comp (ce_rings e) = inr mc /\
    w_maps (s_world s0) !! mf = None /\ w_maps (s_world s0) !! mc = None /\
    (exists f g, s_rings s !! fill = Some f /\ s_rings s !! comp = Some g /\
       xr_ring f = mf + of_desc (off_fr off) /\ xr_ring g = mc + of_desc (off_cr off)) /\
    maps = <[mc := comp_len]> (<[mf := fill_len]> (w_maps (s_world s0)))
  end.

(** Between getting the context and the end. *)
Record pending (k : ctx_case) (ctx : Z) (s : xst) : Prop := {
  pd_umem : exists l r t, ctx_state k ctx s l (w_maps (s_world s)) /\
    s_umem s = <[umem := umem_with u (um_refcount u + 1) l r t (um_fill_save u) (um_comp_save u)]> (s_umem s0);
  pd_sock : exists x, s_sock s = <[xsk := x]> (s_sock s0);
  pd_progs : s_progs s = s_progs s0;
  pd_rings a : a ∉ [rx; tx; fill; comp] -> s_rings s !! a = s_rings s0 !! a;
  pd_present a : is_Some (s_rings s0 !! a) -> is_Some (s_rings s !! a);
  pd_fds : w_fds (s_world s) = if 0 <? um_refcount u then {[ fd ]} ∪ w_fds (s_world s0) else w_fds (s_world s0)
}.

(** After a failed attempt: descriptors, contexts, sockets, programs and the
    umem's list of contexts are as before, the umem's count has grown by [d] and
    the mappings are [maps]. *)
Record restored (d : Z) (maps : gmap Z Z) (s : xst) : Prop := {
  re_world : s_world s = {| w_maps := maps; w_fds := w_fds (s_world s0) |};
  re_ctx : s_ctx s = s_ctx s0;
  re_sock : s_sock s = s_sock s0;
  re_progs : s_progs s = s_progs s0;
  re_umem : exists r t, s_umem s =
    <[umem := umem_with u (um_refcount u + d) (um_ctx_list u) r t (um_fill_save u) (um_comp_save u)]> (s_umem s0);
  re_rings a : a ∉ [rx; tx; fill; comp] -> s_rings s !! a = s_rings s0 !! a
}.

Lemma remove_ctx_head ctx l : ctx ∉ l -> remove_ctx (ctx :: l) ctx = l.
Proof.
  intros H. unfold remove_ctx. simpl. rewrite Z.eqb_refl. simpl. induction l as [| a l IH]; [done |].
  simpl. apply not_elem_of_cons in H as [Hne H]. rewrite (proj2 (Z.eqb_neq a ctx)) by congruence. simpl. f_equal. by apply IH.
Qed.

(** The last labels, when only the socket and the count are left. *)
Lemma out_socket_run s err r t x maps : s_ctx s = s_ctx s0 -> s_progs s = s_progs s0 ->
  (forall a, a ∉ [rx; tx; fill; comp] -> s_rings s !! a = s_rings s0 !! a) ->
  s_umem s = <[umem := umem_with u (um_refcount u + 1) (um_ctx_list u) r t (um_fill_save u) (um_comp_save u)]> (s_umem s0) ->
  s_sock s = <[xsk := x]> (s_sock s0) -> w_maps (s_world s) = maps ->
  w_fds (s_world s) = (if 0 <? um_refcount u then {[ fd ]} ∪ w_fds (s_world s0) else w_fds (s_world s0)) ->
  exists s', out_socket xsk umem fd err s = Some ((err, 0), s') /\ restored 0 maps s'.
Proof.
  intros Ec Ep Er Eu Es Em Ef. unfold out_socket. mget ltac:(rewrite Eu; apply lookup_insert_eq). mrun.
  cbn [um_refcount set_refs umem_with]. replace (um_refcount u + 1 - 1) with (um_refcount u) by lia.
  assert (forall w, w_fds w = w_fds (s_world s0) -> w_maps w = maps -> w = {| w_maps := maps; w_fds := w_fds (s_world s0) |}) as Hw
    by (intros [? ?]; simpl; by intros -> ->).
  assert (forall s2, s_umem s2 = s_umem (set_umems (<[umem := set_refs (umem_with u (um_refcount u + 1) (um_ctx_list u) r t
        (um_fill_save u) (um_comp_save u)) (um_refcount u)]> (s_umem s)) s) -> s_sock s2 = s_sock s -> s_ctx s2 = s_ctx s ->
      s_progs s2 = s_progs s -> s_rings s2 = s_rings s -> s_world s2 = {| w_maps := maps; w_fds := w_fds (s_world s0) |} ->
      exists s', out_xsk_alloc xsk err s2 = Some ((err, 0), s') /\ restored 0 maps s') as Hlast.
  { intros s2 E1 E2 E3 E4 E5 E6. eexists. split; [reflexivity |]. split; cbn in *.
    - done.
    - by rewrite E3.
    - rewrite E2, Es. by apply delete_insert_id.
    - by rewrite E4.
    - exists r, t. rewrite E1, Eu, insert_insert_eq, Z.add_0_r. done.
    - intros a Ha. rewrite E5. by apply Er. }
  unfold c_true. destruct (Z.ltb_spec 0 (um_refcount u)) as [Hpos | Hz].
  - rewrite (proj2 (Z.eqb_neq _ _)) by lia. cbn [negb]. unfold bind, do_close, close.
    cbn [set_umems s_world]. rewrite decide_True by (rewrite Ef; set_solver). cbn [mbind option_bind].
    apply Hlast; try done. cbn. apply Hw; cbn; [| done]. rewrite Ef. set_solver.
  - rewrite (proj2 (Z.eqb_eq (um_refcount u) 0)) by lia. cbn [negb]. mrun.
    apply Hlast; try done. by apply Hw.
Qed.

(** The umem's own rings, that [xsk_umem__create] made, are mapped at [mf] and
    [mc]. *)
Definition own_rings (mf mc : Z) : Prop :=
  mf <> mc /\
  (exists f g, s_rings s0 !! um_fill_save u = Some f /\ s_rings s0 !! um_comp_save u = Some g /\
     xr_ring f = mf + of_desc (off_fr off) /\ xr_ring g = mc + of_desc (off_cr off)) /\
  w_maps (s_world s0) !! mf = Some fill_len /\ w_maps (s_world s0) !! mc = Some comp_len.

(** When giving the context back with [unmap] is right, and the mappings that
    are left then, if the kernel gives the offsets ([ok]) or does not. *)
Definition may_put (k : ctx_case) (unmap : bool) (mf mc : Z) : Prop :=
  match k with Shared _ => True | Saved _ => unmap = true -> own_rings mf mc | Mapped _ _ _ => unmap = true end.
Definition maps_left (k : ctx_case) (unmap ok : bool) (mf mc : Z) : gmap Z Z :=
  match k with
  | Shared _ => w_maps (s_world s0)
  | Saved _ => if unmap && ok then delete mc (delete mf (w_maps (s_world s0))) else w_maps (s_world s0)
  | Mapped _ mf' mc' => if ok then w_maps (s_world s0) else <[mc' := comp_len]> (<[mf' := fill_len]> (w_maps (s_world s0)))
  end.
Definition answered (a : offsets_answer) (ok : bool) : Prop := if ok then gives a off else refuses a.

(** A context is given back: what is left of it. *)
Record ctx_put (n : Z) (r t : bool) (fs cs : Z) (maps : gmap Z Z) (s s' : xst) : Prop := {
  cp_umem : s_umem s' = <[umem := umem_with u n (um_ctx_list u) r t fs cs]> (s_umem s0);
  cp_ctx : s_ctx s' = s_ctx s0;
  cp_maps : w_maps (s_world s') = maps;
  cp_fds : w_fds (s_world s') = w_fds (s_world s);
  cp_sock : s_sock s' = s_sock s;
  cp_progs : s_progs s' = s_progs s;
  cp_rings : s_rings s' = s_rings s
}.

(** The last user of a context frees it. *)
Lemma put_last_run a (unmap ok : bool) ctx c s n l r t fs cs (s' : xst) : new_ctx c -> s_ctx s = <[ctx := c]> (s_ctx s0) -> ctx ∉ l ->
  s_umem s = <[umem := umem_with u n (ctx :: l) r t fs cs]> (s_umem s0) -> answered a ok ->
  (unmap && ok = true ->
   unmap_umem_rings off (um_config u) fill comp (set_ctxs (<[ctx := set_ctx_refs c 0]> (s_ctx s)) s) = Some (tt, s')) ->
  exists s2, (if unmap && ok then s2 = s' else exists errno, s2 = set_err errno (set_ctxs (<[ctx := set_ctx_refs c 0]> (s_ctx s)) s)) /\
  xsk_put_ctx a ctx unmap s =
    Some (tt, set_ctxs (delete ctx (s_ctx s2)) (set_umems (<[umem := umem_with u n l r t fs cs]> (s_umem s2)) s2)).
Proof.
  intros (Hn & Hcu & Hcf & Hcc & _) Ec Hl Eu Ha Hs'. unfold xsk_put_ctx. mget ltac:(rewrite Ec; apply lookup_insert_eq). mrun.
  cbn [set_ctx_refs cx_refcount cx_umem]. rewrite Hn, Hcu. change (c_true (1 - 1)) with false. cbv iota.
  mget ltac:(cbn; rewrite Eu; apply lookup_insert_eq). destruct unmap; cbn [negb andb] in *; mrun.
  - destruct ok; cbn [answered] in Ha.
    + exists s'. split; [done |]. erewrite bind_run; [| apply Ha].
      cbn [snd set_ctx_refs cx_fill cx_comp um_config umem_with]. rewrite Hcf, Hcc.
      erewrite bind_run; [| by apply Hs']. mrun. cbn [um_ctx_list umem_with]. by rewrite remove_ctx_head.
    + destruct (Ha (set_ctxs (<[ctx := set_ctx_refs c 0]> (s_ctx s)) s)) as (m & errno & E). eexists. split; [by exists errno |].
      erewrite bind_run; [| exact E]. cbn [snd]. mrun. cbn [um_ctx_list umem_with]. by rewrite remove_ctx_head.
  - eexists. split; [exists (s_errno s); reflexivity |]. cbn [um_ctx_list umem_with]. rewrite remove_ctx_head by done.
    by destruct s.
Qed.

Lemma put_ctx_run a k ctx s unmap ok mf mc n l r t fs cs :
  ctx_state k ctx s l (w_maps (s_world s)) -> s_umem s = <[umem := umem_with u n l r t fs cs]> (s_umem s0) ->
  may_put k unmap mf mc -> answered a ok ->
  exists s', xsk_put_ctx a ctx unmap s = Some (tt, s') /\ ctx_put n r t fs cs (maps_left k unmap ok mf mc) s s'.
Proof.
  intros HC Eu Hk Ha. destruct k as [c | c | c mf' mc']; cbn [ctx_state may_put maps_left] in *.
  - destruct HC as (-> & Hc & Hn & Hcu & Ec & Em). unfold xsk_put_ctx. mget ltac:(rewrite Ec; apply lookup_insert_eq). mrun.
    cbn [set_ctx_refs cx_refcount]. replace (cx_refcount c + 1 - 1) with (cx_refcount c) by lia.
    unfold c_true. rewrite (proj2 (Z.eqb_neq _ _)) by lia. cbn [negb]. eexists. split; [reflexivity |]. split; cbn; try done.
    rewrite Ec, insert_insert_eq. apply insert_id. rewrite Hc. f_equal. by destruct c.
  - destruct HC as (-> & Hc & Hl & Hnew & Ec & Hfs & Em & R1 & R2).
    edestruct (put_last_run a unmap ok) as (s2 & Hs2 & E); [exact Hnew | exact Ec | exact Hl | exact Eu | exact Ha | |].
    { intros [-> _]%andb_prop. destruct (Hk eq_refl) as (Hne & (f & g & Hf & Hg & Rf & Rg) & Mf & Mc).
      apply (unmap_rings_run off (um_config u) fill comp _ f g mf mc); cbn; rewrite ?R1, ?R2, ?Em; done. }
    eexists. split; [exact E |]. destruct (unmap && ok); [subst s2 | destruct Hs2 as [errno ->]];
      (split; cbn; rewrite ?Em, ?Ec, ?Eu, ?insert_insert_eq; try done; by apply delete_insert_id).
  - destruct HC as (-> & Hc & Hl & Hnew & Ec & Hfs & Hf0 & Hne & _ & _ & Hmf & Hmc & (f & g & Hf & Hg & Rf & Rg) & Em). subst unmap.
    edestruct (put_last_run a true ok) as (s2 & Hs2 & E); [exact Hnew | exact Ec | exact Hl | exact Eu | exact Ha | |].
    { intros _. apply (unmap_rings_run off (um_config u) fill comp _ f g mf' mc'); cbn; try done; rewrite Em;
        [rewrite lookup_insert_ne by done |]; apply lookup_insert_eq. }
    eexists. split; [exact E |]. cbn [andb] in Hs2. destruct ok; [subst s2 | destruct Hs2 as [errno ->]];
      (split; cbn; rewrite ?Ec, ?Eu, ?insert_insert_eq; try done; try (by apply delete_insert_id)).
    rewrite Em, (delete_insert_ne _ mf' mc') by done. rewrite (delete_insert_id (w_maps _) mf') by done. by apply delete_insert_id.
Qed.

Context (mf0 mc0 : Z) (Hown : um_fill_save u <> 0 -> own_rings mf0 mc0).

(** What a failed attempt may leave behind: nothing; its count in the umem, when
    [socket] failed; the fill ring of its context, when the completion ring could
    not be mapped; both rings, when the kernel does not give their offsets; and it may
    have unmapped the umem's own rings, when the caller gave it other structs. *)
Inductive leftover : Z -> gmap Z Z -> Prop :=
| lo_nothing : leftover 0 (w_maps (s_world s0))
| lo_count errno : 0 < um_refcount u -> ce_socket e = inl errno -> leftover 1 (w_maps (s_world s0))
| lo_fill mf errno : um_fill_save u = 0 -> re_map_fill (ce_rings e) = inr mf -> re_map_comp (ce_rings e) = inl errno ->
    leftover 0 (<[mf := fill_len]> (w_maps (s_world s0)))
| lo_rings mf mc : um_fill_save u = 0 -> re_map_fill (ce_rings e) = inr mf -> re_map_comp (ce_rings e) = inr mc ->
    refuses (ce_off_put e) -> leftover 0 (<[mc := comp_len]> (<[mf := fill_len]> (w_maps (s_world s0))))
| lo_own : um_fill_save u <> 0 -> um_fill_save u <> fill -> gives (ce_off_put e) off ->
    leftover 0 (delete mc0 (delete mf0 (w_maps (s_world s0)))).

Definition undone (s : xst) : Prop := exists d maps, leftover d maps /\ restored d maps s.

(** Undoing everything from the context on. *)
Lemma out_put_ctx_run k ctx s err : pending k ctx s -> gives (ce_off_put e) off \/ refuses (ce_off_put e) ->
  exists s', out_put_ctx e xsk umem fd ctx fill err s = Some ((err, 0), s') /\ undone s'.
Proof.
  intros [(l & r & t & HC & Eu) [x Es] Ep Er _ Ef] Hoff. unfold out_put_ctx.
  erewrite bind_run; [| apply get_umem_run; rewrite Eu; apply lookup_insert_eq]. cbn [umem_with um_fill_save].
  assert (exists ok, answered (ce_off_put e) ok) as [ok Hok] by (destruct Hoff; [by exists true | by exists false]).
  edestruct (put_ctx_run (ce_off_put e) k ctx s (negb (um_fill_save u =? fill)) ok mf0 mc0) as (s1 & E1 & [P1 P2 P3 P4 P5 P6 P7]);
    [exact HC | exact Eu | | done |].
  { destruct k; cbn [ctx_state may_put] in *; [done | |].
    - intros _. by apply Hown, HC.
    - destruct HC as (_ & _ & _ & _ & _ & -> & Hf0 & _). by rewrite (proj2 (Z.eqb_neq _ _)). }
  assert (leftover 0 (maps_left k (negb (um_fill_save u =? fill)) ok mf0 mc0)) as Hlo.
  { destruct k; cbn [ctx_state maps_left] in *; [constructor | |].
    - destruct (Z.eqb_spec (um_fill_save u) fill); cbn [negb andb]; [constructor |].
      destruct ok; [| constructor]. apply lo_own; [by apply HC | done | done].
    - destruct HC as (_ & _ & _ & _ & _ & Hfs & _ & _ & E3 & E4 & _). destruct ok; [constructor | by constructor]. }
  erewrite bind_run; [| exact E1].
  destruct (out_socket_run s1 err r t x (maps_left k (negb (um_fill_save u =? fill)) ok mf0 mc0)) as (s' & E & HR); try congruence.
  - intros b Hb. rewrite P7. by apply Er.
  - exists s'. split; [done |]. by exists 0, (maps_left k (negb (um_fill_save u =? fill)) ok mf0 mc0).
Qed.

Definition other_map (a : Z) : Prop := re_map_fill (ce_rings e) <> inr a /\ re_map_comp (ce_rings e) <> inr a.

(** What the client's ring structs and the answers have to be. *)
Record create_ok (config : socket_config) : Prop := {
  co_put : gives (ce_off_put e) off \/ refuses (ce_off_put e);
  co_off : (exists errno, 0 < errno /\ ce_off e = inl errno) \/ gives (ce_off e) off;
  co_rx_opt n : ce_rx_opt e = Some n -> 0 < n;
  co_tx_opt n : ce_tx_opt e = Some n -> 0 < n;
  co_rx_err n : ce_rx_map e = inl n -> 0 < n;
  co_tx_err n : ce_tx_map e = inl n -> 0 < n;
  co_bind n : ce_bind e = Some n -> 0 < n;
  co_rx_map a : ce_rx_map e = inr a -> w_maps (s_world s0) !! a = None /\ ce_tx_map e <> inr a /\ other_map a;
  co_tx_map a : ce_tx_map e = inr a -> w_maps (s_world s0) !! a = None /\ other_map a;
  co_rx_ring : rx <> 0 -> is_Some (s_rings s0 !! rx) /\ rx <> tx /\ rx <> fill /\ rx <> comp;
  co_tx_ring : tx <> 0 -> is_Some (s_rings s0 !! tx) /\ tx <> fill /\ tx <> comp;
  co_inhibit : c_true (Z.land (sc_libbpf_flags config) XSK_INHIBIT_PROG_LOAD) = true
}.

Lemma pending_rings k ctx s s' : pending k ctx s -> s_umem s' = s_umem s -> s_ctx s' = s_ctx s ->
  s_world s' = s_world s -> s_progs s' = s_progs s -> (exists x, s_sock s' = <[xsk := x]> (s_sock s0)) ->
  (forall a, a ∉ [rx; tx] \/ a = fill \/ a = comp -> s_rings s' !! a = s_rings s !! a) ->
  (forall a, is_Some (s_rings s !! a) -> is_Some (s_rings s' !! a)) -> pending k ctx s'.
Proof.
  intros [(l & r & t & HC & Eu) _ Hp Hr Hpr Hf] E1 E2 E3 E4 E5 E6 E7. split.
  - exists l, r, t. rewrite E1, E3. split; [| done].
    destruct k as [c | c | c mf mc]; cbn [ctx_state] in *; rewrite E2; [done | |];
      rewrite (E6 fill), (E6 comp) by auto; done.
  - done.
  - by rewrite E4.
  - intros a Ha. rewrite E6 by set_solver. by apply Hr.
  - intros a Ha. by apply E7, Hpr.
  - by rewrite E3.
Qed.

(** The maps a pending state may have are those at the start, and those made
    for a new context. *)
Lemma pending_fresh k ctx s a : pending k ctx s -> w_maps (s_world s0) !! a = None -> other_map a ->
  w_maps (s_world s) !! a = None.
Proof.
  intros [(l & r & t & HC & _) _ _ _ _ _] Ha [Hf Hc]. destruct k as [c | c | c mf mc]; cbn [ctx_state] in HC.
  - by destruct HC as (_ & _ & _ & _ & _ & ->).
  - by destruct HC as (_ & _ & _ & _ & _ & _ & -> & _).
  - destruct HC as (_ & _ & _ & _ & _ & _ & _ & _ & E1 & E2 & _ & _ & _ & ->). rewrite !lookup_insert_ne by congruence. done.
Qed.

Definition rx_len (config : socket_config) : Z := map_len (off_rx off) (sc_rx_size config) SIZEOF_XDP_DESC.
Definition tx_len (config : socket_config) : Z := map_len (off_tx off) (sc_tx_size config) SIZEOF_XDP_DESC.

(** The receive ring as it is set up, and the transmit ring. *)
Definition rx_ring (config : socket_config) (r : xsk_ring) (map : Z) : xsk_ring :=
  set_cached_cons (set_cached_prod (place_ring r (off_rx off) map (sc_rx_size config)) (fst (ce_rx_index e))) (snd (ce_rx_index e)).
Definition tx_ring (config : socket_config) (r : xsk_ring) (map : Z) : xsk_ring :=
  set_cached_cons (set_cached_prod (place_ring r (off_tx off) map (sc_tx_size config)) (fst (ce_tx_index e)))
    (u32 (snd (ce_tx_index e) + sc_tx_size config)).

(** On top of the pending state [s1], the socket's mappings at [rm] and [tm]
    and its rings. *)
Record mapped (config : socket_config) (with_tx : bool) (rm tm : Z) (s1 s : xst) : Prop := {
  ma_umem : s_umem s = s_umem s1;
  ma_ctx : s_ctx s = s_ctx s1;
  ma_progs : s_progs s = s_progs s1;
  ma_sock : s_sock s = s_sock s1;
  ma_world : s_world s =
    (let w := if rx =? 0 then s_world s1 else mmap_at (s_world s1) rm (rx_len config) in
     if (tx =? 0) || negb with_tx then w else mmap_at w tm (tx_len config));
  ma_rx : rx <> 0 -> w_maps (s_world s1) !! rm = None /\ exists r, s_rings s !! rx = Some (rx_ring config r rm);
  ma_tx : tx <> 0 -> with_tx = true -> w_maps (s_world s1) !! tm = None /\ (rx <> 0 -> rm <> tm) /\
    exists r, s_rings s !! tx = Some (tx_ring config r tm);
  ma_rings a : a ∉ [rx; tx] \/ a = fill \/ a = comp -> s_rings s !! a = s_rings s1 !! a;
  ma_present a : is_Some (s_rings s1 !! a) -> is_Some (s_rings s !! a)
}.

(** A new socket. *)
Record created (config : socket_config) (k : ctx_case) (ctx : Z) (s : xst) : Prop := {
  cr_umem : exists l r t, s_umem s = <[umem := umem_with u (um_refcount u + 1) l r t 0 0]> (s_umem s0);
  cr_sock : s_sock s = <[xsk := {| so_rx := rx; so_tx := tx; so_ctx := ctx; so_config := config; so_fd := fd |}]> (s_sock s0);
  cr_mapped : exists s1 rm tm, pending k ctx s1 /\
    (exists l, ctx_state k ctx s1 l (w_maps (s_world s1)) /\ um_ctx_list <$> s_umem s !! umem = Some l) /\
    mapped config true rm tm s1 (set_umems (s_umem s1) (set_socks (s_sock s1) s))
}.

Definition create_result (config : socket_config) (k : ctx_case) (ctx : Z) (r : option (Z * Z * xst)) : Prop :=
  exists res s', r = Some (res, s') /\
    ((fst res < 0 /\ snd res = 0 /\ undone s') \/ (res = (0, xsk) /\ created config k ctx s')).

Lemma out_put_ctx_result config k ctx s errno : create_ok config -> 0 < errno -> pending k ctx s ->
  create_result config k ctx (out_put_ctx e xsk umem fd ctx fill (- errno) s).
Proof.
  intros Hok Hpos HP. destruct (out_put_ctx_run k ctx s (- errno) HP) as (s' & E & HR); [apply Hok |].
  exists (- errno, 0), s'. split; [done |]. left. split_and!; [simpl; lia | done | done].
Qed.

Lemma bind_munmap st w len a (f : unit -> M (Z * Z)) : s_world st = mmap_at w a len -> w_maps w !! a = None ->
  bind (do_munmap a len) f st = f tt (set_world w st).
Proof.
  intros Es Hn. unfold bind, do_munmap. rewrite Es, munmap_owned by apply lookup_insert_eq.
  cbn. rewrite delete_insert_id by done. by destruct w.
Qed.

Lemma set_world_id s : set_world (s_world s) s = s.
Proof. by destruct s. Qed.

(** Unmapping the rings brings the pending state back. *)
Lemma out_mmap_rx_result config k ctx s1 s rm errno : create_ok config -> 0 < errno -> pending k ctx s1 ->
  mapped config false rm 0 s1 s ->
  create_result config k ctx (out_mmap_rx e off config rx rm xsk umem fd ctx fill (- errno) (set_err errno s)).
Proof.
  intros Hok Hpos HP HM. unfold out_mmap_rx.
  assert (pending k ctx (set_world (s_world s1) (set_err errno s))) as HP'.
  { apply (pending_rings k ctx s1); try apply HM; try done. cbn. rewrite (ma_sock _ _ _ _ _ _ HM). apply HP. }
  pose proof (ma_world _ _ _ _ _ _ HM) as Ew. rewrite orb_true_r in Ew. cbn [negb] in Ew.
  destruct (Z.eqb_spec rx 0) as [E | E]; cbn [negb].
  - mrun. rewrite <- (set_world_id (set_err errno s)). cbn [s_world set_err]. rewrite Ew. by apply out_put_ctx_result.
  - rewrite (bind_munmap _ (s_world s1)); [by apply out_put_ctx_result | done |]. by apply (ma_rx _ _ _ _ _ _ HM).
Qed.

Lemma create_bind_run config k ctx s1 s rm tm : create_ok config -> pending k ctx s1 -> mapped config true rm tm s1 s ->
  create_result config k ctx (create_bind e off config xsk umem fd ctx rx rm tx tm fill s).
Proof.
  intros Hok HP HM. unfold create_bind. destruct (ce_bind e) as [errno |] eqn:Eb.
  - apply (co_bind _ Hok) in Eb. mrun. unfold out_mmap_tx. pose proof (ma_world _ _ _ _ _ _ HM) as Ew. cbn [negb] in Ew.
    rewrite orb_false_r in Ew.
    assert (forall w, w = (if rx =? 0 then s_world s1 else mmap_at (s_world s1) rm (rx_len config)) ->
      create_result config k ctx (out_mmap_rx e off config rx rm xsk umem fd ctx fill (- errno) (set_err errno (set_world w s)))) as Hrx.
    { intros w Hw. apply (out_mmap_rx_result config k ctx s1); [done | done | done |]. destruct HM. split; try done.
      cbn. by rewrite orb_true_r. }
    destruct (Z.eqb_spec tx 0) as [E | E]; cbn [negb].
    + mrun. specialize (Hrx _ Ew). by rewrite set_world_id in Hrx.
    + destruct (ma_tx _ _ _ _ _ _ HM E eq_refl) as (Hn & Hne & _).
      erewrite bind_munmap; [by apply Hrx | done |].
      destruct (Z.eqb_spec rx 0); [done |]. simpl. rewrite lookup_insert_ne by auto. done.
  - mrun. rewrite (co_inhibit _ Hok). mrun. cbn [Z.eqb negb]. pose proof HP as [(l & r & t & HC & Eu) [x Ex] _ _ _ _].
    mget ltac:(cbn; rewrite (ma_umem _ _ _ _ _ _ HM), Eu; apply lookup_insert_eq). mrun. do 2 eexists. split; [reflexivity |]. right.
    split; [done |]. split; cbn.
    + exists l, r, t. rewrite (ma_umem _ _ _ _ _ _ HM), Eu, insert_insert_eq. done.
    + rewrite (ma_sock _ _ _ _ _ _ HM), Ex. by rewrite insert_insert_eq.
    + exists s1, rm, tm. split; [done |]. split; [| by destruct HM].
      exists l. split; [done |]. rewrite lookup_insert_eq. done.
Qed.

Lemma create_tx_run config k ctx s1 s rm : create_ok config -> pending k ctx s1 -> mapped config false rm 0 s1 s ->
  (rx <> 0 -> ce_rx_map e = inr rm) ->
  create_result config k ctx (create_tx e off config xsk umem fd ctx rx rm tx fill s).
Proof.
  intros Hok HP HM Hrm. unfold create_tx. pose proof (ma_world _ _ _ _ _ _ HM) as Ew. cbn [negb] in Ew. rewrite orb_true_r in Ew.
  destruct (Z.eqb_spec tx 0) as [E | E].
  - apply (create_bind_run config k ctx s1); [done | done |]. destruct HM. split; try done. by rewrite E.
  - destruct (ce_tx_map e) as [errno | tm] eqn:Em.
    { mrun. apply (out_mmap_rx_result config k ctx s1); try done. by apply (co_tx_err _ Hok). }
    destruct (co_tx_ring _ Hok E) as (Hs & Hf & Hc). destruct (co_tx_map _ Hok tm Em) as [Hn Hk].
    destruct (ma_present _ _ _ _ _ _ HM tx (pd_present _ _ _ HP tx Hs)) as [t Ht].
    mrun. mget ltac:(exact Ht). mrun. apply (create_bind_run config k ctx s1); [done | done |].
    destruct HM as [M1 M2 M3 M4 M5 M6 M7 M8 M9]. split; cbn; try done.
    + rewrite Ew, (proj2 (Z.eqb_neq _ _) E). done.
    + intros Hr. destruct (M6 Hr) as [Hn' [r Er]]. split; [done |]. exists r.
      destruct (co_rx_ring _ Hok Hr) as (_ & Hne & _). rewrite lookup_insert_ne; [done | congruence].
    + intros _ _. split; [by eapply pending_fresh |]. split; [| exists t; apply lookup_insert_eq].
      intros Hr Heq. destruct (co_rx_map _ Hok rm (Hrm Hr)) as (_ & Hne & _). congruence.
    + intros a Ha. rewrite lookup_insert_ne; [by apply M8 | set_solver].
    + intros a Ha. destruct (decide (a = tx)) as [-> |]; [rewrite lookup_insert_eq; by eexists | rewrite lookup_insert_ne by done; by apply M9].
Qed.

Lemma create_rings_run config k ctx s1 : create_ok config -> pending k ctx s1 ->
  create_result config k ctx (create_rings e config xsk umem fd ctx rx tx fill s1).
Proof.
  intros Hok HP. unfold create_rings.
  assert (forall errno, pending k ctx (set_err errno s1)) as HPe by (intros errno; by apply (pending_rings k ctx s1); try done; apply (pd_sock _ _ _ HP)).
  destruct (co_off _ Hok) as [(errno & Hpos & Eo) | Hgo].
  { rewrite Eo. unfold xsk_get_mmap_offsets. mrun. cbn [snd]. mrun. cbn [s_errno set_err]. by apply out_put_ctx_result. }
  erewrite bind_run; [| apply Hgo]. cbn [snd]. destruct (Z.eqb_spec rx 0) as [E | E].
  - apply (create_tx_run config k ctx s1); [done | done | | done]. split; try done.
    cbn. by rewrite orb_true_r, E.
  - destruct (ce_rx_map e) as [errno | rm] eqn:Em.
    { mrun. apply out_put_ctx_result; [done | by apply (co_rx_err _ Hok) | done]. }
    destruct (co_rx_ring _ Hok E) as (Hs & Hrt & Hf & Hc). destruct (co_rx_map _ Hok rm Em) as (Hn & _ & Hk).
    destruct (pd_present _ _ _ HP rx Hs) as [r Hr].
    mrun. mget ltac:(exact Hr). mrun. apply (create_tx_run config k ctx s1); [done | done | | done].
    split; cbn; try done.
    + by rewrite orb_true_r, (proj2 (Z.eqb_neq _ _) E).
    + intros _. split; [by eapply pending_fresh |]. exists r. apply lookup_insert_eq.
    + intros a Ha. rewrite lookup_insert_ne; [done | set_solver].
    + intros a Ha. destruct (decide (a = rx)) as [-> |]; [rewrite lookup_insert_eq; by eexists | by rewrite lookup_insert_ne].
Qed.

Lemma pending_done k ctx s (g : xsk_umem -> xsk_umem) : pending k ctx s ->
  (forall l r t, exists r' t', g (umem_with u (um_refcount u + 1) l r t (um_fill_save u) (um_comp_save u)) =
     umem_with u (um_refcount u + 1) l r' t' (um_fill_save u) (um_comp_save u)) ->
  exists u1, s_umem s !! umem = Some u1 /\ pending k ctx (set_umems (<[umem := g u1]> (s_umem s)) s).
Proof.
  intros [(l & r & t & HC & Eu) H2 H3 H4 H5 H6] Hg. destruct (Hg l r t) as (r' & t' & E). eexists. split; [rewrite Eu; apply lookup_insert_eq |].
  split; try done. exists l, r', t'. split; [done |]. cbn. by rewrite Eu, insert_insert_eq, E.
Qed.

Lemma create_options_run config k ctx s1 rd td : create_ok config -> pending k ctx s1 ->
  create_result config k ctx (create_options e config xsk umem fd ctx rx tx fill rd td s1).
Proof.
  intros Hok HP. unfold create_options.
  assert (forall errno s, pending k ctx s -> pending k ctx (set_err errno s)) as HPe
    by (intros errno s Hs; apply (pending_rings k ctx s); try done; apply (pd_sock _ _ _ Hs)).
  assert (forall s, pending k ctx s -> create_result config k ctx (create_tx_option e config xsk umem fd ctx rx tx fill td s)) as Hrest.
  { intros s HPs. unfold create_tx_option. destruct (negb (tx =? 0) && negb td); [| by apply create_rings_run].
    destruct (ce_tx_opt e) as [errno |] eqn:E.
    - mrun. apply out_put_ctx_result; [done | by apply (co_tx_opt _ Hok) | by apply HPe].
    - destruct (pending_done k ctx s (fun u => if fd =? um_fd u then set_done u (um_rx_done u) true else u) HPs) as (u1 & E1 & HP1).
      { intros l r t. destruct (fd =? _); by do 2 eexists. }
      mget ltac:(exact E1). mrun. by apply create_rings_run. }
  destruct (negb (rx =? 0) && negb rd); [| by apply Hrest].
  destruct (ce_rx_opt e) as [errno |] eqn:E.
  - mrun. apply out_put_ctx_result; [done | by apply (co_rx_opt _ Hok) | by apply HPe].
  - destruct (pending_done k ctx s1 (fun u => if fd =? um_fd u then set_done u true (um_tx_done u) else u) HP) as (u1 & E1 & HP1).
    { intros l r t. destruct (fd =? _); by do 2 eexists. }
    mget ltac:(exact E1). mrun. by apply Hrest.
Qed.

(** ** The context of a new socket *)

(** What holds of the umem, and what the answers about the context have to be. *)
Record context_ok (ifname : list byte) : Prop := {
  xo_list a : a ∈ um_ctx_list u -> a <> 0 /\ exists c, s_ctx s0 !! a = Some c /\ 1 <= cx_refcount c /\ cx_umem c = umem;
  xo_cookie n : ce_cookie e = inl n -> 0 < n;
  xo_ctx a : ce_ctx e = Some a -> a <> 0 /\ s_ctx s0 !! a = None /\ a ∉ um_ctx_list u;
  xo_fill_opt n : re_fill_opt (ce_rings e) = Some n -> 0 < n;
  xo_comp_opt n : re_comp_opt (ce_rings e) = Some n -> 0 < n;
  xo_off : (exists errno, 0 < errno /\ re_off (ce_rings e) = inl errno) \/ gives (re_off (ce_rings e)) off;
  xo_fill_err n : re_map_fill (ce_rings e) = inl n -> 0 < n;
  xo_fill_map a : re_map_fill (ce_rings e) = inr a -> w_maps (s_world s0) !! a = None;
  xo_comp_err n : re_map_comp (ce_rings e) = inl n -> 0 < n;
  xo_comp_map a : re_map_comp (ce_rings e) = inr a -> w_maps (s_world s0) !! a = None /\ re_map_fill (ce_rings e) <> inr a;
  xo_fill : fill <> 0 -> is_Some (s_rings s0 !! fill);
  xo_comp : comp <> 0 -> is_Some (s_rings s0 !! comp) /\ comp <> fill;
  xo_apart : um_fill_save u <> 0 -> um_comp_save u <> fill;
  xo_name : 15 <= zlen ifname
}.

(** After the socket, before the context. *)
Record opened (s : xst) : Prop := {
  op_umem : s_umem s = <[umem := set_refs u (um_refcount u + 1)]> (s_umem s0);
  op_ctx : s_ctx s = s_ctx s0;
  op_sock : exists x, s_sock s = <[xsk := x]> (s_sock s0);
  op_progs : s_progs s = s_progs s0;
  op_rings : s_rings s = s_rings s0;
  op_maps : w_maps (s_world s) = w_maps (s_world s0);
  op_fds : w_fds (s_world s) = if 0 <? um_refcount u then {[ fd ]} ∪ w_fds (s_world s0) else w_fds (s_world s0)
}.

Lemma opened_err s n : opened s -> opened (set_err n s).
Proof. by intros []. Qed.

Definition create_outcome (config : socket_config) (r : option (Z * Z * xst)) : Prop :=
  exists res s', r = Some (res, s') /\
    ((fst res < 0 /\ snd res = 0 /\ undone s') \/ (res = (0, xsk) /\ exists k ctx, created config k ctx s')).

Lemma create_result_outcome config k ctx r : create_result config k ctx r -> create_outcome config r.
Proof. intros (res & s' & E & [H | [H1 H2]]); exists res, s'; (split; [done |]); [by left | right; eauto]. Qed.

(** The context could not be made, and the mappings are [maps]. *)
Record aborted (maps : gmap Z Z) (s : xst) : Prop := {
  ab_umem : s_umem s = <[umem := set_refs u (um_refcount u + 1)]> (s_umem s0);
  ab_ctx : s_ctx s = s_ctx s0;
  ab_sock : exists x, s_sock s = <[xsk := x]> (s_sock s0);
  ab_progs : s_progs s = s_progs s0;
  ab_rings a : a ∉ [rx; tx; fill; comp] -> s_rings s !! a = s_rings s0 !! a;
  ab_maps : w_maps (s_world s) = maps;
  ab_fds : w_fds (s_world s) = if 0 <? um_refcount u then {[ fd ]} ∪ w_fds (s_world s0) else w_fds (s_world s0)
}.

Lemma opened_aborted s : opened s -> aborted (w_maps (s_world s0)) s.
Proof. intros []. split; try done. intros a _. congruence. Qed.

Lemma out_socket_aborted config maps s err : leftover 0 maps -> aborted maps s -> err < 0 ->
  create_outcome config (out_socket xsk umem fd err s).
Proof.
  intros Hlo [E1 E2 [x E3] E4 E5 E6 E7] Herr.
  destruct (out_socket_run s err (um_rx_done u) (um_tx_done u) x maps) as (s' & E & HR); try done.
  exists (err, 0), s'. split; [done |]. left. split_and!; [done | done |]. by exists 0, maps.
Qed.

Lemma out_socket_opened config s err : opened s -> err < 0 -> create_outcome config (out_socket xsk umem fd err s).
Proof. intros HO. by apply (out_socket_aborted _ (w_maps (s_world s0))), opened_aborted, HO; constructor. Qed.

Lemma get_ctx_loop_run s nc ifi q l : (forall a, a ∈ l -> a <> 0 /\ is_Some (s_ctx s !! a)) ->
  xsk_get_ctx_loop l nc ifi q s = Some (0, s) \/
  exists a c, a ∈ l /\ a <> 0 /\ s_ctx s !! a = Some c /\
    xsk_get_ctx_loop l nc ifi q s = Some (a, set_ctxs (<[a := set_ctx_refs c (cx_refcount c + 1)]> (s_ctx s)) s).
Proof.
  induction l as [| a l IH]; intros H; [by left |]. cbn [xsk_get_ctx_loop].
  destruct (H a ltac:(apply elem_of_cons; by left)) as [Ha [c Hc]]. mget ltac:(exact Hc).
  destruct (_ && _).
  - right. exists a, c. split_and!; [apply elem_of_cons; by left | done | done | done].
  - destruct IH as [E | (a' & c' & Hin & H0 & Hc' & E)].
    + intros a' Hin. apply H, elem_of_cons. by right.
    + by left.
    + right. exists a', c'. split_and!; [apply elem_of_cons; by right | done | done | done].
Qed.

(** Linking a new context whose rings are there gives the pending state. *)
Lemma link_ctx_run ifname nc ifi q ctx s s1 : context_ok ifname -> opened s -> ctx <> 0 ->
  (forall c, new_ctx c -> exists k, ctx_state k ctx (set_ctxs (<[ctx := c]> (s_ctx s1)) s1) (ctx :: um_ctx_list u) (w_maps (s_world s1))) ->
  s_umem s1 = s_umem s -> s_sock s1 = s_sock s -> s_progs s1 = s_progs s -> w_fds (s_world s1) = w_fds (s_world s) ->
  (forall a, a ∉ [fill; comp] -> s_rings s1 !! a = s_rings s !! a) -> (forall a, is_Some (s_rings s !! a) -> is_Some (s_rings s1 !! a)) ->
  exists k s', link_ctx ctx umem nc ifi ifname q fill comp s1 = Some (ctx, s') /\ pending k ctx s'.
Proof.
  intros HX [O1 O2 [x O3] O4 O5 O6 O7] H0 HK E1 E2 E3 E4 E5 E6. unfold link_ctx, copy_name.
  pose proof (xo_name _ HX). rewrite bytes_at_Some by (simpl; lia). erewrite bind_run; [| reflexivity]. mrun.
  mget ltac:(cbn; rewrite E1, O1; apply lookup_insert_eq). mrun.
  match goal with |- context [<[ctx := ?c]> _] => destruct (HK c) as (k & HC); [done |] end.
  exists k. eexists. split; [reflexivity |]. split; cbn.
  - exists (ctx :: um_ctx_list u), (um_rx_done u), (um_tx_done u). split; [by destruct k |]. by rewrite E1, O1, insert_insert_eq.
  - exists x. by rewrite E2.
  - by rewrite E3.
  - intros a Ha. rewrite E5 by set_solver. by rewrite O5.
  - intros a Ha. apply E6. by rewrite O5.
  - by rewrite E4.
Qed.

(** The rings of a new context: an error, and nothing has changed but [errno],
    or an error and the fill ring is left, or they are mapped. *)
Lemma create_umem_rings_run ifname s : context_ok ifname -> opened s -> fill <> 0 -> comp <> 0 ->
  (exists errno, 0 < errno /\ xsk_create_umem_rings (ce_rings e) (um_config u) fill comp s = Some (- errno, set_err errno s)) \/
  (exists mf f errno, 0 < errno /\ re_map_fill (ce_rings e) = inr mf /\ re_map_comp (ce_rings e) = inl errno /\
     xsk_create_umem_rings (ce_rings e) (um_config u) fill comp s =
       Some (- errno, set_err EINVAL (set_err errno (set_rings (<[fill := f]> (s_rings s))
                        (set_world (mmap_at (s_world s) mf fill_len) s))))) \/
  (exists mf mc f g, re_map_fill (ce_rings e) = inr mf /\ re_map_comp (ce_rings e) = inr mc /\ mf <> mc /\
     w_maps (s_world s0) !! mf = None /\ w_maps (s_world s0) !! mc = None /\
     xr_ring f = mf + of_desc (off_fr off) /\ xr_ring g = mc + of_desc (off_cr off) /\
     xsk_create_umem_rings (ce_rings e) (um_config u) fill comp s =
       Some (0, set_rings (<[comp := g]> (<[fill := f]> (s_rings s)))
                  (set_world (mmap_at (mmap_at (s_world s) mf fill_len) mc comp_len) s))).
Proof.
  intros HX [O1 O2 [x O3] O4 O5 O6 O7] Hfill Hcomp. unfold xsk_create_umem_rings.
  destruct (xo_fill _ HX Hfill) as [f0 Hf0]. destruct (xo_comp _ HX Hcomp) as [[c0 Hc0] Hne].
  destruct (re_fill_opt (ce_rings e)) as [n |] eqn:E1; [left; exists n; split; [by apply (xo_fill_opt _ HX) | done] |].
  destruct (re_comp_opt (ce_rings e)) as [n |] eqn:E2; [left; exists n; split; [by apply (xo_comp_opt _ HX) | done] |].
  destruct (xo_off _ HX) as [(n & Hpos & Eo) | Hgo]; [rewrite Eo; left; by exists n |].
  erewrite bind_run; [| apply Hgo]. cbn [snd].
  destruct (re_map_fill (ce_rings e)) as [n | mf] eqn:E3; [left; exists n; split; [by apply (xo_fill_err _ HX) | done] |].
  pose proof (xo_fill_map _ HX mf E3) as Hmf. right. mrun. mget ltac:(cbn; rewrite O5; exact Hf0).
  destruct (re_map_comp (ce_rings e)) as [n | mc] eqn:E4.
  { left. eexists mf, _, n. split_and!; [by apply (xo_comp_err _ HX) | done | done |]. mrun. reflexivity. }
  right. destruct (xo_comp_map _ HX mc E4) as [Hmc Hmne]. mrun. mget ltac:(cbn; rewrite O5, lookup_insert_ne by done; exact Hc0). mrun.
  eexists mf, mc, _, _. do 2 (split; [done |]). split; [congruence |]. do 2 (split; [done |]). split; [| split]; [| | reflexivity]; done.
Qed.

(** The result of a new context: none, or the pending state. *)
Lemma create_new_ctx_run ifname nc ifi q s : context_ok ifname -> opened s -> fill <> 0 -> comp <> 0 ->
  (exists s' maps, xsk_create_ctx (ce_ctx e) (ce_rings e) umem nc ifi ifname q fill comp s = Some (0, s') /\
     leftover 0 maps /\ aborted maps s') \/
  (exists k ctx s', xsk_create_ctx (ce_ctx e) (ce_rings e) umem nc ifi ifname q fill comp s = Some (ctx, s') /\ ctx <> 0 /\
     pending k ctx s').
Proof.
  intros HX HO Hfill Hcomp. unfold xsk_create_ctx. destruct (ce_ctx e) as [ctx |] eqn:Ectx; [| left; exists s, (w_maps (s_world s0)); split_and!; [done | constructor | by apply opened_aborted]].
  destruct (xo_ctx _ HX ctx Ectx) as (Hctx0 & Hctx & Hlist). pose proof HO as [O1 O2 [x O3] O4 O5 O6 O7].
  assert (forall f g a, is_Some (s_rings s !! a) -> is_Some (<[comp := g]> (<[fill := f]> (s_rings s)) !! a)) as Hpres.
  { intros f g a Ha. destruct (decide (comp = a)) as [-> |]; [rewrite lookup_insert_eq; by eexists |].
    rewrite lookup_insert_ne by done. destruct (decide (fill = a)) as [-> |]; [rewrite lookup_insert_eq; by eexists |].
    by rewrite lookup_insert_ne. }
  mget ltac:(rewrite O1; apply lookup_insert_eq). cbn [set_refs um_fill_save um_comp_save um_config].
  destruct (Z.eqb_spec (um_fill_save u) 0) as [Hs | Hs].
  - destruct (create_umem_rings_run ifname s HX HO Hfill Hcomp) as [(n & Hpos & E) | [(mf & f & n & Hpos & E3 & E4 & E) | (mf & mc & f & g & E3 & E4 & Hm & Hmf & Hmc & Rf & Rg & E)]].
    { left. do 2 eexists. erewrite bind_run; [| exact E]. rewrite (proj2 (Z.eqb_neq (- n) 0)) by lia.
      split_and!; [reflexivity | apply lo_nothing | by apply opened_aborted, opened_err]. }
    { left. do 2 eexists. erewrite bind_run; [| exact E]. rewrite (proj2 (Z.eqb_neq (- n) 0)) by lia.
      split_and!; [reflexivity | by apply (lo_fill mf n) |]. split; cbn; try done; [by exists x | | by rewrite O6].
      intros a Ha. rewrite lookup_insert_ne by set_solver. by rewrite O5. }
    right. erewrite bind_run; [| exact E]. cbn [Z.eqb negb].
    edestruct (link_ctx_run ifname nc ifi q ctx s) as (k & s' & E' & HP); [exact HX | exact HO | done | | | | | | | |
      exists k, ctx, s'; split; [exact E' | done]]; try done; cbn.
    + intros c Hc. exists (Mapped c mf mc). cbn [ctx_state]. rewrite O2. split_and!; try done.
      * exists f, g. destruct (xo_comp _ HX Hcomp) as [_ Hne].
        cbn. rewrite lookup_insert_eq, lookup_insert_ne, lookup_insert_eq by congruence. done.
      * cbn. by rewrite O6.
    + intros a Ha. rewrite !lookup_insert_ne by set_solver. done.
    + apply Hpres.
  - right. destruct (Hown Hs) as (_ & (f0 & cs & Hf0 & Hcs & _) & _). pose proof (xo_apart _ HX Hs) as Hap.
    destruct (negb (um_fill_save u =? fill) || negb (um_comp_save u =? comp)) eqn:Eq.
    + mrun. mget ltac:(rewrite O5; exact Hf0). mrun.
      mget ltac:(cbn; rewrite lookup_insert_ne, O5 by done; exact Hcs). mrun. cbn [Z.eqb negb].
      edestruct (link_ctx_run ifname nc ifi q ctx s) as (k & s' & E' & HP); [exact HX | exact HO | done | | | | | | | |
        exists k, ctx, s'; split; [exact E' | done]]; try done; cbn.
      * intros c Hc. exists (Saved c). cbn. destruct (xo_comp _ HX Hcomp) as [_ Hne].
        rewrite O2, O6, Hf0, Hcs, lookup_insert_eq, lookup_insert_ne, lookup_insert_eq by done. split_and!; done.
      * intros a Ha. rewrite !lookup_insert_ne by set_solver. done.
      * apply Hpres.
    + apply orb_false_elim in Eq as [Hsf%negb_false_iff%Z.eqb_eq Hcc%negb_false_iff%Z.eqb_eq]. mrun. cbn [Z.eqb negb].
      destruct (link_ctx_run ifname nc ifi q ctx s s) as (k & s' & E' & HP); try done; [| exists k, ctx, s'; split; [exact E' | done]].
      intros c Hc. exists (Saved c). cbn. rewrite O2, O6, O5, Hsf, Hcc. split_and!; done.
Qed.

Lemma create_in_netns_run config s ifindex ifname q rd td nc : create_ok config -> context_ok ifname -> opened s ->
  create_outcome config (create_in_netns e config xsk umem fd ifindex ifname q rx tx fill comp rd td nc s).
Proof.
  intros Hok HX HO. unfold create_in_netns. pose proof HO as [O1 O2 [x O3] O4 O5 O6 O7].
  unfold xsk_get_ctx. mrun. mget ltac:(rewrite O1; apply lookup_insert_eq). cbn [set_refs um_ctx_list].
  destruct (get_ctx_loop_run s nc ifindex q (um_ctx_list u)) as [E | (a & c & Hin & Ha & Hc & E)].
  { intros a Hin. destruct (xo_list _ HX a Hin) as (H0 & c & Hc & _). split; [done |]. rewrite O2. by eexists. }
  - erewrite bind_run; [| exact E]. rewrite Z.eqb_refl. cbn [negb].
    destruct (Z.eqb_spec fill 0) as [Hf | Hf]; [by apply out_socket_opened |].
    destruct (Z.eqb_spec comp 0) as [Hcp | Hcp]; [by apply out_socket_opened |]. cbn [orb].
    destruct (create_new_ctx_run ifname nc ifindex q s HX HO Hf Hcp) as [(s' & maps & E' & Hlo & HA) | (k & ctx & s' & E' & H0 & HP)].
    + erewrite bind_run; [| exact E']. rewrite Z.eqb_refl. by apply (out_socket_aborted _ maps).
    + erewrite bind_run; [| exact E']. rewrite (proj2 (Z.eqb_neq _ _) H0).
      eapply create_result_outcome, create_options_run; done.
  - erewrite bind_run; [| exact E]. rewrite (proj2 (Z.eqb_neq _ _) Ha). cbn [negb].
    rewrite O2 in Hc. destruct (xo_list _ HX a Hin) as (_ & c' & Hc' & Hn & Hcu). rewrite Hc in Hc'. injection Hc' as <-.
    eapply create_result_outcome, (create_options_run config (Shared c)); [done |]. split; cbn.
    + exists (um_ctx_list u), (um_rx_done u), (um_tx_done u). rewrite O2, O6, O1. done.
    + by exists x.
    + done.
    + intros b _. by rewrite O5.
    + intros b. by rewrite O5.
    + done.
Qed.

Lemma create_ctx_run config s ifindex ifname q rd td : create_ok config -> context_ok ifname -> opened s ->
  create_outcome config (create_ctx e config xsk umem fd ifindex ifname q rx tx fill comp rd td s).
Proof.
  intros Hok HX HO. unfold create_ctx. destruct (ce_cookie e) as [n | nc] eqn:En; [| by apply create_in_netns_run].
  mrun. destruct (negb (n =? ENOPROTOOPT)).
  - apply out_socket_opened; [by apply opened_err |]. apply (xo_cookie _ HX) in En. lia.
  - by apply create_in_netns_run, opened_err.
Qed.

(** ** The whole of it *)

(** The state the socket is created in, and the answers it gets. *)
Record answers_ok (ifname : list byte) (usr_config : option socket_config) : Prop := {
  ao_alloc a : ce_alloc e = Some a -> a = xsk;
  ao_ifindex n : ce_ifindex e = inl n -> 0 < n;
  ao_socket_err n : ce_socket e = inl n -> 0 < n;
  ao_socket a : 0 < um_refcount u -> ce_socket e = inr a -> a = fd;
  ao_config config : xsk_set_xdp_socket_config usr_config = inr config -> create_ok config;
  ao_context : context_ok ifname
}.

(** The last label, when only the socket's struct is left. *)
Lemma out_alloc_run err d s : leftover d (w_maps (s_world s0)) -> s_world s = s_world s0 -> s_ctx s = s_ctx s0 ->
  (exists x, s_sock s = <[xsk := x]> (s_sock s0)) -> s_progs s = s_progs s0 -> s_rings s = s_rings s0 ->
  s_umem s = <[umem := set_refs u (um_refcount u + d)]> (s_umem s0) ->
  exists s', out_xsk_alloc xsk err s = Some ((err, 0), s') /\ undone s'.
Proof.
  intros Hlo E1 E2 [x E3] E4 E5 E6. eexists. split; [reflexivity |]. exists d, (w_maps (s_world s0)). split; [done |].
  split; cbn; try done.
  - rewrite E1. by destruct (s_world s0).
  - rewrite E3. by apply delete_insert_id.
  - by exists (um_rx_done u), (um_tx_done u).
  - intros a _. by rewrite E5.
Qed.

Lemma same_umem : s_umem s0 = <[umem := set_refs u (um_refcount u + 0)]> (s_umem s0).
Proof. rewrite Z.add_0_r, insert_id; [done |]. rewrite Hu. f_equal. by destruct u. Qed.

Lemma create_shared_run ifname q usr_config : umem <> 0 -> rx <> 0 \/ tx <> 0 -> answers_ok ifname usr_config ->
  exists res s', xsk_socket__create_shared e true ifname q umem rx tx fill comp usr_config s0 = Some (res, s') /\
    ((fst res < 0 /\ snd res = 0 /\ undone s') \/
     (res = (0, xsk) /\ exists config k ctx, xsk_set_xdp_socket_config usr_config = inr config /\ created config k ctx s')).
Proof.
  intros Hum Hrt [Ha Hi Hse Hs Hc Hx]. pose proof out_alloc_run as Hout. pose proof same_umem as Hsame. unfold xsk_socket__create_shared.
  assert ((umem =? 0) || negb true || ((rx =? 0) && (tx =? 0)) = false) as ->.
  { rewrite (proj2 (Z.eqb_neq _ _) Hum). destruct Hrt as [H | H]; rewrite (proj2 (Z.eqb_neq _ _) H); [done | apply andb_false_r]. }
  destruct (ce_alloc e) as [b |]; [rewrite (Ha b eq_refl); clear Ha |].
  2: { eexists (- ENOMEM, 0), s0. split; [done |]. left. split_and!; [done | done |]. do 2 eexists. split; [apply lo_nothing |].
    split; try done; [by destruct (s_world s0) |]. exists (um_rx_done u), (um_tx_done u). apply Hsame. }
  cbv zeta. mrun.
  destruct (xsk_set_xdp_socket_config usr_config) as [err | config] eqn:Ecfg.
  { assert (err < 0) as Herr by (by eapply socket_config_err).
    edestruct (Hout err 0) as (s' & E & HR); [apply lo_nothing | .. | exists (err, 0), s'; split; [exact E | by left]]; try done.
    by eexists. }
  destruct (ce_ifindex e) as [n | ifindex].
  { specialize (Hi n eq_refl). mrun.
    edestruct (Hout (- n) 0) as (s' & E & HR); [apply lo_nothing | .. | exists (- n, 0), s'; split; [exact E |]]; try done.
    - by eexists.
    - left. split_and!; [simpl; lia | done | done]. }
  mget ltac:(exact Hu). mrun.
  assert (forall s rd td, opened s -> exists res s', create_ctx e config xsk umem fd ifindex ifname q rx tx fill comp rd td s = Some (res, s') /\
    ((fst res < 0 /\ snd res = 0 /\ undone s') \/
     (res = (0, xsk) /\ exists config' k ctx, inr config = @inr Z _ config' /\ created config' k ctx s'))) as Hrest.
  { intros s rd td HO. destruct (create_ctx_run config s ifindex ifname q rd td (Hc _ eq_refl) Hx HO) as (res & s' & E & [H | (H1 & k & ctx & H2)]);
      exists res, s'; (split; [done |]); [by left | right; eauto 8]. }
  destruct (Z.ltb_spec 0 (um_refcount u)) as [Hpos | Hz].
  - destruct (ce_socket e) as [n | a] eqn:Es.
    + specialize (Hse n eq_refl). mrun.
      edestruct (Hout (- n) 1) as (s' & E & HR); [by eapply lo_count | .. | exists (- n, 0), s'; split; [exact E |]]; try done.
      * by eexists.
      * left. split_and!; [simpl; lia | done | done].
    + rewrite (Hs a Hpos eq_refl). mrun. apply Hrest. split; cbn; try done; [by eexists | by rewrite (proj2 (Z.ltb_lt _ _) Hpos)].
  - rewrite <- Hfd. apply Hrest. split; cbn; try done; [by eexists | by rewrite (proj2 (Z.ltb_ge _ _) Hz)].
Qed.

(** ** Deleting it again *)

(** The socket is gone, and so are the umem's own rings if it had them: the umem
    no longer names rings, whoever had them. *)
Record released (k : ctx_case) (mf mc : Z) (s : xst) : Prop := {
  rl_world : s_world s = {| w_maps := maps_left k true true mf mc; w_fds := w_fds (s_world s0) |};
  rl_ctx : s_ctx s = s_ctx s0;
  rl_sock : s_sock s = s_sock s0;
  rl_progs : s_progs s = s_progs s0;
  rl_umem : exists r t, s_umem s = <[umem := umem_with u (um_refcount u) (um_ctx_list u) r t 0 0]> (s_umem s0);
  rl_rings a : a ∉ [rx; tx; fill; comp] -> s_rings s !! a = s_rings s0 !! a
}.

(** The socket's rings are unmapped. *)
Lemma unmap_socket_run config s1 s rm tm : mapped config true rm tm s1 s ->
  ((if negb (rx =? 0) then r <- get_ring rx ;; do_munmap (xr_ring r - of_desc (off_rx off)) (rx_len config) else ret tt) ;;
   (if negb (tx =? 0) then t <- get_ring tx ;; do_munmap (xr_ring t - of_desc (off_tx off)) (tx_len config) else ret tt)) s =
  Some (tt, set_world (s_world s1) s).
Proof.
  intros [_ _ _ _ Ew Hrx Htx _ _]. cbn [negb] in Ew. rewrite orb_false_r in Ew. unfold do_munmap.
  destruct (Z.eqb_spec rx 0) as [Er | Er]; destruct (Z.eqb_spec tx 0) as [Et | Et]; cbn [negb]; mrun.
  - rewrite <- Ew. by rewrite set_world_id.
  - destruct (Htx Et eq_refl) as (Hn & _ & t & Ht). mget ltac:(exact Ht). cbn. replace (tm + _ - _) with tm by lia.
    rewrite Ew, munmap_owned by apply lookup_insert_eq. cbn. rewrite delete_insert_id by done. by destruct (s_world s1).
  - destruct (Hrx Er) as (Hn & r & Hr). mget ltac:(exact Hr). cbn. replace (rm + _ - _) with rm by lia.
    unfold bind. rewrite Ew, munmap_owned by apply lookup_insert_eq. cbn. rewrite delete_insert_id by done. by destruct (s_world s1).
  - destruct (Hrx Er) as (Hn & r & Hr). destruct (Htx Et eq_refl) as (Hn' & Hne & t & Ht). specialize (Hne Er).
    mget ltac:(exact Hr). cbn [xr_ring rx_ring set_cached_cons set_cached_prod place_ring]. replace (rm + _ - _) with rm by lia.
    unfold bind at 1. rewrite Ew, munmap_owned by (simpl; rewrite lookup_insert_ne by done; apply lookup_insert_eq).
    cbn [mbind option_bind]. mget ltac:(exact Ht). cbn [xr_ring tx_ring set_cached_cons set_cached_prod place_ring].
    replace (tm + _ - _) with tm by lia. cbn. rewrite delete_insert_ne, (delete_insert_id (w_maps _)) by done.
    rewrite munmap_owned by apply lookup_insert_eq. cbn. rewrite delete_insert_id by done. by destruct (s_world s1).
Qed.

Lemma created_ctx k ctx s l : ctx_state k ctx s l (w_maps (s_world s)) ->
  (forall c, k = Shared c -> cx_xdp_prog c = 0) ->
  exists c, s_ctx s !! ctx = Some c /\ cx_umem c = umem /\ cx_xdp_prog c = 0.
Proof.
  intros HC Hp. destruct k as [c | c | c mf mc]; cbn [ctx_state] in HC.
  - destruct HC as (_ & _ & _ & Hcu & -> & _). eexists. rewrite lookup_insert_eq. split_and!; [done | done |]. by apply (Hp c).
  - destruct HC as (_ & _ & _ & (_ & H1 & _ & _ & H2) & -> & _). exists c. by rewrite lookup_insert_eq.
  - destruct HC as (_ & _ & _ & (_ & H1 & _ & _ & H2) & -> & _). exists c. by rewrite lookup_insert_eq.
Qed.

Lemma socket_delete_run config k ctx s off_sock off_put mf mc : xsk <> 0 -> created config k ctx s ->
  gives off_sock off -> gives off_put off -> may_put k true mf mc -> (forall c, k = Shared c -> cx_xdp_prog c = 0) ->
  um_fd u ∈ w_fds (s_world s0) ->
  exists s', xsk_socket__delete off_sock off_put xsk s = Some (tt, s') /\ released k mf mc s'.
Proof.
  intros Hx0 [(l & r & t & Eu) Es (s1 & rm & tm & HP & (l' & HC & El) & HM)] Hos Hop Hk Hp Hfdu.
  rewrite Eu, lookup_insert_eq in El. injection El as <-.
  destruct (created_ctx k ctx s1 l HC Hp) as (c & Hc & Hcu & Hcp).
  unfold xsk_socket__delete. rewrite (proj2 (Z.eqb_neq _ _) Hx0). mget ltac:(rewrite Es; apply lookup_insert_eq). cbn [so_ctx].
  assert (s_ctx s = s_ctx s1) as Ec by apply HM. mget ltac:(rewrite Ec; exact Hc). rewrite Hcp, Hcu. change (negb (0 =? 0)) with false. cbv iota. mrun.
  erewrite bind_run; [| apply Hos]. cbn [snd so_rx so_tx so_config].
  assert (Hun' : ((if negb (rx =? 0) then r <- get_ring rx ;; do_munmap (xr_ring r - of_desc (off_rx off)) (rx_len config) else ret tt) ;;
     (if negb (tx =? 0) then t <- get_ring tx ;; do_munmap (xr_ring t - of_desc (off_tx off)) (tx_len config) else ret tt)) s =
     Some (tt, set_world (s_world s1) s)).
  { apply (unmap_socket_run config (set_umems (s_umem s) (set_socks (s_sock s) s1)) s rm tm). destruct HM as [M1 M2 M3 M4 M5 M6 M7 M8 M9].
    by split. }
  erewrite bind_run; [| exact Hun'].
  destruct HM as [_ M2 M3 _ _ _ _ M8 _]. cbn in M2, M3, M8.
  destruct (put_ctx_run off_put k ctx (set_world (s_world s1) s) true true mf mc (um_refcount u + 1) l r t 0 0)
    as (s2 & E2 & [P1 P2 P3 P4 P5 P6 P7]); [| exact Eu | done | done |].
  { cbn. destruct k; cbn [ctx_state] in *; cbn; rewrite ?M2; [done | |]; rewrite ?(M8 fill), ?(M8 comp) by auto; done. }
  erewrite bind_run; [| exact E2]. mget ltac:(rewrite P1; apply lookup_insert_eq). mrun.
  cbn [um_fd umem_with so_fd um_refcount set_refs]. cbn in P4, P5, P6, P7.
  assert (forall s3, s_world s3 = {| w_maps := w_maps (s_world s2); w_fds := w_fds (s_world s0) |} -> s_ctx s3 = s_ctx s2 ->
    s_sock s3 = s_sock s2 -> s_progs s3 = s_progs s2 -> s_rings s3 = s_rings s2 ->
    s_umem s3 = <[umem := umem_with u (um_refcount u) (um_ctx_list u) r t 0 0]> (s_umem s0) ->
    exists s', free_sock xsk s3 = Some (tt, s') /\ released k mf mc s') as Hlast.
  { intros s3 E1 Ec3 E3 E4 E5 E6. eexists. split; [reflexivity |]. split; cbn.
    - by rewrite E1, P3.
    - by rewrite Ec3.
    - rewrite E3, P5, Es. by apply delete_insert_id.
    - rewrite E4, P6, M3. apply HP.
    - by exists r, t.
    - intros a Ha. rewrite E5, P7, M8 by set_solver. by apply HP. }
  assert (set_refs (umem_with u (um_refcount u + 1) (um_ctx_list u) r t 0 0) (um_refcount u + 1 - 1) =
    umem_with u (um_refcount u) (um_ctx_list u) r t 0 0) as -> by (unfold set_refs, umem_with; cbn; f_equal; lia).
  pose proof (pd_fds _ _ _ HP) as Ef. destruct (Z.ltb_spec 0 (um_refcount u)).
  - rewrite (proj2 (Z.eqb_neq fd (um_fd u))) by congruence. cbn [negb]. unfold bind, do_close, close. cbn.
    rewrite P4, Ef, decide_True by set_solver. cbn. apply Hlast; try done; cbn; [f_equal; set_solver |].
    by rewrite P1, insert_insert_eq.
  - rewrite Hfd, Z.eqb_refl. cbn [negb]. mrun. apply Hlast; try done; cbn; [| by rewrite P1, insert_insert_eq].
    destruct (s_world s2) as [m f]. cbn in *. by rewrite P4, Ef.
Qed.

End Create.

(** ** The life of a socket *)

(** A call of [xsk_socket__create_shared], for a umem whose own rings, if it still has
    them, are at [mf] and [mc]: what the caller and the kernel have to keep. *)
Record attempt (s0 : xst) (e : create_env) (off : mmap_offsets) (umem : Z) (u : xsk_umem)
    (xsk fd rx tx fill comp mf mc : Z) (ifname : list byte) (usr_config : option socket_config) : Prop := {
  at_umem : umem <> 0 /\ s_umem s0 !! umem = Some u;
  at_refs : 0 <= um_refcount u;
  at_xsk : xsk <> 0 /\ s_sock s0 !! xsk = None;
  at_fd : if 0 <? um_refcount u then fd ∉ w_fds (s_world s0) else fd = um_fd u;
  at_umem_fd : um_fd u ∈ w_fds (s_world s0);
  at_ring : rx <> 0 \/ tx <> 0;
  at_own : um_fill_save u <> 0 -> own_rings s0 off u mf mc;
  at_prog a c : s_ctx s0 !! a = Some c -> cx_umem c = umem -> cx_xdp_prog c = 0;
  at_answers : answers_ok s0 e off umem u xsk fd rx tx fill comp ifname usr_config
}.


(** ** The life of a umem *)

(** Creating a umem and deleting it again leaves no mapping, descriptor or
    object behind, and a umem with sockets is not deleted. *)
Theorem xsk_umem_create_delete s e area size fill comp usr_config umem fd off mf mc os :
  area <> 0 -> size <> 0 -> fill <> 0 -> comp <> 0 -> fill <> comp -> umem <> 0 ->
  is_Some (s_rings s !! fill) -> is_Some (s_rings s !! comp) -> s_umem s !! umem = None ->
  ue_alloc e = Some umem -> ue_socket e = inr fd -> fd ∉ w_fds (s_world s) -> ue_reg e = None ->
  re_fill_opt (ue_rings e) = None -> re_comp_opt (ue_rings e) = None -> gives (re_off (ue_rings e)) off ->
  re_map_fill (ue_rings e) = inr mf -> re_map_comp (ue_rings e) = inr mc -> mf <> mc ->
  w_maps (s_world s) !! mf = None -> w_maps (s_world s) !! mc = None -> gives os off ->
  exists s1, xsk_umem__create e true area size fill comp usr_config s = Some ((0, umem), s1) /\
    (exists u, s_umem s1 !! umem = Some u /\ um_refcount u = 0 /\ um_fd u = fd /\ um_fill_save u = fill /\ um_comp_save u = comp) /\
    (exists s2, xsk_umem__delete os umem s1 = Some (0, s2) /\ s_world s2 = s_world s /\ s_umem s2 = s_umem s /\ s_ctx s2 = s_ctx s /\
       s_sock s2 = s_sock s /\ s_progs s2 = s_progs s) /\
    forall s3 u, s_umem s3 !! umem = Some u -> um_refcount u <> 0 -> xsk_umem__delete os umem s3 = Some (- EBUSY, s3).
Proof.
  intros Harea Hsize Hfill Hcomp Hfc Hum [f Hf] [c Hc] Hfresh Ea Es Hfd Er Eof Eoc Hoff Emf Emc Hm Hmf Hmc Hos.
  unfold xsk_umem__create, xsk_umem__create_with_fd.
  rewrite !(proj2 (Z.eqb_neq _ 0)) by done. cbn [negb orb andb Z.ltb Z.compare]. rewrite Ea, Es, Er. cbv zeta. mrun.
  unfold xsk_create_umem_rings. rewrite Eof, Eoc, Emf, Emc. mrun. erewrite bind_run; [| apply Hoff]. cbn [snd]. mrun.
  mget ltac:(cbn; exact Hf). mrun. mget ltac:(cbn; rewrite lookup_insert_ne by done; exact Hc). mrun. cbn [Z.eqb negb]. mrun.
  eexists. split; [reflexivity |]. split; [| split].
  - cbn. eexists. by rewrite lookup_insert_eq.
  - unfold xsk_umem__delete. rewrite (proj2 (Z.eqb_neq _ _) Hum). mget ltac:(apply lookup_insert_eq). cbn [um_refcount save_rings].
    change (c_true 0) with false. cbv iota. erewrite bind_run; [| apply Hos].
    cbn [snd um_fill_save um_comp_save um_config save_rings]. rewrite !(proj2 (Z.eqb_neq _ 0)) by done. cbn [negb andb].
    erewrite bind_run; [| eapply (unmap_rings_run off _ fill comp _ _ _ mf mc); cbn; try done;
      rewrite ?lookup_insert_eq, ?(lookup_insert_ne _ comp fill), ?(lookup_insert_ne _ mc mf), ?lookup_insert_eq by done; done].
    unfold bind, do_close, close. cbn. rewrite decide_True by set_solver. eexists. split; [reflexivity |]. cbn.
    split; [| split_and!; try done].
    + rewrite (delete_insert_ne _ mf mc) by done. rewrite (delete_insert_id (w_maps _) mf), (delete_insert_id (w_maps _) mc) by done.
      destruct (s_world s) as [m fds]. cbn in *. f_equal. set_solver.
    + rewrite insert_insert_eq. by apply delete_insert_id.
  - intros s3 u Hu3 Hr. unfold xsk_umem__delete. rewrite (proj2 (Z.eqb_neq _ _) Hum). mget ltac:(exact Hu3).
    unfold c_true. by rewrite (proj2 (Z.eqb_neq _ _) Hr).
Qed.

(** ** What goes wrong *)

(** If [socket] fails for a socket that shares a umem, the umem's count keeps
    the failed attempt, and the umem can never be deleted: [umem->refcount] was
    incremented in the condition and out_xsk_alloc does not decrement it. *)
Theorem socket_failure_keeps_count s e ifname q umem u rx tx fill comp config xsk ifindex errno :
  umem <> 0 -> rx <> 0 -> s_umem s !! umem = Some u -> 0 < um_refcount u -> ce_alloc e = Some xsk -> ce_ifindex e = inr ifindex ->
  xsk_set_xdp_socket_config (Some config) = inr config -> ce_socket e = inl errno ->
  exists s', xsk_socket__create_shared e true ifname q umem rx tx fill comp (Some config) s = Some ((- errno, 0), s') /\
    um_refcount <$> s_umem s' !! umem = Some (um_refcount u + 1).
Proof.
  intros Hum Hrx Hu Hpos Ha Hi Hc Hs. unfold xsk_socket__create_shared. rewrite !(proj2 (Z.eqb_neq _ 0)) by done. cbn [negb orb andb].
  rewrite Ha, Hc, Hi, Hs. mrun. mget ltac:(exact Hu). mrun. rewrite (proj2 (Z.ltb_lt _ _) Hpos). mrun.
  eexists. split; [reflexivity |]. cbn. by rewrite lookup_insert_eq.
Qed.

(** If the completion ring cannot be mapped, the fill ring stays mapped: the
    error path unmaps the address [mmap] just failed to give. *)
Theorem comp_failure_leaks_fill s e config fill comp off mf errno :
  is_Some (s_rings s !! fill) -> re_fill_opt e = None -> re_comp_opt e = None -> gives (re_off e) off ->
  re_map_fill e = inr mf -> re_map_comp e = inl errno ->
  exists s', xsk_create_umem_rings e config fill comp s = Some (- errno, s') /\
    s_world s' = mmap_at (s_world s) mf (map_len (off_fr off) (uc_fill_size config) SIZEOF_U64).
Proof.
  intros [f Hf] E1 E2 Hoff E3 E4. unfold xsk_create_umem_rings. rewrite E1, E2, E3, E4. erewrite bind_run; [| apply Hoff].
  cbn [snd]. mrun. mget ltac:(exact Hf). mrun. eexists. split; [reflexivity |]. done.
Qed.

(** If the interface's program cannot be looked up, [xsk_setup_xdp_prog]
    closes the error code that [ctx->xdp_prog] was left with. *)
Theorem lookup_failure_closes_error s ie e ifindex xsk ctx name err :
  ie_xsk ie = Some xsk -> ie_ctx ie = Some ctx -> ie_name ie = inr name -> 15 <= zlen name ->
  pe_lookup e = inl err -> err < 0 -> err ∉ s_progs s ->
  xsk_setup_xdp_prog ie e ifindex s = None.
Proof.
  intros E1 E2 E3 Hn E4 Herr Hp. unfold xsk_setup_xdp_prog, xsk_init_xsk_struct, copy_name. rewrite E1, E2, E3. cbv zeta. mrun.
  rewrite bytes_at_Some by (simpl; lia). erewrite bind_run; [| reflexivity]. mrun. cbn [fst snd Z.eqb negb].
  unfold xsk_setup_prog. mrun. mget ltac:(apply lookup_insert_eq). rewrite E4. mrun.
  unfold xsk_destroy_xsk_struct. mrun. mget ltac:(apply lookup_insert_eq). cbn [set_ctx_prog cx_xdp_prog]. mrun.
  unfold bind, prog_close. rewrite (proj2 (Z.eqb_neq err 0)) by lia. by rewrite decide_False.
Qed.

(** ** A umem with two sockets *)

Definition ex_words : list Z := [0; 64; 320; 128; 0; 64; 320; 128; 0; 64; 320; 128; 0; 64; 320; 128].
Definition ex_yes : offsets_answer := inr (128, ex_words).
Definition ex_ro : ring_offset := offset4 0 64 320 128.
Definition ex_off : mmap_offsets := {| off_rx := ex_ro; off_tx := ex_ro; off_fr := ex_ro; off_cr := ex_ro |}.
Definition ex_ring : xsk_ring :=
  {| xr_cached_prod := 0; xr_cached_cons := 0; xr_mask := 0; xr_size := 0; xr_producer := 0; xr_consumer := 0; xr_ring := 0; xr_flags := 0 |}.
Definition ex_rings (mf mc : Z) : rings_env :=
  {| re_fill_opt := None; re_comp_opt := None; re_off := ex_yes; re_map_fill := inr mf; re_map_comp := inr mc |}.
Definition ex_start : xst :=
  {| s_world := {| w_maps := ∅; w_fds := ∅ |}; s_umem := ∅; s_ctx := ∅; s_sock := ∅;
     s_rings := list_to_map (map (fun a => (a, ex_ring)) [10; 11; 12; 13; 14]); s_progs := ∅; s_errno := 0 |}.
Definition ex_umem_env : umem_env :=
  {| ue_pagesize := 4096; ue_alloc := Some 1; ue_socket := inr 3; ue_reg := None; ue_rings := ex_rings 4096 8192 |}.
(** After [xsk_umem__create]. *)
Definition ex_state : xst :=
  match xsk_umem__create ex_umem_env true 65536 8192 10 11 None ex_start with Some (_, s) => s | None => ex_start end.
Definition ex_umem : xsk_umem := default
  {| um_fill_save := 0; um_comp_save := 0; um_area := 0; um_config := xsk_set_umem_config None; um_fd := 0; um_refcount := 0;
     um_ctx_list := []; um_rx_done := false; um_tx_done := false |} (s_umem ex_state !! 1).

Definition ex_setup (prog refcnt_fd incr xsks : Z) : setup_env :=
  {| pe_lookup := inr (Some prog); pe_refcnt := refcnt_fd; pe_incr := incr; pe_find := inl (- ENOENT); pe_size := 0; pe_attach := 0;
     pe_refcnt_new := - ENOENT; pe_xsks := xsks; pe_update := 0 |}.
(** The first socket is at 2 and its context at 4; a second one is at 3, has the
    descriptor 5 and shares the context. *)
Definition ex_env (xsk fd rm : Z) (bind : option Z) (setup : setup_env) : create_env :=
  {| ce_alloc := Some xsk; ce_ifindex := inr 7; ce_socket := inr fd; ce_cookie := inl ENOPROTOOPT; ce_ctx := Some 4;
     ce_rings := ex_rings 40960 45056; ce_rx_opt := None; ce_tx_opt := None; ce_off := ex_yes; ce_rx_map := inr rm;
     ce_rx_index := (0, 0); ce_tx_map := inr (rm + 4096); ce_tx_index := (0, 0); ce_bind := bind; ce_setup := setup;
     ce_off_put := ex_yes |}.
Definition ex_name : list byte := replicate 16 NUL.
Definition ex_config (flags : Z) : socket_config :=
  {| sc_rx_size := 64; sc_tx_size := 64; sc_libbpf_flags := flags; sc_xdp_flags := 0; sc_bind_flags := 0 |}.

Lemma ex_gives : gives ex_yes ex_off.
Proof. done. Qed.

Lemma ex_attempt bind : (forall n, bind = Some n -> 0 < n) ->
  attempt ex_state (ex_env 2 9 16384 bind (ex_setup 0 0 0 0)) ex_off 1 ex_umem 2 3 12 13 10 11 4096 8192 ex_name (Some (ex_config 1)).
Proof.
  intros Hbind. split.
  - by split.
  - done.
  - done.
  - done.
  - by vm_compute.
  - by left.
  - intros _. split; [done |]. split; [| done].
    do 2 eexists. split; [vm_compute; reflexivity |]. split; [vm_compute; reflexivity |]. done.
  - intros a c Ha. change (s_ctx ex_state) with (∅ : gmap Z xsk_ctx) in Ha. by rewrite lookup_empty in Ha.
  - split; try done.
    + by intros a [= <-].
    + intros config [= <-]. split; try done; try (by left); try (by right); try (intros n; done).
      * intros a [= <-]. by split_and!.
      * intros a [= <-]. by split_and!.
    + split; try done; try (by right).
      * intros a Ha. change (um_ctx_list ex_umem) with (@nil Z) in Ha. by apply elem_of_nil in Ha.
      * intros n [= <-]. done.
      * intros a [= <-]. split_and!; try done. by apply not_elem_of_nil.
      * intros a [= <-]. done.
      * intros a [= <-]. by split_and!.
Qed.


(** The whole life of two sockets with a program: the second one shares the
    context of the first and overwrites its program and the map's descriptor, so
    that deleting both closes them twice. *)
Definition ex_two (prog1 prog2 : Z) : M unit :=
  xsk_socket__create_shared (ex_env 2 9 16384 None (ex_setup prog1 20 1 21)) true ex_name 0 1 12 0 10 11 (Some (ex_config 0)) ;;
  xsk_socket__create_shared (ex_env 3 5 24576 None (ex_setup prog2 22 2 23)) true ex_name 0 1 13 0 10 11 (Some (ex_config 0)) ;;
  xsk_socket__delete ex_yes ex_yes 2.

Theorem shared_context_closes_twice :
  is_Some (ex_two 30 31 ex_state) /\ (ex_two 30 31 ;; xsk_socket__delete ex_yes ex_yes 3) ex_state = None.
Proof. split; [vm_compute; by eexists | by vm_compute]. Qed.

(** A first socket with other ring structs than the umem's: when binding fails the
    rings the umem was created with are unmapped, and the umem still names them. *)
Theorem other_structs_unmap_own :
  w_maps (s_world ex_state) = {[ 4096 := 16704; 8192 := 16704 ]} /\
  exists s', xsk_socket__create_shared (ex_env 2 9 16384 (Some EBUSY) (ex_setup 0 0 0 0)) true ex_name 0 1 12 0 13 14
      (Some (ex_config 1)) ex_state = Some ((- EBUSY, 0), s') /\
    w_maps (s_world s') = ∅ /\ um_fill_save <$> s_umem s' !! 1 = Some 10.
Proof. split; [by vm_compute |]. eexists. split; [vm_compute; reflexivity |]. by vm_compute. Qed.
